(* ===== verification/_CoqProject ===== *)
-Q . S2P
Prelude.v
Bytes.v
Pmm.v
Kmalloc.v
VfsNode.v
KFile.v
Ring.v
KPipe.v
ProcFd.v
BlockCache.v
PersistFs.v
PersistInv.v
PersistLayout.v
Vfs.v
VfsRam.v
TarFs.v
Paging.v
PagingMap.v
PagingCow.v
PagingFork.v
UserMem.v
Sched.v
SchedInv.v
SchedRun.v
SchedMem.v
Elf.v
ElfFormat.v
ElfSpec.v
ElfRead.v
SysPath.v
CmdLine.v
StartStack.v
Keyboard.v
Console.v
Framebuffer.v
Gui.v
GuiDraw.v
GuiSpec.v
GuiScreen.v
User.v
Syscall.v
KernelInv.v
SyscallInv.v
Machine.v
KernelRun.v
SyscallSpec.v
Decimal.v
Shell.v
ShellSpec.v
ShellRead.v
ShellVars.v
ShellExpand.v
Memmap.v
