(* ===== verification/Prelude.v ===== *)
(** SkezOS kernel: verification library.

    SkezOS is a 32-bit x86 teaching kernel in C.  This library models its core
    logic, the parts of src/kernel/ that compute and keep state rather than
    program hardware, and the language of the shell (src/userland/sh_slot4.c), and
    proves what makes each part correct.

    * The parts and how they interact

    - Pmm.v: pmm.c, the bitmap allocator of physical frames.
    - Memmap.v: memmap.c, which reads the boot loader's memory map and frees and
      reserves frames by it (Pmm.v); it hands the frame buffer on to Framebuffer.v.
    - Kmalloc.v: kmalloc.c, the kernel heap.  Pipes, open files of persistfs
      and the nodes of tarfs live in its blocks.
    - VfsNode.v, Vfs.v, VfsRam.v: vfs.c.  A node of the name space has a table
      of operations; a path is walked through the nodes' lookups, and opening,
      creating, unlinking and listing call the node they find.  VfsRam.v is
      the root directory with its ramfiles, PersistFs.v and TarFs.v are the two
      other file systems that hang their nodes below the root.
    - KFile.v: kfile.c, open file objects that dispatch to a backend's table of
      operations; KPipe.v: kpipe.c, the pipe backend; ProcFd.v: proc_fd.c, the
      descriptor tables of processes, which own open files.
    - BlockCache.v: block_cache.c over block_device.c, a write-through cache of
      disk sectors over any driver.
    - PersistFs.v: persistfs.c over the block cache: definitions.  PersistInv.v
      proves the accounting of its blocks, PersistLayout.v what the bytes of its
      file table become on disk and back.
    - TarFs.v: tarfs.c, the archive of initial programs.
    - Paging.v: paging.c, page tables, address spaces and copy on write, over a
      memory of pages, the heap and the frame allocator; PagingMap.v,
      PagingCow.v and PagingFork.v prove what it does to the meaning of
      addresses, on faults and on a fork.  UserMem.v: memset and memcpy of
      utils.c through the page tables in force.
    - Sched.v: sched.c, the task table and the scheduler, with uaccess.c, the
      timer interrupt of timer.c and the page fault handler of interrupts.c.  It
      owns the memory (Paging.v) and the file backends (any [FileOps]); a task
      holds a descriptor table (ProcFd.v) and an address space.  SchedInv.v is
      its invariant, SchedRun.v its runs, SchedMem.v the copies to user memory.
    - Elf.v: elf32_loader.c, which reads an executable into a heap block and
      stores its segments through the page tables; ElfFormat.v: the format, written
      without the loader; ElfSpec.v: what is accepted and what memory holds then, in
      the terms of ElfFormat.v; ElfRead.v: the reading loop.
    - CmdLine.v, StartStack.v: of usermode.c, the parsing of command lines and the
      stack a program starts with.  User.v: the rest of usermode.c, the first
      programs, the child slots through which a program is handed to the task that
      will run it, and what such a task does from its entry to user mode.
    - SysPath.v: of syscall.c, relative paths.  Syscall.v: the rest of syscall.c,
      every system call and the dispatch; it calls the files, the pipes, the
      scheduler, the user copies, the windows and User.v.
    - KernelInv.v: the ownership invariant of the whole kernel ([own], [good]) and
      that the operations of sched.c and usermode.c keep it; SyscallInv.v: that each
      system call keeps it; KernelRun.v: events and runs of the kernel;
      SyscallSpec.v: spawning a program and making a pipe, on every branch;
      Machine.v: a concrete machine (pipes, a null device and one program), on which
      runs are evaluated.
    - Keyboard.v: keyboard.c and mouse.c; Console.v: serial.c and the console
      device of vfs.c, which reads the keyboard's buffer.  Ring.v: the ring buffer
      they share with the window system's event queues.
    - Framebuffer.v, Gui.v: display.c, the frame buffer with its drawing functions
      and the window system, whose surfaces are heap blocks (Kmalloc.v) and which
      takes keys from Keyboard.v.  GuiDraw.v proves what drawing does, GuiSpec.v
      that the state stays in order, GuiScreen.v that the screen shows it.
    - Shell.v: of userland/sh_slot4.c, words, pipelines and the command lines that
      programs are started with; ShellSpec.v: that they come through the kernel's
      parser (CmdLine.v) unchanged, and a printer whose output is read back;
      ShellRead.v: a grammar of lines, written without the shell, by which every line
      that is accepted is read.
      ShellVars.v: the table of variables and assignments, ShellExpand.v: the
      grammar of variable expansion.  Decimal.v: decimal numbers.
    - Bytes.v: buffers, slices and 32-bit words in memory, shared by all.

    The interfaces between parts are type classes.  [FileOps] and [FileLaws]
    (KFile.v): what a backend's retain and close promise about references;
    ProcFd.v is proved against the laws, KPipe.v discharges them for pipes.
    [NodeOps] and [NodeLaws] (Vfs.v): the operations of nodes, and that they look
    at no byte behind the name they are given.  [DeviceLaws] (BlockCache.v): a
    driver is an array of sectors whose failed writes damage only their own
    sector; the theorems about the cache and the file table hold for any such
    driver, and a disk in memory is an instance.  [TaskHooks] (Sched.v): whom the
    scheduler tells that a task is gone.  [ReadLaws] (ElfRead.v): a file system
    whose reads give at most the bytes asked for.  [InputSink] (Keyboard.v): the
    window system as the keyboard and the mouse see it, and [DisplayOut]
    (Console.v): where the console puts its characters.  [KernelParts] and
    [PipeOps] (User.v, Syscall.v): where, beside the files, the kernel's state
    holds the variables of usermode.c, the console and the windows, and how pipes
    are made; [CallLaws] (KernelInv.v): what system calls rely on in the file
    backends, that opening gives one reference, that reading and writing keep the
    one they use, and that no backend touches the variables of usermode.c.
    Machine.v discharges all of them.

    * How C is modelled

    A [uint32_t] is a [Z] in [[0, 2^32)] and its arithmetic wraps ([add32],
    [sub32], [mul32]); bit operations are those of [Z].  Structures are
    records with the source's fields, file-scope variables the fields of a
    state record that every function takes and returns.  An array is a list
    indexed by [Z] ([l.[i]], [l.[i <- x]]); the invariants show that the code
    reads and writes it in range.  A return code is an [Err] with its
    [KERR_x], success is [Ok] of what the out-parameters receive (kerrno.h).

    Pointers: a structure that a caller passes by address is passed by value
    and returned.  Null tests of arguments that no caller can pass as null (the
    object itself, out-parameters) are not represented; those of buffers are
    ([has_buf], an [option]).  Addresses that are kept in structures (heap
    blocks, list links) are numbers, 0 is the null pointer.  A C string is the
    list of its bytes, and a pointer into it the rest of the list; reading
    past its end gives the terminating NUL.

    Loops over a fixed range are [for_range] and [search_range], which need no
    fuel.  Other loops recur on the list they walk or take fuel: the rounds of
    the reclaim loop of the heap ([reclaim_fuel], one more than its records),
    the components of a path (its length: each round passes a byte), the
    siblings of a tarfs directory ([tar_fuel], one more than the nodes: a chain
    has no repetitions), the rounds of persistfs reads and writes (the number
    of bytes: each round moves at least one), the rounds of reading an executable
    ([read_fuel], one more than its bytes) and of walking its headers
    ([load_fuel], more than [e_phnum] can hold), the arguments of a command line
    and the components of a relative path (the length of the line, of the path:
    each round passes a character), the tokens and characters of a shell line
    (the length of the line), and the tags and entries of the boot loader's
    information ([fuel_enough]: as many as there are).  That the fuel is enough is part
    of the theorems, or, where a loop may really not end, the result is [None]
    without enough fuel: a pipe whose other end never acts, and an archive on
    which [tarfs_parse_blob_hangs] proves that no fuel is ever enough.

    Critical sections, in which the code disables interrupts, are atomic; what
    other tasks do between two of them is an argument (KPipe.v) or a second
    operation (BlockCache.v, [read_race_stale]).  A function that switches to
    another task ends there with the state in which that task goes on; what the
    first one does when it runs again is a step of its own ([wait_round] for the
    loop of waitpid), and SchedRun.v and KernelRun.v let any steps follow each
    other.  In KernelRun.v a system call, the start of a program and an interrupt
    are one step each: that a timer tick preempts a system call half way, or that
    other tasks run while one is blocked in the read or write of a pipe, is not
    represented there (KPipe.v and SchedRun.v cover the parts); a law of the backend
    says that references are as before when such a call returns.  Entry functions,
    configurations and slots are numbers there, and each part that allocates has its
    own view of the kernel heap.

    * What the theorems show

    - Memory map: which frames are free after boot, exactly, for any information
      the boot loader hands over.
    - Frames: in every reachable state the counters equal the bitmap's; a
      reserved region is never handed out; every operation's exact effect.
    - Heap: blocks handed out, small and large, are aligned, inside the heap and
      disjoint and every counter is exact, for any sequence of calls; freeing
      everything coalesces the large region.  The
      invariant [heap_wf] says that small blocks end below [small_ptr], that the
      used records tile the memory from [large_ptr] to the top in whole pages
      with the lowest one in use, and that the counters are exact.
    - Descriptors and pipes: over any sequence of dup, dup2, close, fork and
      exit in any processes the reference counts are exact, and the blocks of the
      heap are those of the pipes that descriptors refer to; a pipe is a lossless bounded queue under any
      interleaving of its critical sections, and blocked calls return as soon
      as the other side lets them.
    - Paths: looking up, opening and unlinking are equal to reference
      definitions on the list of the path's components.
    - Ramfiles: the root directory and the ramfile table always agree; what is
      written is read back.
    - Block cache: a refinement of the device, except for sectors whose last
      write failed.
    - persistfs: whatever operations run and whichever sectors fail, no block
      belongs to two files, none leaks, and growing a file is all or nothing, its
      blocks and the bitmap included;
      the sanity pass repairs the bitmap.
    - tarfs: adding an entry adds exactly its path with its contents, or is refused
      for one of three reasons; an
      archive's files are read inside the archive.

    - Paging: start-up, kernel mappings and user regions change the meaning of
      exactly the intended addresses; a write fault on a shared page disturbs no
      memory in use, whatever the table of counts holds (what it finds there is the
      frame's count only while its entries are contiguous); a fork gives the child the parent's memory, shared read-only.
    - Scheduler: in every reachable state the task table is consistent and the
      next step does not panic; a task that can run is never starved; waitpid on
      every branch, and the exit code of a child reaches its parent; user copies
      happen exactly inside the windows of the task.
    - Executables and start: exactly the valid executables are accepted, their
      image is in memory byte for byte, reading ends; the command line parser is a
      grammar's decision procedure, the start stack holds its arguments, and a
      relative path is followed component by component.
    - Shell: every line that is accepted fits its arrays, is read as the grammar
      says, and each program gets the words that were typed; any pipeline can be written so that it is read back;
      the variables are a bounded finite map, and expansion decides its grammar.
    - System calls: over any run of fewer than 2^31 - 2 completed events from boot through programs that start, call, wait,
      fault and exit, open files are counted exactly by the descriptors of live
      tasks, and child slots belong to the tasks started for them; spawning a program
      and making a pipe do everything or leave nothing behind.  A task that returns
      from its entry function with descriptors it inherited is excluded
      ([event_allowed]): its descriptors leak ([early_exit_leaks_descriptors]).
    - Input and output: without windows what is typed is read once, in order, by the
      owner of the console (by any task while the kernel owns it); the lines of concurrent writers do not mix.
    - Windows: the state of the window system stays in order along every run of fewer
      than 2^31 - 1 window creations in which no flush leaves its surface (one whose
      rectangle wraps can: the store into the heap is [None] in Gui.v), and after
      every operation each pixel of the screen is the one that redrawing everything
      would give, although only marked rectangles are redrawn, if also no flush
      faults half way and every window has room for its title; a frame
      buffer that is accepted is mapped past the caches and lies in its mapping.

    Some theorems state behaviour that is wrong: [kmalloc_huge_size],
    [flush_failure_stale], [read_race_stale], [table_reload], [ram_stale_handle],
    [ram_truncate_exposes], [tarfs_parse_blob_hangs], [cow_remove_hides],
    [cow_isolation_lost], [dot_slash_slash_refused], [window_key_read_twice],
    [clone_failure_frees_pages], [kernel_copy_ignores_cow], [early_exit_leaks_descriptors],
    [single_quoted_backslash].

    * What is not modelled

    Hardware programming (descriptor tables, interrupt controllers and gates,
    timer and UART set-up, VGA, the port protocol of ATA), logging, boot code,
    and assembly: they have no state a pure function could follow.  User programs,
    except the parts of the shell named above: not its line editor, history, jobs,
    built-in commands and the launching of pipelines.
    Of display.c the shell screen: its panels, log views and status lines are
    pictures of text, drawn with the functions of Framebuffer.v.  In Memmap.v
    memory does not change while the tags are walked: the boot loader's information
    must not lie where the allocator puts its bitmap.  Statistics printed to the log and assertions
    of self-checks have no definition. *)

From Stdlib Require Export ZArith Lia.
From stdpp Require Export base numbers option gmap list_basics list_relations list_monad list.

#[export] Set Default Goal Selector "!".
Global Open Scope Z_scope.

(** * Error codes and results

    kernel/kerrno.h: every kernel API returns 0 or [-KERR_x].  A call that
    returns [-KERR_x] is [Err KERR_x], a call that returns 0 is [Ok] of the
    values it writes through its out-parameters. *)
Inductive kerr :=
  | KERR_NOENT
  | KERR_INVAL
  | KERR_NOMEM
  | KERR_FAULT
  | KERR_PIPE
  | KERR_NOTSUP.

Definition kerr_code (e : kerr) : Z :=
  match e with
  | KERR_NOENT => 2
  | KERR_INVAL => 22
  | KERR_NOMEM => 12
  | KERR_FAULT => 14
  | KERR_PIPE => 32
  | KERR_NOTSUP => 95
  end.

#[export] Instance kerr_eq_dec : EqDecision kerr.
Proof. solve_decision. Defined.

Inductive res (A : Type) :=
  | Ok (a : A)
  | Err (e : kerr).
Arguments Ok {_} _.
Arguments Err {_} _.

#[export] Instance res_eq_dec {A} `{EqDecision A} : EqDecision (res A).
Proof. solve_decision. Defined.

Definition is_ok {A} (r : res A) : bool :=
  match r with Ok _ => true | Err _ => false end.

Declare Scope kernel_scope.
Delimit Scope kernel_scope with kernel.

(** Early return on an error, the shape [rc = f(); if (rc < 0) return rc;]. *)
Notation "'try!' p ':=' r 'in' k" :=
  (match r with Ok p => k | Err e => Err e end)
  (at level 10, p pattern, r at level 100, k at level 200) : kernel_scope.

(** The same in code that threads a state: the state reached by the failing
    call is kept. *)
Notation "'trys!' p , s ':=' r 'in' k" :=
  (match r with (Ok p, s) => k | (Err e, s) => (Err e, s) end)
  (at level 10, p pattern, s name, r at level 100, k at level 200) : kernel_scope.

Global Open Scope kernel_scope.

(** * 32-bit unsigned arithmetic *)

Definition two32 : Z := 4294967296.

Definition u32 (x : Z) : Z := x mod two32.
Definition add32 (x y : Z) : Z := u32 (x + y).
Definition sub32 (x y : Z) : Z := u32 (x - y).
Definition mul32 (x y : Z) : Z := u32 (x * y).
Definition not32 (x : Z) : Z := two32 - 1 - x.
Definition bit32 (b : Z) : Z := Z.shiftl 1 b.
(** [1U << (i % 32)] against a word: the test every bitmap of the kernel uses. *)
Definition test_bit (w b : Z) : bool := negb (Z.land w (bit32 b) =? 0).

Abbreviation is_u32 x := (0 ≤ x < two32).

Lemma u32_range x : is_u32 (u32 x).
Proof. apply Z.mod_pos_bound. reflexivity. Qed.

Lemma u32_small x : is_u32 x → u32 x = x.
Proof. apply Z.mod_small. Qed.

Lemma add32_small x y : is_u32 (x + y) → add32 x y = x + y.
Proof. apply u32_small. Qed.

Lemma sub32_small x y : is_u32 (x - y) → sub32 x y = x - y.
Proof. apply u32_small. Qed.

(** An unsigned sum wraps exactly when it is smaller than an operand: the
    overflow test [a + b < a] the loaders and range checks rely on. *)
Lemma add32_wrap_iff x y :
  is_u32 x → is_u32 y → (add32 x y < x ↔ two32 ≤ x + y).
Proof.
  intros Hx Hy. unfold add32, u32, two32 in *.
  destruct (Z.lt_ge_cases (x + y) 4294967296).
  - rewrite Z.mod_small; lia.
  - replace (x + y) with (x + y - 4294967296 + 1 * 4294967296) by lia.
    rewrite Z.mod_add, Z.mod_small; lia.
Qed.

Lemma add32_nowrap x y :
  is_u32 x → is_u32 y → x ≤ add32 x y → add32 x y = x + y ∧ x + y < two32.
Proof.
  intros Hx Hy H. pose proof (add32_wrap_iff x y Hx Hy).
  assert (x + y < two32) by lia.
  split; [apply add32_small|]; unfold two32 in *; lia.
Qed.

(** Rounding to a power of two: [v & ~(align - 1)] and
    [(v + align - 1) & ~(align - 1)]. *)
Definition align_down_z (v align : Z) : Z := Z.land v (not32 (sub32 align 1)).
Definition align_up_z (v align : Z) : Z := align_down_z (sub32 (add32 v align) 1) align.

Lemma land_not_ones v k :
  is_u32 v → 0 ≤ k ≤ 32 → Z.land v (not32 (2 ^ k - 1)) = v - v mod 2 ^ k.
Proof.
  intros Hv Hk.
  assert (Hn : not32 (2 ^ k - 1) = Z.ldiff (Z.ones 32) (Z.ones k)).
  { rewrite <- Z.sub_nocarry_ldiff.
    - unfold not32. rewrite !Z.ones_equiv. unfold two32. lia.
    - apply Z.bits_inj'. intros n Hn.
      rewrite Z.ldiff_spec, Z.bits_0.
      destruct (Z.lt_ge_cases n k).
      + rewrite (Z.ones_spec_low 32 n) by lia. apply andb_false_r.
      + rewrite (Z.ones_spec_high k n) by lia. reflexivity. }
  rewrite Hn, <- Z.land_ones by lia.
  assert (H1 : v = Z.land v (Z.ones 32)).
  { rewrite Z.land_ones by lia. symmetry. apply Z.mod_small. unfold two32 in Hv. lia. }
  rewrite Z.sub_nocarry_ldiff.
  - apply Z.bits_inj'. intros n Hn'.
    rewrite H1 at 2. rewrite H1 at 1.
    rewrite !Z.land_spec, !Z.ldiff_spec, !Z.land_spec.
    destruct (Z.testbit v n), (Z.testbit (Z.ones 32) n), (Z.testbit (Z.ones k) n); reflexivity.
  - apply Z.bits_inj'. intros n Hn'.
    rewrite Z.ldiff_spec, Z.land_spec, Z.bits_0.
    destruct (Z.testbit v n), (Z.testbit (Z.ones k) n); reflexivity.
Qed.

Lemma align_down_4096 v : is_u32 v → align_down_z v 4096 = v - v mod 4096.
Proof.
  intros Hv. unfold align_down_z.
  change (sub32 4096 1) with (2 ^ 12 - 1).
  rewrite land_not_ones by (unfold two32 in *; lia). reflexivity.
Qed.

Lemma align_up_4096 v :
  0 ≤ v → v + 4095 < two32 → align_up_z v 4096 = v + 4095 - (v + 4095) mod 4096.
Proof.
  intros Hv Hb. unfold align_up_z.
  destruct (Z.lt_ge_cases (v + 4096) two32).
  - rewrite add32_small by (unfold two32 in *; lia).
    rewrite sub32_small by (unfold two32 in *; lia).
    replace (v + 4096 - 1) with (v + 4095) by lia.
    apply align_down_4096. lia.
  - assert (v = two32 - 4096) as -> by lia. reflexivity.
Qed.

(** * Bits of a word *)

Lemma bit32_testbit b n : 0 ≤ b → 0 ≤ n → Z.testbit (bit32 b) n = bool_decide (n = b).
Proof.
  intros Hb Hn. unfold bit32. rewrite Z.shiftl_spec by lia.
  case_bool_decide.
  - subst. rewrite Z.sub_diag. reflexivity.
  - destruct (Z.lt_ge_cases n b).
    + apply Z.testbit_neg_r. lia.
    + change 1 with (2 ^ 0). apply Z.pow2_bits_false. lia.
Qed.

Lemma test_bit_testbit w b : 0 ≤ b → test_bit w b = Z.testbit w b.
Proof.
  intros Hb. unfold test_bit.
  assert (Hl : Z.land w (bit32 b) = if Z.testbit w b then bit32 b else 0).
  { apply Z.bits_inj'. intros n Hn. rewrite Z.land_spec, bit32_testbit by lia.
    case_bool_decide as He.
    - subst. destruct (Z.testbit w b) eqn:E.
      + rewrite bit32_testbit by lia. rewrite bool_decide_true; done.
      + rewrite Z.bits_0. done.
    - rewrite andb_false_r. destruct (Z.testbit w b).
      + rewrite bit32_testbit by lia. rewrite bool_decide_false; done.
      + by rewrite Z.bits_0. }
  rewrite Hl. destruct (Z.testbit w b) eqn:E; [|done].
  unfold bit32. rewrite Z.shiftl_mul_pow2 by lia.
  destruct (Z.eqb_spec (1 * 2 ^ b) 0); [|done].
  pose proof (Z.pow_pos_nonneg 2 b). lia.
Qed.

Lemma u32_testbit_high w n : is_u32 w → 32 ≤ n → Z.testbit w n = false.
Proof.
  intros Hw Hn. rewrite <- (Z.mod_small w (2 ^ 32)) by (unfold two32 in Hw; lia).
  apply Z.mod_pow2_bits_high. lia.
Qed.

Lemma u32_of_bits w : (∀ n, 32 ≤ n → Z.testbit w n = false) → is_u32 w.
Proof.
  intros Hb.
  assert (Heq : w = w mod 2 ^ 32).
  { rewrite <- Z.land_ones by lia. apply Z.bits_inj'. intros n Hn. rewrite Z.land_spec.
    destruct (Z.lt_ge_cases n 32).
    - rewrite Z.ones_spec_low by lia. by rewrite andb_true_r.
    - rewrite Hb by lia. done. }
  rewrite Heq. apply (Z.mod_pos_bound _ (2 ^ 32)). lia.
Qed.

Lemma not32_testbit x n :
  is_u32 x → 0 ≤ n → Z.testbit (not32 x) n = (n <? 32) && negb (Z.testbit x n).
Proof.
  intros Hx Hn.
  assert (Heq : not32 x = Z.ldiff (Z.ones 32) x).
  { rewrite <- Z.sub_nocarry_ldiff.
    - unfold not32. rewrite Z.ones_equiv. unfold two32. lia.
    - apply Z.bits_inj'. intros m Hm. rewrite Z.ldiff_spec, Z.bits_0.
      destruct (Z.lt_ge_cases m 32).
      + rewrite Z.ones_spec_low by lia. apply andb_false_r.
      + rewrite u32_testbit_high by done. done. }
  rewrite Heq, Z.ldiff_spec. destruct (Z.ltb_spec n 32).
  - by rewrite Z.ones_spec_low by lia.
  - by rewrite Z.ones_spec_high by lia.
Qed.

Lemma bit32_u32 b : 0 ≤ b < 32 → is_u32 (bit32 b).
Proof.
  intros Hb. apply u32_of_bits. intros n Hn.
  rewrite bit32_testbit by lia. apply bool_decide_false. lia.
Qed.

Lemma lor_u32 w x : is_u32 w → is_u32 x → is_u32 (Z.lor w x).
Proof.
  intros Hw Hx. apply u32_of_bits. intros n Hn.
  rewrite Z.lor_spec, !u32_testbit_high by done. done.
Qed.

Lemma land_u32 w x : is_u32 w → is_u32 (Z.land w x).
Proof.
  intros Hw. apply u32_of_bits. intros n Hn.
  rewrite Z.land_spec, u32_testbit_high by done. done.
Qed.

(** Setting and clearing one bit of a word. *)
Lemma test_bit_set w b c :
  0 ≤ b → 0 ≤ c → test_bit (Z.lor w (bit32 b)) c = bool_decide (b = c) || test_bit w c.
Proof.
  intros Hb Hc. rewrite !test_bit_testbit, Z.lor_spec, bit32_testbit by lia.
  rewrite orb_comm. f_equal. by apply bool_decide_ext.
Qed.

Lemma test_bit_clear w b c :
  is_u32 w → 0 ≤ b < 32 → 0 ≤ c →
  test_bit (Z.land w (not32 (bit32 b))) c = negb (bool_decide (b = c)) && test_bit w c.
Proof.
  intros Hw Hb Hc. rewrite !test_bit_testbit, Z.land_spec by lia.
  pose proof (bit32_u32 b Hb).
  rewrite not32_testbit, bit32_testbit by lia. rewrite (bool_decide_ext (c = b) (b = c)) by done.
  destruct (Z.ltb_spec c 32); simpl.
  - apply andb_comm.
  - rewrite u32_testbit_high by done. by rewrite !andb_false_r.
Qed.

(** * Arrays

    A C array is a list indexed by [Z].  Reads and writes out of range have no
    meaning in C; here they give the type's inhabitant and change nothing, and
    the invariants of the components show that they do not happen. *)
Section arrays.
Context {A : Type} `{!Inhabited A}.

Definition alen (l : list A) : Z := Z.of_nat (length l).
Definition aget (l : list A) (i : Z) : A := l !!! Z.to_nat i.
Definition aset (l : list A) (i : Z) (x : A) : list A := <[Z.to_nat i := x]> l.

Lemma alen_aset l i x : alen (aset l i x) = alen l.
Proof. unfold alen, aset. by rewrite length_insert. Qed.

Lemma alen_nonneg l : 0 ≤ alen l.
Proof. unfold alen. lia. Qed.

Lemma aget_aset_eq l i x : 0 ≤ i < alen l → aget (aset l i x) i = x.
Proof.
  unfold alen, aget, aset. intros Hi.
  apply list_lookup_total_insert_eq. lia.
Qed.

Lemma aget_aset_ne l i j x : 0 ≤ i → 0 ≤ j → i ≠ j → aget (aset l i x) j = aget l j.
Proof.
  unfold aget, aset. intros Hi Hj Hij.
  apply list_lookup_total_insert_ne. lia.
Qed.

Lemma aset_aset l i x y : aset (aset l i x) i y = aset l i y.
Proof. unfold aset. by rewrite list_insert_insert_eq. Qed.

Lemma aset_id l i : 0 ≤ i < alen l → aset l i (aget l i) = l.
Proof.
  unfold alen, aset, aget. intros Hi. apply list_insert_id.
  apply list_lookup_lookup_total_lt. lia.
Qed.

Lemma aget_lookup l i : 0 ≤ i < alen l → l !! Z.to_nat i = Some (aget l i).
Proof. unfold alen, aget. intros Hi. apply list_lookup_lookup_total_lt. lia. Qed.

Lemma aget_replicate n x i : 0 ≤ i < Z.of_nat n → aget (replicate n x) i = x.
Proof. intros Hi. unfold aget. apply lookup_total_replicate_2. lia. Qed.

Lemma alen_replicate n x : alen (replicate n x) = Z.of_nat n.
Proof. unfold alen. by rewrite length_replicate. Qed.

Lemma alist_eq (l k : list A) :
  alen l = alen k → (∀ i, 0 ≤ i < alen l → aget l i = aget k i) → l = k.
Proof.
  unfold alen, aget. intros Hlen Hget.
  apply (list_eq_same_length _ _ (length l)); [lia|done|].
  intros i x y Hi Hx Hy.
  specialize (Hget (Z.of_nat i) ltac:(lia)). rewrite Nat2Z.id in Hget.
  apply list_lookup_total_correct in Hx, Hy. congruence.
Qed.

Lemma Forall_aget (P : A → Prop) l i : Forall P l → 0 ≤ i < alen l → P (aget l i).
Proof.
  intros HF Hi. apply (Forall_lookup_1 P l (Z.to_nat i)); [done|].
  by apply aget_lookup.
Qed.

Lemma Forall_aset (P : A → Prop) l i x : Forall P l → P x → Forall P (aset l i x).
Proof. intros HF Hx. unfold aset. by apply Forall_insert. Qed.

Lemma aset_app_len (l k : list A) x y : aset (l ++ x :: k) (alen l) y = l ++ y :: k.
Proof.
  unfold aset, alen. rewrite Nat2Z.id.
  rewrite insert_app_r_alt by lia. by rewrite Nat.sub_diag.
Qed.
End arrays.

Notation "l .[ i ]" := (aget l i) (at level 1, left associativity, format "l .[ i ]") : kernel_scope.
Notation "l .[ i <- x ]" := (aset l i x) (at level 1, left associativity, format "l .[ i <- x ]") : kernel_scope.

Create HintDb arrays.
Create Rewrite HintDb arrays.
#[export] Hint Rewrite @alen_aset @alen_replicate @aset_aset : arrays.
#[export] Hint Rewrite @aget_aset_eq using lia : arrays.
#[export] Hint Rewrite @aget_aset_ne using lia : arrays.
#[export] Hint Resolve Forall_aset : arrays.

Ltac arr := autorewrite with arrays in *.

(** Case analysis on a read of an updated array. *)
Lemma aget_aset {A} `{!Inhabited A} (l : list A) i j x :
  0 ≤ i < alen l → 0 ≤ j →
  aget (aset l i x) j = if decide (i = j) then x else aget l j.
Proof. intros Hi Hj. case_decide; [subst; by apply aget_aset_eq|]. apply aget_aset_ne; lia. Qed.

(** * Loops

    [for (i = a; i < b; i++)]: a fold over [seqZ], and a search that returns at
    the first hit.  Both are structural, so they need no fuel. *)
Definition for_range {S} (a b : Z) (f : Z → S → S) (s : S) : S :=
  foldl (λ s i, f i s) s (seqZ a (b - a)).

Fixpoint search {B} (f : Z → option B) (l : list Z) : option B :=
  match l with
  | [] => None
  | i :: l' => match f i with Some r => Some r | None => search f l' end
  end.

Definition search_range {B} (a b : Z) (f : Z → option B) : option B :=
  search f (seqZ a (b - a)).

(** A loop over the elements of a list that stops at the first error, in code
    that threads a state. *)
Definition each {A S : Type} (f : A → S → res unit * S) : list A → S → res unit * S :=
  fix each l s :=
    match l with
    | [] => (Ok tt, s)
    | x :: l' => trys! _, s := f x s in each l' s
    end.

Lemma for_range_nil {S} a b (f : Z → S → S) s : b ≤ a → for_range a b f s = s.
Proof. intros. unfold for_range. by rewrite seqZ_nil by lia. Qed.

Lemma for_range_cons {S} a b (f : Z → S → S) s :
  a < b → for_range a b f s = for_range (a + 1) b f (f a s).
Proof.
  intros. unfold for_range. rewrite seqZ_cons by lia. simpl.
  replace (Z.pred (b - a)) with (b - (a + 1)) by lia.
  by replace (Z.succ a) with (a + 1) by lia.
Qed.

(** The loop rule: an invariant indexed by the loop counter. *)
Lemma for_range_ind {S} (P : Z → S → Prop) a b (f : Z → S → S) s :
  a ≤ b → P a s →
  (∀ i s, a ≤ i < b → P i s → P (i + 1) (f i s)) →
  P b (for_range a b f s).
Proof.
  intros Hab H0 Hstep.
  remember (Z.to_nat (b - a)) as n eqn:Hn.
  revert a s Hab H0 Hstep Hn. induction n as [|n IH]; intros a s Hab H0 Hstep Hn.
  - assert (a = b) as -> by lia. by rewrite for_range_nil.
  - rewrite for_range_cons by lia. apply IH; [lia| |intros; apply Hstep; [lia|done]|lia].
    apply Hstep; [lia|done].
Qed.

Lemma search_Some {B} (f : Z → option B) a n r :
  search f (seqZ a n) = Some r →
  ∃ i, a ≤ i < a + n ∧ f i = Some r ∧ ∀ j, a ≤ j < i → f j = None.
Proof.
  intros H.
  assert (Hn : 0 < n). { destruct (Z.lt_ge_cases 0 n); [done|]. by rewrite seqZ_nil in H. }
  remember (Z.to_nat n) as k eqn:Hk. revert a n Hn Hk H.
  induction k as [|k IH]; intros a n Hn Hk H; [lia|].
  rewrite seqZ_cons in H by lia. simpl in H. destruct (f a) eqn:E.
  - injection H as ->. exists a. repeat split; [lia|lia|done|]. intros; lia.
  - destruct (decide (n = 1)) as [->|]; [done|].
    apply IH in H as (i & Hi & Hf & Hlt); [|lia|lia].
    exists i. repeat split; [lia|lia|done|].
    intros j Hj. destruct (decide (j = a)) as [->|]; [done|]. apply Hlt. lia.
Qed.

Lemma search_None {B} (f : Z → option B) a n :
  search f (seqZ a n) = None ↔ ∀ i, a ≤ i < a + n → f i = None.
Proof.
  destruct (Z.lt_ge_cases 0 n); [|rewrite seqZ_nil by lia; split; [intros; lia|done]].
  remember (Z.to_nat n) as k eqn:Hk. revert a n H Hk.
  induction k as [|k IH]; intros a n Hn Hk; [lia|].
  rewrite seqZ_cons by lia. simpl. destruct (f a) eqn:E.
  - split; [done|]. intros Ha. specialize (Ha a ltac:(lia)). congruence.
  - destruct (decide (n = 1)) as [->|].
    + split; [|done]. intros _ i Hi. assert (i = a) as -> by lia. done.
    + rewrite (IH (Z.succ a)) by lia. split.
      * intros Ha i Hi. destruct (decide (i = a)) as [->|]; [done|]. apply Ha. lia.
      * intros Ha i Hi. apply Ha. lia.
Qed.

Lemma search_range_Some {B} (f : Z → option B) a b r :
  search_range a b f = Some r →
  ∃ i, a ≤ i < b ∧ f i = Some r ∧ ∀ j, a ≤ j < i → f j = None.
Proof.
  intros (i & Hi & Hr)%search_Some. exists i. split; [lia|done].
Qed.

Lemma search_range_None {B} (f : Z → option B) a b :
  search_range a b f = None ↔ ∀ i, a ≤ i < b → f i = None.
Proof.
  unfold search_range. rewrite search_None. split; intros H i Hi; apply H; lia.
Qed.

(** The first index of a range with a property, as a search. *)
Lemma search_range_first {B} (f : Z → option B) a b i r :
  a ≤ i < b → f i = Some r → (∀ j, a ≤ j < i → f j = None) →
  search_range a b f = Some r.
Proof.
  intros Hi Hf Hlt. destruct (search_range a b f) eqn:E.
  - apply search_range_Some in E as (k & Hk & Hfk & Hltk).
    destruct (Z.lt_trichotomy i k) as [?|[->|?]].
    + rewrite Hltk in Hf by lia. done.
    + congruence.
    + rewrite Hlt in Hfk by lia. done.
  - rewrite search_range_None in E. rewrite E in Hf by lia. done.
Qed.

(** The rule for [each]: an invariant indexed by the elements done, and the
    same invariant at the element that fails. *)
Lemma each_ind {A S} (f : A → S → res unit * S) (P : list A → S → Prop) (E : list A → kerr → S → Prop) l s :
  P [] s →
  (∀ done x s, done ++ [x] `prefix_of` l → P done s →
     match f x s with
     | (Ok _, s') => P (done ++ [x]) s'
     | (Err e, s') => E done e s'
     end) →
  match each f l s with
  | (Ok _, s') => P l s'
  | (Err e, s') => ∃ done, E done e s'
  end.
Proof.
  intros H0 Hstep.
  assert (Hg : ∀ k done s, done ++ k = l → P done s →
    match each f k s with (Ok _, s') => P l s' | (Err e, s') => ∃ done, E done e s' end).
  { induction k as [|x k IH]; intros done s1 Hd HP; simpl.
    - rewrite app_nil_r in Hd. by subst.
    - pose proof (Hstep done x s1) as H. destruct (f x s1) as [[u|e] s2].
      + apply (IH (done ++ [x])); [by rewrite <- app_assoc|]. apply H; [|done].
        exists k. by rewrite <- app_assoc.
      + exists done. apply H; [|done]. exists k. by rewrite <- app_assoc. }
  by apply (Hg l [] s).
Qed.

(** The same when no element fails. *)
Lemma each_ok {A S} (f : A → S → res unit * S) (P : list A → S → Prop) l s :
  P [] s →
  (∀ done x s, x ∈ l → P done s → ∃ s', f x s = (Ok tt, s') ∧ P (done ++ [x]) s') →
  ∃ s', each f l s = (Ok tt, s') ∧ P l s'.
Proof.
  intros H0 Hstep. pose proof (each_ind f P (λ _ _ _, False) l s H0) as H.
  assert (Hs : ∀ done x s, done ++ [x] `prefix_of` l → P done s →
    match f x s with (Ok _, s') => P (done ++ [x]) s' | (Err _, _) => False end).
  { intros dn x s1 [k Hk] HP. destruct (Hstep dn x s1) as (s2 & -> & H2); [|done..].
    rewrite Hk, !elem_of_app. left. right. by apply list_elem_of_singleton. }
  specialize (H Hs). destruct (each f l s) as [[[]|e] s']; [by exists s'|by destruct H].
Qed.

(** Over a range of counters. *)
Lemma each_range_ok {S} (f : Z → S → res unit * S) (P : Z → S → Prop) a n s :
  0 ≤ n → P a s →
  (∀ i s, a ≤ i < a + n → P i s → ∃ s', f i s = (Ok tt, s') ∧ P (i + 1) s') →
  ∃ s', each f (seqZ a n) s = (Ok tt, s') ∧ P (a + n) s'.
Proof.
  intros Hn H0 Hstep. remember (Z.to_nat n) as k eqn:Hk. revert a n s Hn H0 Hstep Hk.
  induction k as [|k IH]; intros a n s Hn H0 Hstep Hk.
  - rewrite seqZ_nil by lia. exists s. split; [done|]. by replace (a + n) with a by lia.
  - rewrite seqZ_cons by lia. simpl. destruct (Hstep a s) as (s1 & -> & H1); [lia|done|].
    destruct (IH (Z.succ a) (Z.pred n) s1) as (s2 & He & H2); [lia|done| |lia|].
    + intros i s3 Hi. apply Hstep. lia.
    + exists s2. split; [done|]. by replace (a + n) with (Z.succ a + Z.pred n) by lia.
Qed.

Lemma each_app {A S} (f : A → S → res unit * S) l k s :
  each f (l ++ k) s = match each f l s with (Ok _, s') => each f k s' | r => r end.
Proof.
  revert s. induction l as [|x l IH]; intros s; simpl; [done|].
  destruct (f x s) as [[u|e] s']; [apply IH|done].
Qed.

(** * Counting *)
Definition zsum (f : Z → Z) (a n : Z) : Z := foldr (λ i acc, f i + acc) 0 (seqZ a n).
Definition b2z (b : bool) : Z := if b then 1 else 0.
Definition count_range (P : Z → bool) (n : Z) : Z := zsum (λ i, b2z (P i)) 0 n.

Lemma zsum_nil f a n : n ≤ 0 → zsum f a n = 0.
Proof. intros. unfold zsum. by rewrite seqZ_nil. Qed.

Lemma zsum_cons f a n : 0 < n → zsum f a n = f a + zsum f (a + 1) (n - 1).
Proof.
  intros. unfold zsum. rewrite seqZ_cons by lia. simpl.
  by replace (Z.succ a) with (a + 1) by lia; replace (Z.pred n) with (n - 1) by lia.
Qed.

Lemma zsum_ind (P : Z → Z → Prop) :
  (∀ a n, n ≤ 0 → P a n) → (∀ a n, 0 < n → P (a + 1) (n - 1) → P a n) → ∀ a n, P a n.
Proof.
  intros Hb Hs a n. remember (Z.to_nat n) as k eqn:Hk. revert a n Hk.
  induction k as [|k IH]; intros a n Hk; [apply Hb; lia|].
  apply Hs; [lia|]. apply IH. lia.
Qed.

Lemma zsum_ext f g a n : (∀ i, a ≤ i < a + n → f i = g i) → zsum f a n = zsum g a n.
Proof.
  revert a n. refine (zsum_ind _ _ _); intros a n Hn.
  - intros _. by rewrite !zsum_nil.
  - intros IH H. rewrite !(zsum_cons _ a n) by lia.
    rewrite (H a) by lia. rewrite IH; [done|]. intros. apply H. lia.
Qed.

Lemma zsum_le f g a n : (∀ i, a ≤ i < a + n → f i ≤ g i) → zsum f a n ≤ zsum g a n.
Proof.
  revert a n. refine (zsum_ind _ _ _); intros a n Hn.
  - intros _. by rewrite !zsum_nil.
  - intros IH H. rewrite !(zsum_cons _ a n) by lia.
    pose proof (H a ltac:(lia)). pose proof (IH ltac:(intros; apply H; lia)). lia.
Qed.

Lemma zsum_const c a n : 0 ≤ n → zsum (λ _, c) a n = c * n.
Proof.
  revert a n. refine (zsum_ind _ _ _); intros a n Hn.
  - intros. rewrite zsum_nil by lia. assert (n = 0) as -> by lia. lia.
  - intros IH H. rewrite zsum_cons by lia. rewrite IH by lia. lia.
Qed.

(** A sum whose summand changes at one index only. *)
Lemma zsum_update f g a n k :
  a ≤ k < a + n → (∀ i, a ≤ i < a + n → i ≠ k → f i = g i) →
  zsum f a n = zsum g a n - g k + f k.
Proof.
  revert a n. refine (zsum_ind _ _ _); intros a n Hn; [lia|].
  intros IH Hk H. rewrite !(zsum_cons _ a n) by lia.
  destruct (decide (k = a)) as [->|].
  - rewrite (zsum_ext f g (a + 1)); [lia|]. intros. apply H; lia.
  - rewrite (H a) by lia. rewrite IH; [lia|lia|]. intros. apply H; lia.
Qed.

Lemma count_range_bounds P n : 0 ≤ n → 0 ≤ count_range P n ≤ n.
Proof.
  intros Hn. unfold count_range.
  pose proof (zsum_le (λ _, 0) (λ i, b2z (P i)) 0 n) as Hlo.
  pose proof (zsum_le (λ i, b2z (P i)) (λ _, 1) 0 n) as Hhi.
  rewrite !zsum_const in * by lia.
  assert (∀ i, 0 ≤ b2z (P i) ≤ 1) as Hb by (intros i; unfold b2z; destruct (P i); lia).
  split; [transitivity (0 * n); [lia|]; apply Hlo|transitivity (1 * n); [|lia]; apply Hhi];
    intros; apply Hb.
Qed.

Lemma count_range_ext P Q n :
  (∀ i, 0 ≤ i < n → P i = Q i) → count_range P n = count_range Q n.
Proof. intros H. apply zsum_ext. intros. rewrite H by lia. done. Qed.

Lemma count_range_update P Q n k :
  0 ≤ k < n → (∀ i, 0 ≤ i < n → i ≠ k → P i = Q i) →
  count_range P n = count_range Q n - b2z (Q k) + b2z (P k).
Proof.
  intros Hk H. apply (zsum_update (λ i, b2z (P i)) (λ i, b2z (Q i))); [lia|].
  intros. simpl. rewrite H by lia. done.
Qed.

(** * Bytes and C strings

    A byte is a [Z] in [[0, 256)].  A string is the list of its bytes; reading
    past its end gives the terminating NUL. *)
Definition cget (s : list Z) (i : Z) : Z := default 0 (s !! Z.to_nat i).

Definition NUL : Z := 0.
Definition SLASH : Z := 47.

(** The bytes before the first NUL of a buffer. *)
Fixpoint cstr (b : list Z) : list Z :=
  match b with
  | [] => []
  | c :: b' => if c =? NUL then [] else c :: cstr b'
  end.

Definition no_nul (s : list Z) : Prop := Forall (λ c, c ≠ NUL) s.

(** The comparison loop the file systems share: does the string [lit] equal
    the [len] bytes at [name]? *)
Fixpoint name_eq_loop (lit name : list Z) (len : Z) (is_ : list Z) : bool :=
  match is_ with
  | [] => cget lit len =? NUL
  | i :: is_' =>
      if (cget lit i =? NUL) || negb (cget lit i =? cget name i) then false
      else name_eq_loop lit name len is_'
  end.

Definition name_eq (lit name : list Z) (len : Z) : bool := name_eq_loop lit name len (seqZ 0 len).

Lemma cget_lt s i : 0 ≤ i < alen s → s !! Z.to_nat i = Some (cget s i).
Proof.
  intros Hi. unfold cget, alen in *. destruct (s !! Z.to_nat i) eqn:E; [done|].
  apply lookup_ge_None in E. lia.
Qed.

Lemma cget_ge s i : alen s ≤ i → cget s i = 0.
Proof. intros Hi. unfold cget, alen in *. by rewrite lookup_ge_None_2 by lia. Qed.

Lemma cget_nonzero s i : no_nul s → 0 ≤ i → (cget s i ≠ 0 ↔ i < alen s).
Proof.
  intros Hs Hi. split.
  - intros Hc. destruct (Z.lt_ge_cases i (alen s)); [done|]. by rewrite cget_ge in Hc by lia.
  - intros Hl. pose proof (cget_lt s i ltac:(lia)) as Hg.
    by apply (Forall_lookup_1 _ _ _ _ Hs Hg).
Qed.

Lemma cget_cstr b i :
  0 ≤ i → (∀ j, 0 ≤ j < i → cget b j ≠ 0) → cget (cstr b) i = cget b i.
Proof.
  revert i. induction b as [|c b IH]; intros i Hi Hnz; [done|]. simpl.
  destruct (decide (i = 0)) as [->|Hne].
  - unfold cget. simpl. by destruct (Z.eqb_spec c NUL) as [->|].
  - pose proof (Hnz 0 ltac:(lia)) as H0. unfold cget in H0. simpl in H0.
    rewrite (proj2 (Z.eqb_neq c NUL)) by done.
    assert (Hs : ∀ l j, 0 < j → cget (c :: l) j = cget l (j - 1)).
    { intros l j Hj. unfold cget. replace (Z.to_nat j) with (S (Z.to_nat (j - 1))) by lia. done. }
    rewrite !Hs by lia. apply IH; [lia|]. intros j Hj. rewrite <- (Z.add_simpl_r j 1), <- Hs by lia.
    apply Hnz. lia.
Qed.

Lemma cstr_no_nul b : no_nul (cstr b).
Proof.
  induction b as [|c b IH]; simpl; [constructor|]. destruct (Z.eqb_spec c NUL); by constructor.
Qed.

Lemma cstr_id s : no_nul s → cstr s = s.
Proof.
  intros Hs. induction Hs as [|c s Hc Hs IH]; simpl; [done|].
  by rewrite (proj2 (Z.eqb_neq c NUL)), IH by done.
Qed.

Lemma cstr_app_nul s b : no_nul s → cstr (s ++ NUL :: b) = s.
Proof.
  intros Hs. induction Hs as [|c s Hc Hs IH]; simpl; [done|].
  by rewrite (proj2 (Z.eqb_neq c NUL)), IH by done.
Qed.

Lemma name_eq_spec lit name len :
  no_nul lit → 0 ≤ len ≤ alen name → (name_eq lit name len = true ↔ lit = take (Z.to_nat len) name).
Proof.
  intros Hl Hlen.
  assert (Hloop : ∀ n i, 0 ≤ i → i + n = len → 0 ≤ n →
    name_eq_loop lit name len (seqZ i n) = true ↔
    (∀ j, i ≤ j < len → cget lit j ≠ 0 ∧ cget lit j = cget name j) ∧ cget lit len = 0).
  { intros n. assert (Hn : n = Z.of_nat (Z.to_nat n) ∨ n < 0) by lia.
    destruct Hn as [Hn|]; [|lia]. remember (Z.to_nat n) as k. clear Heqk. subst n.
    induction k as [|k IH]; intros i Hi Hin _.
    - simpl. rewrite Z.eqb_eq. split; [intros; split; [lia|done]|by intros [_ ?]].
    - rewrite seqZ_cons by lia. simpl. replace (Z.pred (Z.of_nat (S k))) with (Z.of_nat k) by lia.
      destruct (Z.eqb_spec (cget lit i) NUL) as [Hz|Hz]; simpl.
      { split; [done|]. intros [Hj _]. by destruct (Hj i ltac:(lia)). }
      destruct (Z.eqb_spec (cget lit i) (cget name i)) as [He|He]; simpl.
      + rewrite IH by lia. split; intros [Hj Hn]; (split; [|done]).
        * intros j Hij. destruct (decide (j = i)) as [->|]; [done|]. apply Hj. lia.
        * intros j Hij. apply Hj. lia.
      + split; [done|]. intros [Hj _]. by destruct (Hj i ltac:(lia)). }
  unfold name_eq. rewrite (Hloop len 0) by lia. split.
  - intros [Hj Hend].
    assert (Hll : alen lit = len).
    { destruct (Z.lt_trichotomy (alen lit) len) as [?|[?|?]]; [|done|].
      - destruct (Hj (alen lit)) as [Hnz _]; [pose proof (alen_nonneg lit); lia|].
        by rewrite cget_ge in Hnz by lia.
      - exfalso. apply (cget_nonzero lit len Hl ltac:(lia)); [lia|done]. }
    apply list_eq. intros k. destruct (decide (Z.of_nat k < len)) as [Hk|Hk].
    + rewrite lookup_take_lt by lia. destruct (Hj (Z.of_nat k)) as [_ He]; [lia|].
      pose proof (cget_lt lit (Z.of_nat k) ltac:(lia)) as H1.
      pose proof (cget_lt name (Z.of_nat k) ltac:(lia)) as H2.
      rewrite Nat2Z.id in H1, H2. by rewrite H1, H2, He.
    + rewrite lookup_take_ge by lia. apply lookup_ge_None. unfold alen in *. lia.
  - intros Heq. assert (Hll : alen lit = len).
    { rewrite Heq. unfold alen in *. rewrite length_take. lia. }
    split.
    + intros j Hj. split; [apply cget_nonzero; [done|lia|lia]|].
      rewrite Heq. unfold cget. by rewrite lookup_take_lt by lia.
    + apply cget_ge. lia.
Qed.
