(* ===== verification/Bytes.v ===== *)
(** Byte arrays: pieces of arrays, copies into them, and words of 32 bits in
    little-endian order, for the components that lay data out in memory or on
    disk. *)

From S2P Require Import Prelude.

(** * Definitions *)

(** Little-endian words and pieces of byte arrays. *)
Definition le32 (x : Z) : list Z := [x mod 256; x / 256 mod 256; x / 65536 mod 256; x / 16777216 mod 256].

Definition de32 (b : list Z) (off : Z) : Z :=
  cget b off + 256 * cget b (off + 1) + 65536 * cget b (off + 2) + 16777216 * cget b (off + 3).

Definition slice (b : list Z) (off n : Z) : list Z := take (Z.to_nat n) (drop (Z.to_nat off) b).

(** [memcpy(dst + off, src, n)] with [src] of [n] bytes. *)
Definition overlay (dst : list Z) (off : Z) (src : list Z) : list Z :=
  take (Z.to_nat off) dst ++ src ++ drop (Z.to_nat off + length src) dst.

Definition de32s (b : list Z) (off n : Z) : list Z := (λ k, de32 b (off + 4 * k)) <$> seqZ 0 n.

(** Every element is a byte. *)
Definition bytes_ok (b : list Z) : Prop := ∀ k, 0 ≤ k → 0 ≤ cget b k < 256.

(** * Pieces and copies *)

Lemma cget_app a b i : 0 ≤ i → cget (a ++ b) i = if decide (i < alen a) then cget a i else cget b (i - alen a).
Proof.
  intros Hi. unfold cget, alen. case_decide.
  - by rewrite lookup_app_l by lia.
  - rewrite lookup_app_r by lia. do 2 f_equal. lia.
Qed.

Lemma alen_app {A} (a b : list A) : alen (a ++ b) = alen a + alen b.
Proof. unfold alen. rewrite length_app. lia. Qed.

Lemma alen_slice b off n : 0 ≤ off → 0 ≤ n → off + n ≤ alen b → alen (slice b off n) = n.
Proof. intros. unfold slice, alen in *. rewrite length_take, length_drop. lia. Qed.

Lemma cget_slice b off n k : 0 ≤ off → 0 ≤ k < n → cget (slice b off n) k = cget b (off + k).
Proof.
  intros Ho Hk. unfold cget, slice. rewrite lookup_take_lt by lia. rewrite lookup_drop.
  do 2 f_equal. lia.
Qed.

Lemma alen_overlay dst off src :
  0 ≤ off → off + alen src ≤ alen dst → alen (overlay dst off src) = alen dst.
Proof.
  intros. unfold overlay, alen in *. rewrite !length_app, length_take, length_drop. lia.
Qed.

Lemma cget_overlay dst off src k :
  0 ≤ off → off + alen src ≤ alen dst → 0 ≤ k →
  cget (overlay dst off src) k = if decide (off ≤ k < off + alen src) then cget src (k - off) else cget dst k.
Proof.
  intros Ho Hl Hk. unfold overlay.
  assert (Ht : alen (take (Z.to_nat off) dst) = off) by (unfold alen in *; rewrite length_take; lia).
  rewrite cget_app by done. rewrite Ht. destruct (decide (k < off)).
  - rewrite decide_False by lia. unfold cget. by rewrite lookup_take_lt by lia.
  - rewrite cget_app by lia. destruct (decide (k - off < alen src)).
    + by rewrite decide_True by lia.
    + rewrite decide_False by lia. unfold cget, alen in *. rewrite lookup_drop. do 2 f_equal. lia.
Qed.

Lemma blist_eq (a b : list Z) : alen a = alen b → (∀ k, 0 ≤ k < alen a → cget a k = cget b k) → a = b.
Proof.
  intros Hl Hk. apply list_eq. intros i. destruct (decide (Z.of_nat i < alen a)).
  - specialize (Hk (Z.of_nat i) ltac:(lia)).
    pose proof (cget_lt a (Z.of_nat i) ltac:(lia)) as Ha. pose proof (cget_lt b (Z.of_nat i) ltac:(lia)) as Hb.
    rewrite Nat2Z.id in Ha, Hb. by rewrite Ha, Hb, Hk.
  - unfold alen in *. rewrite !lookup_ge_None_2 by lia. done.
Qed.

(** Records of a fixed size in a row. *)
Section rows.
Context {A : Type} `{!Inhabited A} (enc : A → list Z) (n : Z).
Hypothesis Hn : 0 < n.

Lemma alen_rows l : Forall (λ x, alen (enc x) = n) l → alen (concat (enc <$> l)) = n * alen l.
Proof.
  intros HF. induction HF as [|x l Hx HF IH]; [unfold alen; simpl; lia|].
  rewrite fmap_cons. cbn [concat]. rewrite alen_app, IH, Hx. unfold alen. simpl. lia.
Qed.

Lemma cget_rows l i k :
  Forall (λ x, alen (enc x) = n) l → 0 ≤ i < alen l → 0 ≤ k < n →
  cget (concat (enc <$> l)) (n * i + k) = cget (enc l.[i]) k.
Proof.
  intros HF. revert i. induction HF as [|x l Hx HF IH]; intros i Hi Hk; [unfold alen in Hi; simpl in Hi; lia|].
  rewrite fmap_cons. cbn [concat]. rewrite cget_app by nia. rewrite Hx. destruct (decide (i = 0)) as [->|Hne].
  - rewrite decide_True by lia. by replace (n * 0 + k) with k by lia.
  - rewrite decide_False by nia. replace (n * i + k - n) with (n * (i - 1) + k) by lia.
    rewrite IH by (unfold alen in *; simpl in *; lia). unfold aget.
    replace (Z.to_nat i) with (S (Z.to_nat (i - 1))) by lia. done.
Qed.
End rows.

(** * Words *)

Lemma alen_le32 x : alen (le32 x) = 4.
Proof. done. Qed.

Lemma de32_ext b b' o o' : (∀ k, 0 ≤ k < 4 → cget b (o + k) = cget b' (o' + k)) → de32 b o = de32 b' o'.
Proof.
  intros H. unfold de32. pose proof (H 0 ltac:(lia)) as H0. rewrite !Z.add_0_r in H0.
  rewrite H0, (H 1), (H 2), (H 3) by lia. done.
Qed.

Lemma de32_le32 x : is_u32 x → de32 (le32 x) 0 = x.
Proof.
  intros Hx. unfold de32, le32, cget, two32 in *. simpl.
  replace 65536 with (256 * 256) by lia. replace 16777216 with (256 * 256 * 256) by lia.
  rewrite <- !Z.div_div by lia.
  pose proof (Z.div_mod x 256 ltac:(lia)). pose proof (Z.div_mod (x / 256) 256 ltac:(lia)).
  pose proof (Z.div_mod (x / 256 / 256) 256 ltac:(lia)).
  assert (x / 256 / 256 / 256 mod 256 = x / 256 / 256 / 256).
  { apply Z.mod_small. split; [repeat (apply Z.div_pos; [|lia]); lia|].
    repeat (apply Z.div_lt_upper_bound; [lia|]). lia. }
  lia.
Qed.

Lemma le32_de32 b o k :
  0 ≤ k < 4 → (∀ j, 0 ≤ j < 4 → 0 ≤ cget b (o + j) < 256) → cget (le32 (de32 b o)) k = cget b (o + k).
Proof.
  intros Hk Hb. pose proof (Hb 0 ltac:(lia)) as B0. pose proof (Hb 1 ltac:(lia)) as B1.
  pose proof (Hb 2 ltac:(lia)) as B2. pose proof (Hb 3 ltac:(lia)) as B3. rewrite Z.add_0_r in B0.
  unfold de32. set (a := cget b o) in *. set (c := cget b (o + 1)) in *.
  set (d := cget b (o + 2)) in *. set (e := cget b (o + 3)) in *.
  assert (D1 : (a + 256 * c + 65536 * d + 16777216 * e) / 256 = c + 256 * d + 65536 * e).
  { symmetry. apply (Z.div_unique_pos _ _ _ a); lia. }
  assert (D2 : (a + 256 * c + 65536 * d + 16777216 * e) / 65536 = d + 256 * e).
  { symmetry. apply (Z.div_unique_pos _ _ _ (a + 256 * c)); lia. }
  assert (D3 : (a + 256 * c + 65536 * d + 16777216 * e) / 16777216 = e).
  { symmetry. apply (Z.div_unique_pos _ _ _ (a + 256 * c + 65536 * d)); lia. }
  unfold le32. rewrite D1, D2, D3.
  assert (Hcase : k = 0 ∨ k = 1 ∨ k = 2 ∨ k = 3) by lia.
  destruct Hcase as [->|[->|[->| ->]]]; unfold cget at 1; simpl.
  - rewrite Z.add_0_r. fold a. symmetry. apply (Z.mod_unique_pos _ _ (c + 256 * d + 65536 * e)); lia.
  - fold c. symmetry. apply (Z.mod_unique_pos _ _ (d + 256 * e)); lia.
  - fold d. symmetry. apply (Z.mod_unique_pos _ _ e); lia.
  - fold e. apply Z.mod_small. lia.
Qed.

Lemma le32_bytes x : bytes_ok (le32 x).
Proof.
  intros k Hk. unfold le32, cget.
  destruct (Z.to_nat k) as [|[|[|[|n]]]]; simpl; try (apply Z.mod_pos_bound; lia). lia.
Qed.

Lemma bytes_ok_app a b : bytes_ok a → bytes_ok b → bytes_ok (a ++ b).
Proof.
  intros Ha Hb k Hk. rewrite cget_app by done. case_decide; [by apply Ha|apply Hb; lia].
Qed.

Lemma bytes_ok_words l : bytes_ok (concat (le32 <$> l)).
Proof.
  induction l as [|x l IH]; [intros k Hk; unfold cget; simpl; lia|].
  rewrite fmap_cons. cbn [concat]. apply bytes_ok_app; [apply le32_bytes|done].
Qed.

Lemma alen_words l : alen (concat (le32 <$> l)) = 4 * alen l.
Proof. apply alen_rows. apply Forall_true. done. Qed.

Lemma cget_words l i k :
  0 ≤ i < alen l → 0 ≤ k < 4 → cget (concat (le32 <$> l)) (4 * i + k) = cget (le32 (cget l i)) k.
Proof.
  intros Hi Hk. rewrite (cget_rows le32 4); [|lia|by apply Forall_true|done|done].
  do 2 f_equal. unfold aget, cget. pose proof (cget_lt l i Hi) as Hg. unfold cget in Hg.
  by rewrite (list_lookup_total_correct _ _ _ Hg).
Qed.
