(* ===== verification/Pmm.v ===== *)
(** kernel/pmm.c: the physical frame allocator.

    The bitmap at [PMM_BITMAP_PHYS_BASE] is the list of its 32-bit words, the
    file-scope variables of pmm.c are the fields of [pmm_state], and the
    [frames] pointer is [None] before [pmm_init].  A bit that is set is a frame
    in use.  The abstract view of a state is the predicate [test_frame] on frame
    numbers; every operation is specified by its effect on it. *)

From S2P Require Import Prelude.

Definition PAGE_SIZE_BYTES : Z := 4096.
Definition MAX_MEMORY : Z := 1024 * 1024 * 1024.
Definition NO_FRAME : Z := 4294967295.

Record pmm_state := PmmState {
  nframes : Z;
  frames : option (list Z);
  bitmap_bytes : Z;
  used_frames : Z
}.

(** Static storage before [pmm_init]. *)
Definition pmm_zero : pmm_state := PmmState 0 None 0 0.

(** * Operations *)

Definition frame_index_valid (s : pmm_state) (frame : Z) : bool := frame <? nframes s.

Definition test_frame (s : pmm_state) (frame : Z) : bool :=
  match frames s with
  | None => true
  | Some ws =>
      if negb (frame_index_valid s frame) then true
      else test_bit ws.[frame / 32] (frame mod 32)
  end.

Definition set_frame (frame : Z) (s : pmm_state) : pmm_state :=
  match frames s with
  | None => s
  | Some ws =>
      if negb (frame_index_valid s frame) then s
      else
        let mask := bit32 (frame mod 32) in
        let word := ws.[frame / 32] in
        if Z.land word mask =? 0 then
          PmmState (nframes s) (Some ws.[frame / 32 <- Z.lor word mask])
                   (bitmap_bytes s) (add32 (used_frames s) 1)
        else s
  end.

Definition clear_frame (frame : Z) (s : pmm_state) : pmm_state :=
  match frames s with
  | None => s
  | Some ws =>
      if negb (frame_index_valid s frame) then s
      else
        let mask := bit32 (frame mod 32) in
        let word := ws.[frame / 32] in
        if negb (Z.land word mask =? 0) then
          PmmState (nframes s) (Some ws.[frame / 32 <- Z.land word (not32 mask)])
                   (bitmap_bytes s)
                   (if 0 <? used_frames s then sub32 (used_frames s) 1 else used_frames s)
        else s
  end.

(** The inner loop over the bits of word [i]; [break] is [None]. *)
Fixpoint scan_word (nf w i : Z) (js : list Z) : option Z :=
  match js with
  | [] => None
  | j :: js' =>
      let frame := add32 (mul32 i 32) j in
      if nf <=? frame then None
      else if negb (test_bit w j) then Some frame
      else scan_word nf w i js'
  end.

Definition first_free_frame (nf : Z) (ws : list Z) : Z :=
  let words := add32 nf 31 / 32 in
  default NO_FRAME
    (search_range 0 words (λ i,
       if ws.[i] =? NO_FRAME then None else scan_word nf ws.[i] i (seqZ 0 32))).

Definition pmm_init (mem_upper : Z) (s : pmm_state) : pmm_state :=
  let mem_upper := if MAX_MEMORY <? mem_upper then MAX_MEMORY else mem_upper in
  let nf := mem_upper / PAGE_SIZE_BYTES in
  let words := add32 nf 31 / 32 in
  PmmState nf (Some (replicate (Z.to_nat words) NO_FRAME)) (mul32 words 4) nf.

(** The frame's physical address, 0 when none is free. *)
Definition pmm_alloc_frame (s : pmm_state) : Z * pmm_state :=
  match frames s with
  | None => (0, s)
  | Some ws =>
      if nframes s =? 0 then (0, s)
      else
        let frame := first_free_frame (nframes s) ws in
        if frame =? NO_FRAME then (0, s)
        else (mul32 frame PAGE_SIZE_BYTES, set_frame frame s)
  end.

Definition pmm_free_frame (addr : Z) (s : pmm_state) : pmm_state :=
  match frames s with
  | None => s
  | Some _ =>
      if nframes s =? 0 then s
      else if negb (Z.land addr (PAGE_SIZE_BYTES - 1) =? 0) then s
      else
        let frame := addr / PAGE_SIZE_BYTES in
        if negb (frame_index_valid s frame) then s
        else if negb (test_frame s frame) then s
        else clear_frame frame s
  end.

Record pmm_stats := PmmStats {
  st_total_frames : Z;
  st_used_frames : Z;
  st_free_frames : Z;
  st_bitmap_bytes : Z
}.

Definition pmm_get_stats (s : pmm_state) : pmm_stats :=
  PmmStats (nframes s) (used_frames s)
           (if used_frames s <=? nframes s then nframes s - used_frames s else 0)
           (bitmap_bytes s).

Definition pmm_is_ready (s : pmm_state) : bool :=
  match frames s with None => false | Some _ => negb (nframes s =? 0) end.

(** The clipped end of a byte range, [None] for the early returns; the sum is
    taken in 64 bits, so it does not wrap. *)
Definition region_end (base length : Z) (s : pmm_state) : option Z :=
  if negb (pmm_is_ready s) || (length =? 0) then None
  else
    let end64 := base + length in
    let max64 := nframes s * PAGE_SIZE_BYTES in
    if max64 <=? base then None
    else Some (u32 (if max64 <? end64 then max64 else end64)).

Definition pmm_mark_region_available (base length : Z) (s : pmm_state) : pmm_state :=
  match region_end base length s with
  | None => s
  | Some e =>
      let start_aligned := align_up_z base PAGE_SIZE_BYTES in
      let end_aligned := align_down_z e PAGE_SIZE_BYTES in
      if end_aligned <=? start_aligned then s
      else for_range (start_aligned / PAGE_SIZE_BYTES) (end_aligned / PAGE_SIZE_BYTES)
                     clear_frame s
  end.

Definition pmm_reserve_region (base length : Z) (s : pmm_state) : pmm_state :=
  match region_end base length s with
  | None => s
  | Some e =>
      let start_aligned := align_down_z base PAGE_SIZE_BYTES in
      let end_aligned := align_up_z e PAGE_SIZE_BYTES in
      if end_aligned <=? start_aligned then s
      else for_range (start_aligned / PAGE_SIZE_BYTES) (end_aligned / PAGE_SIZE_BYTES)
                     set_frame s
  end.

(** * Well-formed states *)

Record pmm_wf (s : pmm_state) : Prop := {
  wf_words : ∃ ws, frames s = Some ws ∧ alen ws = (nframes s + 31) / 32 ∧ Forall (λ w, is_u32 w) ws;
  wf_nframes : 0 ≤ nframes s ≤ 262144;
  wf_used : used_frames s = count_range (test_frame s) (nframes s)
}.

(** The address space of frames a state manages, and the frames in use. *)
Definition frame_free (s : pmm_state) (f : Z) : Prop := 0 ≤ f < nframes s ∧ test_frame s f = false.

Lemma frame_word_index nf f : 0 ≤ f < nf → 0 ≤ f / 32 < (nf + 31) / 32.
Proof.
  intros Hf. split; [apply Z.div_pos; lia|].
  apply Z.div_lt_upper_bound; [lia|].
  pose proof (Z.div_mod (nf + 31) 32 ltac:(lia)).
  pose proof (Z.mod_pos_bound (nf + 31) 32 ltac:(lia)). lia.
Qed.

Lemma pmm_wf_valid s f : pmm_wf s → frame_index_valid s f = true ↔ f < nframes s.
Proof. intros. unfold frame_index_valid. lia. Qed.

(** * The abstract view of one-frame updates *)

Lemma test_frame_invalid s f : nframes s ≤ f → test_frame s f = true.
Proof.
  intros Hf. unfold test_frame, frame_index_valid. destruct (frames s); [|done].
  by rewrite (proj2 (Z.ltb_ge _ _)) by lia.
Qed.

(** Two valid frames share a word and a bit only when they are equal. *)
Lemma frame_pos_inj f g : 0 ≤ f → 0 ≤ g → f / 32 = g / 32 → f mod 32 = g mod 32 → f = g.
Proof. intros. rewrite (Z.div_mod f 32), (Z.div_mod g 32) by lia. congruence. Qed.

Lemma test_frame_some s ws f :
  frames s = Some ws → 0 ≤ f < nframes s → test_frame s f = test_bit ws.[f / 32] (f mod 32).
Proof.
  intros Hws Hf. unfold test_frame, frame_index_valid. rewrite Hws.
  by rewrite (proj2 (Z.ltb_lt _ _)) by lia.
Qed.

(** What an operation that rewrites one word does to every frame's status. *)
Lemma test_frame_word s ws f g w bytes used (b : bool) :
  frames s = Some ws → alen ws = (nframes s + 31) / 32 →
  0 ≤ f < nframes s → 0 ≤ g →
  (∀ c, 0 ≤ c < 32 → test_bit w c = if decide (f mod 32 = c) then b else test_bit ws.[f / 32] c) →
  test_frame (PmmState (nframes s) (Some ws.[f / 32 <- w]) bytes used) g =
  if decide (f = g) then b else test_frame s g.
Proof.
  intros Hws Hlen Hf Hg Hw. unfold test_frame, frame_index_valid. simpl. rewrite Hws.
  pose proof (Z.mod_pos_bound f 32 ltac:(lia)). pose proof (Z.mod_pos_bound g 32 ltac:(lia)).
  destruct (Z.ltb_spec g (nframes s)); simpl.
  - rewrite aget_aset by (rewrite ?Hlen; try apply frame_word_index; lia || (apply Z.div_pos; lia)).
    destruct (decide (f / 32 = g / 32)) as [Hd|Hd].
    + rewrite Hw by lia. rewrite Hd. repeat case_decide; try done; subst; try done.
      exfalso. apply H3. by apply frame_pos_inj; try lia.
    + case_decide; [subst; done|done].
  - case_decide; [lia|done].
Qed.

Section one_frame.
Context (s : pmm_state) (Hwf : pmm_wf s).

Lemma test_set_frame f g :
  0 ≤ f → 0 ≤ g →
  test_frame (set_frame f s) g = bool_decide (f = g) || test_frame s g.
Proof.
  intros Hf Hg. destruct (wf_words s Hwf) as (ws & Hws & Hlen & Hu).
  unfold set_frame. rewrite Hws.
  destruct (frame_index_valid s f) eqn:Hv; unfold frame_index_valid in Hv; simpl.
  - destruct (Z.land ws.[f / 32] (bit32 (f mod 32)) =? 0) eqn:Hb.
    + rewrite (test_frame_word s ws f g _ _ _ true) by
        (done || lia || (intros c Hc; rewrite test_bit_set by
           (pose proof (Z.mod_pos_bound f 32); lia); by case_decide; case_bool_decide)).
      by case_decide; case_bool_decide.
    + case_bool_decide; [subst|done]. rewrite (test_frame_some s ws) by (done || lia).
      unfold test_bit. by rewrite Hb.
  - case_bool_decide; [subst|done]. by rewrite test_frame_invalid by lia.
Qed.

Lemma test_clear_frame f g :
  0 ≤ f < nframes s → 0 ≤ g →
  test_frame (clear_frame f s) g = negb (bool_decide (f = g)) && test_frame s g.
Proof.
  intros Hf Hg. destruct (wf_words s Hwf) as (ws & Hws & Hlen & Hu).
  unfold clear_frame, frame_index_valid. rewrite Hws, (proj2 (Z.ltb_lt f _)) by lia. simpl.
  pose proof (Z.mod_pos_bound f 32 ltac:(lia)).
  destruct (Z.land ws.[f / 32] (bit32 (f mod 32)) =? 0) eqn:Hb; simpl.
  - case_bool_decide; [subst|done]. rewrite (test_frame_some s ws) by (done || lia).
    unfold test_bit. by rewrite Hb.
  - rewrite (test_frame_word s ws f g _ _ _ false).
    + by case_decide; case_bool_decide.
    + done.
    + done.
    + lia.
    + lia.
    + intros c Hc. rewrite test_bit_clear by
        (try lia; apply (Forall_aget _ ws _ Hu); rewrite Hlen; by apply frame_word_index).
      by case_decide; case_bool_decide.
Qed.

Lemma set_frame_wf f : 0 ≤ f → pmm_wf (set_frame f s) ∧ nframes (set_frame f s) = nframes s
  ∧ bitmap_bytes (set_frame f s) = bitmap_bytes s.
Proof.
  intros Hf. pose proof (test_set_frame f) as Ht.
  destruct (wf_words s Hwf) as (ws & Hws & Hlen & Hu).
  unfold set_frame in *. rewrite Hws in *.
  destruct (frame_index_valid s f) eqn:Hv; unfold frame_index_valid in Hv; simpl in *; [|done].
  pose proof (Z.mod_pos_bound f 32 ltac:(lia)).
  destruct (Z.land ws.[f / 32] (bit32 (f mod 32)) =? 0) eqn:Hb; [|done].
  assert (Hfree : test_frame s f = false).
  { rewrite (test_frame_some s ws) by (done || lia). unfold test_bit. by rewrite Hb. }
  destruct Hwf as [_ Hn Hused]. split; [|done]. split; simpl; [|done|].
  - eexists. split; [done|]. arr. split; [done|]. apply Forall_aset; [done|].
    apply lor_u32; [|apply bit32_u32; lia].
    apply (Forall_aget _ ws _ Hu). rewrite Hlen. apply frame_word_index. lia.
  - rewrite (count_range_update (test_frame (PmmState _ _ _ _)) (test_frame s) (nframes s) f).
    + rewrite Hfree. rewrite Ht by lia. rewrite bool_decide_true by done. simpl.
      rewrite <- Hused.
      assert (used_frames s < two32) by (rewrite Hused; unfold two32;
        pose proof (count_range_bounds (test_frame s) (nframes s) ltac:(lia)); lia).
      pose proof (count_range_bounds (test_frame s) (nframes s) ltac:(lia)).
      rewrite add32_small; unfold two32; lia.
    + lia.
    + intros i Hi Hne. rewrite Ht by lia. by rewrite bool_decide_false by congruence.
Qed.

Lemma clear_frame_wf f : 0 ≤ f < nframes s → pmm_wf (clear_frame f s) ∧
  nframes (clear_frame f s) = nframes s ∧ bitmap_bytes (clear_frame f s) = bitmap_bytes s.
Proof.
  intros Hf. pose proof (test_clear_frame f) as Ht.
  destruct (wf_words s Hwf) as (ws & Hws & Hlen & Hu).
  unfold clear_frame in *. rewrite Hws in *.
  unfold frame_index_valid in *. rewrite (proj2 (Z.ltb_lt f _)) in * by lia. simpl in *.
  pose proof (Z.mod_pos_bound f 32 ltac:(lia)).
  destruct (Z.land ws.[f / 32] (bit32 (f mod 32)) =? 0) eqn:Hb; simpl in *; [done|].
  assert (Hset : test_frame s f = true).
  { rewrite (test_frame_some s ws) by (done || lia). unfold test_bit. by rewrite Hb. }
  destruct Hwf as [_ Hn Hused]. split; [|done]. split; simpl; [|done|].
  - eexists. split; [done|]. arr. split; [done|]. apply Forall_aset; [done|].
    apply land_u32. apply (Forall_aget _ ws _ Hu). rewrite Hlen. apply frame_word_index. lia.
  - rewrite (count_range_update (test_frame (PmmState _ _ _ _)) (test_frame s) (nframes s) f).
    + rewrite Hset. rewrite Ht by lia. rewrite bool_decide_true by done. simpl.
      rewrite <- Hused.
      assert (0 < used_frames s ≤ nframes s).
      { rewrite Hused. split; [|apply count_range_bounds; lia].
        rewrite (count_range_update _ (λ i, negb (bool_decide (i = f)) && test_frame s i)
                   (nframes s) f); [|lia|].
        - rewrite Hset, bool_decide_true by done. simpl.
          pose proof (count_range_bounds (λ i, negb (bool_decide (i = f)) && test_frame s i)
                        (nframes s) ltac:(lia)). lia.
        - intros. by rewrite bool_decide_false by done. }
      rewrite (proj2 (Z.ltb_lt 0 _)) by lia. rewrite sub32_small; unfold two32; lia.
    + lia.
    + intros i Hi Hne. rewrite Ht by lia. by rewrite bool_decide_false by congruence.
Qed.
End one_frame.

Create HintDb pmm.
#[export] Hint Resolve set_frame_wf clear_frame_wf : pmm.

(** * The search for a free frame *)

Lemma scan_word_spec nf w i a n :
  0 ≤ i → i * 32 + 32 ≤ two32 → 0 ≤ a → a + n ≤ 32 →
  match scan_word nf w i (seqZ a n) with
  | Some f => ∃ j, a ≤ j < a + n ∧ f = i * 32 + j ∧ f < nf ∧ test_bit w j = false
                   ∧ ∀ k, a ≤ k < j → test_bit w k = true
  | None => ∀ k, a ≤ k < a + n → i * 32 + k < nf → test_bit w k = true
  end.
Proof.
  intros Hi Hi32. revert a n. refine (zsum_ind _ _ _); intros a n Hn.
  { intros. rewrite seqZ_nil by lia. simpl. intros; lia. }
  intros IH Ha Han. rewrite seqZ_cons by lia.
  replace (Z.succ a) with (a + 1) by lia. replace (Z.pred n) with (n - 1) by lia. cbn [scan_word].
  unfold mul32. rewrite (u32_small (i * 32)) by (unfold two32 in *; lia).
  rewrite add32_small by (unfold two32 in *; lia).
  destruct (Z.leb_spec nf (i * 32 + a)); [intros; lia|].
  destruct (test_bit w a) eqn:Eb; simpl.
  - specialize (IH ltac:(lia) ltac:(lia)).
    destruct (scan_word nf w i (seqZ (a + 1) (n - 1))) as [f|].
    + destruct IH as (j & Hj & -> & Hf & Hb & Hlt). exists j. repeat split; try lia; [done|].
      intros k Hk. destruct (decide (k = a)) as [->|]; [done|]. apply Hlt. lia.
    + intros k Hk Hkn. destruct (decide (k = a)) as [->|]; [done|]. apply IH; lia.
  - exists a. split_and!; try lia; try done; intros; lia.
Qed.

Lemma words_u32 nf : 0 ≤ nf ≤ 262144 → add32 nf 31 / 32 = (nf + 31) / 32.
Proof. intros. rewrite add32_small by (unfold two32; lia). done. Qed.

Lemma words_bound nf i : 0 ≤ nf ≤ 262144 → 0 ≤ i < (nf + 31) / 32 → i * 32 + 32 ≤ two32.
Proof.
  intros Hnf Hi. pose proof (Z.mul_div_le (nf + 31) 32 ltac:(lia)).
  assert (i * 32 + 32 ≤ nf + 31) by lia. unfold two32. lia.
Qed.

Lemma full_word_bits w k : w = NO_FRAME → 0 ≤ k < 32 → test_bit w k = true.
Proof.
  intros -> Hk. rewrite test_bit_testbit by lia.
  change NO_FRAME with (Z.ones 32). apply Z.ones_spec_low. lia.
Qed.

(** Either the least free frame, or [NO_FRAME] when every frame is in use. *)
Lemma first_free_frame_spec s ws :
  pmm_wf s → frames s = Some ws →
  (first_free_frame (nframes s) ws = NO_FRAME ∧ ∀ f, 0 ≤ f < nframes s → test_frame s f = true) ∨
  (frame_free s (first_free_frame (nframes s) ws) ∧
   ∀ f, 0 ≤ f < first_free_frame (nframes s) ws → test_frame s f = true).
Proof.
  intros Hwf Hws. pose proof (wf_nframes s Hwf) as Hn.
  unfold first_free_frame. rewrite words_u32 by done.
  set (scan := λ i, if ws.[i] =? NO_FRAME then None
                    else scan_word (nframes s) ws.[i] i (seqZ 0 32)).
  assert (Hword : ∀ i, 0 ≤ i < (nframes s + 31) / 32 → scan i = None →
    ∀ k, 0 ≤ k < 32 → i * 32 + k < nframes s → test_frame s (i * 32 + k) = true).
  { intros i Hi Hnone k Hk Hkn.
    rewrite (test_frame_some s ws) by (done || lia).
    rewrite Z.div_add_l, Z.div_small, Z.add_0_r by lia.
    rewrite Z.add_comm, Z.mod_add, Z.mod_small by lia.
    unfold scan in Hnone. destruct (Z.eqb_spec ws.[i] NO_FRAME).
    - by apply full_word_bits.
    - pose proof (scan_word_spec (nframes s) ws.[i] i 0 32 ltac:(lia)
        (words_bound _ _ Hn Hi) ltac:(lia) ltac:(lia)) as Hsp.
      rewrite Hnone in Hsp. apply Hsp; lia. }
  assert (Hall : ∀ f b, 0 ≤ f < b → b ≤ nframes s →
    (∀ i, 0 ≤ i ≤ f / 32 → scan i = None) → test_frame s f = true).
  { intros f b Hf Hb Hs. rewrite (Z.div_mod f 32), Z.mul_comm by lia.
    pose proof (Z.mod_pos_bound f 32). pose proof (frame_word_index (nframes s) f).
    apply Hword; [lia|apply Hs; lia|lia|]. rewrite Z.mul_comm, <- Z.div_mod; lia. }
  destruct (search_range 0 _ scan) as [f|] eqn:E; simpl.
  - right. apply search_range_Some in E as (i & Hi & Hs & Hlt).
    pose proof (scan_word_spec (nframes s) ws.[i] i 0 32 ltac:(lia)
        (words_bound _ _ Hn Hi) ltac:(lia) ltac:(lia)) as Hsp.
    unfold scan in Hs. destruct (Z.eqb_spec ws.[i] NO_FRAME); [done|]. rewrite Hs in Hsp.
    destruct Hsp as (j & Hj & -> & Hf & Hb & Hbits).
    assert (Hdm : (i * 32 + j) / 32 = i ∧ (i * 32 + j) mod 32 = j).
    { rewrite Z.div_add_l, Z.div_small, Z.add_0_r by lia.
      by rewrite Z.add_comm, Z.mod_add, Z.mod_small by lia. }
    destruct Hdm as [Hd Hm]. split.
    + split; [lia|]. rewrite (test_frame_some s ws) by (done || lia). by rewrite Hd, Hm.
    + intros g Hg. destruct (Z.lt_ge_cases g (i * 32)).
      * apply (Hall g (i * 32)); [lia|lia|]. intros k Hk. apply Hlt.
        split; [lia|]. apply (Z.le_lt_trans _ (g / 32)); [lia|].
        apply Z.div_lt_upper_bound; lia.
      * rewrite (test_frame_some s ws) by (done || lia).
        replace g with (i * 32 + (g - i * 32)) by lia.
        rewrite Z.div_add_l, Z.div_small, Z.add_0_r by lia.
        rewrite Z.add_comm, Z.mod_add, Z.mod_small by lia. apply Hbits. lia.
  - left. split; [done|]. rewrite search_range_None in E. intros f Hf.
    apply (Hall f (nframes s)); [lia|lia|]. intros k Hk. apply E.
    pose proof (frame_word_index (nframes s) f). lia.
Qed.

Lemma free_lt_used s f : pmm_wf s → frame_free s f → used_frames s < nframes s.
Proof.
  intros Hwf [Hf Hfree]. rewrite (wf_used s Hwf).
  rewrite (count_range_update _ (λ i, bool_decide (i = f) || test_frame s i) (nframes s) f).
  - rewrite Hfree, bool_decide_true by done. simpl.
    pose proof (count_range_bounds (λ i, bool_decide (i = f) || test_frame s i) (nframes s)).
    lia.
  - lia.
  - intros. by rewrite bool_decide_false by done.
Qed.

(** * Properties *)

Lemma pmm_alloc_cases s :
  pmm_wf s →
  let '(addr, s') := pmm_alloc_frame s in
  ((∀ f, 0 ≤ f < nframes s → test_frame s f = true) ∧ addr = 0 ∧ s' = s) ∨
  (∃ f, frame_free s f ∧ (∀ g, 0 ≤ g < f → test_frame s g = true) ∧
        addr = f * 4096 ∧ pmm_wf s' ∧ used_frames s' = used_frames s + 1 ∧
        nframes s' = nframes s ∧
        ∀ g, 0 ≤ g → test_frame s' g = bool_decide (f = g) || test_frame s g).
Proof.
  intros Hwf. pose proof (wf_nframes s Hwf) as Hn.
  destruct (wf_words s Hwf) as (ws & Hws & Hlen & Hu). unfold pmm_alloc_frame. rewrite Hws.
  destruct (Z.eqb_spec (nframes s) 0) as [H0|H0]; [left; split; [intros; lia|done]|].
  destruct (first_free_frame_spec s ws Hwf Hws) as [[-> Hall]|[Hfree Hlt]].
  - rewrite Z.eqb_refl. by left.
  - set (f := first_free_frame (nframes s) ws) in *. pose proof Hfree as [Hf Htf].
    destruct (Z.eqb_spec f NO_FRAME) as [Heq|_]; [unfold NO_FRAME in Heq; lia|]. right.
    destruct (set_frame_wf s Hwf f ltac:(lia)) as (Hwf' & Hn' & _).
    exists f. split_and!; try done.
    + apply u32_small. unfold two32, PAGE_SIZE_BYTES. lia.
    + pose proof (free_lt_used s f Hwf Hfree).
      unfold set_frame, frame_index_valid. rewrite Hws, (proj2 (Z.ltb_lt f _)) by lia. simpl.
      rewrite (test_frame_some s ws) in Htf by (done || lia). unfold test_bit in Htf.
      destruct (Z.land ws.[f / 32] (bit32 (f mod 32)) =? 0); [|done]. simpl.
      assert (0 ≤ used_frames s) by (rewrite (wf_used s Hwf); apply count_range_bounds; lia).
      apply add32_small. unfold two32. lia.
    + intros g Hg. apply test_set_frame; [done|lia|done].
Qed.

(** Allocation is complete and exact.  From a well-formed state
    [pmm_alloc_frame] either finds every frame in use, returns 0 and changes
    nothing, or returns the page address of the LOWEST free frame, marks that
    frame and no other, and counts it. *)
Theorem pmm_alloc_frame_spec s :
  pmm_wf s →
  let '(addr, s') := pmm_alloc_frame s in
  ((∀ f, 0 ≤ f < nframes s → test_frame s f = true) ∧ addr = 0 ∧ s' = s) ∨
  (∃ f, frame_free s f ∧ (∀ g, 0 ≤ g < f → test_frame s g = true) ∧
        addr = f * 4096 ∧ pmm_wf s' ∧ used_frames s' = used_frames s + 1 ∧
        nframes s' = nframes s ∧
        ∀ g, 0 ≤ g → test_frame s' g = bool_decide (f = g) || test_frame s g).
Proof. exact (pmm_alloc_cases s). Qed.

Lemma pmm_free_cases s addr :
  pmm_wf s → is_u32 addr →
  let s' := pmm_free_frame addr s in
  pmm_wf s' ∧ nframes s' = nframes s ∧
  (addr mod 4096 ≠ 0 ∨ nframes s ≤ addr / 4096 ∨ test_frame s (addr / 4096) = false → s' = s) ∧
  (addr mod 4096 = 0 → ∀ g, 0 ≤ g →
     test_frame s' g = if decide (g = addr / 4096 ∧ g < nframes s) then false else test_frame s g).
Proof.
  intros Hwf Ha. destruct (wf_words s Hwf) as (ws & Hws & Hlen & Hu).
  assert (Hand : Z.land addr (PAGE_SIZE_BYTES - 1) = addr mod 4096).
  { change (PAGE_SIZE_BYTES - 1) with (Z.ones 12). by apply Z.land_ones. }
  assert (0 ≤ addr / 4096) by (apply Z.div_pos; lia).
  unfold pmm_free_frame. rewrite Hws, Hand. unfold frame_index_valid.
  destruct (Z.eqb_spec (nframes s) 0) as [H0|H0].
  { split_and!; try done. intros _ g Hg. case_decide; [lia|done]. }
  destruct (Z.eqb_spec (addr mod 4096) 0) as [Hal|Hal]; simpl; [|by split_and!].
  unfold PAGE_SIZE_BYTES. destruct (Z.ltb_spec (addr / 4096) (nframes s)) as [Hlt|Hge]; simpl.
  - destruct (test_frame s (addr / 4096)) eqn:Ht; simpl.
    + destruct (clear_frame_wf s Hwf (addr / 4096)) as (? & ? & _); [lia|].
      split_and!; try done.
      * intros [|[|]]; [done|lia|done].
      * intros _ g Hg. rewrite test_clear_frame by (done || lia).
        repeat case_decide; case_bool_decide; try done; try lia; subst; destruct_and?; lia.
    + split_and!; try done. intros _ g Hg. case_decide; [|done]. destruct_and!. by subst.
  - split_and!; try done. intros _ g Hg. case_decide; [lia|done].
Qed.

(** A page address handed back frees exactly its frame; an address that is
    not page aligned, lies beyond the managed memory, or names a frame that is
    already free (a double free) changes nothing. *)
Theorem pmm_free_frame_spec s addr :
  pmm_wf s → is_u32 addr →
  let s' := pmm_free_frame addr s in
  pmm_wf s' ∧ nframes s' = nframes s ∧
  (addr mod 4096 ≠ 0 ∨ nframes s ≤ addr / 4096 ∨ test_frame s (addr / 4096) = false → s' = s) ∧
  (addr mod 4096 = 0 → ∀ g, 0 ≤ g →
     test_frame s' g = if decide (g = addr / 4096 ∧ g < nframes s) then false else test_frame s g).
Proof. exact (pmm_free_cases s addr). Qed.

(** ** Ranges of frames *)

(** The state reached by a loop over one-frame updates that give status [b] to
    the frames [a .. i-1] and keep every other frame. *)
Definition range_marked (s : pmm_state) (a : Z) (b : bool) (i : Z) (s' : pmm_state) : Prop :=
  pmm_wf s' ∧ nframes s' = nframes s ∧ bitmap_bytes s' = bitmap_bytes s ∧
  ∀ g, 0 ≤ g → test_frame s' g = if decide (a ≤ g < i) then b else test_frame s g.

Lemma range_marked_0 s a b : pmm_wf s → range_marked s a b a s.
Proof. intros. split_and!; try done. intros. by rewrite decide_False by lia. Qed.

Lemma range_marked_step s a b i s' s'' :
  0 ≤ a ≤ i → range_marked s a b i s' →
  pmm_wf s'' ∧ nframes s'' = nframes s' ∧ bitmap_bytes s'' = bitmap_bytes s' →
  (∀ g, 0 ≤ g → test_frame s'' g = if decide (i = g) then b else test_frame s' g) →
  range_marked s a b (i + 1) s''.
Proof.
  intros Ha (Hwf & Hn & Hb & Ht) (Hwf' & Hn' & Hb') Ht'.
  split_and!; [done|congruence|congruence|].
  intros g Hg. rewrite Ht' by done. rewrite Ht by done. repeat case_decide; try done; lia.
Qed.

Lemma set_range_spec s a b :
  pmm_wf s → 0 ≤ a ≤ b → range_marked s a true b (for_range a b set_frame s).
Proof.
  intros Hwf Hab. apply (for_range_ind (range_marked s a true)); [lia|by apply range_marked_0|].
  intros i s' Hi Hm. pose proof Hm as (Hwf' & Hn' & _).
  eapply range_marked_step; [lia|done|apply set_frame_wf; [done|lia]|].
  intros g Hg. rewrite test_set_frame by (done || lia). by case_bool_decide; case_decide.
Qed.

Lemma clear_range_spec s a b :
  pmm_wf s → 0 ≤ a ≤ b → b ≤ nframes s → range_marked s a false b (for_range a b clear_frame s).
Proof.
  intros Hwf Hab Hb. apply (for_range_ind (range_marked s a false)); [lia|by apply range_marked_0|].
  intros i s' Hi Hm. pose proof Hm as (Hwf' & Hn' & _).
  eapply range_marked_step; [lia|done|apply clear_frame_wf; [done|lia]|].
  intros g Hg. rewrite test_clear_frame by (done || lia). by case_bool_decide; case_decide.
Qed.

Lemma div_4096 x : 4096 * (x / 4096) ≤ x < 4096 * (x / 4096) + 4096.
Proof.
  pose proof (Z.div_mod x 4096 ltac:(lia)). pose proof (Z.mod_pos_bound x 4096 ltac:(lia)). lia.
Qed.

Lemma align_down_page v : is_u32 v → align_down_z v PAGE_SIZE_BYTES = 4096 * (v / 4096).
Proof.
  intros. unfold PAGE_SIZE_BYTES. rewrite align_down_4096 by done.
  pose proof (Z.div_mod v 4096 ltac:(lia)). lia.
Qed.

Lemma align_up_page v :
  0 ≤ v → v + 4095 < two32 → align_up_z v PAGE_SIZE_BYTES = 4096 * ((v + 4095) / 4096).
Proof.
  intros. unfold PAGE_SIZE_BYTES. rewrite align_up_4096 by done.
  pose proof (Z.div_mod (v + 4095) 4096 ltac:(lia)). lia.
Qed.

Lemma page_div k : 4096 * k / 4096 = k.
Proof. rewrite Z.mul_comm. by apply Z.div_mul. Qed.

Lemma wf_ready s : pmm_wf s → pmm_is_ready s = negb (nframes s =? 0).
Proof. intros Hwf. destruct (wf_words s Hwf) as (ws & Hws & _). unfold pmm_is_ready. by rewrite Hws. Qed.

(** The end the loops of both region operations run to. *)
Lemma region_end_spec s base length :
  pmm_wf s → is_u32 base → is_u32 length →
  match region_end base length s with
  | Some e => e = Z.min (base + length) (nframes s * 4096) ∧ 0 < length ∧ base < nframes s * 4096
  | None => length = 0 ∨ nframes s * 4096 ≤ base
  end.
Proof.
  intros Hwf Hb Hl. pose proof (wf_nframes s Hwf). unfold region_end, PAGE_SIZE_BYTES.
  rewrite (wf_ready s Hwf), negb_involutive.
  destruct (Z.eqb_spec (nframes s) 0), (Z.eqb_spec length 0); simpl; try lia.
  destruct (Z.leb_spec (nframes s * 4096) base); [lia|].
  destruct (Z.ltb_spec (nframes s * 4096) (base + length)).
  - rewrite u32_small by (unfold two32; lia). lia.
  - rewrite u32_small by (unfold two32; lia). lia.
Qed.

Lemma available_cases s base length :
  pmm_wf s → is_u32 base → is_u32 length →
  let s' := pmm_mark_region_available base length s in
  pmm_wf s' ∧ nframes s' = nframes s ∧
  ∀ g, 0 ≤ g → test_frame s' g =
    if decide (base ≤ 4096 * g ∧ 4096 * g + 4096 ≤ Z.min (base + length) (4096 * nframes s))
    then false else test_frame s g.
Proof.
  intros Hwf Hb Hl. pose proof (wf_nframes s Hwf) as Hn.
  pose proof (region_end_spec s base length Hwf Hb Hl) as He.
  unfold pmm_mark_region_available. destruct (region_end base length s) as [e|].
  - destruct He as (He & Hl0 & Hbase).
    rewrite align_up_page by (unfold two32 in *; lia).
    rewrite align_down_page by (unfold two32 in *; lia). unfold PAGE_SIZE_BYTES.
    rewrite !page_div. pose proof (div_4096 (base + 4095)). pose proof (div_4096 e).
    destruct (Z.leb_spec (4096 * (e / 4096)) (4096 * ((base + 4095) / 4096))).
    + split_and!; try done. intros g Hg. by rewrite decide_False by lia.
    + destruct (clear_range_spec s ((base + 4095) / 4096) (e / 4096)) as (? & ? & _ & Ht);
        [done|lia|lia|].
      split_and!; try done. intros g Hg. rewrite Ht by done.
      destruct (decide (base ≤ 4096 * g ∧ _)).
      * by rewrite decide_True by lia.
      * by rewrite decide_False by lia.
  - split_and!; try done. intros g Hg. by rewrite decide_False by lia.
Qed.

(** Making a byte range available frees exactly the pages the range covers
    completely inside the managed memory, whatever the range (empty, unaligned,
    running past 4 GiB), and leaves every other frame as it was. *)
Theorem pmm_mark_region_available_spec s base length :
  pmm_wf s → is_u32 base → is_u32 length →
  let s' := pmm_mark_region_available base length s in
  pmm_wf s' ∧ nframes s' = nframes s ∧
  ∀ g, 0 ≤ g → test_frame s' g =
    if decide (base ≤ 4096 * g ∧ 4096 * g + 4096 ≤ Z.min (base + length) (4096 * nframes s))
    then false else test_frame s g.
Proof. exact (available_cases s base length). Qed.

Lemma reserve_cases s base length :
  pmm_wf s → is_u32 base → is_u32 length →
  let s' := pmm_reserve_region base length s in
  pmm_wf s' ∧ nframes s' = nframes s ∧
  ∀ g, 0 ≤ g → test_frame s' g =
    if decide (base < 4096 * g + 4096 ∧ 4096 * g < Z.min (base + length) (4096 * nframes s) ∧ length ≠ 0)
    then true else test_frame s g.
Proof.
  intros Hwf Hb Hl. pose proof (wf_nframes s Hwf) as Hn.
  pose proof (region_end_spec s base length Hwf Hb Hl) as He.
  unfold pmm_reserve_region. destruct (region_end base length s) as [e|].
  - destruct He as (He & Hl0 & Hbase).
    rewrite align_down_page by (unfold two32 in *; lia).
    rewrite align_up_page by (unfold two32 in *; lia). unfold PAGE_SIZE_BYTES.
    rewrite !page_div. pose proof (div_4096 base). pose proof (div_4096 (e + 4095)).
    destruct (Z.leb_spec (4096 * ((e + 4095) / 4096)) (4096 * (base / 4096))); [lia|].
    destruct (set_range_spec s (base / 4096) ((e + 4095) / 4096)) as (? & ? & _ & Ht);
        [done|split; [apply Z.div_pos|]; lia|].
    split_and!; try done. intros g Hg. rewrite Ht by done.
    destruct (decide (base < 4096 * g + 4096 ∧ _)).
    + by rewrite decide_True by lia.
    + by rewrite decide_False by lia.
  - split_and!; try done. intros g Hg. by rewrite decide_False by lia.
Qed.

(** Reserving a byte range takes exactly the pages the range touches inside
    the managed memory and leaves every other frame as it was. *)
Theorem pmm_reserve_region_spec s base length :
  pmm_wf s → is_u32 base → is_u32 length →
  let s' := pmm_reserve_region base length s in
  pmm_wf s' ∧ nframes s' = nframes s ∧
  ∀ g, 0 ≤ g → test_frame s' g =
    if decide (base < 4096 * g + 4096 ∧ 4096 * g < Z.min (base + length) (4096 * nframes s) ∧ length ≠ 0)
    then true else test_frame s g.
Proof. exact (reserve_cases s base length). Qed.

Lemma pmm_init_spec mem_upper s :
  is_u32 mem_upper →
  pmm_wf (pmm_init mem_upper s) ∧
  nframes (pmm_init mem_upper s) = Z.min mem_upper MAX_MEMORY / 4096 ∧
  ∀ g, 0 ≤ g → test_frame (pmm_init mem_upper s) g = true.
Proof.
  intros Hm. unfold pmm_init, MAX_MEMORY, PAGE_SIZE_BYTES.
  set (m := if _ <? mem_upper then _ else mem_upper).
  assert (Hmm : m = Z.min mem_upper (1024 * 1024 * 1024)).
  { unfold m. destruct (Z.ltb_spec (1024 * 1024 * 1024) mem_upper); lia. }
  pose proof (div_4096 m). set (nf := m / 4096) in *.
  assert (Hnf : 0 ≤ nf ≤ 262144) by (unfold two32 in *; lia).
  rewrite words_u32 by done.
  assert (Hw : 0 ≤ (nf + 31) / 32) by (apply Z.div_pos; lia).
  set (s' := PmmState _ _ _ _).
  assert (Hall : ∀ g, 0 ≤ g → test_frame s' g = true).
  { intros g Hg. unfold test_frame, frame_index_valid. simpl.
    destruct (Z.ltb_spec g nf); simpl; [|done].
    rewrite aget_replicate by (pose proof (frame_word_index nf g); lia).
    apply full_word_bits; [done|apply Z.mod_pos_bound; lia]. }
  split_and!; [split; simpl| |done].
  - eexists. split; [done|]. rewrite alen_replicate. split; [lia|].
    apply Forall_replicate. unfold NO_FRAME, two32. lia.
  - done.
  - rewrite (count_range_ext _ (λ _, true)) by (intros; apply Hall; lia).
    unfold count_range. simpl. rewrite zsum_const; lia.
  - simpl. unfold nf. by rewrite Hmm.
Qed.

(** * Runs of the allocator *)

Inductive pmm_op :=
  | OpAlloc
  | OpFree (addr : Z)
  | OpAvailable (base length : Z)
  | OpReserve (base length : Z).

Definition pmm_run1 (op : pmm_op) (s : pmm_state) : pmm_state :=
  match op with
  | OpAlloc => (pmm_alloc_frame s).2
  | OpFree addr => pmm_free_frame addr s
  | OpAvailable base length => pmm_mark_region_available base length s
  | OpReserve base length => pmm_reserve_region base length s
  end.

Definition op_args_ok (op : pmm_op) : Prop :=
  match op with
  | OpAlloc => True
  | OpFree addr => is_u32 addr
  | OpAvailable base length | OpReserve base length => is_u32 base ∧ is_u32 length
  end.

Inductive pmm_reach (mem_upper : Z) : pmm_state → Prop :=
  | reach_init s : pmm_reach mem_upper (pmm_init mem_upper s)
  | reach_op op s : pmm_reach mem_upper s → op_args_ok op → pmm_reach mem_upper (pmm_run1 op s).

Lemma pmm_run1_wf op s :
  pmm_wf s → op_args_ok op → pmm_wf (pmm_run1 op s) ∧ nframes (pmm_run1 op s) = nframes s.
Proof.
  intros Hwf Hok. destruct op; simpl in *.
  - pose proof (pmm_alloc_cases s Hwf) as Ha. destruct (pmm_alloc_frame s) as [addr s'].
    destruct Ha as [(_ & _ & ->)|(f & _ & _ & _ & ? & _ & ? & _)]; done.
  - destruct (pmm_free_cases s addr Hwf Hok) as (? & ? & _). done.
  - destruct Hok as [Hb Hl]. destruct (available_cases s base length Hwf Hb Hl) as (? & ? & _). done.
  - destruct Hok as [Hb Hl]. destruct (reserve_cases s base length Hwf Hb Hl) as (? & ? & _). done.
Qed.

(** C36: from [pmm_init], every state reached by any sequence of allocations,
    frees (of any address) and region operations is well formed: the bitmap keeps
    its size, its words stay 32-bit, and [used_frames] is exactly the number of
    frames whose bit is set, so [total = used + free] in [pmm_get_stats]. *)
Theorem pmm_reach_accounting mem_upper s :
  is_u32 mem_upper → pmm_reach mem_upper s →
  pmm_wf s ∧ nframes s = Z.min mem_upper MAX_MEMORY / 4096 ∧
  let st := pmm_get_stats s in
  st_used_frames st = count_range (test_frame s) (nframes s) ∧
  st_total_frames st = st_used_frames st + st_free_frames st ∧ 0 ≤ st_free_frames st.
Proof.
  intros Hm Hr.
  assert (Hwf : pmm_wf s ∧ nframes s = Z.min mem_upper MAX_MEMORY / 4096).
  { induction Hr as [s|op s Hr [IH IHn] Hok].
    - destruct (pmm_init_spec mem_upper s Hm) as (? & ? & _). done.
    - destruct (pmm_run1_wf op s IH Hok). split; [done|congruence]. }
  destruct Hwf as [Hwf Hn]. simpl. split_and!; [done|done|..].
  - apply (wf_used s Hwf).
  - pose proof (wf_used s Hwf). pose proof (wf_nframes s Hwf).
    pose proof (count_range_bounds (test_frame s) (nframes s)).
    destruct (Z.leb_spec (used_frames s) (nframes s)); lia.
  - destruct (Z.leb_spec (used_frames s) (nframes s)); lia.
Qed.

(** A run that frees no frame of [[lo, hi)] and makes none of it available. *)
Definition spares (lo hi : Z) (op : pmm_op) : Prop :=
  match op with
  | OpFree addr => ¬ (lo ≤ addr < hi)
  | OpAvailable base length => hi ≤ base ∨ base + length ≤ lo
  | _ => True
  end.

(** The addresses a run hands out. *)
Fixpoint pmm_run (ops : list pmm_op) (s : pmm_state) : list Z * pmm_state :=
  match ops with
  | [] => ([], s)
  | op :: ops' =>
      let out := match op with OpAlloc => [(pmm_alloc_frame s).1] | _ => [] end in
      let '(outs, s') := pmm_run ops' (pmm_run1 op s) in (out ++ outs, s')
  end.

Definition region_taken (lo hi : Z) (s : pmm_state) : Prop :=
  ∀ g, 0 ≤ g → lo < 4096 * g + 4096 → 4096 * g < hi → test_frame s g = true.

Lemma region_taken_step lo hi op s :
  0 ≤ lo → pmm_wf s → op_args_ok op → spares (4096 * (lo / 4096)) (4096 * ((hi + 4095) / 4096)) op →
  region_taken lo hi s → region_taken lo hi (pmm_run1 op s).
Proof.
  intros Hlo Hwf Hok Hsp Hr g Hg Hg1 Hg2. specialize (Hr g Hg Hg1 Hg2).
  pose proof (div_4096 lo). pose proof (div_4096 (hi + 4095)).
  destruct op; simpl in *.
  - pose proof (pmm_alloc_cases s Hwf) as Ha. destruct (pmm_alloc_frame s) as [a s'].
    destruct Ha as [(_ & _ & ->)|(f & _ & _ & _ & _ & _ & _ & Ht)]; [done|].
    rewrite Ht, Hr by done. apply orb_true_r.
  - destruct (pmm_free_cases s addr Hwf Hok) as (_ & _ & Hsame & Ht).
    destruct (decide (addr mod 4096 = 0)) as [Hal|Hal].
    + rewrite Ht by done. rewrite decide_False; [done|]. intros [-> _].
      pose proof (Z.div_mod addr 4096 ltac:(lia)). apply Hsp. lia.
    + rewrite Hsame by auto. done.
  - destruct Hok. destruct (available_cases s base length) as (_ & _ & Ht); [done..|].
    rewrite Ht by done. by rewrite decide_False by lia.
  - destruct Hok. destruct (reserve_cases s base length) as (_ & _ & Ht); [done..|].
    rewrite Ht by done. by destruct (decide _).
Qed.

(** A reserved region is never handed out.  Once [[base, base+length)] has
    been reserved (the kernel image, the bitmap itself, the heap, ...), no run
    of allocations, reservations, frees of other pages and releases of disjoint
    ranges ever returns a page that overlaps it. *)
Theorem reserved_region_never_allocated s base length ops :
  pmm_wf s → is_u32 base → is_u32 length → length ≠ 0 →
  base + length ≤ 4096 * nframes s →
  Forall (λ op, op_args_ok op ∧
     spares (4096 * (base / 4096)) (4096 * ((base + length + 4095) / 4096)) op) ops →
  Forall (λ addr, addr = 0 ∨ addr + 4096 ≤ base ∨ base + length ≤ addr)
         (pmm_run ops (pmm_reserve_region base length s)).1.
Proof.
  intros Hwf Hb Hl Hl0 Hin Hops.
  destruct (reserve_cases s base length Hwf Hb Hl) as (Hwf' & Hn' & Ht).
  assert (Hr : region_taken base (base + length) (pmm_reserve_region base length s)).
  { intros g Hg H1 H2. rewrite Ht by done. rewrite decide_True by lia. done. }
  clear Ht. revert Hwf' Hr. generalize (pmm_reserve_region base length s) as s1.
  clear s Hwf Hin Hn'. induction Hops as [|op ops [Hok Hsp] _ IH]; intros s Hwf Hr; [constructor|].
  specialize (IH (pmm_run1 op s) (proj1 (pmm_run1_wf op s Hwf Hok))
    (region_taken_step base (base + length) op s (proj1 Hb) Hwf Hok Hsp Hr)).
  simpl. destruct (pmm_run ops (pmm_run1 op s)) as [outs s'] eqn:E. simpl in *.
  apply Forall_app. split; [|done]. destruct op; try constructor; [|constructor].
  pose proof (pmm_alloc_cases s Hwf) as Ha. destruct (pmm_alloc_frame s) as [a s1]. simpl.
  destruct Ha as [(_ & -> & _)|(f & [Hf Hfree] & _ & -> & _)]; [by left|].
  right. destruct (decide (f * 4096 + 4096 ≤ base)); [by left|].
  destruct (decide (base + length ≤ f * 4096)); [by right|].
  unfold region_taken in Hr. rewrite Hr in Hfree by lia. done.
Qed.

(** * Concrete instances *)

(** 16 frames, of which frames 3 .. 6 (12 KiB to 28 KiB) are available. *)
Definition demo16 : pmm_state := pmm_init 65536 pmm_zero.
Definition demo : pmm_state := pmm_mark_region_available 12288 16384 demo16.

Lemma demo16_wf : pmm_wf demo16.
Proof. apply pmm_init_spec. unfold two32. lia. Qed.

Lemma demo_wf : pmm_wf demo.
Proof. apply available_cases; [apply demo16_wf|unfold two32; lia..]. Qed.

Lemma demo_reach : pmm_reach 65536 demo.
Proof.
  apply (reach_op 65536 (OpAvailable 12288 16384) demo16); [apply reach_init|].
  simpl. unfold two32. lia.
Qed.

Lemma pmm_alloc_frame_spec_witness :
  pmm_wf demo ∧ (pmm_alloc_frame demo).1 = 12288 ∧
  used_frames (pmm_alloc_frame demo).2 = used_frames demo + 1.
Proof.
  pose proof (pmm_alloc_frame_spec demo demo_wf) as H.
  split; [apply demo_wf|]. split; [reflexivity|].
  destruct (pmm_alloc_frame demo) as [addr s'] eqn:E.
  destruct H as [(Hall & _)|(f & _ & _ & _ & _ & Hu & _)]; [|exact Hu].
  specialize (Hall 3 ltac:(change (nframes demo) with 16; lia)). vm_compute in Hall. discriminate.
Defined.

Lemma pmm_free_frame_spec_witness :
  pmm_wf demo16 ∧ is_u32 16384 ∧
  (∀ g, 0 ≤ g → test_frame (pmm_free_frame 16384 demo16) g =
     if decide (g = 16384 / 4096 ∧ g < nframes demo16) then false else test_frame demo16 g).
Proof.
  assert (Ha : is_u32 16384) by (unfold two32; lia).
  split; [apply demo16_wf|]. split; [exact Ha|].
  destruct (pmm_free_frame_spec demo16 16384 demo16_wf Ha) as (_ & _ & _ & H).
  apply H. reflexivity.
Defined.

Lemma pmm_mark_region_available_spec_witness :
  pmm_wf demo16 ∧ test_frame (pmm_mark_region_available 12287 16386 demo16) 3 = false ∧
  test_frame (pmm_mark_region_available 12287 16386 demo16) 2 = true.
Proof.
  assert (Hb : is_u32 12287) by (unfold two32; lia).
  assert (Hl : is_u32 16386) by (unfold two32; lia).
  destruct (pmm_mark_region_available_spec demo16 12287 16386 demo16_wf Hb Hl) as (_ & _ & H).
  split; [apply demo16_wf|]. rewrite !H by lia. split; reflexivity.
Defined.

Lemma pmm_reserve_region_spec_witness :
  pmm_wf demo ∧ test_frame (pmm_reserve_region 16383 2 demo) 3 = true ∧
  test_frame (pmm_reserve_region 16383 2 demo) 4 = true ∧
  test_frame (pmm_reserve_region 16383 2 demo) 5 = false.
Proof.
  assert (Hb : is_u32 16383) by (unfold two32; lia).
  assert (Hl : is_u32 2) by (unfold two32; lia).
  destruct (pmm_reserve_region_spec demo 16383 2 demo_wf Hb Hl) as (_ & _ & H).
  split; [apply demo_wf|]. rewrite !H by lia. repeat split; reflexivity.
Defined.

Lemma pmm_reach_accounting_witness :
  is_u32 65536 ∧ pmm_reach 65536 demo ∧ pmm_wf demo ∧ st_free_frames (pmm_get_stats demo) = 4.
Proof.
  assert (Hm : is_u32 65536) by (unfold two32; lia).
  split; [exact Hm|]. split; [apply demo_reach|].
  split; [apply (pmm_reach_accounting 65536 demo Hm demo_reach)|]. reflexivity.
Defined.

(** Reserving frames 3 and 4 of [demo]: two allocations return frames 5 and 6,
    the third finds nothing. *)
Lemma reserved_region_never_allocated_witness :
  Forall (λ addr, addr = 0 ∨ addr + 4096 ≤ 12288 ∨ 12288 + 8192 ≤ addr)
    (pmm_run [OpAlloc; OpFree 20480; OpAlloc; OpAlloc] (pmm_reserve_region 12288 8192 demo)).1 ∧
  (pmm_run [OpAlloc; OpFree 20480; OpAlloc; OpAlloc] (pmm_reserve_region 12288 8192 demo)).1
    = [20480; 20480; 24576].
Proof.
  split; [|reflexivity].
  apply (reserved_region_never_allocated demo 12288 8192 [OpAlloc; OpFree 20480; OpAlloc; OpAlloc]);
    [apply demo_wf|unfold two32; lia|unfold two32; lia|lia| |].
  - change (nframes demo) with 16. lia.
  - rewrite !List.Forall_cons_iff, List.Forall_nil_iff. cbn. unfold two32.
    change ((12288 + 8192 + 4095) / 4096) with 5. lia.
Defined.
