(* ===== verification/Kmalloc.v ===== *)
(** kernel/kmalloc.c: the kernel heap.

    Addresses are 32-bit numbers, 0 is the null pointer.  [kheap] holds the
    file-scope variables; [g_large_allocs] is a list of
    [KMALLOC_LARGE_TRACK_MAX] records of which one is unused when its [size] is
    0.  The header gives the invariant [heap_wf] in words. *)

From S2P Require Import Prelude.

Definition KMALLOC_SMALL_MAX : Z := 256.
Definition KMALLOC_LARGE_TRACK_MAX : Z := 64.
Definition PAGE : Z := 4096.

Record large_alloc := LargeAlloc {
  la_ptr : Z;
  la_size : Z;
  la_in_use : bool
}.

#[export] Instance large_alloc_inhabited : Inhabited large_alloc := populate (LargeAlloc 0 0 false).

Record kheap := KHeap {
  heap_base : Z;
  heap_end : Z;
  small_ptr : Z;
  large_ptr : Z;
  small_bytes_used : Z;
  large_bytes_used : Z;
  small_alloc_count : Z;
  large_alloc_count : Z;
  large_allocs : list large_alloc
}.

(** * Operations *)

Definition align_down_uintptr (value align : Z) : Z := Z.land value (not32 (sub32 align 1)).

Definition align_up_size (value align : Z) : Z :=
  Z.land (add32 value (sub32 align 1)) (not32 (sub32 align 1)).

Definition kmalloc_find_unused_large_record (recs : list large_alloc) : option Z :=
  search_range 0 KMALLOC_LARGE_TRACK_MAX (λ i,
    if la_size recs.[i] =? 0 then Some i else None).

Definition kmalloc_find_large_record (recs : list large_alloc) (addr : Z) (want_in_use : bool)
    : option Z :=
  search_range 0 KMALLOC_LARGE_TRACK_MAX (λ i,
    let rec := recs.[i] in
    if (la_size rec =? 0) || negb (la_ptr rec =? addr) then None
    else if negb (eqb (la_in_use rec) want_in_use) then None
    else Some i).

Definition kmalloc_find_best_free_large_record (recs : list large_alloc) (size : Z) : option Z :=
  for_range 0 KMALLOC_LARGE_TRACK_MAX (λ i best,
    let rec := recs.[i] in
    if (la_size rec =? 0) || la_in_use rec || (la_size rec <? size) then best
    else match best with
         | None => Some i
         | Some b => if la_size rec <? la_size recs.[b] then Some i else best
         end) None.

(** One round of the reclaim loop: the first free record at [large_ptr]. *)
Definition reclaim_candidate (recs : list large_alloc) (lp : Z) : option Z :=
  search_range 0 KMALLOC_LARGE_TRACK_MAX (λ i,
    let rec := recs.[i] in
    if (la_size rec =? 0) || la_in_use rec || negb (la_ptr rec =? lp) then None else Some i).

(** [for (;;)] until a round reclaims nothing.  Each round empties one of the
    64 records, so 65 rounds always reach the end ([reclaim_spec]). *)
Fixpoint kmalloc_try_reclaim_large_top (fuel : nat) (recs : list large_alloc) (lp : Z)
    : list large_alloc * Z :=
  match fuel with
  | O => (recs, lp)
  | S fuel' =>
      match reclaim_candidate recs lp with
      | None => (recs, lp)
      | Some i =>
          kmalloc_try_reclaim_large_top fuel' recs.[i <- LargeAlloc 0 0 false]
                                        (add32 lp (la_size recs.[i]))
      end
  end.

Definition reclaim_fuel : nat := 65.

Definition kmalloc_init (heap_start heap_size : Z) : kheap :=
  let hend := add32 heap_start heap_size in
  KHeap heap_start hend heap_start (align_down_uintptr hend PAGE) 0 0 0 0
        (replicate 64 (LargeAlloc 0 0 false)).

Definition set_small (h : kheap) (sp used count : Z) : kheap :=
  KHeap (heap_base h) (heap_end h) sp (large_ptr h) used (large_bytes_used h) count
        (large_alloc_count h) (large_allocs h).

Definition set_large (h : kheap) (lp used count : Z) (recs : list large_alloc) : kheap :=
  KHeap (heap_base h) (heap_end h) (small_ptr h) lp (small_bytes_used h) used
        (small_alloc_count h) count recs.

Definition kmalloc (size : Z) (h : kheap) : Z * kheap :=
  if (heap_base h =? 0) || (heap_end h =? 0) || (size =? 0) then (0, h)
  else if size <=? KMALLOC_SMALL_MAX then
    let alloc_size := Z.land (add32 size 7) (not32 7) in
    if large_ptr h <? add32 (small_ptr h) alloc_size then (0, h)
    else
      (small_ptr h,
       set_small h (add32 (small_ptr h) alloc_size) (add32 (small_bytes_used h) alloc_size)
                 (add32 (small_alloc_count h) 1))
  else
    let alloc_size := align_up_size size PAGE in
    match kmalloc_find_best_free_large_record (large_allocs h) alloc_size with
    | Some i =>
        let rec := (large_allocs h).[i] in
        (la_ptr rec,
         set_large h (large_ptr h) (add32 (large_bytes_used h) (la_size rec))
                   (add32 (large_alloc_count h) 1)
                   (large_allocs h).[i <- LargeAlloc (la_ptr rec) (la_size rec) true])
    | None =>
        let large_addr := large_ptr h in
        let small_addr := small_ptr h in
        if (large_addr <? small_addr) || (sub32 large_addr small_addr <? alloc_size) then (0, h)
        else
          match kmalloc_find_unused_large_record (large_allocs h) with
          | None => (0, h)
          | Some i =>
              let lp := sub32 (large_ptr h) alloc_size in
              (lp,
               set_large h lp (add32 (large_bytes_used h) alloc_size)
                         (add32 (large_alloc_count h) 1)
                         (large_allocs h).[i <- LargeAlloc lp alloc_size true])
          end
    end.

Definition kfree (ptr : Z) (h : kheap) : kheap :=
  if ptr =? 0 then h
  else if negb (Z.land ptr (PAGE - 1) =? 0) then h
  else
    match kmalloc_find_large_record (large_allocs h) ptr true with
    | None => h
    | Some i =>
        let rec := (large_allocs h).[i] in
        let recs := (large_allocs h).[i <- LargeAlloc (la_ptr rec) (la_size rec) false] in
        let used := if la_size rec <=? large_bytes_used h
                    then sub32 (large_bytes_used h) (la_size rec) else 0 in
        let '(recs', lp') := kmalloc_try_reclaim_large_top reclaim_fuel recs (large_ptr h) in
        set_large h lp' used (large_alloc_count h) recs'
    end.

Record kmalloc_stats := KStats {
  st_heap_base : Z;
  st_heap_end : Z;
  st_small_cursor : Z;
  st_large_cursor : Z;
  st_small_bytes_used : Z;
  st_large_bytes_used : Z;
  st_small_alloc_count : Z;
  st_large_alloc_count : Z
}.

Definition kmalloc_get_stats (h : kheap) : kmalloc_stats :=
  KStats (heap_base h) (heap_end h) (small_ptr h) (large_ptr h) (small_bytes_used h)
         (large_bytes_used h) (small_alloc_count h) (large_alloc_count h).

(** * The invariant *)

Definition heap_top (h : kheap) : Z := heap_end h - heap_end h mod 4096.

(** The used records, listed by the indices [os], tile [[a, b)] upwards. *)
Fixpoint chain (recs : list large_alloc) (a b : Z) (os : list Z) : Prop :=
  match os with
  | [] => a = b
  | i :: os' =>
      0 ≤ i < KMALLOC_LARGE_TRACK_MAX ∧ la_ptr recs.[i] = a ∧ 0 < la_size recs.[i] ∧
      la_size recs.[i] mod 4096 = 0 ∧ chain recs (a + la_size recs.[i]) b os'
  end.

Definition live_bytes (recs : list large_alloc) : Z :=
  zsum (λ i, if la_in_use recs.[i] then la_size recs.[i] else 0) 0 KMALLOC_LARGE_TRACK_MAX.

(** The records tile [[lp, top)] with the top block in use, unused records
    are entirely zero. *)
Record tiling (recs : list large_alloc) (lp top : Z) (os : list Z) : Prop := {
  tl_len : alen recs = KMALLOC_LARGE_TRACK_MAX;
  tl_chain : chain recs lp top os;
  tl_nodup : NoDup os;
  tl_all : ∀ i, 0 ≤ i < KMALLOC_LARGE_TRACK_MAX → i ∉ os → recs.[i] = LargeAlloc 0 0 false
}.

Record heap_wf (h : kheap) : Prop := {
  hw_base : 0 < heap_base h ∧ heap_base h mod 8 = 0;
  hw_order : heap_base h ≤ small_ptr h ≤ large_ptr h;
  hw_end : heap_end h ≤ two32 - 4096;
  hw_small : small_ptr h mod 8 = 0;
  hw_large : large_ptr h mod 4096 = 0;
  hw_tiling : ∃ os, tiling (large_allocs h) (large_ptr h) (heap_top h) os ∧
                    ∀ i, head os = Some i → la_in_use (large_allocs h).[i] = true;
  hw_used : large_bytes_used h = live_bytes (large_allocs h)
}.

(** A large block handed out and not freed: [n] bytes at [p]. *)
Definition live (h : kheap) (p n : Z) : Prop :=
  ∃ i, 0 ≤ i < KMALLOC_LARGE_TRACK_MAX ∧ (large_allocs h).[i] = LargeAlloc p n true ∧ n ≠ 0.

Definition disjoint_ranges (p n q m : Z) : Prop := p + n ≤ q ∨ q + m ≤ p.

(** * Tilings *)

Lemma chain_ext recs recs' a b os :
  (∀ i, i ∈ os → la_ptr recs.[i] = la_ptr recs'.[i] ∧ la_size recs.[i] = la_size recs'.[i]) →
  chain recs a b os → chain recs' a b os.
Proof.
  revert a. induction os as [|i os IH]; intros a Hext; simpl; [done|].
  destruct (Hext i) as [Hp Hs]; [set_solver|].
  rewrite <- Hp, <- Hs. intros (Hi & ? & ? & ? & Hc). split_and!; try done; try lia.
  apply IH; [|done]. intros j Hj. apply Hext. set_solver.
Qed.

Lemma chain_le recs a b os : chain recs a b os → a ≤ b.
Proof.
  revert a. induction os as [|i os IH]; intros a; simpl; [lia|].
  intros (_ & _ & ? & _ & Hc). apply IH in Hc. lia.
Qed.

Lemma chain_bounds recs a b os i :
  chain recs a b os → i ∈ os →
  0 ≤ i < KMALLOC_LARGE_TRACK_MAX ∧ a ≤ la_ptr recs.[i] ∧ la_ptr recs.[i] + la_size recs.[i] ≤ b ∧
  0 < la_size recs.[i] ∧ (a mod 4096 = 0 → la_ptr recs.[i] mod 4096 = 0).
Proof.
  revert a. induction os as [|j os IH]; intros a; simpl; [set_solver|].
  intros (Hj & Hp & Hs & Hal & Hc) Hin. apply elem_of_cons in Hin as [->|Hin].
  - pose proof (chain_le _ _ _ _ Hc). split_and!; try lia. intros. by rewrite Hp.
  - destruct (IH _ Hc Hin) as (? & ? & ? & ? & Hm). split_and!; try lia.
    intros Ha. apply Hm. rewrite Z.add_mod, Ha, Hal by lia. done.
Qed.

Lemma chain_disjoint recs a b os i j :
  chain recs a b os → NoDup os → i ∈ os → j ∈ os → i ≠ j →
  disjoint_ranges (la_ptr recs.[i]) (la_size recs.[i]) (la_ptr recs.[j]) (la_size recs.[j]).
Proof.
  revert a. induction os as [|k os IH]; intros a; simpl; [set_solver|].
  intros (Hk & Hp & Hs & Hal & Hc) [Hnk Hnd]%NoDup_cons Hi Hj Hij.
  apply elem_of_cons in Hi as [->|Hi]; apply elem_of_cons in Hj as [->|Hj]; [done| | |by eapply IH].
  - destruct (chain_bounds _ _ _ _ _ Hc Hj) as (_ & ? & _). left. lia.
  - destruct (chain_bounds _ _ _ _ _ Hc Hi) as (_ & ? & _). right. lia.
Qed.

Definition size_in (recs : list large_alloc) (os : list Z) (i : Z) : Z :=
  if decide (i ∈ os) then la_size recs.[i] else 0.

Lemma chain_sum recs a b os :
  chain recs a b os → NoDup os → zsum (size_in recs os) 0 KMALLOC_LARGE_TRACK_MAX = b - a.
Proof.
  revert a. induction os as [|i os IH]; intros a; simpl.
  - intros -> _. rewrite (zsum_ext _ (λ _, 0)) by (intros; unfold size_in; rewrite decide_False; [done|set_solver]).
    rewrite zsum_const; unfold KMALLOC_LARGE_TRACK_MAX; lia.
  - intros (Hi & Hp & Hs & _ & Hc) [Hni Hnd]%NoDup_cons.
    rewrite (zsum_update (size_in recs (i :: os)) (size_in recs os) 0 _ i); [|lia|].
    + rewrite (IH _ Hc Hnd). unfold size_in at 1 2.
      rewrite (decide_False (P := i ∈ os)) by done. rewrite decide_True by set_solver. lia.
    + intros j Hj Hne. unfold size_in. destruct (decide (j ∈ os)).
      * by rewrite decide_True by set_solver.
      * by rewrite decide_False by set_solver.
Qed.

Lemma tiling_live_bytes recs lp top os :
  tiling recs lp top os → 0 ≤ live_bytes recs ≤ top - lp.
Proof.
  intros [Hlen Hc Hnd Hall]. rewrite <- (chain_sum _ _ _ _ Hc Hnd). unfold live_bytes. split.
  - transitivity (zsum (λ _, 0) 0 KMALLOC_LARGE_TRACK_MAX).
    { rewrite zsum_const; unfold KMALLOC_LARGE_TRACK_MAX; lia. }
    apply zsum_le. intros i Hi. destruct (decide (i ∈ os)) as [Hin|Hin].
    + destruct (chain_bounds _ _ _ _ _ Hc Hin) as (_ & _ & _ & ? & _).
      destruct (la_in_use _); lia.
    + rewrite Hall by (done || lia). simpl. lia.
  - apply zsum_le. intros i Hi. unfold size_in. destruct (decide (i ∈ os)) as [Hin|Hin].
    + destruct (chain_bounds _ _ _ _ _ Hc Hin) as (_ & _ & _ & ? & _).
      destruct (la_in_use _); lia.
    + rewrite Hall by (done || lia). simpl. lia.
Qed.

Lemma tiling_used recs lp top os i :
  tiling recs lp top os → 0 ≤ i < KMALLOC_LARGE_TRACK_MAX → la_size recs.[i] ≠ 0 → i ∈ os.
Proof.
  intros Ht Hi Hs. destruct (decide (i ∈ os)); [done|].
  rewrite (tl_all _ _ _ _ Ht) in Hs by done. done.
Qed.

Lemma tiling_length recs lp top os : tiling recs lp top os → (length os ≤ 64)%nat.
Proof.
  intros [_ Hc Hnd _].
  change 64%nat with (length (seqZ 0 64)) at 1. apply submseteq_length, NoDup_submseteq; [done|].
  intros i Hi. destruct (chain_bounds _ _ _ _ _ Hc Hi) as ((? & ?) & _).
  apply elem_of_seqZ. unfold KMALLOC_LARGE_TRACK_MAX in *. lia.
Qed.

(** The record that starts a tiling is the only used one at its address. *)
Lemma tiling_head recs lp top os i :
  tiling recs lp top os → i ∈ os → la_ptr recs.[i] = lp → ∃ os', os = i :: os'.
Proof.
  intros [_ Hc Hnd _] Hin Hp. destruct os as [|j os]; [set_solver|].
  apply elem_of_cons in Hin as [->|Hin]; [by eexists|].
  simpl in Hc. destruct Hc as (_ & _ & ? & _ & Hc).
  destruct (chain_bounds _ _ _ _ _ Hc Hin) as (_ & ? & _). lia.
Qed.

(** Changing only the in-use flags keeps a tiling. *)
Lemma tiling_flag recs lp top os i b :
  tiling recs lp top os → i ∈ os →
  tiling recs.[i <- LargeAlloc (la_ptr recs.[i]) (la_size recs.[i]) b] lp top os.
Proof.
  intros Ht Hin. pose proof Ht as [Hlen Hc Hnd Hall].
  destruct (chain_bounds _ _ _ _ _ Hc Hin) as (Hi & _). split; [by arr| |done|].
  - eapply chain_ext; [|done]. intros j Hj. rewrite aget_aset; [|lia|].
    + case_decide; [by subst|done].
    + by apply (chain_bounds _ _ _ _ _ Hc Hj).
  - intros j Hj Hnin. rewrite aget_aset_ne; [by apply Hall|lia|lia|set_solver].
Qed.

(** Emptying the record at the bottom of a tiling. *)
Lemma tiling_pop recs lp top i os :
  tiling recs lp top (i :: os) →
  tiling recs.[i <- LargeAlloc 0 0 false] (lp + la_size recs.[i]) top os.
Proof.
  intros [Hlen Hc [Hni Hnd]%NoDup_cons Hall]. destruct Hc as (Hi & Hp & Hs & Hal & Hc).
  split; [by arr| |done|].
  - eapply chain_ext; [|done]. intros j Hj.
    rewrite aget_aset_ne; [done|lia| |set_solver].
    apply (chain_bounds _ _ _ _ _ Hc Hj).
  - intros j Hj Hnj. rewrite aget_aset by lia. case_decide; [done|].
    apply Hall; [done|set_solver].
Qed.

(** Putting a block below a tiling into an unused record. *)
Lemma tiling_push recs lp top os i n b :
  tiling recs lp top os → 0 ≤ i < KMALLOC_LARGE_TRACK_MAX → la_size recs.[i] = 0 →
  0 < n → n mod 4096 = 0 →
  tiling recs.[i <- LargeAlloc (lp - n) n b] (lp - n) top (i :: os).
Proof.
  intros Ht Hi Hs Hn Hal. pose proof Ht as [Hlen Hc Hnd Hall].
  assert (Hni : i ∉ os).
  { intros Hin. destruct (chain_bounds _ _ _ _ _ Hc Hin) as (_ & _ & _ & ? & _). lia. }
  split; [by arr| | |].
  - simpl. rewrite !aget_aset_eq by lia. simpl. split_and!; try done; try lia.
    replace (lp - n + n) with lp by lia. eapply chain_ext; [|done].
    intros j Hj. rewrite aget_aset_ne; [done|lia| |set_solver].
    apply (chain_bounds _ _ _ _ _ Hc Hj).
  - by apply NoDup_cons.
  - intros j Hj Hnj. rewrite aget_aset_ne; [apply Hall; set_solver|lia|lia|set_solver].
Qed.

(** * Searches *)

Lemma reclaim_candidate_Some recs lp i :
  reclaim_candidate recs lp = Some i →
  0 ≤ i < KMALLOC_LARGE_TRACK_MAX ∧ la_size recs.[i] ≠ 0 ∧ la_in_use recs.[i] = false ∧
  la_ptr recs.[i] = lp.
Proof.
  intros (j & Hj & Hf & _)%search_range_Some.
  revert Hf. cbv zeta. destruct (Z.eqb_spec (la_size recs.[j]) 0), (la_in_use recs.[j]) eqn:Eu,
    (Z.eqb_spec (la_ptr recs.[j]) lp); simpl; try done. by intros [= <-].
Qed.

Lemma reclaim_candidate_None recs lp i :
  reclaim_candidate recs lp = None → 0 ≤ i < KMALLOC_LARGE_TRACK_MAX →
  la_size recs.[i] ≠ 0 → la_ptr recs.[i] = lp → la_in_use recs.[i] = true.
Proof.
  intros H Hi Hs Hp. unfold reclaim_candidate in H. rewrite search_range_None in H. specialize (H i Hi).
  simpl in H. rewrite (proj2 (Z.eqb_neq _ _) Hs), Hp, Z.eqb_refl in H. simpl in H.
  by destruct (la_in_use recs.[i]).
Qed.

Lemma find_large_Some recs p w i :
  kmalloc_find_large_record recs p w = Some i →
  0 ≤ i < KMALLOC_LARGE_TRACK_MAX ∧ la_size recs.[i] ≠ 0 ∧ la_ptr recs.[i] = p ∧
  la_in_use recs.[i] = w.
Proof.
  intros (j & Hj & Hf & _)%search_range_Some.
  revert Hf. cbv zeta.
  destruct (Z.eqb_spec (la_size recs.[j]) 0), (Z.eqb_spec (la_ptr recs.[j]) p); simpl; try done.
  destruct (eqb (la_in_use recs.[j]) w) eqn:E; [|done]. apply eqb_prop in E.
  by intros [= <-].
Qed.

Lemma find_large_None recs p w i :
  kmalloc_find_large_record recs p w = None → 0 ≤ i < KMALLOC_LARGE_TRACK_MAX →
  recs.[i] = LargeAlloc p (la_size recs.[i]) w → la_size recs.[i] = 0.
Proof.
  intros H Hi Hr. unfold kmalloc_find_large_record in H. rewrite search_range_None in H.
  specialize (H i Hi). simpl in H. rewrite Hr in H. simpl in H.
  rewrite Z.eqb_refl, eqb_reflx in H. revert H. by destruct (Z.eqb_spec (la_size recs.[i]) 0).
Qed.

Definition fits (recs : list large_alloc) (size i : Z) : Prop :=
  la_size recs.[i] ≠ 0 ∧ la_in_use recs.[i] = false ∧ size ≤ la_size recs.[i].

Lemma fits_iff recs size i :
  ((la_size recs.[i] =? 0) || la_in_use recs.[i] || (la_size recs.[i] <? size)) = false ↔
  fits recs size i.
Proof. unfold fits. rewrite !orb_false_iff, Z.eqb_neq, Z.ltb_ge. tauto. Qed.

(** The loop finds a smallest free record that fits. *)
Lemma find_best_spec recs size :
  match kmalloc_find_best_free_large_record recs size with
  | None => ∀ i, 0 ≤ i < KMALLOC_LARGE_TRACK_MAX → ¬ fits recs size i
  | Some b => 0 ≤ b < KMALLOC_LARGE_TRACK_MAX ∧ fits recs size b ∧
      ∀ i, 0 ≤ i < KMALLOC_LARGE_TRACK_MAX → fits recs size i → la_size recs.[b] ≤ la_size recs.[i]
  end.
Proof.
  unfold kmalloc_find_best_free_large_record.
  set (P := λ k (best : option Z), match best with
    | None => ∀ i, 0 ≤ i < k → ¬ fits recs size i
    | Some b => 0 ≤ b < k ∧ fits recs size b ∧
        ∀ i, 0 ≤ i < k → fits recs size i → la_size recs.[b] ≤ la_size recs.[i] end).
  apply (for_range_ind P); [unfold KMALLOC_LARGE_TRACK_MAX; lia|intros i Hi; lia|].
  intros i best Hi HP. unfold P in *.
  cbv zeta. pose proof (fits_iff recs size i) as Hiff.
  destruct ((la_size recs.[i] =? 0) || la_in_use recs.[i] || (la_size recs.[i] <? size));
    [assert (Hnfit : ¬ fits recs size i) by (rewrite <- Hiff; done)
    |assert (Hfit : fits recs size i) by (rewrite <- Hiff; done)]; clear Hiff.
  - destruct best as [b|].
    + destruct HP as (Hb & Hfb & Hmin). split_and!; try lia; [done|]. intros j Hj Hfj.
      destruct (decide (j = i)) as [->|]; [done|]. apply Hmin; [lia|done].
    + intros j Hj Hfj. destruct (decide (j = i)) as [->|]; [done|]. apply (HP j ltac:(lia) Hfj).
  - destruct best as [b|].
    + destruct HP as (Hb & Hfb & Hmin). destruct (Z.ltb_spec (la_size recs.[i]) (la_size recs.[b])).
      * split_and!; try lia; [done|]. intros j Hj Hfj.
        destruct (decide (j = i)) as [->|]; [lia|]. specialize (Hmin j ltac:(lia) Hfj). lia.
      * split_and!; try lia; [done|]. intros j Hj Hfj.
        destruct (decide (j = i)) as [->|]; [lia|]. apply Hmin; [lia|done].
    + split_and!; try lia; [done|]. intros j Hj Hfj.
      destruct (decide (j = i)) as [->|]; [lia|]. exfalso. by apply (HP j ltac:(lia)).
Qed.

Lemma find_unused_Some recs i :
  kmalloc_find_unused_large_record recs = Some i →
  0 ≤ i < KMALLOC_LARGE_TRACK_MAX ∧ la_size recs.[i] = 0.
Proof.
  intros (j & Hj & Hf & _)%search_range_Some.
  revert Hf. destruct (Z.eqb_spec (la_size recs.[j]) 0); [by intros [= <-]|done].
Qed.

(** The reclaim loop: it reaches its exit within the fuel, keeps the tiling and
    every block in use, and leaves a block in use (or nothing) at the bottom. *)
Lemma reclaim_spec fuel recs lp top os :
  tiling recs lp top os → 0 ≤ lp → top < two32 → (length os < fuel)%nat →
  let '(recs', lp') := kmalloc_try_reclaim_large_top fuel recs lp in
  reclaim_candidate recs' lp' = None ∧ lp ≤ lp' ≤ top ∧ (lp mod 4096 = 0 → lp' mod 4096 = 0) ∧
  (∃ os', tiling recs' lp' top os' ∧ ∀ i, head os' = Some i → la_in_use recs'.[i] = true) ∧
  live_bytes recs' = live_bytes recs ∧
  (∀ i, 0 ≤ i < KMALLOC_LARGE_TRACK_MAX → recs'.[i] = recs.[i] ∨
        (la_in_use recs.[i] = false ∧ recs'.[i] = LargeAlloc 0 0 false)).
Proof.
  revert recs lp os. induction fuel as [|fuel IH]; intros recs lp os Ht Hlp Htop Hf; [lia|].
  simpl. pose proof (chain_le _ _ _ _ (tl_chain _ _ _ _ Ht)).
  destruct (reclaim_candidate recs lp) as [i|] eqn:E.
  - apply reclaim_candidate_Some in E as (Hi & Hs & Hu & Hp).
    pose proof (tiling_used _ _ _ _ _ Ht Hi Hs) as Hin.
    destruct (tiling_head _ _ _ _ _ Ht Hin Hp) as [os' ->].
    destruct (chain_bounds _ _ _ _ _ (tl_chain _ _ _ _ Ht) Hin) as (_ & _ & ? & ? & _).
    apply tiling_pop in Ht as Ht'. pose proof (tl_len _ _ _ _ Ht) as Hlen.
    destruct (tl_chain _ _ _ _ Ht) as (_ & _ & _ & Hal & _).
    rewrite add32_small by (unfold two32 in *; lia).
    specialize (IH _ _ _ Ht' ltac:(lia) Htop ltac:(simpl in Hf; lia)).
    destruct (kmalloc_try_reclaim_large_top fuel _ _) as [recs' lp'].
    destruct IH as (Hc & ? & Hm & Hex & Hl & Hk). split_and!; try done; try lia.
    + intros Hlp0. apply Hm. rewrite Z.add_mod, Hlp0, Hal by lia. done.
    + rewrite Hl. apply zsum_ext. intros j Hj. rewrite aget_aset by lia.
      case_decide; [subst; by rewrite Hu|done].
    + intros j Hj. destruct (Hk j Hj) as [Hj'|[Hju Hj']]; rewrite aget_aset in * by lia.
      * case_decide; [subst; by right|by left].
      * case_decide; [subst|]; by right.
  - split_and!; try done; try lia; [|by left].
    exists os. split; [done|]. intros i Hh. destruct os as [|j os]; [done|]. injection Hh as ->.
    destruct (tl_chain _ _ _ _ Ht) as (Hi & Hp & Hs & _).
    eapply reclaim_candidate_None; [done|done|lia|done].
Qed.

(** * Rounding *)

Lemma small_round size :
  0 < size ≤ 256 →
  let a := Z.land (add32 size 7) (not32 7) in size ≤ a ≤ size + 7 ∧ a mod 8 = 0.
Proof.
  intros Hs. simpl. rewrite add32_small by (unfold two32; lia).
  change (not32 7) with (not32 (2 ^ 3 - 1)). rewrite land_not_ones by (unfold two32; lia).
  change (2 ^ 3) with 8. pose proof (Z.mod_pos_bound (size + 7) 8 ltac:(lia)).
  split; [lia|]. rewrite Zminus_mod_idemp_r, Z.sub_diag. done.
Qed.

Lemma page_round size :
  0 < size ≤ two32 - 4096 →
  size ≤ align_up_size size PAGE < two32 ∧ align_up_size size PAGE mod 4096 = 0.
Proof.
  intros Hs. unfold align_up_size, PAGE. change (sub32 4096 1) with (2 ^ 12 - 1).
  rewrite add32_small by (unfold two32 in *; lia).
  rewrite land_not_ones by (unfold two32 in *; lia). change (2 ^ 12) with 4096.
  pose proof (Z.mod_pos_bound (size + (4096 - 1)) 4096 ltac:(lia)).
  split; [unfold two32 in *; lia|]. rewrite Zminus_mod_idemp_r, Z.sub_diag. done.
Qed.

Lemma mod_8_of_4096 p : p mod 4096 = 0 → p mod 8 = 0.
Proof.
  intros H. rewrite (Z.div_mod p 4096), H by lia.
  replace (4096 * (p / 4096) + 0) with (0 + 512 * (p / 4096) * 8) by lia.
  by rewrite Z.mod_add.
Qed.

Lemma heap_top_le h : heap_top h ≤ heap_end h.
Proof. unfold heap_top. pose proof (Z.mod_pos_bound (heap_end h) 4096). lia. Qed.

Lemma live_bytes_update recs i r :
  alen recs = KMALLOC_LARGE_TRACK_MAX → 0 ≤ i < KMALLOC_LARGE_TRACK_MAX →
  live_bytes recs.[i <- r] =
  live_bytes recs - (if la_in_use recs.[i] then la_size recs.[i] else 0)
                  + (if la_in_use r then la_size r else 0).
Proof.
  intros Hlen Hi. unfold live_bytes.
  rewrite (zsum_update _ (λ j, if la_in_use recs.[j] then la_size recs.[j] else 0) 0 _ i) by
    (lia || (intros j Hj Hne; by rewrite aget_aset_ne by lia)).
  by rewrite aget_aset_eq by lia.
Qed.

(** What a successful [kmalloc] promises about its block. *)
Record fresh_block (h h' : kheap) (size p : Z) : Prop := {
  fb_nonnull : p ≠ 0;
  fb_aligned : p mod 8 = 0 ∧ (256 < size → p mod 4096 = 0);
  fb_inside : heap_base h ≤ p ∧ p + size ≤ heap_end h;
  fb_above_small : small_ptr h ≤ p;
  fb_disjoint : ∀ q n, live h q n → disjoint_ranges p size q n;
  fb_kept : ∀ q n, live h q n → live h' q n;
  fb_owned : if decide (size ≤ 256) then p + size ≤ small_ptr h' ≤ large_ptr h'
             else small_ptr h' ≤ p ∧ ∃ n, size ≤ n ∧ live h' p n
}.

Lemma live_disjoint_record h os p n i :
  tiling (large_allocs h) (large_ptr h) (heap_top h) os → live h p n →
  i ∈ os → la_in_use (large_allocs h).[i] = false →
  disjoint_ranges (la_ptr (large_allocs h).[i]) (la_size (large_allocs h).[i]) p n.
Proof.
  intros Ht (j & Hj & Hr & Hn) Hi Hu.
  assert (Hjos : j ∈ os) by (eapply tiling_used; [done..|by rewrite Hr]).
  pose proof (chain_disjoint _ _ _ _ i j (tl_chain _ _ _ _ Ht) (tl_nodup _ _ _ _ Ht) Hi Hjos) as Hd.
  rewrite Hr in Hd. apply Hd. intros ->. by rewrite Hr in Hu.
Qed.

Lemma live_above h p n : heap_wf h → live h p n → large_ptr h ≤ p ∧ p + n ≤ heap_top h ∧ 0 < n.
Proof.
  intros Hwf (j & Hj & Hr & Hn). destruct (hw_tiling h Hwf) as (os & Ht & _).
  assert (Hjos : j ∈ os) by (eapply tiling_used; [done..|by rewrite Hr]).
  destruct (chain_bounds _ _ _ _ _ (tl_chain _ _ _ _ Ht) Hjos) as (_ & ? & ? & ? & _).
  by rewrite Hr in *.
Qed.

(** Small blocks: a bump of [small_ptr] that stays below [large_ptr]. *)
Lemma kmalloc_small h size :
  heap_wf h → 0 < size ≤ 256 →
  let a := Z.land (add32 size 7) (not32 7) in
  small_ptr h + a ≤ large_ptr h →
  let h' := set_small h (small_ptr h + a) (add32 (small_bytes_used h) a) (add32 (small_alloc_count h) 1) in
  heap_wf h' ∧ fresh_block h h' size (small_ptr h).
Proof.
  intros Hwf Hs a Hfit h'. destruct (small_round size Hs) as [Ha Ham]. fold a in Ha, Ham.
  pose proof Hwf as [[Hb0 Hb8] Hord Hend Hsm Hlm (os & Ht & Hh) Hu].
  pose proof (heap_top_le h). pose proof (chain_le _ _ _ _ (tl_chain _ _ _ _ Ht)).
  split; split; simpl; try done; try lia.
  - rewrite Z.add_mod, Hsm, Ham by lia. done.
  - by exists os.
  - intros q n Hl. destruct (live_above h q n Hwf Hl) as (? & _). left. lia.
  - rewrite decide_True by lia. lia.
Qed.

(** Large blocks from a free record: best fit, the record's whole size. *)
Lemma kmalloc_reuse h size i :
  heap_wf h → 256 < size → 0 ≤ i < KMALLOC_LARGE_TRACK_MAX →
  fits (large_allocs h) (align_up_size size PAGE) i → size ≤ align_up_size size PAGE →
  let rec := (large_allocs h).[i] in
  let h' := set_large h (large_ptr h) (add32 (large_bytes_used h) (la_size rec))
              (add32 (large_alloc_count h) 1)
              (large_allocs h).[i <- LargeAlloc (la_ptr rec) (la_size rec) true] in
  heap_wf h' ∧ fresh_block h h' size (la_ptr rec).
Proof.
  intros Hwf Hs Hi (Hsz & Hfree & Hfit) Hle rec h'.
  pose proof Hwf as [[Hb0 Hb8] Hord Hend Hsm Hlm (os & Ht & Hh) Hu].
  pose proof (heap_top_le h). pose proof (tl_len _ _ _ _ Ht) as Hlen.
  assert (Hios : i ∈ os) by (by eapply tiling_used).
  destruct (chain_bounds _ _ _ _ _ (tl_chain _ _ _ _ Ht) Hios) as (_ & Hlo & Hhi & Hpos & Hal).
  fold rec in Hlo, Hhi, Hpos, Hal, Hsz, Hfree, Hfit.
  pose proof (tiling_flag _ _ _ _ i true Ht Hios) as Ht'.
  pose proof (live_bytes_update (large_allocs h) i (LargeAlloc (la_ptr rec) (la_size rec) true) Hlen Hi) as Hlb.
  fold rec in Hlb, Ht'. rewrite Hfree in Hlb. simpl in Hlb.
  pose proof (tiling_live_bytes _ _ _ _ Ht'). 
  assert (Hkept : ∀ q n, live h q n → live h' q n).
  { intros q n (j & Hj & Hr & Hn). exists j. split_and!; try done; try lia. simpl.
    rewrite aget_aset_ne; [done|lia|lia|]. intros ->. unfold rec in Hfree. by rewrite Hr in Hfree. }
  split; split; simpl; try done; try lia.
  - exists os. split; [done|]. intros j Hj. rewrite aget_aset; [|lia|].
    + case_decide; [done|by apply Hh].
    + destruct os; [done|]. injection Hj as ->.
      destruct (tl_chain _ _ _ _ Ht) as (? & _). lia.
  - rewrite Hu, add32_small by (rewrite ?Hlb in *; unfold two32 in *; lia). lia.
  - split; [|by auto]. apply mod_8_of_4096. by auto.
  - intros q n Hl. destruct (live_disjoint_record h os q n i Ht Hl Hios Hfree) as [Hd|Hd];
      fold rec in Hd; [left|right]; lia.
  - rewrite decide_False by lia. split; [lia|]. exists (la_size rec). split; [lia|].
    exists i. split_and!; try done; try lia. simpl. by rewrite aget_aset_eq by lia.
Qed.

(** Large blocks from the gap between the two areas. *)
Lemma kmalloc_extend h size i :
  heap_wf h → 256 < size → 0 ≤ i < KMALLOC_LARGE_TRACK_MAX →
  la_size (large_allocs h).[i] = 0 →
  let a := align_up_size size PAGE in
  size ≤ a → a mod 4096 = 0 → a ≤ large_ptr h - small_ptr h →
  let h' := set_large h (large_ptr h - a) (add32 (large_bytes_used h) a)
              (add32 (large_alloc_count h) 1)
              (large_allocs h).[i <- LargeAlloc (large_ptr h - a) a true] in
  heap_wf h' ∧ fresh_block h h' size (large_ptr h - a).
Proof.
  intros Hwf Hs Hi Hz a Hle Hal Hgap h'.
  pose proof Hwf as [[Hb0 Hb8] Hord Hend Hsm Hlm (os & Ht & Hh) Hu].
  pose proof (heap_top_le h). pose proof (tl_len _ _ _ _ Ht) as Hlen.
  pose proof (chain_le _ _ _ _ (tl_chain _ _ _ _ Ht)).
  pose proof (tiling_push _ _ _ _ i a true Ht Hi Hz ltac:(lia) Hal) as Ht'.
  pose proof (live_bytes_update (large_allocs h) i (LargeAlloc (large_ptr h - a) a true) Hlen Hi) as Hlb.
  simpl in Hlb. assert (Hz' : (if la_in_use (large_allocs h).[i] then la_size (large_allocs h).[i] else 0) = 0)
    by (destruct (la_in_use _); lia). rewrite Hz' in Hlb.
  pose proof (tiling_live_bytes _ _ _ _ Ht').
  assert (Hmod : (large_ptr h - a) mod 4096 = 0) by (rewrite Zminus_mod, Hlm, Hal; done).
  assert (Hkept : ∀ q n, live h q n → live h' q n).
  { intros q n (j & Hj & Hr & Hn). exists j. split_and!; try done; try lia. simpl.
    rewrite aget_aset_ne; [done|lia|lia|]. intros ->. by rewrite Hr in Hz. }
  split; split; simpl; try done; try lia.
  - exists (i :: os). split; [done|]. intros j [= <-]. by rewrite aget_aset_eq by lia.
  - rewrite Hu, add32_small by (rewrite ?Hlb in *; unfold two32 in *; lia). lia.
  - split; [by apply mod_8_of_4096|done].
  - intros q n Hl. destruct (live_above h q n Hwf Hl) as (? & _). left. lia.
  - rewrite decide_False by lia. split; [lia|]. exists a. split; [lia|].
    exists i. split_and!; try done; try lia. simpl. by rewrite aget_aset_eq by lia.
Qed.

Lemma kmalloc_cases h size :
  heap_wf h → 0 < size ≤ two32 - 4096 →
  let '(p, h') := kmalloc size h in
  heap_wf h' ∧ ((p = 0 ∧ h' = h) ∨ fresh_block h h' size p).
Proof.
  intros Hwf Hs. pose proof Hwf as [[Hb0 _] Hord Hend _ Hlm (os & Ht & _) _].
  pose proof (heap_top_le h). pose proof (chain_le _ _ _ _ (tl_chain _ _ _ _ Ht)).
  unfold kmalloc. rewrite (proj2 (Z.eqb_neq (heap_base h) 0)), (proj2 (Z.eqb_neq (heap_end h) 0)),
    (proj2 (Z.eqb_neq size 0)) by lia. cbv beta zeta iota delta [orb KMALLOC_SMALL_MAX].
  destruct (Z.leb_spec size 256).
  - destruct (small_round size ltac:(lia)) as [Ha _].
    rewrite (add32_small (small_ptr h)) by (unfold two32 in *; lia).
    destruct (Z.ltb_spec (large_ptr h) (small_ptr h + Z.land (add32 size 7) (not32 7)));
      [split; [done|by left]|].
    destruct (kmalloc_small h size Hwf ltac:(lia) ltac:(lia)) as [Hw Hf]. split; [done|by right].
  - destruct (page_round size Hs) as [Ha Ham].
    pose proof (find_best_spec (large_allocs h) (align_up_size size PAGE)) as Hbest.
    destruct (kmalloc_find_best_free_large_record _ _) as [i|].
    + destruct Hbest as (Hi & Hfit & _).
      destruct (kmalloc_reuse h size i Hwf ltac:(lia) Hi Hfit ltac:(lia)) as [Hw Hf].
      split; [done|by right].
    + rewrite (proj2 (Z.ltb_ge (large_ptr h) (small_ptr h))) by lia. simpl.
      rewrite sub32_small by (unfold two32 in *; lia).
      destruct (Z.ltb_spec (large_ptr h - small_ptr h) (align_up_size size PAGE));
        [split; [done|by left]|].
      destruct (kmalloc_find_unused_large_record _) as [i|] eqn:E; [|split; [done|by left]].
      apply find_unused_Some in E as [Hi Hz].
      rewrite sub32_small by (unfold two32 in *; lia).
      destruct (kmalloc_extend h size i Hwf ltac:(lia) Hi Hz ltac:(lia) Ham ltac:(lia)) as [Hw Hf].
      split; [done|by right].
Qed.

Lemma live_unique h p n m : heap_wf h → live h p n → live h p m → n = m.
Proof.
  intros Hwf (i & Hi & Hri & Hn) (j & Hj & Hrj & Hm).
  destruct (hw_tiling h Hwf) as (os & Ht & _).
  assert (Hios : i ∈ os) by (eapply tiling_used; [done..|by rewrite Hri]).
  assert (Hjos : j ∈ os) by (eapply tiling_used; [done..|by rewrite Hrj]).
  destruct (decide (i = j)) as [->|Hne]; [congruence|].
  pose proof (chain_disjoint _ _ _ _ i j (tl_chain _ _ _ _ Ht) (tl_nodup _ _ _ _ Ht) Hios Hjos Hne) as Hd.
  destruct (chain_bounds _ _ _ _ _ (tl_chain _ _ _ _ Ht) Hios) as (_ & _ & _ & ? & _).
  destruct (chain_bounds _ _ _ _ _ (tl_chain _ _ _ _ Ht) Hjos) as (_ & _ & _ & ? & _).
  rewrite Hri, Hrj in *. simpl in *. destruct Hd; lia.
Qed.

#[local] Arguments kmalloc_try_reclaim_large_top : simpl never.

Lemma reclaim_fuel_enough n : (n ≤ 64)%nat → (n < reclaim_fuel)%nat.
Proof. unfold reclaim_fuel. lia. Qed.

#[local] Opaque reclaim_fuel.

(** The effect of a free that finds its record. *)
Lemma kfree_found h p i :
  heap_wf h → p mod 4096 = 0 →
  kmalloc_find_large_record (large_allocs h) p true = Some i →
  let n := la_size (large_allocs h).[i] in
  heap_wf (kfree p h) ∧ live h p n ∧ large_bytes_used (kfree p h) = large_bytes_used h - n ∧
  (∀ q m, live (kfree p h) q m ↔ live h q m ∧ q ≠ p).
Proof.
  intros Hwf Hal E n. pose proof E as (Hi & Hs & Hp & Hu)%find_large_Some.
  pose proof Hwf as [[Hb0 Hb8] Hord Hend Hsm Hlm (os & Ht & Hh) Hused].
  assert (Hl : live h p n).
  { exists i. split; [exact Hi|]. split; [|exact Hs]. unfold n.
    by rewrite <- Hp, <- Hu; destruct ((large_allocs h).[i]). }
  destruct (live_above h p n Hwf Hl) as (? & ? & Hn). pose proof (heap_top_le h).
  pose proof (tl_len _ _ _ _ Ht) as Hlen.
  assert (Hios : i ∈ os) by (by eapply tiling_used).
  unfold kfree. rewrite (proj2 (Z.eqb_neq p 0)) by lia.
  change (PAGE - 1) with (Z.ones 12). rewrite Z.land_ones by lia.
  change (2 ^ 12) with 4096. rewrite Hal, E. simpl. fold n.
  set (recs1 := aset _ i _). pose proof (tiling_flag _ _ _ _ i false Ht Hios) as Ht1. fold n in Ht1. fold recs1 in Ht1.
  pose proof (live_bytes_update (large_allocs h) i (LargeAlloc (la_ptr (large_allocs h).[i]) n false) Hlen Hi)
    as Hlb. fold recs1 in Hlb. rewrite Hu in Hlb. simpl in Hlb.
  pose proof (tiling_live_bytes _ _ _ _ Ht1). pose proof (tiling_live_bytes _ _ _ _ Ht).
  pose proof (reclaim_spec reclaim_fuel recs1 _ _ _ Ht1 ltac:(lia) ltac:(unfold two32 in *; lia)
    (reclaim_fuel_enough _ (tiling_length _ _ _ _ Ht))) as Hr.
  destruct (kmalloc_try_reclaim_large_top reclaim_fuel recs1 (large_ptr h)) as [recs' lp'].
  destruct Hr as (_ & Hlp & Hm & (os' & Ht' & Hh') & Hlb' & Hk).
  rewrite (proj2 (Z.leb_le n (large_bytes_used h))) by lia.
  rewrite sub32_small by (unfold two32 in *; lia).
  assert (Hoth : ∀ j, 0 ≤ j < KMALLOC_LARGE_TRACK_MAX → j ≠ i → recs1.[j] = (large_allocs h).[j]).
  { intros j Hj Hne. unfold recs1. apply aget_aset_ne; [lia|lia|congruence]. }
  split_and!; [|done|simpl; lia|].
  - split; simpl; try done; try lia; by exists os'.
  - intros q m. split.
    + intros (j & Hj & Hrj & Hm0). simpl in Hrj.
      destruct (Hk j Hj) as [Hkj|[_ Hkj]]; [|congruence]. rewrite Hkj in Hrj.
      assert (Hne : j ≠ i).
      { intros ->. unfold recs1 in Hrj. rewrite aget_aset_eq in Hrj by lia. done. }
      rewrite Hoth in Hrj by done. split; [by exists j|]. intros ->.
      assert (Hjos : j ∈ os) by (apply (tiling_used _ _ _ _ _ Ht); [done|by rewrite Hrj]).
      pose proof (chain_disjoint _ _ _ _ i j (tl_chain _ _ _ _ Ht) (tl_nodup _ _ _ _ Ht) Hios Hjos
        (not_eq_sym Hne)) as Hd. rewrite Hrj in Hd.
      destruct (chain_bounds _ _ _ _ _ (tl_chain _ _ _ _ Ht) Hjos) as (_ & _ & _ & ? & _).
      rewrite Hrj in *. unfold disjoint_ranges in Hd. simpl in *. fold n in Hd. lia.
    + intros [(j & Hj & Hrj & Hm0) Hq]. assert (Hne : j ≠ i) by (intros ->; rewrite Hrj in Hp; done).
      exists j. split_and!; try done; try lia. simpl.
      destruct (Hk j Hj) as [Hkj|[Hkj _]]; rewrite Hoth in Hkj by done; [congruence|].
      by rewrite Hrj in Hkj.
Qed.

Lemma kfree_cases h p :
  heap_wf h →
  heap_wf (kfree p h) ∧ heap_base (kfree p h) = heap_base h ∧ heap_end (kfree p h) = heap_end h ∧
  (∀ q m, live (kfree p h) q m ↔ live h q m ∧ q ≠ p) ∧
  (∀ n, live h p n → large_bytes_used (kfree p h) = large_bytes_used h - n) ∧
  ((∀ n, ¬ live h p n) → kfree p h = h).
Proof.
  intros Hwf.
  assert (Hfix : heap_base (kfree p h) = heap_base h ∧ heap_end (kfree p h) = heap_end h).
  { unfold kfree. repeat case_match; done. }
  destruct Hfix as [Hfb Hfe]. rewrite Hfb, Hfe.
  assert (Hlive : ∀ n, live h p n → p ≠ 0 ∧ p mod 4096 = 0).
  { intros n Hl. destruct (live_above h p n Hwf Hl) as (? & _).
    destruct (hw_base h Hwf), (hw_order h Hwf). split; [lia|].
    destruct Hl as (i & Hi & Hr & Hn). destruct (hw_tiling h Hwf) as (os & Ht & _).
    assert (Hios : i ∈ os) by (apply (tiling_used _ _ _ _ _ Ht); [done|by rewrite Hr]).
    destruct (chain_bounds _ _ _ _ _ (tl_chain _ _ _ _ Ht) Hios) as (_ & _ & _ & _ & Hal).
    rewrite Hr in Hal. apply Hal, (hw_large h Hwf). }
  assert (Hnone : kfree p h = h → (∀ n, ¬ live h p n) →
    heap_wf (kfree p h) ∧ heap_base h = heap_base h ∧ heap_end h = heap_end h ∧
    (∀ q m, live (kfree p h) q m ↔ live h q m ∧ q ≠ p) ∧
    (∀ n, live h p n → large_bytes_used (kfree p h) = large_bytes_used h - n) ∧
    ((∀ n, ¬ live h p n) → kfree p h = h)).
  { intros Heq Hno. rewrite Heq. split_and!; try done.
    - intros q m. split; [|by intros [? _]]. intros Hl. split; [done|]. intros ->. by apply (Hno m).
    - intros n Hl. by apply Hno in Hl. }
  destruct (decide (p = 0)) as [Hp0|Hp0].
  { apply Hnone; [unfold kfree; by rewrite (proj2 (Z.eqb_eq p 0))|].
    intros n Hl. by apply Hlive in Hl as [? _]. }
  destruct (decide (p mod 4096 = 0)) as [Hal|Hal].
  - destruct (kmalloc_find_large_record (large_allocs h) p true) as [i|] eqn:E.
    + destruct (kfree_found h p i Hwf Hal E) as (Hw & Hl & Hu & Hiff). split_and!; try done.
      * intros n Hl'. by rewrite (live_unique h p n _ Hwf Hl' Hl).
      * intros Hno. by apply Hno in Hl.
    + apply Hnone.
      * unfold kfree. rewrite (proj2 (Z.eqb_neq p 0)) by done.
        change (PAGE - 1) with (Z.ones 12). rewrite Z.land_ones by lia.
        change (2 ^ 12) with 4096. by rewrite Hal, E.
      * intros n (i & Hi & Hr & Hn). apply Hn.
        pose proof (find_large_None _ _ _ i E Hi) as Hz. rewrite Hr in Hz. by apply Hz.
  - apply Hnone; [|intros n Hl; by apply Hlive in Hl as [_ ?]].
    unfold kfree. rewrite (proj2 (Z.eqb_neq p 0)) by done.
    change (PAGE - 1) with (Z.ones 12). rewrite Z.land_ones by lia.
    change (2 ^ 12) with 4096. by rewrite (proj2 (Z.eqb_neq _ 0)).
Qed.

Lemma kmalloc_init_wf start size :
  0 < start → start mod 4096 = 0 → 0 ≤ size → start + size ≤ two32 - 4096 →
  heap_wf (kmalloc_init start size).
Proof.
  intros Hs Hal Hsz Hend. unfold kmalloc_init.
  rewrite add32_small by (unfold two32 in *; lia).
  assert (Htop : align_down_uintptr (start + size) PAGE = start + size - (start + size) mod 4096).
  { unfold align_down_uintptr, PAGE. change (sub32 4096 1) with (2 ^ 12 - 1).
    rewrite land_not_ones by (unfold two32 in *; lia). done. }
  rewrite Htop. pose proof (Z.div_mod (start + size) 4096 ltac:(lia)).
  assert (start ≤ start + size - (start + size) mod 4096).
  { pose proof (Z.div_mod start 4096 ltac:(lia)).
    pose proof (Z.div_le_mono start (start + size) 4096 ltac:(lia) ltac:(lia)). lia. }
  split; simpl; try done; try lia.
  - split; [done|]. by apply mod_8_of_4096.
  - by apply mod_8_of_4096.
  - rewrite Zminus_mod_idemp_r, Z.sub_diag. done.
  - exists []. split; [|done]. split; [done|done|constructor|].
    intros i Hi _. by apply (aget_replicate 64 (LargeAlloc 0 0 false)).
Qed.

(** * Runs of the heap *)

Inductive heap_op :=
  | HAlloc (size : Z)
  | HFree (p : Z).

Definition heap_run1 (h : kheap) (o : heap_op) : kheap :=
  match o with
  | HAlloc size => snd (kmalloc size h)
  | HFree p => kfree p h
  end.

Definition heap_run (h : kheap) (ops : list heap_op) : kheap := foldl heap_run1 h ops.

(** Requests the rounding to a page can represent. *)
Definition op_sane (o : heap_op) : Prop :=
  match o with HAlloc size => 0 ≤ size ≤ two32 - 4096 | HFree _ => True end.

Lemma kmalloc_zero h : kmalloc 0 h = (0, h).
Proof. unfold kmalloc. by rewrite orb_true_r. Qed.

Lemma heap_run1_wf h o : heap_wf h → op_sane o → heap_wf (heap_run1 h o).
Proof.
  intros Hwf Ho. destruct o as [size|p]; simpl in *.
  - destruct (decide (size = 0)) as [->|]; [by rewrite kmalloc_zero|].
    pose proof (kmalloc_cases h size Hwf ltac:(lia)) as Hc. by destruct (kmalloc size h), Hc.
  - by apply kfree_cases.
Qed.

Lemma heap_run_wf h ops : heap_wf h → Forall op_sane ops → heap_wf (heap_run h ops).
Proof.
  revert h. induction ops as [|o ops IH]; intros h Hwf Hops; simpl; [done|].
  apply Forall_cons in Hops as [Ho Hops]. apply IH; [by apply heap_run1_wf|done].
Qed.

Lemma heap_no_live_coalesced h : heap_wf h → (∀ p n, ¬ live h p n) → large_ptr h = heap_top h.
Proof.
  intros Hwf Hno. destruct (hw_tiling h Hwf) as (os & Ht & Hh).
  destruct os as [|i os]; [apply (tl_chain _ _ _ _ Ht)|]. exfalso.
  pose proof (tl_chain _ _ _ _ Ht) as (Hi & Hp & Hs & _).
  apply (Hno (la_ptr (large_allocs h).[i]) (la_size (large_allocs h).[i])).
  exists i. split; [done|]. split; [|lia]. specialize (Hh i eq_refl).
  rewrite <- Hh. by destruct ((large_allocs h).[i]).
Qed.

Lemma live_disjoint h p n q m : heap_wf h → live h p n → live h q m → p ≠ q → disjoint_ranges p n q m.
Proof.
  intros Hwf (i & Hi & Hri & Hn) (j & Hj & Hrj & Hm) Hne.
  destruct (hw_tiling h Hwf) as (os & Ht & _).
  assert (Hios : i ∈ os) by (apply (tiling_used _ _ _ _ _ Ht); [done|by rewrite Hri]).
  assert (Hjos : j ∈ os) by (apply (tiling_used _ _ _ _ _ Ht); [done|by rewrite Hrj]).
  assert (Hij : i ≠ j) by (intros ->; congruence).
  pose proof (chain_disjoint _ _ _ _ i j (tl_chain _ _ _ _ Ht) (tl_nodup _ _ _ _ Ht) Hios Hjos Hij) as Hd.
  by rewrite Hri, Hrj in Hd.
Qed.

(** * The ledger of a run

    What the callers know: each call with the pointer it returned, and from these
    the blocks that were handed out and not freed, with the sizes asked for. *)

Definition heap_reply (h : kheap) (o : heap_op) : Z := match o with HAlloc size => fst (kmalloc size h) | HFree _ => 0 end.

Fixpoint heap_trace (h : kheap) (ops : list heap_op) : list (heap_op * Z) :=
  match ops with
  | [] => []
  | o :: ops => (o, heap_reply h o) :: heap_trace (heap_run1 h o) ops
  end.

Definition large_block (b : Z * Z) : Prop := 256 < b.2.

#[export] Instance large_block_dec b : Decision (large_block b).
Proof. unfold large_block. apply _. Defined.

(** Small blocks are never given back. *)
Definition ledger1 (L : list (Z * Z)) (e : heap_op * Z) : list (Z * Z) :=
  match e with
  | (HAlloc size, p) => if p =? 0 then L else (p, size) :: L
  | (HFree q, _) => filter (λ b, ¬ (b.1 = q ∧ large_block b)) L
  end.

Definition ledger (tr : list (heap_op * Z)) : list (Z * Z) := foldl ledger1 [] tr.

Definition large_grant (e : heap_op * Z) : Z :=
  match e with (HAlloc size, p) => if negb (p =? 0) && (256 <? size) then 1 else 0 | _ => 0 end.

Definition large_grants (tr : list (heap_op * Z)) : Z := foldr (λ e n, large_grant e + n) 0 tr.

Fixpoint apart (L : list (Z * Z)) : Prop :=
  match L with
  | [] => True
  | b :: L => Forall (λ c, disjoint_ranges b.1 b.2 c.1 c.2) L ∧ apart L
  end.

Definition round_up8 (n : Z) : Z := (n + 7) / 8 * 8.

Definition small_bytes (L : list (Z * Z)) : Z :=
  foldr (λ b t, (if decide (large_block b) then 0 else round_up8 b.2) + t) 0 L.

Definition small_blocks (L : list (Z * Z)) : Z :=
  foldr (λ b t, (if decide (large_block b) then 0 else 1) + t) 0 L.

Record ledger_ok (start : Z) (h : kheap) (L : list (Z * Z)) (g : Z) : Prop := LedgerOk {
  lg_wf : heap_wf h;
  lg_small : ∀ p n, (p, n) ∈ L → ¬ large_block (p, n) → 0 < n ∧ p mod 8 = 0 ∧ start ≤ p ∧ p + n ≤ small_ptr h;
  lg_large : ∀ p n, (p, n) ∈ L → large_block (p, n) → p mod 4096 = 0 ∧ ∃ m, n ≤ m ∧ live h p m;
  lg_live : ∀ p m, live h p m → ∃ n, (p, n) ∈ L ∧ large_block (p, n);
  lg_apart : apart L;
  lg_cursor : small_ptr h = start + small_bytes L;
  lg_small_bytes : small_bytes_used h = small_bytes L;
  lg_small_count : small_alloc_count h = small_blocks L ∧ 0 ≤ 8 * small_blocks L ≤ small_bytes L;
  lg_large_count : large_alloc_count h = u32 g;
  lg_start : 0 < start
}.

Lemma small_round8 size : 0 < size ≤ 256 → Z.land (add32 size 7) (not32 7) = round_up8 size.
Proof.
  intros Hs. rewrite add32_small by (unfold two32; lia).
  change (not32 7) with (not32 (2 ^ 3 - 1)). rewrite land_not_ones by (unfold two32; lia).
  change (2 ^ 3) with 8. unfold round_up8. pose proof (Z.div_mod (size + 7) 8). lia.
Qed.

Lemma aset_live h p n q m i b :
  0 ≤ i < KMALLOC_LARGE_TRACK_MAX → alen (large_allocs h) = KMALLOC_LARGE_TRACK_MAX →
  (∃ j, 0 ≤ j < KMALLOC_LARGE_TRACK_MAX ∧ (large_allocs h).[i <- LargeAlloc p n b].[j] = LargeAlloc q m true ∧ m ≠ 0) →
  live h q m ∨ q = p.
Proof.
  intros Hi Hl (j & Hj & Hr & Hm). rewrite aget_aset in Hr by lia. case_decide; [right; congruence|]. left. by exists j.
Qed.

(** What a granted request changes beside the block it returns. *)
Lemma kmalloc_changes h size :
  heap_wf h → 0 < size ≤ two32 - 4096 → fst (kmalloc size h) ≠ 0 →
  let h' := snd (kmalloc size h) in
  if decide (256 < size) then
    small_ptr h' = small_ptr h ∧ small_bytes_used h' = small_bytes_used h ∧ small_alloc_count h' = small_alloc_count h ∧
    large_alloc_count h' = add32 (large_alloc_count h) 1 ∧ ∀ q m, live h' q m → live h q m ∨ q = fst (kmalloc size h)
  else
    fst (kmalloc size h) = small_ptr h ∧ small_ptr h' = small_ptr h + round_up8 size ∧
    small_bytes_used h' = add32 (small_bytes_used h) (round_up8 size) ∧ small_alloc_count h' = add32 (small_alloc_count h) 1 ∧
    large_alloc_count h' = large_alloc_count h ∧ large_allocs h' = large_allocs h.
Proof.
  intros Hwf Hs. pose proof Hwf as [[Hb0 _] Hord Hend _ Hlm (os & Ht & _) _]. pose proof (tl_len _ _ _ _ Ht) as Hlen.
  pose proof (heap_top_le h). pose proof (chain_le _ _ _ _ (tl_chain _ _ _ _ Ht)).
  unfold kmalloc. rewrite (proj2 (Z.eqb_neq (heap_base h) 0)), (proj2 (Z.eqb_neq (heap_end h) 0)),
    (proj2 (Z.eqb_neq size 0)) by lia. cbv beta zeta iota delta [orb KMALLOC_SMALL_MAX].
  destruct (Z.leb_spec size 256).
  - rewrite decide_False by lia. rewrite small_round8 by lia. destruct (_ <? _); [done|]. intros _. split_and!; try done.
    cbn. apply add32_small. pose proof (small_round size ltac:(lia)) as [Hr _]. rewrite small_round8 in Hr by lia. unfold two32 in *. lia.
  - rewrite decide_True by lia. pose proof (find_best_spec (large_allocs h) (align_up_size size PAGE)) as Hbest.
    destruct (kmalloc_find_best_free_large_record _ _) as [i|].
    + destruct Hbest as (Hi & _). intros _. split_and!; try done. intros q m. by apply aset_live.
    + destruct (large_ptr h <? small_ptr h); cbv iota; [done|]. destruct (_ <? _); [done|]. destruct (kmalloc_find_unused_large_record _) as [i|] eqn:E; [|done].
      apply find_unused_Some in E as [Hi _]. intros _. split_and!; try done. intros q m. by apply aset_live.
Qed.

Lemma kfree_changes h p :
  small_ptr (kfree p h) = small_ptr h ∧ small_bytes_used (kfree p h) = small_bytes_used h ∧
  small_alloc_count (kfree p h) = small_alloc_count h ∧ large_alloc_count (kfree p h) = large_alloc_count h.
Proof. unfold kfree. by repeat case_match. Qed.

Lemma apart_filter (P : Z * Z → Prop) `{∀ b, Decision (P b)} L : apart L → apart (filter P L).
Proof.
  induction L as [|b L IH]; [done|]. intros [Hb HL]. rewrite filter_cons. destruct (decide (P b)); [|by apply IH].
  split; [|by apply IH]. rewrite Forall_forall in *. intros c [_ Hc]%list_elem_of_filter. by apply Hb.
Qed.

Lemma filter_small_bytes q L :
  small_bytes (filter (λ b, ¬ (b.1 = q ∧ large_block b)) L) = small_bytes L ∧
  small_blocks (filter (λ b, ¬ (b.1 = q ∧ large_block b)) L) = small_blocks L.
Proof.
  unfold small_bytes, small_blocks. induction L as [|b L [IH1 IH2]]; [done|]. rewrite filter_cons. cbn [foldr].
  destruct (decide (¬ _)) as [Hn|Hn]; cbn [foldr]; [lia|]. apply dec_stable in Hn as [_ Hn]. rewrite !decide_True by done. lia.
Qed.

Lemma ledger_init start size :
  0 < start → start mod 4096 = 0 → 0 ≤ size → start + size ≤ two32 - 4096 →
  ledger_ok start (kmalloc_init start size) [] 0.
Proof.
  intros Hs Hal Hsz Hend. split; try done; [by apply kmalloc_init_wf|set_solver|set_solver| |unfold kmalloc_init; simpl; lia].
  intros p m (i & Hi & Hr & Hm). exfalso. unfold kmalloc_init in Hr. cbn [large_allocs] in Hr.
  rewrite (aget_replicate 64 (LargeAlloc 0 0 false)) in Hr by done. done.
Qed.

Lemma ledger_small start h L g size :
  ledger_ok start h L g → 0 < size ≤ 256 → fst (kmalloc size h) ≠ 0 →
  ledger_ok start (snd (kmalloc size h)) ((fst (kmalloc size h), size) :: L) g.
Proof.
  intros [Hwf Hsm Hlg Hlv Hap Hcur Hsb [Hsc Hsc8] Hlc Hst] Hs Hp. unfold two32.
  pose proof (kmalloc_changes h size Hwf ltac:(unfold two32; lia) Hp) as Hch. pose proof (kmalloc_cases h size Hwf ltac:(unfold two32; lia)) as Hc.
  destruct (kmalloc size h) as [p h']. cbn [fst snd] in *. rewrite decide_False in Hch by lia.
  destruct Hch as (-> & Hcur' & Hsb' & Hsc' & Hlc' & Hrecs). destruct Hc as [Hwf' [[? _]|Hf]]; [done|].
  assert (Hlive : ∀ q m, live h' q m ↔ live h q m) by (intros q m; unfold live; by rewrite Hrecs).
  destruct (small_round size Hs) as [Hr Hr8]. rewrite small_round8 in Hr, Hr8 by done.
  assert (Hl : ¬ large_block (small_ptr h, size)) by (unfold large_block; simpl; lia).
  pose proof (hw_order h Hwf). pose proof (hw_order h' Hwf'). pose proof (hw_end h' Hwf'). destruct (hw_base h Hwf).
  assert (Htop : large_ptr h' < two32).
  { destruct (hw_tiling h' Hwf') as (os & Ht & _). pose proof (chain_le _ _ _ _ (tl_chain _ _ _ _ Ht)). pose proof (heap_top_le h'). unfold two32 in *. lia. }
  split; try done; unfold small_bytes, small_blocks in *; cbn [foldr snd]; rewrite ?decide_False by done; try lia.
  - intros q n [[= -> ->]|Hin]%elem_of_cons Hsl; [split_and!; try lia; by apply (hw_small h)|]. destruct (Hsm q n Hin Hsl). split_and!; lia.
  - intros q n [[= -> ->]|Hin]%elem_of_cons Hsl; [done|]. destruct (Hlg q n Hin Hsl) as (? & m & ? & ?). split; [done|]. exists m. by rewrite Hlive.
  - intros q m (n & Hin & Hln)%Hlive%Hlv. exists n. split; [by right|done].
  - cbn [apart]. split; [|done]. apply Forall_forall. intros [q n] Hin. cbn [fst snd].
    destruct (decide (large_block (q, n))) as [Hq|Hq].
    + destruct (Hlg q n Hin Hq) as (_ & m & Hm & Hv). destruct (fb_disjoint _ _ _ _ Hf q m Hv); [left|right]; lia.
    + destruct (Hsm q n Hin Hq) as (? & ? & ? & ?). right. lia.
  - rewrite Hsb', Hsb. cbn [snd]. rewrite add32_small; [lia|]. unfold two32 in *. lia.
  - rewrite Hsc', Hsc. pose proof (hw_small h Hwf). unfold round_up8 in *. split; [rewrite add32_small; [lia|unfold two32 in *; lia]|cbn [snd]; unfold round_up8; lia].
Qed.

Lemma ledger_large start h L g size :
  ledger_ok start h L g → 256 < size ≤ two32 - 4096 → fst (kmalloc size h) ≠ 0 →
  ledger_ok start (snd (kmalloc size h)) ((fst (kmalloc size h), size) :: L) (g + 1).
Proof.
  intros [Hwf Hsm Hlg Hlv Hap Hcur Hsb Hsc Hlc Hst] Hs Hp.
  pose proof (kmalloc_changes h size Hwf ltac:(lia) Hp) as Hch. pose proof (kmalloc_cases h size Hwf ltac:(lia)) as Hc.
  destruct (kmalloc size h) as [p h']. cbn [fst snd] in *. rewrite decide_True in Hch by lia.
  destruct Hch as (Hcur' & Hsb' & Hsc' & Hlc' & Hlive). destruct Hc as [Hwf' [[? _]|Hf]]; [done|].
  assert (Hl : large_block (p, size)) by (unfold large_block; simpl; lia).
  split; try done; unfold small_bytes, small_blocks in *; cbn [foldr]; rewrite ?decide_True by done; rewrite ?Hcur', ?Hsb', ?Hsc'; try lia.
  - intros q n [[= -> ->]|Hin]%elem_of_cons Hsl; [done|]. by apply Hsm.
  - intros q n [[= -> ->]|Hin]%elem_of_cons Hsl.
    + split; [apply (fb_aligned _ _ _ _ Hf); lia|]. pose proof (fb_owned _ _ _ _ Hf) as Ho. rewrite decide_False in Ho by lia.
      destruct Ho as (_ & m & ? & ?). by exists m.
    + destruct (Hlg q n Hin Hsl) as (? & m & ? & Hv). split; [done|]. exists m. split; [done|]. by apply (fb_kept _ _ _ _ Hf).
  - intros q m [(n & Hin & Hln)%Hlv| ->]%Hlive; [exists n; split; [by right|done]|]. exists size. split; [by left|done].
  - cbn [apart]. split; [|done]. apply Forall_forall. intros [q n] Hin. cbn [fst snd].
    destruct (decide (large_block (q, n))) as [Hq|Hq].
    + destruct (Hlg q n Hin Hq) as (_ & m & Hm & Hv). destruct (fb_disjoint _ _ _ _ Hf q m Hv); [left|right]; lia.
    + destruct (Hsm q n Hin Hq) as (? & ? & ? & ?). pose proof (fb_above_small _ _ _ _ Hf). right. lia.
  - rewrite Hlc', Hlc. unfold add32, u32. by rewrite Zplus_mod_idemp_l.
Qed.

Lemma ledger_free start h L g q :
  ledger_ok start h L g → ledger_ok start (kfree q h) (filter (λ b, ¬ (b.1 = q ∧ large_block b)) L) g.
Proof.
  intros [Hwf Hsm Hlg Hlv Hap Hcur Hsb Hsc Hlc Hst]. destruct (kfree_cases h q Hwf) as (Hwf' & _ & _ & Hlive & _).
  destruct (kfree_changes h q) as (E1 & E2 & E3 & E4). destruct (filter_small_bytes q L) as [F1 F2].
  split; rewrite ?E1, ?E2, ?E3, ?E4, ?F1, ?F2; try done.
  - intros p n [_ Hin]%list_elem_of_filter. by apply Hsm.
  - intros p n [Hne Hin]%list_elem_of_filter Hl. destruct (Hlg p n Hin Hl) as (? & m & ? & Hv). split; [done|]. exists m. split; [done|].
    apply Hlive. split; [done|]. intros ->. by apply Hne.
  - intros p m [Hv Hne]%Hlive. destruct (Hlv p m Hv) as (n & Hin & Hl). exists n. split; [|done]. apply list_elem_of_filter. by split; [intros [? _]|].
  - by apply apart_filter.
Qed.

Lemma ledger_step start h L g o :
  ledger_ok start h L g → op_sane o →
  ledger_ok start (heap_run1 h o) (ledger1 L (o, heap_reply h o)) (g + large_grant (o, heap_reply h o)).
Proof.
  intros Hok Ho. destruct o as [size|q]; cbn [heap_run1 heap_reply ledger1 large_grant op_sane] in *; [|rewrite Z.add_0_r; by apply ledger_free].
  destruct (Z.eqb_spec (fst (kmalloc size h)) 0) as [E|E]; cbn [negb andb].
  - assert (snd (kmalloc size h) = h) as ->; [|by rewrite Z.add_0_r].
    destruct (decide (size = 0)) as [->|]; [by rewrite kmalloc_zero|].
    pose proof (kmalloc_cases h size (lg_wf _ _ _ _ Hok) ltac:(lia)) as Hc. destruct (kmalloc size h) as [p h'].
    destruct Hc as [_ [[_ ?]|Hf]]; [done|]. by destruct (fb_nonnull _ _ _ _ Hf).
  - assert (size ≠ 0) by (intros ->; by rewrite kmalloc_zero in E).
    destruct (Z.ltb_spec 256 size); [apply ledger_large; (done || lia)|]. rewrite Z.add_0_r. apply ledger_small; (done || lia).
Qed.

Lemma ledger_run start h L g ops :
  ledger_ok start h L g → Forall op_sane ops →
  ledger_ok start (heap_run h ops) (foldl ledger1 L (heap_trace h ops)) (g + large_grants (heap_trace h ops)).
Proof.
  revert h L g. induction ops as [|o ops IH]; intros h L g Hok Hops; [cbn; by rewrite Z.add_0_r|].
  apply Forall_cons in Hops as [Ho Hops]. unfold large_grants. cbn [heap_trace foldl foldr]. rewrite Z.add_assoc.
  apply IH; [|done]. by apply ledger_step.
Qed.

Lemma heap_run_end ops h : heap_end (heap_run h ops) = heap_end h.
Proof.
  revert h. induction ops as [|o ops IH]; intros h; [done|]. change (heap_run h (o :: ops)) with (heap_run (heap_run1 h o) ops). rewrite IH.
  destruct o; cbn [heap_run1]; [unfold kmalloc|unfold kfree]; by repeat case_match.
Qed.

(** * Properties *)

(** C25: [kmalloc] either refuses (null, the heap untouched) or returns a block
    that is non-null, 8-byte aligned (page-aligned for large requests), inside
    the heap, of at least the size asked for and disjoint from every large
    block in use and from the small blocks already handed out; the blocks in
    use stay in use and the heap invariant is kept. *)
Theorem kmalloc_spec h size :
  heap_wf h → 0 < size ≤ two32 - 4096 →
  let '(p, h') := kmalloc size h in
  heap_wf h' ∧ ((p = 0 ∧ h' = h) ∨ fresh_block h h' size p).
Proof. exact (kmalloc_cases h size). Qed.

Definition demo_heap : kheap := kmalloc_init 1048576 65536.

Lemma demo_heap_wf : heap_wf demo_heap.
Proof. apply kmalloc_init_wf; unfold two32; try lia; done. Qed.

Lemma kmalloc_spec_witness :
  fst (kmalloc 5000 demo_heap) = 1105920 ∧
  let '(p, h') := kmalloc 5000 demo_heap in
  heap_wf h' ∧ ((p = 0 ∧ h' = demo_heap) ∨ fresh_block demo_heap h' 5000 p).
Proof.
  split; [vm_compute; reflexivity|].
  apply (kmalloc_spec demo_heap 5000); [exact demo_heap_wf|unfold two32; lia].
Defined.

(** [kfree] of a large block in use releases exactly that block: every
    other block stays in use and the byte count drops by its size.  On any
    other pointer (null, unaligned, a small block, a block already freed) it
    changes nothing, so a double free is harmless. *)
Theorem kfree_spec h p :
  heap_wf h →
  heap_wf (kfree p h) ∧ heap_base (kfree p h) = heap_base h ∧ heap_end (kfree p h) = heap_end h ∧
  (∀ q m, live (kfree p h) q m ↔ live h q m ∧ q ≠ p) ∧
  (∀ n, live h p n → large_bytes_used (kfree p h) = large_bytes_used h - n) ∧
  ((∀ n, ¬ live h p n) → kfree p h = h).
Proof. exact (kfree_cases h p). Qed.

Lemma kfree_spec_witness :
  let h := snd (kmalloc 5000 demo_heap) in
  large_bytes_used h = 8192 ∧ large_bytes_used (kfree 1105920 h) = 0 ∧
  (∀ q m, live (kfree 1105920 h) q m ↔ live h q m ∧ q ≠ 1105920).
Proof.
  cbv zeta. split; [vm_compute; reflexivity|]. split; [vm_compute; reflexivity|].
  apply (kfree_spec (snd (kmalloc 5000 demo_heap)) 1105920).
  apply (heap_run1_wf demo_heap (HAlloc 5000)); [exact demo_heap_wf|simpl; unfold two32; lia].
Defined.

(** C26: After any sequence of allocations and frees, the blocks handed out and not
    freed, small and large, lie inside the heap at aligned addresses and are
    pairwise disjoint.  Every counter is exact: the small cursor and the small byte
    count are the total of all small blocks in units of eight, the small allocation
    count is their number, the large byte count is the total of the large blocks
    in use, and the large allocation count is the number of large requests granted
    (modulo 2^32).  Once every large block is freed the large cursor is back at the
    top of the heap: no sequence fragments the large region for good. *)
Theorem heap_run_spec start size ops :
  0 < start → start mod 4096 = 0 → 0 ≤ size → start + size ≤ two32 - 4096 →
  Forall op_sane ops →
  let h0 := kmalloc_init start size in
  let h := heap_run h0 ops in
  let L := ledger (heap_trace h0 ops) in
  Forall (λ b, 0 < b.2 ∧ start ≤ b.1 ∧ b.1 + b.2 ≤ start + size ∧ b.1 mod (if decide (large_block b) then 4096 else 8) = 0) L ∧
  apart L ∧
  small_ptr h = start + small_bytes L ∧ small_bytes_used h = small_bytes L ∧ small_alloc_count h = small_blocks L ∧
  large_bytes_used h = live_bytes (large_allocs h) ∧
  (∀ p, (∃ m, live h p m) ↔ ∃ n, (p, n) ∈ L ∧ large_block (p, n)) ∧
  large_alloc_count h = u32 (large_grants (heap_trace h0 ops)) ∧
  (Forall (λ b, ¬ large_block b) L → large_ptr h = heap_top h ∧ large_bytes_used h = 0).
Proof.
  intros Hs Hal Hsz Hend Hops h0 h L.
  destruct (ledger_run start h0 [] 0 ops (ledger_init _ _ Hs Hal Hsz Hend) Hops) as [Hwf Hsm Hlg Hlv Hap Hcur Hsb [Hsc Hsc8] Hlc _].
  fold h in Hwf, Hsm, Hlg, Hlv, Hcur, Hsb, Hsc, Hlc. fold (ledger (heap_trace h0 ops)) in Hsm, Hlg, Hlv, Hap, Hcur, Hsb, Hsc, Hsc8. fold L in Hsm, Hlg, Hlv, Hap, Hcur, Hsb, Hsc, Hsc8.
  assert (Hends : heap_end h = start + size) by (unfold h; rewrite heap_run_end; apply add32_small; unfold two32 in *; lia).
  pose proof (hw_order h Hwf). pose proof (heap_top_le h) as Htop. rewrite Hends in Htop.
  assert (Hlp : large_ptr h ≤ heap_top h).
  { destruct (hw_tiling h Hwf) as (os & Ht & _). exact (chain_le _ _ _ _ (tl_chain _ _ _ _ Ht)). }
  split_and!; try done.
  - apply Forall_forall. intros [p n] Hin. cbn [fst snd]. case_decide as Hl.
    + destruct (Hlg p n Hin Hl) as (Hm & m & Hnm & Hv). destruct (live_above h p m Hwf Hv) as (? & ? & ?).
      unfold large_block in Hl. cbn [snd] in Hl. split_and!; (done || lia).
    + destruct (Hsm p n Hin Hl) as (? & ? & ? & ?). split_and!; (done || lia).
  - apply Hwf.
  - intros p. split; [intros [m Hv]; by apply (Hlv p m)|]. intros (n & Hin & Hl). destruct (Hlg p n Hin Hl) as (_ & m & _ & Hv). by exists m.
  - intros Hno. assert (Hnl : ∀ p n, ¬ live h p n).
    { intros p m (n & Hin & Hl)%Hlv. rewrite Forall_forall in Hno. by apply (Hno (p, n)). }
    pose proof (heap_no_live_coalesced h Hwf Hnl) as Heq. split; [done|].
    rewrite (hw_used h Hwf). destruct (hw_tiling h Hwf) as (os & Ht & _).
    pose proof (tiling_live_bytes _ _ _ _ Ht). lia.
Qed.

Lemma heap_run_spec_witness :
  let ops := [HAlloc 5000; HAlloc 300; HAlloc 16; HFree 1105920; HFree 1101824] in
  let h := heap_run (kmalloc_init 1048576 65536) ops in
  ledger (heap_trace (kmalloc_init 1048576 65536) ops) = [(1048576, 16)] ∧
  large_ptr h = 1114112 ∧ small_bytes_used h = 16 ∧ large_bytes_used h = live_bytes (large_allocs h).
Proof.
  split; [vm_compute; reflexivity|]. split; [vm_compute; reflexivity|].
  destruct (heap_run_spec 1048576 65536
    [HAlloc 5000; HAlloc 300; HAlloc 16; HFree 1105920; HFree 1101824]) as (_ & _ & _ & H1 & _ & H2 & _);
    [lia|done|lia|unfold two32; lia|repeat constructor; simpl; unfold two32; lia|split; [exact H1|exact H2]].
Defined.

(** A request within a page of 4 GiB is rounded to zero bytes: it is not
    refused but given a non-null block of no bytes, at the large cursor,
    which the heap does not move. *)
Theorem kmalloc_huge_size h size i :
  heap_wf h → two32 - 4096 < size < two32 →
  (∀ j, 0 ≤ j < KMALLOC_LARGE_TRACK_MAX → la_size (large_allocs h).[j] ≠ 0 →
        la_in_use (large_allocs h).[j] = true) →
  kmalloc_find_unused_large_record (large_allocs h) = Some i →
  fst (kmalloc size h) = large_ptr h ∧ large_ptr h ≠ 0 ∧
  large_ptr (snd (kmalloc size h)) = large_ptr h ∧
  large_allocs (snd (kmalloc size h)) = (large_allocs h).[i <- LargeAlloc (large_ptr h) 0 true].
Proof.
  intros Hwf Hs Hlive Hun. destruct (hw_base h Hwf) as [Hb _]. pose proof (hw_order h Hwf).
  pose proof (hw_end h Hwf). destruct (hw_tiling h Hwf) as (os & Ht & _).
  pose proof (chain_le _ _ _ _ (tl_chain _ _ _ _ Ht)). pose proof (heap_top_le h).
  assert (Ha : align_up_size size PAGE = 0).
  { unfold align_up_size, PAGE. change (sub32 4096 1) with (2 ^ 12 - 1).
    assert (Hw : add32 size (2 ^ 12 - 1) = size + 4095 - two32).
    { unfold add32, u32. symmetry. apply (Z.mod_unique_pos _ _ 1); unfold two32 in *; lia. }
    rewrite Hw, land_not_ones by (unfold two32 in *; lia).
    rewrite Z.mod_small by (unfold two32 in *; lia). lia. }
  pose proof (find_best_spec (large_allocs h) 0) as Hbest.
  unfold kmalloc. rewrite (proj2 (Z.eqb_neq (heap_base h) 0)), (proj2 (Z.eqb_neq (heap_end h) 0)),
    (proj2 (Z.eqb_neq size 0)) by (unfold two32 in *; lia).
  rewrite (proj2 (Z.leb_gt size KMALLOC_SMALL_MAX)) by (unfold KMALLOC_SMALL_MAX, two32 in *; lia).
  cbv beta zeta iota delta [orb]. rewrite Ha.
  destruct (kmalloc_find_best_free_large_record _ _) as [b|].
  { destruct Hbest as (Hbi & (Hbs & Hbu & _) & _). by rewrite (Hlive b Hbi Hbs) in Hbu. }
  rewrite (proj2 (Z.ltb_ge (large_ptr h) (small_ptr h))) by lia.
  rewrite (sub32_small (large_ptr h) (small_ptr h)) by (unfold two32 in *; lia).
  rewrite (proj2 (Z.ltb_ge _ 0)) by lia. simpl. rewrite Hun. simpl.
  rewrite sub32_small by (unfold two32 in *; lia). rewrite Z.sub_0_r.
  split_and!; [done|lia|done|done].
Qed.

Lemma kmalloc_huge_size_witness :
  kmalloc_find_unused_large_record (large_allocs demo_heap) = Some 0 ∧
  fst (kmalloc 4294967295 demo_heap) = large_ptr demo_heap ∧
  large_ptr (snd (kmalloc 4294967295 demo_heap)) = large_ptr demo_heap.
Proof.
  split; [vm_compute; reflexivity|].
  destruct (kmalloc_huge_size demo_heap 4294967295 0) as (? & _ & ? & _); [exact demo_heap_wf|
    unfold two32; lia| |vm_compute; reflexivity|by split].
  intros j Hj Hz. exfalso. apply Hz. unfold demo_heap, kmalloc_init. cbn [large_allocs].
  by rewrite (aget_replicate 64 (LargeAlloc 0 0 false)).
Defined.
