(* ===== verification/VfsNode.v ===== *)
(** kernel/vfs.c, vfs.h: the nodes of the name space and the root directory.

    [vfs_node] names every node the kernel can reach: the static ones, a slot
    of a table (root ramfiles, persistfs files), or a tarfs node by its
    address.  The root directory is the list of its [count] used entries. *)

From S2P Require Import Prelude.

Definition VFS_DIR_ENTRY_NAME_MAX : Z := 32.
Definition VFS_BOOTSTRAP_ROOT_MAX_CHILDREN : Z := 32.
Definition VFS_ROOT_RAMFILE_MAX : Z := 16.
Definition VFS_ROOT_RAMFILE_CAPACITY : Z := 4096.
Definition VFS_PATH_MAX : Z := 128.

Definition SYSCALL_OPEN_FLAG_WRITE : Z := 1.
Definition SYSCALL_OPEN_FLAG_APPEND : Z := 2.
Definition SYSCALL_OPEN_FLAG_CREATE : Z := 4.
Definition SYSCALL_OPEN_FLAG_TRUNC : Z := 8.

Definition open_flag (fl bit : Z) : bool := negb (Z.land fl bit =? 0).

Inductive vfs_node_type :=
  | VFS_NODE_NONE
  | VFS_NODE_FILE
  | VFS_NODE_DIR
  | VFS_NODE_CHARDEV.

#[export] Instance vfs_node_type_eq_dec : EqDecision vfs_node_type.
Proof. solve_decision. Defined.

Definition node_type_code (t : vfs_node_type) : Z :=
  match t with VFS_NODE_NONE => 0 | VFS_NODE_FILE => 1 | VFS_NODE_DIR => 2 | VFS_NODE_CHARDEV => 3 end.

Inductive vfs_node :=
  | g_vfs_root_node
  | g_vfs_dev_node
  | g_vfs_console_node
  | g_vfs_null_node
  | vfs_ramfile_node (slot : Z)
  | g_persistfs_dir
  | persistfs_slot_node (slot : Z)
  | tarfs_vfs_node (addr : Z).

#[export] Instance vfs_node_eq_dec : EqDecision vfs_node.
Proof. solve_decision. Defined.

(** An entry written by a directory listing. *)
Record vfs_dir_entry := DirEntry { de_type : vfs_node_type; de_name : list Z }.

(** The loop [while (src[i] != 0 && i + 1 < VFS_DIR_ENTRY_NAME_MAX)]; the copy
    is the string up to its terminator. *)
Definition vfs_copy_dir_entry_name (src : list Z) : list Z :=
  take (Z.to_nat (VFS_DIR_ENTRY_NAME_MAX - 1)) (cstr src).

Definition vfs_name_eq (lit name : list Z) (name_len : Z) : bool := name_eq lit name name_len.

(** A [vfs_static_dir]: its entries in order. *)
Definition vfs_static_dir := list (list Z * vfs_node).

Definition vfs_static_dir_lookup (table : vfs_static_dir) (name : list Z) (name_len : Z) : res vfs_node :=
  if name_len =? 0 then Err KERR_INVAL
  else
    match list_find (λ e : list Z * vfs_node, vfs_name_eq (fst e) name name_len) table with
    | Some (_, e) => Ok (snd e)
    | None => Err KERR_NOENT
    end.

(** [entry_cap] bounds the entries written; [has_entries] says that the
    buffer is not null. *)
Definition vfs_static_dir_list (type_of : vfs_node → vfs_node_type) (table : vfs_static_dir)
    (has_entries : bool) (entry_cap : Z) : res (list vfs_dir_entry) :=
  if negb (entry_cap =? 0) && negb has_entries then Err KERR_INVAL
  else Ok ((λ e, DirEntry (type_of (snd e)) (vfs_copy_dir_entry_name (fst e)))
             <$> take (Z.to_nat entry_cap) table).

(** ["dev"], ["console"], ["null"]. *)
Definition name_dev : list Z := [100; 101; 118].
Definition name_console : list Z := [99; 111; 110; 115; 111; 108; 101].
Definition name_null : list Z := [110; 117; 108; 108].

Definition g_vfs_dev_entries : vfs_static_dir :=
  [(name_console, g_vfs_console_node); (name_null, g_vfs_null_node)].

Definition vfs_register_root_child (name : list Z) (nd : vfs_node) (root : vfs_static_dir)
    : res unit * vfs_static_dir :=
  if cget name 0 =? NUL then (Err KERR_INVAL, root)
  else if existsb (λ e, vfs_name_eq (fst e) name (alen name)) root then (Err KERR_INVAL, root)
  else if VFS_BOOTSTRAP_ROOT_MAX_CHILDREN <=? alen root then (Err KERR_NOMEM, root)
  else (Ok tt, root ++ [(name, nd)]).
