(* ===== verification/KFile.v ===== *)
(** kernel/kfile.c: open file objects and their dispatch.

    [struct kfile] is the record [kfile]; the function pointers of a
    [struct kfile_ops] are a class [FileOps] that gives, for each of the
    kernel's operation tables, the function behind each pointer ([None] is a
    null pointer).  A call that blocks may never return: reads and writes give
    an [option], [None] standing for a call that has not returned.  [FileLaws]
    is what a backend promises about references; ProcFd.v is verified against
    it and KPipe.v implements it. *)

From S2P Require Import Prelude VfsNode.

(** The [g_*_file_ops] tables of the kernel. *)
Inductive kfile_ops :=
  | g_kpipe_file_ops
  | g_vfs_devnull_file_ops
  | g_vfs_console_file_ops
  | g_vfs_root_ramfile_file_ops
  | g_persistfs_kfile_ops
  | g_tarfs_file_ops.

#[export] Instance kfile_ops_eq_dec : EqDecision kfile_ops.
Proof. solve_decision. Defined.

(** The fields of the C struct under the prefix [f_]; [f_node] is [None]
    for a null pointer, [f_private] ([backend_private]) is an address. *)
Record kfile := KFile {
  f_ops : option kfile_ops;
  f_node : option vfs_node;
  f_private : Z;
  f_offset : Z;
  f_flags : Z
}.

#[export] Instance kfile_eq_dec : EqDecision kfile.
Proof. solve_decision. Defined.

Definition kfile_reset : kfile := KFile None None 0 0 0.

#[export] Instance kfile_inhabited : Inhabited kfile := populate kfile_reset.

Definition kfile_init (nd : option vfs_node) (o : option kfile_ops) (priv fl : Z) : kfile :=
  KFile o nd priv 0 fl.

Definition set_offset (f : kfile) (off : Z) : kfile :=
  KFile (f_ops f) (f_node f) (f_private f) off (f_flags f).

(** The functions behind an operation table, over the backends' state [σ].
    [retain] and [close] leave the file object itself alone. *)
Class FileOps (σ : Type) := {
  op_read : kfile_ops → option (kfile → bool → Z → σ → option (res (list Z) * kfile * σ));
  op_write : kfile_ops → option (kfile → option (list Z) → Z → σ → option (res unit * Z * kfile * σ));
  op_retain : kfile_ops → option (kfile → σ → res unit * σ);
  op_close : kfile_ops → option (kfile → σ → res unit * σ)
}.

Section dispatch.
Context {σ : Type} `{!FileOps σ}.

(** [has_buf] says that [buf] is not null; [Ok bs] writes [bs] to it and
    their number to [*out_read]. *)
Definition kfile_read (f : kfile) (has_buf : bool) (len : Z) (s : σ)
    : option (res (list Z) * kfile * σ) :=
  if negb (len =? 0) && negb has_buf then Some (Err KERR_INVAL, f, s)
  else if len =? 0 then Some (Ok [], f, s)
  else
    match f_ops f ≫= op_read with
    | None => Some (Err KERR_NOTSUP, f, s)
    | Some rd => rd f has_buf len s
    end.

(** The result code, [*out_written], the file and the state. *)
Definition kfile_write (f : kfile) (buf : option (list Z)) (len : Z) (s : σ)
    : option (res unit * Z * kfile * σ) :=
  if negb (len =? 0) && negb (bool_decide (is_Some buf)) then Some (Err KERR_INVAL, 0, f, s)
  else if len =? 0 then Some (Ok tt, 0, f, s)
  else
    match f_ops f ≫= op_write with
    | None => Some (Err KERR_NOTSUP, 0, f, s)
    | Some wr => wr f buf len s
    end.

Definition kfile_clone (src : kfile) (s : σ) : res kfile * σ :=
  match f_ops src ≫= op_retain with
  | None => (Ok src, s)
  | Some retain => trys! _, s := retain src s in (Ok src, s)
  end.

(** The second component is the file object after the call. *)
Definition kfile_close (f : kfile) (s : σ) : res unit * kfile * σ :=
  match f_ops f ≫= op_close with
  | None => (Ok tt, kfile_reset, s)
  | Some close =>
      match close f s with
      | (Err e, s) => (Err e, f, s)
      | (Ok _, s) => (Ok tt, kfile_reset, s)
      end
  end.
End dispatch.

(** * What a backend promises about references

    [held F s]: the open files of the whole system are the files [F], and the
    backends' state counts exactly those.  The laws say that retaining a held
    file adds it once more, that a failed retain adds nothing, and that closing
    a held file succeeds and drops it once. *)
Class FileLaws (σ : Type) `{!FileOps σ} := {
  held : list kfile → σ → Prop;
  held_proper :: Proper ((≡ₚ) ==> (=) ==> iff) held;
  held_retain id retain f F s :
    f_ops f = Some id → op_retain id = Some retain →
    alen (f :: F) + 1 < two32 → held (f :: F) s →
    match retain f s with
    | (Ok _, s') => held (f :: f :: F) s'
    | (Err _, s') => held (f :: F) s'
    end;
  held_copy f F s :
    f_ops f ≫= op_retain = None → alen (f :: F) + 1 < two32 → held (f :: F) s → held (f :: f :: F) s;
  held_close id close f F s :
    f_ops f = Some id → op_close id = Some close → held (f :: F) s →
    ∃ s', close f s = (Ok tt, s') ∧ held F s';
  held_drop f F s : f_ops f ≫= op_close = None → held (f :: F) s → held F s
}.

Section laws.
Context {σ : Type} `{!FileOps σ, !FileLaws σ}.

Lemma held_clone f F s :
  alen (f :: F) + 1 < two32 → held (f :: F) s →
  match kfile_clone f s with
  | (Ok g, s') => g = f ∧ held (f :: f :: F) s'
  | (Err _, s') => held (f :: F) s'
  end.
Proof.
  intros Hb Hh. unfold kfile_clone.
  destruct (f_ops f ≫= op_retain) as [retain|] eqn:E.
  - destruct (f_ops f) as [id|] eqn:Ef; simpl in E; [|done].
    pose proof (held_retain id retain f F s Ef E Hb Hh) as Hr.
    by destruct (retain f s) as [[]].
  - split; [done|]. by apply held_copy.
Qed.

Lemma held_kfile_close f F s :
  held (f :: F) s → ∃ s', kfile_close f s = (Ok tt, kfile_reset, s') ∧ held F s'.
Proof.
  intros Hh. unfold kfile_close.
  destruct (f_ops f ≫= op_close) as [close|] eqn:E.
  - destruct (f_ops f) as [id|] eqn:Ef; simpl in E; [|done].
    destruct (held_close id close f F s Ef E Hh) as (s' & -> & Hs'). by exists s'.
  - exists s. split; [done|]. by eapply held_drop.
Qed.
End laws.

Section laws_in.
Context {σ : Type} `{!FileOps σ, !FileLaws σ}.

(** Cloning a file held anywhere in the system. *)
Lemma held_clone_in f G s :
  f ∈ G → alen G + 1 < two32 → held G s →
  match kfile_clone f s with
  | (Ok g, s') => g = f ∧ held (f :: G) s'
  | (Err _, s') => held G s'
  end.
Proof.
  intros (l & k & ->)%list_elem_of_split Hb Hh.
  assert (Hp : l ++ f :: k ≡ₚ f :: l ++ k) by (symmetry; apply Permutation_middle).
  rewrite Hp in Hh. unfold alen in Hb. rewrite (Permutation_length Hp) in Hb.
  pose proof (held_clone f (l ++ k) s Hb Hh) as Hc.
  destruct (kfile_clone f s) as [[g|e] s'].
  - destruct Hc as [-> Hc]. split; [done|]. by rewrite Hp.
  - by rewrite Hp.
Qed.
End laws_in.
