(* ===== verification/Ring.v ===== *)
(** Ring buffers: an array of [N] cells read from [head] on.  Shared by the
    keyboard and the serial line (kernel/keyboard.c, kernel/serial.c), which
    keep the next free cell, and by the event queues of the window system
    (kernel/display.c), which keep the count. *)

From S2P Require Import Prelude.

Section ring.
Context {A : Type} `{!Inhabited A} (N : Z).
Implicit Types (buf : list A).

(** The [n] elements from [head] on, the oldest first. *)
Definition ring_items buf (head n : Z) : list A := (λ i, buf.[(head + i) mod N]) <$> seqZ 0 n.

(** The number of elements between [head] and the next free cell [tail]. *)
Definition ring_used (head tail : Z) : Z := (tail - head) mod N.

Lemma ring_mod x : 0 ≤ x < 2 * N → x mod N = if decide (x < N) then x else x - N.
Proof.
  intros Hx. case_decide; [by rewrite Z.mod_small by lia|]. symmetry. apply (Z.mod_unique _ _ 1); lia.
Qed.

Lemma ring_used_cases head tail : 0 ≤ head < N → 0 ≤ tail < N →
  ring_used head tail = if decide (head ≤ tail) then tail - head else tail - head + N.
Proof.
  intros Hh Ht. unfold ring_used. case_decide; [by rewrite Z.mod_small by lia|].
  symmetry. apply (Z.mod_unique _ _ (-1)); lia.
Qed.

Lemma ring_used_bounds head tail : 0 ≤ head < N → 0 ≤ tail < N → 0 ≤ ring_used head tail < N.
Proof. intros Hh Ht. apply Z.mod_pos_bound. lia. Qed.

Lemma ring_items_len buf head n : 0 ≤ n → alen (ring_items buf head n) = n.
Proof. intros Hn. unfold ring_items, alen. rewrite length_fmap, length_seqZ. lia. Qed.

Lemma ring_items_snoc buf head n x :
  alen buf = N → 0 ≤ head < N → 0 ≤ n < N →
  ring_items buf.[(head + n) mod N <- x] head (n + 1) = ring_items buf head n ++ [x].
Proof.
  intros Hb Hh Hn. unfold ring_items. rewrite (seqZ_app 0 n 1) by lia. rewrite fmap_app. f_equal.
  - apply list_fmap_ext. intros i j Hj%list_elem_of_lookup_2. apply elem_of_seqZ in Hj.
    pose proof (Z.mod_pos_bound (head + n) N ltac:(lia)). pose proof (Z.mod_pos_bound (head + j) N ltac:(lia)).
    apply aget_aset_ne; [lia..|]. rewrite !ring_mod by lia. repeat case_decide; lia.
  - pose proof (Z.mod_pos_bound (head + n) N ltac:(lia)). simpl.
    replace (Z.of_nat 0 + (0 + n)) with n by lia. rewrite aget_aset_eq by lia. done.
Qed.

Lemma ring_items_cons buf head n :
  0 ≤ head < N → 0 ≤ n →
  ring_items buf head (n + 1) = buf.[head] :: ring_items buf ((head + 1) mod N) n.
Proof.
  intros Hh Hn. unfold ring_items. rewrite (seqZ_cons 0) by lia. rewrite fmap_cons, Z.add_0_r, (Z.mod_small head) by lia. f_equal.
  replace (Z.pred (n + 1)) with n by lia. change (Z.succ 0) with (1 + 0).
  rewrite <- fmap_add_seqZ, <- list_fmap_compose. apply list_fmap_ext. intros i x Hx. unfold compose.
  rewrite Zplus_mod_idemp_l. f_equal. f_equal. lia.
Qed.

(** The test for a full ring, and the cell that is added. *)
Lemma ring_next head tail : 0 ≤ head < N → 0 ≤ tail < N →
  let tail' := (tail + 1) mod N in
  0 ≤ tail' < N ∧
  (if decide (tail' = head) then ring_used head tail = N - 1
   else ring_used head tail < N - 1 ∧ ring_used head tail' = ring_used head tail + 1).
Proof.
  intros Hh Ht tail'. assert (Hr : 0 ≤ tail' < N) by (apply Z.mod_pos_bound; lia). split; [done|].
  rewrite !ring_used_cases by done. unfold tail' in *. rewrite ring_mod in * by lia.
  repeat case_decide; lia.
Qed.

(** Taking the oldest one. *)
Lemma ring_step head tail : 0 ≤ head < N → 0 ≤ tail < N → head ≠ tail →
  ring_used head tail = ring_used ((head + 1) mod N) tail + 1 ∧ 0 ≤ (head + 1) mod N < N.
Proof.
  intros Hh Ht Hne. assert (Hr : 0 ≤ (head + 1) mod N < N) by (apply Z.mod_pos_bound; lia). split; [|done].
  rewrite !ring_used_cases by done. rewrite ring_mod in * by lia. repeat case_decide; lia.
Qed.

Lemma ring_empty buf head : ring_items buf head (ring_used head head) = [].
Proof. unfold ring_used. by rewrite Z.sub_diag. Qed.

(** Where the element put is stored. *)
Lemma ring_end head tail : 0 ≤ head < N → 0 ≤ tail < N → (head + ring_used head tail) mod N = tail.
Proof.
  intros Hh Ht. pose proof (ring_used_bounds head tail Hh Ht). rewrite ring_mod by lia.
  rewrite ring_used_cases by done. repeat case_decide; lia.
Qed.
End ring.
