(* ===== verification/KPipe.v ===== *)
(** kernel/kpipe.c: anonymous pipes.

    A pipe is a ring buffer with reader and writer counts ([kpipe_state]); the
    pipes live in blocks of the kernel heap ([pipes]).  Each critical section
    of a read or a write is one function ([read_section], [write_section]);
    what other tasks do between two sections of a blocked call is the argument
    [wait] ([kpipe_wait_once]).  The ring is shown to be a queue ([contents]),
    the endpoints keep the interface [FileLaws]. *)

From S2P Require Import Prelude Ring Kmalloc KFile.

Definition KPIPE_CAPACITY : Z := 512.
Definition KFILE_PIPE_READ_ENDPOINT : Z := 1.
Definition KFILE_PIPE_WRITE_ENDPOINT : Z := 2.
(** [sizeof(struct kpipe_state)]. *)
Definition KPIPE_STATE_SIZE : Z := 532.

Record kpipe_state := Pipe {
  buf : list Z;
  head : Z;
  tail : Z;
  used : Z;
  reader_refs : Z;
  writer_refs : Z
}.

Definition pipe_zero : kpipe_state := Pipe (replicate 512 0) 0 0 0 0 0.

Definition with_refs (st : kpipe_state) (r w : Z) : kpipe_state :=
  Pipe (buf st) (head st) (tail st) (used st) r w.

(** The kernel heap and the pipe states in its blocks, by address. *)
Record pipes := Pipes { pipe_heap : kheap; pipe_map : gmap Z kpipe_state }.

(** The pipe state at address [p]. *)
Definition pipe_at (s : pipes) (p : Z) : kpipe_state := default pipe_zero (pipe_map s !! p).

Definition pipe_store (p : Z) (st : kpipe_state) (s : pipes) : pipes :=
  Pipes (pipe_heap s) (<[p := st]> (pipe_map s)).

(** * The ring *)

(** The loop of [kpipe_read], [n] bytes still wanted. *)
Fixpoint ring_take (n : nat) (st : kpipe_state) : list Z * kpipe_state :=
  match n with
  | O => ([], st)
  | S n' =>
      if used st =? 0 then ([], st)
      else
        let b := (buf st).[head st] in
        let '(bs, st') :=
          ring_take n' (Pipe (buf st) (add32 (head st) 1 mod KPIPE_CAPACITY) (tail st)
                             (sub32 (used st) 1) (reader_refs st) (writer_refs st)) in
        (b :: bs, st')
  end.

(** The loop of [kpipe_write]: the bytes left over and the new state. *)
Fixpoint ring_put (bs : list Z) (st : kpipe_state) : list Z * kpipe_state :=
  match bs with
  | [] => ([], st)
  | b :: bs' =>
      if used st <? KPIPE_CAPACITY then
        ring_put bs' (Pipe (buf st).[tail st <- b] (head st) (add32 (tail st) 1 mod KPIPE_CAPACITY)
                           (add32 (used st) 1) (reader_refs st) (writer_refs st))
      else (bs, st)
  end.

(** One critical section of a read of [len] bytes: [Some bs] returns [bs]
    (end of file when empty), [None] waits. *)
Definition read_section (len : Z) (st : kpipe_state) : option (list Z) * kpipe_state :=
  let '(bs, st') := ring_take (Z.to_nat len) st in
  match bs with
  | _ :: _ => (Some bs, st')
  | [] => if writer_refs st' =? 0 then (Some [], st') else (None, st')
  end.

(** One critical section of a write with [src] still to write: the bytes left,
    or a broken pipe. *)
Definition write_section (src : list Z) (st : kpipe_state) : res (list Z) * kpipe_state :=
  if reader_refs st =? 0 then (Err KERR_PIPE, st)
  else let '(rest, st') := ring_put src st in (Ok rest, st').

(** * The operations *)

Definition has_flag (f : kfile) (bit : Z) : bool := negb (Z.land (f_flags f) bit =? 0).

Definition kpipe_create (s : pipes) : res (kfile * kfile) * pipes :=
  let '(p, h) := kmalloc KPIPE_STATE_SIZE (pipe_heap s) in
  if p =? 0 then (Err KERR_NOMEM, Pipes h (pipe_map s))
  else
    (Ok (kfile_init None (Some g_kpipe_file_ops) p KFILE_PIPE_READ_ENDPOINT,
         kfile_init None (Some g_kpipe_file_ops) p KFILE_PIPE_WRITE_ENDPOINT),
     pipe_store p (with_refs pipe_zero 1 1) (Pipes h (pipe_map s))).

Definition kpipe_retain (f : kfile) (s : pipes) : res unit * pipes :=
  let p := f_private f in
  if p =? 0 then (Err KERR_INVAL, s)
  else
    let st := pipe_at s p in
    let st := if has_flag f KFILE_PIPE_READ_ENDPOINT
              then with_refs st (add32 (reader_refs st) 1) (writer_refs st) else st in
    let st := if has_flag f KFILE_PIPE_WRITE_ENDPOINT
              then with_refs st (reader_refs st) (add32 (writer_refs st) 1) else st in
    (Ok tt, pipe_store p st s).

Definition kpipe_close (f : kfile) (s : pipes) : res unit * pipes :=
  let p := f_private f in
  if p =? 0 then (Err KERR_INVAL, s)
  else
    let st := pipe_at s p in
    let st := if has_flag f KFILE_PIPE_READ_ENDPOINT && negb (reader_refs st =? 0)
              then with_refs st (sub32 (reader_refs st) 1) (writer_refs st) else st in
    let st := if has_flag f KFILE_PIPE_WRITE_ENDPOINT && negb (writer_refs st =? 0)
              then with_refs st (reader_refs st) (sub32 (writer_refs st) 1) else st in
    if (reader_refs st =? 0) && (writer_refs st =? 0)
    then (Ok tt, Pipes (kfree p (pipe_heap s)) (delete p (pipe_map s)))
    else (Ok tt, pipe_store p st s).

Section blocking.
(** [kpipe_wait_once]: the state after the other tasks had the processor. *)
Variable wait : pipes → pipes.

(** [for (;;)] of [kpipe_read]; [None]: still blocked after [fuel] rounds. *)
Fixpoint read_loop (fuel : nat) (p len : Z) (s : pipes) : option (res (list Z) * pipes) :=
  match fuel with
  | O => None
  | S fuel' =>
      let '(r, st) := read_section len (pipe_at s p) in
      let s := pipe_store p st s in
      match r with
      | Some bs => Some (Ok bs, s)
      | None => read_loop fuel' p len (wait s)
      end
  end.

Definition kpipe_read (fuel : nat) (f : kfile) (has_buf : bool) (len : Z) (s : pipes)
    : option (res (list Z) * kfile * pipes) :=
  if (f_private f =? 0) || negb (has_flag f KFILE_PIPE_READ_ENDPOINT) then Some (Err KERR_INVAL, f, s)
  else if negb has_buf && negb (len =? 0) then Some (Err KERR_INVAL, f, s)
  else if len =? 0 then Some (Ok [], f, s)
  else '(r, s) ← read_loop fuel (f_private f) len s; Some (r, f, s).

(** [while (total < len)] of [kpipe_write]: the result and [*out_written]. *)
Fixpoint write_loop (fuel : nat) (p : Z) (src : list Z) (total : Z) (s : pipes)
    : option (res unit * Z * pipes) :=
  match src with
  | [] => Some (Ok tt, total, s)
  | _ :: _ =>
      match fuel with
      | O => None
      | S fuel' =>
          match write_section src (pipe_at s p) with
          | (Err e, st) => Some (Err e, total, pipe_store p st s)
          | (Ok rest, st) =>
              let s := pipe_store p st s in
              let total := add32 total (alen src - alen rest) in
              write_loop fuel' p rest total (match rest with [] => s | _ :: _ => wait s end)
          end
      end
  end.

Definition kpipe_write (fuel : nat) (f : kfile) (b : option (list Z)) (len : Z) (s : pipes)
    : option (res unit * Z * kfile * pipes) :=
  if (f_private f =? 0) || negb (has_flag f KFILE_PIPE_WRITE_ENDPOINT) then Some (Err KERR_INVAL, 0, f, s)
  else if negb (bool_decide (is_Some b)) && negb (len =? 0) then Some (Err KERR_INVAL, 0, f, s)
  else if len =? 0 then Some (Ok tt, 0, f, s)
  else
    '(r, total, s) ← write_loop fuel (f_private f) (take (Z.to_nat len) (default [] b)) 0 s;
    Some (r, total, f, s).

(** [g_kpipe_file_ops]; the tables of other backends are not pipes. *)
Definition pipe_ops (fuel : nat) : FileOps pipes := {|
  op_read id := match id with g_kpipe_file_ops => Some (kpipe_read fuel) | _ => None end;
  op_write id := match id with g_kpipe_file_ops => Some (kpipe_write fuel) | _ => None end;
  op_retain id := match id with g_kpipe_file_ops => Some kpipe_retain | _ => None end;
  op_close id := match id with g_kpipe_file_ops => Some kpipe_close | _ => None end
|}.
End blocking.

(** * The ring is a queue *)

Record pipe_wf (st : kpipe_state) : Prop := {
  pw_len : alen (buf st) = KPIPE_CAPACITY;
  pw_head : 0 ≤ head st < KPIPE_CAPACITY;
  pw_used : 0 ≤ used st ≤ KPIPE_CAPACITY;
  pw_tail : tail st = (head st + used st) mod KPIPE_CAPACITY
}.

Definition contents (st : kpipe_state) : list Z :=
  ring_items KPIPE_CAPACITY (buf st) (head st) (used st).

Lemma contents_length st : pipe_wf st → alen (contents st) = used st.
Proof. intros [_ _ Hu _]. apply ring_items_len. lia. Qed.

Lemma pipe_zero_wf r w : pipe_wf (with_refs pipe_zero r w) ∧ contents (with_refs pipe_zero r w) = [].
Proof. split; [split; simpl; try done; unfold KPIPE_CAPACITY; lia|done]. Qed.

Lemma succ_mod x : 0 ≤ x < KPIPE_CAPACITY → add32 x 1 mod KPIPE_CAPACITY = (x + 1) mod KPIPE_CAPACITY.
Proof. intros. rewrite add32_small; [done|]. unfold KPIPE_CAPACITY, two32 in *. lia. Qed.

Lemma mod_cap_range x : 0 ≤ x mod KPIPE_CAPACITY < KPIPE_CAPACITY.
Proof. by apply Z.mod_pos_bound. Qed.

(** Taking one byte. *)
Lemma ring_pop st :
  pipe_wf st → used st ≠ 0 →
  let st' := Pipe (buf st) (add32 (head st) 1 mod KPIPE_CAPACITY) (tail st) (sub32 (used st) 1)
                  (reader_refs st) (writer_refs st) in
  pipe_wf st' ∧ contents st = (buf st).[head st] :: contents st'.
Proof.
  intros [Hl Hh Hu Ht] Hne. simpl. rewrite succ_mod by done.
  rewrite sub32_small by (unfold KPIPE_CAPACITY, two32 in *; lia). split.
  - split; simpl; try done; try lia; [apply mod_cap_range|].
    rewrite Ht, Zplus_mod_idemp_l. f_equal. lia.
  - unfold contents. simpl. rewrite <- ring_items_cons by lia. f_equal. lia.
Qed.

(** Putting one byte. *)
Lemma ring_push st b :
  pipe_wf st → used st < KPIPE_CAPACITY →
  let st' := Pipe (buf st).[tail st <- b] (head st) (add32 (tail st) 1 mod KPIPE_CAPACITY)
                  (add32 (used st) 1) (reader_refs st) (writer_refs st) in
  pipe_wf st' ∧ contents st' = contents st ++ [b].
Proof.
  intros [Hl Hh Hu Ht] Hlt. simpl.
  assert (Htr : 0 ≤ tail st < KPIPE_CAPACITY) by (rewrite Ht; apply mod_cap_range).
  rewrite succ_mod by done. rewrite add32_small by (unfold KPIPE_CAPACITY, two32 in *; lia). split.
  - split; simpl; [by arr|lia|lia|]. rewrite Ht, Zplus_mod_idemp_l. f_equal. lia.
  - unfold contents. simpl. rewrite Ht. apply ring_items_snoc; lia.
Qed.

Definition same_refs (st st' : kpipe_state) : Prop :=
  reader_refs st' = reader_refs st ∧ writer_refs st' = writer_refs st.

Lemma ring_take_spec n st :
  pipe_wf st →
  let '(bs, st') := ring_take n st in
  pipe_wf st' ∧ same_refs st st' ∧ contents st = bs ++ contents st' ∧
  alen bs = Z.min (Z.of_nat n) (used st).
Proof.
  revert st. induction n as [|n IH]; intros st Hwf; simpl.
  - split_and!; try done. pose proof (pw_used st Hwf). unfold alen. simpl. lia.
  - destruct (Z.eqb_spec (used st) 0) as [Hz|Hne].
    + split_and!; try done. unfold alen. simpl. lia.
    + destruct (ring_pop st Hwf Hne) as [Hwf' Hc]. pose proof (pw_used st Hwf).
      specialize (IH _ Hwf'). destruct (ring_take n _) as [bs st'] eqn:E.
      destruct IH as (Hwf2 & Hr & Hc2 & Hl). split_and!; try done.
      * rewrite Hc, Hc2. done.
      * revert Hl. unfold alen. simpl.
        rewrite sub32_small by (unfold KPIPE_CAPACITY, two32 in *; lia). lia.
Qed.

Lemma ring_put_spec bs st :
  pipe_wf st →
  let '(rest, st') := ring_put bs st in
  pipe_wf st' ∧ same_refs st st' ∧
  ∃ done_, bs = done_ ++ rest ∧ contents st' = contents st ++ done_ ∧
           alen done_ = Z.min (alen bs) (KPIPE_CAPACITY - used st).
Proof.
  revert st. induction bs as [|b bs IH]; intros st Hwf; simpl.
  - split_and!; try done. exists []. pose proof (pw_used st Hwf).
    split_and!; [done|by rewrite app_nil_r|]. unfold alen. simpl. lia.
  - pose proof (pw_used st Hwf). destruct (Z.ltb_spec (used st) KPIPE_CAPACITY) as [Hlt|Hge].
    + destruct (ring_push st b Hwf Hlt) as [Hwf' Hc]. specialize (IH _ Hwf').
      destruct (ring_put bs _) as [rest st'] eqn:E.
      destruct IH as (Hwf2 & Hr & d & Hd & Hc2 & Hl). split_and!; try done.
      exists (b :: d). split_and!.
      * by rewrite Hd.
      * rewrite Hc2, Hc, <- app_assoc. done.
      * revert Hl. unfold alen. simpl.
        rewrite add32_small by (unfold KPIPE_CAPACITY, two32 in *; lia). lia.
    + split_and!; try done. exists [].
      split_and!; [done|by rewrite app_nil_r|]. unfold alen. simpl. lia.
Qed.

Lemma read_section_cases len st :
  pipe_wf st → 0 < len →
  let '(r, st') := read_section len st in
  pipe_wf st' ∧ same_refs st st' ∧
  match r with
  | Some bs => contents st = bs ++ contents st' ∧ alen bs = Z.min len (used st) ∧
               (bs = [] → contents st = [] ∧ writer_refs st = 0)
  | None => contents st = [] ∧ st' = st ∧ writer_refs st ≠ 0
  end.
Proof.
  intros Hwf Hlen. pose proof (pw_used st Hwf) as Hu. unfold read_section.
  destruct (decide (used st = 0)) as [Hz|Hnz].
  - assert (Htk : ring_take (Z.to_nat len) st = ([], st)).
    { destruct (Z.to_nat len); simpl; [done|]. by rewrite Hz. }
    rewrite Htk. assert (Hc : contents st = []) by (unfold contents; by rewrite Hz).
    destruct (Z.eqb_spec (writer_refs st) 0); split_and!; try done.
    unfold alen. simpl. lia.
  - pose proof (ring_take_spec (Z.to_nat len) st Hwf) as Hs.
    destruct (ring_take (Z.to_nat len) st) as [bs st'].
    destruct Hs as (Hwf' & Hr & Hc & Hl). rewrite Z2Nat.id in Hl by lia.
    destruct bs as [|b bs]; [unfold alen in Hl; simpl in Hl; lia|].
    split_and!; try done.
Qed.

Lemma write_section_cases src st :
  pipe_wf st →
  let '(r, st') := write_section src st in
  pipe_wf st' ∧ same_refs st st' ∧
  match r with
  | Ok rest => reader_refs st ≠ 0 ∧ ∃ d, src = d ++ rest ∧ contents st' = contents st ++ d ∧
               alen d = Z.min (alen src) (KPIPE_CAPACITY - used st)
  | Err e => e = KERR_PIPE ∧ reader_refs st = 0 ∧ st' = st
  end.
Proof.
  intros Hwf. unfold write_section. destruct (Z.eqb_spec (reader_refs st) 0) as [Hz|Hz]; [done|].
  pose proof (ring_put_spec src st Hwf) as Hs. destruct (ring_put src st) as [rest st'].
  by destruct Hs as (? & ? & ?).
Qed.

(** * Interleavings

    Tasks share a pipe by running critical sections in some order.  The
    history records the bytes accepted from writers and delivered to readers. *)
Record pipe_run := Run { ring : kpipe_state; sent : list Z; received : list Z }.

Inductive pipe_step : pipe_run → pipe_run → Prop :=
  | step_read len r st bs :
      0 < len → read_section len (ring r) = (Some bs, st) →
      pipe_step r (Run st (sent r) (received r ++ bs))
  | step_read_wait len r st :
      0 < len → read_section len (ring r) = (None, st) →
      pipe_step r (Run st (sent r) (received r))
  | step_write src r st d rest :
      src = d ++ rest → write_section src (ring r) = (Ok rest, st) →
      pipe_step r (Run st (sent r ++ d) (received r))
  | step_write_broken src r st e :
      write_section src (ring r) = (Err e, st) →
      pipe_step r (Run st (sent r) (received r))
  | step_refs r rd wr :
      pipe_step r (Run (with_refs (ring r) rd wr) (sent r) (received r)).

Definition stream_ok (r : pipe_run) : Prop :=
  pipe_wf (ring r) ∧ sent r = received r ++ contents (ring r).

Lemma with_refs_wf st rd wr : pipe_wf st → pipe_wf (with_refs st rd wr).
Proof. by intros []; split. Qed.

Lemma pipe_step_stream_ok r r' : stream_ok r → pipe_step r r' → stream_ok r'.
Proof.
  intros [Hwf Hs] Hstep. destruct Hstep as [len r st bs Hl E|len r st Hl E|src r st d rest Hd E|src r st e E|r rd wr];
    simpl in *.
  - pose proof (read_section_cases len (ring r) Hwf Hl) as Hc. rewrite E in Hc.
    destruct Hc as (? & _ & Hc & _). split; simpl; [done|]. by rewrite Hs, Hc, app_assoc.
  - pose proof (read_section_cases len (ring r) Hwf Hl) as Hc. rewrite E in Hc.
    destruct Hc as (_ & _ & _ & -> & _). by split.
  - pose proof (write_section_cases src (ring r) Hwf) as Hc. rewrite E in Hc.
    destruct Hc as (? & _ & _ & d' & Hd' & Hc & _). rewrite Hd in Hd'.
    apply app_inv_tail in Hd' as <-. split; simpl; [done|]. by rewrite Hs, Hc, app_assoc.
  - pose proof (write_section_cases src (ring r) Hwf) as Hc. rewrite E in Hc.
    destruct Hc as (_ & _ & _ & _ & ->). by split.
  - split; simpl; [by apply with_refs_wf|]. done.
Qed.

(** * References: the endpoints keep [FileLaws] *)

Definition is_end (p bit : Z) (f : kfile) : bool :=
  bool_decide (f_ops f = Some g_kpipe_file_ops) && (f_private f =? p) && has_flag f bit.

(** How many of the files [F] are this end of the pipe at [p]. *)
Definition ends (p bit : Z) (F : list kfile) : Z := foldr (λ f n, b2z (is_end p bit f) + n) 0 F.

#[export] Instance ends_proper p bit : Proper ((≡ₚ) ==> (=)) (ends p bit).
Proof. intros F G HFG. induction HFG; simpl; lia. Qed.

Lemma ends_bounds p bit F : 0 ≤ ends p bit F ≤ alen F.
Proof.
  unfold alen. induction F as [|f F IH]; simpl; [lia|]. unfold b2z. destruct (is_end p bit f); lia.
Qed.

(** A file the pipes know: a closed file or an end of a pipe in the map. *)
Definition known_file (s : pipes) (f : kfile) : Prop :=
  f_ops f = None ∨
  (f_ops f = Some g_kpipe_file_ops ∧ is_Some (pipe_map s !! f_private f) ∧
   has_flag f KFILE_PIPE_READ_ENDPOINT || has_flag f KFILE_PIPE_WRITE_ENDPOINT = true).

(** A pipe in the map: well formed, its counts exact and not both 0, in a heap
    block of its own. *)
Record pipe_held (F : list kfile) (s : pipes) (p : Z) (st : kpipe_state) : Prop := {
  ph_wf : pipe_wf st;
  ph_readers : reader_refs st = ends p KFILE_PIPE_READ_ENDPOINT F;
  ph_writers : writer_refs st = ends p KFILE_PIPE_WRITE_ENDPOINT F;
  ph_refs : reader_refs st + writer_refs st ≠ 0;
  ph_block : ∃ n, KPIPE_STATE_SIZE ≤ n ∧ live (pipe_heap s) p n
}.

Record pipes_held (F : list kfile) (s : pipes) : Prop := {
  hp_heap : heap_wf (pipe_heap s);
  hp_files : Forall (known_file s) F;
  hp_pipes : ∀ p st, pipe_map s !! p = Some st → pipe_held F s p st
}.

#[export] Instance pipes_held_proper : Proper ((≡ₚ) ==> (=) ==> iff) pipes_held.
Proof.
  assert (H : ∀ F G s, F ≡ₚ G → pipes_held F s → pipes_held G s).
  { intros F G s HFG [? Hf Hp]. split; [done|by rewrite <- HFG|].
    intros p st Hst. destruct (Hp p st Hst). by split; rewrite <- ?HFG. }
  intros F G HFG s _ <-. split; by apply H.
Qed.

Lemma pipe_nonnull F s p st : pipes_held F s → pipe_map s !! p = Some st → p ≠ 0.
Proof.
  intros Hh Hst. destruct (ph_block _ _ _ _ (hp_pipes _ _ Hh p st Hst)) as (n & _ & Hl).
  pose proof (hp_heap _ _ Hh) as Hwf. destruct (live_above _ _ _ Hwf Hl).
  destruct (hw_base _ Hwf), (hw_order _ Hwf). lia.
Qed.

Lemma known_file_pipe F f id s :
  f_ops f = Some id → pipes_held (f :: F) s →
  ∃ st, f_ops f = Some g_kpipe_file_ops ∧ f_private f ≠ 0 ∧
        pipe_map s !! f_private f = Some st ∧ pipe_at s (f_private f) = st ∧
        has_flag f KFILE_PIPE_READ_ENDPOINT || has_flag f KFILE_PIPE_WRITE_ENDPOINT = true.
Proof.
  intros Hid Hh. pose proof (hp_files _ _ Hh) as [[Hn|(Hf & [st Hst] & Hfl)] _]%Forall_cons; [congruence|].
  exists st. split_and!; try done; [by eapply pipe_nonnull|]. unfold pipe_at. by rewrite Hst.
Qed.

Lemma is_end_self f bit : f_ops f = Some g_kpipe_file_ops → is_end (f_private f) bit f = has_flag f bit.
Proof. intros Hf. unfold is_end. rewrite bool_decide_true by done. by rewrite Z.eqb_refl. Qed.

Lemma is_end_other f p bit : f_private f ≠ p → is_end p bit f = false.
Proof. intros Hp. unfold is_end. rewrite (proj2 (Z.eqb_neq _ _) Hp). by rewrite andb_false_r. Qed.

Lemma is_end_none f p bit : f_ops f = None → is_end p bit f = false.
Proof. intros Hf. unfold is_end. by rewrite Hf. Qed.

Lemma known_file_mono s s' F :
  (∀ p, is_Some (pipe_map s !! p) → is_Some (pipe_map s' !! p)) →
  Forall (known_file s) F → Forall (known_file s') F.
Proof.
  intros Hm HF. eapply Forall_impl; [done|]. intros f [Hn|(? & Hp & ?)]; [by left|].
  right. split_and!; try done. by apply Hm.
Qed.

(** Changing the counts of one pipe to match a change of the files. *)
Lemma pipes_held_store F F' s p st :
  pipes_held F s → pipe_map s !! p = Some st →
  Forall (known_file s) F' →
  (∀ q bit, q ≠ p → ends q bit F' = ends q bit F) →
  ends p KFILE_PIPE_READ_ENDPOINT F' + ends p KFILE_PIPE_WRITE_ENDPOINT F' ≠ 0 →
  pipes_held F' (pipe_store p (with_refs st (ends p KFILE_PIPE_READ_ENDPOINT F')
                                            (ends p KFILE_PIPE_WRITE_ENDPOINT F')) s).
Proof.
  intros Hh Hst HF' Hq Hne. destruct (hp_pipes _ _ Hh p st Hst) as [Hwf _ _ _ Hb]. split; simpl.
  - apply Hh.
  - eapply known_file_mono, HF'. simpl. intros q Hqs. destruct (decide (q = p)) as [->|].
    + by rewrite lookup_insert_eq.
    + by rewrite lookup_insert_ne by done.
  - intros q st' Hst'. destruct (decide (q = p)) as [->|Hqp].
    + rewrite lookup_insert_eq in Hst'. injection Hst' as <-.
      split; simpl; try done. by apply with_refs_wf.
    + rewrite lookup_insert_ne in Hst' by done. destruct (hp_pipes _ _ Hh q st' Hst').
      split; rewrite ?Hq by done; done.
Qed.

Lemma kpipe_retain_held F f id s :
  f_ops f = Some id → alen (f :: F) + 1 < two32 → pipes_held (f :: F) s →
  ∃ s', kpipe_retain f s = (Ok tt, s') ∧ pipes_held (f :: f :: F) s'.
Proof.
  intros Hid Hb Hh. destruct (known_file_pipe F f id s Hid Hh) as (st & Hf & Hp & Hst & Hat & Hfl).
  pose proof (hp_pipes _ _ Hh _ _ Hst) as [_ Hr Hw _ _].
  pose proof (hp_files _ _ Hh) as [Hk HF]%Forall_cons.
  pose proof (ends_bounds (f_private f) KFILE_PIPE_READ_ENDPOINT (f :: F)).
  pose proof (ends_bounds (f_private f) KFILE_PIPE_WRITE_ENDPOINT (f :: F)).
  pose proof (ends_bounds (f_private f) KFILE_PIPE_READ_ENDPOINT F).
  pose proof (ends_bounds (f_private f) KFILE_PIPE_WRITE_ENDPOINT F).
  unfold kpipe_retain. rewrite (proj2 (Z.eqb_neq _ _) Hp), Hat. eexists. split; [reflexivity|].
  eassert (Heq : _ = with_refs st (ends (f_private f) KFILE_PIPE_READ_ENDPOINT (f :: f :: F))
                               (ends (f_private f) KFILE_PIPE_WRITE_ENDPOINT (f :: f :: F)));
    [|rewrite Heq; apply (pipes_held_store (f :: F)); try done].
  - cbn [ends foldr] in *. rewrite !is_end_self in * by done. unfold b2z in *.
    destruct (has_flag f KFILE_PIPE_READ_ENDPOINT), (has_flag f KFILE_PIPE_WRITE_ENDPOINT);
      cbn [reader_refs writer_refs with_refs]; rewrite ?add32_small by (unfold two32 in *; lia);
      unfold with_refs; simpl; try (f_equal; unfold ends in *; lia).
  - by repeat constructor.
  - intros q bit Hq. simpl. rewrite is_end_other by done. simpl. lia.
  - cbn [ends foldr] in *. rewrite !is_end_self in * by done. unfold b2z in *.
    destruct (has_flag f KFILE_PIPE_READ_ENDPOINT), (has_flag f KFILE_PIPE_WRITE_ENDPOINT);
      try done; unfold ends in *; lia.
Qed.

(** Dropping the last end of a pipe frees its block. *)
Lemma pipes_held_free F s p st f :
  pipes_held (f :: F) s → pipe_map s !! p = Some st → f_private f = p →
  ends p KFILE_PIPE_READ_ENDPOINT F + ends p KFILE_PIPE_WRITE_ENDPOINT F = 0 →
  pipes_held F (Pipes (kfree p (pipe_heap s)) (delete p (pipe_map s))).
Proof.
  intros Hh Hst Hfp Hz. pose proof (hp_files _ _ Hh) as [_ HF]%Forall_cons.
  destruct (kfree_cases (pipe_heap s) p (hp_heap _ _ Hh)) as (Hwf & _ & _ & Hlive & _).
  pose proof (ends_bounds p KFILE_PIPE_READ_ENDPOINT F).
  pose proof (ends_bounds p KFILE_PIPE_WRITE_ENDPOINT F).
  split; simpl; [done| |].
  - assert (Hno : ∀ g, g ∈ F → is_end p KFILE_PIPE_READ_ENDPOINT g = false ∧
                              is_end p KFILE_PIPE_WRITE_ENDPOINT g = false).
    { intros g (l & k & ->)%list_elem_of_split.
      assert (HP : l ++ g :: k ≡ₚ g :: l ++ k) by (symmetry; apply Permutation_middle).
      rewrite HP in Hz. simpl in Hz.
      pose proof (ends_bounds p KFILE_PIPE_READ_ENDPOINT (l ++ k)).
      pose proof (ends_bounds p KFILE_PIPE_WRITE_ENDPOINT (l ++ k)).
      unfold b2z in Hz. destruct (is_end p KFILE_PIPE_READ_ENDPOINT g), (is_end p KFILE_PIPE_WRITE_ENDPOINT g);
        try done; lia. }
    apply Forall_forall. intros g Hg. rewrite Forall_forall in HF.
    destruct (HF g Hg) as [Hn|(Hgp & Hs & Hfl)]; [by left|]. right. split_and!; try done. simpl.
    rewrite lookup_delete_ne; [done|]. intros ->.
    destruct (Hno g Hg) as [H1 H2]. rewrite !is_end_self in H1, H2 by done. by rewrite H1, H2 in Hfl.
  - intros q st' [Hqp Hst']%lookup_delete_Some.
    destruct (hp_pipes _ _ Hh q st' Hst') as [? Hr Hw ? (n & Hn & Hl)].
    simpl in Hr, Hw. rewrite !is_end_other in Hr, Hw by congruence. simpl in Hr, Hw.
    split; try done. exists n. split; [done|]. simpl. apply Hlive. split; [done|congruence].
Qed.

Lemma kpipe_close_held F f id s :
  f_ops f = Some id → pipes_held (f :: F) s → alen F < two32 →
  ∃ s', kpipe_close f s = (Ok tt, s') ∧ pipes_held F s'.
Proof.
  intros Hid Hh Hb. destruct (known_file_pipe F f id s Hid Hh) as (st & Hf & Hp & Hst & Hat & Hfl).
  pose proof (hp_pipes _ _ Hh _ _ Hst) as [_ Hr Hw _ _].
  pose proof (hp_files _ _ Hh) as [Hk HF]%Forall_cons.
  pose proof (ends_bounds (f_private f) KFILE_PIPE_READ_ENDPOINT F).
  pose proof (ends_bounds (f_private f) KFILE_PIPE_WRITE_ENDPOINT F).
  unfold kpipe_close. rewrite (proj2 (Z.eqb_neq _ _) Hp), Hat. cbv zeta.
  match goal with |- ∃ _, (if (reader_refs ?x =? 0) && _ then _ else _) = _ ∧ _ => set (st1 := x) end.
  assert (Heq : st1 = with_refs st (ends (f_private f) KFILE_PIPE_READ_ENDPOINT F)
                               (ends (f_private f) KFILE_PIPE_WRITE_ENDPOINT F)).
  { unfold st1. cbn [ends foldr] in Hr, Hw. rewrite is_end_self in Hr, Hw by done.
    fold (ends (f_private f) KFILE_PIPE_READ_ENDPOINT F) in Hr.
    fold (ends (f_private f) KFILE_PIPE_WRITE_ENDPOINT F) in Hw.
    revert Hr Hw. destruct (has_flag f KFILE_PIPE_READ_ENDPOINT), (has_flag f KFILE_PIPE_WRITE_ENDPOINT);
      intros Hr Hw; simpl in Hr, Hw; cbn [andb with_refs reader_refs writer_refs];
      rewrite ?(proj2 (Z.eqb_neq (reader_refs st) 0)), ?(proj2 (Z.eqb_neq (writer_refs st) 0)) by lia;
      cbn [negb with_refs reader_refs writer_refs];
      rewrite ?(proj2 (Z.eqb_neq (writer_refs st) 0)) by lia;
      rewrite ?sub32_small by (unfold two32 in *; lia); unfold with_refs; simpl; try (f_equal; lia). }
  rewrite Heq. cbn [reader_refs writer_refs with_refs].
  destruct (Z.eqb_spec (ends (f_private f) KFILE_PIPE_READ_ENDPOINT F) 0),
    (Z.eqb_spec (ends (f_private f) KFILE_PIPE_WRITE_ENDPOINT F) 0); cbn [andb];
    eexists; (split; [reflexivity|]).
  1: by eapply pipes_held_free; try done; lia.
  all: eapply (pipes_held_store (f :: F)); try done; try lia.
  all: intros q bit Hq; simpl; by rewrite is_end_other.
Qed.

Lemma pipes_held_none F f s :
  f_ops f = None → pipes_held F s ↔ pipes_held (f :: F) s.
Proof.
  intros Hn. assert (He : ∀ p bit, ends p bit (f :: F) = ends p bit F).
  { intros p bit. simpl. by rewrite is_end_none. }
  split; intros [? Hf Hp]; split; try done.
  - apply Forall_cons. split; [by left|done].
  - intros p st Hst. destruct (Hp p st Hst). split; rewrite ?He; done.
  - by apply Forall_cons in Hf as [_ ?].
  - intros p st Hst. destruct (Hp p st Hst). split; rewrite <- ?He; done.
Qed.

Definition pipe_system_held (F : list kfile) (s : pipes) : Prop := alen F < two32 ∧ pipes_held F s.

Section instances.
Variable wait : pipes → pipes.
Variable fuel : nat.

#[export] Instance pipe_ops_inst : FileOps pipes := pipe_ops wait fuel.

Lemma pipe_op_retain id retain :
  op_retain id = Some retain → id = g_kpipe_file_ops ∧ retain = kpipe_retain.
Proof. destruct id; simpl; try done. by intros [= <-]. Qed.

Lemma pipe_op_close id close :
  op_close id = Some close → id = g_kpipe_file_ops ∧ close = kpipe_close.
Proof. destruct id; simpl; try done. by intros [= <-]. Qed.

(** A held file without a [retain] or [close] function is a closed one. *)
Lemma held_no_op F f s :
  pipes_held (f :: F) s →
  f_ops f ≫= op_retain = None ∨ f_ops f ≫= op_close = None → f_ops f = None.
Proof.
  intros Hh Hn. pose proof (hp_files _ _ Hh) as [[?|(Hf & _)] _]%Forall_cons; [done|].
  rewrite Hf in Hn. by destruct Hn.
Qed.

#[export] Instance pipe_laws : FileLaws pipes.
Proof.
  refine {| held := pipe_system_held |}.
  - intros F G HFG s _ <-. unfold pipe_system_held, alen. by rewrite HFG.
  - intros id retain f F s Hid [_ ->]%pipe_op_retain Hb [Hl Hh].
    destruct (kpipe_retain_held F f id s Hid Hb Hh) as (s' & -> & Hs').
    split; [|done]. unfold alen in *. simpl in *. lia.
  - intros f F s Hn Hb [Hl Hh].
    assert (Hno : f_ops f = None) by (eapply held_no_op; [done|by left]).
    split; [unfold alen in *; simpl in *; lia|]. by apply (pipes_held_none (f :: F)).
  - intros id close f F s Hid [_ ->]%pipe_op_close [Hl Hh].
    assert (alen F < two32) by (unfold alen in *; simpl in *; lia).
    destruct (kpipe_close_held F f id s Hid Hh ltac:(done)) as (s' & Hc & Hs').
    exists s'. by split.
  - intros f F s Hn [Hl Hh].
    assert (Hno : f_ops f = None) by (eapply held_no_op; [done|by right]).
    split; [unfold alen in *; simpl in *; lia|]. by apply (pipes_held_none F f s).
Defined.
End instances.

Lemma ends_unknown F s p bit : Forall (known_file s) F → pipe_map s !! p = None → ends p bit F = 0.
Proof.
  intros HF Hp. induction HF as [|f F Hf HF IH]; [done|]. simpl. rewrite IH.
  destruct Hf as [Hn|(_ & Hs & _)]; [by rewrite is_end_none|].
  rewrite is_end_other; [done|]. intros <-. rewrite Hp in Hs. by destruct Hs.
Qed.

Lemma kpipe_create_cases F s :
  pipe_system_held F s → alen F + 2 < two32 →
  match kpipe_create s with
  | (Ok (r, w), s') =>
      pipe_system_held (r :: w :: F) s' ∧ f_private r = f_private w ∧
      pipe_map s !! f_private r = None ∧ contents (pipe_at s' (f_private r)) = [] ∧
      has_flag r KFILE_PIPE_READ_ENDPOINT = true ∧ has_flag w KFILE_PIPE_WRITE_ENDPOINT = true
  | (Err e, s') => e = KERR_NOMEM ∧ s' = s
  end.
Proof.
  intros [_ Hh] Hb. unfold kpipe_create.
  pose proof (kmalloc_cases (pipe_heap s) KPIPE_STATE_SIZE (hp_heap _ _ Hh)
    ltac:(unfold KPIPE_STATE_SIZE, two32; lia)) as Hm.
  destruct (kmalloc KPIPE_STATE_SIZE (pipe_heap s)) as [p h].
  destruct Hm as [Hwf [[-> ->]|Hfresh]]; [by destruct s|].
  destruct Hfresh as [Hp _ _ _ Hdis Hkept Hown].
  rewrite (proj2 (Z.eqb_neq p 0)) by done.
  rewrite decide_False in Hown by (unfold KPIPE_STATE_SIZE; lia). destruct Hown as (_ & n & Hn & Hl).
  assert (Hnew : pipe_map s !! p = None).
  { destruct (pipe_map s !! p) as [st|] eqn:E; [|done]. exfalso.
    destruct (ph_block _ _ _ _ (hp_pipes _ _ Hh p st E)) as (m & Hm & Hlm).
    pose proof (Hdis p m Hlm) as Hd. unfold disjoint_ranges, KPIPE_STATE_SIZE in *. lia. }
  cbn [f_private kfile_init]. split_and!; try done.
  - split; [unfold alen in *; simpl in *; lia|]. split; cbn [pipe_heap pipe_map pipe_store]; [done| |].
    + assert (Hs : is_Some (<[p:=with_refs pipe_zero 1 1]> (pipe_map s) !! p)) by by rewrite lookup_insert_eq.
      repeat (apply Forall_cons; split; [by right|]).
      eapply known_file_mono, (hp_files _ _ Hh). simpl. intros q Hq.
      rewrite lookup_insert_ne; [done|]. intros <-. rewrite Hnew in Hq. by destruct Hq.
    + intros q st Hst. destruct (decide (q = p)) as [->|Hqp].
      * rewrite lookup_insert_eq in Hst. injection Hst as <-.
        assert (He : ∀ bit, ends p bit F = 0) by (intros; eapply ends_unknown; [apply Hh|done]).
        split; [by apply pipe_zero_wf| | |done|by exists n]; cbn [ends foldr];
          fold (ends p KFILE_PIPE_READ_ENDPOINT F); fold (ends p KFILE_PIPE_WRITE_ENDPOINT F);
          rewrite He; unfold is_end; cbn [f_ops f_private kfile_init];
          rewrite bool_decide_true by done; by rewrite Z.eqb_refl.
      * rewrite lookup_insert_ne in Hst by done. destruct (hp_pipes _ _ Hh q st Hst) as [? Hr Hw ? (m & Hm & Hlm)].
        split; try done; [| |exists m; split; [done|by apply Hkept]];
          simpl; rewrite !is_end_other by (simpl; congruence); simpl; done.
  - unfold pipe_at. cbn [pipe_map pipe_store]. by rewrite lookup_insert_eq.
Qed.

(** The state of a closed pipe system: what is left when every end is closed. *)
Lemma no_files_no_pipes s : pipe_system_held [] s → pipe_map s = ∅.
Proof.
  intros [_ Hh]. apply map_empty. intros p. destruct (pipe_map s !! p) as [st|] eqn:E; [|done].
  destruct (hp_pipes _ _ Hh p st E) as [_ Hr Hw Hne _]. simpl in *. lia.
Qed.

(** A close either frees the block or stores the pipe with other counts. *)
Lemma kpipe_close_shape f s st :
  f_private f ≠ 0 → pipe_map s !! f_private f = Some st → pipe_at s (f_private f) = st →
  kpipe_close f s = (Ok tt, Pipes (kfree (f_private f) (pipe_heap s)) (delete (f_private f) (pipe_map s))) ∨
  ∃ st1, kpipe_close f s = (Ok tt, pipe_store (f_private f) st1 s) ∧
         st1 = with_refs st (reader_refs st1) (writer_refs st1).
Proof.
  intros Hp Hst Hat. unfold kpipe_close. rewrite (proj2 (Z.eqb_neq _ _) Hp), Hat. cbv zeta.
  match goal with |- context [if (reader_refs ?x =? 0) && _ then _ else _] => set (st1 := x) end.
  assert (Hs1 : st1 = with_refs st (reader_refs st1) (writer_refs st1)).
  { unfold st1. clear. destruct st. repeat case_match; done. }
  clearbody st1. destruct (_ && _); [by left|]. right. by exists st1.
Qed.

(** * Blocks

    Between [s0] and [s] no pipe has been made, and a pipe that is gone is gone with
    its block: the blocks of the heap in use are those that were in use but for the
    blocks of the pipes that are gone. *)
Record freed_with (s0 s : pipes) : Prop := FreedWith {
  fr_pipes p : is_Some (pipe_map s !! p) → is_Some (pipe_map s0 !! p);
  fr_blocks q n : live (pipe_heap s) q n ↔ live (pipe_heap s0) q n ∧ (is_Some (pipe_map s0 !! q) → is_Some (pipe_map s !! q))
}.

Lemma freed_with_refl s : freed_with s s.
Proof. split; [done|]. intros q n. tauto. Qed.

Lemma freed_with_store s0 s p st :
  freed_with s0 s → is_Some (pipe_map s !! p) → freed_with s0 (pipe_store p st s).
Proof.
  intros [Hp Hb] Hs. assert (Hd : ∀ q, is_Some (pipe_map (pipe_store p st s) !! q) ↔ is_Some (pipe_map s !! q)).
  { intros q. simpl. destruct (decide (q = p)) as [->|]; [rewrite lookup_insert_eq; by split|by rewrite lookup_insert_ne]. }
  split; [intros q; rewrite Hd; apply Hp|]. intros q n. rewrite Hd. apply Hb.
Qed.

Lemma freed_with_free s0 s p :
  freed_with s0 s → heap_wf (pipe_heap s) → is_Some (pipe_map s !! p) →
  freed_with s0 (Pipes (kfree p (pipe_heap s)) (delete p (pipe_map s))).
Proof.
  intros [Hp Hb] Hwf Hs. destruct (kfree_cases (pipe_heap s) p Hwf) as (_ & _ & _ & Hlive & _). split; simpl.
  - intros q [st [_ Hq]%lookup_delete_Some]. apply Hp. by eexists.
  - intros q n. rewrite Hlive, Hb. destruct (decide (q = p)) as [->|Hne].
    + rewrite lookup_delete_eq. specialize (Hp p Hs). split; [tauto|]. intros [_ H]. by destruct (H Hp).
    + rewrite lookup_delete_ne by done. tauto.
Qed.

Lemma retain_freed_with s0 s f F id :
  f_ops f = Some id → pipes_held (f :: F) s → freed_with s0 s → freed_with s0 (snd (kpipe_retain f s)).
Proof.
  intros Hid Hh Hfr. destruct (known_file_pipe F f id s Hid Hh) as (st & _ & Hp & Hst & _).
  unfold kpipe_retain. rewrite (proj2 (Z.eqb_neq _ _) Hp). apply freed_with_store; [done|by eexists].
Qed.

Lemma close_freed_with s0 s f F id :
  f_ops f = Some id → pipes_held (f :: F) s → freed_with s0 s → freed_with s0 (snd (kpipe_close f s)).
Proof.
  intros Hid Hh Hfr. destruct (known_file_pipe F f id s Hid Hh) as (st & _ & Hp & Hst & Hat & _).
  destruct (kpipe_close_shape f s st Hp Hst Hat) as [->|(st1 & -> & _)]; cbn [snd].
  - apply freed_with_free; [done|apply Hh|by eexists].
  - apply freed_with_store; [done|by eexists].
Qed.

(** The laws, with the blocks since [s0]. *)
Definition blocks_held (s0 : pipes) (F : list kfile) (s : pipes) : Prop := pipe_system_held F s ∧ freed_with s0 s.

Definition blocks_laws (wait : pipes → pipes) (fuel : nat) (s0 : pipes) : @FileLaws pipes (pipe_ops_inst wait fuel).
Proof.
  refine {| held := blocks_held s0 |}.
  - intros F G HFG s _ <-. unfold blocks_held, pipe_system_held, alen. by rewrite HFG.
  - intros id retain f F s Hid Hr Hb [Hh Hfr]. pose proof (@held_retain _ _ (pipe_laws wait fuel) id retain f F s Hid Hr Hb Hh) as H.
    apply pipe_op_retain in Hr as [_ ->]. pose proof (retain_freed_with s0 s f F id Hid (proj2 Hh) Hfr) as Hf.
    destruct (kpipe_retain f s) as [[u|e] s']; by split.
  - intros f F s Hn Hb [Hh Hfr]. split; [|done]. exact (@held_copy _ _ (pipe_laws wait fuel) f F s Hn Hb Hh).
  - intros id close f F s Hid Hc [Hh Hfr]. destruct (@held_close _ _ (pipe_laws wait fuel) id close f F s Hid Hc Hh) as (s' & E & Hh').
    apply pipe_op_close in Hc as [_ ->]. pose proof (close_freed_with s0 s f F id Hid (proj2 Hh) Hfr) as Hf. rewrite E in Hf.
    exists s'. by split.
  - intros f F s Hn [Hh Hfr]. split; [|done]. exact (@held_drop _ _ (pipe_laws wait fuel) f F s Hn Hh).
Defined.

(** A pipe in the map has an end among the files. *)
Lemma pipe_has_end F s p :
  pipe_system_held F s → is_Some (pipe_map s !! p) ↔ ∃ f, f ∈ F ∧ f_ops f = Some g_kpipe_file_ops ∧ f_private f = p.
Proof.
  intros [_ Hh]. split.
  - intros [st Hst]. destruct (hp_pipes _ _ Hh p st Hst) as [_ Hr Hw Hne _]. rewrite Hr, Hw in Hne.
    assert (Hsome : ∀ bit, ends p bit F ≠ 0 → ∃ f, f ∈ F ∧ is_end p bit f = true).
    { clear. intros bit. induction F as [|f F IH]; [done|]. cbn [ends foldr]. destruct (is_end p bit f) eqn:E.
      - intros _. exists f. split; [by left|done].
      - intros H. destruct IH as (g & Hg & He); [exact H|]. exists g. split; [by right|done]. }
    assert (∃ bit f, f ∈ F ∧ is_end p bit f = true) as (bit & f & Hin & He).
    { destruct (decide (ends p KFILE_PIPE_READ_ENDPOINT F = 0)) as [E|E]; [exists KFILE_PIPE_WRITE_ENDPOINT|exists KFILE_PIPE_READ_ENDPOINT];
        apply Hsome; lia. }
    exists f. split; [done|]. unfold is_end in He. apply andb_true_iff in He as [[Ho%bool_decide_eq_true Hp%Z.eqb_eq]%andb_true_iff _]. done.
  - intros (f & Hin & Ho & <-). pose proof (hp_files _ _ Hh) as HF. rewrite Forall_forall in HF.
    destruct (HF f Hin) as [Hn|(_ & Hs & _)]; [by rewrite Hn in Ho|done].
Qed.

(** * Blocking calls *)

Lemma pipe_at_store p st s : pipe_at (pipe_store p st s) p = st.
Proof. unfold pipe_at, pipe_store. simpl. by rewrite lookup_insert_eq. Qed.

(** Readers that leave room between two sections of a write. *)
Definition drains (wait : pipes → pipes) (p : Z) : Prop :=
  ∀ s, pipe_wf (pipe_at s p) → reader_refs (pipe_at s p) ≠ 0 →
       pipe_wf (pipe_at (wait s) p) ∧ reader_refs (pipe_at (wait s) p) ≠ 0 ∧
       used (pipe_at (wait s) p) < KPIPE_CAPACITY.

Lemma write_loop_completes wait fuel p src total s :
  drains wait p → pipe_wf (pipe_at s p) → reader_refs (pipe_at s p) ≠ 0 →
  used (pipe_at s p) < KPIPE_CAPACITY → (length src < fuel)%nat →
  0 ≤ total → total + alen src < two32 →
  ∃ s', write_loop wait fuel p src total s = Some (Ok tt, total + alen src, s').
Proof.
  intros Hw. revert src total s. induction fuel as [|fuel IH]; intros src total s Hwf Hrd Hu Hf Ht Hb; [lia|].
  destruct src as [|b src].
  { exists s. simpl. unfold alen. simpl. by rewrite Z.add_0_r. }
  cbn [write_loop]. pose proof (write_section_cases (b :: src) (pipe_at s p) Hwf) as Hc.
  destruct (write_section (b :: src) (pipe_at s p)) as [[rest|e] st]; [|by destruct Hc as (_ & _ & _ & ? & _)].
  destruct Hc as (Hwf' & [Hr' _] & _ & d & Hd & _ & Hld).
  assert (Hlen : alen (b :: src) = alen d + alen rest).
  { rewrite Hd. unfold alen. rewrite length_app. lia. }
  pose proof (alen_nonneg rest).
  assert (0 < alen d) by (unfold alen in *; simpl in *; lia).
  replace (alen (b :: src) - alen rest) with (alen d) by lia.
  rewrite add32_small by lia. rewrite Hlen. replace (total + (alen d + alen rest)) with (total + alen d + alen rest) by lia.
  destruct rest as [|b' rest].
  - exists (pipe_store p st s). destruct fuel; simpl; unfold alen; simpl; by rewrite Z.add_0_r.
  - destruct (Hw (pipe_store p st s)) as (? & ? & ?); [by rewrite pipe_at_store|rewrite pipe_at_store; congruence|].
    apply IH; try done; try lia.
    assert (Hn : (length (b' :: rest) < length (b :: src))%nat).
    { rewrite Hd, length_app. unfold alen in *. simpl in *. lia. }
    lia.
Qed.

Lemma read_loop_returns wait p len s k :
  0 < len → is_Some (pipe_map s !! p) →
  (∀ j, (j ≤ k)%nat → pipe_wf (pipe_at (Nat.iter j wait s) p) ∧ is_Some (pipe_map (Nat.iter j wait s) !! p)) →
  (∀ j, (j < k)%nat → contents (pipe_at (Nat.iter j wait s) p) = [] ∧
                      writer_refs (pipe_at (Nat.iter j wait s) p) ≠ 0) →
  (contents (pipe_at (Nat.iter k wait s) p) ≠ [] ∨ writer_refs (pipe_at (Nat.iter k wait s) p) = 0) →
  ∃ s', read_loop wait (S k) p len s =
        Some (Ok (take (Z.to_nat len) (contents (pipe_at (Nat.iter k wait s) p))), s').
Proof.
  intros Hlen. revert s. induction k as [|k IH]; intros s Hm Hwf Hblk Hend; cbn [read_loop].
  - destruct (Hwf O ltac:(lia)) as [Hwf0 _]. change (Nat.iter 0 wait s) with s in *.
    pose proof (read_section_cases len (pipe_at s p) Hwf0 Hlen) as Hc.
    destruct (read_section len (pipe_at s p)) as [[bs|] st].
    + destruct Hc as (Hwf' & _ & Hc & Hl & _). eexists. replace (take _ _) with bs; [reflexivity|]. rewrite Hc.
      pose proof (contents_length _ Hwf0) as Hcl. pose proof (alen_nonneg (contents st)).
      assert (Hcat : alen (contents (pipe_at s p)) = alen bs + alen (contents st)).
      { rewrite Hc. unfold alen. rewrite length_app. lia. }
      destruct (Z.lt_ge_cases len (used (pipe_at s p))).
      * rewrite take_app_length'; [done|]. unfold alen in *. lia.
      * assert (Hz : contents st = []) by (apply length_zero_iff_nil; unfold alen in *; lia).
        rewrite Hz, app_nil_r, take_ge; [done|]. unfold alen in *. lia.
    + destruct Hc as (_ & _ & Hc & _ & Hw). by destruct Hend.
  - destruct (Hwf O ltac:(lia)) as [Hwf0 [st0 Hst0]]. destruct (Hblk O ltac:(lia)) as [Hc0 Hw0].
    change (Nat.iter 0 wait s) with s in *.
    pose proof (read_section_cases len (pipe_at s p) Hwf0 Hlen) as Hc.
    destruct (read_section len (pipe_at s p)) as [[bs|] st].
    + exfalso. destruct Hc as (_ & _ & Hc & _ & He). rewrite Hc0 in Hc.
      destruct bs; [|done]. by destruct (He eq_refl).
    + destruct Hc as (_ & _ & _ & -> & _).
      assert (Hid : pipe_store p (pipe_at s p) s = s).
      { unfold pipe_store, pipe_at. rewrite Hst0. simpl. rewrite insert_id by done. by destruct s. }
      rewrite Hid.
      assert (Hit : ∀ j, Nat.iter j wait (wait s) = Nat.iter (S j) wait s).
      { intros j. by rewrite Nat.iter_succ_r. }
      destruct (IH (wait s)) as [s' Hs']; [apply (Hwf 1%nat); lia| | |by rewrite Hit|].
      * intros j Hj. rewrite Hit. apply Hwf. lia.
      * intros j Hj. rewrite Hit. apply Hblk. lia.
      * exists s'. cbn [read_loop] in Hs'. rewrite Hs'. by rewrite Hit.
Qed.

(** * Properties *)

(** C22: Whatever the order in which tasks run the critical sections of their
    reads and writes, and however ends are opened and closed meanwhile, the
    bytes delivered to readers followed by the bytes in the buffer are exactly
    the bytes accepted from writers, in order: the pipe never loses,
    duplicates or reorders a byte, and buffers at most 512. *)
Theorem pipe_fifo rd wr r :
  rtc pipe_step (Run (with_refs pipe_zero rd wr) [] []) r →
  sent r = received r ++ contents (ring r) ∧ alen (contents (ring r)) ≤ KPIPE_CAPACITY.
Proof.
  intros Hr.
  assert (Hok : stream_ok r).
  { remember (Run (with_refs pipe_zero rd wr) [] []) as r0 eqn:E.
    assert (H0 : stream_ok r0) by (subst; split; [apply pipe_zero_wf|done]).
    clear E. induction Hr as [|r1 r2 r3 Hstep _ IH]; [done|]. apply IH. by eapply pipe_step_stream_ok. }
  destruct Hok as [Hwf Hs]. split; [done|]. rewrite contents_length by done. apply Hwf.
Qed.

Lemma pipe_fifo_witness :
  let r := Run (snd (ring_take 2 (snd (ring_put [7; 8; 9] (with_refs pipe_zero 1 1))))) [7; 8; 9] [7; 8] in
  rtc pipe_step (Run (with_refs pipe_zero 1 1) [] []) r ∧
  sent r = received r ++ contents (ring r) ∧ contents (ring r) = [9].
Proof.
  cbv zeta.
  assert (Hrtc : rtc pipe_step (Run (with_refs pipe_zero 1 1) [] [])
    (Run (snd (ring_take 2 (snd (ring_put [7; 8; 9] (with_refs pipe_zero 1 1))))) [7; 8; 9] [7; 8])).
  { eapply rtc_l; [apply (step_write [7; 8; 9] _ (snd (ring_put [7; 8; 9] (with_refs pipe_zero 1 1))) [7; 8; 9] []);
      [reflexivity|vm_compute; reflexivity]|].
    eapply rtc_l; [eapply (step_read 2 _ _ [7; 8]); [lia|vm_compute; reflexivity]|].
    vm_compute. apply rtc_refl. }
  split; [exact Hrtc|]. split; [|vm_compute; reflexivity]. apply (pipe_fifo 1 1 _ Hrtc).
Defined.

(** A write to a pipe with a reader that keeps taking bytes completes:
    it returns success with [*out_written] the whole length, within as many
    rounds as there are bytes (plus one), so [kpipe_write] never loops for
    good against a live reader and never reports a short write as success. *)
Theorem kpipe_write_completes wait f bs len s :
  f_private f ≠ 0 → has_flag f KFILE_PIPE_WRITE_ENDPOINT = true →
  alen bs = len → 0 < len < two32 →
  drains wait (f_private f) → pipe_wf (pipe_at s (f_private f)) →
  reader_refs (pipe_at s (f_private f)) ≠ 0 → used (pipe_at s (f_private f)) < KPIPE_CAPACITY →
  ∃ s', kpipe_write wait (S (Z.to_nat len)) f (Some bs) len s = Some (Ok tt, len, f, s').
Proof.
  intros Hp Hfl Hl Hlen Hd Hwf Hr Hu. unfold kpipe_write.
  rewrite (proj2 (Z.eqb_neq _ _) Hp), Hfl, (proj2 (Z.eqb_neq len 0)) by lia.
  rewrite bool_decide_true by by eexists. cbn [orb andb negb].
  change (default [] (Some bs)) with bs. rewrite take_ge by (unfold alen in *; lia).
  destruct (write_loop_completes wait (S (Z.to_nat len)) (f_private f) bs 0 s Hd Hwf Hr Hu) as [s' Hs'];
    [unfold alen in *; lia|lia|lia|].
  exists s'. rewrite Hs'. cbn [mbind option_bind]. by rewrite Z.add_0_l, Hl.
Qed.

(** A reader that takes up to 100 bytes whenever a writer sleeps. *)
Definition reader_of (p : Z) (s : pipes) : pipes :=
  pipe_store p (snd (read_section 100 (pipe_at s p))) s.

Lemma reader_of_drains p : drains (reader_of p) p.
Proof.
  intros s Hwf Hr. unfold reader_of. rewrite pipe_at_store.
  pose proof (read_section_cases 100 (pipe_at s p) Hwf ltac:(lia)) as Hc.
  pose proof (contents_length _ Hwf) as Hl. pose proof (pw_used _ Hwf).
  destruct (read_section 100 (pipe_at s p)) as [[bs|] st]; simpl;
    destruct Hc as (Hwf' & [Hrr _] & Hc); (split; [done|]; split; [congruence|]);
    pose proof (contents_length _ Hwf') as Hl'.
  - destruct Hc as (Hc & Hbs & _). rewrite Hc in Hl. unfold alen in *. rewrite length_app in Hl.
    unfold KPIPE_CAPACITY in *. lia.
  - destruct Hc as (Hc & -> & _). rewrite Hc in Hl. unfold alen in Hl. simpl in Hl.
    unfold KPIPE_CAPACITY in *. lia.
Qed.

Definition demo_pipes : pipes := Pipes demo_heap ∅.

(** The pipe of [kpipe_create] in an empty system, its ends and its state. *)
Definition demo_read_end : kfile := KFile (Some g_kpipe_file_ops) None 1110016 0 1.
Definition demo_write_end : kfile := KFile (Some g_kpipe_file_ops) None 1110016 0 2.
Definition demo_pipes1 : pipes := snd (kpipe_create demo_pipes).

Lemma demo_pipes_held : pipe_system_held [] demo_pipes.
Proof. split; [done|]. split; [exact demo_heap_wf|constructor|done]. Qed.

Lemma demo_create : kpipe_create demo_pipes = (Ok (demo_read_end, demo_write_end), demo_pipes1).
Proof. vm_compute. reflexivity. Qed.

Lemma demo_pipes1_held : pipe_system_held [demo_read_end; demo_write_end] demo_pipes1.
Proof.
  pose proof (kpipe_create_cases [] demo_pipes demo_pipes_held ltac:(done)) as Hc.
  rewrite demo_create in Hc. apply Hc.
Qed.

Lemma demo_pipe_state : pipe_at demo_pipes1 1110016 = with_refs pipe_zero 1 1.
Proof. vm_compute. reflexivity. Qed.

Lemma kpipe_write_completes_witness :
  let bs := replicate 1000 65 in
  ∃ s', kpipe_write (reader_of 1110016) 1001 demo_write_end (Some bs) 1000 demo_pipes1 =
        Some (Ok tt, 1000, demo_write_end, s').
Proof.
  cbv zeta. change 1001%nat with (S (Z.to_nat 1000)).
  apply (kpipe_write_completes (reader_of 1110016) demo_write_end);
    change (f_private demo_write_end) with 1110016; rewrite ?demo_pipe_state.
  - done.
  - done.
  - reflexivity.
  - by unfold two32.
  - apply reader_of_drains.
  - apply pipe_zero_wf.
  - done.
  - done.
Defined.

(** A read returns at the first moment the pipe has bytes or has lost its
    last writer, with as many of the oldest bytes as fit ([] being end of
    file), however long it was blocked; it never returns empty-handed while a
    writer exists. *)
Theorem kpipe_read_returns wait f len s k :
  let p := f_private f in
  p ≠ 0 → has_flag f KFILE_PIPE_READ_ENDPOINT = true → 0 < len →
  (∀ j, (j ≤ k)%nat → pipe_wf (pipe_at (Nat.iter j wait s) p) ∧ is_Some (pipe_map (Nat.iter j wait s) !! p)) →
  (∀ j, (j < k)%nat → contents (pipe_at (Nat.iter j wait s) p) = [] ∧
                      writer_refs (pipe_at (Nat.iter j wait s) p) ≠ 0) →
  (contents (pipe_at (Nat.iter k wait s) p) ≠ [] ∨ writer_refs (pipe_at (Nat.iter k wait s) p) = 0) →
  ∃ s', kpipe_read wait (S k) f true len s =
        Some (Ok (take (Z.to_nat len) (contents (pipe_at (Nat.iter k wait s) p))), f, s').
Proof.
  intros p Hp Hfl Hlen Hwf Hblk Hend. unfold kpipe_read. fold p.
  rewrite (proj2 (Z.eqb_neq _ _) Hp), Hfl, (proj2 (Z.eqb_neq len 0)) by lia. cbn [orb andb negb].
  destruct (read_loop_returns wait p len s k Hlen) as [s' Hs']; try done.
  { apply (Hwf O). lia. }
  exists s'. by rewrite Hs'.
Qed.

(** A writer that puts one byte whenever a reader sleeps. *)
Definition writer_of (p : Z) (s : pipes) : pipes :=
  pipe_store p (snd (write_section [65] (pipe_at s p))) s.

Lemma kpipe_read_returns_witness :
  ∃ s', kpipe_read (writer_of 1110016) 2 demo_read_end true 10 demo_pipes1 =
        Some (Ok [65], demo_read_end, s').
Proof.
  pose proof (kpipe_read_returns (writer_of 1110016) demo_read_end 10 demo_pipes1 1) as H.
  cbv zeta in H. change (f_private demo_read_end) with 1110016 in H.
  assert (H0 : pipe_wf (pipe_at demo_pipes1 1110016)) by (rewrite demo_pipe_state; apply pipe_zero_wf).
  apply H; clear H; try done.
  - intros j Hj. destruct j as [|[|j]]; [split; [exact H0|by vm_compute; eexists]| |lia].
    cbn [Nat.iter nat_rect]. unfold writer_of. rewrite pipe_at_store.
    split; [|unfold pipe_store; cbn [pipe_map]; by rewrite lookup_insert_eq].
    pose proof (write_section_cases [65] _ H0) as Hc.
    destruct (write_section [65] (pipe_at demo_pipes1 1110016)). apply Hc.
  - intros j Hj. assert (j = O) as -> by lia. by vm_compute.
  - left. by vm_compute.
Defined.

(** The endpoints of a new pipe are the only references to it, its buffer
    is empty and its block is disjoint from every other pipe's; when the heap
    is full the call fails with [-KERR_NOMEM] and changes nothing. *)
Theorem kpipe_create_spec F s :
  pipe_system_held F s → alen F + 2 < two32 →
  match kpipe_create s with
  | (Ok (r, w), s') =>
      pipe_system_held (r :: w :: F) s' ∧ f_private r = f_private w ∧
      pipe_map s !! f_private r = None ∧ contents (pipe_at s' (f_private r)) = [] ∧
      has_flag r KFILE_PIPE_READ_ENDPOINT = true ∧ has_flag w KFILE_PIPE_WRITE_ENDPOINT = true
  | (Err e, s') => e = KERR_NOMEM ∧ s' = s
  end.
Proof. exact (kpipe_create_cases F s). Qed.

Lemma kpipe_create_spec_witness :
  is_ok (fst (kpipe_create demo_pipes)) = true ∧
  match kpipe_create demo_pipes with
  | (Ok (r, w), s') =>
      pipe_system_held [r; w] s' ∧ f_private r = f_private w ∧
      pipe_map demo_pipes !! f_private r = None ∧ contents (pipe_at s' (f_private r)) = [] ∧
      has_flag r KFILE_PIPE_READ_ENDPOINT = true ∧ has_flag w KFILE_PIPE_WRITE_ENDPOINT = true
  | (Err e, s') => e = KERR_NOMEM ∧ s' = demo_pipes
  end.
Proof.
  split; [vm_compute; reflexivity|].
  apply (kpipe_create_spec [] demo_pipes); [exact demo_pipes_held|reflexivity].
Defined.

(** Closing an end drops exactly one reference: the pipe and its buffered
    bytes stay for the ends that remain, and when the last end of either kind
    goes the pipe is removed and its heap block freed, once. *)
Theorem kpipe_close_spec F f s :
  f_ops f = Some g_kpipe_file_ops → pipe_system_held (f :: F) s →
  let p := f_private f in
  let last := ends p KFILE_PIPE_READ_ENDPOINT F + ends p KFILE_PIPE_WRITE_ENDPOINT F =? 0 in
  ∃ s', kpipe_close f s = (Ok tt, s') ∧ pipe_system_held F s' ∧
  (∀ q, pipe_map s' !! q =
        if decide (q = p) then
          if last then None
          else Some (with_refs (pipe_at s p) (ends p KFILE_PIPE_READ_ENDPOINT F)
                                             (ends p KFILE_PIPE_WRITE_ENDPOINT F))
        else pipe_map s !! q) ∧
  (∀ q n, live (pipe_heap s') q n ↔ live (pipe_heap s) q n ∧ (last = true → q ≠ p)).
Proof.
  intros Hf [Hl Hh] p last.
  assert (Hb : alen F < two32) by (unfold alen in *; simpl in *; lia).
  destruct (kpipe_close_held F f _ s Hf Hh Hb) as (s' & Hc & Hs').
  exists s'. split; [done|]. split; [done|].
  destruct (known_file_pipe F f _ s Hf Hh) as (st & _ & Hp & Hst & Hat & _). fold p in Hp, Hst, Hat.
  destruct (kfree_cases (pipe_heap s) p (hp_heap _ _ Hh)) as (_ & _ & _ & Hlive & _).
  pose proof (ends_bounds p KFILE_PIPE_READ_ENDPOINT F).
  pose proof (ends_bounds p KFILE_PIPE_WRITE_ENDPOINT F).
  destruct (kpipe_close_shape f s st) as [Hd|(st1 & Hd & Hrb)]; [done|done|done| |];
    rewrite Hc in Hd; injection Hd as ->; fold p in Hs' |- *.
  - assert (Hlast : last = true).
    { unfold last. apply Z.eqb_eq. pose proof (lookup_delete_eq (pipe_map s) p) as E.
      rewrite !(ends_unknown F _ p _ (hp_files _ _ Hs') E). done. }
    rewrite Hlast. split; simpl.
    + intros q. case_decide as Hq; [subst; by rewrite lookup_delete_eq|]. by rewrite lookup_delete_ne.
    + intros q n. rewrite Hlive. intuition.
  - assert (Hm : pipe_map (pipe_store p st1 s) !! p = Some st1) by (simpl; by rewrite lookup_insert_eq).
    destruct (hp_pipes _ _ Hs' p st1 Hm) as [_ Hr Hw Hnz _].
    assert (Hlast : last = false) by (unfold last; apply Z.eqb_neq; lia).
    rewrite Hlast. split; simpl; [|intros q n; split; [by intros Hl'; split|by intros [? _]]].
    intros q. case_decide as Hq; [subst q|by rewrite lookup_insert_ne].
    rewrite lookup_insert_eq, Hat, <- Hr, <- Hw. by rewrite <- Hrb.
Qed.

Lemma kpipe_close_spec_witness :
  let s1 := snd (kpipe_close demo_read_end demo_pipes1) in
  pipe_system_held [demo_write_end] s1 ∧
  ∃ s', kpipe_close demo_write_end s1 = (Ok tt, s') ∧ pipe_system_held [] s'.
Proof.
  cbv zeta.
  destruct (kpipe_close_spec [demo_write_end] demo_read_end demo_pipes1 eq_refl demo_pipes1_held)
    as (s1 & H1 & Hh1 & _).
  rewrite H1. cbn [snd]. split; [exact Hh1|].
  destruct (kpipe_close_spec [] demo_write_end s1 eq_refl Hh1) as (s' & H2 & Hh2 & _).
  exists s'. split; [exact H2|exact Hh2].
Defined.
