(* ===== verification/ProcFd.v ===== *)
(** kernel/proc_fd.c: per-process descriptor tables.

    A table is its list of [PROC_FD_MAX] slots; [&table->slots[fd].file] is the
    number [fd].  The operations are written over any backend ([FileOps]), the
    theorems hold for every backend that keeps the laws of [FileLaws]: each
    descriptor in use holds exactly one reference, so no operation leaks one or
    drops one twice. *)

From S2P Require Import Prelude Kmalloc KFile KPipe.

Definition PROC_FD_MAX : Z := 16.
Definition PROC_FD_DYNAMIC_MIN : Z := 3.

Record proc_fd_slot := Slot { in_use : bool; file : kfile }.

Definition free_slot : proc_fd_slot := Slot false kfile_reset.

#[export] Instance proc_fd_slot_inhabited : Inhabited proc_fd_slot := populate free_slot.

Definition proc_fd_table := list proc_fd_slot.

Definition proc_fd_table_init : proc_fd_table := replicate 16 free_slot.

(** [&table->slots[fd]]; descriptors are unsigned. *)
Definition proc_fd_slot_for (fd : Z) : res Z :=
  if PROC_FD_MAX <=? fd then Err KERR_INVAL else Ok fd.

Definition proc_fd_get (t : proc_fd_table) (fd : Z) : res Z :=
  try! i := proc_fd_slot_for fd in
  if negb (in_use t.[i]) then Err KERR_NOENT else Ok i.

Section ops.
Context {σ : Type} `{!FileOps σ}.
Implicit Types (t : proc_fd_table) (s : σ).

(** The second component is [*out_file]. *)
Definition proc_fd_install t (fd : Z) (src_file : kfile) s
    : res unit * option Z * proc_fd_table * σ :=
  match proc_fd_slot_for fd with
  | Err e => (Err e, None, t, s)
  | Ok i =>
      if in_use t.[i] then (Err KERR_INVAL, Some i, t, s)
      else
        match kfile_clone src_file s with
        | (Err e, s) => (Err e, None, t, s)
        | (Ok cloned, s) => (Ok tt, Some i, t.[i <- Slot true cloned], s)
        end
  end.

(** [Ok fd]: [*out_fd] and [*out_file]. *)
Definition proc_fd_alloc t (fd_min : Z) (src_file : kfile) s : res Z * proc_fd_table * σ :=
  if PROC_FD_MAX <=? fd_min then (Err KERR_INVAL, t, s)
  else
    match kfile_clone src_file s with
    | (Err e, s) => (Err e, t, s)
    | (Ok cloned, s) =>
        match search_range fd_min PROC_FD_MAX (λ fd, if in_use t.[fd] then None else Some fd) with
        | Some fd => (Ok fd, t.[fd <- Slot true cloned], s)
        | None => let '(_, _, s) := kfile_close cloned s in (Err KERR_NOMEM, t, s)
        end
    end.

Definition proc_fd_close t (fd : Z) s : res unit * proc_fd_table * σ :=
  match proc_fd_slot_for fd with
  | Err e => (Err e, t, s)
  | Ok i =>
      if negb (in_use t.[i]) then (Err KERR_NOENT, t, s)
      else
        match kfile_close (file t.[i]) s with
        | (Err e, f, s) => (Err e, t.[i <- Slot true f], s)
        | (Ok _, _, s) => (Ok tt, t.[i <- free_slot], s)
        end
  end.

Definition proc_fd_dup t (oldfd fd_min : Z) s : res Z * proc_fd_table * σ :=
  match proc_fd_slot_for oldfd with
  | Err e => (Err e, t, s)
  | Ok i =>
      if negb (in_use t.[i]) then (Err KERR_NOENT, t, s)
      else proc_fd_alloc t fd_min (file t.[i]) s
  end.

Definition proc_fd_dup2 t (oldfd newfd : Z) s : res Z * proc_fd_table * σ :=
  match proc_fd_slot_for oldfd with
  | Err e => (Err e, t, s)
  | Ok i =>
      match proc_fd_slot_for newfd with
      | Err e => (Err e, t, s)
      | Ok j =>
          if negb (in_use t.[i]) then (Err KERR_NOENT, t, s)
          else if oldfd =? newfd then (Ok j, t, s)
          else
            match kfile_clone (file t.[i]) s with
            | (Err e, s) => (Err e, t, s)
            | (Ok cloned, s) =>
                match (if in_use t.[j] then kfile_close (file t.[j]) s
                       else (Ok tt, file t.[j], s)) with
                | (Err e, f, s) =>
                    let '(_, _, s) := kfile_close cloned s in
                    (Err e, t.[j <- Slot true f], s)
                | (Ok _, _, s) => (Ok j, t.[j <- Slot true cloned], s)
                end
            end
      end
  end.

(** One round of the loop of [proc_fd_close_all]. *)
Definition close_slot (fd : Z) (st : Z * proc_fd_table * σ) : Z * proc_fd_table * σ :=
  let '(closed, t, s) := st in
  if negb (in_use t.[fd]) then (closed, t, s)
  else
    let '(rc, _, s) := kfile_close (file t.[fd]) s in
    (if is_ok rc then add32 closed 1 else closed, t.[fd <- free_slot], s).

Definition proc_fd_close_all t s : Z * proc_fd_table * σ :=
  for_range 0 PROC_FD_MAX close_slot (0, t, s).

(** The loop of [proc_fd_table_clone] over the descriptors [fds]. *)
Fixpoint clone_slots (src : proc_fd_table) (fds : list Z) (dst : proc_fd_table) s
    : res unit * proc_fd_table * σ :=
  match fds with
  | [] => (Ok tt, dst, s)
  | fd :: fds' =>
      if negb (in_use src.[fd]) then clone_slots src fds' dst s
      else
        match kfile_clone (file src.[fd]) s with
        | (Err e, s) =>
            let '(_, dst, s) := proc_fd_close_all dst s in (Err e, dst, s)
        | (Ok cloned, s) => clone_slots src fds' dst.[fd <- Slot true cloned] s
        end
  end.

Definition proc_fd_table_clone (src : proc_fd_table) s : res unit * proc_fd_table * σ :=
  clone_slots src (seqZ 0 PROC_FD_MAX) proc_fd_table_init s.
End ops.

(** * The files a table holds *)

Implicit Types t : proc_fd_table.

Fixpoint table_files (t : proc_fd_table) : list kfile :=
  match t with
  | [] => []
  | sl :: t' => if in_use sl then file sl :: table_files t' else table_files t'
  end.

Definition table_wf (t : proc_fd_table) : Prop := alen t = PROC_FD_MAX.

Definition slot_in_table (fd : Z) : Prop := 0 ≤ fd < PROC_FD_MAX.

Lemma table_files_app t t' : table_files (t ++ t') = table_files t ++ table_files t'.
Proof. induction t as [|sl t IH]; simpl; [done|]. destruct (in_use sl); simpl; by rewrite IH. Qed.

Lemma table_split t fd :
  0 ≤ fd < alen t → ∃ l k, t = l ++ t.[fd] :: k ∧ alen l = fd.
Proof.
  intros Hfd. exists (take (Z.to_nat fd) t), (drop (S (Z.to_nat fd)) t). split.
  - symmetry. apply take_drop_middle. by apply aget_lookup.
  - unfold alen in *. rewrite length_take. lia.
Qed.

Lemma table_files_set t fd sl :
  0 ≤ fd < alen t →
  table_files t.[fd <- sl] ≡ₚ
  (if in_use sl then [file sl] else []) ++ table_files t.[fd <- free_slot].
Proof.
  intros Hfd. destruct (table_split t fd Hfd) as (l & k & Ht & Hl).
  rewrite Ht, <- Hl, !(aset_app_len (A:=proc_fd_slot)), !table_files_app. simpl.
  destruct (in_use sl); simpl; [|done]. symmetry. apply Permutation_middle.
Qed.

Lemma table_files_get t fd :
  0 ≤ fd < alen t →
  table_files t ≡ₚ (if in_use t.[fd] then [file t.[fd]] else []) ++ table_files t.[fd <- free_slot].
Proof. intros Hfd. rewrite <- (aset_id t fd Hfd) at 1. by apply table_files_set. Qed.

Lemma table_files_used t fd :
  0 ≤ fd < alen t → in_use t.[fd] = true →
  table_files t ≡ₚ file t.[fd] :: table_files t.[fd <- free_slot].
Proof. intros Hfd Hu. rewrite (table_files_get t fd Hfd), Hu. done. Qed.

Lemma table_files_free t fd :
  0 ≤ fd < alen t → in_use t.[fd] = false → table_files t ≡ₚ table_files t.[fd <- free_slot].
Proof. intros Hfd Hu. rewrite (table_files_get t fd Hfd), Hu. done. Qed.

Lemma table_files_install t fd f :
  0 ≤ fd < alen t →
  table_files t.[fd <- Slot true f] ≡ₚ f :: table_files t.[fd <- free_slot].
Proof. intros Hfd. by rewrite table_files_set. Qed.

Lemma table_files_length t : (length (table_files t) ≤ length t)%nat.
Proof. induction t as [|sl t IH]; simpl; [done|]. destruct (in_use sl); simpl; lia. Qed.

Lemma table_files_init : table_files proc_fd_table_init = [].
Proof. done. Qed.

Lemma slot_for_spec fd :
  0 ≤ fd → proc_fd_slot_for fd = if decide (fd < PROC_FD_MAX) then Ok fd else Err KERR_INVAL.
Proof.
  intros Hfd. unfold proc_fd_slot_for. destruct (Z.leb_spec PROC_FD_MAX fd).
  - by rewrite decide_False by lia.
  - by rewrite decide_True by lia.
Qed.

Section held.
Context {σ : Type} `{!FileOps σ, !FileLaws σ}.
Implicit Types (s : σ) (F : list kfile).

(** Room in the backends' 32-bit counters for two more tables. *)
Definition room F : Prop := alen F + 64 < two32.

Lemma room_table t F : table_wf t → room F → alen (table_files t ++ F) + 48 < two32.
Proof.
  unfold table_wf, room, alen, PROC_FD_MAX. rewrite length_app.
  pose proof (table_files_length t). lia.
Qed.

Lemma table_wf_set t fd sl : table_wf t → table_wf t.[fd <- sl].
Proof. unfold table_wf. by rewrite alen_aset. Qed.

Lemma held_install t fd f F s :
  table_wf t → slot_in_table fd →
  held (f :: table_files t.[fd <- free_slot] ++ F) s → held (table_files t.[fd <- Slot true f] ++ F) s.
Proof. intros Ht Hfd Hh. rewrite table_files_install by (rewrite Ht; done). done. Qed.

Lemma held_free t fd F s :
  table_wf t → slot_in_table fd → in_use t.[fd] = false →
  held (table_files t ++ F) s → held (table_files t.[fd <- free_slot] ++ F) s.
Proof.
  intros Ht Hfd Hu Hh. by rewrite (table_files_free t fd) in Hh by (rewrite ?Ht; done).
Qed.

Lemma held_used t fd F s :
  table_wf t → slot_in_table fd → in_use t.[fd] = true →
  held (table_files t ++ F) s → held (file t.[fd] :: table_files t.[fd <- free_slot] ++ F) s.
Proof.
  intros Ht Hfd Hu Hh. by rewrite (table_files_used t fd) in Hh by (rewrite ?Ht; done).
Qed.

Lemma used_in_files t fd F :
  table_wf t → slot_in_table fd → in_use t.[fd] = true → file t.[fd] ∈ table_files t ++ F.
Proof.
  intros Ht Hfd Hu. rewrite (table_files_used t fd) by (rewrite ?Ht; done).
  apply elem_of_app. left. apply list_elem_of_here.
Qed.

Lemma alloc_cases t fd_min src F s :
  table_wf t → 0 ≤ fd_min → room F → src ∈ table_files t ++ F → held (table_files t ++ F) s →
  let '(r, t', s') := proc_fd_alloc t fd_min src s in
  table_wf t' ∧ held (table_files t' ++ F) s' ∧
  match r with
  | Ok fd => fd_min ≤ fd < PROC_FD_MAX ∧ in_use t.[fd] = false ∧
             (∀ j, fd_min ≤ j < fd → in_use t.[j] = true) ∧ t' = t.[fd <- Slot true src]
  | Err _ => t' = t
  end.
Proof.
  intros Ht Hmin Hr Hin Hh. pose proof (room_table t F Ht Hr). unfold proc_fd_alloc.
  destruct (Z.leb_spec PROC_FD_MAX fd_min); [done|].
  pose proof (held_clone_in src _ s Hin ltac:(lia) Hh) as Hc.
  destruct (kfile_clone src s) as [[g|e] s1]; [|done]. destruct Hc as [-> Hc].
  destruct (search_range _ _ _) as [fd|] eqn:E.
  - apply search_range_Some in E as (i & Hi & Hf & Hlt).
    destruct (in_use t.[i]) eqn:Hu; [done|]. injection Hf as <-.
    assert (Hs : slot_in_table i) by (unfold slot_in_table; lia).
    split; [by apply table_wf_set|]. split.
    + apply held_install; [done..|].
      by rewrite (table_files_free t i) in Hc by (rewrite ?Ht; done).
    + split_and!; try done; try lia. intros j Hj. specialize (Hlt j Hj). by destruct (in_use t.[j]).
  - destruct (held_kfile_close _ _ _ Hc) as (s2 & -> & Hs2). done.
Qed.

Lemma close_cases t fd F s :
  table_wf t → 0 ≤ fd → held (table_files t ++ F) s →
  let '(r, t', s') := proc_fd_close t fd s in
  table_wf t' ∧ held (table_files t' ++ F) s' ∧
  r = (if decide (fd < PROC_FD_MAX) then if in_use t.[fd] then Ok tt else Err KERR_NOENT
       else Err KERR_INVAL) ∧
  t' = if is_ok r then t.[fd <- free_slot] else t.
Proof.
  intros Ht Hfd Hh. unfold proc_fd_close. rewrite slot_for_spec by done.
  case_decide; [|done]. assert (Hs : slot_in_table fd) by (unfold slot_in_table; lia).
  destruct (in_use t.[fd]) eqn:Hu; simpl; [|done].
  pose proof (held_used _ _ _ _ Ht Hs Hu Hh) as Hh'.
  destruct (held_kfile_close _ _ _ Hh') as (s2 & -> & Hs2).
  split; [by apply table_wf_set|done].
Qed.

Lemma dup2_cases t oldfd newfd F s :
  table_wf t → slot_in_table oldfd → slot_in_table newfd → in_use t.[oldfd] = true →
  room F → held (table_files t ++ F) s →
  let '(r, t', s') := proc_fd_dup2 t oldfd newfd s in
  table_wf t' ∧ held (table_files t' ++ F) s' ∧
  match r with
  | Ok fd => fd = newfd ∧ t' = if decide (oldfd = newfd) then t else t.[newfd <- Slot true (file t.[oldfd])]
  | Err _ => t' = t
  end.
Proof.
  intros Ht Ho Hn Hu Hr Hh. pose proof (room_table t F Ht Hr). unfold proc_fd_dup2.
  unfold slot_in_table in *. rewrite !slot_for_spec by lia.
  rewrite !decide_True by lia. rewrite Hu. cbv beta iota delta [negb].
  destruct (Z.eqb_spec oldfd newfd) as [->|Hne]; [by rewrite decide_True|].
  rewrite decide_False by done.
  pose proof (held_clone_in _ _ s (used_in_files t oldfd F Ht Ho Hu) ltac:(lia) Hh) as Hc.
  destruct (kfile_clone (file t.[oldfd]) s) as [[g|e] s1]; [|done]. destruct Hc as [-> Hc].
  destruct (in_use t.[newfd]) eqn:Hun.
  - assert (Hc' : held (file t.[newfd] :: file t.[oldfd] :: table_files t.[newfd <- free_slot] ++ F) s1).
    { rewrite (table_files_used t newfd) in Hc by (rewrite ?Ht; done).
      simpl in Hc. by rewrite Permutation_swap. }
    destruct (held_kfile_close _ _ _ Hc') as (s2 & -> & Hs2).
    split; [by apply table_wf_set|]. split; [by apply held_install|done].
  - split; [by apply table_wf_set|]. split; [|done]. apply held_install; [done..|].
    by rewrite (table_files_free t newfd) in Hc by (rewrite ?Ht; done).
Qed.
End held.

Lemma table_files_empty t : (∀ i, 0 ≤ i < alen t → in_use t.[i] = false) → table_files t = [].
Proof.
  induction t as [|sl t IH]; simpl; [done|]. intros Hfree.
  assert (H0 : in_use sl = false) by (apply (Hfree 0); unfold alen; simpl; lia). rewrite H0.
  apply IH. intros i Hi. specialize (Hfree (i + 1)).
  unfold aget in *. replace (Z.to_nat (i + 1)) with (S (Z.to_nat i)) in Hfree by lia. apply Hfree.
  unfold alen in *. simpl. lia.
Qed.

Section held_loops.
Context {σ : Type} `{!FileOps σ, !FileLaws σ}.
Implicit Types (s : σ) (F : list kfile).

Lemma close_all_cases t F s :
  table_wf t → held (table_files t ++ F) s →
  let '(closed, t', s') := proc_fd_close_all t s in
  table_wf t' ∧ (∀ i, slot_in_table i → in_use t'.[i] = false) ∧ held F s' ∧
  closed = alen (table_files t).
Proof.
  intros Ht Hh.
  pose (P := λ (fd : Z) (st : Z * proc_fd_table * σ),
    let '(closed, t', s') := st in
    table_wf t' ∧ held (table_files t' ++ F) s' ∧
    (∀ i, 0 ≤ i < fd → in_use t'.[i] = false) ∧
    0 ≤ closed ∧ closed + alen (table_files t') = alen (table_files t)).
  assert (HP : P PROC_FD_MAX (proc_fd_close_all t s)).
  { unfold proc_fd_close_all. apply (for_range_ind P); [unfold PROC_FD_MAX; lia| |].
    - split_and!; try done; try lia.
    - intros fd [[closed t1] s1] Hfd (Ht1 & Hh1 & Hfree & Hc0 & Hc).
      assert (Hs : slot_in_table fd) by (unfold slot_in_table; lia).
      unfold close_slot. destruct (in_use t1.[fd]) eqn:Hu; simpl.
      + pose proof (held_used _ _ _ _ Ht1 Hs Hu Hh1) as Hh'.
        destruct (held_kfile_close _ _ _ Hh') as (s2 & -> & Hs2). simpl.
        assert (Hlen : alen (table_files t1) = 1 + alen (table_files t1.[fd <- free_slot])).
        { unfold alen. rewrite (table_files_used t1 fd) by (rewrite ?Ht1; done). simpl. lia. }
        pose proof (alen_nonneg (table_files t1.[fd <- free_slot])).
        assert (alen (table_files t) ≤ 16).
        { pose proof (table_files_length t). unfold table_wf, alen, PROC_FD_MAX in *. lia. }
        rewrite add32_small by (unfold two32; lia).
        split_and!; [by apply table_wf_set|done| |lia|lia].
        intros i Hi. rewrite aget_aset by (rewrite ?Ht1; lia). case_decide; [done|apply Hfree; lia].
      + split_and!; try done. intros i Hi. destruct (decide (i = fd)) as [->|]; [done|apply Hfree; lia]. }
  destruct (proc_fd_close_all t s) as [[closed t'] s']. destruct HP as (Ht' & Hh' & Hfree & _ & Hc).
  rewrite table_files_empty in Hh', Hc by (intros i Hi; apply Hfree; by rewrite <- Ht').
  split_and!; try done. unfold alen in *. simpl in Hc. lia.
Qed.

(** The descriptors [src] has in use among the first [fd]. *)
Definition copied (src : proc_fd_table) (fd : Z) (dst : proc_fd_table) : Prop :=
  ∀ i, slot_in_table i →
    dst.[i] = if decide (i < fd) then if in_use src.[i] then Slot true (file src.[i]) else free_slot
              else free_slot.

Lemma clone_slots_cases src n fd dst F s :
  table_wf src → table_wf dst → room F → 0 ≤ fd → fd + n = PROC_FD_MAX → 0 ≤ n →
  copied src fd dst → held (table_files dst ++ table_files src ++ F) s →
  let '(r, t', s') := clone_slots src (seqZ fd n) dst s in
  table_wf t' ∧
  match r with
  | Ok _ => copied src PROC_FD_MAX t' ∧ held (table_files t' ++ table_files src ++ F) s'
  | Err _ => held (table_files src ++ F) s'
  end.
Proof.
  intros Hsrc Hdst Hr Hfd Hn Hn0 Hcop Hh. remember (Z.to_nat n) as k eqn:Hk.
  revert n fd dst s Hdst Hfd Hn Hn0 Hcop Hh Hk.
  induction k as [|k IH]; intros n fd dst s Hdst Hfd Hn Hn0 Hcop Hh Hk.
  { assert (n = 0) as -> by lia. simpl. split_and!; try done. by replace PROC_FD_MAX with fd by lia. }
  rewrite seqZ_cons by lia. cbn [clone_slots].
  replace (Z.succ fd) with (fd + 1) by lia. replace (Z.pred n) with (n - 1) by lia.
  assert (Hs : slot_in_table fd) by (unfold slot_in_table; lia).
  assert (Hfree : in_use dst.[fd] = false).
  { rewrite (Hcop fd Hs), decide_False by lia. done. }
  destruct (in_use src.[fd]) eqn:Hu; cbn [negb].
  - assert (Hin : file src.[fd] ∈ table_files dst ++ table_files src ++ F).
    { apply elem_of_app. right. by apply used_in_files. }
    assert (Hb : alen (table_files dst ++ table_files src ++ F) + 1 < two32).
    { pose proof (room_table src F Hsrc Hr). pose proof (table_files_length dst).
      unfold table_wf, alen, PROC_FD_MAX in *. rewrite !length_app in *. lia. }
    pose proof (held_clone_in _ _ s Hin Hb Hh) as Hc.
    destruct (kfile_clone (file src.[fd]) s) as [[g|e] s1].
    + destruct Hc as [-> Hc]. apply IH; try done; try lia; [by apply table_wf_set| |].
      * intros i Hi. unfold slot_in_table in *. rewrite aget_aset by (rewrite ?Hdst; lia).
        destruct (decide (fd = i)) as [<-|]; [rewrite decide_True by lia; by rewrite Hu|].
        rewrite (Hcop i Hi). destruct (decide (i < fd)).
        -- by rewrite decide_True by lia.
        -- by rewrite decide_False by lia.
      * apply held_install; [done..|].
        by rewrite (table_files_free dst fd) in Hc by (rewrite ?Hdst; done).
    + pose proof (close_all_cases dst _ s1 Hdst Hc) as Ha.
      destruct (proc_fd_close_all dst s1) as [[closed t'] s2]. destruct Ha as (? & _ & ? & _). done.
  - apply IH; try done; try lia. intros i Hi. rewrite (Hcop i Hi).
    destruct (decide (i = fd)) as [->|].
    + rewrite decide_False by lia. rewrite decide_True by lia. by rewrite Hu.
    + destruct (decide (i < fd)).
      * by rewrite decide_True by lia.
      * by rewrite decide_False by lia.
Qed.

Lemma table_clone_cases src F s :
  table_wf src → room F → held (table_files src ++ F) s →
  let '(r, t', s') := proc_fd_table_clone src s in
  table_wf t' ∧
  match r with
  | Ok _ => copied src PROC_FD_MAX t' ∧ held (table_files t' ++ table_files src ++ F) s'
  | Err _ => held (table_files src ++ F) s'
  end.
Proof.
  intros Hsrc Hr Hh. unfold proc_fd_table_clone.
  apply (clone_slots_cases src PROC_FD_MAX 0); try done.
  intros i Hi. rewrite decide_False by (unfold slot_in_table in Hi; lia).
  unfold slot_in_table, PROC_FD_MAX in Hi. apply aget_replicate. lia.
Qed.
End held_loops.

(** * Systems of processes

    The tables of all processes over one backend: descriptors are duplicated
    and closed, a process forks (its table is cloned, as sched.c does) and
    exits (its table is closed). *)
Inductive fd_op :=
  | FdDup (pid : nat) (oldfd fd_min : Z)
  | FdDup2 (pid : nat) (oldfd newfd : Z)
  | FdClose (pid : nat) (fd : Z)
  | FdFork (pid : nat)
  | FdExit (pid : nat).

(** Descriptors come from user space as unsigned numbers. *)
Definition fd_op_wf (o : fd_op) : Prop :=
  match o with
  | FdDup _ oldfd fd_min => 0 ≤ oldfd ∧ 0 ≤ fd_min
  | FdDup2 _ oldfd newfd => 0 ≤ oldfd ∧ 0 ≤ newfd
  | FdClose _ fd => 0 ≤ fd
  | FdFork _ | FdExit _ => True
  end.

Definition system_files (tabs : list proc_fd_table) : list kfile := concat (table_files <$> tabs).

Section system.
Context {σ : Type} `{!FileOps σ}.

Definition fd_step (st : list proc_fd_table * σ) (o : fd_op) : list proc_fd_table * σ :=
  let '(tabs, s) := st in
  match o with
  | FdDup pid oldfd fd_min =>
      match tabs !! pid with
      | None => st
      | Some t => let '(_, t, s) := proc_fd_dup t oldfd fd_min s in (<[pid := t]> tabs, s)
      end
  | FdDup2 pid oldfd newfd =>
      match tabs !! pid with
      | None => st
      | Some t => let '(_, t, s) := proc_fd_dup2 t oldfd newfd s in (<[pid := t]> tabs, s)
      end
  | FdClose pid fd =>
      match tabs !! pid with
      | None => st
      | Some t => let '(_, t, s) := proc_fd_close t fd s in (<[pid := t]> tabs, s)
      end
  | FdFork pid =>
      match tabs !! pid with
      | None => st
      | Some t =>
          match proc_fd_table_clone t s with
          | (Ok _, t', s) => (t' :: tabs, s)
          | (Err _, _, s) => (tabs, s)
          end
      end
  | FdExit pid =>
      match tabs !! pid with
      | None => st
      | Some t => let '(_, t, s) := proc_fd_close_all t s in (<[pid := t]> tabs, s)
      end
  end.

Definition fd_run (st : list proc_fd_table * σ) (ops : list fd_op) := foldl fd_step st ops.
End system.

(** The files of one process and those of the others. *)
Lemma system_files_split tabs pid t :
  tabs !! pid = Some t →
  ∃ rest, system_files tabs ≡ₚ table_files t ++ rest ∧
          ∀ t', system_files (<[pid := t']> tabs) ≡ₚ table_files t' ++ rest.
Proof.
  intros Ht. exists (system_files (delete pid tabs)). unfold system_files.
  assert (Hd : ∀ tabs (t : proc_fd_table), tabs !! pid = Some t →
    concat (table_files <$> tabs) ≡ₚ table_files t ++ concat (table_files <$> delete pid tabs)).
  { clear. intros tabs t Ht. rewrite (delete_Permutation tabs pid t Ht) at 1. done. }
  split; [by apply Hd|]. intros t'. pose proof (lookup_lt_Some _ _ _ Ht).
  rewrite (Hd _ t') by (by apply list_lookup_insert_eq).
  f_equiv. unfold system_files. by rewrite !delete_take_drop, take_insert_ge, drop_insert_lt by lia.
Qed.

Lemma system_files_length tabs :
  Forall table_wf tabs → (length (system_files tabs) ≤ 16 * length tabs)%nat.
Proof.
  intros Hwf. induction Hwf as [|t tabs Ht Hwf IH]; [done|].
  change (system_files (t :: tabs)) with (table_files t ++ system_files tabs).
  rewrite length_app. pose proof (table_files_length t). cbn [length].
  unfold table_wf, alen, PROC_FD_MAX in Ht. lia.
Qed.

Section system_held.
Context {σ : Type} `{!FileOps σ, !FileLaws σ}.
Implicit Types (s : σ).

Definition system_held (st : list proc_fd_table * σ) : Prop :=
  Forall table_wf (fst st) ∧ held (system_files (fst st)) (snd st).

Lemma system_update tabs s pid t t' s' :
  Forall table_wf tabs → held (system_files tabs) s → tabs !! pid = Some t →
  (∀ F, (length F ≤ 16 * length tabs)%nat → held (table_files t ++ F) s →
        table_wf t' ∧ held (table_files t' ++ F) s') →
  system_held (<[pid := t']> tabs, s').
Proof.
  intros Hwf Hh Hp Hstep. destruct (system_files_split tabs pid t Hp) as (rest & Hs & Hs').
  assert (Hlen : (length rest ≤ 16 * length tabs)%nat).
  { pose proof (system_files_length tabs Hwf) as Hl. rewrite Hs, length_app in Hl. lia. }
  rewrite Hs in Hh. destruct (Hstep rest Hlen Hh) as [Ht' Hh'].
  split; simpl; [by apply Forall_insert|by rewrite Hs'].
Qed.

Lemma fd_step_held st o :
  fd_op_wf o → 16 * alen (fst st) + 64 < two32 → system_held st →
  system_held (fd_step st o) ∧ alen (fst (fd_step st o)) ≤ alen (fst st) + 1.
Proof.
  destruct st as [tabs s]. intros Ho Hb [Hwf Hh]. unfold alen in *. cbn [fst snd] in *.
  assert (Hroom : ∀ F, (length F ≤ 16 * length tabs)%nat → room F) by (unfold room, alen; lia).
  destruct o as [pid oldfd fd_min|pid oldfd newfd|pid fd|pid|pid]; simpl in Ho; cbn [fd_step];
    (destruct (tabs !! pid) as [t|] eqn:Hp; [|by split; [|simpl; lia]]);
    (assert (Ht : table_wf t) by (eapply Forall_lookup_1 in Hwf; done)).
  - destruct (proc_fd_dup t oldfd fd_min s) as [[r t'] s'] eqn:E.
    split; [|simpl; rewrite length_insert; lia]. eapply system_update; [done..|].
    intros F HF HhF. revert E. unfold proc_fd_dup. rewrite slot_for_spec by lia.
    case_decide; [|by intros [= <- <- <-]].
    destruct (in_use t.[oldfd]) eqn:Hu; simpl; [|by intros [= <- <- <-]]. intros E.
    pose proof (alloc_cases t fd_min (file t.[oldfd]) F s Ht ltac:(lia) (Hroom F HF)
      (used_in_files t oldfd F Ht ltac:(unfold slot_in_table; lia) Hu) HhF) as Ha.
    rewrite E in Ha. by destruct Ha as (? & ? & _).
  - destruct (proc_fd_dup2 t oldfd newfd s) as [[r t'] s'] eqn:E.
    split; [|simpl; rewrite length_insert; lia]. eapply system_update; [done..|].
    intros F HF HhF.
    destruct (decide (oldfd < PROC_FD_MAX ∧ newfd < PROC_FD_MAX ∧ in_use t.[oldfd] = true))
      as [(Hlo & Hln & Hu)|Hn].
    + pose proof (dup2_cases t oldfd newfd F s Ht ltac:(unfold slot_in_table; lia)
        ltac:(unfold slot_in_table; lia) Hu (Hroom F HF) HhF) as Ha.
      rewrite E in Ha. by destruct Ha as (? & ? & _).
    + assert (Hsame : t' = t ∧ s' = s); [|by destruct Hsame as [-> ->]].
      revert E. unfold proc_fd_dup2. rewrite !slot_for_spec by lia.
      case_decide; [|by intros [= <- <- <-]]. case_decide; [|by intros [= <- <- <-]].
      destruct (in_use t.[oldfd]); simpl; [|by intros [= <- <- <-]]. exfalso. by apply Hn.
  - destruct (proc_fd_close t fd s) as [[r t'] s'] eqn:E.
    split; [|simpl; rewrite length_insert; lia]. eapply system_update; [done..|].
    intros F HF HhF. pose proof (close_cases t fd F s Ht Ho HhF) as Ha.
    rewrite E in Ha. by destruct Ha as (? & ? & _).
  - destruct (system_files_split tabs pid t Hp) as (rest & Hs & _).
    assert (Hlen : (length rest ≤ 16 * length tabs)%nat).
    { pose proof (system_files_length tabs Hwf) as Hl. rewrite Hs, length_app in Hl. lia. }
    rewrite Hs in Hh. pose proof (table_clone_cases t rest s Ht (Hroom rest Hlen) Hh) as Hc.
    destruct (proc_fd_table_clone t s) as [[[[]|e] t'] s']; destruct Hc as [Ht' Hc].
    + destruct Hc as [_ Hc]. split; [|simpl; lia]. split; simpl; [by constructor|].
      change (system_files (t' :: tabs)) with (table_files t' ++ system_files tabs). by rewrite Hs.
    + split; [|simpl; lia]. split; [done|]. simpl. by rewrite Hs.
  - destruct (proc_fd_close_all t s) as [[c t'] s'] eqn:E.
    split; [|simpl; rewrite length_insert; lia]. eapply system_update; [done..|].
    intros F HF HhF. pose proof (close_all_cases t F s Ht HhF) as Ha. rewrite E in Ha.
    destruct Ha as (Ht' & Hfree & Hh' & _). split; [done|].
    rewrite table_files_empty; [done|]. intros i Hi. apply Hfree. by rewrite Ht' in Hi.
Qed.

Lemma fd_run_held st ops :
  Forall fd_op_wf ops → 16 * (alen (fst st) + alen ops) + 64 < two32 → system_held st →
  system_held (fd_run st ops).
Proof.
  revert st. induction ops as [|o ops IH]; intros st Hops Hb Hh; [done|].
  apply Forall_cons in Hops as [Ho Hops]. unfold alen in *. cbn [length] in Hb.
  destruct (fd_step_held st o Ho) as [Hs Hl]; [unfold alen; lia|done|].
  unfold fd_run. cbn [foldl]. apply IH; [done|unfold alen in *; lia|done].
Qed.
End system_held.

(** * Properties

    The witnesses run the tables over the pipes of KPipe.v. *)
#[local] Instance demo_ops : FileOps pipes := pipe_ops_inst id 4.
#[local] Instance demo_laws : FileLaws pipes := pipe_laws id 4.

Definition demo_table : proc_fd_table :=
  proc_fd_table_init.[3 <- Slot true demo_read_end].[4 <- Slot true demo_write_end].

Lemma demo_table_wf : table_wf demo_table.
Proof. reflexivity. Qed.

Lemma demo_table_held : held (table_files demo_table ++ []) demo_pipes1.
Proof. exact demo_pipes1_held. Qed.

Lemma demo_room : room [].
Proof. reflexivity. Qed.

(** [proc_fd_alloc] (and so [dup]) gives the lowest free descriptor from
    [fd_min] up and makes it a copy of the source holding one new reference;
    when it fails, for whatever reason, the table is unchanged and the
    reference it had taken is given back. *)
Theorem proc_fd_alloc_spec {σ} `{!FileOps σ, !FileLaws σ} t fd_min src F (s : σ) :
  table_wf t → 0 ≤ fd_min → room F → src ∈ table_files t ++ F → held (table_files t ++ F) s →
  let '(r, t', s') := proc_fd_alloc t fd_min src s in
  table_wf t' ∧ held (table_files t' ++ F) s' ∧
  match r with
  | Ok fd => fd_min ≤ fd < PROC_FD_MAX ∧ in_use t.[fd] = false ∧
             (∀ j, fd_min ≤ j < fd → in_use t.[j] = true) ∧ t' = t.[fd <- Slot true src]
  | Err _ => t' = t
  end.
Proof. exact (alloc_cases t fd_min src F s). Qed.

Lemma proc_fd_alloc_spec_witness :
  fst (fst (proc_fd_alloc demo_table 3 demo_read_end demo_pipes1)) = Ok 5 ∧
  let '(r, t', s') := proc_fd_alloc demo_table 3 demo_read_end demo_pipes1 in
  table_wf t' ∧ held (table_files t' ++ []) s'.
Proof.
  split; [vm_compute; reflexivity|].
  pose proof (proc_fd_alloc_spec demo_table 3 demo_read_end [] demo_pipes1 demo_table_wf ltac:(lia)
    demo_room (list_elem_of_here _ _) demo_table_held) as H.
  destruct (proc_fd_alloc demo_table 3 demo_read_end demo_pipes1) as [[r t'] s'].
  destruct H as (H1 & H2 & _). split; [exact H1|exact H2].
Defined.

(** [dup2] makes [newfd] a second reference to the open file of [oldfd],
    closing what [newfd] referred to and touching no other descriptor; on
    equal descriptors it does nothing, and when it fails the table is
    unchanged. *)
Theorem proc_fd_dup2_spec {σ} `{!FileOps σ, !FileLaws σ} t oldfd newfd F (s : σ) :
  table_wf t → slot_in_table oldfd → slot_in_table newfd → in_use t.[oldfd] = true →
  room F → held (table_files t ++ F) s →
  let '(r, t', s') := proc_fd_dup2 t oldfd newfd s in
  table_wf t' ∧ held (table_files t' ++ F) s' ∧
  match r with
  | Ok fd => fd = newfd ∧
             t' = if decide (oldfd = newfd) then t else t.[newfd <- Slot true (file t.[oldfd])]
  | Err _ => t' = t
  end.
Proof. exact (dup2_cases t oldfd newfd F s). Qed.

Lemma proc_fd_dup2_spec_witness :
  fst (fst (proc_fd_dup2 demo_table 4 3 demo_pipes1)) = Ok 3 ∧
  let '(r, t', s') := proc_fd_dup2 demo_table 4 3 demo_pipes1 in
  table_wf t' ∧ held (table_files t' ++ []) s'.
Proof.
  split; [vm_compute; reflexivity|].
  pose proof (proc_fd_dup2_spec demo_table 4 3 [] demo_pipes1 demo_table_wf ltac:(done) ltac:(done)
    eq_refl demo_room demo_table_held) as H.
  destruct (proc_fd_dup2 demo_table 4 3 demo_pipes1) as [[r t'] s'].
  destruct H as (H1 & H2 & _). split; [exact H1|exact H2].
Defined.

(** [proc_fd_close_all] closes every descriptor in use exactly once,
    reports how many there were and leaves an empty table; the references of
    the rest of the system are untouched. *)
Theorem proc_fd_close_all_spec {σ} `{!FileOps σ, !FileLaws σ} t F (s : σ) :
  table_wf t → held (table_files t ++ F) s →
  let '(closed, t', s') := proc_fd_close_all t s in
  table_wf t' ∧ (∀ i, slot_in_table i → in_use t'.[i] = false) ∧ held F s' ∧
  closed = alen (table_files t).
Proof. exact (close_all_cases t F s). Qed.

Lemma proc_fd_close_all_spec_witness :
  fst (fst (proc_fd_close_all demo_table demo_pipes1)) = 2 ∧
  let '(closed, t', s') := proc_fd_close_all demo_table demo_pipes1 in held [] s'.
Proof.
  split; [vm_compute; reflexivity|].
  pose proof (proc_fd_close_all_spec demo_table [] demo_pipes1 demo_table_wf demo_table_held) as H.
  destruct (proc_fd_close_all demo_table demo_pipes1) as [[closed t'] s'].
  destruct H as (_ & _ & H & _). exact H.
Defined.

(** A cloned table (fork) has the parent's open files at the parent's
    descriptors and nothing else, each holding a reference of its own; a clone
    that fails half-way gives every reference back. *)
Theorem proc_fd_table_clone_spec {σ} `{!FileOps σ, !FileLaws σ} src F (s : σ) :
  table_wf src → room F → held (table_files src ++ F) s →
  let '(r, t', s') := proc_fd_table_clone src s in
  table_wf t' ∧
  match r with
  | Ok _ => copied src PROC_FD_MAX t' ∧ held (table_files t' ++ table_files src ++ F) s'
  | Err _ => held (table_files src ++ F) s'
  end.
Proof. exact (table_clone_cases src F s). Qed.

Lemma proc_fd_table_clone_spec_witness :
  let '(r, t', s') := proc_fd_table_clone demo_table demo_pipes1 in
  t' = demo_table ∧ held (table_files t' ++ table_files demo_table ++ []) s'.
Proof.
  pose proof (proc_fd_table_clone_spec demo_table [] demo_pipes1 demo_table_wf demo_room demo_table_held) as H.
  destruct (proc_fd_table_clone demo_table demo_pipes1) as [[r t'] s'] eqn:E.
  assert (Hr : r = Ok tt ∧ t' = demo_table) by (revert E; vm_compute; by intros [= <- <- _]).
  destruct Hr as [-> ->]. destruct H as (_ & _ & H). split; [reflexivity|exact H].
Defined.

(** C17: No sequence of duplications, closes, forks and exits leaks a pipe or
    frees one in use: the pipes' counts stay exactly the descriptors that refer
    to them, a pipe is still there exactly if a descriptor refers to it, and of the
    blocks of the heap exactly those of the other pipes have been freed.  So once no
    process has a descriptor open no pipe is left, and no block of one. *)
Theorem fd_run_no_leak tabs s ops :
  Forall fd_op_wf ops → 16 * (alen tabs + alen ops) + 64 < two32 → system_held (tabs, s) →
  let '(tabs', s') := fd_run (tabs, s) ops in
  system_held (tabs', s') ∧
  (∀ p, is_Some (pipe_map s' !! p) ↔
     is_Some (pipe_map s !! p) ∧ ∃ f, f ∈ system_files tabs' ∧ f_ops f = Some g_kpipe_file_ops ∧ f_private f = p) ∧
  (∀ q n, live (pipe_heap s') q n ↔ live (pipe_heap s) q n ∧ (is_Some (pipe_map s !! q) → is_Some (pipe_map s' !! q))) ∧
  (system_files tabs' = [] → pipe_map s' = ∅).
Proof.
  intros Hops Hb Hh.
  assert (Hh0 : @system_held _ _ (blocks_laws id 4 s) (tabs, s)).
  { destruct Hh as [Ht Hh]. split; [exact Ht|]. split; [exact Hh|apply freed_with_refl]. }
  pose proof (@fd_run_held _ _ (blocks_laws id 4 s) (tabs, s) ops Hops Hb Hh0) as [Ht Hr].
  destruct (fd_run (tabs, s) ops) as [tabs' s']. destruct Hr as [Hr [Hp Hbl]]. cbn [fst snd] in *.
  split; [by split|]. split; [|split; [done|]].
  - intros p. rewrite <- (pipe_has_end _ _ p Hr). split; [|by intros [_ ?]]. intros Hs. split; [by apply Hp|done].
  - intros Hno. rewrite Hno in Hr. by apply no_files_no_pipes.
Qed.

Lemma fd_run_no_leak_witness :
  let ops := [FdFork 0; FdDup2 0 4 3; FdClose 1 3; FdExit 0; FdClose 1 4] in
  let '(tabs', s') := fd_run ([demo_table], demo_pipes1) ops in
  system_files tabs' = [] ∧ pipe_map s' = ∅ ∧ ∀ n, ¬ live (pipe_heap s') 1110016 n.
Proof.
  cbv zeta.
  pose proof (fd_run_no_leak [demo_table] demo_pipes1
    [FdFork 0; FdDup2 0 4 3; FdClose 1 3; FdExit 0; FdClose 1 4]) as H.
  destruct (fd_run _ _) as [tabs' s'] eqn:E.
  destruct H as (_ & _ & Hl & H); [repeat constructor; simpl; lia|reflexivity| |].
  - split; [repeat constructor; reflexivity|exact demo_table_held].
  - assert (Hf : system_files tabs' = []) by (revert E; vm_compute; by intros [= <- _]).
    specialize (H Hf). split; [exact Hf|]. split; [exact H|]. intros n Hn. apply Hl in Hn as [_ Hn]. rewrite H in Hn.
    destruct (Hn ltac:(by vm_compute; eexists)) as [st Hst]. discriminate Hst.
Defined.
