(* ===== verification/BlockCache.v ===== *)
(** kernel/block_device.c and kernel/block_cache.c: a write-through cache of
    disk sectors.

    A driver (such as ata_pio.c) is a [block_device]: optional functions over
    its own state [δ].  What the cache relies on is the class [DeviceLaws]: the
    device is an array of sectors ([dev_sector]).  [coherent] says that every
    cached sector equals the device's, except for the sectors whose last write
    was reported as failed. *)

From S2P Require Import Prelude.

Definition BLOCK_CACHE_ENTRY_COUNT : Z := 64.
Definition BLOCK_SECTOR_SIZE : Z := 512.

(** * Devices *)

(** [struct block_device_ops]; [None] is a null function pointer. *)
Record block_device_ops (δ : Type) := DevOps {
  read_sector : option (Z → δ → res (list Z) * δ);
  write_sector : option (Z → list Z → δ → res unit * δ);
  flush : option (δ → res unit * δ)
}.
Arguments DevOps {_} _ _ _.
Arguments read_sector {_} _.
Arguments write_sector {_} _.
Arguments flush {_} _.

Record block_device (δ : Type) := Dev {
  dev_ops : option (block_device_ops δ);
  sector_count : Z
}.
Arguments Dev {_} _ _.
Arguments dev_ops {_} _.
Arguments sector_count {_} _.

Definition block_device_read_sector {δ} (dev : block_device δ) (lba : Z) (d : δ) : res (list Z) * δ :=
  match dev_ops dev ≫= read_sector with
  | None => (Err KERR_INVAL, d)
  | Some f => if sector_count dev <=? lba then (Err KERR_INVAL, d) else f lba d
  end.

Definition block_device_write_sector {δ} (dev : block_device δ) (lba : Z) (data : list Z) (d : δ)
    : res unit * δ :=
  match dev_ops dev ≫= write_sector with
  | None => (Err KERR_INVAL, d)
  | Some f => if sector_count dev <=? lba then (Err KERR_INVAL, d) else f lba data d
  end.

Definition block_device_flush {δ} (dev : block_device δ) (d : δ) : res unit * δ :=
  match dev_ops dev ≫= flush with
  | None => (Err KERR_INVAL, d)
  | Some f => f d
  end.

(** * The cache *)

Record block_cache_entry := Entry { e_lba : Z; e_data : list Z; e_valid : bool }.

Definition entry_zero : block_cache_entry := Entry 0 (replicate 512 0) false.

#[export] Instance block_cache_entry_inhabited : Inhabited block_cache_entry := populate entry_zero.

(** The cache's variables and the state of the device bound to it. *)
Record bcache (δ : Type) := Cache {
  cache_device : option (block_device δ);
  entries : list block_cache_entry;
  next_victim : Z;
  disk : δ
}.
Arguments Cache {_} _ _ _ _.
Arguments cache_device {_} _.
Arguments entries {_} _.
Arguments next_victim {_} _.
Arguments disk {_} _.

Section cache.
Context {δ : Type}.
Implicit Types (c : bcache δ).

Definition set_disk c (d : δ) : bcache δ := Cache (cache_device c) (entries c) (next_victim c) d.

Definition block_cache_find_entry_locked (es : list block_cache_entry) (lba : Z) : option Z :=
  search_range 0 BLOCK_CACHE_ENTRY_COUNT (λ i,
    if e_valid es.[i] && (e_lba es.[i] =? lba) then Some i else None).

Definition block_cache_store_locked (lba : Z) (data : list Z) c : bcache δ :=
  match block_cache_find_entry_locked (entries c) lba with
  | Some i =>
      Cache (cache_device c) (entries c).[i <- Entry (e_lba (entries c).[i]) data (e_valid (entries c).[i])]
            (next_victim c) (disk c)
  | None =>
      let i := next_victim c in
      Cache (cache_device c) (entries c).[i <- Entry lba data true]
            (add32 (next_victim c) 1 mod BLOCK_CACHE_ENTRY_COUNT) (disk c)
  end.

Definition block_cache_bind_device (dev : option (block_device δ)) c : res unit * bcache δ :=
  match dev with
  | None => (Err KERR_INVAL, c)
  | Some b =>
      if sector_count b =? 0 then (Err KERR_INVAL, c)
      else (Ok tt, Cache (Some b) (replicate 64 entry_zero) 0 (disk c))
  end.

Definition block_cache_is_ready c : bool := bool_decide (is_Some (cache_device c)).

Definition block_cache_sector_count c : Z :=
  match cache_device c with None => 0 | Some dev => sector_count dev end.

Definition block_cache_read_sector (lba : Z) c : res (list Z) * bcache δ :=
  match cache_device c with
  | None => (Err KERR_INVAL, c)
  | Some dev =>
      if sector_count dev <=? lba then (Err KERR_INVAL, c)
      else
        match block_cache_find_entry_locked (entries c) lba with
        | Some i => (Ok (e_data (entries c).[i]), c)
        | None =>
            match block_device_read_sector dev lba (disk c) with
            | (Err e, d) => (Err e, set_disk c d)
            | (Ok scratch, d) => (Ok scratch, block_cache_store_locked lba scratch (set_disk c d))
            end
        end
  end.

Definition block_cache_write_sector (lba : Z) (data : list Z) c : res unit * bcache δ :=
  match cache_device c with
  | None => (Err KERR_INVAL, c)
  | Some dev =>
      if sector_count dev <=? lba then (Err KERR_INVAL, c)
      else
        match block_device_write_sector dev lba data (disk c) with
        | (Err e, d) => (Err e, set_disk c d)
        | (Ok _, d) =>
            match block_device_flush dev d with
            | (Err e, d) => (Err e, set_disk c d)
            | (Ok _, d) => (Ok tt, block_cache_store_locked lba data (set_disk c d))
            end
        end
  end.

Definition block_cache_flush c : res unit * bcache δ :=
  match cache_device c with
  | None => (Err KERR_INVAL, c)
  | Some dev => let '(r, d) := block_device_flush dev (disk c) in (r, set_disk c d)
  end.
End cache.

(** * What the cache relies on

    A driver reads back what was last written to a sector; a failed write may
    leave anything in its own sector and nothing elsewhere. *)
Class DeviceLaws {δ : Type} (dev : block_device δ) := {
  dev_sector : δ → Z → list Z;
  dev_read_ok lba d data d' :
    block_device_read_sector dev lba d = (Ok data, d') → data = dev_sector d lba;
  dev_read_frame lba d r d' :
    block_device_read_sector dev lba d = (r, d') → ∀ l, dev_sector d' l = dev_sector d l;
  dev_write_ok lba data d d' :
    block_device_write_sector dev lba data d = (Ok tt, d') → dev_sector d' lba = data;
  dev_write_frame lba data d r d' :
    block_device_write_sector dev lba data d = (r, d') →
    ∀ l, l ≠ lba → dev_sector d' l = dev_sector d l;
  dev_flush_frame d r d' :
    block_device_flush dev d = (r, d') → ∀ l, dev_sector d' l = dev_sector d l
}.

Section coherence.
Context {δ : Type} (dev : block_device δ) `{!DeviceLaws dev}.
Implicit Types (c : bcache δ).

(** The cached copy of a sector, if there is one. *)
Definition cached c (lba : Z) : option (list Z) :=
  (λ i, e_data (entries c).[i]) <$> block_cache_find_entry_locked (entries c) lba.

Record cache_wf c : Prop := {
  cw_dev : cache_device c = Some dev;
  cw_len : alen (entries c) = BLOCK_CACHE_ENTRY_COUNT;
  cw_victim : 0 ≤ next_victim c < BLOCK_CACHE_ENTRY_COUNT;
  cw_unique : ∀ i j, 0 ≤ i < BLOCK_CACHE_ENTRY_COUNT → 0 ≤ j < BLOCK_CACHE_ENTRY_COUNT →
    e_valid (entries c).[i] = true → e_valid (entries c).[j] = true →
    e_lba (entries c).[i] = e_lba (entries c).[j] → i = j
}.

(** Every cached sector outside [bad] is the device's. *)
Definition coherent (bad : gset Z) c : Prop :=
  cache_wf c ∧ ∀ lba data, lba ∉ bad → cached c lba = Some data → data = dev_sector (disk c) lba.

Lemma find_entry_Some es lba i :
  block_cache_find_entry_locked es lba = Some i →
  0 ≤ i < BLOCK_CACHE_ENTRY_COUNT ∧ e_valid es.[i] = true ∧ e_lba es.[i] = lba.
Proof.
  intros (j & Hj & Hf & _)%search_range_Some.
  destruct (e_valid es.[j]) eqn:Hv; [|done]. simpl in Hf.
  destruct (e_lba es.[j] =? lba) eqn:Hl; [|done]. apply Z.eqb_eq in Hl. by simplify_eq.
Qed.

Lemma find_entry_None es lba i :
  block_cache_find_entry_locked es lba = None → 0 ≤ i < BLOCK_CACHE_ENTRY_COUNT →
  e_valid es.[i] = true → e_lba es.[i] ≠ lba.
Proof.
  unfold block_cache_find_entry_locked. rewrite search_range_None. intros H Hi Hv Hl.
  specialize (H i Hi). by rewrite Hv, Hl, Z.eqb_refl in H.
Qed.

(** With one valid entry per sector the search finds it. *)
Lemma cached_iff c lba data :
  cache_wf c →
  cached c lba = Some data ↔
  ∃ i, 0 ≤ i < BLOCK_CACHE_ENTRY_COUNT ∧ (entries c).[i] = Entry lba data true.
Proof.
  intros Hwf. unfold cached. split.
  - intros (i & (Hi & Hv & Hl)%find_entry_Some & Hd)%fmap_Some. exists i. split; [done|].
    subst. by destruct ((entries c).[i]); simpl in *; subst.
  - intros (i & Hi & He). destruct (block_cache_find_entry_locked (entries c) lba) as [j|] eqn:E; simpl.
    + apply find_entry_Some in E as (Hj & Hv & Hl).
      rewrite (cw_unique c Hwf j i Hj Hi Hv); rewrite He; done.
    + exfalso. apply (find_entry_None _ _ i E Hi); by rewrite He.
Qed.

Lemma store_wf lba data c :
  cache_wf c → cache_wf (block_cache_store_locked lba data c) ∧
  disk (block_cache_store_locked lba data c) = disk c.
Proof.
  intros Hwf. pose proof Hwf as [Hdev Hlen Hvic Huniq]. unfold block_cache_store_locked.
  destruct (block_cache_find_entry_locked (entries c) lba) as [k|] eqn:E; (split; [|done]).
  - apply find_entry_Some in E as (Hk & Hv & Hl). split; simpl; [done|by arr|done|].
    intros i j Hi Hj. rewrite !aget_aset by (rewrite ?Hlen; lia).
    destruct (decide (k = i)) as [<-|], (decide (k = j)) as [<-|]; simpl; by auto.
  - split; simpl; [done|by arr|by apply Z.mod_pos_bound|].
    intros i j Hi Hj. rewrite !aget_aset by (rewrite ?Hlen; lia).
    destruct (decide (next_victim c = i)), (decide (next_victim c = j)); simpl; subst; try done; [| |by auto].
    + intros _ Hv Hl. exfalso. by apply (find_entry_None _ _ j E Hj Hv).
    + intros Hv _ Hl. exfalso. by apply (find_entry_None _ _ i E Hi Hv).
Qed.

(** A store caches its sector and changes no other copy, evicting at most one. *)
Lemma store_cached lba data c l :
  cache_wf c →
  cached (block_cache_store_locked lba data c) l =
    (if decide (l = lba) then Some data else cached (block_cache_store_locked lba data c) l) ∧
  ∀ x, l ≠ lba → cached (block_cache_store_locked lba data c) l = Some x → cached c l = Some x.
Proof.
  intros Hwf. destruct (store_wf lba data c Hwf) as [Hwf' _].
  pose proof Hwf as [Hdev Hlen Hvic Huniq]. split.
  - case_decide; [subst l|done]. apply cached_iff; [done|]. unfold block_cache_store_locked.
    destruct (block_cache_find_entry_locked (entries c) lba) as [k|] eqn:E; simpl.
    + apply find_entry_Some in E as (Hk & Hv & Hl). exists k. split; [done|].
      rewrite aget_aset_eq by (rewrite Hlen; done). by rewrite Hv, Hl.
    + exists (next_victim c). split; [done|]. by rewrite aget_aset_eq by (rewrite Hlen; done).
  - intros x Hne. rewrite !cached_iff by done. unfold block_cache_store_locked.
    destruct (block_cache_find_entry_locked (entries c) lba) as [k|] eqn:E; simpl;
      intros (i & Hi & He); exists i; (split; [done|]); revert He.
    + apply find_entry_Some in E as (Hk & Hv & Hl). rewrite aget_aset by (rewrite ?Hlen; lia).
      case_decide; [subst; intros [= ? _ _]; congruence|done].
    + rewrite aget_aset by (rewrite ?Hlen; lia). case_decide; [intros [= ? _]; congruence|done].
Qed.

Definition same_disk (d d' : δ) : Prop := ∀ l, dev_sector d' l = dev_sector d l.

Lemma set_disk_wf c d : cache_wf c → cache_wf (set_disk c d).
Proof. by intros []. Qed.

Lemma coherent_disk bad c d : coherent bad c → same_disk (disk c) d → coherent bad (set_disk c d).
Proof.
  intros [Hwf Hc] Hd. split; [by apply set_disk_wf|]. intros l data Hl Hca. simpl.
  rewrite Hd. by apply Hc.
Qed.

Lemma coherent_mono bad bad' c : bad ⊆ bad' → coherent bad c → coherent bad' c.
Proof. intros Hs [Hwf Hc]. split; [done|]. intros l data Hl. apply Hc. set_solver. Qed.

(** Storing the device's own data keeps coherence. *)
Lemma store_coherent bad lba data c :
  (∀ l x, l ∉ bad → l ≠ lba → cached c l = Some x → x = dev_sector (disk c) l) → cache_wf c →
  (lba ∉ bad → data = dev_sector (disk c) lba) →
  coherent bad (block_cache_store_locked lba data c).
Proof.
  intros Hc Hwf Hdata. destruct (store_wf lba data c Hwf) as [Hwf' Hd]. split; [done|].
  intros l x Hl Hx. rewrite Hd. destruct (store_cached lba data c l Hwf) as [H1 H2].
  rewrite H1 in Hx. case_decide; [subst; injection Hx as <-; by apply Hdata|]. by apply Hc, H2.
Qed.

Lemma read_cases bad c lba :
  coherent bad c →
  let '(r, c') := block_cache_read_sector lba c in
  coherent bad c' ∧ same_disk (disk c) (disk c') ∧
  match r with
  | Ok data => lba < sector_count dev ∧ (lba ∉ bad → data = dev_sector (disk c) lba) ∧ cached c' lba = Some data
  | Err _ => True
  end.
Proof.
  intros [Hwf Hc]. unfold block_cache_read_sector. rewrite (cw_dev c Hwf).
  destruct (Z.leb_spec (sector_count dev) lba); [done|].
  destruct (block_cache_find_entry_locked (entries c) lba) as [i|] eqn:E.
  - assert (Hca : cached c lba = Some (e_data (entries c).[i])) by (unfold cached; by rewrite E).
    split_and!; try done. intros Hl. by apply Hc.
  - destruct (block_device_read_sector dev lba (disk c)) as [[scratch|e] d] eqn:Er.
    + pose proof (dev_read_frame _ _ _ _ Er) as Hd. pose proof (dev_read_ok _ _ _ _ Er) as Hs.
      destruct (store_wf lba scratch (set_disk c d)) as [Hwf' Hdd]; [by apply set_disk_wf|].
      split_and!; try done.
      * apply store_coherent; [|by apply set_disk_wf|by intros _; simpl; rewrite Hd].
        intros l x Hl _ Hx. simpl. rewrite Hd. by apply Hc.
      * by rewrite Hdd.
      * destruct (store_cached lba scratch (set_disk c d) lba) as [H1 _]; [by apply set_disk_wf|].
        rewrite H1. by rewrite decide_True.
    + pose proof (dev_read_frame _ _ _ _ Er) as Hd. split; [by apply coherent_disk|done].
Qed.

Lemma write_cases bad c lba data :
  coherent bad c →
  let '(r, c') := block_cache_write_sector lba data c in
  (∀ l, l ≠ lba → dev_sector (disk c') l = dev_sector (disk c) l) ∧
  match r with
  | Ok _ => lba < sector_count dev ∧ coherent (bad ∖ {[lba]}) c' ∧
            dev_sector (disk c') lba = data ∧ cached c' lba = Some data
  | Err _ => coherent (bad ∪ {[lba]}) c'
  end.
Proof.
  intros [Hwf Hc]. unfold block_cache_write_sector. rewrite (cw_dev c Hwf).
  destruct (Z.leb_spec (sector_count dev) lba); [by split; [|eapply coherent_mono; [|by split]; set_solver]|].
  assert (Hbad : ∀ d, (∀ l, l ≠ lba → dev_sector d l = dev_sector (disk c) l) →
                      coherent (bad ∪ {[lba]}) (set_disk c d)).
  { intros d Hd. split; [by apply set_disk_wf|]. intros l x Hl Hx. simpl.
    rewrite Hd by set_solver. apply Hc; [set_solver|done]. }
  destruct (block_device_write_sector dev lba data (disk c)) as [[[]|e] d] eqn:Ew;
    pose proof (dev_write_frame _ _ _ _ _ Ew) as Hd; [|by split; [|apply Hbad]].
  pose proof (dev_write_ok _ _ _ _ Ew) as Hw.
  destruct (block_device_flush dev d) as [[[]|e] d2] eqn:Ef;
    pose proof (dev_flush_frame _ _ _ Ef) as Hf.
  - destruct (store_wf lba data (set_disk c d2)) as [Hwf' Hdd]; [by apply set_disk_wf|].
    rewrite Hdd. simpl. rewrite !Hf. split_and!; try done.
    + intros l Hl. by rewrite Hf, Hd.
    + apply store_coherent; [|by apply set_disk_wf|by intros _; simpl; rewrite Hf].
      intros l x Hl Hne Hx. simpl. rewrite Hf, Hd by done. apply Hc; [set_solver|done].
    + destruct (store_cached lba data (set_disk c d2) lba) as [H1 _]; [by apply set_disk_wf|].
      rewrite H1. by rewrite decide_True.
  - split; [intros l Hl; simpl; by rewrite Hf, Hd|]. apply Hbad. intros l Hl. by rewrite Hf, Hd.
Qed.

Lemma flush_cases bad c :
  coherent bad c →
  let '(r, c') := block_cache_flush c in coherent bad c' ∧ same_disk (disk c) (disk c').
Proof.
  intros Hc. unfold block_cache_flush. rewrite (cw_dev c (proj1 Hc)).
  destruct (block_device_flush dev (disk c)) as [r d] eqn:E.
  pose proof (dev_flush_frame _ _ _ E). split; [by apply coherent_disk|done].
Qed.

Lemma cached_hit c lba data :
  cache_wf c → lba < sector_count dev → cached c lba = Some data →
  block_cache_read_sector lba c = (Ok data, c).
Proof.
  intros Hwf Hl Hca. unfold block_cache_read_sector. rewrite (cw_dev c Hwf).
  rewrite (proj2 (Z.leb_gt _ _) Hl). unfold cached in Hca.
  destruct (block_cache_find_entry_locked (entries c) lba); [by injection Hca as ->|done].
Qed.

(** The two critical sections of a read that misses: what the device gave is
    stored after the lock was released in between. *)
Definition read_fetch (lba : Z) c : res (list Z) * bcache δ :=
  let '(r, d) := block_device_read_sector dev lba (disk c) in (r, set_disk c d).

Definition read_store (lba : Z) (scratch : list Z) c : bcache δ := block_cache_store_locked lba scratch c.

Lemma read_sector_sections c lba :
  cache_wf c → lba < sector_count dev → cached c lba = None →
  block_cache_read_sector lba c =
  (let '(r, c) := read_fetch lba c in
   match r with Err e => (Err e, c) | Ok scratch => (Ok scratch, read_store lba scratch c) end).
Proof.
  intros Hwf Hl Hca. unfold block_cache_read_sector, read_fetch. rewrite (cw_dev c Hwf).
  rewrite (proj2 (Z.leb_gt _ _) Hl). unfold cached in Hca.
  destruct (block_cache_find_entry_locked (entries c) lba); [done|].
  by destruct (block_device_read_sector dev lba (disk c)) as [[]].
Qed.
End coherence.

(** * Properties *)

(** C27: The cache is transparent: a read gives the device's sector (whether it
    hits, misses or evicts) and changes no sector; a write that succeeds has
    changed exactly its sector on the device and in the cache.  The only
    sectors whose cached copy may differ from the device are those whose last
    write failed, and a later successful write repairs them. *)
Theorem block_cache_transparent {δ} (dev : block_device δ) `{!DeviceLaws dev} bad c lba data :
  coherent dev bad c →
  (let '(r, c') := block_cache_read_sector lba c in
   coherent dev bad c' ∧ same_disk dev (disk c) (disk c') ∧
   match r with
   | Ok x => lba < sector_count dev ∧ (lba ∉ bad → x = dev_sector (disk c) lba) ∧ cached c' lba = Some x
   | Err _ => True
   end) ∧
  (let '(r, c') := block_cache_write_sector lba data c in
   (∀ l, l ≠ lba → dev_sector (disk c') l = dev_sector (disk c) l) ∧
   match r with
   | Ok _ => lba < sector_count dev ∧ coherent dev (bad ∖ {[lba]}) c' ∧
             dev_sector (disk c') lba = data ∧ cached c' lba = Some data
   | Err _ => coherent dev (bad ∪ {[lba]}) c'
   end).
Proof. intros Hc. split; [exact (read_cases dev bad c lba Hc)|exact (write_cases dev bad c lba data Hc)]. Qed.

(** A disk in memory whose flush works while the second component is true. *)
Definition mem_ops : block_device_ops (gmap Z (list Z) * bool) :=
  DevOps (Some (λ lba '(m, good), (Ok (default [] (m !! lba)), (m, good))))
         (Some (λ lba data '(m, good), (Ok tt, (<[lba := data]> m, good))))
         (Some (λ '(m, good), (if good : bool then Ok tt else Err KERR_FAULT, (m, good)))).

Definition mem_dev : block_device (gmap Z (list Z) * bool) := Dev (Some mem_ops) 1000.

#[export] Instance mem_dev_laws : DeviceLaws mem_dev.
Proof.
  refine {| dev_sector (d : gmap Z (list Z) * bool) lba := default [] (fst d !! lba) |}; unfold block_device_read_sector,
    block_device_write_sector, block_device_flush; simpl.
  - intros lba [m g] data d'. case_match; by intros [= <- <-].
  - intros lba [m g] r d'. case_match; by intros [= <- <-].
  - intros lba data [m g] d'. case_match; [done|]. intros [= <-]. simpl. by rewrite lookup_insert_eq.
  - intros lba data [m g] r d'. case_match; intros [= <- <-] l Hl; simpl; [done|].
    by rewrite lookup_insert_ne.
  - by intros [m g] r d' [= <- <-].
Defined.

Definition mem_cache (good : bool) : bcache (gmap Z (list Z) * bool) :=
  Cache (Some mem_dev) (replicate 64 entry_zero) 0 (∅, good).

Lemma mem_cache_wf good : cache_wf mem_dev (mem_cache good).
Proof.
  split; simpl; [done|reflexivity|done|]. intros i j Hi Hj Hv.
  change (entries (mem_cache good)) with (replicate 64 entry_zero) in Hv.
  rewrite (aget_replicate 64 entry_zero) in Hv by (unfold BLOCK_CACHE_ENTRY_COUNT in *; lia). done.
Qed.

Lemma mem_cache_coherent good : coherent mem_dev ∅ (mem_cache good).
Proof.
  split; [apply mem_cache_wf|]. intros lba data _ H.
  apply (cached_iff mem_dev) in H as (i & Hi & He); [|apply mem_cache_wf].
  change (entries (mem_cache good)) with (replicate 64 entry_zero) in He.
  rewrite (aget_replicate 64 entry_zero) in He by (unfold BLOCK_CACHE_ENTRY_COUNT in *; lia). done.
Qed.

Lemma block_cache_transparent_witness :
  let c1 := snd (block_cache_write_sector 7 [1; 2; 3] (mem_cache true)) in
  fst (block_cache_read_sector 7 c1) = Ok [1; 2; 3] ∧ coherent mem_dev (∅ ∖ {[7]}) c1.
Proof.
  cbv zeta. split; [vm_compute; reflexivity|].
  pose proof (block_cache_transparent mem_dev ∅ (mem_cache true) 7 [1; 2; 3] (mem_cache_coherent true)) as [_ H].
  destruct (block_cache_write_sector 7 [1; 2; 3] (mem_cache true)) as [r c1] eqn:E.
  assert (Hr : r = Ok tt) by (revert E; vm_compute; by intros [= <- _]). subst r.
  destruct H as (_ & _ & H & _). exact H.
Defined.

(** When the device accepts a write but its flush fails, the call reports
    the error and leaves an older cached copy in place: the device holds the
    new data while every read keeps returning the old data from the cache. *)
Theorem flush_failure_stale {δ} (dev : block_device δ) `{!DeviceLaws dev} c lba old data d1 d2 e :
  cache_wf dev c → lba < sector_count dev → cached c lba = Some old →
  block_device_write_sector dev lba data (disk c) = (Ok tt, d1) →
  block_device_flush dev d1 = (Err e, d2) →
  let c' := set_disk c d2 in
  block_cache_write_sector lba data c = (Err e, c') ∧
  dev_sector (disk c') lba = data ∧ block_cache_read_sector lba c' = (Ok old, c').
Proof.
  intros Hwf Hl Hca Hw Hf c'. split_and!.
  - unfold block_cache_write_sector. rewrite (cw_dev dev c Hwf), (proj2 (Z.leb_gt _ _) Hl), Hw.
    by rewrite Hf.
  - simpl. rewrite (dev_flush_frame _ _ _ Hf). by eapply dev_write_ok.
  - apply (cached_hit dev); [by apply set_disk_wf|done|done].
Qed.

(** The device's flush starts failing after sector 7 was cached. *)
Definition mem_cache_broken : bcache (gmap Z (list Z) * bool) :=
  let c := snd (block_cache_write_sector 7 [1] (mem_cache true)) in set_disk c (fst (disk c), false).

Lemma flush_failure_stale_witness :
  let '(r, c') := block_cache_write_sector 7 [2] mem_cache_broken in
  r = Err KERR_FAULT ∧ dev_sector (disk c') 7 = [2] ∧ fst (block_cache_read_sector 7 c') = Ok [1].
Proof.
  pose proof (flush_failure_stale mem_dev mem_cache_broken 7 [1] [2]
    (<[7 := [2]]> (fst (disk mem_cache_broken)), false) (<[7 := [2]]> (fst (disk mem_cache_broken)), false)
    KERR_FAULT) as H.
  destruct H as (H1 & H2 & H3); [|reflexivity|vm_compute; reflexivity|reflexivity|reflexivity|].
  - apply set_disk_wf, (store_wf mem_dev 7 [1] (set_disk (mem_cache true) (<[7 := [1]]> ∅, true))).
    apply set_disk_wf, mem_cache_wf.
  - rewrite H1. split; [reflexivity|]. split; [exact H2|]. by rewrite H3.
Defined.

(** Because a read that misses drops the lock between fetching the sector
    and storing it, another task's write of the same sector in between is
    undone in the cache: the write has reached the device, yet the cache then
    serves the sector as it was before the write. *)
Theorem read_race_stale {δ} (dev : block_device δ) `{!DeviceLaws dev} bad c lba data scratch c1 c2 :
  coherent dev bad c → lba < sector_count dev → cached c lba = None →
  read_fetch dev lba c = (Ok scratch, c1) →
  block_cache_write_sector lba data c1 = (Ok tt, c2) →
  let c3 := read_store lba scratch c2 in
  scratch = dev_sector (disk c) lba ∧ dev_sector (disk c3) lba = data ∧
  block_cache_read_sector lba c3 = (Ok scratch, c3).
Proof.
  intros Hc Hl Hca Hfetch Hw c3. unfold read_fetch in Hfetch.
  destruct (block_device_read_sector dev lba (disk c)) as [r d] eqn:Er. injection Hfetch as -> <-.
  pose proof (dev_read_frame _ _ _ _ Er) as Hd. pose proof (dev_read_ok _ _ _ _ Er) as ->.
  assert (Hc1 : coherent dev bad (set_disk c d)) by (by apply coherent_disk).
  pose proof (write_cases dev bad (set_disk c d) lba data Hc1) as Hwc. rewrite Hw in Hwc.
  destruct Hwc as (_ & _ & [Hwf2 _] & Hd2 & _).
  destruct (store_wf dev lba (dev_sector (disk c) lba) c2 Hwf2) as [Hwf3 Hd3].
  split; [done|]. split; [unfold c3, read_store; by rewrite Hd3|].
  apply (cached_hit dev); [done|done|].
  destruct (store_cached dev lba (dev_sector (disk c) lba) c2 lba Hwf2) as [H1 _].
  unfold c3, read_store. rewrite H1. by rewrite decide_True.
Qed.

Lemma read_race_stale_witness :
  let '(r, c1) := read_fetch mem_dev 9 (mem_cache true) in
  let '(w, c2) := block_cache_write_sector 9 [5] c1 in
  w = Ok tt ∧ fst (block_cache_read_sector 9 (read_store 9 [] c2)) = Ok [].
Proof.
  pose proof (read_race_stale mem_dev ∅ (mem_cache true) 9 [5] [] (mem_cache true)
    (snd (block_cache_write_sector 9 [5] (mem_cache true)))) as H.
  destruct H as (_ & _ & H); [apply mem_cache_coherent|reflexivity|reflexivity|reflexivity|reflexivity|].
  change (read_fetch mem_dev 9 (mem_cache true)) with ((Ok [] : res (list Z)), mem_cache true).
  cbv iota beta.
  destruct (block_cache_write_sector 9 [5] (mem_cache true)) as [w c2] eqn:E. cbn [snd] in H.
  rewrite H. split; [|reflexivity]. revert E. vm_compute. by intros [= <- _].
Defined.
