(* ===== verification/PersistFs.v ===== *)
(** kernel/persistfs.c: the persistent file system.

    A superblock, a table of 64 file slots of at most 20 blocks, and a block
    bitmap, kept in memory and written through the block cache.  [pfs] holds
    the file-scope variables, the cache below and the heap the handles come
    from.  On-disk structures are encoded byte by byte as the C structs lie in
    memory; the file table is the array of [persistfs_file_slot], whose
    elements also hold the slot's [vfs_node]. *)

From S2P Require Import Prelude Bytes Kmalloc VfsNode KFile BlockCache.

Definition PERSISTFS_MAGIC : Z := 1347569235.
Definition PERSISTFS_VERSION : Z := 1.
Definition PERSISTFS_BLOCK_SIZE : Z := 512.
Definition PERSISTFS_FILE_TABLE_ENTRIES : Z := 64.
Definition PERSISTFS_FILE_TABLE_LBA : Z := 1.
Definition PERSISTFS_FILE_TABLE_SECTORS : Z := 16.
Definition PERSISTFS_BITMAP_LBA : Z := 17.
Definition PERSISTFS_BITMAP_SECTORS : Z := 8.
Definition PERSISTFS_DATA_START_LBA : Z := 25.
Definition PERSISTFS_MAX_FILENAME : Z := 32.
Definition PERSISTFS_DIRECT_BLOCKS : Z := 20.
Definition PERSISTFS_MAX_FILE_SIZE : Z := 10240.
Definition PERSISTFS_BITMAP_BYTES : Z := 4096.
Definition PERSISTFS_BITMAP_BITS : Z := 32768.

(** * Structures and their layout *)

Record persistfs_superblock_disk := Super {
  sb_magic : Z;
  sb_version : Z;
  sb_clean : Z;
  sb_total_sectors : Z;
  sb_file_table_lba : Z;
  sb_file_table_sectors : Z;
  sb_bitmap_lba : Z;
  sb_bitmap_sectors : Z;
  sb_data_start_lba : Z;
  sb_max_files : Z;
  sb_reserved : list Z
}.

Definition super_zero : persistfs_superblock_disk := Super 0 0 0 0 0 0 0 0 0 0 (replicate 118 0).

Record persistfs_file_entry_disk := FileEntry {
  fe_in_use : Z;
  fe_generation : Z;
  fe_size_bytes : Z;
  fe_block_count : Z;
  fe_name : list Z;
  fe_direct_blocks : list Z
}.

Definition file_entry_zero : persistfs_file_entry_disk :=
  FileEntry 0 0 0 0 (replicate 32 0) (replicate 20 0).

(** The words of the [vfs_node] inside a slot: name, type, ops and private
    pointer. *)
Record slot_node := SlotNode { sn_name : Z; sn_type : Z; sn_ops : Z; sn_private : Z }.

Record persistfs_file_slot := FileSlot {
  slot_disk : persistfs_file_entry_disk;
  slot_vfs_node : slot_node
}.

Definition file_slot_zero : persistfs_file_slot := FileSlot file_entry_zero (SlotNode 0 0 0 0).

#[export] Instance file_slot_inhabited : Inhabited persistfs_file_slot := populate file_slot_zero.

Definition super_bytes (sb : persistfs_superblock_disk) : list Z :=
  concat (le32 <$> [sb_magic sb; sb_version sb; sb_clean sb; sb_total_sectors sb; sb_file_table_lba sb;
                    sb_file_table_sectors sb; sb_bitmap_lba sb; sb_bitmap_sectors sb;
                    sb_data_start_lba sb; sb_max_files sb] ++ (sb_reserved sb)).

Definition super_of_bytes (b : list Z) : persistfs_superblock_disk :=
  Super (de32 b 0) (de32 b 4) (de32 b 8) (de32 b 12) (de32 b 16) (de32 b 20) (de32 b 24) (de32 b 28)
        (de32 b 32) (de32 b 36) (de32s b 40 118).

(** 128 bytes. *)
Definition entry_bytes (e : persistfs_file_entry_disk) : list Z :=
  le32 (fe_in_use e) ++ le32 (fe_generation e) ++ le32 (fe_size_bytes e) ++ le32 (fe_block_count e) ++
  fe_name e ++ concat (le32 <$> fe_direct_blocks e).

Definition entry_of_bytes (b : list Z) (off : Z) : persistfs_file_entry_disk :=
  FileEntry (de32 b off) (de32 b (off + 4)) (de32 b (off + 8)) (de32 b (off + 12))
            (slice b (off + 16) PERSISTFS_MAX_FILENAME) (de32s b (off + 48) PERSISTFS_DIRECT_BLOCKS).

Definition node_bytes (n : slot_node) : list Z :=
  le32 (sn_name n) ++ le32 (sn_type n) ++ le32 (sn_ops n) ++ le32 (sn_private n).

Definition node_of_bytes (b : list Z) (off : Z) : slot_node :=
  SlotNode (de32 b off) (de32 b (off + 4)) (de32 b (off + 8)) (de32 b (off + 12)).

(** [sizeof(struct persistfs_file_slot)]: the entry and its node. *)
Definition SLOT_SIZE : Z := 144.

Definition slot_bytes (sl : persistfs_file_slot) : list Z :=
  entry_bytes (slot_disk sl) ++ node_bytes (slot_vfs_node sl).

(** The array [g_persistfs_slots] as memory. *)
Definition slots_bytes (slots : list persistfs_file_slot) : list Z := concat (slot_bytes <$> slots).

Definition slots_of_bytes (b : list Z) : list persistfs_file_slot :=
  (λ i, FileSlot (entry_of_bytes b (SLOT_SIZE * i)) (node_of_bytes b (SLOT_SIZE * i + 128)))
    <$> seqZ 0 PERSISTFS_FILE_TABLE_ENTRIES.

(** * State *)

Record pfs (δ : Type) := Pfs {
  cache : bcache δ;
  g_super : persistfs_superblock_disk;
  g_slots : list persistfs_file_slot;
  g_bitmap : list Z;
  data_block_count : Z;
  mounted : bool;
  pheap : kheap;
  (** the [persistfs_open_file] at each handle address: slot and generation *)
  open_files : gmap Z (Z * Z);
  root_dir : vfs_static_dir
}.
Arguments Pfs {_} _ _ _ _ _ _ _ _ _.
Arguments cache {_} _.
Arguments g_super {_} _.
Arguments g_slots {_} _.
Arguments g_bitmap {_} _.
Arguments data_block_count {_} _.
Arguments mounted {_} _.
Arguments pheap {_} _.
Arguments open_files {_} _.
Arguments root_dir {_} _.

Section state.
Context {δ : Type}.
Implicit Types (s : pfs δ).

Definition with_cache s c : pfs δ :=
  Pfs c (g_super s) (g_slots s) (g_bitmap s) (data_block_count s) (mounted s) (pheap s) (open_files s) (root_dir s).
Definition with_super s sb : pfs δ :=
  Pfs (cache s) sb (g_slots s) (g_bitmap s) (data_block_count s) (mounted s) (pheap s) (open_files s) (root_dir s).
Definition with_slots s sl : pfs δ :=
  Pfs (cache s) (g_super s) sl (g_bitmap s) (data_block_count s) (mounted s) (pheap s) (open_files s) (root_dir s).
Definition with_bitmap s bm : pfs δ :=
  Pfs (cache s) (g_super s) (g_slots s) bm (data_block_count s) (mounted s) (pheap s) (open_files s) (root_dir s).
Definition with_block_count s n : pfs δ :=
  Pfs (cache s) (g_super s) (g_slots s) (g_bitmap s) n (mounted s) (pheap s) (open_files s) (root_dir s).
Definition with_mounted s b : pfs δ :=
  Pfs (cache s) (g_super s) (g_slots s) (g_bitmap s) (data_block_count s) b (pheap s) (open_files s) (root_dir s).
Definition with_handles s h o : pfs δ :=
  Pfs (cache s) (g_super s) (g_slots s) (g_bitmap s) (data_block_count s) (mounted s) h o (root_dir s).
Definition with_root s r : pfs δ :=
  Pfs (cache s) (g_super s) (g_slots s) (g_bitmap s) (data_block_count s) (mounted s) (pheap s) (open_files s) r.

Definition set_clean s (v : Z) : pfs δ :=
  let sb := g_super s in
  with_super s (Super (sb_magic sb) (sb_version sb) v (sb_total_sectors sb) (sb_file_table_lba sb)
    (sb_file_table_sectors sb) (sb_bitmap_lba sb) (sb_bitmap_sectors sb) (sb_data_start_lba sb)
    (sb_max_files sb) (sb_reserved sb)).

(** [slot->disk] of slot [i], and writing it. *)
Definition disk_of s (i : Z) : persistfs_file_entry_disk := slot_disk (g_slots s).[i].

Definition set_disk_of (i : Z) (e : persistfs_file_entry_disk) s : pfs δ :=
  with_slots s (g_slots s).[i <- FileSlot e (slot_vfs_node (g_slots s).[i])].

(** Calls into the block cache. *)
Definition cache_read (lba : Z) s : res (list Z) * pfs δ :=
  let '(r, c) := block_cache_read_sector lba (cache s) in (r, with_cache s c).
Definition cache_write (lba : Z) (data : list Z) s : res unit * pfs δ :=
  let '(r, c) := block_cache_write_sector lba data (cache s) in (r, with_cache s c).
Definition cache_flush s : res unit * pfs δ :=
  let '(r, c) := block_cache_flush (cache s) in (r, with_cache s c).
End state.

(** The fields of an entry. *)
Definition e_set_blocks (e : persistfs_file_entry_disk) (n : Z) (bs : list Z) : persistfs_file_entry_disk :=
  FileEntry (fe_in_use e) (fe_generation e) (fe_size_bytes e) n (fe_name e) bs.
Definition e_set_size (e : persistfs_file_entry_disk) (n : Z) : persistfs_file_entry_disk :=
  FileEntry (fe_in_use e) (fe_generation e) n (fe_block_count e) (fe_name e) (fe_direct_blocks e).
Definition e_set_generation (e : persistfs_file_entry_disk) (g : Z) : persistfs_file_entry_disk :=
  FileEntry (fe_in_use e) g (fe_size_bytes e) (fe_block_count e) (fe_name e) (fe_direct_blocks e).
Definition e_set_in_use (e : persistfs_file_entry_disk) (u : Z) : persistfs_file_entry_disk :=
  FileEntry u (fe_generation e) (fe_size_bytes e) (fe_block_count e) (fe_name e) (fe_direct_blocks e).
Definition e_set_name (e : persistfs_file_entry_disk) (n : list Z) : persistfs_file_entry_disk :=
  FileEntry (fe_in_use e) (fe_generation e) (fe_size_bytes e) (fe_block_count e) n (fe_direct_blocks e).

(** [if (slot->disk.in_use)]. *)
Definition used_entry (e : persistfs_file_entry_disk) : bool := negb (fe_in_use e =? 0).

(** * Names, generations and the bitmap *)

Definition persistfs_name_eq (lhs rhs : list Z) (rhs_len : Z) : bool := name_eq lhs rhs rhs_len.

(** The name buffer after [memcpy(dst, src, len); dst[len] = 0]. *)
Definition persistfs_copy_name (dst src : list Z) (len : Z) : list Z :=
  if len =? 0 then dst else overlay dst 0 (take (Z.to_nat len) src ++ [NUL]).

Definition persistfs_name_valid (name : list Z) (name_len : Z) : bool :=
  if (name_len =? 0) || (PERSISTFS_MAX_FILENAME <=? name_len) then false
  else forallb (λ i, negb ((cget name i =? SLASH) || (cget name i =? NUL))) (seqZ 0 name_len).

Definition persistfs_next_generation (current : Z) : Z :=
  let next := add32 current 1 in if next =? 0 then 1 else next.

(** A bit of the byte array. *)
Definition bm_mask (bit : Z) : Z := Z.shiftl 1 (Z.land bit 7).
Definition bm_test (bm : list Z) (bit : Z) : bool :=
  negb (Z.land (cget bm (Z.shiftr bit 3)) (bm_mask bit) =? 0).
Definition bm_set (bm : list Z) (bit : Z) : list Z :=
  <[Z.to_nat (Z.shiftr bit 3) := Z.lor (cget bm (Z.shiftr bit 3)) (bm_mask bit)]> bm.
Definition bm_clear (bm : list Z) (bit : Z) : list Z :=
  <[Z.to_nat (Z.shiftr bit 3) := Z.land (cget bm (Z.shiftr bit 3)) (255 - bm_mask bit)]> bm.

Section bitmap.
Context {δ : Type}.
Implicit Types (s : pfs δ).

Definition persistfs_bitmap_test (bit : Z) s : bool :=
  if data_block_count s <=? bit then true else bm_test (g_bitmap s) bit.
Definition persistfs_bitmap_set (bit : Z) s : pfs δ := with_bitmap s (bm_set (g_bitmap s) bit).
Definition persistfs_bitmap_clear (bit : Z) s : pfs δ := with_bitmap s (bm_clear (g_bitmap s) bit).

(** The first clear bit, now set. *)
Definition persistfs_alloc_data_block s : res Z * pfs δ :=
  match search_range 0 (data_block_count s)
          (λ bit, if persistfs_bitmap_test bit s then None else Some bit) with
  | Some bit => (Ok bit, persistfs_bitmap_set bit s)
  | None => (Err KERR_NOMEM, s)
  end.

Definition persistfs_free_data_block (block_index : Z) s : pfs δ :=
  if data_block_count s <=? block_index then s else persistfs_bitmap_clear block_index s.
End bitmap.

Section fs.
Context {δ : Type}.
(** Addresses the linker chooses: the slot table and the file node's
    operation table. *)
Variables slots_addr file_node_ops_addr : Z.
Implicit Types (s : pfs δ).

Definition persistfs_setup_slot_node (i : Z) s : pfs δ :=
  with_slots s (g_slots s).[i <- FileSlot (slot_disk (g_slots s).[i])
    (SlotNode (slots_addr + SLOT_SIZE * i + 16) (node_type_code VFS_NODE_FILE) file_node_ops_addr i)].

(** * Writing the metadata *)

Definition persistfs_sync_superblock s : res unit * pfs δ := cache_write 0 (super_bytes (g_super s)) s.

(** The sector at index [i] of the table: 512 bytes from [&g_persistfs_slots[4 * i].disk]. *)
Definition table_sector (slots : list persistfs_file_slot) (i : Z) : list Z :=
  slice (slots_bytes slots) (SLOT_SIZE * (i * 4)) PERSISTFS_BLOCK_SIZE.

(** A loop of sector writes that stops at the first failure. *)
Fixpoint write_sectors (lba : Z) (sector : Z → list Z) (is_ : list Z) s : res unit * pfs δ :=
  match is_ with
  | [] => (Ok tt, s)
  | i :: is_' =>
      match cache_write (lba + i) (sector i) s with
      | (Err _, s) => (Err KERR_FAULT, s)
      | (Ok _, s) => write_sectors lba sector is_' s
      end
  end.

Definition persistfs_sync_file_table s : res unit * pfs δ :=
  write_sectors PERSISTFS_FILE_TABLE_LBA (table_sector (g_slots s)) (seqZ 0 PERSISTFS_FILE_TABLE_SECTORS) s.

Definition persistfs_sync_bitmap s : res unit * pfs δ :=
  write_sectors PERSISTFS_BITMAP_LBA (λ i, slice (g_bitmap s) (i * PERSISTFS_BLOCK_SIZE) PERSISTFS_BLOCK_SIZE)
    (seqZ 0 PERSISTFS_BITMAP_SECTORS) s.

Definition persistfs_sync_metadata s : res unit * pfs δ :=
  let s := set_clean s 0 in
  trys! _, s := persistfs_sync_superblock s in
  trys! _, s := cache_flush s in
  trys! _, s := persistfs_sync_file_table s in
  trys! _, s := persistfs_sync_bitmap s in
  trys! _, s := cache_flush s in
  let s := set_clean s 1 in
  trys! _, s := persistfs_sync_superblock s in
  match cache_flush s with
  | (Err e, s) => let '(_, s) := persistfs_sync_superblock (set_clean s 0) in (Err e, s)
  | (Ok _, s) => (Ok tt, s)
  end.

Definition persistfs_mark_clean s : res unit * pfs δ :=
  if negb (sb_clean (g_super s) =? 0) then (Ok tt, s)
  else
    match persistfs_sync_superblock (set_clean s 1) with
    | (Err e, s) => (Err e, set_clean s 0)
    | (Ok _, s) =>
        match cache_flush s with
        | (Err e, s) => let '(_, s) := persistfs_sync_superblock (set_clean s 0) in (Err e, s)
        | (Ok _, s) => (Ok tt, s)
        end
    end.

(** * Reading the metadata *)

(** [memcpy(&g_persistfs_slots[4 * i].disk, sector, 512)]. *)
Definition load_sector (slots : list persistfs_file_slot) (i : Z) (sector : list Z)
    : list persistfs_file_slot :=
  slots_of_bytes (overlay (slots_bytes slots) (SLOT_SIZE * (i * 4)) sector).

Fixpoint load_table_sectors (is_ : list Z) s : res unit * pfs δ :=
  match is_ with
  | [] => (Ok tt, s)
  | i :: is_' =>
      match cache_read (PERSISTFS_FILE_TABLE_LBA + i) s with
      | (Err _, s) => (Err KERR_FAULT, s)
      | (Ok sector, s) => load_table_sectors is_' (with_slots s (load_sector (g_slots s) i sector))
      end
  end.

Definition name_with (e : persistfs_file_entry_disk) (i c : Z) : persistfs_file_entry_disk :=
  e_set_name e (<[Z.to_nat i := c]> (fe_name e)).

Definition fix_generation (e : persistfs_file_entry_disk) : persistfs_file_entry_disk :=
  if fe_generation e =? 0 then e_set_generation e 1 else e.

(** The checks on a used entry: its counts, then its block numbers. *)
Definition entry_in_bounds (blocks : Z) (e : persistfs_file_entry_disk) : bool :=
  if (PERSISTFS_DIRECT_BLOCKS <? fe_block_count e) || (PERSISTFS_MAX_FILE_SIZE <? fe_size_bytes e) then false
  else forallb (λ j, cget (fe_direct_blocks e) j <? blocks) (seqZ 0 (fe_block_count e)).

(** The validation loop of [persistfs_load_file_table]. *)
Fixpoint check_loaded_slots (is_ : list Z) s : res unit * pfs δ :=
  match is_ with
  | [] => (Ok tt, s)
  | i :: is_' =>
      let e := disk_of s i in
      if negb (used_entry e) then
        let s := set_disk_of i (fix_generation (name_with e 0 NUL)) s in
        check_loaded_slots is_' (persistfs_setup_slot_node i s)
      else
        let e := fix_generation (name_with e (PERSISTFS_MAX_FILENAME - 1) NUL) in
        let s := set_disk_of i e s in
        if negb (entry_in_bounds (data_block_count s) e) then (Err KERR_FAULT, s)
        else check_loaded_slots is_' (persistfs_setup_slot_node i s)
  end.

Definition persistfs_load_file_table s : res unit * pfs δ :=
  trys! _, s := load_table_sectors (seqZ 0 PERSISTFS_FILE_TABLE_SECTORS) s in
  check_loaded_slots (seqZ 0 PERSISTFS_FILE_TABLE_ENTRIES) s.

Fixpoint load_bitmap_sectors (is_ : list Z) s : res unit * pfs δ :=
  match is_ with
  | [] => (Ok tt, s)
  | i :: is_' =>
      match cache_read (PERSISTFS_BITMAP_LBA + i) s with
      | (Err _, s) => (Err KERR_FAULT, s)
      | (Ok sector, s) =>
          load_bitmap_sectors is_' (with_bitmap s (overlay (g_bitmap s) (i * PERSISTFS_BLOCK_SIZE) sector))
      end
  end.

Definition persistfs_load_bitmap s : res unit * pfs δ :=
  load_bitmap_sectors (seqZ 0 PERSISTFS_BITMAP_SECTORS) s.

(** * The sanity pass *)

(** Marking the blocks of one file in the expected bitmap; a block out of
    range or marked twice is an error. *)
Fixpoint expect_blocks (blocks : Z) (direct : list Z) (js : list Z) (bm : list Z) : res (list Z) :=
  match js with
  | [] => Ok bm
  | j :: js' =>
      let block := cget direct j in
      if blocks <=? block then Err KERR_FAULT
      else if bm_test bm block then Err KERR_FAULT
      else expect_blocks blocks direct js' (bm_set bm block)
  end.

Fixpoint expect_slots (blocks : Z) (slots : list persistfs_file_slot) (bm : list Z) : res (list Z) :=
  match slots with
  | [] => Ok bm
  | sl :: slots' =>
      let e := slot_disk sl in
      if negb (used_entry e) then expect_slots blocks slots' bm
      else if (PERSISTFS_DIRECT_BLOCKS <? fe_block_count e) || (PERSISTFS_MAX_FILE_SIZE <? fe_size_bytes e)
      then Err KERR_FAULT
      else
        try! bm := expect_blocks blocks (fe_direct_blocks e) (seqZ 0 (fe_block_count e)) bm in
        expect_slots blocks slots' bm
  end.

(** One bit of the repair loop: the bitmap and how many bits were set and
    cleared so far. *)
Definition repair_bit (expected : list Z) (bit : Z) (st : list Z * Z * Z) : list Z * Z * Z :=
  let '(bm, repaired_set, repaired_clear) := st in
  let expected_set := bm_test expected bit in
  let current_set := bm_test bm bit in
  if expected_set && negb current_set then (bm_set bm bit, add32 repaired_set 1, repaired_clear)
  else if negb expected_set && current_set then (bm_clear bm bit, repaired_set, add32 repaired_clear 1)
  else st.

Definition persistfs_run_metadata_sanity_pass s : res unit * pfs δ :=
  match expect_slots (data_block_count s) (g_slots s) (replicate 4096 0) with
  | Err e => (Err e, s)
  | Ok expected =>
      let '(bm, repaired_set, repaired_clear) :=
        for_range 0 (data_block_count s) (repair_bit expected) (g_bitmap s, 0, 0) in
      let s := with_bitmap s bm in
      if negb (repaired_set =? 0) || negb (repaired_clear =? 0) then persistfs_sync_metadata s
      else persistfs_mark_clean s
  end.

Definition persistfs_validate_superblock (sb : persistfs_superblock_disk) (sectors : Z) : res unit :=
  if negb (sb_magic sb =? PERSISTFS_MAGIC) || negb (sb_version sb =? PERSISTFS_VERSION) then Err KERR_NOENT
  else if negb (sb_total_sectors sb =? sectors) ||
          negb (sb_file_table_lba sb =? PERSISTFS_FILE_TABLE_LBA) ||
          negb (sb_file_table_sectors sb =? PERSISTFS_FILE_TABLE_SECTORS) ||
          negb (sb_bitmap_lba sb =? PERSISTFS_BITMAP_LBA) ||
          negb (sb_bitmap_sectors sb =? PERSISTFS_BITMAP_SECTORS) ||
          negb (sb_data_start_lba sb =? PERSISTFS_DATA_START_LBA) ||
          negb (sb_max_files sb =? PERSISTFS_FILE_TABLE_ENTRIES) then Err KERR_FAULT
  else if sb_total_sectors sb <=? sb_data_start_lba sb then Err KERR_FAULT
  else Ok tt.

Definition formatted_super (sectors : Z) : persistfs_superblock_disk :=
  Super PERSISTFS_MAGIC PERSISTFS_VERSION 1 sectors PERSISTFS_FILE_TABLE_LBA PERSISTFS_FILE_TABLE_SECTORS
        PERSISTFS_BITMAP_LBA PERSISTFS_BITMAP_SECTORS PERSISTFS_DATA_START_LBA PERSISTFS_FILE_TABLE_ENTRIES
        (replicate 118 0).

(** One round of the loop of [persistfs_format]. *)
Definition format_slot (i : Z) s : pfs δ :=
  persistfs_setup_slot_node i (set_disk_of i (e_set_generation (disk_of s i) 1) s).

Definition persistfs_format (sectors : Z) s : res unit * pfs δ :=
  let s := with_bitmap (with_slots s (replicate 64 file_slot_zero)) (replicate 4096 0) in
  let s := for_range 0 PERSISTFS_FILE_TABLE_ENTRIES format_slot s in
  persistfs_sync_metadata (with_super s (formatted_super sectors)).

Definition persistfs_find_slot_by_name (name : list Z) (name_len : Z) s : res Z :=
  match search_range 0 PERSISTFS_FILE_TABLE_ENTRIES (λ i,
          if negb (used_entry (disk_of s i)) then None
          else if persistfs_name_eq (fe_name (disk_of s i)) name name_len then Some i else None) with
  | Some i => Ok i
  | None => Err KERR_NOENT
  end.

Definition persistfs_find_free_slot s : res Z :=
  match search_range 0 PERSISTFS_FILE_TABLE_ENTRIES (λ i,
          if negb (used_entry (disk_of s i)) then Some i else None) with
  | Some i => Ok i
  | None => Err KERR_NOMEM
  end.

(** * Blocks of a file *)

(** One round of the loop of [persistfs_release_file_blocks]. *)
Definition release_block (slot k : Z) s : pfs δ :=
  let s := persistfs_free_data_block (cget (fe_direct_blocks (disk_of s slot)) k) s in
  let e := disk_of s slot in
  set_disk_of slot (e_set_blocks e (fe_block_count e) (<[Z.to_nat k := 0]> (fe_direct_blocks e))) s.

Definition persistfs_release_file_blocks (slot : Z) s : pfs δ :=
  let s := for_range 0 (Z.min (fe_block_count (disk_of s slot)) PERSISTFS_DIRECT_BLOCKS)
             (release_block slot) s in
  let e := disk_of s slot in
  set_disk_of slot (e_set_size (e_set_blocks e 0 (fe_direct_blocks e)) 0) s.

(** [while (block_count > old_count)], one round per block. *)
Fixpoint rollback_blocks (n : nat) (slot old_count : Z) s : pfs δ :=
  match n with
  | O => s
  | S n' =>
      if fe_block_count (disk_of s slot) <=? old_count then s
      else
        let idx := fe_block_count (disk_of s slot) - 1 in
        let s := persistfs_free_data_block (cget (fe_direct_blocks (disk_of s slot)) idx) s in
        let e := disk_of s slot in
        rollback_blocks n' slot old_count
          (set_disk_of slot (e_set_blocks e (fe_block_count e - 1) (<[Z.to_nat idx := 0]> (fe_direct_blocks e))) s)
  end.

(** [while (block_count < required_blocks)], one round per block; [Err] goes
    to the rollback. *)
Fixpoint grow_blocks (n : nat) (slot required_blocks : Z) s : res unit * pfs δ :=
  match n with
  | O => (Ok tt, s)
  | S n' =>
      if required_blocks <=? fe_block_count (disk_of s slot) then (Ok tt, s)
      else
        trys! block_index, s := persistfs_alloc_data_block s in
        match cache_write (add32 (sb_data_start_lba (g_super s)) block_index) (replicate 512 0) s with
        | (Err e, s) => (Err e, persistfs_free_data_block block_index s)
        | (Ok _, s) =>
            let e := disk_of s slot in
            grow_blocks n' slot required_blocks
              (set_disk_of slot (e_set_blocks e (fe_block_count e + 1)
                 (<[Z.to_nat (fe_block_count e) := block_index]> (fe_direct_blocks e))) s)
        end
  end.

Definition persistfs_ensure_file_blocks (slot required_blocks : Z) s : res unit * pfs δ :=
  if PERSISTFS_DIRECT_BLOCKS <? required_blocks then (Err KERR_NOMEM, s)
  else if required_blocks <=? fe_block_count (disk_of s slot) then (Ok tt, s)
  else
    let old_count := fe_block_count (disk_of s slot) in
    match grow_blocks (Z.to_nat required_blocks) slot required_blocks s with
    | (Ok _, s) => (Ok tt, s)
    | (Err _, s) => (Err KERR_NOMEM, rollback_blocks (Z.to_nat required_blocks) slot old_count s)
    end.

(** * Open files *)

(** The slot behind an open file: its handle must name a used slot of the same
    generation. *)
Definition persistfs_handle_get_slot (f : kfile) s : res Z :=
  if f_private f =? 0 then Err KERR_FAULT
  else
    let '(slot_index, generation) := default (0, 0) (open_files s !! f_private f) in
    if PERSISTFS_FILE_TABLE_ENTRIES <=? slot_index then Err KERR_FAULT
    else if negb (used_entry (disk_of s slot_index)) ||
            negb (fe_generation (disk_of s slot_index) =? generation) then Err KERR_NOENT
    else Ok slot_index.

(** [dir != &g_persistfs_dir] is an error in every directory operation. *)
Definition is_persist_dir (dir : vfs_node) : bool := bool_decide (dir = g_persistfs_dir).

Definition persistfs_dir_lookup (dir : vfs_node) (name : list Z) (name_len : Z) s : res vfs_node :=
  if name_len =? 0 then Err KERR_INVAL
  else if negb (is_persist_dir dir) then Err KERR_INVAL
  else
    match persistfs_find_slot_by_name name name_len s with
    | Err _ => Err KERR_NOENT
    | Ok i => Ok (persistfs_slot_node i)
    end.

(** The entries copied: the first [entry_cap] used slots; a name is the 32
    bytes of the slot with the last one cleared. *)
Definition persistfs_dir_list (dir : vfs_node) (has_entries : bool) (entry_cap : Z) s
    : res (list vfs_dir_entry) :=
  if negb (is_persist_dir dir) then Err KERR_INVAL
  else if negb (entry_cap =? 0) && negb has_entries then Err KERR_INVAL
  else Ok ((λ sl, DirEntry VFS_NODE_FILE (<[31%nat := NUL]> (fe_name (slot_disk sl))))
             <$> take (Z.to_nat entry_cap) (filter (λ sl, used_entry (slot_disk sl) = true) (g_slots s))).

(** The node's [backend_private] is the slot number. *)
Definition persistfs_file_open (slot_index open_flags : Z) s : res kfile * pfs δ :=
  if PERSISTFS_FILE_TABLE_ENTRIES <=? slot_index then (Err KERR_FAULT, s)
  else if negb (used_entry (disk_of s slot_index)) then (Err KERR_NOENT, s)
  else if open_flag open_flags SYSCALL_OPEN_FLAG_TRUNC && negb (open_flag open_flags SYSCALL_OPEN_FLAG_WRITE)
  then (Err KERR_INVAL, s)
  else
    trys! _, s :=
      (if open_flag open_flags SYSCALL_OPEN_FLAG_TRUNC
       then persistfs_sync_metadata (persistfs_release_file_blocks slot_index s)
       else (Ok tt, s)) in
    let '(handle, h) := kmalloc 8 (pheap s) in
    if handle =? 0 then (Err KERR_NOMEM, with_handles s h (open_files s))
    else
      let s := with_handles s h
        (<[handle := (slot_index, fe_generation (disk_of s slot_index))]> (open_files s)) in
      let f := kfile_init (Some (persistfs_slot_node slot_index)) (Some g_persistfs_kfile_ops) handle open_flags in
      (Ok (if open_flag open_flags SYSCALL_OPEN_FLAG_APPEND
           then set_offset f (fe_size_bytes (disk_of s slot_index)) else f), s).

Definition persistfs_dir_create_open (dir : vfs_node) (name : list Z) (name_len open_flags : Z) s
    : res kfile * pfs δ :=
  if negb (is_persist_dir dir) then (Err KERR_INVAL, s)
  else if negb (persistfs_name_valid name name_len) then (Err KERR_INVAL, s)
  else if open_flag open_flags SYSCALL_OPEN_FLAG_TRUNC && negb (open_flag open_flags SYSCALL_OPEN_FLAG_WRITE)
  then (Err KERR_INVAL, s)
  else
    match persistfs_find_slot_by_name name name_len s with
    | Ok i => persistfs_file_open i open_flags s
    | Err _ =>
        match persistfs_find_free_slot s with
        | Err e => (Err e, s)
        | Ok i =>
            let prev_generation := fe_generation (disk_of s i) in
            let s := set_disk_of i
              (FileEntry 1 (persistfs_next_generation prev_generation) 0 0
                 (persistfs_copy_name (replicate 32 0) name name_len) (replicate 20 0)) s in
            let s := persistfs_setup_slot_node i s in
            match persistfs_sync_metadata s with
            | (Err e, s) => (Err e, set_disk_of i (e_set_generation file_entry_zero 1) s)
            | (Ok _, s) => persistfs_file_open i open_flags s
            end
        end
    end.

Definition persistfs_dir_unlink (dir : vfs_node) (name : list Z) (name_len : Z) s : res unit * pfs δ :=
  if name_len =? 0 then (Err KERR_INVAL, s)
  else if negb (is_persist_dir dir) then (Err KERR_INVAL, s)
  else
    match persistfs_find_slot_by_name name name_len s with
    | Err _ => (Err KERR_NOENT, s)
    | Ok i =>
        let s := persistfs_release_file_blocks i s in
        let e := disk_of s i in
        persistfs_sync_metadata
          (set_disk_of i (name_with (e_set_generation (e_set_in_use e 0)
                                       (persistfs_next_generation (fe_generation e))) 0 NUL) s)
    end.

(** The read loop: every round copies at least one byte, so [len] rounds end
    it.  The pieces read so far are [acc]. *)
Fixpoint read_rounds (fuel : nat) (slot : Z) (f : kfile) (len : Z) (acc : list Z) s
    : res (list Z) * kfile * pfs δ :=
  match fuel with
  | O => (Ok acc, f, s)
  | S fuel' =>
      let e := disk_of s slot in
      if negb ((0 <? len) && (f_offset f <? fe_size_bytes e)) then (Ok acc, f, s)
      else
        let block_idx := f_offset f / PERSISTFS_BLOCK_SIZE in
        let block_off := f_offset f mod PERSISTFS_BLOCK_SIZE in
        let remaining_in_file := sub32 (fe_size_bytes e) (f_offset f) in
        if fe_block_count e <=? block_idx then (Ok acc, f, s)
        else
          let chunk := Z.min (Z.min (PERSISTFS_BLOCK_SIZE - block_off) len) remaining_in_file in
          let data_lba := add32 (sb_data_start_lba (g_super s)) (cget (fe_direct_blocks e) block_idx) in
          match cache_read data_lba s with
          | (Err er, s) => (Err er, f, s)
          | (Ok sector, s) =>
              read_rounds fuel' slot (set_offset f (add32 (f_offset f) chunk)) (len - chunk)
                          (acc ++ slice sector block_off chunk) s
          end
  end.

Definition persistfs_file_read (f : kfile) (has_buf : bool) (len : Z) s : res (list Z) * kfile * pfs δ :=
  if negb (len =? 0) && negb has_buf then (Err KERR_INVAL, f, s)
  else
    match persistfs_handle_get_slot f s with
    | Err e => (Err e, f, s)
    | Ok slot =>
        if (len =? 0) || (fe_size_bytes (disk_of s slot) <=? f_offset f) then (Ok [], f, s)
        else read_rounds (Z.to_nat len) slot f len [] s
    end.

(** The write loop; it stops at the first failing sector.  The result is the
    bytes written, the bytes left, the file and the state. *)
Fixpoint write_rounds (fuel : nat) (slot : Z) (f : kfile) (src : list Z) (len total : Z) s
    : Z * Z * kfile * pfs δ :=
  match fuel with
  | O => (total, len, f, s)
  | S fuel' =>
      if negb (0 <? len) then (total, len, f, s)
      else
        let block_idx := f_offset f / PERSISTFS_BLOCK_SIZE in
        let block_off := f_offset f mod PERSISTFS_BLOCK_SIZE in
        let chunk := Z.min (PERSISTFS_BLOCK_SIZE - block_off) len in
        let data_lba := add32 (sb_data_start_lba (g_super s))
                              (cget (fe_direct_blocks (disk_of s slot)) block_idx) in
        match (if negb (chunk =? PERSISTFS_BLOCK_SIZE) then cache_read data_lba s
               else (Ok (replicate 512 0), s)) with
        | (Err _, s) => (total, len, f, s)
        | (Ok sector, s) =>
            match cache_write data_lba (overlay sector block_off (slice src total chunk)) s with
            | (Err _, s) => (total, len, f, s)
            | (Ok _, s) =>
                write_rounds fuel' slot (set_offset f (add32 (f_offset f) chunk)) src (len - chunk)
                             (total + chunk) s
            end
        end
  end.

(** The result code, [*out_written], the file and the state. *)
Definition persistfs_file_write (f : kfile) (buf : option (list Z)) (len : Z) s
    : res unit * Z * kfile * pfs δ :=
  if negb (len =? 0) && negb (bool_decide (is_Some buf)) then (Err KERR_INVAL, 0, f, s)
  else if negb (open_flag (f_flags f) SYSCALL_OPEN_FLAG_WRITE) then (Err KERR_NOTSUP, 0, f, s)
  else
    match persistfs_handle_get_slot f s with
    | Err e => (Err e, 0, f, s)
    | Ok slot =>
        let f := if open_flag (f_flags f) SYSCALL_OPEN_FLAG_APPEND
                 then set_offset f (fe_size_bytes (disk_of s slot)) else f in
        if fe_size_bytes (disk_of s slot) <? f_offset f then (Err KERR_INVAL, 0, f, s)
        else if len =? 0 then (Ok tt, 0, f, s)
        else
          let write_start := f_offset f in
          let write_end := add32 write_start len in
          if (write_end <? write_start) || (PERSISTFS_MAX_FILE_SIZE <? write_end)
          then (Err KERR_NOMEM, 0, f, s)
          else
            let required_blocks := add32 write_end (PERSISTFS_BLOCK_SIZE - 1) / PERSISTFS_BLOCK_SIZE in
            match persistfs_ensure_file_blocks slot required_blocks s with
            | (Err e, s) => (Err e, 0, f, s)
            | (Ok _, s) =>
                let '(total, len, f, s) := write_rounds (Z.to_nat len) slot f (default [] buf) len 0 s in
                let s := if fe_size_bytes (disk_of s slot) <? f_offset f
                         then set_disk_of slot (e_set_size (disk_of s slot) (f_offset f)) s else s in
                let '(rc, s) := persistfs_sync_metadata s in
                match rc with
                | Err e => if total =? 0 then (Err e, 0, f, s)
                           else (if len =? 0 then Ok tt else Err KERR_FAULT, total, f, s)
                | Ok _ => (if len =? 0 then Ok tt else Err KERR_FAULT, total, f, s)
                end
            end
    end.

Definition persistfs_file_close (f : kfile) s : res unit * pfs δ :=
  if f_private f =? 0 then (Ok tt, s)
  else (Ok tt, with_handles s (kfree (f_private f) (pheap s)) (open_files s)).

(** ["persist"]. *)
Definition name_persist : list Z := [112; 101; 114; 115; 105; 115; 116].

(** The part of [persistfs_mount] that reads or makes the file system. *)
Definition mount_metadata (sectors : Z) s : res unit * pfs δ :=
  match persistfs_validate_superblock (g_super s) sectors with
  | Err _ => persistfs_format sectors s
  | Ok _ =>
      trys! _, s := persistfs_load_file_table s in
      trys! _, s := persistfs_load_bitmap s in
      if sb_clean (g_super s) =? 0 then persistfs_run_metadata_sanity_pass s else (Ok tt, s)
  end.

Definition persistfs_mount s : res unit * pfs δ :=
  if mounted s then (Ok tt, s)
  else if negb (block_cache_is_ready (cache s)) then (Err KERR_NOTSUP, s)
  else
    let sectors := block_cache_sector_count (cache s) in
    if sectors <=? PERSISTFS_DATA_START_LBA then (Err KERR_NOTSUP, s)
    else
      let s := with_block_count s (Z.min (sectors - PERSISTFS_DATA_START_LBA) PERSISTFS_BITMAP_BITS) in
      trys! super_sector, s := cache_read 0 s in
      let s := with_super s (super_of_bytes super_sector) in
      trys! _, s := mount_metadata sectors s in
      match vfs_register_root_child name_persist g_persistfs_dir (root_dir s) with
      | (Err e, r) => (Err e, with_root s r)
      | (Ok _, r) => (Ok tt, with_mounted (with_root s r) true)
      end.
End fs.
