(* ===== verification/PersistInv.v ===== *)
(** The block accounting of kernel/persistfs.c (definitions in PersistFs.v).

    [accounts bm n own]: the bits of the bitmap below [n] are exactly the
    blocks that [own] gives to the pairs (slot, index), each to one pair.
    [fs_wf] says this of the file table; every operation keeps it, failures of
    the device included. *)

From S2P Require Import Prelude Bytes Kmalloc VfsNode KFile BlockCache PersistFs.

(** * The bitmap *)

Definition is_byte (x : Z) : Prop := 0 ≤ x < 256.

Record bitmap_wf (bm : list Z) : Prop := {
  bw_len : alen bm = PERSISTFS_BITMAP_BYTES;
  bw_bytes : Forall is_byte bm
}.

Lemma shiftr3 b : Z.shiftr b 3 = b / 8.
Proof. by rewrite Z.shiftr_div_pow2. Qed.

Lemma land7 b : Z.land b 7 = b mod 8.
Proof. change 7 with (Z.ones 3). by rewrite Z.land_ones. Qed.

Lemma bm_test_bit bm b : bm_test bm b = test_bit (cget bm (b / 8)) (b mod 8).
Proof. unfold bm_test, bm_mask, test_bit, bit32. by rewrite shiftr3, land7. Qed.

Lemma bit_index b : 0 ≤ b < PERSISTFS_BITMAP_BITS → 0 ≤ b / 8 < PERSISTFS_BITMAP_BYTES ∧ 0 ≤ b mod 8 < 8.
Proof.
  unfold PERSISTFS_BITMAP_BITS, PERSISTFS_BITMAP_BYTES. intros Hb. split; [|by apply Z.mod_pos_bound].
  pose proof (Z.div_mod b 8 ltac:(lia)). pose proof (Z.mod_pos_bound b 8 ltac:(lia)). lia.
Qed.

Lemma bit_same b c : 0 ≤ b → 0 ≤ c → b / 8 = c / 8 → b mod 8 = c mod 8 → b = c.
Proof.
  intros. pose proof (Z.div_mod b 8 ltac:(lia)). pose proof (Z.div_mod c 8 ltac:(lia)). lia.
Qed.

Lemma cget_insert bm i x j :
  0 ≤ i < alen bm → 0 ≤ j → cget (<[Z.to_nat i := x]> bm) j = if decide (i = j) then x else cget bm j.
Proof.
  intros Hi Hj. unfold cget, alen in *. case_decide as He.
  - subst. by rewrite list_lookup_insert_eq by lia.
  - by rewrite list_lookup_insert_ne by lia.
Qed.

Lemma cget_byte bm i : Forall is_byte bm → is_byte (cget bm i).
Proof.
  intros HF. unfold cget. destruct (bm !! Z.to_nat i) eqn:E; simpl; [|by unfold is_byte].
  by apply (Forall_lookup_1 _ _ _ _ HF E).
Qed.

Lemma byte_u32 x : is_byte x → is_u32 x.
Proof. unfold is_byte, two32. lia. Qed.

Lemma byte_of_bits x : 0 ≤ x → (∀ n, 8 ≤ n → Z.testbit x n = false) → is_byte x.
Proof.
  intros Hx Hb. assert (Heq : x = x mod 2 ^ 8).
  { rewrite <- Z.land_ones by lia. apply Z.bits_inj'. intros n Hn. rewrite Z.land_spec.
    destruct (Z.lt_ge_cases n 8).
    - rewrite Z.ones_spec_low by lia. by rewrite andb_true_r.
    - rewrite Hb by lia. done. }
  unfold is_byte. rewrite Heq. by apply Z.mod_pos_bound.
Qed.

Lemma byte_testbit_high x n : is_byte x → 8 ≤ n → Z.testbit x n = false.
Proof.
  intros Hx Hn. rewrite <- (Z.mod_small x (2 ^ 8)) by (unfold is_byte in Hx; lia).
  apply Z.mod_pow2_bits_high. lia.
Qed.

Lemma not8_testbit m n : is_byte m → 0 ≤ n → Z.testbit (255 - m) n = (n <? 8) && negb (Z.testbit m n).
Proof.
  intros Hm Hn.
  assert (Heq : 255 - m = Z.ldiff (Z.ones 8) m).
  { rewrite <- Z.sub_nocarry_ldiff; [by rewrite Z.ones_equiv|].
    apply Z.bits_inj'. intros k Hk. rewrite Z.ldiff_spec, Z.bits_0.
    destruct (Z.lt_ge_cases k 8).
    - rewrite Z.ones_spec_low by lia. apply andb_false_r.
    - by rewrite byte_testbit_high by done. }
  rewrite Heq, Z.ldiff_spec. destruct (Z.ltb_spec n 8).
  - by rewrite Z.ones_spec_low by lia.
  - by rewrite Z.ones_spec_high by lia.
Qed.

Lemma bit32_byte b : 0 ≤ b < 8 → is_byte (bit32 b).
Proof.
  intros Hb. apply byte_of_bits; [apply bit32_u32; lia|]. intros n Hn.
  rewrite bit32_testbit by lia. apply bool_decide_false. lia.
Qed.

Lemma test_bit_clear8 w b c :
  is_byte w → 0 ≤ b < 8 → 0 ≤ c →
  test_bit (Z.land w (255 - bit32 b)) c = negb (bool_decide (b = c)) && test_bit w c.
Proof.
  intros Hw Hb Hc. rewrite !test_bit_testbit, Z.land_spec by lia.
  rewrite not8_testbit, bit32_testbit by (by apply bit32_byte || lia).
  rewrite (bool_decide_ext (c = b) (b = c)) by done.
  destruct (Z.ltb_spec c 8); simpl; [apply andb_comm|].
  rewrite byte_testbit_high by done. by rewrite !andb_false_r.
Qed.

Lemma bm_set_wf bm b : bitmap_wf bm → 0 ≤ b < PERSISTFS_BITMAP_BITS → bitmap_wf (bm_set bm b).
Proof.
  intros [Hl Hb] Hr. destruct (bit_index b Hr) as [_ Hm]. unfold bm_set. split.
  - unfold alen in *. by rewrite length_insert.
  - apply Forall_insert; [done|]. unfold bm_mask. rewrite land7.
    pose proof (cget_byte bm (Z.shiftr b 3) Hb) as Hg. pose proof (bit32_byte _ Hm) as Hbb.
    apply byte_of_bits.
    + apply Z.lor_nonneg. split; [apply Hg|apply Hbb].
    + intros n Hn. rewrite Z.lor_spec, !byte_testbit_high by done. done.
Qed.

Lemma bm_clear_wf bm b : bitmap_wf bm → 0 ≤ b < PERSISTFS_BITMAP_BITS → bitmap_wf (bm_clear bm b).
Proof.
  intros [Hl Hb] Hr. unfold bm_clear. split.
  - unfold alen in *. by rewrite length_insert.
  - apply Forall_insert; [done|].
    pose proof (cget_byte bm (Z.shiftr b 3) Hb) as Hg. apply byte_of_bits.
    + apply Z.land_nonneg. left. apply Hg.
    + intros n Hn. rewrite Z.land_spec, byte_testbit_high by done. done.
Qed.

Lemma bm_test_set bm b c :
  bitmap_wf bm → 0 ≤ b < PERSISTFS_BITMAP_BITS → 0 ≤ c →
  bm_test (bm_set bm b) c = bool_decide (b = c) || bm_test bm c.
Proof.
  intros [Hl Hb] Hr Hc. destruct (bit_index b Hr) as [Hi Hm].
  pose proof (Z.mod_pos_bound c 8 ltac:(lia)) as Hcm.
  rewrite !bm_test_bit. unfold bm_set, bm_mask. rewrite shiftr3, land7.
  rewrite cget_insert by (rewrite ?Hl; (done || by apply Z.div_pos)).
  change (Z.shiftl 1 (b mod 8)) with (bit32 (b mod 8)). case_decide as He.
  - rewrite test_bit_set by lia. rewrite He. f_equal.
    apply bool_decide_ext. split; [intros; by apply bit_same; try lia|by intros ->].
  - rewrite bool_decide_false; [done|]. by intros ->.
Qed.

Lemma bm_test_clear bm b c :
  bitmap_wf bm → 0 ≤ b < PERSISTFS_BITMAP_BITS → 0 ≤ c →
  bm_test (bm_clear bm b) c = negb (bool_decide (b = c)) && bm_test bm c.
Proof.
  intros [Hl Hb] Hr Hc. destruct (bit_index b Hr) as [Hi Hm].
  pose proof (Z.mod_pos_bound c 8 ltac:(lia)) as Hcm.
  rewrite !bm_test_bit. unfold bm_clear, bm_mask. rewrite shiftr3, land7.
  rewrite cget_insert by (rewrite ?Hl; (done || by apply Z.div_pos)).
  change (Z.shiftl 1 (b mod 8)) with (bit32 (b mod 8)). case_decide as He.
  - rewrite test_bit_clear8 by ((by apply cget_byte) || lia). rewrite He. do 2 f_equal.
    apply bool_decide_ext. split; [intros; by apply bit_same; try lia|by intros ->].
  - rewrite bool_decide_false; [done|]. by intros ->.
Qed.

Lemma bm_test_zero b : bm_test (replicate 4096 0) b = false.
Proof.
  rewrite bm_test_bit. assert (Hz : ∀ i, cget (replicate 4096 0) i = 0).
  { intros i. unfold cget. destruct (replicate 4096 0 !! Z.to_nat i) eqn:E; [|done].
    by apply lookup_replicate in E as [-> _]. }
  by rewrite Hz.
Qed.

Lemma bitmap_zero_wf : bitmap_wf (replicate 4096 0).
Proof.
  split; [unfold alen; by rewrite length_replicate|]. apply Forall_replicate. by unfold is_byte.
Qed.

(** * Accounts *)

Record accounts (bm : list Z) (n : Z) (own : Z → Z → option Z) : Prop := {
  ac_marked : ∀ i j b, own i j = Some b → 0 ≤ b < n ∧ bm_test bm b = true;
  ac_unique : ∀ i j i' j' b, own i j = Some b → own i' j' = Some b → i = i' ∧ j = j';
  ac_owned : ∀ b, 0 ≤ b < n → bm_test bm b = true → ∃ i j, own i j = Some b
}.

Definition own_set (own : Z → Z → option Z) (x y : Z) (v : option Z) (i j : Z) : option Z :=
  if decide (i = x ∧ j = y) then v else own i j.

Lemma accounts_ext bm n own own' :
  (∀ i j, own i j = own' i j) → accounts bm n own → accounts bm n own'.
Proof.
  intros He [Hm Hu Ho]. split.
  - intros i j b. rewrite <- He. apply Hm.
  - intros i j i' j' b. rewrite <- !He. apply Hu.
  - intros b Hb Ht. destruct (Ho b Hb Ht) as (i & j & Hij). exists i, j. by rewrite <- He.
Qed.

Lemma accounts_free bm n own i j b :
  bitmap_wf bm → n ≤ PERSISTFS_BITMAP_BITS → accounts bm n own → own i j = Some b →
  accounts (bm_clear bm b) n (own_set own i j None).
Proof.
  intros Hwf Hn [Hm Hu Ho] Hij. destruct (Hm i j b Hij) as [Hb _]. unfold own_set. split.
  - intros x y c. case_decide as Hd; [done|]. intros Hxy. destruct (Hm x y c Hxy) as [Hc Ht].
    split; [done|]. rewrite bm_test_clear by (done || lia). rewrite Ht.
    rewrite bool_decide_false; [done|]. intros ->. apply Hd. by eapply Hu.
  - intros x y x' y' c. do 2 (case_decide; [done|]). apply Hu.
  - intros c Hc. rewrite bm_test_clear by (done || lia). case_bool_decide; [done|]. simpl. intros Ht.
    destruct (Ho c Hc Ht) as (x & y & Hxy). exists x, y. rewrite decide_False; [done|].
    intros [-> ->]. congruence.
Qed.

Lemma accounts_alloc bm n own i j b :
  bitmap_wf bm → n ≤ PERSISTFS_BITMAP_BITS → accounts bm n own → 0 ≤ b < n → bm_test bm b = false →
  own i j = None → accounts (bm_set bm b) n (own_set own i j (Some b)).
Proof.
  intros Hwf Hn [Hm Hu Ho] Hb Hf Hij.
  assert (Hne : ∀ x y, own x y ≠ Some b).
  { intros x y Hxy. destruct (Hm x y b Hxy). congruence. }
  unfold own_set. split.
  - intros x y c. case_decide as Hd.
    + intros [= <-]. split; [done|]. rewrite bm_test_set by (done || lia). by rewrite bool_decide_true.
    + intros Hxy. destruct (Hm x y c Hxy) as [Hc Ht]. split; [done|].
      rewrite bm_test_set by (done || lia). rewrite Ht. apply orb_true_r.
  - intros x y x' y' c. repeat case_decide; naive_solver.
  - intros c Hc. rewrite bm_test_set by (done || lia). case_bool_decide as He; simpl.
    + intros _. subst. exists i, j. by rewrite decide_True.
    + intros Ht. destruct (Ho c Hc Ht) as (x & y & Hxy). exists x, y.
      rewrite decide_False; [done|]. intros [-> ->]. congruence.
Qed.

Lemma accounts_unmark bm n own b :
  bitmap_wf bm → n ≤ PERSISTFS_BITMAP_BITS → accounts bm n own → 0 ≤ b < n → bm_test bm b = false →
  accounts (bm_clear (bm_set bm b) b) n own.
Proof.
  intros Hwf Hn Ha Hb Hf.
  assert (Hsame : ∀ c, 0 ≤ c → bm_test (bm_clear (bm_set bm b) b) c = bm_test bm c).
  { intros c Hc. rewrite bm_test_clear by (try apply bm_set_wf; done || lia).
    rewrite bm_test_set by (done || lia). case_bool_decide; subst; simpl; by rewrite ?Hf. }
  destruct Ha as [Hm Hu Ho]. split; [|done|].
  - intros x y c Hxy. destruct (Hm x y c Hxy) as [Hc Ht]. by rewrite Hsame by lia.
  - intros c Hc. rewrite Hsame by lia. by apply Ho.
Qed.

(** * The file table *)

Definition block_of (e : persistfs_file_entry_disk) (j : Z) : option Z :=
  if decide (used_entry e = true ∧ 0 ≤ j < fe_block_count e) then Some (cget (fe_direct_blocks e) j) else None.

Definition own_of (slots : list persistfs_file_slot) (i j : Z) : option Z :=
  if decide (0 ≤ i < PERSISTFS_FILE_TABLE_ENTRIES) then block_of (slot_disk slots.[i]) j else None.

Definition entry_wf (e : persistfs_file_entry_disk) : Prop :=
  alen (fe_direct_blocks e) = PERSISTFS_DIRECT_BLOCKS ∧
  (used_entry e = true →
   0 ≤ fe_block_count e ≤ PERSISTFS_DIRECT_BLOCKS ∧ 0 ≤ fe_size_bytes e ≤ 512 * fe_block_count e).

Section wf.
Context {δ : Type}.
Implicit Types (s : pfs δ).

Record fs_wf s : Prop := {
  fw_len : alen (g_slots s) = PERSISTFS_FILE_TABLE_ENTRIES;
  fw_bitmap : bitmap_wf (g_bitmap s);
  fw_blocks : 0 ≤ data_block_count s ≤ PERSISTFS_BITMAP_BITS;
  fw_entries : ∀ i, 0 ≤ i < PERSISTFS_FILE_TABLE_ENTRIES → entry_wf (disk_of s i);
  fw_accounts : accounts (g_bitmap s) (data_block_count s) (own_of (g_slots s));
  fw_handles : ∀ h i g, open_files s !! h = Some (i, g) → 0 ≤ i < PERSISTFS_FILE_TABLE_ENTRIES
}.

Definition same_meta s s' : Prop :=
  g_slots s' = g_slots s ∧ g_bitmap s' = g_bitmap s ∧ data_block_count s' = data_block_count s ∧
  open_files s' = open_files s.

Lemma same_meta_wf s s' : same_meta s s' → fs_wf s → fs_wf s'.
Proof.
  intros (Hs & Hb & Hn & Ho) [H1 H2 H3 H4 H5 H6]. unfold disk_of in *.
  split; unfold disk_of; rewrite ?Hs, ?Hb, ?Hn, ?Ho; done.
Qed.

Lemma same_meta_trans s s' s'' : same_meta s s' → same_meta s' s'' → same_meta s s''.
Proof. unfold same_meta. intros (-> & -> & -> & ->) (-> & -> & -> & ->). done. Qed.

Lemma cache_write_meta lba data s : same_meta s (snd (cache_write lba data s)).
Proof. unfold cache_write. by destruct (block_cache_write_sector _ _ _). Qed.

Lemma cache_read_meta lba s : same_meta s (snd (cache_read lba s)).
Proof. unfold cache_read. by destruct (block_cache_read_sector _ _). Qed.

Lemma cache_flush_meta s : same_meta s (snd (cache_flush s)).
Proof. unfold cache_flush. by destruct (block_cache_flush _). Qed.

Lemma write_sectors_meta lba sector is_ s : same_meta s (snd (write_sectors lba sector is_ s)).
Proof.
  revert s. induction is_ as [|i is_ IH]; intros s; simpl; [done|].
  pose proof (cache_write_meta (lba + i) (sector i) s) as Hw.
  destruct (cache_write (lba + i) (sector i) s) as [[[]|e] s']; simpl in *; [|done].
  eapply same_meta_trans; [done|apply IH].
Qed.

Lemma sync_superblock_meta s : same_meta s (snd (persistfs_sync_superblock s)).
Proof. apply cache_write_meta. Qed.

Lemma sync_metadata_meta s : same_meta s (snd (persistfs_sync_metadata s)).
Proof.
  unfold persistfs_sync_metadata.
  set (s0 := set_clean s 0). assert (H0 : same_meta s s0) by done. clearbody s0.
  pose proof (sync_superblock_meta s0) as H1.
  destruct (persistfs_sync_superblock s0) as [[[]|?] s1]; simpl in *; [|by eapply same_meta_trans].
  pose proof (cache_flush_meta s1) as H2.
  destruct (cache_flush s1) as [[[]|?] s2]; simpl in *; [|by eauto using same_meta_trans].
  pose proof (write_sectors_meta PERSISTFS_FILE_TABLE_LBA (table_sector (g_slots s2))
    (seqZ 0 PERSISTFS_FILE_TABLE_SECTORS) s2) as H3. fold (persistfs_sync_file_table s2) in H3.
  destruct (persistfs_sync_file_table s2) as [[[]|?] s3]; simpl in *; [|by eauto using same_meta_trans].
  pose proof (write_sectors_meta PERSISTFS_BITMAP_LBA
    (λ i, slice (g_bitmap s3) (i * PERSISTFS_BLOCK_SIZE) PERSISTFS_BLOCK_SIZE)
    (seqZ 0 PERSISTFS_BITMAP_SECTORS) s3) as H4. fold (persistfs_sync_bitmap s3) in H4.
  destruct (persistfs_sync_bitmap s3) as [[[]|?] s4]; simpl in *; [|by eauto 6 using same_meta_trans].
  pose proof (cache_flush_meta s4) as H5.
  destruct (cache_flush s4) as [[[]|?] s5]; simpl in *; [|by eauto 7 using same_meta_trans].
  assert (H6 : same_meta s5 (set_clean s5 1)) by done.
  pose proof (sync_superblock_meta (set_clean s5 1)) as H7.
  destruct (persistfs_sync_superblock (set_clean s5 1)) as [[[]|?] s7]; simpl in *;
    [|by eauto 9 using same_meta_trans].
  pose proof (cache_flush_meta s7) as H8.
  destruct (cache_flush s7) as [[[]|?] s8]; simpl in *; [by eauto 10 using same_meta_trans|].
  assert (H9 : same_meta s8 (set_clean s8 0)) by done.
  pose proof (sync_superblock_meta (set_clean s8 0)) as H10.
  destruct (persistfs_sync_superblock (set_clean s8 0)) as [? s10]; simpl in *.
  by eauto 12 using same_meta_trans.
Qed.

Lemma mark_clean_meta s : same_meta s (snd (persistfs_mark_clean s)).
Proof.
  unfold persistfs_mark_clean. destruct (negb _); [done|].
  pose proof (sync_superblock_meta (set_clean s 1)) as H1.
  destruct (persistfs_sync_superblock (set_clean s 1)) as [[[]|?] s1]; simpl in *; [|done].
  pose proof (cache_flush_meta s1) as H2.
  destruct (cache_flush s1) as [[[]|?] s2]; simpl in *; [by eauto using same_meta_trans|].
  pose proof (sync_superblock_meta (set_clean s2 0)) as H3.
  destruct (persistfs_sync_superblock (set_clean s2 0)) as [? s3]; simpl in *.
  apply (same_meta_trans s s1); [done|]. by apply (same_meta_trans s1 s2).
Qed.

(** * Changing one entry *)

Lemma disk_of_set i j e s :
  alen (g_slots s) = PERSISTFS_FILE_TABLE_ENTRIES → 0 ≤ i < PERSISTFS_FILE_TABLE_ENTRIES → 0 ≤ j →
  disk_of (set_disk_of i e s) j = if decide (i = j) then e else disk_of s j.
Proof.
  intros Hl Hi Hj. unfold disk_of, set_disk_of. simpl. rewrite aget_aset by (rewrite ?Hl; done).
  by case_decide.
Qed.

(** The block map after an entry changed. *)
Lemma own_of_set s i e :
  alen (g_slots s) = PERSISTFS_FILE_TABLE_ENTRIES → 0 ≤ i < PERSISTFS_FILE_TABLE_ENTRIES →
  ∀ x y, own_of (g_slots (set_disk_of i e s)) x y =
         if decide (x = i) then block_of e y else own_of (g_slots s) x y.
Proof.
  intros Hl Hi x y. unfold own_of. case_decide as Hx.
  - fold (disk_of (set_disk_of i e s) x). rewrite disk_of_set by (done || lia).
    destruct (decide (i = x)) as [->|]; [by rewrite decide_True|]. by rewrite decide_False by congruence.
  - rewrite decide_False; [done|]. intros ->. done.
Qed.

Lemma set_entry_wf s bm i e own :
  fs_wf s → 0 ≤ i < PERSISTFS_FILE_TABLE_ENTRIES → bitmap_wf bm → entry_wf e →
  accounts bm (data_block_count s) own →
  (∀ x y, own x y = if decide (x = i) then block_of e y else own_of (g_slots s) x y) →
  fs_wf (set_disk_of i e (with_bitmap s bm)).
Proof.
  intros [Hl Hb Hn He Ha Hh] Hi Hbm Hew Hacc Hown. split; simpl; try done.
  - by arr.
  - intros j Hj. rewrite disk_of_set by (done || lia). case_decide; [done|by apply He].
  - eapply accounts_ext; [|exact Hacc]. intros x y. rewrite Hown. symmetry.
    by apply (own_of_set (with_bitmap s bm)).
Qed.

(** Changing fields that do not concern blocks. *)
Lemma set_entry_same s i e :
  fs_wf s → 0 ≤ i < PERSISTFS_FILE_TABLE_ENTRIES → entry_wf e →
  (∀ y, block_of e y = block_of (disk_of s i) y) → fs_wf (set_disk_of i e s).
Proof.
  intros Hwf Hi He Hb.
  assert (Hs : set_disk_of i e s = set_disk_of i e (with_bitmap s (g_bitmap s))) by (by destruct s).
  rewrite Hs. eapply set_entry_wf; [done|done|apply Hwf|done|apply Hwf|].
  intros x y. case_decide as Hx; [|done]. subst. rewrite Hb. unfold own_of.
  by rewrite decide_True by done.
Qed.

Lemma block_of_none e y : (fe_block_count e ≤ y ∨ y < 0) → block_of e y = None.
Proof. intros Hy. unfold block_of. rewrite decide_False; [done|]. lia. Qed.

Lemma block_of_some e y :
  used_entry e = true → 0 ≤ y < fe_block_count e → block_of e y = Some (cget (fe_direct_blocks e) y).
Proof. intros Hu Hy. unfold block_of. by rewrite decide_True. Qed.

Lemma own_of_in s i y : 0 ≤ i < PERSISTFS_FILE_TABLE_ENTRIES → own_of (g_slots s) i y = block_of (disk_of s i) y.
Proof. intros Hi. unfold own_of. by rewrite decide_True. Qed.
End wf.

Section ops.
Context {δ : Type}.
Implicit Types (s : pfs δ).

(** During a release of slot [x]: its first [k] blocks are given back. *)
Record releasing (x : Z) s0 (k : Z) s : Prop := {
  rl_slots : ∃ d, alen d = PERSISTFS_DIRECT_BLOCKS ∧
    (∀ j, k ≤ j → cget d j = cget (fe_direct_blocks (disk_of s0 x)) j) ∧
    g_slots s = (g_slots s0).[x <- FileSlot
      (e_set_blocks (disk_of s0 x) (fe_block_count (disk_of s0 x)) d) (slot_vfs_node (g_slots s0).[x])];
  rl_bitmap : bitmap_wf (g_bitmap s);
  rl_blocks : data_block_count s = data_block_count s0;
  rl_accounts : accounts (g_bitmap s) (data_block_count s)
    (λ i j, if decide (i = x ∧ j < k) then None else own_of (g_slots s0) i j);
  rl_handles : open_files s = open_files s0
}.

Lemma slot_eta (sl : persistfs_file_slot) :
  FileSlot (e_set_blocks (slot_disk sl) (fe_block_count (slot_disk sl)) (fe_direct_blocks (slot_disk sl)))
           (slot_vfs_node sl) = sl.
Proof. by destruct sl as [[] ?]. Qed.

Lemma release_block_step x s0 k s :
  fs_wf s0 → 0 ≤ x < PERSISTFS_FILE_TABLE_ENTRIES → used_entry (disk_of s0 x) = true →
  0 ≤ k < fe_block_count (disk_of s0 x) → releasing x s0 k s → releasing x s0 (k + 1) (release_block x k s).
Proof.
  intros Hwf Hx Hu Hk [(d & Hd & Hdk & Hs) Hb Hn Ha Hho].
  pose proof Hwf as [Hl _ Hbits He _ _]. destruct (He x Hx) as [Hd0 Hcnt]. destruct (Hcnt Hu) as [Hc _].
  assert (Hown : own_of (g_slots s0) x k = Some (cget (fe_direct_blocks (disk_of s0 x)) k)).
  { rewrite own_of_in by done. by apply block_of_some. }
  set (b := cget (fe_direct_blocks (disk_of s0 x)) k) in *.
  assert (Hdx : disk_of s x = e_set_blocks (disk_of s0 x) (fe_block_count (disk_of s0 x)) d).
  { unfold disk_of at 1. rewrite Hs, aget_aset_eq by (rewrite Hl; done). done. }
  destruct (ac_marked _ _ _ Ha x k b) as [Hbr _].
  { rewrite decide_False by lia. done. }
  unfold release_block. rewrite Hdx. simpl. rewrite (Hdk k) by lia. fold b.
  unfold persistfs_free_data_block. rewrite (proj2 (Z.leb_gt (data_block_count s) b)) by lia.
  assert (Hdx' : disk_of (persistfs_bitmap_clear b s) x = disk_of s x) by done.
  rewrite Hdx', Hdx. simpl. split; simpl.
  - exists (<[Z.to_nat k := 0]> d). split_and!.
    + unfold alen in *. by rewrite length_insert.
    + intros j Hj. rewrite cget_insert by (rewrite ?Hd; unfold PERSISTFS_DIRECT_BLOCKS in *; lia).
      rewrite decide_False by lia. apply Hdk. lia.
    + rewrite Hs, aset_aset. rewrite aget_aset_eq by (rewrite Hl; done). done.
  - apply bm_clear_wf; [done|lia].
  - done.
  - eapply accounts_ext; [|eapply (accounts_free _ _ _ x k b); [done|rewrite Hn; apply Hbits|exact Ha|]].
    + intros i j. unfold own_set. simpl. repeat case_decide; try done; lia.
    + simpl. by rewrite decide_False by lia.
  - done.
Qed.

Lemma release_cases x s :
  fs_wf s → 0 ≤ x < PERSISTFS_FILE_TABLE_ENTRIES → used_entry (disk_of s x) = true →
  let s' := persistfs_release_file_blocks x s in
  fs_wf s' ∧ data_block_count s' = data_block_count s ∧ open_files s' = open_files s ∧
  (∀ i, 0 ≤ i → i ≠ x → disk_of s' i = disk_of s i) ∧
  fe_block_count (disk_of s' x) = 0 ∧ fe_size_bytes (disk_of s' x) = 0 ∧
  fe_in_use (disk_of s' x) = fe_in_use (disk_of s x) ∧
  fe_generation (disk_of s' x) = fe_generation (disk_of s x) ∧
  fe_name (disk_of s' x) = fe_name (disk_of s x).
Proof.
  intros Hwf Hx Hu s'. pose proof Hwf as [Hl Hb Hn He Ha Hh].
  destruct (He x Hx) as [Hd0 Hcnt]. destruct (Hcnt Hu) as [Hc _].
  assert (HP : releasing x s (fe_block_count (disk_of s x))
    (for_range 0 (Z.min (fe_block_count (disk_of s x)) PERSISTFS_DIRECT_BLOCKS) (release_block x) s)).
  { rewrite Z.min_l by lia. apply (for_range_ind (releasing x s)); [lia| |].
    - split; [|done|done| |done].
      + exists (fe_direct_blocks (disk_of s x)). split_and!; try done.
        unfold disk_of. rewrite slot_eta, aset_id; [done|by rewrite Hl].
      + eapply accounts_ext; [|exact Ha]. intros i j. simpl. case_decide; [|done].
        destruct (decide (i = x)) as [->|]; [|lia]. rewrite own_of_in by done. apply block_of_none. lia.
    - intros k s1 Hk Hr. by apply release_block_step. }
  unfold s', persistfs_release_file_blocks. cbv zeta.
  destruct HP as [(d & Hd & _ & Hs) Hb' Hn' Ha' Hh'].
  set (s1 := for_range _ _ _ _) in *. clearbody s1.
  assert (Hdx : disk_of s1 x = e_set_blocks (disk_of s x) (fe_block_count (disk_of s x)) d).
  { unfold disk_of at 1. rewrite Hs, aget_aset_eq by (rewrite Hl; done). done. }
  assert (Hl1 : alen (g_slots s1) = PERSISTFS_FILE_TABLE_ENTRIES) by (rewrite Hs; by arr).
  assert (Hother : ∀ i, 0 ≤ i → i ≠ x → disk_of s1 i = disk_of s i).
  { intros i Hi Hne. unfold disk_of at 1. rewrite Hs, aget_aset_ne by lia. done. }
  rewrite Hdx. simpl. set (e := e_set_size _ _).
  assert (Hget : ∀ i, 0 ≤ i → disk_of (set_disk_of x e s1) i = if decide (x = i) then e else disk_of s1 i).
  { intros i Hi. by apply disk_of_set. }
  split_and!; try done.
  - split; simpl; [by arr|done|by rewrite Hn'| | |by rewrite Hh'].
    + intros i Hi. rewrite Hget by lia. case_decide as Hxi.
      * split; [done|]. intros _. simpl. unfold PERSISTFS_DIRECT_BLOCKS. lia.
      * rewrite Hother by lia. by apply He.
    + eapply accounts_ext; [|exact Ha']. intros i j. simpl.
      change (g_slots s1).[x<-_] with (g_slots (set_disk_of x e s1)). rewrite own_of_set by done.
      destruct (decide (i = x)) as [->|Hne].
      * rewrite (block_of_none e) by (simpl; lia). case_decide; [done|]. rewrite own_of_in by done.
        apply block_of_none. lia.
      * rewrite decide_False by lia. unfold own_of. case_decide; [|done].
        fold (disk_of s i) (disk_of s1 i). by rewrite Hother by lia.
  - intros i Hi Hne. rewrite Hget by done. rewrite decide_False by done. by apply Hother.
  - rewrite Hget by lia. by rewrite decide_True.
  - rewrite Hget by lia. by rewrite decide_True.
  - rewrite Hget by lia. by rewrite decide_True.
  - rewrite Hget by lia. by rewrite decide_True.
  - rewrite Hget by lia. by rewrite decide_True.
Qed.

(** Only the blocks of slot [x] changed. *)
Record blocks_only (x : Z) s s' : Prop := {
  bo_count : data_block_count s' = data_block_count s;
  bo_handles : open_files s' = open_files s;
  bo_other : ∀ i, 0 ≤ i → i ≠ x → disk_of s' i = disk_of s i;
  bo_entry : disk_of s' x = e_set_blocks (disk_of s x) (fe_block_count (disk_of s' x))
                                         (fe_direct_blocks (disk_of s' x))
}.

Lemma blocks_only_trans x s s' s'' : blocks_only x s s' → blocks_only x s' s'' → blocks_only x s s''.
Proof.
  intros [H1 H0 H2 H3] [H1' H0' H2' H3']. split; [congruence|congruence| |].
  - intros i Hi Hne. by rewrite H2', H2.
  - rewrite H3' at 1. rewrite H3. done.
Qed.

Lemma blocks_only_refl x s s' : same_meta s s' → blocks_only x s s'.
Proof.
  intros (Hs & _ & Hn & Ho). unfold disk_of. split; [done|done| |]; unfold disk_of; rewrite Hs; [done|].
  by destruct (slot_disk _).
Qed.

Lemma alloc_block_cases s :
  fs_wf s →
  match persistfs_alloc_data_block s with
  | (Ok b, s') => s' = with_bitmap s (bm_set (g_bitmap s) b) ∧ 0 ≤ b < data_block_count s ∧
                  bm_test (g_bitmap s) b = false ∧ ∀ c, 0 ≤ c < b → bm_test (g_bitmap s) c = true
  | (Err e, s') => e = KERR_NOMEM ∧ s' = s ∧ ∀ c, 0 ≤ c < data_block_count s → bm_test (g_bitmap s) c = true
  end.
Proof.
  intros Hwf. unfold persistfs_alloc_data_block, persistfs_bitmap_test.
  destruct (search_range _ _ _) as [b|] eqn:E.
  - apply search_range_Some in E as (i & Hi & Hf & Hlt). simpl in Hf.
    rewrite (proj2 (Z.leb_gt _ _)) in Hf by lia.
    destruct (bm_test (g_bitmap s) i) eqn:Ht; [done|]. injection Hf as <-.
    split_and!; try done; try lia. intros c Hc. specialize (Hlt c Hc). simpl in Hlt.
    rewrite (proj2 (Z.leb_gt _ _)) in Hlt by lia. by destruct (bm_test (g_bitmap s) c).
  - split_and!; try done. intros c Hc. rewrite search_range_None in E. specialize (E c Hc). simpl in E.
    rewrite (proj2 (Z.leb_gt _ _)) in E by lia. by destruct (bm_test (g_bitmap s) c).
Qed.

(** Appending one block to a file. *)
Lemma push_block x b s :
  fs_wf s → 0 ≤ x < PERSISTFS_FILE_TABLE_ENTRIES → used_entry (disk_of s x) = true →
  fe_block_count (disk_of s x) < PERSISTFS_DIRECT_BLOCKS →
  0 ≤ b < data_block_count s → bm_test (g_bitmap s) b = false →
  let e := disk_of s x in
  let e' := e_set_blocks e (fe_block_count e + 1)
              (<[Z.to_nat (fe_block_count e) := b]> (fe_direct_blocks e)) in
  fs_wf (set_disk_of x e' (with_bitmap s (bm_set (g_bitmap s) b))).
Proof.
  intros Hwf Hx Hu Hlt Hb Hf e e'. pose proof Hwf as [Hl Hbm Hn He Ha Hh].
  destruct (He x Hx) as [Hd Hcnt]. destruct (Hcnt Hu) as [Hc Hsz]. fold e in Hd, Hc, Hsz, Hlt, Hu.
  assert (Hu' : used_entry e' = true) by done.
  eapply set_entry_wf; [done|done|apply bm_set_wf; [done|lia]| | |].
  - split; [unfold alen in *; simpl; by rewrite length_insert|]. intros _. simpl. lia.
  - apply (accounts_alloc _ _ _ x (fe_block_count e) b Hbm (proj2 Hn) Ha Hb Hf).
    rewrite own_of_in by done. apply block_of_none. fold e. lia.
  - intros i j. unfold own_set. destruct (decide (i = x)) as [->|Hne].
    + rewrite own_of_in by done. fold e. destruct (decide (j = fe_block_count e)) as [->|Hj].
      * rewrite decide_True by done. rewrite (block_of_some e') by (done || simpl; lia). simpl.
        rewrite cget_insert by (rewrite ?Hd; lia). by rewrite decide_True.
      * rewrite decide_False by (intros [_ ?]; done). unfold block_of.
        destruct (decide (used_entry e = true ∧ 0 ≤ j < fe_block_count e)) as [[_ Hjr]|Hjr].
        -- rewrite decide_True by (split; [done|simpl; lia]). simpl.
           rewrite cget_insert by (rewrite ?Hd; lia). by rewrite decide_False by lia.
        -- rewrite decide_False; [done|]. simpl. intros [_ ?]. apply Hjr. split; [done|lia].
    + by rewrite decide_False by (intros [? _]; done).
Qed.

(** Taking the last block of a file away. *)
Lemma pop_block x s :
  fs_wf s → 0 ≤ x < PERSISTFS_FILE_TABLE_ENTRIES → used_entry (disk_of s x) = true →
  let e := disk_of s x in
  0 < fe_block_count e → fe_size_bytes e ≤ 512 * (fe_block_count e - 1) →
  let idx := fe_block_count e - 1 in
  let e' := e_set_blocks e (fe_block_count e - 1) (<[Z.to_nat idx := 0]> (fe_direct_blocks e)) in
  cget (fe_direct_blocks e) idx < data_block_count s ∧
  fs_wf (set_disk_of x e' (with_bitmap s (bm_clear (g_bitmap s) (cget (fe_direct_blocks e) idx)))).
Proof.
  intros Hwf Hx Hu e Hpos Hsz idx e'. pose proof Hwf as [Hl Hbm Hn He Ha Hh].
  destruct (He x Hx) as [Hd Hcnt]. destruct (Hcnt Hu) as [Hc Hsz0]. fold e in Hd, Hc, Hsz0, Hu.
  assert (Hown : own_of (g_slots s) x idx = Some (cget (fe_direct_blocks e) idx)).
  { rewrite own_of_in by done. apply block_of_some; [done|]. fold e. unfold idx. lia. }
  destruct (ac_marked _ _ _ Ha _ _ _ Hown) as [Hb _]. split; [lia|].
  assert (Hu' : used_entry e' = true) by done.
  eapply set_entry_wf; [done|done|apply bm_clear_wf; [done|lia]| | |].
  - split; [unfold alen in *; simpl; by rewrite length_insert|]. intros _. simpl. lia.
  - apply (accounts_free _ _ _ x idx _ Hbm (proj2 Hn) Ha Hown).
  - intros i j. unfold own_set. destruct (decide (i = x)) as [->|Hne].
    + rewrite own_of_in by done. fold e. destruct (decide (j = idx)) as [->|Hj].
      * rewrite decide_True by done. symmetry. apply block_of_none. simpl. unfold idx. lia.
      * rewrite decide_False by (intros [_ ?]; done). unfold block_of.
        destruct (decide (used_entry e = true ∧ 0 ≤ j < fe_block_count e)) as [[_ Hjr]|Hjr].
        -- rewrite decide_True by (split; [done|simpl; unfold idx in *; lia]). simpl.
           rewrite cget_insert by (rewrite ?Hd; unfold idx; lia). by rewrite decide_False by (unfold idx in *; lia).
        -- rewrite decide_False; [done|]. simpl. intros [_ ?]. apply Hjr. split; [done|lia].
    + by rewrite decide_False by (intros [? _]; done).
Qed.

Lemma set_blocks_only x s bm n d :
  alen (g_slots s) = PERSISTFS_FILE_TABLE_ENTRIES → 0 ≤ x < PERSISTFS_FILE_TABLE_ENTRIES →
  blocks_only x s (set_disk_of x (e_set_blocks (disk_of s x) n d) (with_bitmap s bm)).
Proof.
  intros Hl Hx. split; [done|done| |].
  - intros i Hi Hne. rewrite disk_of_set by done. by rewrite decide_False.
  - rewrite disk_of_set by (done || lia). by rewrite decide_True.
Qed.

Lemma used_blocks_only x s s' :
  blocks_only x s s' → used_entry (disk_of s' x) = used_entry (disk_of s x).
Proof. intros [_ _ _ He]. by rewrite He. Qed.

Lemma size_blocks_only x s s' :
  blocks_only x s s' → fe_size_bytes (disk_of s' x) = fe_size_bytes (disk_of s x).
Proof. intros [_ _ _ He]. by rewrite He. Qed.

(** The first [n] blocks of a file are the same. *)
Definition blocks_kept (n x : Z) s s' : Prop :=
  ∀ j, 0 ≤ j < n → cget (fe_direct_blocks (disk_of s' x)) j = cget (fe_direct_blocks (disk_of s x)) j.

Lemma blocks_kept_trans n m x s s' s'' : n ≤ m → blocks_kept n x s s' → blocks_kept m x s' s'' → blocks_kept n x s s''.
Proof. intros Hn H H' j Hj. rewrite H' by lia. by apply H. Qed.

Lemma blocks_kept_set n x s s2 c k b :
  alen (g_slots s2) = PERSISTFS_FILE_TABLE_ENTRIES → 0 ≤ x < PERSISTFS_FILE_TABLE_ENTRIES →
  n ≤ k < alen (fe_direct_blocks (disk_of s x)) →
  blocks_kept n x s (set_disk_of x (e_set_blocks (disk_of s x) c (<[Z.to_nat k := b]> (fe_direct_blocks (disk_of s x)))) s2).
Proof.
  intros Hl Hx Hk j Hj. rewrite disk_of_set by (done || lia). rewrite decide_True by done. simpl.
  rewrite cget_insert by lia. by rewrite decide_False by lia.
Qed.

Lemma grow_cases n x req s :
  fs_wf s → 0 ≤ x < PERSISTFS_FILE_TABLE_ENTRIES → used_entry (disk_of s x) = true →
  req ≤ PERSISTFS_DIRECT_BLOCKS → (Z.to_nat (req - fe_block_count (disk_of s x)) ≤ n)%nat →
  let '(r, s') := grow_blocks n x req s in
  fs_wf s' ∧ blocks_only x s s' ∧ blocks_kept (fe_block_count (disk_of s x)) x s s' ∧
  fe_block_count (disk_of s x) ≤ fe_block_count (disk_of s' x) ∧
  fe_block_count (disk_of s' x) ≤ Z.max req (fe_block_count (disk_of s x)) ∧
  (is_ok r = true → req ≤ fe_block_count (disk_of s' x)).
Proof.
  revert s. induction n as [|n IH]; intros s Hwf Hx Hu Hreq Hn; cbn [grow_blocks].
  { split_and!; try done; [by apply blocks_only_refl|lia|lia]. }
  destruct (Z.leb_spec req (fe_block_count (disk_of s x))) as [Hle|Hlt].
  { split_and!; try done; [by apply blocks_only_refl|lia]. }
  pose proof (alloc_block_cases s Hwf) as Hal.
  destruct (persistfs_alloc_data_block s) as [[b|e] s1].
  2: { destruct Hal as (_ & -> & _). split_and!; try done; [by apply blocks_only_refl|lia]. }
  destruct Hal as (-> & Hb & Hf & _).
  set (s1 := with_bitmap s (bm_set (g_bitmap s) b)).
  pose proof (cache_write_meta (add32 (sb_data_start_lba (g_super s1)) b) (replicate 512 0) s1) as Hm.
  destruct (cache_write _ _ s1) as [[[]|e] s2]; simpl in Hm.
  - destruct Hm as (Hs2 & Hb2 & Hn2 & Ho2).
    pose proof (push_block x b s Hwf Hx Hu ltac:(lia) Hb Hf) as Hp. cbv zeta in Hp.
    assert (Hd2 : disk_of s2 x = disk_of s x) by (unfold disk_of; by rewrite Hs2).
    rewrite Hd2. set (e' := e_set_blocks (disk_of s x) _ _) in *.
    set (s3 := set_disk_of x e' s2).
    assert (Hm3 : same_meta (set_disk_of x e' s1) s3).
    { unfold s3, set_disk_of. split_and!; simpl; [by rewrite Hs2|by rewrite Hb2|by rewrite Hn2|by rewrite Ho2]. }
    assert (Hwf3 : fs_wf s3) by (eapply same_meta_wf; [exact Hm3|exact Hp]).
    assert (Hkept : blocks_kept (fe_block_count (disk_of s x)) x s s3).
    { destruct (fw_entries s Hwf x Hx) as [Hd _]. apply blocks_kept_set; [rewrite Hs2; apply Hwf|done|lia]. }
    assert (Hbo : blocks_only x s s3).
    { eapply blocks_only_trans; [|apply blocks_only_refl; exact Hm3].
      apply set_blocks_only; [apply Hwf|done]. }
    assert (Hc3 : fe_block_count (disk_of s3 x) = fe_block_count (disk_of s x) + 1).
    { unfold s3. rewrite disk_of_set by (try done; try lia; rewrite Hs2; apply Hwf).
      by rewrite decide_True. }
    specialize (IH s3 Hwf3 Hx ltac:(by rewrite (used_blocks_only x s s3)) Hreq ltac:(lia)).
    destruct (grow_blocks n x req s3) as [r s4]. destruct IH as (Hw4 & Hb4 & Hk4 & Hle & Hmx & Hok).
    split_and!; [done|by eapply blocks_only_trans|eapply blocks_kept_trans; [|done..]; lia|lia|lia|done].
  - destruct Hm as (Hs2 & Hb2 & Hn2 & Ho2). unfold persistfs_free_data_block.
    rewrite Hn2. simpl. rewrite (proj2 (Z.leb_gt _ _)) by lia.
    assert (Hd2 : ∀ i, disk_of (persistfs_bitmap_clear b s2) i = disk_of s i).
    { intros i. unfold disk_of. simpl. by rewrite Hs2. }
    split_and!; rewrite ?Hd2; try done; try lia; [| |intros j _; by rewrite Hd2].
    + destruct Hwf as [Hl Hbm Hbits He Ha Hh]. split; simpl; rewrite ?Hs2, ?Hb2, ?Hn2, ?Ho2; simpl; try done.
      * apply bm_clear_wf; [apply bm_set_wf; [done|lia]|lia].
      * intros i Hi. rewrite Hd2. by apply He.
      * apply accounts_unmark; try done. lia.
    + split; [done|done|intros; by apply Hd2|]. rewrite !Hd2. by destruct (disk_of s x).
Qed.

Lemma rollback_cases n x old s :
  fs_wf s → 0 ≤ x < PERSISTFS_FILE_TABLE_ENTRIES → used_entry (disk_of s x) = true →
  0 ≤ old ≤ fe_block_count (disk_of s x) → fe_size_bytes (disk_of s x) ≤ 512 * old →
  (Z.to_nat (fe_block_count (disk_of s x) - old) ≤ n)%nat →
  let s' := rollback_blocks n x old s in
  fs_wf s' ∧ blocks_only x s s' ∧ blocks_kept old x s s' ∧ fe_block_count (disk_of s' x) = old.
Proof.
  revert s. induction n as [|n IH]; intros s Hwf Hx Hu Hold Hsz Hn; cbn [rollback_blocks].
  { split_and!; try done; [by apply blocks_only_refl|lia]. }
  destruct (Z.leb_spec (fe_block_count (disk_of s x)) old) as [Hle|Hlt].
  { split_and!; try done; [by apply blocks_only_refl|lia]. }
  destruct (pop_block x s Hwf Hx Hu ltac:(lia) ltac:(lia)) as [Hb Hp].
  set (b := cget (fe_direct_blocks (disk_of s x)) (fe_block_count (disk_of s x) - 1)) in *.
  unfold persistfs_free_data_block. rewrite (proj2 (Z.leb_gt _ _)) by lia.
  assert (Hd : disk_of (persistfs_bitmap_clear b s) x = disk_of s x) by done. rewrite Hd.
  set (e' := e_set_blocks (disk_of s x) _ _) in *.
  set (s3 := set_disk_of x e' (persistfs_bitmap_clear b s)).
  assert (Hwf3 : fs_wf s3) by exact Hp.
  assert (Hbo : blocks_only x s s3) by (apply set_blocks_only; [apply Hwf|done]).
  assert (Hkept : blocks_kept old x s s3).
  { destruct (fw_entries s Hwf x Hx) as [Hdl Hcnt]. destruct (Hcnt Hu). apply blocks_kept_set; [apply Hwf|done|lia]. }
  assert (Hc3 : fe_block_count (disk_of s3 x) = fe_block_count (disk_of s x) - 1).
  { unfold s3. rewrite disk_of_set by (try done; try lia; apply Hwf). by rewrite decide_True. }
  destruct (IH s3 Hwf3 Hx) as (? & ? & ? & ?);
    [by rewrite (used_blocks_only x s s3)|lia|rewrite (size_blocks_only x s s3) by done; lia|lia|].
  split_and!; [done|by eapply blocks_only_trans|by eapply blocks_kept_trans|done].
Qed.

(** With the same blocks in the file, the bitmap is the same. *)
Lemma same_blocks_bitmap x s s' b :
  fs_wf s → fs_wf s' → blocks_only x s s' → 0 ≤ x < PERSISTFS_FILE_TABLE_ENTRIES →
  fe_block_count (disk_of s' x) = fe_block_count (disk_of s x) → blocks_kept (fe_block_count (disk_of s x)) x s s' →
  0 ≤ b → persistfs_bitmap_test b s' = persistfs_bitmap_test b s.
Proof.
  intros Hwf Hwf' Hbo Hx Hc Hk Hb.
  assert (Hown : ∀ i j, own_of (g_slots s') i j = own_of (g_slots s) i j).
  { intros i j. destruct (decide (0 ≤ i < PERSISTFS_FILE_TABLE_ENTRIES)) as [Hi|Hi]; [|unfold own_of; by rewrite !decide_False].
    rewrite !own_of_in by done. destruct (decide (i = x)) as [->|Hne]; [|by rewrite (bo_other x s s') by (done || lia)].
    unfold block_of. rewrite (used_blocks_only x s s'), Hc by done. case_decide as Hj; [|done]. by rewrite Hk by apply Hj. }
  unfold persistfs_bitmap_test. rewrite (bo_count x s s') by done. destruct (Z.leb_spec (data_block_count s) b) as [|Hlt]; [done|].
  assert (Hb' : 0 ≤ b < data_block_count s) by done. apply eq_true_iff_eq.
  pose proof (fw_accounts s Hwf) as [Hm _ Ho]. pose proof (fw_accounts s' Hwf') as [Hm' _ Ho']. rewrite (bo_count x s s') in Ho' by done.
  split; intros H.
  - destruct (Ho' b Hb' H) as (i & j & E). rewrite Hown in E. by apply Hm in E as [_ ?].
  - destruct (Ho b Hb' H) as (i & j & E). rewrite <- Hown in E. by apply Hm' in E as [_ ?].
Qed.

Lemma ensure_cases x req s :
  fs_wf s → 0 ≤ x < PERSISTFS_FILE_TABLE_ENTRIES → used_entry (disk_of s x) = true → 0 ≤ req →
  let '(r, s') := persistfs_ensure_file_blocks x req s in
  fs_wf s' ∧ blocks_only x s s' ∧ blocks_kept (fe_block_count (disk_of s x)) x s s' ∧
  match r with
  | Ok _ => fe_block_count (disk_of s' x) = Z.max req (fe_block_count (disk_of s x))
  | Err e =>
      e = KERR_NOMEM ∧ fe_block_count (disk_of s' x) = fe_block_count (disk_of s x) ∧
      ∀ b, 0 ≤ b → persistfs_bitmap_test b s' = persistfs_bitmap_test b s
  end.
Proof.
  intros Hwf Hx Hu Hr0. destruct (fw_entries s Hwf x Hx) as [_ Hcnt]. destruct (Hcnt Hu) as [Hc Hsz].
  unfold persistfs_ensure_file_blocks.
  destruct (Z.ltb_spec PERSISTFS_DIRECT_BLOCKS req); [by split_and!; try done; apply blocks_only_refl|].
  destruct (Z.leb_spec req (fe_block_count (disk_of s x))); [by split_and!; try done; [apply blocks_only_refl|lia]|].
  pose proof (grow_cases (Z.to_nat req) x req s Hwf Hx Hu ltac:(lia) ltac:(lia)) as Hg.
  destruct (grow_blocks (Z.to_nat req) x req s) as [[[]|e] s1]; destruct Hg as (Hwf1 & Hb1 & Hk1 & Hle & Hmx & Hok).
  - split_and!; [done|done|done|]. specialize (Hok eq_refl). lia.
  - destruct (rollback_cases (Z.to_nat req) x (fe_block_count (disk_of s x)) s1 Hwf1 Hx) as (Hwf2 & Hb2 & Hk2 & Hc2);
      [by rewrite (used_blocks_only x s s1)|lia|rewrite (size_blocks_only x s s1) by done; lia|lia|].
    pose proof (blocks_only_trans _ _ _ _ Hb1 Hb2) as Hb. pose proof (blocks_kept_trans _ _ _ _ _ _ (Z.le_refl _) Hk1 Hk2) as Hk.
    split_and!; try done. intros b. by apply (same_blocks_bitmap x).
Qed.

Lemma write_rounds_cases fuel x f src len total s :
  0 ≤ f_offset f → 0 ≤ len → 0 ≤ total → f_offset f + len < two32 →
  let '(total', len', f', s') := write_rounds fuel x f src len total s in
  same_meta s s' ∧ total' + len' = total + len ∧ total ≤ total' ∧ 0 ≤ len' ∧
  f_offset f' = f_offset f + (total' - total).
Proof.
  revert f len total s. induction fuel as [|fuel IH]; intros f len total s Hoff Hlen Htot Hb; cbn [write_rounds].
  { split_and!; try done; lia. }
  destruct (Z.ltb_spec 0 len) as [Hl|Hl]; cbn [negb]; [|split_and!; try done; lia].
  cbv zeta.
  set (chunk := Z.min (PERSISTFS_BLOCK_SIZE - f_offset f mod PERSISTFS_BLOCK_SIZE) len).
  assert (Hch : 0 < chunk ≤ len).
  { pose proof (Z.mod_pos_bound (f_offset f) PERSISTFS_BLOCK_SIZE ltac:(done)).
    unfold chunk, PERSISTFS_BLOCK_SIZE in *. lia. }
  set (lba := add32 _ _).
  assert (Hm1 : same_meta s (snd (if negb (chunk =? PERSISTFS_BLOCK_SIZE) then cache_read lba s
                                  else (Ok (replicate 512 0), s)))).
  { destruct (negb _); [apply cache_read_meta|done]. }
  destruct (if negb (chunk =? PERSISTFS_BLOCK_SIZE) then cache_read lba s else (Ok (replicate 512 0), s))
    as [[sector|e] s1]; simpl in Hm1; [|split_and!; try done; lia].
  pose proof (cache_write_meta lba (overlay sector (f_offset f mod PERSISTFS_BLOCK_SIZE)
    (slice src total chunk)) s1) as Hm2.
  destruct (cache_write lba _ s1) as [[[]|e] s2]; simpl in Hm2;
    [|split_and!; [by eapply same_meta_trans|lia..]].
  assert (Ho : f_offset (set_offset f (add32 (f_offset f) chunk)) = f_offset f + chunk).
  { simpl. apply add32_small. unfold two32 in *. lia. }
  specialize (IH (set_offset f (add32 (f_offset f) chunk)) (len - chunk) (total + chunk) s2).
  destruct (write_rounds fuel x _ src (len - chunk) (total + chunk) s2) as [[[total' len'] f'] s'].
  destruct IH as (Hm3 & Hsum & Hge & Hl0 & Hoff'); [rewrite Ho; lia|lia|lia|rewrite Ho; lia|].
  rewrite Ho in Hoff'. split_and!; [|lia|lia|lia|lia].
  eapply same_meta_trans; [done|]. by eapply same_meta_trans.
Qed.
End ops.

Section operations.
Context {δ : Type}.
Variables slots_addr file_node_ops_addr : Z.
Implicit Types (s : pfs δ).

Notation setup := (persistfs_setup_slot_node slots_addr file_node_ops_addr).

Lemma setup_disk i s j :
  alen (g_slots s) = PERSISTFS_FILE_TABLE_ENTRIES → 0 ≤ i < PERSISTFS_FILE_TABLE_ENTRIES → 0 ≤ j →
  disk_of (setup i s) j = disk_of s j.
Proof.
  intros Hl Hi Hj. unfold disk_of, persistfs_setup_slot_node. simpl.
  rewrite aget_aset by (rewrite ?Hl; done). case_decide; [by subst|done].
Qed.

Lemma setup_wf i s : 0 ≤ i < PERSISTFS_FILE_TABLE_ENTRIES → fs_wf s → fs_wf (setup i s).
Proof.
  intros Hi Hwf. pose proof Hwf as [Hl Hb Hn He Ha Hh].
  split; [unfold persistfs_setup_slot_node; simpl; by arr|done|done| | |done].
  - intros j Hj. rewrite setup_disk by (done || lia). by apply He.
  - eapply accounts_ext; [|exact Ha]. intros x y. unfold own_of. case_decide; [|done].
    fold (disk_of s x) (disk_of (setup i s) x). by rewrite setup_disk by (done || lia).
Qed.

Lemma get_slot_Ok f s x :
  fs_wf s → persistfs_handle_get_slot f s = Ok x →
  0 ≤ x < PERSISTFS_FILE_TABLE_ENTRIES ∧ used_entry (disk_of s x) = true ∧
  default (0, 0) (open_files s !! f_private f) = (x, fe_generation (disk_of s x)).
Proof.
  intros Hwf. unfold persistfs_handle_get_slot. destruct (f_private f =? 0); [done|].
  destruct (open_files s !! f_private f) as [[i g]|] eqn:E; simpl.
  - destruct (Z.leb_spec PERSISTFS_FILE_TABLE_ENTRIES i); [done|].
    destruct (used_entry (disk_of s i)) eqn:Hu; simpl; [|done].
    destruct (Z.eqb_spec (fe_generation (disk_of s i)) g); simpl; [|done]. intros [= <-].
    pose proof (fw_handles s Hwf _ _ _ E). subst. split_and!; try done; lia.
  - destruct (used_entry (disk_of s 0)) eqn:Hu; simpl; [|done].
    destruct (Z.eqb_spec (fe_generation (disk_of s 0)) 0) as [He|]; simpl; [|done]. intros [= <-].
    rewrite He. split_and!; try done; unfold PERSISTFS_FILE_TABLE_ENTRIES; lia.
Qed.

Lemma find_slot_Ok name len s i :
  persistfs_find_slot_by_name name len s = Ok i →
  0 ≤ i < PERSISTFS_FILE_TABLE_ENTRIES ∧ used_entry (disk_of s i) = true ∧
  persistfs_name_eq (fe_name (disk_of s i)) name len = true.
Proof.
  unfold persistfs_find_slot_by_name. destruct (search_range _ _ _) as [k|] eqn:E; [|done]. intros [= <-].
  apply search_range_Some in E as (j & Hj & Hf & _).
  destruct (used_entry (disk_of s j)) eqn:Hu; simpl in Hf; [|done].
  destruct (persistfs_name_eq _ _ _) eqn:Hn; [|done]. by injection Hf as <-.
Qed.

Lemma find_free_Ok s i :
  persistfs_find_free_slot s = Ok i →
  0 ≤ i < PERSISTFS_FILE_TABLE_ENTRIES ∧ used_entry (disk_of s i) = false.
Proof.
  unfold persistfs_find_free_slot. destruct (search_range _ _ _) as [k|] eqn:E; [|done]. intros [= <-].
  apply search_range_Some in E as (j & Hj & Hf & _).
  destruct (used_entry (disk_of s j)) eqn:Hu; simpl in Hf; [done|]. by injection Hf as <-.
Qed.

Lemma sync_wf s : fs_wf s → fs_wf (snd (persistfs_sync_metadata s)).
Proof. apply same_meta_wf, sync_metadata_meta. Qed.

Lemma handles_wf s h hd x g :
  fs_wf s → 0 ≤ x < PERSISTFS_FILE_TABLE_ENTRIES →
  fs_wf (with_handles s h (<[hd := (x, g)]> (open_files s))).
Proof.
  intros [Hl Hb Hn He Ha Hh] Hx. split; simpl; try done. intros h' i g' Hi.
  apply lookup_insert_Some in Hi as [[_ [= <- <-]]|[_ Hi]]; [done|by eapply Hh].
Qed.

Lemma file_open_wf x fl s :
  fs_wf s → 0 ≤ x → fs_wf (snd (persistfs_file_open x fl s)).
Proof.
  intros Hwf Hx. unfold persistfs_file_open. destruct (Z.leb_spec PERSISTFS_FILE_TABLE_ENTRIES x); [done|].
  destruct (used_entry (disk_of s x)) eqn:Hu; [|done]. cbn [negb].
  destruct (open_flag fl SYSCALL_OPEN_FLAG_TRUNC) eqn:Ht; cbn [andb].
  - destruct (negb _); [done|].
    destruct (release_cases x s Hwf ltac:(lia) Hu) as (Hwf1 & _).
    pose proof (sync_wf _ Hwf1) as Hwf2.
    destruct (persistfs_sync_metadata _) as [[[]|e] s2]; simpl in Hwf2; [|done].
    destruct (kmalloc 8 (pheap s2)) as [hd h]. destruct (hd =? 0); simpl.
    + by destruct Hwf2.
    + apply handles_wf; [done|lia].
  - destruct (kmalloc 8 (pheap s)) as [hd h]. destruct (hd =? 0); simpl; [by destruct Hwf|].
    apply handles_wf; [done|lia].
Qed.

Lemma create_open_wf dir name len fl s :
  fs_wf s → fs_wf (snd (persistfs_dir_create_open slots_addr file_node_ops_addr dir name len fl s)).
Proof.
  intros Hwf. unfold persistfs_dir_create_open. destruct (negb (is_persist_dir dir)); [done|].
  destruct (negb (persistfs_name_valid name len)); [done|]. destruct (_ && negb _); [done|].
  destruct (persistfs_find_slot_by_name name len s) as [i|er0] eqn:Ef.
  { apply find_slot_Ok in Ef as [? _]. apply file_open_wf; [done|lia]. }
  destruct (persistfs_find_free_slot s) as [i|] eqn:Eg; [|done].
  apply find_free_Ok in Eg as [Hi Hu]. cbv zeta.
  set (e := FileEntry _ _ _ _ _ _). set (s1 := setup i (set_disk_of i e s)).
  assert (Hnone : ∀ y, block_of (disk_of s i) y = None).
  { intros y. unfold block_of. rewrite decide_False; [done|]. intros [? _]. congruence. }
  assert (Hwf1 : fs_wf s1).
  { apply setup_wf; [done|]. apply set_entry_same; try done.
    intros y. rewrite Hnone. apply block_of_none. simpl. lia. }
  pose proof (sync_wf s1 Hwf1) as Hwf2. pose proof (sync_metadata_meta s1) as (Hs2 & _).
  destruct (persistfs_sync_metadata s1) as [[[]|er] s2]; simpl in *; [apply file_open_wf; [done|lia]|].
  apply set_entry_same; try done.
  assert (Hd2 : disk_of s2 i = disk_of s1 i) by (unfold disk_of; by rewrite Hs2).
  intros y. rewrite Hd2. unfold s1.
  rewrite setup_disk by (try done; try lia; unfold set_disk_of; simpl; arr; apply Hwf).
  rewrite disk_of_set by (try done; try lia; apply Hwf). rewrite decide_True by done.
  rewrite (block_of_none e) by (simpl; lia). unfold block_of. rewrite decide_False; [done|].
  by intros [? _].
Qed.

Lemma unlink_wf dir name len s : fs_wf s → fs_wf (snd (persistfs_dir_unlink dir name len s)).
Proof.
  intros Hwf. unfold persistfs_dir_unlink. destruct (len =? 0); [done|].
  destruct (negb _); [done|]. destruct (persistfs_find_slot_by_name name len s) as [i|] eqn:Ef; [|done].
  apply find_slot_Ok in Ef as (Hi & Hu & _). cbv zeta. apply sync_wf.
  destruct (release_cases i s Hwf Hi Hu) as (Hwf1 & _ & _ & _ & Hbc & Hsz & _).
  apply set_entry_same; [done|done| |].
  - destruct (fw_entries _ Hwf1 i Hi) as [Hd _]. by split.
  - intros y. rewrite (block_of_none (disk_of _ i)) by lia. unfold block_of.
    rewrite decide_False; [done|]. by intros [? _].
Qed.

Lemma file_read_meta f hb len s :
  let '(_, _, s') := persistfs_file_read f hb len s in same_meta s s'.
Proof.
  unfold persistfs_file_read. destruct (_ && _); [done|].
  destruct (persistfs_handle_get_slot f s) as [x|]; [|done]. destruct (_ || _); [done|].
  generalize (@nil Z) as acc. generalize len at 2 as l. generalize (Z.to_nat len) as n.
  intros n. revert f s. induction n as [|n IH]; intros f s l acc; cbn [read_rounds]; [done|].
  destruct (negb _); [done|]. cbv zeta. destruct (_ <=? _); [done|].
  pose proof (cache_read_meta (add32 (sb_data_start_lba (g_super s))
    (cget (fe_direct_blocks (disk_of s x)) (f_offset f / PERSISTFS_BLOCK_SIZE))) s) as Hm.
  destruct (cache_read _ s) as [[sector|e] s1]; simpl in Hm; [|done].
  match goal with |- context [read_rounds n x ?f1 ?l1 ?a1 s1] => specialize (IH f1 s1 l1 a1);
    destruct (read_rounds n x f1 l1 a1 s1) as [[r f'] s'] end.
  by eapply same_meta_trans.
Qed.

Lemma file_write_wf f b len s :
  fs_wf s → is_u32 len → is_u32 (f_offset f) →
  let '(_, _, _, s') := persistfs_file_write f b len s in fs_wf s'.
Proof.
  intros Hwf Hlen Hoff. unfold persistfs_file_write.
  destruct (_ && _); [done|]. destruct (negb _); [done|].
  destruct (persistfs_handle_get_slot f s) as [x|] eqn:Eg; [|done].
  destruct (get_slot_Ok f s x Hwf Eg) as (Hx & Hu & _).
  destruct (fw_entries s Hwf x Hx) as [_ Hcnt]. destruct (Hcnt Hu) as [Hc Hsz]. cbv zeta.
  set (f1 := if open_flag (f_flags f) SYSCALL_OPEN_FLAG_APPEND then _ else f).
  assert (Hoff1 : 0 ≤ f_offset f1) by (unfold f1; destruct (open_flag _ _); simpl; lia).
  destruct (Z.ltb_spec (fe_size_bytes (disk_of s x)) (f_offset f1)); [done|].
  destruct (Z.eqb_spec len 0); [done|].
  destruct (_ || _) eqn:Eb; [done|]. apply orb_false_iff in Eb as [Eb1 Eb2].
  apply Z.ltb_ge in Eb1, Eb2. unfold PERSISTFS_MAX_FILE_SIZE, PERSISTFS_DIRECT_BLOCKS in *.
  assert (Hoff2 : is_u32 (f_offset f1)).
  { unfold f1. destruct (open_flag _ _); simpl; [unfold two32; lia|done]. }
  destruct (add32_nowrap (f_offset f1) len Hoff2 Hlen Eb1) as [Hend _]. rewrite Hend in Eb2 |- *.
  set (req := add32 _ _ / _).
  assert (Hreq : f_offset f1 + len ≤ 512 * req ∧ 0 ≤ req).
  { unfold req, PERSISTFS_BLOCK_SIZE. rewrite add32_small by (unfold two32; lia).
    pose proof (Z.div_mod (f_offset f1 + len + (512 - 1)) 512 ltac:(lia)).
    pose proof (Z.mod_pos_bound (f_offset f1 + len + (512 - 1)) 512 ltac:(lia)). lia. }
  pose proof (ensure_cases x req s Hwf Hx Hu ltac:(lia)) as He.
  destruct (persistfs_ensure_file_blocks x req s) as [[[]|e] s1]; [|by destruct He].
  destruct He as (Hwf1 & Hb1 & _ & Hle).
  pose proof (write_rounds_cases (Z.to_nat len) x f1 (default [] b) len 0 s1 ltac:(lia) ltac:(lia)
    ltac:(lia) ltac:(unfold two32; lia)) as Hw.
  destruct (write_rounds (Z.to_nat len) x f1 (default [] b) len 0 s1) as [[[total len'] f2] s2].
  destruct Hw as (Hm2 & Hsum & _ & Hl0 & Hoff').
  pose proof (same_meta_wf _ _ Hm2 Hwf1) as Hwf2. destruct Hm2 as (Hs2 & _).
  assert (Hd2 : disk_of s2 x = disk_of s1 x) by (unfold disk_of; by rewrite Hs2).
  set (s3 := if fe_size_bytes (disk_of s2 x) <? f_offset f2 then _ else s2).
  assert (Hwf3 : fs_wf s3).
  { unfold s3. destruct (Z.ltb_spec (fe_size_bytes (disk_of s2 x)) (f_offset f2)); [|done].
    destruct (fw_entries _ Hwf2 x Hx) as [Hd Hcnt2].
    assert (Hu2 : used_entry (disk_of s2 x) = true) by (rewrite Hd2; by rewrite (used_blocks_only x s s1)).
    destruct (Hcnt2 Hu2) as [Hc2 Hsz2]. rewrite Hd2 in *.
    apply set_entry_same; [done|done| |].
    - split; [done|]. intros _. simpl. lia.
    - intros y. rewrite Hd2. done. }
  clearbody s3. pose proof (sync_wf s3 Hwf3) as Hwf4.
  destruct (persistfs_sync_metadata s3) as [[[]|e] s4]; simpl in *; [done|]. by destruct (total =? 0).
Qed.
End operations.

(** * Rebuilding the accounts: format and the sanity pass *)

Lemma accounts_same_bits bm bm' n own :
  (∀ b, 0 ≤ b < n → bm_test bm' b = bm_test bm b) → accounts bm n own → accounts bm' n own.
Proof.
  intros He [Hm Hu Ho]. split; [|done|].
  - intros i j b Hij. destruct (Hm i j b Hij) as [Hb Ht]. by rewrite He.
  - intros b Hb. rewrite He by done. by apply Ho.
Qed.

Lemma accounts_empty n : accounts (replicate 4096 0) n (λ _ _, None).
Proof. split; [done|done|]. intros b _. by rewrite bm_test_zero. Qed.

Lemma expect_blocks_spec n direct x m j0 bm own bm' :
  n ≤ PERSISTFS_BITMAP_BITS → bitmap_wf bm → accounts bm n own → 0 ≤ m →
  (∀ j, 0 ≤ cget direct j) → (∀ j, j0 ≤ j → own x j = None) →
  expect_blocks n direct (seqZ j0 m) bm = Ok bm' →
  bitmap_wf bm' ∧
  accounts bm' n (λ i j, if decide (i = x ∧ j0 ≤ j < j0 + m) then Some (cget direct j) else own i j).
Proof.
  intros Hn Hwf Ha Hm Hd Hnone. assert (Hk : m = Z.of_nat (Z.to_nat m)) by lia.
  remember (Z.to_nat m) as k eqn:E. clear E. subst m. clear Hm. revert j0 bm own Hwf Ha Hnone.
  induction k as [|k IH]; intros j0 bm own Hwf Ha Hnone.
  - simpl. intros [= <-]. split; [done|]. eapply accounts_ext; [|exact Ha]. intros i j. simpl.
    rewrite decide_False; [done|lia].
  - rewrite seqZ_cons by lia. cbn [expect_blocks].
    destruct (Z.leb_spec n (cget direct j0)); [done|].
    destruct (bm_test bm (cget direct j0)) eqn:Ht; [done|].
    replace (Z.succ j0) with (j0 + 1) by lia. replace (Z.pred (Z.of_nat (S k))) with (Z.of_nat k) by lia.
    intros Hex. pose proof (Hd j0).
    destruct (IH (j0 + 1) (bm_set bm (cget direct j0)) (own_set own x j0 (Some (cget direct j0)))) as [Hw Hacc].
    + apply bm_set_wf; [done|lia].
    + apply accounts_alloc; try done. apply Hnone. lia.
    + intros j Hj. unfold own_set. rewrite decide_False by lia. apply Hnone. lia.
    + done.
    + split; [done|]. eapply accounts_ext; [|exact Hacc]. intros i j. unfold own_set. simpl.
      destruct (decide (i = x ∧ j0 + 1 ≤ j < j0 + 1 + Z.of_nat k)).
      * by rewrite decide_True by lia.
      * destruct (decide (i = x ∧ j = j0)) as [[-> ->]|].
        -- by rewrite decide_True by lia.
        -- by rewrite decide_False by lia.
Qed.

(** What a table read from the disk is known to be before the pass. *)
Definition loaded_entry (e : persistfs_file_entry_disk) : Prop :=
  alen (fe_direct_blocks e) = PERSISTFS_DIRECT_BLOCKS ∧ (∀ j, 0 ≤ cget (fe_direct_blocks e) j) ∧
  0 ≤ fe_block_count e ∧
  (used_entry e = true → 0 ≤ fe_size_bytes e ≤ 512 * fe_block_count e).

Lemma expect_slots_spec n all k bm bm' :
  n ≤ PERSISTFS_BITMAP_BITS → alen all = PERSISTFS_FILE_TABLE_ENTRIES →
  (∀ i, 0 ≤ i < PERSISTFS_FILE_TABLE_ENTRIES → loaded_entry (slot_disk all.[i])) →
  0 ≤ k ≤ PERSISTFS_FILE_TABLE_ENTRIES → bitmap_wf bm →
  accounts bm n (λ i j, if decide (i < k) then own_of all i j else None) →
  expect_slots n (drop (Z.to_nat k) all) bm = Ok bm' →
  bitmap_wf bm' ∧ accounts bm' n (own_of all) ∧
  ∀ i, k ≤ i < PERSISTFS_FILE_TABLE_ENTRIES → used_entry (slot_disk all.[i]) = true →
       fe_block_count (slot_disk all.[i]) ≤ PERSISTFS_DIRECT_BLOCKS.
Proof.
  intros Hn Hl Hld Hk Hwf Ha.
  remember (Z.to_nat (PERSISTFS_FILE_TABLE_ENTRIES - k)) as m eqn:Hm.
  revert k bm Hk Hwf Ha Hm. induction m as [|m IH]; intros k bm Hk Hwf Ha Hm.
  - assert (k = PERSISTFS_FILE_TABLE_ENTRIES) as -> by lia.
    rewrite drop_ge by (unfold alen in Hl; lia). simpl. intros [= <-]. split_and!; [done| |intros; lia].
    eapply accounts_ext; [|exact Ha]. intros i j. simpl. case_decide; [done|].
    unfold own_of. by rewrite decide_False by lia.
  - assert (Hlt : k < PERSISTFS_FILE_TABLE_ENTRIES) by lia.
    rewrite (drop_S all all.[k] (Z.to_nat k)) by (apply aget_lookup; lia).
    cbn [expect_slots]. replace (S (Z.to_nat k)) with (Z.to_nat (k + 1)) by lia.
    set (e := slot_disk all.[k]). destruct (Hld k ltac:(lia)) as (Hd & Hpos & Hbc & Hsz). fold e in Hd, Hpos, Hbc, Hsz.
    destruct (used_entry e) eqn:Hu; cbn [negb].
    + destruct (_ || _) eqn:Eb; [done|]. apply orb_false_iff in Eb as [Eb1 Eb2]. apply Z.ltb_ge in Eb1.
      destruct (expect_blocks n (fe_direct_blocks e) (seqZ 0 (fe_block_count e)) bm) as [bm1|] eqn:E1; [|done].
      intros Hex.
      destruct (expect_blocks_spec n (fe_direct_blocks e) k (fe_block_count e) 0 bm _ bm1 Hn Hwf Ha) as [Hw1 Ha1];
        [lia|done|intros j Hj; by rewrite decide_False by lia|done|].
      destruct (IH (k + 1) bm1) as (Hw & Hacc & Hrest); [lia|done| |lia|done|].
      * eapply accounts_ext; [|exact Ha1]. intros i j. simpl. unfold own_of.
        destruct (decide (i = k)) as [->|Hne].
        -- rewrite (decide_True (P := k < k + 1)) by lia. rewrite (decide_True (P := 0 ≤ k < _)) by lia.
           fold e. unfold block_of. destruct (decide (0 ≤ j < fe_block_count e)).
           ++ rewrite decide_True by lia. by rewrite decide_True.
           ++ rewrite decide_False by lia. rewrite decide_False by lia. by rewrite decide_False by naive_solver.
        -- rewrite decide_False by lia. destruct (decide (i < k)).
           ++ by rewrite (decide_True (P := i < k + 1)) by lia.
           ++ by rewrite (decide_False (P := i < k + 1)) by lia.
      * split_and!; [done|done|]. intros i Hi Hui. destruct (decide (i = k)) as [->|]; [done|].
        apply Hrest; [lia|done].
    + intros Hex. destruct (IH (k + 1) bm) as (Hw & Hacc & Hrest); [lia|done| |lia|done|].
      * eapply accounts_ext; [|exact Ha]. intros i j. simpl. unfold own_of.
        destruct (decide (i = k)) as [->|Hne].
        -- rewrite (decide_False (P := k < k)) by lia. rewrite (decide_True (P := k < k + 1)) by lia.
           rewrite decide_True by lia. fold e. unfold block_of. rewrite decide_False; [done|].
           intros [? _]. congruence.
        -- destruct (decide (i < k)).
           ++ by rewrite (decide_True (P := i < k + 1)) by lia.
           ++ by rewrite (decide_False (P := i < k + 1)) by lia.
      * split_and!; [done|done|]. intros i Hi Hui. destruct (decide (i = k)) as [->|]; [fold e in Hui; congruence|].
        apply Hrest; [lia|done].
Qed.

Lemma repair_spec expected bm n :
  bitmap_wf bm → 0 ≤ n ≤ PERSISTFS_BITMAP_BITS →
  let '(bm', _, _) := for_range 0 n (repair_bit expected) (bm, 0, 0) in
  bitmap_wf bm' ∧ ∀ b, 0 ≤ b → bm_test bm' b = if decide (b < n) then bm_test expected b else bm_test bm b.
Proof.
  intros Hwf Hn.
  pose (P := λ (k : Z) (st : list Z * Z * Z), let '(bm', _, _) := st in
    bitmap_wf bm' ∧ ∀ b, 0 ≤ b → bm_test bm' b = if decide (b < k) then bm_test expected b else bm_test bm b).
  assert (HP : P n (for_range 0 n (repair_bit expected) (bm, 0, 0))).
  { apply (for_range_ind P); [lia| |].
    - split; [done|]. intros b Hb. by rewrite decide_False by lia.
    - intros k [[bm1 rs] rc] Hk [Hw1 Hb1]. unfold repair_bit.
      pose proof (Hb1 k ltac:(lia)) as Hbk. rewrite decide_False in Hbk by lia.
      assert (Hstep : ∀ bm2, bitmap_wf bm2 → bm_test bm2 k = bm_test expected k →
        (∀ b, 0 ≤ b → b ≠ k → bm_test bm2 b = bm_test bm1 b) → bitmap_wf bm2 ∧
        ∀ b, 0 ≤ b → bm_test bm2 b = if decide (b < k + 1) then bm_test expected b else bm_test bm b).
      { intros bm2 Hw2 Hk2 Hb2. split; [done|]. intros b Hb. destruct (decide (b = k)) as [->|].
        - by rewrite decide_True by lia.
        - rewrite Hb2, Hb1 by done. destruct (decide (b < k)).
          + by rewrite decide_True by lia.
          + by rewrite decide_False by lia. }
      destruct (bm_test expected k) eqn:E1, (bm_test bm1 k) eqn:E2; cbn [andb negb].
      + by apply Hstep.
      + apply Hstep; [apply bm_set_wf; [done|lia]| |].
        * rewrite bm_test_set by (done || lia). by rewrite bool_decide_true.
        * intros b Hb Hne. rewrite bm_test_set by (done || lia). by rewrite bool_decide_false.
      + apply Hstep; [apply bm_clear_wf; [done|lia]| |].
        * rewrite bm_test_clear by (done || lia). by rewrite bool_decide_true.
        * intros b Hb Hne. rewrite bm_test_clear by (done || lia). by rewrite bool_decide_false.
      + by apply Hstep. }
  by destruct (for_range _ _ _ _) as [[bm' rs] rc].
Qed.

Section mounting.
Context {δ : Type}.
Variables slots_addr file_node_ops_addr : Z.
Implicit Types (s : pfs δ).

Notation setup := (persistfs_setup_slot_node slots_addr file_node_ops_addr).

Definition handles_in_table s : Prop :=
  ∀ h i g, open_files s !! h = Some (i, g) → 0 ≤ i < PERSISTFS_FILE_TABLE_ENTRIES.

Lemma sanity_cases s :
  alen (g_slots s) = PERSISTFS_FILE_TABLE_ENTRIES → bitmap_wf (g_bitmap s) →
  0 ≤ data_block_count s ≤ PERSISTFS_BITMAP_BITS → handles_in_table s →
  (∀ i, 0 ≤ i < PERSISTFS_FILE_TABLE_ENTRIES → loaded_entry (disk_of s i)) →
  match expect_slots (data_block_count s) (g_slots s) (replicate 4096 0) with
  | Ok _ => fs_wf (snd (persistfs_run_metadata_sanity_pass s))
  | Err _ => persistfs_run_metadata_sanity_pass s = (Err KERR_FAULT, s)
  end.
Proof.
  intros Hl Hb Hn Hh Hld. unfold persistfs_run_metadata_sanity_pass.
  destruct (expect_slots _ _ _) as [expected|e] eqn:E.
  - destruct (expect_slots_spec (data_block_count s) (g_slots s) 0 (replicate 4096 0) expected)
      as (Hwe & Hae & Hcnt); try done; [lia|apply bitmap_zero_wf| |].
    { eapply accounts_ext; [|apply accounts_empty]. intros i j. simpl. case_decide; [|done].
      unfold own_of. by rewrite decide_False by lia. }
    pose proof (repair_spec expected (g_bitmap s) (data_block_count s) Hb Hn) as Hr.
    destruct (for_range _ _ _ _) as [[bm rs] rc]. destruct Hr as [Hwb Hbits].
    assert (Hwf : fs_wf (with_bitmap s bm)).
    { split; simpl; try done.
      - intros i Hi. destruct (Hld i Hi) as (Hd & _ & Hbc & Hsz). split; [done|]. intros Hu.
        specialize (Hcnt i ltac:(lia) Hu). split; [|by apply Hsz]. split; [done|exact Hcnt].
      - eapply accounts_same_bits; [|exact Hae]. intros b Hbr. rewrite Hbits by lia.
        by rewrite decide_True by lia. }
    destruct (_ || _); [by apply sync_wf|]. eapply same_meta_wf; [apply mark_clean_meta|done].
  - assert (e = KERR_FAULT) as ->; [|done].
    assert (Hexb : ∀ n d js bm e, expect_blocks n d js bm = Err e → e = KERR_FAULT).
    { intros n d js. induction js as [|j js IH]; intros bm e0; simpl; [done|].
      repeat case_match; try by intros [= <-]. apply IH. }
    revert E. generalize (replicate 4096 0). clear Hld Hl. induction (g_slots s) as [|sl slots IH];
      intros bm; cbn [expect_slots]; [done|].
    destruct (negb _); [apply IH|]. destruct (_ || _); [by intros [= <-]|].
    destruct (expect_blocks _ _ _ _) as [bm1|e1] eqn:E1; [apply IH|]. intros [= <-]. by eapply Hexb.
Qed.

(** A table of zeroed slots is made of unused ones. *)
Definition blank s s' : Prop :=
  alen (g_slots s') = PERSISTFS_FILE_TABLE_ENTRIES ∧ g_bitmap s' = g_bitmap s ∧
  data_block_count s' = data_block_count s ∧ open_files s' = open_files s ∧
  ∀ i, 0 ≤ i < PERSISTFS_FILE_TABLE_ENTRIES → used_entry (disk_of s' i) = false ∧
       alen (fe_direct_blocks (disk_of s' i)) = PERSISTFS_DIRECT_BLOCKS.

Lemma format_slot_blank s s' k :
  0 ≤ k < PERSISTFS_FILE_TABLE_ENTRIES → blank s s' →
  blank s (format_slot slots_addr file_node_ops_addr k s').
Proof.
  intros Hk (Hl & Hb & Hn' & Ho & Hent). unfold format_slot.
  assert (Hl' : alen (g_slots (set_disk_of k (e_set_generation (disk_of s' k) 1) s')) =
                PERSISTFS_FILE_TABLE_ENTRIES) by (simpl; by arr).
  split; [unfold persistfs_setup_slot_node; simpl; by arr|]. split_and!; [done|done|done|].
  intros i Hi. rewrite setup_disk by (done || lia). rewrite disk_of_set by (done || lia).
  case_decide; [subst i|]; by apply Hent.
Qed.

Lemma format_slots_blank s n :
  0 ≤ n ≤ PERSISTFS_FILE_TABLE_ENTRIES → blank s s →
  blank s (for_range 0 n (format_slot slots_addr file_node_ops_addr) s).
Proof.
  intros Hn Hs. apply (for_range_ind (λ _ s', blank s s')); [lia|done|].
  intros i s' Hi Hs'. apply format_slot_blank; [lia|done].
Qed.

Lemma blank_wf s s' sb :
  g_bitmap s = replicate 4096 0 → 0 ≤ data_block_count s ≤ PERSISTFS_BITMAP_BITS → handles_in_table s →
  blank s s' → fs_wf (with_super s' sb).
Proof.
  intros Hz Hn Hh (Hl & Hb & Hn' & Ho & Hent).
  assert (Hd : ∀ i, disk_of (with_super s' sb) i = disk_of s' i) by done.
  split; [done|simpl; rewrite Hb, Hz; apply bitmap_zero_wf|by simpl; rewrite Hn'| | |].
  - intros i Hi. rewrite Hd. destruct (Hent i Hi) as [Hu Hdb]. split; [done|]. intros Hu'. congruence.
  - simpl. rewrite Hb, Hz. eapply accounts_ext; [|apply accounts_empty]. intros i j. simpl. unfold own_of.
    case_decide as Hi; [|done]. destruct (Hent i Hi) as [Hu _]. unfold block_of. rewrite decide_False; [done|].
    intros [Hu' _]. unfold disk_of in Hu. congruence.
  - simpl. rewrite Ho. apply Hh.
Qed.

Lemma format_wf sectors s :
  0 ≤ data_block_count s ≤ PERSISTFS_BITMAP_BITS → handles_in_table s →
  fs_wf (snd (persistfs_format slots_addr file_node_ops_addr sectors s)).
Proof.
  intros Hn Hh. unfold persistfs_format. cbv zeta. apply sync_wf.
  set (s0 := with_bitmap (with_slots s (replicate 64 file_slot_zero)) (replicate 4096 0)).
  assert (H0 : blank s0 s0).
  { split_and!; try done. intros i Hi. unfold disk_of.
    change (g_slots s0) with (replicate 64 file_slot_zero).
    rewrite (aget_replicate 64 file_slot_zero) by (unfold PERSISTFS_FILE_TABLE_ENTRIES in *; lia). done. }
  apply (blank_wf s0); [done|done|done|]. apply format_slots_blank; [|done].
  unfold PERSISTFS_FILE_TABLE_ENTRIES. lia.
Qed.
End mounting.

(** * Runs *)

Inductive fs_op :=
  | FsCreateOpen (name : list Z) (len flags : Z)
  | FsOpen (slot flags : Z)
  | FsUnlink (name : list Z) (len : Z)
  | FsRead (f : kfile) (len : Z)
  | FsWrite (f : kfile) (buf : list Z) (len : Z)
  | FsClose (f : kfile).

(** Numbers from user space and file offsets are 32-bit. *)
Definition fs_op_sane (o : fs_op) : Prop :=
  match o with
  | FsOpen slot _ => 0 ≤ slot
  | FsWrite f _ len => is_u32 len ∧ is_u32 (f_offset f)
  | _ => True
  end.

Section runs.
Context {δ : Type}.
Variables slots_addr file_node_ops_addr : Z.
Implicit Types (s : pfs δ).

Definition fs_run1 s (o : fs_op) : pfs δ :=
  match o with
  | FsCreateOpen name len flags =>
      snd (persistfs_dir_create_open slots_addr file_node_ops_addr g_persistfs_dir name len flags s)
  | FsOpen slot flags => snd (persistfs_file_open slot flags s)
  | FsUnlink name len => snd (persistfs_dir_unlink g_persistfs_dir name len s)
  | FsRead f len => snd (persistfs_file_read f true len s)
  | FsWrite f buf len => snd (persistfs_file_write f (Some buf) len s)
  | FsClose f => snd (persistfs_file_close f s)
  end.

Definition fs_run s (ops : list fs_op) : pfs δ := foldl fs_run1 s ops.

Lemma fs_run1_wf s o : fs_wf s → fs_op_sane o → fs_wf (fs_run1 s o).
Proof.
  intros Hwf Ho. destruct o as [name len fl|x fl|name len|f len|f b len|f]; simpl.
  - by apply create_open_wf.
  - by apply file_open_wf.
  - by apply unlink_wf.
  - pose proof (file_read_meta f true len s) as Hm.
    destruct (persistfs_file_read f true len s) as [[r f'] s']. by eapply same_meta_wf.
  - destruct Ho as [Hlen Hoff]. pose proof (file_write_wf f (Some b) len s Hwf Hlen Hoff) as Hw.
    by destruct (persistfs_file_write f (Some b) len s) as [[[r n] f'] s'].
  - unfold persistfs_file_close. destruct (_ =? 0); simpl; [done|]. by destruct Hwf.
Qed.

Lemma fs_run_wf s ops : fs_wf s → Forall fs_op_sane ops → fs_wf (fs_run s ops).
Proof.
  revert s. induction ops as [|o ops IH]; intros s Hwf Hops; [done|].
  apply Forall_cons in Hops as [Ho Hops]. apply IH; [by apply fs_run1_wf|done].
Qed.
End runs.

(** * Properties *)

Definition demo_fs : pfs (gmap Z (list Z) * bool) :=
  Pfs (mem_cache true) super_zero (replicate 64 file_slot_zero) (replicate 4096 0) 975 false demo_heap ∅ [].

(** "a" and "b", created for writing. *)
Definition demo_ops : list fs_op :=
  [FsCreateOpen [97] 1 5; FsCreateOpen [98] 1 5;
   FsWrite (KFile (Some g_persistfs_kfile_ops) None 1048576 0 1) (replicate 600 65) 600;
   FsWrite (KFile (Some g_persistfs_kfile_ops) None 1048584 0 1) [66; 67] 2;
   FsUnlink [97] 1].

Lemma demo_handles : handles_in_table demo_fs.
Proof.
  intros h i g Hi. change (open_files demo_fs) with (∅ : gmap Z (Z * Z)) in Hi.
  by rewrite lookup_empty in Hi.
Qed.

(** C4: From a format on, after any sequence of creates, opens (truncating or
    not), reads, writes, unlinks and closes, whatever sectors fail to be
    written and wherever a call gives up, the block accounts are exact: no
    block belongs to two files or twice to one, every block of a file is
    allocated in the bitmap, and every allocated block belongs to a file. *)
Theorem fs_run_accounts {δ} slots_addr ops_addr sectors (s0 : pfs δ) ops :
  0 ≤ data_block_count s0 ≤ PERSISTFS_BITMAP_BITS → handles_in_table s0 → Forall fs_op_sane ops →
  let s := fs_run slots_addr ops_addr (snd (persistfs_format slots_addr ops_addr sectors s0)) ops in
  fs_wf s ∧
  (∀ i j b, own_of (g_slots s) i j = Some b →
            0 ≤ b < data_block_count s ∧ persistfs_bitmap_test b s = true) ∧
  (∀ i j i' j' b, own_of (g_slots s) i j = Some b → own_of (g_slots s) i' j' = Some b → i = i' ∧ j = j') ∧
  (∀ b, 0 ≤ b < data_block_count s → persistfs_bitmap_test b s = true → ∃ i j, own_of (g_slots s) i j = Some b).
Proof.
  intros Hn Hh Hops s. assert (Hwf : fs_wf s) by (apply fs_run_wf; [by apply format_wf|done]).
  destruct (fw_accounts s Hwf) as [Hm Hu Ho].
  assert (Ht : ∀ b, 0 ≤ b < data_block_count s → persistfs_bitmap_test b s = bm_test (g_bitmap s) b).
  { intros b Hb. unfold persistfs_bitmap_test. by rewrite (proj2 (Z.leb_gt _ _)) by lia. }
  split; [done|]. split_and!; [|exact Hu|].
  - intros i j b Hij. destruct (Hm i j b Hij) as [Hb Hbt]. split; [done|]. by rewrite Ht.
  - intros b Hb. rewrite Ht by done. by apply Ho.
Qed.

Lemma fs_run_accounts_witness :
  let s := fs_run 0 0 (snd (persistfs_format 0 0 1000 demo_fs)) demo_ops in
  fs_wf s ∧ own_of (g_slots s) 1 0 = Some 2 ∧ persistfs_bitmap_test 2 s = true ∧
  persistfs_bitmap_test 0 s = false.
Proof.
  split.
  - apply (fs_run_accounts 0 0 1000 demo_fs demo_ops); [by unfold PERSISTFS_BITMAP_BITS; simpl|exact demo_handles|].
    repeat constructor; simpl; unfold two32; lia.
  - vm_compute. done.
Defined.

(** The sanity pass of a dirty mount either refuses the file table (a block
    out of range or shared, too many blocks) and changes nothing, or repairs
    the bitmap so that the accounts are exact, whatever the bitmap said. *)
Theorem sanity_pass_repairs {δ} (s : pfs δ) :
  alen (g_slots s) = PERSISTFS_FILE_TABLE_ENTRIES → bitmap_wf (g_bitmap s) →
  0 ≤ data_block_count s ≤ PERSISTFS_BITMAP_BITS → handles_in_table s →
  (∀ i, 0 ≤ i < PERSISTFS_FILE_TABLE_ENTRIES → loaded_entry (disk_of s i)) →
  match expect_slots (data_block_count s) (g_slots s) (replicate 4096 0) with
  | Ok _ => fs_wf (snd (persistfs_run_metadata_sanity_pass s))
  | Err _ => persistfs_run_metadata_sanity_pass s = (Err KERR_FAULT, s)
  end.
Proof. exact (sanity_cases s). Qed.

(** A file with blocks 3 and 5, and a bitmap that says 5 and 9. *)
Definition demo_dirty : pfs (gmap Z (list Z) * bool) :=
  Pfs (mem_cache true) super_zero
      (FileSlot (FileEntry 1 2 600 2 (97 :: replicate 31 0) (3 :: 5 :: replicate 18 0)) (SlotNode 0 0 0 0)
       :: replicate 63 file_slot_zero)
      (32 :: 2 :: replicate 4094 0) 975 false demo_heap ∅ [].

Lemma demo_dirty_loaded i :
  0 ≤ i < PERSISTFS_FILE_TABLE_ENTRIES → loaded_entry (disk_of demo_dirty i).
Proof.
  intros Hi. unfold disk_of, demo_dirty. cbn [g_slots].
  assert (Hz : ∀ n j, 0 ≤ cget (replicate n 0) j).
  { intros n j. unfold cget. destruct (replicate n 0 !! Z.to_nat j) eqn:E; [|done].
    by apply lookup_replicate in E as [-> _]. }
  destruct (decide (i = 0)) as [->|Hne].
  - split_and!; try done. change (aget _ 0) with
      (FileSlot (FileEntry 1 2 600 2 (97 :: replicate 31 0) (3 :: 5 :: replicate 18 0)) (SlotNode 0 0 0 0)).
    cbn [slot_disk fe_direct_blocks]. intros j. unfold cget.
    destruct (Z.to_nat j) as [|[|k]]; [done|done|]. cbn [lookup list_lookup].
    specialize (Hz 18%nat (Z.of_nat k)). unfold cget in Hz. by rewrite Nat2Z.id in Hz.
  - assert (Hg : aget (FileSlot (FileEntry 1 2 600 2 (97 :: replicate 31 0) (3 :: 5 :: replicate 18 0))
      (SlotNode 0 0 0 0) :: replicate 63 file_slot_zero) i = file_slot_zero).
    { unfold aget. destruct (Z.to_nat i) as [|k] eqn:E; [lia|]. cbn [lookup_total list_lookup_total].
      apply lookup_total_replicate_2. unfold PERSISTFS_FILE_TABLE_ENTRIES in Hi. lia. }
    rewrite Hg. split_and!; try done. apply Hz.
Qed.

Lemma sanity_pass_repairs_witness :
  fs_wf (snd (persistfs_run_metadata_sanity_pass demo_dirty)) ∧
  persistfs_bitmap_test 3 (snd (persistfs_run_metadata_sanity_pass demo_dirty)) = true ∧
  persistfs_bitmap_test 9 (snd (persistfs_run_metadata_sanity_pass demo_dirty)) = false.
Proof.
  split; [|vm_compute; done].
  pose proof (sanity_pass_repairs demo_dirty) as H.
  assert (Hex : is_ok (expect_slots 975 (g_slots demo_dirty) (replicate 4096 0)) = true) by (vm_compute; reflexivity).
  change (data_block_count demo_dirty) with 975 in H.
  destruct (expect_slots 975 (g_slots demo_dirty) (replicate 4096 0)); [|discriminate Hex].
  apply H; [reflexivity| |unfold PERSISTFS_BITMAP_BITS; lia|exact demo_handles|exact demo_dirty_loaded].
  split; [reflexivity|]. change (Forall is_byte (32 :: 2 :: replicate 4094 0)).
  do 2 (apply Forall_cons; split; [unfold is_byte; lia|]).
  apply (Forall_replicate is_byte 4094 0). unfold is_byte. lia.
Defined.

(** C39: Growing a file is all or nothing: on success it has the blocks it had, at
    the same places, and is grown to exactly the number asked for (or was longer
    already); on failure (too many, disk full, a sector that cannot be zeroed) it
    has exactly the blocks it had, and the bitmap marks exactly the blocks it
    marked; either way the accounts stay exact and no other file and no other field
    changes. *)
Theorem ensure_file_blocks_atomic {δ} (s : pfs δ) x req :
  fs_wf s → 0 ≤ x < PERSISTFS_FILE_TABLE_ENTRIES → used_entry (disk_of s x) = true → 0 ≤ req →
  let '(r, s') := persistfs_ensure_file_blocks x req s in
  fs_wf s' ∧ blocks_only x s s' ∧ blocks_kept (fe_block_count (disk_of s x)) x s s' ∧
  match r with
  | Ok _ => fe_block_count (disk_of s' x) = Z.max req (fe_block_count (disk_of s x))
  | Err e =>
      e = KERR_NOMEM ∧ fe_block_count (disk_of s' x) = fe_block_count (disk_of s x) ∧
      ∀ b, 0 ≤ b → persistfs_bitmap_test b s' = persistfs_bitmap_test b s
  end.
Proof. exact (ensure_cases x req s). Qed.

Definition demo_fs1 : pfs (gmap Z (list Z) * bool) :=
  fs_run 0 0 (snd (persistfs_format 0 0 1000 demo_fs)) demo_ops.

Lemma demo_fs1_wf : fs_wf demo_fs1.
Proof.
  apply fs_run_wf; [apply format_wf; [by unfold PERSISTFS_BITMAP_BITS; simpl|exact demo_handles]|].
  repeat constructor; simpl; unfold two32; lia.
Qed.

Lemma ensure_file_blocks_atomic_witness :
  let '(r, s') := persistfs_ensure_file_blocks 1 4 demo_fs1 in
  r = Ok tt ∧ fe_block_count (disk_of s' 1) = 4 ∧ blocks_only 1 demo_fs1 s'.
Proof.
  assert (H1 : 0 ≤ 1 < PERSISTFS_FILE_TABLE_ENTRIES) by done. assert (H4 : 0 ≤ 4) by done.
  assert (Hu : used_entry (disk_of demo_fs1 1) = true) by (vm_compute; reflexivity).
  assert (Hr : fst (persistfs_ensure_file_blocks 1 4 demo_fs1) = Ok tt) by (vm_compute; reflexivity).
  assert (Hc : fe_block_count (disk_of (snd (persistfs_ensure_file_blocks 1 4 demo_fs1)) 1) = 4)
    by (vm_compute; reflexivity).
  pose proof (ensure_file_blocks_atomic demo_fs1 1 4 demo_fs1_wf H1 Hu H4) as H.
  destruct (persistfs_ensure_file_blocks 1 4 demo_fs1) as [r s'].
  cbn [fst snd] in Hr, Hc. destruct H as (_ & H & _). split; [exact Hr|]. split; [exact Hc|exact H].
Defined.
