(* ===== verification/PersistLayout.v ===== *)
(** The on-disk file table of kernel/persistfs.c (definitions in PersistFs.v).

    The table is written and read by copying 512-byte sectors from and to every
    fourth element of [g_persistfs_slots].  An element is 144 bytes (an entry of
    128 and a node of 16), so a sector holds three whole elements and the first
    80 bytes of the fourth: [table_reload] says exactly what survives. *)

From S2P Require Import Prelude Bytes Kmalloc VfsNode KFile BlockCache PersistFs.

(** * Entries *)

Record entry_ok (e : persistfs_file_entry_disk) : Prop := {
  eo_words : is_u32 (fe_in_use e) ∧ is_u32 (fe_generation e) ∧ is_u32 (fe_size_bytes e) ∧
             is_u32 (fe_block_count e);
  eo_name : alen (fe_name e) = PERSISTFS_MAX_FILENAME ∧ bytes_ok (fe_name e);
  eo_direct : alen (fe_direct_blocks e) = PERSISTFS_DIRECT_BLOCKS ∧ Forall (λ x, is_u32 x) (fe_direct_blocks e)
}.

Definition slot_ok (sl : persistfs_file_slot) : Prop := entry_ok (slot_disk sl).

Definition table_ok (slots : list persistfs_file_slot) : Prop :=
  alen slots = PERSISTFS_FILE_TABLE_ENTRIES ∧ Forall slot_ok slots.

Lemma entry_bytes_spec e :
  alen (fe_name e) = PERSISTFS_MAX_FILENAME → alen (fe_direct_blocks e) = PERSISTFS_DIRECT_BLOCKS →
  alen (entry_bytes e) = 128 ∧
  ∀ k, 0 ≤ k < 128 →
    cget (entry_bytes e) k =
    if decide (k < 4) then cget (le32 (fe_in_use e)) k
    else if decide (k < 8) then cget (le32 (fe_generation e)) (k - 4)
    else if decide (k < 12) then cget (le32 (fe_size_bytes e)) (k - 8)
    else if decide (k < 16) then cget (le32 (fe_block_count e)) (k - 12)
    else if decide (k < 48) then cget (fe_name e) (k - 16)
    else cget (concat (le32 <$> fe_direct_blocks e)) (k - 48).
Proof.
  intros Hname Hdir. unfold entry_bytes, PERSISTFS_MAX_FILENAME, PERSISTFS_DIRECT_BLOCKS in *. split.
  - rewrite !alen_app, !alen_le32, alen_words. lia.
  - intros k Hk.
    repeat (rewrite cget_app by lia; rewrite ?alen_le32, ?Hname; case_decide);
      repeat case_decide; try lia; f_equal; lia.
Qed.

(** Decoding looks at 128 bytes. *)
Lemma entry_decode b off e :
  entry_ok e → 0 ≤ off → off + 128 ≤ alen b →
  (∀ k, 0 ≤ k < 128 → cget b (off + k) = cget (entry_bytes e) k) → entry_of_bytes b off = e.
Proof.
  intros [(H1 & H2 & H3 & H4) [Hname _] [Hdir Hwords]] Ho Hl Hb.
  destruct (entry_bytes_spec e Hname Hdir) as [_ Hs].
  assert (Hw : ∀ o x, is_u32 x → 0 ≤ o → o + 4 ≤ 128 →
    (∀ k, 0 ≤ k < 4 → cget (entry_bytes e) (o + k) = cget (le32 x) k) → de32 b (off + o) = x).
  { intros o x Hx Ho0 Ho4 Hk. rewrite <- (de32_le32 x Hx). apply de32_ext. intros k Hk4.
    rewrite <- Z.add_assoc, Hb by lia. rewrite Hk by lia. done. }
  unfold entry_of_bytes. rewrite <- (Z.add_0_r off) at 1.
  rewrite (Hw 0 (fe_in_use e)), (Hw 4 (fe_generation e)), (Hw 8 (fe_size_bytes e)),
    (Hw 12 (fe_block_count e)); try done; try lia.
  all: try (intros k Hk; rewrite Hs by lia; repeat case_decide; try lia; f_equal; lia).
  assert (Hn : slice b (off + 16) PERSISTFS_MAX_FILENAME = fe_name e).
  { unfold PERSISTFS_MAX_FILENAME in *. apply blist_eq; [rewrite alen_slice by lia; done|].
    intros k Hk. rewrite alen_slice in Hk by lia. rewrite cget_slice by lia.
    rewrite <- Z.add_assoc, Hb, Hs by lia. repeat case_decide; try lia. f_equal; lia. }
  assert (Hd : de32s b (off + 48) PERSISTFS_DIRECT_BLOCKS = fe_direct_blocks e).
  { unfold PERSISTFS_DIRECT_BLOCKS, de32s in *.
    apply blist_eq; [unfold alen in *; rewrite length_fmap, length_seqZ; lia|].
    intros k Hk. unfold alen in Hk. rewrite length_fmap, length_seqZ in Hk.
    unfold cget at 1. rewrite list_lookup_fmap, (proj2 (lookup_seqZ 0 20 (Z.to_nat k) k)) by lia. simpl.
    replace (off + 48 + 4 * k) with (off + (48 + 4 * k)) by lia.
    apply Hw; [|lia|lia|].
    - pose proof (cget_lt (fe_direct_blocks e) k ltac:(lia)) as Hg.
      by apply (Forall_lookup_1 _ _ _ _ Hwords Hg).
    - intros m Hm. rewrite Hs by lia. repeat case_decide; try lia.
      replace (48 + 4 * k + m - 48) with (4 * k + m) by lia. apply cget_words; lia. }
  rewrite Hn, Hd. by destruct e.
Qed.

(** Encoding a decoded slot gives its bytes back. *)
Lemma slot_recode b off k :
  bytes_ok b → 0 ≤ off → off + 144 ≤ alen b → 0 ≤ k < 144 →
  let sl := FileSlot (entry_of_bytes b off) (node_of_bytes b (off + 128)) in
  alen (slot_bytes sl) = 144 ∧ cget (slot_bytes sl) k = cget b (off + k).
Proof.
  intros Hb Ho Hl Hk sl.
  assert (Hname : alen (fe_name (entry_of_bytes b off)) = PERSISTFS_MAX_FILENAME).
  { simpl. unfold PERSISTFS_MAX_FILENAME. apply alen_slice; lia. }
  assert (Hdir : alen (fe_direct_blocks (entry_of_bytes b off)) = PERSISTFS_DIRECT_BLOCKS).
  { simpl. unfold de32s, alen. rewrite length_fmap, length_seqZ. done. }
  destruct (entry_bytes_spec _ Hname Hdir) as [Hel Hs].
  assert (Hw : ∀ o m, 0 ≤ o → 0 ≤ m < 4 → cget (le32 (de32 b o)) m = cget b (o + m)).
  { intros o m Ho0 Hm. apply le32_de32; [done|]. intros j Hj. apply Hb. lia. }
  unfold slot_bytes, sl; cbn [slot_disk slot_vfs_node]. split.
  - rewrite alen_app, Hel. unfold node_bytes. rewrite !alen_app, !alen_le32. lia.
  - rewrite cget_app by lia. rewrite Hel. case_decide.
    + rewrite Hs by lia. unfold entry_of_bytes; cbn [fe_in_use fe_generation fe_size_bytes fe_block_count fe_name fe_direct_blocks].
      repeat case_decide; rewrite ?Hw by lia; try (f_equal; lia).
      * rewrite cget_slice by (unfold PERSISTFS_MAX_FILENAME; lia). f_equal. lia.
      * pose proof (Z.div_mod (k - 48) 4 ltac:(lia)) as Hdm. pose proof (Z.mod_pos_bound (k - 48) 4 ltac:(lia)).
        rewrite Hdm. rewrite cget_words by (unfold de32s, alen; rewrite ?length_fmap, ?length_seqZ;
          unfold PERSISTFS_DIRECT_BLOCKS; lia).
        unfold de32s. unfold cget at 2. rewrite list_lookup_fmap.
        rewrite (proj2 (lookup_seqZ 0 PERSISTFS_DIRECT_BLOCKS (Z.to_nat ((k - 48) / 4)) ((k - 48) / 4)))
          by (unfold PERSISTFS_DIRECT_BLOCKS; lia). simpl.
        rewrite Hw by lia. f_equal. lia.
    + unfold node_bytes, node_of_bytes; cbn [sn_name sn_type sn_ops sn_private].
      repeat (rewrite cget_app by lia; rewrite ?alen_le32; case_decide); rewrite Hw by lia; f_equal; lia.
Qed.

(** * The table as bytes *)

Lemma entry_bytes_ok e : entry_ok e → bytes_ok (entry_bytes e).
Proof.
  intros Hok. unfold entry_bytes.
  repeat apply bytes_ok_app; try apply le32_bytes; [apply (eo_name _ Hok)|apply bytes_ok_words].
Qed.

Lemma slot_bytes_ok sl : slot_ok sl → alen (slot_bytes sl) = SLOT_SIZE ∧ bytes_ok (slot_bytes sl).
Proof.
  intros Hok. destruct (entry_bytes_spec _ (proj1 (eo_name _ Hok)) (proj1 (eo_direct _ Hok))) as [Hl _].
  unfold slot_bytes, node_bytes, SLOT_SIZE. split.
  - rewrite !alen_app, !alen_le32, Hl. lia.
  - apply bytes_ok_app; [by apply entry_bytes_ok|]. repeat apply bytes_ok_app; apply le32_bytes.
Qed.

Definition TABLE_BYTES : Z := 9216.

Lemma table_bytes_ok slots :
  table_ok slots → alen (slots_bytes slots) = TABLE_BYTES ∧ bytes_ok (slots_bytes slots).
Proof.
  intros [Hlen HF]. unfold slots_bytes. split.
  - rewrite (alen_rows slot_bytes SLOT_SIZE).
    + unfold SLOT_SIZE, TABLE_BYTES, PERSISTFS_FILE_TABLE_ENTRIES in *. lia.
    + eapply Forall_impl; [exact HF|]. intros sl. apply slot_bytes_ok.
  - clear Hlen. induction HF as [|sl l Hsl HF IH].
    + intros k Hk. unfold cget. simpl. lia.
    + rewrite fmap_cons. cbn [concat]. apply bytes_ok_app; [by apply slot_bytes_ok|done].
Qed.

(** The bytes of slot [j]. *)
Lemma cget_table slots j k :
  table_ok slots → 0 ≤ j < PERSISTFS_FILE_TABLE_ENTRIES → 0 ≤ k < SLOT_SIZE →
  cget (slots_bytes slots) (SLOT_SIZE * j + k) = cget (slot_bytes slots.[j]) k.
Proof.
  intros [Hlen HF] Hj Hk. apply (cget_rows slot_bytes SLOT_SIZE); [done| |lia|done].
  eapply Forall_impl; [exact HF|]. intros sl. apply slot_bytes_ok.
Qed.

Lemma cget_table_entry slots j k :
  table_ok slots → 0 ≤ j < PERSISTFS_FILE_TABLE_ENTRIES → 0 ≤ k < 128 →
  cget (slots_bytes slots) (SLOT_SIZE * j + k) = cget (entry_bytes (slot_disk slots.[j])) k.
Proof.
  intros Hok Hj Hk. rewrite cget_table by (unfold SLOT_SIZE; done || lia).
  destruct Hok as [Hlen HF].
  assert (Hsl : slot_ok slots.[j]) by (apply (Forall_lookup_1 _ _ _ _ HF (aget_lookup slots j ltac:(lia)))).
  destruct (entry_bytes_spec _ (proj1 (eo_name _ Hsl)) (proj1 (eo_direct _ Hsl))) as [Hl _].
  unfold slot_bytes. rewrite cget_app by lia. by rewrite decide_True by lia.
Qed.

Lemma aget_slots_of_bytes b j :
  0 ≤ j < PERSISTFS_FILE_TABLE_ENTRIES →
  (slots_of_bytes b).[j] = FileSlot (entry_of_bytes b (SLOT_SIZE * j)) (node_of_bytes b (SLOT_SIZE * j + 128)).
Proof.
  intros Hj. unfold slots_of_bytes, aget. apply list_lookup_total_correct.
  rewrite list_lookup_fmap, (proj2 (lookup_seqZ 0 PERSISTFS_FILE_TABLE_ENTRIES (Z.to_nat j) j)); [done|lia].
Qed.

(** Reading the table out of memory and writing it back changes no byte. *)
Lemma slots_recode b : bytes_ok b → alen b = TABLE_BYTES → slots_bytes (slots_of_bytes b) = b.
Proof.
  intros Hb Hl. unfold TABLE_BYTES, slots_bytes in *.
  assert (Hlen : alen (slots_of_bytes b) = PERSISTFS_FILE_TABLE_ENTRIES)
    by (unfold slots_of_bytes, alen; rewrite length_fmap, length_seqZ; done).
  assert (HF : Forall (λ sl, alen (slot_bytes sl) = SLOT_SIZE) (slots_of_bytes b)).
  { apply Forall_fmap, Forall_forall. intros i Hi. apply elem_of_seqZ in Hi.
    unfold PERSISTFS_FILE_TABLE_ENTRIES, SLOT_SIZE in *. apply (slot_recode b (144 * i) 0); lia || done. }
  assert (Ht : alen (concat (slot_bytes <$> slots_of_bytes b)) = 9216).
  { rewrite (alen_rows slot_bytes SLOT_SIZE _ HF), Hlen. done. }
  apply blist_eq; [by rewrite Ht|]. intros k Hk. rewrite Ht in Hk.
  pose proof (Z.div_mod k SLOT_SIZE ltac:(done)) as Hdm.
  pose proof (Z.mod_pos_bound k SLOT_SIZE ltac:(done)) as Hm.
  assert (Hj : 0 ≤ k / SLOT_SIZE < PERSISTFS_FILE_TABLE_ENTRIES).
  { unfold PERSISTFS_FILE_TABLE_ENTRIES. split; [apply Z.div_pos; [lia|done]|].
    apply Z.div_lt_upper_bound; [done|unfold SLOT_SIZE; lia]. }
  rewrite Hdm. rewrite (cget_rows slot_bytes SLOT_SIZE); [|done|done|lia|done].
  rewrite aget_slots_of_bytes by done. unfold SLOT_SIZE, PERSISTFS_FILE_TABLE_ENTRIES in *.
  apply (slot_recode b (144 * (k / 144)) (k mod 144)); done || lia.
Qed.

(** * Loading the table over an old one *)

(** The bytes after the sectors before [n] are loaded: of every 576 bytes, the
    first 512 come from the table that was written. *)
Definition loaded_from (b1 b0 : list Z) (n : Z) (b : list Z) : Prop :=
  alen b = TABLE_BYTES ∧
  ∀ k, 0 ≤ k < TABLE_BYTES →
    cget b k = if decide (k / 576 < n ∧ k mod 576 < 512) then cget b1 k else cget b0 k.

Lemma loaded_step b1 b0 n b :
  alen b1 = TABLE_BYTES → 0 ≤ n < PERSISTFS_FILE_TABLE_SECTORS → loaded_from b1 b0 n b →
  loaded_from b1 b0 (n + 1) (overlay b (SLOT_SIZE * (n * 4)) (slice b1 (SLOT_SIZE * (n * 4)) PERSISTFS_BLOCK_SIZE)).
Proof.
  unfold SLOT_SIZE, PERSISTFS_BLOCK_SIZE, PERSISTFS_FILE_TABLE_SECTORS, loaded_from, TABLE_BYTES.
  intros H1 Hn [Hl Hk]. assert (Hs : alen (slice b1 (144 * (n * 4)) 512) = 512) by (apply alen_slice; lia).
  split; [rewrite alen_overlay; lia|]. intros k Hkr. rewrite cget_overlay by lia. rewrite Hs, Hk by lia.
  pose proof (Z.div_mod k 576 ltac:(lia)). pose proof (Z.mod_pos_bound k 576 ltac:(lia)).
  destruct (decide (144 * (n * 4) ≤ k < 144 * (n * 4) + 512)).
  - assert (k / 576 = n) by (symmetry; apply (Z.div_unique_pos _ _ _ (k - 576 * n)); lia).
    rewrite decide_True by nia. rewrite cget_slice by lia. f_equal. lia.
  - destruct (decide (k / 576 < n ∧ k mod 576 < 512)) as [[? ?]|Hno]; [by rewrite decide_True by lia|].
    rewrite decide_False; [done|]. intros [? ?]. apply Hno. split; [|done].
    assert (k / 576 ≠ n); [|lia]. intros E. rewrite E in *. lia.
Qed.

Lemma loaded_bytes_ok b1 b0 n b : bytes_ok b1 → bytes_ok b0 → loaded_from b1 b0 n b → bytes_ok b.
Proof.
  intros H1 H0 [Hl Hk] k Hk0. destruct (decide (k < TABLE_BYTES)).
  - rewrite Hk by lia. case_decide; [by apply H1|by apply H0].
  - rewrite cget_ge by lia. lia.
Qed.

(** What an entry is after a reload: the fourth of every sector keeps the old
    block numbers from the ninth on. *)
Definition reloaded_entry (new old : persistfs_file_entry_disk) (j : Z) : persistfs_file_entry_disk :=
  if decide (j mod 4 = 3)
  then e_set_blocks new (fe_block_count new)
         (take 8 (fe_direct_blocks new) ++ drop 8 (fe_direct_blocks old))
  else new.

Lemma mixed_entry_ok new old :
  entry_ok new → entry_ok old →
  entry_ok (e_set_blocks new (fe_block_count new) (take 8 (fe_direct_blocks new) ++ drop 8 (fe_direct_blocks old))).
Proof.
  intros [Hw Hn [Hd Hf]] [_ _ [Hd' Hf']]. split; simpl; [done|done|].
  unfold PERSISTFS_DIRECT_BLOCKS, alen in *. split.
  - rewrite length_app, length_take, length_drop. lia.
  - apply Forall_app. split; [by apply Forall_take|by apply Forall_drop].
Qed.

Lemma mixed_entry_bytes new old k :
  entry_ok new → entry_ok old → 0 ≤ k < 128 →
  cget (entry_bytes (e_set_blocks new (fe_block_count new)
                       (take 8 (fe_direct_blocks new) ++ drop 8 (fe_direct_blocks old)))) k =
  if decide (k < 80) then cget (entry_bytes new) k else cget (entry_bytes old) k.
Proof.
  intros Hnew Hold Hk. pose proof (mixed_entry_ok new old Hnew Hold) as Hmix.
  rewrite (proj2 (entry_bytes_spec _ (proj1 (eo_name _ Hmix)) (proj1 (eo_direct _ Hmix))) k Hk).
  rewrite (proj2 (entry_bytes_spec _ (proj1 (eo_name _ Hnew)) (proj1 (eo_direct _ Hnew))) k Hk).
  rewrite (proj2 (entry_bytes_spec _ (proj1 (eo_name _ Hold)) (proj1 (eo_direct _ Hold))) k Hk).
  pose proof (proj1 (eo_direct _ Hnew)) as Hdn. pose proof (proj1 (eo_direct _ Hold)) as Hdo.
  cbn [e_set_blocks fe_in_use fe_generation fe_size_bytes fe_block_count fe_name fe_direct_blocks].
  unfold PERSISTFS_DIRECT_BLOCKS in *. set (dn := fe_direct_blocks new) in *. set (od := fe_direct_blocks old) in *.
  destruct (decide (k < 48)); [repeat case_decide; try lia; done|].
  rewrite !(decide_False (P := k < 4)), !(decide_False (P := k < 8)), !(decide_False (P := k < 12)),
    !(decide_False (P := k < 16)) by lia.
  pose proof (Z.div_mod (k - 48) 4 ltac:(lia)) as Hdm. pose proof (Z.mod_pos_bound (k - 48) 4 ltac:(lia)).
  rewrite Hdm. assert (Hm : alen (take 8 dn ++ drop 8 od) = 20)
    by (unfold alen in *; rewrite length_app, length_take, length_drop; lia).
  rewrite !cget_words by lia. set (q := (k - 48) / 4) in *.
  assert (Ht : alen (take 8 dn) = 8) by (unfold alen in *; rewrite length_take; lia).
  rewrite cget_app by lia. rewrite Ht. destruct (decide (k < 80)).
  - rewrite decide_True by lia. do 2 f_equal. unfold cget. by rewrite lookup_take_lt by lia.
  - rewrite decide_False by lia. do 2 f_equal. unfold cget. rewrite lookup_drop. do 2 f_equal. lia.
Qed.

(** A fully loaded table, slot by slot. *)
Lemma loaded_slot new old b j :
  table_ok new → table_ok old → loaded_from (slots_bytes new) (slots_bytes old) 16 b →
  0 ≤ j < PERSISTFS_FILE_TABLE_ENTRIES →
  slot_disk (slots_of_bytes b).[j] = reloaded_entry (slot_disk new.[j]) (slot_disk old.[j]) j.
Proof.
  intros Hnew Hold [Hl Hk] Hj. rewrite aget_slots_of_bytes by done. cbn [slot_disk].
  assert (He : ∀ t, table_ok t → entry_ok (slot_disk t.[j])).
  { intros t [Ht HF]. apply (Forall_lookup_1 _ _ _ _ HF (aget_lookup t j ltac:(lia))). }
  pose proof (Z.div_mod j 4 ltac:(lia)). pose proof (Z.mod_pos_bound j 4 ltac:(lia)).
  unfold TABLE_BYTES, SLOT_SIZE, PERSISTFS_FILE_TABLE_ENTRIES in *.
  assert (Hmod : ∀ k, 0 ≤ k < 128 → (144 * j + k) / 576 = j / 4 ∧ (144 * j + k) mod 576 = 144 * (j mod 4) + k).
  { intros k Hk0. split; symmetry;
      [apply (Z.div_unique_pos _ _ _ (144 * (j mod 4) + k))|apply (Z.mod_unique_pos _ _ (j / 4))]; lia. }
  assert (Hb : ∀ k, 0 ≤ k < 128 →
    cget b (144 * j + k) = if decide (144 * (j mod 4) + k < 512)
                           then cget (entry_bytes (slot_disk new.[j])) k
                           else cget (entry_bytes (slot_disk old.[j])) k).
  { intros k Hk0. destruct (Hmod k Hk0) as [E1 E2]. rewrite Hk by lia. rewrite E1, E2.
    pose proof (cget_table_entry new j k Hnew Hj Hk0) as Cn.
    pose proof (cget_table_entry old j k Hold Hj Hk0) as Co. unfold SLOT_SIZE in Cn, Co. rewrite Cn, Co.
    destruct (decide (144 * (j mod 4) + k < 512)); [by rewrite decide_True by lia|by rewrite decide_False by lia]. }
  unfold reloaded_entry. destruct (decide (j mod 4 = 3)) as [E|E].
  - apply entry_decode; [by apply mixed_entry_ok; apply He|lia|lia|]. intros k Hk0.
    rewrite mixed_entry_bytes by auto. rewrite Hb by done. rewrite E.
    destruct (decide (k < 80)); [by rewrite decide_True by lia|by rewrite decide_False by lia].
  - apply entry_decode; [by apply He|lia|lia|]. intros k Hk0. rewrite Hb by done. by rewrite decide_True by lia.
Qed.

(** * Writing the table and reading it back *)

Section reload.
Context {δ : Type} (dev : block_device δ) `{!DeviceLaws dev}.
Implicit Types (s t : pfs δ).

Lemma write_sectors_spec lba sector is_ bad s s' :
  coherent dev bad (cache s) → NoDup is_ → write_sectors lba sector is_ s = (Ok tt, s') →
  (∀ i, i ∈ is_ → dev_sector (disk (cache s')) (lba + i) = sector i) ∧
  (∀ l, (∀ i, i ∈ is_ → l ≠ lba + i) → dev_sector (disk (cache s')) l = dev_sector (disk (cache s)) l).
Proof.
  revert bad s. induction is_ as [|i is_ IH]; intros bad s Hc Hnd Hw; simpl in Hw.
  { injection Hw as <-. split; [|done]. intros i Hi. by apply not_elem_of_nil in Hi. }
  apply NoDup_cons in Hnd as [Hni Hnd]. revert Hw. unfold cache_write.
  pose proof (write_cases dev bad (cache s) (lba + i) (sector i) Hc) as H1.
  destruct (block_cache_write_sector (lba + i) (sector i) (cache s)) as [[[]|e] c]; [|done].
  destruct H1 as (Hframe & _ & Hc' & Hd & _). intros Hw.
  destruct (IH _ (with_cache s c) Hc' Hnd Hw) as [IH1 IH2]. split.
  - intros k [->|Hk]%elem_of_cons; [|by apply IH1]. rewrite IH2; [done|].
    intros j Hj Heq. apply Hni. by replace i with j by lia.
  - intros l Hl. rewrite IH2 by (intros j Hj; apply Hl; by right). simpl. apply Hframe, Hl. by left.
Qed.

Lemma load_table_spec is_ bad t t' :
  coherent dev bad (cache t) → (∀ i, i ∈ is_ → PERSISTFS_FILE_TABLE_LBA + i ∉ bad) →
  load_table_sectors is_ t = (Ok tt, t') →
  g_slots t' =
    foldl (λ sl i, load_sector sl i (dev_sector (disk (cache t)) (PERSISTFS_FILE_TABLE_LBA + i))) (g_slots t) is_.
Proof.
  revert t. induction is_ as [|i is_ IH]; intros t Hc Hbad Hl; simpl in Hl; [by injection Hl as <-|].
  revert Hl. unfold cache_read.
  pose proof (read_cases dev bad (cache t) (PERSISTFS_FILE_TABLE_LBA + i) Hc) as H1.
  destruct (block_cache_read_sector (PERSISTFS_FILE_TABLE_LBA + i) (cache t)) as [[data|e] c]; [|done].
  destruct H1 as (Hc' & Hsame & _ & Hdata & _). specialize (Hdata (Hbad i ltac:(by left))). intros Hl.
  rewrite (IH (with_slots (with_cache t c) (load_sector (g_slots t) i data))); [|done| |done].
  2: { intros j Hj. apply Hbad. by right. }
  simpl. rewrite <- Hdata.
  clear -Hsame. generalize (load_sector (g_slots t) i data) as sl.
  induction is_ as [|j is_ IH]; intros sl; simpl; [done|]. by rewrite Hsame, IH.
Qed.

Lemma load_all_sectors new old sectors (n : nat) :
  table_ok new → table_ok old → Z.of_nat n ≤ PERSISTFS_FILE_TABLE_SECTORS →
  (∀ i, 0 ≤ i < PERSISTFS_FILE_TABLE_SECTORS → sectors i = table_sector new i) →
  let sl := foldl (λ sl i, load_sector sl i (sectors i)) old (seqZ 0 (Z.of_nat n)) in
  loaded_from (slots_bytes new) (slots_bytes old) (Z.of_nat n) (slots_bytes sl) ∧
  ((0 < n)%nat → sl = slots_of_bytes (slots_bytes sl)).
Proof.
  intros Hnew Hold Hn Hsec. destruct (table_bytes_ok new Hnew) as [Hln Hbn].
  destruct (table_bytes_ok old Hold) as [Hlo Hbo]. induction n as [|n IH].
  { simpl. split; [|lia]. split; [done|]. intros k Hk. rewrite decide_False; [done|].
    intros [H1 _]. pose proof (Z.div_pos k 576 ltac:(lia) ltac:(lia)). lia. }
  specialize (IH ltac:(lia)). destruct IH as [IH _].
  replace (Z.of_nat (S n)) with (Z.of_nat n + 1) in * by lia.
  rewrite seqZ_app by lia. rewrite Z.add_0_l. rewrite (seqZ_cons (Z.of_nat n) 1) by lia. rewrite (seqZ_nil _ (Z.pred 1)) by lia.
  rewrite foldl_app. cbn [foldl]. set (sl := foldl _ old (seqZ 0 (Z.of_nat n))) in *.
  rewrite Hsec by lia. unfold load_sector, table_sector.
  pose proof (loaded_step _ _ (Z.of_nat n) (slots_bytes sl) Hln ltac:(lia) IH) as Hst.
  pose proof (loaded_bytes_ok _ _ _ _ Hbn Hbo Hst) as Hbst.
  rewrite slots_recode by (done || apply Hst). done.
Qed.

(** The table after a reload, slot by slot. *)
Lemma reload_cases bad bad' s s' t t' j :
  coherent dev bad (cache s) → table_ok (g_slots s) → persistfs_sync_file_table s = (Ok tt, s') →
  coherent dev bad' (cache t) → table_ok (g_slots t) →
  (∀ l, 1 ≤ l ≤ 16 → l ∉ bad' ∧ dev_sector (disk (cache t)) l = dev_sector (disk (cache s')) l) →
  load_table_sectors (seqZ 0 PERSISTFS_FILE_TABLE_SECTORS) t = (Ok tt, t') →
  0 ≤ j < PERSISTFS_FILE_TABLE_ENTRIES →
  disk_of t' j = reloaded_entry (disk_of s j) (disk_of t j) j.
Proof.
  intros Hc Hs Hw Hct Ht Hdev Hl Hj. unfold persistfs_sync_file_table in Hw.
  pose proof (write_sectors_spec _ _ _ _ _ _ Hc (NoDup_seqZ _ _) Hw) as [Hsec _].
  assert (H16 : ∀ i, i ∈ seqZ 0 PERSISTFS_FILE_TABLE_SECTORS → 1 ≤ PERSISTFS_FILE_TABLE_LBA + i ≤ 16).
  { intros i Hi%elem_of_seqZ. unfold PERSISTFS_FILE_TABLE_SECTORS, PERSISTFS_FILE_TABLE_LBA in *. lia. }
  pose proof (load_table_spec _ _ _ _ Hct (λ i Hi, proj1 (Hdev _ (H16 i Hi))) Hl) as Hg.
  destruct (load_all_sectors (g_slots s) (g_slots t)
    (λ i, dev_sector (disk (cache t)) (PERSISTFS_FILE_TABLE_LBA + i)) 16 Hs Ht ltac:(done)) as [H1 H2].
  { intros i Hi. assert (Hin : i ∈ seqZ 0 PERSISTFS_FILE_TABLE_SECTORS) by (apply elem_of_seqZ; lia).
    rewrite (proj2 (Hdev _ (H16 i Hin))). by apply Hsec. }
  unfold disk_of. rewrite Hg. change PERSISTFS_FILE_TABLE_SECTORS with (Z.of_nat 16). rewrite H2 by lia.
  by apply (loaded_slot _ _ _ _ Hs Ht H1).
Qed.
End reload.

(** * Properties *)

(** What a written file table is after a reboot.  With the table written
    without an error and then read by another run of the kernel (any coherent
    cache over the same sectors, any table [g_slots t] in memory), three slots
    of every four come back exactly; the fourth comes back without its block
    numbers from the ninth on, which stay whatever the table in memory had
    there: at boot zero, so every such block of the file reads and writes the
    first data block of the disk. *)
Theorem table_reload {δ} (dev : block_device δ) `{!DeviceLaws dev} bad bad' (s s' t t' : pfs δ) j :
  coherent dev bad (cache s) → table_ok (g_slots s) → persistfs_sync_file_table s = (Ok tt, s') →
  coherent dev bad' (cache t) → table_ok (g_slots t) →
  (∀ l, 1 ≤ l ≤ 16 → l ∉ bad' ∧ dev_sector (disk (cache t)) l = dev_sector (disk (cache s')) l) →
  load_table_sectors (seqZ 0 PERSISTFS_FILE_TABLE_SECTORS) t = (Ok tt, t') →
  0 ≤ j < PERSISTFS_FILE_TABLE_ENTRIES →
  (j mod 4 ≠ 3 → disk_of t' j = disk_of s j) ∧
  (j mod 4 = 3 →
     disk_of t' j = e_set_blocks (disk_of s j) (fe_block_count (disk_of s j)) (fe_direct_blocks (disk_of t' j)) ∧
     (∀ k, 0 ≤ k < 8 → cget (fe_direct_blocks (disk_of t' j)) k = cget (fe_direct_blocks (disk_of s j)) k) ∧
     (∀ k, 8 ≤ k < PERSISTFS_DIRECT_BLOCKS →
        cget (fe_direct_blocks (disk_of t' j)) k = cget (fe_direct_blocks (disk_of t j)) k)).
Proof.
  intros Hc Hs Hw Hct Ht Hdev Hl Hj. rewrite (reload_cases dev _ _ _ _ _ _ j Hc Hs Hw Hct Ht Hdev Hl Hj).
  assert (Hd : alen (fe_direct_blocks (disk_of s j)) = PERSISTFS_DIRECT_BLOCKS).
  { destruct Hs as [Hn HF]. apply (eo_direct _ (Forall_lookup_1 _ _ _ _ HF (aget_lookup (g_slots s) j ltac:(lia)))). }
  unfold reloaded_entry, PERSISTFS_DIRECT_BLOCKS in *. destruct (decide (j mod 4 = 3)); [|done].
  split; [done|]. intros _. cbn [e_set_blocks fe_direct_blocks].
  assert (Htk : alen (take 8 (fe_direct_blocks (disk_of s j))) = 8) by (unfold alen in *; rewrite length_take; lia).
  split_and!; [done| |]; intros k Hk; rewrite cget_app by lia; rewrite Htk.
  - rewrite decide_True by lia. unfold cget. by rewrite lookup_take_lt by lia.
  - rewrite decide_False by lia. unfold cget. rewrite lookup_drop. do 2 f_equal. lia.
Qed.

(** A file of twenty blocks in slot 3. *)
Definition demo_big_entry : persistfs_file_entry_disk :=
  FileEntry 1 2 10240 20 (97 :: replicate 31 0) (seqZ 40 20).

Definition demo_table : list persistfs_file_slot :=
  replicate 3 file_slot_zero ++ [FileSlot demo_big_entry (SlotNode 0 0 0 0)] ++ replicate 60 file_slot_zero.

Definition demo_written : pfs (gmap Z (list Z) * bool) :=
  Pfs (mem_cache true) super_zero demo_table (replicate 4096 0) 975 true demo_heap ∅ [].

(** The kernel rebooted over the same disk. *)
Definition demo_rebooted : pfs (gmap Z (list Z) * bool) :=
  Pfs (set_disk (mem_cache true) (disk (cache (snd (persistfs_sync_file_table demo_written))))) super_zero
      (replicate 64 file_slot_zero) (replicate 4096 0) 975 false demo_heap ∅ [].

Lemma bytes_ok_zeros n : bytes_ok (replicate n 0).
Proof.
  intros k Hk. unfold cget. destruct (replicate n 0 !! Z.to_nat k) eqn:E; [apply lookup_replicate in E as [-> _]|];
    simpl; lia.
Qed.

Lemma zero_slot_ok : slot_ok file_slot_zero.
Proof.
  split; cbn [slot_disk file_slot_zero file_entry_zero fe_in_use fe_generation fe_size_bytes fe_block_count fe_name
    fe_direct_blocks]; [unfold two32; lia| |]; (split; [done|]).
  - apply bytes_ok_zeros.
  - apply (Forall_replicate _ 20 0). unfold two32. lia.
Qed.

Lemma demo_slot_ok : slot_ok (FileSlot demo_big_entry (SlotNode 0 0 0 0)).
Proof.
  split; cbn [slot_disk demo_big_entry fe_in_use fe_generation fe_size_bytes fe_block_count fe_name fe_direct_blocks];
    [unfold two32; lia| |]; (split; [done|]).
  - apply (bytes_ok_app [97] (replicate 31 0)); [|apply bytes_ok_zeros].
    intros k Hk. unfold cget. destruct (Z.to_nat k) as [|[|n]]; simpl; lia.
  - apply Forall_forall. intros x Hx%elem_of_seqZ. unfold two32. lia.
Qed.

Lemma demo_tables_ok : table_ok demo_table ∧ table_ok (replicate 64 file_slot_zero).
Proof.
  split; (split; [done|]).
  - apply Forall_app. split; [apply (Forall_replicate _ 3), zero_slot_ok|].
    apply Forall_app. split; [apply Forall_singleton, demo_slot_ok|apply (Forall_replicate _ 60), zero_slot_ok].
  - apply (Forall_replicate _ 64), zero_slot_ok.
Qed.

Lemma demo_reload_ok :
  fst (persistfs_sync_file_table demo_written) = Ok tt ∧
  fst (load_table_sectors (seqZ 0 PERSISTFS_FILE_TABLE_SECTORS) demo_rebooted) = Ok tt.
Proof. split; lazy; reflexivity. Qed.

Lemma demo_written_coherent :
  coherent mem_dev ∅ (cache demo_written) ∧ coherent mem_dev ∅ (cache demo_rebooted).
Proof.
  split; [apply mem_cache_coherent|]. split; [apply set_disk_wf, mem_cache_wf|].
  intros lba data Hl Hca.
  pose proof (proj2 (mem_cache_coherent true) lba data Hl) as H. exfalso. clear H.
  apply (cached_iff mem_dev) in Hca as (i & Hi & He); [|apply set_disk_wf, mem_cache_wf].
  change (entries (cache demo_rebooted)) with (replicate 64 entry_zero) in He.
  rewrite (aget_replicate 64 entry_zero) in He by (unfold BLOCK_CACHE_ENTRY_COUNT in *; lia). done.
Qed.

Lemma demo_sectors_ok l :
  1 ≤ l ≤ 16 →
  l ∉ (∅ : gset Z) ∧ dev_sector (disk (cache demo_rebooted)) l =
                     dev_sector (disk (cache (snd (persistfs_sync_file_table demo_written)))) l.
Proof. intros _. split; [apply not_elem_of_empty|reflexivity]. Qed.

Lemma fst_eq {A B} (p : A * B) a : fst p = a → p = (a, snd p).
Proof. by intros <-; destruct p. Qed.

Lemma table_reload_witness :
  let t' := snd (load_table_sectors (seqZ 0 PERSISTFS_FILE_TABLE_SECTORS) demo_rebooted) in
  fe_block_count (disk_of t' 3) = 20 ∧ cget (fe_direct_blocks (disk_of t' 3)) 7 = 47 ∧
  cget (fe_direct_blocks (disk_of t' 3)) 8 = 0.
Proof.
  cbv zeta. assert (Hj : 0 ≤ 3 < PERSISTFS_FILE_TABLE_ENTRIES) by done.
  destruct demo_reload_ok as [H1 H2]. destruct demo_written_coherent as [C1 C2].
  destruct (table_reload mem_dev ∅ ∅ demo_written _ demo_rebooted _ 3 C1 (proj1 demo_tables_ok)
    (fst_eq _ _ H1) C2 (proj2 demo_tables_ok) (demo_sectors_ok) (fst_eq _ _ H2) Hj) as [_ H].
  revert H. clear H1 H2 C1 C2.
  generalize (snd (load_table_sectors (seqZ 0 PERSISTFS_FILE_TABLE_SECTORS) demo_rebooted)).
  intros t' H. destruct (H eq_refl) as (He & H8 & H20). clear H. rewrite He.
  split; [reflexivity|]. rewrite <- He. split.
  - rewrite H8 by lia. reflexivity.
  - rewrite H20 by (unfold PERSISTFS_DIRECT_BLOCKS; lia). reflexivity.
Defined.
