(* ===== verification/Vfs.v ===== *)
(** kernel/vfs.c: paths.

    The operations of a [struct vfs_node_ops] are the class [NodeOps] over the
    state [σ] of the file systems, [None] being a null pointer; a node's
    operations may depend on the state (an unlinked ramfile's node is zeroed).
    A pointer into a path is the suffix it points at.  [vfs_lookup], [vfs_open],
    [vfs_unlink] and [vfs_list_dir] are verified against any [NodeOps] with
    [NodeLaws]: they do what their reference definitions say on the list of the
    path's components. *)

From S2P Require Import Prelude VfsNode KFile.

(** [g_vfs_root] and the functions behind each node's [ops]. *)
Class NodeOps (σ : Type) := {
  g_vfs_root : σ → option vfs_node;
  node_type : vfs_node → σ → vfs_node_type;
  nd_lookup : vfs_node → σ → option (list Z → Z → res (option vfs_node));
  nd_list : vfs_node → σ → option (bool → Z → res (list vfs_dir_entry));
  nd_open : vfs_node → σ → option (Z → res kfile * σ);
  nd_create_open : vfs_node → σ → option (list Z → Z → Z → res kfile * σ);
  nd_unlink : vfs_node → σ → option (list Z → Z → res unit * σ)
}.

(** * Walking a path *)

(** [while ( *p == '/') p++]. *)
Fixpoint skip_slashes (p : list Z) : list Z :=
  match p with
  | [] => []
  | c :: p' => if c =? SLASH then skip_slashes p' else p
  end.

(** [while ( *p != 0 && *p != '/') p++]: how far it goes, and the rest. *)
Fixpoint span_component (p : list Z) : Z * list Z :=
  match p with
  | [] => (0, [])
  | c :: p' =>
      if (c =? NUL) || (c =? SLASH) then (0, p)
      else let '(n, q) := span_component p' in (n + 1, q)
  end.

(** [while (end > 1 && path[end - 1] == '/') end--]. *)
Fixpoint trim_slashes (path : list Z) (e : nat) : nat :=
  match e with
  | O => O
  | S e' => if (1 <? Z.of_nat e) && (cget path (Z.of_nat e') =? SLASH) then trim_slashes path e' else e
  end.

(** [while (split > 0 && path[split - 1] != '/') split--]. *)
Fixpoint find_split (path : list Z) (e : nat) : nat :=
  match e with
  | O => O
  | S e' => if negb (cget path (Z.of_nat e') =? SLASH) then find_split path e' else e
  end.

(** The parent's path, the pointer to the child's name and its length. *)
Definition vfs_split_parent_child (path : list Z) (parent_cap : Z) : res (list Z * list Z * Z) :=
  if parent_cap <? 2 then Err KERR_INVAL
  else if negb (cget path 0 =? SLASH) then Err KERR_INVAL
  else
    let path_len := length (cstr path) in
    if Z.of_nat path_len =? 0 then Err KERR_INVAL
    else
      let end_ := trim_slashes path path_len in
      if Z.of_nat end_ <=? 1 then Err KERR_INVAL
      else
        let split := find_split path end_ in
        if (end_ <=? split)%nat then Err KERR_INVAL
        else
          let child := drop split path in
          let child_len := Z.of_nat end_ - Z.of_nat split in
          if child_len =? 0 then Err KERR_INVAL
          else if Z.of_nat split =? 0 then Ok ([SLASH], child, child_len)
          else if parent_cap <=? Z.of_nat split then Err KERR_INVAL
          else Ok (take split path, child, child_len).

Section paths.
Context {σ : Type} `{!NodeOps σ}.
Implicit Types (s : σ).

Definition vfs_component_lookup (nd : vfs_node) (name : list Z) (name_len : Z) s : res (option vfs_node) :=
  match nd_lookup nd s with
  | None => Err KERR_NOTSUP
  | Some lookup => lookup name name_len
  end.

(** The loop of [vfs_lookup]; every round goes past a byte of the path, so its
    length bounds the rounds. *)
Fixpoint lookup_walk (fuel : nat) (current : vfs_node) (p : list Z) s : res vfs_node :=
  match fuel with
  | O => Err KERR_FAULT
  | S fuel' =>
      let '(name_len, q) := span_component p in
      if name_len =? 0 then Err KERR_INVAL
      else
        try! next := vfs_component_lookup current p name_len s in
        match next with
        | None => Err KERR_FAULT
        | Some nd =>
            let q := skip_slashes q in
            if cget q 0 =? NUL then Ok nd else lookup_walk fuel' nd q s
        end
  end.

Definition vfs_lookup (path : list Z) s : res vfs_node :=
  if negb (cget path 0 =? SLASH) then Err KERR_INVAL
  else
    match g_vfs_root s with
    | None => Err KERR_NOTSUP
    | Some current =>
        let p := skip_slashes (drop 1 path) in
        if cget p 0 =? NUL then Ok current else lookup_walk (length path) current p s
    end.

Definition vfs_open (path : list Z) (open_flags : Z) s : res kfile * σ :=
  match vfs_lookup path s with
  | Err rc =>
      if bool_decide (rc = KERR_NOENT) && open_flag open_flags SYSCALL_OPEN_FLAG_CREATE then
        match vfs_split_parent_child path VFS_PATH_MAX with
        | Err e => (Err e, s)
        | Ok (parent_path, child_name, child_name_len) =>
            match vfs_lookup parent_path s with
            | Err e => (Err e, s)
            | Ok parent =>
                if negb (bool_decide (node_type parent s = VFS_NODE_DIR)) then (Err KERR_NOTSUP, s)
                else
                  match nd_create_open parent s with
                  | None => (Err KERR_NOTSUP, s)
                  | Some create_open => create_open child_name child_name_len open_flags
                  end
            end
        end
      else (Err rc, s)
  | Ok nd =>
      match nd_open nd s with
      | None => (Err KERR_NOTSUP, s)
      | Some open => open open_flags
      end
  end.

Definition vfs_unlink (path : list Z) s : res unit * σ :=
  match vfs_split_parent_child path VFS_PATH_MAX with
  | Err e => (Err e, s)
  | Ok (parent_path, child_name, child_name_len) =>
      match vfs_lookup parent_path s with
      | Err e => (Err e, s)
      | Ok parent =>
          if negb (bool_decide (node_type parent s = VFS_NODE_DIR)) then (Err KERR_NOTSUP, s)
          else
            match nd_unlink parent s with
            | None => (Err KERR_NOTSUP, s)
            | Some unlink => unlink child_name child_name_len
            end
      end
  end.

Definition vfs_list_dir (path : list Z) (has_entries : bool) (entry_cap : Z) s : res (list vfs_dir_entry) :=
  if negb (entry_cap =? 0) && negb has_entries then Err KERR_INVAL
  else
    try! nd := vfs_lookup path s in
    if negb (bool_decide (node_type nd s = VFS_NODE_DIR)) then Err KERR_NOTSUP
    else
      match nd_list nd s with
      | None => Err KERR_NOTSUP
      | Some list_ => list_ has_entries entry_cap
      end.
End paths.

(** * Components *)

(** The pieces between slashes, the empty ones too. *)
Fixpoint split_slash (l : list Z) : list (list Z) :=
  match l with
  | [] => [[]]
  | c :: l' =>
      if c =? SLASH then [] :: split_slash l'
      else match split_slash l' with [] => [[c]] | w :: ws => (c :: w) :: ws end
  end.

Definition components (path : list Z) : list (list Z) := filter (λ w, w ≠ []) (split_slash (cstr path)).

(** A component: bytes that are neither NUL nor a slash. *)
Definition plain (w : list Z) : Prop := Forall (λ c, c ≠ NUL ∧ c ≠ SLASH) w.

Lemma plain_no_nul w : plain w → no_nul w.
Proof. intros Hw. eapply Forall_impl; [exact Hw|]. by intros c []. Qed.

Lemma split_slash_nonempty l : split_slash l ≠ [].
Proof. destruct l as [|c l]; simpl; [done|]. repeat case_match; done. Qed.

Lemma split_slash_app a b : split_slash (a ++ SLASH :: b) = split_slash a ++ split_slash b.
Proof.
  induction a as [|c a IH]; simpl; [done|]. rewrite IH.
  destruct (c =? SLASH); [done|]. pose proof (split_slash_nonempty a). by destruct (split_slash a).
Qed.

Lemma split_slash_plain w : plain w → split_slash w = [w].
Proof.
  intros Hw. induction Hw as [|c w [_ Hc] Hw IH]; simpl; [done|].
  by rewrite (proj2 (Z.eqb_neq c SLASH)), IH by done.
Qed.

Lemma cstr_app a b : no_nul a → cstr (a ++ b) = a ++ cstr b.
Proof.
  intros Ha. induction Ha as [|c a Hc Ha IH]; simpl; [done|].
  by rewrite (proj2 (Z.eqb_neq c NUL)), IH by done.
Qed.

Lemma components_cons_slash p : components (SLASH :: p) = components p.
Proof. unfold components. simpl. by rewrite filter_cons_False by naive_solver. Qed.

Lemma components_skip p : components (skip_slashes p) = components p.
Proof.
  induction p as [|c p IH]; simpl; [done|]. destruct (Z.eqb_spec c SLASH) as [->|]; [|done].
  by rewrite IH, components_cons_slash.
Qed.

Lemma components_nul p : cget p 0 = NUL → components p = [].
Proof. destruct p as [|c p]; [done|]. unfold cget. simpl. intros ->. done. Qed.

Lemma components_end w : plain w → w ≠ [] → components w = [w].
Proof.
  intros Hw Hne. unfold components. rewrite cstr_id, split_slash_plain by (done || by apply plain_no_nul).
  by rewrite filter_cons_True.
Qed.

Lemma components_snoc a w :
  no_nul a → plain w → w ≠ [] → components (a ++ SLASH :: w) = components (a ++ [SLASH]) ++ [w].
Proof.
  intros Ha Hw Hne. unfold components.
  pose proof (plain_no_nul w Hw) as Hwn.
  rewrite !cstr_app by done. rewrite (cstr_id (SLASH :: w)) by (by constructor). simpl.
  rewrite !split_slash_app, !filter_app, (split_slash_plain w) by done. simpl.
  rewrite filter_cons_True by done. rewrite filter_cons_False by naive_solver. by rewrite app_nil_r.
Qed.

Lemma components_trail a : no_nul a → components (a ++ [SLASH]) = components a.
Proof.
  intros Ha. unfold components. rewrite cstr_app, (cstr_id a) by done. simpl.
  rewrite split_slash_app, filter_app. simpl. rewrite filter_cons_False by naive_solver. by rewrite app_nil_r.
Qed.

(** A component and what follows it. *)
Lemma span_spec p n q :
  span_component p = (n, q) →
  ∃ w, plain w ∧ alen w = n ∧ p = w ++ q ∧ (cget q 0 = NUL ∨ cget q 0 = SLASH).
Proof.
  revert n q. induction p as [|c p IH]; intros n q Hs; simpl in Hs.
  { injection Hs as <- <-. exists []. split_and!; [constructor|done|done|by left]. }
  destruct (Z.eqb_spec c NUL) as [Hn|Hn]; simpl in Hs.
  { injection Hs as <- <-. exists []. split_and!; [constructor|done|done|by left]. }
  destruct (Z.eqb_spec c SLASH) as [Hc|Hc].
  { injection Hs as <- <-. exists []. split_and!; [constructor|done|done|by right]. }
  destruct (span_component p) as [n' q'] eqn:E. injection Hs as <- <-.
  destruct (IH _ _ eq_refl) as (w & Hw & Hl & -> & Hq). exists (c :: w).
  split_and!; [by constructor|unfold alen in *; simpl; lia|done|done].
Qed.

Lemma components_span w q :
  plain w → w ≠ [] → cget q 0 = NUL ∨ cget q 0 = SLASH → components (w ++ q) = w :: components q.
Proof.
  intros Hw Hne Hq. pose proof (plain_no_nul w Hw) as Hwn.
  unfold components. rewrite cstr_app by done.
  destruct q as [|c q]; unfold cget in Hq; simpl in Hq.
  { simpl. rewrite app_nil_r, split_slash_plain by done. by rewrite filter_cons_True. }
  destruct Hq as [->| ->]; simpl.
  - rewrite app_nil_r, split_slash_plain by done. by rewrite filter_cons_True.
  - rewrite split_slash_app, split_slash_plain by done. simpl.
    rewrite filter_cons_True by done. by rewrite filter_cons_False by naive_solver.
Qed.

(** * The parent and the child of a path *)

Lemma cstr_split b : ∃ r, b = cstr b ++ r ∧ cget r 0 = NUL.
Proof.
  induction b as [|c b IH]; simpl; [by exists []|]. destruct (Z.eqb_spec c NUL) as [->|Hc].
  - by exists (NUL :: b).
  - destruct IH as (r & Hb & Hr). exists r. simpl. by rewrite <- Hb.
Qed.

Lemma cstr_prefix path k : 0 ≤ k < alen (cstr path) → cget path k = cget (cstr path) k.
Proof.
  intros Hk. destruct (cstr_split path) as (r & Hp & _). rewrite Hp at 1. unfold cget, alen in *.
  by rewrite lookup_app_l by lia.
Qed.

Lemma trim_spec path n :
  let e := trim_slashes path n in
  (e ≤ n)%nat ∧ ((1 ≤ n)%nat → (1 ≤ e)%nat) ∧
  (∀ k, (e ≤ k < n)%nat → cget path (Z.of_nat k) = SLASH) ∧
  ((1 < e)%nat → cget path (Z.of_nat e - 1) ≠ SLASH).
Proof.
  induction n as [|n IH]; [simpl; split_and!; lia|]. cbn [trim_slashes].
  destruct (Z.ltb_spec 1 (Z.of_nat (S n))); simpl; [|split_and!; lia].
  destruct (Z.eqb_spec (cget path (Z.of_nat n)) SLASH) as [He|He].
  - destruct IH as (I1 & I2 & I3 & I4). split_and!; [lia|lia| |done].
    intros k Hk. destruct (decide (k = n)) as [->|]; [done|]. apply I3. lia.
  - split_and!; [lia|lia|lia|]. intros _. by replace (Z.of_nat (S n) - 1) with (Z.of_nat n) by lia.
Qed.

Lemma find_spec path e :
  let sp := find_split path e in
  (sp ≤ e)%nat ∧ (∀ k, (sp ≤ k < e)%nat → cget path (Z.of_nat k) ≠ SLASH) ∧
  ((0 < sp)%nat → cget path (Z.of_nat sp - 1) = SLASH).
Proof.
  induction e as [|e IH]; [simpl; split_and!; lia|]. cbn [find_split].
  destruct (Z.eqb_spec (cget path (Z.of_nat e)) SLASH) as [He|He]; simpl.
  - split_and!; [lia|lia|]. intros _. by replace (Z.of_nat (S e) - 1) with (Z.of_nat e) by lia.
  - destruct IH as (I1 & I2 & I3). split_and!; [lia| |done].
    intros k Hk. destruct (decide (k = e)) as [->|]; [done|]. apply I2. lia.
Qed.

(** Where the name of the last component begins. *)
Definition parent_len (path : list Z) : nat :=
  find_split path (trim_slashes path (length (cstr path))).

Lemma no_nul_app a b : no_nul (a ++ b) ↔ no_nul a ∧ no_nul b.
Proof. apply Forall_app. Qed.

Lemma components_slashes a l :
  no_nul a → Forall (λ c, c = SLASH) l → components (a ++ l) = components a.
Proof.
  intros Ha Hl. revert a Ha. induction Hl as [|c l -> Hl IH]; intros a Ha; [by rewrite app_nil_r|].
  replace (a ++ SLASH :: l) with ((a ++ [SLASH]) ++ l) by (by rewrite <- app_assoc).
  rewrite IH; [by apply components_trail|]. apply no_nul_app. split; [done|by constructor].
Qed.

Lemma components_cstr path : components (cstr path) = components path.
Proof. unfold components. by rewrite (cstr_id (cstr path)) by apply cstr_no_nul. Qed.

(** The string cut at the end of its last component, and at its beginning. *)
Lemma path_cut path :
  cget path 0 = SLASH →
  let s := cstr path in
  let e := trim_slashes path (length s) in
  let sp := parent_len path in
  (1 ≤ e ≤ length s)%nat ∧ components path = components (take e s) ∧
  ((e ≤ 1)%nat → components path = []) ∧
  ((1 < e)%nat → (0 < sp < e)%nat ∧
     ∃ a w, take sp s = a ++ [SLASH] ∧ take e s = a ++ SLASH :: w ∧ plain w ∧ length w = (e - sp)%nat).
Proof.
  intros H0 s e sp. assert (Hs : no_nul s) by apply cstr_no_nul.
  assert (Hlen : (1 ≤ length s)%nat).
  { unfold s. destruct path as [|c path]; [done|]. unfold cget in H0. simpl in H0. subst c. simpl. lia. }
  destruct (trim_spec path (length s)) as (T1 & T2 & T3 & T4). fold e in T1, T2, T3, T4.
  assert (Hp : ∀ k, (k < length s)%nat → s !! k = Some (cget path (Z.of_nat k))).
  { intros k Hk. rewrite cstr_prefix by (unfold alen; fold s; lia). fold s.
    pose proof (cget_lt s (Z.of_nat k) ltac:(unfold alen; lia)) as Hg. by rewrite Nat2Z.id in Hg. }
  assert (Hcut : components path = components (take e s)).
  { rewrite <- components_cstr. fold s. rewrite <- (take_drop e s) at 1. apply components_slashes.
    - by apply Forall_take.
    - apply Forall_lookup. intros k c Hk. rewrite lookup_drop in Hk.
      assert (e + k < length s)%nat by (apply lookup_lt_is_Some; eauto).
      rewrite Hp in Hk by done. injection Hk as <-. apply T3. lia. }
  split; [split; auto|]. split; [done|]. split.
  { intros He. assert (e = 1%nat) as E by (specialize (T2 Hlen); lia). rewrite Hcut, E.
    destruct s as [|c s'] eqn:Es; [simpl in Hlen; lia|]. pose proof (Hp 0%nat ltac:(simpl; lia)) as Hc.
    cbn in Hc. injection Hc as Hc. rewrite Hc.
    change (cget path (Z.of_nat 0)) with (cget path 0). rewrite H0. done. }
  intros He. destruct (find_spec path e) as (F1 & F2 & F3).
  change (find_split path e) with sp in F1, F2, F3.
  assert (Hsp : (0 < sp < e)%nat).
  { split.
    - destruct (decide (sp = 0%nat)) as [E|]; [|lia]. exfalso. apply (F2 0%nat); [lia|done].
    - destruct (decide (sp = e)) as [E|]; [|lia]. exfalso. apply T4; [done|].
      rewrite <- E. apply F3. lia. }
  split; [done|]. exists (take (sp - 1) s), (drop sp (take e s)).
  assert (Htsp : take sp s = take (sp - 1) s ++ [SLASH]).
  { replace sp with (S (sp - 1)) at 1 by lia. apply take_S_r. rewrite Hp by lia.
    replace (Z.of_nat (sp - 1)) with (Z.of_nat sp - 1) by lia. by rewrite F3 by lia. }
  split; [done|]. split_and!.
  - replace (take (sp - 1) s ++ SLASH :: drop sp (take e s))
      with ((take (sp - 1) s ++ [SLASH]) ++ drop sp (take e s)) by (by rewrite <- app_assoc).
    rewrite <- Htsp. rewrite <- (take_drop sp (take e s)) at 1. rewrite take_take. by rewrite Nat.min_l by lia.
  - apply Forall_lookup. intros k c Hk. rewrite lookup_drop in Hk.
    assert (sp + k < e)%nat.
    { assert (sp + k < length (take e s))%nat by (apply lookup_lt_is_Some; eauto).
      rewrite length_take in *. lia. }
    rewrite lookup_take_lt in Hk by done. split.
    + by apply (Forall_lookup_1 _ _ _ _ Hs Hk).
    + rewrite Hp in Hk by lia. injection Hk as <-. apply F2. lia.
  - rewrite length_drop, length_take. lia.
Qed.

Lemma split_cases path :
  cget path 0 = SLASH →
  (components path = [] ∧ ∀ cap, 2 ≤ cap → vfs_split_parent_child path cap = Err KERR_INVAL) ∨
  ∃ w, let sp := parent_len path in
    plain w ∧ w ≠ [] ∧ components path = components (take sp path) ++ [w] ∧
    cget (take sp path) 0 = SLASH ∧ alen w ≤ alen (drop sp path) ∧ take (length w) (drop sp path) = w ∧
    ∀ cap, 2 ≤ cap → vfs_split_parent_child path cap =
      if cap <=? Z.of_nat sp then Err KERR_INVAL else Ok (take sp path, drop sp path, alen w).
Proof.
  intros H0. destruct (path_cut path H0) as ([E1 E2] & Hcut & Hnil & Hcons).
  set (s := cstr path) in *. set (e := trim_slashes path (length s)) in *.
  assert (Hsplit : ∀ cap, 2 ≤ cap → vfs_split_parent_child path cap =
    if Z.of_nat e <=? 1 then Err KERR_INVAL
    else let split := parent_len path in
      if (e <=? split)%nat then Err KERR_INVAL
      else if Z.of_nat e - Z.of_nat split =? 0 then Err KERR_INVAL
      else if Z.of_nat split =? 0 then Ok ([SLASH], drop split path, Z.of_nat e - Z.of_nat split)
      else if cap <=? Z.of_nat split then Err KERR_INVAL
      else Ok (take split path, drop split path, Z.of_nat e - Z.of_nat split)).
  { intros cap Hcap. unfold vfs_split_parent_child. rewrite (proj2 (Z.ltb_ge cap 2)) by lia.
    rewrite H0. cbn [negb Z.eqb]. fold s. rewrite (proj2 (Z.eqb_neq (Z.of_nat (length s)) 0)) by lia. done. }
  destruct (decide (e ≤ 1)%nat) as [He|He].
  - left. split; [by apply Hnil|]. intros cap Hcap. rewrite Hsplit by done.
    by rewrite (proj2 (Z.leb_le _ _)) by lia.
  - right. destruct (Hcons ltac:(lia)) as [Hsp (a & w & Ha & Haw & Hw & Hlw)].
    set (sp := parent_len path) in *.
    destruct (cstr_split path) as (r & Hp & _). fold s in Hp.
    assert (Htp : ∀ n, (n ≤ length s)%nat → take n path = take n s).
    { intros n Hn. rewrite Hp. by rewrite take_app_le. }
    assert (Has : no_nul a).
    { assert (Hn : no_nul (take sp s)) by (apply Forall_take, cstr_no_nul).
      rewrite Ha in Hn. by apply no_nul_app in Hn as [? _]. }
    assert (Hwe : w ≠ []) by (intros ->; simpl in Hlw; lia).
    exists w. cbv zeta. split; [done|]. split; [done|]. split_and!.
    + rewrite Hcut, Haw, Htp, Ha by lia. by apply components_snoc.
    + unfold cget in *. rewrite lookup_take_lt by lia. done.
    + unfold alen. rewrite length_drop, Hlw. rewrite Hp, length_app. lia.
    + rewrite Hlw. rewrite take_drop_commute.
      replace (sp + (e - sp))%nat with e by lia. rewrite Htp, Haw by lia.
      assert (Hla : sp = length (a ++ [SLASH])).
      { rewrite <- Ha, length_take. lia. }
      rewrite Hla. replace (a ++ SLASH :: w) with ((a ++ [SLASH]) ++ w) by (by rewrite <- app_assoc).
      apply drop_app_length.
    + intros cap Hcap. rewrite Hsplit by done.
      rewrite (proj2 (Z.leb_gt _ _)) by lia. cbv zeta. fold sp.
      rewrite (proj2 (Nat.leb_gt _ _)) by lia. rewrite !(proj2 (Z.eqb_neq _ _)) by lia.
      destruct (cap <=? Z.of_nat sp); [done|]. unfold alen. rewrite Hlw. do 2 f_equal. lia.
Qed.

(** * Reference definitions over components *)

(** What the walk relies on: a directory compares the [len] bytes it is given
    and looks at nothing behind them. *)
Class NodeLaws (σ : Type) `{!NodeOps σ} := {
  lookup_prefix nd s f name len :
    nd_lookup nd s = Some f → 0 < len ≤ alen name → f name len = f (take (Z.to_nat len) name) len;
  create_prefix nd s f name len fl :
    nd_create_open nd s = Some f → 0 < len ≤ alen name →
    f name len fl = f (take (Z.to_nat len) name) len fl;
  unlink_prefix nd s f name len :
    nd_unlink nd s = Some f → 0 < len ≤ alen name → f name len = f (take (Z.to_nat len) name) len
}.

Section reference.
Context {σ : Type} `{!NodeOps σ}.
Implicit Types (s : σ).

(** From [nd] down the names [ws]. *)
Fixpoint resolve (nd : vfs_node) (ws : list (list Z)) s : res vfs_node :=
  match ws with
  | [] => Ok nd
  | w :: ws' =>
      try! next := vfs_component_lookup nd w (alen w) s in
      match next with
      | None => Err KERR_FAULT
      | Some nd' => resolve nd' ws' s
      end
  end.

Definition lookup_ref (path : list Z) s : res vfs_node :=
  if negb (cget path 0 =? SLASH) then Err KERR_INVAL
  else match g_vfs_root s with None => Err KERR_NOTSUP | Some root => resolve root (components path) s end.

(** The directory above the last component, and that component. *)
Definition parent_ref (path : list Z) s : res (vfs_node * list Z) :=
  match g_vfs_root s, reverse (components path) with
  | Some root, w :: ps =>
      if VFS_PATH_MAX <=? Z.of_nat (parent_len path) then Err KERR_INVAL
      else
        try! parent := resolve root (reverse ps) s in
        if negb (bool_decide (node_type parent s = VFS_NODE_DIR)) then Err KERR_NOTSUP else Ok (parent, w)
  | _, [] => Err KERR_INVAL
  | None, _ => if VFS_PATH_MAX <=? Z.of_nat (parent_len path) then Err KERR_INVAL else Err KERR_NOTSUP
  end.

Definition open_ref (path : list Z) (fl : Z) s : res kfile * σ :=
  match lookup_ref path s with
  | Ok nd => match nd_open nd s with None => (Err KERR_NOTSUP, s) | Some f => f fl end
  | Err e =>
      if bool_decide (e = KERR_NOENT) && open_flag fl SYSCALL_OPEN_FLAG_CREATE then
        match parent_ref path s with
        | Err e => (Err e, s)
        | Ok (parent, w) =>
            match nd_create_open parent s with None => (Err KERR_NOTSUP, s) | Some f => f w (alen w) fl end
        end
      else (Err e, s)
  end.

Definition unlink_ref (path : list Z) s : res unit * σ :=
  if negb (cget path 0 =? SLASH) then (Err KERR_INVAL, s)
  else
    match parent_ref path s with
    | Err e => (Err e, s)
    | Ok (parent, w) =>
        match nd_unlink parent s with None => (Err KERR_NOTSUP, s) | Some f => f w (alen w) end
    end.
End reference.

Section walking.
Context {σ : Type} `{!NodeOps σ, !NodeLaws σ}.
Implicit Types (s : σ).

Lemma component_prefix nd w q s :
  plain w → w ≠ [] → vfs_component_lookup nd (w ++ q) (alen w) s = vfs_component_lookup nd w (alen w) s.
Proof.
  intros Hw Hne. unfold vfs_component_lookup. destruct (nd_lookup nd s) as [f|] eqn:E; [|done].
  assert (0 < alen w) by (unfold alen; destruct w; [done|simpl; lia]).
  rewrite (lookup_prefix nd s f (w ++ q) (alen w) E); [|rewrite length_app_alen || unfold alen in *; rewrite ?length_app; lia].
  f_equal. unfold alen. by rewrite Nat2Z.id, take_app_length.
Qed.

Lemma skip_head p : cget (skip_slashes p) 0 ≠ SLASH.
Proof.
  induction p as [|c p IH]; simpl; [by intros [=]|].
  destruct (Z.eqb_spec c SLASH); [done|]. unfold cget. done.
Qed.

Lemma skip_length p : (length (skip_slashes p) ≤ length p)%nat.
Proof. induction p as [|c p IH]; simpl; [done|]. case_match; simpl; lia. Qed.

Lemma walk_resolve fuel nd p s :
  (length p ≤ fuel)%nat → cget p 0 ≠ NUL → cget p 0 ≠ SLASH →
  lookup_walk fuel nd p s = resolve nd (components p) s.
Proof.
  revert nd p. induction fuel as [|fuel IH]; intros nd p Hl Hn Hs.
  { destruct p; [done|simpl in Hl; lia]. }
  cbn [lookup_walk]. destruct (span_component p) as [n q] eqn:E.
  destruct (span_spec p n q E) as (w & Hw & <- & -> & Hq).
  assert (Hne : w ≠ []) by (intros ->; by destruct Hq).
  rewrite (proj2 (Z.eqb_neq (alen w) 0)) by (unfold alen; destruct w; [done|simpl; lia]).
  rewrite components_span, component_prefix by done. cbn [resolve].
  destruct (vfs_component_lookup nd w (alen w) s) as [[nd'|]|e]; [|done|done].
  rewrite <- (components_skip q). destruct (Z.eqb_spec (cget (skip_slashes q) 0) NUL) as [Hz|Hz].
  - by rewrite components_nul.
  - apply IH; [|done|apply skip_head]. pose proof (skip_length q). rewrite length_app in Hl.
    destruct w; [done|simpl in Hl; lia].
Qed.

Lemma lookup_cases path s : vfs_lookup path s = lookup_ref path s.
Proof.
  unfold vfs_lookup, lookup_ref. destruct (Z.eqb_spec (cget path 0) SLASH) as [H0|]; [|done]. simpl.
  destruct (g_vfs_root s) as [root|]; [|done].
  destruct path as [|c path]; [done|]. unfold cget in H0. simpl in H0. subst c. simpl.
  rewrite components_cons_slash, <- (components_skip path), drop_0.
  destruct (Z.eqb_spec (cget (skip_slashes path) 0) NUL); [by rewrite components_nul|].
  apply (walk_resolve (S (length path))); [pose proof (skip_length path); lia|done|apply skip_head].
Qed.

(** The split and the lookup of the parent together. *)
Lemma parent_cases {R} path s (k : vfs_node → list Z → Z → R) (err : kerr → R) :
  cget path 0 = SLASH →
  (∀ nd name len, 0 < len ≤ alen name → k nd name len = k nd (take (Z.to_nat len) name) len) →
  match vfs_split_parent_child path VFS_PATH_MAX with
  | Err e => err e
  | Ok (parent_path, name, len) =>
      match vfs_lookup parent_path s with
      | Err e => err e
      | Ok parent =>
          if negb (bool_decide (node_type parent s = VFS_NODE_DIR)) then err KERR_NOTSUP else k parent name len
      end
  end =
  match parent_ref path s with
  | Err e => err e
  | Ok (parent, w) => k parent w (alen w)
  end.
Proof.
  intros H0 Hk. unfold parent_ref.
  destruct (split_cases path H0) as [[Hc Hs]|(w & Hw & Hne & Hc & Hp & Hl & Ht & Hs)].
  - rewrite Hs, Hc by done. by destruct (g_vfs_root s).
  - rewrite Hs, Hc by done. rewrite reverse_snoc. destruct (g_vfs_root s) as [root|] eqn:Er.
    + destruct (_ <=? _); [done|]. rewrite lookup_cases. unfold lookup_ref. rewrite Hp, Er. simpl.
      rewrite reverse_involutive. destruct (resolve root _ s) as [parent|e]; [|done].
      destruct (negb _); [done|].
      assert (0 < alen w) by (unfold alen; destruct w; [done|simpl; lia]).
      rewrite Hk by lia. unfold alen. by rewrite Nat2Z.id, Ht.
    + destruct (_ <=? _); [done|]. rewrite lookup_cases. unfold lookup_ref. by rewrite Hp, Er.
Qed.
End walking.

Section outcomes.
Context {σ : Type} `{!NodeOps σ, !NodeLaws σ}.
Implicit Types (s : σ).

Lemma open_cases path fl s : vfs_open path fl s = open_ref path fl s.
Proof.
  unfold vfs_open, open_ref. rewrite lookup_cases.
  destruct (lookup_ref path s) as [nd|e] eqn:El; [done|].
  destruct (bool_decide (e = KERR_NOENT)) eqn:Ee; simpl; [|done].
  apply bool_decide_eq_true in Ee as ->. destruct (open_flag fl SYSCALL_OPEN_FLAG_CREATE); [|done].
  assert (H0 : cget path 0 = SLASH).
  { unfold lookup_ref in El. by destruct (Z.eqb_spec (cget path 0) SLASH). }
  pose proof (parent_cases path s (λ nd name len,
    match nd_create_open nd s with None => ((Err KERR_NOTSUP : res kfile), s) | Some f => f name len fl end)
    (λ e, (Err e, s)) H0) as H.
  apply H. intros nd name len Hl. destruct (nd_create_open nd s) eqn:E; [|done]. by eapply create_prefix.
Qed.

Lemma unlink_cases path s : vfs_unlink path s = unlink_ref path s.
Proof.
  unfold vfs_unlink, unlink_ref. destruct (Z.eqb_spec (cget path 0) SLASH) as [H0|H0]; simpl.
  - pose proof (parent_cases path s (λ nd name len,
      match nd_unlink nd s with None => ((Err KERR_NOTSUP : res unit), s) | Some f => f name len end)
      (λ e, (Err e, s)) H0) as H.
    apply H. intros nd name len Hl. destruct (nd_unlink nd s) eqn:E; [|done]. by eapply unlink_prefix.
  - unfold vfs_split_parent_child. simpl. by rewrite (proj2 (Z.eqb_neq (cget path 0) SLASH)).
Qed.
End outcomes.

(** * Properties *)

(** Looking a path up is descending from the root by its components, the
    pieces between its slashes: repeated and trailing slashes do not matter,
    the walk always ends, and its error is that of the first component that
    fails; a path that is not absolute is refused. *)
Theorem vfs_lookup_spec {σ} `{!NodeOps σ, !NodeLaws σ} path (s : σ) :
  vfs_lookup path s =
  (if negb (cget path 0 =? SLASH) then Err KERR_INVAL
   else match g_vfs_root s with None => Err KERR_NOTSUP | Some root => resolve root (components path) s end).
Proof. exact (lookup_cases path s). Qed.

(** C35: Opening opens the node the path resolves to; when there is none
    ([KERR_NOENT]) and the flags ask for it, the last component is created in
    the directory the others resolve to, under exactly that name. *)
Theorem vfs_open_spec {σ} `{!NodeOps σ, !NodeLaws σ} path fl (s : σ) :
  vfs_open path fl s = open_ref path fl s.
Proof. exact (open_cases path fl s). Qed.

(** Unlinking removes the last component from the directory the others
    resolve to; the root, a relative path and a parent that is not a directory
    are errors that change nothing. *)
Theorem vfs_unlink_spec {σ} `{!NodeOps σ, !NodeLaws σ} path (s : σ) :
  vfs_unlink path s = unlink_ref path s.
Proof. exact (unlink_cases path s). Qed.

(** A tree of the two static directories, whose state is the root's table; the
    console and the null device open as files without operations. *)
#[export] Instance static_nodes : NodeOps vfs_static_dir := {
  g_vfs_root _ := Some g_vfs_root_node;
  node_type nd _ := match nd with g_vfs_root_node | g_vfs_dev_node => VFS_NODE_DIR | _ => VFS_NODE_CHARDEV end;
  nd_lookup nd s :=
    match nd with
    | g_vfs_root_node => Some (λ name len, try! n := vfs_static_dir_lookup s name len in Ok (Some n))
    | g_vfs_dev_node => Some (λ name len, try! n := vfs_static_dir_lookup g_vfs_dev_entries name len in Ok (Some n))
    | _ => None
    end;
  nd_list _ _ := None;
  nd_open nd s :=
    match nd with
    | g_vfs_null_node => Some (λ fl, (Ok (kfile_init (Some nd) (Some g_vfs_devnull_file_ops) 0 fl), s))
    | _ => None
    end;
  nd_create_open _ _ := None;
  nd_unlink _ _ := None
}.

(** Only the given bytes of a name are compared. *)
Lemma name_eq_prefix lit name len :
  0 ≤ len ≤ alen name → name_eq lit name len = name_eq lit (take (Z.to_nat len) name) len.
Proof.
  intros Hl. unfold name_eq.
  assert (H : ∀ is_, Forall (λ i, 0 ≤ i < len) is_ →
    name_eq_loop lit name len is_ = name_eq_loop lit (take (Z.to_nat len) name) len is_).
  { induction is_ as [|i is_ IH]; intros HF; simpl; [done|]. apply Forall_cons in HF as [Hi HF].
    rewrite IH by done. unfold cget at 3 6. by rewrite lookup_take_lt by lia. }
  apply H, Forall_forall. intros i Hi%elem_of_seqZ. lia.
Qed.

Lemma static_lookup_prefix table name len :
  0 ≤ len ≤ alen name →
  vfs_static_dir_lookup table name len = vfs_static_dir_lookup table (take (Z.to_nat len) name) len.
Proof.
  intros Hl. unfold vfs_static_dir_lookup. destruct (len =? 0); [done|].
  assert (H : list_find (λ e : list Z * vfs_node, vfs_name_eq (fst e) name len) table =
              list_find (λ e : list Z * vfs_node, vfs_name_eq (fst e) (take (Z.to_nat len) name) len) table).
  { induction table as [|e table IH]; simpl; [done|]. rewrite IH. unfold vfs_name_eq.
    pose proof (name_eq_prefix (fst e) name len Hl) as He.
    repeat case_decide; simpl; try done; by rewrite He in *. }
  by rewrite H.
Qed.

#[export] Instance static_laws : NodeLaws vfs_static_dir.
Proof.
  split; [|done|done]. intros nd s f name len Hf Hl. simpl in Hf.
  destruct nd; simplify_eq; by rewrite (static_lookup_prefix _ name) by lia.
Qed.

(** ["/dev//null/"], ["/dev/x"]. *)
Definition demo_path : list Z := [47; 100; 101; 118; 47; 47; 110; 117; 108; 108; 47].
Definition demo_missing : list Z := [47; 100; 101; 118; 47; 120].

Lemma vfs_lookup_spec_witness :
  vfs_lookup demo_path [(name_dev, g_vfs_dev_node)] = Ok g_vfs_null_node ∧
  components demo_path = [name_dev; name_null].
Proof. split; [rewrite (vfs_lookup_spec demo_path); reflexivity|reflexivity]. Defined.

Lemma vfs_open_spec_witness :
  fst (vfs_open demo_missing SYSCALL_OPEN_FLAG_CREATE [(name_dev, g_vfs_dev_node)]) = Err KERR_NOTSUP ∧
  is_ok (fst (vfs_open demo_path 0 [(name_dev, g_vfs_dev_node)])) = true.
Proof. rewrite (vfs_open_spec demo_missing), (vfs_open_spec demo_path). split; reflexivity. Defined.

Lemma vfs_unlink_spec_witness :
  fst (vfs_unlink demo_missing [(name_dev, g_vfs_dev_node)]) = Err KERR_NOTSUP ∧
  fst (vfs_unlink [47; 47] [(name_dev, g_vfs_dev_node)]) = Err KERR_INVAL.
Proof. rewrite (vfs_unlink_spec demo_missing), (vfs_unlink_spec [47; 47]). split; reflexivity. Defined.
