(* ===== verification/VfsRam.v ===== *)
(** kernel/vfs.c: the root directory and its ramfiles, and the null device.

    A [vfs_root_ram_file] is a slot of a table of 16; its node is
    [vfs_ramfile_node i], whose fields are zero while the slot is not in use.
    The address of slot [i], the [backend_private] of an open ramfile, is
    written [i + 1].  The name buffer, zeroed before a name is copied into it,
    is the name itself. *)

From S2P Require Import Prelude Bytes VfsNode KFile BlockCache PersistFs PersistLayout Vfs.

Record vfs_root_ram_file := RamFile {
  ram_name : list Z;
  ram_data : list Z;
  ram_size : Z;
  ram_in_use : bool
}.

Definition ram_zero : vfs_root_ram_file := RamFile [] (replicate 4096 0) 0 false.

#[export] Instance ram_file_inhabited : Inhabited vfs_root_ram_file := populate ram_zero.

(** [g_vfs_root_entries] up to [g_vfs_root_dir.count], and the table. *)
Record ramfs := RamFs {
  root_entries : vfs_static_dir;
  g_vfs_root_ramfiles : list vfs_root_ram_file
}.

Definition ram_init : ramfs := RamFs [(name_dev, g_vfs_dev_node)] (replicate 16 ram_zero).

Implicit Types (r : ramfs).

Definition ram_of r (i : Z) : vfs_root_ram_file := (g_vfs_root_ramfiles r).[i].

Definition set_ram (i : Z) (f : vfs_root_ram_file) r : ramfs :=
  RamFs (root_entries r) (g_vfs_root_ramfiles r).[i <- f].

(** The slot an address stands for. *)
Definition ram_addr (i : Z) : Z := i + 1.
Definition ram_slot (p : Z) : Z := p - 1.

(** * The null device *)

Definition vfs_devnull_read (f : kfile) (has_buf : bool) (len : Z) r : res (list Z) * kfile * ramfs :=
  (Ok [], f, r).

Definition vfs_devnull_write (f : kfile) (buf : option (list Z)) (len : Z) r : res unit * Z * kfile * ramfs :=
  (Ok tt, len, f, r).

Definition vfs_null_open (nd : vfs_node) (open_flags : Z) : res kfile :=
  Ok (kfile_init (Some nd) (Some g_vfs_devnull_file_ops) 0 open_flags).

Definition vfs_console_open (nd : vfs_node) (open_flags : Z) : res kfile :=
  Ok (kfile_init (Some nd) (Some g_vfs_console_file_ops) 0 open_flags).

(** * Ramfiles *)

(** The node of slot [i] holds its own slot, or null while it is zeroed. *)
Definition vfs_root_ramfile_open (i : Z) (open_flags : Z) r : res kfile * ramfs :=
  if negb (ram_in_use (ram_of r i)) then (Err KERR_NOENT, r)
  else
    let opened r :=
      let f := kfile_init (Some (vfs_ramfile_node i)) (Some g_vfs_root_ramfile_file_ops) (ram_addr i) open_flags in
      (Ok (if open_flag open_flags SYSCALL_OPEN_FLAG_APPEND then set_offset f (ram_size (ram_of r i)) else f), r) in
    if open_flag open_flags SYSCALL_OPEN_FLAG_TRUNC then
      if negb (open_flag open_flags SYSCALL_OPEN_FLAG_WRITE) then (Err KERR_INVAL, r)
      else
        let ram := ram_of r i in
        opened (set_ram i (RamFile (ram_name ram) (ram_data ram) 0 (ram_in_use ram)) r)
    else opened r.

Definition vfs_root_ramfile_read (f : kfile) (has_buf : bool) (len : Z) r : res (list Z) * kfile * ramfs :=
  if negb (len =? 0) && negb has_buf then (Err KERR_INVAL, f, r)
  else
    let ram := ram_of r (ram_slot (f_private f)) in
    if (f_private f =? 0) || negb (ram_in_use ram) then (Err KERR_NOENT, f, r)
    else if (len =? 0) || (ram_size ram <=? f_offset f) then (Ok [], f, r)
    else
      let remaining := sub32 (ram_size ram) (f_offset f) in
      let n := if len <? remaining then len else remaining in
      (Ok (slice (ram_data ram) (f_offset f) n), set_offset f (add32 (f_offset f) n), r).

(** The result code, [*out_written], the file and the state. *)
Definition vfs_root_ramfile_write (f : kfile) (buf : option (list Z)) (len : Z) r
    : res unit * Z * kfile * ramfs :=
  if negb (len =? 0) && negb (bool_decide (is_Some buf)) then (Err KERR_INVAL, 0, f, r)
  else if negb (open_flag (f_flags f) SYSCALL_OPEN_FLAG_WRITE) then (Err KERR_NOTSUP, 0, f, r)
  else
    let i := ram_slot (f_private f) in
    let ram := ram_of r i in
    if (f_private f =? 0) || negb (ram_in_use ram) then (Err KERR_NOENT, 0, f, r)
    else
      let f := if open_flag (f_flags f) SYSCALL_OPEN_FLAG_APPEND then set_offset f (ram_size ram) else f in
      if VFS_ROOT_RAMFILE_CAPACITY <=? f_offset f then (Err KERR_NOMEM, 0, f, r)
      else
        let start := f_offset f in
        let room := sub32 VFS_ROOT_RAMFILE_CAPACITY start in
        let n := if len <? room then len else room in
        let '(f, r) :=
          if negb (n =? 0) then
            let f := set_offset f (add32 start n) in
            (f, set_ram i (RamFile (ram_name ram)
                  (overlay (ram_data ram) start (take (Z.to_nat n) (default [] buf)))
                  (if ram_size ram <? f_offset f then f_offset f else ram_size ram) (ram_in_use ram)) r)
          else (f, r) in
        (if n <? len then Err KERR_NOMEM else Ok tt, n, f, r).

(** The search loop: the slot of that name if one is reached, and the first
    free slot passed before it ([VFS_ROOT_RAMFILE_MAX] for none). *)
Fixpoint ram_search (name : list Z) (name_len : Z) (is_ : list Z) (free_idx : Z) r : option Z * Z :=
  match is_ with
  | [] => (None, free_idx)
  | i :: is_' =>
      let candidate := ram_of r i in
      if ram_in_use candidate && vfs_name_eq (ram_name candidate) name name_len then (Some i, free_idx)
      else
        ram_search name name_len is_'
          (if negb (ram_in_use candidate) && (free_idx =? VFS_ROOT_RAMFILE_MAX) then i else free_idx) r
  end.

Definition vfs_root_create_or_open_ramfile (name : list Z) (name_len open_flags : Z) r : res kfile * ramfs :=
  if (name_len =? 0) || (VFS_DIR_ENTRY_NAME_MAX <=? name_len) then (Err KERR_INVAL, r)
  else
    match ram_search name name_len (seqZ 0 VFS_ROOT_RAMFILE_MAX) VFS_ROOT_RAMFILE_MAX r with
    | (Some i, _) => vfs_root_ramfile_open i open_flags r
    | (None, free_idx) =>
        if negb (open_flag open_flags SYSCALL_OPEN_FLAG_CREATE) then (Err KERR_NOENT, r)
        else if (VFS_ROOT_RAMFILE_MAX <=? free_idx) ||
                (VFS_BOOTSTRAP_ROOT_MAX_CHILDREN <=? alen (root_entries r)) then (Err KERR_NOMEM, r)
        else
          let nm := take (Z.to_nat name_len) name in
          let r := set_ram free_idx (RamFile nm (replicate 4096 0) 0 true) r in
          let r := RamFs (root_entries r ++ [(nm, vfs_ramfile_node free_idx)]) (g_vfs_root_ramfiles r) in
          vfs_root_ramfile_open free_idx open_flags r
    end.

Definition vfs_root_create_open (dir : vfs_node) (name : list Z) (name_len open_flags : Z) r
    : res kfile * ramfs :=
  if negb (bool_decide (dir = g_vfs_root_node)) then (Err KERR_INVAL, r)
  else vfs_root_create_or_open_ramfile name name_len open_flags r.

Definition vfs_root_unlink (dir : vfs_node) (name : list Z) (name_len : Z) r : res unit * ramfs :=
  if negb (bool_decide (dir = g_vfs_root_node)) || (name_len =? 0) then (Err KERR_INVAL, r)
  else
    match search_range 0 VFS_ROOT_RAMFILE_MAX (λ i,
            if ram_in_use (ram_of r i) && vfs_name_eq (ram_name (ram_of r i)) name name_len
            then Some i else None) with
    | None => (Err KERR_NOENT, r)
    | Some i =>
        match list_find (λ e : list Z * vfs_node, snd e = vfs_ramfile_node i) (root_entries r) with
        | None => (Err KERR_FAULT, r)
        | Some (k, _) =>
            (** the entries after [k] move down one place *)
            (Ok tt, set_ram i ram_zero (RamFs (delete k (root_entries r)) (g_vfs_root_ramfiles r)))
        end
    end.

(** * The invariant *)

(** The ramfiles in the root directory: slot and name. *)
Definition ram_node_of (e : list Z * vfs_node) : option (Z * list Z) :=
  match snd e with vfs_ramfile_node i => Some (i, fst e) | _ => None end.

Definition ram_nodes (t : vfs_static_dir) : list (Z * list Z) := omap ram_node_of t.

Record ram_wf r : Prop := {
  rw_len : alen (g_vfs_root_ramfiles r) = VFS_ROOT_RAMFILE_MAX;
  rw_count : alen (root_entries r) ≤ VFS_BOOTSTRAP_ROOT_MAX_CHILDREN;
  rw_file i : 0 ≤ i < VFS_ROOT_RAMFILE_MAX →
    alen (ram_data (ram_of r i)) = VFS_ROOT_RAMFILE_CAPACITY ∧
    0 ≤ ram_size (ram_of r i) ≤ VFS_ROOT_RAMFILE_CAPACITY;
  rw_nodup : NoDup (fst <$> ram_nodes (root_entries r));
  rw_node i nm : (i, nm) ∈ ram_nodes (root_entries r) ↔
    0 ≤ i < VFS_ROOT_RAMFILE_MAX ∧ ram_in_use (ram_of r i) = true ∧ nm = ram_name (ram_of r i);
  rw_name i : 0 ≤ i < VFS_ROOT_RAMFILE_MAX → ram_in_use (ram_of r i) = true →
    plain (ram_name (ram_of r i)) ∧ 0 < alen (ram_name (ram_of r i)) < VFS_DIR_ENTRY_NAME_MAX;
  rw_distinct i j : 0 ≤ i < VFS_ROOT_RAMFILE_MAX → 0 ≤ j < VFS_ROOT_RAMFILE_MAX →
    ram_in_use (ram_of r i) = true → ram_in_use (ram_of r j) = true →
    ram_name (ram_of r i) = ram_name (ram_of r j) → i = j
}.

Lemma ram_of_set i j f r :
  alen (g_vfs_root_ramfiles r) = VFS_ROOT_RAMFILE_MAX → 0 ≤ i < VFS_ROOT_RAMFILE_MAX → 0 ≤ j →
  ram_of (set_ram i f r) j = if decide (i = j) then f else ram_of r j.
Proof. intros Hl Hi Hj. unfold ram_of, set_ram. simpl. apply aget_aset; lia. Qed.

(** Changing the contents of a file. *)
Lemma set_contents_wf i f r :
  ram_wf r → 0 ≤ i < VFS_ROOT_RAMFILE_MAX → ram_name f = ram_name (ram_of r i) →
  ram_in_use f = ram_in_use (ram_of r i) → alen (ram_data f) = VFS_ROOT_RAMFILE_CAPACITY →
  0 ≤ ram_size f ≤ VFS_ROOT_RAMFILE_CAPACITY → ram_wf (set_ram i f r).
Proof.
  intros Hwf Hi Hn Hu Hd Hs. pose proof (rw_len r Hwf) as Hl.
  assert (H : ∀ j, 0 ≤ j → ram_name (ram_of (set_ram i f r) j) = ram_name (ram_of r j) ∧
                   ram_in_use (ram_of (set_ram i f r) j) = ram_in_use (ram_of r j)).
  { intros j Hj. rewrite ram_of_set by done. case_decide; by subst. }
  split.
  - unfold set_ram. simpl. by arr.
  - apply (rw_count r Hwf).
  - intros j Hj. rewrite ram_of_set by (done || lia). case_decide; [done|by apply (rw_file r Hwf)].
  - apply (rw_nodup r Hwf).
  - intros j nm. change (root_entries (set_ram i f r)) with (root_entries r). rewrite (rw_node r Hwf).
    split; intros (Hj & ?); (split; [done|]); destruct (H j ltac:(lia)) as [H1 H2]; congruence.
  - intros j Hj. destruct (H j ltac:(lia)) as [-> ->]. by apply (rw_name r Hwf).
  - intros j k Hj Hk. destruct (H j ltac:(lia)) as [-> ->]. destruct (H k ltac:(lia)) as [-> ->].
    by apply (rw_distinct r Hwf).
Qed.

Lemma ram_search_Some name len is_ fr r i x :
  ram_search name len is_ fr r = (Some i, x) →
  i ∈ is_ ∧ ram_in_use (ram_of r i) = true ∧ vfs_name_eq (ram_name (ram_of r i)) name len = true.
Proof.
  revert fr. induction is_ as [|j is_ IH]; intros fr Hs; simpl in Hs; [done|].
  destruct (ram_in_use (ram_of r j) && vfs_name_eq (ram_name (ram_of r j)) name len) eqn:E.
  - injection Hs as <- <-. apply andb_prop in E. split; [by left|done].
  - destruct (IH _ Hs) as (? & ?). split; [by right|done].
Qed.

Lemma ram_search_None name len is_ fr r x :
  ram_search name len is_ fr r = (None, x) →
  (∀ i, i ∈ is_ → ram_in_use (ram_of r i) && vfs_name_eq (ram_name (ram_of r i)) name len = false) ∧
  (x = fr ∨ x ∈ is_ ∧ ram_in_use (ram_of r x) = false).
Proof.
  revert fr. induction is_ as [|j is_ IH]; intros fr Hs; simpl in Hs.
  { injection Hs as <-. split; [|by left]. intros i Hi. by apply not_elem_of_nil in Hi. }
  destruct (ram_in_use (ram_of r j) && vfs_name_eq (ram_name (ram_of r j)) name len) eqn:E; [done|].
  destruct (IH _ Hs) as [H1 H2]. split.
  - intros i [->|Hi]%elem_of_cons; [done|by apply H1].
  - destruct H2 as [->|[H2 H3]]; [|right; split; [by right|done]].
    destruct (ram_in_use (ram_of r j)) eqn:Eu; simpl; [by left|].
    destruct (fr =? VFS_ROOT_RAMFILE_MAX); [right; split; [by left|done]|by left].
Qed.

Lemma ramfile_open_wf i fl r :
  ram_wf r → 0 ≤ i < VFS_ROOT_RAMFILE_MAX → ram_wf (snd (vfs_root_ramfile_open i fl r)).
Proof.
  intros Hwf Hi. unfold vfs_root_ramfile_open. cbv zeta.
  destruct (negb _); [done|]. destruct (open_flag fl SYSCALL_OPEN_FLAG_TRUNC); [|done].
  destruct (negb _); [done|]. simpl. destruct (rw_file r Hwf i Hi) as [Hd Hs].
  apply set_contents_wf; simpl; done.
Qed.

(** A new file in a free slot. *)
Lemma new_file_wf i nm r :
  ram_wf r → 0 ≤ i < VFS_ROOT_RAMFILE_MAX → ram_in_use (ram_of r i) = false →
  alen (root_entries r) < VFS_BOOTSTRAP_ROOT_MAX_CHILDREN → plain nm → 0 < alen nm < VFS_DIR_ENTRY_NAME_MAX →
  (∀ j, 0 ≤ j < VFS_ROOT_RAMFILE_MAX → ram_in_use (ram_of r j) = true → ram_name (ram_of r j) ≠ nm) →
  ram_wf (RamFs (root_entries r ++ [(nm, vfs_ramfile_node i)])
                (g_vfs_root_ramfiles (set_ram i (RamFile nm (replicate 4096 0) 0 true) r))).
Proof.
  intros Hwf Hi Hu Hc Hp Hn Hfresh. pose proof (rw_len r Hwf) as Hl.
  set (f := RamFile nm (replicate 4096 0) 0 true).
  assert (H : ∀ t j, 0 ≤ j → ram_of (RamFs t (g_vfs_root_ramfiles (set_ram i f r))) j =
                             if decide (i = j) then f else ram_of r j).
  { intros t j Hj. by apply (ram_of_set i j f r). }
  assert (Hnodes : ram_nodes (root_entries r ++ [(nm, vfs_ramfile_node i)]) = ram_nodes (root_entries r) ++ [(i, nm)])
    by (unfold ram_nodes; rewrite omap_app; done).
  split; cbn [root_entries].
  - simpl. by arr.
  - unfold alen in *. rewrite length_app. simpl. lia.
  - intros j Hj. rewrite H by lia. case_decide; [|by apply (rw_file r Hwf)].
    unfold f, VFS_ROOT_RAMFILE_CAPACITY. simpl ram_size. split; [reflexivity|lia].
  - rewrite Hnodes, fmap_app. apply NoDup_app. split; [apply (rw_nodup r Hwf)|]. split.
    + intros j ([j' n'] & -> & Hj)%list_elem_of_fmap. simpl. rewrite list_elem_of_singleton. intros ->.
      apply (rw_node r Hwf) in Hj as (_ & Hj & _). congruence.
    + apply NoDup_singleton.
  - intros j n. rewrite Hnodes, elem_of_app, list_elem_of_singleton, (rw_node r Hwf). split.
    + intros [(Hj & Hju & ->)|[= -> ->]].
      * split; [done|]. rewrite H by lia. case_decide; [subst; congruence|done].
      * split; [done|]. rewrite H by lia. by rewrite decide_True.
    + intros (Hj & Hju). rewrite H in Hju by lia. case_decide; [subst j|by left].
      right. destruct Hju as [_ ->]. done.
  - intros j Hj. rewrite H by lia. case_decide; [done|by apply (rw_name r Hwf)].
  - intros j k Hj Hk. rewrite !H by lia. repeat case_decide; subst; try done.
    + intros _ Hku Hne. by destruct (Hfresh k Hk Hku).
    + intros Hju _ Hne. by destruct (Hfresh j Hj Hju).
    + by apply (rw_distinct r Hwf).
Qed.

Lemma ram_create_open_wf dir name len fl r :
  ram_wf r → 0 ≤ len ≤ alen name → plain (take (Z.to_nat len) name) →
  ram_wf (snd (vfs_root_create_open dir name len fl r)).
Proof.
  intros Hwf Hlen Hp. unfold vfs_root_create_open. destruct (negb _); [done|].
  unfold vfs_root_create_or_open_ramfile. destruct (Z.eqb_spec len 0) as [|H0]; cbn [orb]; [done|].
  destruct (Z.leb_spec VFS_DIR_ENTRY_NAME_MAX len) as [|Hmax]; [done|].
  destruct (ram_search name len (seqZ 0 VFS_ROOT_RAMFILE_MAX) VFS_ROOT_RAMFILE_MAX r) as [[i|] x] eqn:E.
  - apply ram_search_Some in E as (Hi%elem_of_seqZ & _). apply ramfile_open_wf; [done|lia].
  - apply ram_search_None in E as [Hno Hx]. destruct (negb _); [done|].
    destruct (Z.leb_spec VFS_ROOT_RAMFILE_MAX x) as [|Hxm]; [done|].
    destruct (Z.leb_spec VFS_BOOTSTRAP_ROOT_MAX_CHILDREN (alen (root_entries r))) as [|Hc]; [done|]. cbn [orb].
    destruct Hx as [->|[Hx%elem_of_seqZ Hu]]; [lia|].
    apply ramfile_open_wf; [|lia]. apply (new_file_wf x (take (Z.to_nat len) name) r); try done; [|].
    + unfold alen in *. rewrite length_take. lia.
    + intros j Hj Hju Hne. specialize (Hno j). rewrite elem_of_seqZ in Hno. specialize (Hno ltac:(lia)).
      rewrite Hju in Hno. unfold vfs_name_eq in Hno. cbn [andb] in Hno.
      rewrite (proj2 (name_eq_spec _ name len (plain_no_nul _ (proj1 (rw_name r Hwf j Hj Hju))) Hlen)) in Hno; done.
Qed.

Lemma delete_entry_wf i k e r :
  ram_wf r → 0 ≤ i < VFS_ROOT_RAMFILE_MAX → root_entries r !! k = Some e → snd e = vfs_ramfile_node i →
  ram_wf (set_ram i ram_zero (RamFs (delete k (root_entries r)) (g_vfs_root_ramfiles r))).
Proof.
  intros Hwf Hi Hk He. pose proof (rw_len r Hwf) as Hl. pose proof (delete_Permutation _ _ _ Hk) as Hperm.
  assert (Hn : ram_nodes (root_entries r) ≡ₚ (i, fst e) :: ram_nodes (delete k (root_entries r))).
  { unfold ram_nodes. rewrite Hperm at 1. simpl. unfold ram_node_of at 1. by rewrite He. }
  pose proof (rw_nodup r Hwf) as Hnd. rewrite Hn in Hnd. simpl in Hnd. apply NoDup_cons in Hnd as [Hni Hnd].
  assert (H : ∀ j, 0 ≤ j →
    ram_of (set_ram i ram_zero (RamFs (delete k (root_entries r)) (g_vfs_root_ramfiles r))) j =
    if decide (i = j) then ram_zero else ram_of r j).
  { intros j Hj. by apply (ram_of_set i j ram_zero (RamFs (delete k (root_entries r)) (g_vfs_root_ramfiles r))). }
  assert (Hin : ∀ j n, (j, n) ∈ ram_nodes (delete k (root_entries r)) ↔ j ≠ i ∧ (j, n) ∈ ram_nodes (root_entries r)).
  { intros j n. rewrite Hn, elem_of_cons. split.
    - intros Hj. split; [|by right]. intros ->. apply Hni. apply list_elem_of_fmap. by exists (i, n).
    - intros [Hne [[= -> _]|Hj]]; done. }
  split.
  - simpl. by arr.
  - pose proof (rw_count r Hwf) as Hc. change (alen (delete k (root_entries r)) ≤ VFS_BOOTSTRAP_ROOT_MAX_CHILDREN).
    unfold alen, vfs_static_dir in *. apply Permutation_length in Hperm. simpl in Hperm. lia.
  - intros j Hj. rewrite H by lia. case_decide; [|by apply (rw_file r Hwf)].
    unfold VFS_ROOT_RAMFILE_CAPACITY. simpl ram_size. split; [reflexivity|lia].
  - exact Hnd.
  - intros j n. change (root_entries (set_ram _ _ _)) with (delete k (root_entries r)).
    rewrite Hin, (rw_node r Hwf). split.
    + intros [Hne (Hj & ?)]. split; [done|]. rewrite H by lia. by rewrite decide_False.
    + intros (Hj & Hju). rewrite H in Hju by lia. case_decide; [by destruct Hju|done].
  - intros j Hj. rewrite H by lia. case_decide; [done|by apply (rw_name r Hwf)].
  - intros j m Hj Hm. rewrite !H by lia. repeat case_decide; try done. by apply (rw_distinct r Hwf).
Qed.

(** A file in use is found under its name and has its entry. *)
Lemma unlink_search name len r i :
  search_range 0 VFS_ROOT_RAMFILE_MAX (λ i,
    if ram_in_use (ram_of r i) && vfs_name_eq (ram_name (ram_of r i)) name len then Some i else None) = Some i →
  0 ≤ i < VFS_ROOT_RAMFILE_MAX ∧ ram_in_use (ram_of r i) = true ∧
  vfs_name_eq (ram_name (ram_of r i)) name len = true.
Proof.
  intros (j & Hj & Hf & _)%search_range_Some.
  destruct (ram_in_use (ram_of r j)) eqn:Eu; [|done]. simpl in Hf.
  destruct (vfs_name_eq (ram_name (ram_of r j)) name len) eqn:En; [|done]. by injection Hf as <-.
Qed.

Lemma entry_of_used i r :
  ram_wf r → 0 ≤ i < VFS_ROOT_RAMFILE_MAX → ram_in_use (ram_of r i) = true →
  ∃ k e, list_find (λ e : list Z * vfs_node, snd e = vfs_ramfile_node i) (root_entries r) = Some (k, e).
Proof.
  intros Hwf Hi Hu. pose proof (proj2 (rw_node r Hwf i (ram_name (ram_of r i))) (conj Hi (conj Hu eq_refl))) as Hin.
  apply list_elem_of_omap in Hin as ([n nd] & Hin & Hn). unfold ram_node_of in Hn. simpl in Hn.
  destruct nd; simplify_eq.
  destruct (list_find (λ e : list Z * vfs_node, snd e = vfs_ramfile_node i) (root_entries r)) as [[k e]|] eqn:E; [by eauto|].
  apply list_find_None in E. rewrite Forall_forall in E. by destruct (E _ Hin).
Qed.

Lemma ram_unlink_cases dir name len r :
  ram_wf r →
  match vfs_root_unlink dir name len r with
  | (Ok _, r') => ∃ i, 0 ≤ i < VFS_ROOT_RAMFILE_MAX ∧ ram_in_use (ram_of r i) = true ∧
      vfs_name_eq (ram_name (ram_of r i)) name len = true ∧ ram_wf r' ∧
      ∀ j, 0 ≤ j → ram_of r' j = if decide (i = j) then ram_zero else ram_of r j
  | (Err e, r') => r' = r ∧ e ≠ KERR_FAULT
  end.
Proof.
  intros Hwf. unfold vfs_root_unlink. destruct (_ || _); [done|].
  destruct (search_range 0 VFS_ROOT_RAMFILE_MAX _) as [i|] eqn:E; [|done].
  apply unlink_search in E as (Hi & Hu & Hn). destruct (entry_of_used i r Hwf Hi Hu) as (k & e & Hf).
  rewrite Hf. exists i. apply list_find_Some in Hf as (Hk & He & _). do 3 (split; [done|]). split.
  - by apply (delete_entry_wf i k e).
  - intros j Hj. apply (ram_of_set i j ram_zero (RamFs (delete k (root_entries r)) (g_vfs_root_ramfiles r))); [|done|done].
    apply (rw_len r Hwf).
Qed.

(** * Reads and writes *)

(** A write through any descriptor of slot [i]. *)
Lemma ram_write_cases f buf len r i :
  ram_wf r → f_private f = ram_addr i → 0 ≤ i < VFS_ROOT_RAMFILE_MAX → ram_in_use (ram_of r i) = true →
  open_flag (f_flags f) SYSCALL_OPEN_FLAG_WRITE = true → 0 ≤ len → alen buf = len →
  let start := if open_flag (f_flags f) SYSCALL_OPEN_FLAG_APPEND then ram_size (ram_of r i) else f_offset f in
  0 ≤ start < VFS_ROOT_RAMFILE_CAPACITY →
  let n := Z.min len (VFS_ROOT_RAMFILE_CAPACITY - start) in
  let ram := ram_of r i in
  vfs_root_ramfile_write f (Some buf) len r =
  (if n <? len then Err KERR_NOMEM else Ok tt, n, set_offset f (start + n),
   if n =? 0 then r
   else set_ram i (RamFile (ram_name ram) (overlay (ram_data ram) start (take (Z.to_nat n) buf))
                           (Z.max (ram_size ram) (start + n)) true) r).
Proof.
  intros Hwf Hp Hi Hu Hw Hl0 Hl start Hst n ram. unfold vfs_root_ramfile_write.
  rewrite (bool_decide_eq_true_2 (is_Some (Some buf))) by done. rewrite andb_false_r. cbn [negb].
  rewrite Hw. cbn [negb]. rewrite Hp. unfold ram_slot, ram_addr. rewrite Z.add_simpl_r.
  rewrite (proj2 (Z.eqb_neq (i + 1) 0)) by lia. rewrite Hu. cbn [negb orb].
  set (g := if open_flag (f_flags f) SYSCALL_OPEN_FLAG_APPEND then set_offset f (ram_size (ram_of r i)) else f).
  assert (Hg : f_offset g = start ∧ ∀ x, set_offset g x = set_offset f x) by (unfold g, start; by case_match).
  destruct Hg as [Hg1 Hg2]. rewrite Hg1, (proj2 (Z.leb_gt _ _)) by lia. cbv zeta.
  unfold VFS_ROOT_RAMFILE_CAPACITY in *.
  assert (Hroom : sub32 4096 start = 4096 - start) by (unfold sub32, u32, two32; apply Z.mod_small; lia).
  rewrite Hroom. replace (if len <? 4096 - start then len else 4096 - start) with n
    by (unfold n; destruct (Z.ltb_spec len (4096 - start)); lia).
  assert (Hadd : add32 start n = start + n) by (unfold add32, u32, two32, n; apply Z.mod_small; lia).
  rewrite Hadd. destruct (Z.eqb_spec n 0) as [E|E]; cbn [negb].
  - f_equal. f_equal. rewrite E, Z.add_0_r, <- Hg1, <- Hg2. by destruct g.
  - rewrite Hg2. cbn [f_offset set_offset].
    replace (ram_size ram `max` (start + n))
      with (if ram_size (ram_of r i) <? start + n then start + n else ram_size (ram_of r i)); [done|].
    unfold ram. destruct (Z.ltb_spec (ram_size (ram_of r i)) (start + n)); lia.
Qed.

(** A read through any descriptor of slot [i]. *)
Lemma ram_read_cases f len r i :
  ram_wf r → f_private f = ram_addr i → 0 ≤ i < VFS_ROOT_RAMFILE_MAX → ram_in_use (ram_of r i) = true →
  0 ≤ len → 0 ≤ f_offset f →
  let n := Z.max 0 (Z.min len (ram_size (ram_of r i) - f_offset f)) in
  vfs_root_ramfile_read f true len r =
  (Ok (slice (ram_data (ram_of r i)) (f_offset f) n), set_offset f (f_offset f + n), r).
Proof.
  intros Hwf Hp Hi Hu Hl Ho n. unfold vfs_root_ramfile_read. rewrite andb_false_r.
  rewrite Hp. unfold ram_slot, ram_addr. rewrite Z.add_simpl_r.
  rewrite (proj2 (Z.eqb_neq (i + 1) 0)) by lia. rewrite Hu. cbn [negb orb].
  destruct (rw_file r Hwf i Hi) as [_ Hs]. unfold VFS_ROOT_RAMFILE_CAPACITY in *.
  destruct (Z.eqb_spec len 0) as [E|E]; cbn [orb].
  { replace n with 0 by (unfold n; lia). rewrite Z.add_0_r. by destruct f. }
  destruct (Z.leb_spec (ram_size (ram_of r i)) (f_offset f)) as [H|H].
  { replace n with 0 by (unfold n; lia). rewrite Z.add_0_r. by destruct f. }
  cbv zeta.
  assert (Hrem : sub32 (ram_size (ram_of r i)) (f_offset f) = ram_size (ram_of r i) - f_offset f)
    by (unfold sub32, u32, two32; apply Z.mod_small; lia).
  rewrite Hrem. replace (if len <? _ then len else _) with n
    by (unfold n; destruct (Z.ltb_spec len (ram_size (ram_of r i) - f_offset f)); lia).
  unfold add32, u32, two32. rewrite Z.mod_small; [done|unfold n; lia].
Qed.

(** * Runs *)

Inductive ram_op :=
  | RamCreateOpen (dir : vfs_node) (name : list Z) (len flags : Z)
  | RamOpen (i flags : Z)
  | RamRead (f : kfile) (len : Z)
  | RamWrite (f : kfile) (buf : list Z) (len : Z)
  | RamUnlink (dir : vfs_node) (name : list Z) (len : Z)
  | RamRegister (name : list Z) (nd : vfs_node).

(** Names are components of a path; a descriptor holds the address of a slot;
    only other file systems register children. *)
Definition ram_op_sane (o : ram_op) : Prop :=
  match o with
  | RamCreateOpen _ name len _ => 0 ≤ len ≤ alen name ∧ plain (take (Z.to_nat len) name)
  | RamOpen i _ => 0 ≤ i < VFS_ROOT_RAMFILE_MAX
  | RamWrite f buf len =>
      (f_private f = 0 ∨ ∃ i, 0 ≤ i < VFS_ROOT_RAMFILE_MAX ∧ f_private f = ram_addr i) ∧
      0 ≤ f_offset f ∧ alen buf = len
  | RamRegister _ nd => ∀ i, nd ≠ vfs_ramfile_node i
  | _ => True
  end.

Definition ram_run1 r (o : ram_op) : ramfs :=
  match o with
  | RamCreateOpen dir name len fl => snd (vfs_root_create_open dir name len fl r)
  | RamOpen i fl => snd (vfs_root_ramfile_open i fl r)
  | RamRead f len => snd (vfs_root_ramfile_read f true len r)
  | RamWrite f buf len => snd (vfs_root_ramfile_write f (Some buf) len r)
  | RamUnlink dir name len => snd (vfs_root_unlink dir name len r)
  | RamRegister name nd => RamFs (snd (vfs_register_root_child name nd (root_entries r))) (g_vfs_root_ramfiles r)
  end.

Definition ram_run r (ops : list ram_op) : ramfs := foldl ram_run1 r ops.

Lemma write_wf f buf len r : ram_wf r → ram_op_sane (RamWrite f buf len) → ram_wf (snd (vfs_root_ramfile_write f (Some buf) len r)).
Proof.
  intros Hwf (Hp & Ho & Hl). assert (Hl0 : 0 ≤ len) by (rewrite <- Hl; apply alen_nonneg).
  destruct (open_flag (f_flags f) SYSCALL_OPEN_FLAG_WRITE) eqn:Ew.
  2: { unfold vfs_root_ramfile_write. rewrite (bool_decide_eq_true_2 (is_Some (Some buf))) by done.
       rewrite andb_false_r, Ew. done. }
  destruct Hp as [Hp|(i & Hi & Hp)].
  { unfold vfs_root_ramfile_write. rewrite (bool_decide_eq_true_2 (is_Some (Some buf))) by done.
    rewrite andb_false_r, Ew, Hp. done. }
  destruct (ram_in_use (ram_of r i)) eqn:Eu.
  2: { unfold vfs_root_ramfile_write. rewrite (bool_decide_eq_true_2 (is_Some (Some buf))) by done.
       rewrite andb_false_r, Ew, Hp. unfold ram_slot, ram_addr. rewrite Z.add_simpl_r, Eu. simpl. by rewrite orb_true_r. }
  set (start := if open_flag (f_flags f) SYSCALL_OPEN_FLAG_APPEND then ram_size (ram_of r i) else f_offset f).
  destruct (rw_file r Hwf i Hi) as [Hd Hs].
  destruct (decide (start < VFS_ROOT_RAMFILE_CAPACITY)) as [Hst|Hst].
  - rewrite (ram_write_cases f buf len r i) by (done || (fold start; split; [unfold start; case_match; lia|done])).
    fold start. assert (0 ≤ start) by (unfold start; case_match; lia). cbn [snd]. case_match; [done|].
    apply set_contents_wf; [done|done|done|by rewrite Eu| |]; cbn [ram_data ram_size].
    + rewrite alen_overlay; [done|done|]. rewrite Hd. unfold alen. rewrite length_take. lia.
    + lia.
  - unfold vfs_root_ramfile_write. rewrite (bool_decide_eq_true_2 (is_Some (Some buf))) by done.
    rewrite andb_false_r, Ew, Hp. unfold ram_slot, ram_addr. rewrite Z.add_simpl_r, Eu. cbn [negb orb].
    rewrite (proj2 (Z.eqb_neq (i + 1) 0)) by lia. cbn [orb].
    rewrite (proj2 (Z.leb_le _ _)); [done|]. unfold start in Hst. case_match; simpl; lia.
Qed.

Lemma register_wf name nd r :
  ram_wf r → (∀ i, nd ≠ vfs_ramfile_node i) →
  ram_wf (RamFs (snd (vfs_register_root_child name nd (root_entries r))) (g_vfs_root_ramfiles r)).
Proof.
  intros Hwf Hnd. unfold vfs_register_root_child. destruct r as [es fs].
  destruct (_ =? _); [done|]. destruct (existsb _ _); [done|].
  destruct (Z.leb_spec VFS_BOOTSTRAP_ROOT_MAX_CHILDREN (alen (root_entries (RamFs es fs)))) as [|Hc]; [done|].
  cbn [snd root_entries g_vfs_root_ramfiles] in *.
  assert (Hn : ram_nodes (es ++ [(name, nd)]) = ram_nodes es).
  { unfold ram_nodes. rewrite omap_app. simpl. unfold ram_node_of at 2. simpl.
    destruct nd; try apply app_nil_r. by destruct (Hnd slot). }
  destruct Hwf as [H1 H2 H3 H4 H5 H6 H7]. split; try done; cbn [root_entries] in *.
  - unfold alen in *. rewrite length_app. simpl. lia.
  - by rewrite Hn.
  - by rewrite Hn.
Qed.

Lemma ram_run1_wf r o : ram_wf r → ram_op_sane o → ram_wf (ram_run1 r o).
Proof.
  intros Hwf Ho. destruct o as [dir name len fl|i fl|f len|f buf len|dir name len|name nd]; simpl.
  - destruct Ho as [Hl Hp]. by apply ram_create_open_wf.
  - by apply ramfile_open_wf.
  - unfold vfs_root_ramfile_read. repeat (case_match; [done|]). done.
  - by apply write_wf.
  - pose proof (ram_unlink_cases dir name len r Hwf) as Hu.
    destruct (vfs_root_unlink dir name len r) as [[[]|e] r']; [by destruct Hu as (i & _ & _ & _ & ? & _)|].
    by destruct Hu as [-> _].
  - by apply register_wf.
Qed.

Lemma ram_run_reach_wf r ops : ram_wf r → Forall ram_op_sane ops → ram_wf (ram_run r ops).
Proof.
  revert r. induction ops as [|o ops IH]; intros r Hwf Hops; [done|].
  apply Forall_cons in Hops as [Ho Hops]. apply IH; [by apply ram_run1_wf|done].
Qed.

Lemma ram_init_wf : ram_wf ram_init.
Proof.
  assert (H : ∀ i, 0 ≤ i < VFS_ROOT_RAMFILE_MAX → ram_of ram_init i = ram_zero).
  { intros i Hi. apply (aget_replicate 16 ram_zero). unfold VFS_ROOT_RAMFILE_MAX in Hi. lia. }
  split.
  - reflexivity.
  - by vm_compute.
  - intros i Hi. rewrite H by done. unfold VFS_ROOT_RAMFILE_CAPACITY. cbn [ram_zero ram_size ram_data].
    split; [reflexivity|lia].
  - constructor.
  - intros i nm. split; [by intros ?%elem_of_nil|]. intros (Hi & Hu & _). by rewrite H in Hu.
  - intros i Hi. by rewrite H.
  - intros i j Hi Hj. by rewrite H.
Qed.

(** * Properties *)

(** C37: After any opens, creates, reads, writes, unlinks and registrations, the
    root directory and the ramfile table agree: an entry that is a ramfile is
    the one entry of a slot in use and carries its name, every slot in use has
    its entry, no two have the same name, and sizes stay within the buffers; so
    an unlink never meets the inconsistency it tests for. *)
Theorem ram_run_consistent ops :
  Forall ram_op_sane ops →
  let r := ram_run ram_init ops in
  ram_wf r ∧
  (∀ i, 0 ≤ i < VFS_ROOT_RAMFILE_MAX → ram_in_use (ram_of r i) = true →
     (ram_name (ram_of r i), vfs_ramfile_node i) ∈ root_entries r) ∧
  (∀ i nm, (nm, vfs_ramfile_node i) ∈ root_entries r →
     0 ≤ i < VFS_ROOT_RAMFILE_MAX ∧ ram_in_use (ram_of r i) = true ∧ nm = ram_name (ram_of r i)) ∧
  (∀ dir name len, fst (vfs_root_unlink dir name len r) ≠ Err KERR_FAULT).
Proof.
  intros Hops r. assert (Hwf : ram_wf r) by (apply ram_run_reach_wf; [apply ram_init_wf|done]).
  assert (Hiff : ∀ i nm, (nm, vfs_ramfile_node i) ∈ root_entries r ↔ (i, nm) ∈ ram_nodes (root_entries r)).
  { intros i nm. unfold ram_nodes. rewrite list_elem_of_omap. split.
    - intros Hin. by exists (nm, vfs_ramfile_node i).
    - intros ([n nd] & Hin & He). unfold ram_node_of in He. simpl in He. destruct nd; by simplify_eq. }
  split; [done|]. split; [|split].
  - intros i Hi Hu. apply Hiff, (rw_node r Hwf). done.
  - intros i nm Hin%Hiff. by apply (rw_node r Hwf).
  - intros dir name len Hf. pose proof (ram_unlink_cases dir name len r Hwf) as Hu.
    destruct (vfs_root_unlink dir name len r) as [[|e] r']; simpl in Hf; [done|].
    destruct Hu as [_ Hne]. congruence.
Qed.

(** "a" is created, written and unlinked, then "b" takes its slot. *)
Definition demo_ram_ops : list ram_op :=
  [RamCreateOpen g_vfs_root_node [97] 1 5;
   RamWrite (KFile (Some g_vfs_root_ramfile_file_ops) None (ram_addr 0) 0 1) [1; 2; 3] 3;
   RamUnlink g_vfs_root_node [97] 1;
   RamRegister name_persist g_persistfs_dir;
   RamCreateOpen g_vfs_root_node [98] 1 5].

Lemma demo_ram_ops_sane : Forall ram_op_sane demo_ram_ops.
Proof.
  repeat (apply Forall_cons; split); [| | | | |by apply Forall_nil]; simpl.
  - split; [unfold alen; simpl; lia|]. repeat constructor; done.
  - split; [|split; [done|reflexivity]]. right. exists 0. done.
  - done.
  - done.
  - split; [unfold alen; simpl; lia|]. repeat constructor; done.
Qed.

Lemma ram_run_consistent_witness :
  let r := ram_run ram_init demo_ram_ops in
  ram_wf r ∧ root_entries r = [(name_dev, g_vfs_dev_node); (name_persist, g_persistfs_dir); ([98], vfs_ramfile_node 0)].
Proof.
  split; [apply (ram_run_consistent demo_ram_ops demo_ram_ops_sane)|vm_compute; reflexivity].
Defined.

Lemma set_ram_get i f r :
  ram_wf r → 0 ≤ i < VFS_ROOT_RAMFILE_MAX → ram_of (set_ram i f r) i = f.
Proof. intros Hwf Hi. rewrite ram_of_set by (apply (rw_len r Hwf) || lia). by rewrite decide_True. Qed.

Lemma written_wf i start n buf r :
  ram_wf r → 0 ≤ i < VFS_ROOT_RAMFILE_MAX → ram_in_use (ram_of r i) = true →
  0 ≤ start → 0 ≤ n ≤ alen buf → start + n ≤ VFS_ROOT_RAMFILE_CAPACITY →
  ram_wf (set_ram i (RamFile (ram_name (ram_of r i)) (overlay (ram_data (ram_of r i)) start (take (Z.to_nat n) buf))
                             (Z.max (ram_size (ram_of r i)) (start + n)) true) r).
Proof.
  intros Hwf Hi Hu Hs Hn Hc. destruct (rw_file r Hwf i Hi) as [Hd Hz].
  apply set_contents_wf; [done|done|done|by rewrite Hu| |]; cbn [ram_data ram_size]; [|lia].
  rewrite alen_overlay; [done|done|]. rewrite Hd. unfold alen in *. rewrite length_take. lia.
Qed.

Lemma slice_overlay dst off src k n :
  0 ≤ off → off + alen src ≤ alen dst → 0 ≤ k → 0 ≤ n → k + n ≤ alen dst →
  (∀ j, 0 ≤ j < n → off ≤ k + j < off + alen src) → slice (overlay dst off src) k n = slice src (k - off) n.
Proof.
  intros Ho Hl Hk Hn Hkn Hin. pose proof (alen_overlay dst off src Ho Hl) as Hlo.
  destruct (decide (n = 0)) as [->|Hn0]; [done|].
  pose proof (Hin 0 ltac:(lia)). pose proof (Hin (n - 1) ltac:(lia)).
  apply blist_eq; [rewrite !alen_slice by lia; done|]. intros j Hj. rewrite alen_slice in Hj by lia.
  rewrite !cget_slice by lia. rewrite cget_overlay by lia. rewrite decide_True by (apply Hin; lia).
  f_equal. lia.
Qed.

(** A write through a descriptor of a ramfile stores as many bytes as fit
    at its offset (the file's end if it appends), reports them, fails with
    [KERR_NOMEM] exactly when some did not fit, and touches no other file;
    every descriptor of the file then reads those bytes there. *)
Theorem ram_write_read f g buf len r i :
  ram_wf r → f_private f = ram_addr i → f_private g = ram_addr i → 0 ≤ i < VFS_ROOT_RAMFILE_MAX →
  ram_in_use (ram_of r i) = true → open_flag (f_flags f) SYSCALL_OPEN_FLAG_WRITE = true →
  0 ≤ len → alen buf = len →
  let start := if open_flag (f_flags f) SYSCALL_OPEN_FLAG_APPEND then ram_size (ram_of r i) else f_offset f in
  0 ≤ start < VFS_ROOT_RAMFILE_CAPACITY →
  let n := Z.min len (VFS_ROOT_RAMFILE_CAPACITY - start) in
  let '(rc, written, f', r') := vfs_root_ramfile_write f (Some buf) len r in
  ram_wf r' ∧ written = n ∧ f_offset f' = start + n ∧ (rc = if n <? len then Err KERR_NOMEM else Ok tt) ∧
  (∀ j, 0 ≤ j → j ≠ i → ram_of r' j = ram_of r j) ∧
  vfs_root_ramfile_read (set_offset g start) true n r' =
    (Ok (take (Z.to_nat n) buf), set_offset g (start + n), r').
Proof.
  intros Hwf Hp Hg Hi Hu Hw Hl0 Hl start Hst n.
  rewrite (ram_write_cases f buf len r i) by done. fold start. fold n.
  assert (Hn : 0 ≤ n ≤ alen buf ∧ start + n ≤ VFS_ROOT_RAMFILE_CAPACITY) by (unfold n; lia).
  destruct (rw_file r Hwf i Hi) as [Hd Hz].
  destruct (Z.eqb_spec n 0) as [E|E].
  - split; [done|]. split; [done|]. split; [done|]. split; [done|]. split; [done|].
    rewrite (ram_read_cases (set_offset g start) n r i) by (done || simpl; lia).
    cbn [f_offset set_offset]. rewrite E.
    replace (0 `max` (0 `min` (ram_size (ram_of r i) - start))) with 0 by lia. done.
  - assert (Hwf' := written_wf i start n buf r Hwf Hi Hu ltac:(lia) ltac:(lia) ltac:(lia)).
    set (file := RamFile _ _ _ _) in *. set (r' := set_ram i file r) in *.
    split; [done|]. split; [done|]. split; [done|]. split; [done|].
    assert (Hri : ∀ j, 0 ≤ j → ram_of r' j = if decide (i = j) then file else ram_of r j)
      by (intros j Hj; apply ram_of_set; [apply (rw_len r Hwf)|done|done]).
    split; [intros j Hj Hji; rewrite Hri by done; by rewrite decide_False|].
    rewrite (ram_read_cases (set_offset g start) n r' i); [|done|done|done| |lia|simpl; lia].
    2: { rewrite Hri by lia. by rewrite decide_True. }
    rewrite Hri, decide_True by (done || lia). unfold file. cbn [f_offset set_offset ram_size ram_data].
    replace (0 `max` (n `min` (ram_size (ram_of r i) `max` (start + n) - start))) with n by lia.
    assert (Ht : alen (take (Z.to_nat n) buf) = n) by (unfold alen in *; rewrite length_take; lia).
    rewrite slice_overlay by (rewrite ?Ht, ?Hd; lia). rewrite Z.sub_diag.
    unfold slice. rewrite drop_0, take_take, Nat.min_id. done.
Qed.

(** "a", just created; a descriptor of slot 0 open for writing. *)
Definition demo_ram : ramfs := ram_run ram_init [RamCreateOpen g_vfs_root_node [97] 1 5].
Definition demo_ram_file : kfile := KFile (Some g_vfs_root_ramfile_file_ops) None (ram_addr 0) 0 1.

Lemma demo_ram_wf : ram_wf demo_ram.
Proof.
  apply ram_run_reach_wf; [exact ram_init_wf|]. apply Forall_singleton. simpl.
  split; [unfold alen; simpl; lia|]. repeat constructor; done.
Qed.

Lemma ram_write_read_witness :
  let '(rc, written, f', r') := vfs_root_ramfile_write demo_ram_file (Some [7; 8; 9]) 3 demo_ram in
  rc = Ok tt ∧ written = 3 ∧
  vfs_root_ramfile_read (set_offset demo_ram_file 0) true 3 r' = (Ok [7; 8; 9], set_offset demo_ram_file 3, r').
Proof.
  assert (Hi : 0 ≤ 0 < VFS_ROOT_RAMFILE_MAX) by done. assert (H3 : 0 ≤ 3) by done.
  assert (Hs : 0 ≤ 0 < VFS_ROOT_RAMFILE_CAPACITY) by done.
  pose proof (ram_write_read demo_ram_file demo_ram_file [7; 8; 9] 3 demo_ram 0 demo_ram_wf eq_refl eq_refl Hi
    eq_refl eq_refl H3 eq_refl Hs) as H.
  destruct (vfs_root_ramfile_write demo_ram_file (Some [7; 8; 9]) 3 demo_ram) as [[[rc written] f'] r'].
  destruct H as (_ & -> & _ & -> & _ & H). split; [reflexivity|]. split; [reflexivity|]. exact H.
Defined.

(** Truncating a file resets its size but keeps its bytes, and a descriptor
    opened before keeps its offset: a write through it at that offset makes
    the file's old contents before the offset readable again. *)
Theorem ram_truncate_exposes f g buf r i fl :
  ram_wf r → f_private f = ram_addr i → f_private g = ram_addr i → 0 ≤ i < VFS_ROOT_RAMFILE_MAX →
  ram_in_use (ram_of r i) = true → open_flag (f_flags f) SYSCALL_OPEN_FLAG_WRITE = true →
  open_flag (f_flags f) SYSCALL_OPEN_FLAG_APPEND = false →
  open_flag fl SYSCALL_OPEN_FLAG_TRUNC = true → open_flag fl SYSCALL_OPEN_FLAG_WRITE = true →
  0 < f_offset f < VFS_ROOT_RAMFILE_CAPACITY → 0 < alen buf →
  let r1 := snd (vfs_root_ramfile_open i fl r) in
  let '(_, written, _, r2) := vfs_root_ramfile_write f (Some buf) (alen buf) r1 in
  ram_size (ram_of r1 i) = 0 ∧ 0 < written ∧
  vfs_root_ramfile_read (set_offset g 0) true (f_offset f) r2 =
    (Ok (slice (ram_data (ram_of r i)) 0 (f_offset f)), set_offset g (f_offset f), r2).
Proof.
  intros Hwf Hp Hg Hi Hu Hw Ha Ht Htw Ho Hb r1.
  assert (Hr1 : r1 = set_ram i (RamFile (ram_name (ram_of r i)) (ram_data (ram_of r i)) 0 true) r).
  { unfold r1, vfs_root_ramfile_open. rewrite Hu, Ht, Htw. done. }
  assert (Hwf1 : ram_wf r1) by (by apply ramfile_open_wf).
  assert (H1 : ram_of r1 i = RamFile (ram_name (ram_of r i)) (ram_data (ram_of r i)) 0 true)
    by (rewrite Hr1; by apply set_ram_get).
  destruct (rw_file r Hwf i Hi) as [Hd Hz].
  pose proof (ram_write_cases f buf (alen buf) r1 i Hwf1 Hp Hi) as Hwc. rewrite H1, Ha in Hwc.
  cbn [ram_in_use ram_size ram_name ram_data] in Hwc. rewrite Hwc; [|done|done|lia|done|lia].
  unfold VFS_ROOT_RAMFILE_CAPACITY in *. set (n := alen buf `min` (4096 - f_offset f)) in *.
  assert (Hn : 0 < n) by lia. rewrite (proj2 (Z.eqb_neq n 0)) by lia.
  assert (Hwf2 := written_wf i (f_offset f) n buf r1 Hwf1 Hi).
  rewrite H1 in Hwf2. cbn [ram_in_use ram_size ram_name ram_data] in Hwf2.
  specialize (Hwf2 eq_refl ltac:(lia) ltac:(lia) ltac:(unfold VFS_ROOT_RAMFILE_CAPACITY; lia)).
  set (file := RamFile _ _ (Z.max _ _) true) in *. set (r2 := set_ram i file r1) in *.
  rewrite H1. split; [done|]. split; [done|].
  assert (H2 : ram_of r2 i = file) by (by apply set_ram_get).
  assert (Hta : alen (take (Z.to_nat n) buf) = n) by (unfold alen in *; rewrite length_take; lia).
  rewrite (ram_read_cases (set_offset g 0) (f_offset f) r2 i); [|done|done|done|by rewrite H2|lia|done].
  rewrite H2. unfold file. cbn [f_offset set_offset ram_size ram_data].
  replace (0 `max` (f_offset f `min` (0 `max` (f_offset f + n) - 0))) with (f_offset f) by lia.
  rewrite Z.add_0_l. do 3 f_equal. apply blist_eq; [rewrite !alen_slice; try lia; rewrite alen_overlay; lia|].
  intros k Hk. rewrite alen_slice in Hk by (try lia; rewrite alen_overlay; lia).
  rewrite !cget_slice by lia. rewrite cget_overlay by lia. by rewrite decide_False by lia.
Qed.

(** "a" holding ten bytes, a descriptor at its end. *)
Definition demo_ram_full : ramfs :=
  snd (vfs_root_ramfile_write demo_ram_file (Some (replicate 10 42)) 10 demo_ram).

Lemma demo_ram_full_wf : ram_wf demo_ram_full.
Proof.
  apply write_wf; [exact demo_ram_wf|]. split; [|split; [done|reflexivity]]. right. by exists 0.
Qed.

Lemma ram_truncate_exposes_witness :
  let r1 := snd (vfs_root_ramfile_open 0 9 demo_ram_full) in
  let '(_, _, _, r2) := vfs_root_ramfile_write (set_offset demo_ram_file 10) (Some [1]) 1 r1 in
  ram_size (ram_of r1 0) = 0 ∧
  fst (fst (vfs_root_ramfile_read (set_offset demo_ram_file 0) true 10 r2)) = Ok (replicate 10 42).
Proof.
  assert (Hi : 0 ≤ 0 < VFS_ROOT_RAMFILE_MAX) by done. assert (H1 : 0 < alen [1]) by done.
  assert (Ho : 0 < f_offset (set_offset demo_ram_file 10) < VFS_ROOT_RAMFILE_CAPACITY) by done.
  assert (Hu : ram_in_use (ram_of demo_ram_full 0) = true) by reflexivity.
  assert (Hd : slice (ram_data (ram_of demo_ram_full 0)) 0 10 = replicate 10 42) by (vm_compute; reflexivity).
  pose proof (ram_truncate_exposes (set_offset demo_ram_file 10) demo_ram_file [1] demo_ram_full 0 9 demo_ram_full_wf
    eq_refl eq_refl Hi Hu eq_refl eq_refl eq_refl eq_refl Ho H1) as H.
  cbv zeta in *. change (alen [1]) with 1 in H.
  destruct (vfs_root_ramfile_write (set_offset demo_ram_file 10) (Some [1]) 1 _) as [[[rc w] f'] r2].
  destruct H as (Hz & _ & H). split; [exact Hz|]. change (f_offset (set_offset demo_ram_file 10)) with 10 in H.
  rewrite H. exact (f_equal Ok Hd).
Defined.

Lemma ramfile_open_Ok j fl r g r' :
  ram_wf r → 0 ≤ j < VFS_ROOT_RAMFILE_MAX → vfs_root_ramfile_open j fl r = (Ok g, r') →
  f_private g = ram_addr j ∧ ram_in_use (ram_of r' j) = true.
Proof.
  intros Hwf Hj. unfold vfs_root_ramfile_open. destruct (ram_in_use (ram_of r j)) eqn:Hu; [|done]. cbn [negb].
  destruct (open_flag fl SYSCALL_OPEN_FLAG_TRUNC).
  - destruct (negb _); [done|]. intros [= <- <-]. rewrite set_ram_get by done. split; [by case_match|done].
  - intros [= <- <-]. split; [by case_match|done].
Qed.

Lemma create_open_Ok dir name len fl r g r' i :
  ram_wf r → 0 ≤ len ≤ alen name → plain (take (Z.to_nat len) name) →
  vfs_root_create_open dir name len fl r = (Ok g, r') → f_private g = ram_addr i →
  ram_in_use (ram_of r' i) = true.
Proof.
  intros Hwf Hlen Hp Hc Hg. unfold ram_addr in Hg.
  assert (Ho : ∃ j r1, ram_wf r1 ∧ 0 ≤ j < VFS_ROOT_RAMFILE_MAX ∧ vfs_root_ramfile_open j fl r1 = (Ok g, r')).
  { revert Hc. unfold vfs_root_create_open. destruct (negb _); [done|].
    unfold vfs_root_create_or_open_ramfile. destruct (Z.eqb_spec len 0) as [|H0]; cbn [orb]; [done|].
    destruct (Z.leb_spec VFS_DIR_ENTRY_NAME_MAX len) as [|Hmax]; [done|].
    destruct (ram_search name len (seqZ 0 VFS_ROOT_RAMFILE_MAX) VFS_ROOT_RAMFILE_MAX r) as [[k|] x] eqn:E.
    - apply ram_search_Some in E as (Hi%elem_of_seqZ & _). intros Hc. exists k, r. split; [done|]. split; [lia|done].
    - apply ram_search_None in E as [Hno Hx]. destruct (negb _); [done|].
      destruct (Z.leb_spec VFS_ROOT_RAMFILE_MAX x) as [|Hxm]; [done|].
      destruct (Z.leb_spec VFS_BOOTSTRAP_ROOT_MAX_CHILDREN (alen (root_entries r))) as [|Hcn]; [done|]. cbn [orb].
      destruct Hx as [->|[Hx%elem_of_seqZ Hu]]; [lia|]. intros Hc. eexists x, _. split; [|split; [lia|exact Hc]].
      apply (new_file_wf x (take (Z.to_nat len) name) r); try done.
      + unfold alen in *. rewrite length_take. lia.
      + intros j Hj Hju Hne. specialize (Hno j). rewrite elem_of_seqZ in Hno. specialize (Hno ltac:(lia)).
        rewrite Hju in Hno. unfold vfs_name_eq in Hno. cbn [andb] in Hno.
        rewrite (proj2 (name_eq_spec _ name len (plain_no_nul _ (proj1 (rw_name r Hwf j Hj Hju))) Hlen)) in Hno; done. }
  destruct Ho as (j & r1 & Hwf1 & Hj & Ho). destruct (ramfile_open_Ok j fl r1 g r' Hwf1 Hj Ho) as [Hgj Hu].
  unfold ram_addr in Hgj. by replace i with j by lia.
Qed.

(** An open ramfile does not survive an unlink: a descriptor kept across the
    unlink of its file and the creation of another one in the same slot is
    accepted as a descriptor of the new file, and what is written through it
    is what the new file holds (persistfs tells the two apart by their
    generations). *)
Theorem ram_stale_handle f g name name2 len len2 fl r r1 r2 i buf :
  ram_wf r → 0 ≤ i < VFS_ROOT_RAMFILE_MAX → f_private f = ram_addr i →
  open_flag (f_flags f) SYSCALL_OPEN_FLAG_WRITE = true → open_flag (f_flags f) SYSCALL_OPEN_FLAG_APPEND = false →
  vfs_root_unlink g_vfs_root_node name len r = (Ok tt, r1) →
  0 ≤ len2 ≤ alen name2 → plain (take (Z.to_nat len2) name2) →
  vfs_root_create_open g_vfs_root_node name2 len2 fl r1 = (Ok g, r2) → f_private g = f_private f →
  alen buf ≤ VFS_ROOT_RAMFILE_CAPACITY →
  let '(rc, written, _, r3) := vfs_root_ramfile_write (set_offset f 0) (Some buf) (alen buf) r2 in
  rc = Ok tt ∧ written = alen buf ∧
  vfs_root_ramfile_read (set_offset g 0) true (alen buf) r3 = (Ok buf, set_offset g (alen buf), r3).
Proof.
  intros Hwf Hi Hp Hw Ha Hun Hl2 Hp2 Hcr Hg Hb.
  pose proof (ram_unlink_cases g_vfs_root_node name len r Hwf) as Hu. rewrite Hun in Hu.
  destruct Hu as (_ & _ & _ & _ & Hwf1 & _).
  assert (Hwf2 : ram_wf r2).
  { pose proof (ram_create_open_wf g_vfs_root_node name2 len2 fl r1 Hwf1 Hl2 Hp2) as H. by rewrite Hcr in H. }
  assert (Hu2 : ram_in_use (ram_of r2 i) = true).
  { eapply create_open_Ok; [exact Hwf1|exact Hl2|exact Hp2|exact Hcr|]. by rewrite Hg. }
  pose proof (ram_write_cases (set_offset f 0) buf (alen buf) r2 i Hwf2 Hp Hi Hu2 Hw (alen_nonneg buf) eq_refl) as Hwc.
  cbn [f_flags f_offset set_offset] in Hwc. rewrite Ha in Hwc. unfold VFS_ROOT_RAMFILE_CAPACITY in *.
  rewrite Hwc by lia. clear Hwc. replace (alen buf `min` (4096 - 0)) with (alen buf) by lia.
  rewrite Z.ltb_irrefl. split; [done|]. split; [done|].
  destruct (rw_file r2 Hwf2 i Hi) as [Hd Hz]. unfold VFS_ROOT_RAMFILE_CAPACITY in *. pose proof (alen_nonneg buf).
  assert (Htb : take (Z.to_nat (alen buf)) buf = buf) by (unfold alen; rewrite Nat2Z.id; apply take_ge; lia).
  destruct (Z.eqb_spec (alen buf) 0) as [E|E].
  - rewrite (ram_read_cases (set_offset g 0) _ r2 i); [|done|by rewrite <- Hp, <- Hg|done|done|done|done].
    cbn [f_offset set_offset]. rewrite E. replace (0 `max` (0 `min` (ram_size (ram_of r2 i) - 0))) with 0 by lia.
    destruct buf; [done|]. unfold alen in E. simpl in E. lia.
  - assert (Hwf3 := written_wf i 0 (alen buf) buf r2 Hwf2 Hi Hu2 ltac:(lia) ltac:(lia)
      ltac:(unfold VFS_ROOT_RAMFILE_CAPACITY; lia)).
    set (file := RamFile _ _ (Z.max _ _) true) in *. set (r3 := set_ram i file r2) in *.
    assert (H3 : ram_of r3 i = file) by (by apply set_ram_get).
    rewrite (ram_read_cases (set_offset g 0) _ r3 i); [|done|by rewrite <- Hp, <- Hg|done|by rewrite H3|done|done].
    rewrite H3. unfold file. cbn [f_offset set_offset ram_size ram_data].
    replace (0 `max` (alen buf `min` (ram_size (ram_of r2 i) `max` (0 + alen buf) - 0))) with (alen buf) by lia.
    rewrite Htb. rewrite slice_overlay by lia. unfold slice. rewrite Z.sub_0_r, drop_0, Htb. done.
Qed.

(** The descriptor of "b". *)
Definition demo_new_file : kfile :=
  KFile (Some g_vfs_root_ramfile_file_ops) (Some (vfs_ramfile_node 0)) (ram_addr 0) 0 5.

Lemma ram_stale_handle_witness :
  let r1 := snd (vfs_root_unlink g_vfs_root_node [97] 1 demo_ram) in
  let r2 := snd (vfs_root_create_open g_vfs_root_node [98] 1 5 r1) in
  let '(rc, _, _, r3) := vfs_root_ramfile_write (set_offset demo_ram_file 0) (Some [1; 2]) 2 r2 in
  rc = Ok tt ∧ ram_name (ram_of r2 0) = [98] ∧
  fst (fst (vfs_root_ramfile_read demo_new_file true 2 r3)) = Ok [1; 2].
Proof.
  assert (Hi : 0 ≤ 0 < VFS_ROOT_RAMFILE_MAX) by done. assert (H1 : 0 ≤ 1 ≤ alen [98]) by done.
  assert (Hp : plain (take (Z.to_nat 1) [98])) by (repeat constructor; done).
  assert (Hb : alen [1; 2] ≤ VFS_ROOT_RAMFILE_CAPACITY) by done.
  assert (Hn : ram_name (ram_of (snd (vfs_root_create_open g_vfs_root_node [98] 1 5
    (snd (vfs_root_unlink g_vfs_root_node [97] 1 demo_ram)))) 0) = [98]) by (vm_compute; reflexivity).
  pose proof (ram_stale_handle demo_ram_file demo_new_file [97] [98] 1 1 5 demo_ram
    (snd (vfs_root_unlink g_vfs_root_node [97] 1 demo_ram))
    (snd (vfs_root_create_open g_vfs_root_node [98] 1 5 (snd (vfs_root_unlink g_vfs_root_node [97] 1 demo_ram))))
    0 [1; 2] demo_ram_wf Hi eq_refl eq_refl eq_refl ltac:(vm_compute; reflexivity) H1 Hp
    ltac:(vm_compute; reflexivity) eq_refl Hb) as H.
  cbv zeta. change (alen [1; 2]) with 2 in H.
  destruct (vfs_root_ramfile_write (set_offset demo_ram_file 0) (Some [1; 2]) 2 _) as [[[rc w] f'] r3].
  destruct H as (-> & _ & H). split; [reflexivity|]. split; [exact Hn|].
  change (set_offset demo_new_file 0) with demo_new_file in H. by rewrite H.
Defined.
