(* ===== verification/TarFs.v ===== *)
(** kernel/tarfs.c: the read-only file system of a tar archive.

    The nodes are blocks of the kernel heap, linked by their addresses; a node
    keeps its name by value (the copy on the heap is allocated but never
    written again).  The archive is a list of bytes, a pointer into it the
    offset; what lies beyond its end is the memory [mem] of a read. *)

From S2P Require Import Prelude Bytes Kmalloc VfsNode KFile BlockCache PersistFs PersistLayout Vfs.

Definition TAR_BLOCK_SIZE : Z := 512.
Definition TARFS_NAME_MAX : Z := 255.

(** [struct tarfs_node]; 0 is the null pointer. *)
Record tarfs_node := TarNode {
  tn_name : list Z;
  tn_type : vfs_node_type;
  tn_parent : Z;
  tn_first_child : Z;
  tn_next_sibling : Z;
  tn_file_data : Z;
  tn_file_size : Z
}.

(** [sizeof(struct tarfs_node)]. *)
Definition TARFS_NODE_SIZE : Z := 36.

Record tarfs := TarFs { tar_heap : kheap; tar_nodes : gmap Z tarfs_node }.

Implicit Types (t : tarfs).

Definition tar_zero : tarfs_node := TarNode [] VFS_NODE_NONE 0 0 0 0 0.

(** The node at an address. *)
Definition node_at t (a : Z) : tarfs_node := default tar_zero (tar_nodes t !! a).

Definition set_node (a : Z) (n : tarfs_node) t : tarfs := TarFs (tar_heap t) (<[a := n]> (tar_nodes t)).

(** * Headers *)

(** The fields of [struct tar_header] in a block. *)
Definition hdr_name (hdr : list Z) : list Z := slice hdr 0 100.
Definition hdr_size (hdr : list Z) : list Z := slice hdr 124 12.
Definition hdr_typeflag (hdr : list Z) : Z := cget hdr 156.
Definition hdr_prefix (hdr : list Z) : list Z := slice hdr 345 155.

Definition tarfs_round_up_512 (size : Z) : Z :=
  Z.land (add32 size (TAR_BLOCK_SIZE - 1)) (not32 (TAR_BLOCK_SIZE - 1)).

Definition tarfs_name_eq (a b : list Z) (b_len : Z) : bool := name_eq a b b_len.

Definition tarfs_copy_dir_entry_name (src : list Z) : list Z :=
  take (Z.to_nat (VFS_DIR_ENTRY_NAME_MAX - 1)) (cstr src).

(** A field has [cap] bytes; it ends at its first NUL. *)
Definition tarfs_field_len (field : list Z) : Z := alen (cstr field).

Definition tarfs_is_zero_block (block : list Z) : bool := forallb (λ c, c =? 0) block.

(** [while (i < cap && (field[i] == ' ' || field[i] == 0)) i++]. *)
Fixpoint skip_blanks (field : list Z) : list Z :=
  match field with
  | [] => []
  | c :: field' => if (c =? 32) || (c =? NUL) then skip_blanks field' else field
  end.

(** The digit loop. *)
Fixpoint octal_loop (field : list Z) (value : Z) (saw_digit : bool) : res Z :=
  match field with
  | [] => Ok (if saw_digit then value else 0)
  | c :: field' =>
      if (c =? NUL) || (c =? 32) then Ok (if saw_digit then value else 0)
      else if (c <? 48) || (55 <? c) then Err KERR_INVAL
      else octal_loop field' (add32 (mul32 value 8) (c - 48)) true
  end.

Definition tarfs_parse_octal_u32 (field : list Z) : res Z := octal_loop (skip_blanks field) 0 false.

Definition tarfs_header_get_path (hdr : list Z) (out_cap : Z) : res (list Z) :=
  if out_cap <? 2 then Err KERR_INVAL
  else
    let name_len := tarfs_field_len (hdr_name hdr) in
    let prefix_len := tarfs_field_len (hdr_prefix hdr) in
    if name_len =? 0 then Err KERR_INVAL
    else if negb (prefix_len =? 0) then
      if out_cap <? prefix_len + 1 + name_len + 1 then Err KERR_INVAL
      else Ok (take (Z.to_nat prefix_len) (hdr_prefix hdr) ++ SLASH :: take (Z.to_nat name_len) (hdr_name hdr))
    else if out_cap <? name_len + 1 then Err KERR_INVAL
    else Ok (take (Z.to_nat name_len) (hdr_name hdr)).

(** * Nodes *)

(** A null pointer, or a zeroed node with its name and type. *)
Definition tarfs_alloc_node (name : list Z) (type : vfs_node_type) t : Z * tarfs :=
  let '(p, h) := kmalloc TARFS_NODE_SIZE (tar_heap t) in
  if p =? 0 then (0, TarFs h (tar_nodes t))
  else (p, TarFs h (<[p := TarNode name type 0 0 0 0 0]> (tar_nodes t))).

(** The copy of the name, [None] for a null pointer. *)
Definition tarfs_dup_name (name : list Z) (len : Z) t : option (list Z) * tarfs :=
  let '(copy, h) := kmalloc (add32 len 1) (tar_heap t) in
  (if copy =? 0 then None else Some (take (Z.to_nat len) name), TarFs h (tar_nodes t)).

(** A walk along the siblings sees every node at most once, so the number of
    nodes bounds its rounds. *)
Definition tar_fuel t : nat := S (size (tar_nodes t)).

Fixpoint find_sibling (fuel : nat) (child : Z) (name : list Z) (name_len : Z) t : Z :=
  match fuel with
  | O => 0
  | S fuel' =>
      if child =? 0 then 0
      else if tarfs_name_eq (tn_name (node_at t child)) name name_len then child
      else find_sibling fuel' (tn_next_sibling (node_at t child)) name name_len t
  end.

Definition tarfs_find_child (dir : Z) (name : list Z) (name_len : Z) t : Z :=
  if (dir =? 0) || negb (bool_decide (tn_type (node_at t dir) = VFS_NODE_DIR)) then 0
  else find_sibling (tar_fuel t) (tn_first_child (node_at t dir)) name name_len t.

Definition tn_set_parent (n : tarfs_node) (p : Z) : tarfs_node :=
  TarNode (tn_name n) (tn_type n) p (tn_first_child n) (tn_next_sibling n) (tn_file_data n) (tn_file_size n).
Definition tn_set_first (n : tarfs_node) (c : Z) : tarfs_node :=
  TarNode (tn_name n) (tn_type n) (tn_parent n) c (tn_next_sibling n) (tn_file_data n) (tn_file_size n).
Definition tn_set_next (n : tarfs_node) (c : Z) : tarfs_node :=
  TarNode (tn_name n) (tn_type n) (tn_parent n) (tn_first_child n) c (tn_file_data n) (tn_file_size n).
Definition tn_set_file (n : tarfs_node) (data size : Z) : tarfs_node :=
  TarNode (tn_name n) (tn_type n) (tn_parent n) (tn_first_child n) (tn_next_sibling n) data size.

(** [while (iter->next_sibling) iter = iter->next_sibling]. *)
Fixpoint last_sibling (fuel : nat) (iter : Z) t : Z :=
  match fuel with
  | O => iter
  | S fuel' =>
      if tn_next_sibling (node_at t iter) =? 0 then iter
      else last_sibling fuel' (tn_next_sibling (node_at t iter)) t
  end.

Definition tarfs_link_child (parent child : Z) t : res unit * tarfs :=
  if (parent =? 0) || (child =? 0) then (Err KERR_INVAL, t)
  else if negb (bool_decide (tn_type (node_at t parent) = VFS_NODE_DIR)) then (Err KERR_INVAL, t)
  else
    let t := set_node child (tn_set_parent (node_at t child) parent) t in
    if tn_first_child (node_at t parent) =? 0
    then (Ok tt, set_node parent (tn_set_first (node_at t parent) child) t)
    else
      let iter := last_sibling (tar_fuel t) (tn_first_child (node_at t parent)) t in
      (Ok tt, set_node iter (tn_set_next (node_at t iter) child) t).

Definition tarfs_get_or_create_child (parent : Z) (name : list Z) (name_len : Z) (type : vfs_node_type) t
    : res Z * tarfs :=
  if (parent =? 0) || (name_len =? 0) then (Err KERR_INVAL, t)
  else
    let child := tarfs_find_child parent name name_len t in
    if negb (child =? 0) then
      let child_type := tn_type (node_at t child) in
      if (bool_decide (type = VFS_NODE_DIR) && bool_decide (child_type = VFS_NODE_DIR)) ||
         (bool_decide (type = VFS_NODE_FILE) && bool_decide (child_type = VFS_NODE_FILE))
      then (Ok child, t)
      else (Err KERR_INVAL, t)
    else
      match tarfs_dup_name name name_len t with
      | (None, t) => (Err KERR_NOMEM, t)
      | (Some name_copy, t) =>
          let '(child, t) := tarfs_alloc_node name_copy type t in
          if child =? 0 then (Err KERR_NOMEM, t)
          else
            match tarfs_link_child parent child t with
            | (Err _, t) => (Err KERR_INVAL, t)
            | (Ok _, t) => (Ok child, t)
            end
      end.

(** * Paths of entries *)

(** [while (len >= 2 && p[0] == '.' && p[1] == '/')]: skip two bytes. *)
Fixpoint skip_dots (p : list Z) : list Z :=
  match p with
  | a :: ((b :: p') as q) => if (a =? 46) && (b =? SLASH) then skip_dots p' else p
  | _ => p
  end.

(** [while (len > 0 && p[len - 1] == '/') len--]. *)
Fixpoint trim_tail (p : list Z) (len : nat) : nat :=
  match len with
  | O => O
  | S len' => if cget p (Z.of_nat len') =? SLASH then trim_tail p len' else len
  end.

(** The first [len] bytes left of a raw path. *)
Definition clean_path (raw_path : list Z) : list Z :=
  let p := skip_dots (skip_slashes raw_path) in
  take (trim_tail p (length p)) p.

(** [while (comp_len < len && p[comp_len] != '/') comp_len++]. *)
Fixpoint comp_length (p : list Z) : Z :=
  match p with
  | [] => 0
  | c :: p' => if c =? SLASH then 0 else comp_length p' + 1
  end.

(** The component loop: the node of the last component. *)
Fixpoint entry_loop (fuel : nat) (dir : Z) (p : list Z) (is_dir : bool) t : res Z * tarfs :=
  match fuel with
  | O => (Err KERR_FAULT, t)
  | S fuel' =>
      let comp_len := comp_length p in
      if comp_len =? 0 then (Err KERR_INVAL, t)
      else
        let want_type := if (comp_len =? alen p) && negb is_dir then VFS_NODE_FILE else VFS_NODE_DIR in
        trys! nd, t := tarfs_get_or_create_child dir p comp_len want_type t in
        if comp_len =? alen p then (Ok nd, t)
        else
          let q := skip_slashes (drop (Z.to_nat comp_len) p) in
          if negb (bool_decide (tn_type (node_at t nd) = VFS_NODE_DIR)) then (Err KERR_INVAL, t)
          else entry_loop fuel' nd q is_dir t
  end.

Definition tarfs_add_path_entry (root : Z) (raw_path : list Z) (is_dir : bool) (file_data file_size : Z) t
    : res unit * tarfs :=
  if root =? 0 then (Err KERR_INVAL, t)
  else
    let p := clean_path raw_path in
    if alen p =? 0 then (Ok tt, t)
    else
      trys! nd, t := entry_loop (length p) root p is_dir t in
      if negb is_dir then (Ok tt, set_node nd (tn_set_file (node_at t nd) file_data file_size) t)
      else (Ok tt, t).

(** * The archive *)

(** A header: its size, and its entry unless it is of a kind that is skipped. *)
Definition parse_header (hdr : list Z) : res (Z * option (list Z * bool)) :=
  try! file_size := tarfs_parse_octal_u32 (hdr_size hdr) in
  try! path := tarfs_header_get_path hdr (TARFS_NAME_MAX + 1) in
  let ty := hdr_typeflag hdr in
  if ty =? 53 then Ok (file_size, Some (path, true))
  else if (ty =? NUL) || (ty =? 48) then Ok (file_size, Some (path, false))
  else Ok (file_size, None).

(** The loop over the blocks, [None] when it has not ended after [fuel]
    rounds. *)
Fixpoint parse_loop (fuel : nat) (blob : list Z) (off root : Z) t : option (res unit * tarfs) :=
  match fuel with
  | O => None
  | S fuel' =>
      if negb (add32 off TAR_BLOCK_SIZE <=? alen blob) then Some (Ok tt, t)
      else
        let hdr := slice blob off TAR_BLOCK_SIZE in
        if tarfs_is_zero_block hdr then Some (Ok tt, t)
        else
          match parse_header hdr with
          | Err e => Some (Err e, t)
          | Ok (file_size, entry) =>
              let payload_padded := tarfs_round_up_512 file_size in
              let next := add32 (add32 off TAR_BLOCK_SIZE) payload_padded in
              if (next <? off) || (alen blob <? next) then Some (Err KERR_FAULT, t)
              else
                match
                  match entry with
                  | None => (Ok tt, t)
                  | Some (path, is_dir) =>
                      tarfs_add_path_entry root path is_dir (add32 off TAR_BLOCK_SIZE) file_size t
                  end
                with
                | (Err e, t) => Some (Err e, t)
                | (Ok _, t) => parse_loop fuel' blob next root t
                end
          end
  end.

(** Rounds enough for an archive whose headers all make progress. *)
Definition parse_fuel (blob : list Z) : nat := S (length blob).

Definition tarfs_parse_blob (fuel : nat) (blob : list Z) t : option (res Z * tarfs) :=
  if negb (alen blob mod TAR_BLOCK_SIZE =? 0) then Some (Err KERR_INVAL, t)
  else
    let '(root, t) := tarfs_alloc_node [SLASH] VFS_NODE_DIR t in
    if root =? 0 then Some (Err KERR_NOMEM, t)
    else
      '(r, t) ← parse_loop fuel blob 0 root t;
      Some (match r with Ok _ => Ok root | Err e => Err e end, t).

(** * Operations of nodes and files *)

Definition tarfs_dir_lookup (dir : Z) (name : list Z) (name_len : Z) t : res vfs_node :=
  if (dir =? 0) || (name_len =? 0) then Err KERR_INVAL
  else
    let child := tarfs_find_child dir name name_len t in
    if child =? 0 then Err KERR_NOENT else Ok (tarfs_vfs_node child).

(** The listing loop over the siblings. *)
Fixpoint list_siblings (fuel : nat) (child cap : Z) t : list vfs_dir_entry :=
  match fuel with
  | O => []
  | S fuel' =>
      if (child =? 0) || (cap =? 0) then []
      else
        let n := node_at t child in
        DirEntry (tn_type n) (tarfs_copy_dir_entry_name (tn_name n))
          :: list_siblings fuel' (tn_next_sibling n) (cap - 1) t
  end.

Definition tarfs_dir_list (dir : Z) (has_entries : bool) (entry_cap : Z) t : res (list vfs_dir_entry) :=
  if dir =? 0 then Err KERR_INVAL
  else if negb (entry_cap =? 0) && negb has_entries then Err KERR_INVAL
  else Ok (list_siblings (tar_fuel t) (tn_first_child (node_at t dir)) entry_cap t).

Definition tarfs_file_open (nd : Z) (open_flags : Z) t : res kfile :=
  if nd =? 0 then Err KERR_INVAL
  else if negb (bool_decide (tn_type (node_at t nd) = VFS_NODE_FILE)) then Err KERR_INVAL
  else if open_flag open_flags (Z.lor (Z.lor (Z.lor SYSCALL_OPEN_FLAG_WRITE SYSCALL_OPEN_FLAG_CREATE)
                                             SYSCALL_OPEN_FLAG_TRUNC) SYSCALL_OPEN_FLAG_APPEND)
  then Err KERR_NOTSUP
  else Ok (kfile_init (Some (tarfs_vfs_node nd)) (Some g_tarfs_file_ops) 0 open_flags).

(** [mem] is the memory from the start of the archive on. *)
Definition tarfs_file_read (mem : Z → Z) (f : kfile) (has_buf : bool) (len : Z) t : res (list Z) * kfile :=
  if negb (len =? 0) && negb has_buf then (Err KERR_INVAL, f)
  else
    match f_node f with
    | Some (tarfs_vfs_node a) =>
        let n := node_at t a in
        if negb (bool_decide (tn_type n = VFS_NODE_FILE)) then (Err KERR_FAULT, f)
        else if (tn_file_size n <=? f_offset f) || (len =? 0) then (Ok [], f)
        else
          let remaining := sub32 (tn_file_size n) (f_offset f) in
          let k := if len <? remaining then len else remaining in
          ((Ok ((λ j, mem (tn_file_data n + f_offset f + j)) <$> seqZ 0 k)), set_offset f (add32 (f_offset f) k))
    | _ => (Err KERR_FAULT, f)
    end.

Definition tarfs_file_write (f : kfile) (buf : option (list Z)) (len : Z) : res unit * Z * kfile :=
  (Err KERR_NOTSUP, 0, f).

(** The loop over the root's children; the names are those of their nodes. *)
Fixpoint register_siblings (fuel : nat) (child mounted : Z) t (dir : vfs_static_dir)
    : res Z * vfs_static_dir :=
  match fuel with
  | O => (Ok mounted, dir)
  | S fuel' =>
      if child =? 0 then (Ok mounted, dir)
      else
        trys! _, dir := vfs_register_root_child (tn_name (node_at t child)) (tarfs_vfs_node child) dir in
        register_siblings fuel' (tn_next_sibling (node_at t child)) (mounted + 1) t dir
  end.

Definition tarfs_register_top_level_children (root : Z) t (dir : vfs_static_dir) : res unit * vfs_static_dir :=
  if root =? 0 then (Err KERR_INVAL, dir)
  else
    trys! mounted, dir := register_siblings (tar_fuel t) (tn_first_child (node_at t root)) 0 t dir in
    if mounted =? 0 then (Err KERR_INVAL, dir) else (Ok tt, dir).

(** [blob] is the archive built into the kernel; the flag is [g_tarfs_mounted],
    the self-check after mounting only reads. *)
Definition tarfs_mount_demo_archive (fuel : nat) (blob : list Z) (g_tarfs_mounted : bool) t (dir : vfs_static_dir)
    : option (res unit * bool * tarfs * vfs_static_dir) :=
  if g_tarfs_mounted then Some (Ok tt, true, t, dir)
  else
    parsed ← tarfs_parse_blob fuel blob t;
    Some
      match parsed with
      | (Err e, t) => (Err e, false, t, dir)
      | (Ok root, t) =>
          match tarfs_register_top_level_children root t dir with
          | (Err e, dir) => (Err e, false, t, dir)
          | (Ok _, dir) => (Ok tt, true, t, dir)
          end
      end.

(** * The invariant *)

(** The siblings from [a] on are [l]. *)
Fixpoint tar_chain t (a : Z) (l : list Z) : Prop :=
  match l with
  | [] => a = 0
  | x :: l' => a = x ∧ x ≠ 0 ∧ is_Some (tar_nodes t !! x) ∧ tar_chain t (tn_next_sibling (node_at t x)) l'
  end.

(** The children of the node [d]: linked once each, with [d] as their parent
    and different names. *)
Record dir_children t (d : Z) (l : list Z) : Prop := {
  dc_chain : tar_chain t (tn_first_child (node_at t d)) l;
  dc_nodup : NoDup l;
  dc_parent x : x ∈ l → tn_parent (node_at t x) = d;
  dc_names x : x ∈ l → no_nul (tn_name (node_at t x));
  dc_distinct x y : x ∈ l → y ∈ l → tn_name (node_at t x) = tn_name (node_at t y) → x = y
}.

Definition in_tar t (a : Z) : Prop := is_Some (tar_nodes t !! a).

Record tar_wf t : Prop := {
  tw_heap : heap_wf (tar_heap t);
  tw_addr a : in_tar t a → 0 < a ∧ a + TARFS_NODE_SIZE ≤ small_ptr (tar_heap t);
  tw_dirs d : in_tar t d → ∃ l, dir_children t d l
}.

Lemma node_at_set a b n t : node_at (set_node a n t) b = if decide (a = b) then n else node_at t b.
Proof.
  unfold node_at, set_node. simpl. case_decide; [subst; by rewrite lookup_insert_eq|].
  by rewrite lookup_insert_ne.
Qed.

Lemma in_tar_set a b n t : in_tar t a → in_tar (set_node a n t) b ↔ in_tar t b.
Proof.
  intros Ha. unfold in_tar, set_node. simpl. destruct (decide (a = b)) as [->|].
  - rewrite lookup_insert_eq. by split.
  - by rewrite lookup_insert_ne.
Qed.

Lemma chain_in t a l x : tar_chain t a l → x ∈ l → in_tar t x ∧ x ≠ 0.
Proof.
  revert a. induction l as [|y l IH]; intros a Hc Hx; [by apply not_elem_of_nil in Hx|].
  destruct Hc as (_ & Hy & Hs & Hc). apply elem_of_cons in Hx as [->|Hx]; [done|by eapply IH].
Qed.

(** A chain depends on the sibling pointers only. *)
Lemma tar_chain_ext t t' a l :
  (∀ x, x ∈ l → tn_next_sibling (node_at t' x) = tn_next_sibling (node_at t x)) →
  (∀ x, in_tar t x → in_tar t' x) → tar_chain t a l → tar_chain t' a l.
Proof.
  intros Hn Hi. revert a. induction l as [|y l IH]; intros a Hc; [done|].
  destruct Hc as (-> & Hy & Hs & Hc). split; [done|]. split; [done|]. split; [by apply Hi|].
  rewrite Hn by (by left). apply IH; [|done]. intros x Hx. apply Hn. by right.
Qed.

Lemma chain_snoc t t' a l p :
  (∀ x, x ∈ l → tn_next_sibling (node_at t' x) =
                if decide (last l = Some x) then p else tn_next_sibling (node_at t x)) →
  (∀ x, in_tar t x → in_tar t' x) → NoDup l → l ≠ [] → tar_chain t a l →
  p ≠ 0 → in_tar t' p → tn_next_sibling (node_at t' p) = 0 → tar_chain t' a (l ++ [p]).
Proof.
  intros Hn Hi Hnd Hne Hc Hp Hip Hnp. revert a Hc Hn Hnd. induction l as [|y l IH]; intros a Hc Hn Hnd; [done|].
  destruct Hc as (-> & Hy & Hs & Hc). apply NoDup_cons in Hnd as [Hyl Hnd].
  split; [done|]. split; [done|]. split; [by apply Hi|].
  rewrite Hn by (by left). destruct l as [|z l].
  - rewrite decide_True by done. simpl. done.
  - change (last (y :: z :: l)) with (last (z :: l)) in *. rewrite decide_False.
    2: { intros Hl. apply Hyl. apply last_Some in Hl as (l' & ->). apply elem_of_app. right. by left. }
    apply IH; [done|done| |done]. intros x Hx. apply Hn. by right.
Qed.

Lemma chain_length t a l : NoDup l → tar_chain t a l → (length l < tar_fuel t)%nat.
Proof.
  intros Hnd Hc. unfold tar_fuel. rewrite <- (size_list_to_set (C := gset Z) l Hnd), <- (size_dom (D := gset Z)).
  apply Nat.lt_succ_r, subseteq_size. intros x Hx%elem_of_list_to_set.
  destruct (chain_in t a l x Hc Hx) as [Hin _]. by apply elem_of_dom.
Qed.

(** The search gives the child of that name. *)
Lemma find_sibling_spec fuel t a l name len :
  tar_chain t a l → (length l < fuel)%nat → (∀ x, x ∈ l → no_nul (tn_name (node_at t x))) →
  0 ≤ len ≤ alen name →
  let c := find_sibling fuel a name len t in
  (c ≠ 0 → c ∈ l ∧ tn_name (node_at t c) = take (Z.to_nat len) name) ∧
  (∀ x, x ∈ l → tn_name (node_at t x) = take (Z.to_nat len) name → c ≠ 0).
Proof.
  intros Hc Hf Hnn Hl. revert a fuel Hc Hf. induction l as [|y l IH]; intros a fuel Hc Hf; cbv zeta.
  { simpl in Hc. subst a. destruct fuel; simpl; (split; [done|]); intros x Hx; by apply not_elem_of_nil in Hx. }
  destruct Hc as (-> & Hy & Hs & Hc). destruct fuel as [|fuel]; [simpl in Hf; lia|]. cbn [find_sibling].
  rewrite (proj2 (Z.eqb_neq y 0)) by done.
  destruct (tarfs_name_eq (tn_name (node_at t y)) name len) eqn:E.
  - apply name_eq_spec in E; [|apply Hnn; by left|done]. split; [intros _; split; [by left|done]|done].
  - destruct (IH (λ x Hx, Hnn x (list_elem_of_further x y l Hx)) _ fuel Hc ltac:(simpl in Hf; lia)) as [I1 I2].
    split.
    + intros Hne. destruct (I1 Hne) as [? ?]. split; [by right|done].
    + intros x [->|Hx]%elem_of_cons He; [|by apply (I2 x)].
      exfalso. unfold tarfs_name_eq in E. rewrite (proj2 (name_eq_spec _ name len (Hnn y ltac:(by left)) Hl)) in E; done.
Qed.

Section find.
Variable t : tarfs.
Hypothesis Hwf : tar_wf t.

Lemma find_child_in dir l name len :
  in_tar t dir → dir_children t dir l → 0 ≤ len ≤ alen name →
  let c := tarfs_find_child dir name len t in
  (c ≠ 0 → c ∈ l ∧ tn_name (node_at t c) = take (Z.to_nat len) name ∧ tn_type (node_at t dir) = VFS_NODE_DIR) ∧
  (∀ x, x ∈ l → tn_name (node_at t x) = take (Z.to_nat len) name → tn_type (node_at t dir) = VFS_NODE_DIR → c = x).
Proof.
  intros Hd [Hc Hnd Hp Hn Hdis] Hl. unfold tarfs_find_child.
  pose proof (tw_addr t Hwf dir Hd). rewrite (proj2 (Z.eqb_neq dir 0)) by lia. cbn [orb].
  destruct (bool_decide (tn_type (node_at t dir) = VFS_NODE_DIR)) eqn:E; cbn [negb].
  - apply bool_decide_eq_true in E.
    destruct (find_sibling_spec (tar_fuel t) t _ l name len Hc (chain_length _ _ _ Hnd Hc) Hn Hl) as [I1 I2].
    split; [intros Hne; by destruct (I1 Hne)|]. intros x Hx He _. destruct (I1 (I2 x Hx He)) as [Hin Heq].
    apply Hdis; [done|done|]. by rewrite Heq, He.
  - apply bool_decide_eq_false in E. split; [done|]. by intros x _ _ ?.
Qed.
End find.

(** * Adding a child *)

Lemma last_sibling_spec fuel t a l :
  tar_chain t a l → l ≠ [] → (length l ≤ fuel)%nat → last l = Some (last_sibling fuel a t).
Proof.
  revert a fuel. induction l as [|y l IH]; intros a fuel Hc Hne Hf; [done|].
  destruct Hc as (-> & Hy & Hs & Hc). destruct fuel as [|fuel]; [simpl in Hf; lia|]. cbn [last_sibling].
  destruct l as [|z l].
  - simpl in Hc. by rewrite Hc.
  - pose proof Hc as (Hz & Hz0 & _). rewrite (proj2 (Z.eqb_neq _ 0)) by congruence.
    change (last (y :: z :: l)) with (last (z :: l)). apply IH; [done|done|simpl in *; lia].
Qed.

(** The state after [p], not a node before, became the last child of [dir]. *)
Record linked t t' (dir p : Z) (l : list Z) (nm : list Z) (ty : vfs_node_type) : Prop := {
  lk_in a : in_tar t' a ↔ a = p ∨ in_tar t a;
  lk_fresh : ¬ in_tar t p ∧ p ≠ 0 ∧ p ≠ dir;
  lk_new : tn_name (node_at t' p) = nm ∧ tn_type (node_at t' p) = ty ∧ tn_parent (node_at t' p) = dir ∧
           tn_first_child (node_at t' p) = 0 ∧ tn_next_sibling (node_at t' p) = 0;
  lk_zero : tn_file_data (node_at t' p) = 0 ∧ tn_file_size (node_at t' p) = 0;
  lk_old a : a ≠ p → tn_name (node_at t' a) = tn_name (node_at t a) ∧ tn_type (node_at t' a) = tn_type (node_at t a) ∧
             tn_parent (node_at t' a) = tn_parent (node_at t a) ∧
             tn_file_data (node_at t' a) = tn_file_data (node_at t a) ∧
             tn_file_size (node_at t' a) = tn_file_size (node_at t a);
  lk_first a : a ≠ p → tn_first_child (node_at t' a) =
               if decide (a = dir ∧ l = []) then p else tn_first_child (node_at t a);
  lk_next a : a ≠ p → tn_next_sibling (node_at t' a) =
              if decide (last l = Some a) then p else tn_next_sibling (node_at t a)
}.

Section linking.
Variables t t' : tarfs.
Variables (dir p : Z) (l : list Z) (nm : list Z) (ty : vfs_node_type).
Hypothesis Hl : linked t t' dir p l nm ty.
Hypothesis Hd : in_tar t dir.
Hypothesis Hch : dir_children t dir l.
Hypothesis Hnm : no_nul nm.
Hypothesis Hnew : ∀ x, x ∈ l → tn_name (node_at t x) ≠ nm.

Lemma child_not_new d l' x : dir_children t d l' → x ∈ l' → x ≠ p ∧ in_tar t x.
Proof.
  intros Hc Hx. destruct (chain_in _ _ _ x (dc_chain _ _ _ Hc) Hx) as [Hin _]. split; [|done].
  intros ->. by apply (proj1 (lk_fresh _ _ _ _ _ _ _ Hl)).
Qed.

(** The last child of [dir] is in no other chain. *)
Lemma last_elsewhere d l' x : dir_children t d l' → d ≠ dir → x ∈ l' → last l ≠ Some x.
Proof.
  intros Hc Hne Hx Hlast. apply last_Some in Hlast as (l0 & El).
  apply Hne. rewrite <- (dc_parent _ _ _ Hc x Hx). apply (dc_parent _ _ _ Hch).
  rewrite El. apply elem_of_app. right. by left.
Qed.

Lemma linked_children_other d l' :
  in_tar t d → d ≠ dir → dir_children t d l' → dir_children t' d l'.
Proof.
  intros Hdd Hne Hc. pose proof (λ x Hx, child_not_new d l' x Hc Hx) as Hx.
  assert (Hdp : d ≠ p) by (intros ->; by apply (proj1 (lk_fresh _ _ _ _ _ _ _ Hl))).
  destruct Hc as [H1 H2 H3 H4 H5]. split.
  - rewrite (lk_first _ _ _ _ _ _ _ Hl) by done. rewrite decide_False by naive_solver.
    apply (tar_chain_ext t); [|intros x Hin; apply (lk_in _ _ _ _ _ _ _ Hl); by right|done].
    intros x Hin. destruct (Hx x Hin) as [Hxp _]. rewrite (lk_next _ _ _ _ _ _ _ Hl) by done.
    rewrite decide_False; [done|]. by apply (last_elsewhere d l').
  - done.
  - intros x Hin. destruct (Hx x Hin) as [Hxp _]. destruct (lk_old _ _ _ _ _ _ _ Hl x Hxp) as (_ & _ & -> & _). by apply H3.
  - intros x Hin. destruct (Hx x Hin) as [Hxp _]. destruct (lk_old _ _ _ _ _ _ _ Hl x Hxp) as (-> & _). by apply H4.
  - intros x y Hin Hiny. destruct (Hx x Hin) as [Hxp _]. destruct (Hx y Hiny) as [Hyp _].
    destruct (lk_old _ _ _ _ _ _ _ Hl x Hxp) as (-> & _). destruct (lk_old _ _ _ _ _ _ _ Hl y Hyp) as (-> & _).
    by apply H5.
Qed.

Lemma linked_children_dir : dir_children t' dir (l ++ [p]).
Proof.
  destruct (lk_fresh _ _ _ _ _ _ _ Hl) as (Hfr & Hp0 & Hpd).
  destruct (lk_new _ _ _ _ _ _ _ Hl) as (N1 & _ & N3 & _ & N5).
  pose proof (λ x Hx, child_not_new dir l x Hch Hx) as Hx. destruct Hch as [H1 H2 H3 H4 H5].
  assert (Hin' : ∀ x, in_tar t x → in_tar t' x) by (intros x ?; apply (lk_in _ _ _ _ _ _ _ Hl); by right).
  assert (Hpin : in_tar t' p) by (apply (lk_in _ _ _ _ _ _ _ Hl); by left).
  assert (Hcase : ∀ x, x ∈ l ++ [p] → x ∈ l ∨ x = p)
    by (intros x [?|?%list_elem_of_singleton]%elem_of_app; auto).
  split.
  - rewrite (lk_first _ _ _ _ _ _ _ Hl) by done. destruct l as [|y l0] eqn:El.
    + rewrite decide_True by done. simpl. done.
    + rewrite decide_False by naive_solver. rewrite <- El in *.
      apply (chain_snoc t); try done; [|by rewrite El].
      intros x Hin. destruct (Hx x Hin) as [Hxp _]. by apply (lk_next _ _ _ _ _ _ _ Hl).
  - apply NoDup_app. split; [done|]. split; [|apply NoDup_singleton].
    intros x Hin ->%list_elem_of_singleton. by destruct (Hx p Hin).
  - intros x [Hin| ->]%Hcase; [|done]. destruct (Hx x Hin) as [Hxp _].
    destruct (lk_old _ _ _ _ _ _ _ Hl x Hxp) as (_ & _ & -> & _). by apply H3.
  - intros x [Hin| ->]%Hcase; [|by rewrite N1]. destruct (Hx x Hin) as [Hxp _].
    destruct (lk_old _ _ _ _ _ _ _ Hl x Hxp) as (-> & _). by apply H4.
  - intros x y [Hin| ->]%Hcase [Hiny| ->]%Hcase; [| | |done];
      rewrite ?N1; try (destruct (Hx x Hin) as [Hxp _]; destruct (lk_old _ _ _ _ _ _ _ Hl x Hxp) as (-> & _));
      try (destruct (Hx y Hiny) as [Hyp _]; destruct (lk_old _ _ _ _ _ _ _ Hl y Hyp) as (-> & _)).
    + by apply H5.
    + intros He. by destruct (Hnew x Hin).
    + intros He. by destruct (Hnew y Hiny).
Qed.

Lemma linked_children_new : dir_children t' p [].
Proof.
  destruct (lk_new _ _ _ _ _ _ _ Hl) as (_ & _ & _ & N4 & _). split.
  - exact N4.
  - constructor.
  - intros x Hx. by apply not_elem_of_nil in Hx.
  - intros x Hx. by apply not_elem_of_nil in Hx.
  - intros x y Hx. by apply not_elem_of_nil in Hx.
Qed.
End linking.

(** The heap cannot give a block of 256 bytes. *)
Definition no_room (h : kheap) : Prop := large_ptr h < small_ptr h + 256.

Lemma kmalloc_refuses h size : heap_wf h → 0 < size ≤ 256 → fst (kmalloc size h) = 0 → no_room h.
Proof.
  intros Hwf Hs. pose proof Hwf as [[Hb0 _] Hord Hend _ _ (os & Ht & _) _].
  pose proof (heap_top_le h). pose proof (chain_le _ _ _ _ (tl_chain _ _ _ _ Ht)).
  unfold kmalloc. rewrite (proj2 (Z.eqb_neq (heap_base h) 0)), (proj2 (Z.eqb_neq (heap_end h) 0)),
    (proj2 (Z.eqb_neq size 0)) by lia. cbn [orb]. rewrite (proj2 (Z.leb_le _ _)) by (unfold KMALLOC_SMALL_MAX; lia). cbv zeta.
  destruct (small_round size Hs) as [Ha Ham]. rewrite add32_small by (unfold two32 in *; lia).
  destruct (Z.ltb_spec (large_ptr h) (small_ptr h + Z.land (add32 size 7) (not32 7))) as [Hlt|]; [|cbn; lia]. intros _.
  unfold no_room. pose proof (Z.div_mod (Z.land (add32 size 7) (not32 7)) 8 ltac:(lia)). lia.
Qed.

Lemma kmalloc_bump h size p h' :
  heap_wf h → 0 < size ≤ 256 → kmalloc size h = (p, h') →
  heap_wf h' ∧ small_ptr h ≤ small_ptr h' ∧
  (p ≠ 0 → 0 < p ∧ small_ptr h ≤ p ∧ p + size ≤ small_ptr h') ∧ (p = 0 → no_room h').
Proof.
  intros Hwf Hs E. pose proof (kmalloc_cases h size Hwf ltac:(unfold two32; lia)) as Hk. pose proof (kmalloc_refuses h size Hwf Hs) as Hr.
  rewrite E in Hk, Hr. destruct Hk as [Hwf' [[-> ->]|[H1 _ H3 H4 _ _ H7]]]; [split_and!; try done; by intros; apply Hr|].
  rewrite decide_True in H7 by lia. pose proof (hw_base h Hwf). split; [done|]. split_and!; [lia|lia|by intros ->].
Qed.

(** The heap and the nodes stay apart. *)
Lemma linked_wf t t' dir p l nm ty :
  linked t t' dir p l nm ty → tar_wf t → in_tar t dir → dir_children t dir l → no_nul nm →
  (∀ x, x ∈ l → tn_name (node_at t x) ≠ nm) → heap_wf (tar_heap t') →
  small_ptr (tar_heap t) ≤ small_ptr (tar_heap t') → 0 < p → p + TARFS_NODE_SIZE ≤ small_ptr (tar_heap t') →
  tar_wf t'.
Proof.
  intros Hl Hwf Hd Hch Hnm Hnew Hh Hsp Hp Hps. split; [done| |].
  - intros a [->|Ha]%(lk_in _ _ _ _ _ _ _ Hl); [done|]. pose proof (tw_addr t Hwf a Ha). lia.
  - intros d Hin. apply (lk_in _ _ _ _ _ _ _ Hl) in Hin as [->|Hin].
    + exists []. by eapply linked_children_new.
    + destruct (decide (d = dir)) as [->|Hne].
      * exists (l ++ [p]). by eapply linked_children_dir.
      * destruct (tw_dirs t Hwf d Hin) as (l' & Hl'). exists l'. by eapply linked_children_other.
Qed.

(** A new child: allocated and linked. *)
Lemma create_child t h dir p nm ty l :
  tar_wf t → in_tar t dir → dir_children t dir l → tn_type (node_at t dir) = VFS_NODE_DIR →
  ¬ in_tar t p → p ≠ 0 →
  let t1 := TarFs h (<[p := TarNode nm ty 0 0 0 0 0]> (tar_nodes t)) in
  let '(r, t') := tarfs_link_child dir p t1 in
  r = Ok tt ∧ tar_heap t' = h ∧ linked t t' dir p l nm ty.
Proof.
  intros Hwf Hd Hch Hty Hfr Hp0 t1. pose proof (tw_addr t Hwf dir Hd) as Hda.
  assert (Hpd : p ≠ dir) by (by intros ->).
  assert (Hn1 : ∀ a, node_at t1 a = if decide (p = a) then TarNode nm ty 0 0 0 0 0 else node_at t a).
  { intros a. apply (node_at_set p a _ (TarFs h (tar_nodes t))). }
  unfold tarfs_link_child. rewrite !(proj2 (Z.eqb_neq _ 0)) by lia. cbn [orb].
  rewrite Hn1, decide_False by done. rewrite Hty, (bool_decide_eq_true_2 (VFS_NODE_DIR = VFS_NODE_DIR)) by done. cbn [negb].
  set (np := tn_set_parent (node_at t1 p) dir). set (t2 := set_node p np t1). cbv zeta.
  assert (Hnp : np = TarNode nm ty dir 0 0 0 0).
  { unfold np. rewrite Hn1. by rewrite decide_True. }
  assert (Hn2 : ∀ a, node_at t2 a = if decide (p = a) then TarNode nm ty dir 0 0 0 0 else node_at t a).
  { intros a. unfold t2. rewrite node_at_set, Hn1, Hnp. by repeat case_decide. }
  assert (Hin2 : ∀ a, in_tar t2 a ↔ a = p ∨ in_tar t a).
  { intros a. unfold in_tar, t2, t1, set_node. simpl. destruct (decide (p = a)) as [->|Hne].
    - rewrite lookup_insert_eq. split; [by left|by eauto].
    - rewrite !lookup_insert_ne by done. split; [by right|]. by intros [->|]. }
  destruct Hch as [Hc Hnd Hpar Hnn Hdis]. rewrite Hn2, decide_False by done.
  destruct (Z.eqb_spec (tn_first_child (node_at t dir)) 0) as [E|E].
  - assert (El : l = []) by (destruct l as [|y l0]; [done|destruct Hc as (Hy & Hy0 & _); congruence]). subst l.
    split; [done|]. split; [done|]. set (t3 := set_node dir _ t2).
    assert (Hn3 : ∀ a, node_at t3 a = if decide (p = a) then TarNode nm ty dir 0 0 0 0
                                      else if decide (a = dir) then tn_set_first (node_at t dir) p else node_at t a).
    { intros a. unfold t3. rewrite node_at_set, Hn2. repeat case_decide; congruence. }
    assert (Hind : in_tar t2 dir) by (apply Hin2; by right).
    split.
    + intros a. unfold t3. by rewrite in_tar_set.
    + done.
    + rewrite Hn3, decide_True by done. done.
    + rewrite Hn3, decide_True by done. done.
    + intros a Hap. rewrite Hn3, decide_False by done. case_decide; by subst.
    + intros a Hap. rewrite Hn3, decide_False by done. repeat case_decide; subst; naive_solver.
    + intros a Hap. rewrite Hn3, decide_False by done. case_decide; by subst.
  - assert (Hne : l ≠ []) by (by intros ->).
    set (last_ := last_sibling (tar_fuel t2) (tn_first_child (node_at t dir)) t2).
    assert (Hc2 : tar_chain t2 (tn_first_child (node_at t dir)) l).
    { apply (tar_chain_ext t); [|intros x Hx; apply Hin2; by right|done].
      intros x Hx. rewrite Hn2, decide_False; [done|]. intros <-. destruct (chain_in _ _ _ p Hc Hx). done. }
    assert (Hlast : last l = Some last_).
    { apply last_sibling_spec; [done|done|]. pose proof (chain_length _ _ _ Hnd Hc2). lia. }
    assert (Hll : last_ ∈ l) by (apply last_Some in Hlast as (l0 & ->); apply elem_of_app; right; by left).
    destruct (chain_in _ _ _ last_ Hc Hll) as [Hlin Hl0].
    assert (Hlp : last_ ≠ p) by (by intros ->).
    split; [done|]. split; [done|]. set (t3 := set_node last_ _ t2).
    assert (Hn3 : ∀ a, node_at t3 a = if decide (p = a) then TarNode nm ty dir 0 0 0 0
                                      else if decide (a = last_) then tn_set_next (node_at t last_) p else node_at t a).
    { intros a. unfold t3. rewrite node_at_set, !Hn2. repeat case_decide; congruence. }
    split.
    + intros a. unfold t3. rewrite in_tar_set; [done|]. apply Hin2. by right.
    + done.
    + rewrite Hn3, decide_True by done. done.
    + rewrite Hn3, decide_True by done. done.
    + intros a Hap. rewrite Hn3, decide_False by done. case_decide; by subst.
    + intros a Hap. rewrite Hn3, decide_False by done. repeat case_decide; subst; naive_solver.
    + intros a Hap. rewrite Hn3, decide_False by done. rewrite Hlast. repeat case_decide; subst; naive_solver.
Qed.

(** * Looking children up after an addition *)

(** The child of [d] named [w]; 0 if there is none. *)
Definition tar_child t (d : Z) (w : list Z) : Z := tarfs_find_child d w (alen w) t.

Lemma find_child_prefix d name len t :
  0 ≤ len ≤ alen name → tarfs_find_child d name len t = tar_child t d (take (Z.to_nat len) name).
Proof.
  intros Hl. unfold tar_child, tarfs_find_child. destruct (_ || _); [done|].
  assert (Ht : alen (take (Z.to_nat len) name) = len) by (unfold alen in *; rewrite length_take; lia).
  rewrite Ht. generalize (tn_first_child (node_at t d)). induction (tar_fuel t) as [|n IH]; intros a; [done|].
  cbn [find_sibling]. unfold tarfs_name_eq. rewrite (name_eq_prefix _ name len Hl).
  destruct (a =? 0); [done|]. destruct (name_eq _ _ _); [done|]. apply IH.
Qed.

Section child.
Variable t : tarfs.
Hypothesis Hwf : tar_wf t.

Lemma tar_child_in d l w :
  in_tar t d → dir_children t d l → tar_child t d w ≠ 0 →
  tar_child t d w ∈ l ∧ tn_name (node_at t (tar_child t d w)) = w ∧ tn_type (node_at t d) = VFS_NODE_DIR.
Proof.
  intros Hd Hc Hne. pose proof (alen_nonneg w).
  destruct (find_child_in t Hwf d l w (alen w) Hd Hc ltac:(lia)) as [H1 _].
  destruct (H1 Hne) as (? & Hn & ?). split_and!; try done. unfold tar_child at 1. rewrite Hn.
  unfold alen. by rewrite Nat2Z.id, firstn_all.
Qed.

Lemma tar_child_eq d l w x :
  in_tar t d → dir_children t d l → tn_type (node_at t d) = VFS_NODE_DIR →
  x ∈ l → tn_name (node_at t x) = w → tar_child t d w = x.
Proof.
  intros Hd Hc Hty Hx Hn. pose proof (alen_nonneg w).
  destruct (find_child_in t Hwf d l w (alen w) Hd Hc ltac:(lia)) as [_ H2]. apply H2; [done| |done].
  rewrite Hn. unfold alen. by rewrite Nat2Z.id, firstn_all.
Qed.

(** A node found is a node, its parent the directory. *)
Lemma tar_child_node d w :
  in_tar t d → tar_child t d w ≠ 0 → in_tar t (tar_child t d w) ∧ tn_parent (node_at t (tar_child t d w)) = d.
Proof.
  intros Hd Hne. destruct (tw_dirs t Hwf d Hd) as (l & Hl).
  destruct (tar_child_in d l w Hd Hl Hne) as (Hin & _).
  split; [by eapply chain_in; [apply Hl|]|by apply (dc_parent _ _ _ Hl)].
Qed.
End child.

Lemma tar_child_ext t t' d l l' w :
  tar_wf t → tar_wf t' → in_tar t d → in_tar t' d → dir_children t d l → dir_children t' d l' →
  tn_type (node_at t' d) = tn_type (node_at t d) →
  (∀ x, x ∈ l → x ∈ l' ∧ tn_name (node_at t' x) = tn_name (node_at t x)) →
  (∀ x, x ∈ l' → tn_name (node_at t' x) = w → x ∈ l) →
  tar_child t' d w = tar_child t d w.
Proof.
  intros Hwf Hwf' Hd Hd' Hc Hc' Hty Hsub Hsup.
  destruct (decide (tar_child t d w = 0)) as [E|E].
  - rewrite E. destruct (decide (tar_child t' d w = 0)) as [|E']; [done|exfalso].
    destruct (tar_child_in t' Hwf' d l' w Hd' Hc' E') as (Hin & Hn & Ht).
    pose proof (Hsup _ Hin Hn) as Hl. destruct (Hsub _ Hl) as [_ Hnn].
    assert (Heq : tar_child t d w = tar_child t' d w)
      by (apply (tar_child_eq t Hwf d l); [done|done|by rewrite <- Hty|done|by rewrite <- Hnn]).
    congruence.
  - destruct (tar_child_in t Hwf d l w Hd Hc E) as (Hin & Hn & Ht). destruct (Hsub _ Hin) as [Hl Hnn].
    apply (tar_child_eq t' Hwf' d l'); [done|done|by rewrite Hty|done|by rewrite Hnn].
Qed.

(** What adding the child [w] of [dir] does, whether it was there or not. *)
Record child_step t t' (dir : Z) (w : list Z) (ty : vfs_node_type) (c : Z) : Prop := {
  cs_wf : tar_wf t';
  cs_in : in_tar t' c;
  cs_type : tn_type (node_at t' c) = ty;
  cs_find : tar_child t' dir w = c;
  cs_kept a : in_tar t a → in_tar t' a ∧ tn_type (node_at t' a) = tn_type (node_at t a) ∧
              tn_parent (node_at t' a) = tn_parent (node_at t a) ∧
              tn_file_data (node_at t' a) = tn_file_data (node_at t a) ∧
              tn_file_size (node_at t' a) = tn_file_size (node_at t a);
  cs_other d v : in_tar t d → d ≠ dir ∨ v ≠ w → tar_child t' d v = tar_child t d v;
  cs_found : tar_child t dir w ≠ 0 → t' = t;
  cs_new : tar_child t dir w = 0 → ¬ in_tar t c;
  cs_dom a : in_tar t' a → in_tar t a ∨ ∀ v, tar_child t' a v = 0;
  cs_zero a : in_tar t' a → in_tar t a ∨ tn_file_data (node_at t' a) = 0 ∧ tn_file_size (node_at t' a) = 0
}.

Lemma linked_step t t' dir p l w ty :
  linked t t' dir p l w ty → tar_wf t → tar_wf t' → in_tar t dir → dir_children t dir l → no_nul w →
  (∀ x, x ∈ l → tn_name (node_at t x) ≠ w) → tn_type (node_at t dir) = VFS_NODE_DIR →
  child_step t t' dir w ty p.
Proof.
  intros Hl Hwf Hwf' Hd Hch Hnn Hnew Hty.
  destruct (lk_fresh _ _ _ _ _ _ _ Hl) as (Hfr & Hp0 & Hpd).
  destruct (lk_new _ _ _ _ _ _ _ Hl) as (N1 & N2 & _ & _ & _).
  assert (Hin' : ∀ a, in_tar t a → in_tar t' a ∧ a ≠ p).
  { intros a Ha. split; [apply (lk_in _ _ _ _ _ _ _ Hl); by right|by intros ->]. }
  assert (Hpin : in_tar t' p) by (apply (lk_in _ _ _ _ _ _ _ Hl); by left).
  pose proof (linked_children_dir t t' dir p l w ty Hl Hch Hnn Hnew) as Hch'.
  assert (Hty' : tn_type (node_at t' dir) = VFS_NODE_DIR).
  { destruct (lk_old _ _ _ _ _ _ _ Hl dir ltac:(done)) as (_ & -> & _). done. }
  assert (Hfind : tar_child t' dir w = p).
  { apply (tar_child_eq t' Hwf' dir (l ++ [p])); [by apply Hin'|done|done| |done]. apply elem_of_app. right. by left. }
  split; try done.
  - intros a Ha. destruct (Hin' a Ha) as [? Hap]. destruct (lk_old _ _ _ _ _ _ _ Hl a Hap) as (_ & ? & ? & ? & ?). done.
  - intros d v Hdin Hor. destruct (Hin' d Hdin) as [Hdin' Hdp].
    destruct (lk_old _ _ _ _ _ _ _ Hl d Hdp) as (_ & Htd & _).
    assert (Hold : ∀ l', dir_children t d l' → ∀ x, x ∈ l' → tn_name (node_at t' x) = tn_name (node_at t x)).
    { intros l' Hl' x Hx. destruct (child_not_new t t' dir p l w ty Hl d l' x Hl' Hx) as [Hxp _].
      by destruct (lk_old _ _ _ _ _ _ _ Hl x Hxp) as (? & _). }
    destruct (decide (d = dir)) as [->|Hne].
    + destruct Hor as [|Hv]; [done|].
      apply (tar_child_ext t t' dir l (l ++ [p])); try done.
      * intros x Hx. split; [apply elem_of_app; by left|by apply (Hold l)].
      * intros x [Hx| ->%list_elem_of_singleton]%elem_of_app Hn; [done|congruence].
    + destruct (tw_dirs t Hwf d Hdin) as (l' & Hl').
      apply (tar_child_ext t t' d l' l'); try done.
      * by eapply linked_children_other.
      * intros x Hx. split; [done|by apply (Hold l')].
  - intros Hne. destruct (tar_child_in t Hwf dir l w Hd Hch Hne) as (Hin & Hn & _). by destruct (Hnew _ Hin).
  - intros a [->|Ha]%(lk_in _ _ _ _ _ _ _ Hl); [right|by left]. intros v.
    destruct (decide (tar_child t' p v = 0)) as [|E]; [done|exfalso].
    destruct (tar_child_in t' Hwf' p [] v Hpin (linked_children_new t t' dir p l w ty Hl) E) as (Hin & _).
    by apply not_elem_of_nil in Hin.
  - intros a [->|Ha]%(lk_in _ _ _ _ _ _ _ Hl); [right; apply (lk_zero _ _ _ _ _ _ _ Hl)|by left].
Qed.

Lemma found_step t dir w c ty :
  tar_wf t → in_tar t dir → tar_child t dir w = c → c ≠ 0 → tn_type (node_at t c) = ty →
  child_step t t dir w ty c.
Proof.
  intros Hwf Hd Hc Hne Hty. split; try done.
  - rewrite <- Hc in *. by apply (tar_child_node t Hwf dir w).
  - intros Hz. congruence.
  - intros a Ha. by left.
  - intros a Ha. by left.
Qed.

(** The nodes stay, the heap may have moved on. *)
Record heap_only t t' : Prop := HeapOnly {
  ho_nodes : tar_nodes t' = tar_nodes t;
  ho_wf : heap_wf (tar_heap t');
  ho_small : small_ptr (tar_heap t) ≤ small_ptr (tar_heap t')
}.

(** A change of the heap alone keeps everything. *)
Lemma heap_only_wf t h :
  tar_wf t → heap_wf h → small_ptr (tar_heap t) ≤ small_ptr h → tar_wf (TarFs h (tar_nodes t)).
Proof.
  intros [H1 H2 H3] Hh Hs. split; [done| |].
  - intros a Ha. specialize (H2 a Ha). simpl. lia.
  - intros d Hd. destruct (H3 d Hd) as (l & [C1 C2 C3 C4 C5]). exists l. split; try done.
    apply (tar_chain_ext t); [|by intros x|done]. by intros x.
Qed.

Lemma get_or_create_cases t dir name len ty :
  tar_wf t → in_tar t dir → 0 < len ≤ 255 → len ≤ alen name → plain (take (Z.to_nat len) name) →
  tn_type (node_at t dir) = VFS_NODE_DIR → ty = VFS_NODE_DIR ∨ ty = VFS_NODE_FILE →
  let w := take (Z.to_nat len) name in
  match tarfs_get_or_create_child dir name len ty t with
  | (Ok c, t') => child_step t t' dir w ty c
  | (Err e, t') =>
      (e = KERR_INVAL ∧ t' = t ∧ tar_child t dir w ≠ 0 ∧ tn_type (node_at t (tar_child t dir w)) ≠ ty) ∨
      (e = KERR_NOMEM ∧ no_room (tar_heap t') ∧ heap_only t t')
  end.
Proof.
  intros Hwf Hd Hlen Hla Hp Hty Hkind w.
  pose proof (tw_addr t Hwf dir Hd) as Hda.
  unfold tarfs_get_or_create_child. rewrite !(proj2 (Z.eqb_neq _ 0)) by lia. cbn [orb].
  rewrite find_child_prefix by lia. fold w. set (c := tar_child t dir w).
  destruct (Z.eqb_spec c 0) as [E|E]; cbn [negb].
  2: { destruct (_ || _) eqn:Et.
       - apply (found_step t dir w c); try done.
         apply orb_true_iff in Et as [[H1 H2]%andb_true_iff|[H1 H2]%andb_true_iff];
           apply bool_decide_eq_true in H1, H2; congruence.
       - left. split_and!; try done. intros Heq. apply orb_false_iff in Et as [Et1 Et2].
         rewrite Heq in Et1, Et2. destruct Hkind as [-> | ->]; [rewrite bool_decide_eq_true_2 in Et1 by done; done
           |rewrite bool_decide_eq_true_2 in Et2 by done; done]. }
  unfold tarfs_dup_name. destruct (kmalloc (add32 len 1) (tar_heap t)) as [copy h1] eqn:E1.
  assert (Hadd : add32 len 1 = len + 1) by (unfold add32, u32, two32; apply Z.mod_small; lia). rewrite Hadd in E1.
  destruct (kmalloc_bump _ (len + 1) _ _ (tw_heap t Hwf) ltac:(lia) E1) as (Hh1 & Hs1 & _ & Hno1).
  destruct (Z.eqb_spec copy 0) as [Ec|Ec]; [right; split_and!; [done|by apply Hno1|done]|]. unfold tarfs_alloc_node. cbn [tar_heap tar_nodes].
  destruct (kmalloc TARFS_NODE_SIZE h1) as [p h2] eqn:E2.
  destruct (kmalloc_bump _ TARFS_NODE_SIZE _ _ Hh1 ltac:(unfold TARFS_NODE_SIZE; lia) E2) as (Hh2 & Hs2 & Hp2 & Hno2).
  destruct (Z.eqb_spec p 0) as [Ep|Ep]; [right; split_and!; [done|by apply Hno2|split; [done|done|cbn; lia]]|]. rewrite (proj2 (Z.eqb_neq p 0)) by done. destruct (Hp2 Ep) as (Hp0 & Hps & Hpe).
  assert (Hfr : ¬ in_tar t p) by (intros Hin; pose proof (tw_addr t Hwf p Hin); unfold TARFS_NODE_SIZE in *; lia).
  destruct (tw_dirs t Hwf dir Hd) as (l & Hch).
  pose proof (create_child t h2 dir p w ty l Hwf Hd Hch Hty Hfr Ep) as Hcr. cbv zeta in Hcr. fold w.
  destruct (tarfs_link_child dir p _) as [r t']. destruct Hcr as (-> & Hheap & Hl).
  assert (Hnew : ∀ x, x ∈ l → tn_name (node_at t x) ≠ w).
  { intros x Hx Hn. pose proof (tar_child_eq t Hwf dir l w x Hd Hch Hty Hx Hn) as Hx0. fold c in Hx0.
    destruct (chain_in _ _ _ x (dc_chain _ _ _ Hch) Hx). congruence. }
  pose proof (plain_no_nul _ Hp) as Hnn.
  apply (linked_step t t' dir p l w ty Hl Hwf); try done.
  eapply linked_wf; try done; rewrite Hheap; [done|lia|done].
Qed.

(** * Adding an entry *)

(** From the node [a] down the names [ws]; 0 if there is nothing. *)
Fixpoint tar_find t (a : Z) (ws : list (list Z)) : Z :=
  match ws with
  | [] => a
  | w :: ws' => let c := tar_child t a w in if c =? 0 then 0 else tar_find t c ws'
  end.

(** [t'] has the nodes of [t], with the same types and contents, and below
    [dir] nothing new except along the path [ws]. *)
Record extends t t' (dir : Z) (ws : list (list Z)) : Prop := {
  ex_wf : tar_wf t';
  ex_kept a : in_tar t a → in_tar t' a ∧ tn_type (node_at t' a) = tn_type (node_at t a) ∧
              tn_parent (node_at t' a) = tn_parent (node_at t a) ∧
              tn_file_data (node_at t' a) = tn_file_data (node_at t a) ∧
              tn_file_size (node_at t' a) = tn_file_size (node_at t a);
  ex_child d w : in_tar t d → tar_child t d w ≠ 0 → tar_child t' d w = tar_child t d w;
  ex_new d w : in_tar t' d → tar_child t' d w ≠ 0 →
    (in_tar t d ∧ tar_child t d w = tar_child t' d w) ∨
    (∃ pre post, ws = pre ++ w :: post ∧ tar_find t' dir pre = d) ∧ ¬ in_tar t (tar_child t' d w);
  ex_zero a : in_tar t' a → in_tar t a ∨ tn_file_data (node_at t' a) = 0 ∧ tn_file_size (node_at t' a) = 0
}.

Lemma tar_find_app t a ws ws' :
  tar_find t a ws ≠ 0 → tar_find t a (ws ++ ws') = tar_find t (tar_find t a ws) ws'.
Proof.
  revert a. induction ws as [|w ws IH]; intros a Hne; [done|]. cbn [tar_find app] in *. cbv zeta in *.
  destruct (_ =? 0); [done|]. by apply IH.
Qed.

Lemma tar_find_in t a ws : tar_wf t → in_tar t a → tar_find t a ws ≠ 0 → in_tar t (tar_find t a ws).
Proof.
  intros Hwf. revert a. induction ws as [|w ws IH]; intros a Ha Hne; [done|]. cbn [tar_find] in *. cbv zeta in *.
  destruct (Z.eqb_spec (tar_child t a w) 0) as [|E]; [done|]. apply IH; [|done].
  by apply (tar_child_node t Hwf a w Ha).
Qed.

Lemma extends_find t t' dir ws a vs :
  tar_wf t → extends t t' dir ws → in_tar t a → tar_find t a vs ≠ 0 → tar_find t' a vs = tar_find t a vs.
Proof.
  intros Hwf Hex. revert a. induction vs as [|v vs IH]; intros a Ha Hne; [done|]. cbn [tar_find] in *. cbv zeta in *.
  destruct (Z.eqb_spec (tar_child t a v) 0) as [|E]; [done|].
  rewrite (ex_child _ _ _ _ Hex a v Ha E). rewrite (proj2 (Z.eqb_neq _ 0)) by done.
  apply IH; [|done]. by apply (tar_child_node t Hwf a v Ha).
Qed.

Lemma step_extends t t' dir w ty c ws :
  tar_wf t → in_tar t dir → child_step t t' dir w ty c → extends t t' dir (w :: ws).
Proof.
  intros Hwf Hd Hs. assert (Hdec : ∀ d v, (d ≠ dir ∨ v ≠ w) ∨ (d = dir ∧ v = w)).
  { intros d v. destruct (decide (d = dir)), (decide (v = w)); auto. }
  split.
  - apply (cs_wf _ _ _ _ _ _ Hs).
  - apply (cs_kept _ _ _ _ _ _ Hs).
  - intros d v Hdd Hne. destruct (Hdec d v) as [Hor|[-> ->]]; [by apply (cs_other _ _ _ _ _ _ Hs)|].
    by rewrite (cs_found _ _ _ _ _ _ Hs Hne).
  - intros d v Hdd Hne. destruct (cs_dom _ _ _ _ _ _ Hs d Hdd) as [Hdt|Hz]; [|by rewrite Hz in Hne].
    destruct (Hdec d v) as [Hor|[-> ->]]; [left; split; [done|]; symmetry; by apply (cs_other _ _ _ _ _ _ Hs)|].
    destruct (decide (tar_child t dir w = 0)) as [Ez|Ez].
    + right. split; [by exists [], ws|]. rewrite (cs_find _ _ _ _ _ _ Hs). by apply (cs_new _ _ _ _ _ _ Hs).
    + left. split; [done|]. by rewrite (cs_found _ _ _ _ _ _ Hs Ez).
  - apply (cs_zero _ _ _ _ _ _ Hs).
Qed.

Lemma extends_trans t t1 t2 dir c w ws :
  in_tar t dir → extends t t1 dir (w :: ws) → in_tar t1 c → tar_child t1 dir w = c →
  extends t1 t2 c ws → extends t t2 dir (w :: ws).
Proof.
  intros Hd H1 Hc Hdc H2. destruct (ex_kept _ _ _ _ H1 dir Hd) as (Hd1 & _).
  assert (Hc0 : c ≠ 0) by (pose proof (tw_addr t1 (ex_wf _ _ _ _ H1) c Hc); lia).
  split.
  - apply (ex_wf _ _ _ _ H2).
  - intros a Ha. destruct (ex_kept _ _ _ _ H1 a Ha) as (Ha1 & T1 & P1 & D1 & S1).
    destruct (ex_kept _ _ _ _ H2 a Ha1) as (Ha2 & T2 & P2 & D2 & S2). split; [done|]. by rewrite T2, P2, D2, S2.
  - intros d v Hdd Hne. destruct (ex_kept _ _ _ _ H1 d Hdd) as (Hdd1 & _).
    pose proof (ex_child _ _ _ _ H1 d v Hdd Hne) as E1. rewrite (ex_child _ _ _ _ H2 d v Hdd1); [done|congruence].
  - intros d v Hdd Hne. destruct (ex_new _ _ _ _ H2 d v Hdd Hne) as [[Hdd1 E1]|[(pre & post & -> & Hf) Hfr]].
    + rewrite <- E1 in *. destruct (ex_new _ _ _ _ H1 d v Hdd1 Hne) as [[Hdt E0]|[(pre & post & Hp & Hf) Hfr]]; [by left|].
      right. split; [|done]. exists pre, post. split; [done|].
      rewrite (extends_find t1 t2 c ws) by (done || by apply (ex_wf _ _ _ _ H1) ||
        (rewrite Hf; pose proof (tw_addr t1 (ex_wf _ _ _ _ H1) d Hdd1); lia)). done.
    + right. split.
      * exists (w :: pre), post. split; [done|]. cbn [tar_find]. cbv zeta.
        rewrite (ex_child _ _ _ _ H2 dir w Hd1) by congruence. rewrite Hdc. by rewrite (proj2 (Z.eqb_neq c 0)).
      * intros Hin. apply Hfr. by apply (ex_kept _ _ _ _ H1).
  - intros a Ha. destruct (ex_zero _ _ _ _ H2 a Ha) as [Ha1|]; [|by right].
    destruct (ex_zero _ _ _ _ H1 a Ha1) as [|[Hz1 Hz2]]; [by left|right].
    destruct (ex_kept _ _ _ _ H2 a Ha1) as (_ & _ & _ & -> & ->). done.
Qed.

Lemma heap_only_child t t' d w : heap_only t t' → tar_child t' d w = tar_child t d w.
Proof.
  intros [Hn _ _]. assert (Hna : ∀ a, node_at t' a = node_at t a) by (intros a; unfold node_at; by rewrite Hn).
  unfold tar_child, tarfs_find_child. rewrite Hna. destruct (_ || _); [done|]. unfold tar_fuel. rewrite Hn.
  generalize (tn_first_child (node_at t d)). induction (S (size (tar_nodes t))) as [|n IH]; intros a; [done|].
  cbn [find_sibling]. rewrite Hna. destruct (a =? 0); [done|]. destruct (tarfs_name_eq _ _ _); [done|]. apply IH.
Qed.

Lemma extends_heap t t' dir ws : tar_wf t → heap_only t t' → extends t t' dir ws.
Proof.
  intros Hwf Hh. pose proof (λ d w, heap_only_child t t' d w Hh) as Hc. destruct Hh as [Hn Hw Hs].
  assert (Ht' : t' = TarFs (tar_heap t') (tar_nodes t)) by (destruct t'; cbn in *; by rewrite Hn).
  assert (Hin : ∀ a, in_tar t' a ↔ in_tar t a) by (intros a; unfold in_tar; by rewrite Hn).
  assert (Hna : ∀ a, node_at t' a = node_at t a) by (intros a; unfold node_at; by rewrite Hn).
  split.
  - rewrite Ht'. by apply heap_only_wf.
  - intros a. rewrite Hna. by intros ?%Hin.
  - intros. apply Hc.
  - intros d w Hd%Hin _. left. by rewrite Hc.
  - intros a Ha%Hin. by left.
Qed.

Lemma extends_refl t dir ws : tar_wf t → extends t t dir ws.
Proof. intros Hwf. apply extends_heap; [done|]. by split; [|apply Hwf|]. Qed.

(** On the way [ws] from [dir], a node of the wrong kind: only the last component
    of a file's path is a file. *)
Definition blocked t (dir : Z) (ws : list (list Z)) (is_dir : bool) : Prop :=
  ∃ pre w post, ws = pre ++ w :: post ∧ tar_find t dir (pre ++ [w]) ≠ 0 ∧
    tn_type (node_at t (tar_find t dir (pre ++ [w]))) ≠ (if bool_decide (post = []) && negb is_dir then VFS_NODE_FILE else VFS_NODE_DIR).

Lemma blocked_here t dir w ws is_dir :
  tar_child t dir w ≠ 0 →
  tn_type (node_at t (tar_child t dir w)) ≠ (if bool_decide (ws = []) && negb is_dir then VFS_NODE_FILE else VFS_NODE_DIR) →
  blocked t dir (w :: ws) is_dir.
Proof.
  intros H1 H2. exists [], w, ws. cbn [app tar_find]. cbv zeta. rewrite (proj2 (Z.eqb_neq _ 0)) by done. done.
Qed.

Lemma blocked_below t t' dir w ty ws is_dir c :
  tar_wf t → in_tar t dir → child_step t t' dir w ty c → blocked t' c ws is_dir → blocked t dir (w :: ws) is_dir.
Proof.
  intros Hwf Hd Hs (pre & v & post & -> & Hf & Hb). destruct (decide (tar_child t dir w = 0)) as [E|E].
  - destruct (cs_dom _ _ _ _ _ _ Hs c (cs_in _ _ _ _ _ _ Hs)) as [Hc|Hz]; [by apply (cs_new _ _ _ _ _ _ Hs) in Hc|].
    exfalso. apply Hf. destruct pre as [|u pre]; cbn [app tar_find]; cbv zeta; by rewrite Hz.
  - pose proof (cs_found _ _ _ _ _ _ Hs E) as ->. pose proof (cs_find _ _ _ _ _ _ Hs) as Hc.
    exists (w :: pre), v, post. cbn [app tar_find]. cbv zeta. rewrite (proj2 (Z.eqb_neq _ 0)) by done. by rewrite Hc.
Qed.

(** * The component loop *)

Lemma comp_length_spec p :
  no_nul p → ∃ w q, p = w ++ q ∧ plain w ∧ comp_length p = alen w ∧ (q = [] ∨ cget q 0 = SLASH).
Proof.
  intros Hp. induction Hp as [|c p Hc Hp IH].
  { exists [], []. split; [done|]. split; [constructor|]. split; [done|by left]. }
  cbn [comp_length]. destruct (Z.eqb_spec c SLASH) as [->|Hs].
  - exists [], (SLASH :: p). split; [done|]. split; [constructor|]. split; [done|by right].
  - destruct IH as (w & q & -> & Hw & -> & Hq). exists (c :: w), q.
    split; [done|]. split; [by constructor|]. split; [unfold alen; simpl; lia|done].
Qed.

Lemma skip_slashes_suffix p : ∃ k, p = k ++ skip_slashes p ∧ Forall (λ c, c = SLASH) k.
Proof.
  induction p as [|c p IH]; simpl; [by exists []|]. destruct (Z.eqb_spec c SLASH) as [->|].
  - destruct IH as (k & Hp & Hk). exists (SLASH :: k). split; [simpl; by rewrite <- Hp|by constructor].
  - by exists [].
Qed.

(** What follows a component of a path that does not end in a slash. *)
Lemma skip_rest w q :
  q ≠ [] → last (w ++ q) ≠ Some SLASH → no_nul q →
  skip_slashes q ≠ [] ∧ last (skip_slashes q) ≠ Some SLASH ∧ no_nul (skip_slashes q) ∧
  (length (skip_slashes q) ≤ length q)%nat.
Proof.
  intros Hq Hlast Hn. destruct (skip_slashes_suffix q) as (k & Hk & HF). set (r := skip_slashes q) in *.
  assert (Hr : r ≠ []).
  { intros E. rewrite E, app_nil_r in Hk. subst q. apply Hlast. rewrite last_app.
    destruct (last k) as [x|] eqn:El; [|by apply last_None in El].
    apply last_Some in El as (k' & ->). apply Forall_app in HF as [_ HF]. by apply Forall_singleton in HF as ->. }
  split; [done|]. rewrite Hk in Hlast, Hn. split; [|split].
  - intros E. apply Hlast. rewrite !last_app, E. done.
  - by apply no_nul_app in Hn as [_ ?].
  - apply (f_equal length) in Hk. rewrite length_app in Hk. lia.
Qed.

Lemma skip_no_slash q : cget (skip_slashes q) 0 ≠ SLASH.
Proof. induction q as [|c q IH]; cbn [skip_slashes]; [done|]. by destruct (Z.eqb_spec c SLASH). Qed.

Lemma components_some w q : q ≠ [] → no_nul q → last (w ++ q) ≠ Some SLASH → components q ≠ [].
Proof.
  intros Hq Hn Hlast. destruct (skip_rest w q Hq Hlast Hn) as (R1 & _ & R3 & _). rewrite <- components_skip.
  pose proof (skip_no_slash q) as Hs. destruct (comp_length_spec _ R3) as (v & r & E & Hv & _ & Hr). rewrite E in *.
  destruct v as [|c v].
  - destruct Hr as [->|Hr]; [done|]. by cbn [app] in Hs.
  - rewrite components_span; [done|done|done|]. destruct Hr as [->|?]; [by left|by right].
Qed.

Lemma entry_loop_cases fuel dir p is_dir t :
  (length p ≤ fuel)%nat → p ≠ [] → no_nul p → last p ≠ Some SLASH → alen p ≤ 255 →
  tar_wf t → in_tar t dir → tn_type (node_at t dir) = VFS_NODE_DIR →
  match entry_loop fuel dir p is_dir t with
  | (Ok nd, t') => extends t t' dir (components p) ∧ components p ≠ [] ∧ in_tar t' nd ∧
      tar_find t' dir (components p) = nd ∧
      tn_type (node_at t' nd) = (if is_dir then VFS_NODE_DIR else VFS_NODE_FILE)
  | (Err e, t') => extends t t' dir (components p) ∧
      ((e = KERR_INVAL ∧ (cget p 0 = SLASH ∨ blocked t dir (components p) is_dir)) ∨ (e = KERR_NOMEM ∧ no_room (tar_heap t')))
  end.
Proof.
  revert dir p t. induction fuel as [|fuel IH]; intros dir p t Hf Hp0 Hp Hlast Hlen Hwf Hd Hty; [by destruct p; [|simpl in Hf; lia]|].
  cbn [entry_loop]. cbv zeta. destruct (comp_length_spec p Hp) as (w & q & -> & Hw & -> & Hq).
  destruct (Z.eqb_spec (alen w) 0) as [Hw0|Hw0].
  { assert (w = []) as -> by (destruct w; [done|unfold alen in Hw0; simpl in Hw0; lia]). cbn [app] in *.
    destruct Hq as [->|Hq]; [done|]. split; [by apply extends_refl|]. left. split; [done|]. by left. }
  pose proof (alen_nonneg w).
  assert (Hwne : w ≠ []) by (by intros ->). rewrite alen_app in *. pose proof (alen_nonneg q).
  assert (Htk : take (Z.to_nat (alen w)) (w ++ q) = w) by (unfold alen; by rewrite Nat2Z.id, take_app_length).
  assert (Hcs : components (w ++ q) = w :: components q).
  { apply components_span; [done|done|]. destruct Hq as [->|Hq]; [by left|by right]. }
  set (ty := if (alen w =? alen w + alen q) && negb is_dir then VFS_NODE_FILE else VFS_NODE_DIR).
  pose proof (get_or_create_cases t dir (w ++ q) (alen w) ty Hwf Hd ltac:(lia)) as Hstep.
  rewrite Htk, alen_app in Hstep. specialize (Hstep ltac:(lia) Hw Hty ltac:(unfold ty; destruct (_ && _); auto)). cbv zeta in Hstep.
  assert (Hends : bool_decide (components q = []) = (alen w =? alen w + alen q)).
  { destruct q as [|x q]; [by rewrite Z.add_0_r, Z.eqb_refl|]. rewrite (proj2 (Z.eqb_neq _ _)) by (unfold alen; simpl; lia).
    apply bool_decide_eq_false_2. apply (components_some w); [done| |done]. by apply no_nul_app in Hp as [_ ?]. }
  destruct (tarfs_get_or_create_child dir (w ++ q) (alen w) ty t) as [[c|e] t1].
  2: { rewrite Hcs. destruct Hstep as [(-> & -> & Hc0 & Hct)|(-> & Hno & Hho)].
       - split; [by apply extends_refl|]. left. split; [done|]. right. apply blocked_here; [done|]. by rewrite Hends.
       - split; [by apply extends_heap|]. by right. }
  pose proof (step_extends t t1 dir w ty c (components q) Hwf Hd Hstep) as Hex. rewrite Hcs.
  pose proof Hstep as [Hwf1 Hcin Hcty Hcf _ _ _ _ _ _].
  destruct (Z.eqb_spec (alen w) (alen w + alen q)) as [Hz|Hz].
  - assert (q = []) by (destruct q; [done|unfold alen in *; simpl in *; lia]). subst q.
    split; [done|]. split; [done|]. split; [done|]. split.
    + cbn [tar_find components split_slash cstr filter list_filter]. cbv zeta. rewrite Hcf.
      rewrite (proj2 (Z.eqb_neq c 0)); [done|]. pose proof (tw_addr t1 Hwf1 c Hcin). lia.
    + rewrite Hcty. unfold ty. by destruct is_dir.
  - assert (Hqne : q ≠ []) by (intros ->; unfold alen in Hz; simpl in Hz; lia).
    assert (Hdrop : drop (Z.to_nat (alen w)) (w ++ q) = q) by (unfold alen; by rewrite Nat2Z.id, drop_app_length).
    rewrite Hdrop. assert (Htyd : ty = VFS_NODE_DIR) by done.
    rewrite Hcty, Htyd, (bool_decide_eq_true_2 (VFS_NODE_DIR = VFS_NODE_DIR)) by done. cbn [negb].
    apply no_nul_app in Hp as [_ Hqn].
    destruct (skip_rest w q Hqne Hlast Hqn) as (R1 & R2 & R3 & R4).
    assert (Hlr : alen (skip_slashes q) ≤ alen q) by (unfold alen; lia).
    rewrite length_app in Hf. specialize (IH c (skip_slashes q) t1).
    specialize (IH ltac:(destruct w; [done|simpl in *; lia]) R1 R3 R2 ltac:(lia) Hwf1 Hcin ltac:(congruence)).
    destruct (entry_loop fuel c (skip_slashes q) is_dir t1) as [[nd|e] t2]; rewrite components_skip in IH.
    2: { destruct IH as [Hex2 Herr]. split; [by eapply extends_trans|]. destruct Herr as [[-> [Hb|Hb]]|?]; [by destruct (skip_no_slash q)|left|by right].
         split; [done|]. right. by apply (blocked_below t t1 dir w ty (components q) is_dir c). }
    destruct IH as (Hex2 & _ & Hnd & Hfind & Hndty).
    split; [by eapply extends_trans|]. split; [done|]. split; [done|]. split; [|done].
    destruct (ex_kept _ _ _ _ Hex dir Hd) as (Hd1 & _).
    assert (Hc0 : c ≠ 0) by (pose proof (tw_addr t1 Hwf1 c Hcin); lia).
    cbn [tar_find]. cbv zeta. rewrite (ex_child _ _ _ _ Hex2 dir w Hd1) by congruence.
    rewrite Hcf. by rewrite (proj2 (Z.eqb_neq c 0)).
Qed.

(** Giving a file its contents changes no link. *)
Lemma set_file_wf t a data size :
  tar_wf t → in_tar t a →
  let t' := set_node a (tn_set_file (node_at t a) data size) t in
  tar_wf t' ∧ (∀ d w, in_tar t d → tar_child t' d w = tar_child t d w).
Proof.
  intros Hwf Ha t'. pose proof Hwf as [H1 H2 H3].
  assert (Hn : ∀ x, tn_name (node_at t' x) = tn_name (node_at t x) ∧ tn_type (node_at t' x) = tn_type (node_at t x) ∧
    tn_parent (node_at t' x) = tn_parent (node_at t x) ∧ tn_first_child (node_at t' x) = tn_first_child (node_at t x) ∧
    tn_next_sibling (node_at t' x) = tn_next_sibling (node_at t x)).
  { intros x. unfold t'. rewrite node_at_set. case_decide; by subst. }
  assert (Hin : ∀ x, in_tar t' x ↔ in_tar t x) by (intros x; by apply in_tar_set).
  assert (Hch : ∀ d l, dir_children t d l → dir_children t' d l).
  { intros d l [C1 C2 C3 C4 C5]. split; [|done| | |].
    - destruct (Hn d) as (_ & _ & _ & -> & _). apply (tar_chain_ext t); [|intros x; by apply Hin|done].
      intros x _. by destruct (Hn x) as (_ & _ & _ & _ & ->).
    - intros x Hx. destruct (Hn x) as (_ & _ & -> & _). by apply C3.
    - intros x Hx. destruct (Hn x) as (-> & _). by apply C4.
    - intros x y Hx Hy. destruct (Hn x) as (-> & _). destruct (Hn y) as (-> & _). by apply C5. }
  assert (Hwf' : tar_wf t').
  { split; [done|intros x Hx%Hin; by apply H2|]. intros d Hd%Hin. destruct (H3 d Hd) as (l & Hl). exists l. by apply Hch. }
  split; [done|]. intros d w Hd. destruct (H3 d Hd) as (l & Hl).
  apply (tar_child_ext t t' d l l); try done; [by apply Hin|by apply Hch|by destruct (Hn d) as (_ & ? & _)|].
  intros x Hx. split; [done|]. by destruct (Hn x).
Qed.

Lemma skip_dots_suffix p : ∃ k, p = k ++ skip_dots p.
Proof.
  assert (H : ∀ n p, (length p ≤ n)%nat → ∃ k, p = k ++ skip_dots p).
  { induction n as [|n IH]; intros [|a [|b q]] Hl; try (by exists []); simpl in Hl; [lia|].
    cbn [skip_dots]. destruct (_ && _); [|by exists []].
    destruct (IH q ltac:(lia)) as (k & Hk). exists (a :: b :: k). simpl. by rewrite <- Hk. }
  by apply (H (length p)).
Qed.

Lemma trim_tail_spec p n :
  (n ≤ length p)%nat → (trim_tail p n ≤ n)%nat ∧ last (take (trim_tail p n) p) ≠ Some SLASH.
Proof.
  induction n as [|n IH]; intros Hn; [by rewrite take_0|]. cbn [trim_tail].
  destruct (Z.eqb_spec (cget p (Z.of_nat n)) SLASH) as [E|E].
  - destruct (IH ltac:(lia)). split; [lia|done].
  - split; [done|]. pose proof (cget_lt p (Z.of_nat n) ltac:(unfold alen; lia)) as Hg. rewrite Nat2Z.id in Hg.
    rewrite (take_S_r p n _ Hg), last_snoc. congruence.
Qed.

Lemma clean_path_spec raw :
  no_nul raw →
  no_nul (clean_path raw) ∧ last (clean_path raw) ≠ Some SLASH ∧ alen (clean_path raw) ≤ alen raw.
Proof.
  intros Hn. unfold clean_path. destruct (skip_slashes_suffix raw) as (k1 & H1 & _).
  destruct (skip_dots_suffix (skip_slashes raw)) as (k2 & H2).
  set (p := skip_dots (skip_slashes raw)) in *. rewrite H2 in H1. rewrite H1 in Hn.
  destruct (trim_tail_spec p (length p) ltac:(done)) as [T1 T2]. split; [|split; [done|]].
  - apply Forall_take. apply no_nul_app in Hn as [_ Hn]. by apply no_nul_app in Hn as [_ Hn].
  - rewrite H1. unfold alen. rewrite !length_app, length_take. lia.
Qed.

(** Below a root that is nobody's child, a node has one path. *)
Lemma find_unique t root ws vs :
  tar_wf t → in_tar t root → tn_parent (node_at t root) = 0 →
  tar_find t root ws = tar_find t root vs → tar_find t root ws ≠ 0 → ws = vs.
Proof.
  intros Hwf Hr Hp0.
  assert (Hstep : ∀ us u, tar_find t root (us ++ [u]) ≠ 0 →
    tar_find t root us ≠ 0 ∧ tar_find t root (us ++ [u]) = tar_child t (tar_find t root us) u ∧
    tn_parent (node_at t (tar_find t root (us ++ [u]))) = tar_find t root us ∧
    tn_name (node_at t (tar_find t root (us ++ [u]))) = u).
  { intros us u Hne. destruct (decide (tar_find t root us = 0)) as [E|E].
    - exfalso. apply Hne. clear -E. revert root E. induction us as [|v us IH]; intros root E; simpl in *; [by subst|].
      destruct (_ =? 0); [done|]. by apply IH.
    - rewrite tar_find_app in * by done. cbn [tar_find] in *. cbv zeta in *.
      destruct (Z.eqb_spec (tar_child t (tar_find t root us) u) 0) as [|Hc]; [done|].
      pose proof (tar_find_in t root us Hwf Hr E) as Hin. destruct (tw_dirs t Hwf _ Hin) as (l & Hl).
      destruct (tar_child_in t Hwf _ l u Hin Hl Hc) as (_ & Hn & _).
      destruct (tar_child_node t Hwf _ u Hin Hc) as [_ Hpar]. done. }
  revert vs. induction ws as [|w ws IH] using rev_ind; intros vs Heq Hne.
  - destruct vs as [|v vs _] using rev_ind; [done|exfalso]. rewrite Heq in Hne.
    destruct (Hstep _ _ Hne) as (Hne' & _ & Hpar & _). rewrite <- Heq in Hpar. simpl in Hpar. congruence.
  - destruct (Hstep _ _ Hne) as (Hne' & _ & Hpar & Hnm).
    destruct vs as [|v vs _] using rev_ind; [exfalso; rewrite Heq in Hpar; simpl in Hpar; congruence|].
    rewrite Heq in Hne. destruct (Hstep _ _ Hne) as (Hne2 & _ & Hpar2 & Hnm2). rewrite <- Heq in Hpar2, Hnm2.
    assert (w = v) as -> by congruence. f_equal. apply IH; congruence.
Qed.

(** Nothing is new but what is on the path. *)
Lemma extends_only t t' root ws vs :
  tar_wf t → in_tar t root → tn_parent (node_at t root) = 0 → extends t t' root ws →
  tar_find t' root vs ≠ 0 →
  tar_find t root vs = tar_find t' root vs ∨ vs `prefix_of` ws ∧ ¬ in_tar t (tar_find t' root vs).
Proof.
  intros Hwf Hr Hp0 Hex. pose proof (ex_wf _ _ _ _ Hex) as Hwf'.
  destruct (ex_kept _ _ _ _ Hex root Hr) as (Hr' & _ & Hp0' & _). rewrite Hp0 in Hp0'.
  induction vs as [|v vs IH] using rev_ind; intros Hne; [by left|].
  destruct (decide (tar_find t' root vs = 0)) as [E|E].
  { exfalso. apply Hne. clear -E. revert root E. induction vs as [|u vs IH]; intros root E; simpl in *; [by subst|].
    destruct (_ =? 0); [done|]. by apply IH. }
  rewrite (tar_find_app t') in * by done. cbn [tar_find] in Hne |- *. cbv zeta in *.
  destruct (Z.eqb_spec (tar_child t' (tar_find t' root vs) v) 0) as [|Hc]; [done|].
  pose proof (tar_find_in t' root vs Hwf' Hr' E) as Hd.
  destruct (ex_new _ _ _ _ Hex _ v Hd Hc) as [[Hdt Heq]|[(pre & post & -> & Hf) Hfr]].
  - destruct (IH E) as [IHe|[_ IHn]]; [left|done]. rewrite tar_find_app by congruence. cbn [tar_find]. cbv zeta.
    rewrite IHe, Heq. by rewrite (proj2 (Z.eqb_neq _ 0)).
  - right. split; [|done]. rewrite <- (find_unique t' root vs pre) by done.
    exists post. by rewrite <- app_assoc.
Qed.

(** What an added entry may have changed, for the archive's bounds. *)
Lemma add_entry_nodes t root raw is_dir data sz :
  tar_wf t → in_tar t root → tn_type (node_at t root) = VFS_NODE_DIR → no_nul raw → alen raw ≤ TARFS_NAME_MAX →
  match tarfs_add_path_entry root raw is_dir data sz t with
  | (Err _, _) => True
  | (Ok _, t') => tar_wf t' ∧
      (∀ b, in_tar t b → in_tar t' b ∧ tn_type (node_at t' b) = tn_type (node_at t b)) ∧
      (∀ b, in_tar t' b →
         (in_tar t b ∧ tn_file_data (node_at t' b) = tn_file_data (node_at t b) ∧
                       tn_file_size (node_at t' b) = tn_file_size (node_at t b)) ∨
         (tn_file_data (node_at t' b) = 0 ∧ tn_file_size (node_at t' b) = 0) ∨
         (tn_file_data (node_at t' b) = data ∧ tn_file_size (node_at t' b) = sz))
  end.
Proof.
  intros Hwf Hr Hty Hn Hl. unfold tarfs_add_path_entry. pose proof (tw_addr t Hwf root Hr).
  rewrite (proj2 (Z.eqb_neq root 0)) by lia. cbv zeta.
  destruct (clean_path_spec raw Hn) as (C1 & C2 & C3). set (p := clean_path raw) in *.
  destruct (Z.eqb_spec (alen p) 0) as [E|E].
  { split; [done|]. split; [done|]. intros b Hb. by left. }
  pose proof (entry_loop_cases (length p) root p is_dir t ltac:(done) ltac:(intros ->; done) C1 C2
    ltac:(unfold TARFS_NAME_MAX in *; lia) Hwf Hr Hty) as He.
  destruct (entry_loop (length p) root p is_dir t) as [[nd|e] t1]; [|done].
  destruct He as (Hex & _ & Hnd & _ & _). pose proof (ex_wf _ _ _ _ Hex) as Hwf1.
  assert (H1 : ∀ b, in_tar t1 b →
    (in_tar t b ∧ tn_file_data (node_at t1 b) = tn_file_data (node_at t b) ∧
                  tn_file_size (node_at t1 b) = tn_file_size (node_at t b)) ∨
    (tn_file_data (node_at t1 b) = 0 ∧ tn_file_size (node_at t1 b) = 0)).
  { intros b Hb. destruct (ex_zero _ _ _ _ Hex b Hb) as [Hbt|]; [left|by right].
    destruct (ex_kept _ _ _ _ Hex b Hbt) as (_ & _ & _ & ? & ?). done. }
  destruct is_dir; cbn [negb].
  - split; [done|]. split; [|intros b Hb; destruct (H1 b Hb); auto].
    intros b Hb. by destruct (ex_kept _ _ _ _ Hex b Hb) as (? & ? & _).
  - destruct (set_file_wf t1 nd data sz Hwf1 Hnd) as [Hwf2 _]. split; [done|]. split.
    + intros b Hb. destruct (ex_kept _ _ _ _ Hex b Hb) as (Hb1 & Hbt & _). split; [by apply in_tar_set|].
      rewrite node_at_set. case_decide; [subst; by simpl|done].
    + intros b Hb. apply in_tar_set in Hb; [|done]. rewrite node_at_set.
      case_decide; [subst; by auto|]. destruct (H1 b Hb); auto.
Qed.

(** * The archive's bounds *)

Lemma octal_loop_u32 field v saw r : is_u32 v → octal_loop field v saw = Ok r → is_u32 r.
Proof.
  revert v saw. induction field as [|c field IH]; intros v saw Hv Hr; simpl in Hr.
  - injection Hr as <-. destruct saw; [done|]. unfold two32. lia.
  - destruct (_ || _); [injection Hr as <-; destruct saw; [done|unfold two32; lia]|].
    destruct (_ || _); [done|]. eapply IH; [|exact Hr]. unfold add32, u32, two32. apply Z.mod_pos_bound. lia.
Qed.

Lemma header_size_u32 hdr sz e : parse_header hdr = Ok (sz, e) → is_u32 sz.
Proof.
  unfold parse_header, tarfs_parse_octal_u32. destruct (octal_loop _ 0 false) as [v|] eqn:E; [|done].
  destruct (tarfs_header_get_path _ _); [|done]. intros Hp. assert (sz = v) as ->.
  { revert Hp. repeat case_match; by intros [= <- _]. }
  eapply octal_loop_u32; [|exact E]. unfold two32. lia.
Qed.

Lemma field_plain field n : n = tarfs_field_len field → no_nul (take (Z.to_nat n) field).
Proof.
  intros ->. unfold tarfs_field_len, alen. rewrite Nat2Z.id. destruct (cstr_split field) as (r & Hf & _).
  rewrite Hf at 2. rewrite take_app_length. apply cstr_no_nul.
Qed.

Lemma header_path hdr sz path is_dir :
  parse_header hdr = Ok (sz, Some (path, is_dir)) → no_nul path ∧ alen path ≤ TARFS_NAME_MAX.
Proof.
  unfold parse_header. destruct (tarfs_parse_octal_u32 _); [|done].
  destruct (tarfs_header_get_path _ _) as [p|] eqn:E; [|done]. intros Hp.
  assert (p = path) as -> by (revert Hp; repeat case_match; by intros [= _ <-]). clear Hp. revert E.
  unfold tarfs_header_get_path, TARFS_NAME_MAX. destruct (_ <? 2); [done|].
  set (nl := tarfs_field_len (hdr_name hdr)). set (pl := tarfs_field_len (hdr_prefix hdr)).
  assert (Htl : ∀ (f : list Z) n, 0 ≤ n → alen (take (Z.to_nat n) f) ≤ n)
    by (intros f n Hn; unfold alen; rewrite length_take; lia).
  assert (Hnl : 0 ≤ nl ∧ 0 ≤ pl) by (unfold nl, pl, tarfs_field_len, alen; lia).
  pose proof (Htl (hdr_name hdr) nl ltac:(lia)). pose proof (Htl (hdr_prefix hdr) pl ltac:(lia)).
  destruct (nl =? 0); [done|]. destruct (negb (pl =? 0)).
  - destruct (Z.ltb_spec (255 + 1) (pl + 1 + nl + 1)); [done|]. intros [= <-]. split.
    + apply no_nul_app. split; [by apply field_plain|]. constructor; [done|by apply field_plain].
    + rewrite alen_app. unfold alen in *. simpl length. lia.
  - destruct (Z.ltb_spec (255 + 1) (nl + 1)); [done|]. intros [= <-]. split; [by apply field_plain|lia].
Qed.

Lemma round_up_512 size :
  0 ≤ size ≤ two32 - 512 → size ≤ tarfs_round_up_512 size < size + 512 ∧ tarfs_round_up_512 size mod 512 = 0.
Proof.
  intros Hs. unfold tarfs_round_up_512, TAR_BLOCK_SIZE. change (512 - 1) with (2 ^ 9 - 1).
  rewrite add32_small by (unfold two32 in *; lia).
  rewrite land_not_ones by (unfold two32 in *; lia). change (2 ^ 9) with 512.
  pose proof (Z.mod_pos_bound (size + (512 - 1)) 512 ltac:(lia)).
  split; [lia|]. rewrite Zminus_mod_idemp_r, Z.sub_diag. done.
Qed.

(** The tree while an archive is read into it. *)
Record archive_ok (blob : list Z) (root : Z) t : Prop := {
  ao_wf : tar_wf t;
  ao_root : in_tar t root ∧ tn_type (node_at t root) = VFS_NODE_DIR;
  ao_bounds a : in_tar t a →
    0 ≤ tn_file_data (node_at t a) ∧ 0 ≤ tn_file_size (node_at t a) ∧
    tn_file_data (node_at t a) + tn_file_size (node_at t a) ≤ alen blob
}.

(** No header asks for a payload within a kilobyte of 4 GiB. *)
Definition sizes_sane (blob : list Z) : Prop :=
  ∀ k sz e, 0 ≤ k → TAR_BLOCK_SIZE * k < alen blob →
    parse_header (slice blob (TAR_BLOCK_SIZE * k) TAR_BLOCK_SIZE) = Ok (sz, e) → sz ≤ two32 - 1024.

Lemma parse_loop_cases fuel blob off root t :
  archive_ok blob root t → sizes_sane blob → alen blob < two32 / 2 → 0 ≤ off ≤ alen blob →
  off mod TAR_BLOCK_SIZE = 0 → alen blob - off < Z.of_nat fuel →
  ∃ r t', parse_loop fuel blob off root t = Some (r, t') ∧ (r = Ok tt → archive_ok blob root t').
Proof.
  revert off t. induction fuel as [|fuel IH]; intros off t Hok Hsane Hb Hoff Hmod Hf; [lia|].
  cbn [parse_loop]. cbv zeta. change (two32 / 2) with 2147483648 in *.
  assert (Hadd : add32 off TAR_BLOCK_SIZE = off + 512)
    by (unfold TAR_BLOCK_SIZE; apply add32_small; unfold two32; lia).
  rewrite !Hadd. destruct (Z.leb_spec (off + 512) (alen blob)) as [Hfit|]; cbn [negb]; [|by eauto].
  destruct (tarfs_is_zero_block _); [by eauto|].
  destruct (parse_header (slice blob off TAR_BLOCK_SIZE)) as [[sz e]|er] eqn:Eh; [|by eauto].
  pose proof (header_size_u32 _ _ _ Eh) as Hu. 
  assert (Hsz : sz ≤ two32 - 1024).
  { pose proof (Z.div_mod off TAR_BLOCK_SIZE ltac:(done)) as Hdm. rewrite Hmod, Z.add_0_r in Hdm.
    rewrite Hdm in Eh. apply (Hsane (off / TAR_BLOCK_SIZE) sz e); [by apply Z.div_pos; [lia|]|lia|done]. }
  destruct (round_up_512 sz ltac:(unfold two32 in *; lia)) as [[R1 R2] R3].
  set (pad := tarfs_round_up_512 sz) in *.
  assert (Hnm : (off + 512 + pad) mod TAR_BLOCK_SIZE = 0).
  { unfold TAR_BLOCK_SIZE in *. rewrite Z.add_mod, (Z.add_mod off), Hmod, R3 by lia. done. }
  assert (Hpad : pad ≤ two32 - 1024).
  { pose proof (Z.div_mod pad 512 ltac:(lia)). unfold two32 in *. lia. }
  destruct (Z.ltb_spec (add32 (off + 512) pad) off) as [Hw|Hw]; cbn [orb]; [by eauto|].
  assert (Hnext : add32 (off + 512) pad = off + 512 + pad).
  { destruct (Z.lt_ge_cases (off + 512 + pad) two32); [apply add32_small; lia|exfalso].
    unfold add32, u32 in Hw. rewrite <- (Z.mod_unique_pos (off + 512 + pad) two32 1 (off + 512 + pad - two32)) in Hw
      by (unfold two32 in *; lia). lia. }
  rewrite Hnext in *. destruct (Z.ltb_spec (alen blob) (off + 512 + pad)) as [|Hin]; [by eauto|].
  destruct e as [[path is_dir]|]; [|apply IH; try done; lia].
  destruct (header_path _ _ _ _ Eh) as [Hp1 Hp2]. destruct Hok as [Hwf [Hr Hrty] Hbd].
  pose proof (add_entry_nodes t root path is_dir (off + 512) sz Hwf Hr Hrty Hp1 Hp2) as Hadd'.
  destruct (tarfs_add_path_entry root path is_dir (off + 512) sz t) as [[[]|e] t1]; [|by do 2 eexists].
  destruct Hadd' as (Hwf1 & Hk & Hnodes). apply IH; [|done|done|lia|done|lia].
  destruct (Hk root Hr) as [Hr1 Hrt1]. split; [done|split; [done|congruence]|].
  intros a Ha. destruct (Hnodes a Ha) as [(Hat & -> & ->)|[[-> ->]|[-> ->]]]; [by apply Hbd|lia|lia].
Qed.

(** The empty tree a parse begins with. *)
Lemma first_node t root t' :
  tar_wf t → (∀ a, ¬ in_tar t a) → tarfs_alloc_node [SLASH] VFS_NODE_DIR t = (root, t') → root ≠ 0 →
  tar_wf t' ∧ in_tar t' root ∧ node_at t' root = TarNode [SLASH] VFS_NODE_DIR 0 0 0 0 0 ∧
  ∀ a, in_tar t' a → a = root.
Proof.
  intros Hwf He. unfold tarfs_alloc_node. destruct (kmalloc TARFS_NODE_SIZE (tar_heap t)) as [p h] eqn:E.
  destruct (Z.eqb_spec p 0); [by intros [= <- _]|]. intros [= <- <-] _.
  destruct (kmalloc_bump _ TARFS_NODE_SIZE _ _ (tw_heap t Hwf) ltac:(unfold TARFS_NODE_SIZE; lia) E) as (Hh & Hs & Hp & _).
  destruct (Hp ltac:(done)) as (Hp0 & _ & Hpe).
  set (nd := TarNode [SLASH] VFS_NODE_DIR 0 0 0 0 0). set (t' := TarFs h (<[p:=nd]> (tar_nodes t))).
  assert (Hn : node_at t' p = nd) by (unfold node_at; simpl; by rewrite lookup_insert_eq).
  assert (Hin : in_tar t' p) by (unfold in_tar; simpl; rewrite lookup_insert_eq; by eauto).
  assert (Honly : ∀ a, in_tar t' a → a = p).
  { intros a Ha. destruct (decide (a = p)) as [|Hne]; [done|]. exfalso. apply (He a).
    unfold in_tar in *. simpl in Ha. by rewrite lookup_insert_ne in Ha. }
  split; [|done]. split; [done| |].
  - intros a ->%Honly. done.
  - intros d ->%Honly. exists []. split; [by rewrite Hn|constructor| | |].
    + intros x Hx. by apply not_elem_of_nil in Hx.
    + intros x Hx. by apply not_elem_of_nil in Hx.
    + intros x y Hx. by apply not_elem_of_nil in Hx.
Qed.

Lemma parse_blob_cases blob t :
  tar_wf t → (∀ a, ¬ in_tar t a) → sizes_sane blob → alen blob < two32 / 2 →
  ∃ r t', tarfs_parse_blob (parse_fuel blob) blob t = Some (r, t') ∧
          (∀ root, r = Ok root → archive_ok blob root t').
Proof.
  intros Hwf He Hsane Hb. unfold tarfs_parse_blob. destruct (negb _); [by do 2 eexists|].
  destruct (tarfs_alloc_node [SLASH] VFS_NODE_DIR t) as [root t1] eqn:E.
  destruct (Z.eqb_spec root 0) as [|Hr]; [by do 2 eexists|].
  destruct (first_node t root t1 Hwf He E Hr) as (Hwf1 & Hin & Hn & Honly).
  pose proof (alen_nonneg blob).
  assert (Hok : archive_ok blob root t1).
  { split; [done|by rewrite Hn|]. intros a ->%Honly. rewrite Hn. simpl. lia. }
  destruct (parse_loop_cases (parse_fuel blob) blob 0 root t1 Hok Hsane Hb ltac:(lia) eq_refl
    ltac:(unfold parse_fuel, alen in *; lia)) as (r & t2 & -> & Hr2).
  simpl. do 2 eexists. split; [done|]. intros root'. destruct r as [[]|]; [|done]. intros [= <-]. by apply Hr2.
Qed.

(** A read inside the archive. *)
Lemma tar_read_cases mem f a len t blob root :
  archive_ok blob root t → alen blob < two32 / 2 → in_tar t a → f_node f = Some (tarfs_vfs_node a) →
  tn_type (node_at t a) = VFS_NODE_FILE → 0 ≤ f_offset f → 0 ≤ len →
  (∀ k, 0 ≤ k < alen blob → mem k = cget blob k) →
  let n := Z.max 0 (Z.min len (tn_file_size (node_at t a) - f_offset f)) in
  tarfs_file_read mem f true len t =
    (Ok (slice blob (tn_file_data (node_at t a) + f_offset f) n), set_offset f (f_offset f + n)).
Proof.
  intros Hok Hb Ha Hf Hty Ho Hl Hmem n. destruct (ao_bounds _ _ _ Hok a Ha) as (B1 & B2 & B3).
  change (two32 / 2) with 2147483648 in Hb. unfold tarfs_file_read. rewrite andb_false_r, Hf. cbv zeta.
  rewrite Hty, (bool_decide_eq_true_2 (VFS_NODE_FILE = VFS_NODE_FILE)) by done. cbn [negb].
  set (sz := tn_file_size (node_at t a)) in *. set (dt := tn_file_data (node_at t a)) in *.
  destruct ((sz <=? f_offset f) || (len =? 0)) eqn:E.
  - replace n with 0; [rewrite Z.add_0_r; by destruct f|].
    apply orb_true_iff in E as [E%Z.leb_le|E%Z.eqb_eq]; unfold n; lia.
  - apply orb_false_iff in E as [E1%Z.leb_gt E2%Z.eqb_neq].
    rewrite sub32_small by (unfold two32; lia).
    replace (if len <? sz - f_offset f then len else sz - f_offset f) with n
      by (unfold n; destruct (Z.ltb_spec len (sz - f_offset f)); lia).
    rewrite add32_small by (unfold two32, n; lia). f_equal. f_equal.
    apply blist_eq.
    + rewrite alen_slice by (unfold n; lia). unfold alen. rewrite length_fmap, length_seqZ. unfold n. lia.
    + intros k Hk. unfold alen in Hk. rewrite length_fmap, length_seqZ in Hk.
      rewrite cget_slice by (unfold n; lia). unfold cget at 1. rewrite list_lookup_fmap.
      rewrite (proj2 (lookup_seqZ 0 n (Z.to_nat k) k)) by lia. cbn [fmap option_fmap option_map default].
      rewrite Hmem by (unfold n in *; lia). done.
Qed.

(** * Properties *)

(** Between two trees every old path leads to the same node, nothing is new but
    paths above [ws] or [ws] itself, and no node but [a] changes kind or contents. *)
Record tree_kept t t' (root : Z) (ws : list (list Z)) (a : Z) : Prop := TreeKept {
  tk_wf : tar_wf t';
  tk_old vs : tar_find t root vs ≠ 0 → tar_find t' root vs = tar_find t root vs;
  tk_new vs : tar_find t' root vs ≠ 0 → tar_find t root vs = tar_find t' root vs ∨ vs `prefix_of` ws;
  tk_nodes b : in_tar t b → tn_type (node_at t' b) = tn_type (node_at t b) ∧
    (b ≠ a → tn_file_data (node_at t' b) = tn_file_data (node_at t b) ∧ tn_file_size (node_at t' b) = tn_file_size (node_at t b))
}.

Lemma extends_tree_kept t t' root ws a :
  tar_wf t → in_tar t root → tn_parent (node_at t root) = 0 → extends t t' root ws → tree_kept t t' root ws a.
Proof.
  intros Hwf Hr Hp0 Hex. split.
  - apply (ex_wf _ _ _ _ Hex).
  - intros vs. by apply (extends_find t t' root ws).
  - intros vs Hvs. destruct (extends_only t t' root ws vs Hwf Hr Hp0 Hex Hvs) as [?|[? _]]; auto.
  - intros b Hb. by destruct (ex_kept _ _ _ _ Hex b Hb) as (_ & ? & _ & ? & ?).
Qed.

Lemma tree_kept_file t t1 root ws a data sz :
  tree_kept t t1 root ws a → in_tar t1 a → in_tar t1 root →
  let t' := set_node a (tn_set_file (node_at t1 a) data sz) t1 in
  (∀ vs, tar_find t' root vs = tar_find t1 root vs) ∧ tree_kept t t' root ws a.
Proof.
  intros [Hwf1 H1 H2 H3] Ha Hr t'. destruct (set_file_wf t1 a data sz Hwf1 Ha) as [Hwf2 Hch].
  assert (Hf : ∀ vs, tar_find t' root vs = tar_find t1 root vs).
  { intros vs. clear -Hr Hwf1 Hch. revert root Hr. induction vs as [|v vs IH]; intros root Hr; [done|].
    cbn [tar_find]. cbv zeta. rewrite Hch by done. destruct (Z.eqb_spec (tar_child t1 root v) 0) as [|Hv]; [done|].
    apply IH. by apply (tar_child_node t1 Hwf1 root v). }
  split; [done|]. split; [done|intros vs; rewrite Hf; apply H1|intros vs; rewrite Hf; apply H2|].
  intros b Hb. destruct (H3 b Hb) as [T D]. unfold t'. rewrite node_at_set. case_decide as E; [|done]. subst b. by split.
Qed.


(** No nodes, and a root alone. *)
Definition demo_tar0 : tarfs := TarFs demo_heap ∅.
Definition demo_tar : tarfs := snd (tarfs_alloc_node [SLASH] VFS_NODE_DIR demo_tar0).
Definition demo_root : Z := fst (tarfs_alloc_node [SLASH] VFS_NODE_DIR demo_tar0).

Lemma demo_tar0_none a : ¬ in_tar demo_tar0 a.
Proof. unfold in_tar. simpl. rewrite lookup_empty. by intros []. Qed.

Lemma demo_tar0_wf : tar_wf demo_tar0.
Proof. split; [exact demo_heap_wf| |]; intros a Ha; by destruct (demo_tar0_none a). Qed.

Lemma demo_tar_first :
  tar_wf demo_tar ∧ in_tar demo_tar demo_root ∧ node_at demo_tar demo_root = TarNode [SLASH] VFS_NODE_DIR 0 0 0 0 0.
Proof.
  destruct (first_node demo_tar0 demo_root demo_tar demo_tar0_wf demo_tar0_none) as (? & ? & ? & _);
    [apply surjective_pairing|by vm_compute|done].
Qed.

(** ["./a/b"]. *)
Definition demo_raw : list Z := [46; 47; 97; 47; 98].


(** A slash behind the leading [./] is not skipped: [.//a] is refused. *)
Lemma dot_slash_slash_refused : fst (tarfs_add_path_entry demo_root [46; 47; 47; 97] true 0 0 demo_tar) = Err KERR_INVAL.
Proof. by vm_compute. Qed.

(** Reading an archive without absurd sizes always ends, and when it
    succeeds every file of the tree lies inside the archive: reading any of
    them gives exactly that piece of the archive, never the memory behind it. *)
Theorem tarfs_parse_blob_safe blob t :
  tar_wf t → (∀ a, ¬ in_tar t a) → sizes_sane blob → alen blob < two32 / 2 →
  ∃ r t', tarfs_parse_blob (parse_fuel blob) blob t = Some (r, t') ∧
    ∀ root, r = Ok root → tar_wf t' ∧
      ∀ mem f a len, in_tar t' a → f_node f = Some (tarfs_vfs_node a) →
        tn_type (node_at t' a) = VFS_NODE_FILE → 0 ≤ f_offset f → 0 ≤ len →
        (∀ k, 0 ≤ k < alen blob → mem k = cget blob k) →
        let n := Z.max 0 (Z.min len (tn_file_size (node_at t' a) - f_offset f)) in
        tn_file_data (node_at t' a) + f_offset f + n ≤ Z.max (alen blob) (tn_file_data (node_at t' a) + f_offset f) ∧
        tarfs_file_read mem f true len t' =
          (Ok (slice blob (tn_file_data (node_at t' a) + f_offset f) n), set_offset f (f_offset f + n)).
Proof.
  intros Hwf He Hs Hb. destruct (parse_blob_cases blob t Hwf He Hs Hb) as (r & t' & -> & Hok).
  exists r, t'. split; [done|]. intros root Hr. specialize (Hok root Hr). split; [by destruct Hok|].
  intros mem f a len Ha Hf Hty Ho Hl Hmem n. split.
  - destruct (ao_bounds _ _ _ Hok a Ha) as (B1 & B2 & B3). unfold n. lia.
  - by apply (tar_read_cases mem f a len t' blob root).
Qed.

(** An archive of one file "a" of three bytes. *)
Definition tar_block (name size : list Z) (ty : Z) : list Z :=
  name ++ replicate (124 - length name) 0 ++ size ++ replicate 20 0 ++ [ty] ++ replicate 355 0.

Definition demo_blob : list Z :=
  tar_block [97] (replicate 10 48 ++ [51; 0]) 48 ++ [120; 121; 122] ++ replicate 509 0 ++ replicate 512 0.

Lemma demo_blob_sane : sizes_sane demo_blob.
Proof.
  intros k sz e Hk Hl. change (alen demo_blob) with 1536 in Hl. unfold TAR_BLOCK_SIZE in *.
  assert (Hc : k = 0 ∨ k = 1 ∨ k = 2) by lia. unfold two32.
  assert (H0 : parse_header (slice demo_blob (512 * 0) 512) = Ok (3, Some ([97], false))) by (vm_compute; reflexivity).
  assert (H1 : parse_header (slice demo_blob (512 * 1) 512) = Ok (0, Some ([120; 121; 122], false)))
    by (vm_compute; reflexivity).
  assert (H2 : parse_header (slice demo_blob (512 * 2) 512) = Err KERR_INVAL) by (vm_compute; reflexivity).
  destruct Hc as [->|[->| ->]]; rewrite ?H0, ?H1, ?H2; [intros [= <- _]|intros [= <- _]|done]; lia.
Qed.

Lemma tarfs_parse_blob_safe_witness :
  ∃ t', tarfs_parse_blob (parse_fuel demo_blob) demo_blob demo_tar0 = Some (Ok demo_root, t') ∧ tar_wf t'.
Proof.
  destruct (tarfs_parse_blob_safe demo_blob demo_tar0 demo_tar0_wf demo_tar0_none demo_blob_sane) as (r & t' & H & Hr);
    [by vm_compute|]. exists t'. rewrite H.
  assert (Hv : option_map fst (tarfs_parse_blob (parse_fuel demo_blob) demo_blob demo_tar0) = Some (Ok demo_root))
    by (vm_compute; reflexivity).
  rewrite H in Hv. simpl in Hv. injection Hv as ->. split; [reflexivity|]. by apply (Hr demo_root).
Defined.

(** The overflow check of the block loop misses one wrap: a header whose
    padded size is 4 GiB minus one block makes the next offset the same
    offset, and parsing such an archive never ends. *)
Theorem tarfs_parse_blob_hangs fuel blob t root t1 sz :
  tarfs_alloc_node [SLASH] VFS_NODE_DIR t = (root, t1) → root ≠ 0 →
  alen blob mod TAR_BLOCK_SIZE = 0 → 0 < alen blob < two32 / 2 →
  tarfs_is_zero_block (slice blob 0 TAR_BLOCK_SIZE) = false →
  parse_header (slice blob 0 TAR_BLOCK_SIZE) = Ok (sz, None) → two32 - 1024 < sz ≤ two32 - 512 →
  tarfs_parse_blob fuel blob t = None.
Proof.
  intros Ha Hr Hm Hb Hz Hh Hsz. unfold tarfs_parse_blob. rewrite Hm, Ha, (proj2 (Z.eqb_neq root 0)) by done.
  change (negb (0 =? 0)) with false. cbv iota.
  assert (Hpad : tarfs_round_up_512 sz = two32 - 512).
  { destruct (round_up_512 sz ltac:(unfold two32 in *; lia)) as [[R1 R2] R3].
    pose proof (Z.div_mod (tarfs_round_up_512 sz) 512 ltac:(lia)). unfold two32 in *. lia. }
  assert (Hlen : 512 ≤ alen blob).
  { unfold TAR_BLOCK_SIZE in Hm. pose proof (Z.div_mod (alen blob) 512 ltac:(lia)). lia. }
  assert (Hl : parse_loop fuel blob 0 root t1 = None); [|by rewrite Hl].
  induction fuel as [|fuel IH]; [done|]. cbn [parse_loop]. cbv zeta.
  change (add32 0 TAR_BLOCK_SIZE) with 512. rewrite (proj2 (Z.leb_le 512 (alen blob))) by done. cbn [negb].
  rewrite Hz, Hh, Hpad. change (add32 512 (two32 - 512)) with 0. rewrite Z.ltb_irrefl.
  rewrite (proj2 (Z.ltb_ge (alen blob) 0)) by lia. cbn [orb]. exact IH.
Qed.

(** A symbolic link whose size field says 4 GiB minus one block. *)
Definition demo_bad_blob : list Z :=
  tar_block [97] [51; 55; 55; 55; 55; 55; 55; 55; 48; 48; 48; 0] 50 ++ replicate 512 0.

Lemma tarfs_parse_blob_hangs_witness : tarfs_parse_blob 100000 demo_bad_blob demo_tar0 = None.
Proof.
  apply (tarfs_parse_blob_hangs 100000 demo_bad_blob demo_tar0 demo_root demo_tar 4294966784).
  - apply surjective_pairing.
  - by vm_compute.
  - reflexivity.
  - by vm_compute.
  - vm_compute. reflexivity.
  - vm_compute. reflexivity.
  - unfold two32. lia.
Defined.

(** The digits of a number, the last [n] of them. *)
Fixpoint octal_digits (n : nat) (v : Z) : list Z :=
  match n with
  | O => []
  | S n' => octal_digits n' (v / 8) ++ [48 + v mod 8]
  end.

Lemma octal_loop_digits m u acc saw l :
  0 ≤ u < 8 ^ Z.of_nat m →
  octal_loop (octal_digits m u ++ l) acc saw =
  octal_loop l (if decide (m = 0%nat) then acc else u32 (acc * 8 ^ Z.of_nat m + u)) (saw || negb (m =? 0)%nat).
Proof.
  revert u acc saw l. induction m as [|m IH]; intros u acc saw l Hu; [simpl; by rewrite orb_false_r|].
  pose proof (Z.mod_pos_bound u 8 ltac:(lia)). pose proof (Z.div_mod u 8 ltac:(lia)).
  rewrite Nat2Z.inj_succ, Z.pow_succ_r in * by lia.
  cbn [octal_digits]. rewrite <- app_assoc. cbn [app].
  rewrite IH by (split; [apply Z.div_pos; lia|apply Z.div_lt_upper_bound; lia]).
  cbn [octal_loop]. unfold NUL. rewrite !(proj2 (Z.eqb_neq (48 + u mod 8) _)) by lia.
  rewrite (proj2 (Z.ltb_ge (48 + u mod 8) 48)), (proj2 (Z.ltb_ge 55 (48 + u mod 8))) by lia. cbn [orb].
  rewrite (decide_False (P := S m = 0%nat)) by done. replace (saw || negb (S m =? 0)%nat) with true by (by rewrite orb_true_r).
  f_equal. unfold add32, mul32, u32. rewrite Zplus_mod_idemp_l. case_decide; [subst m|].
  - f_equal. simpl Z.of_nat in *. rewrite Z.pow_0_r in *. lia.
  - rewrite <- Zplus_mod_idemp_l, Zmult_mod_idemp_l, Zplus_mod_idemp_l. f_equal. lia.
Qed.

(** A size field of eleven octal digits and a NUL, blanks before the digits
    allowed, is read as the number it spells, modulo 2^32. *)
Theorem tarfs_parse_octal_roundtrip v blanks :
  0 ≤ v < 8 ^ 11 → Forall (λ c, c = 32 ∨ c = NUL) blanks →
  tarfs_parse_octal_u32 (blanks ++ octal_digits 11 v ++ [NUL]) = Ok (u32 v).
Proof.
  intros Hv Hb. unfold tarfs_parse_octal_u32.
  assert (Hs : skip_blanks (blanks ++ octal_digits 11 v ++ [NUL]) = octal_digits 11 v ++ [NUL]).
  { induction Hb as [|c blanks Hc Hb IH]; cbn [app skip_blanks].
    - assert (Hd : ∃ d l, octal_digits 11 v = d :: l ∧ 48 ≤ d).
      { assert (H : ∀ m u, ∃ d l, octal_digits (S m) u = d :: l ∧ 48 ≤ d).
        { induction m as [|m IH]; intros u.
          - exists (48 + u mod 8), []. split; [done|]. pose proof (Z.mod_pos_bound u 8 ltac:(lia)). lia.
          - destruct (IH (u / 8)) as (d & l & Hd & ?). exists d, (l ++ [48 + u mod 8]). split; [|done].
            change (octal_digits (S (S m)) u) with (octal_digits (S m) (u / 8) ++ [48 + u mod 8]). by rewrite Hd. }
        apply H. }
      destruct Hd as (d & l & -> & Hd). cbn [app skip_blanks]. unfold NUL.
      by rewrite !(proj2 (Z.eqb_neq d _)) by lia.
    - by destruct Hc as [->| ->]. }
  by rewrite Hs, octal_loop_digits.
Qed.

Lemma tarfs_parse_octal_roundtrip_witness :
  tarfs_parse_octal_u32 ([32] ++ octal_digits 11 511 ++ [NUL]) = Ok 511.
Proof. rewrite (tarfs_parse_octal_roundtrip 511 [32]); [reflexivity|lia|]. repeat constructor. Defined.
