(* ===== verification/Paging.v ===== *)
(** kernel/paging.c: definitions.

    Physical memory is a map from page addresses to the 1024 words of the page;
    page directories, page tables and the pages of processes are all pages of
    it.  The kernel reaches a physical page [p] below [KERNEL_EARLY_MAP_BYTES]
    at the virtual address [KERNEL_VIRTUAL_BASE + p], so a [uint32_t *] to a
    page is that address.  Address spaces are structures kept at heap
    addresses; the static [g_kernel_as] is one of them.  New pages come from the
    kernel heap of Kmalloc.v and, at start-up, from the frames of Pmm.v.

    The processor's walk of the tables is [mmu_walk]; [cr3] is the register
    the code loads, [invlpg] has no effect on this state.  Mapping is verified in
    PagingMap.v, copy on write in PagingCow.v. *)

From S2P Require Import Prelude Pmm Kmalloc.

Definition KERNEL_VIRTUAL_BASE : Z := 3221225472.
Definition KERNEL_EARLY_MAP_BYTES : Z := 33554432.
Definition PMM_BITMAP_PHYS_BASE : Z := 16777216.

Definition PAGE_DIRECTORY_ENTRIES : Z := 1024.
Definition PAGE_TABLE_ENTRIES : Z := 1024.
Definition PAGE_TABLE_SPAN_BYTES : Z := PAGE_TABLE_ENTRIES * PAGE_SIZE_BYTES.
Definition KERNEL_EARLY_PAGE_TABLE_COUNT : Z := KERNEL_EARLY_MAP_BYTES / PAGE_TABLE_SPAN_BYTES.
Definition PAGING_LOW_PD_COUNT : Z := KERNEL_VIRTUAL_BASE / 2 ^ 22.
Definition PAGING_OWNED_PT_WORDS : Z := (PAGING_LOW_PD_COUNT + 31) / 32.
Definition PAGING_COW_META_CAP : Z := 2048.

Definition PAGING_PAGE_FLAG_PRESENT : Z := 1.
Definition PAGING_PAGE_FLAG_WRITABLE : Z := 2.
Definition PAGING_PAGE_FLAG_USER : Z := 4.
Definition PAGING_PAGE_FLAG_COW : Z := 512.
Definition PAGING_PAGE_FLAG_OWNED : Z := 1024.

(** [~(PAGE_SIZE_BYTES - 1U)] *)
Definition PAGE_MASK : Z := not32 4095.

(** [(w & f) != 0U] *)
Definition flag (w f : Z) : bool := negb (Z.land w f =? 0).

(** * State *)

Record address_space := AddressSpace {
  pd_virt : Z;
  pd_phys : Z;
  owned_pt_words : list Z;
  is_kernel : bool
}.

#[export] Instance address_space_inhabited : Inhabited address_space :=
  populate (AddressSpace 0 0 (replicate 24 0) false).

Record cow_meta := CowMeta {
  cm_frame : Z;
  cm_refs : Z;
  cm_in_use : bool;
  cm_owned : bool
}.

#[export] Instance cow_meta_inhabited : Inhabited cow_meta := populate (CowMeta 0 0 false false).

Record user_range := UserRange { ur_base : Z; ur_size : Z }.

(** [p | PAGING_PAGE_FLAG_PRESENT | PAGING_PAGE_FLAG_WRITABLE] *)
Definition pw (p : Z) : Z := Z.lor (Z.lor p PAGING_PAGE_FLAG_PRESENT) PAGING_PAGE_FLAG_WRITABLE.

(** The address of the static [g_kernel_as]: the linker chooses it, below the
    heap. *)
Definition g_kernel_as : Z := 3222274048.

(** [struct paging_address_space] has 27 words. *)
Definition sizeof_address_space : Z := 108.

Record paging := Paging {
  g_kernel_pd_phys : Z;
  g_kernel_pd_virt : Z;
  g_early_page_tables : list Z;
  g_dynamic_page_tables : list Z;
  g_current_as : Z;
  g_cow_meta : list cow_meta;
  paging_ready_flag : bool;
  paging_enabled_flag : bool;
  cr3 : Z;
  aspaces : gmap Z address_space;
  phys : gmap Z (list Z);
  heap : kheap
}.

(** Static storage before [paging_init], over given memory and heap. *)
Definition paging_zero (ph : gmap Z (list Z)) (h : kheap) : paging :=
  Paging 0 0 (replicate 8 0) (replicate 1024 0) 0 (replicate 2048 (CowMeta 0 0 false false))
         false false 0 ∅ ph h.

Definition set_phys (ph : gmap Z (list Z)) (s : paging) : paging :=
  Paging (g_kernel_pd_phys s) (g_kernel_pd_virt s) (g_early_page_tables s)
         (g_dynamic_page_tables s) (g_current_as s) (g_cow_meta s) (paging_ready_flag s)
         (paging_enabled_flag s) (cr3 s) (aspaces s) ph (heap s).

Definition set_heap (h : kheap) (s : paging) : paging :=
  Paging (g_kernel_pd_phys s) (g_kernel_pd_virt s) (g_early_page_tables s)
         (g_dynamic_page_tables s) (g_current_as s) (g_cow_meta s) (paging_ready_flag s)
         (paging_enabled_flag s) (cr3 s) (aspaces s) (phys s) h.

Definition set_aspaces (m : gmap Z address_space) (s : paging) : paging :=
  Paging (g_kernel_pd_phys s) (g_kernel_pd_virt s) (g_early_page_tables s)
         (g_dynamic_page_tables s) (g_current_as s) (g_cow_meta s) (paging_ready_flag s)
         (paging_enabled_flag s) (cr3 s) m (phys s) (heap s).

Definition set_cow (c : list cow_meta) (s : paging) : paging :=
  Paging (g_kernel_pd_phys s) (g_kernel_pd_virt s) (g_early_page_tables s)
         (g_dynamic_page_tables s) (g_current_as s) c (paging_ready_flag s)
         (paging_enabled_flag s) (cr3 s) (aspaces s) (phys s) (heap s).

Definition set_tables (early dynamic : list Z) (s : paging) : paging :=
  Paging (g_kernel_pd_phys s) (g_kernel_pd_virt s) early dynamic (g_current_as s) (g_cow_meta s)
         (paging_ready_flag s) (paging_enabled_flag s) (cr3 s) (aspaces s) (phys s) (heap s).

Definition set_current (as_ : Z) (s : paging) : paging :=
  Paging (g_kernel_pd_phys s) (g_kernel_pd_virt s) (g_early_page_tables s)
         (g_dynamic_page_tables s) as_ (g_cow_meta s) (paging_ready_flag s)
         (paging_enabled_flag s) (cr3 s) (aspaces s) (phys s) (heap s).

Definition load_page_directory (pd : Z) (s : paging) : paging :=
  Paging (g_kernel_pd_phys s) (g_kernel_pd_virt s) (g_early_page_tables s)
         (g_dynamic_page_tables s) (g_current_as s) (g_cow_meta s) (paging_ready_flag s)
         (paging_enabled_flag s) pd (aspaces s) (phys s) (heap s).

(** The structure behind an address-space pointer. *)
Definition aspace (s : paging) (as_ : Z) : address_space := default inhabitant (aspaces s !! as_).

Definition set_aspace (as_ : Z) (a : address_space) (s : paging) : paging :=
  set_aspaces (<[as_ := a]> (aspaces s)) s.

(** * Memory *)

Definition zero_page : list Z := replicate 1024 0.

Definition page (ph : gmap Z (list Z)) (p : Z) : list Z := default zero_page (ph !! p).

Definition write_word (p i w : Z) (ph : gmap Z (list Z)) : gmap Z (list Z) :=
  <[p := (page ph p).[i <- w]]> ph.

(** [v[i]] and [v[i] = w] for a page pointer [v] of the kernel. *)
Definition vread (v i : Z) (s : paging) : Z := (page (phys s) (v - KERNEL_VIRTUAL_BASE)).[i].

Definition vwrite (v i w : Z) (s : paging) : paging :=
  set_phys (write_word (v - KERNEL_VIRTUAL_BASE) i w (phys s)) s.

Definition vpage (v : Z) (s : paging) : list Z := page (phys s) (v - KERNEL_VIRTUAL_BASE).

(** [memcpy] and [memset] of a whole page. *)
Definition vfill (v : Z) (ws : list Z) (s : paging) : paging :=
  set_phys (<[v - KERNEL_VIRTUAL_BASE := ws]> (phys s)) s.

Definition kmalloc_page (s : paging) : Z * paging :=
  let '(p, h) := kmalloc PAGE_SIZE_BYTES (heap s) in (p, set_heap h s).

Definition kfree_at (p : Z) (s : paging) : paging := set_heap (kfree p (heap s)) s.

(** The walk of the processor: the directory and table entries of an address,
    when both are present. *)
Definition pd_index (va : Z) : Z := Z.shiftr va 22.
Definition pt_index (va : Z) : Z := Z.land (Z.shiftr va 12) 1023.

Definition mmu_walk (ph : gmap Z (list Z)) (pd va : Z) : option (Z * Z) :=
  let pde := (page ph pd).[pd_index va] in
  if flag pde PAGING_PAGE_FLAG_PRESENT then
    let pte := (page ph (Z.land pde PAGE_MASK)).[pt_index va] in
    if flag pte PAGING_PAGE_FLAG_PRESENT then Some (pde, pte) else None
  else None.

(** What an address means under a page directory: the physical address, whether
    user mode may access it, and whether it may be written. *)
Definition translate (ph : gmap Z (list Z)) (pd va : Z) : option (Z * bool * bool) :=
  '(pde, pte) ← mmu_walk ph pd va;
  Some (Z.lor (Z.land pte PAGE_MASK) (Z.land va 4095),
        flag pde PAGING_PAGE_FLAG_USER && flag pte PAGING_PAGE_FLAG_USER,
        flag pde PAGING_PAGE_FLAG_WRITABLE && flag pte PAGING_PAGE_FLAG_WRITABLE).

(** * Helpers of paging.c *)

Definition paging_phys_to_virt (ph : Z) : res Z :=
  if KERNEL_EARLY_MAP_BYTES <=? ph then Err KERR_INVAL
  else Ok (add32 KERNEL_VIRTUAL_BASE ph).

Definition paging_virt_to_phys (va : Z) : res Z :=
  if (va <? KERNEL_VIRTUAL_BASE) || (add32 KERNEL_VIRTUAL_BASE KERNEL_EARLY_MAP_BYTES <=? va)
  then Err KERR_INVAL
  else Ok (sub32 va KERNEL_VIRTUAL_BASE).

Definition paging_pd_index_is_low (i : Z) : bool := i <? PAGING_LOW_PD_COUNT.

Definition paging_mark_owned_pt (as_ i : Z) (s : paging) : paging :=
  if (as_ =? 0) || negb (paging_pd_index_is_low i) then s
  else
    let a := aspace s as_ in
    let word := i / 32 in
    set_aspace as_ (AddressSpace (pd_virt a) (pd_phys a)
      (owned_pt_words a).[word <- Z.lor (owned_pt_words a).[word] (bit32 (i mod 32))]
      (is_kernel a)) s.

Definition paging_is_owned_pt (s : paging) (as_ i : Z) : bool :=
  if (as_ =? 0) || negb (paging_pd_index_is_low i) then false
  else test_bit (owned_pt_words (aspace s as_)).[i / 32] (i mod 32).

Definition paging_high_half_index : Z := Z.shiftr KERNEL_VIRTUAL_BASE 22.

Definition paging_lookup_kernel_page_table (i : Z) (s : paging) : Z :=
  let high_half_index := paging_high_half_index in
  if i <? KERNEL_EARLY_PAGE_TABLE_COUNT then (g_early_page_tables s).[i]
  else if (high_half_index <=? i) && (i <? high_half_index + KERNEL_EARLY_PAGE_TABLE_COUNT) then
    (g_early_page_tables s).[i - high_half_index]
  else (g_dynamic_page_tables s).[i].

(** The table's address, 0 when there is none. *)
Definition paging_alloc_kernel_dynamic_page_table (i : Z) (s : paging) : Z * paging :=
  let found := paging_lookup_kernel_page_table i s in
  if negb (found =? 0) then (found, s)
  else
    let '(pt, s) := kmalloc_page s in
    if pt =? 0 then (0, s)
    else
      match paging_virt_to_phys pt with
      | Err _ => (0, kfree_at pt s)
      | Ok pt_phys =>
          let s := vfill pt zero_page s in
          let s := set_tables (g_early_page_tables s) (g_dynamic_page_tables s).[i <- pt] s in
          (pt, vwrite (g_kernel_pd_virt s) i (pw pt_phys) s)
      end.

(** The page-table entry of [va]: the table's pointer and the index in it. *)
Definition paging_aspace_lookup_pte (as_ va : Z) (s : paging) : res (Z * Z) :=
  if as_ =? 0 then Err KERR_INVAL
  else
    let pde := vread (pd_virt (aspace s as_)) (pd_index va) s in
    if negb (flag pde PAGING_PAGE_FLAG_PRESENT) then Err KERR_NOENT
    else
      match paging_phys_to_virt (Z.land pde PAGE_MASK) with
      | Err _ => Err KERR_FAULT
      | Ok pt_virt => Ok (pt_virt, pt_index va)
      end.

(** Every caller passes a null [out_pt]. *)
Definition paging_aspace_ensure_private_pt (as_ i : Z) (s : paging) : res unit * paging :=
  if (as_ =? 0) || negb (paging_pd_index_is_low i) then (Err KERR_INVAL, s)
  else
    let pdv := pd_virt (aspace s as_) in
    let pde := vread pdv i s in
    if negb (flag pde PAGING_PAGE_FLAG_PRESENT) then (Err KERR_NOENT, s)
    else if paging_is_owned_pt s as_ i then (Ok tt, s)
    else
      match paging_phys_to_virt (Z.land pde PAGE_MASK) with
      | Err _ => (Err KERR_FAULT, s)
      | Ok src_pt =>
          let '(new_pt, s) := kmalloc_page s in
          if new_pt =? 0 then (Err KERR_NOMEM, s)
          else
            match paging_virt_to_phys new_pt with
            | Err _ => (Err KERR_FAULT, s)
            | Ok new_phys =>
                let s := vfill new_pt (vpage src_pt s) s in
                let s := vwrite pdv i (Z.lor new_phys (Z.land pde 4095)) s in
                (Ok tt, paging_mark_owned_pt as_ i s)
            end
      end.

(** The address of the new structure, 0 when there is no memory. *)
Definition paging_alloc_aspace (s : paging) : Z * paging :=
  let '(as_, h) := kmalloc sizeof_address_space (heap s) in
  let s := set_heap h s in
  if as_ =? 0 then (0, s)
  else
    let s := set_aspace as_ (AddressSpace 0 0 (replicate 24 0) false) s in
    let '(pd, s) := kmalloc_page s in
    if pd =? 0 then (0, kfree_at as_ s)
    else
      let s := vfill pd zero_page s in
      match paging_virt_to_phys pd with
      | Err _ => (0, kfree_at as_ (kfree_at pd
                   (set_aspace as_ (AddressSpace pd 0 (replicate 24 0) false) s)))
      | Ok p => (as_, set_aspace as_ (AddressSpace pd p (replicate 24 0) false) s)
      end.

Definition paging_free_aspace_storage (as_ : Z) (s : paging) : paging :=
  if (as_ =? 0) || is_kernel (aspace s as_) then s
  else if negb (pd_virt (aspace s as_) =? 0) then kfree_at (pd_virt (aspace s as_)) s
  else s.

(** * Reference counts of shared frames *)

Definition paging_cow_hash (frame : Z) : Z := mul32 frame 2654435761 mod PAGING_COW_META_CAP.

(** The results of [paging_cow_find_slot]: 0 with the frame's slot,
    [-KERR_NOENT] with a free one, [-KERR_NOMEM]. *)
Inductive cow_slot :=
  | Found (slot : Z)
  | Missing (free_slot : Z)
  | Full.

Definition cow_slot_err (r : cow_slot) : option kerr :=
  match r with Found _ => None | Missing _ => Some KERR_NOENT | Full => Some KERR_NOMEM end.

Definition paging_cow_find_slot (frame : Z) (c : list cow_meta) : cow_slot :=
  let idx := paging_cow_hash frame in
  default Full
    (search_range 0 PAGING_COW_META_CAP (λ probe,
       let slot := add32 idx probe mod PAGING_COW_META_CAP in
       let meta := c.[slot] in
       if cm_in_use meta then
         if cm_frame meta =? frame then Some (Found slot) else None
       else Some (Missing slot))).

Definition cow_empty : cow_meta := CowMeta 0 0 false false.

Definition paging_cow_set_refs (frame refs : Z) (owned : bool) (c : list cow_meta)
    : res unit * list cow_meta :=
  match paging_cow_find_slot frame c with
  | Missing i => (Ok tt, c.[i <- CowMeta frame refs true owned])
  | Found i => (Ok tt, c.[i <- CowMeta (cm_frame c.[i]) refs (cm_in_use c.[i]) owned])
  | Full => (Err KERR_NOMEM, c)
  end.

Definition paging_cow_inc_ref (frame : Z) (c : list cow_meta) : res unit * list cow_meta :=
  match paging_cow_find_slot frame c with
  | Found i =>
      (Ok tt, c.[i <- CowMeta (cm_frame c.[i]) (add32 (cm_refs c.[i]) 1) (cm_in_use c.[i])
                             (cm_owned c.[i])])
  | Missing _ => (Err KERR_NOENT, c)
  | Full => (Err KERR_NOMEM, c)
  end.

Definition paging_cow_get (frame : Z) (c : list cow_meta) : res (Z * bool) :=
  match paging_cow_find_slot frame c with
  | Found i => Ok (cm_refs c.[i], cm_owned c.[i])
  | Missing _ => Err KERR_NOENT
  | Full => Err KERR_NOMEM
  end.

Definition paging_cow_dec_ref (frame : Z) (c : list cow_meta)
    : res (Z * bool) * list cow_meta :=
  match paging_cow_find_slot frame c with
  | Missing _ => (Err KERR_NOENT, c)
  | Full => (Err KERR_NOMEM, c)
  | Found i =>
      let meta := c.[i] in
      if cm_refs meta =? 0 then (Ok (0, cm_owned meta), c)
      else
        let refs := sub32 (cm_refs meta) 1 in
        (Ok (refs, cm_owned meta),
         c.[i <- if refs =? 0 then cow_empty
                 else CowMeta (cm_frame meta) refs (cm_in_use meta) (cm_owned meta)])
  end.

Definition paging_cow_remove (frame : Z) (c : list cow_meta) : list cow_meta :=
  match paging_cow_find_slot frame c with
  | Found i => c.[i <- cow_empty]
  | _ => c
  end.

Definition kfree_frame (frame : Z) (s : paging) : paging :=
  match paging_phys_to_virt frame with
  | Ok frame_virt => kfree_at frame_virt s
  | Err _ => s
  end.

Definition paging_release_user_mapping (pte : Z) (s : paging) : paging :=
  if negb (flag pte PAGING_PAGE_FLAG_PRESENT) then s
  else
    let frame := Z.land pte PAGE_MASK in
    if flag pte PAGING_PAGE_FLAG_COW then
      match paging_cow_dec_ref frame (g_cow_meta s) with
      | (Ok (refs, owned), c) =>
          let s := set_cow c s in
          if (refs =? 0) && owned then kfree_frame frame s else s
      | (Err _, c) => set_cow c s
      end
    else if flag pte PAGING_PAGE_FLAG_OWNED then kfree_frame frame s
    else s.

(** * Start-up *)

(** [pt_low[i] = (t * PAGE_TABLE_SPAN_BYTES + i * PAGE_SIZE_BYTES) | ...] *)
Definition early_page_table (t : Z) (old : list Z) : list Z :=
  for_range 0 PAGE_TABLE_ENTRIES (λ i pt,
    pt.[i <- pw (add32 (mul32 t PAGE_TABLE_SPAN_BYTES) (mul32 i PAGE_SIZE_BYTES))]) old.

(** One early page table; the error stands for the logged early return. *)
Definition init_early_table (t : Z) (sp : paging * pmm_state) : res unit * (paging * pmm_state) :=
  let '(s, pm) := sp in
  let '(pt_phys, pm) := pmm_alloc_frame pm in
  if pt_phys =? 0 then (Err KERR_NOMEM, (s, pm))
  else
    let s := set_phys (<[pt_phys := early_page_table t (page (phys s) pt_phys)]> (phys s)) s in
    (Ok tt, (set_tables (g_early_page_tables s).[t <- add32 KERNEL_VIRTUAL_BASE pt_phys]
                        (g_dynamic_page_tables s) s, pm)).

Definition init_directory_entry (pd_low t : Z) (s : paging) : res unit * paging :=
  match paging_virt_to_phys (g_early_page_tables s).[t] with
  | Err e => (Err e, s)
  | Ok pt_phys =>
      (Ok tt, set_phys (write_word pd_low (Z.shiftr KERNEL_VIRTUAL_BASE 22 + t) (pw pt_phys)
                          (write_word pd_low t (pw pt_phys) (phys s))) s)
  end.

Definition init_finish (pd : Z) (s : paging) : paging :=
  Paging pd (add32 KERNEL_VIRTUAL_BASE pd) (g_early_page_tables s) (replicate 1024 0)
         g_kernel_as (replicate 2048 cow_empty) true (paging_enabled_flag s) (cr3 s)
         (<[g_kernel_as := AddressSpace (add32 KERNEL_VIRTUAL_BASE pd) pd (replicate 24 0) true]>
            (aspaces s)) (phys s) (heap s).

(** Paging is off: a physical address is a pointer. *)
Definition paging_init (s : paging) (pm : pmm_state) : paging * pmm_state :=
  let '(pd, pm) := pmm_alloc_frame pm in
  if pd =? 0 then (s, pm)
  else
    match each init_early_table (seqZ 0 KERNEL_EARLY_PAGE_TABLE_COUNT) (s, pm) with
    | (Err _, (s, pm)) => (s, pm)
    | (Ok _, (s, pm)) =>
        let s := set_phys (<[pd := for_range 0 PAGE_DIRECTORY_ENTRIES
                                     (λ i ws, ws.[i <- PAGING_PAGE_FLAG_WRITABLE])
                                     (page (phys s) pd)]> (phys s)) s in
        match each (init_directory_entry pd) (seqZ 0 KERNEL_EARLY_PAGE_TABLE_COUNT) s with
        | (Err _, s) => (s, pm)
        | (Ok _, s) =>
            if KERNEL_EARLY_MAP_BYTES <=? PMM_BITMAP_PHYS_BASE then (s, pm)
            else (init_finish pd s, pm)
        end
    end.

Definition paging_enable (s : paging) : paging :=
  if g_kernel_pd_phys s =? 0 then s
  else
    let s := set_current g_kernel_as (load_page_directory (g_kernel_pd_phys s) s) in
    Paging (g_kernel_pd_phys s) (g_kernel_pd_virt s) (g_early_page_tables s)
           (g_dynamic_page_tables s) (g_current_as s) (g_cow_meta s) (paging_ready_flag s) true
           (cr3 s) (aspaces s) (phys s) (heap s).

(** * Kernel mappings *)

(** The pages from [a] up to [b] in steps of a page; the callers' bounds are
    page-aligned, so the counter does not wrap. *)
Definition pages (a b : Z) : list Z :=
  (λ k, a + k * PAGE_SIZE_BYTES) <$> seqZ 0 ((b - a + 4095) / PAGE_SIZE_BYTES).

Definition reload_current (s : paging) : paging :=
  if paging_enabled_flag s && negb (g_current_as s =? 0)
  then load_page_directory (pd_phys (aspace s (g_current_as s))) s else s.

Definition mark_user_page (addr : Z) (s : paging) : res unit * paging :=
  let i := pd_index addr in
  if KERNEL_EARLY_PAGE_TABLE_COUNT <=? i then (Err KERR_INVAL, s)
  else
    let pt := (g_early_page_tables s).[i] in
    if pt =? 0 then (Err KERR_FAULT, s)
    else
      let s := vwrite (g_kernel_pd_virt s) i
                 (Z.lor (vread (g_kernel_pd_virt s) i s) PAGING_PAGE_FLAG_USER) s in
      (Ok tt, vwrite pt (pt_index addr) (Z.lor (vread pt (pt_index addr) s) PAGING_PAGE_FLAG_USER) s).

Definition paging_mark_user_region (vaddr length : Z) (s : paging) : res unit * paging :=
  if length =? 0 then (Err KERR_INVAL, s)
  else if KERNEL_EARLY_MAP_BYTES <=? vaddr then (Err KERR_INVAL, s)
  else if add32 vaddr length <? vaddr then (Err KERR_INVAL, s)
  else
    let end_ := add32 vaddr length in
    if KERNEL_EARLY_MAP_BYTES <? end_ then (Err KERR_INVAL, s)
    else
      let start := Z.land vaddr PAGE_MASK in
      let end_ := Z.land (sub32 (add32 end_ PAGE_SIZE_BYTES) 1) PAGE_MASK in
      trys! _, s := each mark_user_page (pages start end_) s in
      (Ok tt, reload_current s).

Definition map_kernel_page (vaddr phys_base flags offset : Z) (s : paging) : res unit * paging :=
  let va := add32 vaddr offset in
  let pa := add32 phys_base offset in
  let i := pd_index va in
  let pt := paging_lookup_kernel_page_table i s in
  let '(pt, s) := if pt =? 0 then paging_alloc_kernel_dynamic_page_table i s else (pt, s) in
  if pt =? 0 then (Err KERR_NOMEM, s)
  else (Ok tt, vwrite pt (pt_index va) (Z.lor pa flags) s).

Definition paging_map_kernel_region (vaddr paddr length page_flags : Z) (s : paging)
    : res unit * paging :=
  if length =? 0 then (Err KERR_INVAL, s)
  else if vaddr <? KERNEL_VIRTUAL_BASE then (Err KERR_INVAL, s)
  else if negb (Z.land vaddr 4095 =? 0) then (Err KERR_INVAL, s)
  else
    let phys_base := Z.land paddr PAGE_MASK in
    let phys_offset := sub32 paddr phys_base in
    if sub32 4294967295 phys_offset <? length then (Err KERR_INVAL, s)
    else
      let map_length := add32 length phys_offset in
      if 4294967295 - 4095 <? map_length then (Err KERR_INVAL, s)
      else
        let map_length := Z.land (sub32 (add32 map_length PAGE_SIZE_BYTES) 1) PAGE_MASK in
        if sub32 4294967295 map_length <? vaddr then (Err KERR_INVAL, s)
        else
          let flags := Z.lor page_flags PAGING_PAGE_FLAG_PRESENT in
          trys! _, s := each (map_kernel_page vaddr phys_base flags) (pages 0 map_length) s in
          (Ok tt, reload_current s).

(** * Address spaces *)

Definition paging_current_address_space (s : paging) : Z :=
  if g_current_as s =? 0 then g_kernel_as else g_current_as s.

Definition paging_activate_address_space (as_ : Z) (s : paging) : res unit * paging :=
  let as_ := if as_ =? 0 then g_kernel_as else as_ in
  if negb (paging_ready_flag s) then (Err KERR_NOTSUP, s)
  else if g_current_as s =? as_ then (Ok tt, s)
  else
    let s := set_current as_ s in
    (Ok tt, if paging_enabled_flag s then load_page_directory (pd_phys (aspace s as_)) s else s).

(** [end = (base + size + PAGE_SIZE_BYTES - 1) & ~...; base &= ~...] *)
Definition range_start (r : user_range) : Z := Z.land (ur_base r) PAGE_MASK.

Definition range_end (r : user_range) : Z :=
  Z.land (sub32 (add32 (add32 (ur_base r) (ur_size r)) PAGE_SIZE_BYTES) 1) PAGE_MASK.

Definition range_pages (r : user_range) : list Z := pages (range_start r) (range_end r).

Definition private_page (as_ va : Z) (s : paging) : res unit * paging :=
  let i := pd_index va in
  if negb (paging_pd_index_is_low i) then (Err KERR_INVAL, s)
  else paging_aspace_ensure_private_pt as_ i s.

Definition private_range (as_ : Z) (r : user_range) (s : paging) : res unit * paging :=
  if ur_size r =? 0 then (Ok tt, s)
  else if add32 (ur_base r) (ur_size r) <? ur_base r then (Err KERR_INVAL, s)
  else each (private_page as_) (range_pages r) s.

Definition paging_clone_user_pts_for_ranges (as_ : Z) (rs : list user_range) (s : paging)
    : res unit * paging := each (private_range as_) rs s.

(** The entries of one owned table, then the table itself. *)
Definition destroy_table (as_ i : Z) (s : paging) : paging :=
  if negb (paging_is_owned_pt s as_ i) then s
  else
    let pdv := pd_virt (aspace s as_) in
    let pde := vread pdv i s in
    if negb (flag pde PAGING_PAGE_FLAG_PRESENT) then s
    else
      match paging_phys_to_virt (Z.land pde PAGE_MASK) with
      | Err _ => s
      | Ok pt =>
          let s := for_range 0 PAGE_TABLE_ENTRIES (λ k s,
                     vwrite pt k 0 (paging_release_user_mapping (vread pt k s) s)) s in
          vwrite pdv i 0 (kfree_at pt s)
      end.

Definition paging_destroy_address_space (as_ : Z) (s : paging) : paging :=
  if (as_ =? 0) || is_kernel (aspace s as_) then s
  else paging_free_aspace_storage as_ (for_range 0 PAGING_LOW_PD_COUNT (destroy_table as_) s).

(** The body of the loop over ranges is [private_range]; any error destroys the
    new space. *)
Definition paging_create_user_address_space (rs : list user_range) (s : paging) : res Z * paging :=
  if bool_decide (rs = []) then (Err KERR_INVAL, s)
  else
    let src_as := paging_current_address_space s in
    let '(as_, s) := paging_alloc_aspace s in
    if as_ =? 0 then (Err KERR_NOMEM, s)
    else
      let s := vfill (pd_virt (aspace s as_)) (vpage (pd_virt (aspace s src_as)) s) s in
      match each (private_range as_) rs s with
      | (Err e, s) => (Err e, paging_destroy_address_space as_ s)
      | (Ok _, s) => (Ok as_, s)
      end.

(** * Copy on write *)

Definition paging_cow_count_free_slots_locked (c : list cow_meta) : Z :=
  for_range 0 PAGING_COW_META_CAP (λ i n, if cm_in_use c.[i] then n else add32 n 1) 0.

(** The entry of a page, 0 when it has none: the cases that the loops skip. *)
Definition entry_of (as_ va : Z) (s : paging) : Z :=
  match paging_aspace_lookup_pte as_ va s with
  | Ok (pt, k) => vread pt k s
  | Err _ => 0
  end.

(** One page of the preflight, which counts the slots it will need. *)
Definition preflight_page (parent_as : Z) (s : paging) (va needed : Z) : res Z :=
  match paging_aspace_lookup_pte parent_as va s with
  | Err _ => Ok needed
  | Ok (pt, k) =>
      let pte := vread pt k s in
      if negb (flag pte PAGING_PAGE_FLAG_PRESENT) || negb (flag pte PAGING_PAGE_FLAG_USER)
      then Ok needed
      else
        let slot_rc := paging_cow_find_slot (Z.land pte PAGE_MASK) (g_cow_meta s) in
        if flag pte PAGING_PAGE_FLAG_COW then
          match slot_rc with Found _ => Ok needed | _ => Err KERR_FAULT end
        else if negb (flag pte PAGING_PAGE_FLAG_WRITABLE) then Ok needed
        else
          match slot_rc with
          | Missing _ => Ok (add32 needed 1)
          | Found _ => Ok needed
          | Full => Err KERR_NOMEM
          end
  end.

Fixpoint preflight_pages (parent_as : Z) (s : paging) (vas : list Z) (needed : Z) : res Z :=
  match vas with
  | [] => Ok needed
  | va :: vas' =>
      try! needed := preflight_page parent_as s va needed in preflight_pages parent_as s vas' needed
  end.

Fixpoint preflight_ranges (parent_as : Z) (s : paging) (rs : list user_range) (needed : Z) : res Z :=
  match rs with
  | [] => Ok needed
  | r :: rs' =>
      if ur_size r =? 0 then preflight_ranges parent_as s rs' needed
      else if add32 (ur_base r) (ur_size r) <? ur_base r then Err KERR_INVAL
      else try! needed := preflight_pages parent_as s (range_pages r) needed in
           preflight_ranges parent_as s rs' needed
  end.

Definition paging_clone_preflight_cow (parent_as : Z) (rs : list user_range) (s : paging) : res unit :=
  if (parent_as =? 0) || bool_decide (rs = []) then Err KERR_INVAL
  else
    try! needed := preflight_ranges parent_as s rs 0 in
    if paging_cow_count_free_slots_locked (g_cow_meta s) <? needed then Err KERR_NOMEM
    else Ok tt.

(** The new entry of a shared page. *)
Definition cow_pte (pte : Z) (owned : bool) : Z :=
  let new_flags := Z.land (Z.land pte 4095) (not32 PAGING_PAGE_FLAG_WRITABLE) in
  let new_flags := Z.lor new_flags PAGING_PAGE_FLAG_COW in
  let new_flags := if owned then Z.lor new_flags PAGING_PAGE_FLAG_OWNED else new_flags in
  Z.lor (Z.land pte PAGE_MASK) new_flags.

Definition clone_page (parent_as child_as va : Z) (s : paging) : res unit * paging :=
  match paging_aspace_lookup_pte parent_as va s, paging_aspace_lookup_pte child_as va s with
  | Ok (ppt, k), Ok (cpt, _) =>
      let pte := vread ppt k s in
      if negb (flag pte PAGING_PAGE_FLAG_PRESENT) || negb (flag pte PAGING_PAGE_FLAG_USER)
      then (Ok tt, s)
      else
        let frame := Z.land pte PAGE_MASK in
        let owned := flag pte PAGING_PAGE_FLAG_OWNED in
        let share c :=
          let new := cow_pte pte owned in
          (Ok tt, vwrite cpt k new (vwrite ppt k new (set_cow c s))) in
        if flag pte PAGING_PAGE_FLAG_COW then
          match paging_cow_inc_ref frame (g_cow_meta s) with
          | (Err _, _) => (Err KERR_NOMEM, s)
          | (Ok _, c) => share c
          end
        else if flag pte PAGING_PAGE_FLAG_WRITABLE then
          match paging_cow_set_refs frame 2 owned (g_cow_meta s) with
          | (Err _, _) => (Err KERR_NOMEM, s)
          | (Ok _, c) => share c
          end
        else (Ok tt, vwrite cpt k pte s)
  | _, _ => (Ok tt, s)
  end.

Definition clone_range (parent_as child_as : Z) (r : user_range) (s : paging) : res unit * paging :=
  if ur_size r =? 0 then (Ok tt, s) else each (clone_page parent_as child_as) (range_pages r) s.

Definition paging_clone_address_space_cow (parent_as : Z) (rs : list user_range) (s : paging)
    : res Z * paging :=
  if (parent_as =? 0) || bool_decide (rs = []) then (Err KERR_INVAL, s)
  else
    let '(child_as, s) := paging_alloc_aspace s in
    if child_as =? 0 then (Err KERR_NOMEM, s)
    else
      let s := vfill (pd_virt (aspace s child_as)) (vpage (pd_virt (aspace s parent_as)) s) s in
      match
        (trys! _, s := paging_clone_user_pts_for_ranges parent_as rs s in
         paging_clone_user_pts_for_ranges child_as rs s)
      with
      | (Err _, s) => (Err KERR_NOMEM, paging_destroy_address_space child_as s)
      | (Ok _, s) =>
          match paging_clone_preflight_cow parent_as rs s with
          | Err e => (Err e, paging_destroy_address_space child_as s)
          | Ok _ =>
              match each (clone_range parent_as child_as) rs s with
              | (Err e, s) => (Err e, paging_destroy_address_space child_as s)
              | (Ok _, s) =>
                  (Ok child_as,
                   if (paging_current_address_space s =? parent_as) && paging_enabled_flag s
                   then load_page_directory (pd_phys (aspace s parent_as)) s else s)
              end
          end
      end.

(** The last holder of a frame takes it back. *)
Definition cow_reclaim (pt k old_pte : Z) (owned : bool) (s : paging) : paging :=
  let old_frame := Z.land old_pte PAGE_MASK in
  let new_flags := Z.lor (Z.land old_pte 4095) PAGING_PAGE_FLAG_WRITABLE in
  let new_flags := Z.land new_flags (not32 PAGING_PAGE_FLAG_COW) in
  let new_flags := if owned then Z.lor new_flags PAGING_PAGE_FLAG_OWNED
                   else Z.land new_flags (not32 PAGING_PAGE_FLAG_OWNED) in
  let s := set_cow (paging_cow_remove old_frame (g_cow_meta s)) s in
  vwrite pt k (Z.lor old_frame new_flags) s.

(** A holder of a frame that others hold gets a copy. *)
Definition cow_copy (pt k old_pte : Z) (s : paging) : res unit * paging :=
  let old_frame := Z.land old_pte PAGE_MASK in
  let '(new_page, s) := kmalloc_page s in
  if new_page =? 0 then (Err KERR_NOMEM, s)
  else
    match paging_virt_to_phys new_page, paging_phys_to_virt old_frame with
    | Ok new_phys, Ok old_page_virt =>
        let s := vfill new_page (vpage old_page_virt s) s in
        match paging_cow_dec_ref old_frame (g_cow_meta s) with
        | (Err _, c) => (Err KERR_FAULT, kfree_at new_page (set_cow c s))
        | (Ok (rem_refs, rem_owned), c) =>
            let s := set_cow c s in
            let s := if (rem_refs =? 0) && rem_owned then kfree_at old_page_virt s else s in
            let new_flags := Z.lor (Z.lor (Z.land old_pte 4095) PAGING_PAGE_FLAG_WRITABLE)
                                   PAGING_PAGE_FLAG_OWNED in
            let new_flags := Z.land new_flags (not32 PAGING_PAGE_FLAG_COW) in
            (Ok tt, vwrite pt k (Z.lor new_phys new_flags) s)
        end
    | _, _ => (Err KERR_FAULT, kfree_at new_page s)
    end.

Definition paging_handle_cow_fault (as_ fault_addr error_code : Z) (s : paging) : res unit * paging :=
  if as_ =? 0 then (Err KERR_INVAL, s)
  else if negb (Z.land error_code 7 =? 7) then (Err KERR_NOTSUP, s)
  else
    let va := Z.land fault_addr PAGE_MASK in
    match paging_aspace_lookup_pte as_ va s with
    | Err _ => (Err KERR_FAULT, s)
    | Ok (pt, k) =>
        let old_pte := vread pt k s in
        if negb (flag old_pte PAGING_PAGE_FLAG_PRESENT) || negb (flag old_pte PAGING_PAGE_FLAG_COW)
        then (Err KERR_NOTSUP, s)
        else
          let '(refs, owned) :=
            match paging_cow_get (Z.land old_pte PAGE_MASK) (g_cow_meta s) with
            | Ok ro => ro
            | Err _ => (1, flag old_pte PAGING_PAGE_FLAG_OWNED)
            end in
          if refs <=? 1 then (Ok tt, cow_reclaim pt k old_pte owned s)
          else cow_copy pt k old_pte s
    end.
