(* ===== verification/PagingMap.v ===== *)
(** kernel/paging.c: mapping.

    The words of page tables, how a write to a table changes the processor's
    walk, the invariant [kernel_wf] of the kernel's own tables and what start-up,
    [paging_mark_user_region] and [paging_map_kernel_region] do to the meaning of
    every address. *)

From S2P Require Import Prelude Pmm Kmalloc Paging.

(** * Words of tables *)

Lemma frame_of_word w : is_u32 w → Z.land w PAGE_MASK = w - w mod 4096.
Proof.
  intros Hw. unfold PAGE_MASK. change 4095 with (2 ^ 12 - 1).
  rewrite land_not_ones by (unfold two32 in *; lia). done.
Qed.

Lemma low_bits w : Z.land w 4095 = w mod 4096.
Proof. change 4095 with (Z.ones 12). rewrite Z.land_ones by lia. done. Qed.

(** A page address, page-aligned, with flags below it. *)
Lemma aligned_testbit a n : a mod 4096 = 0 → n < 12 → Z.testbit a n = false.
Proof.
  intros Ha Hn. destruct (Z.lt_ge_cases n 0); [by apply Z.testbit_neg_r|].
  rewrite <- (Z.mod_pow2_bits_low a 12 n) by lia. change (2 ^ 12) with 4096.
  by rewrite Ha, Z.bits_0.
Qed.

Lemma low_testbit x n : 0 ≤ x < 4096 → 12 ≤ n → Z.testbit x n = false.
Proof.
  intros Hx Hn. rewrite <- (Z.mod_small x (2 ^ 12)) by (change (2 ^ 12) with 4096; lia).
  apply Z.mod_pow2_bits_high. lia.
Qed.

Lemma lor_frame a x : a mod 4096 = 0 → 0 ≤ x < 4096 → Z.lor a x = a + x.
Proof.
  intros Ha Hx. rewrite <- Z.lxor_lor, <- Z.add_nocarry_lxor; [done| |];
    apply Z.bits_inj'; intros n Hn; rewrite Z.land_spec, Z.bits_0;
    (destruct (Z.lt_ge_cases n 12);
      [rewrite (aligned_testbit a n) by lia; done
      |rewrite (low_testbit x n) by lia; apply andb_false_r]).
Qed.

Lemma aligned_u32_add a x : is_u32 a → a mod 4096 = 0 → 0 ≤ x < 4096 → is_u32 (a + x).
Proof.
  intros Hu Ha Hx. pose proof (Z.div_mod a 4096 ltac:(lia)) as Hd. rewrite Ha in Hd.
  unfold two32 in *. split; [lia|]. assert (a / 4096 < 1048576) by (apply Z.div_lt_upper_bound; lia). lia.
Qed.

Section entry.
Context (a x : Z) (Hu : is_u32 a) (Ha : a mod 4096 = 0) (Hx : 0 ≤ x < 4096).

Lemma entry_frame : Z.land (Z.lor a x) PAGE_MASK = a.
Proof.
  rewrite lor_frame, frame_of_word by (done || by apply aligned_u32_add).
  rewrite Z.add_mod, Ha, Z.add_0_l, Z.mod_mod, Z.mod_small by lia. lia.
Qed.

Lemma entry_low : Z.land (Z.lor a x) 4095 = x.
Proof.
  rewrite lor_frame, low_bits by done. rewrite Z.add_mod, Ha, Z.add_0_l, Z.mod_mod, Z.mod_small by lia.
  lia.
Qed.

Lemma entry_flag k : 0 ≤ k < 12 → flag (Z.lor a x) (2 ^ k) = flag x (2 ^ k).
Proof.
  intros Hk. unfold flag. rewrite Z.land_lor_distr_l.
  replace (Z.land a (2 ^ k)) with 0; [done|]. symmetry. apply Z.bits_inj'. intros n Hn.
  rewrite Z.land_spec, Z.bits_0. destruct (decide (n = k)) as [->|Hne].
  - by rewrite aligned_testbit by lia.
  - rewrite Z.pow2_bits_false by lia. apply andb_false_r.
Qed.
End entry.

Lemma flag_testbit w k : 0 ≤ k → flag w (2 ^ k) = Z.testbit w k.
Proof.
  intros Hk. rewrite <- test_bit_testbit by done. unfold flag, test_bit, bit32.
  by rewrite Z.shiftl_mul_pow2, Z.mul_1_l by lia.
Qed.

(** Setting a flag of a word: the other bits stay. *)
Lemma flag_lor w v k : 0 ≤ k → flag (Z.lor w v) (2 ^ k) = flag w (2 ^ k) || flag v (2 ^ k).
Proof. intros Hk. by rewrite !flag_testbit, Z.lor_spec by done. Qed.

Lemma flag_land w v k : 0 ≤ k → flag (Z.land w v) (2 ^ k) = flag w (2 ^ k) && flag v (2 ^ k).
Proof. intros Hk. by rewrite !flag_testbit, Z.land_spec by done. Qed.

Lemma frame_lor_low w f : is_u32 w → 0 ≤ f < 4096 → Z.land (Z.lor w f) PAGE_MASK = Z.land w PAGE_MASK.
Proof.
  intros Hw Hf. rewrite Z.land_lor_distr_l. replace (Z.land f PAGE_MASK) with 0; [apply Z.lor_0_r|].
  rewrite frame_of_word by (unfold two32; lia). rewrite Z.mod_small by lia. lia.
Qed.

Lemma lor_low x y : 0 ≤ x < 4096 → 0 ≤ y < 4096 → 0 ≤ Z.lor x y < 4096.
Proof.
  intros Hx Hy. assert (E : Z.lor x y = Z.land (Z.lor x y) (Z.ones 12)).
  { apply Z.bits_inj'. intros n Hn. rewrite Z.land_spec, Z.lor_spec.
    destruct (Z.lt_ge_cases n 12).
    - by rewrite Z.ones_spec_low, andb_true_r by lia.
    - by rewrite !low_testbit by lia. }
  rewrite E, Z.land_ones by lia. apply Z.mod_pos_bound. lia.
Qed.

Lemma frame_aligned w : is_u32 w → Z.land w PAGE_MASK mod 4096 = 0.
Proof. intros Hw. rewrite frame_of_word by done. rewrite Zminus_mod_idemp_r, Z.sub_diag. done. Qed.

Lemma frame_u32 w : is_u32 w → is_u32 (Z.land w PAGE_MASK).
Proof. apply land_u32. Qed.

(** A word is its frame and its flags. *)
Lemma word_split w : is_u32 w → Z.lor (Z.land w PAGE_MASK) (Z.land w 4095) = w.
Proof.
  intros Hw. rewrite lor_frame.
  - rewrite frame_of_word, low_bits by done. lia.
  - by apply frame_aligned.
  - rewrite low_bits. apply Z.mod_pos_bound. lia.
Qed.

(** * Indices *)

Lemma pd_index_div va : pd_index va = va / 4194304.
Proof. unfold pd_index. by rewrite Z.shiftr_div_pow2. Qed.

Lemma pt_index_div va : pt_index va = va / 4096 mod 1024.
Proof.
  unfold pt_index. rewrite Z.shiftr_div_pow2 by lia. change 1023 with (Z.ones 10).
  by rewrite Z.land_ones.
Qed.

Lemma pd_index_bound va : is_u32 va → 0 ≤ pd_index va < 1024.
Proof.
  intros Hv. rewrite pd_index_div. unfold two32 in Hv.
  split; [apply Z.div_pos; lia|apply Z.div_lt_upper_bound; lia].
Qed.

Lemma pt_index_bound va : 0 ≤ pt_index va < 1024.
Proof. rewrite pt_index_div. apply Z.mod_pos_bound. lia. Qed.

Lemma pd_pt_index va : va / 4096 = pd_index va * 1024 + pt_index va.
Proof.
  rewrite pd_index_div, pt_index_div. change 4194304 with (4096 * 1024).
  rewrite <- Z.div_div by lia. pose proof (Z.div_mod (va / 4096) 1024 ltac:(lia)). lia.
Qed.

Lemma index_page_inj a b : pd_index a = pd_index b → pt_index a = pt_index b → a / 4096 = b / 4096.
Proof. intros H1 H2. by rewrite !pd_pt_index, H1, H2. Qed.

Lemma page_index a b : a / 4096 = b / 4096 → pd_index a = pd_index b ∧ pt_index a = pt_index b.
Proof.
  intros H. rewrite !pd_index_div, !pt_index_div, H. split; [|done].
  change 4194304 with (4096 * 1024). by rewrite <- !Z.div_div, H by lia.
Qed.

(** * Memory *)

Definition mem_wf (ph : gmap Z (list Z)) : Prop :=
  ∀ p, alen (page ph p) = 1024 ∧ Forall (λ w, is_u32 w) (page ph p).

Lemma page_insert ph p q ws : page (<[p := ws]> ph) q = if decide (p = q) then ws else page ph q.
Proof.
  unfold page. case_decide; [subst; by rewrite lookup_insert_eq|by rewrite lookup_insert_ne].
Qed.

Lemma page_write ph p q i w :
  page (write_word p i w ph) q = if decide (p = q) then (page ph p).[i <- w] else page ph q.
Proof. apply page_insert. Qed.

Lemma mem_wf_insert ph p ws :
  mem_wf ph → alen ws = 1024 → Forall (λ w, is_u32 w) ws → mem_wf (<[p := ws]> ph).
Proof. intros Hm Hl Hf q. rewrite page_insert. by case_decide. Qed.

Lemma mem_wf_write ph p i w : mem_wf ph → is_u32 w → mem_wf (write_word p i w ph).
Proof.
  intros Hm Hw. destruct (Hm p). apply mem_wf_insert; [done|by rewrite alen_aset|by apply Forall_aset].
Qed.

Lemma mem_word ph p i : mem_wf ph → 0 ≤ i < 1024 → is_u32 (page ph p).[i].
Proof.
  intros Hm Hi. destruct (Hm p) as [Hl Hf]. apply (Forall_aget (λ w, is_u32 w)); [done|]. by rewrite Hl.
Qed.

Lemma zero_page_u32 : alen zero_page = 1024 ∧ Forall (λ w, is_u32 w) zero_page.
Proof. split; [done|]. apply Forall_replicate. unfold two32; lia. Qed.

#[export] Hint Resolve mem_wf_insert mem_wf_write mem_word : paging.

(** * Writes and walks *)

(** The directory and table an address is translated through stay, so does its
    meaning. *)
Lemma translate_ext ph ph' pd va :
  (page ph' pd).[pd_index va] = (page ph pd).[pd_index va] →
  (let pt := Z.land (page ph pd).[pd_index va] PAGE_MASK in
   (page ph' pt).[pt_index va] = (page ph pt).[pt_index va]) →
  translate ph' pd va = translate ph pd va.
Proof. intros H1 H2. unfold translate, mmu_walk. rewrite H1. simpl in H2. by rewrite H2. Qed.

(** What an address means, from its two entries. *)
Lemma translate_entries ph pd va pde pte :
  (page ph pd).[pd_index va] = pde → flag pde PAGING_PAGE_FLAG_PRESENT = true →
  (page ph (Z.land pde PAGE_MASK)).[pt_index va] = pte → flag pte PAGING_PAGE_FLAG_PRESENT = true →
  translate ph pd va =
    Some (Z.lor (Z.land pte PAGE_MASK) (Z.land va 4095),
          flag pde PAGING_PAGE_FLAG_USER && flag pte PAGING_PAGE_FLAG_USER,
          flag pde PAGING_PAGE_FLAG_WRITABLE && flag pte PAGING_PAGE_FLAG_WRITABLE).
Proof. intros H1 H2 H3 H4. unfold translate, mmu_walk. by rewrite H1, H2, H3, H4. Qed.

Lemma translate_no_pde ph pd va :
  flag (page ph pd).[pd_index va] PAGING_PAGE_FLAG_PRESENT = false → translate ph pd va = None.
Proof. intros H. unfold translate, mmu_walk. by rewrite H. Qed.

Lemma translate_no_pte ph pd va :
  flag (page ph (Z.land (page ph pd).[pd_index va] PAGE_MASK)).[pt_index va]
       PAGING_PAGE_FLAG_PRESENT = false → translate ph pd va = None.
Proof. intros H. unfold translate, mmu_walk. rewrite H. by case_match. Qed.

(** * The kernel's own tables *)

(** A page of the window the kernel reaches, other than page 0. *)
Definition page_addr (p : Z) : Prop := 0 < p < KERNEL_EARLY_MAP_BYTES ∧ p mod 4096 = 0.

(** Indices 768 to 775 of the directory are aliases of 0 to 7. *)
Definition canon (i : Z) : Z := if (768 <=? i) && (i <? 776) then i - 768 else i.

Definition kpde (s : paging) (i : Z) : Z := (page (phys s) (g_kernel_pd_phys s)).[i].

Definition kpte (s : paging) (i k : Z) : Z :=
  (page (phys s) (paging_lookup_kernel_page_table i s - KERNEL_VIRTUAL_BASE)).[k].

(** The kernel's tables are pages of their own: the early ones and the directory
    outside the heap, the dynamic ones blocks of it. *)
Record tables_wf (s : paging) : Prop := {
  tw_mem : mem_wf (phys s);
  tw_pd : page_addr (g_kernel_pd_phys s) ∧
          g_kernel_pd_virt s = KERNEL_VIRTUAL_BASE + g_kernel_pd_phys s;
  tw_len : alen (g_early_page_tables s) = 8 ∧ alen (g_dynamic_page_tables s) = 1024;
  tw_addr : ∀ i, 0 ≤ i < 1024 → paging_lookup_kernel_page_table i s ≠ 0 →
            page_addr (paging_lookup_kernel_page_table i s - KERNEL_VIRTUAL_BASE);
  tw_early : ∀ i, 0 ≤ i < 8 → paging_lookup_kernel_page_table i s ≠ 0;
  tw_inj : ∀ i j, 0 ≤ i < 1024 → 0 ≤ j < 1024 → paging_lookup_kernel_page_table i s ≠ 0 →
           paging_lookup_kernel_page_table i s = paging_lookup_kernel_page_table j s →
           canon i = canon j;
  tw_not_pd : ∀ i, 0 ≤ i < 1024 → paging_lookup_kernel_page_table i s ≠ g_kernel_pd_virt s;
  tw_heap : heap_wf (heap s) ∧ KERNEL_VIRTUAL_BASE < heap_base (heap s) ∧
            heap_end (heap s) ≤ KERNEL_VIRTUAL_BASE + KERNEL_EARLY_MAP_BYTES;
  tw_outside : ∀ v, v = g_kernel_pd_virt s ∨ (∃ i, 0 ≤ i < 8 ∧ v = paging_lookup_kernel_page_table i s) →
               v + 4096 ≤ heap_base (heap s) ∨ heap_end (heap s) ≤ v;
  tw_live : ∀ i, 8 ≤ i < 1024 → canon i = i → paging_lookup_kernel_page_table i s ≠ 0 →
            ∃ n, 4096 ≤ n ∧ live (heap s) (paging_lookup_kernel_page_table i s) n
}.

(** Their contents: every table is entered in the directory, supervisor-only
    from index 8 on; the early tables map each address below
    [KERNEL_EARLY_MAP_BYTES] to itself, for the user only where the directory
    entry is the user's as well. *)
Record kernel_wf (s : paging) : Prop := {
  kw_tables : tables_wf s;
  kw_pde : ∀ i, 0 ≤ i < 1024 →
    if paging_lookup_kernel_page_table i s =? 0 then flag (kpde s i) PAGING_PAGE_FLAG_PRESENT = false
    else Z.land (kpde s i) PAGE_MASK = paging_lookup_kernel_page_table i s - KERNEL_VIRTUAL_BASE ∧
         flag (kpde s i) PAGING_PAGE_FLAG_PRESENT = true ∧
         flag (kpde s i) PAGING_PAGE_FLAG_WRITABLE = true ∧
         (8 ≤ i → flag (kpde s i) PAGING_PAGE_FLAG_USER = false);
  kw_identity : ∀ i k, 0 ≤ i < 8 → 0 ≤ k < 1024 →
    Z.land (kpte s i k) PAGE_MASK = (i * 1024 + k) * 4096 ∧
    flag (kpte s i k) PAGING_PAGE_FLAG_PRESENT = true ∧
    flag (kpte s i k) PAGING_PAGE_FLAG_WRITABLE = true ∧
    (flag (kpte s i k) PAGING_PAGE_FLAG_USER = true → flag (kpde s i) PAGING_PAGE_FLAG_USER = true)
}.

Lemma canon_bound i : 0 ≤ i < 1024 → 0 ≤ canon i < 1024.
Proof. unfold canon. case_match; lia. Qed.

Lemma canon_low i : 0 ≤ i < 768 → canon i = i.
Proof. intros. unfold canon. case_match; lia. Qed.

Lemma canon_id i : 0 ≤ i < 8 → canon i = i.
Proof. intros. apply canon_low. lia. Qed.

Lemma canon_idem i : canon (canon i) = canon i.
Proof. unfold canon. repeat case_match; lia. Qed.

Lemma early_count : KERNEL_EARLY_PAGE_TABLE_COUNT = 8.
Proof. done. Qed.

Lemma high_index : paging_high_half_index = 768.
Proof. done. Qed.

Lemma lookup_canon i s : 0 ≤ i →
  paging_lookup_kernel_page_table (canon i) s = paging_lookup_kernel_page_table i s.
Proof.
  intros Hi. unfold paging_lookup_kernel_page_table, canon. rewrite early_count, high_index.
  repeat case_match; try lia; try done; f_equal; lia.
Qed.

Lemma kpte_canon s i k : 0 ≤ i → kpte s (canon i) k = kpte s i k.
Proof. intros Hi. unfold kpte. by rewrite lookup_canon. Qed.

Section tables.
Context (s : paging) (Hs : tables_wf s).

Lemma kpde_u32 i : 0 ≤ i < 1024 → is_u32 (kpde s i).
Proof. intros Hi. apply mem_word; [apply (tw_mem s Hs)|done]. Qed.

Lemma kpte_u32 i k : 0 ≤ k < 1024 → is_u32 (kpte s i k).
Proof. intros Hk. apply mem_word; [apply (tw_mem s Hs)|done]. Qed.

(** A write through a table's pointer changes the entries of that table only,
    seen at both of its places in the directory. *)
Lemma vwrite_table i k w :
  0 ≤ i < 1024 → paging_lookup_kernel_page_table i s ≠ 0 → 0 ≤ k < 1024 → is_u32 w →
  let s' := vwrite (paging_lookup_kernel_page_table i s) k w s in
  tables_wf s' ∧ (∀ j, kpde s' j = kpde s j) ∧
  (∀ j l, 0 ≤ j < 1024 → paging_lookup_kernel_page_table j s ≠ 0 → 0 ≤ l < 1024 →
     kpte s' j l = if decide (canon i = canon j ∧ k = l) then w else kpte s j l).
Proof.
  intros Hi Hnz Hk Hw s'. pose proof Hs as [Hm [Hpd Hpv] Hlen Ha He Hinj Hnp Hh Ho Hl].
  split_and!.
  - split; try done. by apply mem_wf_write.
  - intros j. unfold kpde, s', vwrite. simpl. rewrite page_write, decide_False; [done|].
    pose proof (Hnp i Hi). lia.
  - intros j l Hj Hjnz Hll. unfold kpte, s', vwrite. simpl. rewrite page_write.
    change (paging_lookup_kernel_page_table j _) with (paging_lookup_kernel_page_table j s).
    destruct (decide (paging_lookup_kernel_page_table i s = paging_lookup_kernel_page_table j s)) as [E|E].
    + rewrite (decide_True (P := _ - _ = _ - _)) by lia.
      pose proof (Hinj i j Hi Hj Hnz E) as Hc. destruct (Hm (paging_lookup_kernel_page_table i s - KERNEL_VIRTUAL_BASE)).
      rewrite aget_aset by lia. rewrite E.
      destruct (decide (k = l)); [by rewrite decide_True|by rewrite decide_False by naive_solver].
    + rewrite (decide_False (P := _ - _ = _ - _)) by lia. rewrite decide_False; [done|].
      intros [Hc _]. apply E. by rewrite <- (lookup_canon i), <- (lookup_canon j), Hc by lia.
Qed.

(** A write to the directory. *)
Lemma vwrite_directory i w :
  0 ≤ i < 1024 → is_u32 w →
  let s' := vwrite (g_kernel_pd_virt s) i w s in
  tables_wf s' ∧ (∀ j, 0 ≤ j < 1024 → kpde s' j = if decide (i = j) then w else kpde s j) ∧
  (∀ j l, 0 ≤ j < 1024 → kpte s' j l = kpte s j l).
Proof.
  intros Hi Hw s'. pose proof Hs as [Hm [Hpd Hpv] Hlen Ha He Hinj Hnp Hh Ho Hl].
  assert (Hp : g_kernel_pd_virt s - KERNEL_VIRTUAL_BASE = g_kernel_pd_phys s) by lia.
  split_and!.
  - split; try done. by apply mem_wf_write.
  - intros j Hj. unfold kpde, s', vwrite. simpl. rewrite Hp, page_write, decide_True by done.
    destruct (Hm (g_kernel_pd_phys s)). by rewrite aget_aset by lia.
  - intros j l Hj. unfold kpte, s', vwrite. simpl. rewrite page_write, decide_False; [done|].
    change (paging_lookup_kernel_page_table j _) with (paging_lookup_kernel_page_table j s).
    pose proof (Hnp j Hj). lia.
Qed.
End tables.

(** The meaning of every address under the kernel's directory. *)
Lemma kernel_translate s x :
  kernel_wf s → is_u32 x →
  translate (phys s) (g_kernel_pd_phys s) x =
  if paging_lookup_kernel_page_table (pd_index x) s =? 0 then None
  else
    let pte := kpte s (pd_index x) (pt_index x) in
    if flag pte PAGING_PAGE_FLAG_PRESENT then
      Some (Z.lor (Z.land pte PAGE_MASK) (Z.land x 4095),
            flag (kpde s (pd_index x)) PAGING_PAGE_FLAG_USER && flag pte PAGING_PAGE_FLAG_USER,
            flag pte PAGING_PAGE_FLAG_WRITABLE)
    else None.
Proof.
  intros Hk Hx. pose proof (kw_pde s Hk _ (pd_index_bound x Hx)) as Hp.
  destruct (Z.eqb_spec (paging_lookup_kernel_page_table (pd_index x) s) 0) as [E|E].
  - by apply translate_no_pde.
  - destruct Hp as (Hf & Hpr & Hwr & _). cbv zeta.
    destruct (flag (kpte s (pd_index x) (pt_index x)) PAGING_PAGE_FLAG_PRESENT) eqn:Ep.
    + erewrite translate_entries; [|done|done| |done].
      * by fold (kpde s (pd_index x)); rewrite Hwr.
      * fold (kpde s (pd_index x)). by rewrite Hf.
    + apply translate_no_pte. fold (kpde s (pd_index x)). by rewrite Hf.
Qed.

(** The meaning of an address with the low bits of its entry, the flags of the page. *)
Definition view (ph : gmap Z (list Z)) (pd va : Z) : option (Z * bool * bool * Z) :=
  '(_, pte) ← mmu_walk ph pd va; m ← translate ph pd va; Some (m, Z.land pte 4095).

Lemma view_translate ph pd va : translate ph pd va = fst <$> view ph pd va.
Proof. unfold view, translate. by destruct (mmu_walk ph pd va) as [[pde pte]|]. Qed.

Definition page_flags_of (ph : gmap Z (list Z)) (pd va : Z) : option Z :=
  '(_, pte) ← mmu_walk ph pd va; Some (Z.land pte 4095).

Lemma view_flags ph pd va : page_flags_of ph pd va = snd <$> view ph pd va.
Proof. unfold view, page_flags_of, translate. by destruct (mmu_walk ph pd va) as [[pde pte]|]. Qed.

Lemma kernel_view s x :
  kernel_wf s → is_u32 x →
  view (phys s) (g_kernel_pd_phys s) x =
  if paging_lookup_kernel_page_table (pd_index x) s =? 0 then None
  else
    let pte := kpte s (pd_index x) (pt_index x) in
    if flag pte PAGING_PAGE_FLAG_PRESENT then
      Some (Z.lor (Z.land pte PAGE_MASK) (Z.land x 4095),
            flag (kpde s (pd_index x)) PAGING_PAGE_FLAG_USER && flag pte PAGING_PAGE_FLAG_USER,
            flag pte PAGING_PAGE_FLAG_WRITABLE, Z.land pte 4095)
    else None.
Proof.
  intros Hk Hx. pose proof (kernel_translate s x Hk Hx) as Ht. pose proof (kw_pde s Hk _ (pd_index_bound x Hx)) as Hp.
  unfold view. rewrite Ht. unfold mmu_walk. fold (kpde s (pd_index x)).
  destruct (Z.eqb_spec (paging_lookup_kernel_page_table (pd_index x) s) 0) as [E|E]; [by rewrite Hp|].
  destruct Hp as (Hf & Hpr & _). rewrite Hpr, Hf. cbv zeta. fold (kpte s (pd_index x) (pt_index x)).
  by destruct (flag (kpte s (pd_index x) (pt_index x)) PAGING_PAGE_FLAG_PRESENT).
Qed.

(** An address below [KERNEL_EARLY_MAP_BYTES] means itself. *)
Lemma kernel_translate_low s x :
  kernel_wf s → 0 ≤ x < KERNEL_EARLY_MAP_BYTES →
  translate (phys s) (g_kernel_pd_phys s) x =
  Some (x, flag (kpte s (pd_index x) (pt_index x)) PAGING_PAGE_FLAG_USER, true).
Proof.
  intros Hk Hx. unfold KERNEL_EARLY_MAP_BYTES in Hx.
  assert (Hi : 0 ≤ pd_index x < 8).
  { rewrite pd_index_div. split; [apply Z.div_pos; lia|apply Z.div_lt_upper_bound; lia]. }
  destruct (kw_identity s Hk _ _ Hi (pt_index_bound x)) as (Hf & Hp & Hw & Hu).
  rewrite kernel_translate by (done || unfold two32; lia).
  rewrite (proj2 (Z.eqb_neq _ _)) by (apply (tw_early s (kw_tables s Hk)); done). cbv zeta.
  rewrite Hp, Hw, Hf, <- pd_pt_index, low_bits.
  rewrite lor_frame by (apply Z.mod_mul || apply Z.mod_pos_bound; lia).
  pose proof (Z.div_mod x 4096 ltac:(lia)). replace (x / 4096 * 4096 + x mod 4096) with x by lia.
  destruct (flag (kpte _ _ _) PAGING_PAGE_FLAG_USER) eqn:E; [by rewrite Hu|by rewrite andb_false_r].
Qed.

(** * Marking user pages *)

Definition mark (w : Z) : Z := Z.lor w PAGING_PAGE_FLAG_USER.

Lemma mark_u32 w : is_u32 w → is_u32 (mark w).
Proof. intros. apply lor_u32; [done|]. unfold PAGING_PAGE_FLAG_USER, two32; lia. Qed.

Lemma mark_frame w : is_u32 w → Z.land (mark w) PAGE_MASK = Z.land w PAGE_MASK.
Proof. intros. by apply frame_lor_low; [|unfold PAGING_PAGE_FLAG_USER; lia]. Qed.

Lemma mark_present w : flag (mark w) PAGING_PAGE_FLAG_PRESENT = flag w PAGING_PAGE_FLAG_PRESENT.
Proof. unfold mark. change PAGING_PAGE_FLAG_PRESENT with (2 ^ 0). rewrite flag_lor by lia. apply orb_false_r. Qed.

Lemma mark_writable w : flag (mark w) PAGING_PAGE_FLAG_WRITABLE = flag w PAGING_PAGE_FLAG_WRITABLE.
Proof. unfold mark. change PAGING_PAGE_FLAG_WRITABLE with (2 ^ 1). rewrite flag_lor by lia. apply orb_false_r. Qed.

Lemma mark_user w : flag (mark w) PAGING_PAGE_FLAG_USER = true.
Proof. unfold mark. change PAGING_PAGE_FLAG_USER with (2 ^ 2). rewrite flag_lor by lia. apply orb_true_r. Qed.

#[local] Hint Rewrite mark_present mark_writable mark_user : paging.
#[local] Hint Rewrite mark_frame using assumption : paging.

(** One page of the loop: both entries get the flag, nothing else changes. *)
Lemma mark_user_page_entries addr s :
  tables_wf s → 0 ≤ pd_index addr < 8 →
  let i := pd_index addr in let k := pt_index addr in
  ∃ s', mark_user_page addr s = (Ok tt, s') ∧ tables_wf s' ∧
    (∀ j, paging_lookup_kernel_page_table j s' = paging_lookup_kernel_page_table j s) ∧
    (∀ j, 0 ≤ j < 1024 → kpde s' j = if decide (i = j) then mark (kpde s i) else kpde s j) ∧
    (∀ j l, 0 ≤ j < 1024 → paging_lookup_kernel_page_table j s ≠ 0 → 0 ≤ l < 1024 →
       kpte s' j l = if decide (i = canon j ∧ k = l) then mark (kpte s i k) else kpte s j l).
Proof.
  intros Hs Hi i k. subst i k. set (i := pd_index addr) in *. set (k := pt_index addr).
  pose proof (pt_index_bound addr) as Hk. fold k in Hk.
  assert (Hpt : paging_lookup_kernel_page_table i s = (g_early_page_tables s).[i]).
  { unfold paging_lookup_kernel_page_table. by rewrite early_count, (proj2 (Z.ltb_lt i 8)) by lia. }
  pose proof (tw_early s Hs i Hi) as Hnz.
  assert (Hrd : vread (g_kernel_pd_virt s) i s = kpde s i).
  { unfold vread, kpde. by rewrite (proj2 (tw_pd s Hs)), Z.add_simpl_l. }
  destruct (vwrite_directory s Hs i (mark (kpde s i)) ltac:(lia)) as (Hs1 & Hd1 & Ht1).
  { apply mark_u32, kpde_u32; [done|lia]. }
  set (s1 := vwrite (g_kernel_pd_virt s) i (mark (kpde s i)) s) in *.
  assert (Hrt : vread (paging_lookup_kernel_page_table i s) k s1 = kpte s i k) by (rewrite <- Ht1 by lia; done).
  destruct (vwrite_table s1 Hs1 i k (mark (kpte s i k)) ltac:(lia) Hnz Hk) as (Hs2 & Hd2 & Ht2).
  { apply mark_u32, kpte_u32; done. }
  exists (vwrite (paging_lookup_kernel_page_table i s) k (mark (kpte s i k)) s1). split_and!; try done.
  - unfold mark_user_page. fold i k. rewrite early_count, (proj2 (Z.leb_gt 8 i)) by lia.
    rewrite <- Hpt, (proj2 (Z.eqb_neq _ _)) by done. cbv zeta. rewrite Hrd. fold (mark (kpde s i)). fold s1.
    by rewrite Hrt.
  - intros j Hj. rewrite Hd2. by apply Hd1.
  - intros j l Hj Hjn Hl. rewrite Ht2, (canon_id i) by done. by rewrite !Ht1 by lia.
Qed.

Lemma same_page_low a x :
  0 ≤ a < KERNEL_EARLY_MAP_BYTES → 0 ≤ x → x / 4096 = a / 4096 → 0 ≤ x < KERNEL_EARLY_MAP_BYTES.
Proof.
  unfold KERNEL_EARLY_MAP_BYTES. intros Ha Hx He. pose proof (Z.div_mod x 4096 ltac:(lia)).
  pose proof (Z.mod_pos_bound x 4096 ltac:(lia)).
  assert (a / 4096 < 8192) by (apply Z.div_lt_upper_bound; lia). lia.
Qed.

Lemma mark_user_page_spec addr s :
  kernel_wf s → 0 ≤ addr < KERNEL_EARLY_MAP_BYTES →
  ∃ s', mark_user_page addr s = (Ok tt, s') ∧ kernel_wf s' ∧
    s' = set_phys (phys s') s ∧
    ∀ x, is_u32 x → translate (phys s') (g_kernel_pd_phys s) x =
      if decide (x / 4096 = addr / 4096) then Some (x, true, true)
      else translate (phys s) (g_kernel_pd_phys s) x.
Proof.
  intros Hk Ha. pose proof (kw_tables s Hk) as Ht. unfold KERNEL_EARLY_MAP_BYTES in Ha.
  assert (Hi : 0 ≤ pd_index addr < 8).
  { rewrite pd_index_div. split; [apply Z.div_pos; lia|apply Z.div_lt_upper_bound; lia]. }
  destruct (mark_user_page_entries addr s Ht Hi) as (s' & Hr & Ht' & Hl & Hd & Hp).
  set (i := pd_index addr) in *. set (k := pt_index addr) in *. exists s'.
  assert (Hs' : s' = set_phys (phys s') s).
  { unfold mark_user_page in Hr. repeat case_match; try done. by injection Hr as <-. }
  assert (Hk' : kernel_wf s').
  { split; [done| |].
    - intros j Hj. rewrite Hl. pose proof (kw_pde s Hk j Hj) as H. rewrite !Hd by done.
      destruct (decide (i = j)) as [<-|]; [|done]. pose proof (kpde_u32 s Ht i ltac:(lia)).
      rewrite (proj2 (Z.eqb_neq _ _)) in H |- * by (by apply (tw_early s Ht)).
      autorewrite with paging. destruct H as (-> & -> & -> & H). split_and!; try done. lia.
    - intros j l Hj Hll. destruct (kw_identity s Hk j l Hj Hll) as (Hf & Hpr & Hwr & Hu).
      rewrite Hp, Hd, (canon_id j) by (by apply (tw_early s Ht) || lia).
      pose proof (kpte_u32 s Ht i k (pt_index_bound addr)).
      destruct (decide (i = j ∧ k = l)) as [[<- <-]|].
      + autorewrite with paging. split_and!; try done. intros _.
        rewrite decide_True by done. apply mark_user.
      + split_and!; try done. intros Hx. case_decide; [apply mark_user|exact (Hu Hx)]. }
  assert (Hpd : g_kernel_pd_phys s' = g_kernel_pd_phys s) by (rewrite Hs'; reflexivity).
  split_and!; [done..|]. intros x Hx. rewrite <- Hpd at 1. pose proof (pd_index_bound x Hx) as Hb.
  destruct (decide (x / 4096 = addr / 4096)) as [He|He].
  - destruct (page_index _ _ He) as [Hpi Hpt]. fold i in Hpi. fold k in Hpt.
    assert (Hx2 : 0 ≤ x < KERNEL_EARLY_MAP_BYTES) by (apply (same_page_low addr); [done|lia|done]).
    pose proof (pt_index_bound addr) as Hkb. fold k in Hkb. pose proof (tw_early s Ht i Hi).
    rewrite kernel_translate_low, Hpi, Hpt, Hp, (canon_id i) by (done || lia).
    by rewrite decide_True, mark_user by done.
  - rewrite (kernel_translate s x Hk Hx), (kernel_translate s' x Hk' Hx), Hl.
    destruct (Z.eqb_spec (paging_lookup_kernel_page_table (pd_index x) s) 0) as [|Hn]; [done|].
    cbv zeta. rewrite Hp, Hd by (done || by apply pt_index_bound).
    destruct (decide (i = canon (pd_index x) ∧ k = pt_index x)) as [[Hc Hkx]|Hc].
    + (* the alias in the high half, where the directory has no user flag *)
      assert (Hne : i ≠ pd_index x) by (intros E; apply He; by apply index_page_inj).
      assert (H8 : 8 ≤ pd_index x).
      { destruct (Z.lt_ge_cases (pd_index x) 8); [|done]. rewrite canon_id in Hc by lia. done. }
      pose proof (kw_pde s Hk _ Hb) as Hu. rewrite (proj2 (Z.eqb_neq _ _) Hn) in Hu.
      destruct Hu as (_ & _ & _ & Hu). rewrite decide_False, (Hu H8) by done. simpl andb.
      rewrite <- (kpte_canon s (pd_index x)), <- Hc, <- Hkx by lia.
      pose proof (kpte_u32 s Ht i k (pt_index_bound addr)). by autorewrite with paging.
    + destruct (decide (i = pd_index x)) as [<-|]; [|done].
      rewrite mark_user. simpl andb.
      destruct (kw_identity s Hk i (pt_index x) Hi (pt_index_bound x)) as (_ & -> & _ & Hu).
      destruct (flag (kpte s i (pt_index x)) PAGING_PAGE_FLAG_USER); [by rewrite Hu|by rewrite andb_false_r].
Qed.

(** Fields the tables do not depend on. *)
Lemma kernel_wf_reload s : kernel_wf s → kernel_wf (reload_current s).
Proof.
  intros [[Hm Hpd Hlen Ha He Hinj Hnp Hh Ho Hl] Hd Hi]. unfold reload_current. case_match; split; done.
Qed.

Lemma reload_fields s :
  phys (reload_current s) = phys s ∧ g_kernel_pd_phys (reload_current s) = g_kernel_pd_phys s ∧
  heap (reload_current s) = heap s.
Proof. unfold reload_current. by case_match. Qed.

(** * Page numbers of a loop *)

Lemma pages_numbers u v :
  (λ a, a / 4096) <$> pages (u * 4096) (v * 4096) = seqZ u (v - u).
Proof.
  unfold pages, PAGE_SIZE_BYTES. rewrite <- list_fmap_compose.
  assert (Hn : (v * 4096 - u * 4096 + 4095) / 4096 = v - u).
  { replace (v * 4096 - u * 4096 + 4095) with ((v - u) * 4096 + 4095) by lia.
    rewrite Z.div_add_l by lia. change (4095 / 4096) with 0. lia. }
  rewrite Hn. replace (seqZ u (v - u)) with (Z.add u <$> seqZ 0 (v - u)).
  - apply list_fmap_ext. intros i k _. simpl. rewrite <- Z.mul_add_distr_r. by rewrite Z.div_mul.
  - rewrite fmap_add_seqZ. by rewrite Z.add_0_r.
Qed.

Lemma in_pages u v a : a ∈ pages (u * 4096) (v * 4096) → u * 4096 ≤ a < v * 4096 ∧ a mod 4096 = 0.
Proof.
  unfold pages, PAGE_SIZE_BYTES. intros (k & -> & Hk)%list_elem_of_fmap.
  apply elem_of_seqZ in Hk. replace (v * 4096 - u * 4096 + 4095) with ((v - u) * 4096 + 4095) in Hk by lia.
  rewrite Z.div_add_l in Hk by lia. change (4095 / 4096) with 0 in Hk.
  split; [lia|]. rewrite <- Z.mul_add_distr_r. by apply Z.mod_mul.
Qed.

(** [end = (e + PAGE_SIZE_BYTES - 1U) & ~(PAGE_SIZE_BYTES - 1U)] *)
Lemma round_up e : 0 ≤ e → e + 4095 < two32 →
  Z.land (sub32 (add32 e PAGE_SIZE_BYTES) 1) PAGE_MASK = (e + 4095) / 4096 * 4096.
Proof.
  intros He Hb. change (align_up_z e 4096 = (e + 4095) / 4096 * 4096). rewrite align_up_4096 by done.
  pose proof (Z.div_mod (e + 4095) 4096 ltac:(lia)). lia.
Qed.

Lemma round_down v : is_u32 v → Z.land v PAGE_MASK = v / 4096 * 4096.
Proof. intros Hv. rewrite frame_of_word by done. pose proof (Z.div_mod v 4096 ltac:(lia)). lia. Qed.

Lemma mark_pages_spec u v s :
  kernel_wf s → 0 ≤ u → v ≤ 8192 →
  ∃ s', each mark_user_page (pages (u * 4096) (v * 4096)) s = (Ok tt, s') ∧ kernel_wf s' ∧
    s' = set_phys (phys s') s ∧
    ∀ x, is_u32 x → translate (phys s') (g_kernel_pd_phys s) x =
      if decide (u ≤ x / 4096 < v) then Some (x, true, true)
      else translate (phys s) (g_kernel_pd_phys s) x.
Proof.
  intros Hk Hu Hv. set (l := pages (u * 4096) (v * 4096)).
  destruct (each_ok mark_user_page
    (λ done s', kernel_wf s' ∧ s' = set_phys (phys s') s ∧
       ∀ x, is_u32 x → translate (phys s') (g_kernel_pd_phys s) x =
         if decide (x / 4096 ∈ (λ a, a / 4096) <$> done) then Some (x, true, true)
         else translate (phys s) (g_kernel_pd_phys s) x) l s) as (s' & He & Hk' & Hs' & Ht).
  - split_and!; [done|by destruct s|]. intros x Hx. by rewrite decide_False by (intros H; by apply elem_of_nil in H).
  - intros dn a s1 Ha (Hk1 & Hs1 & Ht1). apply in_pages in Ha as [Ha _].
    destruct (mark_user_page_spec a s1 Hk1) as (s2 & -> & Hk2 & Hs2 & Ht2);
      [unfold KERNEL_EARLY_MAP_BYTES; lia|].
    assert (Hpd : g_kernel_pd_phys s1 = g_kernel_pd_phys s) by (by rewrite Hs1).
    exists s2. split_and!; [done..|rewrite Hs2, Hs1; done|]. intros x Hx. rewrite Hpd in Ht2.
    rewrite Ht2, Ht1, fmap_app by done. repeat case_decide; try done; set_solver.
  - exists s'. split_and!; [done..|]. intros x Hx. rewrite Ht by done. unfold l. rewrite pages_numbers.
    rewrite (decide_ext (x / 4096 ∈ seqZ u (v - u)) (u ≤ x / 4096 < v)); [done|].
    rewrite elem_of_seqZ. lia.
Qed.

(** [paging_mark_user_region] accepts exactly the non-empty regions below
    [KERNEL_EARLY_MAP_BYTES], which includes rejecting those whose end wraps.
    It then opens to the user every page the region touches, each mapped to
    itself and writable, and changes the meaning of no other address, neither
    below the region's 4 MiB nor at the alias of the page in the high half.  A
    rejected call changes nothing. *)
Theorem paging_mark_user_region_spec s vaddr length :
  kernel_wf s → is_u32 vaddr → is_u32 length →
  match paging_mark_user_region vaddr length s with
  | (Err e, s') =>
      e = KERR_INVAL ∧ s' = s ∧ (length = 0 ∨ KERNEL_EARLY_MAP_BYTES < vaddr + length)
  | (Ok _, s') =>
      0 < length ∧ vaddr + length ≤ KERNEL_EARLY_MAP_BYTES ∧
      kernel_wf s' ∧ s' = reload_current (set_phys (phys s') s) ∧
      ∀ x, is_u32 x →
        translate (phys s') (g_kernel_pd_phys s') x =
        if decide (vaddr / 4096 ≤ x / 4096 ≤ (vaddr + length - 1) / 4096) then Some (x, true, true)
        else translate (phys s) (g_kernel_pd_phys s) x
  end.
Proof.
  intros Hk Hv Hl. unfold paging_mark_user_region, KERNEL_EARLY_MAP_BYTES.
  destruct (Z.eqb_spec length 0) as [|H0]; [auto|].
  destruct (Z.leb_spec 33554432 vaddr) as [|H1]; [split_and!; auto; lia|].
  pose proof (add32_wrap_iff vaddr length Hv Hl) as Hw.
  destruct (Z.ltb_spec (add32 vaddr length) vaddr) as [|H2].
  { split_and!; auto. right. unfold two32 in *. lia. }
  destruct (add32_nowrap vaddr length Hv Hl H2) as [Hadd Hlt]. rewrite Hadd.
  destruct (Z.ltb_spec 33554432 (vaddr + length)) as [|H3]; [auto|]. cbv zeta.
  rewrite round_down, round_up by (unfold two32 in *; lia).
  destruct (mark_pages_spec (vaddr / 4096) ((vaddr + length + 4095) / 4096) s Hk) as (s' & -> & Hk' & Hs' & Ht).
  { apply Z.div_pos; lia. }
  { enough ((vaddr + length + 4095) / 4096 < 8193) by lia. apply Z.div_lt_upper_bound; lia. }
  destruct (reload_fields s') as (Hf1 & Hf2 & _).
  split_and!; [lia|lia|by apply kernel_wf_reload|by rewrite Hf1, <- Hs'|].
  intros x Hx. rewrite Hf1, Hf2. replace (g_kernel_pd_phys s') with (g_kernel_pd_phys s) by (by rewrite Hs').
  rewrite Ht by done. replace (vaddr + length + 4095) with (vaddr + length - 1 + 1 * 4096) by lia.
  rewrite Z.div_add by lia. repeat case_decide; try done; lia.
Qed.

(** * New pages *)

Lemma kmalloc_fixed size h :
  heap_base (snd (kmalloc size h)) = heap_base h ∧ heap_end (snd (kmalloc size h)) = heap_end h.
Proof. unfold kmalloc. by repeat case_match. Qed.

(** A heap inside the window the kernel reaches. *)
Definition heap_in_window (h : kheap) : Prop :=
  heap_wf h ∧ KERNEL_VIRTUAL_BASE < heap_base h ∧ heap_end h ≤ KERNEL_VIRTUAL_BASE + KERNEL_EARLY_MAP_BYTES.

Lemma kmalloc_page_cases s :
  heap_in_window (heap s) →
  let '(p, s') := kmalloc_page s in
  (p = 0 ∧ s' = s) ∨
  (s' = set_heap (heap s') s ∧ p ≠ 0 ∧ page_addr (p - KERNEL_VIRTUAL_BASE) ∧
   heap_in_window (heap s') ∧
   heap_base (heap s') = heap_base (heap s) ∧ heap_end (heap s') = heap_end (heap s) ∧
   heap_base (heap s) ≤ p ∧ p + 4096 ≤ heap_end (heap s) ∧
   (∀ q n, live (heap s) q n → 4096 ≤ n → q ≠ p) ∧
   (∀ q n, live (heap s) q n → live (heap s') q n) ∧ ∃ n, 4096 ≤ n ∧ live (heap s') p n).
Proof.
  intros (Hh & Hb & He). unfold kmalloc_page.
  pose proof (kmalloc_cases (heap s) PAGE_SIZE_BYTES Hh ltac:(unfold PAGE_SIZE_BYTES, two32; lia)) as H.
  pose proof (kmalloc_fixed PAGE_SIZE_BYTES (heap s)) as Hf.
  destruct (kmalloc PAGE_SIZE_BYTES (heap s)) as [p h]. simpl in Hf. destruct Hf as [Hfb Hfe].
  destruct H as (Hw & [[-> ->]|[Hnz [_ Hal] [Hlo Hhi] _ Hdis Hkept Hown]]); [left; by destruct s|right].
  unfold PAGE_SIZE_BYTES in *. specialize (Hal eq_refl). rewrite decide_False in Hown by lia.
  unfold heap_in_window, page_addr, KERNEL_EARLY_MAP_BYTES, KERNEL_VIRTUAL_BASE in *. simpl heap.
  split_and!; try done; try lia.
  - rewrite Zminus_mod, Hal. done.
  - intros q n Hq Hn ->. pose proof (Hdis p n Hq) as Hd. unfold disjoint_ranges in Hd. lia.
  - by destruct Hown.
Qed.

Lemma virt_to_phys_ok v :
  page_addr (v - KERNEL_VIRTUAL_BASE) → paging_virt_to_phys v = Ok (v - KERNEL_VIRTUAL_BASE).
Proof.
  unfold page_addr, paging_virt_to_phys, KERNEL_EARLY_MAP_BYTES, KERNEL_VIRTUAL_BASE. intros [Hv _].
  rewrite (proj2 (Z.ltb_ge _ _)), add32_small by (unfold two32; lia).
  rewrite (proj2 (Z.leb_gt _ _)), sub32_small by (unfold two32; lia). done.
Qed.

Lemma phys_to_virt_ok p :
  page_addr p → paging_phys_to_virt p = Ok (KERNEL_VIRTUAL_BASE + p).
Proof.
  unfold page_addr, paging_phys_to_virt, KERNEL_EARLY_MAP_BYTES, KERNEL_VIRTUAL_BASE. intros [Hp _].
  by rewrite (proj2 (Z.leb_gt _ _)), add32_small by (unfold two32; lia).
Qed.

Lemma present_writable p (w := pw p) :
  is_u32 p → p mod 4096 = 0 →
  is_u32 w ∧ Z.land w PAGE_MASK = p ∧ flag w PAGING_PAGE_FLAG_PRESENT = true ∧
  flag w PAGING_PAGE_FLAG_WRITABLE = true ∧ flag w PAGING_PAGE_FLAG_USER = false.
Proof.
  intros Hp Ha. subst w. unfold pw. rewrite <- Z.lor_assoc.
  change (Z.lor PAGING_PAGE_FLAG_PRESENT PAGING_PAGE_FLAG_WRITABLE) with 3. split_and!.
  1, 2: apply lor_u32; unfold two32 in *; lia.
  - by apply entry_frame.
  - change PAGING_PAGE_FLAG_PRESENT with (2 ^ 0). rewrite entry_flag by (done || lia). done.
  - change PAGING_PAGE_FLAG_WRITABLE with (2 ^ 1). rewrite entry_flag by (done || lia). done.
  - change PAGING_PAGE_FLAG_USER with (2 ^ 2). rewrite entry_flag by (done || lia). done.
Qed.

Lemma lookup_dynamic i s :
  776 ≤ i → paging_lookup_kernel_page_table i s = (g_dynamic_page_tables s).[i].
Proof.
  intros Hi. unfold paging_lookup_kernel_page_table. rewrite early_count, high_index.
  repeat case_match; try done; lia.
Qed.

Lemma lookup_early_eq i s s' :
  g_early_page_tables s' = g_early_page_tables s → 0 ≤ i →
  (g_dynamic_page_tables s').[i] = (g_dynamic_page_tables s).[i] →
  paging_lookup_kernel_page_table i s' = paging_lookup_kernel_page_table i s.
Proof. intros He Hi Hd. unfold paging_lookup_kernel_page_table. by rewrite He, Hd. Qed.

Lemma page_addr_u32 p : page_addr p → is_u32 p.
Proof. unfold page_addr, KERNEL_EARLY_MAP_BYTES, two32. lia. Qed.

(** A new, empty table at index [i] that the directory does not show yet. *)
Definition with_table (i pt : Z) (s1 : paging) : paging :=
  set_tables (g_early_page_tables s1) (g_dynamic_page_tables s1).[i <- pt] (vfill pt zero_page s1).

Lemma with_table_lookup i pt s j :
  776 ≤ i < 1024 → alen (g_dynamic_page_tables s) = 1024 → 0 ≤ j < 1024 →
  paging_lookup_kernel_page_table j (with_table i pt s) =
  if decide (i = j) then pt else paging_lookup_kernel_page_table j s.
Proof.
  intros Hi Hl Hj. destruct (decide (i = j)) as [<-|Hne].
  - rewrite lookup_dynamic by lia. simpl. rewrite aget_aset_eq by lia. done.
  - apply lookup_early_eq; [done|lia|]. simpl. rewrite aget_aset_ne by lia. done.
Qed.

Lemma canon_high i : 776 ≤ i → canon i = i.
Proof. intros. unfold canon. case_match; lia. Qed.

Section new_table.
Context (s s1 : paging) (i pt : Z) (Hs : tables_wf s).
Context (Hi : 776 ≤ i < 1024) (Hnone : paging_lookup_kernel_page_table i s = 0).
Context (Hs1 : s1 = set_heap (heap s1) s) (Hpt : page_addr (pt - KERNEL_VIRTUAL_BASE)).
Context (Hw : heap_in_window (heap s1)).
Context (Hbase : heap_base (heap s1) = heap_base (heap s)).
Context (Hend : heap_end (heap s1) = heap_end (heap s)).
Context (Hlo : heap_base (heap s) ≤ pt) (Hhi : pt + 4096 ≤ heap_end (heap s)).
Context (Hfresh : ∀ q n, live (heap s) q n → 4096 ≤ n → q ≠ pt).
Context (Hkept : ∀ q n, live (heap s) q n → live (heap s1) q n).
Context (Hown : ∃ n, 4096 ≤ n ∧ live (heap s1) pt n).

Lemma new_table_fields :
  g_dynamic_page_tables s1 = g_dynamic_page_tables s ∧ g_early_page_tables s1 = g_early_page_tables s ∧
  phys s1 = phys s ∧ g_kernel_pd_phys s1 = g_kernel_pd_phys s ∧ g_kernel_pd_virt s1 = g_kernel_pd_virt s.
Proof. rewrite Hs1. done. Qed.

Lemma new_table_distinct j :
  0 ≤ j < 1024 → paging_lookup_kernel_page_table j s ≠ 0 → paging_lookup_kernel_page_table j s ≠ pt.
Proof.
  intros Hj Hn E. destruct (Z.lt_ge_cases (canon j) 8) as [H8|H8].
  - destruct (tw_outside s Hs (paging_lookup_kernel_page_table j s)); [|lia|lia].
    right. exists (canon j). pose proof (canon_bound j Hj). rewrite lookup_canon by lia. split; [lia|done].
  - pose proof (canon_bound j Hj).
    destruct (tw_live s Hs (canon j)) as (n & Hn2 & Hl); [lia|apply canon_idem|by rewrite lookup_canon by lia|].
    rewrite lookup_canon in Hl by lia. by apply (Hfresh _ _ Hl Hn2).
Qed.

Lemma new_table_not_pd : g_kernel_pd_virt s ≠ pt.
Proof. intros E. destruct (tw_outside s Hs (g_kernel_pd_virt s)); [by left|lia|lia]. Qed.

Lemma with_table_wf :
  let s2 := with_table i pt s1 in
  tables_wf s2 ∧ (∀ j, kpde s2 j = kpde s j) ∧
  (∀ j, 0 ≤ j < 1024 → paging_lookup_kernel_page_table j s2 =
     if decide (i = j) then pt else paging_lookup_kernel_page_table j s) ∧
  (∀ l, 0 ≤ l < 1024 → kpte s2 i l = 0) ∧
  (∀ j l, 0 ≤ j < 1024 → paging_lookup_kernel_page_table j s ≠ 0 → kpte s2 j l = kpte s j l).
Proof.
  intros s2. pose proof Hs as [Hm [Hpd Hpv] [Hle Hld] Ha He Hinj Hnp Hh Ho Hl].
  destruct new_table_fields as (Hfd & Hfe & Hfp & Hfpd & Hfpv).
  assert (Hlk : ∀ j, 0 ≤ j < 1024 → paging_lookup_kernel_page_table j s2 =
     if decide (i = j) then pt else paging_lookup_kernel_page_table j s).
  { intros j Hj. unfold s2. rewrite with_table_lookup by (rewrite ?Hfd; done).
    case_decide; [done|]. apply lookup_early_eq; [done|lia|by rewrite Hfd]. }
  assert (Hp0 : pt ≠ 0) by (unfold page_addr, KERNEL_VIRTUAL_BASE in Hpt; lia).
  assert (Hpv2 : g_kernel_pd_virt s2 = g_kernel_pd_virt s) by done.
  assert (Hpp2 : g_kernel_pd_phys s2 = g_kernel_pd_phys s) by done.
  assert (Hph : phys s2 = <[pt - KERNEL_VIRTUAL_BASE := zero_page]> (phys s)) by (by rewrite <- Hfp).
  assert (Hhp : heap s2 = heap s1) by done.
  destruct zero_page_u32 as [Hz1 Hz2]. pose proof new_table_not_pd as Hnpd.
  split_and!; [split|..]; rewrite ?Hpv2, ?Hpp2, ?Hph, ?Hhp, ?Hbase, ?Hend; try done.
  - by apply mem_wf_insert.
  - unfold s2, with_table. cbn [set_tables g_early_page_tables g_dynamic_page_tables].
    by rewrite alen_aset, Hfe, Hfd.
  - intros j Hj. rewrite Hlk by done. case_decide; [done|by apply Ha].
  - intros j Hj. rewrite Hlk, decide_False by lia. by apply He.
  - intros j k Hj Hk. rewrite !Hlk by done.
    destruct (decide (i = j)) as [<-|]; destruct (decide (i = k)) as [<-|]; try done.
    + intros _ E. exfalso. apply (new_table_distinct k Hk); [by rewrite <- E|done].
    + intros Hn E. by destruct (new_table_distinct j Hj Hn).
    + by apply Hinj.
  - intros j Hj. rewrite Hlk by done. case_decide; [done|by apply Hnp].
  - unfold heap_in_window in Hw. by rewrite Hbase, Hend in Hw.
  - intros v [Hv|(j & Hj & Hv)]; apply Ho; [by left|right]. rewrite Hlk, decide_False in Hv by lia. by exists j.
  - intros j Hj Hc. rewrite Hlk by lia. case_decide; [done|]. intros Hn.
    destruct (Hl j Hj Hc Hn) as (n & Hn1 & Hn2). exists n. split; [done|]. by apply Hkept.
  - intros j. unfold kpde. rewrite Hph, Hpp2, page_insert, decide_False by lia. done.
  - intros l Hl2. unfold kpte. rewrite Hlk, decide_True, Hph, page_insert, decide_True by (done || lia).
    by apply (aget_replicate 1024).
  - intros j l Hj Hn. pose proof (new_table_distinct j Hj Hn).
    unfold kpte. rewrite Hlk, decide_False, Hph, page_insert, decide_False by (done || lia || congruence). done.
Qed.
End new_table.

Lemma alloc_dynamic_cases i s :
  kernel_wf s → 776 ≤ i < 1024 → paging_lookup_kernel_page_table i s = 0 →
  let '(pt, s') := paging_alloc_kernel_dynamic_page_table i s in
  (pt = 0 ∧ s' = s) ∨
  (pt ≠ 0 ∧ pt = paging_lookup_kernel_page_table i s' ∧ kernel_wf s' ∧
   g_kernel_pd_phys s' = g_kernel_pd_phys s ∧
   ∀ x, is_u32 x → view (phys s') (g_kernel_pd_phys s') x = view (phys s) (g_kernel_pd_phys s) x).
Proof.
  intros Hk Hi Hnone. pose proof (kw_tables s Hk) as Ht.
  unfold paging_alloc_kernel_dynamic_page_table. rewrite Hnone, Z.eqb_refl. cbn [negb].
  pose proof (kmalloc_page_cases s (tw_heap s Ht)) as Hkm. destruct (kmalloc_page s) as [pt s1].
  destruct Hkm as [[-> ->]|(Hs1 & Hnz & Hpa & Hw & Hb & He & Hlo & Hhi & Hfr & Hkp & Hown)].
  { rewrite Z.eqb_refl. by left. }
  rewrite (proj2 (Z.eqb_neq pt 0)), virt_to_phys_ok by done. cbv zeta.
  change (set_tables _ _ (vfill pt zero_page s1)) with (with_table i pt s1).
  destruct (with_table_wf s s1 i pt Ht Hi Hnone Hs1 Hpa Hw Hb He Hlo Hhi Hfr Hkp Hown) as (Ht2 & Hd2 & Hl2 & Hz2 & Hp2).
  set (s2 := with_table i pt s1) in *.
  pose proof (page_addr_u32 _ Hpa) as Hu. destruct Hpa as [Hpa1 Hpa2].
  destruct (present_writable _ Hu Hpa2) as (Hwu & Hwf & Hwp & Hww & Hwus).
  set (w := pw _) in *.
  destruct (vwrite_directory s2 Ht2 i w ltac:(lia) Hwu) as (Ht3 & Hd3 & Hp3).
  set (s3 := vwrite (g_kernel_pd_virt s2) i w s2) in *.
  assert (Hl3 : ∀ j, 0 ≤ j < 1024 → paging_lookup_kernel_page_table j s3 =
    if decide (i = j) then pt else paging_lookup_kernel_page_table j s) by exact Hl2.
  assert (Hk3 : kernel_wf s3).
  { split; [done| |].
    - intros j Hj. rewrite Hl3, Hd3, Hd2 by done. destruct (decide (i = j)) as [<-|Hne].
      + by rewrite (proj2 (Z.eqb_neq pt 0)).
      + by apply (kw_pde s Hk).
    - intros j l Hj Hl. rewrite Hp3, Hp2, Hd3, decide_False, Hd2 by (lia || by apply (tw_early s Ht)).
      by apply (kw_identity s Hk). }
  assert (Hpd : g_kernel_pd_phys s3 = g_kernel_pd_phys s) by (change (g_kernel_pd_phys s1 = g_kernel_pd_phys s); by rewrite Hs1).
  right. split_and!; [done|by rewrite Hl3, decide_True by lia|done|done|]. intros x Hx.
  pose proof (pd_index_bound x Hx) as Hb2.
  rewrite (kernel_view s3 x Hk3 Hx), (kernel_view s x Hk Hx), Hl3 by done.
  destruct (decide (i = pd_index x)) as [<-|Hne].
  - rewrite Hnone, (proj2 (Z.eqb_neq pt 0)) by done. cbv zeta.
    rewrite Hp3, Hz2 by (lia || apply pt_index_bound). done.
  - destruct (Z.eqb_spec (paging_lookup_kernel_page_table (pd_index x) s) 0); [done|]. cbv zeta.
    by rewrite Hp3, Hp2, Hd3, decide_False, Hd2 by done.
Qed.

(** * Mapping kernel regions *)

Definition in_window (va : Z) : Prop := KERNEL_VIRTUAL_BASE + KERNEL_EARLY_MAP_BYTES ≤ va < two32.

Lemma in_window_index va : in_window va → 776 ≤ pd_index va < 1024.
Proof.
  unfold in_window, KERNEL_VIRTUAL_BASE, KERNEL_EARLY_MAP_BYTES, two32. intros Hv. rewrite pd_index_div.
  split; [apply Z.div_le_lower_bound; lia|apply Z.div_lt_upper_bound; lia].
Qed.

(** What a walk through a new entry of table [pd_index va] means. *)
Lemma map_entry_spec s va pa fl :
  kernel_wf s → in_window va → paging_lookup_kernel_page_table (pd_index va) s ≠ 0 →
  is_u32 pa → pa mod 4096 = 0 → 0 ≤ fl < 4096 → flag fl PAGING_PAGE_FLAG_PRESENT = true →
  let s' := vwrite (paging_lookup_kernel_page_table (pd_index va) s) (pt_index va) (Z.lor pa fl) s in
  kernel_wf s' ∧ g_kernel_pd_phys s' = g_kernel_pd_phys s ∧
  ∀ x, is_u32 x → view (phys s') (g_kernel_pd_phys s) x =
    if decide (x / 4096 = va / 4096) then Some (pa + x mod 4096, false, flag fl PAGING_PAGE_FLAG_WRITABLE, fl)
    else view (phys s) (g_kernel_pd_phys s) x.
Proof.
  intros Hk Hv Hn Hpu Hpa Hfl Hfp s'. pose proof (kw_tables s Hk) as Ht.
  pose proof (in_window_index va Hv) as Hi. pose proof (pt_index_bound va) as Hpt.
  set (i := pd_index va) in *. set (k := pt_index va) in *.
  assert (Hwu : is_u32 (Z.lor pa fl)) by (rewrite lor_frame by done; by apply aligned_u32_add).
  destruct (vwrite_table s Ht i k (Z.lor pa fl) ltac:(lia) Hn Hpt Hwu) as (Ht' & Hd & Hp). fold s' in Ht', Hd, Hp.
  assert (Hk' : kernel_wf s').
  { split; [done| |].
    - intros j Hj. rewrite Hd. apply (kw_pde s Hk j Hj).
    - intros j l Hj Hl. rewrite Hd, Hp, decide_False; [by apply (kw_identity s Hk)| |lia| |done].
      + rewrite (canon_id j), canon_high by lia. lia.
      + by apply (tw_early s Ht). }
  assert (Hpd : g_kernel_pd_phys s' = g_kernel_pd_phys s) by reflexivity.
  split_and!; [done..|]. intros x Hx. pose proof (pd_index_bound x Hx) as Hb. rewrite <- Hpd at 1.
  rewrite (kernel_view s' x Hk' Hx), (kernel_view s x Hk Hx).
  change (paging_lookup_kernel_page_table (pd_index x) s') with (paging_lookup_kernel_page_table (pd_index x) s).
  destruct (decide (x / 4096 = va / 4096)) as [He|He].
  - destruct (page_index _ _ He) as [Hpi Hpk]. fold i in Hpi. fold k in Hpk.
    rewrite Hpi, Hpk, (proj2 (Z.eqb_neq _ _) Hn). cbv zeta. rewrite Hp, decide_True, Hd by (done || lia).
    change PAGING_PAGE_FLAG_PRESENT with (2 ^ 0) in *. rewrite (entry_flag pa fl Hpa) by lia.
    rewrite Hfp, entry_frame, !low_bits by done.
    pose proof (kw_pde s Hk i ltac:(lia)) as Hpde. rewrite (proj2 (Z.eqb_neq _ _) Hn) in Hpde.
    destruct Hpde as (_ & _ & _ & ->); [|lia]. simpl andb.
    rewrite lor_frame by (done || by apply Z.mod_pos_bound).
    rewrite (lor_frame pa fl), Z.add_mod, Hpa, Z.add_0_l, Z.mod_mod, (Z.mod_small fl) by (done || lia).
    rewrite <- (lor_frame pa fl) by done.
    change PAGING_PAGE_FLAG_WRITABLE with (2 ^ 1). by rewrite (entry_flag pa fl Hpa) by lia.
  - destruct (Z.eqb_spec (paging_lookup_kernel_page_table (pd_index x) s) 0); [done|]. cbv zeta.
    rewrite Hp, Hd, decide_False; [done| |done|done|apply pt_index_bound].
    intros [Hc Hkk]. rewrite canon_high in Hc by lia. unfold canon in Hc.
    case_match; [lia|]. by apply He, index_page_inj.
Qed.

Lemma map_kernel_page_spec s vaddr pb fl off :
  kernel_wf s → in_window (vaddr + off) → 0 ≤ vaddr → 0 ≤ off → off mod 4096 = 0 →
  is_u32 pb → pb mod 4096 = 0 → 0 ≤ fl < 4096 → flag fl PAGING_PAGE_FLAG_PRESENT = true →
  match map_kernel_page vaddr pb fl off s with
  | (Err e, s') => e = KERR_NOMEM ∧ s' = s
  | (Ok _, s') =>
      kernel_wf s' ∧ g_kernel_pd_phys s' = g_kernel_pd_phys s ∧
      ∀ x, is_u32 x → view (phys s') (g_kernel_pd_phys s) x =
        if decide (x / 4096 = (vaddr + off) / 4096)
        then Some (add32 pb off + x mod 4096, false, flag fl PAGING_PAGE_FLAG_WRITABLE, fl)
        else view (phys s) (g_kernel_pd_phys s) x
  end.
Proof.
  intros Hk Hv H0 Ho Hom Hpb Hpm Hfl Hfp. unfold map_kernel_page. rewrite (add32_small vaddr off) by (unfold in_window in Hv; lia).
  pose proof (in_window_index _ Hv) as Hi.
  assert (Hau : is_u32 (add32 pb off)) by apply u32_range.
  assert (Ham : add32 pb off mod 4096 = 0).
  { unfold add32, u32, two32. rewrite <- Znumtheory.Zmod_div_mod by (lia || by exists 1048576).
    by rewrite Z.add_mod, Hpm, Hom by lia. }
  destruct (Z.eqb_spec (paging_lookup_kernel_page_table (pd_index (vaddr + off)) s) 0) as [Hn|Hn].
  - pose proof (alloc_dynamic_cases _ s Hk Hi Hn) as Ha.
    destruct (paging_alloc_kernel_dynamic_page_table _ s) as [pt s1].
    destruct Ha as [[-> ->]|(Hnz & Hpt & Hk1 & Hpd1 & Ht1)]; [done|].
    rewrite (proj2 (Z.eqb_neq _ _) Hnz). rewrite Hpt.
    destruct (map_entry_spec s1 _ _ fl Hk1 Hv ltac:(by rewrite <- Hpt) Hau Ham Hfl Hfp) as (Hk2 & Hpd2 & Ht2).
    split_and!; [done|by rewrite Hpd2|]. intros x Hx. rewrite <- Hpd1, Ht2 by done. case_decide; [done|].
    by rewrite Ht1, Hpd1.
  - rewrite (proj2 (Z.eqb_neq _ _) Hn).
    destruct (map_entry_spec s _ _ fl Hk Hv Hn Hau Ham Hfl Hfp) as (Hk2 & Hpd2 & Ht2).
    split_and!; [done|by rewrite Hpd2|]. done.
Qed.

Lemma pages_prefix v dn a :
  0 ≤ v → dn ++ [a] `prefix_of` pages 0 (v * 4096) → alen dn < v ∧ a = alen dn * 4096.
Proof.
  intros Hv [k Hk]. unfold pages, PAGE_SIZE_BYTES in Hk.
  replace (v * 4096 - 0 + 4095) with (v * 4096 + 4095) in Hk by lia.
  rewrite Z.div_add_l in Hk by lia. change (4095 / 4096) with 0 in Hk. rewrite Z.add_0_r in Hk.
  assert (Ha : ((λ k, 0 + k * 4096) <$> seqZ 0 v) !! length dn = Some a).
  { rewrite Hk, <- app_assoc. rewrite lookup_app_r, Nat.sub_diag by lia. done. }
  rewrite list_lookup_fmap in Ha. destruct (seqZ 0 v !! length dn) as [z|] eqn:E; [|done].
  apply lookup_seqZ in E as [-> E]. injection Ha as <-. unfold alen. lia.
Qed.

(** The region [n] bytes long at [vaddr], mapped on the pages from [pb] with the
    flags [fl]; every other address has its meaning and its flags. *)
Definition mapped (s s' : paging) (vaddr n pb fl : Z) : Prop :=
  kernel_wf s' ∧ g_kernel_pd_phys s' = g_kernel_pd_phys s ∧
  ∀ x, is_u32 x → view (phys s') (g_kernel_pd_phys s) x =
    if decide (0 ≤ x - vaddr < n)
    then Some (add32 pb (x - vaddr), false, flag fl PAGING_PAGE_FLAG_WRITABLE, Z.lor fl PAGING_PAGE_FLAG_PRESENT)
    else view (phys s) (g_kernel_pd_phys s) x.

Lemma mapped_translate s s' vaddr n pb fl x :
  mapped s s' vaddr n pb fl → is_u32 x →
  translate (phys s') (g_kernel_pd_phys s) x =
    if decide (0 ≤ x - vaddr < n) then Some (add32 pb (x - vaddr), false, flag fl PAGING_PAGE_FLAG_WRITABLE)
    else translate (phys s) (g_kernel_pd_phys s) x.
Proof. intros (_ & _ & H) Hx. rewrite !view_translate, H by done. by case_decide. Qed.

Lemma mapped_flags s s' vaddr n pb fl x :
  mapped s s' vaddr n pb fl → is_u32 x → 0 ≤ x - vaddr < n →
  page_flags_of (phys s') (g_kernel_pd_phys s) x = Some (Z.lor fl PAGING_PAGE_FLAG_PRESENT).
Proof. intros (_ & _ & H) Hx Hr. by rewrite view_flags, H, decide_True. Qed.

Lemma add32_page pb off r :
  is_u32 pb → pb mod 4096 = 0 → off mod 4096 = 0 → 0 ≤ r < 4096 →
  add32 pb off + r = add32 pb (off + r).
Proof.
  intros Hpb Hpm Hom Hr. unfold add32, u32, two32.
  assert (Ham : (pb + off) mod 4294967296 mod 4096 = 0).
  { rewrite <- Znumtheory.Zmod_div_mod by (lia || by exists 1048576). by rewrite Z.add_mod, Hpm, Hom by lia. }
  pose proof (Z.mod_pos_bound (pb + off) 4294967296 ltac:(lia)) as Hb.
  pose proof (aligned_u32_add _ r Hb Ham Hr) as Hu. unfold two32 in Hu.
  rewrite Z.add_assoc. rewrite <- (Z.add_mod_idemp_l (pb + off) r) by lia. symmetry. by apply Z.mod_small.
Qed.

(** An address of the page that starts at [vaddr + off]. *)
Lemma same_page_offset x vaddr off :
  vaddr mod 4096 = 0 → off mod 4096 = 0 →
  (x / 4096 = (vaddr + off) / 4096 ↔ off ≤ x - vaddr < off + 4096) ∧
  (off ≤ x - vaddr < off + 4096 → off + x mod 4096 = x - vaddr).
Proof.
  intros Hv Ho. pose proof (Z.div_mod vaddr 4096 ltac:(lia)). pose proof (Z.div_mod off 4096 ltac:(lia)).
  pose proof (Z.div_mod x 4096 ltac:(lia)). pose proof (Z.mod_pos_bound x 4096 ltac:(lia)).
  replace (vaddr + off) with ((vaddr / 4096 + off / 4096) * 4096) by lia. rewrite Z.div_mul by lia.
  split; [lia|]. intros Hr. assert (x / 4096 = vaddr / 4096 + off / 4096) by lia. lia.
Qed.

Lemma mapped_step s s1 s2 vaddr off pb fl :
  vaddr mod 4096 = 0 → 0 ≤ off → off mod 4096 = 0 → is_u32 pb → pb mod 4096 = 0 →
  mapped s s1 vaddr off pb fl → kernel_wf s2 → g_kernel_pd_phys s2 = g_kernel_pd_phys s1 →
  (∀ x, is_u32 x → view (phys s2) (g_kernel_pd_phys s1) x =
     if decide (x / 4096 = (vaddr + off) / 4096)
     then Some (add32 pb off + x mod 4096, false, flag fl PAGING_PAGE_FLAG_WRITABLE, Z.lor fl PAGING_PAGE_FLAG_PRESENT)
     else view (phys s1) (g_kernel_pd_phys s1) x) →
  mapped s s2 vaddr (off + 4096) pb fl.
Proof.
  intros Hv Ho Hom Hpb Hpm (Hk1 & Hpd1 & Ht1) Hk2 Hpd2 Ht2. split_and!; [done|congruence|].
  intros x Hx. rewrite <- Hpd1, Ht2 by done. destruct (same_page_offset x vaddr off Hv Hom) as [He1 He2].
  destruct (decide (x / 4096 = (vaddr + off) / 4096)) as [He|He].
  - rewrite decide_True by (rewrite He1 in He; lia).
    rewrite add32_page, He2 by (done || by apply Z.mod_pos_bound || tauto). done.
  - rewrite Hpd1, Ht1 by done. repeat case_decide; try done; lia.
Qed.

Lemma map_pages_spec s vaddr pb fl v :
  kernel_wf s → vaddr mod 4096 = 0 → 0 ≤ vaddr → KERNEL_VIRTUAL_BASE + KERNEL_EARLY_MAP_BYTES ≤ vaddr →
  0 ≤ v → vaddr + v * 4096 < two32 → is_u32 pb → pb mod 4096 = 0 →
  0 ≤ fl < 4096 → flag fl PAGING_PAGE_FLAG_PRESENT = true → Z.lor fl PAGING_PAGE_FLAG_PRESENT = fl →
  match each (map_kernel_page vaddr pb fl) (pages 0 (v * 4096)) s with
  | (Ok _, s') => mapped s s' vaddr (v * 4096) pb fl
  | (Err e, s') => e = KERR_NOMEM ∧ ∃ n, 0 ≤ n < v ∧ mapped s s' vaddr (n * 4096) pb fl
  end.
Proof.
  intros Hk Hva H0 Hwin Hv Hend Hpb Hpm Hfl Hfp Hid.
  assert (Hlen : alen (pages 0 (v * 4096)) = v).
  { unfold alen, pages, PAGE_SIZE_BYTES. rewrite length_fmap, length_seqZ.
    replace (v * 4096 - 0 + 4095) with (v * 4096 + 4095) by lia.
    rewrite Z.div_add_l by lia. change (4095 / 4096) with 0. lia. }
  pose proof (each_ind (map_kernel_page vaddr pb fl)
    (λ dn s', mapped s s' vaddr (alen dn * 4096) pb fl)
    (λ dn e s', e = KERR_NOMEM ∧ alen dn < v ∧ mapped s s' vaddr (alen dn * 4096) pb fl)
    (pages 0 (v * 4096)) s) as H.
  lapply H; [clear H; intros H|].
  2: { split_and!; [done..|]. intros x Hx. rewrite decide_False by (unfold alen; simpl; lia). done. }
  lapply H; [clear H; intros H|].
  2: { intros dn a s1 Hpre Hm1. destruct (pages_prefix v dn a Hv Hpre) as [Hlt ->].
    pose proof (alen_nonneg dn). pose proof (Z.mod_mul (alen dn) 4096 ltac:(lia)) as Hmod.
    assert (Hw : in_window (vaddr + alen dn * 4096)) by (unfold in_window; lia).
    pose proof (map_kernel_page_spec s1 vaddr pb fl (alen dn * 4096) (proj1 Hm1) Hw H0
      ltac:(lia) Hmod Hpb Hpm Hfl Hfp) as Hp.
    destruct (map_kernel_page vaddr pb fl (alen dn * 4096) s1) as [[u|e] s2].
    - destruct Hp as (Hk2 & Hpd2 & Ht2).
      replace (alen (dn ++ [alen dn * 4096]) * 4096) with (alen dn * 4096 + 4096)
        by (unfold alen; rewrite length_app; simpl; lia).
      apply (mapped_step s s1 s2 vaddr _ pb fl); [done|lia|done..|]. intros x Hx. rewrite Hid. by apply Ht2.
    - destruct Hp as [-> ->]. done. }
  destruct (each _ _ s) as [[u|e] s']; [by rewrite Hlen in H|].
  destruct H as (dn & -> & Hlt & Hm). split; [done|]. exists (alen dn). pose proof (alen_nonneg dn). done.
Qed.

Lemma mapped_reload s s' vaddr n pb fl : mapped s s' vaddr n pb fl → mapped s (reload_current s') vaddr n pb fl.
Proof.
  intros (Hk & Hpd & Ht). destruct (reload_fields s') as (Hf1 & Hf2 & _).
  split_and!; [by apply kernel_wf_reload|by rewrite Hf2|by rewrite Hf1].
Qed.

(** [paging_map_kernel_region] on the part of kernel space above the
    early map.  It accepts exactly non-empty regions at page-aligned addresses
    whose whole pages end below the top of the address space.  Then every
    address of those pages means the corresponding address from the page of
    [paddr] on (physical addresses wrap), for the kernel only, writable as the
    flags say, and no other address changes its meaning.  When a page table
    cannot be allocated the result is [-KERR_NOMEM] and exactly the pages before
    the failing one are mapped; other rejected calls change nothing. *)
Theorem paging_map_kernel_region_spec s vaddr paddr length fl :
  kernel_wf s → is_u32 vaddr → is_u32 paddr → is_u32 length → 0 ≤ fl < 4096 →
  KERNEL_VIRTUAL_BASE + KERNEL_EARLY_MAP_BYTES ≤ vaddr →
  let span := (length + paddr mod 4096 + 4095) / 4096 * 4096 in
  let base := paddr - paddr mod 4096 in
  match paging_map_kernel_region vaddr paddr length fl s with
  | (Ok _, s') => 0 < length ∧ vaddr mod 4096 = 0 ∧ vaddr + span < two32 ∧ mapped s s' vaddr span base fl
  | (Err e, s') =>
      (e = KERR_INVAL ∧ s' = s ∧ (length = 0 ∨ vaddr mod 4096 ≠ 0 ∨ two32 ≤ vaddr + span)) ∨
      (e = KERR_NOMEM ∧ ∃ n, 0 ≤ n < span ∧ n mod 4096 = 0 ∧ mapped s s' vaddr n base fl)
  end.
Proof.
  intros Hk Hv Hp Hl Hfl Hwin span base. unfold paging_map_kernel_region. rewrite low_bits.
  pose proof (Z.mod_pos_bound paddr 4096 ltac:(lia)) as Hpm. pose proof (Z.mod_le paddr 4096 ltac:(lia) ltac:(lia)).
  pose proof (Z.div_mod (length + paddr mod 4096 + 4095) 4096 ltac:(lia)) as Hdm.
  pose proof (Z.mod_pos_bound (length + paddr mod 4096 + 4095) 4096 ltac:(lia)) as Hmb.
  destruct (Z.eqb_spec length 0) as [|H0]; [left; by auto|].
  unfold KERNEL_VIRTUAL_BASE, KERNEL_EARLY_MAP_BYTES in Hwin.
  rewrite (proj2 (Z.ltb_ge vaddr KERNEL_VIRTUAL_BASE)) by (unfold KERNEL_VIRTUAL_BASE; lia).
  destruct (Z.eqb_spec (vaddr mod 4096) 0) as [Hva|Hva]; cbn [negb]; [|left; by auto]. cbv zeta.
  rewrite frame_of_word by done. fold base.
  rewrite (sub32_small paddr base) by (unfold base, two32 in *; lia).
  replace (paddr - base) with (paddr mod 4096) by (unfold base; lia).
  rewrite (sub32_small 4294967295) by (unfold two32; lia).
  destruct (Z.ltb_spec (4294967295 - paddr mod 4096) length).
  { left. split_and!; try done. right; right. unfold span, two32 in *. lia. }
  rewrite (add32_small length) by (unfold two32; lia).
  destruct (Z.ltb_spec (4294967295 - 4095) (length + paddr mod 4096)).
  { left. split_and!; try done. right; right. unfold span, two32 in *. lia. }
  rewrite round_up by (unfold two32; lia). fold span.
  rewrite (sub32_small 4294967295) by (unfold span, two32; lia).
  destruct (Z.ltb_spec (4294967295 - span) vaddr).
  { left. split_and!; try done. right; right. unfold two32 in *. lia. }
  assert (Hbm : base mod 4096 = 0) by (unfold base; rewrite Zminus_mod_idemp_r, Z.sub_diag; done).
  assert (Hflp : 0 ≤ Z.lor fl PAGING_PAGE_FLAG_PRESENT < 4096) by (by apply lor_low).
  pose proof (map_pages_spec s vaddr base (Z.lor fl PAGING_PAGE_FLAG_PRESENT)
    ((length + paddr mod 4096 + 4095) / 4096) Hk Hva ltac:(lia)
    ltac:(unfold KERNEL_VIRTUAL_BASE, KERNEL_EARLY_MAP_BYTES; lia) ltac:(lia)
    ltac:(fold span; unfold two32; lia) ltac:(unfold base, two32 in *; lia) Hbm Hflp) as Hm.
  assert (Hw : flag (Z.lor fl PAGING_PAGE_FLAG_PRESENT) PAGING_PAGE_FLAG_WRITABLE = flag fl PAGING_PAGE_FLAG_WRITABLE).
  { change PAGING_PAGE_FLAG_WRITABLE with (2 ^ 1). rewrite flag_lor by lia. apply orb_false_r. }
  unfold mapped in Hm. rewrite Hw, <- Z.lor_assoc, Z.lor_diag in Hm. fold span in Hm. specialize (λ H, Hm H eq_refl).
  lapply Hm; [clear Hm; intros Hm|].
  2: { change PAGING_PAGE_FLAG_PRESENT with (2 ^ 0). rewrite flag_lor by lia. apply orb_true_r. }
  destruct (each _ _ s) as [[u|e] s'].
  - split_and!; [lia|done|unfold two32; lia|]. by apply mapped_reload.
  - destruct Hm as (-> & n & Hn & Hm). right. split; [done|]. exists (n * 4096).
    split_and!; [lia|unfold span; lia|by apply Z.mod_mul|done..].
Qed.

(** * Start-up *)

(** A loop that writes every element of an array. *)
Lemma fill_spec {A} `{!Inhabited A} (g : Z → A) n (l : list A) :
  alen l = n →
  let l' := for_range 0 n (λ i l, l.[i <- g i]) l in
  alen l' = n ∧ ∀ j, 0 ≤ j < n → l'.[j] = g j.
Proof.
  intros Hn. pose proof (alen_nonneg l).
  apply (for_range_ind (λ i l', alen l' = n ∧ ∀ j, 0 ≤ j < i → l'.[j] = g j)); [lia|split; [done|lia]|].
  intros i l1 Hi [Hl Hj]. split; [by rewrite alen_aset|]. intros j Hji. rewrite aget_aset by lia.
  case_decide; [by subst|]. apply Hj. lia.
Qed.

Lemma forall_words (l : list Z) : alen l = 1024 → (∀ j, 0 ≤ j < 1024 → is_u32 l.[j]) → Forall (λ w, is_u32 w) l.
Proof.
  intros Hl Hj. apply Forall_lookup. intros i w Hw. specialize (Hj (Z.of_nat i)).
  unfold aget in Hj. rewrite Nat2Z.id, (list_lookup_total_correct _ _ _ Hw) in Hj. apply Hj.
  apply lookup_lt_Some in Hw. unfold alen in Hl. lia.
Qed.

Lemma early_page_table_spec t old :
  0 ≤ t < 8 → alen old = 1024 →
  let pt := early_page_table t old in
  alen pt = 1024 ∧ Forall (λ w, is_u32 w) pt ∧
  ∀ k, 0 ≤ k < 1024 → pt.[k] = pw ((t * 1024 + k) * 4096).
Proof.
  intros Ht Hl pt. subst pt. unfold early_page_table.
  destruct (fill_spec (λ i, pw (add32 (mul32 t PAGE_TABLE_SPAN_BYTES) (mul32 i PAGE_SIZE_BYTES)))
    PAGE_TABLE_ENTRIES old Hl) as [Hl' Hg].
  assert (Hk : ∀ k, 0 ≤ k < 1024 → add32 (mul32 t PAGE_TABLE_SPAN_BYTES) (mul32 k PAGE_SIZE_BYTES) =
    (t * 1024 + k) * 4096).
  { intros k Hk. unfold mul32, PAGE_TABLE_SPAN_BYTES, PAGE_TABLE_ENTRIES, PAGE_SIZE_BYTES.
    rewrite !u32_small by (unfold two32; lia). rewrite add32_small by (unfold two32; lia). lia. }
  assert (Hw : ∀ k, 0 ≤ k < 1024 →
    (for_range 0 PAGE_TABLE_ENTRIES (λ i pt, pt.[i <- pw (add32 (mul32 t PAGE_TABLE_SPAN_BYTES)
       (mul32 i PAGE_SIZE_BYTES))]) old).[k] = pw ((t * 1024 + k) * 4096)).
  { intros k Hk2. rewrite Hg by done. by rewrite Hk. }
  split_and!; [done| |done]. apply forall_words; [done|]. intros j Hj.
  rewrite (Hw j Hj).
  apply present_writable; [unfold two32; lia|by apply Z.mod_mul].
Qed.

Definition free_low (pm : pmm_state) : Z := count_range (λ f, negb (test_frame pm f)) 8192.

(** A frame below [KERNEL_EARLY_MAP_BYTES] while there are free ones. *)
Lemma alloc_low_frame pm :
  pmm_wf pm → test_frame pm 0 = true → 0 < free_low pm →
  ∃ f pm', pmm_alloc_frame pm = (f * 4096, pm') ∧ 0 < f < 8192 ∧
    test_frame pm f = false ∧ pmm_wf pm' ∧ used_frames pm' = used_frames pm + 1 ∧
    (∀ g, 0 ≤ g → test_frame pm' g = bool_decide (f = g) || test_frame pm g) ∧
    free_low pm' = free_low pm - 1.
Proof.
  intros Hwf H0 Hfree. pose proof (pmm_alloc_cases pm Hwf) as H.
  assert (Hex : ∃ g, 0 ≤ g < 8192 ∧ test_frame pm g = false).
  { destruct (decide (Exists (λ g, test_frame pm g = false) (seqZ 0 8192))) as [Hx|Hx].
    - apply Exists_exists in Hx as (g & Hg & Hf). exists g. apply elem_of_seqZ in Hg. split; [lia|done].
    - exfalso. enough (free_low pm = 0) by lia. unfold free_low.
      rewrite (count_range_ext _ (λ _, false)); [reflexivity|]. intros i Hi.
      destruct (test_frame pm i) eqn:E; [done|]. exfalso. apply Hx, Exists_exists. exists i.
      split; [by apply elem_of_seqZ; lia|done]. }
  destruct Hex as (g & Hg & Hgf). destruct (pmm_alloc_frame pm) as [addr pm'].
  assert (Hgn : g < nframes pm).
  { destruct (Z.lt_ge_cases g (nframes pm)); [done|]. by rewrite test_frame_invalid in Hgf. }
  destruct H as [(Hall & _)|(f & [Hf Hff] & Hlow & -> & Hwf' & Hu & Hn & Ht)].
  { by rewrite Hall in Hgf by lia. }
  assert (Hfg : f ≤ g). { destruct (Z.le_gt_cases f g); [done|]. by rewrite Hlow in Hgf by lia. }
  assert (f ≠ 0) by (intros ->; congruence).
  exists f, pm'. split_and!; try done; try lia.
  unfold free_low. rewrite (count_range_update (λ i, negb (test_frame pm' i)) (λ i, negb (test_frame pm i)) 8192 f).
  - rewrite Hff, Ht, bool_decide_true by (done || lia). simpl. lia.
  - lia.
  - intros i Hi Hne. by rewrite Ht, bool_decide_false by (done || lia).
Qed.

#[local] Opaque free_low.

Lemma page_number_addr f : 0 < f < 8192 → page_addr (f * 4096).
Proof. intros Hf. unfold page_addr, KERNEL_EARLY_MAP_BYTES. split; [lia|by apply Z.mod_mul]. Qed.

Lemma kernel_virtual p : page_addr p → add32 KERNEL_VIRTUAL_BASE p = KERNEL_VIRTUAL_BASE + p.
Proof.
  unfold page_addr, KERNEL_EARLY_MAP_BYTES, KERNEL_VIRTUAL_BASE. intros [Hp _].
  apply add32_small. unfold two32. lia.
Qed.

Section start.
Context (ph : gmap Z (list Z)) (h : kheap) (pm0 pm1 : pmm_state) (d : Z).
Context (Hd : 0 < d < 8192) (Hd0 : test_frame pm0 d = false).

(** After [t] early tables. *)
Record early_inv (t : Z) (s : paging) (pm : pmm_state) : Prop := {
  ei_pmm : pmm_wf pm;
  ei_used : used_frames pm = used_frames pm0 + 1 + t;
  ei_free : free_low pm = free_low pm0 - 1 - t;
  ei_mono : ∀ f, 0 ≤ f → test_frame pm0 f = true → test_frame pm f = true;
  ei_d : test_frame pm d = true;
  ei_shape : s = set_phys (phys s) (set_tables (g_early_page_tables s) (replicate 1024 0) (paging_zero ph h));
  ei_len : alen (g_early_page_tables s) = 8;
  ei_mem : mem_wf (phys s);
  ei_tables : ∀ j, 0 ≤ j < t → ∃ f,
    (g_early_page_tables s).[j] = KERNEL_VIRTUAL_BASE + f * 4096 ∧ 0 < f < 8192 ∧
    test_frame pm0 f = false ∧ test_frame pm f = true ∧ f ≠ d ∧
    ∀ k, 0 ≤ k < 1024 → (page (phys s) (f * 4096)).[k] = pw ((j * 1024 + k) * 4096);
  ei_inj : ∀ j k, 0 ≤ j < t → 0 ≤ k < t →
    (g_early_page_tables s).[j] = (g_early_page_tables s).[k] → j = k
}.

Lemma init_early_table_step t s pm :
  0 ≤ t < 8 → test_frame pm0 0 = true → 9 ≤ free_low pm0 → early_inv t s pm →
  ∃ s' pm', init_early_table t (s, pm) = (Ok tt, (s', pm')) ∧ early_inv (t + 1) s' pm'.
Proof.
  intros Ht H0 H9 [Hwf Hu Hf Hmono Hdd Hs Hl Hm Hts Hinj].
  destruct (alloc_low_frame pm Hwf (Hmono 0 ltac:(lia) H0) ltac:(lia))
    as (f & pm' & Ha & Hfr & Hff & Hwf' & Hu' & Ht' & Hfl).
  unfold init_early_table. rewrite Ha, (proj2 (Z.eqb_neq _ _)) by lia. cbv zeta.
  rewrite kernel_virtual by (by apply page_number_addr).
  set (s1 := set_phys _ s). set (s2 := set_tables _ _ s1). exists s2, pm'. split; [reflexivity|].
  destruct (early_page_table_spec t (page (phys s) (f * 4096)) Ht (proj1 (Hm _))) as (Hp1 & Hp2 & Hp3).
  assert (Hnew : ∀ j, 0 ≤ j < t → (g_early_page_tables s).[j] ≠ KERNEL_VIRTUAL_BASE + f * 4096).
  { intros j Hj E. destruct (Hts j Hj) as (g & Hg & Hgr & _ & Hgt & _). assert (g = f) as -> by lia. congruence. }
  assert (Hph : phys s2 = <[f * 4096 := early_page_table t (page (phys s) (f * 4096))]> (phys s)) by reflexivity.
  assert (He : g_early_page_tables s2 = (g_early_page_tables s).[t <- KERNEL_VIRTUAL_BASE + f * 4096]) by reflexivity.
  split; rewrite ?He, ?Hph.
  - done.
  - lia.
  - lia.
  - intros g Hg Hg0. rewrite Ht', (Hmono g Hg Hg0) by done. apply orb_true_r.
  - rewrite Ht', Hdd by lia. apply orb_true_r.
  - rewrite <- Hph, <- He. unfold s2, s1. rewrite Hs. reflexivity.
  - by rewrite alen_aset.
  - by apply mem_wf_insert.
  - clear Hp1 Hp2 Hs Hph He s1 s2. intros j Hj. rewrite aget_aset by lia. destruct (decide (t = j)) as [<-|Hne].
    + exists f. split_and!; try done; try lia.
      * destruct (test_frame pm0 f) eqn:E; [|done]. rewrite Hmono in Hff by (done || lia). done.
      * by rewrite Ht', bool_decide_true by lia.
      * intros ->. congruence.
      * intros k Hk. rewrite page_insert, decide_True by done. by apply Hp3.
    + destruct (Hts j ltac:(lia)) as (g & Hg & Hgr & Hg0 & Hgt & Hgd & Hgk). exists g. split_and!; try done; try lia.
      * rewrite Ht', Hgt by lia. apply orb_true_r.
      * intros k Hk. rewrite page_insert, decide_False; [by apply Hgk|]. intros E.
        assert (f = g) as -> by lia. congruence.
  - clear Hp1 Hp2 Hp3 Hs Hph He s1 s2. intros j k Hj Hk. rewrite !aget_aset by lia.
    repeat case_decide; try done; subst; try done.
    + intros E. destruct (Hnew k ltac:(lia)). done.
    + intros E. destruct (Hnew j ltac:(lia)). done.
    + apply Hinj; lia.
Qed.

(** The directory after [t] of its entries. *)
Definition directory_inv (t : Z) (s0 s : paging) : Prop :=
  s = set_phys (phys s) s0 ∧ mem_wf (phys s) ∧
  (∀ p, p ≠ d * 4096 → page (phys s) p = page (phys s0) p) ∧
  ∀ i, 0 ≤ i < 1024 → (page (phys s) (d * 4096)).[i] =
    if decide (canon i < t)
    then pw ((g_early_page_tables s0).[canon i] - KERNEL_VIRTUAL_BASE) else PAGING_PAGE_FLAG_WRITABLE.

Lemma init_directory_step t s0 s :
  0 ≤ t < 8 → page_addr ((g_early_page_tables s0).[t] - KERNEL_VIRTUAL_BASE) →
  directory_inv t s0 s →
  ∃ s', init_directory_entry (d * 4096) t s = (Ok tt, s') ∧ directory_inv (t + 1) s0 s'.
Proof.
  intros Ht Hp (Hs & Hm & Hoth & Hpd). unfold init_directory_entry.
  assert (He : (g_early_page_tables s).[t] = (g_early_page_tables s0).[t]) by (by rewrite Hs).
  rewrite He, virt_to_phys_ok by done. eexists. split; [reflexivity|].
  set (e := pw _). change (Z.shiftr KERNEL_VIRTUAL_BASE 22) with 768.
  pose proof (page_addr_u32 _ Hp) as Hpu. destruct (present_writable _ Hpu (proj2 Hp)) as (Heu & _). fold e in Heu.
  destruct (Hm (d * 4096)) as [Hlen _].
  unfold directory_inv. cbn [set_phys phys]. split_and!.
  - rewrite Hs. done.
  - apply mem_wf_write; [by apply mem_wf_write|done].
  - intros p Hne. rewrite !page_write, !decide_False by congruence. by apply Hoth.
  - intros i Hi. rewrite !page_write, !decide_True by done.
    rewrite !aget_aset by (rewrite ?alen_aset; lia). rewrite Hpd by done.
    assert (Hc : i = t ∨ i = 768 + t ↔ canon i = t) by (unfold canon; case_match; lia).
    destruct (decide (canon i = t)) as [Hci|Hci].
    + rewrite (decide_True (P := canon i < t + 1)), Hci by lia. fold e.
      destruct (decide (768 + t = i)); [done|]. destruct (decide (t = i)); [done|]. lia.
    + rewrite (decide_False (P := 768 + t = i)), (decide_False (P := t = i)) by lia.
      repeat case_decide; try done; lia.
Qed.
End start.

(** The tables of a kernel that has just started. *)
Section started.
Context (s : paging) (d : Z).
Context (Hd : 0 < d < 8192) (Hpd : g_kernel_pd_phys s = d * 4096).
Context (Hpv : g_kernel_pd_virt s = KERNEL_VIRTUAL_BASE + d * 4096).
Context (Hel : alen (g_early_page_tables s) = 8) (Hdyn : g_dynamic_page_tables s = replicate 1024 0).
Context (Hm : mem_wf (phys s)) (Hheap : heap_in_window (heap s)).
Context (Htabs : ∀ j, 0 ≤ j < 8 → ∃ f,
    (g_early_page_tables s).[j] = KERNEL_VIRTUAL_BASE + f * 4096 ∧ 0 < f < 8192 ∧ f ≠ d ∧
    (KERNEL_VIRTUAL_BASE + f * 4096 + 4096 ≤ heap_base (heap s) ∨ heap_end (heap s) ≤ KERNEL_VIRTUAL_BASE + f * 4096) ∧
    ∀ k, 0 ≤ k < 1024 → (page (phys s) (f * 4096)).[k] = pw ((j * 1024 + k) * 4096)).
Context (Hinj : ∀ j k, 0 ≤ j < 8 → 0 ≤ k < 8 →
    (g_early_page_tables s).[j] = (g_early_page_tables s).[k] → j = k).
Context (Hdout : KERNEL_VIRTUAL_BASE + d * 4096 + 4096 ≤ heap_base (heap s) ∨
    heap_end (heap s) ≤ KERNEL_VIRTUAL_BASE + d * 4096).
Context (Hpde : ∀ i, 0 ≤ i < 1024 → (page (phys s) (d * 4096)).[i] =
    if decide (canon i < 8)
    then pw ((g_early_page_tables s).[canon i] - KERNEL_VIRTUAL_BASE) else PAGING_PAGE_FLAG_WRITABLE).

Lemma started_lookup i : 0 ≤ i < 1024 →
  paging_lookup_kernel_page_table i s =
  if decide (canon i < 8) then (g_early_page_tables s).[canon i] else 0.
Proof.
  intros Hi. rewrite <- lookup_canon by lia. pose proof (canon_bound i Hi).
  assert (Hc : canon i < 768 ∨ 776 ≤ canon i) by (unfold canon; case_match; lia).
  unfold paging_lookup_kernel_page_table. rewrite early_count, high_index.
  destruct (Z.ltb_spec (canon i) 8); [by rewrite decide_True|]. rewrite decide_False by lia.
  assert (Hdz : (g_dynamic_page_tables s).[canon i] = 0).
  { rewrite Hdyn. apply (aget_replicate 1024). unfold canon in *. lia. }
  case_match; [lia|done].
Qed.

Lemma started_table j : 0 ≤ j < 8 →
  page_addr ((g_early_page_tables s).[j] - KERNEL_VIRTUAL_BASE) ∧ (g_early_page_tables s).[j] ≠ 0 ∧
  (g_early_page_tables s).[j] ≠ g_kernel_pd_virt s ∧
  ((g_early_page_tables s).[j] + 4096 ≤ heap_base (heap s) ∨ heap_end (heap s) ≤ (g_early_page_tables s).[j]).
Proof.
  intros Hj. destruct (Htabs j Hj) as (f & -> & Hf & Hne & Hout & _). rewrite Hpv, Z.add_simpl_l.
  split_and!; [by apply page_number_addr|unfold KERNEL_VIRTUAL_BASE; lia|lia|done].
Qed.

Lemma started_tables_wf : tables_wf s.
Proof.
  assert (Hnz : ∀ i, 0 ≤ i < 1024 → paging_lookup_kernel_page_table i s ≠ 0 → 0 ≤ canon i < 8).
  { intros i Hi. rewrite started_lookup by done. pose proof (canon_bound i Hi). case_decide; [lia|done]. }
  split.
  - done.
  - rewrite Hpd. split; [by apply page_number_addr|done].
  - rewrite Hdyn. done.
  - intros i Hi Hn. pose proof (Hnz i Hi Hn). rewrite started_lookup, decide_True by lia. by apply started_table.
  - intros i Hi. rewrite started_lookup, canon_id, decide_True by lia. by apply started_table.
  - intros i j Hi Hj Hn E. pose proof (Hnz i Hi Hn). pose proof Hn as Hn2. rewrite E in Hn2.
    pose proof (Hnz j Hj Hn2). rewrite !started_lookup, !decide_True in E by lia. by apply Hinj.
  - intros i Hi. destruct (decide (canon i < 8)).
    + pose proof (canon_bound i Hi). rewrite started_lookup, decide_True by done. apply started_table. lia.
    + rewrite started_lookup, decide_False by done. rewrite Hpv. unfold KERNEL_VIRTUAL_BASE. lia.
  - done.
  - intros v [->|(i & Hi & ->)]; [by rewrite Hpv|].
    rewrite started_lookup, canon_id, decide_True by lia. by apply started_table.
  - intros i Hi Hc Hn. pose proof (Hnz i ltac:(lia) Hn). lia.
Qed.

Lemma started_kernel_wf :
  kernel_wf s ∧ ∀ x, is_u32 x → translate (phys s) (g_kernel_pd_phys s) x =
    if decide (x < KERNEL_EARLY_MAP_BYTES) then Some (x, false, true)
    else if decide (0 ≤ x - KERNEL_VIRTUAL_BASE < KERNEL_EARLY_MAP_BYTES)
    then Some (x - KERNEL_VIRTUAL_BASE, false, true) else None.
Proof.
  pose proof started_tables_wf as Ht.
  assert (Hpte : ∀ i k, 0 ≤ i < 1024 → canon i < 8 → 0 ≤ k < 1024 → kpte s i k = pw ((canon i * 1024 + k) * 4096)).
  { intros i k Hi Hc Hk. pose proof (canon_bound i Hi). unfold kpte. rewrite started_lookup, decide_True by done.
    destruct (Htabs (canon i) ltac:(lia)) as (f & -> & _ & _ & _ & Hf). rewrite Z.add_simpl_l. by apply Hf. }
  assert (Hpage : ∀ i k, 0 ≤ i < 8 → 0 ≤ k < 1024 → is_u32 ((i * 1024 + k) * 4096) ∧ (i * 1024 + k) * 4096 mod 4096 = 0).
  { intros i k Hi Hk. split; [unfold two32; lia|by apply Z.mod_mul]. }
  assert (Hk : kernel_wf s).
  { split; [done| |].
    - intros i Hi. pose proof (canon_bound i Hi). rewrite started_lookup by done.
      unfold kpde. rewrite Hpd, Hpde by done. destruct (decide (canon i < 8)); [|done].
      destruct (started_table (canon i) ltac:(lia)) as (Hpa & Hnz & _).
      rewrite (proj2 (Z.eqb_neq _ _) Hnz).
      destruct (present_writable _ (page_addr_u32 _ Hpa) (proj2 Hpa)) as (_ & -> & -> & -> & ->). done.
    - intros i k Hi Hkk. rewrite Hpte by (rewrite ?canon_id; lia). rewrite canon_id by done.
      destruct (Hpage i k Hi Hkk) as [Hu Ha].
      destruct (present_writable _ Hu Ha) as (_ & -> & -> & -> & ->). done. }
  split; [done|]. intros x Hx. pose proof (pd_index_bound x Hx) as Hb. pose proof (pt_index_bound x) as Hpt.
  rewrite kernel_translate, started_lookup by done.
  pose proof (pd_pt_index x) as Hsp. pose proof (Z.div_mod x 4096 ltac:(lia)).
  pose proof (Z.mod_pos_bound x 4096 ltac:(lia)) as Hxm. pose proof (canon_bound _ Hb).
  destruct (decide (canon (pd_index x) < 8)) as [Hc|Hc].
  - destruct (started_table (canon (pd_index x)) ltac:(lia)) as (_ & Hnz & _).
    rewrite (proj2 (Z.eqb_neq _ _) Hnz), Hpte by done. cbv zeta.
    destruct (Hpage (canon (pd_index x)) (pt_index x) ltac:(lia) Hpt) as [Hu Ha].
    destruct (present_writable _ Hu Ha) as (_ & -> & -> & -> & ->).
    rewrite andb_false_r, low_bits, lor_frame by done.
    unfold canon in Hc |- *. unfold KERNEL_EARLY_MAP_BYTES, KERNEL_VIRTUAL_BASE.
    destruct ((768 <=? pd_index x) && (pd_index x <? 776)) eqn:E.
    + rewrite decide_False, decide_True by lia. do 3 f_equal. lia.
    + rewrite decide_True by lia. do 3 f_equal. lia.
  - rewrite Z.eqb_refl. unfold canon in Hc. unfold KERNEL_EARLY_MAP_BYTES, KERNEL_VIRTUAL_BASE.
    case_match; [lia|]. by rewrite !decide_False by lia.
Qed.
End started.

(** The frames behind the heap are in use. *)
Definition heap_reserved (h : kheap) (pm : pmm_state) : Prop :=
  ∀ f, 0 ≤ f → heap_base h < KERNEL_VIRTUAL_BASE + f * 4096 + 4096 →
       KERNEL_VIRTUAL_BASE + f * 4096 < heap_end h → test_frame pm f = true.

Lemma heap_reserved_out h pm f :
  heap_reserved h pm → 0 ≤ f → test_frame pm f = false →
  KERNEL_VIRTUAL_BASE + f * 4096 + 4096 ≤ heap_base h ∨ heap_end h ≤ KERNEL_VIRTUAL_BASE + f * 4096.
Proof.
  intros Hr H0 Hf.
  destruct (Z.le_gt_cases (KERNEL_VIRTUAL_BASE + f * 4096 + 4096) (heap_base h)); [by left|].
  destruct (Z.le_gt_cases (heap_end h) (KERNEL_VIRTUAL_BASE + f * 4096)); [by right|].
  rewrite Hr in Hf by lia. done.
Qed.

Lemma paging_init_loops ph h pm :
  pmm_wf pm → mem_wf ph → test_frame pm 0 = true → 9 ≤ free_low pm →
  ∃ d s pm', 0 < d < 8192 ∧ test_frame pm d = false ∧ early_inv ph h pm d 8 s pm' ∧
    ∃ s', directory_inv d 8 (set_phys (phys s) s) s' ∧
      paging_init (paging_zero ph h) pm = (init_finish (d * 4096) s', pm').
Proof.
  intros Hwf Hm H0 H9.
  destruct (alloc_low_frame pm Hwf H0 ltac:(lia)) as (d & pm1 & Ha & Hd & Hdf & Hwf1 & Hu1 & Ht1 & Hfl1).
  destruct (each_range_ok init_early_table (λ t sp, early_inv ph h pm d t (fst sp) (snd sp)) 0 8
    (paging_zero ph h, pm1)) as ([s pm2] & He & Hinv); [lia| | |].
  { split; cbn [fst snd]; [done|lia|lia| | |reflexivity|reflexivity|done|lia|lia].
    - intros f Hf Hft. rewrite Ht1, Hft by done. apply orb_true_r.
    - by rewrite Ht1, bool_decide_true by lia. }
  { intros t [s2 pm2] Ht Hinv. cbn [fst snd] in Hinv.
    destruct (init_early_table_step ph h pm d Hd t s2 pm2 ltac:(lia) H0 H9 Hinv) as (s3 & pm3 & -> & Hinv3).
    by exists (s3, pm3). }
  cbn [fst snd] in Hinv. exists d, s, pm2. split_and!; [lia|lia|done|done|].
  set (s1 := set_phys (<[d * 4096 := for_range 0 1024 (λ i ws, ws.[i <- PAGING_PAGE_FLAG_WRITABLE])
                        (page (phys s) (d * 4096))]> (phys s)) s).
  destruct (fill_spec (λ _, PAGING_PAGE_FLAG_WRITABLE) 1024 (page (phys s) (d * 4096))
    (proj1 (ei_mem _ _ _ _ _ _ _ Hinv _))) as [Hfl Hfg].
  destruct (each_range_ok (init_directory_entry (d * 4096)) (λ t s', directory_inv d t (set_phys (phys s) s) s') 0 8 s1)
    as (s' & He' & Hdir); [lia| | |].
  - split_and!.
    + reflexivity.
    + apply mem_wf_insert; [apply (ei_mem _ _ _ _ _ _ _ Hinv)|done|]. apply forall_words; [done|].
      intros j Hj. rewrite Hfg by done. unfold PAGING_PAGE_FLAG_WRITABLE, two32. lia.
    + intros p Hp. unfold s1. cbn [set_phys phys]. by rewrite page_insert, decide_False by congruence.
    + intros i Hi. unfold s1. cbn [set_phys phys]. rewrite page_insert, decide_True, Hfg by done.
      pose proof (canon_bound i Hi). by rewrite decide_False by lia.
  - intros t s2 Ht Hdir. apply (init_directory_step d); [lia| |done].
    destruct (ei_tables _ _ _ _ _ _ _ Hinv t ltac:(lia)) as (f & Hf & Hfr & _).
    cbn [set_phys g_early_page_tables]. rewrite Hf, Z.add_simpl_l. by apply page_number_addr.
  - exists s'. split; [done|]. unfold paging_init. rewrite Ha, (proj2 (Z.eqb_neq _ _)) by lia.
    rewrite early_count, He. change PAGE_DIRECTORY_ENTRIES with 1024. fold s1. by rewrite He'.
Qed.

Lemma paging_init_cases ph h pm :
  pmm_wf pm → mem_wf ph → heap_in_window h → heap_reserved h pm →
  test_frame pm 0 = true → 9 ≤ free_low pm →
  let '(s, pm') := paging_init (paging_zero ph h) pm in
  paging_ready_flag s = true ∧ kernel_wf s ∧ pmm_wf pm' ∧ used_frames pm' = used_frames pm + 9 ∧
  ∀ x, is_u32 x → translate (phys s) (g_kernel_pd_phys s) x =
    if decide (x < KERNEL_EARLY_MAP_BYTES) then Some (x, false, true)
    else if decide (0 ≤ x - KERNEL_VIRTUAL_BASE < KERNEL_EARLY_MAP_BYTES)
    then Some (x - KERNEL_VIRTUAL_BASE, false, true) else None.
Proof.
  intros Hwf Hm Hh Hr H0 H9.
  destruct (paging_init_loops ph h pm Hwf Hm H0 H9) as (d & s & pm' & Hd & Hdf & Hinv & s' & Hdir & ->).
  destruct Hinv as [Hwf' Hu _ _ _ Hs Hel Hms Hts Hinj]. destruct Hdir as (Hs' & Hms' & Hoth & Hpd).
  assert (Hearly : g_early_page_tables s' = g_early_page_tables s) by (rewrite Hs'; reflexivity).
  assert (Hheap : heap s' = h) by (rewrite Hs', Hs; reflexivity).
  split; [done|]. destruct (started_kernel_wf (init_finish (d * 4096) s') d) as [Hk Ht];
    cbn [init_finish g_kernel_pd_phys g_kernel_pd_virt g_early_page_tables g_dynamic_page_tables phys heap];
    rewrite ?Hearly, ?Hheap; try done.
  - apply kernel_virtual, page_number_addr. lia.
  - intros j Hj. destruct (Hts j Hj) as (f & Hf & Hfr & Hf0 & _ & Hfd & Hfk). exists f.
    split_and!; try done; try lia; [apply (heap_reserved_out h pm); [done|lia|done]|].
    intros k Hk. rewrite Hoth by lia. by apply Hfk.
  - apply (heap_reserved_out h pm); [done|lia|done].
  - split_and!; [done|done|lia|exact Ht].
Qed.

(** C29: start-up maps 32 MiB twice, with eight page tables, and nothing else (the
    comment of paging.h speaks of one table and 4 MiB).  When the allocator has
    page 0 and the pages of the heap in use and at least nine free frames below
    [KERNEL_EARLY_MAP_BYTES], [paging_init] succeeds, takes nine of them, leaves
    tables that satisfy the invariant, and under the new directory the addresses
    below [KERNEL_EARLY_MAP_BYTES] mean themselves, those of as many bytes from
    [KERNEL_VIRTUAL_BASE] on mean the same memory, all of it for the kernel only,
    and no other address means anything. *)
Theorem paging_init_spec ph h pm :
  pmm_wf pm → mem_wf ph → heap_in_window h → heap_reserved h pm →
  test_frame pm 0 = true → 9 ≤ free_low pm →
  let '(s, pm') := paging_init (paging_zero ph h) pm in
  paging_ready_flag s = true ∧ kernel_wf s ∧ pmm_wf pm' ∧ used_frames pm' = used_frames pm + 9 ∧
  ∀ x, is_u32 x → translate (phys s) (g_kernel_pd_phys s) x =
    if decide (x < KERNEL_EARLY_MAP_BYTES) then Some (x, false, true)
    else if decide (0 ≤ x - KERNEL_VIRTUAL_BASE < KERNEL_EARLY_MAP_BYTES)
    then Some (x - KERNEL_VIRTUAL_BASE, false, true) else None.
Proof. exact (paging_init_cases ph h pm). Qed.

(** * Concrete instances *)

(** 64 MiB of memory with 3 MiB of it available, the heap at its place. *)
Definition boot_pmm : pmm_state := pmm_mark_region_available 1048576 3145728 (pmm_init 67108864 pmm_zero).
Definition boot_heap : kheap := kmalloc_init (KERNEL_VIRTUAL_BASE + 8388608) 4194304.
Definition boot : paging := paging_enable (fst (paging_init (paging_zero ∅ boot_heap) boot_pmm)).

Lemma boot_pmm_wf : pmm_wf boot_pmm.
Proof. apply available_cases; [apply pmm_init_spec; unfold two32; lia|unfold two32; lia..]. Qed.

Lemma boot_heap_ok : heap_in_window boot_heap.
Proof. split; [by apply kmalloc_init_wf; unfold two32, KERNEL_VIRTUAL_BASE|]. split; vm_compute; congruence. Qed.

Lemma mem_wf_empty : mem_wf ∅.
Proof. intros p. apply zero_page_u32. Qed.

Lemma boot_reserved : heap_reserved boot_heap boot_pmm.
Proof.
  intros f H0 H1 H2.
  assert (Hb : forallb (test_frame boot_pmm) (seqZ 2048 1024) = true) by (by vm_compute).
  rewrite forallb_forall in Hb. apply Hb, list_elem_of_In, elem_of_seqZ.
  assert (heap_base boot_heap = KERNEL_VIRTUAL_BASE + 8388608) as E1 by (by vm_compute).
  assert (heap_end boot_heap = KERNEL_VIRTUAL_BASE + 12582912) as E2 by (by vm_compute).
  rewrite E1 in H1. rewrite E2 in H2. lia.
Qed.

Lemma boot_free : 9 ≤ free_low boot_pmm.
Proof. vm_compute. congruence. Qed.

Lemma kernel_wf_enable s : kernel_wf s → kernel_wf (paging_enable s).
Proof.
  intros [[Hm Hpd Hlen Ha He Hinj Hnp Hh Ho Hl] Hd Hi]. unfold paging_enable. case_match; split; done.
Qed.

Lemma boot_wf : kernel_wf boot.
Proof.
  pose proof (paging_init_cases ∅ boot_heap boot_pmm boot_pmm_wf mem_wf_empty boot_heap_ok
    boot_reserved eq_refl boot_free) as H. unfold boot.
  destruct (paging_init _ boot_pmm) as [s pm']. apply kernel_wf_enable, H.
Qed.

Lemma paging_init_spec_witness :
  let '(s, pm') := paging_init (paging_zero ∅ boot_heap) boot_pmm in
  paging_ready_flag s = true ∧ translate (phys s) (g_kernel_pd_phys s) 3221229573 = Some (4101, false, true) ∧
  translate (phys s) (g_kernel_pd_phys s) 40000000 = None.
Proof.
  pose proof (paging_init_spec ∅ boot_heap boot_pmm boot_pmm_wf mem_wf_empty boot_heap_ok
    boot_reserved eq_refl boot_free) as H.
  destruct (paging_init _ boot_pmm) as [s pm']. destruct H as (Hr & _ & _ & _ & Ht).
  split; [exact Hr|]. split.
  - rewrite Ht; [reflexivity|split; vm_compute; congruence].
  - rewrite Ht; [reflexivity|split; vm_compute; congruence].
Defined.

Lemma paging_mark_user_region_spec_witness :
  is_ok (fst (paging_mark_user_region 21037056 8192 boot)) = true ∧
  match paging_mark_user_region 21037056 8192 boot with
  | (Err _, _) => False
  | (Ok _, s') => kernel_wf s' ∧ translate (phys s') (g_kernel_pd_phys s') 21045247 = Some (21045247, true, true)
  end.
Proof.
  assert (Hok : is_ok (fst (paging_mark_user_region 21037056 8192 boot)) = true) by (vm_compute; reflexivity).
  split; [exact Hok|].
  pose proof (paging_mark_user_region_spec boot 21037056 8192 boot_wf
    ltac:(split; vm_compute; congruence) ltac:(split; vm_compute; congruence)) as H.
  destruct (paging_mark_user_region 21037056 8192 boot) as [[u|e] s']; [|discriminate Hok].
  destruct H as (_ & _ & Hk & _ & Ht). split; [exact Hk|].
  rewrite Ht; [reflexivity|split; vm_compute; congruence].
Defined.

Lemma paging_map_kernel_region_spec_witness :
  is_ok (fst (paging_map_kernel_region 3254779904 4244635652 5000 3 boot)) = true ∧
  match paging_map_kernel_region 3254779904 4244635652 5000 3 boot with
  | (Err _, _) => False
  | (Ok _, s') => translate (phys s') (g_kernel_pd_phys boot) 3254784000 = Some (4244639744, false, true)
  end.
Proof.
  assert (Hok : is_ok (fst (paging_map_kernel_region 3254779904 4244635652 5000 3 boot)) = true)
    by (vm_compute; reflexivity).
  split; [exact Hok|].
  pose proof (paging_map_kernel_region_spec boot 3254779904 4244635652 5000 3 boot_wf
    ltac:(split; vm_compute; congruence) ltac:(split; vm_compute; congruence)
    ltac:(split; vm_compute; congruence) ltac:(lia) ltac:(vm_compute; congruence)) as H.
  cbv zeta in H.
  destruct (paging_map_kernel_region 3254779904 4244635652 5000 3 boot) as [[u|e] s']; [|discriminate Hok].
  destruct H as (_ & _ & _ & Hm). rewrite (mapped_translate _ _ _ _ _ _ _ Hm); [reflexivity|split; vm_compute; congruence].
Defined.
