(* ===== verification/PagingCow.v ===== *)
(** kernel/paging.c: copy on write.

    The table of reference counts: [paging_cow_hash] maps every page to slot 0,
    so the table is searched from its start.  While its entries are contiguous
    ([compact]) it is a map from frames to counts ([cow_table_refines]); an entry
    that is removed from the middle hides the ones behind it
    ([cow_remove_hides]), with the consequence [cow_isolation_lost] for two
    processes.  Then the fault handler on every branch. *)

From S2P Require Import Prelude Pmm Kmalloc Paging PagingMap.

(** * The table of reference counts *)

Definition frame_addr (f : Z) : Prop := is_u32 f ∧ f mod 4096 = 0.

(** The multiplier keeps the low bits of a page address zero, and the table's
    size is a power of two. *)
Lemma cow_hash_zero f : frame_addr f → paging_cow_hash f = 0.
Proof.
  intros [_ Hf]. unfold paging_cow_hash, mul32, u32, PAGING_COW_META_CAP, two32.
  rewrite <- Znumtheory.Zmod_div_mod by (lia || by exists 2097152).
  apply Z.mod_divide; [lia|]. apply Z.mod_divide in Hf as [k ->]; [|lia].
  exists (k * 2 * 2654435761). lia.
Qed.

(** [n] entries at the front, for different frames. *)
Record compact (c : list cow_meta) (n : Z) : Prop := {
  cp_len : alen c = PAGING_COW_META_CAP;
  cp_n : 0 ≤ n ≤ PAGING_COW_META_CAP;
  cp_used : ∀ i, 0 ≤ i < n → cm_in_use c.[i] = true;
  cp_refs : ∀ i, 0 ≤ i < n → is_u32 (cm_refs c.[i]);
  cp_free : ∀ i, n ≤ i < PAGING_COW_META_CAP → cm_in_use c.[i] = false;
  cp_inj : ∀ i j, 0 ≤ i < n → 0 ≤ j < n → cm_frame c.[i] = cm_frame c.[j] → i = j
}.

(** The slot where the search for a page address ends. *)
Lemma find_slot_at f c i :
  frame_addr f → 0 ≤ i < PAGING_COW_META_CAP →
  (∀ j, 0 ≤ j < i → cm_in_use c.[j] = true ∧ cm_frame c.[j] ≠ f) →
  paging_cow_find_slot f c =
  if cm_in_use c.[i] then
    if cm_frame c.[i] =? f then Found i else paging_cow_find_slot f c
  else Missing i.
Proof.
  intros Hf Hi Hbefore. unfold PAGING_COW_META_CAP in Hi.
  assert (Hslot : ∀ j, 0 ≤ j < 2048 → add32 0 j mod PAGING_COW_META_CAP = j).
  { intros j Hj. rewrite add32_small by (unfold two32; lia). apply Z.mod_small. done. }
  unfold paging_cow_find_slot. rewrite cow_hash_zero by done. cbv zeta.
  destruct (cm_in_use c.[i]) eqn:Eu; [destruct (Z.eqb_spec (cm_frame c.[i]) f) as [Ef|]; [|done]|].
  - erewrite search_range_first; [done|exact Hi|simpl; rewrite Hslot, Eu, Ef, Z.eqb_refl by done; done|].
    intros j Hj. destruct (Hbefore j Hj) as [Hju Hjf].
    by rewrite Hslot, Hju, (proj2 (Z.eqb_neq _ _)) by (done || lia).
  - erewrite search_range_first; [done|exact Hi|simpl; rewrite Hslot, Eu by done; done|].
    intros j Hj. destruct (Hbefore j Hj) as [Hju Hjf].
    by rewrite Hslot, Hju, (proj2 (Z.eqb_neq _ _)) by (done || lia).
Qed.

Lemma find_slot_cases f c n :
  compact c n → frame_addr f →
  match paging_cow_find_slot f c with
  | Found i => 0 ≤ i < n ∧ cm_frame c.[i] = f
  | Missing i => i = n ∧ n < PAGING_COW_META_CAP ∧ ∀ j, 0 ≤ j < n → cm_frame c.[j] ≠ f
  | Full => n = PAGING_COW_META_CAP ∧ ∀ j, 0 ≤ j < n → cm_frame c.[j] ≠ f
  end.
Proof.
  intros [Hl Hn Hu _ Hfr Hinj] Hf.
  destruct (search_range 0 n (λ i, if cm_frame c.[i] =? f then Some i else None)) as [i|] eqn:E.
  - apply search_range_Some in E as (i' & Hi & Hfi & Hlt).
    destruct (Z.eqb_spec (cm_frame c.[i']) f) as [Ef|]; [|done].
    assert (Hb : ∀ j, 0 ≤ j < i' → cm_in_use c.[j] = true ∧ cm_frame c.[j] ≠ f).
    { intros j Hj. split; [apply Hu; lia|]. specialize (Hlt j ltac:(lia)).
      by destruct (Z.eqb_spec (cm_frame c.[j]) f). }
    rewrite (find_slot_at f c i' Hf ltac:(lia) Hb), (Hu i' Hi), Ef, Z.eqb_refl. done.
  - rewrite search_range_None in E.
    assert (Hne : ∀ j, 0 ≤ j < n → cm_frame c.[j] ≠ f).
    { intros j Hj. specialize (E j Hj). by destruct (Z.eqb_spec (cm_frame c.[j]) f). }
    destruct (decide (n < PAGING_COW_META_CAP)) as [Hlt|Hge].
    + rewrite (find_slot_at f c n Hf ltac:(lia)) by (intros j Hj; split; [by apply Hu|by apply Hne]).
      by rewrite Hfr by lia.
    + assert (n = PAGING_COW_META_CAP) as -> by lia.
      unfold paging_cow_find_slot. rewrite cow_hash_zero by done. cbv zeta.
      assert (Hs : search_range 0 PAGING_COW_META_CAP (λ probe,
        if cm_in_use c.[add32 0 probe mod PAGING_COW_META_CAP] then
          if cm_frame c.[add32 0 probe mod PAGING_COW_META_CAP] =? f
          then Some (Found (add32 0 probe mod PAGING_COW_META_CAP)) else None
        else Some (Missing (add32 0 probe mod PAGING_COW_META_CAP))) = None).
      { apply search_range_None. intros j Hj. unfold PAGING_COW_META_CAP in Hj.
        rewrite add32_small by (unfold two32; lia). rewrite Z.add_0_l, Z.mod_small by done.
        by rewrite Hu, (proj2 (Z.eqb_neq _ _) (Hne j Hj)). }
      by rewrite Hs.
Qed.

(** The count and the owned flag of a frame, as the code finds them. *)
Definition shared (c : list cow_meta) (f : Z) : option (Z * bool) :=
  match paging_cow_get f c with Ok ro => Some ro | Err _ => None end.

Lemma shared_slot f c n i :
  compact c n → frame_addr f → 0 ≤ i < n → cm_frame c.[i] = f →
  paging_cow_find_slot f c = Found i ∧ shared c f = Some (cm_refs c.[i], cm_owned c.[i]).
Proof.
  intros Hc Hf Hi Hfi. pose proof (find_slot_cases f c n Hc Hf) as H.
  assert (He : paging_cow_find_slot f c = Found i).
  { destruct (paging_cow_find_slot f c) as [j|j|]; [|by destruct H as (_ & _ & H); edestruct H..|].
    - destruct H as [Hj Hfj]. f_equal. apply (cp_inj c n Hc); congruence.
    - destruct H as (_ & H). by edestruct H. }
  split; [done|]. unfold shared, paging_cow_get. by rewrite He.
Qed.

Lemma shared_None f c n :
  compact c n → frame_addr f → (shared c f = None ↔ ∀ j, 0 ≤ j < n → cm_frame c.[j] ≠ f).
Proof.
  intros Hc Hf. pose proof (find_slot_cases f c n Hc Hf) as H. unfold shared, paging_cow_get.
  destruct (paging_cow_find_slot f c) as [i|i|]; split; try done.
  - intros Hn. destruct H as [Hi Hfi]. by edestruct Hn.
  - by destruct H as (_ & _ & H).
  - by destruct H as (_ & H).
Qed.

(** An update of entry [i < n] that keeps its frame. *)
Lemma compact_update c n i m :
  compact c n → 0 ≤ i < n → cm_in_use m = true → is_u32 (cm_refs m) → cm_frame m = cm_frame c.[i] →
  compact c.[i <- m] n ∧
  ∀ g, frame_addr g → shared c.[i <- m] g =
    if decide (g = cm_frame m) then Some (cm_refs m, cm_owned m) else shared c g.
Proof.
  intros Hc Hi Hu Hr Hf. pose proof Hc as [Hl Hn Hus Hrs Hfr Hinj].
  assert (Hg : ∀ j, 0 ≤ j → c.[i <- m].[j] = if decide (i = j) then m else c.[j]).
  { intros j Hj. apply aget_aset; lia. }
  assert (Hframe : ∀ j, 0 ≤ j → cm_frame c.[i <- m].[j] = cm_frame c.[j]).
  { intros j Hj. rewrite Hg by done. by case_decide; subst. }
  assert (Hc' : compact c.[i <- m] n).
  { split; [by rewrite alen_aset|done| | | |].
    - intros j Hj. rewrite Hg by lia. case_decide; [done|by apply Hus].
    - intros j Hj. rewrite Hg by lia. case_decide; [done|by apply Hrs].
    - intros j Hj. rewrite Hg, decide_False by lia. by apply Hfr.
    - intros j k Hj Hk. rewrite !Hframe by lia. by apply Hinj. }
  split; [done|]. intros g Hga. destruct (decide (g = cm_frame m)) as [->|Hne].
  - destruct (shared_slot (cm_frame m) c.[i <- m] n i Hc' Hga Hi) as [_ ->]; [by rewrite Hframe by lia|].
    by rewrite Hg, decide_True by lia.
  - destruct (shared c g) as [ro|] eqn:E.
    + destruct (search_range 0 n (λ j, if cm_frame c.[j] =? g then Some j else None)) as [j|] eqn:Ej.
      * apply search_range_Some in Ej as (j' & Hj & Hfj & _).
        destruct (Z.eqb_spec (cm_frame c.[j']) g) as [Ef|]; [|done].
        destruct (shared_slot g c n j' Hc Hga Hj Ef) as [_ Es].
        destruct (shared_slot g c.[i <- m] n j' Hc' Hga Hj) as [_ ->]; [by rewrite Hframe by lia|].
        rewrite <- E, Es, Hg, decide_False by (lia || congruence). done.
      * rewrite search_range_None in Ej. exfalso. enough (shared c g = None) by congruence.
        apply (shared_None g c n Hc Hga). intros j Hj. specialize (Ej j Hj).
        by destruct (Z.eqb_spec (cm_frame c.[j]) g).
    + apply (shared_None g c.[i <- m] n Hc' Hga). intros j Hj. rewrite Hframe by lia.
      by apply (shared_None g c n Hc Hga).
Qed.

(** A new entry behind the others. *)
Lemma compact_append c n m :
  compact c n → n < PAGING_COW_META_CAP → cm_in_use m = true → is_u32 (cm_refs m) →
  frame_addr (cm_frame m) → (∀ j, 0 ≤ j < n → cm_frame c.[j] ≠ cm_frame m) →
  compact c.[n <- m] (n + 1) ∧
  ∀ g, frame_addr g → shared c.[n <- m] g =
    if decide (g = cm_frame m) then Some (cm_refs m, cm_owned m) else shared c g.
Proof.
  intros Hc Hlt Hu Hr Hfa Hnew. pose proof Hc as [Hl Hn Hus Hrs Hfr Hinj].
  assert (Hg : ∀ j, 0 ≤ j → c.[n <- m].[j] = if decide (n = j) then m else c.[j]).
  { intros j Hj. apply aget_aset; lia. }
  assert (Hc' : compact c.[n <- m] (n + 1)).
  { split; [by rewrite alen_aset|lia| | | |].
    - intros j Hj. rewrite Hg by lia. case_decide; [done|apply Hus; lia].
    - intros j Hj. rewrite Hg by lia. case_decide; [done|apply Hrs; lia].
    - intros j Hj. rewrite Hg, decide_False by lia. apply Hfr. lia.
    - intros j k Hj Hk. rewrite !Hg by lia. repeat case_decide; subst; try done.
      + intros E. by destruct (Hnew k ltac:(lia)).
      + intros E. by destruct (Hnew j ltac:(lia)).
      + apply Hinj; lia. }
  split; [done|]. intros g Hga. destruct (decide (g = cm_frame m)) as [->|Hne].
  - destruct (shared_slot (cm_frame m) c.[n <- m] (n + 1) n Hc' Hga) as [_ ->]; [lia|by rewrite Hg, decide_True by lia|].
    by rewrite Hg, decide_True by lia.
  - destruct (search_range 0 n (λ j, if cm_frame c.[j] =? g then Some j else None)) as [j|] eqn:Ej.
    + apply search_range_Some in Ej as (j' & Hj & Hfj & _).
      destruct (Z.eqb_spec (cm_frame c.[j']) g) as [Ef|]; [|done].
      destruct (shared_slot g c n j' Hc Hga Hj Ef) as [_ ->].
      destruct (shared_slot g c.[n <- m] (n + 1) j' Hc' Hga) as [_ ->]; [lia|by rewrite Hg, decide_False by lia|].
      by rewrite Hg, decide_False by lia.
    + rewrite search_range_None in Ej. assert (Ho : ∀ j, 0 ≤ j < n → cm_frame c.[j] ≠ g).
      { intros j Hj. specialize (Ej j Hj). by destruct (Z.eqb_spec (cm_frame c.[j]) g). }
      rewrite (proj2 (shared_None g c n Hc Hga) Ho). apply (shared_None g _ _ Hc' Hga).
      intros j Hj. rewrite Hg by lia. case_decide; [congruence|apply Ho; lia].
Qed.

(** The table [c'] is [c] with the entry of [f] set. *)
Definition cow_updated (c c' : list cow_meta) (f refs : Z) (owned : bool) : Prop :=
  (∃ n, compact c' n) ∧
  ∀ g, frame_addr g → shared c' g = if decide (g = f) then Some (refs, owned) else shared c g.

Lemma set_refs_cases c n f refs owned :
  compact c n → frame_addr f → is_u32 refs →
  match paging_cow_set_refs f refs owned c with
  | (Ok _, c') => cow_updated c c' f refs owned
  | (Err e, c') => e = KERR_NOMEM ∧ c' = c ∧ n = PAGING_COW_META_CAP ∧ shared c f = None
  end.
Proof.
  intros Hc Hf Hr. unfold paging_cow_set_refs. pose proof (find_slot_cases f c n Hc Hf) as H.
  destruct (paging_cow_find_slot f c) as [i|i|].
  - destruct H as [Hi Hfi]. set (m := CowMeta _ _ _ _).
    destruct (compact_update c n i m Hc Hi) as [Hc' Hs]; [by apply (cp_used c n Hc)|done|done|].
    split; [by exists n|]. intros g Hg. rewrite Hs by done. simpl. by rewrite Hfi.
  - destruct H as (-> & Hlt & Hne).
    destruct (compact_append c n (CowMeta f refs true owned) Hc Hlt) as [Hc' Hs]; [done..|].
    split; [by exists (n + 1)|done].
  - destruct H as [-> Hne]. split_and!; try done. by apply (shared_None f c _ Hc Hf).
Qed.

Lemma shared_found c n f i :
  compact c n → frame_addr f → paging_cow_find_slot f c = Found i →
  0 ≤ i < n ∧ cm_frame c.[i] = f ∧ shared c f = Some (cm_refs c.[i], cm_owned c.[i]).
Proof.
  intros Hc Hf E. pose proof (find_slot_cases f c n Hc Hf) as H. rewrite E in H. destruct H as [Hi Hfi].
  split_and!; try done; try lia. by apply (shared_slot f c n i).
Qed.

Lemma inc_ref_cases c n f :
  compact c n → frame_addr f →
  match paging_cow_inc_ref f c with
  | (Ok _, c') => ∃ refs owned, shared c f = Some (refs, owned) ∧ cow_updated c c' f (add32 refs 1) owned
  | (Err _, c') => c' = c ∧ shared c f = None
  end.
Proof.
  intros Hc Hf. unfold paging_cow_inc_ref. destruct (paging_cow_find_slot f c) as [i|i|] eqn:E.
  - destruct (shared_found c n f i Hc Hf E) as (Hi & Hfi & Hs). set (m := CowMeta _ _ _ _).
    destruct (compact_update c n i m Hc Hi) as [Hc' Hs']; [by apply (cp_used c n Hc)|apply u32_range|done|].
    eexists _, _. split; [exact Hs|]. split; [by exists n|]. intros g Hg. rewrite Hs' by done. simpl. by rewrite Hfi.
  - split; [done|]. unfold shared, paging_cow_get. by rewrite E.
  - split; [done|]. unfold shared, paging_cow_get. by rewrite E.
Qed.

Lemma dec_ref_cases c n f :
  compact c n → frame_addr f →
  match paging_cow_dec_ref f c with
  | (Ok (r, owned), c') => ∃ refs, shared c f = Some (refs, owned) ∧ r = Z.max 0 (refs - 1) ∧
      (refs ≠ 1 → cow_updated c c' f r owned)
  | (Err _, c') => c' = c ∧ shared c f = None
  end.
Proof.
  intros Hc Hf. unfold paging_cow_dec_ref. destruct (paging_cow_find_slot f c) as [i|i|] eqn:E.
  - destruct (shared_found c n f i Hc Hf E) as (Hi & Hfi & Hs).
    pose proof (cp_refs c n Hc i Hi) as Hr. destruct (Z.eqb_spec (cm_refs c.[i]) 0) as [H0|H0].
    + eexists. split; [exact Hs|]. rewrite H0. split; [done|]. intros _. split; [by exists n|].
      intros g Hg. case_decide; [subst g; by rewrite Hs, H0|done].
    + rewrite sub32_small by lia. cbv zeta. eexists. split; [exact Hs|]. split; [lia|]. intros H1.
      rewrite (proj2 (Z.eqb_neq _ _)) by lia. set (m := CowMeta _ _ _ _).
      destruct (compact_update c n i m Hc Hi) as [Hc' Hs']; [by apply (cp_used c n Hc)|simpl; lia|done|].
      split; [by exists n|]. intros g Hg. rewrite Hs' by done. simpl. by rewrite Hfi.
  - split; [done|]. unfold shared, paging_cow_get. by rewrite E.
  - split; [done|]. unfold shared, paging_cow_get. by rewrite E.
Qed.

(** The table as it always is: of its length, with 32-bit counts. *)
Record cow_table (c : list cow_meta) : Prop := CowTable {
  ct_len : alen c = PAGING_COW_META_CAP;
  ct_refs : Forall (λ m, is_u32 (cm_refs m)) c
}.

(** The entry of [f] that the search finds has its count lowered by one, and no
    other entry has changed; while the entries are contiguous that is the count of [f]. *)
Definition count_dropped (c c' : list cow_meta) (f refs : Z) (owned : bool) : Prop :=
  (∃ i, 0 ≤ i < PAGING_COW_META_CAP ∧ c.[i] = CowMeta f refs true owned ∧ c' = c.[i <- CowMeta f (refs - 1) true owned]) ∧
  ∀ n, compact c n → cow_updated c c' f (refs - 1) owned.

Definition dropped_table (f : Z) (c : list cow_meta) : list cow_meta := snd (paging_cow_dec_ref f c).

Lemma find_slot_found f c i :
  paging_cow_find_slot f c = Found i → 0 ≤ i < PAGING_COW_META_CAP ∧ cm_in_use c.[i] = true ∧ cm_frame c.[i] = f.
Proof.
  unfold paging_cow_find_slot. cbv zeta. destruct (search_range _ _ _) as [r|] eqn:E; [|done]. cbn. intros ->.
  apply search_range_Some in E as (j & Hj & Hf & _). cbv beta zeta in Hf.
  set (k := add32 (paging_cow_hash f) j mod PAGING_COW_META_CAP) in *.
  destruct (cm_in_use c.[k]) eqn:Eu; [|done]. destruct (Z.eqb_spec (cm_frame c.[k]) f) as [Ef|]; [|done]. injection Hf as <-.
  split; [by apply Z.mod_pos_bound|done].
Qed.

Lemma dec_ref_drops c f refs owned :
  cow_table c → frame_addr f → shared c f = Some (refs, owned) → 1 < refs →
  paging_cow_dec_ref f c = (Ok (refs - 1, owned), dropped_table f c) ∧ count_dropped c (dropped_table f c) f refs owned.
Proof.
  intros [Hl Hr] Hf Hs H1. unfold shared, paging_cow_get in Hs.
  assert (Hcp : ∀ n, compact c n → cow_updated c (dropped_table f c) f (refs - 1) owned).
  { intros n Hc. pose proof (dec_ref_cases c n f Hc Hf) as Hd. unfold dropped_table.
    destruct (paging_cow_dec_ref f c) as [[[r o]|e] c']; [|destruct Hd as [_ Hd]; unfold shared, paging_cow_get in Hd; by rewrite Hs in Hd].
    destruct Hd as (refs' & Hs' & -> & Hu). unfold shared, paging_cow_get in Hs'. rewrite Hs in Hs'. injection Hs' as <- <-.
    rewrite Z.max_r in Hu by lia. apply Hu. lia. }
  unfold count_dropped. revert Hcp. unfold dropped_table, paging_cow_dec_ref.
  destruct (paging_cow_find_slot f c) as [i|i|] eqn:E; [|done..]. injection Hs as <- <-.
  apply find_slot_found in E as (Hi & Hu & Hfr). rewrite (proj2 (Z.eqb_neq _ _)) by lia.
  pose proof (Forall_aget _ _ i Hr ltac:(lia)) as Hri. cbv beta in Hri. rewrite sub32_small by lia.
  cbv zeta. rewrite (proj2 (Z.eqb_neq _ _)) by lia. rewrite Hu, Hfr. cbn [snd].
  intros Hcp. split; [done|]. split; [|done]. exists i. split_and!; [lia|lia| |done]. destruct (c.[i]); cbn in *; by subst.
Qed.

(** The probing hash table refines a map from frames to counts, while its
    entries are contiguous.  Setting, incrementing and decrementing (not to
    zero) change the entry of exactly the given frame and keep the entries
    contiguous; they fail exactly when the frame is missing, setting when there
    is no room for it either, and then change nothing. *)
Theorem cow_table_refines c n f refs owned :
  compact c n → frame_addr f → is_u32 refs →
  match paging_cow_set_refs f refs owned c with
  | (Ok _, c') => cow_updated c c' f refs owned
  | (Err e, c') => e = KERR_NOMEM ∧ c' = c ∧ n = PAGING_COW_META_CAP ∧ shared c f = None
  end ∧
  match paging_cow_inc_ref f c with
  | (Ok _, c') => ∃ refs owned, shared c f = Some (refs, owned) ∧ cow_updated c c' f (add32 refs 1) owned
  | (Err _, c') => c' = c ∧ shared c f = None
  end ∧
  match paging_cow_dec_ref f c with
  | (Ok (r, owned), c') => ∃ refs, shared c f = Some (refs, owned) ∧ r = Z.max 0 (refs - 1) ∧
      (refs ≠ 1 → cow_updated c c' f r owned)
  | (Err _, c') => c' = c ∧ shared c f = None
  end.
Proof.
  intros Hc Hf Hr. split_and!.
  - by apply (set_refs_cases c n).
  - by apply (inc_ref_cases c n).
  - by apply (dec_ref_cases c n).
Qed.

(** Removing the entry of a frame makes every frame behind it
    unfindable, although its entry and its count are still in the table: the
    search starts at slot 0 for every page and stops at the first free slot. *)
Theorem cow_remove_hides c n i j :
  compact c n → 0 ≤ i < j → j < n → frame_addr (cm_frame c.[i]) → frame_addr (cm_frame c.[j]) →
  let c' := paging_cow_remove (cm_frame c.[i]) c in
  shared c (cm_frame c.[j]) = Some (cm_refs c.[j], cm_owned c.[j]) ∧
  c'.[j] = c.[j] ∧ paging_cow_get (cm_frame c.[j]) c' = Err KERR_NOENT.
Proof.
  intros Hc Hij Hj Hfi Hfj c'. pose proof (cp_len c n Hc) as Hl. pose proof (cp_n c n Hc) as Hn.
  destruct (shared_slot _ c n i Hc Hfi ltac:(lia) eq_refl) as [Hi _].
  destruct (shared_slot _ c n j Hc Hfj ltac:(lia) eq_refl) as [_ Hs].
  assert (Hc' : c' = c.[i <- cow_empty]) by (unfold c', paging_cow_remove; by rewrite Hi).
  split; [done|]. rewrite Hc', aget_aset_ne by lia. split; [done|].
  unfold paging_cow_get. rewrite (find_slot_at _ _ i Hfj ltac:(lia)).
  - by rewrite aget_aset_eq by lia.
  - intros k Hk. rewrite aget_aset_ne by lia. split; [apply (cp_used c n Hc); lia|].
    intros E. pose proof (cp_inj c n Hc k j ltac:(lia) ltac:(lia) E). lia.
Qed.

(** * Write faults *)

(** A page no later [kmalloc] returns: outside the heap or in a live block. *)
Definition held_page (h : kheap) (v : Z) : Prop :=
  v + 4096 ≤ heap_base h ∨ heap_end h ≤ v ∨ ∃ n, 4096 ≤ n ∧ live h v n.

Lemma fresh_not_held h p v :
  heap_base h ≤ p → p + 4096 ≤ heap_end h → (∀ q n, live h q n → 4096 ≤ n → q ≠ p) →
  held_page h v → v ≠ p.
Proof. intros Hlo Hhi Hf [?|[?|(n & Hn & Hl)]]; [lia|lia|]. by apply (Hf v n). Qed.

(** The entry [pte] of the page of [addr] is a shared one, and the tables it is
    reached through are in memory of their own. *)
Record cow_page (s : paging) (as_ addr pde pte : Z) : Prop := {
  cw_as : as_ ≠ 0;
  cw_addr : is_u32 addr;
  cw_mem : mem_wf (phys s);
  cw_heap : heap_in_window (heap s);
  cw_pd : page_addr (pd_phys (aspace s as_)) ∧
          pd_virt (aspace s as_) = KERNEL_VIRTUAL_BASE + pd_phys (aspace s as_) ∧
          held_page (heap s) (pd_virt (aspace s as_));
  cw_pde : (page (phys s) (pd_phys (aspace s as_))).[pd_index addr] = pde ∧
           flag pde PAGING_PAGE_FLAG_PRESENT = true;
  cw_pt : page_addr (Z.land pde PAGE_MASK);
  cw_pte : (page (phys s) (Z.land pde PAGE_MASK)).[pt_index addr] = pte ∧
           flag pte PAGING_PAGE_FLAG_PRESENT = true ∧ flag pte PAGING_PAGE_FLAG_COW = true;
  cw_frame : page_addr (Z.land pte PAGE_MASK) ∧
             held_page (heap s) (KERNEL_VIRTUAL_BASE + Z.land pte PAGE_MASK);
  cw_distinct : NoDup [pd_phys (aspace s as_); Z.land pde PAGE_MASK; Z.land pte PAGE_MASK];
  cw_tables : ∀ j, 0 ≤ j < 1024 →
    let e := (page (phys s) (pd_phys (aspace s as_))).[j] in
    flag e PAGING_PAGE_FLAG_PRESENT = true →
    held_page (heap s) (KERNEL_VIRTUAL_BASE + Z.land e PAGE_MASK) ∧
    (Z.land e PAGE_MASK = Z.land pde PAGE_MASK → j = pd_index addr)
}.

(** No other holder of the frame is on record. *)
Definition sole_holder (c : list cow_meta) (f : Z) : bool :=
  match shared c f with Some (refs, _) => refs <=? 1 | None => true end.

Lemma land_page_index addr :
  is_u32 addr → pd_index (Z.land addr PAGE_MASK) = pd_index addr ∧ pt_index (Z.land addr PAGE_MASK) = pt_index addr.
Proof. intros Ha. apply page_index. rewrite round_down by done. by rewrite Z.div_mul by lia. Qed.

Section fault.
Context (s : paging) (as_ addr pde pte : Z) (Hc : cow_page s as_ addr pde pte).

Let pd := pd_phys (aspace s as_).
Let pt := Z.land pde PAGE_MASK.
Let f := Z.land pte PAGE_MASK.

Lemma cow_pte_u32 : is_u32 pte.
Proof. destruct (cw_pte _ _ _ _ _ Hc) as [<- _]. apply mem_word; [apply Hc|apply pt_index_bound]. Qed.

Lemma fault_lookup :
  paging_aspace_lookup_pte as_ (Z.land addr PAGE_MASK) s = Ok (KERNEL_VIRTUAL_BASE + pt, pt_index addr) ∧
  vread (KERNEL_VIRTUAL_BASE + pt) (pt_index addr) s = pte.
Proof.
  destruct (land_page_index addr (cw_addr _ _ _ _ _ Hc)) as [Hi Hk].
  destruct (cw_pd _ _ _ _ _ Hc) as (_ & Hpv & _). destruct (cw_pde _ _ _ _ _ Hc) as [Hpde Hpr].
  unfold paging_aspace_lookup_pte. rewrite (proj2 (Z.eqb_neq _ _) (cw_as _ _ _ _ _ Hc)), Hpv, Hi, Hk.
  unfold vread. rewrite !Z.add_simpl_l, Hpde, Hpr. cbn [negb]. cbv zeta.
  rewrite phys_to_virt_ok by apply Hc. split; [done|]. apply (cw_pte _ _ _ _ _ Hc).
Qed.

(** The memory after the entry has been replaced, [m] being the memory before,
    in which only pages that nobody held may differ. *)
Section replaced.
Context (m : gmap Z (list Z)) (f' fl : Z).
Context (Hm : ∀ p, held_page (heap s) (KERNEL_VIRTUAL_BASE + p) → page m p = page (phys s) p).
Context (Hf' : page_addr f') (Hne : f' ≠ pt) (Hfl : 0 ≤ fl < 4096).
Context (Hpr : flag fl PAGING_PAGE_FLAG_PRESENT = true) (Hmpt : alen (page m pt) = 1024).

Let ph' := write_word pt (pt_index addr) (Z.lor f' fl) m.

Lemma held_pt : held_page (heap s) (KERNEL_VIRTUAL_BASE + pt).
Proof.
  destruct (cw_pde _ _ _ _ _ Hc) as [Hpde Hpp]. destruct (cw_tables _ _ _ _ _ Hc (pd_index addr)) as [Hh _].
  - apply pd_index_bound, Hc.
  - by rewrite Hpde.
  - by rewrite Hpde in Hh.
Qed.

Lemma pd_ne_pt : pd ≠ pt.
Proof. pose proof (cw_distinct _ _ _ _ _ Hc) as Hd. apply NoDup_cons in Hd as [Hd _]. set_solver. Qed.

Lemma replaced_pd : page ph' pd = page (phys s) pd.
Proof.
  unfold ph'. rewrite page_write, decide_False by (intros E; by apply pd_ne_pt).
  apply Hm. destruct (cw_pd _ _ _ _ _ Hc) as (_ & Hv & Hh). unfold pd. by rewrite <- Hv.
Qed.

Lemma replaced_here :
  translate ph' pd addr =
  Some (f' + addr mod 4096, flag pde PAGING_PAGE_FLAG_USER && flag fl PAGING_PAGE_FLAG_USER,
        flag pde PAGING_PAGE_FLAG_WRITABLE && flag fl PAGING_PAGE_FLAG_WRITABLE).
Proof.
  destruct (cw_pde _ _ _ _ _ Hc) as [Hpde Hpp]. pose proof (page_addr_u32 f' Hf') as Hu. destruct Hf' as [_ Ha].
  assert (He : (page ph' pt).[pt_index addr] = Z.lor f' fl).
  { unfold ph'. rewrite page_write, decide_True, aget_aset_eq by (rewrite ?Hmpt; done || apply pt_index_bound). done. }
  assert (Hd : (page ph' pd).[pd_index addr] = pde) by (by rewrite replaced_pd).
  rewrite (translate_entries ph' pd addr pde (Z.lor f' fl) Hd Hpp He);
    change PAGING_PAGE_FLAG_PRESENT with (2 ^ 0) in *; change PAGING_PAGE_FLAG_USER with (2 ^ 2);
    change PAGING_PAGE_FLAG_WRITABLE with (2 ^ 1); rewrite !(entry_flag f' fl Ha) by lia; [|done].
  rewrite entry_frame, low_bits, lor_frame by (done || by apply Z.mod_pos_bound). done.
Qed.

Lemma replaced_elsewhere x :
  is_u32 x → x / 4096 ≠ addr / 4096 → translate ph' pd x = translate (phys s) pd x.
Proof.
  intros Hx Hxa. pose proof (pd_index_bound x Hx) as Hb.
  destruct (flag (page (phys s) pd).[pd_index x] PAGING_PAGE_FLAG_PRESENT) eqn:E.
  - destruct (cw_tables _ _ _ _ _ Hc (pd_index x) Hb E) as [Hh Hinj]. fold pd pt in Hh, Hinj.
    apply translate_ext; [by rewrite replaced_pd|]. cbv zeta. unfold ph'. rewrite page_write.
    destruct (decide (pt = Z.land (page (phys s) pd).[pd_index x] PAGE_MASK)) as [Ept|Ept].
    + rewrite aget_aset_ne; [|apply pt_index_bound..|].
      * rewrite <- Ept. by rewrite Hm by apply held_pt.
      * intros Ek. apply Hxa. apply index_page_inj; [by apply Hinj|done].
    + by rewrite Hm.
  - rewrite !translate_no_pde; [done|done|by rewrite replaced_pd].
Qed.

End replaced.
End fault.

Lemma land_low x y : 0 ≤ x < 4096 → 0 ≤ Z.land x y < 4096.
Proof.
  intros Hx. assert (E : Z.land x y = Z.land (Z.land x y) (Z.ones 12)).
  { apply Z.bits_inj'. intros n Hn. rewrite !Z.land_spec.
    destruct (Z.lt_ge_cases n 12); [by rewrite Z.ones_spec_low, andb_true_r by lia|].
    by rewrite low_testbit by lia. }
  rewrite E, Z.land_ones by lia. apply Z.mod_pos_bound. lia.
Qed.

(** The flags of the new entry, with and without the owned flag. *)
Definition fault_flags (pte : Z) (owned : bool) : Z :=
  let fl := Z.land (Z.lor (Z.land pte 4095) PAGING_PAGE_FLAG_WRITABLE) (not32 PAGING_PAGE_FLAG_COW) in
  if owned then Z.lor fl PAGING_PAGE_FLAG_OWNED else Z.land fl (not32 PAGING_PAGE_FLAG_OWNED).

Lemma fault_flags_spec pte owned :
  is_u32 pte →
  0 ≤ fault_flags pte owned < 4096 ∧
  flag (fault_flags pte owned) PAGING_PAGE_FLAG_PRESENT = flag pte PAGING_PAGE_FLAG_PRESENT ∧
  flag (fault_flags pte owned) PAGING_PAGE_FLAG_USER = flag pte PAGING_PAGE_FLAG_USER ∧
  flag (fault_flags pte owned) PAGING_PAGE_FLAG_WRITABLE = true ∧
  flag (fault_flags pte owned) PAGING_PAGE_FLAG_COW = false ∧
  flag (fault_flags pte owned) PAGING_PAGE_FLAG_OWNED = owned.
Proof.
  intros Hu. pose proof (Z.mod_pos_bound pte 4096 ltac:(lia)) as Hm. rewrite <- low_bits in Hm.
  change PAGING_PAGE_FLAG_PRESENT with (2 ^ 0); change PAGING_PAGE_FLAG_USER with (2 ^ 2);
    change PAGING_PAGE_FLAG_WRITABLE with (2 ^ 1); change PAGING_PAGE_FLAG_COW with (2 ^ 9);
    change PAGING_PAGE_FLAG_OWNED with (2 ^ 10).
  unfold fault_flags. change PAGING_PAGE_FLAG_OWNED with (2 ^ 10); change PAGING_PAGE_FLAG_COW with (2 ^ 9);
    change PAGING_PAGE_FLAG_WRITABLE with (2 ^ 1). cbv zeta.
  split.
  - destruct owned; [apply lor_low|apply land_low]; try (apply land_low); try (apply lor_low); try done; lia.
  - destruct owned; split_and!; repeat first [rewrite flag_land by lia|rewrite flag_lor by lia].
    all: repeat match goal with |- context [flag ?a ?b] => first [change (flag a b) with true | change (flag a b) with false] end.
    all: rewrite ?andb_true_r, ?orb_true_r, ?orb_false_r, ?andb_false_r; done.
Qed.

Lemma copy_flags pte :
  Z.land (Z.lor (Z.lor (Z.land pte 4095) PAGING_PAGE_FLAG_WRITABLE) PAGING_PAGE_FLAG_OWNED)
         (not32 PAGING_PAGE_FLAG_COW) = fault_flags pte true.
Proof. unfold fault_flags. rewrite Z.land_lor_distr_l. done. Qed.

(** What the handler does to the memory of an address space whose entry is
    replaced by one for the frame [f']. *)
Definition fault_resolved (s s' : paging) (as_ addr pde pte f' : Z) : Prop :=
  let pd := pd_phys (aspace s as_) in
  translate (phys s') pd addr =
    Some (f' + addr mod 4096, flag pde PAGING_PAGE_FLAG_USER && flag pte PAGING_PAGE_FLAG_USER,
          flag pde PAGING_PAGE_FLAG_WRITABLE) ∧
  page (phys s') f' = page (phys s) (Z.land pte PAGE_MASK) ∧
  (∀ x, is_u32 x → x / 4096 ≠ addr / 4096 → translate (phys s') pd x = translate (phys s) pd x) ∧
  (∀ p, held_page (heap s) (KERNEL_VIRTUAL_BASE + p) → p ≠ Z.land pde PAGE_MASK →
     page (phys s') p = page (phys s) p) ∧
  aspaces s' = aspaces s.

Section resolve.
Context (s : paging) (as_ addr pde pte : Z) (Hc : cow_page s as_ addr pde pte).

Let pt := Z.land pde PAGE_MASK.
Let f := Z.land pte PAGE_MASK.

Lemma resolve_entry s' f' owned m :
  (∀ p, held_page (heap s) (KERNEL_VIRTUAL_BASE + p) → page m p = page (phys s) p) →
  page_addr f' → f' ≠ pt → page m f' = page (phys s) f → alen (page m pt) = 1024 →
  phys s' = write_word pt (pt_index addr) (Z.lor f' (fault_flags pte owned)) m → aspaces s' = aspaces s →
  fault_resolved s s' as_ addr pde pte f'.
Proof.
  intros Hm Hf' Hne Hpage Hlen Hph Has. pose proof (cow_pte_u32 s as_ addr pde pte Hc) as Hu.
  destruct (fault_flags_spec pte owned Hu) as (Hfl & Hp & Hus & Hw & _).
  destruct (cw_pte _ _ _ _ _ Hc) as (_ & Hpp & _). rewrite Hpp in Hp.
  unfold fault_resolved. rewrite Hph. split_and!.
  - rewrite (replaced_here s as_ addr pde pte Hc m) by done. by rewrite Hw, Hus, andb_true_r.
  - by rewrite page_write, decide_False by done.
  - intros x Hx Hxa. by apply (replaced_elsewhere s as_ addr pde pte Hc m).
  - intros p Hh Hpne. rewrite page_write, decide_False by (intros E; by apply Hpne). by apply Hm.
  - done.
Qed.

Lemma frame_ne_pt : f ≠ pt.
Proof.
  pose proof (cw_distinct _ _ _ _ _ Hc) as Hd. apply NoDup_cons in Hd as [_ Hd].
  apply NoDup_cons in Hd as [Hd _]. unfold f, pt. set_solver.
Qed.

Lemma vwrite_pt k w s0 :
  phys (vwrite (KERNEL_VIRTUAL_BASE + pt) k w s0) = write_word pt k w (phys s0).
Proof. unfold vwrite. cbn [set_phys phys]. by rewrite Z.add_simpl_l. Qed.

Lemma reclaim_spec_cow owned :
  let s' := cow_reclaim (KERNEL_VIRTUAL_BASE + pt) (pt_index addr) pte owned s in
  fault_resolved s s' as_ addr pde pte f ∧ heap s' = heap s ∧
  g_cow_meta s' = paging_cow_remove f (g_cow_meta s).
Proof.
  split; [|done]. apply (resolve_entry _ f owned (phys s)); try done.
  - apply (cw_frame _ _ _ _ _ Hc).
  - apply frame_ne_pt.
  - apply (cw_mem _ _ _ _ _ Hc).
  - unfold cow_reclaim. rewrite vwrite_pt. done.
Qed.

Lemma copy_spec_cow refs owned :
  cow_table (g_cow_meta s) → shared (g_cow_meta s) f = Some (refs, owned) → 1 < refs →
  match cow_copy (KERNEL_VIRTUAL_BASE + pt) (pt_index addr) pte s with
  | (Err e, s') => e = KERR_NOMEM ∧ s' = s
  | (Ok _, s') => ∃ f', fault_resolved s s' as_ addr pde pte f' ∧
      ¬ held_page (heap s) (KERNEL_VIRTUAL_BASE + f') ∧
      count_dropped (g_cow_meta s) (g_cow_meta s') f refs owned
  end.
Proof.
  intros Hcp Hs Hr. unfold cow_copy. fold f. pose proof (cw_frame _ _ _ _ _ Hc) as [Hfa Hfh]. fold f in Hfa, Hfh.
  pose proof (kmalloc_page_cases s (cw_heap _ _ _ _ _ Hc)) as Hk. destruct (kmalloc_page s) as [v s1].
  destruct Hk as [[-> ->]|(Hs1 & Hnz & Hva & _ & _ & _ & Hlo & Hhi & Hfr & _)]; [by rewrite Z.eqb_refl|].
  rewrite (proj2 (Z.eqb_neq v 0)), virt_to_phys_ok, phys_to_virt_ok by done.
  assert (Hcow : g_cow_meta s1 = g_cow_meta s) by (rewrite Hs1; reflexivity).
  assert (Hph1 : phys s1 = phys s) by (rewrite Hs1; reflexivity).
  assert (Has1 : aspaces s1 = aspaces s) by (rewrite Hs1; reflexivity).
  cbn [vfill set_phys g_cow_meta]. rewrite Hcow.
  assert (Hfa2 : frame_addr f) by (split; [by apply page_addr_u32|apply Hfa]).
  destruct (dec_ref_drops _ f refs owned Hcp Hfa2 Hs Hr) as [-> Hdrop].
  rewrite (proj2 (Z.eqb_neq (refs - 1) 0)) by lia. cbn [andb].
  rewrite copy_flags. exists (v - KERNEL_VIRTUAL_BASE).
  assert (Hnh : ∀ p, held_page (heap s) (KERNEL_VIRTUAL_BASE + p) → p ≠ v - KERNEL_VIRTUAL_BASE).
  { intros p Hh E. apply (fresh_not_held (heap s) v (KERNEL_VIRTUAL_BASE + p)); try done. lia. }
  split_and!.
  - apply (resolve_entry _ _ true (<[v - KERNEL_VIRTUAL_BASE := page (phys s) f]> (phys s))).
    + intros p Hh. rewrite page_insert, decide_False; [done|]. intros E. by apply (Hnh p Hh).
    + done.
    + intros E. by apply (Hnh pt (held_pt s as_ addr pde pte Hc)).
    + by rewrite page_insert, decide_True.
    + rewrite page_insert, decide_False; [apply (cw_mem _ _ _ _ _ Hc)|].
      intros E. by apply (Hnh pt (held_pt s as_ addr pde pte Hc)).
    + rewrite vwrite_pt. unfold vpage. cbn [set_cow phys vfill set_phys]. by rewrite Z.add_simpl_l, Hph1.
    + done.
  - intros Hh. by apply (Hnh (v - KERNEL_VIRTUAL_BASE)).
  - exact Hdrop.
Qed.
End resolve.


(** * Two processes *)

(** A process with two pages of its own forks: parent, child and the state. *)
Definition demo_base : Z := 21037056.
Definition demo_ranges : list user_range := [UserRange demo_base 8192].

Definition demo_fork : res (Z * Z * paging) :=
  let '(_, s) := paging_mark_user_region demo_base 8192 boot in
  match paging_create_user_address_space demo_ranges s with
  | (Err e, _) => Err e
  | (Ok parent, s) =>
      let '(_, s) := paging_activate_address_space parent s in
      match paging_clone_address_space_cow parent demo_ranges s with
      | (Err e, _) => Err e
      | (Ok child, s) => Ok (parent, child, s)
      end
  end.

(** Write faults, by address space and address. *)
Definition faults (l : list (Z * Z)) (s : paging) : paging :=
  foldl (λ s '(as_, va), snd (paging_handle_cow_fault as_ va 7 s)) s l.

Definition view (s : paging) (as_ va : Z) : option (Z * bool * bool) :=
  translate (phys s) (pd_phys (aspace s as_)) va.

(** Two processes end up writing to the same memory.  After a fork both
    pages are shared read-only with count 2.  Child and parent write to the
    first page, which the parent gets back; that hides the entry of the second
    page, so that the next write to it, by the child, makes it writable in
    place, and so does the parent's: both have the same frame, writable. *)
Theorem cow_isolation_lost :
  match demo_fork with
  | Err _ => False
  | Ok (parent, child, s) =>
      parent ≠ child ∧
      view s parent (demo_base + 4096) = Some (demo_base + 4096, true, false) ∧
      view s child (demo_base + 4096) = Some (demo_base + 4096, true, false) ∧
      shared (g_cow_meta s) (demo_base + 4096) = Some (2, false) ∧
      let s' := faults [(child, demo_base); (parent, demo_base);
                        (child, demo_base + 4096); (parent, demo_base + 4096)] s in
      view s' parent (demo_base + 4096) = Some (demo_base + 4096, true, true) ∧
      view s' child (demo_base + 4096) = Some (demo_base + 4096, true, true)
  end.
Proof. vm_compute. split_and!; congruence. Qed.

(** A fork that fails frees memory of the process that called it.  The
    child's tables are copies of the caller's, and destroying them after the
    failure frees the frames of the pages the caller owns: the caller still has
    its page writable, and the next page allocated in the kernel is its frame. *)
Theorem clone_failure_frees_pages :
  match demo_fork with
  | Err _ => False
  | Ok (parent, child, s) =>
      let s1 := faults [(child, demo_base); (parent, demo_base)] s in
      let '(r, s') := paging_clone_address_space_cow child demo_ranges s1 in
      let frame := 12562432 in
      r = Err KERR_FAULT ∧
      view s1 child demo_base = Some (frame, true, true) ∧
      view s' child demo_base = Some (frame, true, true) ∧
      fst (kmalloc_page s1) ≠ KERNEL_VIRTUAL_BASE + frame ∧
      fst (kmalloc_page s') = KERNEL_VIRTUAL_BASE + frame
  end.
Proof. vm_compute. split_and!; congruence. Qed.

(** * Concrete instances *)

(** One address space with a shared page at 0x1401000, count 2. *)
Definition cow_demo_table : list cow_meta := (replicate 2048 cow_empty).[0 <- CowMeta 12288 2 true false].[1 <- CowMeta 16384 2 true false].

Definition cow_demo : paging :=
  set_cow cow_demo_table
    (set_aspace 5000 (AddressSpace (KERNEL_VIRTUAL_BASE + 4096) 4096 (replicate 24 0) false)
       (paging_zero (<[4096 := zero_page.[5 <- 8192 + 7]]> (<[8192 := zero_page.[1 <- 12288 + 517]]> ∅))
                    boot_heap)).

Lemma cow_demo_slot i : 2 ≤ i < 2048 → cow_demo_table.[i] = cow_empty.
Proof. intros Hi. unfold cow_demo_table. rewrite !aget_aset_ne by lia. apply (aget_replicate 2048). lia. Qed.

Lemma cow_demo_counts : cow_table cow_demo_table.
Proof.
  assert (Hz : Forall (λ m, is_u32 (cm_refs m)) (replicate 2048 cow_empty)) by (apply Forall_replicate; by vm_compute).
  split; [reflexivity|]. unfold cow_demo_table. by repeat apply Forall_aset.
Qed.

Lemma cow_demo_compact : compact cow_demo_table 2.
Proof.
  assert (H01 : ∀ i, 0 ≤ i < 2 → i = 0 ∨ i = 1) by lia.
  split; unfold PAGING_COW_META_CAP.
  - reflexivity.
  - lia.
  - intros i Hi. by destruct (H01 i Hi) as [->| ->].
  - intros i Hi. destruct (H01 i Hi) as [->| ->]; vm_compute; split; congruence.
  - intros i Hi. by rewrite cow_demo_slot.
  - intros i j Hi Hj. destruct (H01 i Hi) as [->| ->]; destruct (H01 j Hj) as [->| ->]; done.
Qed.

Lemma cow_demo_held v : v + 4096 ≤ KERNEL_VIRTUAL_BASE + 8388608 → held_page boot_heap v.
Proof. left. assert (heap_base boot_heap = KERNEL_VIRTUAL_BASE + 8388608) as -> by (by vm_compute). done. Qed.

Lemma zero_page_update i w : is_u32 w → alen zero_page.[i <- w] = 1024 ∧ Forall (λ w, is_u32 w) zero_page.[i <- w].
Proof. intros Hw. destruct zero_page_u32. split; [by rewrite alen_aset|by apply Forall_aset]. Qed.

Lemma cow_demo_page : cow_page cow_demo 5000 20975616 8199 12805.
Proof.
  assert (Hpd : ∀ j, 0 ≤ j < 1024 → (page (phys cow_demo) 4096).[j] = if decide (5 = j) then 8199 else 0).
  { intros j Hj. change (page (phys cow_demo) 4096) with (zero_page.[5 <- 8199]).
    rewrite aget_aset by (done || lia). case_decide; [done|]. by apply (aget_replicate 1024). }
  split.
  - lia.
  - unfold two32; lia.
  - apply mem_wf_insert; [apply mem_wf_insert; [apply mem_wf_empty|..]|..]; apply zero_page_update; unfold two32; lia.
  - apply boot_heap_ok.
  - split; [by vm_compute|]. split; [reflexivity|]. apply cow_demo_held. vm_compute. congruence.
  - split; vm_compute; reflexivity.
  - by vm_compute.
  - split_and!; vm_compute; reflexivity.
  - split; [by vm_compute|].
    apply cow_demo_held. vm_compute. congruence.
  - apply (bool_decide_unpack (NoDup [4096; 8192; 12288])). vm_compute. exact I.
  - intros j Hj. cbv zeta. change (pd_phys (aspace cow_demo 5000)) with 4096. rewrite Hpd by done.
    case_decide; [subst|done]. intros _. split; [apply cow_demo_held; vm_compute; congruence|done].
Qed.


Lemma cow_table_refines_witness :
  match paging_cow_inc_ref 12288 cow_demo_table with
  | (Ok _, c') => cow_updated cow_demo_table c' 12288 3 false
  | (Err _, _) => False
  end.
Proof.
  destruct (cow_table_refines cow_demo_table 2 12288 1 true cow_demo_compact
    ltac:(split; [unfold two32; lia|reflexivity]) ltac:(unfold two32; lia)) as (_ & H & _).
  assert (E : shared cow_demo_table 12288 = Some (2, false)) by (vm_compute; reflexivity).
  destruct (paging_cow_inc_ref 12288 cow_demo_table) as [[u|e] c'].
  - destruct H as (refs & owned & H1 & H2). rewrite E in H1. injection H1 as <- <-. exact H2.
  - destruct H as [_ H]. rewrite E in H. discriminate H.
Defined.

Lemma cow_remove_hides_witness :
  paging_cow_get 16384 cow_demo_table = Ok (2, false) ∧
  paging_cow_get 16384 (paging_cow_remove 12288 cow_demo_table) = Err KERR_NOENT.
Proof.
  split; [vm_compute; reflexivity|].
  apply (cow_remove_hides cow_demo_table 2 0 1 cow_demo_compact ltac:(lia) ltac:(lia)
    ltac:(split; [vm_compute; split; congruence|reflexivity]) ltac:(split; [vm_compute; split; congruence|reflexivity])).
Defined.
