(* ===== verification/PagingFork.v ===== *)
(** kernel/paging.c: forking an address space.

    [as_ok] is an address space whose tables are in memory of their own;
    [pair_ok] relates a parent to the child that is being built: wherever both
    own the table of an index the tables are different pages, and everywhere the
    child's entries are the parent's.  Giving a table of its own to either side
    and sharing a page keep it, which yields [paging_clone_spec]. *)

From S2P Require Import Prelude Pmm Kmalloc Paging PagingMap PagingCow.

(** * One address space *)

Definition pde (s : paging) (a j : Z) : Z := (page (phys s) (pd_phys (aspace s a))).[j].
Definition present (s : paging) (a j : Z) : bool := flag (pde s a j) PAGING_PAGE_FLAG_PRESENT.
Definition pt_page (s : paging) (a j : Z) : Z := Z.land (pde s a j) PAGE_MASK.
Definition pte (s : paging) (a j k : Z) : Z := (page (phys s) (pt_page s a j)).[k].

Record as_ok (s : paging) (a : Z) : Prop := {
  ao_ptr : 0 < a < small_ptr (heap s);
  ao_pd : page_addr (pd_phys (aspace s a)) ∧
          pd_virt (aspace s a) = KERNEL_VIRTUAL_BASE + pd_phys (aspace s a) ∧
          held_page (heap s) (pd_virt (aspace s a));
  ao_len : alen (owned_pt_words (aspace s a)) = 24;
  ao_tables : ∀ j, 0 ≤ j < 1024 → present s a j = true →
    page_addr (pt_page s a j) ∧ held_page (heap s) (KERNEL_VIRTUAL_BASE + pt_page s a j) ∧
    pt_page s a j ≠ pd_phys (aspace s a);
  ao_unique : ∀ i j, 0 ≤ i < 768 → 0 ≤ j < 1024 → paging_is_owned_pt s a i = true →
    present s a i = true → present s a j = true → pt_page s a i = pt_page s a j → i = j
}.

Definition mem_ok (s : paging) : Prop := mem_wf (phys s) ∧ heap_in_window (heap s).

Lemma pde_u32 s a j : mem_ok s → 0 ≤ j < 1024 → is_u32 (pde s a j).
Proof. intros [Hm _] Hj. by apply mem_word. Qed.

Lemma pte_u32 s a j k : mem_ok s → 0 ≤ k < 1024 → is_u32 (pte s a j k).
Proof. intros [Hm _] Hk. by apply mem_word. Qed.

(** The directory of [a] seen through its pointer. *)
Lemma vread_pd s a j : as_ok s a → vread (pd_virt (aspace s a)) j s = pde s a j.
Proof. intros Ha. destruct (ao_pd s a Ha) as (_ & Hv & _). unfold vread, pde. by rewrite Hv, Z.add_simpl_l. Qed.

Lemma translate_pte s a x :
  translate (phys s) (pd_phys (aspace s a)) x =
  if present s a (pd_index x) then
    let e := pte s a (pd_index x) (pt_index x) in
    if flag e PAGING_PAGE_FLAG_PRESENT then
      Some (Z.lor (Z.land e PAGE_MASK) (Z.land x 4095),
            flag (pde s a (pd_index x)) PAGING_PAGE_FLAG_USER && flag e PAGING_PAGE_FLAG_USER,
            flag (pde s a (pd_index x)) PAGING_PAGE_FLAG_WRITABLE && flag e PAGING_PAGE_FLAG_WRITABLE)
    else None
  else None.
Proof.
  unfold translate, mmu_walk, present, pte, pt_page, pde.
  destruct (flag _ PAGING_PAGE_FLAG_PRESENT); [|done]. simpl. by case_match.
Qed.

(** The flags of a directory entry decide its walk. *)
Lemma flag_low w k : 0 ≤ k < 12 → flag w (2 ^ k) = flag (Z.land w 4095) (2 ^ k).
Proof.
  intros Hk. rewrite !flag_testbit, Z.land_spec by lia. change 4095 with (Z.ones 12).
  by rewrite Z.ones_spec_low, andb_true_r by lia.
Qed.

Lemma same_low_flags w v :
  Z.land w 4095 = Z.land v 4095 →
  flag w PAGING_PAGE_FLAG_PRESENT = flag v PAGING_PAGE_FLAG_PRESENT ∧
  flag w PAGING_PAGE_FLAG_USER = flag v PAGING_PAGE_FLAG_USER ∧
  flag w PAGING_PAGE_FLAG_WRITABLE = flag v PAGING_PAGE_FLAG_WRITABLE.
Proof.
  intros H. change PAGING_PAGE_FLAG_PRESENT with (2 ^ 0). change PAGING_PAGE_FLAG_USER with (2 ^ 2).
  change PAGING_PAGE_FLAG_WRITABLE with (2 ^ 1).
  split_and!; rewrite (flag_low w), (flag_low v), H by lia; done.
Qed.

(** * A table of its own *)

Lemma kmalloc_page_small s : small_ptr (heap (snd (kmalloc_page s))) = small_ptr (heap s).
Proof.
  unfold kmalloc_page, kmalloc. cbn [PAGE_SIZE_BYTES]. change (PAGE_SIZE_BYTES <=? KMALLOC_SMALL_MAX) with false.
  repeat case_match; try done; simplify_eq; done.
Qed.

Lemma held_kept h h' v :
  heap_base h' = heap_base h → heap_end h' = heap_end h → (∀ q n, live h q n → live h' q n) →
  held_page h v → held_page h' v.
Proof.
  intros Hb He Hk [H|[H|(n & Hn & Hl)]]; unfold held_page; rewrite Hb, He; [by left|by right; left|].
  right; right. exists n. split; [done|by apply Hk].
Qed.

(** [paging_aspace_ensure_private_pt] when it replaces the table of [i] by a
    copy at [p]. *)
Record private_step (s s' : paging) (a i p : Z) : Prop := {
  ps_page : page_addr p;
  ps_fresh : ¬ held_page (heap s) (KERNEL_VIRTUAL_BASE + p);
  ps_now : held_page (heap s') (KERNEL_VIRTUAL_BASE + p);
  ps_held : ∀ v, held_page (heap s) v → held_page (heap s') v;
  ps_mem : mem_ok s';
  ps_small : small_ptr (heap s') = small_ptr (heap s);
  ps_phys : phys s' = write_word (pd_phys (aspace s a)) i (Z.lor p (Z.land (pde s a i) 4095))
              (<[p := page (phys s) (pt_page s a i)]> (phys s));
  ps_aspace : ∀ b, pd_phys (aspace s' b) = pd_phys (aspace s b) ∧
    pd_virt (aspace s' b) = pd_virt (aspace s b) ∧
    alen (owned_pt_words (aspace s' b)) = alen (owned_pt_words (aspace s b));
  ps_owned : ∀ b j, 0 ≤ j < 768 →
    paging_is_owned_pt s' b j = paging_is_owned_pt s b j || bool_decide (b = a ∧ j = i);
  ps_rest : g_cow_meta s' = g_cow_meta s
}.

Lemma low_index j : paging_pd_index_is_low j = true ↔ j < 768.
Proof. unfold paging_pd_index_is_low. change PAGING_LOW_PD_COUNT with 768. lia. Qed.

Lemma mark_owned_spec s a i :
  a ≠ 0 → 0 ≤ i < 768 → alen (owned_pt_words (aspace s a)) = 24 →
  let s' := paging_mark_owned_pt a i s in
  phys s' = phys s ∧ heap s' = heap s ∧ g_cow_meta s' = g_cow_meta s ∧
  (∀ b, pd_phys (aspace s' b) = pd_phys (aspace s b) ∧ pd_virt (aspace s' b) = pd_virt (aspace s b) ∧
     alen (owned_pt_words (aspace s' b)) = alen (owned_pt_words (aspace s b))) ∧
  ∀ b j, 0 ≤ j < 768 →
    paging_is_owned_pt s' b j = paging_is_owned_pt s b j || bool_decide (b = a ∧ j = i).
Proof.
  intros Ha Hi Hl. unfold paging_mark_owned_pt.
  assert (Hlow : ∀ j, 0 ≤ j < 768 → paging_pd_index_is_low j = true) by (intros j Hj; apply low_index; lia).
  rewrite (proj2 (Z.eqb_neq a 0)), Hlow by done. cbn [orb negb]. cbv zeta. set (A := AddressSpace _ _ _ _).
  assert (Hasp : ∀ b, aspace (set_aspace a A s) b = if decide (a = b) then A else aspace s b).
  { intros b. unfold aspace, set_aspace. cbn [set_aspaces aspaces].
    case_decide; [subst; by rewrite lookup_insert_eq|by rewrite lookup_insert_ne]. }
  split_and!; try done.
  - intros b. rewrite Hasp. case_decide; [subst|done]. unfold A; cbn [pd_phys pd_virt owned_pt_words].
    by rewrite alen_aset.
  - intros b j Hj. unfold paging_is_owned_pt. rewrite Hlow by done. cbn [negb].
    destruct (Z.eqb_spec b 0) as [->|Hb]; cbn [orb]; [by rewrite bool_decide_false by naive_solver|].
    rewrite Hasp. destruct (decide (a = b)) as [<-|Hne].
    + unfold A; cbn [owned_pt_words].
      assert (0 ≤ i / 32 < 24) by (split; [apply Z.div_pos; lia|apply Z.div_lt_upper_bound; lia]).
      pose proof (Z.mod_pos_bound i 32 ltac:(lia)). pose proof (Z.mod_pos_bound j 32 ltac:(lia)).
      rewrite aget_aset by (lia || (apply Z.div_pos; lia)).
      destruct (decide (i / 32 = j / 32)) as [Hd|Hd].
      * rewrite test_bit_set by lia. rewrite Hd, orb_comm. f_equal. apply bool_decide_ext. split.
        -- intros Hm. split; [done|]. symmetry. by apply frame_pos_inj; try lia.
        -- by intros [_ ->].
      * rewrite bool_decide_false by (intros [_ ->]; done). by rewrite orb_false_r.
    + rewrite bool_decide_false by naive_solver. by rewrite orb_false_r.
Qed.

Lemma private_pt_cases s a i :
  mem_ok s → as_ok s a →
  match paging_aspace_ensure_private_pt a i s with
  | (Err _, s') => s' = s
  | (Ok _, s') => i < 768 ∧ present s a i = true ∧
      ((paging_is_owned_pt s a i = true ∧ s' = s) ∨
       (0 ≤ i → paging_is_owned_pt s a i = false ∧ ∃ p, private_step s s' a i p))
  end.
Proof.
  intros Hmem Ha. pose proof (ao_ptr s a Ha) as Hp. unfold paging_aspace_ensure_private_pt.
  rewrite (proj2 (Z.eqb_neq a 0)) by lia. cbn [orb].
  destruct (paging_pd_index_is_low i) eqn:Hlow; cbn [negb]; [|done]. apply low_index in Hlow.
  cbv zeta. rewrite (vread_pd s a i Ha). fold (present s a i).
  destruct (present s a i) eqn:Hpr; cbn [negb]; [|done].
  destruct (paging_is_owned_pt s a i) eqn:Ho; [split_and!; [done..|by left]|].
  fold (pt_page s a i). destruct (Z.lt_ge_cases i 0) as [Hneg|Hi].
  { destruct (paging_phys_to_virt _) as [v|e]; [|done]. pose proof (kmalloc_page_cases s (proj2 Hmem)) as Hk.
    destruct (kmalloc_page s) as [p s1]. destruct (Z.eqb_spec p 0) as [->|Hp0].
    { destruct Hk as [[_ ->]|(_ & Hn & _)]; done. }
    destruct Hk as [[? _]|(_ & _ & Hpa & _)]; [done|]. rewrite virt_to_phys_ok by done.
    split_and!; [done..|]. right. intros. lia. }
  destruct (ao_tables s a Ha i ltac:(lia) Hpr) as (Hpa & Hph & _). rewrite phys_to_virt_ok by done.
  pose proof (kmalloc_page_cases s (proj2 Hmem)) as Hk. pose proof (kmalloc_page_small s) as Hsm.
  destruct (kmalloc_page s) as [v s1]. cbn [snd] in Hsm.
  destruct Hk as [[-> ->]|(Hs1 & Hnz & Hva & Hw & Hb & He & Hlo & Hhi & Hfr & Hkept & Hown)]; [done|].
  rewrite (proj2 (Z.eqb_neq v 0)), virt_to_phys_ok by done.
  set (p := v - KERNEL_VIRTUAL_BASE) in *. set (w := Z.lor p (Z.land (pde s a i) 4095)).
  set (s2 := vwrite _ i w _).
  assert (Has : aspaces s1 = aspaces s) by (rewrite Hs1; reflexivity).
  assert (Hph1 : phys s1 = phys s) by (rewrite Hs1; reflexivity).
  assert (Has2 : ∀ b, aspace s2 b = aspace s b) by (intros b; unfold aspace, s2; cbn [vwrite vfill set_phys aspaces]; by rewrite Has).
  destruct (ao_pd s a Ha) as (_ & Hpv & Hpdh).
  destruct (mark_owned_spec s2 a i ltac:(lia) ltac:(lia)) as (H1 & H2 & H3 & H4 & H5).
  { rewrite Has2. apply (ao_len s a Ha). }
  assert (Hvp : KERNEL_VIRTUAL_BASE + p = v) by lia.
  assert (Hphys : phys s2 = write_word (pd_phys (aspace s a)) i w (<[p := page (phys s) (pt_page s a i)]> (phys s))).
  { unfold s2, vwrite. cbn [set_phys phys vfill]. unfold vpage. rewrite Hpv, !Z.add_simpl_l, Hph1. done. }
  split_and!; [done..|]. right. intros _. split; [done|]. exists p.
  pose proof (pde_u32 s a i Hmem ltac:(lia)) as Hdu.
  split; rewrite ?H1, ?H2, ?H3.
  - done.
  - rewrite Hvp. intros Hh. by apply (fresh_not_held (heap s) v v).
  - change (heap s2) with (heap s1). rewrite Hvp. by right; right.
  - change (heap s2) with (heap s1). intros u. by apply held_kept.
  - split; [|rewrite H2; done]. rewrite H1, Hphys. destruct Hmem as [Hm _]. destruct (Hm (pt_page s a i)).
    apply mem_wf_write; [by apply mem_wf_insert|]. unfold w. apply lor_u32; [by apply page_addr_u32|by apply land_u32].
  - exact Hsm.
  - done.
  - intros b. destruct (H4 b) as (-> & -> & ->). by rewrite Has2.
  - intros b j Hj. rewrite H5 by done. f_equal. unfold paging_is_owned_pt. by rewrite Has2.
  - unfold s2. cbn [vwrite vfill set_phys g_cow_meta]. by rewrite Hs1.
Qed.

(** What the step does to the owner of the new table and to everybody else. *)
Section private.
Context (s s' : paging) (a i p : Z).
Context (Hmem : mem_ok s) (Ha : as_ok s a) (Hi : 0 ≤ i < 768) (Hp : private_step s s' a i p).
Context (Hpr : present s a i = true).

Lemma private_not_held q : held_page (heap s) (KERNEL_VIRTUAL_BASE + q) → q ≠ p.
Proof. intros Hh ->. by apply (ps_fresh _ _ _ _ _ Hp). Qed.

Lemma private_memory q :
  held_page (heap s) (KERNEL_VIRTUAL_BASE + q) → q ≠ pd_phys (aspace s a) → page (phys s') q = page (phys s) q.
Proof.
  intros Hh Hne. rewrite (ps_phys _ _ _ _ _ Hp), page_write, decide_False by done.
  rewrite page_insert, decide_False; [done|]. intros E. by apply (private_not_held q).
Qed.

Lemma private_pd_held b : as_ok s b → held_page (heap s) (KERNEL_VIRTUAL_BASE + pd_phys (aspace s b)).
Proof. intros Hb. destruct (ao_pd s b Hb) as (_ & <- & Hh). done. Qed.

Lemma private_word : is_u32 (Z.lor p (Z.land (pde s a i) 4095)) ∧
  Z.land (Z.lor p (Z.land (pde s a i) 4095)) PAGE_MASK = p ∧
  Z.land (Z.lor p (Z.land (pde s a i) 4095)) 4095 = Z.land (pde s a i) 4095.
Proof.
  pose proof (ps_page _ _ _ _ _ Hp) as Hpa. pose proof (page_addr_u32 p Hpa).
  pose proof (pde_u32 s a i Hmem ltac:(lia)).
  assert (Hl : 0 ≤ Z.land (pde s a i) 4095 < 4096) by (rewrite low_bits; apply Z.mod_pos_bound; lia).
  split_and!; [apply lor_u32; [done|by apply land_u32]..|apply entry_frame|apply entry_low]; done || apply Hpa.
Qed.

Lemma private_pde j :
  0 ≤ j < 1024 → pde s' a j = if decide (i = j) then Z.lor p (Z.land (pde s a i) 4095) else pde s a j.
Proof.
  intros Hj. unfold pde. destruct (ps_aspace _ _ _ _ _ Hp a) as (-> & _).
  rewrite (ps_phys _ _ _ _ _ Hp), page_write, decide_True by done.
  pose proof (private_not_held _ (private_pd_held a Ha)).
  rewrite page_insert, decide_False by congruence. destruct Hmem as [Hm _]. destruct (Hm (pd_phys (aspace s a))).
  by rewrite aget_aset by lia.
Qed.

Lemma private_low j : 0 ≤ j < 1024 → Z.land (pde s' a j) 4095 = Z.land (pde s a j) 4095.
Proof. intros Hj. rewrite private_pde by done. destruct (decide (i = j)) as [<-|]; [apply private_word|done]. Qed.

Lemma private_present j : 0 ≤ j < 1024 → present s' a j = present s a j.
Proof. intros Hj. unfold present. apply same_low_flags. by apply private_low. Qed.

Lemma private_pt j : 0 ≤ j < 1024 → pt_page s' a j = if decide (i = j) then p else pt_page s a j.
Proof. intros Hj. unfold pt_page. rewrite private_pde by done. case_decide; [apply private_word|done]. Qed.

Lemma private_pte j k : 0 ≤ j < 1024 → present s a j = true → pte s' a j k = pte s a j k.
Proof.
  intros Hj Hpj. unfold pte. rewrite private_pt by done. destruct (decide (i = j)) as [<-|Hne].
  - rewrite (ps_phys _ _ _ _ _ Hp), page_write, decide_False.
    + by rewrite page_insert, decide_True.
    + apply (private_not_held _ (private_pd_held a Ha)).
  - destruct (ao_tables s a Ha j Hj Hpj) as (_ & Hh & Hnpd). by rewrite private_memory.
Qed.

Lemma private_self_ok : as_ok s' a.
Proof.
  destruct Ha as [Hptr (Hpd & Hpv & Hpdh) Hlen Htab Hun].
  destruct (ps_aspace _ _ _ _ _ Hp a) as (E1 & E2 & E3).
  split; rewrite ?(ps_small _ _ _ _ _ Hp), ?E1, ?E2, ?E3; try done.
  - split_and!; [done..|]. by apply (ps_held _ _ _ _ _ Hp).
  - intros j Hj. rewrite private_present, private_pt by done. intros Hpj. destruct (decide (i = j)) as [<-|].
    + split_and!; [apply Hp..|]. intros E. by apply (private_not_held _ (private_pd_held a Ha)).
    + destruct (Htab j Hj Hpj) as (H1 & H2 & H3). split_and!; [done| |done]. by apply (ps_held _ _ _ _ _ Hp).
  - intros i' j Hi' Hj. rewrite (ps_owned _ _ _ _ _ Hp) by done. rewrite !private_present, !private_pt by lia.
    intros Ho Hp1 Hp2.
    assert (Hfresh : ∀ l, 0 ≤ l < 1024 → present s a l = true → pt_page s a l ≠ p).
    { intros l Hl Hpl. apply private_not_held. by apply (Htab l Hl Hpl). }
    destruct (decide (i = i')) as [<-|]; destruct (decide (i = j)) as [<-|]; try done.
    + intros E. by destruct (Hfresh j Hj Hp2).
    + intros E. by destruct (Hfresh i' ltac:(lia) Hp1).
    + rewrite bool_decide_false in Ho by naive_solver. rewrite orb_false_r in Ho. by apply Hun.
Qed.

Section other.
Context (b : Z) (Hb : as_ok s b) (Hne : b ≠ a) (Hpd : pd_phys (aspace s b) ≠ pd_phys (aspace s a)).

Lemma other_pde j : pde s' b j = pde s b j.
Proof.
  unfold pde. destruct (ps_aspace _ _ _ _ _ Hp b) as (-> & _). rewrite private_memory; [done| |done].
  by apply private_pd_held.
Qed.

Lemma other_present j : present s' b j = present s b j.
Proof. unfold present. by rewrite other_pde. Qed.

Lemma other_pt j : pt_page s' b j = pt_page s b j.
Proof. unfold pt_page. by rewrite other_pde. Qed.

Lemma other_pte j k :
  0 ≤ j < 1024 → present s b j = true → pt_page s b j ≠ pd_phys (aspace s a) → pte s' b j k = pte s b j k.
Proof.
  intros Hj Hpj Hn. unfold pte. rewrite other_pt. destruct (ao_tables s b Hb j Hj Hpj) as (_ & Hh & _).
  by rewrite private_memory.
Qed.

Lemma other_owned j : 0 ≤ j < 768 → paging_is_owned_pt s' b j = paging_is_owned_pt s b j.
Proof. intros Hj. rewrite (ps_owned _ _ _ _ _ Hp) by done. rewrite bool_decide_false by naive_solver. apply orb_false_r. Qed.

Lemma private_other_ok : as_ok s' b.
Proof.
  destruct Hb as [Hptr (Hpd' & Hpv & Hpdh) Hlen Htab Hun].
  destruct (ps_aspace _ _ _ _ _ Hp b) as (E1 & E2 & E3).
  split; rewrite ?(ps_small _ _ _ _ _ Hp), ?E1, ?E2, ?E3; try done.
  - split_and!; [done..|]. by apply (ps_held _ _ _ _ _ Hp).
  - intros j Hj. rewrite other_present, other_pt. intros Hpj. destruct (Htab j Hj Hpj) as (H1 & H2 & H3).
    split_and!; [done| |done]. by apply (ps_held _ _ _ _ _ Hp).
  - intros i' j Hi' Hj. rewrite other_owned, !other_present, !other_pt by done. by apply Hun.
Qed.
End other.
End private.

(** * A parent and its child *)

Record pair_ok (s : paging) (P C : Z) : Prop := {
  po_mem : mem_ok s;
  po_P : as_ok s P;
  po_C : as_ok s C;
  po_ne : P ≠ C ∧ pd_phys (aspace s P) ≠ pd_phys (aspace s C);
  po_pt_P : ∀ j, 0 ≤ j < 1024 → present s P j = true → pt_page s P j ≠ pd_phys (aspace s C);
  po_pt_C : ∀ j, 0 ≤ j < 1024 → present s C j = true → pt_page s C j ≠ pd_phys (aspace s P);
  po_own_P : ∀ i j, 0 ≤ i < 768 → 0 ≤ j < 1024 → paging_is_owned_pt s P i = true →
    present s P i = true → present s C j = true → i ≠ j → pt_page s C j ≠ pt_page s P i;
  po_own_C : ∀ i j, 0 ≤ i < 768 → 0 ≤ j < 1024 → paging_is_owned_pt s C i = true →
    present s C i = true → present s P j = true → pt_page s C i ≠ pt_page s P j;
  po_low : ∀ j, 0 ≤ j < 1024 → Z.land (pde s C j) 4095 = Z.land (pde s P j) 4095;
  po_same : ∀ j k, 0 ≤ j < 1024 → 0 ≤ k < 1024 → present s P j = true → pte s C j k = pte s P j k
}.

(** Nothing of the parent's, and no memory in use but the two directories, has
    changed between two states. *)
Record kept (s s' : paging) (P C : Z) : Prop := {
  kp_pd : pd_phys (aspace s' P) = pd_phys (aspace s P) ∧ pd_phys (aspace s' C) = pd_phys (aspace s C);
  kp_low : ∀ j, 0 ≤ j < 1024 → Z.land (pde s' P j) 4095 = Z.land (pde s P j) 4095;
  kp_pte : ∀ j k, 0 ≤ j < 1024 → 0 ≤ k < 1024 → present s P j = true → pte s' P j k = pte s P j k;
  kp_owned : ∀ b j, 0 ≤ j < 768 → paging_is_owned_pt s b j = true → paging_is_owned_pt s' b j = true;
  kp_table : ∀ b j, b = P ∨ b = C → 0 ≤ j < 768 → present s' b j = true → paging_is_owned_pt s' b j = true →
    (present s b j = true ∧ paging_is_owned_pt s b j = true ∧ pt_page s' b j = pt_page s b j) ∨
    ¬ held_page (heap s) (KERNEL_VIRTUAL_BASE + pt_page s' b j);
  kp_held : ∀ v, held_page (heap s) v → held_page (heap s') v;
  kp_page : ∀ q, held_page (heap s) (KERNEL_VIRTUAL_BASE + q) → q ≠ pd_phys (aspace s P) →
    q ≠ pd_phys (aspace s C) → page (phys s') q = page (phys s) q;
  kp_cow : g_cow_meta s' = g_cow_meta s
}.

Lemma kept_refl s P C : kept s s P C.
Proof. split; try done. by left. Qed.

Lemma kept_present s s' P C j : kept s s' P C → 0 ≤ j < 1024 → present s' P j = present s P j.
Proof. intros Hk Hj. unfold present. apply same_low_flags. by apply (kp_low _ _ _ _ Hk). Qed.

Lemma kept_trans s1 s2 s3 P C : kept s1 s2 P C → kept s2 s3 P C → kept s1 s3 P C.
Proof.
  intros Hk [Hpd' Hlow' Hpte' Hown' Htab' Hheld' Hpage' Hcow'].
  pose proof Hk as [[Hp1 Hp2] Hlow Hpte Hown Htab Hheld Hpage Hcow].
  rewrite Hp1, Hp2 in *. split; try done.
  - intros j Hj. by rewrite Hlow', Hlow.
  - intros j k Hj Hkk Hp. rewrite Hpte', Hpte by (done || by rewrite (kept_present _ _ _ _ _ Hk)). done.
  - intros b j Hj Ho. by apply Hown', Hown.
  - intros b j Hb Hj Hp Ho. destruct (Htab' b j Hb Hj Hp Ho) as [(Hp2' & Ho2 & ->)|Hn]; [by apply Htab|].
    right. intros Hh. by apply Hn, Hheld.
  - intros v Hv. by apply Hheld', Hheld.
  - intros q Hq H1 H2. by rewrite Hpage', Hpage by (done || by apply Hheld).
  - by rewrite Hcow'.
Qed.

Lemma pair_same_present s P C j : pair_ok s P C → 0 ≤ j < 1024 → present s C j = present s P j.
Proof. intros Hpo Hj. unfold present. apply same_low_flags. by apply (po_low s P C Hpo). Qed.

(** Whose table it is after a step: as before, or the fresh page. *)
Lemma private_table s s' a i p b j :
  mem_ok s → as_ok s a → 0 ≤ i < 768 → present s a i = true → private_step s s' a i p →
  b = a ∨ (as_ok s b ∧ b ≠ a ∧ pd_phys (aspace s b) ≠ pd_phys (aspace s a)) →
  0 ≤ j < 768 → present s' b j = true → paging_is_owned_pt s' b j = true →
  (present s b j = true ∧ paging_is_owned_pt s b j = true ∧ pt_page s' b j = pt_page s b j) ∨
  ¬ held_page (heap s) (KERNEL_VIRTUAL_BASE + pt_page s' b j).
Proof.
  intros Hmem Ha Hi Hpr Hp [->|(Hb & Hne & Hpd)] Hj.
  - rewrite (private_present s s' a i p), (private_pt s s' a i p), (ps_owned _ _ _ _ _ Hp) by (done || lia).
    intros Hpj Ho. destruct (decide (i = j)); [right; apply (ps_fresh _ _ _ _ _ Hp)|left].
    rewrite bool_decide_false in Ho by naive_solver. by rewrite orb_false_r in Ho.
  - rewrite (other_present s s' a i p), (other_pt s s' a i p), (other_owned s s' a i p) by done. by left.
Qed.

(** The parent gets a table of its own. *)
Lemma pair_private_parent s s' P C i p :
  pair_ok s P C → 0 ≤ i < 768 → present s P i = true → private_step s s' P i p →
  pair_ok s' P C ∧ kept s s' P C.
Proof.
  intros Hpo Hi Hpr Hp. pose proof Hpo as [Hmem HP HC [Hne Hpd] HptP HptC HoP HoC Hlow Hsame].
  destruct (ps_aspace _ _ _ _ _ Hp P) as (EP & _). destruct (ps_aspace _ _ _ _ _ Hp C) as (EC & _).
  pose proof (private_not_held s s' P i p Hp) as Hfr.
  assert (HpresC : ∀ j, present s' C j = present s C j) by (intros j; by apply (other_present s s' P i p Hp C)).
  assert (HptC' : ∀ j, pt_page s' C j = pt_page s C j) by (intros j; by apply (other_pt s s' P i p Hp C)).
  assert (HpresP : ∀ j, 0 ≤ j < 1024 → present s' P j = present s P j) by (intros j Hj; by apply (private_present s s' P i p)).
  assert (HptP' : ∀ j, 0 ≤ j < 1024 → pt_page s' P j = if decide (i = j) then p else pt_page s P j)
    by (intros j Hj; by apply (private_pt s s' P i p)).
  assert (HfrC : ∀ j, 0 ≤ j < 1024 → present s C j = true → pt_page s C j ≠ p).
  { intros j Hj Hpj. apply Hfr. by apply (ao_tables s C HC j Hj Hpj). }
  assert (Hpte : ∀ j k, 0 ≤ j < 1024 → present s P j = true → pte s' P j k = pte s P j k)
    by (intros j k Hj Hpj; by apply (private_pte s s' P i p)).
  split.
  - split; rewrite ?EP, ?EC; try done.
    + apply (ps_mem _ _ _ _ _ Hp).
    + by apply (private_self_ok s s' P i p).
    + apply (private_other_ok s s' P i p Hi Hp C HC); congruence.
    + intros j Hj. rewrite HpresP, HptP' by done. intros Hpj. case_decide; [|by apply HptP].
      intros E. by apply (Hfr _ (private_pd_held s C HC)).
    + intros j Hj. rewrite HpresC, HptC'. by apply HptC.
    + intros i' j Hi' Hj. rewrite (ps_owned _ _ _ _ _ Hp), HpresP, HpresC, HptC', HptP' by lia.
      intros Ho Hp1 Hp2 Hij. destruct (decide (i = i')) as [<-|Hni]; [by apply HfrC|].
      rewrite bool_decide_false in Ho by naive_solver. rewrite orb_false_r in Ho. by apply HoP.
    + intros i' j Hi' Hj. rewrite (other_owned s s' P i p Hi Hp C (not_eq_sym Hne)), HpresP, HpresC, HptC', HptP' by lia.
      intros Ho Hp1 Hp2. case_decide; [apply HfrC; [lia|done]|by apply HoC].
    + intros j Hj. rewrite (other_pde s s' P i p Hp C) by congruence.
      rewrite (private_low s s' P i p) by done. by apply Hlow.
    + intros j k Hj Hk. rewrite HpresP by done. intros Hpj. rewrite Hpte by done.
      assert (HpC : present s C j = true) by (by rewrite (pair_same_present s P C)).
      rewrite (other_pte s s' P i p Hp C) by (done || congruence || by apply HptC). by apply Hsame.
  - split; try done.
    + intros j Hj. by apply (private_low s s' P i p).
    + intros j k Hj Hk. by apply Hpte.
    + intros b j Hj Ho. by rewrite (ps_owned _ _ _ _ _ Hp), Ho by done.
    + intros b j Hb. apply (private_table s s' P i p); try done. destruct Hb as [->| ->]; [by left|right; split_and!; [done|congruence..]].
    + apply (ps_held _ _ _ _ _ Hp).
    + intros q Hq H1 _. by apply (private_memory s s' P i p).
    + apply (ps_rest _ _ _ _ _ Hp).
Qed.

(** The child gets a table of its own. *)
Lemma pair_private_child s s' P C i p :
  pair_ok s P C → 0 ≤ i < 768 → present s C i = true → private_step s s' C i p →
  pair_ok s' P C ∧ kept s s' P C.
Proof.
  intros Hpo Hi Hpr Hp. pose proof Hpo as [Hmem HP HC [Hne Hpd] HptP HptC HoP HoC Hlow Hsame].
  destruct (ps_aspace _ _ _ _ _ Hp P) as (EP & _). destruct (ps_aspace _ _ _ _ _ Hp C) as (EC & _).
  pose proof (private_not_held s s' C i p Hp) as Hfr.
  assert (HpresP : ∀ j, present s' P j = present s P j) by (intros j; by apply (other_present s s' C i p Hp P)).
  assert (HptP' : ∀ j, pt_page s' P j = pt_page s P j) by (intros j; by apply (other_pt s s' C i p Hp P)).
  assert (HpdeP : ∀ j, pde s' P j = pde s P j) by (intros j; by apply (other_pde s s' C i p Hp P)).
  assert (HpresC : ∀ j, 0 ≤ j < 1024 → present s' C j = present s C j) by (intros j Hj; by apply (private_present s s' C i p)).
  assert (HptC' : ∀ j, 0 ≤ j < 1024 → pt_page s' C j = if decide (i = j) then p else pt_page s C j)
    by (intros j Hj; by apply (private_pt s s' C i p)).
  assert (HfrP : ∀ j, 0 ≤ j < 1024 → present s P j = true → pt_page s P j ≠ p).
  { intros j Hj Hpj. apply Hfr. by apply (ao_tables s P HP j Hj Hpj). }
  assert (Hpte : ∀ j k, 0 ≤ j < 1024 → present s P j = true → pte s' P j k = pte s P j k).
  { intros j k Hj Hpj. apply (other_pte s s' C i p Hp P); try done. by apply HptP. }
  split.
  - split; rewrite ?EP, ?EC; try done.
    + apply (ps_mem _ _ _ _ _ Hp).
    + by apply (private_other_ok s s' C i p Hi Hp P HP).
    + by apply (private_self_ok s s' C i p).
    + intros j Hj. rewrite HpresP, HptP'. by apply HptP.
    + intros j Hj. rewrite HpresC, HptC' by done. intros Hpj. case_decide; [|by apply HptC].
      intros E. by apply (Hfr _ (private_pd_held s P HP)).
    + intros i' j Hi' Hj. rewrite (other_owned s s' C i p Hi Hp P Hne), HpresP, HpresC, HptP', HptC' by lia.
      intros Ho Hp1 Hp2 Hij. case_decide; [|by apply HoP].
      intros E. by apply (HfrP i' ltac:(lia) Hp1).
    + intros i' j Hi' Hj. rewrite (ps_owned _ _ _ _ _ Hp), HpresP, HpresC, HptP', HptC' by lia.
      intros Ho Hp1 Hp2. destruct (decide (i = i')) as [<-|Hni].
      * intros E. by apply (HfrP j Hj Hp2).
      * rewrite bool_decide_false in Ho by naive_solver. rewrite orb_false_r in Ho. by apply HoC.
    + intros j Hj. rewrite HpdeP, (private_low s s' C i p) by done. by apply Hlow.
    + intros j k Hj Hk. rewrite HpresP. intros Hpj. rewrite Hpte by done.
      rewrite (private_pte s s' C i p) by (done || by rewrite (pair_same_present s P C)). by apply Hsame.
  - split; try done.
    + intros j Hj. by rewrite HpdeP.
    + intros j k Hj Hk. by apply Hpte.
    + intros b j Hj Ho. by rewrite (ps_owned _ _ _ _ _ Hp), Ho by done.
    + intros b j Hb. apply (private_table s s' C i p); try done. destruct Hb as [->| ->]; [right; split_and!; [done|congruence..]|by left].
    + apply (ps_held _ _ _ _ _ Hp).
    + intros q Hq _ H1. by apply (private_memory s s' C i p).
    + apply (ps_rest _ _ _ _ _ Hp).
Qed.

(** * The pages of a list of ranges *)

Definition in_range (r : user_range) (x : Z) : Prop :=
  ur_size r ≠ 0 ∧ range_start r ≤ x < range_end r.

Definition in_ranges (rs : list user_range) (x : Z) : Prop := Exists (λ r, in_range r x) rs.

#[export] Instance in_ranges_dec rs x : Decision (in_ranges rs x).
Proof. unfold in_ranges, in_range. apply _. Defined.

Definition ranges_u32 (rs : list user_range) : Prop := Forall (λ r, is_u32 (ur_base r) ∧ is_u32 (ur_size r)) rs.

Lemma range_bounds r :
  is_u32 (ur_base r) →
  range_start r = range_start r / 4096 * 4096 ∧ range_end r = range_end r / 4096 * 4096 ∧ 0 ≤ range_start r ∧
  is_u32 (range_end r).
Proof.
  intros Hb. unfold range_start, range_end.
  assert (H : is_u32 (sub32 (add32 (add32 (ur_base r) (ur_size r)) PAGE_SIZE_BYTES) 1)) by apply u32_range.
  pose proof (land_u32 _ PAGE_MASK H). rewrite !round_down in * by done. rewrite !Z.div_mul by lia.
  split_and!; try done; try lia. apply Z.mul_nonneg_nonneg; [apply Z.div_pos|]; lia.
Qed.

Lemma range_pages_in r va :
  is_u32 (ur_base r) → va ∈ range_pages r → range_start r ≤ va < range_end r ∧ is_u32 va ∧ va mod 4096 = 0.
Proof.
  intros Hb. destruct (range_bounds r Hb) as (E1 & E2 & H0 & H1). unfold range_pages. rewrite E1, E2.
  intros [H2 H3]%in_pages. split_and!; lia.
Qed.

Lemma range_pages_cover r x :
  is_u32 (ur_base r) → range_start r ≤ x < range_end r →
  ∃ va, va ∈ range_pages r ∧ va / 4096 = x / 4096.
Proof.
  intros Hb Hx. destruct (range_bounds r Hb) as (E1 & E2 & H0 & H1). unfold range_pages.
  assert (Hin : x / 4096 ∈ (λ a, a / 4096) <$> pages (range_start r / 4096 * 4096) (range_end r / 4096 * 4096)).
  { rewrite pages_numbers. apply elem_of_seqZ.
    pose proof (Z.div_mod x 4096 ltac:(lia)). pose proof (Z.mod_pos_bound x 4096 ltac:(lia)). lia. }
  apply list_elem_of_fmap in Hin as (va & E & Hva). exists va. rewrite E1, E2. done.
Qed.

(** A page of a range and the other addresses of the page. *)
Lemma in_range_page r x y :
  is_u32 (ur_base r) → x / 4096 = y / 4096 → in_range r x → in_range r y.
Proof.
  intros Hb E [Hs Hx]. destruct (range_bounds r Hb) as (E1 & E2 & H0 & H1). split; [done|].
  rewrite E1, E2 in *. pose proof (Z.div_mod x 4096 ltac:(lia)). pose proof (Z.mod_pos_bound x 4096 ltac:(lia)).
  pose proof (Z.div_mod y 4096 ltac:(lia)). pose proof (Z.mod_pos_bound y 4096 ltac:(lia)). lia.
Qed.

(** * Tables of their own for all pages of the ranges *)

(** Every page of the ranges is translated through a table that [a] owns. *)
Definition owned_for (s : paging) (a : Z) (rs : list user_range) : Prop :=
  ∀ r va, r ∈ rs → ur_size r ≠ 0 → va ∈ range_pages r →
    0 ≤ pd_index va < 768 ∧ present s a (pd_index va) = true ∧ paging_is_owned_pt s a (pd_index va) = true.

Section private_loops.
Context (P C a : Z) (Haa : a = P ∨ a = C).

Lemma private_page_pair s va :
  pair_ok s P C → is_u32 va →
  match private_page a va s with
  | (Err _, _) => True
  | (Ok _, s') => pair_ok s' P C ∧ kept s s' P C ∧
      0 ≤ pd_index va < 768 ∧ present s' a (pd_index va) = true ∧ paging_is_owned_pt s' a (pd_index va) = true
  end.
Proof.
  intros Hpo Hva. pose proof (pd_index_bound va Hva) as Hb. unfold private_page.
  destruct (paging_pd_index_is_low (pd_index va)) eqn:Hlow; cbn [negb]; [|done]. apply low_index in Hlow.
  assert (Ha : as_ok s a) by (destruct Haa as [->| ->]; apply Hpo).
  pose proof (private_pt_cases s a (pd_index va) (po_mem _ _ _ Hpo) Ha) as H.
  destruct (paging_aspace_ensure_private_pt a (pd_index va) s) as [[u|e] s']; [|done].
  destruct H as (_ & Hpr & [[Ho ->]|H]); [split_and!; first [done|lia|apply kept_refl]|].
  destruct H as (Ho & p & Hp); [lia|].
  assert (Hpk : pair_ok s' P C ∧ kept s s' P C).
  { destruct Haa as [->| ->]; [apply (pair_private_parent s s' P C (pd_index va) p)|
                              apply (pair_private_child s s' P C (pd_index va) p)]; try done; lia. }
  destruct Hpk as [Hpo' Hk]. split_and!; try done; try lia.
  - rewrite (private_present s s' a (pd_index va) p); try done; [apply Hpo|lia].
  - rewrite (ps_owned _ _ _ _ _ Hp) by lia. by rewrite bool_decide_true, orb_true_r.
Qed.

Lemma owned_kept s s' j :
  pair_ok s P C → pair_ok s' P C → kept s s' P C → 0 ≤ j < 768 →
  present s a j = true → paging_is_owned_pt s a j = true →
  present s' a j = true ∧ paging_is_owned_pt s' a j = true.
Proof.
  intros Hpo Hpo' Hk Hj Hp Ho. split; [|by apply (kp_owned _ _ _ _ Hk)].
  assert (HpP : present s P j = true).
  { destruct Haa as [->| ->]; [done|]. by rewrite <- (pair_same_present s P C) by (done || lia). }
  assert (HpP' : present s' P j = true) by (by rewrite (kept_present s s' P C) by (done || lia)).
  destruct Haa as [->| ->]; [done|]. by rewrite (pair_same_present s' P C) by (done || lia).
Qed.

Lemma private_range_pair s r :
  pair_ok s P C → is_u32 (ur_base r) →
  match private_range a r s with
  | (Err _, _) => True
  | (Ok _, s') => pair_ok s' P C ∧ kept s s' P C ∧ owned_for s' a [r]
  end.
Proof.
  intros Hpo Hr. unfold private_range. destruct (Z.eqb_spec (ur_size r) 0) as [Hz|Hz].
  { split_and!; [done|apply kept_refl|]. intros r' va ->%list_elem_of_singleton. done. }
  destruct (_ <? _); [done|].
  pose proof (each_ind (private_page a)
    (λ dn s', pair_ok s' P C ∧ kept s s' P C ∧ ∀ va, va ∈ dn → 0 ≤ pd_index va < 768 ∧
       present s' a (pd_index va) = true ∧ paging_is_owned_pt s' a (pd_index va) = true)
    (λ _ _ _, True) (range_pages r) s) as H.
  lapply H; [clear H; intros H|].
  2: { split_and!; [done|apply kept_refl|]. intros va Hva. by apply elem_of_nil in Hva. }
  lapply H; [clear H; intros H|].
  2: { intros dn va s1 [k Hpre] (Hpo1 & Hk1 & Hdn).
    assert (Hva : is_u32 va).
    { apply (range_pages_in r va Hr). rewrite Hpre, !elem_of_app. left; right. by apply list_elem_of_singleton. }
    pose proof (private_page_pair s1 va Hpo1 Hva) as Hs. destruct (private_page a va s1) as [[u|e] s2]; [|done].
    destruct Hs as (Hpo2 & Hk2 & Hi & Hp2 & Ho2). split_and!; [done|by apply (kept_trans s s1)|].
    intros v [Hv|Hv%list_elem_of_singleton]%elem_of_app; [|by subst].
    destruct (Hdn v Hv) as (Hvi & Hvp & Hvo). split; [done|]. by apply (owned_kept s1 s2). }
  destruct (each (private_page a) (range_pages r) s) as [[u|e] s']; [|done].
  destruct H as (Hpo' & Hk' & Hall). split_and!; [done..|].
  intros r' va ->%list_elem_of_singleton _ Hva. by apply Hall.
Qed.

Lemma private_ranges_pair s rs :
  pair_ok s P C → ranges_u32 rs →
  match paging_clone_user_pts_for_ranges a rs s with
  | (Err _, _) => True
  | (Ok _, s') => pair_ok s' P C ∧ kept s s' P C ∧ owned_for s' a rs
  end.
Proof.
  intros Hpo Hrs. unfold paging_clone_user_pts_for_ranges.
  pose proof (each_ind (private_range a) (λ dn s', pair_ok s' P C ∧ kept s s' P C ∧ owned_for s' a dn)
    (λ _ _ _, True) rs s) as H.
  lapply H; [clear H; intros H|].
  2: { split_and!; [done|apply kept_refl|]. intros r va Hr. by apply elem_of_nil in Hr. }
  lapply H; [clear H; intros H|].
  2: { intros dn r s1 [k Hpre] (Hpo1 & Hk1 & Hdn).
    assert (Hr : is_u32 (ur_base r)).
    { unfold ranges_u32 in Hrs. rewrite Hpre, !Forall_app, Forall_singleton in Hrs. by apply Hrs. }
    pose proof (private_range_pair s1 r Hpo1 Hr) as Hs. destruct (private_range a r s1) as [[u|e] s2]; [|done].
    destruct Hs as (Hpo2 & Hk2 & Ho2). split_and!; [done|by apply (kept_trans s s1)|].
    intros r' va [Hr'|Hr']%elem_of_app Hsz Hva; [|by apply (Ho2 r')].
    destruct (Hdn r' va Hr' Hsz Hva) as (Hvi & Hvp & Hvo). split; [done|]. by apply (owned_kept s1 s2). }
  by destruct (each (private_range a) rs s) as [[u|e] s'].
Qed.
End private_loops.

(** * Sharing one page *)

(** What a fork makes of an entry. *)
Definition is_shareable (w : Z) : bool :=
  flag w PAGING_PAGE_FLAG_PRESENT && flag w PAGING_PAGE_FLAG_USER &&
  (flag w PAGING_PAGE_FLAG_COW || flag w PAGING_PAGE_FLAG_WRITABLE).

Definition share_pte (w : Z) : Z :=
  if is_shareable w then cow_pte w (flag w PAGING_PAGE_FLAG_OWNED) else w.

Definition cow_flags (w : Z) (owned : bool) : Z :=
  Z.lor (Z.land (Z.land w 4095) (not32 PAGING_PAGE_FLAG_WRITABLE))
        (if owned then PAGING_PAGE_FLAG_COW + PAGING_PAGE_FLAG_OWNED else PAGING_PAGE_FLAG_COW).

Lemma cow_pte_flags w owned : cow_pte w owned = Z.lor (Z.land w PAGE_MASK) (cow_flags w owned).
Proof.
  unfold cow_pte, cow_flags. destruct owned; [|done]. f_equal. rewrite <- Z.lor_assoc. done.
Qed.

Lemma cow_flags_low w owned : 0 ≤ cow_flags w owned < 4096.
Proof.
  unfold cow_flags. pose proof (Z.mod_pos_bound w 4096 ltac:(lia)) as Hm. rewrite <- low_bits in Hm.
  apply lor_low; [by apply land_low|]. destruct owned; unfold PAGING_PAGE_FLAG_COW, PAGING_PAGE_FLAG_OWNED; lia.
Qed.

Lemma cow_pte_spec w owned :
  is_u32 w →
  is_u32 (cow_pte w owned) ∧ Z.land (cow_pte w owned) PAGE_MASK = Z.land w PAGE_MASK ∧
  Z.land (cow_pte w owned) 4095 = cow_flags w owned ∧
  flag (cow_pte w owned) PAGING_PAGE_FLAG_PRESENT = flag w PAGING_PAGE_FLAG_PRESENT ∧
  flag (cow_pte w owned) PAGING_PAGE_FLAG_USER = flag w PAGING_PAGE_FLAG_USER ∧
  flag (cow_pte w owned) PAGING_PAGE_FLAG_WRITABLE = false ∧
  flag (cow_pte w owned) PAGING_PAGE_FLAG_COW = true ∧
  (owned = flag w PAGING_PAGE_FLAG_OWNED → flag (cow_pte w owned) PAGING_PAGE_FLAG_OWNED = owned).
Proof.
  intros Hw. pose proof (cow_flags_low w owned) as Hl. pose proof (frame_aligned w Hw) as Ha.
  pose proof (frame_u32 w Hw) as Hu. rewrite cow_pte_flags.
  split; [apply lor_u32; unfold two32 in *; lia|]. split; [by apply entry_frame|]. split; [by apply entry_low|].
  change PAGING_PAGE_FLAG_PRESENT with (2 ^ 0); change PAGING_PAGE_FLAG_USER with (2 ^ 2);
    change PAGING_PAGE_FLAG_WRITABLE with (2 ^ 1); change PAGING_PAGE_FLAG_COW with (2 ^ 9);
    change PAGING_PAGE_FLAG_OWNED with (2 ^ 10).
  rewrite !(entry_flag _ _ Ha) by lia. unfold cow_flags.
  destruct owned; split_and!; try intros Ho; repeat first [rewrite flag_land by lia|rewrite flag_lor by lia].
  all: repeat match goal with |- context [flag ?a ?b] => first [change (flag a b) with true | change (flag a b) with false] end.
  all: rewrite ?andb_true_r, ?orb_true_r, ?orb_false_r, ?andb_false_r; try done.
Qed.

Lemma share_pte_u32 w : is_u32 w → is_u32 (share_pte w).
Proof. intros Hw. unfold share_pte. case_match; [by apply cow_pte_spec|done]. Qed.

(** Sharing a shared entry changes nothing. *)
Lemma share_pte_idem w : is_u32 w → share_pte (share_pte w) = share_pte w.
Proof.
  intros Hw. unfold share_pte at 2 3. destruct (is_shareable w) eqn:E; [|unfold share_pte; by rewrite E].
  set (o := flag w PAGING_PAGE_FLAG_OWNED).
  destruct (cow_pte_spec w o Hw) as (Hu & Hf & Hl & Hp & Hus & Hwr & Hc & Hown). specialize (Hown eq_refl).
  unfold share_pte, is_shareable in *. rewrite Hp, Hus, Hc. apply andb_true_iff in E as [-> _]. cbn [andb orb].
  rewrite Hown. rewrite (cow_pte_flags (cow_pte w o)), Hf. rewrite (cow_pte_flags w o) at 2. f_equal.
  unfold cow_flags at 1. rewrite Hl. unfold cow_flags. rewrite Z.land_lor_distr_l.
  rewrite <- (Z.land_assoc (Z.land w 4095)), Z.land_diag, <- Z.lor_assoc. f_equal.
  by destruct o.
Qed.

(** The page of a space that both members of a pair own, both entries set. *)
Definition pair_write (s s' : paging) (P C i k w : Z) : Prop :=
  (∀ q, page (phys s') q =
     if decide (q = pt_page s P i ∨ q = pt_page s C i) then (page (phys s) q).[k <- w] else page (phys s) q) ∧
  aspaces s' = aspaces s ∧ heap s' = heap s.

Section share.
Context (P C : Z) (s s' : paging) (i k w : Z) (Hpo : pair_ok s P C).
Context (Hi : 0 ≤ i < 768) (Hk : 0 ≤ k < 1024) (Hw : is_u32 w).
Context (Hpr : present s P i = true).
Context (HoP : paging_is_owned_pt s P i = true) (HoC : paging_is_owned_pt s C i = true).
Context (Heff : pair_write s s' P C i k w).

Lemma share_aspace b : aspace s' b = aspace s b.
Proof. unfold aspace. destruct Heff as (_ & -> & _). done. Qed.

Lemma share_presC : present s C i = true.
Proof. by rewrite (pair_same_present s P C) by (done || lia). Qed.

Lemma share_page q : q ≠ pt_page s P i → q ≠ pt_page s C i → page (phys s') q = page (phys s) q.
Proof. intros H1 H2. destruct Heff as (-> & _). by rewrite decide_False by tauto. Qed.

Lemma share_pde b j : b = P ∨ b = C → pde s' b j = pde s b j.
Proof.
  intros Hb. unfold pde. rewrite share_aspace, share_page; [done|..]; pose proof share_presC; destruct Hb as [->| ->].
  - apply not_eq_sym. apply (ao_tables s P (po_P _ _ _ Hpo) i ltac:(lia) Hpr).
  - apply not_eq_sym. by apply (po_pt_P _ _ _ Hpo); [lia|].
  - apply not_eq_sym. by apply (po_pt_C _ _ _ Hpo); [lia|].
  - apply not_eq_sym. by apply (ao_tables s C (po_C _ _ _ Hpo) i ltac:(lia)).
Qed.

Lemma share_pt b j : b = P ∨ b = C → pt_page s' b j = pt_page s b j.
Proof. intros Hb. unfold pt_page. by rewrite share_pde. Qed.

Lemma share_present b j : b = P ∨ b = C → present s' b j = present s b j.
Proof. intros Hb. unfold present. by rewrite share_pde. Qed.

(** Entry [(i, k)] of both is [w], the others are as before. *)
Lemma share_pte_at b j l :
  b = P ∨ b = C → 0 ≤ j < 1024 → 0 ≤ l < 1024 → present s b j = true →
  pte s' b j l = if decide (j = i ∧ l = k) then w else pte s b j l.
Proof.
  intros Hb Hj Hl Hp. unfold pte. rewrite share_pt by done. destruct Heff as (-> & _).
  destruct (po_mem _ _ _ Hpo) as [Hm _]. destruct (Hm (pt_page s b j)) as [Hlen _].
  assert (Hiff : (pt_page s b j = pt_page s P i ∨ pt_page s b j = pt_page s C i) ↔ j = i).
  { pose proof share_presC as HpC. destruct Hb as [->| ->]; split.
    - intros [E|E].
      + symmetry. by apply (ao_unique s P (po_P _ _ _ Hpo) i j).
      + destruct (po_own_C _ _ _ Hpo i j Hi Hj HoC HpC Hp). done.
    - intros ->. by left.
    - intros [E|E].
      + destruct (decide (i = j)); [done|]. by destruct (po_own_P _ _ _ Hpo i j Hi Hj HoP Hpr Hp).
      + symmetry. by apply (ao_unique s C (po_C _ _ _ Hpo) i j).
    - intros ->. by right. }
  destruct (decide (j = i)) as [->|Hne].
  - rewrite decide_True by tauto. rewrite aget_aset by lia.
    destruct (decide (k = l)) as [->|]; [by rewrite decide_True|by rewrite decide_False by naive_solver].
  - rewrite decide_False by tauto. by rewrite decide_False by tauto.
Qed.

Lemma share_as_ok b : b = P ∨ b = C → as_ok s' b.
Proof.
  intros Hb. assert (Hok : as_ok s b) by (destruct Hb as [->| ->]; apply Hpo).
  destruct Hok as [Hptr Hpd Hlen Htab Hun]. destruct Heff as (_ & Has & Hhp).
  split; rewrite ?Hhp, ?share_aspace; try done.
  - intros j Hj. rewrite share_present, share_pt by done. by apply Htab.
  - intros i' j Hi' Hj. unfold paging_is_owned_pt. rewrite share_aspace, !share_present, !share_pt by done.
    fold (paging_is_owned_pt s b i'). by apply Hun.
Qed.

Lemma share_pair_ok : pair_ok s' P C.
Proof.
  pose proof Hpo as [[Hm Hh] HP HC Hne HptP HptC HownP HownC Hlow Hsame]. destruct Heff as (Hpg & Has & Hhp).
  assert (Ho : ∀ b j, paging_is_owned_pt s' b j = paging_is_owned_pt s b j).
  { intros b j. unfold paging_is_owned_pt. by rewrite share_aspace. }
  split; rewrite ?share_aspace; try done.
  - split; [|by rewrite Hhp]. intros q. rewrite Hpg. destruct (Hm q).
    case_decide; [|done]. split; [by rewrite alen_aset|by apply Forall_aset].
  - by apply share_as_ok; left.
  - by apply share_as_ok; right.
  - intros j Hj. rewrite share_present, share_pt by (by left). by apply HptP.
  - intros j Hj. rewrite share_present, share_pt by (by right). by apply HptC.
  - intros i' j Hi' Hj. rewrite Ho, (share_present P), (share_present C), (share_pt P), (share_pt C) by tauto.
    by apply HownP.
  - intros i' j Hi' Hj. rewrite Ho, (share_present P), (share_present C), (share_pt P), (share_pt C) by tauto.
    by apply HownC.
  - intros j Hj. rewrite !share_pde by tauto. by apply Hlow.
  - intros j l Hj Hl. rewrite share_present by tauto. intros Hp.
    rewrite !share_pte_at by (tauto || done || by rewrite (pair_same_present s P C)).
    case_decide; [done|by apply Hsame].
Qed.
End share.

(** The counts after a step: contiguous if they were, no entry lost. *)
Definition cow_grows (c c' : list cow_meta) : Prop :=
  (∃ n, compact c n) →
  (∃ n, compact c' n) ∧ ∀ f, frame_addr f → is_Some (shared c f) → is_Some (shared c' f).

Lemma cow_grows_refl c : cow_grows c c.
Proof. intros Hc. split; [done|]. done. Qed.

Lemma cow_updated_grows c c' f refs owned :
  cow_updated c c' f refs owned → cow_grows c c' ∧ (frame_addr f → is_Some (shared c' f)).
Proof.
  intros [Hc Hs]. split.
  - intros _. split; [done|]. intros g Hg Hsg. rewrite Hs by done. case_decide; [by eexists|done].
  - intros Hf. rewrite Hs, decide_True by done. by eexists.
Qed.

Lemma lookup_pair s P C b va i :
  pair_ok s P C → b = P ∨ b = C → i = pd_index va → 0 ≤ i < 1024 → present s b i = true →
  paging_aspace_lookup_pte b va s = Ok (KERNEL_VIRTUAL_BASE + pt_page s b i, pt_index va).
Proof.
  intros Hpo Hb -> Hi Hp. assert (Hok : as_ok s b) by (destruct Hb as [->| ->]; apply Hpo).
  pose proof (ao_ptr s b Hok). unfold paging_aspace_lookup_pte. rewrite (proj2 (Z.eqb_neq b 0)) by lia.
  rewrite (vread_pd s b _ Hok). fold (present s b (pd_index va)). rewrite Hp. cbn [negb]. cbv zeta.
  fold (pt_page s b (pd_index va)). by rewrite phys_to_virt_ok by apply (ao_tables s b Hok _ Hi Hp).
Qed.

Lemma pair_write_same s P C i k :
  pair_ok s P C → 0 ≤ i < 1024 → 0 ≤ k < 1024 → present s P i = true →
  pair_write s s P C i k (pte s P i k).
Proof.
  intros Hpo Hi Hk Hp. split; [|done]. intros q. destruct (po_mem _ _ _ Hpo) as [Hm _]. destruct (Hm q) as [Hl _].
  case_decide as Hq; [|done]. symmetry. destruct Hq as [->| ->].
  - unfold pte. apply aset_id. lia.
  - rewrite <- (po_same s P C Hpo i k Hi Hk Hp). unfold pte. apply aset_id. lia.
Qed.

Lemma pair_write_child s P C i k w :
  pair_ok s P C → 0 ≤ i < 1024 → 0 ≤ k < 1024 → present s P i = true → w = pte s P i k →
  pair_write s (vwrite (KERNEL_VIRTUAL_BASE + pt_page s C i) k w s) P C i k w.
Proof.
  intros Hpo Hi Hk Hp ->. destruct (pair_write_same s P C i k Hpo Hi Hk Hp) as (Hw & _).
  split; [|done]. intros q. rewrite <- Hw. unfold vwrite. cbn [set_phys phys]. rewrite Z.add_simpl_l, page_write.
  case_decide; [subst|done]. rewrite <- (po_same s P C Hpo i k Hi Hk Hp). unfold pte. apply aset_id.
  destruct (po_mem _ _ _ Hpo) as [Hm _]. destruct (Hm (pt_page s C i)) as [Hl _]. lia.
Qed.

Lemma pair_write_both s P C i k w c :
  pt_page s P i ≠ pt_page s C i →
  pair_write s (vwrite (KERNEL_VIRTUAL_BASE + pt_page s C i) k w
                 (vwrite (KERNEL_VIRTUAL_BASE + pt_page s P i) k w (set_cow c s))) P C i k w.
Proof.
  intros Hne. split; [|done]. intros q. unfold vwrite. cbn [set_phys set_cow phys].
  rewrite !Z.add_simpl_l, !page_write.
  destruct (decide (pt_page s C i = q)) as [HC|HC], (decide (pt_page s P i = q)) as [HP|HP]; try congruence.
  - rewrite <- HC, decide_False by congruence. by rewrite decide_True by (by right).
  - rewrite <- HP. by rewrite decide_True by (by left).
  - by rewrite decide_False by (intros [?|?]; congruence).
Qed.

(** One page of the loop. *)
Lemma clone_page_pair s P C va :
  pair_ok s P C → is_u32 va →
  let i := pd_index va in let k := pt_index va in
  0 ≤ i < 768 → present s P i = true → paging_is_owned_pt s P i = true → paging_is_owned_pt s C i = true →
  match clone_page P C va s with
  | (Err _, _) => True
  | (Ok _, s') => pair_write s s' P C i k (share_pte (pte s P i k)) ∧ cow_grows (g_cow_meta s) (g_cow_meta s') ∧
      ((∃ n, compact (g_cow_meta s) n) → is_shareable (pte s P i k) = true →
       is_Some (shared (g_cow_meta s') (Z.land (pte s P i k) PAGE_MASK)))
  end.
Proof.
  intros Hpo Hva i k Hi Hp HoP HoC. pose proof (pt_index_bound va) as Hk. fold k in Hk.
  assert (HpC : present s C i = true) by (by rewrite (pair_same_present s P C) by (done || lia)).
  assert (Hne : pt_page s P i ≠ pt_page s C i).
  { apply not_eq_sym, (po_own_C s P C Hpo i i); try done; lia. }
  pose proof (pte_u32 s P i k (po_mem _ _ _ Hpo) Hk) as Hu.
  assert (Hfa : frame_addr (Z.land (pte s P i k) PAGE_MASK)) by (split; [by apply frame_u32|by apply frame_aligned]).
  unfold clone_page. rewrite (lookup_pair s P C P va i), (lookup_pair s P C C va i) by (tauto || done || lia).
  fold k. unfold vread. rewrite Z.add_simpl_l. fold (pte s P i k). set (w := pte s P i k) in *.
  unfold share_pte, is_shareable. cbv zeta.
  destruct (flag w PAGING_PAGE_FLAG_PRESENT) eqn:E1; cbn [negb orb andb].
  2: { split_and!; [by apply pair_write_same; try done; lia|apply cow_grows_refl|done]. }
  destruct (flag w PAGING_PAGE_FLAG_USER) eqn:E2; cbn [negb orb andb].
  2: { split_and!; [by apply pair_write_same; try done; lia|apply cow_grows_refl|done]. }
  destruct (flag w PAGING_PAGE_FLAG_COW) eqn:E3; cbn [orb].
  - destruct (paging_cow_inc_ref (Z.land w PAGE_MASK) (g_cow_meta s)) as [[u|e] c] eqn:Ec; [|done].
    split; [by apply pair_write_both|]. cbn [vwrite set_phys set_cow g_cow_meta].
    assert (Hinc : ∀ n, compact (g_cow_meta s) n → cow_grows (g_cow_meta s) c ∧ is_Some (shared c (Z.land w PAGE_MASK))).
    { intros n Hn. pose proof (inc_ref_cases _ n _ Hn Hfa) as H. rewrite Ec in H.
      destruct H as (refs & owned & _ & H). apply cow_updated_grows in H as [H1 H2]. split; [done|by apply H2]. }
    split; [intros [n Hn]; destruct (Hinc n Hn) as [H _]; apply H; by exists n|].
    intros [n Hn] _. by apply (Hinc n Hn).
  - destruct (flag w PAGING_PAGE_FLAG_WRITABLE) eqn:E4.
    + destruct (paging_cow_set_refs (Z.land w PAGE_MASK) 2 (flag w PAGING_PAGE_FLAG_OWNED) (g_cow_meta s)) as [[u|e] c] eqn:Ec; [|done].
      split; [by apply pair_write_both|]. cbn [vwrite set_phys set_cow g_cow_meta].
      assert (Hset : ∀ n, compact (g_cow_meta s) n → cow_grows (g_cow_meta s) c ∧ is_Some (shared c (Z.land w PAGE_MASK))).
      { intros n Hn. pose proof (set_refs_cases _ n _ 2 (flag w PAGING_PAGE_FLAG_OWNED) Hn Hfa ltac:(unfold two32; lia)) as H.
        rewrite Ec in H. apply cow_updated_grows in H as [H1 H2]. split; [done|by apply H2]. }
      split; [intros [n Hn]; destruct (Hset n Hn) as [H _]; apply H; by exists n|].
      intros [n Hn] _. by apply (Hset n Hn).
    + split_and!; [apply pair_write_child; try done; lia|apply cow_grows_refl|done].
Qed.

(** * All pages *)

Lemma share_pte_facts w :
  is_u32 w →
  is_shareable (share_pte w) = is_shareable w ∧ Z.land (share_pte w) PAGE_MASK = Z.land w PAGE_MASK.
Proof.
  intros Hw. unfold share_pte. destruct (is_shareable w) eqn:E; [|done].
  destruct (cow_pte_spec w (flag w PAGING_PAGE_FLAG_OWNED) Hw) as (_ & Hf & _ & Hp & Hus & _ & Hc & _).
  split; [|done]. unfold is_shareable in *. rewrite Hp, Hus, Hc. by apply andb_true_iff in E as [-> _].
Qed.

(** Entry [l] of table [j] belongs to a page that has been visited. *)
Definition visited (vas : list Z) (j l : Z) : Prop := Exists (λ va, pd_index va = j ∧ pt_index va = l) vas.

#[export] Instance visited_dec vas j l : Decision (visited vas j l).
Proof. unfold visited. apply _. Defined.

Lemma visited_snoc vas va j l :
  visited (vas ++ [va]) j l ↔ visited vas j l ∨ (j = pd_index va ∧ l = pt_index va).
Proof.
  unfold visited. rewrite Exists_app, Exists_cons, Exists_nil. naive_solver.
Qed.

(** The state of the loop after the pages [vas], started in [s0]. *)
Record cloned (s0 s : paging) (P C : Z) (vas : list Z) : Prop := {
  cl_pair : pair_ok s P C;
  cl_same : aspaces s = aspaces s0 ∧ heap s = heap s0;
  cl_pde : ∀ b j, b = P ∨ b = C → pde s b j = pde s0 b j;
  cl_pte : ∀ j l, 0 ≤ j < 1024 → 0 ≤ l < 1024 → present s0 P j = true →
    pte s P j l = if decide (visited vas j l) then share_pte (pte s0 P j l) else pte s0 P j l;
  cl_page : ∀ q, (∀ b j, b = P ∨ b = C → 0 ≤ j < 768 → present s0 b j = true →
      paging_is_owned_pt s0 b j = true → q ≠ pt_page s0 b j) → page (phys s) q = page (phys s0) q;
  cl_cow : cow_grows (g_cow_meta s0) (g_cow_meta s);
  cl_shared : (∃ n, compact (g_cow_meta s0) n) → ∀ j l, 0 ≤ j < 1024 → 0 ≤ l < 1024 →
    present s0 P j = true → visited vas j l → is_shareable (pte s0 P j l) = true →
    is_Some (shared (g_cow_meta s) (Z.land (pte s0 P j l) PAGE_MASK))
}.

Lemma cloned_start s P C : pair_ok s P C → cloned s s P C [].
Proof.
  intros Hpo. split; try done.
  intros _ j l _ _ _ Hv. unfold visited in Hv. by rewrite Exists_nil in Hv.
Qed.

Lemma cloned_present s0 s P C vas b j : cloned s0 s P C vas → b = P ∨ b = C → present s b j = present s0 b j.
Proof. intros Hc Hb. unfold present. by rewrite (cl_pde _ _ _ _ _ Hc). Qed.

Lemma cloned_pt s0 s P C vas b j : cloned s0 s P C vas → b = P ∨ b = C → pt_page s b j = pt_page s0 b j.
Proof. intros Hc Hb. unfold pt_page. by rewrite (cl_pde _ _ _ _ _ Hc). Qed.

Lemma cloned_owned s0 s P C vas b j : cloned s0 s P C vas → paging_is_owned_pt s b j = paging_is_owned_pt s0 b j.
Proof. intros Hc. unfold paging_is_owned_pt, aspace. by destruct (cl_same _ _ _ _ _ Hc) as [-> _]. Qed.

(** Growing is transitive. *)
Lemma cow_grows_trans c1 c2 c3 : cow_grows c1 c2 → cow_grows c2 c3 → cow_grows c1 c3.
Proof.
  intros H1 H2 Hc. destruct (H1 Hc) as [Hc2 Hk1]. destruct (H2 Hc2) as [Hc3 Hk2]. split; [done|].
  intros f Hf Hs. by apply Hk2, Hk1.
Qed.

Lemma clone_page_step s0 s P C vas va :
  pair_ok s0 P C → cloned s0 s P C vas → is_u32 va →
  0 ≤ pd_index va < 768 → present s0 P (pd_index va) = true →
  paging_is_owned_pt s0 P (pd_index va) = true → paging_is_owned_pt s0 C (pd_index va) = true →
  match clone_page P C va s with
  | (Err _, _) => True
  | (Ok _, s') => cloned s0 s' P C (vas ++ [va])
  end.
Proof.
  intros Hpo0 Hc Hva Hi Hp HoP HoC. set (i := pd_index va) in *. pose proof (pt_index_bound va) as Hk.
  set (k := pt_index va) in *. pose proof (cl_pair _ _ _ _ _ Hc) as Hpo.
  rewrite <- (cloned_present s0 s P C vas) in Hp by tauto. rewrite <- (cloned_owned s0 s P C vas) in HoP, HoC by done.
  pose proof (clone_page_pair s P C va Hpo Hva Hi Hp HoP HoC) as Hcase. cbv zeta in Hcase. fold i k in Hcase.
  destruct (clone_page P C va s) as [[u|e] s']; [|done]. destruct Hcase as (Heff & Hgr & Hsh).
  pose proof (pte_u32 s P i k (po_mem _ _ _ Hpo) Hk) as Hu. pose proof (share_pte_u32 _ Hu) as Huw.
  pose proof (share_pair_ok P C s s' i k _ Hpo Hi Hk Huw Hp HoP HoC Heff) as Hpo'.
  assert (Hpk : present s0 P i = true) by (by rewrite <- (cloned_present s0 s P C vas) by tauto).
  assert (Hu0 : is_u32 (pte s0 P i k)) by (apply pte_u32; [apply Hpo0|done]).
  assert (Hpte : pte s P i k = pte s0 P i k ∨ pte s P i k = share_pte (pte s0 P i k)).
  { rewrite (cl_pte _ _ _ _ _ Hc i k) by (done || lia). case_decide; [by right|by left]. }
  assert (Hf : is_shareable (pte s P i k) = is_shareable (pte s0 P i k) ∧
               Z.land (pte s P i k) PAGE_MASK = Z.land (pte s0 P i k) PAGE_MASK ∧
               share_pte (pte s P i k) = share_pte (pte s0 P i k)).
  { destruct Hpte as [-> | ->]; [done|]. destruct (share_pte_facts _ Hu0). by rewrite share_pte_idem. }
  destruct Hf as (Hf1 & Hf2 & Hf3).
  split; [done|..].
  - destruct Heff as (_ & -> & ->). apply (cl_same _ _ _ _ _ Hc).
  - intros b j Hb. rewrite (share_pde P C s s' i k (share_pte (pte s P i k))) by done. by apply (cl_pde _ _ _ _ _ Hc).
  - intros j l Hj Hl Hpj.
    rewrite (share_pte_at P C s s' i k (share_pte (pte s P i k))) by
      (done || tauto || by rewrite (cloned_present s0 s P C vas) by tauto).
    rewrite (cl_pte _ _ _ _ _ Hc j l) by done. rewrite Hf3.
    destruct (decide (visited (vas ++ [va]) j l)) as [Hv|Hv]; rewrite visited_snoc in Hv; fold i k in Hv;
      destruct (decide (j = i ∧ l = k)) as [[-> ->]|Hn]; try done; try tauto;
      destruct (decide (visited vas j l)); tauto || done.
  - intros q Hq. destruct Heff as (-> & _). rewrite decide_False; [by apply (cl_page _ _ _ _ _ Hc)|].
    rewrite !(cloned_pt s0 s P C vas) by tauto. rewrite (cloned_owned s0 s P C vas) in HoP, HoC by done.
    assert (HpC : present s0 C i = true) by (by rewrite (pair_same_present s0 P C) by (done || lia)).
    intros [E|E]; revert E; [apply (Hq P)|apply (Hq C)]; first [by left|by right|done].
  - by apply (cow_grows_trans _ (g_cow_meta s)); [apply (cl_cow _ _ _ _ _ Hc)|].
  - intros Hcomp j l Hj Hl Hpj Hv Hs. destruct (cl_cow _ _ _ _ _ Hc Hcomp) as [Hcs _].
    destruct (Hgr Hcs) as [_ Hkeep]. apply visited_snoc in Hv as [Hv|[-> ->]].
    + apply Hkeep; [|by apply (cl_shared _ _ _ _ _ Hc)].
      assert (is_u32 (pte s0 P j l)) by (apply pte_u32; [apply Hpo0|done]).
      split; [by apply frame_u32|by apply frame_aligned].
    + fold i k in Hs |- *. rewrite <- Hf2. apply Hsh; [done|]. by rewrite Hf1.
Qed.

Definition range_vas (rs : list user_range) : list Z :=
  rs ≫= λ r, if ur_size r =? 0 then [] else range_pages r.

Lemma clone_ranges_pages P C rs s :
  each (clone_range P C) rs s = each (clone_page P C) (range_vas rs) s.
Proof.
  revert s. induction rs as [|r rs IH]; intros s; [done|].
  change (range_vas (r :: rs)) with ((if ur_size r =? 0 then [] else range_pages r) ++ range_vas rs).
  rewrite each_app. cbn [each]. unfold clone_range at 1. destruct (ur_size r =? 0); [apply IH|].
  destruct (each _ (range_pages r) s) as [[u|e] s']; [apply IH|done].
Qed.

Lemma range_vas_elem rs va :
  va ∈ range_vas rs ↔ ∃ r, r ∈ rs ∧ ur_size r ≠ 0 ∧ va ∈ range_pages r.
Proof.
  unfold range_vas. rewrite list_elem_of_bind. split.
  - intros (r & Hva & Hr). exists r. destruct (Z.eqb_spec (ur_size r) 0); [by apply elem_of_nil in Hva|done].
  - intros (r & Hr & Hs & Hva). exists r. by rewrite (proj2 (Z.eqb_neq _ 0)).
Qed.

Lemma range_vas_u32 rs va : ranges_u32 rs → va ∈ range_vas rs → is_u32 va.
Proof.
  intros Hrs (r & Hr & _ & Hva)%range_vas_elem. unfold ranges_u32 in Hrs. rewrite Forall_forall in Hrs.
  destruct (Hrs r Hr). by apply (range_pages_in r va).
Qed.

Lemma clone_ranges_cloned s0 P C rs :
  pair_ok s0 P C → ranges_u32 rs → owned_for s0 P rs → owned_for s0 C rs →
  match each (clone_range P C) rs s0 with
  | (Err _, _) => True
  | (Ok _, s') => cloned s0 s' P C (range_vas rs)
  end.
Proof.
  intros Hpo Hrs HP HC. rewrite clone_ranges_pages.
  pose proof (each_ind (clone_page P C) (λ dn s, cloned s0 s P C dn) (λ _ _ _, True) (range_vas rs) s0
    (cloned_start _ _ _ Hpo)) as H.
  lapply H; [clear H; intros H; by destruct (each (clone_page P C) _ _) as [[u|e] s']|].
  intros dn va s [k Hpre] Hc.
  assert (Hin : va ∈ range_vas rs) by (rewrite Hpre, !elem_of_app; left; right; by apply list_elem_of_singleton).
  pose proof (range_vas_u32 rs va Hrs Hin) as Hva. apply range_vas_elem in Hin as (r & Hr & Hs & Hin).
  destruct (HP r va Hr Hs Hin) as (Hi & Hp & HoP). destruct (HC r va Hr Hs Hin) as (_ & _ & HoC).
  pose proof (clone_page_step s0 s P C dn va Hpo Hc Hva Hi Hp HoP HoC) as Hstep.
  by destruct (clone_page P C va s) as [[u|e] s'].
Qed.

(** * The start: a directory of its own with the parent's entries *)

Definition child_record (pd : Z) : address_space :=
  AddressSpace (KERNEL_VIRTUAL_BASE + pd) pd (replicate 24 0) false.

Lemma alloc_aspace_cases s :
  heap_in_window (heap s) →
  let '(C, s') := paging_alloc_aspace s in
  C ≠ 0 →
  ∃ pd, page_addr pd ∧ ¬ held_page (heap s) (KERNEL_VIRTUAL_BASE + pd) ∧
    held_page (heap s') (KERNEL_VIRTUAL_BASE + pd) ∧
    (∀ v, held_page (heap s) v → held_page (heap s') v) ∧ heap_in_window (heap s') ∧
    small_ptr (heap s) ≤ C < small_ptr (heap s') ∧ 0 < C ∧
    phys s' = <[pd := zero_page]> (phys s) ∧ g_cow_meta s' = g_cow_meta s ∧
    ∀ b, aspace s' b = if decide (C = b) then child_record pd else aspace s b.
Proof.
  intros (Hh & Hb & He). unfold paging_alloc_aspace.
  pose proof (kmalloc_cases (heap s) sizeof_address_space Hh ltac:(unfold sizeof_address_space, two32; lia)) as H.
  pose proof (kmalloc_fixed sizeof_address_space (heap s)) as [Hfb Hfe].
  destruct (kmalloc sizeof_address_space (heap s)) as [C h]. cbn [snd] in Hfb, Hfe.
  destruct H as (Hw & [[-> ->]|[Hnz _ [Hlo Hhi] Hsm _ Hkept Hown]]); [by rewrite Z.eqb_refl|].
  rewrite decide_True in Hown by (unfold sizeof_address_space; lia). unfold sizeof_address_space in Hown.
  rewrite (proj2 (Z.eqb_neq C 0)) by done. set (s1 := set_aspace C _ (set_heap h s)).
  assert (Hwin : heap_in_window (heap s1)) by (unfold heap_in_window; cbn [s1 set_aspace set_aspaces set_heap heap]; by rewrite Hfb, Hfe).
  pose proof (kmalloc_page_cases s1 Hwin) as Hk. pose proof (kmalloc_page_small s1) as Hs2.
  destruct (kmalloc_page s1) as [v s2]. cbn [snd] in Hs2.
  destruct Hk as [[-> ->]|(Hs2e & Hnv & Hpa & Hw2 & Hb2 & He2 & Hlo2 & Hhi2 & Hfr & Hkept2 & Hown2)]; [by rewrite Z.eqb_refl|].
  rewrite (proj2 (Z.eqb_neq v 0)), virt_to_phys_ok by done. intros _. exists (v - KERNEL_VIRTUAL_BASE).
  change (heap s1) with h in *.
  replace (KERNEL_VIRTUAL_BASE + (v - KERNEL_VIRTUAL_BASE)) with v by lia.
  cbn [set_aspace set_aspaces vfill set_phys heap phys g_cow_meta].
  assert (Hheld : ∀ u, held_page (heap s) u → held_page (heap s2) u).
  { intros u Hu. apply (held_kept h); try done. by apply (held_kept (heap s)). }
  split_and!; try done; try lia.
  - intros Hh'. assert (Hh2 : held_page h v) by (by apply (held_kept (heap s))).
    by apply (fresh_not_held h v v Hlo2 Hhi2 Hfr Hh2).
  - by right; right.
  - unfold KERNEL_VIRTUAL_BASE in Hb. lia.
  - rewrite Hs2e. done.
  - rewrite Hs2e. done.
  - intros b. unfold aspace, set_aspace. cbn [set_aspaces aspaces vfill set_phys]. unfold child_record.
    replace (KERNEL_VIRTUAL_BASE + (v - KERNEL_VIRTUAL_BASE)) with v by lia.
    rewrite Hs2e. cbn [set_heap aspaces s1 set_aspace set_aspaces].
    case_decide; [subst; by rewrite lookup_insert_eq|by rewrite !lookup_insert_ne].
Qed.

(** The state after the copy of the directory, as seen from before the fork. *)
Record started (s s' : paging) (P C : Z) : Prop := {
  st_pd : pd_phys (aspace s' P) = pd_phys (aspace s P);
  st_fresh : ¬ held_page (heap s) (KERNEL_VIRTUAL_BASE + pd_phys (aspace s' C));
  st_held : ∀ v, held_page (heap s) v → held_page (heap s') v;
  st_page : ∀ q, held_page (heap s) (KERNEL_VIRTUAL_BASE + q) → page (phys s') q = page (phys s) q;
  st_owned : ∀ j, 0 ≤ j < 768 → paging_is_owned_pt s' P j = paging_is_owned_pt s P j ∧
    paging_is_owned_pt s' C j = false;
  st_cow : g_cow_meta s' = g_cow_meta s
}.

Lemma started_pde s s' P C j : as_ok s P → started s s' P C → pde s' P j = pde s P j.
Proof.
  intros Ha Hs. unfold pde. rewrite (st_pd _ _ _ _ Hs), (st_page _ _ _ _ Hs); [done|].
  destruct (ao_pd s P Ha) as (_ & <- & Hh). done.
Qed.

Lemma started_pte s s' P C j k :
  as_ok s P → started s s' P C → 0 ≤ j < 1024 → present s P j = true → pte s' P j k = pte s P j k.
Proof.
  intros Ha Hs Hj Hp. unfold pte, pt_page. rewrite (started_pde s s' P C) by done.
  rewrite (st_page _ _ _ _ Hs); [done|]. by apply (ao_tables s P Ha j Hj).
Qed.

Lemma pair_start s P :
  mem_ok s → as_ok s P →
  let '(C, s1) := paging_alloc_aspace s in
  C ≠ 0 →
  let s2 := vfill (pd_virt (aspace s1 C)) (vpage (pd_virt (aspace s1 P)) s1) s1 in
  pair_ok s2 P C ∧ started s s2 P C.
Proof.
  intros Hmem Ha. pose proof (alloc_aspace_cases s (proj2 Hmem)) as H. pose proof Ha as [Hptr (Hpd & Hpv & Hpdh) Hlen Htab Hun].
  destruct (paging_alloc_aspace s) as [C s1]. intros HC.
  destruct (H HC) as (pd & Hpa & Hfr & Hnow & Hheld & Hwin & HCl & HC0 & Hph & Hcow & Hasp). clear H.
  rewrite Hasp, decide_True by done. cbn [child_record pd_virt].
  assert (HneP : C ≠ P) by lia. assert (HaP : aspace s1 P = aspace s P) by (by rewrite Hasp, decide_False).
  rewrite HaP. set (s2 := vfill _ _ s1). cbv zeta.
  assert (Hnh : ∀ q, held_page (heap s) (KERNEL_VIRTUAL_BASE + q) → pd ≠ q) by (intros q Hq <-; done).
  assert (HpdP : pd ≠ pd_phys (aspace s P)) by (apply Hnh; by rewrite <- Hpv).
  assert (Hpg : ∀ q, page (phys s2) q = if decide (pd = q) then page (phys s) (pd_phys (aspace s P)) else page (phys s) q).
  { intros q. unfold s2, vfill, vpage. cbn [set_phys phys]. rewrite Hpv, !Z.add_simpl_l, page_insert, Hph.
    case_decide; rewrite page_insert, decide_False by done; done. }
  assert (Has : ∀ b, aspace s2 b = if decide (C = b) then child_record pd else aspace s b) by exact Hasp.
  assert (HasP : aspace s2 P = aspace s P) by exact HaP.
  assert (HasC : aspace s2 C = child_record pd) by (by rewrite Has, decide_True).
  assert (HC2 : ∀ j, 0 ≤ j < 768 → paging_is_owned_pt s2 C j = false).
  { intros j Hj. unfold paging_is_owned_pt. rewrite (proj2 (Z.eqb_neq C 0)), (proj2 (low_index j)) by lia.
    rewrite HasC. cbn [orb negb child_record owned_pt_words].
    assert (0 ≤ j / 32 < 24) by (split; [apply Z.div_pos; lia|apply Z.div_lt_upper_bound; lia]).
    rewrite aget_replicate by lia. unfold test_bit. by rewrite Z.land_0_l. }
  assert (Hst : started s s2 P C).
  { split; rewrite ?HasP, ?HasC; try done.
    - intros q Hq. by rewrite Hpg, decide_False by (by apply Hnh).
    - intros j Hj. split; [|by apply HC2]. unfold paging_is_owned_pt. by rewrite HasP. }
  split; [|done].
  assert (HpdeP : ∀ j, pde s2 P j = pde s P j) by (intros j; by apply (started_pde s s2 P C)).
  assert (HpdeC : ∀ j, pde s2 C j = pde s P j).
  { intros j. unfold pde. rewrite HasC. cbn [child_record pd_phys]. by rewrite Hpg, decide_True. }
  assert (HprP : ∀ j, present s2 P j = present s P j) by (intros j; unfold present; by rewrite HpdeP).
  assert (HprC : ∀ j, present s2 C j = present s P j) by (intros j; unfold present; by rewrite HpdeC).
  assert (HptP : ∀ j, pt_page s2 P j = pt_page s P j) by (intros j; unfold pt_page; by rewrite HpdeP).
  assert (HptC : ∀ j, pt_page s2 C j = pt_page s P j) by (intros j; unfold pt_page; by rewrite HpdeC).
  assert (Htpd : ∀ j, 0 ≤ j < 1024 → present s P j = true → pt_page s P j ≠ pd).
  { intros j Hj Hp. apply not_eq_sym, Hnh. by apply (Htab j Hj). }
  split; rewrite ?HasP, ?HasC; cbn [child_record pd_phys]; try done.
  - split; [|exact Hwin]. destruct Hmem as [Hm _]. intros q. rewrite Hpg. case_decide; apply Hm.
  - split; rewrite ?HasP; try done.
    + change (heap s2) with (heap s1). lia.
    + split_and!; [done..|]. by apply Hheld.
    + intros j Hj. rewrite HprP, HptP. intros Hp. destruct (Htab j Hj Hp) as (H1 & H2 & H3).
      split_and!; [done|by apply Hheld|done].
    + intros i j Hi Hj. destruct (st_owned _ _ _ _ Hst i Hi) as [-> _]. rewrite !HprP, !HptP. by apply Hun.
  - split; rewrite ?HasC; cbn [child_record pd_phys pd_virt owned_pt_words]; try done.
    + change (heap s2) with (heap s1). lia.
    + intros j Hj. rewrite HprC, HptC. intros Hp. destruct (Htab j Hj Hp) as (H1 & H2 & H3).
      split_and!; [done|by apply Hheld|by apply Htpd].
    + intros i j Hi Hj. by rewrite HC2.
  - intros j Hj. rewrite HprP, HptP. by apply Htpd.
  - intros j Hj. rewrite HprC, HptC. by apply Htab.
  - intros i j Hi Hj. destruct (st_owned _ _ _ _ Hst i Hi) as [-> _]. rewrite HprP, HprC, HptP, HptC.
    intros Ho Hp1 Hp2 Hij E. apply Hij. by apply Hun.
  - intros i j Hi Hj. by rewrite HC2.
  - intros j Hj. by rewrite HpdeP, HpdeC.
  - intros j k Hj Hk _. unfold pte. by rewrite HptP, HptC.
Qed.

(** * The whole fork *)

Lemma visited_ranges rs x :
  ranges_u32 rs → visited (range_vas rs) (pd_index x) (pt_index x) ↔ in_ranges rs x.
Proof.
  intros Hrs. unfold ranges_u32 in Hrs. rewrite Forall_forall in Hrs.
  unfold visited, in_ranges. rewrite !Exists_exists. split.
  - intros (va & (r & Hr & Hs & Hva)%range_vas_elem & Hi & Hk). exists r. split; [done|].
    destruct (Hrs r Hr) as [Hb _]. apply (in_range_page r va x Hb); [by apply index_page_inj|].
    split; [done|]. by apply (range_pages_in r va Hb).
  - intros (r & Hr & Hs & Hx). destruct (Hrs r Hr) as [Hb _].
    destruct (range_pages_cover r x Hb Hx) as (va & Hva & E). exists va.
    split; [apply range_vas_elem; by exists r|]. by apply page_index.
Qed.

Lemma in_ranges_owned s a rs x :
  ranges_u32 rs → owned_for s a rs → in_ranges rs x →
  0 ≤ pd_index x < 768 ∧ present s a (pd_index x) = true ∧ paging_is_owned_pt s a (pd_index x) = true.
Proof.
  intros Hrs Ho Hx. apply (visited_ranges rs x Hrs) in Hx. unfold visited in Hx. rewrite Exists_exists in Hx.
  destruct Hx as (va & (r & Hr & Hs & Hva)%range_vas_elem & <- & _). by apply (Ho r).
Qed.

(** What the states of a successful fork have to do with each other. *)
Record forked (s s' : paging) (P C : Z) (rs : list user_range) : Prop := {
  fk_mid : ∃ s2 s3, started s s2 P C ∧ kept s2 s3 P C ∧ pair_ok s2 P C ∧ pair_ok s3 P C ∧
    owned_for s3 P rs ∧ owned_for s3 C rs ∧ cloned s3 s' P C (range_vas rs)
}.

Lemma owned_for_kept P C a s s' rs :
  a = P ∨ a = C → pair_ok s P C → pair_ok s' P C → kept s s' P C → owned_for s a rs → owned_for s' a rs.
Proof.
  intros Ha Hpo Hpo' Hk Ho r va Hr Hs Hva. destruct (Ho r va Hr Hs Hva) as (Hi & Hp & Hw).
  split; [done|]. by apply (owned_kept P C a Ha s s').
Qed.

Lemma load_page_directory_cloned s0 s P C vas d :
  cloned s0 s P C vas → cloned s0 (load_page_directory d s) P C vas.
Proof.
  intros [[Hmem HP HC Hne HptP HptC HoP HoC Hlow Hsame] H1 H2 H3 H4 H5 H6].
  split; try done. split; try done; [by destruct HP|by destruct HC].
Qed.

Lemma clone_cases s P rs :
  mem_ok s → as_ok s P → ranges_u32 rs →
  match paging_clone_address_space_cow P rs s with
  | (Err _, _) => True
  | (Ok C, s') => forked s s' P C rs
  end.
Proof.
  intros Hmem Ha Hrs. unfold paging_clone_address_space_cow.
  destruct ((P =? 0) || bool_decide (rs = [])); [done|].
  pose proof (pair_start s P Hmem Ha) as H. destruct (paging_alloc_aspace s) as [C s1].
  destruct (Z.eqb_spec C 0) as [_|HC]; [done|]. destruct (H HC) as [Hpo2 Hst]. clear H.
  set (s2 := vfill _ _ s1) in *. cbv zeta.
  pose proof (private_ranges_pair P C P ltac:(by left) s2 rs Hpo2 Hrs) as H3.
  destruct (paging_clone_user_pts_for_ranges P rs s2) as [[u|e] s3]; [|done].
  destruct H3 as (Hpo3 & Hk3 & Ho3).
  pose proof (private_ranges_pair P C C ltac:(by right) s3 rs Hpo3 Hrs) as H4.
  destruct (paging_clone_user_pts_for_ranges C rs s3) as [[v|e] s4]; [|done].
  destruct H4 as (Hpo4 & Hk4 & Ho4). destruct (paging_clone_preflight_cow P rs s4); [|done].
  assert (HoP : owned_for s4 P rs) by (apply (owned_for_kept P C P s3 s4); try done; by left).
  pose proof (clone_ranges_cloned s4 P C rs Hpo4 Hrs HoP Ho4) as H5.
  destruct (each (clone_range P C) rs s4) as [[w|e] s5]; [|done].
  split. exists s2, s4. split_and!; try done; [by apply (kept_trans s2 s3)|].
  case_match; [by apply load_page_directory_cloned|done].
Qed.

Section forked.
Context (s s' : paging) (P C : Z) (rs : list user_range).
Context (Hmem : mem_ok s) (Ha : as_ok s P) (Hrs : ranges_u32 rs) (Hf : forked s s' P C rs).

Lemma forked_pair : pair_ok s' P C.
Proof. destruct Hf as [(s2 & s3 & _ & _ & _ & _ & _ & _ & Hc)]. apply (cl_pair _ _ _ _ _ Hc). Qed.

Lemma forked_low j : 0 ≤ j < 1024 → Z.land (pde s' P j) 4095 = Z.land (pde s P j) 4095.
Proof.
  intros Hj. destruct Hf as [(s2 & s3 & Hst & Hk & _ & _ & _ & _ & Hc)].
  rewrite (cl_pde _ _ _ _ _ Hc) by (by left). rewrite (kp_low _ _ _ _ Hk) by done.
  by rewrite (started_pde s s2 P C).
Qed.

Lemma forked_present j : 0 ≤ j < 1024 → present s' P j = present s P j.
Proof. intros Hj. unfold present. apply same_low_flags. by apply forked_low. Qed.

(** The parent's entries: those of the ranges are shared. *)
Lemma forked_pte x :
  is_u32 x → present s P (pd_index x) = true →
  pte s' P (pd_index x) (pt_index x) =
    (let w := pte s P (pd_index x) (pt_index x) in if decide (in_ranges rs x) then share_pte w else w).
Proof.
  intros Hx Hp. pose proof (pd_index_bound x Hx) as Hi. pose proof (pt_index_bound x) as Hk'.
  destruct Hf as [(s2 & s3 & Hst & Hk & _ & _ & _ & _ & Hc)].
  assert (Hp2 : present s2 P (pd_index x) = true) by (unfold present; by rewrite (started_pde s s2 P C)).
  assert (Hp3 : present s3 P (pd_index x) = true) by (by rewrite (kept_present s2 s3 P C)).
  rewrite (cl_pte _ _ _ _ _ Hc), (kp_pte _ _ _ _ Hk), (started_pte s s2 P C) by done. cbv zeta.
  pose proof (visited_ranges rs x Hrs). destruct (decide (visited _ _ _)), (decide (in_ranges rs x)); tauto || done.
Qed.

(** The frames in use that are neither the parent's directory nor tables of its
    own. *)
Definition bystander (q : Z) : Prop :=
  held_page (heap s) (KERNEL_VIRTUAL_BASE + q) ∧ q ≠ pd_phys (aspace s P) ∧
  ∀ j, 0 ≤ j < 768 → present s P j = true → paging_is_owned_pt s P j = true → q ≠ pt_page s P j.

Lemma forked_bystander q : bystander q → page (phys s') q = page (phys s) q.
Proof.
  intros (Hq & Hnpd & Hnt). destruct Hf as [(s2 & s3 & Hst & Hk & Hpo2 & _ & _ & _ & Hc)].
  rewrite <- (st_page _ _ _ _ Hst) by done. rewrite (cl_page _ _ _ _ _ Hc).
  - apply (kp_page _ _ _ _ Hk); [by apply (st_held _ _ _ _ Hst)|by rewrite (st_pd _ _ _ _ Hst)|].
    intros ->. by apply (st_fresh _ _ _ _ Hst).
  - intros b j Hb Hj Hp Ho E.
    destruct (kp_table _ _ _ _ Hk b j Hb Hj Hp Ho) as [(Hp2 & Ho2 & Ept)|Hn].
    + destruct (st_owned _ _ _ _ Hst j Hj) as [EoP EoC]. destruct Hb as [->| ->]; [|by rewrite EoC in Ho2].
      apply (Hnt j Hj); [|by rewrite <- EoP|].
      * revert Hp2. unfold present. by rewrite (started_pde s s2 P C).
      * rewrite E, Ept. unfold pt_page. by rewrite (started_pde s s2 P C).
    + apply Hn. rewrite <- E. by apply (st_held _ _ _ _ Hst).
Qed.

Lemma forked_tables x :
  in_ranges rs x →
  0 ≤ pd_index x < 768 ∧ pt_page s' P (pd_index x) ≠ pt_page s' C (pd_index x).
Proof.
  intros Hx. destruct Hf as [(s2 & s3 & _ & _ & _ & _ & HoP & HoC & Hc)].
  destruct (in_ranges_owned s3 P rs x Hrs HoP Hx) as (Hi & HpP & _).
  destruct (in_ranges_owned s3 C rs x Hrs HoC Hx) as (_ & HpC & HoC3).
  split; [done|]. apply not_eq_sym. apply (po_own_C _ _ _ forked_pair); try done; try lia.
  - by rewrite (cloned_owned s3 s' P C (range_vas rs)).
  - rewrite (cloned_present s3 s' P C (range_vas rs)) by (done || by right). done.
  - rewrite (cloned_present s3 s' P C (range_vas rs)) by (done || by left). done.
Qed.

Lemma forked_counts n :
  compact (g_cow_meta s) n →
  (∃ m, compact (g_cow_meta s') m) ∧
  (∀ f, frame_addr f → is_Some (shared (g_cow_meta s) f) → is_Some (shared (g_cow_meta s') f)) ∧
  ∀ x, is_u32 x → in_ranges rs x → is_shareable (pte s P (pd_index x) (pt_index x)) = true →
    is_Some (shared (g_cow_meta s') (Z.land (pte s P (pd_index x) (pt_index x)) PAGE_MASK)).
Proof.
  intros Hn. destruct Hf as [(s2 & s3 & Hst & Hk & _ & Hpo3 & HoP & _ & Hc)].
  pose proof (kp_cow _ _ _ _ Hk) as E3. rewrite (st_cow _ _ _ _ Hst) in E3.
  destruct (cl_cow _ _ _ _ _ Hc) as [Hm Hg]; [rewrite E3; by exists n|]. rewrite E3 in Hg.
  split_and!; [done..|]. intros x Hx Hin Hsh.
  destruct (in_ranges_owned s3 P rs x Hrs HoP Hin) as (Hi & Hp3 & _).
  assert (Hp2 : present s2 P (pd_index x) = true) by (by rewrite <- (kept_present s2 s3 P C) by (done || lia)).
  assert (Hp : present s P (pd_index x) = true).
  { revert Hp2. unfold present. by rewrite (started_pde s s2 P C). }
  assert (Hpte : pte s3 P (pd_index x) (pt_index x) = pte s P (pd_index x) (pt_index x)).
  { rewrite (kp_pte _ _ _ _ Hk) by (done || lia || apply pt_index_bound).
    by rewrite (started_pte s s2 P C) by (done || lia). }
  rewrite <- Hpte. apply (cl_shared _ _ _ _ _ Hc); try done; try lia.
  - rewrite E3. by exists n.
  - apply pt_index_bound.
  - by apply visited_ranges.
  - by rewrite Hpte.
Qed.
End forked.

(** What the parent sees after a fork: the pages of the ranges that user mode
    can reach are read-only. *)
Definition fork_view (s : paging) (P : Z) (rs : list user_range) (x : Z) : option (Z * bool * bool) :=
  match translate (phys s) (pd_phys (aspace s P)) x with
  | Some (y, u, w) =>
      Some (y, u, w && negb (bool_decide (in_ranges rs x) &&
                             flag (pte s P (pd_index x) (pt_index x)) PAGING_PAGE_FLAG_USER))
  | None => None
  end.

(** The view of an entry that may have been shared. *)
Lemma share_pte_view w : is_u32 w → let v := share_pte w in
  flag v PAGING_PAGE_FLAG_PRESENT = flag w PAGING_PAGE_FLAG_PRESENT ∧
  Z.land v PAGE_MASK = Z.land w PAGE_MASK ∧
  flag v PAGING_PAGE_FLAG_USER = flag w PAGING_PAGE_FLAG_USER ∧
  (flag w PAGING_PAGE_FLAG_PRESENT = true →
   flag v PAGING_PAGE_FLAG_WRITABLE =
     flag w PAGING_PAGE_FLAG_WRITABLE && negb (flag w PAGING_PAGE_FLAG_USER)).
Proof.
  intros Hw. cbv zeta. unfold share_pte. destruct (is_shareable w) eqn:E; unfold is_shareable in E.
  - destruct (cow_pte_spec w (flag w PAGING_PAGE_FLAG_OWNED) Hw) as (_ & Hf & _ & Hp & Hus & Hwr & _).
    split_and!; try done. intros _. rewrite Hwr. apply andb_true_iff in E as [E _].
    apply andb_true_iff in E as [_ ->]. by rewrite andb_false_r.
  - split_and!; try done. intros Hp. rewrite Hp in E. cbn [andb] in E.
    destruct (flag w PAGING_PAGE_FLAG_USER), (flag w PAGING_PAGE_FLAG_COW), (flag w PAGING_PAGE_FLAG_WRITABLE); done.
Qed.

Section fork_view.
Context (s s' : paging) (P C : Z) (rs : list user_range).
Context (Hmem : mem_ok s) (Ha : as_ok s P) (Hrs : ranges_u32 rs) (Hf : forked s s' P C rs).

Lemma forked_child_view x :
  is_u32 x → translate (phys s') (pd_phys (aspace s' C)) x = translate (phys s') (pd_phys (aspace s' P)) x.
Proof.
  intros Hx. pose proof (pd_index_bound x Hx) as Hi. pose proof (pt_index_bound x) as Hk.
  pose proof (forked_pair s s' P C rs Hf) as Hpo. rewrite !translate_pte.
  destruct (same_low_flags _ _ (po_low _ _ _ Hpo (pd_index x) Hi)) as (Hp & Hu & Hw).
  unfold present in *. rewrite Hp, Hu, Hw. destruct (flag (pde s' P (pd_index x)) PAGING_PAGE_FLAG_PRESENT) eqn:E; [|done].
  by rewrite (po_same _ _ _ Hpo (pd_index x) (pt_index x) Hi Hk E).
Qed.

Lemma forked_parent_view x :
  is_u32 x → translate (phys s') (pd_phys (aspace s' P)) x = fork_view s P rs x.
Proof.
  intros Hx. pose proof (pd_index_bound x Hx) as Hi. pose proof (pt_index_bound x) as Hk.
  unfold fork_view. rewrite !translate_pte. rewrite (forked_present s s' P C rs Ha Hf) by done.
  destruct (same_low_flags _ _ (forked_low s s' P C rs Ha Hf (pd_index x) Hi)) as (_ & Hu & Hw).
  rewrite Hu, Hw. destruct (present s P (pd_index x)) eqn:Hp; [|done].
  rewrite (forked_pte s s' P C rs Ha Hrs Hf) by done. cbv zeta.
  pose proof (share_pte_view _ (pte_u32 s P (pd_index x) (pt_index x) Hmem Hk)) as (V1 & V2 & V3 & V4).
  set (w := pte s P (pd_index x) (pt_index x)) in *.
  destruct (decide (in_ranges rs x)) as [Hin|Hin].
  - rewrite V1, V2, V3, bool_decide_true by done. destruct (flag w PAGING_PAGE_FLAG_PRESENT); [|done].
    rewrite V4 by done. cbn [andb]. by rewrite andb_assoc.
  - rewrite bool_decide_false by done. destruct (flag w PAGING_PAGE_FLAG_PRESENT); [|done].
    cbn [andb negb]. by rewrite andb_true_r.
Qed.
End fork_view.

(** C23: [paging_clone_address_space_cow] forks: when it succeeds, parent and
    child see the same memory at every address; the parent sees what it saw
    before, except that the user pages of the given ranges can no longer be
    written; through the ranges the two go by page tables of their own; no
    frame in use is changed but the parent's directory and its own tables; and
    every page that the fork made shared has an entry among the counts, which
    lose none. *)
Theorem paging_clone_spec s P rs :
  mem_ok s → as_ok s P → ranges_u32 rs →
  match paging_clone_address_space_cow P rs s with
  | (Err _, _) => True
  | (Ok C, s') =>
      pair_ok s' P C ∧
      (∀ x, is_u32 x →
         translate (phys s') (pd_phys (aspace s' C)) x = translate (phys s') (pd_phys (aspace s' P)) x ∧
         translate (phys s') (pd_phys (aspace s' P)) x = fork_view s P rs x) ∧
      (∀ x, in_ranges rs x → pt_page s' P (pd_index x) ≠ pt_page s' C (pd_index x)) ∧
      (∀ q, bystander s P q → page (phys s') q = page (phys s) q) ∧
      ∀ n, compact (g_cow_meta s) n →
        (∃ m, compact (g_cow_meta s') m) ∧
        (∀ f, frame_addr f → is_Some (shared (g_cow_meta s) f) → is_Some (shared (g_cow_meta s') f)) ∧
        ∀ x, is_u32 x → in_ranges rs x → is_shareable (pte s P (pd_index x) (pt_index x)) = true →
          is_Some (shared (g_cow_meta s') (Z.land (pte s P (pd_index x) (pt_index x)) PAGE_MASK))
  end.
Proof.
  intros Hmem Ha Hrs. pose proof (clone_cases s P rs Hmem Ha Hrs) as Hf.
  destruct (paging_clone_address_space_cow P rs s) as [[C|e] s']; [|done]. split_and!.
  - by apply (forked_pair s s' P C rs).
  - intros x Hx. split; [by apply (forked_child_view s s' P C rs)|by apply (forked_parent_view s s' P C rs)].
  - intros x Hx. by apply (forked_tables s s' P C rs).
  - intros q Hq. by apply (forked_bystander s s' P C rs).
  - intros n Hn. by apply (forked_counts s s' P C rs Ha Hrs Hf n).
Qed.

(** The space of [cow_demo] with a second page that it can write. *)
Definition fork_demo : paging := vwrite (KERNEL_VIRTUAL_BASE + 8192) 2 (20480 + 7) cow_demo.
Definition fork_demo_ranges : list user_range := [UserRange 20975616 8192].

Lemma fork_demo_pde j : 0 ≤ j < 1024 → pde fork_demo 5000 j = if decide (5 = j) then 8199 else 0.
Proof.
  intros Hj. unfold pde. change (page (phys fork_demo) _) with (zero_page.[5 <- 8199]).
  rewrite aget_aset by (done || lia). case_decide; [done|]. by apply (aget_replicate 1024).
Qed.

Lemma fork_demo_mem : mem_ok fork_demo.
Proof.
  split; [|exact boot_heap_ok]. apply mem_wf_write; [|vm_compute; split; congruence].
  apply (cw_mem _ _ _ _ _ cow_demo_page).
Qed.

Lemma fork_demo_ok : as_ok fork_demo 5000.
Proof.
  split.
  - vm_compute. split; congruence.
  - split; [vm_compute; split_and!; congruence|]. split; [reflexivity|].
    apply cow_demo_held. vm_compute. congruence.
  - reflexivity.
  - intros j Hj. unfold present, pt_page. rewrite fork_demo_pde by done. case_decide; [|done]. intros _.
    split; [vm_compute; split_and!; congruence|]. split; [|vm_compute; congruence].
    apply cow_demo_held. vm_compute. congruence.
  - intros i j Hi Hj _. unfold present. rewrite !fork_demo_pde by lia. by repeat case_decide; subst.
Qed.

Lemma paging_clone_spec_witness :
  match paging_clone_address_space_cow 5000 fork_demo_ranges fork_demo with
  | (Err _, _) => False
  | (Ok C, s') =>
      translate (phys s') (pd_phys (aspace s' C)) 20979717 = Some (20485, true, false) ∧
      page (phys s') 20480 = page (phys fork_demo) 20480 ∧
      is_Some (shared (g_cow_meta s') 20480)
  end.
Proof.
  assert (Hrs : ranges_u32 fork_demo_ranges) by (apply Forall_singleton; vm_compute; split_and!; congruence).
  assert (Hin : in_ranges fork_demo_ranges 20979717).
  { apply (bool_decide_unpack (in_ranges fork_demo_ranges 20979717)). vm_compute. exact I. }
  assert (Hv : fork_view fork_demo 5000 fork_demo_ranges 20979717 = Some (20485, true, false)).
  { unfold fork_view.
    assert (Ht : translate (phys fork_demo) (pd_phys (aspace fork_demo 5000)) 20979717 = Some (20485, true, true))
      by (vm_compute; reflexivity).
    rewrite Ht, bool_decide_true by exact Hin. reflexivity. }
  assert (Hok : is_ok (fst (paging_clone_address_space_cow 5000 fork_demo_ranges fork_demo)) = true) by (vm_compute; reflexivity).
  pose proof (paging_clone_spec fork_demo 5000 fork_demo_ranges fork_demo_mem fork_demo_ok Hrs) as H.
  destruct (paging_clone_address_space_cow 5000 fork_demo_ranges fork_demo) as [[C|e] s']; [|discriminate Hok].
  destruct H as (_ & Hview & _ & Hkeep & Hcow).
  assert (Hx : is_u32 20979717) by (unfold two32; lia).
  destruct (Hview 20979717 Hx) as [E1 E2]. split; [by rewrite E1, E2|]. split.
  - apply Hkeep. split; [apply cow_demo_held; vm_compute; congruence|]. split; [vm_compute; congruence|].
    intros j Hj Hp Ho. unfold present in Hp. rewrite fork_demo_pde in Hp by lia.
    destruct (decide (5 = j)) as [<-|]; [|done]. vm_compute in Ho. congruence.
  - destruct (Hcow 2 cow_demo_compact) as (_ & _ & Hsh). apply (Hsh 20979717 Hx Hin). vm_compute. reflexivity.
Defined.
