(* ===== verification/UserMem.v ===== *)
(** The memory as the kernel's own code reaches it: [memset] and [memcpy] of
    kernel/utils.c through the page tables in force.

    A physical memory of words ([phys] of Paging.v) is read and written by
    bytes.  An access goes through the directory in cr3 once paging is on; the
    kernel runs in ring 0, so the user flag does not matter, and a page without
    the writable flag stops it only when CR0.WP is set.  The kernel never
    writes that bit ([paging_enable] sets PG alone), so it is what the boot
    loader left, a parameter [wp].  An access that faults ends in the kernel's
    panic ([isr_page_fault] resolves faults of user mode only): [None]. *)

From S2P Require Import Prelude Bytes Pmm Kmalloc Paging PagingMap.

(** * Bytes of the physical memory *)

Definition page_of (a : Z) : Z := a / 4096 * 4096.
Definition word_of (a : Z) : Z := a mod 4096 / 4.

Definition load8 (ph : gmap Z (list Z)) (a : Z) : Z := cget (le32 (page ph (page_of a)).[word_of a]) (a mod 4).

Definition set_byte (w k b : Z) : Z := de32 (overlay (le32 w) k [b]) 0.

Definition store8 (a b : Z) (ph : gmap Z (list Z)) : gmap Z (list Z) :=
  write_word (page_of a) (word_of a) (set_byte (page ph (page_of a)).[word_of a] (a mod 4) b) ph.

(** * Accesses of the kernel *)

Definition cpu_translate (s : paging) (va : Z) : option (Z * bool * bool) :=
  if paging_enabled_flag s then translate (phys s) (cr3 s) va else Some (va, true, true).

Definition kload (va : Z) (s : paging) : option Z :=
  '(pa, _, _) ← cpu_translate s va; Some (load8 (phys s) pa).

Definition kstore (wp : bool) (va b : Z) (s : paging) : option paging :=
  '(pa, _, w) ← cpu_translate s va;
  if wp && negb w then None else Some (set_phys (store8 pa b (phys s)) s).

(** [memset((void * )va, c, n)] *)
Fixpoint memset (wp : bool) (va c : Z) (n : nat) (s : paging) : option paging :=
  match n with
  | O => Some s
  | S n' => s' ← kstore wp va c s; memset wp (add32 va 1) c n' s'
  end.

(** [memcpy((void * )va, bs, n)] with [bs] the [n] source bytes. *)
Fixpoint memcpy_to (wp : bool) (va : Z) (bs : list Z) (s : paging) : option paging :=
  match bs with
  | [] => Some s
  | b :: bs' => s' ← kstore wp va b s; memcpy_to wp (add32 va 1) bs' s'
  end.

(** [memcpy(dst, (const void * )va, n)]: the bytes. *)
Fixpoint memcpy_from (va : Z) (n : nat) (s : paging) : option (list Z) :=
  match n with
  | O => Some []
  | S n' => b ← kload va s; bs ← memcpy_from (add32 va 1) n' s; Some (b :: bs)
  end.

(** [memcpy((void * )dst, (const void * )src, n)] *)
Fixpoint memcpy (wp : bool) (dst src : Z) (n : nat) (s : paging) : option paging :=
  match n with
  | O => Some s
  | S n' => b ← kload src s; s' ← kstore wp dst b s; memcpy wp (add32 dst 1) (add32 src 1) n' s'
  end.

(** * Bytes *)

Lemma page_word_inj a b : page_of a = page_of b → word_of a = word_of b → a mod 4 = b mod 4 → a = b.
Proof.
  unfold page_of, word_of. intros H1 H2 H3.
  pose proof (Z.div_mod a 4096 ltac:(lia)). pose proof (Z.div_mod b 4096 ltac:(lia)).
  pose proof (Z.div_mod (a mod 4096) 4 ltac:(lia)). pose proof (Z.div_mod (b mod 4096) 4 ltac:(lia)).
  assert (Hm : ∀ x, (x mod 4096) mod 4 = x mod 4).
  { intros x. apply Z.mod_mod_divide. by exists 1024. }
  rewrite !Hm in *. lia.
Qed.

Lemma word_of_range a : 0 ≤ word_of a < 1024.
Proof.
  unfold word_of. pose proof (Z.mod_pos_bound a 4096 ltac:(lia)).
  split; [apply Z.div_pos; lia|apply Z.div_lt_upper_bound; lia].
Qed.

Lemma set_byte_cget w k b j :
  0 ≤ k < 4 → 0 ≤ b < 256 → 0 ≤ j < 4 →
  cget (le32 (set_byte w k b)) j = if decide (k = j) then b else cget (le32 w) j.
Proof.
  intros Hk Hb Hj. unfold set_byte.
  assert (Ho : ∀ i, 0 ≤ i < 4 → cget (overlay (le32 w) k [b]) i = if decide (k = i) then b else cget (le32 w) i).
  { intros i Hi. rewrite cget_overlay by (rewrite ?alen_le32; unfold alen; simpl; lia).
    destruct (decide (k = i)) as [->|Hne].
    - rewrite decide_True by (unfold alen; simpl; lia). by rewrite Z.sub_diag.
    - by rewrite decide_False by (unfold alen; simpl; lia). }
  rewrite le32_de32; [rewrite Z.add_0_l; by apply Ho|done|].
  intros i Hi. rewrite Z.add_0_l, Ho by done. case_decide; [done|]. apply le32_bytes. lia.
Qed.

Lemma set_byte_u32 w k b : 0 ≤ k < 4 → 0 ≤ b < 256 → is_u32 (set_byte w k b).
Proof.
  intros Hk Hb. unfold set_byte, de32, two32.
  assert (H : ∀ i, 0 ≤ i → 0 ≤ cget (overlay (le32 w) k [b]) i < 256).
  { intros i Hi. rewrite cget_overlay by (rewrite ?alen_le32; unfold alen; simpl; lia).
    case_decide as Hd; [|by apply le32_bytes]. unfold alen in Hd; simpl in Hd.
    replace (i - k) with 0 by lia. done. }
  pose proof (H 0 ltac:(lia)). pose proof (H 1 ltac:(lia)). pose proof (H 2 ltac:(lia)). pose proof (H 3 ltac:(lia)).
  rewrite !Z.add_0_l. lia.
Qed.

Lemma load8_store8 ph a b x :
  mem_wf ph → 0 ≤ b < 256 → load8 (store8 a b ph) x = if decide (a = x) then b else load8 ph x.
Proof.
  intros Hm Hb. unfold load8, store8. rewrite page_write.
  pose proof (word_of_range a). pose proof (word_of_range x). destruct (Hm (page_of a)) as [Hl _].
  pose proof (Z.mod_pos_bound a 4 ltac:(lia)). pose proof (Z.mod_pos_bound x 4 ltac:(lia)).
  destruct (decide (page_of a = page_of x)) as [Ep|Ep].
  - rewrite aget_aset by lia. destruct (decide (word_of a = word_of x)) as [Ew|Ew].
    + rewrite set_byte_cget by done. rewrite Ep, Ew.
      destruct (decide (a mod 4 = x mod 4)) as [Eb|Eb].
      * by rewrite decide_True by (by apply page_word_inj).
      * by rewrite decide_False by (intros ->; done).
    + rewrite decide_False by (intros ->; done). by rewrite Ep.
  - by rewrite decide_False by (intros ->; done).
Qed.

Lemma store8_page ph a b q : page_of a ≠ q → page (store8 a b ph) q = page ph q.
Proof. intros Hq. unfold store8. by rewrite page_write, decide_False. Qed.

Lemma store8_wf ph a b : mem_wf ph → 0 ≤ b < 256 → mem_wf (store8 a b ph).
Proof.
  intros Hm Hb. unfold store8. apply mem_wf_write; [done|]. apply set_byte_u32; [|done].
  apply Z.mod_pos_bound. lia.
Qed.

Lemma load8_byte ph a : 0 ≤ load8 ph a < 256.
Proof. unfold load8. apply le32_bytes. apply Z.mod_pos_bound. lia. Qed.

(** * Windows

    A range of virtual addresses whose accesses succeed: every address has a
    byte of its own in memory ([m] says where), outside the page tables in
    force, so that stores do not change what addresses mean. *)
Definition is_table (s : paging) (q : Z) : Prop :=
  q = cr3 s ∨ ∃ i, 0 ≤ i < 1024 ∧ flag (page (phys s) (cr3 s)).[i] PAGING_PAGE_FLAG_PRESENT = true ∧
                   q = Z.land (page (phys s) (cr3 s)).[i] PAGE_MASK.

Record window (wp : bool) (s : paging) (m : Z → Z) (lo hi : Z) : Prop := {
  wn_mem : mem_wf (phys s);
  wn_bounds : 0 ≤ lo ∧ hi ≤ two32;
  wn_map : ∀ a, lo ≤ a < hi → ∃ u w, cpu_translate s a = Some (m a, u, w) ∧ (wp = true → w = true);
  wn_inj : ∀ a b, lo ≤ a < hi → lo ≤ b < hi → m a = m b → a = b;
  wn_table : ∀ a, lo ≤ a < hi → paging_enabled_flag s = true → ¬ is_table s (page_of (m a))
}.

(** [s'] is [s] after writes to the window; [P a] is the byte written to the
    address [a], if any. *)
Record wrote (wp : bool) (m : Z → Z) (lo hi : Z) (P : Z → option Z) (s s' : paging) : Prop := {
  wr_state : s' = set_phys (phys s') s;
  wr_new : ∀ a, lo ≤ a < hi → load8 (phys s') (m a) = default (load8 (phys s) (m a)) (P a);
  wr_old : ∀ pa, (∀ a, lo ≤ a < hi → is_Some (P a) → pa ≠ m a) → load8 (phys s') pa = load8 (phys s) pa;
  wr_page : ∀ q, (∀ a, lo ≤ a < hi → is_Some (P a) → page_of (m a) ≠ q) → page (phys s') q = page (phys s) q;
  wr_window : window wp s' m lo hi;
  wr_trans : ∀ va, is_u32 va → cpu_translate s' va = cpu_translate s va
}.

Section window.
Context (wp : bool) (m : Z → Z) (lo hi : Z).
Implicit Types (s : paging) (P : Z → option Z).

Lemma store_translate s a b va :
  window wp s m lo hi → lo ≤ a < hi → is_u32 va →
  cpu_translate (set_phys (store8 (m a) b (phys s)) s) va = cpu_translate s va.
Proof.
  intros Hw Ha Hva. unfold cpu_translate. cbn [set_phys paging_enabled_flag phys cr3].
  destruct (paging_enabled_flag s) eqn:E; [|done].
  pose proof (wn_table _ _ _ _ _ Hw a Ha E) as Ht. unfold is_table in Ht.
  pose proof (pd_index_bound va Hva) as Hi.
  assert (Hpd : page (store8 (m a) b (phys s)) (cr3 s) = page (phys s) (cr3 s)) by (apply store8_page; tauto).
  unfold translate, mmu_walk. rewrite Hpd.
  destruct (flag (page (phys s) (cr3 s)).[pd_index va] PAGING_PAGE_FLAG_PRESENT) eqn:Ep; [|done].
  rewrite store8_page; [done|]. intros Eq. apply Ht. right. by exists (pd_index va).
Qed.

Lemma wrote_refl s : window wp s m lo hi → wrote wp m lo hi (λ _, None) s s.
Proof. intros Hw. split; try done. by destruct s. Qed.

Lemma kstore_wrote s a b :
  window wp s m lo hi → lo ≤ a < hi → 0 ≤ b < 256 →
  ∃ s', kstore wp a b s = Some s' ∧ wrote wp m lo hi (λ x, if decide (a = x) then Some b else None) s s'.
Proof.
  intros Hw Ha Hb. destruct (wn_map _ _ _ _ _ Hw a Ha) as (u & w & Et & Hwr).
  pose proof (wn_mem _ _ _ _ _ Hw) as Hm. exists (set_phys (store8 (m a) b (phys s)) s).
  assert (Htr : ∀ va, is_u32 va → cpu_translate (set_phys (store8 (m a) b (phys s)) s) va = cpu_translate s va)
    by (intros; by apply store_translate).
  split.
  { unfold kstore. rewrite Et. simpl. destruct wp; [by rewrite Hwr|done]. }
  split; cbn [set_phys phys]; try done.
  - intros x Hx. rewrite load8_store8 by done. case_decide as Hd.
    + apply (wn_inj _ _ _ _ _ Hw) in Hd; [|done..]. subst. by rewrite decide_True.
    + rewrite decide_False by (intros ->; done). done.
  - intros pa Hpa. rewrite load8_store8 by done. rewrite decide_False; [done|].
    intros E. apply (Hpa a Ha); [|done]. by rewrite decide_True.
  - intros q Hq. apply store8_page. apply (Hq a Ha). by rewrite decide_True.
  - destruct Hw as [_ Hbd Hmap Hinj Htab]. split; try done.
    + by apply store8_wf.
    + intros x Hx. rewrite Htr by lia. by apply Hmap.
    + intros x Hx E. intros Hit. apply (Htab x Hx E). revert Hit. unfold is_table. cbn [set_phys phys cr3].
      rewrite store8_page; [done|]. intros E2. apply (Htab a Ha E). by left.
Qed.

Lemma wrote_ext s s' P Q : (∀ a, lo ≤ a < hi → P a = Q a) → wrote wp m lo hi P s s' → wrote wp m lo hi Q s s'.
Proof.
  intros E [H1 H2 H3 H4 H5 H6]. split; try done.
  - intros a Ha. by rewrite <- E, H2.
  - intros pa Hpa. apply H3. intros a Ha Hs. apply (Hpa a Ha). by rewrite <- E.
  - intros q Hq. apply H4. intros a Ha Hs. apply (Hq a Ha). by rewrite <- E.
Qed.

Lemma wrote_trans s s1 s2 P Q :
  wrote wp m lo hi P s s1 → wrote wp m lo hi Q s1 s2 →
  wrote wp m lo hi (λ a, match Q a with Some b => Some b | None => P a end) s s2.
Proof.
  intros [A1 A2 A3 A4 A5 A6] [B1 B2 B3 B4 B5 B6]. split; try done.
  - rewrite B1, A1. done.
  - intros a Ha. rewrite B2, A2 by done. by destruct (Q a).
  - intros pa Hpa. rewrite B3, A3; [done|..].
    + intros a Ha Hs. apply (Hpa a Ha). by destruct (Q a).
    + intros a Ha Hs. apply (Hpa a Ha). by destruct (Q a); [|by destruct Hs].
  - intros q Hq. rewrite B4, A4; [done|..].
    + intros a Ha Hs. apply (Hq a Ha). by destruct (Q a).
    + intros a Ha Hs. apply (Hq a Ha). by destruct (Q a); [|by destruct Hs].
  - intros va Hva. by rewrite B6, A6.
Qed.

(** The bytes [bs] at [va]. *)
Definition bytes_at (va : Z) (bs : list Z) : Z → option Z :=
  λ a, if decide (va ≤ a < va + alen bs) then Some (cget bs (a - va)) else None.

Lemma bytes_at_app va x y a :
  match bytes_at (va + alen x) y a with Some b => Some b | None => bytes_at va x a end = bytes_at va (x ++ y) a.
Proof.
  unfold bytes_at. rewrite alen_app. pose proof (alen_nonneg x). pose proof (alen_nonneg y).
  destruct (decide (va + alen x ≤ a < va + alen x + alen y)).
  - rewrite decide_True by lia. f_equal. unfold cget. rewrite lookup_app_r by (unfold alen in *; lia).
    do 2 f_equal. unfold alen. lia.
  - destruct (decide (va ≤ a < va + alen x)).
    + rewrite decide_True by lia. f_equal. unfold cget. by rewrite lookup_app_l by (unfold alen in *; lia).
    + by rewrite decide_False by lia.
Qed.

(** The two parts in the other order. *)
Lemma bytes_at_swap va x y a :
  match bytes_at va x a with Some b => Some b | None => bytes_at (va + alen x) y a end = bytes_at va (x ++ y) a.
Proof.
  rewrite <- bytes_at_app. unfold bytes_at. pose proof (alen_nonneg x).
  destruct (decide (va ≤ a < va + alen x)); [by rewrite decide_False by lia|].
  by destruct (decide (va + alen x ≤ a < va + alen x + alen y)).
Qed.

Lemma memcpy_to_wrote s va bs :
  window wp s m lo hi → lo ≤ va → va + alen bs ≤ hi → Forall (λ b, 0 ≤ b < 256) bs →
  ∃ s', memcpy_to wp va bs s = Some s' ∧ wrote wp m lo hi (bytes_at va bs) s s'.
Proof.
  intros Hw Hlo Hhi Hbs. revert s va Hw Hlo Hhi. induction Hbs as [|b bs Hb Hbs IH]; intros s va Hw Hlo Hhi.
  - exists s. split; [done|]. apply (wrote_ext s s (λ _, None)); [|by apply wrote_refl].
    intros a Ha. unfold bytes_at. rewrite decide_False; [done|]. unfold alen. simpl. lia.
  - destruct (wn_bounds _ _ _ _ _ Hw) as [H0 H1].
    assert (Hl : alen (b :: bs) = 1 + alen bs) by (unfold alen; simpl; lia). rewrite Hl in Hhi.
    pose proof (alen_nonneg bs). destruct (kstore_wrote s va b Hw ltac:(lia) Hb) as (s1 & E1 & W1).
    cbn [memcpy_to]. rewrite E1. simpl. destruct (decide (bs = [])) as [->|Hne].
    + exists s1. split; [done|]. eapply wrote_ext; [|exact W1]. intros a Ha.
      unfold bytes_at. rewrite Hl. change (alen (@nil Z)) with 0.
      destruct (decide (va = a)) as [->|]; [rewrite decide_True by lia; by rewrite Z.sub_diag|].
      by rewrite decide_False by lia.
    + assert (0 < alen bs) by (destruct bs; [done|unfold alen; simpl; lia]).
      rewrite add32_small by lia.
      destruct (IH s1 (va + 1) (wr_window _ _ _ _ _ _ _ W1) ltac:(lia) ltac:(lia)) as (s2 & E2 & W2).
      exists s2. split; [done|]. eapply wrote_ext; [|exact (wrote_trans _ _ _ _ _ W1 W2)].
      intros a Ha. unfold bytes_at. rewrite Hl. destruct (decide (va + 1 ≤ a < va + 1 + alen bs)).
      * rewrite decide_True by lia. unfold cget. replace (Z.to_nat (a - va)) with (S (Z.to_nat (a - (va + 1)))) by lia. done.
      * destruct (decide (va = a)) as [->|]; [rewrite decide_True by lia; by rewrite Z.sub_diag|].
        by rewrite decide_False by lia.
Qed.

Lemma memset_memcpy s va c n : memset wp va c n s = memcpy_to wp va (replicate n c) s.
Proof.
  revert s va. induction n as [|n IH]; intros s va; [done|]. cbn [memset memcpy_to replicate].
  destruct (kstore wp va c s) as [s1|]; [apply IH|done].
Qed.

Lemma memset_wrote s va c n :
  window wp s m lo hi → lo ≤ va → 0 ≤ n → va + n ≤ hi → 0 ≤ c < 256 →
  ∃ s', memset wp va c (Z.to_nat n) s = Some s' ∧
    wrote wp m lo hi (λ a, if decide (va ≤ a < va + n) then Some c else None) s s'.
Proof.
  intros Hw Hlo Hn Hhi Hc. rewrite memset_memcpy.
  assert (Hl : alen (replicate (Z.to_nat n) c) = n) by (rewrite alen_replicate; lia).
  destruct (memcpy_to_wrote s va (replicate (Z.to_nat n) c) Hw Hlo ltac:(lia)) as (s' & E & W).
  { by apply Forall_replicate. }
  exists s'. split; [done|]. eapply wrote_ext; [|exact W]. intros a Ha. unfold bytes_at. rewrite Hl.
  case_decide; [|done]. f_equal. unfold cget. rewrite lookup_replicate_2 by lia. done.
Qed.

(** What is read back. *)
Lemma memcpy_from_window s va n :
  window wp s m lo hi → lo ≤ va → va + n ≤ hi → 0 ≤ n →
  ∃ bs, memcpy_from va (Z.to_nat n) s = Some bs ∧ alen bs = n ∧
    ∀ k, 0 ≤ k < n → cget bs k = load8 (phys s) (m (va + k)).
Proof.
  intros Hw Hlo Hhi Hn. remember (Z.to_nat n) as k eqn:Hk. revert va n Hlo Hhi Hn Hk.
  destruct (wn_bounds _ _ _ _ _ Hw) as [H0 H1].
  induction k as [|k IH]; intros va n Hlo Hhi Hn Hk.
  { exists []. split; [done|]. split; [unfold alen; simpl; lia|]. intros; lia. }
  cbn [memcpy_from]. destruct (wn_map _ _ _ _ _ Hw va ltac:(lia)) as (u & w & Et & _).
  unfold kload at 1. rewrite Et. simpl. destruct (decide (n = 1)) as [->|Hne].
  - assert (k = 0%nat) as -> by lia. exists [load8 (phys s) (m va)]. split; [done|]. split; [done|].
    intros j Hj. replace j with 0 by lia. by rewrite Z.add_0_r.
  - rewrite add32_small by lia. destruct (IH (va + 1) (n - 1)) as (bs & Eb & Hl & Hg); try lia.
    rewrite Eb. simpl. exists (load8 (phys s) (m va) :: bs). split; [done|].
    split; [unfold alen in *; simpl; lia|]. intros j Hj. destruct (decide (j = 0)) as [->|]; [by rewrite Z.add_0_r|].
    unfold cget. replace (Z.to_nat j) with (S (Z.to_nat (j - 1))) by lia. simpl.
    change (default 0 (bs !! Z.to_nat (j - 1))) with (cget bs (j - 1)). rewrite Hg by lia. do 2 f_equal. lia.
Qed.
End window.

(** Writes to a window keep every other one. *)
Lemma window_keep wp m lo hi P s s' m' lo' hi' :
  window wp s m lo hi → wrote wp m lo hi P s s' → window wp s m' lo' hi' → window wp s' m' lo' hi'.
Proof.
  intros Hw W [_ Hb Hmap Hinj Htab]. split; try done.
  - apply (wn_mem _ _ _ _ _ (wr_window _ _ _ _ _ _ _ W)).
  - intros a Ha. rewrite (wr_trans _ _ _ _ _ _ _ W) by lia. by apply Hmap.
  - intros a Ha. rewrite (wr_state _ _ _ _ _ _ _ W). unfold is_table. cbn [set_phys paging_enabled_flag phys cr3].
    intros E. rewrite (wr_page _ _ _ _ _ _ _ W); [by apply Htab|].
    intros x Hx _ Eq. apply (wn_table _ _ _ _ _ Hw x Hx E). by left.
Qed.

(** Before paging is on, every range is a window. *)
Lemma unpaged_window wp s lo hi :
  mem_wf (phys s) → paging_enabled_flag s = false → 0 ≤ lo → hi ≤ two32 → window wp s id lo hi.
Proof.
  intros Hm He Hl Hh. split; [done|done| |done|].
  - intros a Ha. exists true, true. unfold cpu_translate. by rewrite He.
  - intros a Ha. by rewrite He.
Qed.

(** What was written is read back. *)
Lemma wrote_read wp m lo hi P s s' va bs :
  wrote wp m lo hi P s s' → lo ≤ va → va + alen bs ≤ hi →
  (∀ k, 0 ≤ k < alen bs → P (va + k) = Some (cget bs k)) → memcpy_from va (length bs) s' = Some bs.
Proof.
  intros W Hlo Hhi HP. pose proof (alen_nonneg bs).
  destruct (memcpy_from_window wp m lo hi s' va (alen bs) (wr_window _ _ _ _ _ _ _ W) Hlo Hhi ltac:(lia)) as (bs' & E & Hl & Hg).
  unfold alen in E at 1. rewrite Nat2Z.id in E. rewrite E. f_equal. apply blist_eq; [done|]. intros k Hk.
  rewrite Hg by lia. rewrite (wr_new _ _ _ _ _ _ _ W), HP by lia. done.
Qed.

Lemma cget_mid (x y z : list Z) k : 0 ≤ k < alen y → cget (x ++ y ++ z) (alen x + k) = cget y k.
Proof.
  intros Hk. unfold cget, alen in *. rewrite lookup_app_r by lia. rewrite lookup_app_l by lia. do 2 f_equal. lia.
Qed.
