(* ===== verification/Sched.v ===== *)
(** kernel/sched.c: tasks and the scheduler, with the timer interrupt of
    kernel/timer.c and the page fault handler of kernel/interrupts.c.

    [g_tasks] is a list of [SCHED_MAX_TASKS] records; a [struct task] pointer is
    an index.  The scheduler owns the kernel's memory ([mem]: page tables and
    heap, Paging.v) and the state of the file backends ([files], any backend of
    KFile.v).

    A function that switches away returns to its caller when its task runs
    again.  Only the stack pointer of a task tells where it goes on, so [t_esp]
    says what the saved stack holds: the frame of a new task
    ([InTrampoline]), or a call of [sched_context_switch] ([InSwitch]).
    [sched_switch_locked] ends with what the resumed task does first, and what
    a task does after that is a step of its own: [sched_waitpid_ex] is its loop
    body, one round per step.  A function is an [option]: [None] is a panic. *)

From S2P Require Import Prelude Bytes Pmm Kmalloc VfsNode KFile KPipe ProcFd Paging PagingMap UserMem.

Definition SCHED_MAX_TASKS : Z := 12.
Definition SCHED_TASK_NAME_MAX : Z := 16.
Definition SCHED_CMDLINE_MAX : Z := 128.
Definition SCHED_CWD_MAX : Z := 96.
Definition SCHED_DEFAULT_STACK : Z := 16384.
Definition SCHED_DEFAULT_TIMESLICE : Z := 5.
Definition SCHED_WAIT_ANY_CHILD : Z := -1.
Definition SYSCALL_WAITPID_FLAG_NOHANG : Z := 1.
Definition SYSCALL_TASK_FLAG_USER : Z := 1.
Definition SYSCALL_TASK_FLAG_EXIT_VALID : Z := 2.
Definition two64 : Z := 18446744073709551616.

(** * State *)

Inductive task_state :=
  TASK_UNUSED | TASK_RUNNABLE | TASK_RUNNING | TASK_SLEEPING | TASK_WAIT_CHILD | TASK_ZOMBIE.

Inductive task_exec_mode := TASK_EXEC_KERNEL | TASK_EXEC_USER_BOOTSTRAP.

#[export] Instance task_state_eq_dec : EqDecision task_state.
Proof. solve_decision. Defined.
#[export] Instance task_exec_mode_eq_dec : EqDecision task_exec_mode.
Proof. solve_decision. Defined.

(** What a saved stack pointer points to; [NoFrame] is a stack pointer of 0. *)
Inductive saved_ctx := NoFrame | InTrampoline | InSwitch.

(** Entry functions: the two of sched.c, and those of other files by their
    address. *)
Inductive sched_task_entry := sched_idle_task | sched_user_fork_child_entry | task_entry_at (f : Z).

#[export] Instance sched_task_entry_eq_dec : EqDecision sched_task_entry.
Proof. solve_decision. Defined.

Record user_mode_resume_ctx := ResumeCtx {
  r_eax : Z; r_ebx : Z; r_ecx : Z; r_edx : Z; r_esi : Z; r_edi : Z; r_ebp : Z;
  r_eip : Z; r_esp : Z; r_eflags : Z
}.

Record task_user_ctx := UserCtx {
  u_entry_eip : Z;
  u_entry_esp : Z;
  u_image_base : Z;
  u_image_size : Z;
  u_stack_base : Z;
  u_stack_size : Z;
  u_last_user_eip : Z;
  u_last_fault_addr : Z;
  u_last_fault_err : Z;
  u_last_syscall_nr : Z;
  u_syscall_count : Z;
  u_fault_count : Z;
  u_cmdline_len : Z;
  u_cmdline : list Z;
  u_cwd_len : Z;
  u_cwd : list Z;
  u_exit_code : Z;
  u_exit_code_valid : bool;
  u_fork_ctx : user_mode_resume_ctx;
  u_fork_ctx_valid : bool
}.

Record task := Task {
  t_pid : Z;
  t_name : list Z;
  t_state : task_state;
  t_exec_mode : task_exec_mode;
  t_esp : saved_ctx;
  t_stack_base : Z;
  t_stack_size : Z;
  t_entry : option sched_task_entry;
  t_arg : Z;
  t_wake_tick : Z;
  t_timeslice_left : Z;
  t_switches : Z;
  t_ticks_run : Z;
  t_preemptions : Z;
  t_parent_pid : Z;
  t_wait_target_pid : Z;
  t_fd_table : proc_fd_table;
  t_user : task_user_ctx;
  t_address_space : Z
}.

(** [memset(task, 0, sizeof( *task))] *)
Definition resume_zero : user_mode_resume_ctx := ResumeCtx 0 0 0 0 0 0 0 0 0 0.
Definition user_zero : task_user_ctx :=
  UserCtx 0 0 0 0 0 0 0 0 0 0 0 0 0 (replicate 128 0) 0 (replicate 96 0) 0 false resume_zero false.
Definition task_zero : task :=
  Task 0 [] TASK_UNUSED TASK_EXEC_KERNEL NoFrame 0 0 None 0 0 0 0 0 0 0 0 proc_fd_table_init user_zero 0.

#[export] Instance task_inhabited : Inhabited task := populate task_zero.

Definition set_state (x : task_state) (t : task) : task :=
  Task (t_pid t) (t_name t) x (t_exec_mode t) (t_esp t) (t_stack_base t) (t_stack_size t)
    (t_entry t) (t_arg t) (t_wake_tick t) (t_timeslice_left t) (t_switches t) (t_ticks_run t)
    (t_preemptions t) (t_parent_pid t) (t_wait_target_pid t) (t_fd_table t) (t_user t)
    (t_address_space t).
Definition set_exec_mode (x : task_exec_mode) (t : task) : task :=
  Task (t_pid t) (t_name t) (t_state t) x (t_esp t) (t_stack_base t) (t_stack_size t)
    (t_entry t) (t_arg t) (t_wake_tick t) (t_timeslice_left t) (t_switches t) (t_ticks_run t)
    (t_preemptions t) (t_parent_pid t) (t_wait_target_pid t) (t_fd_table t) (t_user t)
    (t_address_space t).
Definition set_esp (x : saved_ctx) (t : task) : task :=
  Task (t_pid t) (t_name t) (t_state t) (t_exec_mode t) x (t_stack_base t) (t_stack_size t)
    (t_entry t) (t_arg t) (t_wake_tick t) (t_timeslice_left t) (t_switches t) (t_ticks_run t)
    (t_preemptions t) (t_parent_pid t) (t_wait_target_pid t) (t_fd_table t) (t_user t)
    (t_address_space t).
Definition set_wake_tick (x : Z) (t : task) : task :=
  Task (t_pid t) (t_name t) (t_state t) (t_exec_mode t) (t_esp t) (t_stack_base t)
    (t_stack_size t) (t_entry t) (t_arg t) x (t_timeslice_left t) (t_switches t) (t_ticks_run t)
    (t_preemptions t) (t_parent_pid t) (t_wait_target_pid t) (t_fd_table t) (t_user t)
    (t_address_space t).
Definition set_timeslice (x : Z) (t : task) : task :=
  Task (t_pid t) (t_name t) (t_state t) (t_exec_mode t) (t_esp t) (t_stack_base t)
    (t_stack_size t) (t_entry t) (t_arg t) (t_wake_tick t) x (t_switches t) (t_ticks_run t)
    (t_preemptions t) (t_parent_pid t) (t_wait_target_pid t) (t_fd_table t) (t_user t)
    (t_address_space t).
Definition set_switches (x : Z) (t : task) : task :=
  Task (t_pid t) (t_name t) (t_state t) (t_exec_mode t) (t_esp t) (t_stack_base t)
    (t_stack_size t) (t_entry t) (t_arg t) (t_wake_tick t) (t_timeslice_left t) x
    (t_ticks_run t) (t_preemptions t) (t_parent_pid t) (t_wait_target_pid t) (t_fd_table t)
    (t_user t) (t_address_space t).
Definition set_ticks_run (x : Z) (t : task) : task :=
  Task (t_pid t) (t_name t) (t_state t) (t_exec_mode t) (t_esp t) (t_stack_base t)
    (t_stack_size t) (t_entry t) (t_arg t) (t_wake_tick t) (t_timeslice_left t) (t_switches t) x
    (t_preemptions t) (t_parent_pid t) (t_wait_target_pid t) (t_fd_table t) (t_user t)
    (t_address_space t).
Definition set_preemptions (x : Z) (t : task) : task :=
  Task (t_pid t) (t_name t) (t_state t) (t_exec_mode t) (t_esp t) (t_stack_base t)
    (t_stack_size t) (t_entry t) (t_arg t) (t_wake_tick t) (t_timeslice_left t) (t_switches t)
    (t_ticks_run t) x (t_parent_pid t) (t_wait_target_pid t) (t_fd_table t) (t_user t)
    (t_address_space t).
Definition set_parent_pid (x : Z) (t : task) : task :=
  Task (t_pid t) (t_name t) (t_state t) (t_exec_mode t) (t_esp t) (t_stack_base t)
    (t_stack_size t) (t_entry t) (t_arg t) (t_wake_tick t) (t_timeslice_left t) (t_switches t)
    (t_ticks_run t) (t_preemptions t) x (t_wait_target_pid t) (t_fd_table t) (t_user t)
    (t_address_space t).
Definition set_wait_target (x : Z) (t : task) : task :=
  Task (t_pid t) (t_name t) (t_state t) (t_exec_mode t) (t_esp t) (t_stack_base t)
    (t_stack_size t) (t_entry t) (t_arg t) (t_wake_tick t) (t_timeslice_left t) (t_switches t)
    (t_ticks_run t) (t_preemptions t) (t_parent_pid t) x (t_fd_table t) (t_user t)
    (t_address_space t).
Definition set_fd_table (x : proc_fd_table) (t : task) : task :=
  Task (t_pid t) (t_name t) (t_state t) (t_exec_mode t) (t_esp t) (t_stack_base t)
    (t_stack_size t) (t_entry t) (t_arg t) (t_wake_tick t) (t_timeslice_left t) (t_switches t)
    (t_ticks_run t) (t_preemptions t) (t_parent_pid t) (t_wait_target_pid t) x (t_user t)
    (t_address_space t).
Definition set_user (x : task_user_ctx) (t : task) : task :=
  Task (t_pid t) (t_name t) (t_state t) (t_exec_mode t) (t_esp t) (t_stack_base t)
    (t_stack_size t) (t_entry t) (t_arg t) (t_wake_tick t) (t_timeslice_left t) (t_switches t)
    (t_ticks_run t) (t_preemptions t) (t_parent_pid t) (t_wait_target_pid t) (t_fd_table t) x
    (t_address_space t).
Definition set_address_space (x : Z) (t : task) : task :=
  Task (t_pid t) (t_name t) (t_state t) (t_exec_mode t) (t_esp t) (t_stack_base t)
    (t_stack_size t) (t_entry t) (t_arg t) (t_wake_tick t) (t_timeslice_left t) (t_switches t)
    (t_ticks_run t) (t_preemptions t) (t_parent_pid t) (t_wait_target_pid t) (t_fd_table t)
    (t_user t) x.

#[export] Instance saved_ctx_eq_dec : EqDecision saved_ctx.
Proof. solve_decision. Defined.

(** The fields of a task's [user] that change together. *)
Definition user_layout (ib isz sb ssz : Z) (u : task_user_ctx) : task_user_ctx :=
  UserCtx (u_entry_eip u) (u_entry_esp u) ib isz sb ssz (u_last_user_eip u) (u_last_fault_addr u)
    (u_last_fault_err u) (u_last_syscall_nr u) (u_syscall_count u) (u_fault_count u) (u_cmdline_len u)
    (u_cmdline u) (u_cwd_len u) (u_cwd u) (u_exit_code u) (u_exit_code_valid u) (u_fork_ctx u) (u_fork_ctx_valid u).
Definition user_entry (eip esp : Z) (u : task_user_ctx) : task_user_ctx :=
  UserCtx eip esp (u_image_base u) (u_image_size u) (u_stack_base u) (u_stack_size u) eip (u_last_fault_addr u)
    (u_last_fault_err u) (u_last_syscall_nr u) (u_syscall_count u) (u_fault_count u) (u_cmdline_len u)
    (u_cmdline u) (u_cwd_len u) (u_cwd u) (u_exit_code u) (u_exit_code_valid u) (u_fork_ctx u) (u_fork_ctx_valid u).
Definition user_stats (eip addr err nr calls faults : Z) (u : task_user_ctx) : task_user_ctx :=
  UserCtx (u_entry_eip u) (u_entry_esp u) (u_image_base u) (u_image_size u) (u_stack_base u) (u_stack_size u)
    eip addr err nr calls faults (u_cmdline_len u)
    (u_cmdline u) (u_cwd_len u) (u_cwd u) (u_exit_code u) (u_exit_code_valid u) (u_fork_ctx u) (u_fork_ctx_valid u).
Definition user_cmdline (len : Z) (buf : list Z) (u : task_user_ctx) : task_user_ctx :=
  UserCtx (u_entry_eip u) (u_entry_esp u) (u_image_base u) (u_image_size u) (u_stack_base u) (u_stack_size u)
    (u_last_user_eip u) (u_last_fault_addr u) (u_last_fault_err u) (u_last_syscall_nr u) (u_syscall_count u)
    (u_fault_count u) len buf (u_cwd_len u) (u_cwd u) (u_exit_code u) (u_exit_code_valid u) (u_fork_ctx u)
    (u_fork_ctx_valid u).
Definition user_cwd (len : Z) (buf : list Z) (u : task_user_ctx) : task_user_ctx :=
  UserCtx (u_entry_eip u) (u_entry_esp u) (u_image_base u) (u_image_size u) (u_stack_base u) (u_stack_size u)
    (u_last_user_eip u) (u_last_fault_addr u) (u_last_fault_err u) (u_last_syscall_nr u) (u_syscall_count u)
    (u_fault_count u) (u_cmdline_len u) (u_cmdline u) len buf (u_exit_code u) (u_exit_code_valid u) (u_fork_ctx u)
    (u_fork_ctx_valid u).
Definition user_exit (code : Z) (u : task_user_ctx) : task_user_ctx :=
  UserCtx (u_entry_eip u) (u_entry_esp u) (u_image_base u) (u_image_size u) (u_stack_base u) (u_stack_size u)
    (u_last_user_eip u) (u_last_fault_addr u) (u_last_fault_err u) (u_last_syscall_nr u) (u_syscall_count u)
    (u_fault_count u) (u_cmdline_len u) (u_cmdline u) (u_cwd_len u) (u_cwd u) code true (u_fork_ctx u)
    (u_fork_ctx_valid u).
Definition user_fork (c : user_mode_resume_ctx) (u : task_user_ctx) : task_user_ctx :=
  UserCtx (u_entry_eip u) (u_entry_esp u) (u_image_base u) (u_image_size u) (u_stack_base u) (u_stack_size u)
    (u_last_user_eip u) (u_last_fault_addr u) (u_last_fault_err u) (u_last_syscall_nr u) (u_syscall_count u)
    (u_fault_count u) (u_cmdline_len u) (u_cmdline u) (u_cwd_len u) (u_cwd u) (u_exit_code u)
    (u_exit_code_valid u) c true.

Record sched (σ : Type) := Sched {
  g_tasks : list task;
  g_current_task : option Z;
  g_idle_task : option Z;
  g_bootstrap_esp : saved_ctx;
  g_next_pid : Z;
  g_rr_cursor : Z;
  g_sched_started : bool;
  g_in_scheduler : bool;
  g_context_switches : Z;
  g_idle_ticks : Z;
  g_need_resched : bool;
  g_deferred_stack_free : Z;
  g_deferred_as_free : Z;
  timer_ticks : Z;
  tss_esp0 : Z;
  mem : paging;
  files : σ
}.
Arguments Sched {σ}.
Arguments g_tasks {σ} _.
Arguments g_current_task {σ} _.
Arguments g_idle_task {σ} _.
Arguments g_bootstrap_esp {σ} _.
Arguments g_next_pid {σ} _.
Arguments g_rr_cursor {σ} _.
Arguments g_sched_started {σ} _.
Arguments g_in_scheduler {σ} _.
Arguments g_context_switches {σ} _.
Arguments g_idle_ticks {σ} _.
Arguments g_need_resched {σ} _.
Arguments g_deferred_stack_free {σ} _.
Arguments g_deferred_as_free {σ} _.
Arguments timer_ticks {σ} _.
Arguments tss_esp0 {σ} _.
Arguments mem {σ} _.
Arguments files {σ} _.

(** What the scheduler tells other parts when a task is gone: the window system
    and usermode.c. *)
Class TaskHooks (σ : Type) := {
  display_gui_notify_task_exit : Z → σ → σ;
  usermode_notify_task_reaped : Z → σ → σ
}.

Section state.
Context {σ : Type}.
Implicit Types (s : sched σ) (t : task).

Definition with_tasks (x : list task) (s : sched σ) : sched σ :=
  Sched x (g_current_task s) (g_idle_task s) (g_bootstrap_esp s) (g_next_pid s) (g_rr_cursor s)
    (g_sched_started s) (g_in_scheduler s) (g_context_switches s) (g_idle_ticks s)
    (g_need_resched s) (g_deferred_stack_free s) (g_deferred_as_free s) (timer_ticks s)
    (tss_esp0 s) (mem s) (files s).
Definition with_current (x : option Z) (s : sched σ) : sched σ :=
  Sched (g_tasks s) x (g_idle_task s) (g_bootstrap_esp s) (g_next_pid s) (g_rr_cursor s)
    (g_sched_started s) (g_in_scheduler s) (g_context_switches s) (g_idle_ticks s)
    (g_need_resched s) (g_deferred_stack_free s) (g_deferred_as_free s) (timer_ticks s)
    (tss_esp0 s) (mem s) (files s).
Definition with_bootstrap_esp (x : saved_ctx) (s : sched σ) : sched σ :=
  Sched (g_tasks s) (g_current_task s) (g_idle_task s) x (g_next_pid s) (g_rr_cursor s)
    (g_sched_started s) (g_in_scheduler s) (g_context_switches s) (g_idle_ticks s)
    (g_need_resched s) (g_deferred_stack_free s) (g_deferred_as_free s) (timer_ticks s)
    (tss_esp0 s) (mem s) (files s).
Definition with_next_pid (x : Z) (s : sched σ) : sched σ :=
  Sched (g_tasks s) (g_current_task s) (g_idle_task s) (g_bootstrap_esp s) x (g_rr_cursor s)
    (g_sched_started s) (g_in_scheduler s) (g_context_switches s) (g_idle_ticks s)
    (g_need_resched s) (g_deferred_stack_free s) (g_deferred_as_free s) (timer_ticks s)
    (tss_esp0 s) (mem s) (files s).
Definition with_cursor (x : Z) (s : sched σ) : sched σ :=
  Sched (g_tasks s) (g_current_task s) (g_idle_task s) (g_bootstrap_esp s) (g_next_pid s) x
    (g_sched_started s) (g_in_scheduler s) (g_context_switches s) (g_idle_ticks s)
    (g_need_resched s) (g_deferred_stack_free s) (g_deferred_as_free s) (timer_ticks s)
    (tss_esp0 s) (mem s) (files s).
Definition with_started (x : bool) (s : sched σ) : sched σ :=
  Sched (g_tasks s) (g_current_task s) (g_idle_task s) (g_bootstrap_esp s) (g_next_pid s)
    (g_rr_cursor s) x (g_in_scheduler s) (g_context_switches s) (g_idle_ticks s)
    (g_need_resched s) (g_deferred_stack_free s) (g_deferred_as_free s) (timer_ticks s)
    (tss_esp0 s) (mem s) (files s).
Definition with_in_scheduler (x : bool) (s : sched σ) : sched σ :=
  Sched (g_tasks s) (g_current_task s) (g_idle_task s) (g_bootstrap_esp s) (g_next_pid s)
    (g_rr_cursor s) (g_sched_started s) x (g_context_switches s) (g_idle_ticks s)
    (g_need_resched s) (g_deferred_stack_free s) (g_deferred_as_free s) (timer_ticks s)
    (tss_esp0 s) (mem s) (files s).
Definition with_switches (x : Z) (s : sched σ) : sched σ :=
  Sched (g_tasks s) (g_current_task s) (g_idle_task s) (g_bootstrap_esp s) (g_next_pid s)
    (g_rr_cursor s) (g_sched_started s) (g_in_scheduler s) x (g_idle_ticks s) (g_need_resched s)
    (g_deferred_stack_free s) (g_deferred_as_free s) (timer_ticks s) (tss_esp0 s) (mem s)
    (files s).
Definition with_idle_ticks (x : Z) (s : sched σ) : sched σ :=
  Sched (g_tasks s) (g_current_task s) (g_idle_task s) (g_bootstrap_esp s) (g_next_pid s)
    (g_rr_cursor s) (g_sched_started s) (g_in_scheduler s) (g_context_switches s) x
    (g_need_resched s) (g_deferred_stack_free s) (g_deferred_as_free s) (timer_ticks s)
    (tss_esp0 s) (mem s) (files s).
Definition with_need_resched (x : bool) (s : sched σ) : sched σ :=
  Sched (g_tasks s) (g_current_task s) (g_idle_task s) (g_bootstrap_esp s) (g_next_pid s)
    (g_rr_cursor s) (g_sched_started s) (g_in_scheduler s) (g_context_switches s)
    (g_idle_ticks s) x (g_deferred_stack_free s) (g_deferred_as_free s) (timer_ticks s)
    (tss_esp0 s) (mem s) (files s).
Definition with_deferred_stack (x : Z) (s : sched σ) : sched σ :=
  Sched (g_tasks s) (g_current_task s) (g_idle_task s) (g_bootstrap_esp s) (g_next_pid s)
    (g_rr_cursor s) (g_sched_started s) (g_in_scheduler s) (g_context_switches s)
    (g_idle_ticks s) (g_need_resched s) x (g_deferred_as_free s) (timer_ticks s) (tss_esp0 s)
    (mem s) (files s).
Definition with_deferred_as (x : Z) (s : sched σ) : sched σ :=
  Sched (g_tasks s) (g_current_task s) (g_idle_task s) (g_bootstrap_esp s) (g_next_pid s)
    (g_rr_cursor s) (g_sched_started s) (g_in_scheduler s) (g_context_switches s)
    (g_idle_ticks s) (g_need_resched s) (g_deferred_stack_free s) x (timer_ticks s) (tss_esp0 s)
    (mem s) (files s).
Definition with_timer_ticks (x : Z) (s : sched σ) : sched σ :=
  Sched (g_tasks s) (g_current_task s) (g_idle_task s) (g_bootstrap_esp s) (g_next_pid s)
    (g_rr_cursor s) (g_sched_started s) (g_in_scheduler s) (g_context_switches s)
    (g_idle_ticks s) (g_need_resched s) (g_deferred_stack_free s) (g_deferred_as_free s) x
    (tss_esp0 s) (mem s) (files s).
Definition with_tss_esp0 (x : Z) (s : sched σ) : sched σ :=
  Sched (g_tasks s) (g_current_task s) (g_idle_task s) (g_bootstrap_esp s) (g_next_pid s)
    (g_rr_cursor s) (g_sched_started s) (g_in_scheduler s) (g_context_switches s)
    (g_idle_ticks s) (g_need_resched s) (g_deferred_stack_free s) (g_deferred_as_free s)
    (timer_ticks s) x (mem s) (files s).
Definition with_mem (x : paging) (s : sched σ) : sched σ :=
  Sched (g_tasks s) (g_current_task s) (g_idle_task s) (g_bootstrap_esp s) (g_next_pid s)
    (g_rr_cursor s) (g_sched_started s) (g_in_scheduler s) (g_context_switches s)
    (g_idle_ticks s) (g_need_resched s) (g_deferred_stack_free s) (g_deferred_as_free s)
    (timer_ticks s) (tss_esp0 s) x (files s).
Definition with_files (x : σ) (s : sched σ) : sched σ :=
  Sched (g_tasks s) (g_current_task s) (g_idle_task s) (g_bootstrap_esp s) (g_next_pid s)
    (g_rr_cursor s) (g_sched_started s) (g_in_scheduler s) (g_context_switches s)
    (g_idle_ticks s) (g_need_resched s) (g_deferred_stack_free s) (g_deferred_as_free s)
    (timer_ticks s) (tss_esp0 s) (mem s) x.
Definition with_idle_task (x : option Z) (s : sched σ) : sched σ :=
  Sched (g_tasks s) (g_current_task s) x (g_bootstrap_esp s) (g_next_pid s) (g_rr_cursor s)
    (g_sched_started s) (g_in_scheduler s) (g_context_switches s) (g_idle_ticks s)
    (g_need_resched s) (g_deferred_stack_free s) (g_deferred_as_free s) (timer_ticks s)
    (tss_esp0 s) (mem s) (files s).

Definition task_at s (i : Z) : task := (g_tasks s).[i].
Definition set_task (i : Z) (t : task) s : sched σ := with_tasks (g_tasks s).[i <- t] s.
Definition on_task (i : Z) (f : task → task) s : sched σ := set_task i (f (task_at s i)) s.
Definition is_current s (i : Z) : bool := bool_decide (g_current_task s = Some i).
Definition is_idle s (i : Z) : bool := bool_decide (g_idle_task s = Some i).
Definition state_is s (i : Z) (st : task_state) : bool := bool_decide (t_state (task_at s i) = st).
Definition is_user t : bool := bool_decide (t_exec_mode t = TASK_EXEC_USER_BOOTSTRAP).
End state.

(** * Small helpers *)

(** [(int)x] for a 32-bit [x]. *)
Definition to_int (x : Z) : Z := if x <? 2147483648 then x else x - two32.

Definition sched_range_ok (addr len base size : Z) : bool :=
  if len =? 0 then true
  else if size =? 0 then false
  else if addr <? base then false
  else
    let end_ := add32 addr len in
    if end_ <? addr then false
    else
      let region_end := add32 base size in
      if region_end <? base then false else end_ <=? region_end.

Definition sched_ranges_overlap (base_a size_a base_b size_b : Z) : bool :=
  if (size_a =? 0) || (size_b =? 0) then false
  else
    let end_a := add32 base_a size_a in
    let end_b := add32 base_b size_b in
    if (end_a <? base_a) || (end_b <? base_b) then true
    else (base_a <? end_b) && (base_b <? end_a).

(** [None] is a null [src]; "task". *)
Definition sched_copy_task_name (src : option (list Z)) : list Z :=
  take (Z.to_nat (SCHED_TASK_NAME_MAX - 1)) (cstr (default [116; 97; 115; 107] src)).

Definition sched_state_to_syscall_state (st : task_state) : Z :=
  match st with
  | TASK_UNUSED => 0
  | TASK_RUNNABLE => 1
  | TASK_RUNNING => 2
  | TASK_SLEEPING => 3
  | TASK_WAIT_CHILD => 4
  | TASK_ZOMBIE => 5
  end.

Definition sched_init_task_cwd (t : task) : task :=
  set_user (user_cwd 1 (overlay (u_cwd (t_user t)) 0 [47; 0]) (t_user t)) t.

Definition sched_build_user_ranges (t : task) : res (list user_range) :=
  let u := t_user t in
  let ranges :=
    (if u_image_size u =? 0 then [] else [UserRange (u_image_base u) (u_image_size u)]) ++
    (if u_stack_size u =? 0 then [] else [UserRange (u_stack_base u) (u_stack_size u)]) in
  if bool_decide (ranges = []) then Err KERR_INVAL else Ok ranges.

(** The frame of a new task: its saved stack pointer leads to
    [sched_task_trampoline]. *)
Definition sched_init_task_stack (t : task) : task := set_esp InTrampoline t.

Section ops.
Context {σ : Type} `{!FileOps σ, !TaskHooks σ}.
Implicit Types (s : sched σ) (t : task).

(** * Finding tasks *)

Definition sched_find_task_by_pid_locked (pid : Z) s : option Z :=
  search_range 0 SCHED_MAX_TASKS (λ i,
    if state_is s i TASK_UNUSED then None
    else if t_pid (task_at s i) =? pid then Some i else None).

Definition sched_find_task_slot s : option Z :=
  search_range 0 SCHED_MAX_TASKS (λ i, if state_is s i TASK_UNUSED then Some i else None).

(** Is task [i] a child of [parent_pid] that a wait for [target_pid] is about? *)
Definition child_matches s (parent_pid target_pid i : Z) : bool :=
  negb (state_is s i TASK_UNUSED) && (t_parent_pid (task_at s i) =? parent_pid) &&
  ((target_pid =? SCHED_WAIT_ANY_CHILD) || (t_pid (task_at s i) =? target_pid)).

(** [*out_zombie] and [*out_has_matching_child]. *)
Definition sched_find_matching_zombie_child_locked s (parent_pid target_pid : Z) : option Z * bool :=
  (search_range 0 SCHED_MAX_TASKS (λ i,
     if child_matches s parent_pid target_pid i && state_is s i TASK_ZOMBIE then Some i else None),
   existsb (child_matches s parent_pid target_pid) (seqZ 0 SCHED_MAX_TASKS)).

(** * Waking, reaping *)

Definition wake (t : task) : task := set_timeslice SCHED_DEFAULT_TIMESLICE (set_state TASK_RUNNABLE t).

Definition sched_maybe_wake_parent_waiter_locked (parent_pid child_pid : Z) s : sched σ :=
  if parent_pid <=? 0 then s
  else
    match sched_find_task_by_pid_locked parent_pid s with
    | None => s
    | Some p =>
        let t := task_at s p in
        if negb (state_is s p TASK_WAIT_CHILD) then s
        else if negb (t_wait_target_pid t =? SCHED_WAIT_ANY_CHILD) && negb (t_wait_target_pid t =? child_pid)
        then s
        else on_task p wake s
    end.

(** The slot of a task that is gone. *)
Definition task_reset : task := set_address_space g_kernel_as (set_parent_pid (-1) task_zero).

Definition own_address_space (as_ : Z) : bool := negb (as_ =? 0) && negb (as_ =? g_kernel_as).

Definition sched_reap_task_locked (i : Z) s : sched σ :=
  if state_is s i TASK_UNUSED || is_current s i then s
  else
    let t := task_at s i in
    let s := with_files (usermode_notify_task_reaped (t_pid t)
                           (display_gui_notify_task_exit (t_pid t) (files s))) s in
    let s := if t_stack_base t =? 0 then s else with_mem (kfree_at (t_stack_base t) (mem s)) s in
    let s := if own_address_space (t_address_space t)
             then with_mem (paging_destroy_address_space (t_address_space t) (mem s)) s else s in
    set_task i task_reset s.

Definition orphan_or_reap_child (parent_pid i : Z) s : sched σ :=
  if state_is s i TASK_UNUSED || negb (t_parent_pid (task_at s i) =? parent_pid) then s
  else if state_is s i TASK_ZOMBIE then sched_reap_task_locked i s
  else on_task i (set_parent_pid (-1)) s.

Definition sched_orphan_or_reap_children_locked (parent_pid : Z) s : sched σ :=
  for_range 0 SCHED_MAX_TASKS (orphan_or_reap_child parent_pid) s.

Definition sched_flush_deferred_stack_free_locked s : sched σ :=
  if g_deferred_stack_free s =? 0 then s
  else with_deferred_stack 0 (with_mem (kfree_at (g_deferred_stack_free s) (mem s)) s).

Definition sched_flush_deferred_as_free_locked s : sched σ :=
  if g_deferred_as_free s =? 0 then s
  else with_deferred_as 0 (with_mem (paging_destroy_address_space (g_deferred_as_free s) (mem s)) s).

(** * Choosing and switching *)

Definition wake_sleeper (i : Z) s : sched σ :=
  if state_is s i TASK_SLEEPING && (t_wake_tick (task_at s i) <=? timer_ticks s)
  then on_task i wake s else s.

Definition sched_wake_sleepers_locked s : sched σ := for_range 0 SCHED_MAX_TASKS wake_sleeper s.

Definition sched_count_runnable_locked s : Z :=
  for_range 0 SCHED_MAX_TASKS
    (λ i n, if state_is s i TASK_RUNNABLE || state_is s i TASK_RUNNING then add32 n 1 else n) 0.

(** The task at place [n] of the turn, when it may run. *)
Definition turn s (n : Z) : option Z :=
  let idx := add32 (g_rr_cursor s) n mod SCHED_MAX_TASKS in
  if is_current s idx || is_idle s idx then None
  else if state_is s idx TASK_RUNNABLE then Some idx else None.

Definition sched_pick_next_locked s : option Z * sched σ :=
  match search_range 0 SCHED_MAX_TASKS (turn s) with
  | Some idx => (Some idx, with_cursor (add32 idx 1 mod SCHED_MAX_TASKS) s)
  | None =>
      let runs c := state_is s c TASK_RUNNING || state_is s c TASK_RUNNABLE in
      let idle :=
        match g_idle_task s with
        | Some i => if state_is s i TASK_RUNNABLE then Some i else None
        | None => None
        end in
      (match g_current_task s with
       | Some c => if runs c then Some c else idle
       | None => idle
       end, s)
  end.

(** The start of [sched_switch_locked], up to [sched_context_switch]. *)
Definition switch_to (next : Z) s : sched σ :=
  let s := with_in_scheduler true s in
  let prev := g_current_task s in
  let s := match prev with
           | Some p => if state_is s p TASK_RUNNING then on_task p (set_state TASK_RUNNABLE) s else s
           | None => s
           end in
  let s := on_task next (λ t, set_switches (add32 (t_switches t) 1)
                         (set_timeslice SCHED_DEFAULT_TIMESLICE (set_state TASK_RUNNING t))) s in
  let s := with_switches (add32 (g_context_switches s) 1) (with_current (Some next) s) in
  let t := task_at s next in
  let s := with_tss_esp0 (add32 (t_stack_base t) (t_stack_size t)) s in
  let s := with_mem (snd (paging_activate_address_space (t_address_space t) (mem s))) s in
  match prev with
  | Some p => on_task p (set_esp InSwitch) s
  | None => with_bootstrap_esp InSwitch s
  end.

(** What the task does whose stack has been loaded: the rest of its own call of
    [sched_switch_locked], or [sched_task_trampoline] up to the call of its entry,
    with its assertions. *)
Definition resumed (c : saved_ctx) s : option (sched σ) :=
  match c with
  | NoFrame => None
  | InTrampoline =>
      match g_current_task s with
      | None => None
      | Some self => if bool_decide (t_entry (task_at s self) = None) then None else Some (with_in_scheduler false s)
      end
  | InSwitch =>
      Some (with_in_scheduler false
              (sched_flush_deferred_as_free_locked (sched_flush_deferred_stack_free_locked s)))
  end.

Definition sched_switch_locked (next : Z) s : option (sched σ) :=
  if g_in_scheduler s then Some s
  else if is_current s next && g_sched_started s then
    Some (if state_is s next TASK_RUNNABLE then on_task next (set_state TASK_RUNNING) s else s)
  else resumed (t_esp (task_at s next)) (switch_to next s).

Definition sched_schedule_locked s : option (sched σ) :=
  let s := sched_wake_sleepers_locked s in
  match sched_pick_next_locked s with
  | (None, _) => None
  | (Some next, s) => sched_switch_locked next s
  end.

(** * New tasks *)

(** The failure path after [proc_fd_table_clone]. *)
Definition drop_slot (i : Z) s : sched σ := set_task i task_reset s.

(** The result and [*out_pid]. *)
Definition sched_spawn_task_internal (name : option (list Z)) (entry : option sched_task_entry)
    (arg stack_size parent_pid : Z) (inherit_fds : bool) s : res Z * sched σ :=
  match entry with
  | None => (Err KERR_INVAL, s)
  | Some _ =>
      let stack_size := if stack_size =? 0 then SCHED_DEFAULT_STACK else stack_size in
      let stack_size := Z.land (add32 stack_size 4095) (not32 4095) in
      match sched_find_task_slot s with
      | None => (Err KERR_NOMEM, s)
      | Some i =>
          let '(stack, h) := kmalloc stack_size (heap (mem s)) in
          let s := with_mem (set_heap h (mem s)) s in
          if stack =? 0 then (Err KERR_NOMEM, s)
          else
            let pid := to_int (g_next_pid s) in
            let s := with_next_pid (add32 (g_next_pid s) 1) s in
            let t := Task pid (sched_copy_task_name name) TASK_RUNNABLE TASK_EXEC_KERNEL NoFrame stack
                          stack_size entry arg 0 SCHED_DEFAULT_TIMESLICE 0 0 0 parent_pid 0
                          proc_fd_table_init user_zero g_kernel_as in
            let t := sched_init_task_cwd t in
            let cur := match g_current_task s with Some c => Some (task_at s c) | None => None end in
            match cur with
            | Some c =>
                if (0 <? parent_pid) && (t_pid c =? parent_pid) && is_user c then
                  let u := t_user c in
                  let t := set_user (user_cwd (u_cwd_len u)
                             (overlay (u_cwd (t_user t)) 0 (slice (u_cwd u) 0 (u_cwd_len u + 1)))
                             (t_user t)) t in
                  if inherit_fds then
                    match proc_fd_table_clone (t_fd_table c) (files s) with
                    | (Err e, _, fs) =>
                        (Err e, drop_slot i (with_mem (kfree_at stack (mem s)) (with_files fs s)))
                    | (Ok _, tab, fs) =>
                        (Ok pid, set_task i (sched_init_task_stack (set_fd_table tab t)) (with_files fs s))
                    end
                  else (Ok pid, set_task i (sched_init_task_stack t) s)
                else (Ok pid, set_task i (sched_init_task_stack t) s)
            | None => (Ok pid, set_task i (sched_init_task_stack t) s)
            end
      end
  end.

Definition sched_spawn_kernel_task (name : option (list Z)) (entry : option sched_task_entry)
    (arg stack_size : Z) s : res Z * sched σ :=
  sched_spawn_task_internal name entry arg stack_size (-1) false s.

Definition sched_spawn_kernel_task_ex := sched_spawn_kernel_task.

Definition sched_current_task_is_user s : bool :=
  match g_current_task s with Some c => is_user (task_at s c) | None => false end.

Definition sched_spawn_user_child_task (name : option (list Z)) (entry : option sched_task_entry)
    (arg stack_size : Z) (inherit_fds : bool) s : res Z * sched σ :=
  match g_current_task s with
  | None => (Err KERR_NOTSUP, s)
  | Some c =>
      if negb (sched_current_task_is_user s) then (Err KERR_NOTSUP, s)
      else sched_spawn_task_internal name entry arg stack_size (t_pid (task_at s c)) inherit_fds s
  end.

(** The state before [sched_init], over given memory and backends. *)
Definition sched_zero (m : paging) (f : σ) (ticks : Z) : sched σ :=
  Sched (replicate 12 task_zero) None None NoFrame 1 0 false false 0 0 false 0 0 ticks 0 m f.

Definition sched_init s : option (sched σ) :=
  let s := Sched (replicate 12 task_zero) None None NoFrame 1 0 false false 0 0 false 0 0
                 (timer_ticks s) (tss_esp0 s) (mem s) (files s) in
  match sched_spawn_kernel_task (Some [105; 100; 108; 101]) (Some sched_idle_task) 0 SCHED_DEFAULT_STACK s with
  | (Err _, _) => None
  | (Ok _, s) =>
      let s := with_idle_task (Some 0) s in
      if bool_decide (t_entry (task_at s 0) = Some sched_idle_task) then Some s else None
  end.

(** * Fork *)

(** The address space of a task that has none of its own yet: the parent's part
    of [sched_fork_current_user_task], and [sched_mark_current_task_user_bootstrap]. *)
Definition ensure_address_space (c : Z) (ranges : list user_range) s : res unit * sched σ :=
  if own_address_space (t_address_space (task_at s c)) then (Ok tt, s)
  else
    match paging_create_user_address_space ranges (mem s) with
    | (Err e, m) => (Err e, with_mem m s)
    | (Ok as_, m) => (Ok tt, on_task c (set_address_space as_) (with_mem m s))
    end.

Definition activate_current (c : Z) s : sched σ :=
  with_mem (snd (paging_activate_address_space (t_address_space (task_at s c)) (mem s))) s.

(** The registers of the child: those of the parent, with 0 in eax. *)
Definition child_ctx (ctx : user_mode_resume_ctx) : user_mode_resume_ctx :=
  ResumeCtx 0 (r_ebx ctx) (r_ecx ctx) (r_edx ctx) (r_esi ctx) (r_edi ctx) (r_ebp ctx) (r_eip ctx)
            (r_esp ctx) (r_eflags ctx).

(** What the child's [user] takes over from the parent's. *)
Definition fork_user (ctx : user_mode_resume_ctx) (p u : task_user_ctx) : task_user_ctx :=
  let u := user_layout (u_image_base p) (u_image_size p) (u_stack_base p) (u_stack_size p) u in
  let u := user_cmdline (u_cmdline_len p)
             (overlay (u_cmdline u) 0 (slice (u_cmdline p) 0 (u_cmdline_len p + 1))) u in
  let u := user_cwd (u_cwd_len p) (overlay (u_cwd u) 0 (slice (u_cwd p) 0 (u_cwd_len p + 1))) u in
  user_fork (child_ctx ctx) (user_entry (r_eip ctx) (r_esp ctx) u).

Definition sched_fork_current_user_task (ctx : user_mode_resume_ctx) s : res Z * sched σ :=
  match g_current_task s with
  | None => (Err KERR_NOTSUP, s)
  | Some c =>
      if negb (sched_current_task_is_user s) then (Err KERR_NOTSUP, s)
      else
        match sched_build_user_ranges (task_at s c) with
        | Err e => (Err e, s)
        | Ok ranges =>
            let own := own_address_space (t_address_space (task_at s c)) in
            match ensure_address_space c ranges s with
            | (Err e, s) => (Err e, s)
            | (Ok _, s) =>
                let s := if own then s else activate_current c s in
                match paging_clone_address_space_cow (t_address_space (task_at s c)) ranges (mem s) with
                | (Err e, m) => (Err e, with_mem m s)
                | (Ok child_as, m) =>
                    let s := with_mem m s in
                    let destroy s := with_mem (paging_destroy_address_space child_as (mem s)) s in
                    match sched_find_task_slot s with
                    | None => (Err KERR_NOMEM, destroy s)
                    | Some i =>
                        let '(stack, h) := kmalloc SCHED_DEFAULT_STACK (heap (mem s)) in
                        let s := with_mem (set_heap h (mem s)) s in
                        if stack =? 0 then (Err KERR_NOMEM, destroy s)
                        else
                          let p := task_at s c in
                          let pid := to_int (g_next_pid s) in
                          let s := with_next_pid (add32 (g_next_pid s) 1) s in
                          let t := Task pid (sched_copy_task_name (Some (t_name p))) TASK_RUNNABLE
                                        TASK_EXEC_USER_BOOTSTRAP NoFrame stack SCHED_DEFAULT_STACK
                                        (Some sched_user_fork_child_entry) 0 0 SCHED_DEFAULT_TIMESLICE
                                        0 0 0 (t_pid p) 0 proc_fd_table_init user_zero child_as in
                          let t := sched_init_task_cwd t in
                          match proc_fd_table_clone (t_fd_table p) (files s) with
                          | (Err e, _, fs) =>
                              let s := destroy (with_files fs s) in
                              (Err e, drop_slot i (with_mem (kfree_at stack (mem s)) s))
                          | (Ok _, tab, fs) =>
                              let t := set_user (fork_user ctx (t_user p) (t_user t)) (set_fd_table tab t) in
                              (Ok pid, set_task i (sched_init_task_stack t) (with_files fs s))
                          end
                    end
                end
            end
        end
  end.

(** * The current task *)

Definition sched_mark_current_task_user_bootstrap (user_eip user_esp : Z) s : res unit * sched σ :=
  match g_current_task s with
  | None => (Err KERR_INVAL, s)
  | Some c =>
      match sched_build_user_ranges (task_at s c) with
      | Err e => (Err e, s)
      | Ok ranges =>
          match ensure_address_space c ranges s with
          | (Err e, s) => (Err e, s)
          | (Ok _, s) =>
              let s := activate_current c s in
              (Ok tt, on_task c (λ t, set_user (user_entry user_eip user_esp (t_user t))
                                   (set_exec_mode TASK_EXEC_USER_BOOTSTRAP t)) s)
          end
      end
  end.

Definition sched_set_current_user_layout (image_base image_size stack_base stack_size : Z) s
    : res unit * sched σ :=
  match g_current_task s with
  | None => (Err KERR_INVAL, s)
  | Some c =>
      if (negb (image_size =? 0) && (add32 image_base image_size <? image_base)) ||
         (negb (stack_size =? 0) && (add32 stack_base stack_size <? stack_base))
      then (Err KERR_INVAL, s)
      else (Ok tt, on_task c (λ t, set_user (user_layout image_base image_size stack_base stack_size (t_user t)) t) s)
  end.

(** The current task when it runs in user mode. *)
Definition current_user s : option (Z * task) :=
  c ← g_current_task s;
  if is_user (task_at s c) then Some (c, task_at s c) else None.

Definition sched_current_user_range_ok (addr len : Z) s : bool :=
  if len =? 0 then true
  else
    match current_user s with
    | None => false
    | Some (_, t) =>
        let u := t_user t in
        sched_range_ok addr len (u_image_base u) (u_image_size u) ||
        sched_range_ok addr len (u_stack_base u) (u_stack_size u)
    end.

(** [memcpy(buf, src, len); buf[len] = 0]; [None] is a null [src]. *)
Definition sched_set_current_task_cmdline (src : option (list Z)) (len : Z) s : res unit * sched σ :=
  match g_current_task s with
  | None => (Err KERR_INVAL, s)
  | Some c =>
      if bool_decide (src = None) && negb (len =? 0) then (Err KERR_INVAL, s)
      else if SCHED_CMDLINE_MAX <=? len then (Err KERR_INVAL, s)
      else (Ok tt, on_task c (λ t, set_user (user_cmdline len
              (overlay (u_cmdline (t_user t)) 0 (slice (default [] src) 0 len ++ [NUL])) (t_user t)) t) s)
  end.

Definition sched_set_current_task_cwd (src : option (list Z)) (len : Z) s : res unit * sched σ :=
  match g_current_task s with
  | None => (Err KERR_INVAL, s)
  | Some c =>
      if bool_decide (src = None) || (len =? 0) then (Err KERR_INVAL, s)
      else if SCHED_CWD_MAX <=? len then (Err KERR_INVAL, s)
      else (Ok tt, on_task c (λ t, set_user (user_cwd len
              (overlay (u_cwd (t_user t)) 0 (slice (default [] src) 0 len ++ [NUL])) (t_user t)) t) s)
  end.

(** What fits of a string of [len] bytes into a buffer of [cap]. *)
Definition fit_len (len cap : Z) : Z := if len <? cap - 1 then len else cap - 1.

Definition sched_copy_current_task_cwd (dst_cap : Z) s : res (list Z) :=
  if dst_cap =? 0 then Err KERR_INVAL
  else
    match current_user s with
    | None => Err KERR_NOTSUP
    | Some (_, t) => Ok (slice (u_cwd (t_user t)) 0 (fit_len (u_cwd_len (t_user t)) dst_cap))
    end.

Section user_memory.
Context (wp : bool).

(** Copies of a string of the task to user memory; [Ok n] is [*out_len]. *)
Definition copy_string_to_user (len : Z) (buf : list Z) (dst_addr dst_len : Z) s : option (res Z * sched σ) :=
  if dst_len =? 0 then Some (Ok 0, s)
  else if negb (sched_current_user_range_ok dst_addr dst_len s) then Some (Err KERR_FAULT, s)
  else
    let n := fit_len len dst_len in
    m ← memcpy_to wp dst_addr (slice buf 0 n ++ [NUL]) (mem s);
    Some (Ok n, with_mem m s).

Definition sched_copy_current_task_cmdline_to_user (dst_addr dst_len : Z) s : option (res Z * sched σ) :=
  match current_user s with
  | None => Some (Err KERR_NOTSUP, s)
  | Some (_, t) => copy_string_to_user (u_cmdline_len (t_user t)) (u_cmdline (t_user t)) dst_addr dst_len s
  end.

Definition sched_copy_current_task_cwd_to_user (dst_addr dst_len : Z) s : option (res Z * sched σ) :=
  match current_user s with
  | None => Some (Err KERR_NOTSUP, s)
  | Some (_, t) => copy_string_to_user (u_cwd_len (t_user t)) (u_cwd (t_user t)) dst_addr dst_len s
  end.

(** ** kernel/uaccess.c *)

Definition uaccess_user_range_ok (addr len : Z) s : bool := sched_current_user_range_ok addr len s.

Definition uaccess_copy_from_user (src_addr len : Z) s : option (res (list Z)) :=
  if len =? 0 then Some (Ok [])
  else if negb (uaccess_user_range_ok src_addr len s) then Some (Err KERR_FAULT)
  else bs ← memcpy_from src_addr (Z.to_nat len) (mem s); Some (Ok bs).

(** [None] is a null [src]. *)
Definition uaccess_copy_to_user (dst_addr : Z) (src : option (list Z)) (len : Z) s
    : option (res unit * sched σ) :=
  if len =? 0 then Some (Ok tt, s)
  else
    match src with
    | None => Some (Err KERR_INVAL, s)
    | Some bs =>
        if negb (uaccess_user_range_ok dst_addr len s) then Some (Err KERR_FAULT, s)
        else m ← memcpy_to wp dst_addr (slice bs 0 len) (mem s); Some (Ok tt, with_mem m s)
    end.
End user_memory.

Definition sched_user_image_range_available (image_base image_size : Z) s : bool :=
  if (image_size =? 0) || (add32 image_base image_size <? image_base) then false
  else forallb (λ i,
    let t := task_at s i in
    let u := t_user t in
    state_is s i TASK_UNUSED || negb (is_user t) ||
    negb (sched_ranges_overlap image_base image_size (u_image_base u) (u_image_size u) ||
          sched_ranges_overlap image_base image_size (u_stack_base u) (u_stack_size u)))
    (seqZ 0 SCHED_MAX_TASKS).

(** * Notes on the current task *)

Definition on_current_user (f : task_user_ctx → task_user_ctx) s : sched σ :=
  match current_user s with
  | None => s
  | Some (c, _) => on_task c (λ t, set_user (f (t_user t)) t) s
  end.

Definition sched_note_current_syscall (nr : Z) s : sched σ :=
  on_current_user (λ u, user_stats (u_last_user_eip u) (u_last_fault_addr u) (u_last_fault_err u)
                          nr (add32 (u_syscall_count u) 1) (u_fault_count u) u) s.

Definition sched_note_current_user_fault (user_eip fault_addr error_code : Z) s : sched σ :=
  on_current_user (λ u, user_stats user_eip fault_addr error_code (u_last_syscall_nr u)
                          (u_syscall_count u) (add32 (u_fault_count u) 1) u) s.

Definition sched_note_current_exit_code (exit_code : Z) s : sched σ := on_current_user (user_exit exit_code) s.

Definition sched_current_task_pid s : Z :=
  match g_current_task s with Some c => t_pid (task_at s c) | None => -1 end.

(** "none" without a current task. *)
Definition sched_current_task_name s : list Z :=
  match g_current_task s with Some c => t_name (task_at s c) | None => [110; 111; 110; 101] end.

Definition sched_current_task_owns_child_pid (pid : Z) s : bool :=
  match g_current_task s with
  | None => false
  | Some c =>
      if (pid <=? 0) || negb (sched_current_task_is_user s) then false
      else
        match sched_find_task_by_pid_locked pid s with
        | Some i => t_parent_pid (task_at s i) =? t_pid (task_at s c)
        | None => false
        end
  end.

(** * Snapshots *)

Record syscall_task_snapshot_entry := SnapshotEntry {
  sn_pid : Z; sn_parent_pid : Z; sn_exit_code : Z; sn_state : Z; sn_flags : Z; sn_name : list Z
}.

Definition exit_code_of (t : task) : Z := if u_exit_code_valid (t_user t) then u_exit_code (t_user t) else 0.

Definition snapshot_entry (t : task) : syscall_task_snapshot_entry :=
  SnapshotEntry (t_pid t) (t_parent_pid t) (exit_code_of t) (sched_state_to_syscall_state (t_state t))
    (Z.lor (if is_user t then SYSCALL_TASK_FLAG_USER else 0)
           (if u_exit_code_valid (t_user t) then SYSCALL_TASK_FLAG_EXIT_VALID else 0))
    (sched_copy_task_name (Some (t_name t))).

(** [has_entries]: [entries] is not null. *)
Definition sched_collect_task_snapshot (has_entries : bool) (cap : Z) s : res (list syscall_task_snapshot_entry) :=
  if negb (cap =? 0) && negb has_entries then Err KERR_INVAL
  else Ok (take (Z.to_nat cap) (snapshot_entry <$> filter (λ t, t_state t ≠ TASK_UNUSED) (g_tasks s))).

(** * Descriptors of the current task *)

(** The guards of the [sched_current_process_fd_*] functions. *)
Definition with_current_fds {A} (f : proc_fd_table → σ → res A * proc_fd_table * σ) s : res A * sched σ :=
  match g_current_task s with
  | None => (Err KERR_INVAL, s)
  | Some c =>
      if negb (sched_current_task_is_user s) then (Err KERR_NOTSUP, s)
      else
        let '(r, tab, fs) := f (t_fd_table (task_at s c)) (files s) in
        (r, with_files fs (on_task c (set_fd_table tab) s))
  end.

Definition sched_current_process_fd_get (fd : Z) s : res Z :=
  fst (with_current_fds (λ tab fs, (proc_fd_get tab fd, tab, fs)) s).

Definition sched_current_process_fd_install (fd : Z) (src_file : kfile) s : res unit * sched σ :=
  with_current_fds (λ tab fs, let '(r, _, tab, fs) := proc_fd_install tab fd src_file fs in (r, tab, fs)) s.

Definition sched_current_process_fd_alloc (src_file : kfile) s : res Z * sched σ :=
  with_current_fds (λ tab fs, proc_fd_alloc tab PROC_FD_DYNAMIC_MIN src_file fs) s.

Definition sched_current_process_fd_close (fd : Z) s : res unit * sched σ :=
  with_current_fds (λ tab fs, proc_fd_close tab fd fs) s.

Definition sched_current_process_fd_dup (oldfd : Z) s : res Z * sched σ :=
  with_current_fds (λ tab fs, proc_fd_dup tab oldfd PROC_FD_DYNAMIC_MIN fs) s.

Definition sched_current_process_fd_dup2 (oldfd newfd : Z) s : res Z * sched σ :=
  with_current_fds (λ tab fs, proc_fd_dup2 tab oldfd newfd fs) s.

(** * Waiting *)

(** One round of the loop of [sched_waitpid_ex]: [Some (Ok (pid, code))] returns
    them, [None] has switched away and goes on with another round. *)
Definition wait_round (target_pid : Z) (nohang : bool) s : option (option (res (Z * Z)) * sched σ) :=
  match g_current_task s with
  | None => Some (Some (Err KERR_NOTSUP), s)
  | Some c =>
      match sched_find_matching_zombie_child_locked s (t_pid (task_at s c)) target_pid with
      | (Some z, _) =>
          let t := task_at s z in
          Some (Some (Ok (t_pid t, exit_code_of t)),
                on_task c (set_wait_target 0) (sched_reap_task_locked z s))
      | (None, false) => Some (Some (Err KERR_NOENT), s)
      | (None, true) =>
          if nohang then Some (Some (Ok (0, 0)), on_task c (set_wait_target 0) s)
          else
            let s := on_task c (λ t, set_state TASK_WAIT_CHILD (set_wait_target target_pid t)) s in
            s ← sched_schedule_locked (with_need_resched false s); Some (None, s)
      end
  end.

Definition sched_waitpid_ex (target_pid options : Z) s : option (option (res (Z * Z)) * sched σ) :=
  let nohang := negb (Z.land options SYSCALL_WAITPID_FLAG_NOHANG =? 0) in
  if negb (sched_current_task_is_user s) then Some (Some (Err KERR_NOTSUP), s)
  else if negb (Z.land options (not32 SYSCALL_WAITPID_FLAG_NOHANG) =? 0) then Some (Some (Err KERR_NOTSUP), s)
  else if (target_pid <=? 0) && negb (target_pid =? SCHED_WAIT_ANY_CHILD) then Some (Some (Err KERR_INVAL), s)
  else wait_round target_pid nohang s.

Definition sched_waitpid (target_pid : Z) s := sched_waitpid_ex target_pid 0 s.

(** * Running, yielding, sleeping *)

Definition sched_start s : option (sched σ) :=
  if g_sched_started s then None else sched_schedule_locked (with_started true s).

Definition sched_yield s : option (sched σ) :=
  if negb (g_sched_started s) || bool_decide (g_current_task s = None) then Some s
  else sched_schedule_locked (with_need_resched false s).

Definition sched_checkpoint s : option (sched σ) := if g_need_resched s then sched_yield s else Some s.

Definition sched_sleep_ticks (ticks : Z) s : option (sched σ) :=
  match g_current_task s with
  | None => Some s
  | Some c =>
      if negb (g_sched_started s) then Some s
      else if ticks =? 0 then sched_yield s
      else
        let s := on_task c (λ t, set_state TASK_SLEEPING
                             (set_wake_tick ((timer_ticks s + ticks) mod two64) t)) s in
        sched_schedule_locked (with_need_resched false s)
  end.

Definition sched_on_timer_tick_irq s : option (sched σ) :=
  match g_current_task s with
  | None => Some s
  | Some c =>
      if negb (g_sched_started s) || g_in_scheduler s then Some s
      else
        let s := sched_wake_sleepers_locked s in
        let s := on_task c (λ t, set_ticks_run (add32 (t_ticks_run t) 1) t) s in
        let s := if is_idle s c then with_idle_ticks (add32 (g_idle_ticks s) 1) s else s in
        let s := on_task c (λ t, if 0 <? t_timeslice_left t then set_timeslice (t_timeslice_left t - 1) t else t) s in
        if 0 <? t_timeslice_left (task_at s c) then Some s
        else
          let s := on_task c (set_timeslice SCHED_DEFAULT_TIMESLICE) s in
          match sched_pick_next_locked s with
          | (None, s) => Some s
          | (Some next, s) =>
              if is_current s next then Some s
              else
                let s := on_task c (λ t, set_preemptions (add32 (t_preemptions t) 1) t) s in
                sched_switch_locked next (with_need_resched false s)
          end
  end.

(** [timer_handler] of timer.c. *)
Definition timer_handler s : option (sched σ) :=
  sched_on_timer_tick_irq (with_timer_ticks ((timer_ticks s + 1) mod two64) s).

(** * Exit *)

(** The parent still there to collect task [i]. *)
Definition keep_zombie (i : Z) s : bool :=
  let ppid := t_parent_pid (task_at s i) in
  if ppid <=? 0 then false
  else
    match sched_find_task_by_pid_locked ppid s with
    | Some p => negb (state_is s p TASK_UNUSED) && negb (state_is s p TASK_ZOMBIE)
    | None => false
    end.

(** The task leaves its slot at once; its stack and address space go when
    another task runs. *)
Definition leave_slot (i : Z) s : sched σ :=
  let t := task_at s i in
  let s := with_files (usermode_notify_task_reaped (t_pid t) (files s)) s in
  let s := sched_flush_deferred_as_free_locked (sched_flush_deferred_stack_free_locked s) in
  let s := with_deferred_stack (t_stack_base t) s in
  let s := if own_address_space (t_address_space t) then with_deferred_as (t_address_space t) s else s in
  set_task i (Task 0 (t_name t) TASK_UNUSED TASK_EXEC_KERNEL (t_esp t) 0 0 (t_entry t) (t_arg t) (t_wake_tick t)
                (t_timeslice_left t) (t_switches t) (t_ticks_run t) (t_preemptions t) (-1) 0
                (t_fd_table t) (t_user t) g_kernel_as) s.

Definition exit_task (i : Z) s : sched σ :=
  let s :=
    if is_user (task_at s i) then
      let '(_, tab, fs) := proc_fd_close_all (t_fd_table (task_at s i)) (files s) in
      with_files fs (on_task i (set_fd_table tab) s)
    else s in
  let pid := t_pid (task_at s i) in
  let s := with_files (display_gui_notify_task_exit pid (files s)) s in
  let s := sched_orphan_or_reap_children_locked pid s in
  if keep_zombie i s then
    sched_maybe_wake_parent_waiter_locked (t_parent_pid (task_at s i)) pid (on_task i (set_state TASK_ZOMBIE) s)
  else leave_slot i s.

(** [sched_exit_current] too; the state in which another task runs. *)
Definition sched_task_exit s : option (sched σ) :=
  sched_schedule_locked (match g_current_task s with Some c => exit_task c s | None => s end).

(** [isr_page_fault] of interrupts.c, from user mode or from the kernel. *)
Definition isr_page_fault (user_mode : bool) (fault_addr error_code eip : Z) s : option (sched σ) :=
  if user_mode then
    match paging_handle_cow_fault (paging_current_address_space (mem s)) fault_addr error_code (mem s) with
    | (Ok _, m) => Some (with_mem m s)
    | (Err _, m) =>
        sched_task_exit (sched_note_current_user_fault eip fault_addr error_code (with_mem m s))
    end
  else None.

Definition sched_runnable_count s : Z := sched_count_runnable_locked s.
End ops.
