(* ===== verification/SchedInv.v ===== *)
(** kernel/sched.c: the task table stays consistent and the scheduler never runs
    out of tasks.

    [table_ok] is the invariant of the task table: process ids name one task
    each, only the current task is running, a zombie has a parent that can
    collect it, and a waiting task has a child to wait for that has not exited.
    The lemmas on [table_ok] are one for each way a task changes; the operations
    of Sched.v are composed of them. *)

From S2P Require Import Prelude Bytes Pmm Kmalloc VfsNode KFile KPipe ProcFd Paging PagingMap UserMem Sched.

(** * The task table *)

Definition slot (i : Z) : Prop := 0 ≤ i < SCHED_MAX_TASKS.

Definition used (t : task) : Prop := t_state t ≠ TASK_UNUSED.

Definition matches (T : Z → task) (ppid target k : Z) : Prop :=
  used (T k) ∧ t_parent_pid (T k) = ppid ∧ (target = SCHED_WAIT_ANY_CHILD ∨ t_pid (T k) = target).

(** What decides how a task goes on: its saved stack, and the function that
    [sched_task_trampoline] calls. *)
Definition saved (t : task) : saved_ctx * option sched_task_entry := (t_esp t, t_entry t).

Definition can_resume (p : saved_ctx * option sched_task_entry) : Prop :=
  match p with (NoFrame, _) | (InTrampoline, None) => False | _ => True end.

Record table_ok (T : Z → task) (cur : option Z) (np : Z) : Prop := {
  to_idle : t_state (T 0) = TASK_RUNNABLE ∨ t_state (T 0) = TASK_RUNNING;
  to_cur : ∀ c, cur = Some c → slot c;
  to_running : ∀ i, slot i → t_state (T i) = TASK_RUNNING → cur = Some i;
  to_ctx : ∀ i, slot i → t_state (T i) ∈ [TASK_RUNNABLE; TASK_SLEEPING; TASK_WAIT_CHILD] →
    cur ≠ Some i → can_resume (saved (T i));
  to_pid : ∀ i, slot i → used (T i) → 0 < t_pid (T i) < np;
  to_unique : ∀ i j, slot i → slot j → used (T i) → used (T j) → t_pid (T i) = t_pid (T j) → i = j;
  to_parent : ∀ i, slot i → used (T i) → t_parent_pid (T i) = -1 ∨
    ∃ p, slot p ∧ p ≠ i ∧ used (T p) ∧ t_state (T p) ≠ TASK_ZOMBIE ∧ t_pid (T p) = t_parent_pid (T i);
  to_zombie : ∀ i, slot i → t_state (T i) = TASK_ZOMBIE → t_parent_pid (T i) ≠ -1;
  to_wait : ∀ i, slot i → t_state (T i) = TASK_WAIT_CHILD →
    (∃ k, slot k ∧ matches T (t_pid (T i)) (t_wait_target_pid (T i)) k) ∧
    ∀ k, slot k → matches T (t_pid (T i)) (t_wait_target_pid (T i)) k → t_state (T k) ≠ TASK_ZOMBIE
}.

(** The fields that the invariant is about. *)
Definition same_core (t t' : task) : Prop :=
  t_state t' = t_state t ∧ t_pid t' = t_pid t ∧ t_parent_pid t' = t_parent_pid t ∧
  t_wait_target_pid t' = t_wait_target_pid t ∧ saved t' = saved t.

Lemma same_core_refl t : same_core t t.
Proof. done. Qed.

Lemma same_core_trans t1 t2 t3 : same_core t1 t2 → same_core t2 t3 → same_core t1 t3.
Proof. unfold same_core. intros (?&?&?&?&?) (?&?&?&?&?). split_and!; congruence. Qed.

(** A table whose tasks differ in nothing the invariant sees, except that some
    sleeping or waiting ones have become runnable. *)
Definition core_or_woken (t t' : task) : Prop :=
  same_core t t' ∨
  (t_state t' = TASK_RUNNABLE ∧ (t_state t = TASK_SLEEPING ∨ t_state t = TASK_WAIT_CHILD) ∧
   t_pid t' = t_pid t ∧ t_parent_pid t' = t_parent_pid t ∧ saved t' = saved t).

Lemma core_pid t t' : core_or_woken t t' → t_pid t' = t_pid t ∧ t_parent_pid t' = t_parent_pid t ∧
  saved t' = saved t ∧ (used t' ↔ used t) ∧ (t_state t' = TASK_ZOMBIE ↔ t_state t = TASK_ZOMBIE) ∧
  (t_state t' = TASK_RUNNING ↔ t_state t = TASK_RUNNING).
Proof.
  unfold used. intros [(E1&E2&E3&_&E5)|(E1&E&E2&E3&E5)]; rewrite E1, E2, E3, E5; [done|].
  split_and!; try done; destruct E as [->| ->]; by split.
Qed.

Lemma table_wake T T' cur np :
  table_ok T cur np → (∀ i, slot i → core_or_woken (T i) (T' i)) → table_ok T' cur np.
Proof.
  intros [Hid Hcur Hrun Hctx Hpid Huni Hpar Hzom Hwait] Hw.
  assert (Hc : ∀ i, slot i → _) by (intros i Hi; exact (core_pid _ _ (Hw i Hi))).
  assert (Hm : ∀ pp tg k, slot k → matches T' pp tg k ↔ matches T pp tg k).
  { intros pp tg k Hk. destruct (Hc k Hk) as (E1 & E2 & _ & E3 & _). unfold matches. by rewrite E1, E2, E3. }
  split.
  - destruct (Hw 0 ltac:(unfold slot, SCHED_MAX_TASKS; lia)) as [(->&_)|(->&_)]; [done|by left].
  - done.
  - intros i Hi. destruct (Hc i Hi) as (_&_&_&_&_&E). rewrite E. by apply Hrun.
  - intros i Hi Hs Hne. destruct (Hc i Hi) as (_&_&->&_). apply Hctx; [done| |done].
    destruct (Hw i Hi) as [(<-&_)|(_&[->| ->]&_)]; [done|set_solver..].
  - intros i Hi. destruct (Hc i Hi) as (->&_&_&->&_). by apply Hpid.
  - intros i j Hi Hj. destruct (Hc i Hi) as (->&_&_&->&_). destruct (Hc j Hj) as (->&_&_&->&_). by apply Huni.
  - intros i Hi. destruct (Hc i Hi) as (_&->&_&->&_). intros Hu. destruct (Hpar i Hi Hu) as [|(p&Hp&Hne&H1&H2&H3)]; [by left|].
    right. exists p. destruct (Hc p Hp) as (->&_&_&->&->&_). done.
  - intros i Hi. destruct (Hc i Hi) as (_&->&_&_&->&_). by apply Hzom.
  - intros i Hi Hs. destruct (Hw i Hi) as [(E1&E2&E3&E4&E5)|(E&_)]; [|congruence].
    rewrite E1 in Hs. destruct (Hwait i Hi Hs) as [(k&Hk&Hk2) Hno]. rewrite E2, E4. split.
    + exists k. split; [done|]. by apply Hm.
    + intros j Hj Hmj. destruct (Hc j Hj) as (_&_&_&_&->&_). apply Hno; [done|]. by apply Hm.
Qed.

Lemma table_same T T' cur np :
  table_ok T cur np → (∀ i, slot i → same_core (T i) (T' i)) → table_ok T' cur np.
Proof. intros HT Hs. apply (table_wake T); [done|]. intros i Hi. left. by apply Hs. Qed.

(** One slot changed. *)
Definition upd (T : Z → task) (i : Z) (t : task) : Z → task := λ j, if decide (i = j) then t else T j.

Lemma upd_eq T i t : upd T i t i = t.
Proof. unfold upd. by rewrite decide_True. Qed.

Lemma upd_ne T i j t : i ≠ j → upd T i t j = T j.
Proof. intros. unfold upd. by rewrite decide_False. Qed.

Lemma slot_0 : slot 0.
Proof. unfold slot, SCHED_MAX_TASKS. lia. Qed.

Lemma table_np T cur np np' : table_ok T cur np → np ≤ np' → table_ok T cur np'.
Proof. intros [] Hn. split; try done. intros i Hi Hu. specialize (to_pid0 i Hi Hu). lia. Qed.

(** The task [i] is given up: nobody's parent, and nobody waits for it. *)
Lemma table_remove T T' cur np i :
  table_ok T cur np → slot i → i ≠ 0 → t_state (T' i) = TASK_UNUSED →
  (∀ k, slot k → k ≠ i → same_core (T k) (T' k)) →
  (used (T i) → ∀ k, slot k → k ≠ i → used (T k) → t_parent_pid (T k) ≠ t_pid (T i) ∨ t_state (T i) = TASK_ZOMBIE) →
  (used (T i) → ∀ w, slot w → t_state (T w) = TASK_WAIT_CHILD →
     ¬ matches T (t_pid (T w)) (t_wait_target_pid (T w)) i) →
  table_ok T' cur np.
Proof.
  intros [Hid Hcur Hrun Hctx Hpid Huni Hpar Hzom Hwait] Hi Hi0 Hun Hsame Hch Hnw.
  assert (Hst : ∀ k, slot k → used (T' k) → k ≠ i) by (intros k Hk Hu ->; done).
  assert (Hm : ∀ pp tg k, slot k → k ≠ i → matches T' pp tg k ↔ matches T pp tg k).
  { intros pp tg k Hk Hne. destruct (Hsame k Hk Hne) as (E1&E2&E3&_). unfold matches, used. by rewrite E1, E2, E3. }
  split.
  - destruct (Hsame 0 slot_0 (not_eq_sym Hi0)) as (->&_). done.
  - done.
  - intros k Hk Hs. assert (k ≠ i) by congruence. destruct (Hsame k Hk H) as (E&_). apply Hrun; congruence.
  - intros k Hk Hs Hne. assert (k ≠ i) by (intros ->; rewrite Hun in Hs; set_solver).
    destruct (Hsame k Hk H) as (E&_&_&_&->). rewrite E in Hs. by apply Hctx.
  - intros k Hk Hu. pose proof (Hst k Hk Hu) as Hne. destruct (Hsame k Hk Hne) as (E&->&_).
    apply Hpid; [done|]. unfold used in *. congruence.
  - intros k l Hk Hl Hu Hv. pose proof (Hst k Hk Hu) as Hne. pose proof (Hst l Hl Hv) as Hne2.
    destruct (Hsame k Hk Hne) as (E&->&_). destruct (Hsame l Hl Hne2) as (E2&->&_).
    apply Huni; try done; unfold used in *; congruence.
  - intros k Hk Hu. pose proof (Hst k Hk Hu) as Hne. destruct (Hsame k Hk Hne) as (E&_&->&_).
    assert (HuT : used (T k)) by (unfold used in *; congruence).
    destruct (Hpar k Hk HuT) as [|(p&Hp&Hpk&H1&H2&H3)]; [by left|right].
    assert (p ≠ i). { intros ->. destruct (Hch H1 k Hk Hne HuT) as [Hc|Hc]; congruence. }
    destruct (Hsame p Hp H) as (E1&E2&_). exists p. unfold used in *. rewrite E1, E2. done.
  - intros k Hk Hs. assert (k ≠ i) by congruence. destruct (Hsame k Hk H) as (E&_&->&_). apply Hzom; congruence.
  - intros k Hk Hs. assert (Hne : k ≠ i) by congruence. destruct (Hsame k Hk Hne) as (E1&E2&_&E4&_).
    rewrite E1 in Hs. rewrite E2, E4. destruct (Hwait k Hk Hs) as [(j&Hj&Hjm) Hno]. split.
    + exists j. split; [done|]. apply Hm; [done| |done]. intros ->. apply (Hnw (proj1 Hjm) k Hk Hs Hjm).
    + intros l Hl Hlm. assert (Hl2 : l ≠ i) by (intros ->; by destruct Hlm).
      destruct (Hsame l Hl Hl2) as (->&_). apply Hno; [done|]. by apply Hm.
Qed.

(** The current task gets a state of its own choosing. *)
Lemma table_park T T' np c :
  table_ok T (Some c) np → t_state (T c) = TASK_RUNNING ∨ t_state (T c) = TASK_RUNNABLE →
  (t_state (T' c) = TASK_RUNNING ∨ (c ≠ 0 ∧ t_state (T' c) = TASK_SLEEPING) ∨
   (c ≠ 0 ∧ t_state (T' c) = TASK_WAIT_CHILD ∧
    (∃ k, slot k ∧ matches T (t_pid (T c)) (t_wait_target_pid (T' c)) k) ∧
    ∀ k, slot k → matches T (t_pid (T c)) (t_wait_target_pid (T' c)) k → t_state (T k) ≠ TASK_ZOMBIE)) →
  t_pid (T' c) = t_pid (T c) → t_parent_pid (T' c) = t_parent_pid (T c) →
  (∀ k, slot k → k ≠ c → same_core (T k) (T' k)) →
  table_ok T' (Some c) np.
Proof.
  intros [Hid Hcur Hrun Hctx Hpid Huni Hpar Hzom Hwait] Hst Hnew Ep Epp Hsame.
  pose proof (Hcur c eq_refl) as Hc.
  assert (Hcase : ∀ k, slot k → t_pid (T' k) = t_pid (T k) ∧ t_parent_pid (T' k) = t_parent_pid (T k) ∧
    (used (T' k) ↔ used (T k)) ∧ (t_state (T' k) = TASK_ZOMBIE ↔ t_state (T k) = TASK_ZOMBIE) ∧
    (k ≠ c → t_state (T' k) = t_state (T k))).
  { intros k Hk. unfold used. destruct (decide (k = c)) as [->|Hne].
    - rewrite Ep, Epp. destruct Hst as [->| ->], Hnew as [->|[(_&->)|(_&->&_)]]; done.
    - destruct (Hsame k Hk Hne) as (->&->&->&_). done. }
  assert (Hm : ∀ pp tg k, slot k → matches T' pp tg k ↔ matches T pp tg k).
  { intros pp tg k Hk. destruct (Hcase k Hk) as (E1&E2&E3&_). unfold matches. by rewrite E1, E2, E3. }
  split.
  - destruct (decide (0 = c)) as [<-|Hne]; [right|destruct (Hsame 0 slot_0 Hne) as (->&_); done].
    by destruct Hnew as [|[[]|[]]].
  - done.
  - intros k Hk Hs. destruct (decide (k = c)) as [->|Hne]; [done|]. destruct (Hcase k Hk) as (_&_&_&_&H2).
    apply Hrun; [done|]. by rewrite <- H2.
  - intros k Hk Hs Hne. assert (Hkc : k ≠ c) by congruence. destruct (Hsame k Hk Hkc) as (E&_&_&_&->).
    rewrite E in Hs. by apply Hctx.
  - intros k Hk. destruct (Hcase k Hk) as (->&_&->&_). by apply Hpid.
  - intros k l Hk Hl. destruct (Hcase k Hk) as (->&_&->&_). destruct (Hcase l Hl) as (->&_&->&_). by apply Huni.
  - intros k Hk. destruct (Hcase k Hk) as (_&->&->&_). intros Hu.
    destruct (Hpar k Hk Hu) as [|(p&Hp&Hpk&H1&H2&H3)]; [by left|right]. exists p.
    destruct (Hcase p Hp) as (->&_&->&->&_). done.
  - intros k Hk. destruct (Hcase k Hk) as (_&->&_&->&_). by apply Hzom.
  - intros k Hk Hs. destruct (Hcase k Hk) as (->&_&_&_&Hkc). destruct (decide (k = c)) as [->|Hne].
    + destruct Hnew as [E|[[_ E]|(_&_&(j&Hj&Hjm)&Hno)]]; [congruence..|]. split.
      * exists j. split; [done|]. by apply Hm.
      * intros l Hl Hlm. destruct (Hcase l Hl) as (_&_&_&->&_). apply Hno; [done|]. by apply Hm.
    + destruct (Hsame k Hk Hne) as (E1&_&_&->&_). rewrite E1 in Hs. destruct (Hwait k Hk Hs) as [(j&Hj&Hjm) Hno]. split.
      * exists j. split; [done|]. by apply Hm.
      * intros l Hl Hlm. destruct (Hcase l Hl) as (_&_&_&->&_). apply Hno; [done|]. by apply Hm.
Qed.

(** Another task runs. *)
Lemma table_switch T T' cur np n :
  table_ok T cur np → slot n → cur ≠ Some n →
  t_state (T' n) = TASK_RUNNING → t_pid (T' n) = t_pid (T n) → t_parent_pid (T' n) = t_parent_pid (T n) →
  (t_state (T n) = TASK_RUNNABLE) →
  (∀ k, slot k → k ≠ n → cur ≠ Some k → same_core (T k) (T' k)) →
  (∀ c, cur = Some c → t_pid (T' c) = t_pid (T c) ∧ t_parent_pid (T' c) = t_parent_pid (T c) ∧
     t_wait_target_pid (T' c) = t_wait_target_pid (T c) ∧ t_esp (T' c) = InSwitch ∧
     t_state (T' c) = if decide (t_state (T c) = TASK_RUNNING) then TASK_RUNNABLE else t_state (T c)) →
  table_ok T' (Some n) np.
Proof.
  intros [Hid Hcur Hrun Hctx Hpid Huni Hpar Hzom Hwait] Hn Hcn Hs' Hp' Hpp' Hsn Hsame Hc.
  assert (Hcase : ∀ k, slot k → t_pid (T' k) = t_pid (T k) ∧ t_parent_pid (T' k) = t_parent_pid (T k) ∧
    (used (T' k) ↔ used (T k)) ∧ (t_state (T' k) = TASK_ZOMBIE ↔ t_state (T k) = TASK_ZOMBIE) ∧
    (t_state (T' k) = TASK_RUNNING → k = n) ∧
    (t_state (T' k) = TASK_WAIT_CHILD → t_state (T k) = TASK_WAIT_CHILD ∧ t_wait_target_pid (T' k) = t_wait_target_pid (T k))).
  { intros k Hk. unfold used. destruct (decide (k = n)) as [->|Hne]; [by rewrite Hs', Hp', Hpp', Hsn|].
    destruct (decide (cur = Some k)) as [Ek|Ek].
    - destruct (Hc k Ek) as (->&->&->&_&->). case_decide as Hd; [by rewrite Hd|done].
    - destruct (Hsame k Hk Hne Ek) as (->&->&->&->&_). split_and!; try done. intros Hr.
      destruct Ek. by apply Hrun. }
  assert (Hm : ∀ pp tg k, slot k → matches T' pp tg k ↔ matches T pp tg k).
  { intros pp tg k Hk. destruct (Hcase k Hk) as (E1&E2&E3&_). unfold matches. by rewrite E1, E2, E3. }
  split.
  - destruct (decide (0 = n)) as [->|Hn0]; [by right|]. left.
    destruct (decide (cur = Some 0)) as [E0|E0].
    + destruct (Hc 0 E0) as (_&_&_&_&->). case_decide as Hd; [done|]. by destruct Hid.
    + destruct (Hsame 0 slot_0 Hn0 E0) as (->&_). destruct Hid as [|Hr]; [done|]. by destruct E0; apply (Hrun 0 slot_0).
  - by intros c [= <-].
  - intros k Hk Hr. destruct (Hcase k Hk) as (_&_&_&_&E&_). by rewrite (E Hr).
  - intros k Hk Hs Hne. assert (Hkn : k ≠ n) by congruence. destruct (decide (cur = Some k)) as [Ek|Ek].
    + destruct (Hc k Ek) as (_&_&_&E&_). unfold saved. by rewrite E.
    + destruct (Hsame k Hk Hkn Ek) as (E&_&_&_&->). rewrite E in Hs. by apply Hctx.
  - intros k Hk. destruct (Hcase k Hk) as (->&_&->&_). by apply Hpid.
  - intros k l Hk Hl. destruct (Hcase k Hk) as (->&_&->&_). destruct (Hcase l Hl) as (->&_&->&_). by apply Huni.
  - intros k Hk. destruct (Hcase k Hk) as (_&->&->&_). intros Hu.
    destruct (Hpar k Hk Hu) as [|(p&Hp&Hpk&H1&H2&H3)]; [by left|right]. exists p.
    destruct (Hcase p Hp) as (->&_&->&->&_). done.
  - intros k Hk. destruct (Hcase k Hk) as (_&->&_&->&_). by apply Hzom.
  - intros k Hk Hs. destruct (Hcase k Hk) as (->&_&_&_&_&Hw). destruct (Hw Hs) as [Hs0 ->].
    destruct (Hwait k Hk Hs0) as [(j&Hj&Hjm) Hno]. split.
    + exists j. split; [done|]. by apply Hm.
    + intros l Hl Hlm. destruct (Hcase l Hl) as (_&_&_&->&_). apply Hno; [done|]. by apply Hm.
Qed.

(** A new task in the free slot [i]. *)
Lemma table_new T T' cur np np' i :
  table_ok T cur np → slot i → ¬ used (T i) → t_state (T' i) = TASK_RUNNABLE → can_resume (saved (T' i)) →
  0 < np → np ≤ t_pid (T' i) < np' →
  (t_parent_pid (T' i) = -1 ∨
   ∃ c, cur = Some c ∧ t_state (T c) = TASK_RUNNING ∧ t_parent_pid (T' i) = t_pid (T c)) →
  (∀ k, slot k → k ≠ i → same_core (T k) (T' k)) →
  table_ok T' cur np'.
Proof.
  intros [Hid Hcur Hrun Hctx Hpid Huni Hpar Hzom Hwait] Hi Hun Hst Hesp Hnp Hp Hpp Hsame.
  assert (Hi0 : i ≠ 0) by (intros ->; apply Hun; unfold used; destruct Hid as [->| ->]; done).
  assert (Hu' : ∀ k, slot k → used (T' k) → k = i ∨ (k ≠ i ∧ used (T k))).
  { intros k Hk Hu. destruct (decide (k = i)) as [->|Hne]; [by left|right]. split; [done|].
    destruct (Hsame k Hk Hne) as (E&_). unfold used in *. congruence. }
  assert (Hpi : used (T' i)) by (unfold used; by rewrite Hst).
  split.
  - destruct (Hsame 0 slot_0 (not_eq_sym Hi0)) as (->&_). done.
  - done.
  - intros k Hk Hs. assert (Hne : k ≠ i) by congruence. destruct (Hsame k Hk Hne) as (E&_). apply Hrun; congruence.
  - intros k Hk Hs Hne. destruct (decide (k = i)) as [->|Hk2]; [done|].
    destruct (Hsame k Hk Hk2) as (E&_&_&_&->). rewrite E in Hs. by apply Hctx.
  - intros k Hk Hu. destruct (Hu' k Hk Hu) as [->|[Hne Hu2]]; [lia|].
    destruct (Hsame k Hk Hne) as (_&->&_). pose proof (Hpid k Hk Hu2). lia.
  - intros k l Hk Hl Hu Hv. destruct (Hu' k Hk Hu) as [->|[Hne Hu2]], (Hu' l Hl Hv) as [->|[Hne2 Hv2]]; [done|..].
    + destruct (Hsame l Hl Hne2) as (_&->&_). pose proof (Hpid l Hl Hv2). lia.
    + destruct (Hsame k Hk Hne) as (_&->&_). pose proof (Hpid k Hk Hu2). lia.
    + destruct (Hsame k Hk Hne) as (_&->&_). destruct (Hsame l Hl Hne2) as (_&->&_). by apply Huni.
  - assert (Hkeep : ∀ p, slot p → used (T p) → t_state (T p) ≠ TASK_ZOMBIE →
      p ≠ i ∧ used (T' p) ∧ t_state (T' p) ≠ TASK_ZOMBIE ∧ t_pid (T' p) = t_pid (T p)).
    { intros p Hps H1 H2. assert (Hpi2 : p ≠ i) by (intros ->; done). destruct (Hsame p Hps Hpi2) as (E&->&_).
      unfold used in *. rewrite E. done. }
    intros k Hk Hu. destruct (Hu' k Hk Hu) as [->|[Hne Hu2]].
    + destruct Hpp as [|(c&Ec&Hr&->)]; [by left|right]. exists c. pose proof (Hcur c Ec) as Hc.
      destruct (Hkeep c Hc) as (H1&H2&H3&H4); [unfold used; congruence..|]. done.
    + destruct (Hsame k Hk Hne) as (_&_&->&_). destruct (Hpar k Hk Hu2) as [|(p&Hps&Hpk&H1&H2&H3)]; [by left|right].
      exists p. destruct (Hkeep p Hps H1 H2) as (?&?&?&->). done.
  - intros k Hk Hs. assert (Hne : k ≠ i) by congruence. destruct (Hsame k Hk Hne) as (E&_&->&_). apply Hzom; congruence.
  - intros k Hk Hs. assert (Hne : k ≠ i) by congruence. destruct (Hsame k Hk Hne) as (E1&E2&_&E4&_).
    rewrite E1 in Hs. rewrite E2, E4. destruct (Hwait k Hk Hs) as [(j&Hj&Hjm) Hno]. split.
    + exists j. split; [done|]. assert (j ≠ i) by (intros ->; by destruct Hjm).
      destruct (Hsame j Hj H) as (F1&F2&F3&_). unfold matches, used in *. by rewrite F1, F2, F3.
    + intros l Hl Hlm. destruct (decide (l = i)) as [->|Hl2]; [congruence|].
      destruct (Hsame l Hl Hl2) as (F1&F2&F3&_). rewrite F1. apply Hno; [done|].
      unfold matches, used in *. by rewrite <- F1, <- F2, <- F3.
Qed.

(** A child of the running task becomes an orphan. *)
Lemma table_orphan T T' np c i :
  table_ok T (Some c) np → t_state (T c) = TASK_RUNNING → slot i → used (T i) → t_state (T i) ≠ TASK_ZOMBIE →
  t_parent_pid (T i) = t_pid (T c) →
  t_state (T' i) = t_state (T i) → t_pid (T' i) = t_pid (T i) → t_parent_pid (T' i) = -1 →
  t_wait_target_pid (T' i) = t_wait_target_pid (T i) → saved (T' i) = saved (T i) →
  (∀ k, slot k → k ≠ i → same_core (T k) (T' k)) →
  table_ok T' (Some c) np.
Proof.
  intros [Hid Hcur Hrun Hctx Hpid Huni Hpar Hzom Hwait] Hc Hi Hu Hnz Hpp E1 E2 E3 E4 E5 Hsame.
  pose proof (Hcur c eq_refl) as Hcs.
  assert (Hcase : ∀ k, slot k → t_pid (T' k) = t_pid (T k) ∧ t_state (T' k) = t_state (T k) ∧
    t_wait_target_pid (T' k) = t_wait_target_pid (T k) ∧ saved (T' k) = saved (T k) ∧
    (t_parent_pid (T' k) = t_parent_pid (T k) ∨ (k = i ∧ t_parent_pid (T' k) = -1))).
  { intros k Hk. destruct (decide (k = i)) as [->|Hne]; [split_and!; try done; by right|].
    destruct (Hsame k Hk Hne) as (?&?&?&?&?). split_and!; try done. by left. }
  split.
  - destruct (Hcase 0 slot_0) as (_&->&_). done.
  - done.
  - intros k Hk. destruct (Hcase k Hk) as (_&->&_). by apply Hrun.
  - intros k Hk. destruct (Hcase k Hk) as (_&->&_&->&_). by apply Hctx.
  - intros k Hk. unfold used. destruct (Hcase k Hk) as (->&->&_). by apply Hpid.
  - intros k l Hk Hl. unfold used. destruct (Hcase k Hk) as (->&->&_). destruct (Hcase l Hl) as (->&->&_). by apply Huni.
  - intros k Hk. unfold used. destruct (Hcase k Hk) as (_&->&_&_&[->|[_ ->]]); [|by left].
    intros Hk2. destruct (Hpar k Hk Hk2) as [|(p&Hp&Hpk&H1&H2&H3)]; [by left|right]. exists p.
    destruct (Hcase p Hp) as (->&->&_). done.
  - intros k Hk. destruct (Hcase k Hk) as (_&->&_&_&[->|[-> _]]); [by apply Hzom|done].
  - intros k Hk. destruct (Hcase k Hk) as (->&->&->&_). intros Hs.
    assert (Hnm : ¬ matches T (t_pid (T k)) (t_wait_target_pid (T k)) i).
    { intros (_&Hpk&_). rewrite Hpp in Hpk. assert (c = k); [|congruence].
      apply Huni; try done; unfold used; congruence. }
    assert (Hm : ∀ j, slot j → matches T' (t_pid (T k)) (t_wait_target_pid (T k)) j ↔
                               matches T (t_pid (T k)) (t_wait_target_pid (T k)) j).
    { intros j Hj. destruct (decide (j = i)) as [->|Hne].
      - split; [|done]. intros (_&Hpk&_). rewrite E3 in Hpk.
        assert (used (T k)) by (unfold used; congruence). pose proof (Hpid k Hk H). lia.
      - destruct (Hsame j Hj Hne) as (F1&F2&F3&_). unfold matches, used. by rewrite F1, F2, F3. }
    destruct (Hwait k Hk Hs) as [(j&Hj&Hjm) Hno]. split.
    + exists j. split; [done|]. by apply Hm.
    + intros l Hl Hlm. destruct (Hcase l Hl) as (_&->&_). apply Hno; [done|]. by apply Hm.
Qed.

(** The current task becomes a zombie. *)
Lemma table_zombie T T' np c :
  table_ok T (Some c) np → c ≠ 0 → t_state (T c) = TASK_RUNNING → t_parent_pid (T c) ≠ -1 →
  (∀ k, slot k → used (T k) → t_parent_pid (T k) ≠ t_pid (T c)) →
  (∀ w, slot w → t_state (T w) = TASK_WAIT_CHILD → ¬ matches T (t_pid (T w)) (t_wait_target_pid (T w)) c) →
  t_state (T' c) = TASK_ZOMBIE → t_pid (T' c) = t_pid (T c) → t_parent_pid (T' c) = t_parent_pid (T c) →
  (∀ k, slot k → k ≠ c → same_core (T k) (T' k)) →
  table_ok T' (Some c) np.
Proof.
  intros [Hid Hcur Hrun Hctx Hpid Huni Hpar Hzom Hwait] Hc0 Hc Hpc Hch Hnw E1 E2 E3 Hsame.
  pose proof (Hcur c eq_refl) as Hcs.
  assert (Hcase : ∀ k, slot k → t_pid (T' k) = t_pid (T k) ∧ t_parent_pid (T' k) = t_parent_pid (T k) ∧
    (used (T' k) ↔ used (T k)) ∧ (k ≠ c → same_core (T k) (T' k))).
  { intros k Hk. unfold used. destruct (decide (k = c)) as [->|Hne]; [by rewrite E1, E2, E3, Hc|].
    destruct (Hsame k Hk Hne) as (F1&F2&F3&F4&F5). rewrite F1, F2, F3. done. }
  assert (Hm : ∀ pp tg k, slot k → matches T' pp tg k ↔ matches T pp tg k).
  { intros pp tg k Hk. destruct (Hcase k Hk) as (F1&F2&F3&_). unfold matches. by rewrite F1, F2, F3. }
  split.
  - destruct (Hsame 0 slot_0 (not_eq_sym Hc0)) as (->&_). done.
  - done.
  - intros k Hk Hs. assert (Hne : k ≠ c) by congruence. destruct (Hsame k Hk Hne) as (E&_). apply Hrun; congruence.
  - intros k Hk Hs Hne. assert (Hk2 : k ≠ c) by congruence. destruct (Hsame k Hk Hk2) as (E&_&_&_&->).
    rewrite E in Hs. by apply Hctx.
  - intros k Hk. destruct (Hcase k Hk) as (->&_&->&_). by apply Hpid.
  - intros k l Hk Hl. destruct (Hcase k Hk) as (->&_&->&_). destruct (Hcase l Hl) as (->&_&->&_). by apply Huni.
  - intros k Hk. destruct (Hcase k Hk) as (_&->&->&_). intros Hu.
    destruct (Hpar k Hk Hu) as [|(p&Hp&Hpk&H1&H2&H3)]; [by left|right].
    assert (Hpc2 : p ≠ c) by (intros ->; by destruct (Hch k Hk Hu)).
    exists p. destruct (Hcase p Hp) as (->&_&->&_). destruct (Hsame p Hp Hpc2) as (->&_). done.
  - intros k Hk Hs. destruct (decide (k = c)) as [->|Hne]; [by rewrite E3|].
    destruct (Hsame k Hk Hne) as (E&_&->&_). apply Hzom; congruence.
  - intros k Hk Hs. assert (Hne : k ≠ c) by congruence. destruct (Hsame k Hk Hne) as (F1&F2&_&F4&_).
    rewrite F1 in Hs. rewrite F2, F4. destruct (Hwait k Hk Hs) as [(j&Hj&Hjm) Hno]. split.
    + exists j. split; [done|]. by apply Hm.
    + intros l Hl Hlm. apply Hm in Hlm; [|done]. destruct (decide (l = c)) as [->|Hl2].
      * by destruct (Hnw k Hk Hs).
      * destruct (Hsame l Hl Hl2) as (->&_). by apply Hno.
Qed.

(** * The whole state *)

Section state.
Context {σ : Type} `{!FileOps σ, !TaskHooks σ}.
Implicit Types (s : sched σ) (t : task).

(** Between two pieces of a task's code; [sched_wf] adds that the current task
    runs, which fails while it blocks or exits. *)
Record sched_pre s : Prop := {
  sp_len : alen (g_tasks s) = SCHED_MAX_TASKS;
  sp_cursor : slot (g_rr_cursor s);
  sp_idle : g_idle_task s = Some 0;
  sp_in : g_in_scheduler s = false;
  sp_np : 0 < g_next_pid s ≤ 2147483648;
  sp_table : table_ok (task_at s) (g_current_task s) (g_next_pid s)
}.

Definition cur_running s : Prop := ∀ c, g_current_task s = Some c → t_state (task_at s c) = TASK_RUNNING.

Definition sched_wf s : Prop :=
  sched_pre s ∧ cur_running s ∧ g_sched_started s = bool_decide (is_Some (g_current_task s)).

Lemma task_at_set s i t j :
  alen (g_tasks s) = SCHED_MAX_TASKS → slot i → 0 ≤ j →
  task_at (set_task i t s) j = if decide (i = j) then t else task_at s j.
Proof. intros Hl Hi Hj. unfold task_at, set_task. cbn [with_tasks g_tasks]. by rewrite aget_aset by (rewrite ?Hl; done). Qed.

Lemma task_at_eq s i t : alen (g_tasks s) = SCHED_MAX_TASKS → slot i → task_at (set_task i t s) i = t.
Proof. intros Hl Hi. rewrite task_at_set by (done || apply Hi). by rewrite decide_True. Qed.

Lemma task_at_ne s i t j :
  alen (g_tasks s) = SCHED_MAX_TASKS → slot i → 0 ≤ j → i ≠ j → task_at (set_task i t s) j = task_at s j.
Proof. intros Hl Hi Hj Hne. rewrite task_at_set by done. by rewrite decide_False. Qed.

Lemma set_task_len s i t : alen (g_tasks (set_task i t s)) = alen (g_tasks s).
Proof. unfold set_task. cbn [with_tasks g_tasks]. by rewrite alen_aset. Qed.

Lemma state_is_spec s i st : state_is s i st = true ↔ t_state (task_at s i) = st.
Proof. unfold state_is. apply bool_decide_eq_true. Qed.

Lemma is_current_spec s i : is_current s i = true ↔ g_current_task s = Some i.
Proof. unfold is_current. apply bool_decide_eq_true. Qed.

(** Operations that only touch what the invariant does not see. *)
Record same_sched s s' : Prop := {
  ss_len : alen (g_tasks s') = alen (g_tasks s);
  ss_cursor : g_rr_cursor s' = g_rr_cursor s;
  ss_idle : g_idle_task s' = g_idle_task s;
  ss_in : g_in_scheduler s' = g_in_scheduler s;
  ss_np : g_next_pid s' = g_next_pid s;
  ss_started : g_sched_started s' = g_sched_started s;
  ss_cur : g_current_task s' = g_current_task s;
  ss_tasks : ∀ i, slot i → same_core (task_at s i) (task_at s' i);
  ss_slice : ∀ i, slot i → t_timeslice_left (task_at s' i) = t_timeslice_left (task_at s i)
}.

Lemma same_sched_refl s : same_sched s s.
Proof. by split. Qed.

Lemma same_sched_trans s1 s2 s3 : same_sched s1 s2 → same_sched s2 s3 → same_sched s1 s3.
Proof.
  intros [A1 A2 A3 A4 A5 A6 A7 A8 A9] [B1 B2 B3 B4 B5 B6 B7 B8 B9]. split; try congruence.
  - intros i Hi. apply (same_core_trans _ (task_at s2 i)); auto.
  - intros i Hi. by rewrite B9, A9.
Qed.

Lemma same_sched_pre s s' : same_sched s s' → sched_pre s → sched_pre s'.
Proof.
  intros [E1 E2 E3 E4 E5 E6 E7 Ht _] [Hl Hc Hi Hin Hnp Htab]. split; try congruence.
  rewrite E5, E7. by apply (table_same (task_at s)).
Qed.

Lemma same_sched_wf s s' : same_sched s s' → sched_wf s → sched_wf s'.
Proof.
  intros Hs (Hp & Hr & Hst). split; [by apply (same_sched_pre s)|].
  split; [|by rewrite (ss_started _ _ Hs), (ss_cur _ _ Hs)]. intros c Hc.
  rewrite (ss_cur _ _ Hs) in Hc. destruct (ss_tasks _ _ Hs c (to_cur _ _ _ (sp_table s Hp) c Hc)) as (->&_).
  by apply Hr.
Qed.

Lemma same_on_task s i f :
  sched_pre s → slot i → same_core (task_at s i) (f (task_at s i)) →
  t_timeslice_left (f (task_at s i)) = t_timeslice_left (task_at s i) → same_sched s (on_task i f s).
Proof.
  intros Hp Hi Hf Hsl. split; try done; [apply set_task_len|..]; intros j Hj; unfold on_task;
    rewrite task_at_set by first [done|apply Hj|apply (sp_len s Hp)]; by case_decide; subst.
Qed.

Lemma same_with_mem m s : same_sched s (with_mem m s).
Proof. split; try done. Qed.

Lemma same_with_files fs s : same_sched s (with_files fs s).
Proof. split; try done. Qed.

Lemma same_flushes s :
  same_sched s (sched_flush_deferred_as_free_locked (sched_flush_deferred_stack_free_locked s)).
Proof.
  unfold sched_flush_deferred_as_free_locked, sched_flush_deferred_stack_free_locked.
  repeat case_match; split; try done.
Qed.

(** * Waking and choosing *)

Definition due s t : bool :=
  bool_decide (t_state t = TASK_SLEEPING) && (t_wake_tick t <=? timer_ticks s).

Lemma wake_sleepers_spec s :
  alen (g_tasks s) = SCHED_MAX_TASKS →
  ∃ ts, sched_wake_sleepers_locked s = with_tasks ts s ∧ alen ts = SCHED_MAX_TASKS ∧
    ∀ i, slot i → ts.[i] = if due s (task_at s i) then wake (task_at s i) else task_at s i.
Proof.
  intros Hl.
  pose (P := λ n (s' : sched σ), ∃ ts, s' = with_tasks ts s ∧ alen ts = SCHED_MAX_TASKS ∧
    ∀ i, slot i → ts.[i] = if (i <? n) && due s (task_at s i) then wake (task_at s i) else task_at s i).
  assert (HP : P SCHED_MAX_TASKS (sched_wake_sleepers_locked s)).
  { unfold sched_wake_sleepers_locked. apply (for_range_ind P); [unfold SCHED_MAX_TASKS; lia| |].
    - exists (g_tasks s). split; [by destruct s|]. split; [done|]. intros i [Hi _].
      by rewrite (proj2 (Z.ltb_ge i 0)).
    - intros n s' Hn (ts & -> & Hts & Hg). unfold wake_sleeper, state_is, due in *.
      assert (Hns : slot n) by done.
      assert (En : task_at (with_tasks ts s) n = task_at s n).
      { unfold task_at at 1. cbn [with_tasks g_tasks]. rewrite Hg by done. by rewrite Z.ltb_irrefl. }
      rewrite En. cbn [with_tasks timer_ticks].
      destruct (bool_decide (t_state (task_at s n) = TASK_SLEEPING) && (t_wake_tick (task_at s n) <=? timer_ticks s)) eqn:Ed.
      + exists ts.[n <- wake (task_at s n)]. split; [|split].
        * unfold on_task, set_task. rewrite En. done.
        * by rewrite alen_aset.
        * intros i Hi. rewrite aget_aset by (rewrite ?Hts; done || apply Hi). destruct (decide (n = i)) as [<-|Hne].
          -- rewrite Ed. by rewrite (proj2 (Z.ltb_lt n (n + 1))) by lia.
          -- rewrite Hg by done. replace (i <? n + 1) with (i <? n); [done|].
             destruct (Z.ltb_spec i n), (Z.ltb_spec i (n + 1)); try done; lia.
      + exists ts. split; [done|]. split; [done|]. intros i Hi. rewrite Hg by done.
        destruct (decide (n = i)) as [<-|Hne].
        * rewrite Ed, Z.ltb_irrefl. cbn [andb]. by rewrite andb_false_r.
        * replace (i <? n + 1) with (i <? n); [done|].
          destruct (Z.ltb_spec i n), (Z.ltb_spec i (n + 1)); try done; lia. }
  destruct HP as (ts & E & Hts & Hg). exists ts. split; [done|]. split; [done|]. intros i Hi. rewrite Hg by done.
  by rewrite (proj2 (Z.ltb_lt _ _)) by apply Hi.
Qed.

Lemma due_sleeping s t : due s t = true → t_state t = TASK_SLEEPING.
Proof. unfold due. rewrite andb_true_iff, bool_decide_eq_true. tauto. Qed.

Lemma woken_core s t : core_or_woken t (if due s t then wake t else t).
Proof.
  destruct (due s t) eqn:E; [right|by left]. apply due_sleeping in E.
  unfold wake. cbn [set_timeslice set_state t_state t_pid t_parent_pid t_esp]. split_and!; try done. by left.
Qed.

Lemma wake_pre s : sched_pre s → sched_pre (sched_wake_sleepers_locked s).
Proof.
  intros Hp. pose proof Hp as [Hl Hc Hi Hin Hnp Htab].
  destruct (wake_sleepers_spec s Hl) as (ts & -> & Hts & Hg). split; try done.
  cbn [with_tasks g_current_task g_next_pid]. apply (table_wake (task_at s)); [done|].
  intros i His. unfold task_at at 2. cbn [with_tasks g_tasks]. rewrite Hg by done. apply woken_core.
Qed.

Lemma turn_slot s n : slot (add32 (g_rr_cursor s) n mod SCHED_MAX_TASKS).
Proof. unfold slot. apply Z.mod_pos_bound. done. Qed.

(** Somebody is chosen: a runnable task in its turn, the current task when it
    can go on, or the idle task. *)
Lemma pick_cases s :
  sched_pre s →
  ∃ n s', sched_pick_next_locked s = (Some n, s') ∧ slot n ∧ s' = with_cursor (g_rr_cursor s') s ∧
    slot (g_rr_cursor s') ∧
    ((g_current_task s = Some n ∧ (t_state (task_at s n) = TASK_RUNNING ∨ t_state (task_at s n) = TASK_RUNNABLE)) ∨
     (g_current_task s ≠ Some n ∧ t_state (task_at s n) = TASK_RUNNABLE)).
Proof.
  intros [Hl Hc Hi Hin Hnp Htab]. unfold sched_pick_next_locked.
  destruct (search_range 0 SCHED_MAX_TASKS (turn s)) as [idx|] eqn:E.
  - apply search_range_Some in E as (n & Hn & Ht & _). unfold turn in Ht.
    destruct (is_current s _ || _) eqn:Ec; [done|]. destruct (state_is s _ TASK_RUNNABLE) eqn:Es; [|done].
    injection Ht as <-. apply orb_false_iff in Ec as [Ec _]. eexists _, _. split; [done|].
    split; [apply turn_slot|]. split; [done|]. split; [apply Z.mod_pos_bound; done|]. right.
    apply state_is_spec in Es. split; [|done]. intros Hcur. by rewrite (proj2 (is_current_spec s _) Hcur) in Ec.
  - assert (Hs : s = with_cursor (g_rr_cursor s) s) by (by destruct s). rewrite Hi.
    assert (Hidle : (t_state (task_at s 0) = TASK_RUNNING → g_current_task s = Some 0)) by (apply (to_running _ _ _ Htab 0 slot_0)).
    assert (Hgo : g_current_task s ≠ Some 0 → state_is s 0 TASK_RUNNABLE = true).
    { intros Hne. apply state_is_spec. destruct (to_idle _ _ _ Htab) as [|Hr]; [done|]. by destruct Hne; apply Hidle. }
    destruct (g_current_task s) as [c|] eqn:Ec.
    + pose proof (to_cur _ _ _ Htab c eq_refl) as Hcs.
      destruct (state_is s c TASK_RUNNING || state_is s c TASK_RUNNABLE) eqn:Er.
      * exists c, s. split_and!; try done; try apply Hcs; try apply Hc. left. split; [done|].
        apply orb_true_iff in Er as [Er|Er]; apply state_is_spec in Er; tauto.
      * assert (Hc0 : Some c ≠ Some 0).
        { intros [= ->]. apply orb_false_iff in Er as [Er1 Er2].
          destruct (to_idle _ _ _ Htab) as [E0|E0]; apply state_is_spec in E0; congruence. }
        rewrite (Hgo Hc0). exists 0, s. split_and!; try done; try apply Hc. right.
        split; [done|]. by apply state_is_spec, Hgo.
    + rewrite Hgo by done. exists 0, s. split_and!; try done; try apply Hc. right.
      split; [done|]. by apply state_is_spec, Hgo.
Qed.

(** * Switching *)

Definition same_identity t t' : Prop :=
  t_pid t' = t_pid t ∧ t_parent_pid t' = t_parent_pid t ∧ t_exec_mode t' = t_exec_mode t ∧
  t_user t' = t_user t ∧ t_fd_table t' = t_fd_table t ∧ t_stack_base t' = t_stack_base t ∧
  t_address_space t' = t_address_space t ∧ t_wait_target_pid t' = t_wait_target_pid t ∧
  t_entry t' = t_entry t ∧ t_arg t' = t_arg t.

(** The step from [s] to a state in which task [n] runs. *)
Record switched s s' (n : Z) : Prop := {
  sd_cur : g_current_task s' = Some n;
  sd_slot : slot n;
  sd_identity : ∀ i, slot i → same_identity (task_at s i) (task_at s' i);
  sd_state : ∀ i, slot i → t_state (task_at s' i) =
    if decide (i = n) then TASK_RUNNING
    else if decide (t_state (task_at s i) = TASK_RUNNING) then TASK_RUNNABLE else t_state (task_at s i);
  sd_slice : t_timeslice_left (task_at s' n) =
    if decide (g_current_task s = Some n) then t_timeslice_left (task_at s n) else SCHED_DEFAULT_TIMESLICE;
  sd_files : files s' = files s;
  sd_next : g_next_pid s' = g_next_pid s ∧ timer_ticks s' = timer_ticks s
}.

Lemma resumed_ok c s :
  (∃ n, g_current_task s = Some n ∧ can_resume (c, t_entry (task_at s n))) →
  ∃ s', resumed c s = Some s' ∧ g_in_scheduler s' = false ∧ g_tasks s' = g_tasks s ∧
    g_rr_cursor s' = g_rr_cursor s ∧ g_idle_task s' = g_idle_task s ∧ g_next_pid s' = g_next_pid s ∧
    g_sched_started s' = g_sched_started s ∧ g_current_task s' = g_current_task s ∧ files s' = files s ∧
    timer_ticks s' = timer_ticks s.
Proof.
  intros (n & Hn & Hc). destruct c; [done| |].
  { cbn [resumed]. rewrite Hn. destruct (t_entry (task_at s n)); [|done]. by eexists. }
  eexists. split; [done|].
  unfold sched_flush_deferred_as_free_locked, sched_flush_deferred_stack_free_locked.
  by repeat case_match.
Qed.

(** The task table right after [switch_to]. *)
Lemma switch_to_tasks s n i :
  alen (g_tasks s) = SCHED_MAX_TASKS → slot n → slot i → g_current_task s ≠ Some n →
  (∀ c, g_current_task s = Some c → slot c) →
  task_at (switch_to n s) i =
    if decide (n = i) then set_switches (add32 (t_switches (task_at s n)) 1)
      (set_timeslice SCHED_DEFAULT_TIMESLICE (set_state TASK_RUNNING (task_at s n)))
    else if decide (g_current_task s = Some i) then
      set_esp InSwitch (if decide (t_state (task_at s i) = TASK_RUNNING)
                        then set_state TASK_RUNNABLE (task_at s i) else task_at s i)
    else task_at s i.
Proof.
  intros Hl Hn Hi Hne Hcs. unfold switch_to. cbn [with_in_scheduler g_current_task].
  destruct (g_current_task s) as [p|] eqn:Ec.
  - pose proof (Hcs p eq_refl) as Hp. assert (Hpn : p ≠ n) by congruence.
    set (s1 := if state_is _ p TASK_RUNNING then _ else _).
    assert (Hs1 : alen (g_tasks s1) = SCHED_MAX_TASKS) by (unfold s1, on_task; case_match; [rewrite set_task_len|]; exact Hl).
    assert (Ht1 : ∀ j, 0 ≤ j → task_at s1 j = if decide (p = j) then
      if decide (t_state (task_at s p) = TASK_RUNNING) then set_state TASK_RUNNABLE (task_at s p) else task_at s p
      else task_at s j).
    { intros j Hj. unfold s1, state_is. change (task_at (with_in_scheduler true s)) with (task_at s).
      destruct (decide (t_state (task_at s p) = TASK_RUNNING)) as [Er|Er].
      - rewrite bool_decide_true by done. unfold on_task. rewrite task_at_set by done. done.
      - rewrite bool_decide_false by done. case_decide; [by subst|done]. }
    set (s2 := on_task n _ s1).
    assert (Hs2 : alen (g_tasks s2) = SCHED_MAX_TASKS) by (unfold s2, on_task; by rewrite set_task_len).
    match goal with |- task_at (on_task p _ ?s3) i = _ =>
      assert (Hs3 : task_at s3 = task_at s2) by reflexivity;
      assert (Hl3 : alen (g_tasks s3) = SCHED_MAX_TASKS) by exact Hs2;
      unfold on_task at 1; rewrite (task_at_set s3 p _ i Hl3 Hp (proj1 Hi)); rewrite !Hs3
    end.
    unfold s2, on_task. rewrite !task_at_set by (done || apply Hi || apply Hp).
    rewrite !Ht1 by (apply Hn || apply Hi || apply Hp).
    destruct (decide (p = i)) as [<-|Hpi].
    + rewrite (decide_False (P := n = p)), (decide_True (P := p = p)), (decide_True (P := Some p = Some p)) by congruence.
      by rewrite ?(decide_False (P := n = p)) by congruence.
    + rewrite (decide_False (P := p = n)) by done. destruct (decide (n = i)); [done|].
      by rewrite decide_False by congruence.
  - set (s2 := on_task n _ _).
    match goal with |- task_at ?s3 i = _ => change (task_at s3 i) with (task_at s2 i) end.
    unfold s2, on_task.
    rewrite task_at_set by (done || apply Hi). by destruct (decide (n = i)).
Qed.

Lemma same_identity_refl t : same_identity t t.
Proof. done. Qed.

Lemma same_identity_trans t1 t2 t3 : same_identity t1 t2 → same_identity t2 t3 → same_identity t1 t3.
Proof. unfold same_identity. intros (?&?&?&?&?&?&?&?&?&?) (?&?&?&?&?&?&?&?&?&?). split_and!; congruence. Qed.

(** The current task goes on. *)
Lemma switch_same s n :
  sched_pre s → g_sched_started s = true → g_current_task s = Some n →
  t_state (task_at s n) = TASK_RUNNING ∨ t_state (task_at s n) = TASK_RUNNABLE →
  ∃ s', sched_switch_locked n s = Some s' ∧ sched_wf s' ∧ switched s s' n ∧ g_rr_cursor s' = g_rr_cursor s.
Proof.
  intros Hp Hstart Hcur Hst. pose proof Hp as [Hl Hc Hi Hin Hnp Htab].
  pose proof (to_cur _ _ _ Htab n Hcur) as Hn. unfold sched_switch_locked. rewrite Hin, Hstart.
  rewrite (proj2 (is_current_spec s n) Hcur). cbn [andb].
  set (s' := if state_is s n TASK_RUNNABLE then on_task n (set_state TASK_RUNNING) s else s).
  assert (Htask : ∀ i, slot i → task_at s' i = if decide (i = n)
    then (if decide (t_state (task_at s n) = TASK_RUNNABLE) then set_state TASK_RUNNING (task_at s n) else task_at s n)
    else task_at s i).
  { intros i His. unfold s', state_is. destruct (decide (t_state (task_at s n) = TASK_RUNNABLE)) as [E|E].
    - rewrite bool_decide_true by done. unfold on_task. rewrite task_at_set by (done || apply His).
      destruct (decide (n = i)) as [->|]; [by rewrite decide_True|by rewrite decide_False by congruence].
    - rewrite bool_decide_false by done. by case_decide; subst. }
  assert (Hf : g_current_task s' = g_current_task s ∧ files s' = files s ∧ g_next_pid s' = g_next_pid s ∧
    timer_ticks s' = timer_ticks s ∧ g_rr_cursor s' = g_rr_cursor s ∧ g_idle_task s' = g_idle_task s ∧
    g_in_scheduler s' = g_in_scheduler s ∧ g_sched_started s' = g_sched_started s ∧
    alen (g_tasks s') = alen (g_tasks s)).
  { unfold s'. destruct (state_is s n TASK_RUNNABLE); split_and!; try done. apply set_task_len. }
  destruct Hf as (F1&F2&F3&F4&F5&F6&F7&F8&F9).
  assert (Hrun : t_state (task_at s' n) = TASK_RUNNING).
  { rewrite Htask, decide_True by done. case_decide as Hd; [done|]. tauto. }
  exists s'. split; [done|]. split; [split; [|split]|split; [split|done]]; try done; try congruence.
  - split; try congruence. rewrite F1, F3, Hcur. apply (table_park (task_at s)); try done.
    + by rewrite <- Hcur.
    + by left.
    + rewrite Htask, decide_True by done. by destruct (decide _).
    + rewrite Htask, decide_True by done. by destruct (decide _).
    + intros k Hk Hkn. by rewrite Htask, decide_False.
  - rewrite F8, F1, Hcur, Hstart. by rewrite bool_decide_true by (by eexists).
  - intros i His. rewrite Htask by done. destruct (decide (i = n)) as [->|]; [by destruct (decide _)|done].
  - intros i His. destruct (decide (i = n)) as [->|Hne]; [done|]. rewrite Htask, decide_False by done.
    rewrite decide_False; [done|]. intros Hr. apply (to_running _ _ _ Htab i His) in Hr. congruence.
  - rewrite Htask by done. rewrite (decide_True (P := n = n)), (decide_True (P := _ = Some n)) by done.
    by destruct (decide _).
Qed.

Lemma switch_to_fields s n :
  g_rr_cursor (switch_to n s) = g_rr_cursor s ∧ g_idle_task (switch_to n s) = g_idle_task s ∧
  g_next_pid (switch_to n s) = g_next_pid s ∧ g_sched_started (switch_to n s) = g_sched_started s ∧
  g_current_task (switch_to n s) = Some n ∧ files (switch_to n s) = files s ∧
  timer_ticks (switch_to n s) = timer_ticks s ∧ alen (g_tasks (switch_to n s)) = alen (g_tasks s).
Proof.
  unfold switch_to. cbn [with_in_scheduler g_current_task].
  destruct (g_current_task s) as [p|]; [destruct (state_is _ p TASK_RUNNING)|]; split_and!; try reflexivity.
  all: unfold on_task, set_task;
    cbn [with_tasks with_mem with_tss_esp0 with_switches with_current with_in_scheduler with_bootstrap_esp g_tasks];
    by rewrite !alen_aset.
Qed.

(** Another task that can run does. *)
Lemma switch_other s n :
  sched_pre s → g_sched_started s = true → slot n → g_current_task s ≠ Some n →
  t_state (task_at s n) = TASK_RUNNABLE →
  ∃ s', sched_switch_locked n s = Some s' ∧ sched_wf s' ∧ switched s s' n ∧ g_rr_cursor s' = g_rr_cursor s.
Proof.
  intros Hp Hstart Hn Hcur Hst. pose proof Hp as [Hl Hc Hi Hin Hnp Htab]. unfold sched_switch_locked.
  assert (Hic : is_current s n = false) by (apply bool_decide_eq_false; done).
  rewrite Hin, Hic. cbn [andb].
  assert (Hcs : ∀ c, g_current_task s = Some c → slot c) by (apply (to_cur _ _ _ Htab)).
  pose proof (λ i Hi, switch_to_tasks s n i Hl Hn Hi Hcur Hcs) as Htask.
  destruct (switch_to_fields s n) as (W1&W2&W3&W4&W5&W6&W7&W8).
  assert (Hesp : ∃ k, g_current_task (switch_to n s) = Some k ∧
    can_resume (t_esp (task_at s n), t_entry (task_at (switch_to n s) k))).
  { exists n. split; [done|]. rewrite Htask, decide_True by done.
    exact (to_ctx _ _ _ Htab n Hn ltac:(rewrite Hst; set_solver) Hcur). }
  destruct (resumed_ok (t_esp (task_at s n)) (switch_to n s) Hesp) as (s' & -> & R1&R2&R3&R4&R5&R6&R7&R8&R9).
  assert (Hta : ∀ i, slot i → task_at s' i = task_at (switch_to n s) i) by (intros; unfold task_at; by rewrite R2).
  assert (Hst' : ∀ i, slot i → t_state (task_at s' i) = if decide (i = n) then TASK_RUNNING
    else if decide (t_state (task_at s i) = TASK_RUNNING) then TASK_RUNNABLE else t_state (task_at s i)).
  { intros i His. rewrite Hta, Htask by done. destruct (decide (n = i)) as [->|Hne]; [by rewrite decide_True|].
    rewrite (decide_False (P := i = n)) by congruence. destruct (decide (g_current_task s = Some i)) as [Ei|Ei].
    - cbn [set_esp t_state]. by destruct (decide (t_state (task_at s i) = TASK_RUNNING)).
    - rewrite decide_False; [done|]. intros Hr. apply Ei. by apply (to_running _ _ _ Htab). }
  exists s'. split; [done|]. split; [split; [|split]|split; [split|]]; try done; try congruence.
  - split; try congruence.
    rewrite R7, W5, R5, W3. apply (table_switch (task_at s) (task_at s') (g_current_task s) _ n Htab Hn Hcur); try done.
    + by rewrite Hst', decide_True.
    + by rewrite Hta, Htask, decide_True.
    + by rewrite Hta, Htask, decide_True.
    + intros k Hk Hkn Hkc. rewrite Hta, Htask by done. by rewrite !decide_False by congruence.
    + intros c Ec. pose proof (Hcs c Ec) as Hc'. assert (Hcn : c ≠ n) by congruence.
      rewrite Hst' by done. rewrite (decide_False (P := c = n)) by done. rewrite Hta, Htask by done.
      rewrite (decide_False (P := n = c)) by congruence. rewrite decide_True by done.
      by destruct (decide (t_state (task_at s c) = TASK_RUNNING)).
  - intros c Ec. assert (c = n) by congruence. subst. by rewrite Hst', decide_True.
  - rewrite R6, W4, Hstart, R7, W5. done.
  - intros i His. rewrite Hta, Htask by done. destruct (decide (n = i)) as [->|]; [done|].
    destruct (decide (g_current_task s = Some i)); [|done].
    by destruct (decide (t_state (task_at s i) = TASK_RUNNING)).
  - rewrite Hta, Htask by done. by rewrite decide_True, decide_False by done.
  - split; congruence.
Qed.

(** The scheduler finds a task to run. *)
Lemma schedule_cases s :
  sched_pre s → g_sched_started s = true →
  ∃ s' n, sched_schedule_locked s = Some s' ∧ sched_wf s' ∧
    switched (sched_wake_sleepers_locked s) s' n ∧
    fst (sched_pick_next_locked (sched_wake_sleepers_locked s)) = Some n ∧
    g_rr_cursor s' = g_rr_cursor (snd (sched_pick_next_locked (sched_wake_sleepers_locked s))).
Proof.
  intros Hp Hstart. unfold sched_schedule_locked. pose proof (wake_pre s Hp) as Hp1.
  destruct (wake_sleepers_spec s (sp_len s Hp)) as (ts & Ew & _). rewrite Ew in *.
  destruct (pick_cases _ Hp1) as (n & s2 & E & Hn & Es2 & Hcur2 & Hcase). rewrite E. cbn [fst snd].
  assert (Hp2 : sched_pre s2).
  { rewrite Es2. destruct Hp1 as [Hl Hc Hi Hin Hnp Htab]. split; try done. }
  assert (Hst2 : g_sched_started s2 = true) by (by rewrite Es2).
  assert (Ht : ∀ i, task_at s2 i = task_at (with_tasks ts s) i) by (intros; by rewrite Es2).
  assert (Hsw : ∃ s', sched_switch_locked n s2 = Some s' ∧ sched_wf s' ∧ switched s2 s' n ∧ g_rr_cursor s' = g_rr_cursor s2).
  { destruct Hcase as [[H1 H2]|[H1 H2]]; [apply switch_same|apply switch_other]; try done;
      rewrite ?Ht; try done; by rewrite Es2. }
  destruct Hsw as (s' & E' & Hw & [D1 D2 D3 D4 D7 D5 D6] & Hcur). exists s', n. split; [done|]. split; [done|].
  split; [|done]. split; try done.
  - intros i Hi. rewrite <- Ht. by apply D3.
  - intros i Hi. rewrite <- Ht. by apply D4.
  - rewrite <- Ht, D7. by rewrite Es2.
  - by rewrite D5, Es2.
  - by rewrite Es2 in D6.
Qed.

(** * Looking tasks up *)

Lemma find_pid_spec s pid :
  match sched_find_task_by_pid_locked pid s with
  | Some p => slot p ∧ used (task_at s p) ∧ t_pid (task_at s p) = pid
  | None => ∀ p, slot p → used (task_at s p) → t_pid (task_at s p) ≠ pid
  end.
Proof.
  unfold sched_find_task_by_pid_locked, used.
  destruct (search_range _ _ _) as [p|] eqn:E.
  - apply search_range_Some in E as (i & Hi & Ei & _).
    destruct (state_is s i TASK_UNUSED) eqn:Es; [done|]. destruct (Z.eqb_spec (t_pid (task_at s i)) pid); [|done].
    injection Ei as <-. split_and!; try done; try apply Hi. intros Hu. apply state_is_spec in Hu. congruence.
  - rewrite search_range_None in E. intros p Hps Hu Hpid. specialize (E p Hps).
    destruct (state_is s p TASK_UNUSED) eqn:Es; [by apply state_is_spec in Es|].
    by rewrite (proj2 (Z.eqb_eq _ _) Hpid) in E.
Qed.

Lemma find_pid_unique s p :
  sched_pre s → slot p → used (task_at s p) → sched_find_task_by_pid_locked (t_pid (task_at s p)) s = Some p.
Proof.
  intros Hp Hs Hu. pose proof (find_pid_spec s (t_pid (task_at s p))) as H.
  destruct (sched_find_task_by_pid_locked _ s) as [q|]; [|by destruct (H p Hs Hu)].
  destruct H as (H1 & H2 & H3). f_equal. by apply (to_unique _ _ _ (sp_table s Hp)).
Qed.

Lemma find_slot_spec s :
  match sched_find_task_slot s with
  | Some i => slot i ∧ t_state (task_at s i) = TASK_UNUSED
  | None => ∀ i, slot i → used (task_at s i)
  end.
Proof.
  unfold sched_find_task_slot, used. destruct (search_range _ _ _) as [p|] eqn:E.
  - apply search_range_Some in E as (i & Hi & Ei & _). destruct (state_is s i TASK_UNUSED) eqn:Es; [|done].
    injection Ei as <-. split; [done|]. by apply state_is_spec.
  - rewrite search_range_None in E. intros i Hi Hu. apply state_is_spec in Hu. specialize (E i Hi). by rewrite Hu in E.
Qed.

Lemma child_matches_spec s pp tg k :
  child_matches s pp tg k = true ↔ matches (task_at s) pp tg k.
Proof.
  unfold child_matches, matches, used. rewrite !andb_true_iff, negb_true_iff, orb_true_iff, !Z.eqb_eq.
  unfold state_is. rewrite bool_decide_eq_false. tauto.
Qed.

Lemma find_zombie_spec s pp tg :
  let '(z, has) := sched_find_matching_zombie_child_locked s pp tg in
  match z with
  | Some i => slot i ∧ matches (task_at s) pp tg i ∧ t_state (task_at s i) = TASK_ZOMBIE ∧
      (∀ j, 0 ≤ j < i → matches (task_at s) pp tg j → t_state (task_at s j) ≠ TASK_ZOMBIE)
  | None => ∀ i, slot i → matches (task_at s) pp tg i → t_state (task_at s i) ≠ TASK_ZOMBIE
  end ∧
  (has = true ↔ ∃ k, slot k ∧ matches (task_at s) pp tg k).
Proof.
  unfold sched_find_matching_zombie_child_locked. split.
  - assert (Hno : ∀ j, (if child_matches s pp tg j && state_is s j TASK_ZOMBIE then Some j else None) = None →
      matches (task_at s) pp tg j → t_state (task_at s j) ≠ TASK_ZOMBIE).
    { intros j E Hm Hz. apply child_matches_spec in Hm. apply state_is_spec in Hz. by rewrite Hm, Hz in E. }
    destruct (search_range _ _ _) as [p|] eqn:E.
    + apply search_range_Some in E as (i & Hi & Ei & Hlt).
      destruct (child_matches s pp tg i && state_is s i TASK_ZOMBIE) eqn:Ec; [|done]. injection Ei as <-.
      apply andb_true_iff in Ec as [E1%child_matches_spec E2%state_is_spec]. split_and!; try done; try apply Hi.
      intros j Hj. apply Hno. by apply Hlt.
    + rewrite search_range_None in E. intros i Hi. apply Hno. by apply E.
  - rewrite existsb_exists. split.
    + intros (k & Hk & Hm). exists k. apply list_elem_of_In, elem_of_seqZ in Hk. split; [unfold slot; lia|].
      by apply child_matches_spec.
    + intros (k & Hk & Hm). exists k. split; [|by apply child_matches_spec].
      apply list_elem_of_In, elem_of_seqZ. unfold slot in Hk. lia.
Qed.

(** * Reaping *)

Lemma reap_eq s i :
  used (task_at s i) → g_current_task s ≠ Some i →
  ∃ m fs, sched_reap_task_locked i s = set_task i task_reset (with_mem m (with_files fs s)).
Proof.
  intros Hu Hc. unfold sched_reap_task_locked. unfold state_is, is_current.
  rewrite !bool_decide_false by done. cbn [orb].
  destruct (t_stack_base (task_at s i) =? 0), (own_address_space (t_address_space (task_at s i))).
  - eexists _, _. reflexivity.
  - exists (mem s), (usermode_notify_task_reaped (t_pid (task_at s i))
                       (display_gui_notify_task_exit (t_pid (task_at s i)) (files s))).
    by destruct s.
  - eexists _, _. reflexivity.
  - eexists _, _. reflexivity.
Qed.

Definition same_clock s s' : Prop := timer_ticks s' = timer_ticks s ∧ g_rr_cursor s' = g_rr_cursor s.

Lemma same_clock_trans s1 s2 s3 : same_clock s1 s2 → same_clock s2 s3 → same_clock s1 s3.
Proof. intros [A1 A2] [B1 B2]. split; congruence. Qed.

Lemma reap_zombie s i :
  sched_pre s → slot i → t_state (task_at s i) = TASK_ZOMBIE → g_current_task s ≠ Some i →
  sched_pre (sched_reap_task_locked i s) ∧
  (∀ j, slot j → task_at (sched_reap_task_locked i s) j = if decide (i = j) then task_reset else task_at s j) ∧
  g_current_task (sched_reap_task_locked i s) = g_current_task s ∧
  g_sched_started (sched_reap_task_locked i s) = g_sched_started s ∧
  g_next_pid (sched_reap_task_locked i s) = g_next_pid s ∧ same_clock s (sched_reap_task_locked i s).
Proof.
  intros Hp Hi Hz Hc. pose proof Hp as [Hl Hcu Hid Hin Hnp Htab].
  destruct (reap_eq s i ltac:(unfold used; congruence) Hc) as (m & fs & ->).
  assert (Ht : ∀ j, slot j → task_at (set_task i task_reset (with_mem m (with_files fs s))) j =
    if decide (i = j) then task_reset else task_at s j).
  { intros j Hj. rewrite task_at_set by (done || apply Hj). done. }
  split; [|split; [exact Ht|done]]. split; try done; [by rewrite set_task_len|].
  apply (table_remove (task_at s) _ _ _ i Htab Hi).
  - intros ->. destruct (to_idle _ _ _ Htab); congruence.
  - by rewrite Ht, decide_True.
  - intros k Hk Hne. by rewrite Ht, decide_False by congruence.
  - by right.
  - intros _ w Hw Hs Hm. destruct (to_wait _ _ _ Htab w Hw Hs) as [_ Hno]. by apply (Hno i Hi Hm).
Qed.

(** * Exit *)

(** What happens to the children of a task that exits. *)
Definition after_parent (ppid : Z) t : task :=
  if decide (t_state t = TASK_UNUSED ∨ t_parent_pid t ≠ ppid) then t
  else if decide (t_state t = TASK_ZOMBIE) then task_reset
  else set_parent_pid (-1) t.

Lemma no_own_child s c :
  sched_pre s → slot c → used (task_at s c) → t_parent_pid (task_at s c) ≠ t_pid (task_at s c).
Proof.
  intros Hp Hc Hu E. pose proof (sp_table s Hp) as Htab. pose proof (to_pid _ _ _ Htab c Hc Hu).
  destruct (to_parent _ _ _ Htab c Hc Hu) as [E1|(p & Hps & Hne & H1 & _ & H2)]; [lia|].
  apply Hne. apply (to_unique _ _ _ Htab); try done. congruence.
Qed.

(** One round of the loop. *)
Lemma orphan_child_cases s c n :
  sched_pre s → g_current_task s = Some c → t_state (task_at s c) = TASK_RUNNING → slot n →
  let pid := t_pid (task_at s c) in
  let s' := orphan_or_reap_child pid n s in
  sched_pre s' ∧ g_current_task s' = g_current_task s ∧ g_sched_started s' = g_sched_started s ∧
  g_next_pid s' = g_next_pid s ∧ same_clock s s' ∧
  ∀ j, slot j → task_at s' j = if decide (n = j) then after_parent pid (task_at s n) else task_at s j.
Proof.
  intros Hp Hcur Hrun Hn pid. cbv zeta. unfold orphan_or_reap_child, state_is, after_parent.
  destruct (decide (t_state (task_at s n) = TASK_UNUSED ∨ t_parent_pid (task_at s n) ≠ pid)) as [Hno|Hyes].
  { rewrite (proj2 (orb_true_iff _ _)) by (rewrite bool_decide_eq_true, negb_true_iff, Z.eqb_neq; done).
    split_and!; try done. intros j Hj. case_decide; [by subst|done]. }
  assert (Hpp : t_parent_pid (task_at s n) = pid) by (destruct (decide (t_parent_pid (task_at s n) = pid)); tauto).
  assert (Hu : used (task_at s n)) by (unfold used; tauto).
  rewrite (proj2 (orb_false_iff _ _)) by (rewrite bool_decide_eq_false, negb_false_iff, Z.eqb_eq; done).
  destruct (decide (t_state (task_at s n) = TASK_ZOMBIE)) as [Hz|Hnz].
  - rewrite bool_decide_true by done.
    destruct (reap_zombie s n Hp Hn Hz ltac:(rewrite Hcur; intros [= ->]; congruence)) as (Q1&Q2&Q3&Q4&Q5&Q6). done.
  - rewrite bool_decide_false by done.
    assert (Ht : ∀ j, slot j → task_at (on_task n (set_parent_pid (-1)) s) j =
      if decide (n = j) then set_parent_pid (-1) (task_at s n) else task_at s j).
    { intros j Hj. unfold on_task. by rewrite task_at_set by (apply Hj || apply (sp_len s Hp) || done). }
    split_and!; try done. destruct Hp as [Hl Hcu Hid Hin Hnp Htab].
    split; try done; [unfold on_task; by rewrite set_task_len|].
    change (g_current_task (on_task n (set_parent_pid (-1)) s)) with (g_current_task s). rewrite Hcur in *.
    apply (table_orphan (task_at s) _ _ c n Htab); try done.
    all: try (rewrite Ht by done; by rewrite decide_True).
    intros k Hk Hkn. by rewrite Ht, decide_False by congruence.
Qed.

Lemma orphans_cases s c :
  sched_pre s → g_current_task s = Some c → t_state (task_at s c) = TASK_RUNNING →
  let s' := sched_orphan_or_reap_children_locked (t_pid (task_at s c)) s in
  sched_pre s' ∧ g_current_task s' = g_current_task s ∧ g_sched_started s' = g_sched_started s ∧
  g_next_pid s' = g_next_pid s ∧ same_clock s s' ∧
  ∀ i, slot i → task_at s' i = after_parent (t_pid (task_at s c)) (task_at s i).
Proof.
  intros Hp Hcur Hrun. set (pid := t_pid (task_at s c)). cbv zeta.
  pose proof (to_cur _ _ _ (sp_table s Hp) c Hcur) as Hc.
  assert (Hself : after_parent pid (task_at s c) = task_at s c).
  { unfold after_parent. rewrite decide_True; [done|]. right. apply no_own_child; try done. unfold used. congruence. }
  pose (P := λ n (s' : sched σ), sched_pre s' ∧ g_current_task s' = g_current_task s ∧
    g_sched_started s' = g_sched_started s ∧ g_next_pid s' = g_next_pid s ∧ same_clock s s' ∧
    ∀ i, slot i → task_at s' i = if decide (i < n) then after_parent pid (task_at s i) else task_at s i).
  assert (HP : P SCHED_MAX_TASKS (sched_orphan_or_reap_children_locked pid s)).
  { unfold sched_orphan_or_reap_children_locked. apply (for_range_ind P); [unfold SCHED_MAX_TASKS; lia| |].
    - split_and!; try done. intros i [Hi _]. by rewrite decide_False by lia.
    - intros n s1 Hn (Hp1 & Hc1 & Hst1 & Hnp1 & Htk1 & Ht1). assert (Hns : slot n) by done.
      assert (Hcr1 : task_at s1 c = task_at s c) by (rewrite Ht1 by done; case_decide; [exact Hself|done]).
      pose proof (orphan_child_cases s1 c n Hp1 ltac:(congruence) ltac:(congruence) Hns) as Hstep.
      cbv zeta in Hstep. rewrite Hcr1 in Hstep. fold pid in Hstep. destruct Hstep as (Q1&Q2&Q3&Q4&Q5&Q6).
      pose proof (same_clock_trans _ _ _ Htk1 Q5). split; [done|]. do 3 (split; [congruence|]). split; [done|]. intros i Hi. rewrite Q6 by done.
      destruct (decide (n = i)) as [<-|Hne].
      + rewrite (decide_True (P := n < n + 1)) by lia. rewrite Ht1 by done. by rewrite decide_False by lia.
      + rewrite Ht1 by done. destruct (decide (i < n)); [by rewrite decide_True by lia|by rewrite decide_False by lia]. }
  destruct HP as (H1&H2&H3&H4&H5&H6). split_and!; try done. intros i Hi. rewrite H6 by done.
  by rewrite decide_True by apply Hi.
Qed.

Lemma keep_zombie_spec s c :
  sched_pre s → slot c → used (task_at s c) →
  keep_zombie c s = true ↔ t_parent_pid (task_at s c) ≠ -1.
Proof.
  intros Hp Hc Hu. pose proof (sp_table s Hp) as Htab. unfold keep_zombie. cbv zeta.
  destruct (to_parent _ _ _ Htab c Hc Hu) as [E|(p & Hps & Hne & Hup & Hz & E)].
  - rewrite E. by split.
  - pose proof (to_pid _ _ _ Htab p Hps Hup). rewrite (proj2 (Z.leb_gt _ 0)) by lia. rewrite <- E.
    rewrite find_pid_unique by done. unfold state_is. rewrite !bool_decide_false by done.
    split; [lia|done].
Qed.

(** The wake-up of the parent: who is woken, and nothing else. *)
Lemma wake_parent_spec s ppid cpid :
  alen (g_tasks s) = SCHED_MAX_TASKS →
  (∀ i j, slot i → slot j → used (task_at s i) → used (task_at s j) → t_pid (task_at s i) = t_pid (task_at s j) → i = j) →
  0 < ppid →
  ∃ s', sched_maybe_wake_parent_waiter_locked ppid cpid s = s' ∧ s' = with_tasks (g_tasks s') s ∧
    alen (g_tasks s') = SCHED_MAX_TASKS ∧
    ∀ i, slot i → task_at s' i =
      if decide (t_state (task_at s i) = TASK_WAIT_CHILD ∧ t_pid (task_at s i) = ppid ∧
                 (t_wait_target_pid (task_at s i) = SCHED_WAIT_ANY_CHILD ∨ t_wait_target_pid (task_at s i) = cpid))
      then wake (task_at s i) else task_at s i.
Proof.
  intros Hl Huni Hpos. eexists. split; [done|].
  unfold sched_maybe_wake_parent_waiter_locked. rewrite (proj2 (Z.leb_gt ppid 0)) by lia.
  assert (Hs : s = with_tasks (g_tasks s) s) by (by destruct s).
  pose proof (find_pid_spec s ppid) as Hf. destruct (sched_find_task_by_pid_locked ppid s) as [p|].
  2: { split_and!; try done. intros i Hi. rewrite decide_False; [done|]. intros (Hst & Hpid & _).
       apply (Hf i Hi); [unfold used; congruence|done]. }
  destruct Hf as (Hps & Hup & Hpp). unfold state_is.
  assert (Hone : ∀ i, slot i → t_state (task_at s i) = TASK_WAIT_CHILD → t_pid (task_at s i) = ppid → i = p).
  { intros i Hi Hst Hpid. apply Huni; try done; [unfold used; congruence|congruence]. }
  destruct (decide (t_state (task_at s p) = TASK_WAIT_CHILD)) as [Hw|Hw].
  2: { rewrite bool_decide_false by done. cbn [negb]. split_and!; try done. intros i Hi. rewrite decide_False; [done|].
       intros (Hst & Hpid & _). apply Hw. by rewrite <- (Hone i Hi Hst Hpid). }
  rewrite bool_decide_true by done. cbn [negb].
  destruct (decide (t_wait_target_pid (task_at s p) = SCHED_WAIT_ANY_CHILD ∨ t_wait_target_pid (task_at s p) = cpid)) as [Ht|Ht].
  - rewrite (proj2 (andb_false_iff _ _)) by (rewrite !negb_false_iff, !Z.eqb_eq; done).
    split_and!; [done|unfold on_task; by rewrite set_task_len|]. intros i Hi. unfold on_task.
    rewrite task_at_set by (done || apply Hi). destruct (decide (p = i)) as [<-|Hne]; [by rewrite decide_True|].
    rewrite decide_False; [done|]. intros (Hst & Hpid & _). apply Hne. symmetry. by apply Hone.
  - rewrite (proj2 (andb_true_iff _ _)) by (rewrite !negb_true_iff, !Z.eqb_neq; tauto).
    split_and!; try done. intros i Hi. rewrite decide_False; [done|]. intros (Hst & Hpid & Ht2). apply Ht.
    by rewrite <- (Hone i Hi Hst Hpid).
Qed.

(** The exiting task leaves a zombie to its parent. *)
Lemma zombie_cases s c :
  sched_pre s → g_current_task s = Some c → c ≠ 0 → t_state (task_at s c) = TASK_RUNNING →
  t_parent_pid (task_at s c) ≠ -1 →
  (∀ k, slot k → used (task_at s k) → t_parent_pid (task_at s k) ≠ t_pid (task_at s c)) →
  let pid := t_pid (task_at s c) in
  let ppid := t_parent_pid (task_at s c) in
  let s' := sched_maybe_wake_parent_waiter_locked ppid pid (on_task c (set_state TASK_ZOMBIE) s) in
  sched_pre s' ∧ s' = with_tasks (g_tasks s') s ∧
  ∀ i, slot i → task_at s' i =
    if decide (i = c) then set_state TASK_ZOMBIE (task_at s c)
    else if decide (t_state (task_at s i) = TASK_WAIT_CHILD ∧ t_pid (task_at s i) = ppid ∧
                 (t_wait_target_pid (task_at s i) = SCHED_WAIT_ANY_CHILD ∨ t_wait_target_pid (task_at s i) = pid))
    then wake (task_at s i) else task_at s i.
Proof.
  intros Hp Hcur Hc0 Hrun Hpp Hch pid ppid s'. pose proof Hp as [Hl Hcu Hid Hin Hnp Htab].
  pose proof (to_cur _ _ _ Htab c Hcur) as Hc. assert (Hu : used (task_at s c)) by (unfold used; congruence).
  assert (Hpos : 0 < ppid).
  { destruct (to_parent _ _ _ Htab c Hc Hu) as [|(p & Hps & _ & Hup & _ & E)]; [done|].
    pose proof (to_pid _ _ _ Htab p Hps Hup). unfold ppid. lia. }
  set (s1 := on_task c (set_state TASK_ZOMBIE) s) in *.
  assert (Ht1 : ∀ j, slot j → task_at s1 j = if decide (c = j) then set_state TASK_ZOMBIE (task_at s c) else task_at s j).
  { intros j Hj. unfold s1, on_task. by rewrite task_at_set by (done || apply Hj). }
  (* the wake-up and the change of state commute *)
  destruct (wake_parent_spec s ppid pid Hl (to_unique _ _ _ Htab) Hpos) as (s2 & _ & Es2 & Hl2 & Ht2).
  assert (Hp2 : table_ok (task_at s2) (Some c) (g_next_pid s)).
  { rewrite <- Hcur. apply (table_wake (task_at s)); [done|]. intros i Hi. rewrite Ht2 by done.
    case_decide as Hd; [right|by left]. split_and!; try done. by right; destruct Hd. }
  assert (Hf : ∀ i, slot i → t_pid (task_at s2 i) = t_pid (task_at s i) ∧ t_parent_pid (task_at s2 i) = t_parent_pid (task_at s i) ∧
      (used (task_at s2 i) ↔ used (task_at s i)) ∧ t_wait_target_pid (task_at s2 i) = t_wait_target_pid (task_at s i)).
  { intros i Hi. rewrite Ht2 by done. unfold used. case_decide as Hd; [|done]. destruct Hd as (-> & _). done. }
  assert (E2c : task_at s2 c = task_at s c) by (rewrite Ht2 by done; rewrite decide_False by (intros (? & _); congruence); done).
  assert (Hfin : ∀ T', (∀ i, slot i → T' i = if decide (i = c) then set_state TASK_ZOMBIE (task_at s c) else task_at s2 i) →
    table_ok T' (Some c) (g_next_pid s)).
  { intros T' HT. apply (table_zombie (task_at s2) T' _ c Hp2 Hc0); rewrite ?E2c; try done.
    - intros k Hk Hus. destruct (Hf k Hk) as (_&->&E3&_). by apply Hch, E3.
    - intros w Hw Hst (_ & Hwp & Hwt). rewrite E2c in Hwp, Hwt. rewrite Ht2 in Hst by done.
      destruct (Hf w Hw) as (E1&_&_&E4). rewrite E1 in Hwp. rewrite E4 in Hwt.
      destruct (decide _) as [Hd|Hd]; [done|]. apply Hd. split; [done|]. split; [done|].
      destruct Hwt as [|E5]; [by left|right]. done.
    - rewrite HT by done. by rewrite decide_True.
    - rewrite HT by done. by rewrite decide_True.
    - rewrite HT by done. by rewrite decide_True.
    - intros k Hk Hkc. rewrite HT by done. by rewrite decide_False. }
  assert (Hu1 : ∀ i j, slot i → slot j → used (task_at s1 i) → used (task_at s1 j) →
    t_pid (task_at s1 i) = t_pid (task_at s1 j) → i = j).
  { intros i j Hi Hj. rewrite !Ht1 by done. intros Hui Huj Hpid. apply (to_unique _ _ _ Htab); try done.
    - destruct (decide (c = i)); by subst.
    - destruct (decide (c = j)); by subst.
    - destruct (decide (c = i)), (decide (c = j)); by subst. }
  destruct (wake_parent_spec s1 ppid pid ltac:(unfold s1, on_task; by rewrite set_task_len) Hu1 Hpos)
    as (s3 & E3 & Es3 & Hl3 & Ht3).
  assert (Hfinal : ∀ i, slot i → task_at s3 i = if decide (i = c) then set_state TASK_ZOMBIE (task_at s c) else task_at s2 i).
  { intros i Hi. rewrite Ht3, Ht1, Ht2 by done. destruct (decide (i = c)) as [->|Hne].
    - rewrite (decide_True (P := c = c)) by done. by rewrite decide_False by (intros (? & _); done).
    - by rewrite (decide_False (P := c = i)) by congruence. }
  unfold s'. rewrite E3. split_and!.
  - rewrite Es3. split; try done. cbn [with_tasks g_current_task g_next_pid]. 
    change (g_current_task s1) with (g_current_task s). rewrite Hcur. apply Hfin. intros i Hi. rewrite <- Hfinal by done.
    unfold task_at. by rewrite Es3.
  - by rewrite Es3.
  - intros i Hi. rewrite Hfinal, Ht2 by done. done.
Qed.

(** The exiting task leaves nothing but memory to free. *)
Lemma leave_cases s c :
  sched_pre s → g_current_task s = Some c → c ≠ 0 → t_state (task_at s c) = TASK_RUNNING →
  t_parent_pid (task_at s c) = -1 →
  (∀ k, slot k → used (task_at s k) → t_parent_pid (task_at s k) ≠ t_pid (task_at s c)) →
  let s' := leave_slot c s in
  sched_pre s' ∧ g_current_task s' = Some c ∧ g_sched_started s' = g_sched_started s ∧
  g_next_pid s' = g_next_pid s ∧ same_clock s s' ∧
  t_timeslice_left (task_at s' c) = t_timeslice_left (task_at s c) ∧ t_state (task_at s' c) = TASK_UNUSED ∧
  ∀ i, slot i → i ≠ c → task_at s' i = task_at s i.
Proof.
  intros Hp Hcur Hc0 Hrun Hpp Hch. cbv zeta. pose proof Hp as [Hl Hcu Hid Hin Hnp Htab].
  pose proof (to_cur _ _ _ Htab c Hcur) as Hc. unfold leave_slot.
  match goal with |- context [set_task c ?t0 ?s0] => set (t' := t0); set (s1 := s0) end.
  assert (Hs1 : same_sched s s1 ∧ g_tasks s1 = g_tasks s ∧ timer_ticks s1 = timer_ticks s).
  { unfold s1. pose proof (same_flushes (with_files (usermode_notify_task_reaped (t_pid (task_at s c)) (files s)) s)) as Hsf.
    assert (Hfl : ∀ s0 : sched σ, g_tasks (sched_flush_deferred_as_free_locked (sched_flush_deferred_stack_free_locked s0)) = g_tasks s0 ∧
      timer_ticks (sched_flush_deferred_as_free_locked (sched_flush_deferred_stack_free_locked s0)) = timer_ticks s0).
    { intros s0. unfold sched_flush_deferred_as_free_locked, sched_flush_deferred_stack_free_locked. by repeat case_match. }
    destruct (Hfl (with_files (usermode_notify_task_reaped (t_pid (task_at s c)) (files s)) s)) as [F1 F2].
    destruct (own_address_space _); split_and!; try done.
    all: destruct Hsf as [A1 A2 A3 A4 A5 A6 A7 A8 A9]; split; done. }
  destruct Hs1 as (Hsame & Hts & Htk). pose proof (same_sched_pre _ _ Hsame Hp) as Hp1.
  assert (Et : ∀ i, task_at s1 i = task_at s i) by (intros; unfold task_at; by rewrite Hts).
  assert (Ht : ∀ j, slot j → task_at (set_task c t' s1) j = if decide (c = j) then t' else task_at s j).
  { intros j Hj. rewrite task_at_set by (apply Hj || (by rewrite Hts) || done). by rewrite Et. }
  destruct Hsame as [A1 A2 A3 A4 A5 A6 A7 _].
  split; [|split; [exact (eq_trans A7 Hcur)|split_and!; try done]].
  - destruct Hp1 as [Hl1 Hcu1 Hid1 Hin1 Hnp1 Htab1]. split; try done; [by rewrite set_task_len|].
    apply (table_remove (task_at s1) _ _ _ c Htab1 Hc Hc0).
    + by rewrite Ht, decide_True.
    + intros k Hk Hne. by rewrite Ht, Et, decide_False by congruence.
    + intros _ k Hk Hne. rewrite !Et. left. by apply Hch.
    + intros _ w Hw Hst (_ & Hwp & _). rewrite !Et in Hwp. rewrite Et in Hst. rewrite Hpp in Hwp.
      assert (Huw : used (task_at s w)) by (unfold used; congruence). pose proof (to_pid _ _ _ Htab w Hw Huw). lia.
  - by rewrite Ht, decide_True.
  - by rewrite Ht, decide_True.
  - intros i Hi Hne. by rewrite Ht, decide_False by congruence.
Qed.

(** What closing descriptors and telling the window system leave. *)
Lemma exit_start s c :
  sched_pre s → g_current_task s = Some c →
  let s1 :=
    if is_user (task_at s c) then
      let '(_, tab, fs) := proc_fd_close_all (t_fd_table (task_at s c)) (files s) in
      with_files fs (on_task c (set_fd_table tab) s)
    else s in
  let s2 := with_files (display_gui_notify_task_exit (t_pid (task_at s1 c)) (files s1)) s1 in
  same_sched s s2 ∧ timer_ticks s2 = timer_ticks s ∧ t_user (task_at s2 c) = t_user (task_at s c).
Proof.
  intros Hp Hcur s1 s2. pose proof (to_cur _ _ _ (sp_table s Hp) c Hcur) as Hc.
  assert (Hs1 : same_sched s s1 ∧ timer_ticks s1 = timer_ticks s ∧ t_user (task_at s1 c) = t_user (task_at s c)).
  { unfold s1. destruct (is_user (task_at s c)); [|split; [apply same_sched_refl|done]].
    destruct (proc_fd_close_all _ _) as [[closed tab] fs]. split; [|split; [done|]].
    - apply (same_sched_trans _ (on_task c (set_fd_table tab) s)); [|apply same_with_files].
      by apply same_on_task.
    - change (task_at (with_files fs ?x)) with (task_at x). unfold on_task. by rewrite task_at_eq by (done || apply Hp). }
  destruct Hs1 as (Hsame & Htk & Hus). split; [|done].
  apply (same_sched_trans _ s1); [done|apply same_with_files].
Qed.

Lemma after_parent_runnable pid t : t_state t = TASK_RUNNABLE → t_state (after_parent pid t) = TASK_RUNNABLE.
Proof. intros H. unfold after_parent. case_decide; [done|]. by rewrite decide_False by congruence. Qed.

(** What an exited task is: gone, or a zombie with its exit code. *)
Definition exited t t' : Prop :=
  if decide (t_parent_pid t = -1) then t_state t' = TASK_UNUSED
  else t_state t' = TASK_ZOMBIE ∧ t_pid t' = t_pid t ∧ t_parent_pid t' = t_parent_pid t ∧ t_user t' = t_user t.

(** The exit of task [c], up to the switch. *)
Lemma exit_cases s c :
  sched_pre s → g_current_task s = Some c → c ≠ 0 → t_state (task_at s c) = TASK_RUNNING →
  let s' := exit_task c s in
  sched_pre s' ∧ g_current_task s' = Some c ∧ g_sched_started s' = g_sched_started s ∧
  g_next_pid s' = g_next_pid s ∧ same_clock s s' ∧
  t_timeslice_left (task_at s' c) = t_timeslice_left (task_at s c) ∧
  (∀ i, slot i → i ≠ c → t_state (task_at s i) = TASK_RUNNABLE → t_state (task_at s' i) = TASK_RUNNABLE) ∧
  exited (task_at s c) (task_at s' c).
Proof.
  intros Hp Hcur Hc0 Hrun. cbv zeta. pose proof (to_cur _ _ _ (sp_table s Hp) c Hcur) as Hc.
  pose proof (exit_start s c Hp Hcur) as Hst. cbv zeta in Hst. unfold exit_task.
  match goal with |- context [with_files (display_gui_notify_task_exit _ (files ?x)) ?x] => set (s1 := x) in * end.
  set (s2 := with_files (display_gui_notify_task_exit (t_pid (task_at s1 c)) (files s1)) s1) in *.
  destruct Hst as (Hsame2 & Htk & Hus).
  pose proof (same_sched_pre _ _ Hsame2 Hp) as Hp2.
  destruct (ss_tasks _ _ Hsame2 c Hc) as (E1&E2&E3&E4&E5). pose proof (ss_cur _ _ Hsame2) as Ec. rewrite Hcur in Ec.
  change (task_at s1 c) with (task_at s2 c).
  destruct (orphans_cases s2 c Hp2 Ec ltac:(congruence)) as (Hp3 & Ec3 & Es3 & En3 & Et3 & Ht3).
  set (s3 := sched_orphan_or_reap_children_locked _ s2) in *.
  assert (Hself : task_at s3 c = task_at s2 c).
  { rewrite Ht3 by done. unfold after_parent. rewrite decide_True; [done|]. right. apply no_own_child; try done.
    unfold used. congruence. }
  assert (Hch : ∀ k, slot k → used (task_at s3 k) → t_parent_pid (task_at s3 k) ≠ t_pid (task_at s3 c)).
  { intros k Hk. rewrite Hself, Ht3 by done. unfold after_parent, used. 
    pose proof (to_pid _ _ _ (sp_table s2 Hp2) c Hc ltac:(unfold used; congruence)).
    destruct (decide (t_state (task_at s2 k) = TASK_UNUSED ∨ _)) as [Hd|Hd]; [tauto|].
    destruct (decide (t_state (task_at s2 k) = TASK_ZOMBIE)); [done|]. cbn [set_parent_pid t_parent_pid]. lia. }
  assert (Hu3 : used (task_at s3 c)) by (unfold used; rewrite Hself; congruence).
  assert (Hrun3 : ∀ i, slot i → t_state (task_at s i) = TASK_RUNNABLE → t_state (task_at s3 i) = TASK_RUNNABLE).
  { intros i Hi Hr. rewrite Ht3 by done. apply after_parent_runnable. by destruct (ss_tasks _ _ Hsame2 i Hi) as (-> & _). }
  pose proof (keep_zombie_spec s3 c Hp3 Hc Hu3) as Hk. rewrite Hself, E3 in Hk.
  assert (Hc3 : g_current_task s3 = Some c) by congruence.
  assert (Hr3 : t_state (task_at s3 c) = TASK_RUNNING) by congruence.
  assert (Hcl : same_clock s s3).
  { apply (same_clock_trans _ s2); [|done]. split; [done|apply Hsame2]. }
  pose proof (ss_slice _ _ Hsame2 c Hc) as Hsl. rewrite <- Hself in Hsl.
  assert (Hf3 : g_sched_started s3 = g_sched_started s ∧ g_next_pid s3 = g_next_pid s).
  { rewrite Es3, En3. split; apply Hsame2. }
  destruct Hf3 as [F1 F2]. unfold exited.
  destruct (decide (t_parent_pid (task_at s c) = -1)) as [Hpp|Hpp].
  - destruct (keep_zombie c s3) eqn:Ek; [by apply Hk in Hpp|].
    destruct (leave_cases s3 c Hp3 Hc3 Hc0 Hr3 ltac:(congruence) Hch) as (L1&L2&L3&L4&L5&L6&L7&L8).
    rewrite L3, L4, L6, F1, F2. split_and!; try done; [by apply (same_clock_trans _ s3)..|].
    intros i Hi Hne Hr. rewrite L8 by done. by apply Hrun3.
  - rewrite (proj2 Hk Hpp). 
    destruct (zombie_cases s3 c Hp3 Hc3 Hc0 Hr3 ltac:(congruence) Hch) as (L1 & L2 & L3).
    rewrite Hself in L1, L2, L3. rewrite Hself in Hsl.
    rewrite ?Hself. set (s4 := sched_maybe_wake_parent_waiter_locked _ _ _) in *.
    assert (Ecc : task_at s4 c = set_state TASK_ZOMBIE (task_at s2 c)) by (rewrite L3 by done; by rewrite decide_True).
    rewrite Ecc, L2. split; [by rewrite <- L2|]. split; [done|]. split; [done|]. split; [done|]. split; [done|].
    split; [done|]. split; [|done].
    intros i Hi Hne Hr. rewrite <- L2, L3 by done. rewrite decide_False by done. case_decide; [done|by apply Hrun3].
Qed.

(** * New tasks *)

(** The state while a task is made: a few fields have moved on. *)
Record making s s1 (n : Z) : Prop := {
  mk_tasks : g_tasks s1 = g_tasks s;
  mk_cur : g_current_task s1 = g_current_task s;
  mk_rest : g_idle_task s1 = g_idle_task s ∧ g_rr_cursor s1 = g_rr_cursor s ∧
    g_in_scheduler s1 = g_in_scheduler s ∧ g_sched_started s1 = g_sched_started s ∧ timer_ticks s1 = timer_ticks s;
  mk_np : g_next_pid s1 = g_next_pid s + n
}.

Lemma making_pre s s1 n : sched_pre s → making s s1 n → 0 ≤ n → g_next_pid s + n ≤ 2147483648 → sched_pre s1.
Proof.
  intros [Hl Hc Hi Hin Hnp Htab] [E1 E2 (E3&E4&E5&_) E6] Hn Hb. split; try congruence; [lia|].
  rewrite E2, E6. apply (table_np _ _ (g_next_pid s)); [|lia].
  apply (table_same (task_at s)); [done|]. intros i _. unfold task_at. by rewrite E1.
Qed.

(** What a new task takes nothing from: the others, and who is running. *)
Definition others_same s s' (i : Z) : Prop :=
  g_current_task s' = g_current_task s ∧ g_sched_started s' = g_sched_started s ∧ g_rr_cursor s' = g_rr_cursor s ∧
  ∀ j, slot j → j ≠ i → task_at s' j = task_at s j.

Lemma install_task s s1 i t :
  sched_pre s → making s s1 1 → g_next_pid s < 2147483648 → slot i → t_state (task_at s i) = TASK_UNUSED →
  t_state t = TASK_RUNNABLE → can_resume (saved t) → t_pid t = g_next_pid s →
  (t_parent_pid t = -1 ∨
   ∃ c, g_current_task s = Some c ∧ t_state (task_at s c) = TASK_RUNNING ∧ t_parent_pid t = t_pid (task_at s c)) →
  sched_pre (set_task i t s1) ∧ others_same s (set_task i t s1) i ∧ task_at (set_task i t s1) i = t.
Proof.
  intros Hp Hm Hb Hi Hun Hst Hesp Hpid Hpp. pose proof (making_pre s s1 1 Hp Hm ltac:(lia) ltac:(lia)) as Hp1.
  pose proof Hm as [E1 E2 (E3&E4&E5&E6&E7) E8].
  assert (Et : ∀ j, task_at s1 j = task_at s j) by (intros; unfold task_at; by rewrite E1).
  assert (Ht : ∀ j, slot j → task_at (set_task i t s1) j = if decide (i = j) then t else task_at s j).
  { intros j Hj. rewrite task_at_set by (apply Hj || apply (sp_len s1 Hp1) || done). by rewrite Et. }
  split; [|split].
  - destruct Hp1 as [Hl1 Hc1 Hid1 Hin1 Hnp1 Htab1]. split; try done; [by rewrite set_task_len|].
    change (g_current_task (set_task i t s1)) with (g_current_task s1).
    change (g_next_pid (set_task i t s1)) with (g_next_pid s1). rewrite E2, E8. destruct Hp as [_ _ _ _ Hnp Htab].
    apply (table_new (task_at s) _ _ (g_next_pid s) _ i Htab Hi); try (rewrite Ht, decide_True by done); try done; try lia.
    + intros Hu. by apply Hu.
    + intros k Hk Hne. by rewrite Ht, decide_False by congruence.
  - split; [done|]. split; [done|]. split; [done|]. intros j Hj Hne. by rewrite Ht, decide_False by congruence.
  - by rewrite Ht, decide_True.
Qed.

Lemma drop_slot_cases s s1 i n :
  sched_pre s → making s s1 n → 0 ≤ n → g_next_pid s + n ≤ 2147483648 → slot i → t_state (task_at s i) = TASK_UNUSED →
  sched_pre (drop_slot i s1) ∧ others_same s (drop_slot i s1) i.
Proof.
  intros Hp Hm Hn Hb Hi Hun. pose proof (making_pre s s1 n Hp Hm Hn Hb) as Hp1.
  pose proof Hm as [E1 E2 (E3&E4&E5&E6&E7) E8].
  assert (Et : ∀ j, task_at s1 j = task_at s j) by (intros; unfold task_at; by rewrite E1).
  assert (Ht : ∀ j, slot j → task_at (drop_slot i s1) j = if decide (i = j) then task_reset else task_at s1 j).
  { intros j Hj. unfold drop_slot. by rewrite task_at_set by (apply Hj || apply (sp_len s1 Hp1) || done). }
  split.
  - destruct Hp1 as [Hl1 Hc1 Hid1 Hin1 Hnp1 Htab1]. split; try done; [unfold drop_slot; by rewrite set_task_len|].
    apply (table_remove (task_at s1) _ _ _ i Htab1 Hi).
    + intros ->. destruct (to_idle _ _ _ Htab1) as [H|H]; rewrite Et in H; congruence.
    + by rewrite Ht, decide_True.
    + intros k Hk Hne. by rewrite Ht, decide_False by congruence.
    + intros Hu. unfold used in Hu. by rewrite Et in Hu.
    + intros Hu. unfold used in Hu. by rewrite Et in Hu.
  - split; [done|]. split; [done|]. split; [done|]. intros j Hj Hne. by rewrite Ht, decide_False, Et by congruence.
Qed.

Lemma others_wf s s' i :
  sched_wf s → sched_pre s' → others_same s s' i → t_state (task_at s i) ≠ TASK_RUNNING → sched_wf s'.
Proof.
  intros (Hp & Hr & Hst) Hp' (E1 & E2 & E3 & Hs) Hni. split; [done|]. split; [|by rewrite E2, E1].
  intros c Hc. rewrite E1 in Hc. rewrite Hs; [by apply Hr| |].
  - apply (to_cur _ _ _ (sp_table s Hp) c Hc).
  - intros ->. by apply Hni, Hr.
Qed.

Lemma to_int_small x : 0 ≤ x < 2147483648 → to_int x = x.
Proof. intros. unfold to_int. by rewrite (proj2 (Z.ltb_lt x _)) by lia. Qed.

(** The tasks are exactly as before; a free slot stays free. *)
Definition no_new_task s s' : Prop :=
  ∀ j, slot j → if decide (used (task_at s j)) then task_at s' j = task_at s j else ¬ used (task_at s' j).

Lemma no_new_tasks s s' : (∀ j, slot j → task_at s' j = task_at s j) → no_new_task s s'.
Proof. intros Ht j Hj. rewrite Ht by done. by case_decide. Qed.

(** The result of an operation that makes a task, or fails to. *)
Definition spawn_ok s s' (r : res Z) (new : Z → task → Prop) : Prop :=
  sched_wf s' ∧ g_next_pid s ≤ g_next_pid s' ≤ g_next_pid s + 1 ∧
  match r with
  | Ok pid => pid = g_next_pid s ∧ ∃ i, slot i ∧ t_state (task_at s i) = TASK_UNUSED ∧ others_same s s' i ∧
      t_state (task_at s' i) = TASK_RUNNABLE ∧ t_pid (task_at s' i) = pid ∧ new i (task_at s' i)
  | Err _ => g_current_task s' = g_current_task s ∧ g_rr_cursor s' = g_rr_cursor s ∧ no_new_task s s'
  end.

Lemma spawn_fail s s1 i n e new :
  sched_wf s → making s s1 n → 0 ≤ n ≤ 1 → g_next_pid s < 2147483648 → slot i → t_state (task_at s i) = TASK_UNUSED →
  spawn_ok s (drop_slot i s1) (Err e) new.
Proof.
  intros Hw Hm Hn Hb Hi Hun.
  destruct (drop_slot_cases s s1 i n (proj1 Hw) Hm ltac:(lia) ltac:(lia) Hi Hun) as [Hp' Ho].
  split; [by apply (others_wf s _ i); [..|congruence]|]. split.
  - change (g_next_pid (drop_slot i s1)) with (g_next_pid s1). rewrite (mk_np _ _ _ Hm). lia.
  - pose proof Ho as (E1 & E2 & E3 & Hs). split; [done|]. split; [done|]. intros j Hj.
    destruct (decide (j = i)) as [->|Hne]; [|rewrite Hs by done; by case_decide].
    rewrite decide_False by (intros Hu; by apply Hu). unfold drop_slot.
    rewrite task_at_set; [rewrite decide_True by done; by intros []|rewrite (mk_tasks _ _ _ Hm); apply (sp_len s (proj1 Hw))|done|apply Hi].
Qed.

Lemma spawn_keep s s1 e new :
  sched_wf s → same_sched s s1 → g_tasks s1 = g_tasks s → spawn_ok s s1 (Err e) new.
Proof.
  intros Hw Hs Et. split; [by apply (same_sched_wf s)|]. rewrite (ss_np _ _ Hs). split; [lia|].
  split; [apply Hs|]. split; [apply Hs|]. apply no_new_tasks. intros j _. unfold task_at. by rewrite Et.
Qed.

Lemma spawn_done s s1 i t (new : Z → task → Prop) :
  sched_wf s → making s s1 1 → g_next_pid s < 2147483648 → slot i → t_state (task_at s i) = TASK_UNUSED →
  t_state t = TASK_RUNNABLE → can_resume (saved t) → t_pid t = g_next_pid s →
  (t_parent_pid t = -1 ∨ ∃ c, g_current_task s = Some c ∧ t_parent_pid t = t_pid (task_at s c)) → new i t →
  spawn_ok s (set_task i t s1) (Ok (g_next_pid s)) new.
Proof.
  intros Hw Hm Hb Hi Hun Hst Hesp Hpid Hpp Hnew.
  assert (Hpp' : t_parent_pid t = -1 ∨ ∃ c, g_current_task s = Some c ∧ t_state (task_at s c) = TASK_RUNNING ∧
    t_parent_pid t = t_pid (task_at s c)).
  { destruct Hpp as [|(c & Hc & E)]; [by left|right]. exists c. split_and!; try done. by apply Hw. }
  destruct (install_task s s1 i t (proj1 Hw) Hm Hb Hi Hun Hst Hesp Hpid Hpp') as (Hp' & Ho & Et).
  split; [by apply (others_wf s _ i); [..|congruence]|]. split.
  - change (g_next_pid (set_task i t s1)) with (g_next_pid s1). rewrite (mk_np _ _ _ Hm). lia.
  - split; [done|]. exists i. rewrite Et. done.
Qed.

(** What a spawned task is. *)
Definition spawned (entry : option sched_task_entry) (arg ppid : Z) (i : Z) (t : task) : Prop :=
  t_exec_mode t = TASK_EXEC_KERNEL ∧ t_parent_pid t = ppid ∧ t_entry t = entry ∧ t_arg t = arg ∧
  t_address_space t = g_kernel_as ∧ u_exit_code_valid (t_user t) = false.

Lemma spawn_cases s name entry arg size ppid inh :
  sched_wf s → g_next_pid s < 2147483648 →
  (ppid = -1 ∨ ∃ c, g_current_task s = Some c ∧ ppid = t_pid (task_at s c)) →
  let '(r, s') := sched_spawn_task_internal name entry arg size ppid inh s in
  spawn_ok s s' r (spawned entry arg ppid).
Proof.
  intros Hw Hb Hpp. pose proof Hw as ([Hl Hc Hi Hin Hnp Htab] & Hr & Hst).
  unfold sched_spawn_task_internal. destruct entry as [e|]; [|by apply spawn_keep; [|apply same_sched_refl|]].
  cbv zeta. pose proof (find_slot_spec s) as Hslot. destruct (sched_find_task_slot s) as [i|].
  2: { by apply spawn_keep; [|apply same_sched_refl|]. }
  destruct Hslot as [His Hun]. destruct (kmalloc _ _) as [stack h].
  destruct (stack =? 0); [by apply spawn_keep; [|apply same_with_mem|]|].
  cbn [with_mem g_next_pid]. rewrite to_int_small by lia. rewrite add32_small by (unfold two32; lia).
  set (s0 := with_mem (set_heap h (mem s)) s). set (s1 := with_next_pid (g_next_pid s + 1) s0).
  assert (Hmk : ∀ m fs, making s (with_mem m (with_files fs s1)) 1) by (intros; split; done).
  assert (Hmk1 : making s s1 1) by (split; done).
  assert (Hmk2 : ∀ fs, making s (with_files fs s1) 1) by (intros; split; done).
  assert (Ecur : (match g_current_task s1 with Some c => Some (task_at s1 c) | None => None end) =
                 (match g_current_task s with Some c => Some (task_at s c) | None => None end)) by done.
  rewrite Ecur.
  assert (Hgo : ∀ t, t_state t = TASK_RUNNABLE → t_pid t = g_next_pid s → t_parent_pid t = ppid →
    t_exec_mode t = TASK_EXEC_KERNEL → t_entry t = Some e → t_arg t = arg → t_address_space t = g_kernel_as →
    u_exit_code_valid (t_user t) = false →
    ∀ s2, making s s2 1 → spawn_ok s (set_task i (sched_init_task_stack t) s2) (Ok (g_next_pid s)) (spawned (Some e) arg ppid)).
  { intros t H1 H2 H3 H4 H5 H6 H7 H8 s2 Hm2. apply spawn_done; try done; unfold sched_init_task_stack; cbn [set_esp t_parent_pid].
    - unfold saved. cbn [set_esp t_esp t_entry]. by rewrite H5.
    - by rewrite H3. }
  destruct (g_current_task s) as [c|]; [|by apply Hgo].
  destruct ((0 <? ppid) && (t_pid (task_at s c) =? ppid) && is_user (task_at s c)); [|by apply Hgo].
  destruct inh; [|by apply Hgo].
  destruct (proc_fd_table_clone _ _) as [[[[]|er] tab] fs]; [by apply Hgo|].
  by apply (spawn_fail s _ i 1).
Qed.

Lemma current_slot s c : sched_pre s → g_current_task s = Some c → slot c.
Proof. intros Hp Hc. apply (to_cur _ _ _ (sp_table s Hp) c Hc). Qed.

Lemma ensure_same s c ranges :
  sched_pre s → g_current_task s = Some c →
  same_sched s (snd (ensure_address_space c ranges s)).
Proof.
  intros Hp Hc. unfold ensure_address_space. destruct (own_address_space _); [apply same_sched_refl|].
  destruct (paging_create_user_address_space _ _) as [[as_|e] m]; cbn [snd]; [|apply same_with_mem].
  apply (same_sched_trans _ (with_mem m s)); [apply same_with_mem|]. apply same_on_task; [|by apply (current_slot s)|done|done].
  by apply (same_sched_pre s); [apply same_with_mem|done].
Qed.

Definition forked_task (ctx : user_mode_resume_ctx) (p : task) (i : Z) (t : task) : Prop :=
  t_exec_mode t = TASK_EXEC_USER_BOOTSTRAP ∧ t_parent_pid t = t_pid p ∧
  t_entry t = Some sched_user_fork_child_entry ∧ u_fork_ctx_valid (t_user t) = true ∧
  u_fork_ctx (t_user t) = child_ctx ctx ∧ u_exit_code_valid (t_user t) = false ∧
  u_image_base (t_user t) = u_image_base (t_user p) ∧ u_image_size (t_user t) = u_image_size (t_user p) ∧
  u_stack_base (t_user t) = u_stack_base (t_user p) ∧ u_stack_size (t_user t) = u_stack_size (t_user p).

(** Task [j] is the same, or it is the caller of fork, which had no address space
    of its own and has got one. *)
Definition forked_from s (c : Z) s' (j : Z) : Prop :=
  task_at s' j = task_at s j ∨
  j = c ∧ own_address_space (t_address_space (task_at s c)) = false ∧ ∃ a, task_at s' j = set_address_space a (task_at s c).

Definition only_address_space s (c : Z) s' : Prop := ∀ j, slot j → forked_from s c s' j.

Lemma ensure_only s c ranges :
  sched_pre s → slot c → only_address_space s c (snd (ensure_address_space c ranges s)) ∧
    files (snd (ensure_address_space c ranges s)) = files s.
Proof.
  intros Hp Hc. unfold ensure_address_space. destruct (own_address_space _) eqn:Eo; [split; [by left|done]|].
  destruct (paging_create_user_address_space _ _) as [[a|e] m]; cbn [snd]; (split; [|done]); [|by left].
  intros j Hj. unfold forked_from, on_task. rewrite task_at_set by (exact (sp_len s Hp) || exact Hc || exact (proj1 Hj)). case_decide as Hd; [|by left].
  right. subst j. split; [done|]. split; [done|]. by exists a.
Qed.

(** What happens to the open files: nothing, or the caller's table is cloned. *)
Definition fork_files s (c : Z) s' (r : res Z) (child : option task) : Prop :=
  match child with
  | Some t => proc_fd_table_clone (t_fd_table (task_at s c)) (files s) = (Ok tt, t_fd_table t, files s')
  | None => files s' = files s ∨ ∃ e tab, proc_fd_table_clone (t_fd_table (task_at s c)) (files s) = (Err e, tab, files s')
  end.

Lemma fork_cases s ctx :
  sched_wf s → g_next_pid s < 2147483648 →
  let '(r, s') := sched_fork_current_user_task ctx s in
  ∃ sm, same_sched s sm ∧ ∀ c, g_current_task s = Some c → only_address_space s c sm ∧ files sm = files s ∧
    spawn_ok sm s' r (λ i t, forked_task ctx (task_at sm c) i t ∧ fork_files s c s' r (Some t)) ∧
    match r with Err _ => fork_files s c s' r None | Ok _ => True end.
Proof.
  intros Hw Hb. pose proof Hw as ([Hl Hc Hi Hin Hnp Htab] & Hr & Hst). unfold sched_fork_current_user_task.
  assert (Hkeep : ∀ e s1, same_sched s s1 → (∀ c, g_current_task s = Some c → only_address_space s c s1 ∧ files s1 = files s) →
    ∃ sm, same_sched s sm ∧ ∀ c, g_current_task s = Some c → only_address_space s c sm ∧ files sm = files s ∧
    spawn_ok sm s1 (Err e) (λ i t, forked_task ctx (task_at sm c) i t ∧ fork_files s c s1 (Err e) (Some t)) ∧
    fork_files s c s1 (Err e) None).
  { intros e s1 Hs H1. exists s1. split; [done|]. intros c Hcc. destruct (H1 c Hcc) as [H2 H3]. split; [done|]. split; [done|].
    split; [|by left]. apply spawn_keep; [|apply same_sched_refl|done]. by apply (same_sched_wf s). }
  assert (Hrefl : ∀ c, g_current_task s = Some c → only_address_space s c s ∧ files s = files s) by (intros; split; [by left|done]).
  destruct (g_current_task s) as [c|] eqn:Ec; [|apply Hkeep; [apply same_sched_refl|exact Hrefl]].
  destruct (sched_current_task_is_user s); cbn [negb]; [|apply Hkeep; [apply same_sched_refl|exact Hrefl]].
  destruct (sched_build_user_ranges _) as [ranges|e]; [|apply Hkeep; [apply same_sched_refl|exact Hrefl]]. cbv zeta.
  pose proof (ensure_same s c ranges (proj1 Hw) Ec) as Hens.
  destruct (ensure_only s c ranges (proj1 Hw) (current_slot s c (proj1 Hw) Ec)) as [Hon Hfi].
  destruct (ensure_address_space c ranges s) as [[u|e] s1]; cbn [snd] in Hens, Hon, Hfi; [|by apply Hkeep; [|intros c' [= <-]]].
  set (s2 := if own_address_space _ then s1 else activate_current c s1).
  assert (Hs2 : same_sched s s2).
  { unfold s2. destruct (own_address_space _); [done|]. apply (same_sched_trans _ s1); [done|apply same_with_mem]. }
  assert (Hon2 : only_address_space s c s2 ∧ files s2 = files s) by (unfold s2; by destruct (own_address_space _)).
  clearbody s2. assert (Hx : ∀ m, ∀ c', Some c = Some c' → only_address_space s c' (with_mem m s2) ∧ files (with_mem m s2) = files s).
  { by intros m c' [= <-]. }
  destruct (paging_clone_address_space_cow _ _ _) as [[child_as|e] m].
  2: { apply Hkeep; [|apply Hx]. apply (same_sched_trans _ s2); [done|apply same_with_mem]. }
  set (sm := with_mem m s2). assert (Hsm : same_sched s sm) by (apply (same_sched_trans _ s2); [done|apply same_with_mem]).
  assert (Hwm : sched_wf sm) by (by apply (same_sched_wf s)).
  assert (Hbm : g_next_pid sm < 2147483648) by (by rewrite (ss_np _ _ Hsm)).
  assert (Hcm : g_current_task sm = Some c) by (by rewrite (ss_cur _ _ Hsm)).
  pose proof (find_slot_spec sm) as Hslot. destruct (sched_find_task_slot sm) as [i|].
  2: { apply Hkeep; [|apply Hx]. apply (same_sched_trans _ sm); [done|apply same_with_mem]. }
  destruct Hslot as [His Hun]. destruct (kmalloc _ _) as [stack h].
  set (s3 := with_mem (set_heap h (mem sm)) sm).
  destruct (stack =? 0).
  { apply Hkeep; [|apply Hx]. apply (same_sched_trans _ sm); [done|]. apply (same_sched_trans _ s3); apply same_with_mem. }
  change (g_next_pid s3) with (g_next_pid sm). change (task_at s3 c) with (task_at sm c).
  pose proof (sp_np sm (proj1 Hwm)) as Hnpm.
  rewrite to_int_small by lia. rewrite add32_small by (unfold two32; lia).
  assert (Etab : t_fd_table (task_at sm c) = t_fd_table (task_at s c)).
  { destruct (proj1 Hon2 c (current_slot s c (proj1 Hw) Ec)) as [E|(_ & _ & a & E)]; change (task_at sm c) with (task_at s2 c); by rewrite E. }
  destruct (proc_fd_table_clone (t_fd_table (task_at sm c)) (files (with_next_pid _ _))) as [[[[]|er] tab] fs] eqn:Ecl;
    change (files (with_next_pid _ _)) with (files s2) in Ecl; rewrite Etab, (proj2 Hon2) in Ecl;
    exists sm; (split; [done|]); intros c' [= <-]; (split; [apply Hon2|]); (split; [apply Hon2|]).
  - split; [|done]. apply spawn_done; try done. right. by exists c.
  - split; [by apply (spawn_fail sm _ i 1)|]. right. exists er, tab. exact Ecl.
Qed.

(** * Waiting, sleeping, the timer *)

Lemma mark_same s eip esp :
  sched_wf s → same_sched s (snd (sched_mark_current_task_user_bootstrap eip esp s)).
Proof.
  intros (Hp & _). unfold sched_mark_current_task_user_bootstrap.
  destruct (g_current_task s) as [c|] eqn:Ec; [|apply same_sched_refl].
  destruct (sched_build_user_ranges _) as [ranges|e]; [|apply same_sched_refl].
  pose proof (ensure_same s c ranges Hp Ec) as Hens.
  destruct (ensure_address_space c ranges s) as [[u|e] s1]; cbn [snd] in *; [|done].
  apply (same_sched_trans _ (activate_current c s1)).
  { apply (same_sched_trans _ s1); [done|apply same_with_mem]. }
  apply same_on_task; [|by apply (current_slot s)|done|done].
  apply (same_sched_pre s1); [apply same_with_mem|by apply (same_sched_pre s)].
Qed.

(** A state from which the scheduler is called: all is well but the state of
    the current task. *)
Lemma schedule_wf s :
  sched_pre s → g_sched_started s = true →
  ∃ s', sched_schedule_locked s = Some s' ∧ sched_wf s' ∧ g_next_pid s' = g_next_pid s.
Proof.
  intros Hp Hst. destruct (schedule_cases s Hp Hst) as (s' & n & E & Hw & Hsw & _ & _).
  exists s'. split; [done|]. split; [done|]. destruct (sd_next _ _ _ Hsw) as [-> _].
  by destruct (wake_sleepers_spec s (sp_len s Hp)) as (ts & -> & _).
Qed.

(** The current task parks. *)
Lemma park_pre s c f :
  sched_wf s → g_current_task s = Some c → c ≠ 0 →
  t_pid (f (task_at s c)) = t_pid (task_at s c) → t_parent_pid (f (task_at s c)) = t_parent_pid (task_at s c) →
  (t_state (f (task_at s c)) = TASK_SLEEPING ∨
   (t_state (f (task_at s c)) = TASK_WAIT_CHILD ∧
    (∃ k, slot k ∧ matches (task_at s) (t_pid (task_at s c)) (t_wait_target_pid (f (task_at s c))) k) ∧
    ∀ k, slot k → matches (task_at s) (t_pid (task_at s c)) (t_wait_target_pid (f (task_at s c))) k →
         t_state (task_at s k) ≠ TASK_ZOMBIE)) →
  sched_pre (on_task c f s).
Proof.
  intros (Hp & Hr & _) Hc Hc0 E1 E2 Hf. pose proof (current_slot s c Hp Hc) as Hcs. specialize (Hr c Hc).
  destruct Hp as [Hl Hcu Hi Hin Hnp Htab].
  assert (Ht : ∀ j, slot j → task_at (on_task c f s) j = if decide (c = j) then f (task_at s c) else task_at s j).
  { intros j Hj. unfold on_task. by rewrite task_at_set by (done || apply Hj). }
  split; try done; [unfold on_task; by rewrite set_task_len|].
  change (g_current_task (on_task c f s)) with (g_current_task s). rewrite Hc in *.
  assert (Etc : task_at (on_task c f s) c = f (task_at s c)) by (by rewrite Ht, decide_True).
  apply (table_park (task_at s)); rewrite ?Etc; try done; [by left|right; tauto|].
  intros k Hk Hne. by rewrite Ht, decide_False by congruence.
Qed.
End state.
