(* ===== verification/SchedRun.v ===== *)
(** kernel/sched.c as a transition system: the calls that tasks, system calls
    and interrupts make, what each does to the task table, and how long a task
    that can run may have to wait. *)

From S2P Require Import Prelude Bytes Pmm Kmalloc VfsNode KFile KPipe ProcFd Paging PagingMap PagingCow UserMem Sched SchedInv.

(** What enters the scheduler: the entry points of sched.h and the interrupts
    that call it.  [OpKernel] is any other code of the kernel, which may change
    memory and the file backends. *)
Inductive sched_op (σ : Type) :=
  | OpSpawnKernel (name : option (list Z)) (entry : option sched_task_entry) (arg stack_size : Z)
  | OpSpawnChild (name : option (list Z)) (entry : option sched_task_entry) (arg stack_size : Z) (inherit_fds : bool)
  | OpFork (ctx : user_mode_resume_ctx)
  | OpMark (user_eip user_esp : Z)
  | OpLayout (image_base image_size stack_base stack_size : Z)
  | OpCmdline (src : option (list Z)) (len : Z)
  | OpCwd (src : option (list Z)) (len : Z)
  | OpNoteSyscall (nr : Z)
  | OpNoteExit (code : Z)
  | OpFdInstall (fd : Z) (f : kfile)
  | OpFdAlloc (f : kfile)
  | OpFdClose (fd : Z)
  | OpFdDup (fd : Z)
  | OpFdDup2 (oldfd newfd : Z)
  | OpKernel (f : paging → paging) (g : σ → σ)
  | OpStart
  | OpYield
  | OpCheckpoint
  | OpSleep (ticks : Z)
  | OpWait (target_pid options : Z)
  | OpTick
  | OpFault (fault_addr error_code eip : Z)
  | OpExit.
Arguments OpSpawnKernel {σ}.
Arguments OpSpawnChild {σ}.
Arguments OpFork {σ}.
Arguments OpMark {σ}.
Arguments OpLayout {σ}.
Arguments OpCmdline {σ}.
Arguments OpCwd {σ}.
Arguments OpNoteSyscall {σ}.
Arguments OpNoteExit {σ}.
Arguments OpFdInstall {σ}.
Arguments OpFdAlloc {σ}.
Arguments OpFdClose {σ}.
Arguments OpFdDup {σ}.
Arguments OpFdDup2 {σ}.
Arguments OpKernel {σ}.
Arguments OpStart {σ}.
Arguments OpYield {σ}.
Arguments OpCheckpoint {σ}.
Arguments OpSleep {σ}.
Arguments OpWait {σ}.
Arguments OpTick {σ}.
Arguments OpFault {σ}.
Arguments OpExit {σ}.

Section run.
Context {σ : Type} `{!FileOps σ, !TaskHooks σ}.
Implicit Types (s d : sched σ) (t : task) (op : sched_op σ).

Definition sched_step op s : option (sched σ) :=
  match op with
  | OpSpawnKernel name entry arg size => Some (snd (sched_spawn_kernel_task name entry arg size s))
  | OpSpawnChild name entry arg size inh => Some (snd (sched_spawn_user_child_task name entry arg size inh s))
  | OpFork ctx => Some (snd (sched_fork_current_user_task ctx s))
  | OpMark eip esp => Some (snd (sched_mark_current_task_user_bootstrap eip esp s))
  | OpLayout ib isz sb ssz => Some (snd (sched_set_current_user_layout ib isz sb ssz s))
  | OpCmdline src len => Some (snd (sched_set_current_task_cmdline src len s))
  | OpCwd src len => Some (snd (sched_set_current_task_cwd src len s))
  | OpNoteSyscall nr => Some (sched_note_current_syscall nr s)
  | OpNoteExit code => Some (sched_note_current_exit_code code s)
  | OpFdInstall fd f => Some (snd (sched_current_process_fd_install fd f s))
  | OpFdAlloc f => Some (snd (sched_current_process_fd_alloc f s))
  | OpFdClose fd => Some (snd (sched_current_process_fd_close fd s))
  | OpFdDup fd => Some (snd (sched_current_process_fd_dup fd s))
  | OpFdDup2 a b => Some (snd (sched_current_process_fd_dup2 a b s))
  | OpKernel f g => Some (with_mem (f (mem s)) (with_files (g (files s)) s))
  | OpStart => sched_start s
  | OpYield => sched_yield s
  | OpCheckpoint => sched_checkpoint s
  | OpSleep n => sched_sleep_ticks n s
  | OpWait target options => r ← sched_waitpid_ex target options s; Some (snd r)
  | OpTick => timer_handler s
  | OpFault addr err eip => isr_page_fault true addr err eip s
  | OpExit => sched_task_exit s
  end.

(** [sched_idle_task] only calls [sched_checkpoint] and waits for interrupts; whoever exits or
    sleeps, the scheduler has been started; and it is started once. *)
Definition op_allowed op s : Prop :=
  (g_current_task s = Some 0 → match op with OpSleep _ | OpWait _ _ | OpFault _ _ _ | OpExit => False | _ => True end) ∧
  match op with
  | OpStart => g_sched_started s = false
  | OpFault _ _ _ | OpExit => g_sched_started s = true
  | _ => True
  end.

Lemma step_note code s : sched_step (OpNoteExit code) s = Some (sched_note_current_exit_code code s).
Proof. reflexivity. Qed.
Lemma step_of_exit s : sched_step OpExit s = sched_task_exit s.
Proof. reflexivity. Qed.

Definition is_tick op : Z := match op with OpTick => 1 | _ => 0 end.

(** The states after [sched_init] and [n] steps. *)
Inductive reachable : Z → sched σ → Prop :=
  | reach_init s0 s : sched_init s0 = Some s → reachable 0 s
  | reach_step n s op s' : reachable n s → op_allowed op s → sched_step op s = Some s' → reachable (n + 1) s'.

(** * Waiting for the processor *)

Definition waiting s (i : Z) : Prop :=
  slot i ∧ i ≠ 0 ∧ g_current_task s ≠ Some i ∧ t_state (task_at s i) = TASK_RUNNABLE.

(** How many places of the turn are before slot [i]. *)
Definition distance s (i : Z) : Z := (i - g_rr_cursor s) mod SCHED_MAX_TASKS.

Definition cur_slice s : Z := match g_current_task s with Some c => t_timeslice_left (task_at s c) | None => 0 end.

Definition potential s (i : Z) : Z := SCHED_DEFAULT_TIMESLICE * distance s i + cur_slice s.

Definition slice_ok s : Prop := is_Some (g_current_task s) → 1 ≤ cur_slice s ≤ SCHED_DEFAULT_TIMESLICE.

(** What every step does; [k] is 1 for a timer tick. *)
Record step_ok s s' (k : Z) : Prop := {
  so_wf : sched_wf s';
  so_np : g_next_pid s ≤ g_next_pid s' ≤ g_next_pid s + 1;
  so_slice : slice_ok s → slice_ok s';
  so_started : g_sched_started s = true → g_sched_started s' = true;
  so_fair : g_sched_started s = true → slice_ok s → ∀ i, waiting s i →
    g_current_task s' = Some i ∨ (waiting s' i ∧ potential s' i + k ≤ potential s i)
}.

(** A step without a scheduling decision. *)
Record kept s s' : Prop := {
  kp_cur : g_current_task s' = g_current_task s;
  kp_cursor : g_rr_cursor s' = g_rr_cursor s;
  kp_np : g_next_pid s ≤ g_next_pid s' ≤ g_next_pid s + 1;
  kp_tasks : ∀ i, slot i → t_state (task_at s i) = TASK_RUNNABLE ∨ t_state (task_at s i) = TASK_RUNNING →
    t_state (task_at s' i) = t_state (task_at s i) ∧ t_timeslice_left (task_at s' i) = t_timeslice_left (task_at s i)
}.

Lemma kept_same s s' : same_sched s s' → kept s s'.
Proof.
  intros H. split; try apply H; [rewrite (ss_np _ _ H); lia|]. intros i Hi _.
  split; [by apply (ss_tasks _ _ H)|by apply (ss_slice _ _ H)].
Qed.

Lemma kept_spawn s s' r new : spawn_ok s s' r new → kept s s'.
Proof.
  intros (Hw & Hnp & Hr). destruct r as [pid|e].
  - destruct Hr as (_ & i & Hi & Hun & (E1 & E2 & E3 & Hs) & _). split; try done. intros j Hj Hst.
    rewrite Hs; [done..|]. intros ->. rewrite Hun in Hst. by destruct Hst.
  - destruct Hr as (E1 & E2 & Hs). split; try done. intros j Hj Hst.
    assert (Hu : used (task_at s j)) by (unfold used; destruct Hst as [->| ->]; done).
    specialize (Hs j Hj). rewrite decide_True in Hs by done. by rewrite Hs.
Qed.

Lemma keeps_trans s1 s2 s3 : same_sched s1 s2 → kept s2 s3 → kept s1 s3.
Proof.
  intros H1 [A1 A2 A3 A4]. pose proof (kept_same _ _ H1) as [B1 B2 B3 B4].
  split; try congruence; [rewrite (ss_np _ _ H1) in A3; lia|].
  intros i Hi Hst. destruct (B4 i Hi Hst) as [F1 F2]. destruct (A4 i Hi ltac:(by rewrite F1)) as [G1 G2].
  split; congruence.
Qed.

Lemma kept_slice s s' : sched_wf s → kept s s' → cur_slice s' = cur_slice s.
Proof.
  intros (Hp & Hr & _) [A1 A2 A3 A4]. unfold cur_slice. rewrite A1. destruct (g_current_task s) as [c|] eqn:Ec; [|done].
  apply A4; [by apply (current_slot s)|]. right. by apply Hr.
Qed.

Lemma step_kept s s' : sched_wf s → sched_wf s' → kept s s' → step_ok s s' 0.
Proof.
  intros Hw Hw' Hk. pose proof (kept_slice s s' Hw Hk) as Esl. destruct Hk as [A1 A2 A3 A4]. split; try done.
  - unfold slice_ok. by rewrite Esl, A1.
  - destruct Hw as (_&_&E), Hw' as (_&_&E'). rewrite E, E', A1. done.
  - intros _ _ i (Hi & Hi0 & Hc & Hst). right. unfold potential, distance. rewrite Esl, A2. split; [|lia].
    split; [done|]. split; [done|]. rewrite A1. split; [done|]. destruct (A4 i Hi) as [-> _]; [by left|done].
Qed.

Lemma step_same s s' : sched_wf s → same_sched s s' → step_ok s s' 0.
Proof. intros Hw Hs. apply step_kept; [done| |by apply kept_same]. by apply (same_sched_wf s). Qed.

(** * The turn *)

Lemma waiting_turn s i n :
  sched_pre s → waiting s i → 0 ≤ n < SCHED_MAX_TASKS → (g_rr_cursor s + n) mod SCHED_MAX_TASKS = i →
  turn s n = Some i.
Proof.
  intros Hp (Hi & Hi0 & Hc & Hst) Hn E. unfold turn.
  pose proof (sp_cursor s Hp) as Hcu. unfold slot, SCHED_MAX_TASKS in *.
  rewrite add32_small by (unfold two32; lia). rewrite E.
  unfold is_current, is_idle. rewrite (sp_idle s Hp). rewrite !bool_decide_false by congruence. cbn [orb].
  by rewrite (proj2 (state_is_spec s i TASK_RUNNABLE)).
Qed.

(** A waiting task is chosen, or is nearer to its turn; and the current task is
    not chosen while another waits. *)
Lemma pick_fair s i :
  sched_pre s → waiting s i →
  ∃ n s', sched_pick_next_locked s = (Some n, s') ∧ s' = with_cursor (g_rr_cursor s') s ∧
    g_current_task s ≠ Some n ∧ (n = i ∨ distance s' i + 1 ≤ distance s i).
Proof.
  intros Hp Hw. pose proof (sp_cursor s Hp) as Hcu. set (d := distance s i).
  assert (Hd : 0 ≤ d < SCHED_MAX_TASKS) by (apply Z.mod_pos_bound; done).
  assert (Ed : (g_rr_cursor s + d) mod SCHED_MAX_TASKS = i).
  { unfold d, distance. destruct Hw as (Hi & _). unfold slot, SCHED_MAX_TASKS in *.
    rewrite Zplus_mod_idemp_r. replace (g_rr_cursor s + (i - g_rr_cursor s)) with i by lia. by apply Z.mod_small. }
  pose proof (waiting_turn s i d Hp Hw Hd Ed) as Hturn. unfold sched_pick_next_locked.
  destruct (search_range 0 SCHED_MAX_TASKS (turn s)) as [n|] eqn:E.
  2: { rewrite search_range_None in E. by rewrite (E d Hd) in Hturn. }
  apply search_range_Some in E as (k & Hk & Ek & Hlt).
  assert (Hkd : k ≤ d). { destruct (Z.le_gt_cases k d); [done|]. rewrite Hlt in Hturn by lia. done. }
  eexists n, _. split; [done|]. split; [done|].
  unfold turn in Ek. destruct (is_current s _ || _) eqn:Ec; [done|].
  destruct (state_is s _ TASK_RUNNABLE) eqn:Es; [|done]. injection Ek as En.
  apply orb_false_iff in Ec as [Ec _]. split.
  { intros Hc. rewrite En in Ec. by rewrite (proj2 (is_current_spec s n) Hc) in Ec. }
  destruct (decide (n = i)) as [|Hne]; [by left|right]. unfold distance. cbn [with_cursor g_rr_cursor].
  unfold slot, SCHED_MAX_TASKS in *. rewrite add32_small in En by (unfold two32; lia).
  pose proof (Z.mod_pos_bound (g_rr_cursor s + k) 12 ltac:(done)) as Hnb.
  rewrite add32_small by (unfold two32; lia).
  assert (k ≠ d) by (intros ->; congruence).
  pose proof (Z.div_mod (g_rr_cursor s + k) 12 ltac:(done)) as E1. rewrite En in E1.
  pose proof (Z.div_mod (g_rr_cursor s + d) 12 ltac:(done)) as E2. rewrite Ed in E2.
  rewrite Zminus_mod_idemp_r.
  replace (i - (n + 1)) with (d - k - 1 + ((g_rr_cursor s + k) / 12 - (g_rr_cursor s + d) / 12) * 12) by lia.
  rewrite Z.mod_add by done. rewrite Z.mod_small by lia. lia.
Qed.

Lemma wake_fields s :
  alen (g_tasks s) = SCHED_MAX_TASKS →
  let w := sched_wake_sleepers_locked s in
  g_current_task w = g_current_task s ∧ g_rr_cursor w = g_rr_cursor s ∧ g_next_pid w = g_next_pid s ∧
  g_sched_started w = g_sched_started s ∧ g_idle_task w = g_idle_task s ∧
  g_in_scheduler w = g_in_scheduler s ∧ alen (g_tasks w) = SCHED_MAX_TASKS ∧
  ∀ i, slot i → task_at w i = if due s (task_at s i) then wake (task_at s i) else task_at s i.
Proof. intros Hl. cbv zeta. destruct (wake_sleepers_spec s Hl) as (ts & -> & Hts & Hg). done. Qed.

Lemma wake_not_due s t : t_state t ≠ TASK_SLEEPING → due s t = false.
Proof. intros H. unfold due. by rewrite bool_decide_false. Qed.

Lemma wake_waiting s i : sched_pre s → waiting s i → waiting (sched_wake_sleepers_locked s) i.
Proof.
  intros Hp (Hi & Hi0 & Hc & Hst). destruct (wake_fields s (sp_len s Hp)) as (E1 & _ & _ & _ & _ & _ & _ & Ht).
  split; [done|]. split; [done|]. rewrite E1. split; [done|]. rewrite Ht by done. by rewrite wake_not_due by congruence.
Qed.

Lemma wake_slice s : sched_pre s → slice_ok s → slice_ok (sched_wake_sleepers_locked s).
Proof.
  intros Hp. destruct (wake_fields s (sp_len s Hp)) as (E1 & _ & _ & _ & _ & _ & _ & Ht).
  unfold slice_ok, cur_slice. rewrite E1. destruct (g_current_task s) as [c|] eqn:Ec; [|done].
  rewrite Ht by (by apply (current_slot s)). destruct (due _ _); [|done].
  intros _ _. unfold SCHED_DEFAULT_TIMESLICE. cbn. unfold SCHED_DEFAULT_TIMESLICE. lia.
Qed.

(** The task [n] runs, chosen in the state [w] when the cursor had moved on. *)
Lemma switched_fair w s' n i :
  sched_pre w → switched w s' n → g_current_task w ≠ Some n → waiting w i →
  n = i ∨ distance s' i + 1 ≤ distance w i →
  g_current_task s' = Some i ∨ (waiting s' i ∧ potential s' i + cur_slice w ≤ potential w i).
Proof.
  intros Hp [D1 D2 D3 D4 D5 D6 D7] Hn (Hi & Hi0 & Hc & Hst) Hd. destruct (decide (n = i)) as [->|Hne]; [by left|right].
  destruct Hd as [|Hd]; [done|]. split.
  - split; [done|]. split; [done|]. rewrite D1. split; [congruence|]. rewrite D4 by done.
    rewrite decide_False by congruence. by rewrite decide_False by congruence.
  - unfold potential. assert (cur_slice s' = SCHED_DEFAULT_TIMESLICE) as ->.
    { unfold cur_slice. rewrite D1, D5. by rewrite decide_False. }
    unfold SCHED_DEFAULT_TIMESLICE in *. lia.
Qed.

Lemma switched_slice w s' n : switched w s' n → slice_ok w → slice_ok s'.
Proof.
  intros [D1 D2 D3 D4 D5 D6 D7]. unfold slice_ok, cur_slice. rewrite D1, D5.
  destruct (decide (g_current_task w = Some n)) as [->|].
  - intros H _. by apply H.
  - unfold SCHED_DEFAULT_TIMESLICE. lia.
Qed.

(** The scheduler is called in a state [s0] that differs from [s] in what the
    current task has made of itself. *)
Lemma step_schedule s s0 :
  g_sched_started s0 = true → sched_pre s0 → g_current_task s0 = g_current_task s →
  g_rr_cursor s0 = g_rr_cursor s → g_next_pid s0 = g_next_pid s →
  (∀ i, waiting s i → t_state (task_at s0 i) = TASK_RUNNABLE) →
  (slice_ok s → slice_ok s0) →
  ∃ s', sched_schedule_locked s0 = Some s' ∧ step_ok s s' 0.
Proof.
  intros Hst Hp Ec Ecu Enp Hrun Hsl. pose proof (wake_pre s0 Hp) as Hpw.
  destruct (wake_fields s0 (sp_len s0 Hp)) as (W1 & W2 & W3 & W4 & _).
  destruct (schedule_cases s0 Hp Hst) as (s' & n & E & Hw & Hsw & Epick & Ecur).
  exists s'. split; [done|]. set (w := sched_wake_sleepers_locked s0) in *.
  split; [done| | | |].
  - rewrite (proj1 (sd_next _ _ _ Hsw)), W3, Enp. lia.
  - intros Hs. apply (switched_slice w s' n Hsw), wake_slice; [done|]. by apply Hsl.
  - intros _. destruct Hw as (_ & _ & ->). by rewrite (sd_cur _ _ _ Hsw).
  - intros _ Hs i Hi. assert (Hi0 : waiting s0 i).
    { pose proof Hi as (H1 & H2 & H3 & H4). split; [done|]. split; [done|]. rewrite Ec. split; [done|]. by apply Hrun. }
    pose proof (wake_waiting s0 i Hp Hi0) as Hiw. fold w in Hiw.
    destruct (pick_fair w i Hpw Hiw) as (n' & w2 & E2 & _ & Hn & Hd). rewrite E2 in Epick, Ecur.
    injection Epick as ->. cbn [snd] in Ecur.
    assert (Hd' : n = i ∨ distance s' i + 1 ≤ distance w i) by (unfold distance in *; by rewrite Ecur).
    destruct (switched_fair w s' n i Hpw Hsw Hn Hiw Hd') as [|[H1 H2]]; [by left|right].
    split; [done|]. assert (Edw : distance w i = distance s i) by (unfold distance; by rewrite W2, Ecu).
    unfold potential in *. rewrite Edw in *.
    assert (0 ≤ cur_slice s); [|lia]. unfold slice_ok, cur_slice in *. destruct (g_current_task s) as [c|]; [|done].
    specialize (Hs ltac:(by eexists)). lia.
Qed.

Lemma task_on s c f j :
  sched_pre s → slot c → slot j → task_at (on_task c f s) j = if decide (c = j) then f (task_at s c) else task_at s j.
Proof. intros Hp Hc Hj. unfold on_task. by rewrite task_at_set by (done || apply Hj || apply Hp). Qed.

(** The running task changes, and runs on. *)
Lemma run_on s c f :
  sched_wf s → g_current_task s = Some c → t_state (f (task_at s c)) = TASK_RUNNING →
  t_pid (f (task_at s c)) = t_pid (task_at s c) → t_parent_pid (f (task_at s c)) = t_parent_pid (task_at s c) →
  sched_wf (on_task c f s).
Proof.
  intros (Hp & Hr & Hst) Hc E1 E2 E3. pose proof (current_slot s c Hp Hc) as Hcs. pose proof Hp as [Hl Hcu Hi Hin Hnp Htab].
  pose proof (λ j Hj, task_on s c f j Hp Hcs Hj) as Ht.
  assert (Etc : task_at (on_task c f s) c = f (task_at s c)) by (by rewrite Ht, decide_True).
  split; [|split; [|done]].
  - split; try done; [unfold on_task; by rewrite set_task_len|].
    change (g_current_task (on_task c f s)) with (g_current_task s). rewrite Hc in *.
    apply (table_park (task_at s)); rewrite ?Etc; try done; [left; by apply Hr|by left|].
    intros k Hk Hne. by rewrite Ht, decide_False by congruence.
  - intros c' Hc'. change (g_current_task s = Some c') in Hc'. assert (c' = c) as -> by congruence. by rewrite Etc.
Qed.

Lemma kept_run_on s c f :
  sched_wf s → g_current_task s = Some c → t_state (f (task_at s c)) = TASK_RUNNING →
  t_timeslice_left (f (task_at s c)) = t_timeslice_left (task_at s c) → kept s (on_task c f s).
Proof.
  intros (Hp & Hr & Hst) Hc E1 E2. pose proof (current_slot s c Hp Hc) as Hcs.
  split; try done; [change (g_next_pid (on_task c f s)) with (g_next_pid s); lia|].
  intros i Hi _. rewrite task_on by done. case_decide as Hd; [|done]. subst. rewrite E1, E2. split; [|done].
  symmetry. by apply Hr.
Qed.

Lemma wake_wf s : sched_wf s → sched_wf (sched_wake_sleepers_locked s).
Proof.
  intros (Hp & Hr & Hst). split; [by apply wake_pre|]. destruct (wake_fields s (sp_len s Hp)) as (E1&_&_&E4&_&_&_&Ht).
  split; [|by rewrite E1, E4]. intros c Hc. rewrite E1 in Hc. rewrite Ht by (by apply (current_slot s)).
  specialize (Hr c Hc). rewrite wake_not_due; [done|]. congruence.
Qed.

(** The state [d] differs from [s] in the running task [c] and in counters. *)
Record account s d (c : Z) (t : task) : Prop := {
  ac_wf : sched_wf d;
  ac_cur : g_current_task d = Some c;
  ac_cursor : g_rr_cursor d = g_rr_cursor s;
  ac_np : g_next_pid d = g_next_pid s;
  ac_task : task_at d c = t;
  ac_others : ∀ i, slot i → i ≠ c → task_at d i = task_at s i
}.

Lemma account_task s d c t f :
  account s d c t → t_state (f t) = t_state t → t_pid (f t) = t_pid t → t_parent_pid (f t) = t_parent_pid t →
  account s (on_task c f d) c (f t).
Proof.
  intros [Hw Hc Hcu Hnp Ht Ho] E1 E2 E3. pose proof (current_slot d c (proj1 Hw) Hc) as Hcs.
  pose proof (proj1 (proj2 Hw) c Hc) as Hr. rewrite Ht in Hr.
  pose proof (λ j Hj, task_on d c f j (proj1 Hw) Hcs Hj) as Hon. split; try done.
  - apply run_on; rewrite ?Ht; congruence.
  - rewrite Hon by done. by rewrite decide_True, Ht.
  - intros i Hi Hne. rewrite Hon by done. rewrite decide_False by congruence. by apply Ho.
Qed.

Lemma account_idle s d c t :
  account s d c t → account s (if is_idle d c then with_idle_ticks (add32 (g_idle_ticks d) 1) d else d) c t.
Proof.
  intros Ha. destruct (is_idle d c); [|done]. destruct Ha as [Hw Hc Hcu Hnp Ht Ho]. split; try done.
  apply (same_sched_wf d); [|done]. by split.
Qed.

Definition count_tick t : task := set_ticks_run (add32 (t_ticks_run t) 1) t.
Definition use_slice t : task := if 0 <? t_timeslice_left t then set_timeslice (t_timeslice_left t - 1) t else t.

(** The accounting of a tick, up to the question whether the time slice is over. *)
Definition tick_account (c : Z) s : sched σ :=
  let s := sched_wake_sleepers_locked s in
  let s := on_task c count_tick s in
  let s := if is_idle s c then with_idle_ticks (add32 (g_idle_ticks s) 1) s else s in
  on_task c use_slice s.

Lemma tick_account_cases s c :
  sched_wf s → g_current_task s = Some c →
  account (sched_wake_sleepers_locked s) (tick_account c s) c (use_slice (count_tick (task_at s c))).
Proof.
  intros Hw Hc. pose proof (current_slot s c (proj1 Hw) Hc) as Hcs. unfold tick_account.
  destruct (wake_fields s (sp_len s (proj1 Hw))) as (E1&E2&E3&E4&_&_&_&Ht).
  pose proof (wake_wf s Hw) as Hww. rewrite Hc in E1. specialize (Ht c Hcs).
  rewrite wake_not_due in Ht by (rewrite (proj1 (proj2 Hw) c Hc); done).
  generalize dependent (sched_wake_sleepers_locked s). intros w E1 E2 E3 E4 Ht Hww.
  assert (Hus : ∀ t, t_state (use_slice t) = t_state t ∧ t_pid (use_slice t) = t_pid t ∧
    t_parent_pid (use_slice t) = t_parent_pid t) by (intros t; unfold use_slice; by destruct (0 <? _)).
  apply account_task; [|apply Hus..]. apply account_idle, account_task; [|reflexivity..].
  split; first [assumption|reflexivity].
Qed.

Lemma tick_waiting s c i :
  sched_wf s → g_current_task s = Some c → waiting s i → waiting (tick_account c s) i.
Proof.
  intros Hw Hc Hi. pose proof (wake_waiting s i (proj1 Hw) Hi) as (H1 & H2 & H3 & H4).
  destruct (tick_account_cases s c Hw Hc) as [_ Hcd _ _ _ Ho].
  assert (i ≠ c) by (destruct Hi as (_ & _ & Hi & _); congruence).
  split; [done|]. split; [done|]. rewrite Hcd. split; [congruence|]. by rewrite Ho.
Qed.

Lemma tick_eq s c :
  g_current_task s = Some c → g_sched_started s = true → g_in_scheduler s = false →
  sched_on_timer_tick_irq s =
    let d := tick_account c s in
    if 0 <? t_timeslice_left (task_at d c) then Some d
    else
      let e := on_task c (set_timeslice SCHED_DEFAULT_TIMESLICE) d in
      match sched_pick_next_locked e with
      | (None, s) => Some s
      | (Some next, s) =>
          if is_current s next then Some s
          else sched_switch_locked next (with_need_resched false
                 (on_task c (λ t, set_preemptions (add32 (t_preemptions t) 1) t) s))
      end.
Proof.
  intros E1 E2 E3. unfold sched_on_timer_tick_irq. rewrite E1, E2, E3. cbn [negb orb].
  unfold tick_account, count_tick, use_slice. cbv zeta. reflexivity.
Qed.

(** The time slice is over. *)
Lemma tick_expired s e c :
  sched_wf e → g_current_task e = Some c → t_timeslice_left (task_at e c) = SCHED_DEFAULT_TIMESLICE →
  g_next_pid e = g_next_pid s → g_rr_cursor e = g_rr_cursor s → g_current_task s = Some c →
  (∀ i, waiting s i → waiting e i) →
  ∃ s', match sched_pick_next_locked e with
        | (None, s) => Some s
        | (Some next, s) =>
            if is_current s next then Some s
            else sched_switch_locked next (with_need_resched false
                   (on_task c (λ t, set_preemptions (add32 (t_preemptions t) 1) t) s))
        end = Some s' ∧ step_ok s s' 1.
Proof.
  intros Hw Hc Hsl Enp Ecu Hcs Hwait. pose proof Hw as (Hp & Hr & Hst).
  destruct (pick_cases e Hp) as (n & e2 & E & Hn & E2 & Hcur2 & Hcase). rewrite E.
  assert (Hst' : g_sched_started e = true) by (rewrite Hst, Hc; by apply bool_decide_true).
  assert (Hp2 : sched_pre e2) by (rewrite E2; destruct Hp; split; done).
  assert (Hwf2 : sched_wf e2) by (split; [done|]; rewrite E2; split; done).
  assert (Hc2 : g_current_task e2 = Some c) by (by rewrite E2).
  assert (Ht2 : task_at e2 = task_at e) by (by rewrite E2).
  destruct (is_current e2 n) eqn:Ein.
  { apply is_current_spec in Ein. assert (n = c) as -> by congruence. exists e2. split; [done|].
    split; [done|by rewrite E2; cbn [with_cursor g_next_pid]; lia| | |].
    - unfold slice_ok, cur_slice. rewrite Hc2, Ht2, Hsl. unfold SCHED_DEFAULT_TIMESLICE. lia.
    - intros _. by rewrite E2.
    - intros _ _ i Hi. destruct (pick_fair e i Hp (Hwait i Hi)) as (n' & s2 & E' & _ & Hn' & _).
      rewrite E in E'. injection E' as <- <-. congruence. }
  set (f := λ t, set_preemptions (add32 (t_preemptions t) 1) t).
  set (x := with_need_resched false (on_task c f e2)).
  assert (Hx : same_sched e2 x).
  { apply (same_sched_trans _ (on_task c f e2)); [|split; done]. apply same_on_task; try done. by apply (current_slot e2). }
  assert (Hcx : g_current_task x = Some c) by (by rewrite (ss_cur _ _ Hx)).
  assert (Hnc : g_current_task x ≠ Some n).
  { rewrite Hcx. intros [= ->]. by rewrite (proj2 (is_current_spec e2 n)) in Ein. }
  assert (Hrn : t_state (task_at x n) = TASK_RUNNABLE).
  { destruct (ss_tasks _ _ Hx n Hn) as (-> & _). rewrite Ht2. destruct Hcase as [[H _]|[_ H]]; [congruence|done]. }
  destruct (switch_other x n (same_sched_pre _ _ Hx Hp2) ltac:(rewrite (ss_started _ _ Hx), E2; done) Hn Hnc Hrn)
    as (s' & Es & Hw' & Hsw & Ecu').
  exists s'. split; [done|].
  assert (Hslx : cur_slice x = SCHED_DEFAULT_TIMESLICE).
  { unfold cur_slice. rewrite Hcx. rewrite (ss_slice _ _ Hx c) by (by apply (current_slot e2)). by rewrite Ht2. }
  split; [done| | | |].
  - rewrite (proj1 (sd_next _ _ _ Hsw)), (ss_np _ _ Hx), E2. cbn [with_cursor g_next_pid]. lia.
  - intros _. apply (switched_slice x s' n Hsw). unfold slice_ok. rewrite Hslx. unfold SCHED_DEFAULT_TIMESLICE. lia.
  - intros _. destruct Hw' as (_ & _ & ->). by rewrite (sd_cur _ _ _ Hsw).
  - intros Hss Hs i Hi. pose proof (Hwait i Hi) as Hie.
    destruct (pick_fair e i Hp Hie) as (n' & s2 & E' & _ & _ & Hd). rewrite E in E'. injection E' as <- <-.
    assert (Hix : waiting x i).
    { destruct Hie as (H1 & H2 & H3 & H4). split; [done|]. split; [done|]. split; [congruence|].
      destruct (ss_tasks _ _ Hx i H1) as (-> & _). by rewrite Ht2. }
    assert (Ede : distance e i = distance s i) by (unfold distance; by rewrite Ecu).
    destruct (decide (n = i)) as [->|Hne]; [left; by apply Hsw|]. destruct Hd as [|Hd]; [done|].
    assert (Ed' : distance s' i = distance e2 i) by (unfold distance; by rewrite Ecu', (ss_cursor _ _ Hx)).
    destruct (switched_slice x s' n Hsw) as [_ Hle].
    { unfold slice_ok. rewrite Hslx. unfold SCHED_DEFAULT_TIMESLICE. lia. }
    { by rewrite (sd_cur _ _ _ Hsw). }
    right. split.
    + destruct Hix as (H1 & H2 & H3 & H4). split; [done|]. split; [done|]. rewrite (sd_cur _ _ _ Hsw).
      split; [congruence|]. rewrite (sd_state _ _ _ Hsw) by done. by rewrite !decide_False by congruence.
    + unfold potential. rewrite Ed'. rewrite Ede in Hd. specialize (Hs ltac:(by eexists)).
      unfold SCHED_DEFAULT_TIMESLICE in *. lia.
Qed.

Lemma step_tick s :
  sched_wf s → slice_ok s → ∃ s', timer_handler s = Some s' ∧ step_ok s s' 1.
Proof.
  intros Hw0 Hs0. unfold timer_handler. set (s1 := with_timer_ticks _ s).
  assert (Hss : same_sched s s1) by (split; done). pose proof (same_sched_wf _ _ Hss Hw0) as Hw.
  assert (Hback : ∀ s', step_ok s1 s' 1 → step_ok s s' 1).
  { intros s' [A1 A2 A3 A4 A5]. split; done. }
  assert (Hs : slice_ok s1) by done. clearbody s1. clear Hw0 Hs0.
  pose proof Hw as (Hp & Hr & Hst).
  destruct (g_current_task s1) as [c|] eqn:Hc.
  2: { assert (E : sched_on_timer_tick_irq s1 = Some s1) by (unfold sched_on_timer_tick_irq; by rewrite Hc).
       exists s1. split; [done|]. apply Hback. split; try done; [lia|]. rewrite Hst. done. }
  assert (Hst' : g_sched_started s1 = true) by (rewrite Hst; by apply bool_decide_true).
  rewrite (tick_eq s1 c Hc Hst' (sp_in s1 Hp)). cbv zeta.
  destruct (wake_fields s1 (sp_len s1 Hp)) as (_ & W2 & W3 & _).
  destruct (tick_account_cases s1 c Hw Hc) as [Hwd Hcd Hcud Hnpd Htd _]. pose proof (tick_waiting s1 c) as Hwait.
  rewrite W2 in Hcud. rewrite W3 in Hnpd.
  generalize dependent (tick_account c s1). intros d Hwd Hcd Hcud Hnpd Htd Hwait.
  specialize (λ i, Hwait i Hw Hc).
  assert (Esl : cur_slice s1 = t_timeslice_left (task_at s1 c)) by (unfold cur_slice; by rewrite Hc).
  assert (Hb : 1 ≤ cur_slice s1 ≤ SCHED_DEFAULT_TIMESLICE) by (apply Hs; rewrite Hc; by eexists).
  rewrite Esl in Hb.
  assert (Hdec : t_timeslice_left (task_at d c) = t_timeslice_left (task_at s1 c) - 1).
  { rewrite Htd. unfold use_slice, count_tick. cbn [set_ticks_run t_timeslice_left].
    by rewrite (proj2 (Z.ltb_lt 0 _)) by lia. }
  clear Htd W2 W3.
  destruct (Z.ltb_spec 0 (t_timeslice_left (task_at d c))) as [Hpos|Hz].
  - exists d. split; [done|]. apply Hback. split; [done|lia| | |].
    + unfold slice_ok, cur_slice. rewrite Hcd. lia.
    + intros _. destruct Hwd as (_ & _ & ->). by rewrite Hcd.
    + intros _ _ i Hi. right. split; [by apply Hwait|]. unfold potential, distance. rewrite Hcud, Esl.
      unfold cur_slice. rewrite Hcd. unfold SCHED_DEFAULT_TIMESLICE. lia.
  - pose proof (current_slot d c (proj1 Hwd) Hcd) as Hcs. pose proof (proj1 (proj2 Hwd) c Hcd) as Hrd.
    assert (Ht : ∀ j, slot j → task_at (on_task c (set_timeslice SCHED_DEFAULT_TIMESLICE) d) j =
      if decide (c = j) then set_timeslice SCHED_DEFAULT_TIMESLICE (task_at d c) else task_at d j)
      by (intros j Hj; by apply task_on; [apply Hwd|..]).
    destruct (tick_expired s1 (on_task c (set_timeslice SCHED_DEFAULT_TIMESLICE) d) c) as (s' & E & Hok); try done.
    + by apply run_on.
    + by rewrite Ht, decide_True.
    + intros i Hi. destruct (Hwait i Hi) as (H1 & H2 & H3 & H4). split; [done|]. split; [done|]. split; [done|].
      rewrite Ht by done. rewrite decide_False by congruence. done.
    + exists s'. split; [done|]. by apply Hback.
Qed.

(** * The operations *)

Lemma same_on_user s f : sched_pre s → same_sched s (on_current_user f s).
Proof.
  intros Hp. unfold on_current_user, current_user. destruct (g_current_task s) as [c|] eqn:Ec; [|apply same_sched_refl].
  cbn. destruct (is_user (task_at s c)); [|apply same_sched_refl].
  apply same_on_task; [done|by apply (current_slot s)|by split|done].
Qed.

Lemma same_with_fds {A} (f : proc_fd_table → σ → res A * proc_fd_table * σ) s :
  sched_pre s → same_sched s (snd (with_current_fds f s)).
Proof.
  intros Hp. unfold with_current_fds. destruct (g_current_task s) as [c|] eqn:Ec; [|apply same_sched_refl].
  destruct (negb _); [apply same_sched_refl|]. destruct (f _ _) as [[r tab] fs]. cbn [snd].
  apply (same_sched_trans _ (on_task c (set_fd_table tab) s)); [|apply same_with_files].
  apply same_on_task; [done|by apply (current_slot s)|by split|done].
Qed.

Lemma same_set_user s c (f : task → task_user_ctx) :
  sched_pre s → g_current_task s = Some c → same_sched s (on_task c (λ t, set_user (f t) t) s).
Proof. intros Hp Hc. apply same_on_task; [done|by apply (current_slot s)|by split|done]. Qed.

Lemma same_layout s ib isz sb ssz : sched_pre s → same_sched s (snd (sched_set_current_user_layout ib isz sb ssz s)).
Proof.
  intros Hp. unfold sched_set_current_user_layout. destruct (g_current_task s) as [c|] eqn:Ec; [|apply same_sched_refl].
  destruct (_ || _); [apply same_sched_refl|]. by apply same_set_user.
Qed.

Lemma same_cmdline s src len : sched_pre s → same_sched s (snd (sched_set_current_task_cmdline src len s)).
Proof.
  intros Hp. unfold sched_set_current_task_cmdline. destruct (g_current_task s) as [c|] eqn:Ec; [|apply same_sched_refl].
  destruct (_ && _); [apply same_sched_refl|]. destruct (_ <=? _); [apply same_sched_refl|]. by apply same_set_user.
Qed.

Lemma same_cwd s src len : sched_pre s → same_sched s (snd (sched_set_current_task_cwd src len s)).
Proof.
  intros Hp. unfold sched_set_current_task_cwd. destruct (g_current_task s) as [c|] eqn:Ec; [|apply same_sched_refl].
  destruct (_ || _); [apply same_sched_refl|]. destruct (_ <=? _); [apply same_sched_refl|]. by apply same_set_user.
Qed.

Lemma step_spawn s s' r new : sched_wf s → spawn_ok s s' r new → step_ok s s' 0.
Proof. intros Hw Hs. apply step_kept; [done|apply Hs|by apply (kept_spawn s s' r new)]. Qed.

Lemma step_spawn_internal s name entry arg size ppid inh :
  sched_wf s → g_next_pid s < 2147483648 →
  (ppid = -1 ∨ ∃ c, g_current_task s = Some c ∧ ppid = t_pid (task_at s c)) →
  step_ok s (snd (sched_spawn_task_internal name entry arg size ppid inh s)) 0.
Proof.
  intros Hw Hb Hpp. pose proof (spawn_cases s name entry arg size ppid inh Hw Hb Hpp) as H.
  destruct (sched_spawn_task_internal _ _ _ _ _ _ _) as [r s']. by apply (step_spawn _ _ r (spawned entry arg ppid)).
Qed.

Lemma step_spawn_child s name entry arg size inh :
  sched_wf s → g_next_pid s < 2147483648 →
  step_ok s (snd (sched_spawn_user_child_task name entry arg size inh s)) 0.
Proof.
  intros Hw Hb. unfold sched_spawn_user_child_task.
  destruct (g_current_task s) as [c|] eqn:Ec; [|apply step_same; [done|apply same_sched_refl]].
  destruct (negb _); [apply step_same; [done|apply same_sched_refl]|].
  apply step_spawn_internal; try done. right. by exists c.
Qed.

Lemma step_fork s ctx :
  sched_wf s → g_next_pid s < 2147483648 → step_ok s (snd (sched_fork_current_user_task ctx s)) 0.
Proof.
  intros Hw Hb. pose proof (fork_cases s ctx Hw Hb) as H. destruct (g_current_task s) as [c|] eqn:Ec.
  - destruct (sched_fork_current_user_task ctx s) as [r s']. destruct H as (sm & Hsm & H).
    destruct (H c eq_refl) as (_ & _ & Hok & _).
    apply step_kept; [done|apply Hok|]. apply (keeps_trans _ sm); [done|]. by apply (kept_spawn _ _ _ _ Hok).
  - unfold sched_fork_current_user_task. rewrite Ec. apply step_same; [done|apply same_sched_refl].
Qed.

(** The scheduler is called by a task that runs, or has parked with [f]. *)
Lemma step_park s c f :
  sched_wf s → g_current_task s = Some c → sched_pre (on_task c f s) →
  t_timeslice_left (f (task_at s c)) = t_timeslice_left (task_at s c) →
  ∃ s', sched_schedule_locked (with_need_resched false (on_task c f s)) = Some s' ∧ step_ok s s' 0.
Proof.
  intros Hw Hc Hp Hsl. pose proof Hw as (Hp0 & Hr & Hst). pose proof (current_slot s c Hp0 Hc) as Hcs.
  set (x := on_task c f s) in *. set (y := with_need_resched false x).
  assert (Hxy : same_sched x y) by (by split).
  assert (Hty : ∀ j, slot j → task_at y j = if decide (c = j) then f (task_at s c) else task_at s j).
  { intros j Hj. exact (task_on s c f j Hp0 Hcs Hj). }
  apply step_schedule; try done.
  - change (g_sched_started s = true). rewrite Hst, Hc. by apply bool_decide_true.
  - by apply (same_sched_pre x).
  - intros i (Hi & Hi0 & Hci & Hsti). rewrite Hty by done. by rewrite decide_False by congruence.
  - unfold slice_ok, cur_slice. change (g_current_task y) with (g_current_task s). rewrite Hc.
    rewrite Hty by done. by rewrite decide_True, Hsl.
Qed.

Lemma step_yield s : sched_wf s → ∃ s', sched_yield s = Some s' ∧ step_ok s s' 0.
Proof.
  intros Hw. pose proof Hw as (Hp & Hr & Hst). unfold sched_yield. destruct (g_current_task s) as [c|] eqn:Hc.
  2: { rewrite Hst. exists s. split; [done|]. apply step_same; [done|apply same_sched_refl]. }
  rewrite Hst, bool_decide_true by done. rewrite bool_decide_false by done. cbn [negb orb].
  apply step_schedule; try done; [apply (same_sched_pre s); [by split|done]|by intros i (_ & _ & _ & H)].
Qed.

Lemma step_sleep s n :
  sched_wf s → g_current_task s ≠ Some 0 → ∃ s', sched_sleep_ticks n s = Some s' ∧ step_ok s s' 0.
Proof.
  intros Hw H0. pose proof Hw as (Hp & Hr & Hst). unfold sched_sleep_ticks.
  destruct (g_current_task s) as [c|] eqn:Hc.
  2: { exists s. split; [done|]. apply step_same; [done|apply same_sched_refl]. }
  rewrite Hst, bool_decide_true by done. cbn [negb]. destruct (n =? 0); [by apply step_yield|].
  apply step_park; try done. apply park_pre; try done; [congruence|by left].
Qed.

(** A zombie is collected. *)
Lemma collect_cases s c z :
  sched_wf s → g_current_task s = Some c → slot z → t_state (task_at s z) = TASK_ZOMBIE →
  let s' := on_task c (set_wait_target 0) (sched_reap_task_locked z s) in
  step_ok s s' 0 ∧ g_current_task s' = Some c ∧
  ∀ i, slot i → task_at s' i = if decide (i = z) then task_reset
                               else if decide (i = c) then set_wait_target 0 (task_at s c) else task_at s i.
Proof.
  intros Hw Hc Hz Hst. cbv zeta. pose proof Hw as (Hp & Hr & Hsd). pose proof (current_slot s c Hp Hc) as Hcs.
  specialize (Hr c Hc). assert (Hzc : z ≠ c) by congruence.
  destruct (reap_zombie s z Hp Hz Hst ltac:(congruence)) as (Hp1 & Ht1 & E1 & E2 & E3 & [_ E4]).
  generalize dependent (sched_reap_task_locked z s). intros s1 Hp1 Ht1 E1 E2 E3 E4.
  assert (Hc1 : g_current_task s1 = Some c) by congruence.
  assert (Et1 : task_at s1 c = task_at s c) by (by rewrite Ht1, decide_False).
  assert (Hw1 : sched_wf s1).
  { split; [done|]. split; [|by rewrite E2, E1]. intros c' Hc'. assert (c' = c) as -> by congruence. congruence. }
  assert (Ht : ∀ i, slot i → task_at (on_task c (set_wait_target 0) s1) i = if decide (i = z) then task_reset
    else if decide (i = c) then set_wait_target 0 (task_at s c) else task_at s i).
  { intros i Hi. rewrite task_on, Et1, Ht1 by done. destruct (decide (i = c)) as [->|Hne].
    - rewrite (decide_True (P := c = c)) by done. by rewrite decide_False by congruence.
    - rewrite (decide_False (P := c = i)) by congruence.
      destruct (decide (z = i)) as [->|]; [by rewrite decide_True|by rewrite (decide_False (P := i = z)) by congruence]. }
  assert (Hw' : sched_wf (on_task c (set_wait_target 0) s1)) by (apply run_on; rewrite ?Et1; done).
  split; [|done]. apply step_kept; [done|done|].
  split; [done|done|change (g_next_pid s ≤ g_next_pid s1 ≤ g_next_pid s + 1); lia|].
  intros i Hi Hsi. rewrite Ht by done. rewrite decide_False by (intros ->; rewrite Hst in Hsi; by destruct Hsi).
  destruct (decide (i = c)) as [->|]; done.
Qed.

Definition no_zombie s (pid target : Z) : Prop :=
  ∀ k, slot k → matches (task_at s) pid target k → t_state (task_at s k) ≠ TASK_ZOMBIE.

(** A task that cannot run leaves the processor as it is. *)
Lemma schedule_leaves s s' c :
  sched_pre s → g_sched_started s = true → g_current_task s = Some c →
  t_state (task_at s c) ≠ TASK_RUNNING → t_state (task_at s c) ≠ TASK_RUNNABLE → t_state (task_at s c) ≠ TASK_SLEEPING →
  sched_schedule_locked s = Some s' →
  g_current_task s' ≠ Some c ∧ t_state (task_at s' c) = t_state (task_at s c) ∧
  same_identity (task_at s c) (task_at s' c).
Proof.
  intros Hp Hst Hc N1 N2 N3 E. pose proof (current_slot s c Hp Hc) as Hcs.
  destruct (schedule_cases s Hp Hst) as (s2 & n & E2 & _ & Hsw & Epick & _). rewrite E in E2. injection E2 as <-.
  destruct (wake_fields s (sp_len s Hp)) as (W1 & _ & _ & _ & _ & _ & _ & Wt). specialize (Wt c Hcs).
  rewrite (wake_not_due s _ N3) in Wt.
  destruct (pick_cases _ (wake_pre s Hp)) as (n' & w2 & E2 & Hn & _ & _ & Hcase). rewrite E2 in Epick.
  injection Epick as ->. rewrite W1 in Hcase.
  assert (Hne : c ≠ n).
  { intros <-. rewrite Wt in Hcase. destruct Hcase as [[_ [H|H]]|[H _]]; [by apply N1|by apply N2|by apply H]. }
  rewrite (sd_cur _ _ _ Hsw). split; [congruence|]. rewrite (sd_state _ _ _ Hsw c Hcs), Wt.
  rewrite (decide_False (P := c = n)) by exact Hne. rewrite decide_False by exact N1. split; [reflexivity|].
  rewrite <- Wt. by apply (sd_identity _ _ _ Hsw).
Qed.

(** Nobody to collect yet: the task waits. *)
Lemma wait_cases s c target :
  sched_wf s → g_current_task s = Some c → c ≠ 0 →
  no_zombie s (t_pid (task_at s c)) target → (∃ k, slot k ∧ matches (task_at s) (t_pid (task_at s c)) target k) →
  let f := λ t, set_state TASK_WAIT_CHILD (set_wait_target target t) in
  ∃ s', sched_schedule_locked (with_need_resched false (on_task c f s)) = Some s' ∧ step_ok s s' 0 ∧
    g_current_task s' ≠ Some c ∧ t_state (task_at s' c) = TASK_WAIT_CHILD ∧
    t_wait_target_pid (task_at s' c) = target ∧ t_pid (task_at s' c) = t_pid (task_at s c).
Proof.
  intros Hw Hc H0 Hnz Hex f. pose proof (current_slot s c (proj1 Hw) Hc) as Hcs.
  assert (Hp : sched_pre (on_task c f s)) by (apply park_pre; try done; by right).
  destruct (step_park s c f Hw Hc Hp eq_refl) as (s' & E & Hok). exists s'. split; [done|]. split; [done|].
  set (y := with_need_resched false (on_task c f s)) in *.
  assert (Hpy : sched_pre y) by (apply (same_sched_pre (on_task c f s)); [by split|done]).
  assert (Hty : task_at y c = f (task_at s c)) by (exact (task_at_eq s c _ (sp_len s (proj1 Hw)) Hcs)).
  assert (Hsty : g_sched_started y = true).
  { change (g_sched_started s = true). destruct Hw as (_ & _ & ->). rewrite Hc. by apply bool_decide_true. }
  assert (Hno : t_state (task_at y c) = TASK_WAIT_CHILD) by (by rewrite Hty).
  destruct (schedule_leaves y s' c Hpy Hsty Hc) as (H1 & H2 & Hid); [by rewrite Hno..|exact E|]. split; [done|].
  rewrite H2. unfold same_identity in Hid. rewrite Hty in *. destruct Hid as (-> & _ & _ & _ & _ & _ & _ & -> & _). done.
Qed.

(** What [wait_round] does, on each of its branches. *)
Inductive wait_result s (c target : Z) (nohang : bool) : option (res (Z * Z)) → sched σ → Prop :=
  | wait_collects z s' :
      slot z → z ≠ c → matches (task_at s) (t_pid (task_at s c)) target z → t_state (task_at s z) = TASK_ZOMBIE →
      (∀ j, 0 ≤ j < z → matches (task_at s) (t_pid (task_at s c)) target j → t_state (task_at s j) ≠ TASK_ZOMBIE) →
      g_current_task s' = Some c →
      (∀ i, slot i → task_at s' i = if decide (i = z) then task_reset
                                    else if decide (i = c) then set_wait_target 0 (task_at s c) else task_at s i) →
      wait_result s c target nohang (Some (Ok (t_pid (task_at s z), exit_code_of (task_at s z)))) s'
  | wait_no_child :
      (∀ k, slot k → ¬ matches (task_at s) (t_pid (task_at s c)) target k) →
      wait_result s c target nohang (Some (Err KERR_NOENT)) s
  | wait_not_yet k :
      no_zombie s (t_pid (task_at s c)) target →
      slot k → matches (task_at s) (t_pid (task_at s c)) target k → nohang = true →
      wait_result s c target nohang (Some (Ok (0, 0))) (on_task c (set_wait_target 0) s)
  | wait_blocks k s' :
      no_zombie s (t_pid (task_at s c)) target →
      slot k → matches (task_at s) (t_pid (task_at s c)) target k → nohang = false →
      g_current_task s' ≠ Some c → t_state (task_at s' c) = TASK_WAIT_CHILD →
      t_wait_target_pid (task_at s' c) = target → t_pid (task_at s' c) = t_pid (task_at s c) →
      wait_result s c target nohang None s'.

Lemma wait_round_cases s c target nohang :
  sched_wf s → g_current_task s = Some c → c ≠ 0 →
  ∃ r s', wait_round target nohang s = Some (r, s') ∧ step_ok s s' 0 ∧ wait_result s c target nohang r s'.
Proof.
  intros Hw Hc H0. unfold wait_round. rewrite Hc. pose proof (current_slot s c (proj1 Hw) Hc) as Hcs.
  pose proof (find_zombie_spec s (t_pid (task_at s c)) target) as Hf.
  destruct (sched_find_matching_zombie_child_locked s _ _) as [[z|] has].
  - destruct Hf as [(Hz & Hm & Hst & Hlt) _].
    destruct (collect_cases s c z Hw Hc Hz Hst) as (Hok & Hc' & Ht). eexists _, _. split; [done|]. split; [done|].
    apply wait_collects; try done. intros ->. pose proof (proj1 (proj2 Hw) c Hc). congruence.
  - destruct Hf as [Hnz Hhas]. destruct has.
    2: { eexists _, s. split; [done|]. split; [apply step_same; [done|apply same_sched_refl]|].
         apply wait_no_child. intros k Hk Hm. assert (false = true); [|done]. apply Hhas. by exists k. }
    destruct (proj1 Hhas eq_refl) as (k & Hk & Hm). destruct nohang.
    + eexists _, _. split; [done|]. pose proof (proj1 (proj2 Hw) c Hc) as Hr. split.
      * apply step_kept; [done|by apply run_on|by apply kept_run_on].
      * by apply (wait_not_yet _ _ _ _ k).
    + destruct (wait_cases s c target Hw Hc H0 Hnz) as (s' & E & Hok & H1 & H2 & H3 & H4); [by exists k|].
      rewrite E. eexists _, s'. split; [done|]. split; [done|]. by apply (wait_blocks _ _ _ _ k).
Qed.

Lemma step_ok_same s d s' k : sched_wf s → same_sched s d → step_ok d s' k → step_ok s s' k.
Proof.
  intros Hw Hs [A1 A2 A3 A4 A5]. pose proof (kept_slice s d Hw (kept_same _ _ Hs)) as Esl.
  assert (Hsl : slice_ok s → slice_ok d) by (unfold slice_ok; by rewrite Esl, (ss_cur _ _ Hs)).
  assert (Hwt : ∀ i, waiting s i → waiting d i).
  { intros i (Hi & Hi0 & Hc & Hst). split; [done|]. split; [done|]. rewrite (ss_cur _ _ Hs). split; [done|].
    by destruct (ss_tasks _ _ Hs i Hi) as (-> & _). }
  split; try done.
  - by rewrite (ss_np _ _ Hs) in A2.
  - intros H. by apply A3, Hsl.
  - intros H. apply A4. by rewrite (ss_started _ _ Hs).
  - intros H Hsl' i Hi. destruct (A5 ltac:(by rewrite (ss_started _ _ Hs)) (Hsl Hsl') i (Hwt i Hi)) as [|[H1 H2]]; [by left|right].
    split; [done|]. unfold potential, distance in *. by rewrite Esl, (ss_cursor _ _ Hs) in H2.
Qed.

Lemma step_wait s target options :
  sched_wf s → g_current_task s ≠ Some 0 →
  ∃ r, sched_waitpid_ex target options s = Some r ∧ step_ok s (snd r) 0.
Proof.
  intros Hw H0. assert (Hsame : step_ok s s 0) by (apply step_same; [done|apply same_sched_refl]).
  unfold sched_waitpid_ex, sched_current_task_is_user.
  destruct (g_current_task s) as [c|] eqn:Hc; [|by eexists].
  destruct (negb (is_user _)); [by eexists|]. destruct (negb _); [by eexists|]. destruct (_ && _); [by eexists|].
  destruct (wait_round_cases s c target (negb (Z.land options SYSCALL_WAITPID_FLAG_NOHANG =? 0)) Hw Hc ltac:(congruence))
    as (r & s' & E & Hok & _). by exists (r, s').
Qed.

Lemma step_exit s :
  sched_wf s → g_sched_started s = true → g_current_task s ≠ Some 0 →
  ∃ s', sched_task_exit s = Some s' ∧ step_ok s s' 0.
Proof.
  intros Hw Hst H0. pose proof Hw as (Hp & Hr & Hsd). unfold sched_task_exit.
  destruct (g_current_task s) as [c|] eqn:Hc; [|by rewrite Hst in Hsd].
  destruct (exit_cases s c Hp Hc ltac:(congruence) (Hr c Hc)) as (Hp' & E1 & E2 & E3 & [_ E4] & E5 & Hrun & _).
  apply step_schedule; try congruence.
  - intros i (Hi & _ & Hic & Hsi). apply Hrun; [done|congruence|done].
  - unfold slice_ok, cur_slice. by rewrite E1, Hc, E5.
Qed.

Lemma step_fault s addr err eip :
  sched_wf s → g_sched_started s = true → g_current_task s ≠ Some 0 →
  ∃ s', isr_page_fault true addr err eip s = Some s' ∧ step_ok s s' 0.
Proof.
  intros Hw Hst H0. unfold isr_page_fault. destruct (paging_handle_cow_fault _ _ _ _) as [[v|e] m].
  { eexists. split; [done|]. apply step_same; [done|apply same_with_mem]. }
  set (s1 := sched_note_current_user_fault eip addr err (with_mem m s)).
  assert (Hs : same_sched s s1).
  { apply (same_sched_trans _ (with_mem m s)); [apply same_with_mem|]. apply same_on_user.
    apply (same_sched_pre s); [apply same_with_mem|apply Hw]. }
  clearbody s1. destruct (step_exit s1) as (s' & E & Hok).
  - by apply (same_sched_wf s).
  - by rewrite (ss_started _ _ Hs).
  - by rewrite (ss_cur _ _ Hs).
  - exists s'. split; [done|]. by apply (step_ok_same s s1).
Qed.

Lemma step_start s :
  sched_wf s → g_sched_started s = false →
  ∃ s', sched_start s = Some s' ∧ step_ok s s' 0.
Proof.
  intros Hw Hst. pose proof Hw as (Hp & Hr & Hsd). unfold sched_start. rewrite Hst.
  assert (Hp' : sched_pre (with_started true s)) by (destruct Hp; by split).
  by apply step_schedule; try done; intros i (_ & _ & _ & H).
Qed.

(** Every step of the scheduler succeeds, keeps the task table consistent, and
    brings every waiting task nearer to its turn. *)
Lemma step_all s op :
  sched_wf s → slice_ok s → g_next_pid s < 2147483648 → op_allowed op s →
  ∃ s', sched_step op s = Some s' ∧ step_ok s s' (is_tick op).
Proof.
  intros Hw Hs Hb [H0 Hop]. pose proof (proj1 Hw) as Hp.
  assert (Hsome : ∀ s', step_ok s s' 0 → ∃ s2, Some s' = Some s2 ∧ step_ok s s2 0) by (intros s' H; by exists s').
  assert (Hsame : ∀ s', same_sched s s' → ∃ s2, Some s' = Some s2 ∧ step_ok s s2 0)
    by (intros s' H; by apply Hsome, step_same).
  destruct op; cbn [sched_step is_tick].
  - apply Hsome, step_spawn_internal; try done. by left.
  - by apply Hsome, step_spawn_child.
  - by apply Hsome, step_fork.
  - by apply Hsame, mark_same.
  - by apply Hsame, same_layout.
  - by apply Hsame, same_cmdline.
  - by apply Hsame, same_cwd.
  - by apply Hsame, same_on_user.
  - by apply Hsame, same_on_user.
  - by apply Hsame, same_with_fds.
  - by apply Hsame, same_with_fds.
  - by apply Hsame, same_with_fds.
  - by apply Hsame, same_with_fds.
  - by apply Hsame, same_with_fds.
  - apply Hsame. by split.
  - by apply step_start.
  - by apply step_yield.
  - unfold sched_checkpoint. destruct (g_need_resched s); [by apply step_yield|]. apply Hsame, same_sched_refl.
  - apply step_sleep; [done|]. intros H. by apply H0.
  - destruct (step_wait s target_pid options Hw) as (r & -> & Hok); [intros H; by apply H0|]. by eexists.
  - by apply step_tick.
  - apply step_fault; [done|done|]. intros H. by apply H0.
  - apply step_exit; [done|done|]. intros H. by apply H0.
Qed.

(** The table with the idle task alone. *)
Lemma table_init (T : Z → task) t :
  t_state t = TASK_RUNNABLE → t_pid t = 1 → t_parent_pid t = -1 → can_resume (saved t) →
  (∀ i, slot i → T i = if decide (0 = i) then t else task_zero) → table_ok T None 2.
Proof.
  intros E1 E2 E3 E4 HT. assert (HT0 : T 0 = t) by (by rewrite HT by apply slot_0).
  assert (Hu : ∀ i, slot i → used (T i) → i = 0).
  { intros i Hi Hu. rewrite HT in Hu by done. destruct (decide (0 = i)); [done|]. by destruct Hu. }
  assert (Hst : ∀ i, slot i → t_state (T i) ≠ TASK_UNUSED → t_state (T i) = TASK_RUNNABLE).
  { intros i Hi Hs. assert (i = 0) as -> by (by apply Hu). congruence. }
  split; try done.
  - left. congruence.
  - intros i Hi Hr. rewrite Hst in Hr; congruence.
  - intros i Hi Hr _. assert (i = 0) as ->; [|by rewrite HT0]. apply Hu; [done|]. unfold used. intros E. rewrite E in Hr. set_solver.
  - intros i Hi H. assert (i = 0) as -> by (by apply Hu). rewrite HT0, E2. lia.
  - intros i j Hi Hj H1 H2 _. by rewrite (Hu i), (Hu j).
  - intros i Hi H. assert (i = 0) as -> by (by apply Hu). left. congruence.
  - intros i Hi Hr. rewrite Hst in Hr; congruence.
  - intros i Hi Hr. rewrite Hst in Hr; congruence.
Qed.

(** The state after [sched_init]. *)
Lemma init_ok s0 s : sched_init s0 = Some s → sched_wf s ∧ slice_ok s ∧ g_next_pid s = 2.
Proof.
  unfold sched_init, sched_spawn_kernel_task, sched_spawn_task_internal. set (z := Sched (replicate 12 task_zero) _ _ _ _ _ _ _ _ _ _ _ _ _ _ _ _).
  assert (Ez : sched_find_task_slot z = Some 0) by reflexivity. rewrite Ez. cbv zeta.
  assert (Hz : ∀ i, slot i → task_at z i = task_zero) by (intros i Hi; by apply (aget_replicate 12)).
  destruct (kmalloc _ _) as [stack h]. destruct (stack =? 0); [done|].
  change (g_current_task _) with (@None Z). cbv iota.
  match goal with |- context [set_task 0 ?t0 ?s1] => set (t := t0); set (x := s1) end.
  destruct (bool_decide _); [|done]. intros [= <-].
  assert (Ht : ∀ i, slot i → task_at (with_idle_task (Some 0) (set_task 0 t x)) i = if decide (0 = i) then t else task_zero).
  { intros i Hi. change (task_at (with_idle_task (Some 0) (set_task 0 t x))) with (task_at (set_task 0 t x)).
    rewrite task_at_set by (done || apply slot_0 || apply Hi). case_decide; [done|]. by apply Hz. }
  assert (Hl : alen (g_tasks (with_idle_task (Some 0) (set_task 0 t x))) = SCHED_MAX_TASKS).
  { exact (set_task_len x 0 t). }
  split; [|split; [by intros []|done]]. split; [|by split]. split; try done.
  by apply (table_init _ t).
Qed.

Lemma reachable_ok n s :
  reachable n s → n < 2147483646 → sched_wf s ∧ slice_ok s ∧ 0 ≤ n ∧ g_next_pid s ≤ 2 + n.
Proof.
  intros Hr. induction Hr as [s0 s Hi|n s op s' Hr IH Hop E]; intros Hn.
  - destruct (init_ok s0 s Hi) as (H1 & H2 & H3). rewrite H3. split_and!; try done; lia.
  - destruct IH as (Hw & Hs & H0 & Hnp); [lia|].
    destruct (step_all s op Hw Hs ltac:(lia) Hop) as (s2 & E2 & [A1 A2 A3 A4 A5]). rewrite E in E2. injection E2 as <-.
    split_and!; try done; [by apply A3|lia|lia].
Qed.

#[export] Instance op_allowed_dec op s : Decision (op_allowed op s).
Proof. unfold op_allowed. destruct op; apply _. Defined.

(** A sequence of steps, all allowed; [None] also when one is not. *)
Fixpoint sched_run (ops : list (sched_op σ)) s : option (sched σ) :=
  match ops with
  | [] => Some s
  | op :: ops => if bool_decide (op_allowed op s) then s' ← sched_step op s; sched_run ops s' else None
  end.

Lemma run_reachable ops n s s' : reachable n s → sched_run ops s = Some s' → reachable (n + alen ops) s'.
Proof.
  revert n s. induction ops as [|op ops IH]; intros n s Hr; cbn [sched_run].
  - intros [= <-]. by rewrite Z.add_0_r.
  - destruct (bool_decide (op_allowed op s)) eqn:Ea; [|done]. apply bool_decide_eq_true in Ea.
    destruct (sched_step op s) as [s1|] eqn:E; [|done]. simpl. intros Hs.
    replace (n + alen (op :: ops)) with (n + 1 + alen ops) by (unfold alen; simpl; lia).
    apply (IH _ s1); [|done]. by apply (reach_step n s op).
Qed.

(** C2: from [sched_init] on, over at most 2^31 - 3 steps (process ids are an
    [int]) of tasks, system calls and the timer, of which the idle task neither
    sleeps, waits, faults nor exits, and the scheduler is started once and before
    tasks fault or exit ([op_allowed]): the task
    table is consistent (process ids name one task each, exactly the current
    task is running, a zombie has a live parent to collect it, a waiting task
    has a child to wait for and none of those has exited), and the next such step
    does not panic: a task to run is always found, its saved stack is valid, and
    the trampoline of a new task finds its entry function. *)
Theorem sched_reachable_safe n s :
  reachable n s → n < 2147483646 →
  sched_wf s ∧ ∀ op, op_allowed op s → is_Some (sched_step op s).
Proof.
  intros Hr Hn. destruct (reachable_ok n s Hr Hn) as (Hw & Hs & H0 & Hnp). split; [done|]. intros op Hop.
  destruct (step_all s op Hw Hs ltac:(lia) Hop) as (s' & -> & _). by eexists.
Qed.

(** A run from [s] in which task [i] never gets the processor, with the number
    of its steps and of the timer ticks among them. *)
Inductive starves (i : Z) : sched σ → Z → Z → sched σ → Prop :=
  | starves_refl s : starves i s 0 0 s
  | starves_step s n k s' op s'' :
      starves i s n k s' → op_allowed op s' → sched_step op s' = Some s'' → g_current_task s'' ≠ Some i →
      starves i s (n + 1) (k + is_tick op) s''.

Lemma starves_potential i s m k s' n :
  starves i s m k s' → reachable n s → g_sched_started s = true → waiting s i → n + m < 2147483646 →
  reachable (n + m) s' ∧ 0 ≤ m ∧ g_sched_started s' = true ∧ waiting s' i ∧ potential s' i + k ≤ potential s i.
Proof.
  intros H Hr Hst Hw. induction H as [s|s m k s' op s'' H IH Hop E Hc]; intros Hb.
  - rewrite !Z.add_0_r. done.
  - assert (Hm : 0 ≤ m) by (clear -H; induction H; lia).
    destruct (IH Hr Hst Hw ltac:(lia)) as (Hm' & _ & Hst' & Hw' & Hpot).
    rewrite Z.add_assoc. split; [by apply (reach_step (n + m) s' op)|]. split; [lia|].
    destruct (reachable_ok (n + m) s' Hm' ltac:(lia)) as (Hwf & Hs & H0 & Hnp).
    destruct (step_all s' op Hwf Hs ltac:(lia) Hop) as (s2 & E2 & [A1 A2 A3 A4 A5]). rewrite E in E2. injection E2 as <-.
    split; [by apply A4|]. destruct (A5 Hst' Hs i Hw') as [|[H1 H2]]; [done|]. split; [done|]. lia.
Qed.

Lemma potential_bounds s i :
  sched_wf s → slice_ok s → g_sched_started s = true → 1 ≤ potential s i ≤ 60.
Proof.
  intros (_ & _ & Hst) Hs H. rewrite H in Hst. symmetry in Hst. apply bool_decide_eq_true in Hst.
  specialize (Hs Hst). unfold potential, distance.
  pose proof (Z.mod_pos_bound (i - g_rr_cursor s) SCHED_MAX_TASKS ltac:(done)).
  unfold SCHED_DEFAULT_TIMESLICE, SCHED_MAX_TASKS in *. lia.
Qed.

(** C3: no starvation: once the scheduler has been started, a task that can run
    (other than the idle task) gets the processor before 60 timer ticks have
    passed (12 slots of 5 ticks), whatever the other tasks do: yield, sleep,
    wait, spawn, fork, exit or use up their time slices. *)
Theorem sched_no_starvation n s i m k s' :
  reachable n s → g_sched_started s = true → waiting s i →
  starves i s m k s' → n + m < 2147483646 → k < 60.
Proof.
  intros Hr Hst Hw Hs Hb. destruct (starves_potential i s m k s' n Hs Hr Hst Hw Hb) as (Hr' & Hm & Hst' & Hw' & Hpot).
  destruct (reachable_ok (n + m) s' Hr' Hb) as (Hwf' & Hsl' & _).
  destruct (reachable_ok n s Hr ltac:(lia)) as (Hwf & Hsl & _).
  pose proof (potential_bounds s i Hwf Hsl Hst). pose proof (potential_bounds s' i Hwf' Hsl' Hst'). lia.
Qed.

(** C10: [sched_waitpid_ex] for a user task [c]: unknown option bits are not
    supported and a target of 0 or below other than -1 is invalid, and nothing
    changes; otherwise it returns the pid and the exit code of the first
    matching zombie child and frees its slot, NOENT without a matching child,
    and with NOHANG 0 at once; else the task waits, and another task runs. *)
Theorem sched_waitpid_spec s c target options :
  sched_wf s → g_current_task s = Some c → c ≠ 0 → is_user (task_at s c) = true →
  ∃ r s', sched_waitpid_ex target options s = Some (r, s') ∧
    if negb (Z.land options (not32 SYSCALL_WAITPID_FLAG_NOHANG) =? 0)
    then r = Some (Err KERR_NOTSUP) ∧ s' = s
    else if (target <=? 0) && negb (target =? SCHED_WAIT_ANY_CHILD)
    then r = Some (Err KERR_INVAL) ∧ s' = s
    else sched_wf s' ∧ wait_result s c target (negb (Z.land options SYSCALL_WAITPID_FLAG_NOHANG =? 0)) r s'.
Proof.
  intros Hw Hc H0 Hu. unfold sched_waitpid_ex, sched_current_task_is_user. rewrite Hc, Hu. cbn [negb].
  destruct (negb _); [by eexists _, _|]. destruct (_ && _); [by eexists _, _|].
  destruct (wait_round_cases s c target (negb (Z.land options SYSCALL_WAITPID_FLAG_NOHANG =? 0)) Hw Hc H0)
    as (r & s' & E & Hok & Hr). exists r, s'. split; [done|]. split; [apply Hok|done].
Qed.

(** The exit of a task with a parent, and the switch. *)
Lemma schedule_zombie x c s' :
  sched_pre x → g_sched_started x = true → g_current_task x = Some c → t_state (task_at x c) = TASK_ZOMBIE →
  sched_schedule_locked x = Some s' →
  sched_wf s' ∧ t_state (task_at s' c) = TASK_ZOMBIE ∧ same_identity (task_at x c) (task_at s' c).
Proof.
  intros Hp Hst Hc Hz E. destruct (schedule_leaves x s' c Hp Hst Hc) as (_ & L2 & Hid); [by rewrite Hz..|done|].
  destruct (schedule_wf x Hp Hst) as (s2 & E2 & Hw' & _). rewrite E in E2. injection E2 as <-.
  by rewrite L2, Hz.
Qed.

Lemma exit_zombie s c s' :
  sched_wf s → g_current_task s = Some c → c ≠ 0 → t_parent_pid (task_at s c) ≠ -1 → sched_task_exit s = Some s' →
  sched_wf s' ∧ t_state (task_at s' c) = TASK_ZOMBIE ∧ t_pid (task_at s' c) = t_pid (task_at s c) ∧
  t_parent_pid (task_at s' c) = t_parent_pid (task_at s c) ∧ t_user (task_at s' c) = t_user (task_at s c).
Proof.
  intros Hw Hc H0 Hpp. pose proof Hw as (Hp & Hr & Hst). unfold sched_task_exit. rewrite Hc.
  pose proof (exit_cases s c Hp Hc H0 (Hr c Hc)) as Hex. cbv zeta in Hex. revert Hex.
  generalize (exit_task c s). intros x (Hp' & E1 & E2 & _ & _ & _ & _ & Hex) E.
  unfold exited in Hex. rewrite decide_False in Hex by done. destruct Hex as (X1 & X2 & X3 & X4).
  assert (Hst' : g_sched_started x = true) by (rewrite E2, Hst, Hc; by apply bool_decide_true).
  destruct (schedule_zombie x c s' Hp' Hst' E1 X1 E) as (Hw' & Hz & (I1 & I2 & _ & I4 & _)).
  split; [done|]. rewrite I1, I2, I4. done.
Qed.

(** C5: the exit code a user task notes before it exits is what its parent's
    [waitpid] returns: right after the exit the task is a zombie with its pid
    and that code, its parent is alive and no longer waits for it; and a
    parent that runs while the zombie is still there gets exactly the pid and
    the code, and the slot is free afterwards. *)
Theorem exit_code_reaches_parent s c code s' :
  sched_wf s → g_current_task s = Some c → c ≠ 0 → is_user (task_at s c) = true → t_parent_pid (task_at s c) ≠ -1 →
  sched_task_exit (sched_note_current_exit_code code s) = Some s' →
  t_state (task_at s' c) = TASK_ZOMBIE ∧
  (∃ p, slot p ∧ used (task_at s' p) ∧ t_state (task_at s' p) ≠ TASK_ZOMBIE ∧
     t_pid (task_at s' p) = t_parent_pid (task_at s c) ∧
     (t_state (task_at s' p) = TASK_WAIT_CHILD → t_wait_target_pid (task_at s' p) ≠ SCHED_WAIT_ANY_CHILD ∧
                                                t_wait_target_pid (task_at s' p) ≠ t_pid (task_at s c))) ∧
  ∀ s2 p, sched_wf s2 → g_current_task s2 = Some p → p ≠ 0 → is_user (task_at s2 p) = true →
    t_pid (task_at s2 p) = t_parent_pid (task_at s c) → task_at s2 c = task_at s' c →
    ∃ s3, sched_waitpid (t_pid (task_at s c)) s2 = Some (Some (Ok (t_pid (task_at s c), code)), s3) ∧
      t_state (task_at s3 c) = TASK_UNUSED.
Proof.
  intros Hw Hc H0 Hu Hpp E. pose proof (current_slot s c (proj1 Hw) Hc) as Hcs.
  assert (Hn : same_sched s (sched_note_current_exit_code code s)) by (apply same_on_user, Hw).
  assert (Etu : t_user (task_at (sched_note_current_exit_code code s) c) = user_exit code (t_user (task_at s c))).
  { unfold sched_note_current_exit_code, on_current_user, current_user. rewrite Hc. cbn. rewrite Hu.
    rewrite (task_on s c _ c (proj1 Hw) Hcs Hcs). by rewrite decide_True. }
  destruct (ss_tasks _ _ Hn c Hcs) as (_ & N2 & N3 & _).
  destruct (exit_zombie (sched_note_current_exit_code code s) c s') as (Hw' & Hz & Hpid & Hppid & Hus).
  { by apply (same_sched_wf s). } { by rewrite (ss_cur _ _ Hn). } { done. } { by rewrite N3. } { done. }
  rewrite N2 in Hpid. rewrite N3 in Hppid. rewrite Etu in Hus. clear E Hn N2 N3 Etu.
  assert (Huc : used (task_at s' c)) by (unfold used; congruence).
  pose proof (sp_table s' (proj1 Hw')) as Htab. pose proof (to_pid _ _ _ Htab c Hcs Huc) as Hpos.
  split; [done|]. split.
  - destruct (to_parent _ _ _ Htab c Hcs Huc) as [|(p & Hps & _ & Hup & Hpz & Hpp')]; [congruence|].
    exists p. split; [done|]. split; [done|]. split; [done|]. split; [congruence|]. intros H1.
    destruct (to_wait _ _ _ Htab p Hps H1) as [_ Hnz].
    assert (Hno : ¬ (t_wait_target_pid (task_at s' p) = SCHED_WAIT_ANY_CHILD ∨
                     t_wait_target_pid (task_at s' p) = t_pid (task_at s c))); [|tauto].
    intros Ht. apply (Hnz c Hcs); [|done]. split; [done|]. split; [congruence|].
    destruct Ht; [by left|right; congruence].
  - intros s2 p Hw2 Hc2 Hp0 Hup Hpp2 Ec2.
    destruct (wait_round_cases s2 p (t_pid (task_at s c)) false Hw2 Hc2 Hp0) as (r & s3 & E3 & _ & Hres).
    assert (Hm : matches (task_at s2) (t_pid (task_at s2 p)) (t_pid (task_at s c)) c).
    { rewrite Hpp2. split; [by rewrite Ec2|]. rewrite Ec2, Hppid, Hpid. split; [done|by right]. }
    unfold sched_waitpid, sched_waitpid_ex, sched_current_task_is_user. rewrite Hc2, Hup. cbn [negb].
    change (Z.land 0 (not32 SYSCALL_WAITPID_FLAG_NOHANG) =? 0) with true.
    change (Z.land 0 SYSCALL_WAITPID_FLAG_NOHANG =? 0) with true. cbn [negb].
    rewrite (proj2 (Z.leb_gt _ 0)) by lia. cbn [andb]. rewrite E3.
    destruct Hres as [z s3 Hzs Hzp Hmz Hzz _ _ Ht|Hno|k Hnz|k s3 Hnz]; [|by destruct (Hno c Hcs)| |].
    + assert (z = c) as ->.
      { apply (to_unique _ _ _ (sp_table s2 (proj1 Hw2))); try done; [apply Hmz|by rewrite Ec2|].
        destruct Hmz as (_ & _ & [E|E]); [unfold SCHED_WAIT_ANY_CHILD in E; lia|]. rewrite E, Ec2. congruence. }
      exists s3. rewrite Ec2, Hpid. unfold exit_code_of. rewrite Hus. split; [done|].
      rewrite Ht by done. by rewrite decide_True.
    + exfalso. apply (Hnz c Hcs Hm). by rewrite Ec2.
    + exfalso. apply (Hnz c Hcs Hm). by rewrite Ec2.
Qed.

End run.

(** * Concrete runs

    A user task (slot 1, pid 2) with a window of two pages, over the pipes of
    KPipe.v; it forks (slot 2, pid 3) and waits, and the child runs. *)
#[local] Instance demo_ops : FileOps pipes := pipe_ops_inst id 4.
#[local] Instance demo_hooks : TaskHooks pipes :=
  {| display_gui_notify_task_exit _ s := s; usermode_notify_task_reaped _ s := s |}.

Definition demo_zero : sched pipes := sched_zero boot demo_pipes 0.
Definition demo_init : sched pipes := default demo_zero (sched_init demo_zero).

Definition demo_regs : user_mode_resume_ctx := ResumeCtx 1 2 3 4 5 6 7 demo_base (demo_base + 8192) 514.

Definition after (ops : list (sched_op pipes)) (s : sched pipes) : sched pipes := default s (sched_run ops s).
Definition some {A} (o : option A) : bool := match o with Some _ => true | None => false end.
Definition runs (ops : list (sched_op pipes)) (s : sched pipes) : bool := some (sched_run ops s).

Lemma some_default {A} (o : option A) d : some o = true → o = Some (default d o).
Proof. by destruct o. Qed.

Lemma after_reachable ops s s' n m :
  s' = after ops s → reachable n s → runs ops s = true → m = n + alen ops → reachable m s'.
Proof. intros -> Hr H%(some_default _ s) ->. exact (run_reachable ops n s _ Hr H). Qed.

Lemma after_step op s s' : s' = after [op] s → runs [op] s = true → op_allowed op s ∧ sched_step op s = Some s'.
Proof.
  intros ->. unfold runs, after. cbn [sched_run]. destruct (bool_decide (op_allowed op s)) eqn:Ea; [|done].
  apply bool_decide_eq_true in Ea. by destruct (sched_step op s).
Qed.

Definition to_user : list (sched_op pipes) :=
  [OpSpawnKernel (Some [65]) (Some (task_entry_at 1)) 0 0; OpStart;
   OpKernel (λ m, snd (paging_mark_user_region demo_base 8192 m)) id;
   OpLayout demo_base 8192 0 0; OpMark demo_base (demo_base + 8192)].
Definition demo_user : sched pipes := after to_user demo_init.
Definition demo_forked : sched pipes := after [OpFork demo_regs] demo_user.
Definition demo_child : sched pipes := after [OpWait 3 0] demo_forked.
Definition demo_noted : sched pipes := after [OpNoteExit 42] demo_child.
Definition demo_exited : sched pipes := after [OpExit] demo_noted.
Definition tick1 : sched pipes := after [OpTick] demo_forked.
Definition tick2 : sched pipes := after [OpTick] tick1.
Definition tick3 : sched pipes := after [OpTick] tick2.
Definition tick4 : sched pipes := after [OpTick] tick3.
Definition tick5 : sched pipes := after [OpTick] tick4.

Lemma demo_user_eq : demo_user = after to_user demo_init.
Proof. reflexivity. Qed.
Lemma demo_forked_eq : demo_forked = after [OpFork demo_regs] demo_user.
Proof. reflexivity. Qed.
Lemma demo_child_eq : demo_child = after [OpWait 3 0] demo_forked.
Proof. reflexivity. Qed.
Lemma demo_noted_eq : demo_noted = after [OpNoteExit 42] demo_child.
Proof. reflexivity. Qed.
Lemma demo_exited_eq : demo_exited = after [OpExit] demo_noted.
Proof. reflexivity. Qed.
Lemma ticks_eq :
  tick1 = after [OpTick] demo_forked ∧ tick2 = after [OpTick] tick1 ∧ tick3 = after [OpTick] tick2 ∧ tick4 = after [OpTick] tick3.
Proof. split_and!; reflexivity. Qed.

Lemma demo_init_reachable : reachable 0 demo_init.
Proof. apply (reach_init demo_zero), some_default. vm_compute. reflexivity. Qed.

#[local] Opaque demo_init demo_user demo_forked demo_child demo_noted demo_exited tick1 tick2 tick3 tick4 tick5 after runs.

Lemma demo_user_reachable : reachable 5 demo_user.
Proof. refine (after_reachable _ _ _ _ _ demo_user_eq demo_init_reachable _ _); [vm_compute; reflexivity|reflexivity]. Qed.
Lemma demo_forked_reachable : reachable 6 demo_forked.
Proof. refine (after_reachable _ _ _ _ _ demo_forked_eq demo_user_reachable _ _); [vm_compute; reflexivity|reflexivity]. Qed.
Lemma demo_child_reachable : reachable 7 demo_child.
Proof. refine (after_reachable _ _ _ _ _ demo_child_eq demo_forked_reachable _ _); [vm_compute; reflexivity|reflexivity]. Qed.
Lemma demo_noted_reachable : reachable 8 demo_noted.
Proof. refine (after_reachable _ _ _ _ _ demo_noted_eq demo_child_reachable _ _); [vm_compute; reflexivity|reflexivity]. Qed.
Lemma demo_exited_reachable : reachable 9 demo_exited.
Proof. refine (after_reachable _ _ _ _ _ demo_exited_eq demo_noted_reachable _ _); [vm_compute; reflexivity|reflexivity]. Qed.

Lemma demo_sched_wf n (s : sched pipes) : reachable n s → n < 100 → sched_wf s.
Proof. intros H Hn. apply (reachable_ok n s); [done|lia]. Qed.

(** Who runs where. *)
Lemma demo_current :
  g_current_task demo_user = Some 1 ∧ g_current_task demo_forked = Some 1 ∧ g_current_task demo_child = Some 2 ∧
  g_current_task demo_exited = Some 1 ∧ is_user (task_at demo_forked 1) = true ∧
  is_user (task_at demo_child 2) = true ∧ is_user (task_at demo_exited 1) = true.
Proof. vm_compute. split_and!; reflexivity. Qed.

Lemma demo_ticks :
  g_current_task tick1 = Some 1 ∧ g_current_task tick2 = Some 1 ∧ g_current_task tick3 = Some 1 ∧
  g_current_task tick4 = Some 1 ∧ g_current_task tick5 = Some 2 ∧
  runs [OpTick] demo_forked = true ∧ runs [OpTick] tick1 = true ∧ runs [OpTick] tick2 = true ∧ runs [OpTick] tick3 = true ∧
  g_sched_started demo_forked = true ∧ t_state (task_at demo_forked 2) = TASK_RUNNABLE.
Proof. vm_compute. split_and!; reflexivity. Qed.

Lemma demo_exit :
  runs [OpNoteExit 42] demo_child = true ∧ runs [OpExit] demo_noted = true ∧ t_pid (task_at demo_child 2) = 3 ∧
  t_parent_pid (task_at demo_child 2) = 2 ∧ t_pid (task_at demo_exited 1) = 2 ∧
  fst (sched_fork_current_user_task demo_regs demo_user) = Ok 3 ∧ g_next_pid demo_user <? 2147483648 = true.
Proof. vm_compute. split_and!; reflexivity. Qed.

Lemma sched_reachable_safe_witness :
  reachable 7 demo_child ∧ is_Some (sched_step OpExit demo_child).
Proof.
  split; [exact demo_child_reachable|].
  apply (sched_reachable_safe 7 demo_child demo_child_reachable); [lia|].
  destruct demo_current as (_ & _ & C3 & _).
  split; [|vm_compute; reflexivity]. intros H. rewrite C3 in H. discriminate H.
Defined.

(** The forked child waits for four ticks, and is chosen by the fifth. *)
Lemma sched_no_starvation_witness : starves 2 demo_forked 4 4 tick4 ∧ 4 < 60 ∧ g_current_task tick5 = Some 2.
Proof.
  destruct demo_ticks as (T1 & T2 & T3 & T4 & T5 & R1 & R2 & R3 & R4 & Hst & H2). destruct demo_current as (_ & C1 & _).
  assert (Hs : starves 2 demo_forked 4 4 tick4).
  { assert (Hstep : ∀ n s' s2, starves 2 demo_forked n n s' → runs [OpTick] s' = true → s2 = after [OpTick] s' →
      g_current_task s2 = Some 1 → starves 2 demo_forked (n + 1) (n + 1) s2).
    { intros n s' s2 H R -> Hc. destruct (after_step OpTick s' _ eq_refl R) as [Ha E].
      apply (starves_step 2 demo_forked n n s' OpTick _ H Ha E). congruence. }
    destruct ticks_eq as (Q1 & Q2 & Q3 & Q4).
    apply (Hstep 3 tick3 tick4); [|exact R4|exact Q4|exact T4]. apply (Hstep 2 tick2 tick3); [|exact R3|exact Q3|exact T3].
    apply (Hstep 1 tick1 tick2); [|exact R2|exact Q2|exact T2].
    apply (Hstep 0 demo_forked tick1); [constructor|exact R1|exact Q1|exact T1]. }
  split; [exact Hs|]. split; [|exact T5].
  apply (sched_no_starvation 6 demo_forked 2 4 4 tick4 demo_forked_reachable Hst); [|exact Hs|lia].
  split; [unfold slot, SCHED_MAX_TASKS; lia|]. split; [lia|]. split; [|exact H2]. rewrite C1. congruence.
Defined.

Lemma sched_waitpid_spec_witness :
  ∃ r s', sched_waitpid_ex 3 0 demo_forked = Some (r, s') ∧ sched_wf s' ∧ wait_result demo_forked 1 3 false r s'.
Proof.
  destruct demo_current as (_ & C2 & _ & _ & U1 & _).
  destruct (sched_waitpid_spec demo_forked 1 3 0 (demo_sched_wf 6 demo_forked demo_forked_reachable ltac:(lia)) C2 ltac:(lia) U1)
    as (r & s' & E & H). exists r, s'. split; [exact E|exact H].
Defined.

Lemma demo_exit_step : sched_task_exit (sched_note_current_exit_code 42 demo_child) = Some demo_exited.
Proof.
  destruct demo_exit as (R1 & R2 & _).
  pose proof (proj2 (after_step _ _ _ demo_noted_eq R1)) as E1. pose proof (proj2 (after_step _ _ _ demo_exited_eq R2)) as E2.
  rewrite step_note in E1. rewrite step_of_exit in E2. apply (inj Some) in E1. rewrite E1. exact E2.
Qed.

Lemma exit_code_reaches_parent_witness :
  t_state (task_at demo_exited 2) = TASK_ZOMBIE ∧
  ∃ s3, sched_waitpid 3 demo_exited = Some (Some (Ok (3, 42)), s3) ∧ t_state (task_at s3 2) = TASK_UNUSED.
Proof.
  destruct demo_current as (_ & _ & C3 & C4 & _ & U2 & U3). destruct demo_exit as (_ & _ & P1 & P2 & P3 & _).
  destruct (exit_code_reaches_parent demo_child 2 42 demo_exited
    (demo_sched_wf 7 demo_child demo_child_reachable ltac:(lia)) C3 ltac:(lia) U2) as (Hz & _ & Hwait);
    [rewrite P2; lia|exact demo_exit_step|]. split; [exact Hz|]. rewrite P1, P2 in Hwait.
  exact (Hwait demo_exited 1 (demo_sched_wf 9 demo_exited demo_exited_reachable ltac:(lia)) C4 ltac:(lia) U3 P3 eq_refl).
Defined.

