(* ===== verification/SchedMem.v ===== *)
(** kernel/uaccess.c and the windows of a task: what the kernel copies to and
    from a user task's memory, and two behaviours of tasks together with
    memory and descriptors that go wrong. *)

From S2P Require Import Prelude Bytes Pmm Kmalloc VfsNode KFile KPipe ProcFd Paging PagingMap PagingCow UserMem Sched SchedInv SchedRun.

(** * Ranges *)

(** [sched_range_ok] accepts exactly the ranges inside the region, as
    integers: neither the range nor the region may reach the end of the 32-bit
    address space, so no sum wraps around. *)
Theorem sched_range_ok_spec addr len base size :
  is_u32 addr → is_u32 len → is_u32 base → is_u32 size →
  sched_range_ok addr len base size = true ↔
    len = 0 ∨ (base ≤ addr ∧ addr + len ≤ base + size ∧ base + size < two32).
Proof.
  unfold sched_range_ok, add32, u32, two32. intros Ha Hl Hb Hs.
  destruct (Z.eqb_spec len 0) as [|Hl0]; [tauto|].
  destruct (Z.eqb_spec size 0) as [|Hs0]; [split; [done|lia]|].
  destruct (Z.ltb_spec addr base) as [|Hab]; [split; [done|lia]|].
  destruct (Z_lt_ge_dec (addr + len) 4294967296) as [H1|H1].
  - rewrite (Z.mod_small (addr + len)) by lia. rewrite (proj2 (Z.ltb_ge _ addr)) by lia.
    destruct (Z_lt_ge_dec (base + size) 4294967296) as [H2|H2].
    + rewrite Z.mod_small by lia. rewrite (proj2 (Z.ltb_ge _ base)) by lia. rewrite Z.leb_le. lia.
    + replace ((base + size) mod 4294967296) with (base + size - 4294967296)
        by (apply (Z.mod_unique _ _ 1); lia).
      rewrite (proj2 (Z.ltb_lt _ base)) by lia. split; [done|lia].
  - replace ((addr + len) mod 4294967296) with (addr + len - 4294967296) by (apply (Z.mod_unique _ _ 1); lia).
    rewrite (proj2 (Z.ltb_lt _ addr)) by lia. split; [done|lia].
Qed.

Lemma sched_range_ok_spec_witness :
  sched_range_ok 4096 4096 4096 8192 = true ∧ (4096 ≤ 4096 ∧ 4096 + 4096 ≤ 4096 + 8192 ∧ 4096 + 8192 < two32).
Proof.
  split; [reflexivity|].
  destruct (proj1 (sched_range_ok_spec 4096 4096 4096 8192 ltac:(unfold two32; lia) ltac:(unfold two32; lia)
    ltac:(unfold two32; lia) ltac:(unfold two32; lia)) eq_refl) as [H|H]; [lia|exact H].
Defined.

Section copies.
Context {σ : Type} `{!FileOps σ, !TaskHooks σ}.
Implicit Types (s : sched σ) (t : task).

(** Inside the image or the stack of [t]. *)
Definition in_task t (addr len : Z) : bool :=
  let u := t_user t in
  sched_range_ok addr len (u_image_base u) (u_image_size u) || sched_range_ok addr len (u_stack_base u) (u_stack_size u).

Lemma range_in_task s c addr len :
  g_current_task s = Some c → is_user (task_at s c) = true → len ≠ 0 →
  uaccess_user_range_ok addr len s = in_task (task_at s c) addr len.
Proof.
  intros Hc Hu Hl. unfold uaccess_user_range_ok, sched_current_user_range_ok, current_user.
  rewrite (proj2 (Z.eqb_neq len 0)) by done. rewrite Hc. simpl. by rewrite Hu.
Qed.

End copies.

(** * Concrete runs *)
#[local] Instance demo_ops : FileOps pipes := pipe_ops_inst id 4.
#[local] Instance demo_hooks : TaskHooks pipes :=
  {| display_gui_notify_task_exit _ s := s; usermode_notify_task_reaped _ s := s |}.

(** The user task of SchedRun.v over a memory without page tables. *)
#[local] Opaque demo_user demo_forked.

Definition flat_user : sched pipes := with_mem (paging_zero ∅ boot_heap) demo_user.

Lemma flat_window : window true (mem flat_user) id demo_base (demo_base + 2).
Proof.
  split; try done.
  - exact mem_wf_empty.
  - intros a Ha. by exists true, true.
Qed.


(** The byte at [va] in the memory of task [i]. *)
Definition task_byte (s : sched pipes) (i va : Z) : option Z :=
  '(pa, _, _) ← view (mem s) (t_address_space (task_at s i)) va; Some (load8 (phys (mem s)) pa).

(** Copies of the kernel ignore copy-on-write.  After a fork, a system call
    of the parent that stores a byte in its own memory stores it in the
    child's as well, since the page is shared and CR0.WP is clear; with CR0.WP
    set the store faults in the kernel, which panics. *)
Theorem kernel_copy_ignores_cow :
  task_byte demo_forked 1 demo_base = Some 0 ∧ task_byte demo_forked 2 demo_base = Some 0 ∧
  match uaccess_copy_to_user false demo_base (Some [65]) 1 demo_forked with
  | Some (Ok _, s') => task_byte s' 1 demo_base = Some 65 ∧ task_byte s' 2 demo_base = Some 65
  | _ => False
  end ∧
  uaccess_copy_to_user true demo_base (Some [65]) 1 demo_forked = None.
Proof. vm_compute. split_and!; reflexivity. Qed.

(** A user task makes a pipe, hands its two ends to a child, closes its own
    copies; the child, which is still in the kernel (its program could not be
    loaded), exits and is collected. *)
Definition with_pipe : sched pipes := with_files demo_pipes1 demo_user.
Definition leak_ops : list (sched_op pipes) :=
  [OpFdAlloc demo_read_end; OpFdAlloc demo_write_end;
   OpKernel id (λ fs, snd (kpipe_close demo_write_end (snd (kpipe_close demo_read_end fs))));
   OpSpawnChild (Some [66]) (Some (task_entry_at 2)) 0 0 true;
   OpFdClose 3; OpFdClose 4; OpWait 3 0; OpExit; OpWait 3 0].

(** The descriptors a child inherits are lost when it exits before it has
    entered user mode: no task is left that holds them, but the pipe still
    counts a reader and a writer, so it is never freed and its reader never
    sees the end of the file. *)
Theorem early_exit_leaks_descriptors :
  match sched_run leak_ops with_pipe with
  | None => False
  | Some s =>
      t_state <$> g_tasks s = [TASK_RUNNABLE; TASK_RUNNING] ++ replicate 10 TASK_UNUSED ∧
      Forall (λ t, table_files (t_fd_table t) = []) (g_tasks s) ∧
      ∃ st, pipe_map (files s) !! 1110016 = Some st ∧ reader_refs st = 1 ∧ writer_refs st = 1
  end.
Proof.
  assert (H : match sched_run leak_ops with_pipe with
              | None => False
              | Some s =>
                  t_state <$> g_tasks s = [TASK_RUNNABLE; TASK_RUNNING] ++ replicate 10 TASK_UNUSED ∧
                  forallb (λ t, bool_decide (table_files (t_fd_table t) = [])) (g_tasks s) = true ∧
                  (reader_refs <$> pipe_map (files s) !! 1110016) = Some 1 ∧
                  (writer_refs <$> pipe_map (files s) !! 1110016) = Some 1
              end) by (vm_compute; split_and!; reflexivity).
  destruct (sched_run leak_ops with_pipe) as [s|]; [|exact H]. destruct H as (H1 & H2 & H3 & H4).
  split; [exact H1|]. split.
  - apply Forall_forall. intros t Ht. rewrite forallb_forall in H2. apply (bool_decide_eq_true (table_files (t_fd_table t) = [])).
    apply H2. by apply list_elem_of_In.
  - destruct (pipe_map (files s) !! 1110016) as [st|]; [|discriminate H3]. exists st.
    split; [reflexivity|]. split; [by injection H3|by injection H4].
Qed.
