(* ===== verification/Elf.v ===== *)
(** kernel/elf32_loader.c: loading static 32-bit executables.

    The file is read into a block of the kernel heap and looked at there: every
    header is read from memory when the code reads it, also after segments have
    been stored.  A step that stores where the kernel may not is a panic
    ([None]), and so is a read of the file that never returns. *)

From S2P Require Import Prelude Bytes Pmm Kmalloc VfsNode KFile Vfs Paging PagingMap UserMem.

Definition ELF32_LOADER_MAX_FILE_BYTES : Z := 65536.
Definition ELFCLASS32 : Z := 1.
Definition ELFDATA2LSB : Z := 1.
Definition EV_CURRENT : Z := 1.
Definition ET_EXEC : Z := 2.
Definition EM_386 : Z := 3.
Definition PT_LOAD : Z := 1.

(** * Headers *)

Record elf32_ehdr := Ehdr {
  e_ident : list Z;
  e_type : Z;
  e_machine : Z;
  e_version : Z;
  e_entry : Z;
  e_phoff : Z;
  e_shoff : Z;
  e_flags : Z;
  e_ehsize : Z;
  e_phentsize : Z;
  e_phnum : Z;
  e_shentsize : Z;
  e_shnum : Z;
  e_shstrndx : Z
}.

Record elf32_phdr := Phdr {
  p_type : Z;
  p_offset : Z;
  p_vaddr : Z;
  p_paddr : Z;
  p_filesz : Z;
  p_memsz : Z;
  p_flags : Z;
  p_align : Z
}.

(** [sizeof]: the structures are packed. *)
Definition EHDR_SIZE : Z := 52.
Definition PHDR_SIZE : Z := 32.

Definition de16 (b : list Z) (off : Z) : Z := cget b off + 256 * cget b (off + 1).

Definition ehdr_of (b : list Z) : elf32_ehdr :=
  Ehdr (slice b 0 16) (de16 b 16) (de16 b 18) (de32 b 20) (de32 b 24) (de32 b 28) (de32 b 32) (de32 b 36)
    (de16 b 40) (de16 b 42) (de16 b 44) (de16 b 46) (de16 b 48) (de16 b 50).

Definition phdr_of (b : list Z) : elf32_phdr :=
  Phdr (de32 b 0) (de32 b 4) (de32 b 8) (de32 b 12) (de32 b 16) (de32 b 20) (de32 b 24) (de32 b 28).

(** The headers at an address of the kernel. *)
Definition ehdr_at (p : Z) (s : paging) : option elf32_ehdr :=
  b ← memcpy_from p (Z.to_nat EHDR_SIZE) s; Some (ehdr_of b).
Definition phdr_at (p i : Z) (s : paging) : option elf32_phdr :=
  b ← memcpy_from (add32 p (mul32 PHDR_SIZE i)) (Z.to_nat PHDR_SIZE) s; Some (phdr_of b).

(** * Arithmetic *)

Definition elf32_page_floor (addr : Z) : Z := Z.land addr (not32 (PAGE_SIZE_BYTES - 1)).

Definition elf32_page_ceil (addr : Z) : option Z :=
  let rounded := add32 addr (PAGE_SIZE_BYTES - 1) in
  if rounded <? addr then None else Some (Z.land rounded (not32 (PAGE_SIZE_BYTES - 1))).

Definition elf32_add_u32_ok (a b : Z) : option Z :=
  let sum := add32 a b in if sum <? a then None else Some sum.

Definition elf32_mul_u32_ok (a b : Z) : option Z :=
  let prod := a * b in if 4294967295 <? prod then None else Some prod.

Definition elf32_range_contains (outer_base outer_size inner_base inner_size : Z) : bool :=
  match elf32_add_u32_ok outer_base outer_size, elf32_add_u32_ok inner_base inner_size with
  | Some outer_end, Some inner_end => negb (inner_base <? outer_base) && negb (outer_end <? inner_end)
  | _, _ => false
  end.

(** * Checks of the headers *)

Record elf32_user_layout := Layout { entry_eip : Z; image_base : Z; image_size : Z }.
Record elf32_user_image := Image { im_entry_eip : Z; im_stack_top : Z; im_image_base : Z; im_image_size : Z }.

Definition ident (h : elf32_ehdr) (i : Z) : Z := cget (e_ident h) i.

(** The tests after the size of the file. *)
Definition check_ehdr (h : elf32_ehdr) : res unit :=
  if negb ((ident h 0 =? 127) && (ident h 1 =? 69) && (ident h 2 =? 76) && (ident h 3 =? 70)) then Err KERR_INVAL
  else if negb ((ident h 4 =? ELFCLASS32) && (ident h 5 =? ELFDATA2LSB)) then Err KERR_NOTSUP
  else if negb ((ident h 6 =? EV_CURRENT) && (e_version h =? EV_CURRENT)) then Err KERR_NOTSUP
  else if negb ((e_type h =? ET_EXEC) && (e_machine h =? EM_386)) then Err KERR_NOTSUP
  else if negb (e_ehsize h =? EHDR_SIZE) then Err KERR_INVAL
  else if (e_phnum h =? 0) || negb (e_phentsize h =? PHDR_SIZE) then Err KERR_INVAL
  else Ok tt.

Definition elf32_validate_ehdr (file_buf file_size : Z) (s : paging) : option (res unit) :=
  if file_size <? EHDR_SIZE then Some (Err KERR_INVAL)
  else h ← ehdr_at file_buf s; Some (check_ehdr h).

Definition loadable (ph : elf32_phdr) : bool := (p_type ph =? PT_LOAD) && negb (p_memsz ph =? 0).

(** The tests both loops make: the segment's end. *)
Definition check_segment (file_size : Z) (ph : elf32_phdr) : option Z :=
  if p_memsz ph <? p_filesz ph then None
  else
    match elf32_add_u32_ok (p_offset ph) (p_filesz ph) with
    | None => None
    | Some file_end =>
        if file_size <? file_end then None else elf32_add_u32_ok (p_vaddr ph) (p_memsz ph)
    end.

(** One round of the loop: [load_segments], [image_base], [image_end]. *)
Definition collect_segment (file_size : Z) (ph : elf32_phdr) (acc : Z * Z * Z) : res (Z * Z * Z) :=
  if negb (loadable ph) then Ok acc
  else
    match check_segment file_size ph with
    | None => Err KERR_INVAL
    | Some seg_end =>
        let lo := elf32_page_floor (p_vaddr ph) in
        match elf32_page_ceil seg_end with
        | None => Err KERR_INVAL
        | Some hi =>
            if KERNEL_EARLY_MAP_BYTES <? hi then Err KERR_INVAL
            else
              let '(n, b, e) := acc in
              Ok (add32 n 1, (if (n =? 0) || (lo <? b) then lo else b), (if (n =? 0) || (e <? hi) then hi else e))
        end
    end.

Fixpoint collect_loop (n : nat) (i phdrs file_size : Z) (acc : Z * Z * Z) (s : paging) : option (res (Z * Z * Z)) :=
  match n with
  | O => Some (Ok acc)
  | S n' =>
      ph ← phdr_at phdrs i s;
      match collect_segment file_size ph acc with
      | Err e => Some (Err e)
      | Ok acc => collect_loop n' (i + 1) phdrs file_size acc s
      end
  end.

Definition layout_of (h : elf32_ehdr) (acc : Z * Z * Z) : res elf32_user_layout :=
  let '(n, b, e) := acc in
  if n =? 0 then Err KERR_INVAL
  else if e <=? b then Err KERR_INVAL
  else if negb (elf32_range_contains b (sub32 e b) (e_entry h) 1) then Err KERR_INVAL
  else Ok (Layout (e_entry h) b (sub32 e b)).

Definition elf32_collect_user_layout (file_buf file_size : Z) (s : paging) : option (res elf32_user_layout) :=
  h ← ehdr_at file_buf s;
  match elf32_mul_u32_ok (e_phnum h) (e_phentsize h) with
  | None => Some (Err KERR_INVAL)
  | Some ph_table_bytes =>
      match elf32_add_u32_ok (e_phoff h) ph_table_bytes with
      | None => Some (Err KERR_INVAL)
      | Some _ =>
          if (file_size <? e_phoff h) || (sub32 file_size (e_phoff h) <? ph_table_bytes)
          then Some (Err KERR_INVAL)
          else
            r ← collect_loop (Z.to_nat (e_phnum h)) 0 (add32 file_buf (e_phoff h)) file_size (0, 0, 0) s;
            match r with
            | Err e => Some (Err e)
            | Ok acc => Some (layout_of h acc)
            end
      end
  end.

(** The two checks together: [elf32_inspect_user_static_path] between reading
    the file and [cleanup]. *)
Definition inspect_image (file_buf file_size : Z) (s : paging) : option (res elf32_user_layout) :=
  r ← elf32_validate_ehdr file_buf file_size s;
  match r with
  | Err e => Some (Err e)
  | Ok _ => elf32_collect_user_layout file_buf file_size s
  end.

(** * Loading into memory *)

Section load.
Context (wp : bool).

(** One segment. *)
Definition load_segment (file_buf file_size image_base image_end : Z) (ph : elf32_phdr) (s : paging)
    : option (res unit * paging) :=
  match check_segment file_size ph with
  | None => Some (Err KERR_INVAL, s)
  | Some seg_end =>
      if (p_vaddr ph <? image_base) || (image_end <? seg_end) then Some (Err KERR_INVAL, s)
      else
        s ← memcpy wp (p_vaddr ph) (add32 file_buf (p_offset ph)) (Z.to_nat (p_filesz ph)) s;
        s ← memset wp (add32 (p_vaddr ph) (p_filesz ph)) 0 (Z.to_nat (sub32 (p_memsz ph) (p_filesz ph))) s;
        Some (Ok tt, s)
  end.

(** The loop over the program headers; [n] rounds are enough when [n] is more
    than any [e_phnum]. *)
Fixpoint load_loop (n : nat) (i loads file_buf phdrs file_size image_base image_end : Z) (s : paging)
    : option (res Z * paging) :=
  match n with
  | O => None
  | S n' =>
      h ← ehdr_at file_buf s;
      if negb (i <? e_phnum h) then Some (Ok loads, s)
      else
        ph ← phdr_at phdrs i s;
        if negb (loadable ph) then load_loop n' (i + 1) loads file_buf phdrs file_size image_base image_end s
        else
          '(r, s) ← load_segment file_buf file_size image_base image_end ph s;
          match r with
          | Err e => Some (Err e, s)
          | Ok _ => load_loop n' (i + 1) (add32 loads 1) file_buf phdrs file_size image_base image_end s
          end
  end.

Definition load_fuel : nat := Z.to_nat 65536.

(** [elf32_load_user_static_path] from the check of the header to [cleanup]. *)
Definition load_image (file_buf file_size image_base image_size stack_base stack_size : Z) (s : paging)
    : option (res elf32_user_image * paging) :=
  let image_end := add32 image_base image_size in
  let stack_end := add32 stack_base stack_size in
  r ← elf32_validate_ehdr file_buf file_size s;
  match r with
  | Err e => Some (Err e, s)
  | Ok _ =>
      r ← elf32_collect_user_layout file_buf file_size s;
      match r with
      | Err e => Some (Err e, s)
      | Ok layout =>
          if negb (elf32_range_contains image_base image_size (Elf.image_base layout) (Elf.image_size layout))
          then Some (Err KERR_INVAL, s)
          else
            h ← ehdr_at file_buf s;
            let phdrs := add32 file_buf (e_phoff h) in
            s ← memset wp image_base 0 (Z.to_nat image_size) s;
            '(r, s) ← load_loop load_fuel 0 0 file_buf phdrs file_size image_base image_end s;
            match r with
            | Err e => Some (Err e, s)
            | Ok loads =>
                if loads =? 0 then Some (Err KERR_INVAL, s)
                else
                  s ← memset wp stack_base 0 (Z.to_nat stack_size) s;
                  match paging_mark_user_region image_base image_size s with
                  | (Err e, s) => Some (Err e, s)
                  | (Ok _, s) =>
                      match paging_mark_user_region stack_base stack_size s with
                      | (Err e, s) => Some (Err e, s)
                      | (Ok _, s) =>
                          h ← ehdr_at file_buf s;
                          Some (Ok (Image (e_entry h) stack_end (Elf.image_base layout) (Elf.image_size layout)), s)
                      end
                  end
            end
      end
  end.
End load.

(** * Files *)

(** What the loader works on: memory (with the kernel's heap) and the file
    systems with their open files. *)
Record kernel (σ : Type) := Kernel { k_mem : paging; k_files : σ }.
Arguments Kernel {σ}.
Arguments k_mem {σ} _.
Arguments k_files {σ} _.

Section files.
Context {σ : Type} `{!NodeOps σ, !FileOps σ}.
Context (wp : bool).
Implicit Types (k : kernel σ) (f : kfile).

(** The loop of [elf32_read_file]: the return code, [total] and the file. *)
Fixpoint read_rounds (n : nat) f (buf total : Z) k : option (res unit * Z * kfile * kernel σ) :=
  match n with
  | O => None
  | S n' =>
      let remaining := sub32 (ELF32_LOADER_MAX_FILE_BYTES + 1) total in
      if remaining =? 0 then Some (Err KERR_NOMEM, total, f, k)
      else
        '(r, f, fs) ← kfile_read f true remaining (k_files k);
        match r with
        | Err e => Some (Err e, total, f, Kernel (k_mem k) fs)
        | Ok bs =>
            m ← memcpy_to wp (add32 buf total) bs (k_mem k);
            let total := add32 total (alen bs) in
            if alen bs =? 0 then Some (Ok tt, total, f, Kernel m fs)
            else read_rounds n' f buf total (Kernel m fs)
        end
  end.

(** One round more than the bytes it can read. *)
Definition read_fuel : nat := Z.to_nat 65539.

Definition elf32_read_file (path : list Z) k : option (res (Z * Z) * kernel σ) :=
  match vfs_open path 0 (k_files k) with
  | (Err e, fs) => Some (Err e, Kernel (k_mem k) fs)
  | (Ok f, fs) =>
      let '(buf, h) := kmalloc (ELF32_LOADER_MAX_FILE_BYTES + 1) (heap (k_mem k)) in
      let k := Kernel (set_heap h (k_mem k)) fs in
      if buf =? 0 then
        let '(_, _, fs) := kfile_close f (k_files k) in Some (Err KERR_NOMEM, Kernel (k_mem k) fs)
      else
        '(r, total, f, k) ← read_rounds read_fuel f buf 0 k;
        let r := match r with
                 | Ok _ => if ELF32_LOADER_MAX_FILE_BYTES <? total then Err KERR_NOMEM else Ok tt
                 | Err e => Err e
                 end in
        let '(c, _, fs) := kfile_close f (k_files k) in
        let k := Kernel (k_mem k) fs in
        let r := match c, r with Err _, Ok _ => Err KERR_FAULT | _, _ => r end in
        match r with
        | Err e => Some (Err e, Kernel (kfree_at buf (k_mem k)) (k_files k))
        | Ok _ => Some (Ok (buf, total), k)
        end
  end.

Definition free_scratch (file_buf : Z) k : kernel σ :=
  if file_buf =? 0 then k else Kernel (kfree_at file_buf (k_mem k)) (k_files k).

Definition elf32_inspect_user_static_path (path : list Z) k : option (res elf32_user_layout * kernel σ) :=
  '(r, k) ← elf32_read_file path k;
  match r with
  | Err e => Some (Err e, k)
  | Ok (file_buf, file_size) =>
      r ← inspect_image file_buf file_size (k_mem k);
      Some (r, free_scratch file_buf k)
  end.

Definition elf32_load_user_static_path (path : list Z) (image_base image_size stack_base stack_size : Z) k
    : option (res elf32_user_image * kernel σ) :=
  if (image_size =? 0) || (stack_size =? 0) then Some (Err KERR_INVAL, k)
  else
    match elf32_add_u32_ok image_base image_size, elf32_add_u32_ok stack_base stack_size with
    | Some image_end, Some stack_end =>
        if (KERNEL_EARLY_MAP_BYTES <? image_end) || (KERNEL_EARLY_MAP_BYTES <? stack_end) then Some (Err KERR_INVAL, k)
        else if negb ((image_end <=? stack_base) || (stack_end <=? image_base)) then Some (Err KERR_INVAL, k)
        else
          '(r, k) ← elf32_read_file path k;
          match r with
          | Err e => Some (Err e, k)
          | Ok (file_buf, file_size) =>
              '(r, m) ← load_image wp file_buf file_size image_base image_size stack_base stack_size (k_mem k);
              Some (r, free_scratch file_buf (Kernel m (k_files k)))
          end
    | _, _ => Some (Err KERR_INVAL, k)
    end.

Definition elf32_load_user_static_path_auto (path : list Z) (stack_base stack_size : Z) k
    : option (res elf32_user_image * kernel σ) :=
  '(r, k) ← elf32_inspect_user_static_path path k;
  match r with
  | Err e => Some (Err e, k)
  | Ok layout => elf32_load_user_static_path path (image_base layout) (image_size layout) stack_base stack_size k
  end.
End files.
