(* ===== verification/ElfFormat.v ===== *)
(** The format of executables, told from the bytes of a file alone.

    What an ELF file for this machine is, with the offsets and numbers of the
    format's documents; nothing here mentions the loader.  ElfSpec.v proves that
    elf32_loader.c accepts exactly these files and that memory holds
    [program_byte]. *)

From S2P Require Import Prelude Elf.

(** The little-endian number of [n] bytes at [off]. *)
Fixpoint le_at (n : nat) (bs : list Z) (off : Z) : Z :=
  match n with O => 0 | S n' => cget bs off + 256 * le_at n' bs (off + 1) end.

(** A segment as a program header describes it. *)
Record segment := Segment { sg_type : Z; sg_offset : Z; sg_vaddr : Z; sg_filesz : Z; sg_memsz : Z }.

Definition segment_at (bs : list Z) (o : Z) : segment :=
  Segment (le_at 4 bs o) (le_at 4 bs (o + 4)) (le_at 4 bs (o + 8)) (le_at 4 bs (o + 16)) (le_at 4 bs (o + 20)).

(** The table at the offset in bytes 28 to 31, with as many entries of 32 bytes as
    bytes 44 and 45 say. *)
Definition program_headers (bs : list Z) : list segment :=
  (λ i, segment_at bs (le_at 4 bs 28 + 32 * i)) <$> seqZ 0 (le_at 2 bs 44).

(** PT_LOAD, and not empty. *)
Definition is_load (sg : segment) : Prop := sg_type sg = 1 ∧ sg_memsz sg ≠ 0.
#[export] Instance is_load_dec sg : Decision (is_load sg).
Proof. unfold is_load. apply _. Defined.

Definition segments (bs : list Z) : list segment := filter is_load (program_headers bs).

(** Inside the file, and below 32 MiB in memory. *)
Definition segment_fits (file_size : Z) (sg : segment) : Prop :=
  sg_filesz sg ≤ sg_memsz sg ∧ sg_offset sg + sg_filesz sg ≤ file_size ∧ sg_vaddr sg + sg_memsz sg ≤ 32 * 1024 * 1024.

(** The pages of a segment. *)
Definition first_page (sg : segment) : Z := sg_vaddr sg / 4096 * 4096.
Definition last_page_end (sg : segment) : Z := (sg_vaddr sg + sg_memsz sg + 4095) / 4096 * 4096.

(** [[b, e)] is the smallest run of pages around the segments. *)
Record smallest_window (l : list segment) (b e : Z) : Prop := {
  sw_around : ∀ sg, sg ∈ l → b ≤ first_page sg ∧ last_page_end sg ≤ e;
  sw_first : ∃ sg, sg ∈ l ∧ first_page sg = b;
  sw_last : ∃ sg, sg ∈ l ∧ last_page_end sg = e
}.

(** A valid static executable for the 386, and its layout. *)
Record valid_elf (bs : list Z) (L : elf32_user_layout) : Prop := {
  ve_size : 52 ≤ alen bs;
  (* 127 E L F, 32 bits, little endian, version 1 *)
  ve_ident : take 7 bs = [127; 69; 76; 70; 1; 1; 1];
  (* an executable, for the 386, version 1 *)
  ve_kind : le_at 2 bs 16 = 2 ∧ le_at 2 bs 18 = 3 ∧ le_at 4 bs 20 = 1;
  (* the sizes of the headers, and some program header *)
  ve_sizes : le_at 2 bs 40 = 52 ∧ le_at 2 bs 42 = 32 ∧ le_at 2 bs 44 ≠ 0;
  ve_table : le_at 4 bs 28 + 32 * le_at 2 bs 44 ≤ alen bs;
  ve_segments : Forall (segment_fits (alen bs)) (segments bs);
  ve_window : smallest_window (segments bs) (image_base L) (image_base L + image_size L);
  ve_entry : entry_eip L = le_at 4 bs 24 ∧ image_base L ≤ entry_eip L < image_base L + image_size L
}.

(** What a segment puts at an address, if anything: bytes of the file, then zeros. *)
Definition segment_byte (bs : list Z) (sg : segment) (a : Z) : option Z :=
  if decide (sg_vaddr sg ≤ a < sg_vaddr sg + sg_memsz sg)
  then Some (if decide (a < sg_vaddr sg + sg_filesz sg) then cget bs (sg_offset sg + (a - sg_vaddr sg)) else 0)
  else None.

(** The last segment that covers an address counts; elsewhere there are zeros. *)
Definition program_byte (bs : list Z) (a : Z) : Z :=
  default 0 (foldl (λ r sg, match segment_byte bs sg a with Some b => Some b | None => r end) None (segments bs)).
