(* ===== verification/ElfSpec.v ===== *)
(** kernel/elf32_loader.c: what is accepted, and what memory holds after an
    executable has been loaded.

    The reference is ElfFormat.v, written from the format's numbers: [valid_elf]
    says what a valid file is, [program_byte] what the last segment that covers an
    address puts there.  [elf_layout] and [image_byte] are steps on the way, in the
    loader's own terms on the bytes of the file.  The loader's functions, which look
    at a file in the memory they are writing, are proved to agree with them. *)

From S2P Require Import Prelude Bytes Pmm Kmalloc VfsNode KFile Vfs Paging PagingMap UserMem Elf ElfFormat.

(** * Arithmetic *)

Lemma add_u32_ok a b :
  is_u32 a → is_u32 b → elf32_add_u32_ok a b = if decide (a + b < two32) then Some (a + b) else None.
Proof.
  intros Ha Hb. unfold elf32_add_u32_ok, add32, u32, two32 in *. case_decide.
  - rewrite Z.mod_small by lia. by rewrite (proj2 (Z.ltb_ge _ _)) by lia.
  - replace ((a + b) mod 4294967296) with (a + b - 4294967296) by (apply (Z.mod_unique _ _ 1); lia).
    by rewrite (proj2 (Z.ltb_lt _ _)) by lia.
Qed.

Lemma page_floor_eq v : is_u32 v → elf32_page_floor v = v - v mod 4096.
Proof. apply align_down_4096. Qed.

Lemma page_ceil_eq v :
  is_u32 v → elf32_page_ceil v = if decide (v + 4095 < two32) then Some (v + 4095 - (v + 4095) mod 4096) else None.
Proof.
  intros Hv. unfold elf32_page_ceil. change (PAGE_SIZE_BYTES - 1) with 4095. case_decide.
  - rewrite add32_small by (unfold two32 in *; lia). rewrite (proj2 (Z.ltb_ge _ _)) by lia. f_equal.
    exact (page_floor_eq (v + 4095) ltac:(unfold two32 in *; lia)).
  - unfold add32, u32. replace ((v + 4095) mod two32) with (v + 4095 - two32)
      by (unfold two32 in *; apply (Z.mod_unique _ _ 1); lia).
    by rewrite (proj2 (Z.ltb_lt _ _)) by (unfold two32; lia).
Qed.

Lemma range_contains_spec ob os ib is_ :
  is_u32 ob → is_u32 os → is_u32 ib → is_u32 is_ →
  elf32_range_contains ob os ib is_ = true ↔
    ob + os < two32 ∧ ib + is_ < two32 ∧ ob ≤ ib ∧ ib + is_ ≤ ob + os.
Proof.
  intros. unfold elf32_range_contains. rewrite !add_u32_ok by done. repeat case_decide.
  - rewrite andb_true_iff, !negb_true_iff, !Z.ltb_ge. tauto.
  - split; [done|tauto].
  - split; [done|tauto].
Qed.

Lemma de16_range b off : bytes_ok b → 0 ≤ off → 0 ≤ de16 b off < 65536.
Proof. intros H Ho. unfold de16. pose proof (H off ltac:(lia)). pose proof (H (off + 1) ltac:(lia)). lia. Qed.

Lemma de32_range b off : bytes_ok b → 0 ≤ off → is_u32 (de32 b off).
Proof.
  intros H Ho. unfold de32, two32. pose proof (H off ltac:(lia)). pose proof (H (off + 1) ltac:(lia)).
  pose proof (H (off + 2) ltac:(lia)). pose proof (H (off + 3) ltac:(lia)). lia.
Qed.

Lemma bytes_ok_slice b off n : bytes_ok b → 0 ≤ off → bytes_ok (slice b off n).
Proof.
  intros Hb Ho k Hk. destruct (decide (k < n)).
  - rewrite cget_slice by lia. apply Hb. lia.
  - unfold cget, slice. rewrite lookup_take_ge by lia. simpl. lia.
Qed.

(** * A file in memory *)

(** The bytes [bs] at the address [buf]; byte [k] is at [mb k] in memory. *)
Record file_at (s : paging) (buf : Z) (mb : Z → Z) (bs : list Z) : Prop := {
  fa_bounds : 0 ≤ buf ∧ buf + alen bs ≤ two32;
  fa_byte : ∀ k, 0 ≤ k < alen bs → ∃ u w, cpu_translate s (buf + k) = Some (mb k, u, w);
  fa_load : ∀ k, 0 ≤ k < alen bs → load8 (phys s) (mb k) = cget bs k
}.

Section file.
Context (wp : bool) (buf : Z) (mb : Z → Z) (bs : list Z).
Implicit Types (s : paging) (m : Z → Z).

Lemma file_bytes_ok s : file_at s buf mb bs → bytes_ok bs.
Proof.
  intros Hf k Hk. destruct (decide (k < alen bs)) as [Hlt|Hge].
  - rewrite <- (fa_load _ _ _ _ Hf k) by lia. apply load8_byte.
  - unfold cget. rewrite lookup_ge_None_2 by (unfold alen in Hge; lia). simpl. lia.
Qed.

Lemma file_kload s k : file_at s buf mb bs → 0 ≤ k < alen bs → kload (buf + k) s = Some (cget bs k).
Proof.
  intros Hf Hk. destruct (fa_byte _ _ _ _ Hf k Hk) as (u & w & E). unfold kload. rewrite E. simpl.
  by rewrite (fa_load _ _ _ _ Hf).
Qed.

Lemma slice_cons off n : 0 ≤ off < alen bs → slice bs off (Z.of_nat (S n)) = cget bs off :: slice bs (off + 1) (Z.of_nat n).
Proof.
  intros Ho. unfold slice. rewrite !Nat2Z.id.
  assert (Hl : (Z.to_nat off < length bs)%nat) by (unfold alen in Ho; lia).
  destruct (lookup_lt_is_Some_2 bs _ Hl) as [x Hx].
  rewrite (drop_S bs x (Z.to_nat off) Hx). replace (Z.to_nat (off + 1)) with (S (Z.to_nat off)) by lia.
  simpl. unfold cget. by rewrite Hx.
Qed.

Lemma slice_0 off : slice bs off 0 = [].
Proof. done. Qed.

(** Reading a part of the file. *)
Lemma file_read s off n :
  file_at s buf mb bs → 0 ≤ off → 0 ≤ n → off + n ≤ alen bs →
  memcpy_from (add32 buf off) (Z.to_nat n) s = Some (slice bs off n).
Proof.
  intros Hf Ho Hn. rewrite <- (Z2Nat.id n Hn) at 1 3. generalize (Z.to_nat n). clear n Hn. intros n. revert off Ho.
  destruct (fa_bounds _ _ _ _ Hf) as [B1 B2].
  induction n as [|n IH]; intros off Ho Hle; [done|].
  cbn [memcpy_from]. rewrite (add32_small buf off) by lia. rewrite (file_kload s off Hf) by lia. simpl.
  rewrite slice_cons by lia. destruct n as [|n].
  - done.
  - specialize (IH (off + 1) ltac:(lia) ltac:(lia)). rewrite (add32_small buf) in IH by lia.
    rewrite add32_small by lia. replace (buf + off + 1) with (buf + (off + 1)) by lia. rewrite IH. done.
Qed.

(** Writes elsewhere keep the file. *)
Lemma file_wrote s s' m lo hi P :
  wrote wp m lo hi P s s' → file_at s buf mb bs →
  (∀ k a, 0 ≤ k < alen bs → lo ≤ a < hi → mb k ≠ m a) → file_at s' buf mb bs.
Proof.
  intros W [B Hb Hl] Hd. split; [done|..].
  - intros k Hk. rewrite (wr_trans _ _ _ _ _ _ _ W) by lia. by apply Hb.
  - intros k Hk. rewrite (wr_old _ _ _ _ _ _ _ W); [by apply Hl|]. intros a Ha _. by apply Hd.
Qed.

(** Copying a part of the file to a window. *)
Lemma file_memcpy_eq s m lo hi dst off n :
  window wp s m lo hi → file_at s buf mb bs →
  (∀ k a, 0 ≤ k < alen bs → lo ≤ a < hi → mb k ≠ m a) →
  lo ≤ dst → dst + Z.of_nat n ≤ hi → 0 ≤ off → off + Z.of_nat n ≤ alen bs →
  memcpy wp dst (buf + off) n s = memcpy_to wp dst (slice bs off (Z.of_nat n)) s.
Proof.
  revert s dst off. induction n as [|n IH]; intros s dst off Hw Hf Hd Hlo Hhi Ho Hle; [done|].
  destruct (wn_bounds _ _ _ _ _ Hw) as [B1 B2]. destruct (fa_bounds _ _ _ _ Hf) as [B3 B4].
  pose proof (file_bytes_ok s Hf off Ho) as Hby.
  cbn [memcpy]. rewrite (file_kload s off Hf) by lia. simpl. rewrite slice_cons by lia. cbn [memcpy_to].
  destruct (kstore_wrote wp m lo hi s dst (cget bs off) Hw ltac:(lia) Hby) as (s1 & -> & W). simpl.
  destruct n as [|n]; [done|]. rewrite !add32_small by lia.
  replace (buf + off + 1) with (buf + (off + 1)) by lia.
  apply IH; try lia; [apply (wr_window _ _ _ _ _ _ _ W)|by apply (file_wrote s s1 m lo hi _ W)|done].
Qed.

Lemma file_memcpy s m lo hi dst off n :
  window wp s m lo hi → file_at s buf mb bs →
  (∀ k a, 0 ≤ k < alen bs → lo ≤ a < hi → mb k ≠ m a) →
  lo ≤ dst → 0 ≤ n → dst + n ≤ hi → 0 ≤ off → off + n ≤ alen bs →
  ∃ s', memcpy wp dst (add32 buf off) (Z.to_nat n) s = Some s' ∧
    wrote wp m lo hi (λ a, if decide (dst ≤ a < dst + n) then Some (cget bs (off + (a - dst))) else None) s s'.
Proof.
  intros Hw Hf Hd Hlo Hn Hhi Ho Hle. destruct (fa_bounds _ _ _ _ Hf) as [B1 B2].
  destruct (decide (n = 0)) as [->|Hn0].
  { exists s. split; [done|]. apply (wrote_ext wp m lo hi s s (λ _, None)); [|by apply wrote_refl].
    intros a Ha. by rewrite decide_False by lia. }
  rewrite add32_small by lia.
  rewrite (file_memcpy_eq s m lo hi dst off) by (done || lia). rewrite Z2Nat.id by done.
  assert (Hl : alen (slice bs off n) = n) by (apply alen_slice; lia).
  destruct (memcpy_to_wrote wp m lo hi s dst (slice bs off n) Hw Hlo ltac:(lia)) as (s' & E & W).
  { apply Forall_forall. intros b Hb. apply list_elem_of_lookup in Hb as [i Hi].
    assert (Hc : cget (slice bs off n) (Z.of_nat i) = b) by (unfold cget; by rewrite Nat2Z.id, Hi).
    rewrite <- Hc. apply bytes_ok_slice; [by apply (file_bytes_ok s)|done|lia]. }
  exists s'. split; [done|]. eapply wrote_ext; [|exact W]. intros a Ha. unfold bytes_at. rewrite Hl.
  case_decide; [|done]. by rewrite cget_slice by lia.
Qed.
End file.

(** * What is accepted *)

Definition elf_header (bs : list Z) : elf32_ehdr := ehdr_of (slice bs 0 EHDR_SIZE).
Definition phdr_in (bs : list Z) (i : Z) : elf32_phdr :=
  phdr_of (slice bs (e_phoff (elf_header bs) + PHDR_SIZE * i) PHDR_SIZE).
Definition elf_phdrs (bs : list Z) : list elf32_phdr := phdr_in bs <$> seqZ 0 (e_phnum (elf_header bs)).

Definition seg_lo (ph : elf32_phdr) : Z := p_vaddr ph - p_vaddr ph mod 4096.
Definition seg_hi (ph : elf32_phdr) : Z :=
  let e := p_vaddr ph + p_memsz ph in e + 4095 - (e + 4095) mod 4096.

(** A segment lies inside the file and below 32 MiB. *)
Definition seg_fits (file_size : Z) (ph : elf32_phdr) : Prop :=
  p_filesz ph ≤ p_memsz ph ∧ p_offset ph + p_filesz ph ≤ file_size ∧
  p_vaddr ph + p_memsz ph ≤ KERNEL_EARLY_MAP_BYTES.

(** The window: the smallest run of whole pages around the segments to load. *)
Record hull (l : list elf32_phdr) (b e : Z) : Prop := {
  hull_lo : ∀ ph, ph ∈ l → loadable ph = true → b ≤ seg_lo ph;
  hull_hi : ∀ ph, ph ∈ l → loadable ph = true → seg_hi ph ≤ e;
  hull_lo_in : ∃ ph, ph ∈ l ∧ loadable ph = true ∧ seg_lo ph = b;
  hull_hi_in : ∃ ph, ph ∈ l ∧ loadable ph = true ∧ seg_hi ph = e
}.

(** The loader's tests, in mathematical terms. *)
Record accepted (bs : list Z) (L : elf32_user_layout) : Prop := {
  ac_header : EHDR_SIZE ≤ alen bs ∧ check_ehdr (elf_header bs) = Ok tt;
  ac_table : e_phoff (elf_header bs) + PHDR_SIZE * e_phnum (elf_header bs) ≤ alen bs;
  ac_segments : ∀ ph, ph ∈ elf_phdrs bs → loadable ph = true → seg_fits (alen bs) ph;
  ac_window : hull (elf_phdrs bs) (image_base L) (image_base L + image_size L);
  ac_entry : entry_eip L = e_entry (elf_header bs) ∧ image_base L ≤ entry_eip L < image_base L + image_size L
}.

Definition phdr_ok (ph : elf32_phdr) : Prop :=
  is_u32 (p_type ph) ∧ is_u32 (p_offset ph) ∧ is_u32 (p_vaddr ph) ∧ is_u32 (p_filesz ph) ∧ is_u32 (p_memsz ph).

Lemma phdr_of_ok b : bytes_ok b → phdr_ok (phdr_of b).
Proof. intros Hb. unfold phdr_ok, phdr_of. cbn [p_type p_offset p_vaddr p_filesz p_memsz]. split_and!; apply de32_range; (done || lia). Qed.

Lemma seg_bounds ph : phdr_ok ph →
  seg_lo ph ≤ p_vaddr ph ∧ seg_lo ph mod 4096 = 0 ∧ 0 ≤ seg_lo ph ∧
  p_vaddr ph + p_memsz ph ≤ seg_hi ph ∧ seg_hi ph mod 4096 = 0 ∧
  (p_vaddr ph + p_memsz ph ≤ KERNEL_EARLY_MAP_BYTES ↔ seg_hi ph ≤ KERNEL_EARLY_MAP_BYTES).
Proof.
  intros (_ & _ & Hv & _ & Hm). unfold seg_lo, seg_hi, KERNEL_EARLY_MAP_BYTES. set (e := p_vaddr ph + p_memsz ph).
  pose proof (Z.div_mod (p_vaddr ph) 4096 ltac:(lia)). pose proof (Z.mod_pos_bound (p_vaddr ph) 4096 ltac:(lia)).
  pose proof (Z.div_mod (e + 4095) 4096 ltac:(lia)). pose proof (Z.mod_pos_bound (e + 4095) 4096 ltac:(lia)).
  pose proof (Z.div_pos (p_vaddr ph) 4096 ltac:(lia) ltac:(lia)).
  split; [lia|]. split.
  { replace (p_vaddr ph - p_vaddr ph mod 4096) with (p_vaddr ph / 4096 * 4096) by lia. apply Z.mod_mul. lia. }
  split; [lia|]. split; [lia|]. split.
  { replace (e + 4095 - (e + 4095) mod 4096) with ((e + 4095) / 4096 * 4096) by lia. apply Z.mod_mul. lia. }
  lia.
Qed.

Lemma check_segment_eq fs ph :
  phdr_ok ph → is_u32 fs →
  check_segment fs ph =
    if decide (p_filesz ph ≤ p_memsz ph ∧ p_offset ph + p_filesz ph ≤ fs ∧ p_vaddr ph + p_memsz ph < two32)
    then Some (p_vaddr ph + p_memsz ph) else None.
Proof.
  intros (_ & Ho & Hv & Hf & Hm) Hfs. unfold check_segment. rewrite !add_u32_ok by done.
  destruct (Z.ltb_spec (p_memsz ph) (p_filesz ph)); [by rewrite decide_False by lia|].
  destruct (decide (p_offset ph + p_filesz ph < two32)); [|by rewrite decide_False by lia].
  destruct (Z.ltb_spec fs (p_offset ph + p_filesz ph)); [by rewrite decide_False by lia|].
  repeat case_decide; (done || lia).
Qed.

(** The window grows by a segment. *)
Definition grow (acc : Z * Z * Z) (ph : elf32_phdr) : Z * Z * Z :=
  let '(n, b, e) := acc in
  (n + 1, (if (n =? 0) || (seg_lo ph <? b) then seg_lo ph else b), (if (n =? 0) || (e <? seg_hi ph) then seg_hi ph else e)).

#[global] Instance seg_fits_dec fs ph : Decision (seg_fits fs ph).
Proof. apply _. Defined.

Lemma collect_segment_eq fs ph n b e :
  phdr_ok ph → is_u32 fs → 0 ≤ n < 65536 →
  collect_segment fs ph (n, b, e) =
    if negb (loadable ph) then Ok (n, b, e)
    else if decide (seg_fits fs ph) then Ok (grow (n, b, e) ph) else Err KERR_INVAL.
Proof.
  intros Hp Hfs Hn. unfold collect_segment. destruct (loadable ph); cbn [negb]; [|done].
  rewrite check_segment_eq by done. pose proof (seg_bounds ph Hp) as (_ & _ & _ & B1 & _ & B2).
  pose proof Hp as (_ & Ho & Hv & Hf & Hm). unfold seg_fits.
  assert (HK : KERNEL_EARLY_MAP_BYTES < two32 - 4096) by (unfold KERNEL_EARLY_MAP_BYTES, two32; lia).
  destruct (decide (p_filesz ph ≤ p_memsz ph ∧ p_offset ph + p_filesz ph ≤ fs ∧ p_vaddr ph + p_memsz ph < two32)) as [Hd|Hd].
  2: { rewrite decide_False; [done|]. lia. }
  rewrite page_floor_eq by done. rewrite page_ceil_eq by lia. fold (seg_lo ph). fold (seg_hi ph).
  destruct (decide (p_vaddr ph + p_memsz ph + 4095 < two32)) as [H1|H1].
  2: { rewrite decide_False by lia. done. }
  destruct (Z.ltb_spec KERNEL_EARLY_MAP_BYTES (seg_hi ph)).
  - rewrite decide_False by lia. done.
  - rewrite decide_True by lia. rewrite add32_small by (unfold two32; lia). done.
Qed.

(** The whole loop. *)
Definition to_load (l : list elf32_phdr) : list elf32_phdr := filter (λ ph, loadable ph = true) l.

Definition collect_list (fs : Z) (l : list elf32_phdr) (acc : Z * Z * Z) : res (Z * Z * Z) :=
  if decide (Forall (seg_fits fs) (to_load l)) then Ok (foldl grow acc (to_load l)) else Err KERR_INVAL.

Lemma to_load_cons ph l : to_load (ph :: l) = if loadable ph then ph :: to_load l else to_load l.
Proof. unfold to_load. rewrite filter_cons. by destruct (loadable ph). Qed.

Lemma collect_list_cons fs ph l n b e :
  phdr_ok ph → is_u32 fs → 0 ≤ n < 65536 →
  collect_list fs (ph :: l) (n, b, e) =
    match collect_segment fs ph (n, b, e) with Ok acc => collect_list fs l acc | Err c => Err c end.
Proof.
  intros Hp Hfs Hn. rewrite collect_segment_eq by done. unfold collect_list. rewrite to_load_cons.
  destruct (loadable ph); cbn [negb]; [|done].
  destruct (decide (seg_fits fs ph)) as [Hs|Hs].
  - destruct (decide (Forall (seg_fits fs) (to_load l))) as [Ha|Ha].
    + by rewrite decide_True by (by constructor).
    + rewrite decide_False; [done|]. by intros [_ ?]%Forall_cons.
  - rewrite decide_False; [done|]. by intros [? _]%Forall_cons.
Qed.

Lemma phdr_in_ok bs i : bytes_ok bs → 0 ≤ e_phoff (elf_header bs) → 0 ≤ i → phdr_ok (phdr_in bs i).
Proof. intros Hb Ho Hi. apply phdr_of_ok, bytes_ok_slice; [done|]. unfold PHDR_SIZE. lia. Qed.

(** What the header of a file can hold. *)
Lemma elf_header_ok bs :
  bytes_ok bs →
  0 ≤ e_phnum (elf_header bs) < 65536 ∧ is_u32 (e_phoff (elf_header bs)) ∧ is_u32 (e_entry (elf_header bs)).
Proof.
  intros Hb. assert (bytes_ok (slice bs 0 EHDR_SIZE)) by (by apply bytes_ok_slice).
  unfold elf_header, ehdr_of. cbn [e_phnum e_phoff e_entry]. split_and!; try apply de32_range; try apply de16_range; done || lia.
Qed.

Section headers.
Context (buf : Z) (mb : Z → Z) (bs : list Z) (s : paging).
Context (Hf : file_at s buf mb bs) (Hlen : alen bs < two32).

Lemma bs_ok : bytes_ok bs.
Proof using Hf. exact (file_bytes_ok buf mb bs s Hf). Qed.

Lemma ehdr_at_eq : EHDR_SIZE ≤ alen bs → ehdr_at buf s = Some (elf_header bs).
Proof using Hf.
  intros Hl. unfold ehdr_at. pose proof (file_read buf mb bs s 0 EHDR_SIZE Hf ltac:(lia) ltac:(done) ltac:(lia)) as E.
  destruct (fa_bounds _ _ _ _ Hf) as [B1 B2]. unfold EHDR_SIZE in Hl.
  rewrite add32_small, Z.add_0_r in E by lia. by rewrite E.
Qed.

(** The program header table is inside the file. *)
Definition table_in : Prop := e_phoff (elf_header bs) + PHDR_SIZE * e_phnum (elf_header bs) ≤ alen bs.

Lemma phdr_at_eq i :
  table_in → 0 ≤ i < e_phnum (elf_header bs) →
  phdr_at (add32 buf (e_phoff (elf_header bs))) i s = Some (phdr_in bs i).
Proof using Hf Hlen.
  unfold table_in. intros Ht Hi. destruct (elf_header_ok bs bs_ok) as (Hn & Ho & _).
  destruct (fa_bounds _ _ _ _ Hf) as [B1 B2]. unfold PHDR_SIZE in Ht.
  set (po := e_phoff (elf_header bs)) in *. set (pn := e_phnum (elf_header bs)) in *.
  unfold phdr_at. assert (Em : mul32 PHDR_SIZE i = 32 * i).
  { unfold mul32. change PHDR_SIZE with 32. apply u32_small. unfold two32 in *. lia. }
  assert (Ea : add32 (add32 buf po) (mul32 PHDR_SIZE i) = add32 buf (po + 32 * i)).
  { rewrite Em. rewrite (add32_small buf po) by lia. rewrite !add32_small by lia. lia. }
  rewrite Ea. rewrite (file_read buf mb bs s (po + 32 * i) PHDR_SIZE Hf) by (unfold PHDR_SIZE; lia). done.
Qed.

Lemma collect_loop_eq n i acc :
  table_in → 0 ≤ i → i + Z.of_nat n ≤ e_phnum (elf_header bs) → 0 ≤ acc.1.1 ≤ i →
  collect_loop n i (add32 buf (e_phoff (elf_header bs))) (alen bs) acc s =
    Some (collect_list (alen bs) (phdr_in bs <$> seqZ i (Z.of_nat n)) acc).
Proof using Hf Hlen.
  intros Ht. destruct (elf_header_ok bs bs_ok) as (Hn & Ho & _). revert i acc.
  induction n as [|n IH]; intros i [[k b] e] Hi Hle Hk; [done|].
  cbn [collect_loop]. rewrite phdr_at_eq by (done || lia). simpl in Hk. cbn [mbind option_bind].
  rewrite (seqZ_cons i) by lia. replace (Z.pred (Z.of_nat (S n))) with (Z.of_nat n) by lia. rewrite fmap_cons.
  pose proof (alen_nonneg bs).
  assert (Hp : phdr_ok (phdr_in bs i)) by (apply phdr_in_ok; [apply bs_ok|lia..]).
  rewrite collect_list_cons by (done || lia). rewrite collect_segment_eq by (done || lia).
  destruct (loadable (phdr_in bs i)); cbn [negb].
  - case_decide; [|done]. rewrite IH by (cbn [grow fst]; lia). by rewrite <- Z.add_1_r.
  - rewrite IH by (cbn [fst]; lia). by rewrite <- Z.add_1_r.
Qed.
End headers.

(** What [elf32_validate_ehdr] and [elf32_collect_user_layout] accept. *)
Definition elf_layout (bs : list Z) : res elf32_user_layout :=
  if alen bs <? EHDR_SIZE then Err KERR_INVAL
  else
    match check_ehdr (elf_header bs) with
    | Err e => Err e
    | Ok _ =>
        if alen bs <? e_phoff (elf_header bs) + PHDR_SIZE * e_phnum (elf_header bs) then Err KERR_INVAL
        else
          match collect_list (alen bs) (elf_phdrs bs) (0, 0, 0) with
          | Err e => Err e
          | Ok acc => layout_of (elf_header bs) acc
          end
    end.

Lemma check_ehdr_phent h : check_ehdr h = Ok tt → e_phentsize h = PHDR_SIZE ∧ e_phnum h ≠ 0.
Proof.
  unfold check_ehdr. repeat case_match; try done. intros _.
  match goal with H : orb _ _ = false |- _ => apply orb_false_iff in H as [Hz1 Hz2] end.
  apply Z.eqb_neq in Hz1. apply negb_false_iff, Z.eqb_eq in Hz2. done.
Qed.

Lemma validate_eq buf mb bs s :
  file_at s buf mb bs →
  elf32_validate_ehdr buf (alen bs) s =
    Some (if alen bs <? EHDR_SIZE then Err KERR_INVAL else check_ehdr (elf_header bs)).
Proof.
  intros Hf. unfold elf32_validate_ehdr. destruct (Z.ltb_spec (alen bs) EHDR_SIZE); [done|].
  by rewrite (ehdr_at_eq buf mb bs s Hf) by done.
Qed.

Lemma collect_eq buf mb bs s :
  file_at s buf mb bs → alen bs < two32 → EHDR_SIZE ≤ alen bs → check_ehdr (elf_header bs) = Ok tt →
  elf32_collect_user_layout buf (alen bs) s = Some (elf_layout bs).
Proof.
  intros Hf Hlen Hl Hc. unfold elf32_collect_user_layout, elf_layout.
  rewrite (ehdr_at_eq buf mb bs s Hf) by done. cbn [mbind option_bind].
  rewrite Hc, (proj2 (Z.ltb_ge (alen bs) EHDR_SIZE) Hl).
  destruct (check_ehdr_phent _ Hc) as [-> _]. destruct (elf_header_ok bs (file_bytes_ok _ _ _ _ Hf)) as (Hn & Ho & _).
  unfold elf32_mul_u32_ok. set (pn := e_phnum (elf_header bs)) in *. set (po := e_phoff (elf_header bs)) in *.
  assert (Hp : 0 ≤ pn * PHDR_SIZE < two32) by (unfold PHDR_SIZE, two32 in *; lia).
  rewrite (proj2 (Z.ltb_ge _ _)) by (unfold two32 in Hp; lia). rewrite add_u32_ok by done.
  rewrite (Z.mul_comm PHDR_SIZE).
  destruct (decide (po + pn * PHDR_SIZE < two32)).
  2: { by rewrite (proj2 (Z.ltb_lt _ _)) by lia. }
  destruct (Z.ltb_spec (alen bs) po); cbn [orb].
  { by rewrite (proj2 (Z.ltb_lt _ _)) by lia. }
  rewrite sub32_small by lia.
  destruct (Z.ltb_spec (alen bs - po) (pn * PHDR_SIZE)).
  { by rewrite (proj2 (Z.ltb_lt _ _)) by lia. }
  rewrite (proj2 (Z.ltb_ge _ _)) by lia. unfold po at 1.
  rewrite (collect_loop_eq buf mb bs s Hf Hlen); [|unfold table_in, PHDR_SIZE in *; lia|done|lia|simpl; lia].
  cbn [mbind option_bind]. rewrite Z2Nat.id by lia. unfold elf_phdrs. fold pn.
  by destruct (collect_list _ _ _).
Qed.

(** The window that [grow] accumulates is the hull. *)
Lemma grow_spec l n b e :
  foldl grow (0, 0, 0) l = (n, b, e) →
  n = alen l ∧
  (l ≠ [] → (∀ ph, ph ∈ l → b ≤ seg_lo ph ∧ seg_hi ph ≤ e) ∧
            (∃ ph, ph ∈ l ∧ seg_lo ph = b) ∧ (∃ ph, ph ∈ l ∧ seg_hi ph = e)).
Proof.
  revert n b e. induction l as [|ph l IH] using rev_ind; intros n b e; [by intros [= <- <- <-]|].
  rewrite foldl_app. cbn [foldl]. destruct (foldl grow (0, 0, 0) l) as [[n0 b0] e0] eqn:E.
  destruct (IH n0 b0 e0 eq_refl) as [-> IHl]. unfold grow. intros [= <- <- <-].
  split; [unfold alen; rewrite length_app; simpl; lia|]. intros _.
  destruct (decide (l = [])) as [->|Hl].
  - rewrite Z.eqb_refl. cbn [orb]. split_and!.
    + intros p Hp%list_elem_of_singleton. subst. lia.
    + exists ph. set_solver.
    + exists ph. set_solver.
  - destruct (IHl Hl) as (Hall & (p1 & Hp1 & E1) & (p2 & Hp2 & E2)).
    assert (Hn : (alen l =? 0) = false) by (apply Z.eqb_neq; destruct l; [done|unfold alen; simpl; lia]).
    rewrite Hn. cbn [orb]. split_and!.
    + intros p [Hp|Hp%list_elem_of_singleton]%elem_of_app.
      * destruct (Hall p Hp). destruct (Z.ltb_spec (seg_lo ph) b0), (Z.ltb_spec e0 (seg_hi ph)); lia.
      * subst p. destruct (Z.ltb_spec (seg_lo ph) b0), (Z.ltb_spec e0 (seg_hi ph)); lia.
    + destruct (Z.ltb_spec (seg_lo ph) b0); [exists ph|exists p1]; set_solver.
    + destruct (Z.ltb_spec e0 (seg_hi ph)); [exists ph|exists p2]; set_solver.
Qed.

Lemma elem_of_to_load ph l : ph ∈ to_load l ↔ ph ∈ l ∧ loadable ph = true.
Proof. unfold to_load. rewrite list_elem_of_filter. tauto. Qed.

Lemma grow_hull l n b e :
  foldl grow (0, 0, 0) (to_load l) = (n, b, e) → n ≠ 0 ↔ hull l b e.
Proof.
  intros E. destruct (grow_spec _ _ _ _ E) as [-> Hg].
  assert (Hz : alen (to_load l) ≠ 0 ↔ to_load l ≠ []).
  { unfold alen. destruct (to_load l); simpl; [done|]. split; [done|lia]. }
  rewrite Hz. split.
  - intros Hne. destruct (Hg Hne) as (Hall & (p1 & Hp1 & E1) & (p2 & Hp2 & E2)).
    apply elem_of_to_load in Hp1 as [? ?]. apply elem_of_to_load in Hp2 as [? ?].
    split; [| |by exists p1|by exists p2]; intros p Hp Hl;
      destruct (Hall p); try lia; by apply elem_of_to_load.
  - intros Hh Hnil. destruct (hull_lo_in _ _ _ Hh) as (p & Hp & Hl & _).
    assert (Hin : p ∈ to_load l) by (by apply elem_of_to_load). rewrite Hnil in Hin. by apply not_elem_of_nil in Hin.
Qed.

Lemma hull_inj l b e b' e' : hull l b e → hull l b' e' → b = b' ∧ e = e'.
Proof.
  intros H H'. destruct (hull_lo_in _ _ _ H) as (p1 & ? & ? & <-), (hull_hi_in _ _ _ H) as (p2 & ? & ? & <-).
  destruct (hull_lo_in _ _ _ H') as (p3 & ? & ? & <-), (hull_hi_in _ _ _ H') as (p4 & ? & ? & <-).
  pose proof (hull_lo _ _ _ H p3). pose proof (hull_lo _ _ _ H' p1).
  pose proof (hull_hi _ _ _ H p4). pose proof (hull_hi _ _ _ H' p2).
  split; apply Z.le_antisymm; auto.
Qed.

Lemma phdrs_ok bs ph : bytes_ok bs → ph ∈ elf_phdrs bs → phdr_ok ph.
Proof.
  intros Hb Hp. apply list_elem_of_fmap in Hp as (i & -> & Hi). apply elem_of_seqZ in Hi.
  destruct (elf_header_ok bs Hb) as (_ & Ho & _). apply phdr_in_ok; (done || lia).
Qed.

Lemma hull_bounds bs b e :
  bytes_ok bs → hull (elf_phdrs bs) b e →
  (∀ ph, ph ∈ elf_phdrs bs → loadable ph = true → seg_fits (alen bs) ph) →
  0 ≤ b ≤ e ∧ e ≤ KERNEL_EARLY_MAP_BYTES ∧ b mod 4096 = 0 ∧ e mod 4096 = 0.
Proof.
  intros Hb Hh Hfit. destruct (hull_lo_in _ _ _ Hh) as (p1 & H1 & L1 & E1), (hull_hi_in _ _ _ Hh) as (p2 & H2 & L2 & E2).
  pose proof (hull_lo _ _ _ Hh p2 H2 L2) as Hle. destruct (Hfit p2 H2 L2) as (_ & _ & F).
  destruct (phdrs_ok bs p2 Hb H2) as (_ & _ & ? & _ & ?).
  destruct (seg_bounds p1 (phdrs_ok bs p1 Hb H1)) as (_ & A2 & A3 & _).
  destruct (seg_bounds p2 (phdrs_ok bs p2 Hb H2)) as (B1 & _ & _ & B4 & B5 & B6). apply B6 in F. subst b e. lia.
Qed.

(** [layout_of] on the hull. *)
Lemma layout_of_hull h l n b e L :
  foldl grow (0, 0, 0) (to_load l) = (n, b, e) → is_u32 (e_entry h) →
  (hull l b e → 0 ≤ b ≤ e ∧ e ≤ KERNEL_EARLY_MAP_BYTES) →
  layout_of h (n, b, e) = Ok L ↔
    hull l b e ∧ b ≤ e_entry h < e ∧ L = Layout (e_entry h) b (e - b).
Proof.
  intros E Hen Hbd. pose proof (grow_hull l n b e E) as Hh. unfold layout_of.
  destruct (Z.eqb_spec n 0) as [->|Hn]; [split; [done|tauto]|].
  apply Hh in Hn. destruct (Hbd Hn) as [Hb1 Hb2]. assert (HK : KERNEL_EARLY_MAP_BYTES < two32) by done.
  destruct (Z.leb_spec e b) as [Hle|Hlt]; [split; [done|lia]|].
  rewrite sub32_small by lia.
  destruct (elf32_range_contains b (e - b) (e_entry h) 1) eqn:Er; cbn [negb].
  - apply range_contains_spec in Er; [|unfold two32 in *; lia..]. split; [|by intros (_ & _ & ->)].
    intros [= <-]. split_and!; [done|lia..|done].
  - split; [done|]. intros (_ & Hr & _). rewrite <- not_true_iff_false in Er. exfalso. apply Er.
    apply range_contains_spec; unfold two32 in *; lia.
Qed.

Lemma elf_layout_accepted bs L :
  bytes_ok bs → elf_layout bs = Ok L ↔ accepted bs L.
Proof.
  intros Hb. destruct (elf_header_ok bs Hb) as (_ & _ & Hen). unfold elf_layout, collect_list.
  destruct (foldl grow (0, 0, 0) (to_load (elf_phdrs bs))) as [[n b] e] eqn:E.
  assert (Hseg : Forall (seg_fits (alen bs)) (to_load (elf_phdrs bs)) ↔
      ∀ ph, ph ∈ elf_phdrs bs → loadable ph = true → seg_fits (alen bs) ph).
  { rewrite Forall_forall. split; intros H ph; [intros; apply H; by apply elem_of_to_load|].
    intros [? ?]%elem_of_to_load. by apply H. }
  split.
  - destruct (Z.ltb_spec (alen bs) EHDR_SIZE); [done|].
    destruct (check_ehdr (elf_header bs)) as [[]|c] eqn:Hc; [|done].
    destruct (Z.ltb_spec (alen bs) (e_phoff (elf_header bs) + PHDR_SIZE * e_phnum (elf_header bs))); [done|].
    destruct (decide _) as [Hf|Hf]; [|done]. pose proof (proj1 Hseg Hf) as Hf2; clear Hf; rename Hf2 into Hf.
    rewrite (layout_of_hull _ _ _ _ _ _ E Hen) by (intros Hh; by destruct (hull_bounds bs b e Hb Hh Hf) as (? & ? & _)).
    intros (Hh & Hr & ->). split; cbn [entry_eip image_base image_size]; try done.
    + by replace (b + (e - b)) with e by lia.
    + split; [done|lia].
  - intros [[Hl Hc] Ht Hf Hw [He Hr]]. pose proof (hull_bounds bs _ _ Hb Hw Hf) as (Hb1 & Hb2 & _).
    rewrite (proj2 (Z.ltb_ge (alen bs) EHDR_SIZE) Hl), Hc.
    rewrite (proj2 (Z.ltb_ge (alen bs) (e_phoff (elf_header bs) + PHDR_SIZE * e_phnum (elf_header bs))) Ht).
    destruct (decide _) as [Hd|Hd]; [|by destruct Hd; apply Hseg].
    assert (Hh : hull (elf_phdrs bs) b e).
    { apply (grow_hull _ _ _ _ E). intros ->. destruct (hull_lo_in _ _ _ Hw) as (p & Hp & Hpl & _).
      assert (Hin : p ∈ to_load (elf_phdrs bs)) by (by apply elem_of_to_load).
      destruct (grow_spec _ _ _ _ E) as [Hz _]. destruct (to_load (elf_phdrs bs)); [by apply not_elem_of_nil in Hin|].
      unfold alen in Hz. simpl in Hz. lia. }
    destruct (hull_inj _ _ _ _ _ Hw Hh) as [<- <-].
    apply (layout_of_hull _ _ _ _ _ _ E Hen); [by intros _|]. split; [done|]. rewrite <- He.
    split; [lia|]. destruct L as [en ba si]; cbn [entry_eip image_base image_size] in *. f_equal. lia.
Qed.

Lemma inspect_eq buf mb bs s :
  file_at s buf mb bs → alen bs < two32 → inspect_image buf (alen bs) s = Some (elf_layout bs).
Proof.
  intros Hf Hlen. unfold inspect_image. rewrite (validate_eq buf mb bs s Hf). cbn [mbind option_bind].
  destruct (Z.ltb_spec (alen bs) EHDR_SIZE) as [Hl|Hl].
  { unfold elf_layout. by rewrite (proj2 (Z.ltb_lt _ _) Hl). }
  destruct (check_ehdr (elf_header bs)) as [[]|c] eqn:Hc.
  - exact (collect_eq buf mb bs s Hf Hlen Hl Hc).
  - unfold elf_layout. by rewrite (proj2 (Z.ltb_ge (alen bs) EHDR_SIZE) Hl), Hc.
Qed.

(** * Acceptance is validity *)

Definition seg_of (ph : elf32_phdr) : segment := Segment (p_type ph) (p_offset ph) (p_vaddr ph) (p_filesz ph) (p_memsz ph).

Lemma le_at_16 bs off : le_at 2 bs off = de16 bs off.
Proof. unfold de16. cbn [le_at]. lia. Qed.

Lemma le_at_32 bs off : le_at 4 bs off = de32 bs off.
Proof.
  unfold de32. cbn [le_at]. replace (off + 1 + 1) with (off + 2) by lia. replace (off + 2 + 1) with (off + 3) by lia. lia.
Qed.

Lemma de16_slice bs o n k : 0 ≤ o → 0 ≤ k → k + 2 ≤ n → de16 (slice bs o n) k = de16 bs (o + k).
Proof. intros. unfold de16. by rewrite !cget_slice, Z.add_assoc by lia. Qed.

Lemma de32_slice bs o n k : 0 ≤ o → 0 ≤ k → k + 4 ≤ n → de32 (slice bs o n) k = de32 bs (o + k).
Proof. intros. apply de32_ext. intros j Hj. rewrite cget_slice by lia. f_equal. lia. Qed.

Lemma header_eq bs :
  e_type (elf_header bs) = le_at 2 bs 16 ∧ e_machine (elf_header bs) = le_at 2 bs 18 ∧
  e_version (elf_header bs) = le_at 4 bs 20 ∧ e_entry (elf_header bs) = le_at 4 bs 24 ∧
  e_phoff (elf_header bs) = le_at 4 bs 28 ∧ e_ehsize (elf_header bs) = le_at 2 bs 40 ∧
  e_phentsize (elf_header bs) = le_at 2 bs 42 ∧ e_phnum (elf_header bs) = le_at 2 bs 44 ∧
  ∀ i, 0 ≤ i < 16 → ident (elf_header bs) i = cget bs i.
Proof.
  unfold elf_header, ehdr_of, ident. cbn [e_type e_machine e_version e_entry e_phoff e_ehsize e_phentsize e_phnum e_ident].
  rewrite !le_at_16, !le_at_32, !de16_slice, !de32_slice by (unfold EHDR_SIZE; lia). split_and!; try reflexivity.
  intros i Hi. by rewrite !cget_slice by (unfold EHDR_SIZE; lia).
Qed.

Lemma headers_eq bs : bytes_ok bs → program_headers bs = seg_of <$> elf_phdrs bs.
Proof.
  intros Hb. destruct (header_eq bs) as (_ & _ & _ & _ & Eo & _ & _ & En & _). destruct (elf_header_ok bs Hb) as (_ & Ho & _).
  unfold program_headers, elf_phdrs. rewrite <- Eo, <- En, <- list_fmap_compose. apply list_fmap_ext. intros i k Hk.
  apply list_elem_of_lookup_2, elem_of_seqZ in Hk. cbn [compose]. unfold phdr_in, seg_of, phdr_of, segment_at.
  cbn [compose p_type p_offset p_vaddr p_filesz p_memsz]. change PHDR_SIZE with 32.
  rewrite !le_at_32, !de32_slice by lia. by rewrite Z.add_0_r.
Qed.

Lemma loadable_spec ph : loadable ph = true ↔ is_load (seg_of ph).
Proof. unfold loadable, is_load. rewrite andb_true_iff, negb_true_iff, Z.eqb_eq, Z.eqb_neq. done. Qed.

Lemma segments_eq bs : bytes_ok bs → segments bs = seg_of <$> to_load (elf_phdrs bs).
Proof.
  intros Hb. unfold segments, to_load. rewrite headers_eq by done. induction (elf_phdrs bs) as [|ph l IH]; [done|].
  rewrite fmap_cons, !filter_cons, IH. destruct (decide (is_load (seg_of ph))) as [Hd|Hd].
  - rewrite decide_True; [done|]. by apply loadable_spec.
  - rewrite decide_False; [done|]. by intros H%loadable_spec.
Qed.

Lemma pages_eq ph : first_page (seg_of ph) = seg_lo ph ∧ last_page_end (seg_of ph) = seg_hi ph.
Proof.
  unfold first_page, last_page_end, seg_lo, seg_hi. cbn [seg_of sg_vaddr sg_memsz].
  split; [pose proof (Z.div_mod (p_vaddr ph) 4096 ltac:(lia)); lia|].
  pose proof (Z.div_mod (p_vaddr ph + p_memsz ph + 4095) 4096 ltac:(lia)). lia.
Qed.

Lemma ident_eq bs : 7 ≤ alen bs →
  take 7 bs = [127; 69; 76; 70; 1; 1; 1] ↔
  (cget bs 0 = 127 ∧ cget bs 1 = 69 ∧ cget bs 2 = 76 ∧ cget bs 3 = 70) ∧ (cget bs 4 = 1 ∧ cget bs 5 = 1) ∧ cget bs 6 = 1.
Proof.
  intros Hl. unfold alen in Hl. destruct bs as [|a0 [|a1 [|a2 [|a3 [|a4 [|a5 [|a6 bs]]]]]]]; try (simpl in Hl; lia).
  change (cget _ 0) with a0. change (cget _ 1) with a1. change (cget _ 2) with a2. change (cget _ 3) with a3.
  change (cget _ 4) with a4. change (cget _ 5) with a5. change (cget _ 6) with a6. cbn [take].
  split; [intros [= -> -> -> -> -> -> ->]; tauto|intros ((-> & -> & -> & ->) & (-> & ->) & ->); reflexivity].
Qed.

Lemma guard_ok (b : bool) e (r : res unit) : (if negb b then Err e else r) = Ok tt ↔ b = true ∧ r = Ok tt.
Proof. destruct b; cbn; [tauto|]. split; [done|by intros [? _]]. Qed.

Lemma negb_ok (b : bool) e : (if b then Err e else Ok tt) = Ok tt ↔ b = false.
Proof. by destruct b. Qed.

Lemma header_valid bs : EHDR_SIZE ≤ alen bs →
  check_ehdr (elf_header bs) = Ok tt ↔
  take 7 bs = [127; 69; 76; 70; 1; 1; 1] ∧ (le_at 2 bs 16 = 2 ∧ le_at 2 bs 18 = 3 ∧ le_at 4 bs 20 = 1) ∧
  (le_at 2 bs 40 = 52 ∧ le_at 2 bs 42 = 32 ∧ le_at 2 bs 44 ≠ 0).
Proof.
  intros Hl. destruct (header_eq bs) as (E1 & E2 & E3 & _ & _ & E6 & E7 & E8 & Ei). rewrite ident_eq by (unfold EHDR_SIZE in Hl; lia).
  unfold check_ehdr. rewrite E1, E2, E3, E6, E7, E8, !Ei by lia.
  rewrite !guard_ok, negb_ok, !andb_true_iff, orb_false_iff, negb_false_iff, !Z.eqb_eq, Z.eqb_neq.
  unfold ELFCLASS32, ELFDATA2LSB, EV_CURRENT, ET_EXEC, EM_386, EHDR_SIZE, PHDR_SIZE. tauto.
Qed.

Lemma valid_accepted bs L : bytes_ok bs → valid_elf bs L ↔ accepted bs L.
Proof.
  intros Hb. destruct (header_eq bs) as (_ & _ & _ & En & Eo & _ & _ & Ep & _).
  assert (Hs : Forall (segment_fits (alen bs)) (segments bs) ↔
    ∀ ph, ph ∈ elf_phdrs bs → loadable ph = true → seg_fits (alen bs) ph).
  { rewrite segments_eq, Forall_fmap, Forall_forall by done. split.
    - intros H ph H1 H2. apply (H ph). by apply elem_of_to_load.
    - intros H ph [H1 H2]%elem_of_to_load. by apply (H ph). }
  assert (Hw : ∀ b e, smallest_window (segments bs) b e ↔ hull (elf_phdrs bs) b e).
  { intros b e. rewrite segments_eq by done. split.
    - intros [H1 (x & H2 & <-) (y & H3 & <-)]. apply list_elem_of_fmap in H2 as (px & -> & [Px1 Px2]%elem_of_to_load).
      apply list_elem_of_fmap in H3 as (py & -> & [Py1 Py2]%elem_of_to_load).
      destruct (pages_eq px) as [Ex _]. destruct (pages_eq py) as [_ Ey]. rewrite Ex, Ey in *.
      assert (Hin : ∀ ph, ph ∈ elf_phdrs bs → loadable ph = true → seg_lo px ≤ seg_lo ph ∧ seg_hi ph ≤ seg_hi py).
      { intros ph Hp Hl. destruct (pages_eq ph) as [<- <-]. apply H1, list_elem_of_fmap_2. by apply elem_of_to_load. }
      split; [intros; by apply Hin|intros; by apply Hin|by exists px|by exists py].
    - intros [H1 H2 (x & Hx1 & Hx2 & <-) (y & Hy1 & Hy2 & <-)]. split.
      + intros sg (ph & -> & [Hp Hl]%elem_of_to_load)%list_elem_of_fmap. destruct (pages_eq ph) as [-> ->]. auto.
      + exists (seg_of x). split; [apply list_elem_of_fmap_2; by apply elem_of_to_load|apply pages_eq].
      + exists (seg_of y). split; [apply list_elem_of_fmap_2; by apply elem_of_to_load|apply pages_eq]. }
  split.
  - intros [V1 V2 V3 V4 V5 V6 V7 [V8 V9]]. split.
    + split; [done|]. by apply header_valid.
    + rewrite Eo, Ep. done.
    + by apply Hs.
    + by apply Hw.
    + rewrite En. done.
  - intros [[A1 A2] A3 A4 A5 [A6 A7]]. apply (header_valid bs A1) in A2 as (H1 & H2 & H3). rewrite Eo, Ep in A3. rewrite En in A6.
    split; try done; [by apply Hs|by apply Hw].
Qed.

Lemma elf_layout_valid bs L : bytes_ok bs → elf_layout bs = Ok L ↔ valid_elf bs L.
Proof. intros Hb. by rewrite valid_accepted, elf_layout_accepted by done. Qed.

(** C30: a file is accepted exactly if it is a valid static executable by the
    format's own numbers, [valid_elf] of ElfFormat.v (magic, class, byte order,
    version, type and machine of the header,
    program header table inside the file, every segment to load inside the
    file and below 32 MiB, an entry inside the window), and the layout reported
    is the smallest run of pages that holds the segments. *)
Theorem elf_inspect_spec buf mb bs s :
  file_at s buf mb bs → alen bs < two32 →
  ∃ r, inspect_image buf (alen bs) s = Some r ∧ ∀ L, r = Ok L ↔ valid_elf bs L.
Proof.
  intros Hf Hlen. exists (elf_layout bs). split; [|intros L; apply elf_layout_valid, (file_bytes_ok _ _ _ _ Hf)].
  by apply (inspect_eq buf mb bs s).
Qed.

(** * The image *)

(** What a segment puts at an address, if anything. *)
Definition seg_byte (bs : list Z) (ph : elf32_phdr) (a : Z) : option Z :=
  if loadable ph && bool_decide (p_vaddr ph ≤ a < p_vaddr ph + p_memsz ph)
  then Some (if a <? p_vaddr ph + p_filesz ph then cget bs (p_offset ph + (a - p_vaddr ph)) else 0)
  else None.

(** The last segment that covers an address counts. *)
Definition segs_byte (bs : list Z) (l : list elf32_phdr) (a : Z) : option Z :=
  foldl (λ r ph, match seg_byte bs ph a with Some b => Some b | None => r end) None l.

Definition image_byte (bs : list Z) (a : Z) : Z := default 0 (segs_byte bs (elf_phdrs bs) a).

Lemma image_byte_eq bs a : bytes_ok bs → image_byte bs a = program_byte bs a.
Proof.
  intros Hb. unfold image_byte, program_byte, segs_byte. f_equal. rewrite segments_eq by done.
  generalize (@None Z). induction (elf_phdrs bs) as [|ph l IH]; intros r; [done|]. rewrite to_load_cons.
  cbn [foldl]. change (seg_byte bs ph a) with (if loadable ph && bool_decide (p_vaddr ph ≤ a < p_vaddr ph + p_memsz ph) then Some (if a <? p_vaddr ph + p_filesz ph then cget bs (p_offset ph + (a - p_vaddr ph)) else 0) else None). destruct (loadable ph); cbn [andb]; [|apply IH].
  rewrite fmap_cons. cbn [foldl]. rewrite IH. f_equal. unfold segment_byte. cbn [seg_of sg_vaddr sg_memsz sg_filesz sg_offset].
  repeat case_decide; repeat case_bool_decide; try done; destruct (Z.ltb_spec a (p_vaddr ph + p_filesz ph)); (done || lia).
Qed.

Lemma segs_byte_app bs l l' a :
  segs_byte bs (l ++ l') a = match segs_byte bs l' a with Some b => Some b | None => segs_byte bs l a end.
Proof.
  unfold segs_byte. rewrite foldl_app. generalize (foldl (λ r ph, match seg_byte bs ph a with Some b => Some b | None => r end) None l).
  induction l' as [|ph l' IH] using rev_ind; intros r; [done|]. rewrite !foldl_app. cbn [foldl].
  destruct (seg_byte bs ph a); [done|]. apply IH.
Qed.

Lemma segs_byte_cons bs ph l a :
  segs_byte bs (ph :: l) a = match segs_byte bs l a with Some b => Some b | None => seg_byte bs ph a end.
Proof.
  change (ph :: l) with ([ph] ++ l). rewrite segs_byte_app. destruct (segs_byte bs l a); [done|].
  unfold segs_byte. cbn [foldl]. by destruct (seg_byte bs ph a).
Qed.

Section image.
Context (wp : bool) (buf : Z) (mb : Z → Z) (bs : list Z) (m : Z → Z) (lo hi : Z).
Context (Hlen : alen bs < two32) (Hdis : ∀ k a, 0 ≤ k < alen bs → lo ≤ a < hi → mb k ≠ m a).
Implicit Types (s : paging).

Lemma load_segment_wrote ph s :
  window wp s m lo hi → file_at s buf mb bs → phdr_ok ph → loadable ph = true → seg_fits (alen bs) ph →
  lo ≤ p_vaddr ph → p_vaddr ph + p_memsz ph ≤ hi → hi < two32 →
  ∃ s', load_segment wp buf (alen bs) lo hi ph s = Some (Ok tt, s') ∧ wrote wp m lo hi (seg_byte bs ph) s s'.
Proof using Hlen Hdis.
  intros Hw Hf Hp Hl (F1 & F2 & F3) Hlo Hhi Hh. pose proof Hp as (_ & Ho & Hv & Hfs & Hm). pose proof (alen_nonneg bs).
  unfold load_segment. rewrite check_segment_eq by (done || lia). rewrite decide_True by lia.
  rewrite !(proj2 (Z.ltb_ge _ _)) by lia. cbn [orb].
  destruct (file_memcpy wp buf mb bs s m lo hi (p_vaddr ph) (p_offset ph) (p_filesz ph)) as (s1 & -> & W1); try (done || lia).
  cbn [mbind option_bind]. rewrite add32_small by lia. rewrite sub32_small by lia.
  destruct (memset_wrote wp m lo hi s1 (p_vaddr ph + p_filesz ph) 0 (p_memsz ph - p_filesz ph)) as (s2 & -> & W2);
    try (done || lia); [apply (wr_window _ _ _ _ _ _ _ W1)|].
  exists s2. split; [done|]. eapply wrote_ext; [|exact (wrote_trans _ _ _ _ _ _ _ _ _ W1 W2)].
  intros a Ha. cbv beta. unfold seg_byte. rewrite Hl. cbn [andb].
  destruct (decide (p_vaddr ph ≤ a < p_vaddr ph + p_memsz ph)) as [Hd|Hd].
  - rewrite bool_decide_eq_true_2 by done. destruct (Z.ltb_spec a (p_vaddr ph + p_filesz ph)).
    + rewrite decide_False by lia. by rewrite decide_True by lia.
    + by rewrite decide_True by lia.
  - rewrite bool_decide_eq_false_2 by done. rewrite !decide_False by lia. done.
Qed.

Context (Htab : table_in bs) (Hhdr : EHDR_SIZE ≤ alen bs).
Context (Hfit : ∀ ph, ph ∈ elf_phdrs bs → loadable ph = true →
  seg_fits (alen bs) ph ∧ lo ≤ p_vaddr ph ∧ p_vaddr ph + p_memsz ph ≤ hi) (Hhi : hi < two32).

Lemma load_loop_wrote n k i loads s :
  window wp s m lo hi → file_at s buf mb bs → 0 ≤ i → 0 ≤ loads ≤ i →
  i + Z.of_nat k = e_phnum (elf_header bs) → (k < n)%nat →
  ∃ s', load_loop wp n i loads buf (add32 buf (e_phoff (elf_header bs))) (alen bs) lo hi s =
          Some (Ok (loads + alen (to_load (phdr_in bs <$> seqZ i (Z.of_nat k)))), s') ∧
        wrote wp m lo hi (segs_byte bs (phdr_in bs <$> seqZ i (Z.of_nat k))) s s' ∧ file_at s' buf mb bs.
Proof using Hlen Hdis Htab Hhdr Hfit Hhi.
  revert n i loads s. induction k as [|k IH]; intros n i loads s Hw Hf Hi Hld Hk Hn;
    (destruct n as [|n]; [lia|]); cbn [load_loop]; rewrite (ehdr_at_eq buf mb bs s Hf) by done; cbn [mbind option_bind].
  { rewrite (proj2 (Z.ltb_ge _ _)) by lia. cbn [negb]. exists s.
    change (alen (to_load (phdr_in bs <$> seqZ i (Z.of_nat 0)))) with 0. rewrite Z.add_0_r.
    split; [done|]. split; [by apply wrote_refl|done]. }
  rewrite (proj2 (Z.ltb_lt _ _)) by lia. cbn [negb].
  rewrite (phdr_at_eq buf mb bs s Hf Hlen i Htab) by lia. cbn [mbind option_bind].
  rewrite (seqZ_cons i) by lia. replace (Z.pred (Z.of_nat (S k))) with (Z.of_nat k) by lia. rewrite fmap_cons, <- Z.add_1_r.
  assert (Hin : phdr_in bs i ∈ elf_phdrs bs) by (apply list_elem_of_fmap; exists i; split; [done|apply elem_of_seqZ; lia]).
  pose proof (phdrs_ok bs _ (file_bytes_ok _ _ _ _ Hf) Hin) as Hp. rewrite to_load_cons.
  destruct (elf_header_ok bs (file_bytes_ok _ _ _ _ Hf)) as (Hpn & _).
  destruct (loadable (phdr_in bs i)) eqn:El; cbn [negb].
  - destruct (Hfit _ Hin El) as (F1 & F2 & F3).
    destruct (load_segment_wrote (phdr_in bs i) s Hw Hf Hp El F1 F2 F3 Hhi) as (s1 & -> & W1). cbn [mbind option_bind].
    destruct (IH n (i + 1) (loads + 1) s1) as (s2 & E2 & W2 & Hf2); try lia;
      [apply (wr_window _ _ _ _ _ _ _ W1)|by apply (file_wrote wp buf mb bs s s1 m lo hi _ W1)|].
    rewrite add32_small by (unfold two32; lia). rewrite E2. exists s2. split; [|split; [|done]].
    + unfold alen. cbn [length]. do 3 f_equal. lia.
    + eapply wrote_ext; [|exact (wrote_trans _ _ _ _ _ _ _ _ _ W1 W2)]. intros a Ha. by rewrite segs_byte_cons.
  - destruct (IH n (i + 1) loads s) as (s2 & E2 & W2 & Hf2); try (done || lia). rewrite E2. exists s2.
    split; [done|]. split; [|done]. eapply wrote_ext; [|exact W2]. intros a Ha. rewrite segs_byte_cons.
    destruct (segs_byte _ _ a); [done|]. unfold seg_byte. by rewrite El.
Qed.
End image.

(** * Loading *)

(** What [load_image] does after both windows have been filled. *)
Definition open_windows (file_buf image_base image_size stack_base stack_size : Z) (L : elf32_user_layout) (s : paging)
    : option (res elf32_user_image * paging) :=
  match paging_mark_user_region image_base image_size s with
  | (Err e, s) => Some (Err e, s)
  | (Ok _, s) =>
      match paging_mark_user_region stack_base stack_size s with
      | (Err e, s) => Some (Err e, s)
      | (Ok _, s) =>
          h ← ehdr_at file_buf s;
          Some (Ok (Image (e_entry h) (stack_base + stack_size) (Elf.image_base L) (Elf.image_size L)), s)
      end
  end.

(** Memory holds the program: the image at [ib], zeros on the stack at [sb],
    and every other byte as before. *)
Record loaded (bs : list Z) (m m2 : Z → Z) (ib isz sb ssz : Z) (s s' : paging) : Prop := {
  ld_state : s' = set_phys (phys s') s;
  ld_image : ∀ a, ib ≤ a < ib + isz → load8 (phys s') (m a) = program_byte bs a;
  ld_stack : ∀ a, sb ≤ a < sb + ssz → load8 (phys s') (m2 a) = 0;
  ld_other : ∀ pa, (∀ a, ib ≤ a < ib + isz → pa ≠ m a) → (∀ a, sb ≤ a < sb + ssz → pa ≠ m2 a) →
    load8 (phys s') pa = load8 (phys s) pa;
  ld_trans : ∀ va, is_u32 va → cpu_translate s' va = cpu_translate s va
}.

Section load.
Context (wp : bool) (buf : Z) (mb : Z → Z) (bs : list Z) (s : paging).
Context (m m2 : Z → Z) (ib isz sb ssz : Z).
Context (Hf : file_at s buf mb bs) (Hlen : alen bs < two32).
Context (Hwi : window wp s m ib (ib + isz)) (Hws : window wp s m2 sb (sb + ssz)).
Context (Hisz : 0 < isz) (Hssz : 0 < ssz).
Context (Hib : ib + isz ≤ KERNEL_EARLY_MAP_BYTES) (Hsb : sb + ssz ≤ KERNEL_EARLY_MAP_BYTES).
Context (Hdi : ∀ k a, 0 ≤ k < alen bs → ib ≤ a < ib + isz → mb k ≠ m a).
Context (Hds : ∀ k a, 0 ≤ k < alen bs → sb ≤ a < sb + ssz → mb k ≠ m2 a).
Context (His : ∀ a b, ib ≤ a < ib + isz → sb ≤ b < sb + ssz → m a ≠ m2 b).

(** The two checks of [load_image], and what follows them. *)
Lemma load_image_checked :
  load_image wp buf (alen bs) ib isz sb ssz s =
    match elf_layout bs with
    | Err e => Some (Err e, s)
    | Ok L =>
        if negb (elf32_range_contains ib isz (image_base L) (image_size L)) then Some (Err KERR_INVAL, s)
        else
          s1 ← memset wp ib 0 (Z.to_nat isz) s;
          '(r, s1) ← load_loop wp load_fuel 0 0 buf (add32 buf (e_phoff (elf_header bs))) (alen bs) ib (ib + isz) s1;
          match r with
          | Err e => Some (Err e, s1)
          | Ok loads =>
              if loads =? 0 then Some (Err KERR_INVAL, s1)
              else s1 ← memset wp sb 0 (Z.to_nat ssz) s1; open_windows buf ib isz sb ssz L s1
          end
    end.
Proof using Hf Hlen Hwi Hws Hisz Hssz Hib Hsb.
  destruct (wn_bounds _ _ _ _ _ Hwi) as [B1 _]. destruct (wn_bounds _ _ _ _ _ Hws) as [B2 _].
  assert (HK : KERNEL_EARLY_MAP_BYTES < two32) by done.
  unfold load_image. rewrite !add32_small by lia. pose proof (inspect_eq buf mb bs s Hf Hlen) as Hi. unfold inspect_image in Hi.
  rewrite (validate_eq buf mb bs s Hf) in Hi |- *. cbn [mbind option_bind] in Hi |- *.
  destruct (Z.ltb_spec (alen bs) EHDR_SIZE) as [Hl|Hl].
  { apply (inj Some) in Hi. by rewrite <- Hi. }
  destruct (check_ehdr (elf_header bs)) as [[]|c].
  - rewrite Hi. cbn [mbind option_bind]. destruct (elf_layout bs) as [L|e]; [|done].
    case_match; [done|]. by rewrite (ehdr_at_eq buf mb bs s Hf Hl).
  - apply (inj Some) in Hi. by rewrite <- Hi.
Qed.
(** The window of an executable that fits holds its segments. *)
Lemma fits_window L :
  elf_layout bs = Ok L → elf32_range_contains ib isz (image_base L) (image_size L) = true →
  table_in bs ∧ EHDR_SIZE ≤ alen bs ∧ to_load (elf_phdrs bs) ≠ [] ∧
  ∀ ph, ph ∈ elf_phdrs bs → loadable ph = true →
    seg_fits (alen bs) ph ∧ ib ≤ p_vaddr ph ∧ p_vaddr ph + p_memsz ph ≤ ib + isz.
Proof using Hf Hwi Hisz Hib.
  intros HL Hr. pose proof (file_bytes_ok _ _ _ _ Hf) as Hb. apply (elf_layout_accepted bs L Hb) in HL as [[Hl Hc] Ht Hs Hw _].
  destruct (hull_bounds bs _ _ Hb Hw Hs) as (Hb1 & Hb2 & _).
  destruct (wn_bounds _ _ _ _ _ Hwi) as [B1 _]. assert (HK : KERNEL_EARLY_MAP_BYTES < two32) by done.
  apply range_contains_spec in Hr as (_ & _ & R3 & R4); [|lia..].
  split_and!; [done|done| |].
  - intros Hn. destruct (hull_lo_in _ _ _ Hw) as (p & Hp & Hpl & _).
    assert (Hin : p ∈ to_load (elf_phdrs bs)) by (by apply elem_of_to_load). rewrite Hn in Hin. by apply not_elem_of_nil in Hin.
  - intros ph Hp Hpl. split; [by apply Hs|]. pose proof (hull_lo _ _ _ Hw ph Hp Hpl). pose proof (hull_hi _ _ _ Hw ph Hp Hpl).
    destruct (seg_bounds ph (phdrs_ok bs ph Hb Hp)) as (? & _ & _ & ? & _). lia.
Qed.

Lemma load_fuel_enough k : 0 ≤ k < 65536 → (Z.to_nat k < load_fuel)%nat.
Proof. intros Hk. apply Z2Nat.inj_lt; lia. Qed.

Lemma load_image_fits L :
  elf_layout bs = Ok L → elf32_range_contains ib isz (image_base L) (image_size L) = true →
  ∃ s1, loaded bs m m2 ib isz sb ssz s s1 ∧
    load_image wp buf (alen bs) ib isz sb ssz s = open_windows buf ib isz sb ssz L s1.
Proof using Hf Hlen Hwi Hws Hisz Hssz Hib Hsb Hdi Hds His.
  intros HL Hr. destruct (fits_window L HL Hr) as (Ht & Hl & Hne & Hfit). rewrite load_image_checked, HL, Hr. cbn [negb].
  pose proof load_fuel_enough as Hfuel. revert Hfuel. generalize load_fuel. intros fuel Hfuel.
  assert (HK : KERNEL_EARLY_MAP_BYTES < two32) by done.
  destruct (memset_wrote wp m ib (ib + isz) s ib 0 isz) as (s1 & -> & W1); try (done || lia). cbn [mbind option_bind].
  pose proof (file_wrote wp buf mb bs _ _ _ _ _ _ W1 Hf Hdi) as Hf1.
  destruct (elf_header_ok bs (file_bytes_ok _ _ _ _ Hf)) as (Hpn & _).
  destruct (load_loop_wrote wp buf mb bs m ib (ib + isz) Hlen Hdi Ht Hl Hfit ltac:(lia) fuel
    (Z.to_nat (e_phnum (elf_header bs))) 0 0 s1 (wr_window _ _ _ _ _ _ _ W1) Hf1) as (s2 & -> & W2 & Hf2);
    [done..| |exact (Hfuel _ Hpn)|].
  { rewrite Z2Nat.id by lia. lia. }
  rewrite Z2Nat.id in W2 |- * by lia. fold (elf_phdrs bs) in W2 |- *. cbn [mbind option_bind]. rewrite Z.add_0_l.
  assert (Hz : (alen (to_load (elf_phdrs bs)) =? 0) = false).
  { apply Z.eqb_neq. destruct (to_load (elf_phdrs bs)); [done|]. unfold alen. simpl. lia. }
  rewrite Hz.
  pose proof (window_keep _ _ _ _ _ _ _ _ _ _ (wr_window _ _ _ _ _ _ _ W1) W2 (window_keep _ _ _ _ _ _ _ _ _ _ Hwi W1 Hws)) as Hws2.
  destruct (memset_wrote wp m2 sb (sb + ssz) s2 sb 0 ssz) as (s3 & -> & W3); try (done || lia). cbn [mbind option_bind].
  exists s3. split; [|done]. pose proof (wrote_trans _ _ _ _ _ _ _ _ _ W1 W2) as W. split.
  - rewrite (wr_state _ _ _ _ _ _ _ W3), (wr_state _ _ _ _ _ _ _ W). by destruct s3.
  - intros a Ha. rewrite (wr_old _ _ _ _ _ _ _ W3) by (intros; by apply His). rewrite (wr_new _ _ _ _ _ _ _ W) by done.
    rewrite <- image_byte_eq by exact (file_bytes_ok _ _ _ _ Hf).
    unfold image_byte. destruct (segs_byte bs (elf_phdrs bs) a); [done|]. by rewrite decide_True by lia.
  - intros a Ha. rewrite (wr_new _ _ _ _ _ _ _ W3) by done. by rewrite decide_True by lia.
  - intros pa H1 H2. rewrite (wr_old _ _ _ _ _ _ _ W3) by (intros; by apply H2). apply (wr_old _ _ _ _ _ _ _ W). intros; by apply H1.
  - intros va Hva. rewrite (wr_trans _ _ _ _ _ _ _ W3) by done. by apply (wr_trans _ _ _ _ _ _ _ W).
Qed.

(** C7: an executable that is valid and fits the window is in memory when the
    two windows are opened to the user: the image holds, byte for byte, what
    the last segment that covers an address asks for (file bytes, then zeros)
    and zeros elsewhere ([program_byte] of ElfFormat.v), the stack is zero, and no other byte has changed.
    Any other file is refused before anything is stored. *)
Theorem elf_load_spec :
  (∀ L, valid_elf bs L → ib ≤ image_base L → image_base L + image_size L ≤ ib + isz →
     ∃ s1, loaded bs m m2 ib isz sb ssz s s1 ∧
       load_image wp buf (alen bs) ib isz sb ssz s = open_windows buf ib isz sb ssz L s1) ∧
  ((∀ L, valid_elf bs L → ¬ (ib ≤ image_base L ∧ image_base L + image_size L ≤ ib + isz)) →
     ∃ e, load_image wp buf (alen bs) ib isz sb ssz s = Some (Err e, s)).
Proof using Hf Hlen Hwi Hws Hisz Hssz Hib Hsb Hdi Hds His.
  pose proof (file_bytes_ok _ _ _ _ Hf) as Hb. destruct (wn_bounds _ _ _ _ _ Hwi) as [B1 _].
  assert (HK : KERNEL_EARLY_MAP_BYTES < two32) by done.
  assert (Hc : ∀ L, valid_elf bs L → elf32_range_contains ib isz (image_base L) (image_size L) = true ↔
      ib ≤ image_base L ∧ image_base L + image_size L ≤ ib + isz).
  { intros L [_ _ Hs Hw _]%(valid_accepted bs L Hb). destruct (hull_bounds bs _ _ Hb Hw Hs) as (? & ? & _). rewrite range_contains_spec by lia. lia. }
  split.
  - intros L HL H1 H2. apply load_image_fits; [by apply elf_layout_valid|by apply Hc].
  - intros Hno. rewrite load_image_checked. destruct (elf_layout bs) as [L|e] eqn:HL; [|by exists e].
    apply (elf_layout_valid bs L Hb) in HL.
    destruct (elf32_range_contains ib isz (image_base L) (image_size L)) eqn:Er; [|by eexists].
    destruct (Hno L HL). by apply Hc.
Qed.
End load.

(** * A small executable

    One segment at 20 MiB: four bytes of the file and four zeros. *)
Definition demo_elf : list Z :=
  [127; 69; 76; 70; 1; 1; 1; 0; 0; 0; 0; 0; 0; 0; 0; 0] ++ [2; 0; 3; 0] ++ le32 1 ++ le32 20971520 ++ le32 52 ++ le32 0 ++
  le32 0 ++ [52; 0; 32; 0; 1; 0; 0; 0; 0; 0; 0; 0] ++
  le32 1 ++ le32 84 ++ le32 20971520 ++ le32 20971520 ++ le32 4 ++ le32 8 ++ le32 5 ++ le32 4096 ++ [144; 144; 235; 254].
Definition demo_layout : elf32_user_layout := Layout 20971520 20971520 4096.
Definition demo_buf : Z := 16777216.

(** It lies at 16 MiB in a memory without page tables. *)
Definition demo_memory : paging :=
  default (paging_zero ∅ boot_heap) (memcpy_to true demo_buf demo_elf (paging_zero ∅ boot_heap)).

Lemma demo_memory_wrote :
  wrote true id demo_buf (demo_buf + 88) (bytes_at demo_buf demo_elf) (paging_zero ∅ boot_heap) demo_memory.
Proof.
  assert (Hw : window true (paging_zero ∅ boot_heap) id demo_buf (demo_buf + 88)).
  { apply unpaged_window; [exact mem_wf_empty|done|done|done]. }
  assert (Hb : Forall (λ b, 0 ≤ b < 256) demo_elf).
  { apply (bool_decide_unpack _). vm_compute. exact I. }
  assert (Hl : alen demo_elf = 88) by (vm_compute; reflexivity).
  destruct (memcpy_to_wrote true id demo_buf (demo_buf + 88) _ demo_buf demo_elf Hw ltac:(lia) ltac:(lia) Hb) as (s' & E & W).
  unfold demo_memory. rewrite E. exact W.
Qed.

Lemma demo_file_at : file_at demo_memory demo_buf (λ k, demo_buf + k) demo_elf.
Proof.
  assert (Hl : alen demo_elf = 88) by (vm_compute; reflexivity). split; rewrite Hl.
  - done.
  - intros k Hk. exists true, true. unfold cpu_translate. by rewrite (wr_state _ _ _ _ _ _ _ demo_memory_wrote).
  - intros k Hk. pose proof (wr_new _ _ _ _ _ _ _ demo_memory_wrote (demo_buf + k) ltac:(lia)) as E. unfold id in E.
    rewrite E. unfold bytes_at. rewrite Hl, decide_True by lia. simpl. f_equal. lia.
Qed.

Lemma demo_window lo hi : 0 ≤ lo → hi ≤ two32 → window true demo_memory id lo hi.
Proof.
  intros Hlo Hhi. apply unpaged_window; [|by rewrite (wr_state _ _ _ _ _ _ _ demo_memory_wrote)|done|done].
  exact (wn_mem _ _ _ _ _ (wr_window _ _ _ _ _ _ _ demo_memory_wrote)).
Qed.

Lemma demo_valid : valid_elf demo_elf demo_layout.
Proof.
  apply elf_layout_valid; [|vm_compute; reflexivity]. exact (file_bytes_ok _ _ _ _ demo_file_at).
Qed.

#[local] Opaque demo_elf demo_memory.

Lemma elf_inspect_spec_witness :
  inspect_image demo_buf (alen demo_elf) demo_memory = Some (Ok demo_layout).
Proof.
  assert (Hl : alen demo_elf < two32) by (vm_compute; reflexivity).
  destruct (elf_inspect_spec demo_buf _ demo_elf demo_memory demo_file_at Hl) as (r & E & H).
  rewrite E. f_equal. apply H. exact demo_valid.
Defined.

Lemma elf_load_spec_witness :
  ∃ s1, loaded demo_elf id id 20971520 8192 16785408 4096 demo_memory s1 ∧
    load_image true demo_buf (alen demo_elf) 20971520 8192 16785408 4096 demo_memory =
      open_windows demo_buf 20971520 8192 16785408 4096 demo_layout s1.
Proof.
  assert (Hl : alen demo_elf = 88) by (vm_compute; reflexivity).
  destruct (elf_load_spec true demo_buf _ demo_elf demo_memory id id 20971520 8192 16785408 4096 demo_file_at
    ltac:(rewrite Hl; reflexivity) (demo_window 20971520 (20971520 + 8192) ltac:(done) ltac:(done))
    (demo_window 16785408 (16785408 + 4096) ltac:(done) ltac:(done))
    ltac:(done) ltac:(done) ltac:(done) ltac:(done)
    ltac:(rewrite Hl; unfold demo_buf, id; lia) ltac:(rewrite Hl; unfold demo_buf, id; lia) ltac:(unfold id; lia)) as [H _].
  apply (H demo_layout demo_valid); done.
Defined.
