(* ===== verification/ElfRead.v ===== *)
(** kernel/elf32_loader.c: reading the executable.

    [elf32_read_file] reads until the file ends, into a block one byte larger
    than the largest executable.  It is verified against any file systems whose
    reads give at most the bytes asked for ([ReadLaws]): [read_all] is the loop
    without memory. *)

From S2P Require Import Prelude Bytes Pmm Kmalloc VfsNode KFile Vfs Paging PagingMap UserMem Elf ElfSpec.

(** What a read promises to the code that passes it a buffer. *)
Class ReadLaws (σ : Type) `{!FileOps σ} := {
  read_within f len s bs f' s' :
    0 ≤ len → kfile_read f true len s = Some (Ok bs, f', s') → alen bs ≤ len ∧ Forall (λ b, 0 ≤ b < 256) bs;
  read_returns f len s : is_Some (kfile_read f true len s)
}.

Definition SCRATCH : Z := ELF32_LOADER_MAX_FILE_BYTES + 1.

Section reading.
Context {σ : Type} `{!NodeOps σ, !FileOps σ, !ReadLaws σ}.
Context (wp : bool) (mb : Z → Z).
Implicit Types (k : kernel σ) (f : kfile) (fs : σ).

(** The loop of [elf32_read_file] as a function of the file alone: the result,
    the bytes and what is left. *)
Fixpoint read_all (n : nat) (total : Z) f fs : option (res unit * list Z * kfile * σ) :=
  match n with
  | O => None
  | S n' =>
      if SCRATCH <=? total then Some (Err KERR_NOMEM, [], f, fs)
      else
        '(r, f, fs) ← kfile_read f true (SCRATCH - total) fs;
        match r with
        | Err e => Some (Err e, [], f, fs)
        | Ok [] => Some (Ok tt, [], f, fs)
        | Ok bs => '(r, rest, f, fs) ← read_all n' (total + alen bs) f fs; Some (r, bs ++ rest, f, fs)
        end
  end.

(** More rounds than bytes are enough: every round but the last reads some. *)
Lemma read_all_total n total f fs :
  0 ≤ total ≤ SCRATCH → SCRATCH - total < Z.of_nat n →
  ∃ r bs f' fs', read_all n total f fs = Some (r, bs, f', fs') ∧ total + alen bs ≤ SCRATCH ∧
    (r = Ok tt → total + alen bs < SCRATCH) ∧ Forall (λ b, 0 ≤ b < 256) bs.
Proof using ReadLaws0.
  revert total f fs. induction n as [|n IH]; intros total f fs Ht Hn; [lia|]. cbn [read_all].
  assert (H0 : alen (@nil Z) = 0) by done.
  destruct (Z.leb_spec SCRATCH total).
  { do 4 eexists. split; [done|]. rewrite H0. split; [lia|]. by split. }
  destruct (read_returns f (SCRATCH - total) fs) as [[[[bs|e] f1] fs1] E]; rewrite E; cbn [mbind option_bind].
  2: { do 4 eexists. split; [done|]. rewrite H0. split; [lia|]. by split. }
  destruct (read_within _ (SCRATCH - total) _ _ _ _ ltac:(lia) E) as [Hle Hby]. destruct bs as [|b bs].
  { do 4 eexists. split; [done|]. rewrite H0. split; [lia|]. split; [lia|done]. }
  assert (Hl : 0 < alen (b :: bs)) by (unfold alen; simpl; lia).
  destruct (IH (total + alen (b :: bs)) f1 fs1) as (r & rest & f2 & fs2 & E2 & H1 & H2 & H3); [lia..|].
  rewrite E2. cbn [mbind option_bind]. do 4 eexists. split; [done|]. rewrite alen_app. split; [lia|].
  split; [intros ->; specialize (H2 eq_refl); lia|]. by apply Forall_app.
Qed.

(** The loop on memory: the same, and the bytes are in the block. *)
Lemma read_rounds_spec n total f buf k r bs f' fs' :
  window wp (k_mem k) mb buf (buf + SCRATCH) → 0 ≤ total ≤ SCRATCH →
  read_all n total f (k_files k) = Some (r, bs, f', fs') →
  ∃ m', read_rounds wp n f buf total k = Some (r, total + alen bs, f', Kernel m' fs') ∧
    wrote wp mb buf (buf + SCRATCH) (bytes_at (buf + total) bs) (k_mem k) m'.
Proof using ReadLaws0.
  revert total f k bs. induction n as [|n IH]; intros total f k bs Hw Ht; [done|]. cbn [read_all read_rounds].
  destruct (wn_bounds _ _ _ _ _ Hw) as [B1 B2]. fold SCRATCH.
  assert (HS : SCRATCH < two32) by done. rewrite sub32_small by lia.
  assert (Hnil : wrote wp mb buf (buf + SCRATCH) (bytes_at (buf + total) []) (k_mem k) (k_mem k)).
  { eapply wrote_ext; [|by apply wrote_refl]. intros a Ha. unfold bytes_at. change (alen []) with 0. by rewrite decide_False by lia. }
  assert (H0 : total + alen (@nil Z) = total) by (change (alen (@nil Z)) with 0; lia).
  destruct (Z.leb_spec SCRATCH total), (Z.eqb_spec (SCRATCH - total) 0); try lia.
  { intros [= <- <- <- <-]. exists (k_mem k). rewrite H0. split; [by destruct k|done]. }
  destruct (read_returns f (SCRATCH - total) (k_files k)) as [[[[bs1|e] f1] fs1] E]; rewrite E; cbn [mbind option_bind].
  2: { intros [= <- <- <- <-]. exists (k_mem k). by rewrite H0. }
  destruct (read_within _ (SCRATCH - total) _ _ _ _ ltac:(lia) E) as [Hle Hby]. rewrite (add32_small buf total) by lia.
  destruct (memcpy_to_wrote wp mb buf (buf + SCRATCH) (k_mem k) (buf + total) bs1 Hw ltac:(lia) ltac:(lia) Hby)
    as (m1 & E1 & W1). rewrite E1. cbn [mbind option_bind]. destruct bs1 as [|b bs1].
  { intros [= <- <- <- <-]. exists m1. change (alen []) with 0. rewrite Z.eqb_refl.
    rewrite (add32_small total 0), Z.add_0_r by lia. done. }
  assert (Hl : 0 < alen (b :: bs1)) by (unfold alen; simpl; lia). rewrite (proj2 (Z.eqb_neq _ 0)) by lia.
  destruct (read_all n (total + alen (b :: bs1)) f1 fs1) as [[[[r2 rest] f2] fs2]|] eqn:E2; [|done].
  cbn [mbind option_bind]. intros [= <- <- <- <-]. rewrite add32_small by lia.
  destruct (IH (total + alen (b :: bs1)) f1 (Kernel m1 fs1) rest (wr_window _ _ _ _ _ _ _ W1) ltac:(lia) E2) as (m2 & -> & W2).
  exists m2. rewrite app_comm_cons, alen_app. split; [by rewrite Z.add_assoc|].
  eapply wrote_ext; [|exact (wrote_trans _ _ _ _ _ _ _ _ _ W1 W2)]. intros a Ha. cbv beta.
  rewrite (Z.add_assoc buf). apply bytes_at_app.
Qed.

Lemma read_fuel_enough : SCRATCH - 0 < Z.of_nat read_fuel.
Proof using. unfold read_fuel. rewrite Z2Nat.id; done. Qed.

(** The file in the block. *)
Lemma bytes_file_at s s' buf bs :
  window wp s mb buf (buf + SCRATCH) → alen bs ≤ SCRATCH →
  wrote wp mb buf (buf + SCRATCH) (bytes_at buf bs) s s' → file_at s' buf (λ j, mb (buf + j)) bs.
Proof using.
  intros Hw Hl W. destruct (wn_bounds _ _ _ _ _ Hw) as [B1 B2]. pose proof (alen_nonneg bs). split.
  - lia.
  - intros j Hj. destruct (wn_map _ _ _ _ _ (wr_window _ _ _ _ _ _ _ W) (buf + j) ltac:(lia)) as (u & w & E & _).
    by exists u, w.
  - intros j Hj. rewrite (wr_new _ _ _ _ _ _ _ W) by lia. unfold bytes_at. rewrite decide_True by lia.
    simpl. f_equal. lia.
Qed.

(** C31: reading an executable always ends (the block has room for one byte more
    than the largest file, and every round but the last reads at least one),
    and it succeeds exactly if the file ends within 65536 bytes and closes:
    then the block holds the file's bytes and no other byte of memory has
    changed.  In every other case the block is freed. *)
Theorem elf_read_file_spec path f fs1 buf h k :
  vfs_open path 0 (k_files k) = (Ok f, fs1) →
  kmalloc SCRATCH (heap (k_mem k)) = (buf, h) → buf ≠ 0 →
  window wp (set_heap h (k_mem k)) mb buf (buf + SCRATCH) →
  ∃ r bs f2 fs2 m, read_all read_fuel 0 f fs1 = Some (r, bs, f2, fs2) ∧
    wrote wp mb buf (buf + SCRATCH) (bytes_at buf bs) (set_heap h (k_mem k)) m ∧
    let '(c, _, fs3) := kfile_close f2 fs2 in
    match r, c with
    | Ok _, Ok _ =>
        elf32_read_file wp path k = Some (Ok (buf, alen bs), Kernel m fs3) ∧
        alen bs ≤ ELF32_LOADER_MAX_FILE_BYTES ∧ file_at m buf (λ j, mb (buf + j)) bs
    | _, _ => ∃ e, elf32_read_file wp path k = Some (Err e, Kernel (kfree_at buf m) fs3)
    end.
Proof using ReadLaws0.
  intros Eo Ek Hb Hw. assert (HS : 0 ≤ 0 ≤ SCRATCH) by done.
  destruct (read_all_total read_fuel 0 f fs1 HS read_fuel_enough) as (r & bs & f2 & fs2 & E & H1 & H2 & _).
  destruct (read_rounds_spec read_fuel 0 f buf (Kernel (set_heap h (k_mem k)) fs1) r bs f2 fs2 Hw HS E) as (m & Er & W).
  rewrite !Z.add_0_l in *. rewrite Z.add_0_r in W. exists r, bs, f2, fs2, m. split; [done|]. split; [exact W|].
  assert (Hf : file_at m buf (λ j, mb (buf + j)) bs) by exact (bytes_file_at _ _ _ _ Hw H1 W).
  unfold elf32_read_file. rewrite Eo. change (ELF32_LOADER_MAX_FILE_BYTES + 1) with SCRATCH. rewrite Ek.
  rewrite (proj2 (Z.eqb_neq buf 0) Hb), Er. cbn [mbind option_bind k_mem k_files].
  destruct (kfile_close f2 fs2) as [[c f3] fs3].
  destruct r as [[]|e]; [|destruct c as [[]|e2]; by eexists].
  specialize (H2 eq_refl). assert (Hle : alen bs ≤ ELF32_LOADER_MAX_FILE_BYTES) by (unfold SCRATCH in H2; lia).
  rewrite (proj2 (Z.ltb_ge _ _) Hle). destruct c as [[]|e2]; [done|by eexists].
Qed.
End reading.

(** * A file system of one file

    The state is what is left to read of the bytes [data]. *)
Section one_file.
Definition one_node : vfs_node := g_vfs_root_node.
Definition one_handle : kfile := kfile_init (Some one_node) (Some g_tarfs_file_ops) 0 0.
Definition one_read (f : kfile) (has_buf : bool) (len : Z) (s : list Z) : option (res (list Z) * kfile * list Z) :=
  Some (Ok ((λ b, b mod 256) <$> take (Z.to_nat len) s), f, drop (Z.to_nat len) s).

#[local] Instance one_nodes : NodeOps (list Z) := {
  g_vfs_root _ := Some one_node;
  node_type _ _ := VFS_NODE_FILE;
  nd_lookup _ _ := None;
  nd_list _ _ := None;
  nd_open _ s := Some (λ _, (Ok one_handle, s));
  nd_create_open _ _ := None;
  nd_unlink _ _ := None
}.
#[local] Instance one_files : FileOps (list Z) := {
  op_read _ := Some one_read;
  op_write _ := None;
  op_retain _ := None;
  op_close _ := None
}.
#[local] Instance one_laws : ReadLaws (list Z).
Proof.
  split.
  - intros f len s bs f' s' Hl. unfold kfile_read. rewrite andb_false_r. destruct (Z.eqb_spec len 0) as [->|].
    { intros [= <- <- <-]. done. }
    destruct (f_ops f); [|done]. cbn. intros [= <- <- <-]. split.
    + unfold alen. rewrite length_fmap, length_take. lia.
    + apply Forall_fmap, Forall_true. intros b. apply Z.mod_pos_bound. lia.
  - intros f len s. unfold kfile_read. rewrite andb_false_r. destruct (len =? 0); [done|].
    by destruct (f_ops f).
Defined.

Definition one_kernel : kernel (list Z) := Kernel (paging_zero ∅ boot_heap) [1; 2; 3].

Lemma elf_read_file_spec_witness :
  ∃ buf m, elf32_read_file true [SLASH] one_kernel = Some (Ok (buf, 3), Kernel m []) ∧
    file_at m buf (λ j, buf + j) [1; 2; 3].
Proof.
  assert (Eo : vfs_open [SLASH] 0 (k_files one_kernel) = (Ok one_handle, [1; 2; 3])) by (vm_compute; reflexivity).
  destruct (kmalloc SCRATCH (heap (k_mem one_kernel))) as [buf h] eqn:Ek.
  assert (Hb : (0 <? buf) && (buf + SCRATCH <=? two32) = true).
  { assert (Ep : buf = fst (kmalloc SCRATCH (heap (k_mem one_kernel)))) by (rewrite Ek; reflexivity).
    rewrite Ep. vm_compute. reflexivity. }
  apply andb_true_iff in Hb as [Hb1%Z.ltb_lt Hb2%Z.leb_le].
  assert (Hw : window true (set_heap h (k_mem one_kernel)) id buf (buf + SCRATCH)).
  { apply unpaged_window; [exact mem_wf_empty|reflexivity|lia|exact Hb2]. }
  destruct (elf_read_file_spec true id [SLASH] one_handle [1; 2; 3] buf h one_kernel Eo Ek ltac:(lia) Hw)
    as (r & bs & f2 & fs2 & m & Er & _ & H).
  assert (E : read_all read_fuel 0 one_handle [1; 2; 3] = Some (Ok tt, [1; 2; 3], one_handle, [])) by (vm_compute; reflexivity).
  rewrite E in Er. apply (inj Some) in Er.
  assert (E1 : r = Ok tt) by exact (eq_sym (f_equal (λ x, x.1.1.1) Er)).
  assert (E2 : bs = [1; 2; 3]) by exact (eq_sym (f_equal (λ x, x.1.1.2) Er)).
  assert (E3 : f2 = one_handle) by exact (eq_sym (f_equal (λ x, x.1.2) Er)).
  assert (E4 : fs2 = []) by exact (eq_sym (f_equal snd Er)).
  subst r bs f2 fs2. exists buf, m. cbn in H. destruct H as (H1 & _ & H3). split; [exact H1|exact H3].
Defined.
End one_file.
