(* ===== verification/SysPath.v ===== *)
(** kernel/syscall.c: the paths of system calls.

    [syscall_normalize_path] works on a buffer of characters; its reference
    definition [resolve] works on the list of components: a relative path is
    followed from the working directory, [.] stays and [..] drops the last
    component.  A buffer is the list of its characters before the terminating
    NUL; the length of a path is given, so NUL inside it is a character like
    any other. *)

From S2P Require Import Prelude Bytes VfsNode Vfs.

Definition DOT : Z := 46.

(** [while (path_idx < path_len && path[path_idx] != '/') path_idx++]: the
    component and the rest. *)
Fixpoint take_comp (p : list Z) : list Z * list Z :=
  match p with
  | [] => ([], [])
  | c :: p' => if c =? SLASH then ([], p) else let '(w, q) := take_comp p' in (c :: w, q)
  end.

(** [while (write_len > 1 && out[write_len - 1] != '/') write_len--]. *)
Fixpoint back_to_slash (out : list Z) (n : nat) : nat :=
  match n with
  | O => O
  | S n' => if (1 <? Z.of_nat n) && negb (cget out (Z.of_nat n') =? SLASH) then back_to_slash out n' else n
  end.

Definition drop_last_comp (out : list Z) : list Z :=
  if 1 <? alen out then
    let write_len := back_to_slash out (length out) in
    take (if 1 <? Z.of_nat write_len then pred write_len else write_len) out
  else out.

Definition push_comp (out_cap : Z) (w out : list Z) : res (list Z) :=
  if (1 <? alen out) && (out_cap <=? add32 (alen out) 1) then Err KERR_INVAL
  else
    let out := if 1 <? alen out then out ++ [SLASH] else out in
    if out_cap <=? add32 (alen out) (alen w) then Err KERR_INVAL else Ok (out ++ w).

(** The loop over the components; each round consumes a character, so the
    length of the path is enough fuel. *)
Fixpoint normalize_loop (fuel : nat) (out_cap : Z) (p out : list Z) : res (list Z) :=
  match fuel, p with
  | S fuel', _ :: _ =>
      let '(w, q) := take_comp p in
      let q := skip_slashes q in
      if alen w =? 0 then normalize_loop fuel' out_cap q out
      else if (alen w =? 1) && (cget w 0 =? DOT) then normalize_loop fuel' out_cap q out
      else if (alen w =? 2) && (cget w 0 =? DOT) && (cget w 1 =? DOT) then
        normalize_loop fuel' out_cap q (drop_last_comp out)
      else try! out := push_comp out_cap w out in normalize_loop fuel' out_cap q out
  | _, _ => Ok out
  end.

Definition syscall_normalize_path (base path : list Z) (out_cap : Z) : res (list Z) :=
  if (alen path =? 0) || (out_cap <? 2) then Err KERR_INVAL
  else
    try! out :=
      if cget path 0 =? SLASH then normalize_loop (length path) out_cap (skip_slashes path) [SLASH]
      else if negb (cget base 0 =? SLASH) then Err KERR_INVAL
      else
        let base := cstr base in
        if out_cap <? add32 (alen base) 1 then Err KERR_INVAL
        else normalize_loop (length path) out_cap path base
    in Ok (if cget out 0 =? NUL then [SLASH] else out).

(** * The reference *)

(** A place is what stands between the slashes of an absolute name: the name
    [/usr/lib] is the place [usr], [lib].  A name that is not in normal form has
    empty parts: [/usr/] has one behind its last slash. *)
Definition render (cs : list (list Z)) : list Z :=
  match cs with [] => [SLASH] | _ => concat ((λ c, SLASH :: c) <$> cs) end.

(** The root has no parts. *)
Definition root_norm (cs : list (list Z)) : list (list Z) := if bool_decide (cs = [[]]) then [] else cs.

Definition parts (name : list Z) : list (list Z) := root_norm (split_slash (drop 1 name)).

(** A component: some characters other than the slash. *)
Definition comp (w : list Z) : Prop := w ≠ [] ∧ Forall (λ c, c ≠ SLASH) w.

#[export] Instance comp_dec w : Decision (comp w).
Proof. apply _. Defined.

Definition part (w : list Z) : Prop := Forall (λ c, c ≠ SLASH) w.
Definition place (cs : list (list Z)) : Prop := Forall part cs ∧ cs ≠ [[]].

Definition words (p : list Z) : list (list Z) := filter (λ w, w ≠ []) (split_slash p).

(** What is left without the last part. *)
Definition parent (cs : list (list Z)) : list (list Z) := root_norm (take (length cs - 1) cs).

Fixpoint resolve (cap : Z) (cs ws : list (list Z)) : res (list (list Z)) :=
  match ws with
  | [] => Ok cs
  | w :: ws =>
      if bool_decide (w = [DOT]) then resolve cap cs ws
      else if bool_decide (w = [DOT; DOT]) then resolve cap (parent cs) ws
      else if cap <=? alen (render (cs ++ [w])) then Err KERR_INVAL
      else resolve cap (cs ++ [w]) ws
  end.

(** * Agreement *)

Lemma render_snoc cs w : render (cs ++ [w]) = (if decide (cs = []) then [] else render cs) ++ SLASH :: w.
Proof.
  destruct cs as [|c cs]; [simpl; by rewrite app_nil_r|]. rewrite decide_False by done. unfold render. simpl.
  rewrite fmap_app, concat_app. simpl. by rewrite app_nil_r, <- app_assoc.
Qed.

Lemma render_head cs : cget (render cs) 0 = SLASH.
Proof. by destruct cs. Qed.

Lemma render_root_norm cs : render (root_norm cs) = render cs.
Proof. unfold root_norm. by case_bool_decide as H; [rewrite H|]. Qed.

Lemma root_norm_place cs : Forall part cs → place (root_norm cs).
Proof. intros H. unfold root_norm. by case_bool_decide. Qed.

Lemma place_snoc cs w : place cs → comp w → place (cs ++ [w]).
Proof.
  intros [Hc _] [Hw0 Hw]. split; [apply Forall_app; by repeat constructor|]. destruct cs as [|c [|? ?]]; [by intros [= ->]|done..].
Qed.

Lemma place_parent cs : place cs → place (parent cs).
Proof. intros [H _]. by apply root_norm_place, Forall_take. Qed.

Lemma render_length cs : place cs → 1 ≤ alen (render cs) ∧ (1 < alen (render cs) ↔ cs ≠ []).
Proof.
  intros [Hc Hr]. destruct cs as [|c cs]; [done|]. unfold render, alen. simpl. rewrite length_app.
  split; [lia|]. split; [done|]. intros _. destruct c; [|simpl; lia]. destruct cs; [done|]. simpl. lia.
Qed.

Lemma split_slash_parts l : Forall part (split_slash l).
Proof.
  induction l as [|c l IH]; cbn [split_slash]; [by repeat constructor|]. destruct (Z.eqb_spec c SLASH); [constructor; [constructor|done]|].
  destruct IH as [|w ws Hw Hws]; [by repeat constructor|]. repeat constructor; done.
Qed.

Lemma parts_place name : place (parts name).
Proof. apply root_norm_place, split_slash_parts. Qed.

Lemma render_cons c cs : render (c :: cs) = concat ((λ c, SLASH :: c) <$> c :: cs).
Proof. done. Qed.

Lemma take_comp_spec p :
  let '(w, q) := take_comp p in p = w ++ q ∧ Forall (λ c, c ≠ SLASH) w ∧ (q = [] ∨ ∃ q', q = SLASH :: q').
Proof.
  induction p as [|c p IH]; cbn [take_comp]; [split_and!; [done|constructor|by left]|].
  destruct (Z.eqb_spec c SLASH) as [->|Hc].
  - split_and!; [done|constructor|]. right. by exists p.
  - destruct (take_comp p) as [w q]. destruct IH as (-> & Hw & Hq). split_and!; [done|by constructor|done].
Qed.

Lemma split_slash_noslash w : Forall (λ c, c ≠ SLASH) w → split_slash w = [w].
Proof.
  intros Hw. induction Hw as [|c w Hc Hw IH]; simpl; [done|]. by rewrite (proj2 (Z.eqb_neq c SLASH)), IH by done.
Qed.

(** The parts of an absolute name are the place it names. *)
Lemma render_parts name : cget name 0 = SLASH → render (parts name) = name.
Proof.
  destruct name as [|c l]; [done|]. intros Hc. change (c = SLASH) in Hc. subst c. unfold parts. rewrite render_root_norm. change (render (split_slash l) = SLASH :: l).
  induction l as [|c l IH]; [done|]. assert (Hne : split_slash l ≠ []).
  { clear. destruct l as [|c l]; cbn; [done|]. destruct (c =? SLASH); [done|]. by destruct (split_slash l). }
  cbn [split_slash]. destruct (split_slash l) as [|w ws]; [done|]. rewrite render_cons in IH. cbn [fmap list_fmap concat app] in IH.
  destruct (Z.eqb_spec c SLASH) as [->|Hc]; rewrite render_cons; cbn [fmap list_fmap concat app].
  - by rewrite IH.
  - injection IH as IH. by rewrite IH.
Qed.

(** Of a name in normal form they are its components. *)
Lemma parts_render cs : Forall comp cs → parts (render cs) = cs.
Proof.
  assert (Hw : ∀ c l, part c → split_slash (c ++ SLASH :: l) = c :: split_slash l).
  { intros c l Hc. by rewrite split_slash_app, split_slash_noslash. }
  assert (H : ∀ c cs, Forall part (c :: cs) → split_slash (drop 1 (render (c :: cs))) = c :: cs).
  { intros c l. revert c. induction l as [|d l IH]; intros c [Hc Hcs]%Forall_cons; rewrite render_cons; cbn [fmap list_fmap concat].
    - rewrite app_nil_r. by apply split_slash_noslash.
    - specialize (IH d Hcs). rewrite render_cons in IH. cbn [fmap list_fmap concat] in IH. cbn [app drop] in IH |- *.
      etrans; [exact (Hw c _ Hc)|]. by f_equal. }
  intros Hc.
  destruct cs as [|c cs]; [done|]. unfold parts, root_norm. rewrite H.
  - apply Forall_cons in Hc as [[Hc _] _]. rewrite bool_decide_eq_false_2; [done|]. by intros [= ->].
  - apply (Forall_impl _ _ _ Hc). by intros ? [_ ?].
Qed.

Lemma words_skip p : words (skip_slashes p) = words p.
Proof.
  induction p as [|c p IH]; simpl; [done|]. destruct (Z.eqb_spec c SLASH) as [->|]; [|done].
  rewrite IH. unfold words at 2. simpl. by rewrite filter_cons_False by naive_solver.
Qed.

Lemma words_take p :
  let '(w, q) := take_comp p in words p = (if decide (w = []) then [] else [w]) ++ words (skip_slashes q).
Proof.
  pose proof (take_comp_spec p) as Ht. destruct (take_comp p) as [w q]. destruct Ht as (-> & Hw & Hq).
  rewrite words_skip. unfold words. destruct Hq as [->|(q' & ->)].
  - rewrite app_nil_r, split_slash_noslash by done. simpl. case_decide as Hd.
    + subst. done.
    + by rewrite filter_cons_True.
  - rewrite split_slash_app, filter_app, (split_slash_noslash w) by done. simpl.
    rewrite (filter_cons_False _ [] (split_slash q')) by naive_solver. f_equal.
    case_decide as Hd; [subst; by rewrite filter_cons_False by naive_solver|by rewrite filter_cons_True].
Qed.

Lemma back_to_slash_spec a w n :
  Forall (λ c, c ≠ SLASH) w → (length a < n ≤ length (a ++ SLASH :: w))%nat →
  back_to_slash (a ++ SLASH :: w) n = S (length a).
Proof.
  intros Hw. rewrite length_app. simpl. induction n as [|n IH]; [lia|]. intros Hn. cbn [back_to_slash].
  destruct (decide (n = length a)) as [->|Hne].
  - assert (E : cget (a ++ SLASH :: w) (Z.of_nat (length a)) = SLASH).
    { unfold cget. rewrite Nat2Z.id, lookup_app_r, Nat.sub_diag by lia. done. }
    rewrite E, Z.eqb_refl. simpl. rewrite andb_false_r. done.
  - rewrite (proj2 (Z.ltb_lt _ _)) by lia.
    assert (E : cget (a ++ SLASH :: w) (Z.of_nat n) ≠ SLASH).
    { unfold cget. rewrite Nat2Z.id, lookup_app_r by lia. replace (n - length a)%nat with (S (n - length a - 1)) by lia.
      simpl. destruct (w !! (n - length a - 1)%nat) as [x|] eqn:Ex; [|done]. simpl.
      rewrite Forall_forall in Hw. apply Hw. by apply list_elem_of_lookup_2 in Ex. }
    rewrite (proj2 (Z.eqb_neq _ _) E). apply IH. lia.
Qed.

Lemma drop_last_render cs : place cs → drop_last_comp (render cs) = render (parent cs).
Proof.
  intros Hp. unfold parent. rewrite render_root_norm. destruct cs as [|w cs _] using rev_ind; [done|].
  rewrite length_app. simpl. rewrite Nat.add_sub, take_app_length. unfold drop_last_comp.
  assert (Hl : 1 < alen (render (cs ++ [w]))) by (apply render_length; [done|]; by destruct cs).
  destruct Hp as [[Hc [Hw _]%Forall_cons]%Forall_app _].
  rewrite (proj2 (Z.ltb_lt _ _) Hl), render_snoc. set (a := if decide (cs = []) then [] else render cs).
  rewrite back_to_slash_spec by (done || (rewrite length_app; simpl; lia)). cbn [pred].
  destruct (decide (cs = [])) as [->|Hne]; [done|]. subst a.
  assert (Hr : (1 ≤ length (render cs))%nat) by (destruct cs; [done|rewrite render_cons; simpl; lia]).
  rewrite (proj2 (Z.ltb_lt _ _)) by lia. by rewrite take_app_length.
Qed.

Lemma push_render cap w cs :
  place cs → comp w → 2 ≤ cap → alen (render cs) + alen w + 1 < two32 →
  push_comp cap w (render cs) =
    if cap <=? alen (render (cs ++ [w])) then Err KERR_INVAL else Ok (render (cs ++ [w])).
Proof.
  intros Hc [Hw0 _] Hcap Hb. pose proof (alen_nonneg w). destruct (render_length cs Hc) as [Hl1 Hl2].
  assert (Hw1 : 1 ≤ alen w) by (destruct w; [done|unfold alen; simpl; lia]).
  unfold push_comp. rewrite render_snoc. destruct (decide (cs = [])) as [->|Hne].
  - change (alen (render [])) with 1 in *. change (1 <? 1) with false. cbv beta iota. cbn [andb].
    change (alen (render [])) with 1. rewrite add32_small by lia.
    replace (alen ([] ++ SLASH :: w)) with (1 + alen w) by (unfold alen; simpl; lia). done.
  - apply Hl2 in Hne as Hgt. rewrite (proj2 (Z.ltb_lt _ _) Hgt). cbn [andb]. rewrite add32_small by lia.
    assert (E1 : alen (render cs ++ [SLASH]) = alen (render cs) + 1) by (by rewrite alen_app).
    assert (E2 : alen (render cs ++ SLASH :: w) = alen (render cs) + 1 + alen w).
    { rewrite alen_app. unfold alen. simpl. lia. }
    rewrite E2. destruct (Z.leb_spec cap (alen (render cs) + 1)).
    { by rewrite (proj2 (Z.leb_le _ _)) by lia. }
    rewrite E1, add32_small by lia. by rewrite <- app_assoc.
Qed.

Lemma render_parent cs : alen (render (parent cs)) ≤ alen (render cs).
Proof.
  unfold parent. rewrite render_root_norm. destruct cs as [|x cs _] using rev_ind; [done|]. rewrite length_app. simpl.
  rewrite Nat.add_sub, take_app_length, render_snoc. destruct (decide (cs = [])) as [->|].
  - unfold alen. simpl. lia.
  - rewrite alen_app. pose proof (alen_nonneg (SLASH :: x)). lia.
Qed.

Lemma parent_comps cs : Forall comp cs → Forall comp (parent cs).
Proof. intros H. unfold parent, root_norm. case_bool_decide; [constructor|by apply Forall_take]. Qed.

Lemma resolve_fits cap cs ws cs' :
  2 ≤ cap → alen (render cs) < cap → place cs → Forall comp ws → resolve cap cs ws = Ok cs' →
  place cs' ∧ alen (render cs') < cap ∧ (Forall comp cs → Forall comp cs').
Proof.
  intros Hcap. revert cs. induction ws as [|w ws IH]; intros cs Hl Hc Hws; cbn [resolve]; [by intros [= <-]|].
  apply Forall_cons in Hws as [Hw Hws]. repeat case_bool_decide; [by apply IH| |].
  - intros E. pose proof (render_parent cs). apply IH in E as (? & ? & Hf); [|lia|by apply place_parent|done].
    split_and!; [done..|]. intros Hcs. by apply Hf, parent_comps.
  - destruct (Z.leb_spec cap (alen (render (cs ++ [w])))); [done|]. intros E.
    apply IH in E as (? & ? & Hf); [|done|by apply place_snoc|done]. split_and!; [done..|]. intros Hcs. apply Hf, Forall_app.
    split; [done|]. by constructor.
Qed.

Lemma resolve_error cap cs ws e : resolve cap cs ws = Err e → e = KERR_INVAL.
Proof.
  revert cs. induction ws as [|w ws IH]; intros cs; cbn [resolve]; [done|].
  repeat case_bool_decide; [by apply IH..|]. case_match; [by intros [= <-]|by apply IH].
Qed.

Lemma cget_cstr_head b : cstr b ≠ [] → cget b 0 = cget (cstr b) 0.
Proof. destruct b as [|c b]; [done|]. cbn [cstr]. by destruct (c =? NUL). Qed.

Lemma words_comp p : Forall comp (words p).
Proof.
  unfold words. apply Forall_forall. intros w [Hw Hin]%list_elem_of_filter. split; [done|].
  revert w Hin Hw. induction p as [|c p IH]; intros w; simpl.
  - intros ->%list_elem_of_singleton. done.
  - destruct (Z.eqb_spec c SLASH).
    + intros [->|?]%elem_of_cons; [done|by apply IH].
    + destruct (split_slash p) as [|x xs] eqn:E; [by intros ->%list_elem_of_singleton; constructor|].
      intros [->|Hin]%elem_of_cons Hw.
      * constructor; [done|]. destruct (decide (x = [])) as [->|]; [constructor|]. apply IH; [by left|done].
      * apply IH; [by right|done].
Qed.

Lemma alen_zero (w : list Z) : (alen w =? 0) = bool_decide (w = []).
Proof. by destruct w. Qed.

Lemma is_dot w : (alen w =? 1) && (cget w 0 =? DOT) = bool_decide (w = [DOT]).
Proof.
  destruct w as [|x [|y w]]; [done| |].
  - change (cget [x] 0) with x. change (alen [x] =? 1) with true. cbn [andb].
    destruct (Z.eqb_spec x DOT); case_bool_decide; congruence.
  - rewrite bool_decide_eq_false_2 by done. rewrite (proj2 (Z.eqb_neq _ _)); [done|]. unfold alen. simpl. lia.
Qed.

Lemma is_dotdot w : (alen w =? 2) && (cget w 0 =? DOT) && (cget w 1 =? DOT) = bool_decide (w = [DOT; DOT]).
Proof.
  destruct w as [|x [|y [|z w]]]; [done|by rewrite bool_decide_eq_false_2 by done| |].
  - change (cget [x; y] 0) with x. change (cget [x; y] 1) with y. change (alen [x; y] =? 2) with true. cbn [andb].
    destruct (Z.eqb_spec x DOT), (Z.eqb_spec y DOT); case_bool_decide; cbn [andb]; congruence.
  - rewrite bool_decide_eq_false_2 by done. rewrite (proj2 (Z.eqb_neq _ _)); [done|]. unfold alen. simpl. lia.
Qed.

Lemma normalize_loop_spec fuel cap p cs :
  (length p ≤ fuel)%nat → 2 ≤ cap → cap + alen p + 1 < two32 → place cs → alen (render cs) < cap →
  normalize_loop fuel cap p (render cs) =
    try! cs' := resolve cap cs (words p) in Ok (render cs').
Proof.
  revert p cs. induction fuel as [|fuel IH]; intros p cs Hf Hcap Hb Hc Hl.
  { destruct p; [done|simpl in Hf; lia]. }
  destruct p as [|c p]; [done|]. cbn [normalize_loop]. remember (c :: p) as l eqn:El.
  assert (Hl0 : (length l = S (length p))%nat) by (by subst).
  pose proof (take_comp_spec l) as Ht. pose proof (words_take l) as Hwt. pose proof (words_comp l) as Hwc.
  destruct (take_comp l) as [w q]. destruct Ht as (Hlq & _ & Hq). rewrite Hwt in Hwc |- *.
  assert (Hlen : (length l = length w + length q)%nat) by (by rewrite Hlq, length_app).
  assert (Hsk : (length (skip_slashes q) ≤ fuel)%nat).
  { pose proof (skip_length q). destruct Hq as [->|(q' & ->)]; simpl in *; [lia|]. pose proof (skip_length q'). lia. }
  assert (Hsb : cap + alen (skip_slashes q) + 1 < two32 ∧ alen w ≤ alen l).
  { pose proof (skip_length q). unfold alen in *. lia. }
  rewrite (alen_zero w). destruct (decide (w = [])) as [Hw0|Hw0].
  { rewrite bool_decide_eq_true_2 by done. cbn [app]. apply IH; (done || lia). }
  rewrite bool_decide_eq_false_2 by done. cbn [app resolve] in Hwc |- *.
  apply Forall_cons in Hwc as [Hw _].
  rewrite (is_dot w), (is_dotdot w). destruct (bool_decide_reflect (w = [DOT])) as [->|Hd1]; [apply IH; (done || lia)|].
  destruct (bool_decide_reflect (w = [DOT; DOT])) as [->|Hd2].
  - rewrite drop_last_render by done. pose proof (render_parent cs).
    apply IH; [lia|done|lia|by apply place_parent|lia].
  - rewrite push_render by (done || lia). destruct (Z.leb_spec cap (alen (render (cs ++ [w])))); [done|].
    apply IH; [lia|done|lia|by apply place_snoc|done].
Qed.

(** C34: a path is followed component by component from the root or, if it does
    not begin with a slash, from the working directory, whatever absolute name that
    is: empty components and [.] are skipped, and [..] drops what stands behind the
    last slash (of a working directory that ends in a slash, nothing but that
    slash) and stops at the root.  The call fails exactly when the path is empty, a
    relative path has no absolute working directory that fits the buffer, or a name
    on the way does not fit.  The result is an absolute name that fits, and in
    normal form if the working directory is. *)
Theorem normalize_path_spec base path cap :
  alen (cstr base) + 1 < two32 → 2 ≤ cap → cap + alen path + 1 < two32 →
  let absolute := cget path 0 =? SLASH in
  let start := if absolute then [] else parts (cstr base) in
  let r := if (alen path =? 0) || negb absolute && (negb (cget base 0 =? SLASH) || (cap <=? alen (cstr base))) then Err KERR_INVAL
           else resolve cap start (words path) in
  syscall_normalize_path base path cap = (try! cs := r in Ok (render cs)) ∧
  match r with
  | Ok cs => place cs ∧ alen (render cs) < cap ∧ (Forall comp start → Forall comp cs)
  | Err e => e = KERR_INVAL
  end.
Proof.
  intros Hbl Hcap Hb absolute start r.
  assert (Hbase : cget base 0 = SLASH → render (parts (cstr base)) = cstr base).
  { intros H. apply render_parts. rewrite <- H. symmetry. apply cget_cstr_head. destruct base as [|c b]; [done|]. cbn [cstr].
    change (c = SLASH) in H. by subst c. }
  split.
  - unfold syscall_normalize_path, r, start, absolute. destruct (alen path =? 0); cbn [orb]; [done|].
    rewrite (proj2 (Z.ltb_ge _ _)) by lia. pose proof (skip_length path) as Hs.
    assert (Hn : ∀ cs, (if cget (render cs) 0 =? NUL then [SLASH] else render cs) = render cs) by (intros; by rewrite render_head).
    destruct (cget path 0 =? SLASH); cbn [negb andb].
    + change [SLASH] with (render []).
      rewrite normalize_loop_spec; [|lia|done|unfold alen in *; lia|split; [constructor|done]|change (alen (render [])) with 1; lia]. rewrite words_skip.
      destruct (resolve cap [] (words path)); [by rewrite Hn|done].
    + destruct (Z.eqb_spec (cget base 0) SLASH) as [Hb0|Hb0]; cbn [negb orb]; [|done]. specialize (Hbase Hb0).
      rewrite add32_small by (pose proof (alen_nonneg (cstr base)); lia).
      destruct (Z.ltb_spec cap (alen (cstr base) + 1)); [by rewrite (proj2 (Z.leb_le _ _)) by lia|].
      rewrite (proj2 (Z.leb_gt _ _)) by lia. rewrite <- Hbase at 1.
      rewrite normalize_loop_spec; [|lia|done|done|apply parts_place|rewrite Hbase; lia].
      destruct (resolve cap (parts (cstr base)) (words path)); [by rewrite Hn|done].
  - subst r. destruct (_ || _) eqn:Eg; [done|]. apply orb_false_iff in Eg as [_ Eg].
    assert (place start ∧ alen (render start) < cap) as [Hp Hl].
    { subst start. destruct absolute; [split; [by split|change (alen (render [])) with 1; lia]|]. cbn [negb andb] in Eg.
      apply orb_false_iff in Eg as [Hb0%negb_false_iff%Z.eqb_eq Hl%Z.leb_gt]. split; [apply parts_place|by rewrite Hbase]. }
    destruct (resolve cap start (words path)) as [cs|e] eqn:Er; [by apply (resolve_fits cap start (words path)); [..|apply words_comp|]|].
    by eapply resolve_error.
Qed.

(** The working directory [/usr/lib]. *)
Definition demo_cwd : list (list Z) := [[117; 115; 114]; [108; 105; 98]].

Lemma normalize_path_spec_witness :
  syscall_normalize_path (render demo_cwd ++ [NUL; 7]) [46; 46; 47; 46; 47; 47; 98; 47] 96 =
    Ok (render [[117; 115; 114]; [98]]).
Proof.
  destruct (normalize_path_spec (render demo_cwd ++ [NUL; 7]) [46; 46; 47; 46; 47; 47; 98; 47] 96
    ltac:(reflexivity) ltac:(lia) ltac:(reflexivity)) as [H _].
  exact H.
Defined.

(** A working directory that is not in normal form breaks [..]: from [/usr/]
    it leads to [/usr]. *)
Lemma dotdot_after_slash :
  syscall_normalize_path [47; 117; 115; 114; 47; NUL] [46; 46] 96 = Ok [47; 117; 115; 114].
Proof. reflexivity. Qed.
