(* ===== verification/CmdLine.v ===== *)
(** kernel/usermode.c: command lines.

    [usermode_parse_cmdline_arg] cuts a command line into arguments, with
    backslashes, single and double quotes.  Its position in the line is the
    rest of the line.  [cmdline] is the grammar of command lines with the
    arguments they stand for; the parser is proved to be exactly its decision
    procedure. *)

From S2P Require Import Prelude Bytes.

Definition USERMODE_CMDLINE_MAX : Z := 128.
Definition USERMODE_ARG_MAX : Z := 16.

Definition BACKSLASH : Z := 92.
Definition SQUOTE : Z := 39.
Definition DQUOTE : Z := 34.

Definition usermode_is_space (c : Z) : bool := (c =? 32) || (c =? 9) || (c =? 10) || (c =? 13).

(** [while (idx < cmdline_len && usermode_is_space(cmdline[idx])) idx++]. *)
Fixpoint skip_spaces (p : list Z) : list Z :=
  match p with
  | [] => []
  | c :: p' => if usermode_is_space c then skip_spaces p' else p
  end.

(** The loop: the argument and the rest of the line. *)
Fixpoint arg_loop (dst_cap : Z) (p out : list Z) (in_single in_double : bool) : res (list Z * list Z) :=
  match p with
  | [] => if in_single || in_double then Err KERR_INVAL else Ok (out, p)
  | ch :: p' =>
      if negb in_single && (ch =? BACKSLASH) then
        match p' with
        | [] => Err KERR_INVAL
        | c :: p'' =>
            if dst_cap <=? add32 (alen out) 1 then Err KERR_NOMEM
            else arg_loop dst_cap p'' (out ++ [c]) in_single in_double
        end
      else if negb in_double && (ch =? SQUOTE) then arg_loop dst_cap p' out (negb in_single) in_double
      else if negb in_single && (ch =? DQUOTE) then arg_loop dst_cap p' out in_single (negb in_double)
      else if negb in_single && negb in_double && usermode_is_space ch then Ok (out, p)
      else if dst_cap <=? add32 (alen out) 1 then Err KERR_NOMEM
      else arg_loop dst_cap p' (out ++ [ch]) in_single in_double
  end.

(** [Ok None] is the return value 1: nothing but blanks is left. *)
Definition usermode_parse_cmdline_arg (p : list Z) (dst_cap : Z) : res (option (list Z * list Z)) :=
  if dst_cap =? 0 then Err KERR_INVAL
  else
    match skip_spaces p with
    | [] => Ok None
    | p => try! r := arg_loop dst_cap p [] false false in Ok (Some r)
    end.

(** The loop of [usermode_prepare_child_start_stack]: every argument consumes a
    character, so the length of the line is enough fuel. *)
Fixpoint args_loop (fuel : nat) (p : list Z) (argc parsed_used : Z) : res (list (list Z)) :=
  match fuel, p with
  | S fuel', _ :: _ =>
      if USERMODE_ARG_MAX <=? argc then Err KERR_NOMEM
      else if USERMODE_CMDLINE_MAX <=? parsed_used then Err KERR_NOMEM
      else
        try! r := usermode_parse_cmdline_arg p (sub32 USERMODE_CMDLINE_MAX parsed_used) in
        match r with
        | None => Ok []
        | Some (arg, p) =>
            try! args := args_loop fuel' p (argc + 1) (add32 parsed_used (add32 (alen arg) 1)) in Ok (arg :: args)
        end
  | _, _ => Ok []
  end.

(** The arguments after [argv[0]]. *)
Definition parse_args (cmdline : list Z) : res (list (list Z)) := args_loop (length cmdline) cmdline 1 0.

(** * The grammar

    [piece s m]: the characters [s] are a part of a word that stands for [m]. *)
Inductive dquoted : list Z → list Z → Prop :=
  | DEnd : dquoted [] []
  | DChar c s m : c ≠ BACKSLASH → c ≠ DQUOTE → dquoted s m → dquoted (c :: s) (c :: m)
  | DEsc c s m : dquoted s m → dquoted (BACKSLASH :: c :: s) (c :: m).

Inductive piece : list Z → list Z → Prop :=
  | PChar c : c ≠ BACKSLASH → c ≠ SQUOTE → c ≠ DQUOTE → usermode_is_space c = false → piece [c] [c]
  | PEsc c : piece [BACKSLASH; c] [c]
  | PSingle m : SQUOTE ∉ m → piece (SQUOTE :: m ++ [SQUOTE]) m
  | PDouble s m : dquoted s m → piece (DQUOTE :: s ++ [DQUOTE]) m.

Inductive word : list Z → list Z → Prop :=
  | WEnd : word [] []
  | WPiece s m s' m' : piece s m → word s' m' → word (s ++ s') (m ++ m').

Definition blanks (p : list Z) : Prop := Forall (λ c, usermode_is_space c = true) p.

(** What may follow a word. *)
Definition ends_word (p : list Z) : Prop := match p with [] => True | c :: _ => usermode_is_space c = true end.

(** [cmdline n p args]: the line [p] stands for [args], at most [n] words; when
    the [n] words are used up, nothing may follow. *)
Inductive cmdline : nat → list Z → list (list Z) → Prop :=
  | CEnd n : cmdline n [] []
  | CBlank n sp : blanks sp → cmdline (S n) sp []
  | CWord n sp s m p args :
      blanks sp → s ≠ [] → word s m → ends_word p → cmdline n p args → cmdline (S n) (sp ++ s ++ p) (m :: args).

(** * Completeness *)

Lemma skip_blanks_word sp s m p : blanks sp → s ≠ [] → word s m → skip_spaces (sp ++ s ++ p) = s ++ p.
Proof.
  intros Hsp Hs Hw. induction Hsp as [|c sp Hc Hsp IH]; simpl; [|by rewrite Hc].
  destruct Hw as [|s m s' m' Hp Hw]; [done|].
  assert (E : ∃ c r, s = c :: r ∧ usermode_is_space c = false).
  { destruct Hp as [c ? ? ? ?|c|m Hm|s m Hd]; eexists _, _; split; done. }
  destruct E as (c & r & -> & Hc). simpl. by rewrite Hc.
Qed.

Lemma skip_all sp : blanks sp → skip_spaces sp = [].
Proof. intros Hsp. induction Hsp as [|c sp Hc Hsp IH]; simpl; [done|]. by rewrite Hc. Qed.

Section complete.
Context (cap : Z) (Hcap : cap < two32).

Lemma room (out m : list Z) : alen out + alen m < cap → m ≠ [] → (cap <=? add32 (alen out) 1) = false.
Proof using Hcap.
  intros Hl Hm. pose proof (alen_nonneg out). assert (1 ≤ alen m) by (destruct m; [done|unfold alen; simpl; lia]).
  rewrite add32_small by lia. apply Z.leb_gt. lia.
Qed.

Lemma snoc_len (out m : list Z) c : alen (out ++ [c]) + alen m = alen out + alen (c :: m).
Proof using. rewrite alen_app. unfold alen. simpl. lia. Qed.

Lemma single_loop m out p :
  SQUOTE ∉ m → alen out + alen m < cap → arg_loop cap (m ++ SQUOTE :: p) out true false = arg_loop cap p (out ++ m) false false.
Proof using Hcap.
  revert out. induction m as [|c m IH]; intros out Hm Hl.
  - rewrite app_nil_r. done.
  - apply not_elem_of_cons in Hm as [Hc Hm]. cbn [app arg_loop negb andb].
    rewrite (proj2 (Z.eqb_neq c SQUOTE)) by done. rewrite (room out (c :: m)) by done.
    rewrite IH; [by rewrite <- app_assoc|done|by rewrite snoc_len].
Qed.

Lemma double_loop s m out p :
  dquoted s m → alen out + alen m < cap → arg_loop cap (s ++ DQUOTE :: p) out false true = arg_loop cap p (out ++ m) false false.
Proof using Hcap.
  intros Hd. revert out. induction Hd as [|c s m H1 H2 Hd IH|c s m Hd IH]; intros out Hl.
  - rewrite app_nil_r. done.
  - cbn [app arg_loop negb andb]. rewrite (proj2 (Z.eqb_neq c BACKSLASH)), (proj2 (Z.eqb_neq c DQUOTE)) by done.
    rewrite (room out (c :: m)) by done. rewrite IH; [by rewrite <- app_assoc|by rewrite snoc_len].
  - cbn [app arg_loop negb andb]. rewrite Z.eqb_refl, (room out (c :: m)) by done.
    rewrite IH; [by rewrite <- app_assoc|by rewrite snoc_len].
Qed.

Lemma piece_loop s m out p :
  piece s m → alen out + alen m < cap → arg_loop cap (s ++ p) out false false = arg_loop cap p (out ++ m) false false.
Proof using Hcap.
  intros Hp Hl. destruct Hp as [c H1 H2 H3 H4|c|m Hm|s m Hd].
  - cbn [app arg_loop negb andb]. rewrite !(proj2 (Z.eqb_neq c _)), H4, (room out [c]) by done. done.
  - cbn [app arg_loop negb andb]. rewrite Z.eqb_refl, (room out [c]) by done. done.
  - cbn [app arg_loop negb andb]. change (SQUOTE =? BACKSLASH) with false. rewrite Z.eqb_refl. cbn [negb].
    rewrite <- app_assoc. by apply single_loop.
  - cbn [app arg_loop negb andb]. change (DQUOTE =? BACKSLASH) with false. change (DQUOTE =? SQUOTE) with false.
    rewrite Z.eqb_refl. cbn [negb]. rewrite <- app_assoc. by apply double_loop.
Qed.

Lemma word_loop s m out p :
  word s m → ends_word p → alen out + alen m < cap → arg_loop cap (s ++ p) out false false = Ok (out ++ m, p).
Proof using Hcap.
  intros Hw He. revert out. induction Hw as [|s m s' m' Hp Hw IH]; intros out Hl.
  - rewrite app_nil_r. destruct p as [|c p]; [done|]. simpl in He. cbn [app arg_loop negb andb].
    assert (c ≠ BACKSLASH ∧ c ≠ SQUOTE ∧ c ≠ DQUOTE) as (H1 & H2 & H3) by (split_and!; by intros ->).
    by rewrite !(proj2 (Z.eqb_neq c _)), He by done.
  - rewrite alen_app in Hl. pose proof (alen_nonneg m'). rewrite <- app_assoc, (piece_loop s m) by (done || lia).
    rewrite IH by (rewrite alen_app; lia). by rewrite app_assoc.
Qed.
End complete.

Lemma piece_length s m : piece s m → alen m ≤ alen s ∧ s ≠ [].
Proof.
  assert (Hd : ∀ s m, dquoted s m → alen m ≤ alen s) by (intros ? ? Hd; induction Hd; unfold alen in *; simpl; lia).
  intros [c|c|w|s' w H]; split; try done; try (apply Hd in H); unfold alen in *; simpl; rewrite ?length_app; simpl; lia.
Qed.

Lemma word_length s m : word s m → alen m ≤ alen s.
Proof.
  intros Hw. induction Hw as [|s m s' m' Hp Hw IH]; [done|]. apply piece_length in Hp as [Hp _]. rewrite !alen_app. lia.
Qed.

(** The position after a word: what was used and what is left still fits the
    buffer, because words are separated. *)
Definition roomy (used : Z) (p : list Z) : Prop :=
  0 ≤ used ∧ (used + alen p < USERMODE_CMDLINE_MAX ∨ used + alen p = USERMODE_CMDLINE_MAX ∧ p ≠ [] ∧ ends_word p).

Lemma roomy_word used sp s m p :
  roomy used (sp ++ s ++ p) → blanks sp → s ≠ [] → word s m → ends_word p →
  used + alen m < USERMODE_CMDLINE_MAX ∧ (p = [] ∨ roomy (used + (alen m + 1)) p).
Proof.
  intros [Hu Hr] Hsp Hs Hw He. pose proof (word_length s m Hw). rewrite !alen_app in Hr.
  pose proof (alen_nonneg sp). pose proof (alen_nonneg m). pose proof (alen_nonneg p).
  assert (Hb : used + alen s + alen p < USERMODE_CMDLINE_MAX).
  { destruct Hr as [Hr|(Hr & _ & Hb)]; [lia|]. destruct sp as [|c sp]; [|unfold alen in *; simpl in *; lia].
    exfalso. clear Hr. destruct Hw as [|s m s' m' Hp Hw]; [done|].
    destruct Hp as [c ? ? ? Hc|c|w Hw'|s w Hd]; simpl in Hb; try done. congruence. }
  split; [lia|]. destruct (decide (p = [])) as [->|Hp]; [by left|]. right. split; [lia|]. 
  destruct (decide (used + (alen m + 1) + alen p = USERMODE_CMDLINE_MAX)); [by right|left; lia].
Qed.

Lemma parse_word sp s m p cap :
  0 < cap < two32 → blanks sp → s ≠ [] → word s m → ends_word p → alen m < cap →
  usermode_parse_cmdline_arg (sp ++ s ++ p) cap = Ok (Some (m, p)).
Proof.
  intros Hc Hsp Hs Hw He Hl. unfold usermode_parse_cmdline_arg. rewrite (proj2 (Z.eqb_neq cap 0)) by lia.
  rewrite (skip_blanks_word sp s m) by done. destruct (s ++ p) as [|c r] eqn:E.
  { by apply app_eq_nil in E as [-> _]. }
  rewrite <- E, (word_loop cap ltac:(lia) s m [] p) by (done || lia). done.
Qed.

Lemma args_complete n p args :
  cmdline n p args → ∀ fuel argc used, (length p ≤ fuel)%nat → argc + Z.of_nat n = USERMODE_ARG_MAX →
  p = [] ∨ roomy used p → args_loop fuel p argc used = Ok args.
Proof.
  intros Hcl. induction Hcl as [n|n sp Hsp|n sp s m p args Hsp Hs Hw He Hcl IH]; intros fuel argc used Hf Hn Hr.
  - by destruct fuel.
  - destruct fuel as [|fuel]; [by destruct sp|]. destruct sp as [|c sp]; [done|]. cbn [args_loop].
    rewrite (proj2 (Z.leb_gt _ _)) by lia. destruct Hr as [|[Hu Hr]]; [done|].
    assert (1 ≤ alen (c :: sp)) by (unfold alen; simpl; lia).
    rewrite (proj2 (Z.leb_gt _ _)) by lia. unfold usermode_parse_cmdline_arg.
    rewrite sub32_small by (unfold USERMODE_CMDLINE_MAX, two32 in *; lia).
    rewrite (proj2 (Z.eqb_neq _ 0)) by lia. by rewrite skip_all.
  - destruct Hr as [Hr|Hr]; [apply app_eq_nil in Hr as [_ Hr]; by apply app_eq_nil in Hr as [? _]|].
    destruct (roomy_word used sp s m p Hr Hsp Hs Hw He) as [Hm Hr'].
    assert (Hlen : (1 ≤ length s)%nat) by (destruct s; [done|simpl; lia]).
    rewrite !length_app in Hf. destruct fuel as [|fuel]; [lia|]. destruct Hr as [Hu _].
    destruct (sp ++ s ++ p) as [|c l] eqn:E.
    { apply app_eq_nil in E as [_ E]. by apply app_eq_nil in E as [? _]. }
    cbn [args_loop]. rewrite <- E. pose proof (alen_nonneg m).
    rewrite (proj2 (Z.leb_gt _ argc)) by lia. rewrite (proj2 (Z.leb_gt _ used)) by lia.
    assert (Hub : USERMODE_CMDLINE_MAX + 1 < two32) by done.
    rewrite sub32_small by lia. rewrite (parse_word sp s m p) by (done || lia).
    rewrite (add32_small (alen m) 1), add32_small by lia. rewrite (IH fuel); [done|lia|lia|done].
Qed.

(** * Soundness *)

Definition loop_sound (p out o q : list Z) (in_single in_double : bool) : Prop :=
  ∃ a am s m, word s m ∧ ends_word q ∧ o = out ++ am ++ m ∧
    match in_single, in_double with
    | true, _ => p = a ++ SQUOTE :: s ++ q ∧ SQUOTE ∉ a ∧ am = a
    | false, true => p = a ++ DQUOTE :: s ++ q ∧ dquoted a am
    | false, false => p = s ++ q ∧ am = []
    end.

Lemma arg_loop_sound cap p out sg db o q :
  sg && db = false → arg_loop cap p out sg db = Ok (o, q) → loop_sound p out o q sg db.
Proof.
  remember (length p) as n eqn:Hn. revert p Hn out sg db. induction (lt_wf n) as [n _ IH]. intros p -> out sg db Hm.
  destruct p as [|ch p]; cbn [arg_loop].
  { destruct sg, db; cbn [orb]; try done. intros [= <- <-]. exists [], [], [], []. split_and!; try done; [constructor|by rewrite app_nil_r]. }
  destruct (negb sg && (ch =? BACKSLASH)) eqn:E1.
  { apply andb_true_iff in E1 as [Hsg%negb_true_iff Hch%Z.eqb_eq]. subst sg ch. destruct p as [|c p]; [done|].
    case_match; [done|]. intros Hr. apply (IH (length p) ltac:(simpl; lia) p eq_refl) in Hr; [|done].
    destruct Hr as (a & am & s & m & Hw & He & -> & Hr). destruct db.
    - destruct Hr as (-> & Hd). exists (BACKSLASH :: c :: a), (c :: am), s, m.
      split_and!; [done|done|by rewrite <- app_assoc|done|by constructor].
    - destruct Hr as (-> & ->). exists [], [], ([BACKSLASH; c] ++ s), ([c] ++ m).
      split_and!; [|done|by rewrite <- app_assoc|done|done]. constructor; [constructor|done]. }
  destruct (negb db && (ch =? SQUOTE)) eqn:E2.
  { apply andb_true_iff in E2 as [Hdb%negb_true_iff Hch%Z.eqb_eq]. subst db ch.
    intros Hr. apply (IH (length p) ltac:(simpl; lia) p eq_refl) in Hr; [|by rewrite andb_false_r].
    destruct Hr as (a & am & s & m & Hw & He & -> & Hr). destruct sg; cbn [negb] in Hr.
    - destruct Hr as (-> & ->). exists [], [], s, m. split_and!; try done. set_solver.
    - destruct Hr as (-> & Ha & ->). exists [], [], ((SQUOTE :: a ++ [SQUOTE]) ++ s), (a ++ m).
      split_and!; try done; [by constructor; [constructor|]|]. cbn [app]. by rewrite <- !app_assoc. }
  destruct (negb sg && (ch =? DQUOTE)) eqn:E3.
  { apply andb_true_iff in E3 as [Hsg%negb_true_iff Hch%Z.eqb_eq]. subst sg ch.
    intros Hr. apply (IH (length p) ltac:(simpl; lia) p eq_refl) in Hr; [|done].
    destruct Hr as (a & am & s & m & Hw & He & -> & Hr). destruct db; cbn [negb] in Hr.
    - destruct Hr as (-> & ->). exists [], [], s, m. split_and!; try done. constructor.
    - destruct Hr as (-> & Hd). exists [], [], ((DQUOTE :: a ++ [DQUOTE]) ++ s), (am ++ m).
      split_and!; try done; [by constructor; [constructor|]|]. cbn [app]. by rewrite <- !app_assoc. }
  destruct (negb sg && negb db && usermode_is_space ch) eqn:E4.
  { apply andb_true_iff in E4 as [[Hsg%negb_true_iff Hdb%negb_true_iff]%andb_true_iff Hsp]. subst sg db.
    intros [= <- <-]. exists [], [], [], []. split_and!; try done; [constructor|by rewrite app_nil_r]. }
  case_match; [done|]. intros Hr. apply (IH (length p) ltac:(simpl; lia) p eq_refl) in Hr; [|done].
  destruct Hr as (a & am & s & m & Hw & He & -> & Hr). destruct sg, db; [done| | |]; cbn [negb andb] in *.
  - apply Z.eqb_neq in E2. destruct Hr as (-> & Ha & ->). exists (ch :: a), (ch :: a), s, m.
    split_and!; [done|done|by rewrite <- app_assoc|done|set_solver|done].
  - apply Z.eqb_neq in E1, E3. destruct Hr as (-> & Hd). exists (ch :: a), (ch :: am), s, m.
    split_and!; [done|done|by rewrite <- app_assoc|done|by constructor].
  - apply Z.eqb_neq in E1, E2, E3. destruct Hr as (-> & ->). exists [], [], ([ch] ++ s), ([ch] ++ m).
    split_and!; [|done|by rewrite <- app_assoc|done|done]. by constructor; [constructor|].
Qed.

Lemma skip_spaces_split p :
  ∃ sp, p = sp ++ skip_spaces p ∧ blanks sp ∧ (skip_spaces p = [] ∨ ¬ ends_word (skip_spaces p)).
Proof.
  induction p as [|c p (sp & Hp & Hsp & Hn)]; simpl; [by exists []; split_and!; [|constructor|left]|].
  destruct (usermode_is_space c) eqn:E.
  - exists (c :: sp). split_and!; [by simpl; f_equal|by constructor|done].
  - exists []. split_and!; [done|constructor|right]. simpl. congruence.
Qed.

Lemma args_sound fuel p argc used n args :
  (length p ≤ fuel)%nat → argc + Z.of_nat n = USERMODE_ARG_MAX →
  args_loop fuel p argc used = Ok args → cmdline n p args.
Proof.
  revert p argc used n args. induction fuel as [|fuel IH]; intros p argc used n args Hf Hn.
  { destruct p; [|simpl in Hf; lia]. intros [= <-]. constructor. }
  destruct p as [|c l]; cbn [args_loop]; [intros [= <-]; constructor|]. remember (c :: l) as p eqn:Ep.
  destruct (Z.leb_spec USERMODE_ARG_MAX argc); [done|]. case_match; [done|].
  destruct n as [|n]; [lia|]. unfold usermode_parse_cmdline_arg. destruct (sub32 _ _ =? 0); [done|].
  destruct (skip_spaces_split p) as (sp & Hp & Hsp & Hh). destruct (skip_spaces p) as [|d r] eqn:Es.
  { intros [= <-]. rewrite app_nil_r in Hp. rewrite Hp. by constructor. }
  destruct (arg_loop _ (d :: r) [] false false) as [[m q]|e] eqn:Ea; [|done].
  destruct (args_loop fuel q _ _) as [args'|e] eqn:Er; [|done]. intros [= <-].
  apply arg_loop_sound in Ea as (a & am & s & m' & Hw & He & Hm & Hpq & ->); [|done]. cbn [app] in Hm. subst m'.
  assert (Hs : s ≠ []).
  { intros ->. cbn [app] in Hpq. destruct Hh as [?|Hh]; [done|]. apply Hh. by rewrite Hpq. }
  rewrite Hp, Hpq. constructor; try done. apply (IH _ _ _ _ _) with (3 := Er); [|lia].
  assert (length p = S (length l)) by (by rewrite Ep). assert (1 ≤ length s)%nat by (destruct s; [done|simpl; lia]).
  rewrite Hp, Hpq, !length_app in *. lia.
Qed.

(** C33: the parser of command lines is the decision procedure of the grammar:
    blanks separate words; a backslash takes the next character literally,
    single quotes everything up to the next one, double quotes everything but a
    backslash.  It accepts a line exactly if the line has that form with at
    most 15 words, and returns what the words stand for; the buffer for the
    arguments never runs out. *)
Theorem parse_args_spec p args :
  alen p < USERMODE_CMDLINE_MAX → parse_args p = Ok args ↔ cmdline 15 p args.
Proof.
  intros Hl. unfold parse_args. split.
  - by apply args_sound.
  - intros Hc. apply (args_complete 15); [done|done|done|]. right. split; [done|]. left. lia.
Qed.

(** A way to write any arguments. *)
Definition quote_arg (a : list Z) : list Z :=
  match a with [] => [SQUOTE; SQUOTE] | _ => a ≫= λ c, [BACKSLASH; c] end.
Definition quote_args (args : list (list Z)) : list Z := args ≫= λ a, 32 :: quote_arg a.

Lemma quote_arg_word a : word (quote_arg a) a ∧ quote_arg a ≠ [].
Proof.
  destruct a as [|c a].
  - split; [|done]. exact (WPiece _ [] [] [] (PSingle [] (not_elem_of_nil SQUOTE)) WEnd).
  - split; [|done]. unfold quote_arg. generalize (c :: a). clear. intros a. induction a as [|c a IH]; [constructor|].
    change (c :: a) with ([c] ++ a) at 2. rewrite bind_cons. constructor; [constructor|done].
Qed.

(** Every list of at most 15 arguments whose quoted form fits a command
    line, whatever characters they hold, arrives as it is. *)
Theorem quote_args_roundtrip args :
  (length args ≤ 15)%nat → alen (quote_args args) < USERMODE_CMDLINE_MAX → parse_args (quote_args args) = Ok args.
Proof.
  intros Hn Hl. unfold parse_args.
  apply (args_complete 15); [|done|done|right; split; [done|left; lia]]. clear Hl. revert Hn. generalize 15%nat.
  induction args as [|a args IH]; intros n Hn; [constructor|]. destruct n as [|n]; [simpl in Hn; lia|].
  unfold quote_args. rewrite bind_cons. destruct (quote_arg_word a) as [Hw Hne].
  change ((32 :: quote_arg a) ++ _) with ([32] ++ quote_arg a ++ quote_args args). constructor; try done.
  - by repeat constructor.
  - by destruct args.
  - apply IH. simpl in Hn. lia.
Qed.

(** [a "b c" d\ e '']. *)
Lemma parse_args_spec_witness :
  cmdline 15 [97; 32; 34; 98; 32; 99; 34; 32; 100; 92; 32; 101; 32; 39; 39] [[97]; [98; 32; 99]; [100; 32; 101]; []].
Proof. apply parse_args_spec; [reflexivity|vm_compute; reflexivity]. Defined.

Lemma quote_args_roundtrip_witness :
  parse_args (quote_args [[39; 34]; []; [92; 32]]) = Ok [[39; 34]; []; [92; 32]].
Proof. apply quote_args_roundtrip; [simpl; lia|reflexivity]. Defined.
