(* ===== verification/StartStack.v ===== *)
(** kernel/usermode.c: the stack a program starts with.

    [usermode_prepare_child_start_stack] puts the arguments, the table of
    pointers to them and a call frame at the top of the task's stack.  The
    theorem reads them back as the program's [_start] does. *)

From S2P Require Import Prelude Bytes Pmm Kmalloc Paging PagingMap UserMem CmdLine.

Definition USERMODE_SPAWN_PATH_MAX : Z := 64.

Record usermode_child_slot := ChildSlot {
  cs_path : list Z;
  cs_cmdline : list Z;
  cs_task_name : list Z;
  cs_image_base : Z;
  cs_image_size : Z;
  cs_stack_base : Z;
  cs_stack_size : Z;
  cs_cmdline_len : Z;
  cs_owner_pid : Z;
  cs_used : bool
}.

Section build.
Context (wp : bool).

(** Storing a 32-bit word. *)
Definition store32 (va w : Z) (s : paging) : option paging := memcpy_to wp va (le32 w) s.

(** The loop from the last argument to the first; [argv_user] is built from its
    end. *)
Fixpoint push_args (stack_base : Z) (rargs : list (list Z)) (sp : Z) (argv_user : list Z) (s : paging)
    : option (res (Z * list Z) * paging) :=
  match rargs with
  | [] => Some (Ok (sp, argv_user), s)
  | arg :: rargs =>
      if sp <? add32 (add32 stack_base (alen arg)) 1 then Some (Err KERR_NOMEM, s)
      else
        let sp := sub32 sp (add32 (alen arg) 1) in
        s ← memcpy_to wp sp arg s;
        s ← kstore wp (add32 sp (alen arg)) NUL s;
        push_args stack_base rargs sp (sp :: argv_user) s
  end.

(** [((uint32_t * )addr)[i] = ws[i]] *)
Fixpoint store_words (addr : Z) (ws : list Z) (s : paging) : option paging :=
  match ws with
  | [] => Some s
  | w :: ws => s ← store32 addr w s; store_words (add32 addr 4) ws s
  end.

Definition usermode_prepare_child_start_stack (slot : usermode_child_slot) (stack_top : Z) (s : paging)
    : option (res Z * paging) :=
  if cget (cs_path slot) 0 =? NUL then Some (Err KERR_INVAL, s)
  else
    match parse_args (slice (cs_cmdline slot) 0 (cs_cmdline_len slot)) with
    | Err e => Some (Err e, s)
    | Ok rest =>
        let args := cstr (cs_path slot) :: rest in
        let argc := alen args in
        '(r, s) ← push_args (cs_stack_base slot) (rev args) stack_top [] s;
        match r with
        | Err e => Some (Err e, s)
        | Ok (sp, argv_user) =>
            let sp := Z.land sp (not32 3) in
            if sp <? add32 (cs_stack_base slot) (mul32 (add32 argc 4) 4) then Some (Err KERR_NOMEM, s)
            else
              let argv_table_addr := sub32 sp (mul32 (add32 argc 1) 4) in
              s ← store_words argv_table_addr argv_user s;
              s ← store32 (add32 argv_table_addr (mul32 argc 4)) 0 s;
              let frame_addr := sub32 argv_table_addr 12 in
              s ← store_words frame_addr [0; argc; argv_table_addr] s;
              Some (Ok frame_addr, s)
        end
    end.
End build.

(** * What the program finds *)

(** The strings, one after the other. *)
Definition strings (args : list (list Z)) : list Z := args ≫= λ a, a ++ [NUL].

(** Their addresses. *)
Fixpoint arg_ptrs (sp : Z) (args : list (list Z)) : list Z :=
  match args with
  | [] => []
  | a :: args => sp :: arg_ptrs (sp + alen a + 1) args
  end.

(** The lowest address of the strings, of the pointers and of the frame. *)
Definition strings_at (top : Z) (args : list (list Z)) : Z := top - alen (strings args).
Definition table_at (top : Z) (args : list (list Z)) : Z :=
  let sp := strings_at top args in sp - sp mod 4 - 4 * (alen args + 1).

(** Whether they fit. *)
Definition start_fits (base top : Z) (args : list (list Z)) : bool :=
  bool_decide (base ≤ strings_at top args ∧ base + 12 ≤ table_at top args).

Lemma strings_cons a args : strings (a :: args) = a ++ [NUL] ++ strings args.
Proof. unfold strings. rewrite bind_cons. by rewrite <- app_assoc. Qed.

Lemma strings_app x y : strings (x ++ y) = strings x ++ strings y.
Proof. unfold strings. by rewrite bind_app. Qed.

Lemma arg_ptrs_app sp x y : arg_ptrs sp (x ++ y) = arg_ptrs sp x ++ arg_ptrs (sp + alen (strings x)) y.
Proof.
  revert sp. induction x as [|a x IH]; intros sp.
  - change (alen (strings [])) with 0. by rewrite Z.add_0_r.
  - cbn [app arg_ptrs]. rewrite IH, strings_cons, !alen_app. change (alen [NUL]) with 1.
    by replace (sp + alen a + 1 + alen (strings x)) with (sp + (alen a + (1 + alen (strings x)))) by lia.
Qed.

Definition byte_list (l : list Z) : Prop := Forall (λ b, 0 ≤ b < 256) l.

Lemma memcpy_one wp va b s : memcpy_to wp va [b] s = kstore wp va b s.
Proof. cbn [memcpy_to]. by destruct (kstore wp va b s). Qed.

Section push.
Context (wp : bool) (m : Z → Z) (base top : Z).
Implicit Types (s : paging).

(** A string and its NUL. *)
Lemma push_one a sp s :
  window wp s m base top → byte_list a → base ≤ sp → sp + alen a + 1 ≤ top → top < two32 →
  ∃ s1 s2, memcpy_to wp sp a s = Some s1 ∧ kstore wp (add32 sp (alen a)) NUL s1 = Some s2 ∧
    wrote wp m base top (bytes_at sp (a ++ [NUL])) s s2.
Proof.
  intros Hw Ha Hb Ht Htop. pose proof (alen_nonneg a). destruct (wn_bounds _ _ _ _ _ Hw) as [B1 B2].
  destruct (memcpy_to_wrote wp m base top s sp a Hw Hb ltac:(lia) Ha) as (s1 & E1 & W1).
  assert (HN : byte_list [NUL]) by (by repeat constructor).
  destruct (memcpy_to_wrote wp m base top s1 (sp + alen a) [NUL] (wr_window _ _ _ _ _ _ _ W1) ltac:(lia)
    ltac:(change (alen [NUL]) with 1; lia) HN) as (s2 & E2 & W2).
  exists s1, s2. split; [done|]. rewrite memcpy_one in E2. rewrite add32_small by lia. split; [done|].
  eapply wrote_ext; [|exact (wrote_trans _ _ _ _ _ _ _ _ _ W1 W2)]. intros x Hx. apply bytes_at_app.
Qed.

Lemma strings_at_cons a dn : strings_at top (a :: dn) = strings_at top dn - alen a - 1.
Proof. unfold strings_at. rewrite strings_cons, !alen_app. change (alen [NUL]) with 1. lia. Qed.

Lemma strings_at_app x dn : strings_at top (x ++ dn) = strings_at top dn - alen (strings x).
Proof. unfold strings_at. rewrite strings_app, alen_app. lia. Qed.

(** The strings pushed before are those of [dn]. *)
Lemma push_args_spec rargs dn s :
  window wp s m base top → Forall byte_list rargs → 0 ≤ base → strings_at top dn ≤ top < two32 →
  base + alen (strings rargs) + 1 < two32 → base ≤ strings_at top dn →
  let args := rev rargs ++ dn in
  let sp := strings_at top args in
  if decide (base ≤ sp) then
    ∃ s', push_args wp base rargs (strings_at top dn) (arg_ptrs (strings_at top dn) dn) s = Some (Ok (sp, arg_ptrs sp args), s') ∧
      wrote wp m base top (bytes_at sp (strings (rev rargs))) s s'
  else
    ∃ s' P, push_args wp base rargs (strings_at top dn) (arg_ptrs (strings_at top dn) dn) s = Some (Err KERR_NOMEM, s') ∧
      wrote wp m base top P s s'.
Proof.
  revert dn s. induction rargs as [|a rargs IH]; intros dn s Hw Hb H0 Ht Hl Hd; cbv zeta.
  { cbn [rev app]. rewrite decide_True by done. exists s. split; [done|]. eapply wrote_ext; [|by apply wrote_refl].
    intros x Hx. unfold bytes_at. change (alen (strings [])) with 0. by rewrite decide_False by lia. }
  apply Forall_cons in Hb as [Ha Hb]. rewrite strings_cons, !alen_app in Hl. change (alen [NUL]) with 1 in Hl.
  pose proof (alen_nonneg a). pose proof (alen_nonneg (strings rargs)).
  cbn [rev push_args]. rewrite <- app_assoc. cbn [app]. rewrite (add32_small base (alen a)), add32_small by lia.
  set (sp := strings_at top dn) in *. set (sp2 := strings_at top (rev rargs ++ a :: dn)) in *.
  assert (Hsp2 : sp2 ≤ sp - alen a - 1).
  { unfold sp2, sp. rewrite strings_at_app, strings_at_cons. pose proof (alen_nonneg (strings (rev rargs))). lia. }
  destruct (Z.ltb_spec sp (base + alen a + 1)) as [Hlt|Hge].
  { rewrite decide_False by lia. exists s, (λ _, None). split; [done|by apply wrote_refl]. }
  rewrite (add32_small (alen a) 1), sub32_small by lia. replace (sp - (alen a + 1)) with (sp - alen a - 1) by lia.
  destruct (push_one a (sp - alen a - 1) s Hw Ha ltac:(lia) ltac:(lia) ltac:(lia)) as (s1 & s2 & -> & E2 & W).
  cbn [mbind option_bind]. rewrite E2. cbn [mbind option_bind].
  pose proof (strings_at_cons a dn) as Ec. fold sp in Ec.
  specialize (IH (a :: dn) s2 (wr_window _ _ _ _ _ _ _ W) Hb H0). rewrite Ec in IH.
  specialize (IH ltac:(lia) ltac:(lia) ltac:(lia)). cbv zeta in IH. fold sp2 in IH.
  cbn [arg_ptrs] in IH. replace (sp - alen a - 1 + alen a + 1) with sp in IH by lia.
  destruct (decide (base ≤ sp2)).
  - destruct IH as (s' & -> & W'). exists s'. split; [done|]. eapply wrote_ext; [|exact (wrote_trans _ _ _ _ _ _ _ _ _ W W')].
    intros x Hx. cbv beta. rewrite strings_app. change (strings [a]) with ((a ++ [NUL]) ++ []). rewrite app_nil_r.
    replace (sp - alen a - 1) with (sp2 + alen (strings (rev rargs))) by (unfold sp2; rewrite strings_at_app; lia).
    apply bytes_at_swap.
  - destruct IH as (s' & P & -> & W'). exists s'. eexists. split; [done|]. exact (wrote_trans _ _ _ _ _ _ _ _ _ W W').
Qed.
End push.

Definition words_bytes (ws : list Z) : list Z := ws ≫= le32.

Lemma words_bytes_length ws : alen (words_bytes ws) = 4 * alen ws.
Proof.
  induction ws as [|w ws IH]; [done|]. unfold words_bytes in *. rewrite bind_cons, alen_app, IH, alen_le32.
  unfold alen. simpl length. lia.
Qed.

Lemma le32_byte_list w : byte_list (le32 w).
Proof.
  apply Forall_forall. intros b Hb. apply list_elem_of_lookup in Hb as [i Hi].
  assert (E : cget (le32 w) (Z.of_nat i) = b) by (unfold cget; by rewrite Nat2Z.id, Hi).
  rewrite <- E. apply le32_bytes. lia.
Qed.

Lemma store_words_spec wp m lo hi addr ws s :
  window wp s m lo hi → lo ≤ addr → addr + 4 * alen ws ≤ hi → hi < two32 →
  ∃ s', store_words wp addr ws s = Some s' ∧ wrote wp m lo hi (bytes_at addr (words_bytes ws)) s s'.
Proof.
  revert addr s. induction ws as [|w ws IH]; intros addr s Hw Hlo Hhi Ht.
  - exists s. split; [done|]. eapply wrote_ext; [|by apply wrote_refl]. intros x Hx. unfold bytes_at.
    change (alen (words_bytes [])) with 0. by rewrite decide_False by lia.
  - destruct (wn_bounds _ _ _ _ _ Hw) as [B1 B2]. pose proof (alen_nonneg ws).
    assert (Hl : alen (w :: ws) = 1 + alen ws) by (unfold alen; simpl; lia). rewrite Hl in Hhi. cbn [store_words].
    destruct (memcpy_to_wrote wp m lo hi s addr (le32 w) Hw Hlo ltac:(rewrite alen_le32; lia) (le32_byte_list w)) as (s1 & E & W).
    unfold store32. rewrite E. cbn [mbind option_bind]. rewrite add32_small by lia.
    destruct (IH (addr + 4) s1 (wr_window _ _ _ _ _ _ _ W) ltac:(lia) ltac:(lia) Ht) as (s2 & -> & W2).
    exists s2. split; [done|]. eapply wrote_ext; [|exact (wrote_trans _ _ _ _ _ _ _ _ _ W W2)].
    intros x Hx. cbv beta. rewrite <- (alen_le32 w). unfold words_bytes at 2. rewrite bind_cons. apply bytes_at_app.
Qed.

(** * Bounds on the arguments *)

Lemma word_meaning s m : word s m → ∀ c, c ∈ m → c ∈ s.
Proof.
  assert (Hd : ∀ s m, dquoted s m → ∀ c, c ∈ m → c ∈ s).
  { intros ? ? Hd. induction Hd; intros x Hx; [done|..]; apply elem_of_cons in Hx as [->|Hx]; set_solver. }
  intros Hw. induction Hw as [|s m s' m' Hp Hw IH]; [done|]. intros c. rewrite !elem_of_app. intros [Hc|Hc]; [left|by right; apply IH].
  destruct Hp as [x ? ? ? ?|x|w Hw'|x w Hx]; [done|set_solver|set_solver|]. apply (Hd _ _ Hx) in Hc. set_solver.
Qed.

Lemma cmdline_bounds n p args :
  cmdline n p args → (length args ≤ n)%nat ∧ alen (strings args) ≤ 2 * alen p ∧ (byte_list p → Forall byte_list args).
Proof.
  intros Hc. induction Hc as [n|n sp Hsp|n sp s m p args Hsp Hs Hw He Hc (I1 & I2 & I3)].
  - split_and!; [simpl; lia|done|done].
  - pose proof (alen_nonneg sp). change (alen (strings [])) with 0. split_and!; [simpl; lia|lia|done].
  - pose proof (word_length s m Hw). rewrite strings_cons, !alen_app. change (alen [NUL]) with 1.
    assert (1 ≤ alen s) by (destruct s; [done|unfold alen; simpl; lia]). pose proof (alen_nonneg sp).
    split_and!; [simpl; lia|lia|]. intros Hb. unfold byte_list in Hb. rewrite !Forall_app in Hb. destruct Hb as (_ & Hb1 & Hb2).
    constructor; [|by apply I3]. apply Forall_forall. intros c Hc'. rewrite Forall_forall in Hb1. apply Hb1.
    by apply (word_meaning s m).
Qed.

Lemma start_args line rest :
  parse_args line = Ok rest →
  (length rest ≤ 15)%nat ∧ alen (strings rest) ≤ 2 * alen line ∧ (byte_list line → Forall byte_list rest).
Proof.
  intros E. apply (cmdline_bounds 15). by apply (args_sound (length line) line 1 0 15).
Qed.

Lemma cstr_split_bytes b : ∃ r, b = cstr b ++ r.
Proof.
  induction b as [|c b [r IH]]; simpl; [by exists []|]. destruct (c =? NUL); [by exists (c :: b)|].
  exists r. simpl. by f_equal.
Qed.

Lemma strings_rev_length args : alen (strings (rev args)) = alen (strings args).
Proof.
  induction args as [|a args IH]; [done|]. cbn [rev]. rewrite strings_app, alen_app, IH, !strings_cons, !alen_app.
  change (alen (strings [])) with 0. lia.
Qed.

Lemma lookup_strings args sp i a q :
  args !! i = Some a → arg_ptrs sp args !! i = Some q →
  ∃ x y, strings args = x ++ (a ++ [NUL]) ++ y ∧ q = sp + alen x.
Proof.
  revert sp i. induction args as [|b args IH]; intros sp [|i]; cbn [lookup list_lookup arg_ptrs]; try done.
  - intros [= ->] [= ->]. exists [], (strings args). split; [by rewrite strings_cons, <- app_assoc|].
    change (alen []) with 0. lia.
  - intros Ha Hq. destruct (IH _ _ Ha Hq) as (x & y & E & ->). exists (b ++ [NUL] ++ x), y.
    split; [by rewrite strings_cons, E, <- !app_assoc|]. rewrite !alen_app. change (alen [NUL]) with 1. lia.
Qed.

Lemma length_arg_ptrs sp args : length (arg_ptrs sp args) = length args.
Proof. revert sp. induction args as [|a args IH]; intros sp; simpl; [done|]. by rewrite IH. Qed.

(** * The whole stack *)

(** What [_start] reads: a return address of 0, [argc], [argv], the pointers
    with a null after them, and the strings. *)
Record holds_args (esp top : Z) (args : list (list Z)) (s : paging) : Prop := {
  ha_frame : memcpy_from esp 12 s = Some (words_bytes [0; alen args; table_at top args]);
  ha_table : memcpy_from (table_at top args) (4 * (length args + 1)) s =
               Some (words_bytes (arg_ptrs (strings_at top args) args ++ [0]));
  ha_strings i a q : args !! i = Some a → arg_ptrs (strings_at top args) args !! i = Some q →
               memcpy_from q (length (a ++ [NUL])) s = Some (a ++ [NUL])
}.

Section whole.
Context (wp : bool) (slot : usermode_child_slot) (m : Z → Z) (top : Z) (rest : list (list Z)) (s : paging).
Notation base := (cs_stack_base slot).
Notation line := (slice (cs_cmdline slot) 0 (cs_cmdline_len slot)).
Notation args := (cstr (cs_path slot) :: rest).
Context (Hw : window wp s m base top) (Hbt : base ≤ top ≤ KERNEL_EARLY_MAP_BYTES).
Context (Hp : cget (cs_path slot) 0 ≠ NUL) (Hpl : alen (cs_path slot) = USERMODE_SPAWN_PATH_MAX).
Context (Hpb : byte_list (cs_path slot)) (Hcb : byte_list (cs_cmdline slot)).
Context (Hcl : alen (cs_cmdline slot) = USERMODE_CMDLINE_MAX).
Context (Hr : parse_args line = Ok rest).

Lemma args_ok : Forall byte_list args ∧ alen (strings args) ≤ 400 ∧ 1 ≤ alen args ≤ 16.
Proof using Hpl Hpb Hcb Hcl Hr.
  destruct (start_args _ _ Hr) as (Hn & Hs & Hb).
  assert (Hsub : alen line ≤ 128 ∧ byte_list line ∧ byte_list (cstr (cs_path slot)) ∧ alen (cstr (cs_path slot)) ≤ 64).
  { split_and!.
    - unfold alen, slice in *. rewrite length_take, length_drop. unfold USERMODE_CMDLINE_MAX in Hcl. lia.
    - unfold slice. by apply Forall_take, Forall_drop.
    - destruct (cstr_split_bytes (cs_path slot)) as [r E]. unfold byte_list in *. rewrite E, Forall_app in Hpb. by destruct Hpb.
    - destruct (cstr_split_bytes (cs_path slot)) as [r E]. rewrite E, alen_app in Hpl. unfold USERMODE_SPAWN_PATH_MAX in Hpl.
      pose proof (alen_nonneg r). lia. }
  destruct Hsub as (S1 & S2 & S3 & S4). rewrite strings_cons, !alen_app. change (alen [NUL]) with 1.
  split; [constructor; [done|by apply Hb]|]. unfold alen at 3 4. simpl length. lia.
Qed.

(** The frame and the table, below the strings. *)
Definition low_part : list Z := words_bytes ([0; alen args; table_at top args] ++ arg_ptrs (strings_at top args) args ++ [0]).

Lemma low_part_length : alen low_part = 16 + 4 * alen args.
Proof using.
  unfold low_part. rewrite words_bytes_length, !alen_app. unfold alen at 1 2 3. rewrite length_arg_ptrs. unfold alen. simpl length. lia.
Qed.

Lemma sp_facts :
  start_fits base top args = true →
  base ≤ table_at top args - 12 ∧ (table_at top args - 12) mod 4 = 0 ∧
  table_at top args - 12 + alen low_part ≤ strings_at top args ∧ strings_at top args ≤ top.
Proof using Hbt.
  unfold start_fits. intros [H1 H2]%bool_decide_eq_true. rewrite low_part_length. unfold table_at in *.
  set (sp := strings_at top args) in *. pose proof (Z.div_mod sp 4 ltac:(lia)). pose proof (Z.mod_pos_bound sp 4 ltac:(lia)).
  split; [lia|]. split.
  { replace (sp - sp mod 4 - 4 * (alen args + 1) - 12) with ((sp / 4 - (alen args + 1) - 3) * 4) by lia. apply Z.mod_mul. lia. }
  split; [lia|]. unfold sp, strings_at. pose proof (alen_nonneg (strings args)). lia.
Qed.

Definition all_bytes (a : Z) : option Z :=
  match bytes_at (table_at top args - 12) low_part a with
  | Some b => Some b
  | None => bytes_at (strings_at top args) (strings args) a
  end.

(** Reading the three parts back. *)
Lemma read_back s' :
  start_fits base top args = true → wrote wp m base top all_bytes s s' → holds_args (table_at top args - 12) top args s'.
Proof using Hbt.
  intros Hf W. destruct (sp_facts Hf) as (F1 & F2 & F3 & F4). rewrite low_part_length in F3.
  assert (HL : ∀ x y z k, low_part = x ++ y ++ z → 0 ≤ k < alen y →
    all_bytes (table_at top args - 12 + alen x + k) = Some (cget y k)).
  { intros x y z k E Hk. unfold all_bytes, bytes_at. pose proof low_part_length as HLen. rewrite E, !alen_app in HLen.
    pose proof (alen_nonneg x). pose proof (alen_nonneg z). rewrite E, !alen_app. rewrite decide_True by lia.
    f_equal. replace (table_at top args - 12 + alen x + k - (table_at top args - 12)) with (alen x + k) by lia. by apply cget_mid. }
  assert (Hn : 1 ≤ alen args) by (unfold alen; simpl length; lia). split.
  - set (y := words_bytes [0; alen args; table_at top args]). assert (Hy : alen y = 12) by (unfold y; by rewrite words_bytes_length).
    replace 12%nat with (length y) by (unfold alen in Hy; lia).
    apply (wrote_read _ _ _ _ _ _ _ _ _ W); [lia|lia|]. intros k Hk.
    rewrite <- (HL [] y (words_bytes (arg_ptrs (strings_at top args) args ++ [0])) k); [|unfold low_part, y, words_bytes; by rewrite bind_app|done].
    change (alen []) with 0. f_equal. lia.
  - set (y := words_bytes (arg_ptrs (strings_at top args) args ++ [0])).
    assert (Hy : alen y = 4 * (alen args + 1)).
    { unfold y. rewrite words_bytes_length, alen_app. unfold alen at 1. rewrite length_arg_ptrs. reflexivity. }
    replace (4 * (length args + 1))%nat with (length y) by (unfold alen in Hy; lia).
    apply (wrote_read _ _ _ _ _ _ _ _ _ W); [lia|lia|]. intros k Hk.
    assert (Hx : alen (words_bytes [0; alen args; table_at top args]) = 12) by (by rewrite words_bytes_length).
    rewrite <- (HL (words_bytes [0; alen args; table_at top args]) y [] k); [|unfold low_part, y, words_bytes; by rewrite app_nil_r, <- bind_app|done].
    rewrite Hx. f_equal. lia.
  - intros i a q Ha Hq. destruct (lookup_strings _ _ _ _ _ Ha Hq) as (x & y & E & ->).
    assert (Hst : strings_at top args + alen (strings args) = top) by (unfold strings_at; lia).
    assert (Hsum : alen (strings args) = alen x + (alen (a ++ [NUL]) + alen y)) by (by rewrite E, !alen_app).
    pose proof (alen_nonneg x). pose proof (alen_nonneg y). pose proof (alen_nonneg (a ++ [NUL])).
    apply (wrote_read _ _ _ _ _ _ _ _ _ W); [lia|lia|]. intros k Hk. unfold all_bytes, bytes_at. rewrite low_part_length.
    rewrite decide_False by lia. rewrite decide_True by lia. f_equal. rewrite E.
    replace (strings_at top args + alen x + k - strings_at top args) with (alen x + k) by lia. by apply cget_mid.
Qed.
(** Rounding the stack pointer down. *)
Lemma round_sp sp : is_u32 sp → Z.land sp (not32 3) = sp - sp mod 4.
Proof using.
  intros Hv. change 3 with (2 ^ 2 - 1). by rewrite land_not_ones by (unfold two32 in *; lia).
Qed.

(** What is stored below the strings. *)
Lemma store_low s1 :
  start_fits base top args = true → window wp s1 m base top →
  ∃ s', (s2 ← store_words wp (table_at top args) (arg_ptrs (strings_at top args) args) s1;
         s3 ← store32 wp (add32 (table_at top args) (mul32 (alen args) 4)) 0 s2;
         store_words wp (sub32 (table_at top args) 12) [0; alen args; table_at top args] s3) = Some s' ∧
    wrote wp m base top (bytes_at (table_at top args - 12) low_part) s1 s'.
Proof using Hbt Hpl Hpb Hcb Hcl Hr.
  intros Hf Hw1. destruct (sp_facts Hf) as (F1 & F2 & F3 & F4). rewrite low_part_length in F3.
  destruct args_ok as (_ & _ & Hn). destruct (wn_bounds _ _ _ _ _ Hw1) as [B1 _].
  assert (HK : KERNEL_EARLY_MAP_BYTES + 100 < two32) by done.
  assert (Hpn : alen (arg_ptrs (strings_at top args) args) = alen args) by (unfold alen; by rewrite length_arg_ptrs).
  destruct (store_words_spec wp m base top (table_at top args) (arg_ptrs (strings_at top args) args) s1 Hw1)
    as (s2 & -> & W1); [lia|lia|lia|]. cbn [mbind option_bind].
  assert (Em : mul32 (alen args) 4 = 4 * alen args) by (unfold mul32; rewrite u32_small; lia).
  rewrite Em, add32_small by lia.
  destruct (store_words_spec wp m base top (table_at top args + 4 * alen args) [0] s2 (wr_window _ _ _ _ _ _ _ W1))
    as (s3 & E3 & W2); [lia|change (alen [0]) with 1; lia|lia|].
  cbn [store_words] in E3. destruct (store32 wp (table_at top args + 4 * alen args) 0 s2) as [s3'|]; [|done].
  apply (inj Some) in E3. subst s3'. cbn [mbind option_bind]. rewrite sub32_small by lia.
  destruct (store_words_spec wp m base top (table_at top args - 12) [0; alen args; table_at top args] s3 (wr_window _ _ _ _ _ _ _ W2))
    as (s4 & -> & W3); [lia|change (alen [0; alen args; table_at top args]) with 3; lia|lia|].
  exists s4. split; [done|].
  eapply wrote_ext; [|exact (wrote_trans _ _ _ _ _ _ _ _ _ (wrote_trans _ _ _ _ _ _ _ _ _ W1 W2) W3)].
  intros x Hx. cbv beta. unfold low_part, words_bytes. rewrite !bind_app.
  rewrite <- bytes_at_swap. destruct (bytes_at (table_at top args - 12) _ x); [done|].
  replace (table_at top args - 12 + alen ([0; alen args; table_at top args] ≫= le32)) with (table_at top args).
  2: { change ([0; alen args; table_at top args] ≫= le32) with (words_bytes [0; alen args; table_at top args]).
       rewrite words_bytes_length. change (alen [0; alen args; table_at top args]) with 3. lia. }
  rewrite <- bytes_at_app. do 2 f_equal. fold (words_bytes (arg_ptrs (strings_at top args) args)).
  rewrite words_bytes_length, Hpn. done.
Qed.

(** C21: when the stack is large enough, the program starts with [argc] and
    [argv] of its path and the words of its command line: reading memory as
    [_start] does gives every argument, ended by NUL, the table ends with a null
    pointer, the stack pointer is aligned and inside the stack, and only the
    bytes above it have changed.  Otherwise the call fails and has changed only
    the stack. *)
Theorem start_stack_spec :
  if start_fits base top args then
    ∃ s', usermode_prepare_child_start_stack wp slot top s = Some (Ok (table_at top args - 12), s') ∧
      base ≤ table_at top args - 12 ∧ (table_at top args - 12) mod 4 = 0 ∧
      holds_args (table_at top args - 12) top args s' ∧
      ∀ pa, (∀ a, table_at top args - 12 ≤ a < top → pa ≠ m a) → load8 (phys s') pa = load8 (phys s) pa
  else
    ∃ s', usermode_prepare_child_start_stack wp slot top s = Some (Err KERR_NOMEM, s') ∧
      ∀ pa, (∀ a, base ≤ a < top → pa ≠ m a) → load8 (phys s') pa = load8 (phys s) pa.
Proof using Hw Hbt Hp Hpl Hpb Hcb Hcl Hr.
  destruct args_ok as (Hab & Has & Han). destruct (wn_bounds _ _ _ _ _ Hw) as [B1 _].
  assert (HK : KERNEL_EARLY_MAP_BYTES + 1000 < two32) by done.
  unfold usermode_prepare_child_start_stack. rewrite (proj2 (Z.eqb_neq _ _) Hp), Hr.
  pose proof (push_args_spec wp m base top (rev args) [] s Hw) as Hpush.
  assert (Hrev : strings_at top [] = top) by (unfold strings_at; change (alen (strings [])) with 0; lia).
  rewrite Hrev, app_nil_r, rev_involutive, (strings_rev_length args) in Hpush.
  specialize (Hpush ltac:(by apply Forall_rev) ltac:(lia) ltac:(lia) ltac:(lia) ltac:(lia)). cbv zeta in Hpush.
  change (arg_ptrs top []) with (@nil Z) in Hpush.
  destruct (decide (base ≤ strings_at top args)) as [Hd|Hd].
  2: { destruct Hpush as (s' & P & -> & W). cbn [mbind option_bind]. unfold start_fits.
       rewrite bool_decide_eq_false_2 by lia. exists s'. split; [done|]. intros pa Hpa.
       apply (wr_old _ _ _ _ _ _ _ W). intros a Ha _. by apply Hpa. }
  destruct Hpush as (s1 & -> & W1). cbn [mbind option_bind].
  assert (Hsp : strings_at top args ≤ top) by (unfold strings_at; pose proof (alen_nonneg (strings args)); lia).
  rewrite round_sp by lia. set (sp := strings_at top args) in *.
  pose proof (Z.mod_pos_bound sp 4 ltac:(lia)) as Hm.
  assert (E1 : mul32 (add32 (alen args) 4) 4 = 4 * alen args + 16).
  { rewrite add32_small by lia. unfold mul32. rewrite u32_small; lia. }
  assert (E2 : mul32 (add32 (alen args) 1) 4 = 4 * (alen args + 1)).
  { rewrite add32_small by lia. unfold mul32. rewrite u32_small; lia. }
  rewrite E1, E2, add32_small by lia.
  assert (Htab : table_at top args = sp - sp mod 4 - 4 * (alen args + 1)) by done.
  unfold start_fits. fold sp. destruct (Z.ltb_spec (sp - sp mod 4) (base + (4 * alen args + 16))) as [Hlt|Hge].
  { rewrite bool_decide_eq_false_2 by lia. exists s1. split; [done|]. intros pa Hpa.
    apply (wr_old _ _ _ _ _ _ _ W1). intros a Ha _. by apply Hpa. }
  rewrite bool_decide_eq_true_2 by lia.
  rewrite (sub32_small (sp - sp mod 4)) by lia. rewrite <- Htab.
  assert (Hfit : start_fits base top args = true) by (apply bool_decide_eq_true_2; fold sp; lia).
  destruct (store_low s1 Hfit (wr_window _ _ _ _ _ _ _ W1)) as (s' & E & W2). revert E.
  destruct (store_words wp (table_at top args) _ s1) as [s2|]; [|done]. cbn [mbind option_bind].
  destruct (store32 wp _ 0 s2) as [s3|]; [|done]. cbn [mbind option_bind]. intros ->. cbn [mbind option_bind].
  assert (W : wrote wp m base top all_bytes s s').
  { eapply wrote_ext; [|exact (wrote_trans _ _ _ _ _ _ _ _ _ W1 W2)]. intros a Ha. done. }
  destruct (sp_facts Hfit) as (F1 & F2 & F3 & F4). exists s'. rewrite sub32_small by lia.
  split; [done|]. split; [done|]. split; [done|]. split; [by apply read_back|].
  intros pa Hpa. apply (wr_old _ _ _ _ _ _ _ W). intros a Ha Hs. apply Hpa. split; [|lia].
  revert Hs. unfold all_bytes, bytes_at. repeat case_decide; try (intros; lia). by intros [].
Qed.
End whole.

(** [/bin/a] with the command line [x "y z"]. *)
Definition pad (n : nat) (l : list Z) : list Z := l ++ replicate (n - length l) 0.
Definition demo_slot : usermode_child_slot :=
  ChildSlot (pad 64 [47; 98; 105; 110; 47; 97]) (pad 128 [120; 32; 34; 121; 32; 122; 34]) [] 0 0 21250048 4096 7 (-1) true.

Lemma start_stack_spec_witness :
  ∃ s', usermode_prepare_child_start_stack true demo_slot 21254144 (paging_zero ∅ boot_heap) = Some (Ok 21254100, s') ∧
    holds_args 21254100 21254144 [[47; 98; 105; 110; 47; 97]; [120]; [121; 32; 122]] s'.
Proof.
  assert (Hw : window true (paging_zero ∅ boot_heap) id (cs_stack_base demo_slot) 21254144).
  { apply unpaged_window; [exact mem_wf_empty|done|done|done]. }
  assert (Hpb : byte_list (cs_path demo_slot)) by (apply (bool_decide_unpack _); vm_compute; exact I).
  assert (Hcb : byte_list (cs_cmdline demo_slot)) by (apply (bool_decide_unpack _); vm_compute; exact I).
  assert (Hr : parse_args (slice (cs_cmdline demo_slot) 0 (cs_cmdline_len demo_slot)) = Ok [[120]; [121; 32; 122]])
    by (vm_compute; reflexivity).
  pose proof (start_stack_spec true demo_slot id 21254144 [[120]; [121; 32; 122]] (paging_zero ∅ boot_heap) Hw
    ltac:(done) ltac:(done) ltac:(reflexivity) Hpb Hcb ltac:(reflexivity) Hr) as H.
  assert (Ea : cstr (cs_path demo_slot) = [47; 98; 105; 110; 47; 97]) by (vm_compute; reflexivity). rewrite Ea in H.
  assert (Ef : start_fits (cs_stack_base demo_slot) 21254144 [[47; 98; 105; 110; 47; 97]; [120]; [121; 32; 122]] = true)
    by (vm_compute; reflexivity). rewrite Ef in H.
  assert (Et : table_at 21254144 [[47; 98; 105; 110; 47; 97]; [120]; [121; 32; 122]] - 12 = 21254100) by (vm_compute; reflexivity).
  rewrite Et in H. destruct H as (s' & E & _ & _ & Hh & _). exists s'. split; [exact E|exact Hh].
Defined.
