(* ===== verification/Keyboard.v ===== *)
(** kernel/keyboard.c and kernel/mouse.c: input.

    The keyboard interrupt and the characters that arrive on the serial line go
    through the same scan codes into a ring buffer, unless the window system
    takes the key.  The window system is the class [InputSink] over its state
    [δ].  The interrupt handler and [kbd_feed_scancode] are two copies of one
    state machine. *)

From S2P Require Import Prelude Ring.

Definition KBD_BUF_SIZE : Z := 128.

Definition SYSCALL_GUI_MOD_SHIFT : Z := 1.
Definition SYSCALL_GUI_BUTTON_LEFT : Z := 1.
Definition SYSCALL_GUI_BUTTON_RIGHT : Z := 2.
Definition SYSCALL_GUI_KEY_NONE : Z := 0.
Definition SYSCALL_GUI_KEY_LEFT : Z := 1.
Definition SYSCALL_GUI_KEY_RIGHT : Z := 2.
Definition SYSCALL_GUI_KEY_UP : Z := 3.
Definition SYSCALL_GUI_KEY_DOWN : Z := 4.
Definition SYSCALL_GUI_KEY_ENTER : Z := 5.
Definition SYSCALL_GUI_KEY_ESCAPE : Z := 6.
Definition SYSCALL_GUI_KEY_BACKSPACE : Z := 7.
Definition SYSCALL_GUI_KEY_TAB : Z := 8.
Definition SYSCALL_GUI_KEY_SPACE : Z := 9.

Inductive display_nav_key := DISPLAY_NAV_KEY_UP | DISPLAY_NAV_KEY_DOWN | DISPLAY_NAV_KEY_LEFT | DISPLAY_NAV_KEY_RIGHT.

(** The functions of display.c that take input; the boolean says that the event
    was taken. *)
Class InputSink (δ : Type) := {
  display_gui_mode_active : δ → bool;
  display_gui_handle_key_event : Z → Z → Z → bool → δ → bool * δ;
  display_handle_navigation_key : display_nav_key → δ → bool * δ;
  display_gui_handle_mouse_motion : Z → Z → δ → δ;
  display_gui_handle_mouse_buttons : Z → δ → δ
}.

(** The scan codes from 0x02 to 0x39. *)
Definition kbd_us : list Z :=
  [0; 27; 49; 50; 51; 52; 53; 54; 55; 56; 57; 48; 45; 61; 8;
   9; 113; 119; 101; 114; 116; 121; 117; 105; 111; 112; 91; 93; 10; 0;
   97; 115; 100; 102; 103; 104; 106; 107; 108; 59; 39; 96; 0;
   92; 122; 120; 99; 118; 98; 110; 109; 44; 46; 47; 0; 42; 0; 32] ++ replicate 70 0.

Definition kbd_us_shift : list Z :=
  [0; 27; 33; 64; 35; 36; 37; 94; 38; 42; 40; 41; 95; 43; 8;
   9; 81; 87; 69; 82; 84; 89; 85; 73; 79; 80; 123; 125; 10; 0;
   65; 83; 68; 70; 71; 72; 74; 75; 76; 58; 34; 126; 0;
   124; 90; 88; 67; 86; 66; 78; 77; 60; 62; 63; 0; 42; 0; 32] ++ replicate 70 0.

Definition ascii_table : list Z :=
  [30; 48; 46; 32; 18; 33; 34; 35; 23; 36; 37; 38; 50; 49; 24; 25; 16; 19; 31; 20; 22; 47; 17; 45; 21; 44].

(** [kbd_buffer] and the other variables of the file. *)
Record kbd := Kbd {
  kbd_buffer : list Z;
  kbd_head : Z;
  kbd_tail : Z;
  shift_pressed : bool;
  extended_prefix : bool
}.

Definition kbd_zero : kbd := Kbd (replicate 128 0) 0 0 false false.
Definition set_shift (b : bool) (k : kbd) : kbd := Kbd (kbd_buffer k) (kbd_head k) (kbd_tail k) b (extended_prefix k).
Definition set_extended (b : bool) (k : kbd) : kbd := Kbd (kbd_buffer k) (kbd_head k) (kbd_tail k) (shift_pressed k) b.

Definition kbd_modifiers (k : kbd) : Z := if shift_pressed k then SYSCALL_GUI_MOD_SHIFT else 0.

Definition kbd_gui_keycode_for_extended (scancode : Z) : Z :=
  if scancode =? 72 then SYSCALL_GUI_KEY_UP
  else if scancode =? 80 then SYSCALL_GUI_KEY_DOWN
  else if scancode =? 75 then SYSCALL_GUI_KEY_LEFT
  else if scancode =? 77 then SYSCALL_GUI_KEY_RIGHT
  else SYSCALL_GUI_KEY_NONE.

Definition kbd_gui_keycode_for_scancode (scancode : Z) : Z :=
  if scancode =? 1 then SYSCALL_GUI_KEY_ESCAPE
  else if scancode =? 14 then SYSCALL_GUI_KEY_BACKSPACE
  else if scancode =? 15 then SYSCALL_GUI_KEY_TAB
  else if scancode =? 28 then SYSCALL_GUI_KEY_ENTER
  else if scancode =? 57 then SYSCALL_GUI_KEY_SPACE
  else SYSCALL_GUI_KEY_NONE.

Definition kbd_buffer_put (ch : Z) (k : kbd) : kbd :=
  let next := (kbd_head k + 1) mod KBD_BUF_SIZE in
  if next =? kbd_tail k then k
  else Kbd (kbd_buffer k).[kbd_head k <- ch] next (kbd_tail k) (shift_pressed k) (extended_prefix k).

(** [None] is -1. *)
Definition kbd_getchar (k : kbd) : option Z * kbd :=
  if kbd_head k =? kbd_tail k then (None, k)
  else (Some (kbd_buffer k).[kbd_tail k],
        Kbd (kbd_buffer k) (kbd_head k) ((kbd_tail k + 1) mod KBD_BUF_SIZE) (shift_pressed k) (extended_prefix k)).

(** The code for a character, and whether it needs the shift key. *)
Definition lower_scancode (c : Z) : option Z :=
  if (97 <=? c) && (c <=? 122) then Some ascii_table.[c - 97] else None.

Definition other_scancodes : list (Z * Z) :=
  [(49, 2); (50, 3); (51, 4); (52, 5); (53, 6); (54, 7); (55, 8); (56, 9); (57, 10); (48, 11); (13, 28); (10, 28);
   (8, 14); (9, 15); (32, 57); (45, 12); (61, 13); (91, 26); (93, 27); (59, 39); (39, 40); (96, 41); (92, 43);
   (44, 51); (46, 52); (47, 53)].

Definition ascii_to_scancode (c : Z) : option (Z * bool) :=
  match lower_scancode c with
  | Some code => Some (code, false)
  | None =>
      if (65 <=? c) && (c <=? 90) then (λ code, (code, true)) <$> lower_scancode (c + 32)
      else (λ p, (snd p, false)) <$> List.find (λ p, fst p =? c) other_scancodes
  end.

Section input.
Context {δ : Type} `{!InputSink δ}.
Implicit Types (k : kbd) (d : δ).

Definition kbd_gui_route_key (keycode ch : Z) (pressed : bool) k d : bool * δ :=
  if negb (display_gui_mode_active d) then (false, d)
  else display_gui_handle_key_event keycode ch (kbd_modifiers k) pressed d.

Definition kbd_try_handle_extended_press (scancode : Z) k d : bool * δ :=
  let gui_keycode := kbd_gui_keycode_for_extended scancode in
  let '(taken, d) :=
    if gui_keycode =? SYSCALL_GUI_KEY_NONE then (false, d) else kbd_gui_route_key gui_keycode 0 true k d in
  if taken then (true, d)
  else if scancode =? 72 then display_handle_navigation_key DISPLAY_NAV_KEY_UP d
  else if scancode =? 80 then display_handle_navigation_key DISPLAY_NAV_KEY_DOWN d
  else if scancode =? 75 then display_handle_navigation_key DISPLAY_NAV_KEY_LEFT d
  else if scancode =? 77 then display_handle_navigation_key DISPLAY_NAV_KEY_RIGHT d
  else (false, d).

(** The second byte of an extended code. *)
Definition extended_code (scancode : Z) k d : kbd * δ :=
  let code := Z.land scancode 127 in
  let d :=
    if Z.land scancode 128 =? 0 then snd (kbd_try_handle_extended_press code k d)
    else
      let gui_keycode := kbd_gui_keycode_for_extended code in
      if gui_keycode =? SYSCALL_GUI_KEY_NONE then d else snd (kbd_gui_route_key gui_keycode 0 false k d) in
  (set_extended false k, d).

Definition key_release (scancode : Z) k d : kbd * δ :=
  let code := Z.land scancode 127 in
  let k := if (code =? 42) || (code =? 54) then set_shift false k else k in
  let gui_keycode := kbd_gui_keycode_for_scancode code in
  (k, if gui_keycode =? SYSCALL_GUI_KEY_NONE then d else snd (kbd_gui_route_key gui_keycode 0 false k d)).

Definition key_char (scancode : Z) k : Z := (if shift_pressed k then kbd_us_shift else kbd_us).[scancode].

(** From [inb] on; the log of the scan codes is left out. *)
Definition keyboard_handler (scancode : Z) k d : kbd * δ :=
  if scancode =? 224 then (set_extended true k, d)
  else if extended_prefix k then extended_code scancode k d
  else if negb (Z.land scancode 128 =? 0) then key_release scancode k d
  else
    let gui_keycode := kbd_gui_keycode_for_scancode scancode in
    if (scancode =? 42) || (scancode =? 54) then (set_shift true k, d)
    else
      let ch := key_char scancode k in
      let '(taken, d) :=
        if display_gui_mode_active d then kbd_gui_route_key gui_keycode ch true k d else (false, d) in
      if taken then (k, d) else if negb (ch =? 0) then (kbd_buffer_put ch k, d) else (k, d).

Definition kbd_feed_scancode (scancode : Z) k d : kbd * δ :=
  if scancode =? 224 then (set_extended true k, d)
  else if extended_prefix k then extended_code scancode k d
  else if negb (Z.land scancode 128 =? 0) then key_release scancode k d
  else if (scancode =? 42) || (scancode =? 54) then (set_shift true k, d)
  else
    let gui_keycode := kbd_gui_keycode_for_scancode scancode in
    let ch := key_char scancode k in
    let '(taken, d) :=
      if display_gui_mode_active d then kbd_gui_route_key gui_keycode ch true k d else (false, d) in
    if taken then (k, d) else if ch =? 0 then (k, d) else (kbd_buffer_put ch k, d).

Definition kbd_send_scancode (scancode : Z) k d : kbd * δ :=
  let '(k, d) := kbd_feed_scancode scancode k d in kbd_feed_scancode (Z.lor scancode 128) k d.

Definition kbd_feed_ascii (c : Z) k d : kbd * δ :=
  let c := if c =? 13 then 10 else c in
  match ascii_to_scancode c with
  | None =>
      if (c =? 10) || (c =? 8) || (c =? 9) || ((32 <=? c) && (c <=? 126)) then (kbd_buffer_put c k, d) else (k, d)
  | Some (code, need_shift) =>
      let '(k, d) := if need_shift then kbd_feed_scancode 42 k d else (k, d) in
      let '(k, d) := kbd_send_scancode code k d in
      if need_shift then kbd_feed_scancode 170 k d else (k, d)
  end.

(** * The mouse

    [g_mouse_packet] with its first [g_mouse_packet_len] bytes. *)
Definition to_int8 (b : Z) : Z := if b <? 128 then b else b - 256.

Definition mouse_handler (byte : Z) (packet : list Z) d : list Z * δ :=
  let packet := packet ++ [byte] in
  if alen packet <? 3 then (packet, d)
  else
    let packet0 := cget packet 0 in
    if Z.land packet0 8 =? 0 then ([], d)
    else
      let dx := to_int8 (cget packet 1) in
      let dy := to_int8 (cget packet 2) in
      let buttons := Z.lor (if Z.land packet0 1 =? 0 then 0 else SYSCALL_GUI_BUTTON_LEFT)
                           (if Z.land packet0 2 =? 0 then 0 else SYSCALL_GUI_BUTTON_RIGHT) in
      if display_gui_mode_active d
      then ([], display_gui_handle_mouse_buttons buttons (display_gui_handle_mouse_motion dx (- dy) d))
      else ([], d).
End input.

(** * The ring buffer *)

Record kbd_wf (k : kbd) : Prop := {
  kw_size : alen (kbd_buffer k) = KBD_BUF_SIZE;
  kw_head : 0 ≤ kbd_head k < KBD_BUF_SIZE;
  kw_tail : 0 ≤ kbd_tail k < KBD_BUF_SIZE
}.

(** The characters waiting, the oldest first. *)
Definition kbd_used (k : kbd) : Z := ring_used KBD_BUF_SIZE (kbd_tail k) (kbd_head k).
Definition kbd_queue (k : kbd) : list Z := ring_items KBD_BUF_SIZE (kbd_buffer k) (kbd_tail k) (kbd_used k).

Lemma kbd_queue_len k : kbd_wf k → alen (kbd_queue k) = kbd_used k ∧ 0 ≤ kbd_used k < KBD_BUF_SIZE.
Proof.
  intros [_ Hh Ht]. pose proof (ring_used_bounds KBD_BUF_SIZE _ _ Ht Hh) as Hu. split; [|done].
  apply ring_items_len. unfold kbd_used. lia.
Qed.

Lemma kbd_put_spec ch k :
  kbd_wf k →
  kbd_wf (kbd_buffer_put ch k) ∧
  kbd_queue (kbd_buffer_put ch k) = if decide (alen (kbd_queue k) < 127) then kbd_queue k ++ [ch] else kbd_queue k.
Proof.
  intros Hk. destruct (kbd_queue_len k Hk) as [-> Hu]. pose proof Hk as [Hs Hh Ht].
  destruct (ring_next KBD_BUF_SIZE _ _ Ht Hh) as [Hn Hc]. unfold kbd_buffer_put. fold (kbd_used k) in Hc.
  destruct (Z.eqb_spec ((kbd_head k + 1) mod KBD_BUF_SIZE) (kbd_tail k)) as [He|He].
  - rewrite decide_True in Hc by done. rewrite Hc, decide_False by (unfold KBD_BUF_SIZE; lia). done.
  - rewrite decide_False in Hc by done. destruct Hc as [Hc1 Hc2].
    rewrite (decide_True (P := kbd_used k < 127)) by (unfold KBD_BUF_SIZE in *; lia).
    split; [split; simpl; [by rewrite alen_aset|done..]|].
    unfold kbd_queue at 1. unfold kbd_used at 1. cbn [kbd_buffer kbd_head kbd_tail]. rewrite Hc2.
    rewrite <- (ring_end KBD_BUF_SIZE (kbd_tail k) (kbd_head k)) at 1 by done.
    by apply ring_items_snoc.
Qed.

Lemma kbd_get_spec k :
  kbd_wf k →
  match kbd_getchar k with
  | (None, k') => kbd_queue k = [] ∧ k' = k
  | (Some c, k') => kbd_queue k = c :: kbd_queue k' ∧ kbd_wf k'
  end.
Proof.
  intros [Hs Hh Ht]. unfold kbd_getchar. destruct (Z.eqb_spec (kbd_head k) (kbd_tail k)) as [He|He].
  { split; [|done]. unfold kbd_queue, kbd_used. rewrite He. apply ring_empty. }
  destruct (ring_step KBD_BUF_SIZE _ _ Ht Hh ltac:(done)) as [Hu Hn].
  split; [|by split]. unfold kbd_queue, kbd_used. cbn [kbd_buffer kbd_head kbd_tail]. rewrite Hu.
  apply ring_items_cons; [done|]. apply Z.mod_pos_bound. unfold KBD_BUF_SIZE. lia.
Qed.

(** * Typing *)

(** Both copies of the state machine. *)
Lemma handler_feed {δ} `{!InputSink δ} scancode k (d : δ) :
  keyboard_handler scancode k d = kbd_feed_scancode scancode k d.
Proof.
  unfold keyboard_handler, kbd_feed_scancode. repeat (case_match; try done).
Qed.

(** The characters that can be typed: printable ones, newline, backspace, tab;
    a carriage return counts as a newline. *)
Definition typeable (c : Z) : bool := ((32 <=? c) && (c <=? 126)) || (c =? 8) || (c =? 9) || (c =? 10) || (c =? 13).
Definition typed (c : Z) : Z := if c =? 13 then 10 else c.

(** Every character's scan code, with its shift, is that character on the
    keyboard. *)
Definition codes_agree (c : Z) : bool :=
  match ascii_to_scancode c with
  | None => true
  | Some (code, sh) =>
      (0 <? code) && (code <? 128) && negb (code =? 42) && negb (code =? 54) &&
      negb (c =? 0) && ((if (sh : bool) then kbd_us_shift else kbd_us).[code] =? c) &&
      (Z.land (Z.lor code 128) 128 =? 128) && (Z.land (Z.lor code 128) 127 =? code) && (Z.land code 128 =? 0) &&
      negb (Z.lor code 128 =? 224) && negb (code =? 224) && typeable c
  end.

Lemma all_codes_agree c : 0 ≤ c < 256 → c ≠ 13 → codes_agree c = true.
Proof.
  intros Hc Hn. assert (H : forallb (λ c, (c =? 13) || codes_agree c) (seqZ 0 256) = true) by (vm_compute; reflexivity).
  rewrite forallb_forall in H. specialize (H c). rewrite (proj2 (Z.eqb_neq c 13)) in H by done. apply H.
  apply list_elem_of_In, elem_of_seqZ. lia.
Qed.

Lemma put_shift ch b k : kbd_buffer_put ch (set_shift b k) = set_shift b (kbd_buffer_put ch k).
Proof. unfold kbd_buffer_put, set_shift. cbn [kbd_buffer kbd_head kbd_tail shift_pressed extended_prefix]. by case_match. Qed.

Lemma set_shift_id k : shift_pressed k = false → set_shift false k = k.
Proof. destruct k; simpl. by intros ->. Qed.

Lemma put_flags ch k :
  shift_pressed (kbd_buffer_put ch k) = shift_pressed k ∧ extended_prefix (kbd_buffer_put ch k) = extended_prefix k.
Proof. unfold kbd_buffer_put. by case_match. Qed.

Section typing.
Context {δ : Type} `{!InputSink δ}.
Implicit Types (k : kbd) (d : δ).

Lemma feed_down scancode k d :
  display_gui_mode_active d = false → extended_prefix k = false → scancode ≠ 224 → Z.land scancode 128 = 0 →
  scancode ≠ 42 → scancode ≠ 54 → key_char scancode k ≠ 0 →
  kbd_feed_scancode scancode k d = (kbd_buffer_put (key_char scancode k) k, d).
Proof.
  intros Hd He H1 H2 H3 H4 H5. unfold kbd_feed_scancode. rewrite H2, He.
  rewrite !(proj2 (Z.eqb_neq scancode _)) by done. cbn [Z.eqb negb orb]. rewrite Hd.
  by rewrite (proj2 (Z.eqb_neq _ 0) H5).
Qed.

Lemma feed_up scancode k d :
  display_gui_mode_active d = false → extended_prefix k = false → scancode ≠ 224 → Z.land scancode 128 = 128 →
  kbd_feed_scancode scancode k d =
    (if (Z.land scancode 127 =? 42) || (Z.land scancode 127 =? 54) then set_shift false k else k, d).
Proof.
  intros Hd He H1 H2. unfold kbd_feed_scancode, key_release, kbd_gui_route_key. rewrite H2, He, Hd.
  rewrite (proj2 (Z.eqb_neq scancode _)) by done. cbn [Z.eqb negb]. by destruct (_ =? SYSCALL_GUI_KEY_NONE).
Qed.

Lemma feed_shift k d :
  display_gui_mode_active d = false → extended_prefix k = false →
  kbd_feed_scancode 42 k d = (set_shift true k, d) ∧ kbd_feed_scancode 170 k d = (set_shift false k, d).
Proof.
  intros Hd He. split; [|by rewrite (feed_up 170)]. unfold kbd_feed_scancode. by rewrite He.
Qed.

(** A character of the serial line is the character put into the buffer. *)
Lemma feed_ascii_spec c k d :
  display_gui_mode_active d = false → extended_prefix k = false → shift_pressed k = false → 0 ≤ c < 256 →
  kbd_feed_ascii c k d = (if typeable c then kbd_buffer_put (typed c) k else k, d).
Proof.
  intros Hd He Hs Hc. unfold kbd_feed_ascii. fold (typed c).
  assert (Ht : typeable c = typeable (typed c)) by (unfold typed; by destruct (Z.eqb_spec c 13) as [->|]).
  assert (Hb : 0 ≤ typed c < 256 ∧ typed c ≠ 13) by (unfold typed; destruct (Z.eqb_spec c 13); lia).
  rewrite Ht. generalize (typed c), Hb. clear c Hc Ht Hb. intros c [Hc Hn].
  pose proof (all_codes_agree c Hc Hn) as Ha. unfold codes_agree in Ha. destruct (ascii_to_scancode c) as [[code sh]|].
  - repeat (apply andb_true_iff in Ha as [Ha ?]). rewrite !negb_true_iff, !Z.eqb_eq, !Z.eqb_neq in *. rewrite H.
    assert (Hk : ∀ k, shift_pressed k = sh → key_char code k = c) by (intros k' E; unfold key_char; by rewrite E).
    assert (Hsend : ∀ k', shift_pressed k' = sh → extended_prefix k' = false →
      kbd_send_scancode code k' d = (kbd_buffer_put c k', d)).
    { intros k' Hs' He'. unfold kbd_send_scancode. rewrite feed_down; [|done..|by rewrite Hk]. rewrite Hk by done.
      rewrite feed_up; [|done|by rewrite (proj2 (put_flags c k'))|done|done].
      rewrite (proj2 (Z.eqb_neq _ 42)), (proj2 (Z.eqb_neq _ 54)) by congruence. done. }
    destruct sh.
    + destruct (feed_shift k d Hd He) as [-> _]. rewrite Hsend by done.
      destruct (feed_shift (kbd_buffer_put c (set_shift true k)) d Hd) as [_ ->]; [by rewrite (proj2 (put_flags _ _))|].
      rewrite <- put_shift. by rewrite <- (set_shift_id k Hs) at 2.
    + by rewrite Hsend.
  - clear Ha. replace (typeable c) with ((c =? 10) || (c =? 8) || (c =? 9) || ((32 <=? c) && (c <=? 126))).
    + by case_match.
    + unfold typeable. rewrite (proj2 (Z.eqb_neq c 13)) by done. rewrite orb_false_r.
      destruct (c =? 10), (c =? 8), (c =? 9), ((32 <=? c) && (c <=? 126)); done.
Qed.

Definition kbd_type (cs : list Z) k d : kbd * δ := foldl (λ '(k, d) c, kbd_feed_ascii c k d) (k, d) cs.

(** Reading up to [n] characters. *)
Fixpoint kbd_read (n : nat) k : list Z :=
  match n with
  | O => []
  | S n' => match kbd_getchar k with (None, _) => [] | (Some c, k) => c :: kbd_read n' k end
  end.

Lemma kbd_read_spec n k : kbd_wf k → kbd_read n k = take n (kbd_queue k).
Proof.
  revert k. induction n as [|n IH]; intros k Hk; [done|]. cbn [kbd_read]. pose proof (kbd_get_spec k Hk) as Hg.
  destruct (kbd_getchar k) as [[c|] k']; [|by destruct Hg as [-> _]]. destruct Hg as [-> Hk']. cbn [take]. by rewrite IH.
Qed.

Lemma queue_bound k : kbd_wf k → (length (kbd_queue k) ≤ 127)%nat.
Proof.
  intros Hk. destruct (kbd_queue_len k Hk) as [Hl Hu]. unfold alen, KBD_BUF_SIZE in *. lia.
Qed.

(** C38: what is typed is what is read: while no window system takes the keys,
    the characters fed from the serial line (with the scan codes and the shift
    key they are turned into) come out of the keyboard's buffer in order, each
    once; what a keyboard cannot type is dropped, and so is what exceeds the
    127 characters the buffer holds. *)
Theorem kbd_typing cs k d :
  kbd_wf k → display_gui_mode_active d = false → extended_prefix k = false → shift_pressed k = false →
  Forall (λ c, 0 ≤ c < 256) cs →
  let '(k', d') := kbd_type cs k d in
  d' = d ∧ kbd_wf k' ∧ shift_pressed k' = false ∧ extended_prefix k' = false ∧
  kbd_read 127 k' = take 127 (kbd_queue k ++ (typed <$> filter (λ c, typeable c = true) cs)).
Proof.
  intros Hk Hd He Hs Hcs. assert (H : let '(k', d') := kbd_type cs k d in
    d' = d ∧ kbd_wf k' ∧ shift_pressed k' = false ∧ extended_prefix k' = false ∧
    kbd_queue k' = take 127 (kbd_queue k ++ (typed <$> filter (λ c, typeable c = true) cs))).
  { unfold kbd_type. revert k Hk He Hs. induction Hcs as [|c cs Hc Hcs IH]; intros k Hk He Hs.
    - cbn [foldl]. rewrite app_nil_r, take_ge by (by apply queue_bound). done.
    - cbn [foldl]. rewrite feed_ascii_spec by done. rewrite filter_cons. destruct (typeable c) eqn:Et.
      + destruct (kbd_put_spec (typed c) k Hk) as [Hk' Hq]. destruct (put_flags (typed c) k) as [F1 F2].
        specialize (IH (kbd_buffer_put (typed c) k) Hk' ltac:(congruence) ltac:(congruence)).
        destruct (foldl _ _ cs) as [k' d']. destruct IH as (-> & ? & ? & ? & ->). split_and!; try done.
        rewrite decide_True by done. rewrite fmap_cons, Hq. pose proof (queue_bound k Hk). unfold alen in *. clear Hq. case_decide.
        * by rewrite <- app_assoc.
        * rewrite !take_app_ge by lia. by replace (127 - length (kbd_queue k))%nat with 0%nat by lia.
      + specialize (IH k Hk He Hs). destruct (foldl _ _ cs) as [k' d']. rewrite decide_False by done. done. }
  destruct (kbd_type cs k d) as [k' d']. destruct H as (-> & Hk' & F1 & F2 & Hq). split_and!; try done.
  rewrite kbd_read_spec by done. rewrite Hq, take_take. done.
Qed.
End typing.

(** The keyboard without windows. *)
#[local] Instance no_windows : InputSink unit := {
  display_gui_mode_active _ := false;
  display_gui_handle_key_event _ _ _ _ d := (false, d);
  display_handle_navigation_key _ d := (false, d);
  display_gui_handle_mouse_motion _ _ d := d;
  display_gui_handle_mouse_buttons _ d := d
}.

Lemma kbd_zero_wf : kbd_wf kbd_zero.
Proof. by split. Qed.

(** [Hi!] and a carriage return. *)
Lemma kbd_typing_witness : kbd_read 127 (fst (kbd_type [72; 105; 33; 13] kbd_zero tt)) = [72; 105; 33; 10].
Proof.
  pose proof (kbd_typing [72; 105; 33; 13] kbd_zero tt kbd_zero_wf ltac:(done) ltac:(done) ltac:(done)
    ltac:(repeat constructor; lia)) as H.
  destruct (kbd_type [72; 105; 33; 13] kbd_zero tt) as [k' d']. destruct H as (_ & _ & _ & _ & H). exact H.
Defined.
