(* ===== verification/Console.v ===== *)
(** kernel/serial.c and the console device of kernel/vfs.c: input ownership,
    the arrow keys of a terminal, and the output lock.

    [line] is what the serial port will still deliver; bytes may be added to it
    at any time.  A read that finds nothing sleeps for a tick and goes round its
    loop again, so a blocking read is a sequence of rounds; a write is a
    sequence of steps, each of which puts out one byte, between which other
    tasks run. *)

From S2P Require Import Prelude Ring Keyboard.

Definition SERIAL_RX_BUF_SIZE : Z := 64.

Record serial := Serial {
  serial_rx_buf : list Z;
  serial_rx_head : Z;
  serial_rx_tail : Z;
  line : list Z
}.

Definition serial_zero (l : list Z) : serial := Serial (replicate 64 0) 0 0 l.

Definition serial_rx_buffer_get (s : serial) : option Z * serial :=
  if serial_rx_head s =? serial_rx_tail s then (None, s)
  else (Some (serial_rx_buf s).[serial_rx_tail s],
        Serial (serial_rx_buf s) (serial_rx_head s) ((serial_rx_tail s + 1) mod SERIAL_RX_BUF_SIZE) (line s)).

Definition serial_rx_buffer_put (c : Z) (s : serial) : serial :=
  let next := (serial_rx_head s + 1) mod SERIAL_RX_BUF_SIZE in
  if next =? serial_rx_tail s then s
  else Serial (serial_rx_buf s).[serial_rx_head s <- c] next (serial_rx_tail s) (line s).

(** [while (inb(COM1 + 5) & 0x01)]: all of the line. *)
Definition serial_drain_rx_to_buffer (s : serial) : serial :=
  foldl (λ s c, serial_rx_buffer_put c s)
    (Serial (serial_rx_buf s) (serial_rx_head s) (serial_rx_tail s) []) (line s).

(** [None] is -1. *)
Definition serial_readchar (s : serial) : option Z * serial :=
  match serial_rx_buffer_get s with
  | (Some c, s) => (Some c, s)
  | (None, s) =>
      match line s with
      | [] => (None, s)
      | c :: l => (Some c, Serial (serial_rx_buf s) (serial_rx_head s) (serial_rx_tail s) l)
      end
  end.

Inductive vfs_console_input_owner := VFS_CONSOLE_INPUT_OWNER_KERNEL | VFS_CONSOLE_INPUT_OWNER_USER_TASK.

(** The variables of vfs.c with the devices they stand for; [serial_out] is what
    was sent on the serial line. *)
Record console (δ : Type) := Console {
  keys : kbd;
  display : δ;
  port : serial;
  g_vfs_console_input_owner : vfs_console_input_owner;
  g_vfs_console_input_owner_pid : Z;
  g_vfs_console_write_locked : bool;
  g_vfs_console_serial_escape_state : Z;
  serial_out : list Z
}.
Arguments Console {δ}.
Arguments keys {δ} _.
Arguments display {δ} _.
Arguments port {δ} _.
Arguments g_vfs_console_input_owner {δ} _.
Arguments g_vfs_console_input_owner_pid {δ} _.
Arguments g_vfs_console_write_locked {δ} _.
Arguments g_vfs_console_serial_escape_state {δ} _.
Arguments serial_out {δ} _.

(** The display's side of the output. *)
Class DisplayOut (δ : Type) := { display_putc : Z → δ → δ }.

Section console.
Context {δ : Type} `{!InputSink δ, !DisplayOut δ}.
Implicit Types (c : console δ).

Definition set_keys (kd : kbd * δ) c : console δ :=
  Console kd.1 kd.2 (port c) (g_vfs_console_input_owner c) (g_vfs_console_input_owner_pid c)
    (g_vfs_console_write_locked c) (g_vfs_console_serial_escape_state c) (serial_out c).
Definition set_port (s : serial) c : console δ :=
  Console (keys c) (display c) s (g_vfs_console_input_owner c) (g_vfs_console_input_owner_pid c)
    (g_vfs_console_write_locked c) (g_vfs_console_serial_escape_state c) (serial_out c).
Definition set_owner (o : vfs_console_input_owner) (pid : Z) c : console δ :=
  Console (keys c) (display c) (port c) o pid (g_vfs_console_write_locked c)
    (g_vfs_console_serial_escape_state c) (serial_out c).
Definition set_locked (b : bool) c : console δ :=
  Console (keys c) (display c) (port c) (g_vfs_console_input_owner c) (g_vfs_console_input_owner_pid c) b
    (g_vfs_console_serial_escape_state c) (serial_out c).
Definition set_escape (n : Z) c : console δ :=
  Console (keys c) (display c) (port c) (g_vfs_console_input_owner c) (g_vfs_console_input_owner_pid c)
    (g_vfs_console_write_locked c) n (serial_out c).
Definition serial_writechar (b : Z) c : console δ :=
  Console (keys c) (display c) (port c) (g_vfs_console_input_owner c) (g_vfs_console_input_owner_pid c)
    (g_vfs_console_write_locked c) (g_vfs_console_serial_escape_state c) (serial_out c ++ [b]).
Definition set_display (d : δ) c : console δ := set_keys (keys c, d) c.

(** * The owner of the input *)

(** The console's part of [vfs_init]. *)
Definition vfs_console_init c : console δ :=
  set_escape 0 (set_locked false (set_owner VFS_CONSOLE_INPUT_OWNER_KERNEL (-1) c)).

Definition vfs_console_set_input_owner_kernel c : console δ :=
  set_escape 0 (set_owner VFS_CONSOLE_INPUT_OWNER_KERNEL (-1) c).

Definition vfs_console_set_input_owner_task (pid : Z) c : res unit * console δ :=
  if pid <=? 0 then (Err KERR_INVAL, c) else (Ok tt, set_owner VFS_CONSOLE_INPUT_OWNER_USER_TASK pid c).

Definition vfs_console_get_input_owner c : vfs_console_input_owner := g_vfs_console_input_owner c.

Definition owned_by_task c : bool :=
  match g_vfs_console_input_owner c with VFS_CONSOLE_INPUT_OWNER_USER_TASK => true | _ => false end.

Definition vfs_console_get_input_owner_pid c : Z :=
  if owned_by_task c then g_vfs_console_input_owner_pid c else -1.

Definition vfs_console_input_owner_is_task (pid : Z) c : bool :=
  if pid <=? 0 then false else owned_by_task c && (g_vfs_console_input_owner_pid c =? pid).

(** * Input *)

Definition feed (scancode : Z) c : console δ := set_keys (kbd_feed_scancode scancode (keys c) (display c)) c.

Definition vfs_console_feed_extended_scancode (scancode : Z) c : console δ :=
  feed (Z.lor scancode 128) (feed 224 (feed scancode (feed 224 c))).

Definition ESCAPE : Z := 27.
Definition LBRACKET : Z := 91.

(** [Some ch] on the way in is a character of the line. *)
Definition vfs_console_translate_serial_input (serial_ch : Z) c : option Z * console δ :=
  let state := g_vfs_console_serial_escape_state c in
  if state =? 0 then
    if serial_ch =? ESCAPE then (None, set_escape 1 c) else (Some serial_ch, c)
  else if state =? 1 then
    if serial_ch =? LBRACKET then (None, set_escape 2 c) else (Some serial_ch, set_escape 0 c)
  else if state =? 2 then
    let c := set_escape 0 c in
    if serial_ch =? 65 then (None, vfs_console_feed_extended_scancode 72 c)
    else if serial_ch =? 66 then (None, vfs_console_feed_extended_scancode 80 c)
    else if serial_ch =? 67 then (None, vfs_console_feed_extended_scancode 77 c)
    else if serial_ch =? 68 then (None, vfs_console_feed_extended_scancode 75 c)
    else (Some serial_ch, c)
  else (Some serial_ch, set_escape 0 c).

Definition getchar c : option Z * console δ :=
  let '(ch, k) := kbd_getchar (keys c) in (ch, set_keys (k, display c) c).

Definition vfs_console_poll_input_char c : option Z * console δ :=
  match getchar c with
  | (Some ch, c) => (Some ch, c)
  | (None, c) =>
      let '(serial_ch, p) := serial_readchar (port c) in
      let c := set_port p c in
      match serial_ch with
      | None => (None, c)
      | Some serial_ch =>
          match vfs_console_translate_serial_input serial_ch c with
          | (None, c) => (None, c)
          | (Some serial_ch, c) =>
              let c := set_keys (kbd_feed_ascii serial_ch (keys c) (display c)) c in
              match getchar c with
              | (Some ch, c) => (Some ch, c)
              | (None, c) => (Some serial_ch, c)
              end
          end
      end
  end.

(** [while (n < len)], up to a poll that finds nothing. *)
Fixpoint read_chars (n : nat) c : list Z * console δ :=
  match n with
  | O => ([], c)
  | S n' =>
      match vfs_console_poll_input_char c with
      | (None, c) => ([], c)
      | (Some ch, c) => let '(bs, c) := read_chars n' c in (ch :: bs, c)
      end
  end.

(** The loop from the entry, or from [sched_sleep_ticks(1U); continue], to a
    result or the next sleep ([None]). *)
Definition read_round (should_block : bool) (len : Z) c : option (list Z) * console δ :=
  let '(bs, c) := read_chars (Z.to_nat len) c in
  if should_block && negb (len =? 0) && (alen bs =? 0) then (None, c) else (Some bs, c).

(** The task's [pid] and whether it is a user task are read on entry. *)
Definition vfs_console_read (pid : Z) (is_user has_buf : bool) (len : Z) c : option (res (list Z)) * console δ :=
  if negb has_buf && negb (len =? 0) then (Some (Err KERR_INVAL), c)
  else if owned_by_task c && negb (pid =? g_vfs_console_input_owner_pid c) then (Some (Ok []), c)
  else
    let should_block := is_user && owned_by_task c && (pid =? g_vfs_console_input_owner_pid c) in
    let '(r, c) := read_round should_block len c in (Ok <$> r, c).

(** A blocking read with at most [fuel] sleeps. *)
Fixpoint read_rounds (fuel : nat) (len : Z) c : option (list Z) * console δ :=
  match read_round true len c with
  | (Some bs, c) => (Some bs, c)
  | (None, c) => match fuel with O => (None, c) | S fuel' => read_rounds fuel' len c end
  end.

(** With the call it starts with. *)
Definition blocking_read (fuel : nat) (pid : Z) (is_user has_buf : bool) (len : Z) c
    : option (res (list Z)) * console δ :=
  match vfs_console_read pid is_user has_buf len c, fuel with
  | (None, c), S fuel' => let '(r, c) := read_rounds fuel' len c in (Ok <$> r, c)
  | r, _ => r
  end.

(** * Output *)

Inductive out_act := SerialOut (b : Z) | DisplayPut (b : Z).

Definition LF : Z := 10.
Definition CR : Z := 13.

(** The calls for one character, and for a buffer. *)
Definition char_acts (b : Z) : list out_act := (if b =? LF then [SerialOut CR] else []) ++ [SerialOut b; DisplayPut b].
Definition write_acts (buf : list Z) : list out_act := buf ≫= char_acts.

Definition perform (a : out_act) c : console δ :=
  match a with
  | SerialOut b => serial_writechar b c
  | DisplayPut b => set_display (display_putc b (display c)) c
  end.

(** A round of the loop of [vfs_console_write_lock]; [None] yields and tries
    again. *)
Definition try_lock c : option (console δ) :=
  if g_vfs_console_write_locked c then None else Some (set_locked true c).

Definition vfs_console_write_unlock c : console δ := set_locked false c.

(** Without interruption. *)
Definition vfs_console_write (buf : list Z) c : option (console δ) :=
  c ← try_lock c; Some (vfs_console_write_unlock (foldl (λ c a, perform a c) c (write_acts buf))).
End console.

(** * The serial line is a queue *)

Record serial_wf (s : serial) : Prop := {
  sw_size : alen (serial_rx_buf s) = SERIAL_RX_BUF_SIZE;
  sw_head : 0 ≤ serial_rx_head s < SERIAL_RX_BUF_SIZE;
  sw_tail : 0 ≤ serial_rx_tail s < SERIAL_RX_BUF_SIZE
}.

Definition rx_queue (s : serial) : list Z :=
  ring_items SERIAL_RX_BUF_SIZE (serial_rx_buf s) (serial_rx_tail s)
    (ring_used SERIAL_RX_BUF_SIZE (serial_rx_tail s) (serial_rx_head s)).

(** The characters still to be read. *)
Definition unread (s : serial) : list Z := rx_queue s ++ line s.

Lemma serial_read_spec s :
  serial_wf s →
  match serial_readchar s with
  | (None, s') => unread s = [] ∧ s' = s
  | (Some b, s') => unread s = b :: unread s' ∧ serial_wf s'
  end.
Proof.
  intros [Hs Hh Ht]. unfold serial_readchar, serial_rx_buffer_get, unread, rx_queue.
  destruct (Z.eqb_spec (serial_rx_head s) (serial_rx_tail s)) as [He|He].
  - rewrite He, ring_empty. destruct (line s) as [|b l] eqn:El; [done|]. split; [|by split].
    cbn [serial_rx_buf serial_rx_head serial_rx_tail line app]. by rewrite ring_empty.
  - destruct (ring_step SERIAL_RX_BUF_SIZE _ _ Ht Hh ltac:(done)) as [Hu Hn].
    split; [|by split]. cbn [serial_rx_buf serial_rx_head serial_rx_tail line]. rewrite Hu.
    rewrite ring_items_cons; [done..|]. apply Z.mod_pos_bound. unfold SERIAL_RX_BUF_SIZE. lia.
Qed.

Lemma rx_put_spec b s :
  serial_wf s →
  let s' := serial_rx_buffer_put b s in
  serial_wf s' ∧ line s' = line s ∧
  rx_queue s' = if decide (alen (rx_queue s) < 63) then rx_queue s ++ [b] else rx_queue s.
Proof.
  intros [Hs Hh Ht]. unfold serial_rx_buffer_put. pose proof (ring_used_bounds SERIAL_RX_BUF_SIZE _ _ Ht Hh) as Hu.
  assert (Hl : alen (rx_queue s) = ring_used SERIAL_RX_BUF_SIZE (serial_rx_tail s) (serial_rx_head s)).
  { unfold rx_queue. apply ring_items_len. lia. }
  rewrite Hl. destruct (ring_next SERIAL_RX_BUF_SIZE _ _ Ht Hh) as [Hn Hc].
  destruct (Z.eqb_spec ((serial_rx_head s + 1) mod SERIAL_RX_BUF_SIZE) (serial_rx_tail s)) as [He|He].
  - rewrite decide_True in Hc by done. rewrite Hc, decide_False by (unfold SERIAL_RX_BUF_SIZE; lia). by split_and!.
  - rewrite decide_False in Hc by done. destruct Hc as [Hc1 Hc2].
    rewrite decide_True by (unfold SERIAL_RX_BUF_SIZE in *; lia).
    split; [split; simpl; [by rewrite alen_aset|done..]|]. split; [done|].
    unfold rx_queue at 1. cbn [serial_rx_buf serial_rx_head serial_rx_tail]. rewrite Hc2.
    rewrite <- (ring_end SERIAL_RX_BUF_SIZE (serial_rx_tail s) (serial_rx_head s)) at 1 by done.
    by apply ring_items_snoc.
Qed.

Lemma rx_drain_spec s :
  serial_wf s →
  let s' := serial_drain_rx_to_buffer s in
  serial_wf s' ∧ line s' = [] ∧ rx_queue s' = take 63 (unread s).
Proof.
  unfold serial_drain_rx_to_buffer, unread. intros Hs.
  assert (Hb : ∀ s, serial_wf s → (length (rx_queue s) ≤ 63)%nat).
  { intros s0 [_ Hh Ht]. pose proof (ring_used_bounds SERIAL_RX_BUF_SIZE _ _ Ht Hh) as Hu.
    unfold rx_queue, ring_items. rewrite length_fmap, length_seqZ. unfold SERIAL_RX_BUF_SIZE in *. lia. }
  set (s0 := Serial _ _ _ _). assert (H0 : serial_wf s0 ∧ rx_queue s0 = rx_queue s ∧ line s0 = [])
    by (split_and!; [destruct Hs; by split|done|done]).
  destruct H0 as (H0 & Eq & El). rewrite <- Eq. clearbody s0. clear Eq Hs. revert s0 H0 El.
  induction (line s) as [|b l IH]; intros s0 H0 El; simpl.
  - split_and!; [done..|]. rewrite app_nil_r, take_ge; [done|]. by apply Hb.
  - destruct (rx_put_spec b s0 H0) as (H1 & El1 & Eq). destruct (IH _ H1 ltac:(congruence)) as (? & ? & ->).
    split_and!; [done..|]. rewrite Eq. clear Eq. unfold alen. case_decide.
    + by rewrite <- app_assoc.
    + specialize (Hb s0 H0). rewrite !take_app_ge by lia. by replace (63 - length (rx_queue s0))%nat with 0%nat by lia.
Qed.

(** * What the readers get *)

(** The characters a terminal's line stands for, from an escape state. *)
Fixpoint decode (state : Z) (l : list Z) : list Z :=
  match l with
  | [] => []
  | ch :: l =>
      if state =? 0 then if ch =? ESCAPE then decode 1 l else typed ch :: decode 0 l
      else if state =? 1 then if ch =? LBRACKET then decode 2 l else typed ch :: decode 0 l
      else if (65 <=? ch) && (ch <=? 68) then decode 0 l else typed ch :: decode 0 l
  end.

Section reading.
Context {δ : Type} `{!InputSink δ, !DisplayOut δ}.
Implicit Types (c : console δ).
(** Moving in the shell's panels does not start the window system. *)
Hypothesis nav_inactive : ∀ key (d : δ),
  display_gui_mode_active d = false → display_gui_mode_active (display_handle_navigation_key key d).2 = false.

(** No window system, no key held. *)
Record ready c : Prop := {
  rd_keys : kbd_wf (keys c);
  rd_shift : shift_pressed (keys c) = false;
  rd_prefix : extended_prefix (keys c) = false;
  rd_inactive : display_gui_mode_active (display c) = false;
  rd_port : serial_wf (port c);
  rd_escape : 0 ≤ g_vfs_console_serial_escape_state c ≤ 2;
  rd_bytes : Forall (λ b, 0 ≤ b < 256) (unread (port c))
}.

Definition pending c : list Z := kbd_queue (keys c) ++ decode (g_vfs_console_serial_escape_state c) (unread (port c)).

Lemma feed_eq scancode c k d :
  kbd_feed_scancode scancode (keys c) (display c) = (k, d) → feed scancode c = set_keys (k, d) c.
Proof. unfold feed. by intros ->. Qed.

Lemma arrow_keys scancode c :
  ready c → scancode ∈ [72; 80; 77; 75] →
  ∃ d, display_gui_mode_active d = false ∧ vfs_console_feed_extended_scancode scancode c = set_display d c.
Proof using nav_inactive.
  intros [Hk Hs Hp Hd _ _ _] Hin.
  assert (Hc : ∃ key, ∀ k d, display_gui_mode_active d = false →
    kbd_feed_scancode scancode (set_extended true k) d = (set_extended false k, (display_handle_navigation_key key d).2) ∧
    kbd_feed_scancode (Z.lor scancode 128) (set_extended true k) d = (set_extended false k, d)).
  { assert (Hr : ∀ kc ch p k d, display_gui_mode_active d = false → kbd_gui_route_key kc ch p k d = (false, d))
      by (intros kc ch p k d Ha; unfold kbd_gui_route_key; by rewrite Ha).
    rewrite !elem_of_cons in Hin. destruct Hin as [->|[->|[->|[->|H]]]]; [..|by apply elem_of_nil in H]; eexists; intros k d Ha;
      unfold kbd_feed_scancode, extended_code, kbd_try_handle_extended_press; cbn -[kbd_gui_route_key]; rewrite ?Hr by done; done. }
  destruct Hc as [key Hc]. exists (display_handle_navigation_key key (display c)).2. split; [by apply nav_inactive|].
  set (k := keys c). set (d := display c) in *. set (d' := (display_handle_navigation_key key d).2).
  unfold vfs_console_feed_extended_scancode.
  rewrite (feed_eq 224 c (set_extended true k) d) by done.
  rewrite (feed_eq scancode _ (set_extended false k) d') by (by apply Hc).
  rewrite (feed_eq 224 _ (set_extended true (set_extended false k)) d') by done.
  rewrite (feed_eq (Z.lor scancode 128) _ (set_extended false (set_extended false k)) d') by (by apply Hc, nav_inactive).
  unfold set_display. replace (set_extended false (set_extended false k)) with (keys c); [done|].
  subst k. destruct (keys c); cbn in *. by subst.
Qed.

Lemma ready_keys k c :
  ready c → kbd_wf k → shift_pressed k = false → extended_prefix k = false → ready (set_keys (k, display c) c).
Proof. intros [? ? ? ? ? ? ?] ? ? ?. by split. Qed.

Lemma ready_escape n c : ready c → 0 ≤ n ≤ 2 → ready (set_escape n c).
Proof. intros [? ? ? ? ? ? ?] ?. by split. Qed.

Lemma ready_display d c : ready c → display_gui_mode_active d = false → ready (set_display d c).
Proof. intros [? ? ? ? ? ? ?] ?. by split. Qed.

Lemma set_keys_id c : set_keys (keys c, display c) c = c.
Proof. by destruct c. Qed.

Lemma translate_spec b c :
  ready c →
  let '(r, c') := vfs_console_translate_serial_input b c in
  ready c' ∧ keys c' = keys c ∧ port c' = port c ∧
  match r with
  | None => ∀ l, decode (g_vfs_console_serial_escape_state c) (b :: l) = decode (g_vfs_console_serial_escape_state c') l
  | Some ch => ch = b ∧
      ∀ l, decode (g_vfs_console_serial_escape_state c) (b :: l) = typed b :: decode (g_vfs_console_serial_escape_state c') l
  end.
Proof using nav_inactive.
  intros Hc. unfold vfs_console_translate_serial_input. pose proof (rd_escape c Hc) as He.
  assert (Hn : ∀ n, 0 ≤ n ≤ 2 → ready (set_escape n c)) by (intros; by apply ready_escape).
  destruct (Z.eqb_spec (g_vfs_console_serial_escape_state c) 0) as [E0|E0]; [|
    destruct (Z.eqb_spec (g_vfs_console_serial_escape_state c) 1) as [E1|E1]; [|
      destruct (Z.eqb_spec (g_vfs_console_serial_escape_state c) 2) as [E2|E2]; [|lia]]].
  - destruct (b =? ESCAPE) eqn:Eb; split_and!; try done; try (by apply Hn); intros; simpl; by rewrite ?E0, ?Eb.
  - destruct (b =? LBRACKET) eqn:Eb; split_and!; try done; try (by apply Hn); intros; simpl; by rewrite ?E1, ?Eb.
  - assert (Hf : ∀ sc, sc ∈ [72; 80; 77; 75] →
      ∃ d, vfs_console_feed_extended_scancode sc (set_escape 0 c) = set_display d (set_escape 0 c) ∧
           ready (set_display d (set_escape 0 c))).
    { intros sc Hsc. destruct (arrow_keys sc (set_escape 0 c) ltac:(by apply Hn) Hsc) as (d & Hd & ->).
      exists d. split; [done|]. apply ready_display; [by apply Hn|done]. }
    assert (Hd : ∀ l, decode 2 (b :: l) = if (65 <=? b) && (b <=? 68) then decode 0 l else typed b :: decode 0 l) by done.
    rewrite E2.
    destruct (Z.eqb_spec b 65) as [->|]; [|destruct (Z.eqb_spec b 66) as [->|]; [|
      destruct (Z.eqb_spec b 67) as [->|]; [|destruct (Z.eqb_spec b 68) as [->|]]]].
    1-4: match goal with |- context [vfs_console_feed_extended_scancode ?sc _] =>
      destruct (Hf sc ltac:(set_solver)) as (d & -> & Hr) end; by split_and!.
    split_and!; try done; [by apply Hn|]. intros l. rewrite Hd.
    replace ((65 <=? b) && (b <=? 68)) with false; [done|]. symmetry. apply andb_false_iff.
    destruct (Z.leb_spec 65 b); [right; apply Z.leb_gt; lia|by left].
Qed.

(** A character of the line, put into the keyboard's buffer and taken out. *)
Lemma deliver_spec b c :
  ready c → kbd_queue (keys c) = [] → 0 ≤ b < 256 →
  let c' := set_keys (kbd_feed_ascii b (keys c) (display c)) c in
  let '(r, c'') := getchar c' in
  default b r = typed b ∧ ready c'' ∧ kbd_queue (keys c'') = [] ∧ port c'' = port c ∧
  g_vfs_console_serial_escape_state c'' = g_vfs_console_serial_escape_state c.
Proof using.
  intros Hc Hq Hb. destruct Hc as [Hk Hs Hp Hd Hw He Hl] eqn:EHc. clear EHc.
  rewrite (feed_ascii_spec b _ _ Hd Hp Hs Hb). unfold getchar, set_keys at 1. cbn [fst snd keys display].
  destruct (typeable b) eqn:Et.
  - destruct (kbd_put_spec (typed b) (keys c) Hk) as [Hk' Hq']. destruct (put_flags (typed b) (keys c)) as [F1 F2].
    rewrite Hq in Hq'. rewrite decide_True in Hq' by done.
    pose proof (kbd_get_spec _ Hk') as Hg. rewrite Hq' in Hg.
    destruct (kbd_getchar (kbd_buffer_put (typed b) (keys c))) as [[ch|] k'] eqn:Eg; [|by destruct Hg].
    destruct Hg as [Hg Hk'']. injection Hg as -> Hg.
    assert (Hf : shift_pressed k' = false ∧ extended_prefix k' = false).
    { unfold kbd_getchar in Eg. case_match; [done|]. injection Eg as <- <-. cbn. by rewrite F1, F2. }
    split_and!; try done. split; try done; apply Hf.
  - pose proof (kbd_get_spec _ Hk) as Hg. rewrite Hq in Hg.
    destruct (kbd_getchar (keys c)) as [[ch|] k']; [by destruct Hg|]. destruct Hg as [_ ->].
    split_and!; try done. cbn [default from_option]. unfold typed, typeable in *.
    destruct (b =? 13); [|done]. by rewrite !orb_true_r in Et.
Qed.

(** A poll takes the next character, if one can be told from what is there. *)
Lemma poll_spec c :
  ready c →
  match vfs_console_poll_input_char c with
  | (Some ch, c') => ready c' ∧ pending c = ch :: pending c' ∧ (length (unread (port c')) ≤ length (unread (port c)))%nat
  | (None, c') => ready c' ∧ pending c = pending c' ∧ kbd_queue (keys c') = [] ∧
                  (unread (port c) = [] ∧ unread (port c') = [] ∨ length (unread (port c)) = S (length (unread (port c'))))
  end.
Proof using nav_inactive.
  intros Hc. unfold vfs_console_poll_input_char, getchar at 1. pose proof (kbd_get_spec (keys c) (rd_keys c Hc)) as Hg.
  destruct (kbd_getchar (keys c)) as [[ch|] k'] eqn:Eg.
  { destruct Hg as [Hq Hk]. assert (Hr : ready (set_keys (k', display c) c)).
    { apply ready_keys; try done; unfold kbd_getchar in Eg; case_match; try done; injection Eg as <- <-; apply Hc. }
    split_and!; [done|unfold pending; by rewrite Hq|done]. }
  destruct Hg as [Hq ->]. rewrite set_keys_id. pose proof (serial_read_spec (port c) (rd_port c Hc)) as Hs.
  destruct (serial_readchar (port c)) as [[b|] p].
  2: { destruct Hs as [Hu ->]. replace (set_port (port c) c) with c by (by destruct c). split_and!; try done. by left. }
  destruct Hs as [Hu Hp]. pose proof (rd_bytes c Hc) as Hb. rewrite Hu in Hb. apply Forall_cons in Hb as [Hb Hb'].
  assert (Hr : ready (set_port p c)) by (destruct Hc; by split).
  pose proof (translate_spec b (set_port p c) Hr) as Ht.
  destruct (vfs_console_translate_serial_input b (set_port p c)) as [[ch|] c1]; destruct Ht as (Hr1 & Ek & Ep & Ht).
  - destruct Ht as [-> Ht]. pose proof (deliver_spec b c1 Hr1 ltac:(by rewrite Ek) Hb) as Hd. cbv zeta in Hd.
    set (c2 := set_keys _ c1) in *. destruct (getchar c2) as [r c3]. destruct Hd as (Ed & Hr3 & Hq3 & Ep3 & Ee3).
    assert (HP : pending c = typed b :: pending c3).
    { unfold pending. rewrite Hq, Hq3, Ep3, Ee3, Ep. cbn [port set_port app]. rewrite Hu. apply Ht. }
    assert (HL : (length (unread (port c3)) ≤ length (unread (port c)))%nat).
    { rewrite Ep3, Ep. cbn [port set_port]. rewrite Hu. simpl. lia. }
    destruct r as [r|]; cbn in Ed; rewrite Ed; by split_and!.
  - split_and!; [done| |by rewrite Ek|right; rewrite Ep, Hu; done]. unfold pending.
    rewrite Ek, Ep. cbn [keys port set_port]. rewrite Hu. f_equal. apply Ht.
Qed.

Lemma read_chars_spec n c :
  ready c →
  let '(bs, c') := read_chars n c in
  ready c' ∧ pending c = bs ++ pending c' ∧ (length bs ≤ n)%nat ∧
  (length (unread (port c')) ≤ length (unread (port c)))%nat ∧
  (bs = [] → n ≠ 0%nat →
     pending c' = [] ∧ unread (port c) = [] ∨ (length (unread (port c')) < length (unread (port c)))%nat).
Proof using nav_inactive.
  revert c. induction n as [|n IH]; intros c Hc; cbn [read_chars]; [by split_and!|].
  pose proof (poll_spec c Hc) as Hp. destruct (vfs_console_poll_input_char c) as [[ch|] c1].
  - destruct Hp as (Hc1 & Hp1 & Hu). specialize (IH c1 Hc1). destruct (read_chars n c1) as [bs c2].
    destruct IH as (Hc2 & Hp2 & Hl & Hu2 & _). split_and!; [done|by rewrite Hp1, Hp2|simpl; lia|lia|done].
  - destruct Hp as (Hc1 & Hp1 & Hq & Hu).
    split_and!; [done|done|simpl; lia|destruct Hu as [[-> ->]|Hu]; [done|lia]|].
    intros _ _. destruct Hu as [[E E']|Hu]; [left|right; lia]. split; [|done]. unfold pending. by rewrite Hq, E'.
Qed.

Lemma line_rounds_spec fuel len c :
  ready c → 0 < len → (length (unread (port c)) ≤ fuel)%nat →
  match read_rounds fuel len c with
  | (Some bs, c') => ready c' ∧ bs ≠ [] ∧ alen bs ≤ len ∧ pending c = bs ++ pending c'
  | (None, c') => ready c' ∧ pending c = [] ∧ pending c' = []
  end.
Proof using nav_inactive.
  revert c. induction fuel as [|fuel IH]; intros c Hc Hl Hf.
  all: cbn [read_rounds]; unfold read_round; pose proof (read_chars_spec (Z.to_nat len) c Hc) as Hr.
  all: destruct (read_chars (Z.to_nat len) c) as [bs c1]; destruct Hr as (Hc1 & Hp & Hn & Hu & He).
  all: rewrite (proj2 (Z.eqb_neq len 0)) by lia; cbn [negb andb].
  all: destruct bs as [|b bs]; [change (@alen Z [] =? 0) with true|change (alen (b :: bs) =? 0) with false]; cbv iota.
  2, 4: split_and!; [done|done|unfold alen; lia|done].
  - destruct (He eq_refl ltac:(lia)) as [[E _]|E]; [|lia]. by rewrite Hp, E.
  - destruct (He eq_refl ltac:(lia)) as [[E Eu]|E].
    + rewrite Eu in Hu. simpl in Hu. specialize (IH c1 Hc1 Hl ltac:(simpl in *; lia)).
      destruct (read_rounds fuel len c1) as [[bs|] c2].
      * destruct IH as (? & Hb & ? & Hp'). rewrite E in Hp'. by destruct bs.
      * destruct IH as (? & ? & ?). split_and!; [done|by rewrite Hp, E|done].
    + specialize (IH c1 Hc1 Hl ltac:(lia)). by rewrite Hp.
Qed.

End reading.

(** * Writers that take turns *)

Inductive writer := Waiting (buf : list Z) | Writing (rest : list out_act).

Definition on_line (buf : list Z) : list Z := buf ≫= λ b, if b =? LF then [CR; b] else [b].
Definition sent_by (acts : list out_act) : list Z :=
  acts ≫= λ a, match a with SerialOut b => [b] | DisplayPut _ => [] end.

Lemma sent_write buf : sent_by (write_acts buf) = on_line buf.
Proof.
  unfold sent_by, write_acts, on_line. induction buf as [|b buf IH]; [done|].
  rewrite !bind_cons, bind_app, IH. f_equal. unfold char_acts. by case_match.
Qed.

Section writing.
Context {δ : Type} `{!DisplayOut δ}.

(** The tasks inside [vfs_console_write], and the buffers in the order in which
    they got the lock. *)
Record output := Output { con : console δ; writers : gmap Z writer; started : list (list Z) }.
Implicit Types (r : output).

Inductive out_step : output → output → Prop :=
  | step_call r pid buf :
      writers r !! pid = None →
      out_step r (Output (con r) (<[pid := Waiting buf]> (writers r)) (started r))
  | step_lock r pid buf c :
      writers r !! pid = Some (Waiting buf) → try_lock (con r) = Some c →
      out_step r (Output c (<[pid := Writing (write_acts buf)]> (writers r)) (started r ++ [buf]))
  | step_act r pid a rest :
      writers r !! pid = Some (Writing (a :: rest)) →
      out_step r (Output (perform a (con r)) (<[pid := Writing rest]> (writers r)) (started r))
  | step_unlock r pid :
      writers r !! pid = Some (Writing []) →
      out_step r (Output (vfs_console_write_unlock (con r)) (delete pid (writers r)) (started r))
  | step_other r c :
      g_vfs_console_write_locked c = g_vfs_console_write_locked (con r) → serial_out c = serial_out (con r) →
      out_step r (Output c (writers r) (started r)).

(** What the tasks that hold the lock have still to send. *)
Definition out_inv (before : list Z) r : Prop :=
  ∃ rest,
    serial_out (con r) ++ rest = before ++ (started r ≫= on_line) ∧
    if g_vfs_console_write_locked (con r) then
      ∃ pid acts, writers r !! pid = Some (Writing acts) ∧ sent_by acts = rest ∧
        (∃ l buf, started r = l ++ [buf] ∧ rest `suffix_of` on_line buf) ∧
        ∀ pid' acts', writers r !! pid' = Some (Writing acts') → pid' = pid
    else rest = [] ∧ ∀ pid acts, writers r !! pid ≠ Some (Writing acts).

Lemma perform_locked a (c : console δ) :
  g_vfs_console_write_locked (perform a c) = g_vfs_console_write_locked c ∧
  serial_out (perform a c) = serial_out c ++ sent_by [a].
Proof. destruct a; split; try done. simpl. by rewrite app_nil_r. Qed.

Lemma out_step_inv before r r' : out_inv before r → out_step r r' → out_inv before r'.
Proof.
  intros (rest & Hs & Hi) Hst. destruct Hst as [r pid buf Hp|r pid buf c Hp Hl|r pid a acts Hp|r pid Hp|r c Hl Ho]; unfold out_inv; cbn [con writers started].
  - exists rest. split; [done|]. destruct (g_vfs_console_write_locked (con r)).
    + destruct Hi as (p & acts & Hw & Hr & Hb & Hu). exists p, acts. split_and!; try done.
      * rewrite lookup_insert_ne; [done|]. intros ->. by rewrite Hp in Hw.
      * intros p' acts'. rewrite lookup_insert_Some. naive_solver.
    + destruct Hi as [-> Hi]. split; [done|]. intros p acts. rewrite lookup_insert_Some. naive_solver.
  - unfold try_lock in Hl. destruct (g_vfs_console_write_locked (con r)); [done|]. injection Hl as <-.
    destruct Hi as [-> Hi]. exists (on_line buf). cbn [serial_out set_locked g_vfs_console_write_locked].
    rewrite app_nil_r in Hs. rewrite Hs, bind_app, bind_singleton, app_assoc. split; [done|].
    exists pid, (write_acts buf). split_and!; [by rewrite lookup_insert_eq|apply sent_write|by eexists _, _|].
    intros p' acts'. rewrite lookup_insert_Some. intros [[-> _]|[_ H]]; [done|]. by destruct (Hi p' acts').
  - destruct (perform_locked a (con r)) as [-> Eo]. destruct (g_vfs_console_write_locked (con r)).
    + destruct Hi as (p & acts1 & Hw & Hr & Hb & Hu). assert (pid = p) as -> by (by eapply Hu). rewrite Hp in Hw. injection Hw as <-.
      exists (sent_by acts). change (a :: acts) with ([a] ++ acts) in Hr. unfold sent_by in Hr. rewrite bind_app in Hr.
      fold (sent_by [a]) (sent_by acts) in Hr. rewrite Eo, <- app_assoc, Hr. split; [done|].
      exists p, acts. split_and!; [by rewrite lookup_insert_eq|done| |].
      * destruct Hb as (l & buf & Hst & k & Hb). exists l, buf. split; [done|]. exists (k ++ sent_by [a]). by rewrite <- app_assoc, Hr.
      * intros p' acts'. rewrite lookup_insert_Some. naive_solver.
    + destruct Hi as [_ Hi]. by destruct (Hi pid (a :: acts)).
  - cbn [vfs_console_write_unlock set_locked g_vfs_console_write_locked serial_out]. destruct (g_vfs_console_write_locked (con r)).
    + destruct Hi as (p & acts1 & Hw & Hr & Hb & Hu). assert (pid = p) as -> by (by eapply Hu). rewrite Hp in Hw. injection Hw as <-.
      exists []. cbn in Hr. subst rest. split; [done|]. split; [done|]. intros p' acts'.
      rewrite lookup_delete_Some. intros [Hne H]. by apply Hne; symmetry; eapply Hu.
    + destruct Hi as [_ Hi]. by destruct (Hi pid []).
  - exists rest. by rewrite Hl, Ho.
Qed.

(** C16: the lines of writers do not mix: at any time, what the serial line got
    is the buffers in the order in which their writers got the lock, each with
    its newlines turned into CR LF, whole but for the end of the last one, and
    that one is whole too when the lock is free.  While the lock is taken, one
    writer and only one is inside and can go on, so it is never left taken. *)
Theorem console_writes_whole (r0 r : output) :
  rtc out_step r0 r → writers r0 = ∅ → started r0 = [] → g_vfs_console_write_locked (con r0) = false →
  ∃ rest, serial_out (con r) ++ rest = serial_out (con r0) ++ (started r ≫= on_line) ∧
    if g_vfs_console_write_locked (con r) then
      (∃ l buf, started r = l ++ [buf] ∧ rest `suffix_of` on_line buf) ∧
      ∃ pid acts, writers r !! pid = Some (Writing acts) ∧
        ∀ pid' acts', writers r !! pid' = Some (Writing acts') → pid' = pid
    else rest = [].
Proof.
  intros Hr Hw Hs Hl. assert (Hi : out_inv (serial_out (con r0)) r0).
  { exists []. rewrite Hl, Hs. split; [done|]. split; [done|]. intros p acts. by rewrite Hw, lookup_empty. }
  assert (H : out_inv (serial_out (con r0)) r).
  { revert Hi. generalize (serial_out (con r0)). intros before Hi. clear Hw Hs Hl. induction Hr; [done|]. apply IHHr. by eapply out_step_inv. }
  destruct H as (rest & H1 & H2). exists rest. split; [done|]. destruct (g_vfs_console_write_locked (con r)).
  - destruct H2 as (p & acts & ? & ? & ? & ?). split; [done|]. by exists p, acts.
  - by destruct H2.
Qed.
End writing.

(** * A console without windows *)

#[local] Instance plain_screen : InputSink (list Z) := {
  display_gui_mode_active _ := false;
  display_gui_handle_key_event _ _ _ _ d := (false, d);
  display_handle_navigation_key _ d := (true, d);
  display_gui_handle_mouse_motion _ _ d := d;
  display_gui_handle_mouse_buttons _ d := d
}.
#[local] Instance plain_out : DisplayOut (list Z) := { display_putc b d := d ++ [b] }.

(** Owned by task 5, with [a], an arrow key and a carriage return on the line. *)
Definition demo_console : console (list Z) :=
  Console kbd_zero [] (serial_zero [97; 27; 91; 65; 13]) VFS_CONSOLE_INPUT_OWNER_USER_TASK 5 false 0 [].

Lemma demo_ready : ready demo_console.
Proof. split; [by split|done..|by split|by cbn|repeat constructor; lia]. Qed.


(** Task 1 is writing a newline while task 2 waits. *)
Definition demo_begin : output := Output demo_console ∅ [].
Definition demo_middle : output :=
  Output (serial_writechar CR (set_locked true demo_console))
    (<[1 := Writing [SerialOut 10; DisplayPut 10]]> (<[2 := Waiting [65]]>
      (<[1 := Writing (write_acts [10])]> (<[1 := Waiting [10]]> ∅)))) [[10]].

Lemma demo_steps : rtc out_step demo_begin demo_middle.
Proof.
  eapply rtc_l; [apply (step_call _ 1 [10]); reflexivity|].
  eapply rtc_l; [eapply (step_lock _ 1 [10]); reflexivity|].
  eapply rtc_l; [apply (step_call _ 2 [65]); reflexivity|].
  eapply rtc_l; [apply (step_act _ 1 (SerialOut 13) [SerialOut 10; DisplayPut 10]); reflexivity|].
  apply rtc_refl.
Qed.

Lemma console_writes_whole_witness : ∃ rest, serial_out (con demo_middle) ++ rest = [13; 10] ∧ rest = [10].
Proof.
  pose proof (console_writes_whole demo_begin demo_middle demo_steps eq_refl eq_refl eq_refl) as H.
  destruct H as (rest & H & _). exists rest. cbn in H. by injection H as ->.
Defined.

(** With the window system on, a key that a window has taken is read from the
    console as well. *)
Definition gui_screen : InputSink (list Z) := {|
  display_gui_mode_active _ := true;
  display_gui_handle_key_event _ ch _ pressed d := (true, if pressed then d ++ [ch] else d);
  display_handle_navigation_key _ d := (false, d);
  display_gui_handle_mouse_motion _ _ d := d;
  display_gui_handle_mouse_buttons _ d := d
|}.

Lemma window_key_read_twice :
  let '(ch, c) := @vfs_console_poll_input_char _ gui_screen demo_console in ch = Some 97 ∧ display c = [97].
Proof. vm_compute. split; reflexivity. Qed.
