(* ===== verification/Framebuffer.v ===== *)
(** kernel/display.c: the frame buffer.

    Where it is mapped and how the screen is divided ([display_late_init]), the
    font, and the drawing of rectangles and text.  A screen gives every pixel's
    value: pixel [(x, y)] stands for the [bytes_per_pixel] bytes at
    [y * pitch + x * bytes_per_pixel].  The clip rectangle of the window system is
    an argument of the drawing functions ([None]: not active). *)

From S2P Require Import Prelude Pmm Kmalloc Paging PagingMap.

Record boot_framebuffer_info := FbInfo {
  fb_address : Z;
  fb_pitch : Z;
  fb_width : Z;
  fb_height : Z;
  fb_bpp : Z;
  fb_type : Z;
  red_field_position : Z;
  red_mask_size : Z;
  green_field_position : Z;
  green_mask_size : Z;
  blue_field_position : Z;
  blue_mask_size : Z
}.

Definition KERNEL_FRAMEBUFFER_WINDOW_BASE : Z := 3254779904.
Definition KERNEL_FRAMEBUFFER_WINDOW_SIZE_BYTES : Z := 16 * 1024 * 1024.
Definition PAGING_PAGE_FLAG_WRITE_THROUGH : Z := 8.
Definition PAGING_PAGE_FLAG_CACHE_DISABLE : Z := 16.
Definition DISPLAY_FRAMEBUFFER_PAGE_FLAGS : Z :=
  Z.lor (Z.lor PAGING_PAGE_FLAG_WRITABLE PAGING_PAGE_FLAG_WRITE_THROUGH) PAGING_PAGE_FLAG_CACHE_DISABLE.

Definition DISPLAY_FB_CHAR_W : Z := 14.
Definition DISPLAY_FB_CHAR_H : Z := 17.
Definition DISPLAY_FB_FONT_SRC_W : Z := 5.
Definition DISPLAY_FB_FONT_SRC_H : Z := 7.
Definition DISPLAY_FB_GLYPH_W : Z := 5.
Definition DISPLAY_FB_GLYPH_H : Z := 7.
Definition DISPLAY_FB_GLYPH_SCALE_X : Z := 2.
Definition DISPLAY_FB_GLYPH_SCALE_Y : Z := 2.
Definition DISPLAY_FB_GLYPH_X_PAD : Z := 2.
Definition DISPLAY_FB_GLYPH_Y_PAD : Z := 1.
Definition DISPLAY_FB_HEADER_ROWS : Z := 1.
Definition DISPLAY_FB_FOOTER_ROWS : Z := 1.
Definition DISPLAY_FB_PANEL_BORDER : Z := 1.
Definition DISPLAY_FB_LINE_GUTTER_TOTAL : Z := 4 + 4.
Definition DISPLAY_FB_STAGE_MARGIN_X : Z := 14.
Definition DISPLAY_FB_STAGE_MARGIN_Y : Z := 10.
Definition DISPLAY_FB_STAGE_GAP : Z := 12.
Definition DISPLAY_FB_DOCK_WIDTH : Z := 72.
Definition DISPLAY_FB_SIDEBAR_WIDTH : Z := 210.
Definition DISPLAY_FB_WINDOW_TITLE_H : Z := 17.
Definition DISPLAY_FB_WINDOW_INSET_X : Z := 10.
Definition DISPLAY_FB_WINDOW_INSET_Y : Z := 8.
Definition DISPLAY_FB_TERM_MODEL_ROWS_MAX : Z := 64.
Definition DISPLAY_FB_TERM_MODEL_COLS_MAX : Z := 128.

(** The fields that concern the screen and its division; those of the shell's
    panels are left out. *)
Record display_framebuffer_state := Fb {
  fb_base : Z;
  span_bytes : Z;
  bytes_per_pixel : Z;
  info : boot_framebuffer_info;
  dock_left_px : Z;
  dock_top_px : Z;
  dock_width_px : Z;
  dock_height_px : Z;
  sidebar_left_px : Z;
  sidebar_top_px : Z;
  sidebar_width_px : Z;
  sidebar_height_px : Z;
  panel_left_px : Z;
  panel_top_px : Z;
  panel_width_px : Z;
  panel_height_px : Z;
  text_cols : Z;
  text_rows : Z;
  scroll_rows : Z;
  content_left_px : Z;
  content_width_px : Z;
  content_top_px : Z;
  content_bottom_px : Z
}.

(** * [display_late_init]

    The division of the screen, from the test of its size on; [None] is a
    return with [ready = 0]. *)
Definition display_layout (fb_base0 span bpp : Z) (i : boot_framebuffer_info) : option display_framebuffer_state :=
  if (fb_width i <=? DISPLAY_FB_STAGE_MARGIN_X * 2 + DISPLAY_FB_DOCK_WIDTH + DISPLAY_FB_SIDEBAR_WIDTH +
        DISPLAY_FB_STAGE_GAP * 2 + DISPLAY_FB_PANEL_BORDER * 2 + DISPLAY_FB_LINE_GUTTER_TOTAL +
        DISPLAY_FB_WINDOW_INSET_X * 2 + DISPLAY_FB_CHAR_W) ||
     (fb_height i <=? DISPLAY_FB_HEADER_ROWS * DISPLAY_FB_CHAR_H + DISPLAY_FB_FOOTER_ROWS * DISPLAY_FB_CHAR_H +
        DISPLAY_FB_STAGE_MARGIN_Y * 2 + DISPLAY_FB_PANEL_BORDER * 2 + DISPLAY_FB_WINDOW_TITLE_H +
        DISPLAY_FB_WINDOW_INSET_Y * 2 + DISPLAY_FB_CHAR_H * 2)
  then None
  else
    let workspace_top := DISPLAY_FB_HEADER_ROWS * DISPLAY_FB_CHAR_H + DISPLAY_FB_STAGE_MARGIN_Y in
    let workspace_bottom :=
      sub32 (sub32 (fb_height i) (DISPLAY_FB_FOOTER_ROWS * DISPLAY_FB_CHAR_H)) DISPLAY_FB_STAGE_MARGIN_Y in
    let dock_left := DISPLAY_FB_STAGE_MARGIN_X in
    let height := sub32 workspace_bottom workspace_top in
    let sidebar_left := sub32 (sub32 (fb_width i) DISPLAY_FB_STAGE_MARGIN_X) DISPLAY_FB_SIDEBAR_WIDTH in
    let panel_left := dock_left + DISPLAY_FB_DOCK_WIDTH + DISPLAY_FB_STAGE_GAP in
    let panel_width := sub32 (sub32 sidebar_left DISPLAY_FB_STAGE_GAP) panel_left in
    let inner_width := sub32 (sub32 panel_width (DISPLAY_FB_PANEL_BORDER * 2)) (DISPLAY_FB_WINDOW_INSET_X * 2) in
    if inner_width <=? DISPLAY_FB_LINE_GUTTER_TOTAL + DISPLAY_FB_CHAR_W then None
    else
      let cols := sub32 inner_width DISPLAY_FB_LINE_GUTTER_TOTAL / DISPLAY_FB_CHAR_W in
      if cols =? 0 then None
      else
        let console_width := add32 DISPLAY_FB_LINE_GUTTER_TOTAL (mul32 cols DISPLAY_FB_CHAR_W) in
        let content_width := mul32 cols DISPLAY_FB_CHAR_W in
        let slack_x := sub32 inner_width console_width in
        let content_left :=
          add32 (add32 (panel_left + DISPLAY_FB_PANEL_BORDER + DISPLAY_FB_WINDOW_INSET_X) (slack_x / 2))
            DISPLAY_FB_LINE_GUTTER_TOTAL in
        let inner_height :=
          sub32 (sub32 (sub32 height (DISPLAY_FB_PANEL_BORDER * 2)) DISPLAY_FB_WINDOW_TITLE_H)
            (DISPLAY_FB_WINDOW_INSET_Y * 2) in
        if inner_height <=? DISPLAY_FB_CHAR_H then None
        else
          let rows := inner_height / DISPLAY_FB_CHAR_H in
          if rows <? 2 then None
          else if (DISPLAY_FB_TERM_MODEL_COLS_MAX <? cols) || (DISPLAY_FB_TERM_MODEL_ROWS_MAX <? rows) then None
          else
            let console_height := mul32 rows DISPLAY_FB_CHAR_H in
            let slack_y := sub32 inner_height console_height in
            let content_top :=
              add32 (workspace_top + DISPLAY_FB_PANEL_BORDER + DISPLAY_FB_WINDOW_TITLE_H + DISPLAY_FB_WINDOW_INSET_Y)
                (slack_y / 2) in
            Some (Fb fb_base0 span bpp i dock_left workspace_top DISPLAY_FB_DOCK_WIDTH height
              sidebar_left workspace_top DISPLAY_FB_SIDEBAR_WIDTH height
              panel_left workspace_top panel_width height cols rows (sub32 rows 1)
              content_left content_width content_top (add32 content_top console_height)).

(** The argument is what [memmap_get_framebuffer_info] finds. *)
Definition display_late_init (fb_info : option boot_framebuffer_info) (s : paging)
    : option display_framebuffer_state * paging :=
  match fb_info with
  | None => (None, s)
  | Some i =>
      if negb (fb_type i =? 1) then (None, s)
      else if (red_mask_size i =? 0) || (green_mask_size i =? 0) || (blue_mask_size i =? 0) then (None, s)
      else if negb (Z.shiftr (fb_address i) 32 =? 0) then (None, s)
      else if (fb_bpp i =? 0) || (32 <? fb_bpp i) then (None, s)
      else
        let span := fb_pitch i * fb_height i in
        if (span =? 0) || (KERNEL_FRAMEBUFFER_WINDOW_SIZE_BYTES <? span) then (None, s)
        else
          let phys_base := Z.land (fb_address i) (not32 (PAGE_SIZE_BYTES - 1)) in
          let phys_offset := sub32 (fb_address i) phys_base in
          if 4294967295 - phys_offset <? span then (None, s)
          else
            let map_length := add32 span phys_offset in
            match paging_map_kernel_region KERNEL_FRAMEBUFFER_WINDOW_BASE phys_base map_length
                    DISPLAY_FRAMEBUFFER_PAGE_FLAGS s with
            | (Err _, s) => (None, s)
            | (Ok _, s) =>
                (display_layout (KERNEL_FRAMEBUFFER_WINDOW_BASE + phys_offset) span ((fb_bpp i + 7) / 8) i, s)
            end
  end.

(** * The font *)

Definition g_display_font : list (Z * list Z) :=
  [(32, [0; 0; 0; 0; 0; 0; 0]); (33, [4; 4; 4; 4; 4; 0; 4]); (34, [10; 10; 10; 0; 0; 0; 0]);
   (35, [10; 10; 31; 10; 31; 10; 10]); (36, [4; 15; 20; 14; 5; 30; 4]); (37, [24; 25; 2; 4; 8; 19; 3]);
   (38, [8; 20; 20; 8; 21; 18; 13]); (39, [6; 6; 4; 8; 0; 0; 0]); (40, [2; 4; 8; 8; 8; 4; 2]);
   (41, [8; 4; 2; 2; 2; 4; 8]); (42, [4; 21; 14; 31; 14; 21; 4]); (43, [0; 4; 4; 31; 4; 4; 0]);
   (44, [0; 0; 0; 0; 6; 6; 4]); (45, [0; 0; 0; 31; 0; 0; 0]); (46, [0; 0; 0; 0; 0; 6; 6]);
   (47, [0; 1; 2; 4; 8; 16; 0]); (48, [14; 17; 19; 21; 25; 17; 14]); (49, [4; 12; 4; 4; 4; 4; 14]);
   (50, [14; 17; 1; 14; 16; 16; 31]); (51, [31; 1; 2; 6; 1; 17; 14]); (52, [2; 6; 10; 18; 31; 2; 2]);
   (53, [31; 16; 30; 1; 1; 17; 14]); (54, [7; 8; 16; 30; 17; 17; 14]); (55, [31; 1; 1; 2; 4; 8; 16]);
   (56, [14; 17; 17; 14; 17; 17; 14]); (57, [14; 17; 17; 15; 1; 2; 28]); (58, [0; 0; 4; 0; 4; 0; 0]);
   (59, [0; 0; 4; 0; 4; 4; 8]); (60, [1; 2; 4; 8; 4; 2; 1]); (61, [0; 0; 31; 0; 31; 0; 0]);
   (62, [8; 4; 2; 1; 2; 4; 8]); (63, [14; 17; 1; 6; 4; 0; 4]); (64, [14; 17; 21; 23; 22; 16; 15]);
   (65, [4; 10; 17; 17; 31; 17; 17]); (66, [30; 17; 17; 30; 17; 17; 30]); (67, [14; 17; 16; 16; 16; 17; 14]);
   (68, [30; 17; 17; 17; 17; 17; 30]); (69, [31; 16; 16; 30; 16; 16; 31]); (70, [31; 16; 16; 30; 16; 16; 16]);
   (71, [15; 17; 16; 16; 19; 17; 15]); (72, [17; 17; 17; 31; 17; 17; 17]); (73, [14; 4; 4; 4; 4; 4; 14]);
   (74, [7; 2; 2; 2; 2; 18; 12]); (75, [17; 18; 20; 24; 20; 18; 17]); (76, [16; 16; 16; 16; 16; 16; 31]);
   (77, [17; 27; 21; 21; 21; 17; 17]); (78, [17; 17; 25; 21; 19; 17; 17]); (79, [14; 17; 17; 17; 17; 17; 14]);
   (80, [30; 17; 17; 30; 16; 16; 16]); (81, [14; 17; 17; 17; 21; 18; 13]); (82, [30; 17; 17; 30; 20; 18; 17]);
   (83, [14; 17; 16; 14; 1; 17; 14]); (84, [31; 21; 4; 4; 4; 4; 4]); (85, [17; 17; 17; 17; 17; 17; 14]);
   (86, [17; 17; 17; 17; 17; 10; 4]); (87, [17; 17; 17; 21; 21; 21; 10]); (88, [17; 17; 10; 4; 10; 17; 17]);
   (89, [17; 17; 10; 4; 4; 4; 4]); (90, [31; 1; 2; 14; 8; 16; 31]); (91, [15; 8; 8; 8; 8; 8; 15]);
   (92, [0; 16; 8; 4; 2; 1; 0]); (93, [15; 1; 1; 1; 1; 1; 15]); (94, [4; 10; 17; 0; 0; 0; 0]);
   (95, [0; 0; 0; 0; 0; 0; 31]); (96, [12; 12; 4; 2; 0; 0; 0]); (97, [0; 0; 12; 2; 14; 18; 15]);
   (98, [16; 16; 22; 25; 17; 25; 22]); (99, [0; 0; 14; 17; 16; 17; 14]); (100, [1; 1; 13; 19; 17; 19; 13]);
   (101, [0; 0; 14; 17; 31; 16; 14]); (102, [2; 5; 4; 14; 4; 4; 4]); (103, [0; 0; 14; 19; 19; 13; 1]);
   (104, [16; 16; 22; 25; 17; 17; 17]); (105, [4; 0; 12; 4; 4; 4; 14]); (106, [2; 0; 2; 2; 2; 18; 12]);
   (107, [16; 16; 18; 20; 24; 20; 18]); (108, [12; 4; 4; 4; 4; 4; 14]); (109, [0; 0; 26; 21; 21; 21; 21]);
   (110, [0; 0; 22; 25; 17; 17; 17]); (111, [0; 0; 14; 17; 17; 17; 14]); (112, [0; 0; 22; 25; 25; 22; 16]);
   (113, [0; 0; 13; 19; 19; 13; 1]); (114, [0; 0; 22; 25; 16; 16; 16]); (115, [0; 0; 15; 16; 14; 1; 30]);
   (116, [4; 4; 31; 4; 4; 5; 2]); (117, [0; 0; 17; 17; 17; 19; 13]); (118, [0; 0; 17; 17; 17; 10; 4]);
   (119, [0; 0; 17; 17; 21; 21; 10]); (120, [0; 0; 17; 10; 4; 10; 17]); (121, [0; 0; 17; 17; 15; 1; 17]);
   (122, [0; 0; 31; 2; 4; 8; 31]); (123, [2; 4; 4; 8; 4; 4; 2]); (124, [4; 4; 4; 0; 4; 4; 4]);
   (125, [8; 4; 4; 2; 4; 4; 8]); (126, [8; 21; 2; 0; 0; 0; 0])].

Definition display_lookup_glyph (c : Z) : list Z :=
  let find ch := snd <$> List.find (λ g, fst g =? ch) g_display_font in
  default (default (snd (default (0, []) (head g_display_font))) (find 63)) (find c).

Definition display_framebuffer_bootstrap_font_pixel_on (rows : list Z) (row col : Z) : bool :=
  if (DISPLAY_FB_FONT_SRC_H <=? row) || (DISPLAY_FB_FONT_SRC_W <=? col) then false
  else negb (Z.land rows.[row] (Z.shiftl 1 (DISPLAY_FB_FONT_SRC_W - 1 - col)) =? 0).

(** * Drawing *)

Definition display_min_u32 (a b : Z) : Z := if a <? b then a else b.
Definition display_max_u32 (a b : Z) : Z := if b <? a then a else b.

Record display_gui_dirty_rect := Rect { rx : Z; ry : Z; rw : Z; rh : Z }.

Definition screen := Z → Z → Z.

Definition put_pixel (x y v : Z) (scr : screen) : screen :=
  λ x' y', if (x' =? x) && (y' =? y) then v else scr x' y'.

Section draw.
Context (fb : display_framebuffer_state).
Implicit Types (clip : option display_gui_dirty_rect) (scr : screen).

Notation width := (fb_width (info fb)).
Notation height := (fb_height (info fb)).

Definition display_scale_channel (value mask_size : Z) : Z :=
  if mask_size =? 0 then 0
  else if 8 <=? mask_size then u32 (Z.shiftl value (mask_size - 8))
  else (value * (Z.shiftl 1 mask_size - 1) + 127) / 255.

Definition display_framebuffer_pack_rgb (r g b : Z) : Z :=
  Z.lor
    (Z.lor (u32 (Z.shiftl (display_scale_channel r (red_mask_size (info fb))) (red_field_position (info fb))))
           (u32 (Z.shiftl (display_scale_channel g (green_mask_size (info fb))) (green_field_position (info fb)))))
    (u32 (Z.shiftl (display_scale_channel b (blue_mask_size (info fb))) (blue_field_position (info fb)))).

Definition display_gui_clip_rect clip (x y w h : Z) : option (Z * Z * Z * Z) :=
  if (w =? 0) || (h =? 0) then None
  else if (width <=? x) || (height <=? y) then None
  else
    let x1 := if 4294967295 - x <? w then width else x + w in
    let y1 := if 4294967295 - y <? h then height else y + h in
    let x1 := display_min_u32 x1 width in
    let y1 := display_min_u32 y1 height in
    let '(x0, y0, x1, y1) :=
      match clip with
      | None => (x, y, x1, y1)
      | Some c =>
          (display_max_u32 x (rx c), display_max_u32 y (ry c),
           display_min_u32 x1 (add32 (rx c) (rw c)), display_min_u32 y1 (add32 (ry c) (rh c)))
      end in
    if (x1 <=? x0) || (y1 <=? y0) then None else Some (x0, y0, x1 - x0, y1 - y0).

(** What is kept of a pixel's value. *)
Definition stored (pixel : Z) : Z := pixel mod 2 ^ (8 * bytes_per_pixel fb).

Definition display_framebuffer_fill_rect_packed (x y w h pixel : Z) clip scr : screen :=
  match display_gui_clip_rect clip x y w h with
  | None => scr
  | Some (x, y, w, h) =>
      for_range 0 h (λ py scr, for_range 0 w (λ px scr, put_pixel (x + px) (y + py) (stored pixel) scr) scr) scr
  end.

Definition display_framebuffer_draw_glyph_mask_packed (x y c pixel : Z) clip scr : screen :=
  let rows := display_lookup_glyph c in
  for_range 0 DISPLAY_FB_GLYPH_H (λ row scr,
    for_range 0 DISPLAY_FB_GLYPH_W (λ col scr,
      if display_framebuffer_bootstrap_font_pixel_on rows row col then
        display_framebuffer_fill_rect_packed (add32 x (mul32 col DISPLAY_FB_GLYPH_SCALE_X))
          (add32 y (mul32 row DISPLAY_FB_GLYPH_SCALE_Y)) DISPLAY_FB_GLYPH_SCALE_X DISPLAY_FB_GLYPH_SCALE_Y pixel clip scr
      else scr) scr) scr.

Definition display_framebuffer_draw_glyph_packed (x y c fg_pixel bg_pixel : Z) clip scr : screen :=
  display_framebuffer_draw_glyph_mask_packed (add32 x DISPLAY_FB_GLYPH_X_PAD) (add32 y DISPLAY_FB_GLYPH_Y_PAD) c fg_pixel
    clip (display_framebuffer_fill_rect_packed x y DISPLAY_FB_CHAR_W DISPLAY_FB_CHAR_H bg_pixel clip scr).

(** Texts without their NUL. *)
Fixpoint display_framebuffer_draw_text_emphasized_packed (x y : Z) (text : list Z) (fg_pixel bg_pixel shadow_pixel : Z)
    clip scr : screen :=
  match text with
  | [] => scr
  | c :: text =>
      let scr := display_framebuffer_fill_rect_packed x y DISPLAY_FB_CHAR_W DISPLAY_FB_CHAR_H bg_pixel clip scr in
      let scr := display_framebuffer_draw_glyph_mask_packed (add32 (add32 x DISPLAY_FB_GLYPH_X_PAD) 1)
                   (add32 (add32 y DISPLAY_FB_GLYPH_Y_PAD) 1) c shadow_pixel clip scr in
      let scr := display_framebuffer_draw_glyph_mask_packed (add32 x DISPLAY_FB_GLYPH_X_PAD)
                   (add32 y DISPLAY_FB_GLYPH_Y_PAD) c fg_pixel clip scr in
      display_framebuffer_draw_text_emphasized_packed (add32 x DISPLAY_FB_CHAR_W) y text fg_pixel bg_pixel shadow_pixel
        clip scr
  end.

Fixpoint display_framebuffer_draw_text_packed (x y : Z) (text : list Z) (fg_pixel bg_pixel : Z) clip scr : screen :=
  match text with
  | [] => scr
  | c :: text =>
      display_framebuffer_draw_text_packed (add32 x DISPLAY_FB_CHAR_W) y text fg_pixel bg_pixel clip
        (display_framebuffer_draw_glyph_packed x y c fg_pixel bg_pixel clip scr)
  end.
End draw.

(** * The division of the screen *)

Record layout_ok (f : display_framebuffer_state) : Prop := {
  lo_width : 379 ≤ fb_width (info f) ≤ 2169;
  lo_height : 124 ≤ fb_height (info f) ≤ 1193;
  lo_dock : dock_left_px f = 14 ∧ dock_left_px f + dock_width_px f + 12 = panel_left_px f;
  lo_panel : 0 < panel_width_px f ∧ panel_left_px f + panel_width_px f + 12 = sidebar_left_px f;
  lo_sidebar : sidebar_left_px f + sidebar_width_px f + 14 = fb_width (info f);
  lo_tops : dock_top_px f = 27 ∧ panel_top_px f = 27 ∧ sidebar_top_px f = 27;
  lo_heights : dock_height_px f = panel_height_px f ∧ sidebar_height_px f = panel_height_px f ∧
               27 + panel_height_px f + 27 = fb_height (info f);
  lo_cols : 1 ≤ text_cols f ≤ 128 ∧ content_width_px f = text_cols f * 14;
  lo_rows : 2 ≤ text_rows f ≤ 64 ∧ content_bottom_px f = content_top_px f + text_rows f * 17 ∧ scroll_rows f = text_rows f - 1;
  lo_content_x : panel_left_px f + 11 + 8 ≤ content_left_px f ∧
                 content_left_px f + content_width_px f + 11 ≤ panel_left_px f + panel_width_px f;
  lo_content_y : panel_top_px f + 26 ≤ content_top_px f ∧
                 content_bottom_px f + 9 ≤ panel_top_px f + panel_height_px f
}.

Lemma display_layout_ok b span bpp i f :
  is_u32 (fb_width i) → is_u32 (fb_height i) →
  display_layout b span bpp i = Some f →
  layout_ok f ∧ info f = i ∧ fb_base f = b ∧ span_bytes f = span ∧ bytes_per_pixel f = bpp.
Proof.
  intros Hw Hh. unfold display_layout.
  unfold DISPLAY_FB_STAGE_MARGIN_X, DISPLAY_FB_DOCK_WIDTH, DISPLAY_FB_SIDEBAR_WIDTH, DISPLAY_FB_STAGE_GAP, DISPLAY_FB_PANEL_BORDER,
    DISPLAY_FB_LINE_GUTTER_TOTAL, DISPLAY_FB_WINDOW_INSET_X, DISPLAY_FB_CHAR_W, DISPLAY_FB_HEADER_ROWS, DISPLAY_FB_CHAR_H,
    DISPLAY_FB_FOOTER_ROWS, DISPLAY_FB_STAGE_MARGIN_Y, DISPLAY_FB_WINDOW_TITLE_H, DISPLAY_FB_WINDOW_INSET_Y,
    DISPLAY_FB_TERM_MODEL_COLS_MAX, DISPLAY_FB_TERM_MODEL_ROWS_MAX.
  destruct (_ || _) eqn:E; [done|]. apply orb_false_iff in E as [E1%Z.leb_gt E2%Z.leb_gt]. cbv zeta.
  assert (Hs : ∀ x y, 0 ≤ x - y → x < two32 → 0 ≤ y → sub32 x y = x - y) by (intros; apply sub32_small; unfold two32 in *; lia).
  remember (fb_width i) as W eqn:EW. remember (fb_height i) as H eqn:EH. unfold two32 in *.
  rewrite !(Hs W 14), !(Hs (W - 14) 210), !(Hs (W - 14 - 210) 12), !(Hs (W - 14 - 210 - 12) (14 + 72 + 12)),
    !(Hs (W - 14 - 210 - 12 - (14 + 72 + 12)) (1 * 2)), !(Hs (W - 14 - 210 - 12 - (14 + 72 + 12) - 1 * 2) (10 * 2)) by lia.
  rewrite !(Hs H (1 * 17)), !(Hs (H - 1 * 17) 10), !(Hs (H - 1 * 17 - 10) (1 * 17 + 10)),
    !(Hs (H - 1 * 17 - 10 - (1 * 17 + 10)) (1 * 2)), !(Hs (H - 1 * 17 - 10 - (1 * 17 + 10) - 1 * 2) 17),
    !(Hs (H - 1 * 17 - 10 - (1 * 17 + 10) - 1 * 2 - 17) (8 * 2)) by lia.
  set (iw := W - 14 - 210 - 12 - (14 + 72 + 12) - 1 * 2 - 10 * 2). set (ih := H - 1 * 17 - 10 - (1 * 17 + 10) - 1 * 2 - 17 - 8 * 2).
  destruct (Z.leb_spec iw (4 + 4 + 14)); [done|]. rewrite !(Hs iw (4 + 4)) by lia.
  pose proof (Z.div_mod (iw - (4 + 4)) 14 ltac:(lia)) as Dc. pose proof (Z.mod_pos_bound (iw - (4 + 4)) 14 ltac:(lia)) as Mc.
  set (cols := (iw - (4 + 4)) / 14) in *. destruct (Z.eqb_spec cols 0); [done|].
  destruct (Z.leb_spec ih 17); [done|].
  pose proof (Z.div_mod ih 17 ltac:(lia)) as Dr. pose proof (Z.mod_pos_bound ih 17 ltac:(lia)) as Mr.
  set (rows := ih / 17) in *. destruct (Z.ltb_spec rows 2); [done|].
  destruct (_ || _) eqn:E; [done|]. apply orb_false_iff in E as [E3%Z.ltb_ge E4%Z.ltb_ge].
  assert (Hm : mul32 cols 14 = cols * 14 ∧ mul32 rows 17 = rows * 17).
  { unfold mul32. rewrite !u32_small by (unfold two32; lia). done. }
  destruct Hm as [-> ->]. rewrite !(add32_small (4 + 4) (cols * 14)) by (unfold two32; lia).
  rewrite !(Hs iw (4 + 4 + cols * 14)), !(Hs ih (rows * 17)), !(Hs rows 1) by lia.
  pose proof (Z.div_mod (iw - (4 + 4 + cols * 14)) 2 ltac:(lia)) as Dx. pose proof (Z.mod_pos_bound (iw - (4 + 4 + cols * 14)) 2 ltac:(lia)) as Mx.
  pose proof (Z.div_mod (ih - rows * 17) 2 ltac:(lia)) as Dy. pose proof (Z.mod_pos_bound (ih - rows * 17) 2 ltac:(lia)) as My.
  set (hx := (iw - (4 + 4 + cols * 14)) / 2) in *. set (hy := (ih - rows * 17) / 2) in *.
  rewrite !(add32_small (14 + 72 + 12 + 1 + 10) hx), !(add32_small (14 + 72 + 12 + 1 + 10 + hx) (4 + 4)),
    !(add32_small (1 * 17 + 10 + 1 + 17 + 8) hy), !(add32_small (1 * 17 + 10 + 1 + 17 + 8 + hy) (rows * 17)) by (unfold two32; lia).
  intros Hf. injection Hf as <-.
  split; [|by subst]. unfold iw, ih in *.
  split; cbn; rewrite <- ?EW, <- ?EH; lia.
Qed.

(** What the boot loader hands over, with its fields at their widths. *)
Record info_ok (i : boot_framebuffer_info) : Prop := {
  io_address : 0 ≤ fb_address i < two32 * two32;
  io_pitch : is_u32 (fb_pitch i);
  io_width : is_u32 (fb_width i);
  io_height : is_u32 (fb_height i);
  io_bpp : 0 ≤ fb_bpp i < 256
}.

(** C32: when the frame buffer is taken into use, the screen is divided without
    overlap and within its bounds, the grid of the text fits its panel and the
    tables that model it (64 rows of 128 characters), and every byte of the
    frame buffer is mapped where the drawing functions write it, for the kernel
    only, writable, and past the caches (bits 3 and 4 of its page table entry).  The
    mapping begins in the first page of the frame buffer's window and exceeds the
    window by no more than the frame buffer's offset in its page; addresses
    elsewhere keep their meaning.  If its rows are as long as its width needs, every
    pixel lies in it. *)
Theorem display_late_init_spec i s :
  info_ok i → kernel_wf s →
  match display_late_init (Some i) s with
  | (None, s') => kernel_wf s'
  | (Some f, s') =>
      kernel_wf s' ∧ layout_ok f ∧ info f = i ∧ 1 ≤ bytes_per_pixel f ≤ 4 ∧ span_bytes f = fb_pitch i * fb_height i ∧
      (∀ off, 0 ≤ off < span_bytes f →
         translate (phys s') (g_kernel_pd_phys s) (fb_base f + off) = Some (add32 (fb_address i) off, false, true) ∧
         ∃ w, page_flags_of (phys s') (g_kernel_pd_phys s) (fb_base f + off) = Some w ∧ Z.testbit w 3 = true ∧ Z.testbit w 4 = true) ∧
      fb_base f = KERNEL_FRAMEBUFFER_WINDOW_BASE + fb_address i mod 4096 ∧
      fb_base f + span_bytes f ≤ KERNEL_FRAMEBUFFER_WINDOW_BASE + KERNEL_FRAMEBUFFER_WINDOW_SIZE_BYTES + fb_address i mod 4096 ∧
      (∀ x, is_u32 x → x < KERNEL_FRAMEBUFFER_WINDOW_BASE ∨ KERNEL_FRAMEBUFFER_WINDOW_BASE + KERNEL_FRAMEBUFFER_WINDOW_SIZE_BYTES + 4096 ≤ x →
         translate (phys s') (g_kernel_pd_phys s) x = translate (phys s) (g_kernel_pd_phys s) x) ∧
      (fb_width i * bytes_per_pixel f ≤ fb_pitch i →
       ∀ x y k, 0 ≤ x < fb_width i → 0 ≤ y < fb_height i → 0 ≤ k < bytes_per_pixel f →
         0 ≤ y * fb_pitch i + x * bytes_per_pixel f + k < span_bytes f)
  end.
Proof.
  intros [Ha Hp Hw Hh Hb] Hk. unfold display_late_init.
  destruct (negb (fb_type i =? 1)); [done|]. destruct (_ || _ || _); [done|].
  destruct (negb (Z.shiftr (fb_address i) 32 =? 0)) eqn:E1; [done|].
  apply negb_false_iff, Z.eqb_eq in E1. rewrite Z.shiftr_div_pow2 in E1 by lia. change (2 ^ 32) with two32 in E1.
  pose proof (Z.div_mod (fb_address i) two32 ltac:(done)) as Hd. rewrite E1 in Hd.
  pose proof (Z.mod_pos_bound (fb_address i) two32 ltac:(done)) as Hm.
  assert (Ha32 : is_u32 (fb_address i)) by lia. clear Hd Hm E1 Ha.
  destruct (_ || _) eqn:E; [done|]. apply orb_false_iff in E as [E1%Z.eqb_neq E2%Z.ltb_ge]. cbv zeta.
  set (span := fb_pitch i * fb_height i). assert (Hs0 : 0 ≤ span) by (subst span; lia).
  unfold KERNEL_FRAMEBUFFER_WINDOW_SIZE_BYTES.
  destruct (_ || _) eqn:E; [done|]. apply orb_false_iff in E as [E3%Z.eqb_neq E4%Z.ltb_ge].
  change (not32 (PAGE_SIZE_BYTES - 1)) with PAGE_MASK. rewrite frame_of_word by done.
  set (pb := fb_address i - fb_address i mod 4096) in *.
  pose proof (Z.mod_pos_bound (fb_address i) 4096 ltac:(lia)) as Hm.
  pose proof (Z.mod_le (fb_address i) 4096 ltac:(lia) ltac:(lia)).
  rewrite (sub32_small (fb_address i) pb) by (unfold pb, two32 in *; lia).
  replace (fb_address i - pb) with (fb_address i mod 4096) by (unfold pb; lia).
  destruct (Z.ltb_spec (4294967295 - fb_address i mod 4096) span); [done|].
  rewrite (add32_small span) by (unfold two32; lia).
  set (len := span + fb_address i mod 4096) in *.
  pose proof (paging_map_kernel_region_spec s KERNEL_FRAMEBUFFER_WINDOW_BASE pb len DISPLAY_FRAMEBUFFER_PAGE_FLAGS Hk
    ltac:(done) ltac:(unfold pb, two32 in *; lia) ltac:(unfold len, two32 in *; lia) ltac:(done) ltac:(done)) as Hmap.
  assert (Hpb : pb mod 4096 = 0).
  { unfold pb. pose proof (Z.div_mod (fb_address i) 4096 ltac:(lia)) as Hd.
    replace (fb_address i - fb_address i mod 4096) with (fb_address i / 4096 * 4096) by lia. apply Z.mod_mul. lia. }
  rewrite Hpb, Z.add_0_r, Z.sub_0_r in Hmap. cbv zeta in Hmap.
  destruct (paging_map_kernel_region _ _ _ _ s) as [[u|e] s'].
  2: { destruct Hmap as [(_ & -> & _)|(_ & n & _ & _ & Hk' & _)]; done. }
  destruct Hmap as (_ & _ & Htop & Hm'). pose proof (proj1 Hm') as Hk'.
  pose proof (λ x, mapped_translate _ _ _ _ _ _ x Hm') as Ht. pose proof (λ x, mapped_flags _ _ _ _ _ _ x Hm') as Hfl. clear Hm'.
  destruct (display_layout _ span _ i) as [f|] eqn:Ef; [|done].
  apply display_layout_ok in Ef as (Hlo & Ei & Eb & Es & Ep); [|done..]. rewrite Eb, Es, Ep.
  pose proof (Z.div_mod (len + 4095) 4096 ltac:(lia)) as D1. pose proof (Z.mod_pos_bound (len + 4095) 4096 ltac:(lia)) as D2.
  assert (Hlen : len ≤ (len + 4095) / 4096 * 4096 ≤ 16777216 + 4096) by (unfold len in *; lia).
  assert (Hin : ∀ off, 0 ≤ off < span → is_u32 (KERNEL_FRAMEBUFFER_WINDOW_BASE + fb_address i mod 4096 + off)).
  { intros off Ho. unfold KERNEL_FRAMEBUFFER_WINDOW_BASE, len, two32 in *. lia. }
  split; [done|]. split; [done|]. split; [done|]. split; [|split; [done|split; [|split; [done|split; [|split]]]]].
  - pose proof (Z.div_mod (fb_bpp i + 7) 8 ltac:(lia)). pose proof (Z.mod_pos_bound (fb_bpp i + 7) 8 ltac:(lia)). lia.
  - intros off Ho. split.
    + rewrite Ht by by apply Hin. rewrite decide_True by (unfold len in *; lia). unfold add32. do 4 f_equal. unfold pb. lia.
    + eexists. split; [apply Hfl; [by apply Hin|unfold len in *; lia]|]. by vm_compute.
  - unfold KERNEL_FRAMEBUFFER_WINDOW_SIZE_BYTES. lia.
  - intros x Hx Hout. rewrite Ht by done. rewrite decide_False; [done|]. unfold KERNEL_FRAMEBUFFER_WINDOW_SIZE_BYTES in Hout. lia.
  - intros Hpitch x y k Hx Hy Hkk. unfold span. clear -Hpitch Hx Hy Hkk Hp. nia.
Qed.

(** A screen of 400 by 130 pixels of 32 bits. *)
Definition demo_info : boot_framebuffer_info := FbInfo 4244635648 1600 400 130 32 1 16 8 8 8 0 8.

Lemma demo_info_ok : info_ok demo_info.
Proof. split; by vm_compute. Qed.

#[local] Opaque display_late_init.

Lemma display_late_init_spec_witness :
  match display_late_init (Some demo_info) boot with
  | (Some f, s') => layout_ok f ∧ translate (phys s') (g_kernel_pd_phys boot) (fb_base f) = Some (4244635648, false, true)
  | (None, _) => False
  end.
Proof.
  pose proof (display_late_init_spec demo_info boot demo_info_ok boot_wf) as H.
  assert (Hr : match display_late_init (Some demo_info) boot with (Some f, _) => span_bytes f = 208000 | (None, _) => False end)
    by (vm_compute; reflexivity).
  destruct (display_late_init (Some demo_info) boot) as [[f|] s']; [|done]. destruct H as (_ & Hl & _ & _ & _ & Ht & _).
  split; [exact Hl|]. rewrite <- (Z.add_0_r (fb_base f)). rewrite (proj1 (Ht 0 ltac:(rewrite Hr; lia))). reflexivity.
Defined.
