(* ===== verification/Gui.v ===== *)
(** kernel/display.c: the window system.

    [g_display_gui] is the record [gui]; the first [z_count] entries of
    [z_order] and the first [dirty_count] rectangles of [dirty] are lists, and
    the clip rectangle, which is active only while a rectangle is redrawn, is an
    argument.  A window's [surface] is the address of its block in the kernel
    heap, [pixels] the words in it; a store outside the block is [None].  The
    screen is there ([g_display_fb.ready]) whenever the window system is active.
    [ucopy] is [uaccess_copy_from_user] on the memory of the calling task. *)

From S2P Require Import Prelude Bytes Kmalloc Keyboard Framebuffer.

Definition DISPLAY_GUI_MAX_WINDOWS : Z := 4.
Definition DISPLAY_GUI_EVENT_QUEUE_CAP : Z := 32.
Definition DISPLAY_GUI_TITLE_MAX : Z := 31.
Definition DISPLAY_GUI_MAX_WIDTH : Z := 640.
Definition DISPLAY_GUI_MAX_HEIGHT : Z := 360.
Definition DISPLAY_GUI_FRAME_BORDER : Z := 1.
Definition DISPLAY_GUI_TITLE_H : Z := 24.
Definition DISPLAY_GUI_CLOSE_W : Z := 18.
Definition DISPLAY_GUI_CLOSE_H : Z := 14.
Definition DISPLAY_GUI_CLIENT_INSET : Z := 0.
Definition DISPLAY_GUI_DESKTOP_TOP : Z := 28.
Definition DISPLAY_GUI_DESKTOP_PAD : Z := 20.
Definition DISPLAY_GUI_CURSOR_W : Z := 8.
Definition DISPLAY_GUI_CURSOR_H : Z := 12.
Definition DISPLAY_GUI_DIRTY_MAX : Z := 12.

Definition SYSCALL_GUI_EVENT_PAINT : Z := 1.
Definition SYSCALL_GUI_EVENT_MOUSE_MOVE : Z := 2.
Definition SYSCALL_GUI_EVENT_MOUSE_DOWN : Z := 3.
Definition SYSCALL_GUI_EVENT_MOUSE_UP : Z := 4.
Definition SYSCALL_GUI_EVENT_KEY_DOWN : Z := 5.
Definition SYSCALL_GUI_EVENT_KEY_UP : Z := 6.
Definition SYSCALL_GUI_EVENT_FOCUS : Z := 7.
Definition SYSCALL_GUI_EVENT_BLUR : Z := 8.
Definition SYSCALL_GUI_EVENT_CLOSE : Z := 9.

Record syscall_gui_create_req := CreateReq {
  cr_width : Z;
  cr_height : Z;
  cr_title_ptr : Z;
  cr_title_len : Z;
  cr_flags : Z
}.

(** [struct syscall_gui_rect] is part of the request. *)
Record syscall_gui_flush_req := FlushReq {
  fr_window_id : Z;
  fr_pixels_ptr : Z;
  fr_stride : Z;
  fr_x : Z;
  fr_y : Z;
  fr_w : Z;
  fr_h : Z
}.

Record syscall_gui_event := Event {
  ev_type : Z;
  ev_window_id : Z;
  ev_x : Z;
  ev_y : Z;
  ev_button : Z;
  ev_buttons : Z;
  ev_keycode : Z;
  ev_ch : Z;
  ev_modifiers : Z;
  ev_v0 : Z;
  ev_v1 : Z
}.

Definition event_zero : syscall_gui_event := Event 0 0 0 0 0 0 0 0 0 0 0.
#[export] Instance event_inhabited : Inhabited syscall_gui_event := populate event_zero.

Record display_gui_window := Window {
  w_used : bool;
  window_id : Z;
  owner_pid : Z;
  wx : Z;
  wy : Z;
  wwidth : Z;
  wheight : Z;
  title : list Z;
  surface : Z;
  pixels : list Z;
  events : list syscall_gui_event;
  event_head : Z;
  event_count : Z
}.

(** [(int32_t)x], and the arithmetic of [int32_t]; a sum that leaves the type, which C
    leaves undefined, wraps around as the machine's does. *)
Definition to_int32 (x : Z) : Z := if x <? 2147483648 then x else x - two32.
Definition int_add (x y : Z) : Z := to_int32 (u32 (x + y)).
Definition int_sub (x y : Z) : Z := to_int32 (u32 (x - y)).

(** [memset(window, 0, sizeof( *window))]. *)
Definition window_zero : display_gui_window :=
  Window false 0 0 0 0 0 0 (replicate 32 0) 0 [] (replicate 32 event_zero) 0 0.
#[export] Instance window_inhabited : Inhabited display_gui_window := populate window_zero.

Definition with_pos (x y : Z) (w : display_gui_window) : display_gui_window :=
  Window (w_used w) (window_id w) (owner_pid w) x y (wwidth w) (wheight w) (title w) (surface w) (pixels w)
    (events w) (event_head w) (event_count w).
Definition with_pixels (px : list Z) (w : display_gui_window) : display_gui_window :=
  Window (w_used w) (window_id w) (owner_pid w) (wx w) (wy w) (wwidth w) (wheight w) (title w) (surface w) px
    (events w) (event_head w) (event_count w).
Definition with_events (es : list syscall_gui_event) (head count : Z) (w : display_gui_window) : display_gui_window :=
  Window (w_used w) (window_id w) (owner_pid w) (wx w) (wy w) (wwidth w) (wheight w) (title w) (surface w) (pixels w)
    es head count.

Record display_gui_state := Gui {
  gui_active : bool;
  focused_index : Z;
  drag_index : Z;
  next_window_id : Z;
  cursor_x : Z;
  cursor_y : Z;
  buttons : Z;
  drag_grab_x : Z;
  drag_grab_y : Z;
  drag_window_x : Z;
  drag_window_y : Z;
  z_order : list Z;
  dirty : list display_gui_dirty_rect;
  windows : list display_gui_window
}.

(** [g_display_gui] before [display_gui_enable]. *)
Definition gui_zero : display_gui_state := Gui false 0 0 0 0 0 0 0 0 0 0 [] [] (replicate 4 window_zero).

Definition win (g : display_gui_state) (i : Z) : display_gui_window := (windows g).[i].

Definition set_win (i : Z) (w : display_gui_window) (g : display_gui_state) : display_gui_state :=
  Gui (gui_active g) (focused_index g) (drag_index g) (next_window_id g) (cursor_x g) (cursor_y g) (buttons g)
    (drag_grab_x g) (drag_grab_y g) (drag_window_x g) (drag_window_y g) (z_order g) (dirty g) (windows g).[i <- w].
Definition set_focus (i : Z) (g : display_gui_state) : display_gui_state :=
  Gui (gui_active g) i (drag_index g) (next_window_id g) (cursor_x g) (cursor_y g) (buttons g)
    (drag_grab_x g) (drag_grab_y g) (drag_window_x g) (drag_window_y g) (z_order g) (dirty g) (windows g).
Definition set_drag (i : Z) (g : display_gui_state) : display_gui_state :=
  Gui (gui_active g) (focused_index g) i (next_window_id g) (cursor_x g) (cursor_y g) (buttons g)
    (drag_grab_x g) (drag_grab_y g) (drag_window_x g) (drag_window_y g) (z_order g) (dirty g) (windows g).
Definition set_drag_start (gx gy x y : Z) (g : display_gui_state) : display_gui_state :=
  Gui (gui_active g) (focused_index g) (drag_index g) (next_window_id g) (cursor_x g) (cursor_y g) (buttons g)
    gx gy x y (z_order g) (dirty g) (windows g).
Definition set_next_id (n : Z) (g : display_gui_state) : display_gui_state :=
  Gui (gui_active g) (focused_index g) (drag_index g) n (cursor_x g) (cursor_y g) (buttons g)
    (drag_grab_x g) (drag_grab_y g) (drag_window_x g) (drag_window_y g) (z_order g) (dirty g) (windows g).
Definition set_cursor (x y : Z) (g : display_gui_state) : display_gui_state :=
  Gui (gui_active g) (focused_index g) (drag_index g) (next_window_id g) x y (buttons g)
    (drag_grab_x g) (drag_grab_y g) (drag_window_x g) (drag_window_y g) (z_order g) (dirty g) (windows g).
Definition set_buttons (b : Z) (g : display_gui_state) : display_gui_state :=
  Gui (gui_active g) (focused_index g) (drag_index g) (next_window_id g) (cursor_x g) (cursor_y g) b
    (drag_grab_x g) (drag_grab_y g) (drag_window_x g) (drag_window_y g) (z_order g) (dirty g) (windows g).
Definition set_z (l : list Z) (g : display_gui_state) : display_gui_state :=
  Gui (gui_active g) (focused_index g) (drag_index g) (next_window_id g) (cursor_x g) (cursor_y g) (buttons g)
    (drag_grab_x g) (drag_grab_y g) (drag_window_x g) (drag_window_y g) l (dirty g) (windows g).
Definition set_dirty (l : list display_gui_dirty_rect) (g : display_gui_state) : display_gui_state :=
  Gui (gui_active g) (focused_index g) (drag_index g) (next_window_id g) (cursor_x g) (cursor_y g) (buttons g)
    (drag_grab_x g) (drag_grab_y g) (drag_window_x g) (drag_window_y g) (z_order g) l (windows g).

(** * Windows *)

Definition display_gui_window_total_height (w : display_gui_window) : Z :=
  add32 (add32 (DISPLAY_GUI_FRAME_BORDER + DISPLAY_GUI_TITLE_H) (wheight w)) DISPLAY_GUI_FRAME_BORDER.
Definition display_gui_window_total_width (w : display_gui_window) : Z :=
  add32 (add32 DISPLAY_GUI_FRAME_BORDER (wwidth w)) DISPLAY_GUI_FRAME_BORDER.

Section lookup.
Implicit Types (g : display_gui_state).

Definition find_window (P : display_gui_window → bool) g : option Z :=
  search_range 0 DISPLAY_GUI_MAX_WINDOWS (λ i, if P (win g i) then Some i else None).

Definition display_gui_find_free_index g : option Z := find_window (λ w, negb (w_used w)) g.
Definition display_gui_find_index_by_id (id : Z) g : option Z := find_window (λ w, w_used w && (window_id w =? id)) g.
Definition display_gui_find_index_by_owner (pid : Z) g : option Z := find_window (λ w, w_used w && (owner_pid w =? pid)) g.

(** ** Events *)

Definition is_move (e : syscall_gui_event) : bool := ev_type e =? SYSCALL_GUI_EVENT_MOUSE_MOVE.

(** From the computation of [slot] on. *)
Definition append_event (e : syscall_gui_event) (w : display_gui_window) : display_gui_window :=
  with_events (events w).[(event_head w + event_count w) mod DISPLAY_GUI_EVENT_QUEUE_CAP <- e] (event_head w)
    (event_count w + 1) w.

(** Taking the oldest event out. *)
Definition drop_event (w : display_gui_window) : display_gui_window :=
  with_events (events w) ((event_head w + 1) mod DISPLAY_GUI_EVENT_QUEUE_CAP) (event_count w - 1) w.

Definition display_gui_window_queue_event (w : display_gui_window) (e : syscall_gui_event) : res unit * display_gui_window :=
  if DISPLAY_GUI_EVENT_QUEUE_CAP <=? event_count w then
    if is_move e then (Ok tt, w)
    else if is_move (events w).[event_head w] then (Ok tt, append_event e (drop_event w))
    else (Err KERR_NOMEM, w)
  else (Ok tt, append_event e w).

Definition display_gui_emit_simple_event (i type x y button btns keycode ch modifiers : Z) g : display_gui_state :=
  if (i <? 0) || (DISPLAY_GUI_MAX_WINDOWS <=? i) then g
  else
    let w := win g i in
    if negb (w_used w) then g
    else set_win i (snd (display_gui_window_queue_event w
           (Event type (window_id w) x y button btns keycode ch modifiers 0 0))) g.

(** An event without coordinates, button or key. *)
Definition emit_note (i type : Z) g : display_gui_state :=
  display_gui_emit_simple_event i type 0 0 0 (buttons g) SYSCALL_GUI_KEY_NONE 0 0 g.

(** ** The order of the windows *)

Fixpoint remove_first (i : Z) (l : list Z) : list Z :=
  match l with
  | [] => []
  | j :: l => if j =? i then l else j :: remove_first i l
  end.

Definition display_gui_remove_from_z_order (i : Z) g : display_gui_state := set_z (remove_first i (z_order g)) g.

Definition display_gui_raise_window (i : Z) g : display_gui_state :=
  if (i <? 0) || (DISPLAY_GUI_MAX_WINDOWS <=? i) then g
  else
    let g := display_gui_remove_from_z_order i g in
    if alen (z_order g) <? DISPLAY_GUI_MAX_WINDOWS then set_z (z_order g ++ [i]) g else g.

Definition display_gui_focus_window (i : Z) g : display_gui_state :=
  let old_focus := focused_index g in
  if i =? old_focus then display_gui_raise_window i g
  else
    let g := if 0 <=? old_focus then emit_note old_focus SYSCALL_GUI_EVENT_BLUR g else g in
    let g := set_focus i g in
    if 0 <=? i then emit_note i SYSCALL_GUI_EVENT_FOCUS (display_gui_raise_window i g) else g.

(** ** Where a point is *)

Definition client_left (w : display_gui_window) : Z :=
  add32 (add32 (wx w) DISPLAY_GUI_FRAME_BORDER) DISPLAY_GUI_CLIENT_INSET.
Definition client_top (w : display_gui_window) : Z :=
  add32 (add32 (add32 (wy w) DISPLAY_GUI_FRAME_BORDER) DISPLAY_GUI_TITLE_H) DISPLAY_GUI_CLIENT_INSET.

Definition display_gui_screen_to_client (w : display_gui_window) (x y : Z) : option (Z * Z) :=
  let left := client_left w in
  let top := client_top w in
  if (x <? left) || (y <? top) then None
  else if (add32 left (wwidth w) <=? x) || (add32 top (wheight w) <=? y) then None
  else Some (x - left, y - top).

Definition in_frame (w : display_gui_window) (x y : Z) : bool :=
  (wx w <=? x) && (wy w <=? y) && (x <? add32 (wx w) (display_gui_window_total_width w)) &&
  (y <? add32 (wy w) (display_gui_window_total_height w)).

Definition display_gui_window_at (x y : Z) g : option Z :=
  search (λ i,
    if (i <? 0) || (DISPLAY_GUI_MAX_WINDOWS <=? i) then None
    else if negb (w_used (win g i)) then None
    else if in_frame (win g i) x y then Some i else None) (rev (z_order g)).

Definition close_x (w : display_gui_window) : Z :=
  sub32 (sub32 (add32 (add32 (wx w) DISPLAY_GUI_FRAME_BORDER) (wwidth w)) DISPLAY_GUI_CLOSE_W) 6.
Definition close_y (w : display_gui_window) : Z := add32 (wy w) 5.

Definition display_gui_close_hit (w : display_gui_window) (x y : Z) : bool :=
  (close_x w <=? x) && (close_y w <=? y) && (x <? add32 (close_x w) DISPLAY_GUI_CLOSE_W) &&
  (y <? add32 (close_y w) DISPLAY_GUI_CLOSE_H).

Definition display_gui_title_hit (w : display_gui_window) (x y : Z) : bool :=
  if (x <? add32 (wx w) DISPLAY_GUI_FRAME_BORDER) ||
     (add32 (add32 (wx w) DISPLAY_GUI_FRAME_BORDER) (wwidth w) <=? x) ||
     (y <? add32 (wy w) DISPLAY_GUI_FRAME_BORDER) ||
     (add32 (add32 (wy w) DISPLAY_GUI_FRAME_BORDER) DISPLAY_GUI_TITLE_H <=? y)
  then false
  else negb (display_gui_close_hit w x y).

(** ** What is to be redrawn *)

Definition display_gui_window_bounds (w : display_gui_window) : display_gui_dirty_rect :=
  if negb (w_used w) then Rect 0 0 0 0
  else Rect (wx w) (wy w) (add32 (display_gui_window_total_width w) 4) (add32 (display_gui_window_total_height w) 4).

Definition display_gui_cursor_bounds_at (x y : Z) : display_gui_dirty_rect :=
  Rect x y DISPLAY_GUI_CURSOR_W DISPLAY_GUI_CURSOR_H.

Definition rect_empty (r : display_gui_dirty_rect) : bool := (rw r =? 0) || (rh r =? 0).

Definition display_gui_rect_intersects (a b : display_gui_dirty_rect) : bool :=
  if rect_empty a || rect_empty b then false
  else (rx a <? add32 (rx b) (rw b)) && (rx b <? add32 (rx a) (rw a)) &&
       (ry a <? add32 (ry b) (rh b)) && (ry b <? add32 (ry a) (rh a)).

Definition display_gui_rect_union (dst src : display_gui_dirty_rect) : display_gui_dirty_rect :=
  if rect_empty src then dst
  else if rect_empty dst then src
  else
    let x0 := display_min_u32 (rx dst) (rx src) in
    let y0 := display_min_u32 (ry dst) (ry src) in
    let x1 := display_max_u32 (add32 (rx dst) (rw dst)) (add32 (rx src) (rw src)) in
    let y1 := display_max_u32 (add32 (ry dst) (rh dst)) (add32 (ry src) (rh src)) in
    Rect x0 y0 (sub32 x1 x0) (sub32 y1 y0).

(** The loop over the rectangles there are: the first that meets [r] grows. *)
Fixpoint merge_dirty (r : display_gui_dirty_rect) (l : list display_gui_dirty_rect) : option (list display_gui_dirty_rect) :=
  match l with
  | [] => None
  | d :: l =>
      if display_gui_rect_intersects d r then Some (display_gui_rect_union d r :: l)
      else cons d <$> merge_dirty r l
  end.
End lookup.

Section display.
Context (fb : display_framebuffer_state).
Implicit Types (g : display_gui_state) (w : display_gui_window) (clip : option display_gui_dirty_rect) (scr : screen).

Notation width := (fb_width (info fb)).
Notation height := (fb_height (info fb)).
Notation fill := (display_framebuffer_fill_rect_packed fb).
Notation rgb := (display_framebuffer_pack_rgb fb).

Definition display_gui_mark_dirty_rect (x y w h : Z) g : display_gui_state :=
  if negb (gui_active g) then g
  else
    match display_gui_clip_rect fb None x y w h with
    | None => g
    | Some (x, y, w, h) =>
        let rect := Rect x y w h in
        match merge_dirty rect (dirty g) with
        | Some l => set_dirty l g
        | None =>
            if DISPLAY_GUI_DIRTY_MAX <=? alen (dirty g) then set_dirty [Rect 0 0 width height] g
            else set_dirty (dirty g ++ [rect]) g
        end
    end.

Definition display_gui_mark_dirty (r : display_gui_dirty_rect) g : display_gui_state :=
  display_gui_mark_dirty_rect (rx r) (ry r) (rw r) (rh r) g.

(** * Drawing *)

Definition clipped clip (x y : Z) : bool :=
  match clip with
  | None => false
  | Some c => (x <? rx c) || (y <? ry c) || (add32 (rx c) (rw c) <=? x) || (add32 (ry c) (rh c) <=? y)
  end.

Definition display_gui_write_fb_pixel (x y pixel : Z) clip scr : screen :=
  if (width <=? x) || (height <=? y) then scr
  else if clipped clip x y then scr
  else
    let r := Z.land (Z.shiftr pixel 16) 255 in
    let g := Z.land (Z.shiftr pixel 8) 255 in
    let b := Z.land pixel 255 in
    let packed := rgb r g b in
    if 3 <=? bytes_per_pixel fb then put_pixel x y (stored fb packed) scr else scr.

Definition display_gui_blit_surface w clip scr : screen :=
  if surface w =? 0 then scr
  else
    match display_gui_clip_rect fb clip (client_left w) (client_top w) (wwidth w) (wheight w) with
    | None => scr
    | Some (dst_x, dst_y, blit_w, blit_h) =>
        let src_x := sub32 dst_x (client_left w) in
        let src_y := sub32 dst_y (client_top w) in
        for_range 0 blit_h (λ row scr,
          for_range 0 blit_w (λ col scr,
            display_gui_write_fb_pixel (dst_x + col) (dst_y + row)
              (pixels w).[(src_y + row) * wwidth w + src_x + col] clip scr) scr) scr
    end.

(** ["X"], ["SKEZOS GUI SESSION"], ["CLICK TO FOCUS, DRAG TITLE"]. *)
Definition close_text : list Z := [88].
Definition header_title : list Z := [83; 75; 69; 90; 79; 83; 32; 71; 85; 73; 32; 83; 69; 83; 83; 73; 79; 78].
Definition header_hint : list Z :=
  [67; 76; 73; 67; 75; 32; 84; 79; 32; 70; 79; 67; 85; 83; 44; 32; 68; 82; 65; 71; 32; 84; 73; 84; 76; 69].

(** The drawing after the test of the clip rectangle: the frame, then the
    surface. *)
Definition paint_frame w (focused : bool) clip scr : screen :=
  let frame_x := wx w in
  let frame_y := wy w in
  let frame_w := display_gui_window_total_width w in
  let frame_h := display_gui_window_total_height w in
  let frame_bg := if focused then rgb 14 18 30 else rgb 8 11 20 in
  let border := if focused then rgb 82 168 236 else rgb 58 72 96 in
  let title_bg := if focused then rgb 18 28 46 else rgb 16 20 32 in
  let title_fg := rgb 238 244 252 in
  let title_shadow := rgb 4 8 14 in
  let close_bg := if focused then rgb 164 62 58 else rgb 92 50 52 in
  let close_fg := rgb 255 238 236 in
  let scr := fill (add32 frame_x 4) (add32 frame_y 4) frame_w frame_h (rgb 2 4 8) clip scr in
  let scr := fill frame_x frame_y frame_w frame_h border clip scr in
  let scr := fill (add32 frame_x DISPLAY_GUI_FRAME_BORDER) (add32 frame_y DISPLAY_GUI_FRAME_BORDER)
               (sub32 frame_w (DISPLAY_GUI_FRAME_BORDER * 2)) (sub32 frame_h (DISPLAY_GUI_FRAME_BORDER * 2)) frame_bg clip scr in
  let scr := fill (add32 frame_x DISPLAY_GUI_FRAME_BORDER) (add32 frame_y DISPLAY_GUI_FRAME_BORDER) (wwidth w)
               DISPLAY_GUI_TITLE_H title_bg clip scr in
  let scr := display_framebuffer_draw_text_emphasized_packed fb (add32 frame_x 8) (add32 frame_y 4) (cstr (title w))
               title_fg title_bg title_shadow clip scr in
  let scr := fill (close_x w) (close_y w) DISPLAY_GUI_CLOSE_W DISPLAY_GUI_CLOSE_H close_bg clip scr in
  display_framebuffer_draw_text_emphasized_packed fb (add32 (close_x w) 5) (add32 (close_y w) 1) close_text
    close_fg close_bg title_shadow clip scr.

Definition paint_window w (focused : bool) clip scr : screen :=
  display_gui_blit_surface w clip (paint_frame w focused clip scr).

Definition display_gui_draw_window w (focused : bool) clip scr : screen :=
  if negb (w_used w) then scr
  else
    match clip with
    | Some c => if negb (display_gui_rect_intersects (display_gui_window_bounds w) c) then scr
                else paint_window w focused clip scr
    | None => paint_window w focused clip scr
    end.

Definition display_gui_draw_cursor g clip scr : screen :=
  let x := cursor_x g in
  let y := cursor_y g in
  let white := rgb 248 252 255 in
  let dark := rgb 10 14 22 in
  let scr := fill x y 1 12 white clip scr in
  let scr := fill x y 8 1 white clip scr in
  let scr := fill (add32 x 1) (add32 y 1) 1 9 dark clip scr in
  fill (add32 x 1) (add32 y 1) 5 1 dark clip scr.

(** The desktop and its header. *)
Definition draw_desktop clip scr : screen :=
  let desktop_bg := rgb 5 8 16 in
  let header_bg := rgb 10 16 28 in
  let header_fg := rgb 224 233 246 in
  let header_shadow := rgb 2 6 10 in
  let scr := fill 0 0 width height desktop_bg clip scr in
  let scr := fill 0 0 width DISPLAY_GUI_DESKTOP_TOP header_bg clip scr in
  let scr := fill 0 (DISPLAY_GUI_DESKTOP_TOP - 2) width 2 (rgb 82 168 236) clip scr in
  let scr := display_framebuffer_draw_text_emphasized_packed fb 12 5 header_title header_fg header_bg header_shadow clip scr in
  let title_right := add32 12 (mul32 (alen header_title) DISPLAY_FB_CHAR_W) in
  let hint_width := mul32 (alen header_hint) DISPLAY_FB_CHAR_W in
  if add32 hint_width 12 <? width then
    let hint_x := sub32 (sub32 width hint_width) 12 in
    if add32 title_right DISPLAY_FB_CHAR_W <? hint_x then
      display_framebuffer_draw_text_packed fb hint_x 5 header_hint header_fg header_bg clip scr
    else scr
  else scr.

Definition draw_windows g (l : list Z) clip scr : screen :=
  foldl (λ scr i,
    if (i <? 0) || (DISPLAY_GUI_MAX_WINDOWS <=? i) then scr
    else display_gui_draw_window (win g i) (i =? focused_index g) clip scr) scr l.

Definition display_gui_draw_scene g clip scr : screen :=
  if negb (gui_active g) then scr
  else display_gui_draw_cursor g clip (draw_windows g (z_order g) clip (draw_desktop clip scr)).

(** ** The screen with the state *)

Record desk := Desk { gui : display_gui_state; scr : screen; heap : kheap }.
Implicit Types (d : desk).

Definition on_gui (f : display_gui_state → display_gui_state) d : desk := Desk (f (gui d)) (scr d) (heap d).

Definition display_gui_redraw d : desk :=
  if negb (gui_active (gui d)) then d
  else
    let g := set_dirty [] (gui d) in
    Desk g (display_gui_draw_scene g None (scr d)) (heap d).

Definition display_gui_redraw_rect (r : display_gui_dirty_rect) d : desk :=
  if negb (gui_active (gui d)) || rect_empty r then d
  else Desk (gui d) (display_gui_draw_scene (gui d) (Some r) (scr d)) (heap d).

Definition display_gui_flush_dirty d : desk :=
  if alen (dirty (gui d)) =? 0 then d
  else on_gui (set_dirty []) (foldl (λ d r, display_gui_redraw_rect r d) d (dirty (gui d))).

(** * Operations *)

Definition display_gui_destroy_window_index (i : Z) d : desk :=
  if (i <? 0) || (DISPLAY_GUI_MAX_WINDOWS <=? i) then d
  else
    let g := gui d in
    let w := win g i in
    if negb (w_used w) then d
    else
      let h := if negb (surface w =? 0) then kfree (surface w) (heap d) else heap d in
      let g := set_win i (Window false 0 (-1) (wx w) (wy w) (wwidth w) (wheight w) (title w).[0 <- NUL] 0 []
                            (events w) 0 0) g in
      let g := display_gui_remove_from_z_order i g in
      let g :=
        if focused_index g =? i then
          set_focus (if negb (alen (z_order g) =? 0) then (z_order g).[alen (z_order g) - 1] else -1) g
        else g in
      let g := if drag_index g =? i then set_drag (-1) g else g in
      Desk g (scr d) h.

(** [ready]: the mode is [DISPLAY_MODE_FRAMEBUFFER] and the frame buffer in
    use. *)
Definition display_gui_enable (ready : bool) d : desk :=
  if negb ready then d
  else if bytes_per_pixel fb <? 3 then d
  else
    display_gui_redraw
      (Desk (Gui true (-1) (-1) 1 (width / 2) (height / 2) 0 0 0 0 0 [] [] (replicate 4 window_zero)) (scr d) (heap d)).

(** ["WINDOW"] and its NUL. *)
Definition default_title : list Z := [87; 73; 78; 68; 79; 87; 0].

(** The title of a new window. *)
Definition set_title (len : Z) (bytes : list Z) : list Z :=
  let t := (overlay (replicate 32 0) 0 bytes).[len <- NUL] in
  if t.[0] =? NUL then overlay t 0 default_title else t.

(** Where a new window goes: one of a row of places, pulled back to where the
    screen ends. *)
Definition place_window (cascade_index : Z) w : display_gui_window :=
  let x := add32 36 (mul32 cascade_index 34) in
  let y := add32 (DISPLAY_GUI_DESKTOP_TOP + 18) (mul32 cascade_index 28) in
  let max_x := sub32 (sub32 width (display_gui_window_total_width w)) DISPLAY_GUI_DESKTOP_PAD in
  let max_y := sub32 (sub32 height (display_gui_window_total_height w)) DISPLAY_GUI_DESKTOP_PAD in
  with_pos (if max_x <? x then max_x else x) (if max_y <? y then max_y else y) w.

(** Marking the focused window and the cursor. *)
Definition mark_focused g : display_gui_state :=
  if 0 <=? focused_index g
  then display_gui_mark_dirty (display_gui_window_bounds (win g (focused_index g))) g else g.

Definition mark_cursor g : display_gui_state :=
  display_gui_mark_dirty (display_gui_cursor_bounds_at (cursor_x g) (cursor_y g)) g.

(** From [display_gui_raise_window] on. *)
Definition show_new_window (i : Z) d : desk :=
  let g := display_gui_raise_window i (gui d) in
  let old_focus := focused_index g in
  let g := display_gui_focus_window i g in
  let g := if (0 <=? old_focus) && negb (old_focus =? i)
           then display_gui_mark_dirty (display_gui_window_bounds (win g old_focus)) g else g in
  let g := emit_note i SYSCALL_GUI_EVENT_PAINT g in
  let g := display_gui_mark_dirty (display_gui_window_bounds (win g i)) g in
  display_gui_flush_dirty (Desk (mark_cursor g) (scr d) (heap d)).

(** [Ok id] stores [*out_window_id]. *)
Definition display_gui_create_window (ucopy : Z → Z → option (res (list Z))) (req : syscall_gui_create_req)
    (owner : Z) d : option (res Z * desk) :=
  let g := gui d in
  if negb (gui_active g) then Some (Err KERR_NOTSUP, d)
  else if (owner <=? 0) || (cr_width req =? 0) || (cr_height req =? 0) then Some (Err KERR_INVAL, d)
  else if (DISPLAY_GUI_MAX_WIDTH <? cr_width req) || (DISPLAY_GUI_MAX_HEIGHT <? cr_height req)
  then Some (Err KERR_INVAL, d)
  else if negb (cr_flags req =? 0) then Some (Err KERR_INVAL, d)
  else if bool_decide (is_Some (display_gui_find_index_by_owner owner g)) then Some (Err KERR_NOTSUP, d)
  else
    match display_gui_find_free_index g with
    | None => Some (Err KERR_NOMEM, d)
    | Some i =>
        let surface_words := mul32 (cr_width req) (cr_height req) in
        let '(p, h) := kmalloc (mul32 surface_words 4) (heap d) in
        if p =? 0 then Some (Err KERR_NOMEM, Desk (set_win i window_zero g) (scr d) h)
        else
          let id := next_window_id g in
          let g := set_next_id (int_add id 1) g in
          let title_len :=
            if DISPLAY_GUI_TITLE_MAX <? cr_title_len req then DISPLAY_GUI_TITLE_MAX else cr_title_len req in
          rc ← (if title_len =? 0 then Some (Ok []) else ucopy (cr_title_ptr req) title_len);
          match rc with
          | Err e => Some (Err e, Desk (set_win i window_zero g) (scr d) (kfree p h))
          | Ok bytes =>
              let w := Window true id owner 0 0 (cr_width req) (cr_height req) (set_title title_len bytes) p
                         (replicate (Z.to_nat surface_words) 0) (replicate 32 event_zero) 0 0 in
              Some (Ok id, show_new_window i (Desk (set_win i (place_window (alen (z_order g)) w) g) (scr d) h))
          end
    end.

Definition u64 (x : Z) : Z := x mod (two32 * two32).

(** The words of a copy from user memory. *)
Definition words_of (bs : list Z) : list Z := de32s bs 0 (alen bs / 4).

(** The rows from [row] on.  An error leaves the rows copied before.  [at_] is the
    word of the surface the row starts at, from the sum of addresses the code takes,
    which wraps around.  A row that does not end in the surface makes the kernel
    write whatever lies behind it: [None]. *)
Fixpoint flush_rows (ucopy : Z → Z → option (res (list Z))) (req : syscall_gui_flush_req) (n : nat) (row : Z) w
    : option (res unit * display_gui_window) :=
  match n with
  | O => Some (Ok tt, w)
  | S n' =>
      let src_word_offset := u64 (u64 ((fr_y req + row) * fr_stride req) + fr_x req) in
      let src_addr := u64 (fr_pixels_ptr req + u64 (src_word_offset * 4)) in
      if 4294967295 <? src_addr then Some (Err KERR_FAULT, w)
      else
        rc ← ucopy src_addr (mul32 (fr_w req) 4);
        match rc with
        | Err e => Some (Err e, w)
        | Ok bs =>
            let at_ := mul32 (add32 (mul32 (add32 (fr_y req) row) (wwidth w)) (fr_x req)) 4 / 4 in
            let ws := words_of bs in
            if alen (pixels w) <? at_ + alen ws then None
            else flush_rows ucopy req n' (row + 1) (with_pixels (overlay (pixels w) at_ ws) w)
        end
  end.

(** The request's test and the window it is about. *)
Definition flush_target (req : syscall_gui_flush_req) (owner : Z) g : res (option Z) :=
  if negb (gui_active g) then Err KERR_NOTSUP
  else
    match display_gui_find_index_by_id (fr_window_id req) g with
    | None => Err KERR_NOENT
    | Some i =>
        let w := win g i in
        if negb (owner_pid w =? owner) then Err KERR_NOTSUP
        else if (fr_pixels_ptr req =? 0) || (fr_stride req =? 0) then Err KERR_INVAL
        else if (fr_x req <? 0) || (fr_y req <? 0) then Err KERR_INVAL
        else if (wwidth w <? fr_x req) || (wheight w <? fr_y req) then Err KERR_INVAL
        else if (fr_w req =? 0) || (fr_h req =? 0) then Ok None
        else if fr_stride req <? wwidth w then Err KERR_INVAL
        else if (wwidth w <? add32 (fr_x req) (fr_w req)) || (wheight w <? add32 (fr_y req) (fr_h req)) then Err KERR_INVAL
        else Ok (Some i)
    end.

Definition display_gui_flush_window (ucopy : Z → Z → option (res (list Z))) (req : syscall_gui_flush_req)
    (owner : Z) d : option (res unit * desk) :=
  match flush_target req owner (gui d) with
  | Err e => Some (Err e, d)
  | Ok None => Some (Ok tt, d)
  | Ok (Some i) =>
      '(rc, w) ← flush_rows ucopy req (Z.to_nat (fr_h req)) 0 (win (gui d) i);
      let g := set_win i w (gui d) in
      match rc with
      | Err e => Some (Err e, Desk g (scr d) (heap d))
      | Ok _ =>
          let g := display_gui_mark_dirty_rect (add32 (client_left w) (fr_x req)) (add32 (client_top w) (fr_y req))
                     (fr_w req) (fr_h req) g in
          Some (Ok tt, display_gui_flush_dirty (Desk g (scr d) (heap d)))
      end
  end.

(** [Ok None] is 0, [Ok (Some e)] is 1 and stores [*out_event]. *)
Definition display_gui_poll_event (id owner : Z) d : res (option syscall_gui_event) * desk :=
  let g := gui d in
  if negb (gui_active g) then (Err KERR_NOTSUP, d)
  else
    match display_gui_find_index_by_id id g with
    | None => (Err KERR_NOENT, d)
    | Some i =>
        let w := win g i in
        if negb (owner_pid w =? owner) then (Err KERR_NOTSUP, d)
        else if event_count w =? 0 then (Ok None, d)
        else (Ok (Some (events w).[event_head w]), on_gui (set_win i (drop_event w)) d)
    end.

Definition display_gui_destroy_window (id owner : Z) d : res unit * desk :=
  let g := gui d in
  if negb (gui_active g) then (Err KERR_NOTSUP, d)
  else
    match display_gui_find_index_by_id id g with
    | None => (Err KERR_NOENT, d)
    | Some i =>
        if negb (owner_pid (win g i) =? owner) then (Err KERR_NOTSUP, d)
        else
          let r := display_gui_window_bounds (win g i) in
          let d := on_gui (display_gui_mark_dirty r) (display_gui_destroy_window_index i d) in
          (Ok tt, display_gui_flush_dirty (on_gui mark_cursor (on_gui mark_focused d)))
    end.

Definition display_gui_notify_task_exit (owner : Z) d : desk :=
  if negb (gui_active (gui d)) || (owner <=? 0) then d
  else
    let d := for_range 0 DISPLAY_GUI_MAX_WINDOWS (λ i d,
      let w := win (gui d) i in
      if w_used w && (owner_pid w =? owner)
      then on_gui (display_gui_mark_dirty (display_gui_window_bounds w)) (display_gui_destroy_window_index i d)
      else d) d in
    display_gui_flush_dirty (on_gui mark_focused d).

(** ** Input *)

Definition display_gui_handle_key_event (keycode ch modifiers : Z) (pressed : bool) d : bool * desk :=
  let g := gui d in
  if negb (gui_active g) then (false, d)
  else
    (true,
     if 0 <=? focused_index g then
       on_gui (display_gui_emit_simple_event (focused_index g)
                 (if pressed then SYSCALL_GUI_EVENT_KEY_DOWN else SYSCALL_GUI_EVENT_KEY_UP) 0 0 0 (buttons g) keycode
                 (if pressed then ch else 0) modifiers) d
     else d).

(** An event of the mouse inside the window. *)
Definition emit_at (i type button : Z) g : display_gui_state :=
  match display_gui_screen_to_client (win g i) (cursor_x g) (cursor_y g) with
  | None => g
  | Some (x, y) => display_gui_emit_simple_event i type x y button (buttons g) SYSCALL_GUI_KEY_NONE 0 0 g
  end.

Definition dragging g : bool := (0 <=? drag_index g) && negb (Z.land (buttons g) SYSCALL_GUI_BUTTON_LEFT =? 0).

(** A coordinate of the cursor after a move. *)
Definition move_cursor (pos delta bound : Z) : Z :=
  let next := int_add (to_int32 pos) delta in
  let next := if next <? 0 then 0 else next in
  if bound <=? next then bound - 1 else next.

(** The place of the window that is dragged. *)
Definition drag_window g w : display_gui_window :=
  let moved_x := int_add (to_int32 (drag_window_x g)) (int_sub (to_int32 (cursor_x g)) (to_int32 (drag_grab_x g))) in
  let moved_y := int_add (to_int32 (drag_window_y g)) (int_sub (to_int32 (cursor_y g)) (to_int32 (drag_grab_y g))) in
  let moved_x := if moved_x <? DISPLAY_GUI_DESKTOP_PAD then DISPLAY_GUI_DESKTOP_PAD else moved_x in
  let moved_y := if moved_y <? DISPLAY_GUI_DESKTOP_TOP then DISPLAY_GUI_DESKTOP_TOP else moved_y in
  let max_x := sub32 (sub32 width (display_gui_window_total_width w)) DISPLAY_GUI_DESKTOP_PAD in
  let max_y := sub32 (sub32 height (display_gui_window_total_height w)) DISPLAY_GUI_DESKTOP_PAD in
  with_pos (if max_x <? moved_x then max_x else moved_x) (if max_y <? moved_y then max_y else moved_y) w.

Definition display_gui_handle_mouse_motion (dx dy : Z) d : desk :=
  let g := gui d in
  if negb (gui_active g) then d
  else
    let old_x := cursor_x g in
    let old_y := cursor_y g in
    let new_x := move_cursor old_x dx width in
    let new_y := move_cursor old_y dy height in
    if (new_x =? old_x) && (new_y =? old_y) && negb (dragging g) then d
    else
      let g := set_cursor new_x new_y g in
      let g :=
        if dragging g then
          let i := drag_index g in
          let old_window_dirty := display_gui_window_bounds (win g i) in
          let g := set_win i (drag_window g (win g i)) g in
          let g := display_gui_mark_dirty old_window_dirty g in
          display_gui_mark_dirty (display_gui_window_bounds (win g i)) g
        else if 0 <=? focused_index g then emit_at (focused_index g) SYSCALL_GUI_EVENT_MOUSE_MOVE 0 g
        else g in
      let g := display_gui_mark_dirty (display_gui_cursor_bounds_at old_x old_y) g in
      let g := display_gui_mark_dirty (display_gui_cursor_bounds_at new_x new_y) g in
      display_gui_flush_dirty (Desk g (scr d) (heap d)).

(** The start of a press on window [i]: the focus goes there. *)
Definition press_focus (i old_focus : Z) g : display_gui_state :=
  let g := display_gui_focus_window i g in
  let g := if (0 <=? old_focus) && negb (old_focus =? i)
           then display_gui_mark_dirty (display_gui_window_bounds (win g old_focus)) g else g in
  display_gui_mark_dirty (display_gui_window_bounds (win g i)) g.

Definition press_left (target : option Z) (old_focus : Z) g : display_gui_state :=
  match target with
  | None => g
  | Some i =>
      let g := press_focus i old_focus g in
      let w := win g i in
      if display_gui_close_hit w (cursor_x g) (cursor_y g) then
        display_gui_emit_simple_event i SYSCALL_GUI_EVENT_CLOSE 0 0 SYSCALL_GUI_BUTTON_LEFT (buttons g)
          SYSCALL_GUI_KEY_NONE 0 0 g
      else if display_gui_title_hit w (cursor_x g) (cursor_y g) then
        set_drag_start (cursor_x g) (cursor_y g) (wx w) (wy w) (set_drag i g)
      else emit_at i SYSCALL_GUI_EVENT_MOUSE_DOWN SYSCALL_GUI_BUTTON_LEFT g
  end.

Definition press_right (target : option Z) (old_focus : Z) g : display_gui_state :=
  match target with
  | None => g
  | Some i => emit_at i SYSCALL_GUI_EVENT_MOUSE_DOWN SYSCALL_GUI_BUTTON_RIGHT (press_focus i old_focus g)
  end.

Definition release_left g : display_gui_state :=
  if 0 <=? drag_index g then set_drag (-1) g
  else if 0 <=? focused_index g then emit_at (focused_index g) SYSCALL_GUI_EVENT_MOUSE_UP SYSCALL_GUI_BUTTON_LEFT g
  else g.

Definition release_right g : display_gui_state :=
  if 0 <=? focused_index g then emit_at (focused_index g) SYSCALL_GUI_EVENT_MOUSE_UP SYSCALL_GUI_BUTTON_RIGHT g else g.

Definition display_gui_handle_mouse_buttons (btns : Z) d : desk :=
  let g := gui d in
  let changed := Z.lxor (buttons g) btns in
  if negb (gui_active g) || (changed =? 0) then on_gui (set_buttons btns) d
  else
    let g := set_buttons btns g in
    let target := display_gui_window_at (cursor_x g) (cursor_y g) g in
    let old_focus := focused_index g in
    let has b x := negb (Z.land x b =? 0) in
    let g := if has SYSCALL_GUI_BUTTON_LEFT changed && has SYSCALL_GUI_BUTTON_LEFT btns
             then press_left target old_focus g else g in
    let g := if has SYSCALL_GUI_BUTTON_RIGHT changed && has SYSCALL_GUI_BUTTON_RIGHT btns
             then press_right target old_focus g else g in
    let g := if has SYSCALL_GUI_BUTTON_LEFT changed && negb (has SYSCALL_GUI_BUTTON_LEFT btns)
             then release_left g else g in
    let g := if has SYSCALL_GUI_BUTTON_RIGHT changed && negb (has SYSCALL_GUI_BUTTON_RIGHT btns)
             then release_right g else g in
    display_gui_flush_dirty (Desk g (scr d) (heap d)).
End display.

Definition display_gui_mode_active (d : desk) : bool := gui_active (gui d).

(** The window system takes the input of Keyboard.v; [nav] stands for the panels
    of the shell, which move while there is no window system. *)
Section input_sink.
Context (fb : display_framebuffer_state) (nav : display_nav_key → desk → bool * desk).

Definition display_handle_navigation_key (key : display_nav_key) (d : desk) : bool * desk :=
  if gui_active (gui d) then (false, d) else nav key d.

#[local] Instance gui_sink : InputSink desk := {
  Keyboard.display_gui_mode_active := display_gui_mode_active;
  Keyboard.display_gui_handle_key_event := display_gui_handle_key_event;
  Keyboard.display_handle_navigation_key := display_handle_navigation_key;
  Keyboard.display_gui_handle_mouse_motion := display_gui_handle_mouse_motion fb;
  Keyboard.display_gui_handle_mouse_buttons := display_gui_handle_mouse_buttons fb
}.
End input_sink.
