(* ===== verification/GuiDraw.v ===== *)
(** What drawing does to the screen.

    [draws R d]: the function [d] changes a pixel according to a colour of its
    own ([paint]), within the region [R], on the screen and inside the clip
    rectangle only.  Everything the window system draws is of this kind, so
    drawing under a clip rectangle is drawing without one, seen through the
    rectangle. *)

From S2P Require Import Prelude Bytes Kmalloc Framebuffer Gui.

Definition in_rect (r : display_gui_dirty_rect) (x y : Z) : Prop :=
  rx r ≤ x < rx r + rw r ∧ ry r ≤ y < ry r + rh r.

#[export] Instance in_rect_dec r x y : Decision (in_rect r x y).
Proof. unfold in_rect. solve_decision. Defined.

(** A rectangle of unsigned numbers whose far corner can be computed. *)
Definition rect_ok (r : display_gui_dirty_rect) : Prop :=
  0 ≤ rx r ∧ 0 ≤ ry r ∧ 0 ≤ rw r ∧ 0 ≤ rh r ∧ rx r + rw r < two32 ∧ ry r + rh r < two32.

Lemma min_u32 a b : display_min_u32 a b = Z.min a b.
Proof. unfold display_min_u32. destruct (Z.ltb_spec a b); lia. Qed.
Lemma max_u32 a b : display_max_u32 a b = Z.max a b.
Proof. unfold display_max_u32. destruct (Z.ltb_spec b a); lia. Qed.

Lemma put_pixel_spec x y v scr px py :
  put_pixel x y v scr px py = if decide (px = x ∧ py = y) then v else scr px py.
Proof.
  unfold put_pixel. destruct (Z.eqb_spec px x), (Z.eqb_spec py y); simpl; case_decide; tauto || done.
Qed.

Lemma for_range_ext {S} a b (f g : Z → S → S) s :
  (∀ i s, a ≤ i < b → f i s = g i s) → for_range a b f s = for_range a b g s.
Proof.
  intros H. unfold for_range. assert (Hl : ∀ i, i ∈ seqZ a (b - a) → a ≤ i < b) by (intros i Hi; apply elem_of_seqZ in Hi; lia).
  revert s Hl. induction (seqZ a (b - a)) as [|i l IH]; intros s Hl; [done|]. cbn [foldl].
  rewrite H by (apply Hl; by left). apply IH. intros j Hj. apply Hl. by right.
Qed.

(** Filling by rows. *)
Lemma put_rows (f : Z → Z → Z) x y w h scr px py :
  0 ≤ w → 0 ≤ h →
  for_range 0 h (λ j scr, for_range 0 w (λ i scr, put_pixel (x + i) (y + j) (f i j) scr) scr) scr px py =
  if decide (in_rect (Rect x y w h) px py) then f (px - x) (py - y) else scr px py.
Proof.
  intros Hw Hh.
  pose (P (j : Z) (s : screen) :=
    s px py = if decide ((x ≤ px < x + w) ∧ (y ≤ py < y + j)) then f (px - x) (py - y) else scr px py).
  assert (H : P h (for_range 0 h (λ j scr, for_range 0 w (λ i scr, put_pixel (x + i) (y + j) (f i j) scr) scr) scr)).
  2: { unfold P in H. rewrite H. by apply decide_ext. }
  apply (for_range_ind P); [done|unfold P; by rewrite decide_False by lia|]. unfold P. intros j s Hj Hs.
  pose (Q (i : Z) (s' : screen) :=
    s' px py = if decide ((x ≤ px < x + i) ∧ py = y + j) then f (px - x) (py - y) else s px py).
  assert (Hrow : Q w (for_range 0 w (λ i s, put_pixel (x + i) (y + j) (f i j) s) s)).
  { apply (for_range_ind Q); [done|unfold Q; by rewrite decide_False by lia|]. unfold Q.
    intros i s' Hi Hs'. rewrite put_pixel_spec. destruct (decide (px = x + i ∧ py = y + j)) as [[-> ->]|Hne].
    - rewrite decide_True by lia. f_equal; lia.
    - rewrite Hs'. destruct (decide (x ≤ px < x + i ∧ py = y + j)); [by rewrite decide_True by lia|by rewrite decide_False by lia]. }
  unfold Q in Hrow. rewrite Hrow, Hs.
  destruct (decide (x ≤ px < x + w ∧ py = y + j)); [by rewrite decide_True by lia|].
  destruct (decide (x ≤ px < x + w ∧ y ≤ py < y + j)); [by rewrite decide_True by lia|by rewrite decide_False by lia].
Qed.

Section draw.
Context (fb : display_framebuffer_state).
Implicit Types (clip : option display_gui_dirty_rect) (scr : screen).
Notation width := (fb_width (info fb)).
Notation height := (fb_height (info fb)).

Definition on_screen (x y : Z) : Prop := 0 ≤ x < width ∧ 0 ≤ y < height.

(** The pixels that are drawn under a clip rectangle. *)
Definition shown clip (x y : Z) : Prop :=
  on_screen x y ∧ match clip with None => True | Some c => in_rect c x y end.

#[export] Instance shown_dec clip x y : Decision (shown clip x y).
Proof. unfold shown, on_screen. destruct clip; solve_decision. Defined.

Definition clip_ok clip : Prop := match clip with None => True | Some c => rect_ok c end.

Lemma clip_rect_spec clip x y w h :
  is_u32 x → is_u32 y → is_u32 w → is_u32 h → is_u32 width → is_u32 height → clip_ok clip →
  match display_gui_clip_rect fb clip x y w h with
  | None => ∀ px py, shown clip px py → in_rect (Rect x y w h) px py → False
  | Some (x', y', w', h') =>
      0 < w' ∧ 0 < h' ∧ rect_ok (Rect x' y' w' h') ∧ x' + w' ≤ width ∧ y' + h' ≤ height ∧ x ≤ x' ∧ y ≤ y' ∧
      ∀ px py, in_rect (Rect x' y' w' h') px py ↔ shown clip px py ∧ in_rect (Rect x y w h) px py
  end.
Proof.
  intros Hx Hy Hw Hh HW HH Hc. unfold display_gui_clip_rect, shown, on_screen, in_rect, rect_ok. cbn [rx ry rw rh].
  destruct (_ || _) eqn:E; [apply orb_true_iff in E as [E|E]; apply Z.eqb_eq in E; subst; lia|].
  apply orb_false_iff in E as [E1%Z.eqb_neq E2%Z.eqb_neq].
  destruct (_ || _) eqn:E; [apply orb_true_iff in E as [E|E]; apply Z.leb_le in E; intros; lia|].
  apply orb_false_iff in E as [E3%Z.leb_gt E4%Z.leb_gt]. cbv zeta. rewrite !min_u32.
  assert (Hex : ∀ a n b : Z, 0 ≤ a → 0 < n → 0 ≤ b < two32 →
    Z.min (if 4294967295 - a <? n then b else a + n) b = Z.min (a + n) b).
  { intros a n b Ha Hn Hb. destruct (Z.ltb_spec (4294967295 - a) n); unfold two32 in *; lia. }
  rewrite !Hex by lia. destruct clip as [c|]; cbn in Hc.
  - destruct Hc as (? & ? & ? & ? & ? & ?). rewrite !min_u32, !max_u32, !add32_small by lia.
    destruct (_ || _) eqn:E.
    + apply orb_true_iff in E as [E|E]; apply Z.leb_le in E; intros; unfold in_rect in *; lia.
    + apply orb_false_iff in E as [E5%Z.leb_gt E6%Z.leb_gt]. unfold in_rect, two32 in *. split_and!; lia.
  - destruct (_ || _) eqn:E.
    + apply orb_true_iff in E as [E|E]; apply Z.leb_le in E; intros; lia.
    + apply orb_false_iff in E as [E5%Z.leb_gt E6%Z.leb_gt]. unfold two32 in *. split_and!; lia.
Qed.

Hypothesis screen_u32 : is_u32 width ∧ is_u32 height.

(** * Functions that draw *)

Definition draws (R : Z → Z → Prop) (d : option display_gui_dirty_rect → screen → screen) : Prop :=
  ∃ f : Z → Z → option Z, (∀ x y, is_Some (f x y) → R x y) ∧
    ∀ clip s x y, clip_ok clip →
      d clip s x y = if decide (shown clip x y) then default (s x y) (f x y) else s x y.

(** A pixel of the result depends on that pixel only, and not on how the clip
    rectangle shows it. *)
Lemma draws_same R d clip clip' s s' x y :
  draws R d → clip_ok clip → clip_ok clip' → shown clip x y → shown clip' x y → s x y = s' x y →
  d clip s x y = d clip' s' x y.
Proof using.
  intros (f & _ & Hf) Hc Hc' Hs Hs' E. rewrite !Hf by done. rewrite !decide_True by done. by rewrite E.
Qed.

Lemma draws_out R d clip s x y : draws R d → clip_ok clip → ¬ R x y → d clip s x y = s x y.
Proof using.
  intros (f & HR & Hf) Hc Hn. rewrite Hf by done. case_decide; [|done].
  destruct (f x y) eqn:E; [|done]. destruct Hn. apply HR. by rewrite E.
Qed.

Lemma draws_hidden R d clip s x y : draws R d → clip_ok clip → ¬ shown clip x y → d clip s x y = s x y.
Proof using. intros (f & _ & Hf) Hc Hn. by rewrite Hf, decide_False by done. Qed.

Lemma draws_weaken (R R' : Z → Z → Prop) d : (∀ x y, R x y → R' x y) → draws R d → draws R' d.
Proof using. intros HR (f & Hs & Hf). exists f. split; [|done]. intros x y H. by apply HR, Hs. Qed.

Lemma draws_id R : draws R (λ _ s, s).
Proof using.
  exists (λ _ _, None). split; [by intros x y []|]. intros clip s x y _. simpl. by destruct (decide _).
Qed.

Lemma draws_seq R d1 d2 : draws R d1 → draws R d2 → draws R (λ c s, d2 c (d1 c s)).
Proof using.
  intros (f1 & Hs1 & Hf1) (f2 & Hs2 & Hf2).
  exists (λ x y, match f2 x y with Some v => Some v | None => f1 x y end). split.
  - intros x y. specialize (Hs2 x y). destruct (f2 x y); [intros _; by apply Hs2|apply Hs1].
  - intros clip s x y Hc. rewrite Hf2, Hf1 by done. case_decide; [|done]. by destruct (f2 x y).
Qed.

Lemma draws_foldl {A} R (d : A → option display_gui_dirty_rect → screen → screen) l :
  (∀ a, a ∈ l → draws R (d a)) → draws R (λ c s, foldl (λ s a, d a c s) s l).
Proof using.
  induction l as [|a l IH]; intros Hd; [apply draws_id|]. cbn [foldl].
  apply (draws_seq R (d a) (λ c s, foldl (λ s a, d a c s) s l)); [apply Hd; by left|].
  apply IH. intros b Hb. apply Hd. by right.
Qed.

Lemma draws_range R (d : Z → option display_gui_dirty_rect → screen → screen) a b :
  (∀ i, a ≤ i < b → draws R (d i)) → draws R (λ c s, for_range a b (λ i s, d i c s) s).
Proof using.
  intros Hd. unfold for_range. apply (draws_foldl R d). intros i Hi. apply elem_of_seqZ in Hi. apply Hd. lia.
Qed.

Lemma draws_if R (b : bool) d : draws R d → draws R (λ c s, if b then d c s else s).
Proof using. destruct b; [done|]. intros _. apply draws_id. Qed.

Notation fill := (display_framebuffer_fill_rect_packed fb).

Lemma fb_fill_spec x y w h v clip s px py :
  is_u32 x → is_u32 y → is_u32 w → is_u32 h → clip_ok clip →
  fill x y w h v clip s px py =
  if decide (shown clip px py ∧ in_rect (Rect x y w h) px py) then stored fb v else s px py.
Proof using screen_u32.
  intros Hx Hy Hw Hh Hc. unfold display_framebuffer_fill_rect_packed.
  pose proof (clip_rect_spec clip x y w h Hx Hy Hw Hh (proj1 screen_u32) (proj2 screen_u32) Hc) as Hs.
  destruct (display_gui_clip_rect fb clip x y w h) as [[[[x' y'] w'] h']|].
  - destruct Hs as (Hw' & Hh' & _ & _ & _ & _ & _ & Hs).
    rewrite (put_rows (λ _ _, stored fb v)) by lia. by apply decide_ext.
  - rewrite decide_False; [done|]. intros [H1 H2]. by apply (Hs px py).
Qed.

Lemma draws_fill x y w h v :
  is_u32 x → is_u32 y → is_u32 w → is_u32 h → draws (in_rect (Rect x y w h)) (fill x y w h v).
Proof using screen_u32.
  intros Hx Hy Hw Hh. exists (λ px py, if decide (in_rect (Rect x y w h) px py) then Some (stored fb v) else None). split.
  - intros px py. case_decide; [done|]. by intros [].
  - intros clip s px py Hc. rewrite fb_fill_spec by done.
    destruct (decide (shown clip px py)); [|by rewrite decide_False by tauto].
    destruct (decide (in_rect (Rect x y w h) px py)); [by rewrite decide_True by tauto|by rewrite decide_False by tauto].
Qed.

Lemma draws_fill_in (r : display_gui_dirty_rect) x y w h v :
  0 ≤ x → 0 ≤ y → 0 ≤ w → 0 ≤ h → x + w < two32 → y + h < two32 →
  rx r ≤ x → x + w ≤ rx r + rw r → ry r ≤ y → y + h ≤ ry r + rh r →
  draws (in_rect r) (fill x y w h v).
Proof using screen_u32.
  intros. eapply draws_weaken; [|apply draws_fill; lia]. unfold in_rect. simpl. intros px py ?. lia.
Qed.

Lemma draws_glyph (r : display_gui_dirty_rect) x y c v :
  0 ≤ x → 0 ≤ y → x + 10 < two32 → y + 14 < two32 →
  rx r ≤ x → x + 10 ≤ rx r + rw r → ry r ≤ y → y + 14 ≤ ry r + rh r →
  draws (in_rect r) (display_framebuffer_draw_glyph_mask_packed fb x y c v).
Proof using screen_u32.
  intros Hx Hy Hx' Hy' H1 H2 H3 H4. unfold display_framebuffer_draw_glyph_mask_packed. cbv zeta.
  unfold DISPLAY_FB_GLYPH_H, DISPLAY_FB_GLYPH_W, DISPLAY_FB_GLYPH_SCALE_X, DISPLAY_FB_GLYPH_SCALE_Y.
  apply (draws_range _ (λ row clip scr, for_range 0 5 (λ col scr,
    if display_framebuffer_bootstrap_font_pixel_on (display_lookup_glyph c) row col
    then fill (add32 x (mul32 col 2)) (add32 y (mul32 row 2)) 2 2 v clip scr else scr) scr)).
  intros row Hr. apply (draws_range _ (λ col clip scr,
    if display_framebuffer_bootstrap_font_pixel_on (display_lookup_glyph c) row col
    then fill (add32 x (mul32 col 2)) (add32 y (mul32 row 2)) 2 2 v clip scr else scr)).
  intros col Hcol. apply draws_if. unfold mul32. rewrite !u32_small, !add32_small by (unfold two32 in *; lia).
  apply draws_fill_in; lia.
Qed.

Lemma draws_text_emph (r : display_gui_dirty_rect) x y text fg bg sh :
  0 ≤ x → 0 ≤ y → x + 14 * alen text < two32 → y + 17 < two32 →
  rx r ≤ x → x + 14 * alen text ≤ rx r + rw r → ry r ≤ y → y + 17 ≤ ry r + rh r →
  draws (in_rect r) (display_framebuffer_draw_text_emphasized_packed fb x y text fg bg sh).
Proof using screen_u32.
  revert x. induction text as [|c text IH]; intros x Hx Hy Hx' Hy' H1 H2 H3 H4; [apply draws_id|].
  cbn [display_framebuffer_draw_text_emphasized_packed].
  assert (Hl : alen (c :: text) = 1 + alen text) by (unfold alen; simpl; lia). pose proof (alen_nonneg text).
  unfold DISPLAY_FB_GLYPH_X_PAD, DISPLAY_FB_GLYPH_Y_PAD, DISPLAY_FB_CHAR_W, DISPLAY_FB_CHAR_H.
  rewrite (add32_small x 2), (add32_small y 1), (add32_small (x + 2) 1), (add32_small (y + 1) 1) by lia.
  apply (draws_seq _ (λ cl s, display_framebuffer_draw_glyph_mask_packed fb (x + 2) (y + 1) c fg cl
    (display_framebuffer_draw_glyph_mask_packed fb (x + 2 + 1) (y + 1 + 1) c sh cl (fill x y 14 17 bg cl s)))
    (display_framebuffer_draw_text_emphasized_packed fb (add32 x 14) y text fg bg sh)).
  - apply (draws_seq _ (λ cl s, display_framebuffer_draw_glyph_mask_packed fb (x + 2 + 1) (y + 1 + 1) c sh cl (fill x y 14 17 bg cl s))
      (display_framebuffer_draw_glyph_mask_packed fb (x + 2) (y + 1) c fg)); [|apply draws_glyph; lia].
    apply (draws_seq _ (fill x y 14 17 bg) (display_framebuffer_draw_glyph_mask_packed fb (x + 2 + 1) (y + 1 + 1) c sh));
      [apply draws_fill_in; lia|apply draws_glyph; lia].
  - destruct (decide (text = [])) as [->|Hne]; [apply draws_id|].
    assert (0 < alen text) by (destruct text; [done|unfold alen; simpl; lia]).
    rewrite add32_small by lia. apply IH; lia.
Qed.

Lemma draws_text (r : display_gui_dirty_rect) x y text fg bg :
  0 ≤ x → 0 ≤ y → x + 14 * alen text < two32 → y + 17 < two32 →
  rx r ≤ x → x + 14 * alen text ≤ rx r + rw r → ry r ≤ y → y + 17 ≤ ry r + rh r →
  draws (in_rect r) (display_framebuffer_draw_text_packed fb x y text fg bg).
Proof using screen_u32.
  revert x. induction text as [|c text IH]; intros x Hx Hy Hx' Hy' H1 H2 H3 H4; [apply draws_id|].
  cbn [display_framebuffer_draw_text_packed].
  assert (Hl : alen (c :: text) = 1 + alen text) by (unfold alen; simpl; lia). pose proof (alen_nonneg text).
  apply (draws_seq _ (display_framebuffer_draw_glyph_packed fb x y c fg bg)
    (display_framebuffer_draw_text_packed fb (add32 x DISPLAY_FB_CHAR_W) y text fg bg)).
  - unfold display_framebuffer_draw_glyph_packed, DISPLAY_FB_GLYPH_X_PAD, DISPLAY_FB_GLYPH_Y_PAD, DISPLAY_FB_CHAR_W, DISPLAY_FB_CHAR_H.
    rewrite (add32_small x 2), (add32_small y 1) by lia.
    apply (draws_seq _ (fill x y 14 17 bg) (display_framebuffer_draw_glyph_mask_packed fb (x + 2) (y + 1) c fg));
      [apply draws_fill_in; lia|apply draws_glyph; lia].
  - unfold DISPLAY_FB_CHAR_W. destruct (decide (text = [])) as [->|Hne]; [apply draws_id|].
    assert (0 < alen text) by (destruct text; [done|unfold alen; simpl; lia]).
    rewrite add32_small by lia. apply IH; lia.
Qed.

(** * Windows *)

(** A window that is drawn within its bounds: it is wide enough for the close
    box and for its title. *)
Record window_ok (w : display_gui_window) : Prop := {
  wo_x : 0 ≤ wx w < 65536;
  wo_y : 0 ≤ wy w < 65536;
  wo_width : 24 ≤ wwidth w ≤ DISPLAY_GUI_MAX_WIDTH;
  wo_height : 1 ≤ wheight w ≤ DISPLAY_GUI_MAX_HEIGHT;
  wo_title : 14 * alen (cstr (title w)) + 2 ≤ wwidth w
}.

Lemma window_sizes w : window_ok w →
  display_gui_window_total_width w = wwidth w + 2 ∧ display_gui_window_total_height w = wheight w + 26 ∧
  client_left w = wx w + 1 ∧ client_top w = wy w + 25 ∧ close_x w = wx w + wwidth w - 23 ∧ close_y w = wy w + 5.
Proof using.
  intros [Hx Hy Hw Hh _]. unfold DISPLAY_GUI_MAX_WIDTH, DISPLAY_GUI_MAX_HEIGHT in *.
  unfold display_gui_window_total_width, display_gui_window_total_height, client_left, client_top, close_x, close_y,
    DISPLAY_GUI_FRAME_BORDER, DISPLAY_GUI_TITLE_H, DISPLAY_GUI_CLIENT_INSET, DISPLAY_GUI_CLOSE_W.
  change (1 + 24) with 25. rewrite (add32_small 1 (wwidth w)), (add32_small (1 + wwidth w) 1), (add32_small 25 (wheight w)),
    (add32_small (25 + wheight w) 1), (add32_small (wx w) 1), (add32_small (wx w + 1) 0), (add32_small (wy w) 1),
    (add32_small (wy w + 1) 24), (add32_small (wy w + 1 + 24) 0), (add32_small (wx w + 1) (wwidth w)),
    (sub32_small (wx w + 1 + wwidth w) 18), (sub32_small (wx w + 1 + wwidth w - 18) 6), (add32_small (wy w) 5)
    by (unfold two32; lia). lia.
Qed.

Lemma window_bounds w : window_ok w → w_used w = true →
  display_gui_window_bounds w = Rect (wx w) (wy w) (wwidth w + 6) (wheight w + 30) ∧ rect_ok (display_gui_window_bounds w).
Proof using.
  intros Hw Hu. destruct (window_sizes w Hw) as (E1 & E2 & _). destruct Hw as [Hx Hy Hw Hh _].
  unfold DISPLAY_GUI_MAX_WIDTH, DISPLAY_GUI_MAX_HEIGHT in *. unfold display_gui_window_bounds. rewrite Hu, E1, E2. cbn [negb].
  rewrite !add32_small by (unfold two32; lia). split; [f_equal; lia|]. unfold rect_ok, two32. cbn. lia.
Qed.

(** The colour a surface gives a pixel of the screen. *)
Definition surface_pixel w (x y : Z) : Z :=
  let p := (pixels w).[(y - client_top w) * wwidth w + (x - client_left w)] in
  stored fb (display_framebuffer_pack_rgb fb (Z.land (Z.shiftr p 16) 255) (Z.land (Z.shiftr p 8) 255) (Z.land p 255)).

Definition client_rect w : display_gui_dirty_rect := Rect (client_left w) (client_top w) (wwidth w) (wheight w).

Lemma blit_spec w clip s px py :
  window_ok w → clip_ok clip →
  display_gui_blit_surface fb w clip s px py =
  if decide (shown clip px py ∧ in_rect (client_rect w) px py ∧ surface w ≠ 0 ∧ 3 ≤ bytes_per_pixel fb)
  then surface_pixel w px py else s px py.
Proof using screen_u32.
  intros Hw Hc. destruct (window_sizes w Hw) as (_ & _ & El & Et & _). destruct Hw as [Hx Hy Hwd Hh _].
  unfold DISPLAY_GUI_MAX_WIDTH, DISPLAY_GUI_MAX_HEIGHT in *.
  unfold display_gui_blit_surface. destruct (Z.eqb_spec (surface w) 0) as [E0|E0]; [rewrite decide_False by tauto; done|].
  pose proof (clip_rect_spec clip (client_left w) (client_top w) (wwidth w) (wheight w) ltac:(unfold two32; lia) ltac:(unfold two32; lia)
    ltac:(unfold two32; lia) ltac:(unfold two32; lia) (proj1 screen_u32) (proj2 screen_u32) Hc) as Hr.
  destruct (display_gui_clip_rect fb clip _ _ _ _) as [[[[x' y'] w'] h']|].
  2: { rewrite decide_False; [done|]. intros (H1 & H2 & _). by apply (Hr px py). }
  destruct Hr as (Hw' & Hh' & Hok & Hxw & Hyh & Hx' & Hy' & Hr). unfold rect_ok in Hok. cbn in Hok.
  rewrite !sub32_small by (unfold two32 in *; lia).
  assert (Hin : ∀ i j, 0 ≤ i < w' → 0 ≤ j < h' → shown clip (x' + i) (y' + j)).
  { intros i j Hi Hj. apply Hr. unfold in_rect. cbn. lia. }
  assert (Ex : for_range 0 h' (λ row scr, for_range 0 w' (λ col scr,
      display_gui_write_fb_pixel fb (x' + col) (y' + row)
        (pixels w).[(y' - client_top w + row) * wwidth w + (x' - client_left w) + col] clip scr) scr) s =
    for_range 0 h' (λ row scr, for_range 0 w' (λ col scr,
      if 3 <=? bytes_per_pixel fb then put_pixel (x' + col) (y' + row) (surface_pixel w (x' + col) (y' + row)) scr else scr) scr) s).
  { apply for_range_ext. intros j s1 Hj. apply for_range_ext. intros i s2 Hi. specialize (Hin i j Hi Hj).
    unfold display_gui_write_fb_pixel. destruct Hin as [[Hsx Hsy] Hcl].
    rewrite (proj2 (Z.leb_gt width (x' + i))), (proj2 (Z.leb_gt height (y' + j))) by lia. cbn [orb].
    assert (Ecl : clipped clip (x' + i) (y' + j) = false).
    { destruct clip as [c|]; [|done]. unfold in_rect in Hcl. cbn in Hc. unfold clipped. destruct Hc as (? & ? & ? & ? & ? & ?).
      rewrite !add32_small by lia. apply orb_false_iff; split; [apply orb_false_iff; split; [apply orb_false_iff; split|]|];
        first [apply Z.ltb_ge|apply Z.leb_gt]; lia. }
    rewrite Ecl. unfold surface_pixel. cbv zeta.
    replace ((y' - client_top w + j) * wwidth w + (x' - client_left w) + i)
      with ((y' + j - client_top w) * wwidth w + (x' + i - client_left w)) by lia. done. }
  rewrite Ex. clear Ex. destruct (Z.leb_spec 3 (bytes_per_pixel fb)) as [Hb|Hb].
  - rewrite (put_rows (λ i j, surface_pixel w (x' + i) (y' + j))) by lia.
    replace (x' + (px - x')) with px by lia. replace (y' + (py - y')) with py by lia.
    apply decide_ext. rewrite Hr. tauto.
  - assert (Hn : ∀ a b n m (s : screen), for_range a b (λ _ s, for_range n m (λ _ s, s) s) s = s).
    { intros. assert (Hi : ∀ n m (s : screen), for_range n m (λ _ s, s) s = s).
      { intros n1 m1 s1. unfold for_range. induction (seqZ n1 (m1 - n1)); done. }
      unfold for_range at 1. induction (seqZ a (b - a)) as [|? l IH]; [done|]. cbn [foldl]. by rewrite Hi. }
    rewrite Hn, decide_False; [done|]. intros (_ & _ & _ & H). lia.
Qed.

Lemma draws_blit w : window_ok w → draws (in_rect (client_rect w)) (display_gui_blit_surface fb w).
Proof using screen_u32.
  intros Hw. exists (λ px py, if decide (in_rect (client_rect w) px py ∧ surface w ≠ 0 ∧ 3 ≤ bytes_per_pixel fb)
    then Some (surface_pixel w px py) else None).
  split; [intros px py; case_decide; [tauto|by intros []]|]. intros clip s px py Hc. rewrite blit_spec by done.
  destruct (decide (shown clip px py)) as [H1|H1]; [|by rewrite decide_False by tauto].
  destruct (decide (in_rect (client_rect w) px py ∧ surface w ≠ 0 ∧ 3 ≤ bytes_per_pixel fb));
    [by rewrite decide_True by tauto|by rewrite decide_False by tauto].
Qed.

Lemma draws_frame w focused :
  window_ok w → w_used w = true → draws (in_rect (display_gui_window_bounds w)) (paint_frame fb w focused).
Proof using screen_u32.
  intros Hw Hu. destruct (window_bounds w Hw Hu) as [-> _]. destruct (window_sizes w Hw) as (Ew & Eh & El & Et & Ex & Ey). destruct Hw as [Hx Hy Hwd Hh Hti].
  unfold DISPLAY_GUI_MAX_WIDTH, DISPLAY_GUI_MAX_HEIGHT in *. pose proof (alen_nonneg (cstr (title w))).
  set (R := Rect _ _ _ _). unfold paint_frame. cbv zeta. rewrite Ew, Eh, Ex, Ey.
  unfold DISPLAY_GUI_FRAME_BORDER, DISPLAY_GUI_TITLE_H, DISPLAY_GUI_CLOSE_W, DISPLAY_GUI_CLOSE_H.
  rewrite (add32_small (wx w) 4), (add32_small (wy w) 4), (add32_small (wx w) 1), (add32_small (wy w) 1),
    (sub32_small (wwidth w + 2) (1 * 2)), (sub32_small (wheight w + 26) (1 * 2)), (add32_small (wx w) 8),
    (add32_small (wx w + wwidth w - 23) 5), (add32_small (wy w + 5) 1) by (unfold two32; lia).
  assert (Hf : ∀ x y w' h v, 0 ≤ x - wx w → 0 ≤ y - wy w → 0 ≤ w' → 0 ≤ h → x + w' ≤ wx w + wwidth w + 6 →
    y + h ≤ wy w + wheight w + 30 → draws (in_rect R) (fill x y w' h v)).
  { intros. apply draws_fill_in; unfold R, two32; cbn; lia. }
  assert (Ht : ∀ x y t fg bg sh, 0 ≤ x - wx w → 0 ≤ y - wy w → x + 14 * alen t ≤ wx w + wwidth w + 6 →
    y + 17 ≤ wy w + wheight w + 30 → draws (in_rect R) (display_framebuffer_draw_text_emphasized_packed fb x y t fg bg sh)).
  { intros. pose proof (alen_nonneg t). apply draws_text_emph; unfold R, two32; cbn; lia. }
  set (d1 := fill (wx w + 4) (wy w + 4) _ _ _). set (d2 := fill (wx w) (wy w) _ _ _).
  set (d3 := fill (wx w + 1) (wy w + 1) (wwidth w + 2 - 1 * 2) _ _). set (d4 := fill (wx w + 1) (wy w + 1) (wwidth w) 24 _).
  set (d5 := display_framebuffer_draw_text_emphasized_packed fb (wx w + 8) _ _ _ _ _).
  set (d6 := fill (wx w + wwidth w - 23) _ _ _ _).
  set (d7 := display_framebuffer_draw_text_emphasized_packed fb (wx w + wwidth w - 23 + 5) _ _ _ _ _).
  apply (draws_seq _ (λ c s, d6 c (d5 c (d4 c (d3 c (d2 c (d1 c s)))))) d7); [|apply Ht; unfold alen; simpl; lia].
  apply (draws_seq _ (λ c s, d5 c (d4 c (d3 c (d2 c (d1 c s))))) d6); [|apply Hf; lia].
  apply (draws_seq _ (λ c s, d4 c (d3 c (d2 c (d1 c s)))) d5); [|apply Ht; lia].
  apply (draws_seq _ (λ c s, d3 c (d2 c (d1 c s))) d4); [|apply Hf; lia].
  apply (draws_seq _ (λ c s, d2 c (d1 c s)) d3); [|apply Hf; lia].
  apply (draws_seq _ d1 d2); apply Hf; lia.
Qed.

Lemma draws_paint w focused :
  window_ok w → w_used w = true → draws (in_rect (display_gui_window_bounds w)) (paint_window fb w focused).
Proof using screen_u32.
  intros Hw Hu. apply (draws_seq _ (paint_frame fb w focused) (display_gui_blit_surface fb w)); [by apply draws_frame|].
  eapply draws_weaken; [|by apply draws_blit]. destruct (window_bounds w Hw Hu) as [-> _].
  destruct (window_sizes w Hw) as (_ & _ & El & Et & _). unfold in_rect, client_rect. rewrite El, Et. cbn. intros. lia.
Qed.

Lemma intersects_spec a b :
  rect_ok a → rect_ok b → display_gui_rect_intersects a b = false → ∀ x y, in_rect a x y → in_rect b x y → False.
Proof using.
  intros (? & ? & ? & ? & ? & ?) (? & ? & ? & ? & ? & ?). unfold display_gui_rect_intersects, rect_empty, in_rect.
  destruct (_ || _) eqn:E.
  - intros _ x y ? ?. rewrite !orb_true_iff, !Z.eqb_eq in E. lia.
  - rewrite !add32_small by lia. intros H' x y ? ?. rewrite !andb_false_iff, !Z.ltb_ge in H'. lia.
Qed.

(** A window that does not meet the clip rectangle need not be painted. *)
Lemma draws_window w focused :
  (w_used w = true → window_ok w) →
  draws (λ x y, w_used w = true ∧ in_rect (display_gui_window_bounds w) x y) (display_gui_draw_window fb w focused).
Proof using screen_u32.
  intros Hw. unfold display_gui_draw_window. destruct (w_used w) eqn:Hu; cbn [negb]; [|apply draws_id]. specialize (Hw eq_refl).
  destruct (draws_paint w focused Hw Hu) as (f & Hs & Hf). destruct (window_bounds w Hw Hu) as [_ Hb].
  exists f. split; [naive_solver|]. intros [c|] s x y Hc; [|by apply Hf].
  destruct (display_gui_rect_intersects (display_gui_window_bounds w) c) eqn:E; cbn [negb]; [by apply Hf|].
  destruct (decide (shown (Some c) x y)) as [[_ Hin]|]; [|done].
  destruct (f x y) as [v|] eqn:Ef; [|done]. exfalso.
  apply (intersects_spec _ _ Hb Hc E x y); [|done]. apply Hs. by rewrite Ef.
Qed.

Lemma draws_cursor g :
  0 ≤ cursor_x g < 65536 → 0 ≤ cursor_y g < 65536 →
  draws (in_rect (display_gui_cursor_bounds_at (cursor_x g) (cursor_y g))) (display_gui_draw_cursor fb g).
Proof using screen_u32.
  intros Hx Hy. unfold display_gui_draw_cursor, display_gui_cursor_bounds_at, DISPLAY_GUI_CURSOR_W, DISPLAY_GUI_CURSOR_H.
  set (x := cursor_x g) in *. set (y := cursor_y g) in *. cbv zeta.
  rewrite (add32_small x 1), (add32_small y 1) by (unfold two32; lia).
  set (d1 := fill x y 1 12 _). set (d2 := fill x y 8 1 _). set (d3 := fill (x + 1) (y + 1) 1 9 _). set (d4 := fill (x + 1) (y + 1) 5 1 _).
  apply (draws_seq _ (λ c s, d3 c (d2 c (d1 c s))) d4); [|apply draws_fill_in; unfold two32; cbn; lia].
  apply (draws_seq _ (λ c s, d2 c (d1 c s)) d3); [|apply draws_fill_in; unfold two32; cbn; lia].
  apply (draws_seq _ d1 d2); apply draws_fill_in; unfold two32; cbn; lia.
Qed.
End draw.
