(* ===== verification/GuiSpec.v ===== *)
(** The window system keeps its state in order: [gui_wf], kept by every
    operation. *)

From S2P Require Import Prelude Bytes Kmalloc Keyboard Framebuffer Gui.

Notation MAX := DISPLAY_GUI_MAX_WINDOWS.

Record window_wf (w : display_gui_window) : Prop := {
  ww_id : 0 < window_id w;
  ww_owner : 0 < owner_pid w;
  ww_x : 0 ≤ wx w < 65536;
  ww_y : 0 ≤ wy w < 65536;
  ww_width : 1 ≤ wwidth w ≤ DISPLAY_GUI_MAX_WIDTH;
  ww_height : 1 ≤ wheight w ≤ DISPLAY_GUI_MAX_HEIGHT;
  ww_surface : surface w ≠ 0;
  ww_pixels : alen (pixels w) = wwidth w * wheight w;
  ww_title : alen (title w) = 32;
  ww_events : alen (events w) = DISPLAY_GUI_EVENT_QUEUE_CAP;
  ww_head : 0 ≤ event_head w < DISPLAY_GUI_EVENT_QUEUE_CAP;
  ww_count : 0 ≤ event_count w ≤ DISPLAY_GUI_EVENT_QUEUE_CAP
}.

Definition in_use (g : display_gui_state) (i : Z) : Prop := 0 ≤ i < MAX ∧ w_used (win g i) = true.

#[export] Instance in_use_dec g i : Decision (in_use g i).
Proof. unfold in_use. solve_decision. Defined.

(** No window, or one in use. *)
Definition none_or_used (g : display_gui_state) (i : Z) : Prop := i = -1 ∨ in_use g i.

Section wf.
Context (fb : display_framebuffer_state).
Implicit Types (g : display_gui_state) (w : display_gui_window).
Notation width := (fb_width (info fb)).
Notation height := (fb_height (info fb)).

Record gui_wf g : Prop := {
  gw_active : gui_active g = true;
  gw_size : alen (windows g) = MAX;
  gw_nodup : NoDup (z_order g);
  gw_order : ∀ i, i ∈ z_order g ↔ in_use g i;
  gw_focus : none_or_used g (focused_index g);
  gw_drag : none_or_used g (drag_index g);
  gw_cursor_x : 0 ≤ cursor_x g < width;
  gw_cursor_y : 0 ≤ cursor_y g < height;
  gw_start_x : 0 ≤ drag_index g → 0 ≤ drag_window_x g ≤ drag_grab_x g ∧ drag_grab_x g < width;
  gw_start_y : 0 ≤ drag_index g → 0 ≤ drag_window_y g ≤ drag_grab_y g ∧ drag_grab_y g < height;
  gw_windows : ∀ i, in_use g i → window_wf (win g i) ∧ window_id (win g i) < next_window_id g;
  gw_ids : ∀ i j, in_use g i → in_use g j →
    window_id (win g i) = window_id (win g j) ∨ owner_pid (win g i) = owner_pid (win g j) → i = j;
  gw_next : 0 < next_window_id g
}.

Lemma win_set i w g j :
  alen (windows g) = MAX → 0 ≤ i < MAX → 0 ≤ j → win (set_win i w g) j = if decide (i = j) then w else win g j.
Proof.
  intros Hl Hi Hj. unfold win, set_win. cbn [windows]. apply aget_aset; lia.
Qed.

(** Changes that leave a component alone. *)
Definition same_windows g g' : Prop := windows g' = windows g ∧ gui_active g' = gui_active g ∧ next_window_id g' = next_window_id g.

Lemma in_use_same g g' i : windows g' = windows g → in_use g' i ↔ in_use g i.
Proof. unfold in_use, win. by intros ->. Qed.

Lemma in_use_range g i : in_use g i → 0 ≤ i < MAX.
Proof. by intros []. Qed.

Lemma in_use_set g i w j :
  alen (windows g) = MAX → 0 ≤ i < MAX → in_use (set_win i w g) j ↔ if decide (i = j) then w_used w = true else in_use g j.
Proof.
  intros Hl Hi. unfold in_use. split.
  - intros [Hj H]. rewrite win_set in H by lia. by case_decide.
  - case_decide as E; [subst|].
    + intros H. split; [done|]. rewrite win_set by lia. by rewrite decide_True.
    + intros [Hj H]. split; [done|]. rewrite win_set by lia. by rewrite decide_False.
Qed.

(** Changing a window in use, not its identity. *)
Lemma in_use_keep g i w j :
  alen (windows g) = MAX → in_use g i → w_used w = true → in_use (set_win i w g) j ↔ in_use g j.
Proof.
  intros Hl Hi Hu. rewrite in_use_set by (done || apply Hi). case_decide as E; [subst|done]. naive_solver.
Qed.

Lemma wf_keep g i w :
  gui_wf g → in_use g i → window_wf w → w_used w = true → window_id w = window_id (win g i) →
  owner_pid w = owner_pid (win g i) → gui_wf (set_win i w g).
Proof.
  intros Hg Hi Hw Hu Hid Ho. pose proof (gw_size g Hg) as Hl. pose proof (in_use_range g i Hi) as Hr.
  assert (Hk : ∀ j, in_use (set_win i w g) j ↔ in_use g j) by (intros; by apply in_use_keep).
  assert (Hsame : ∀ j, 0 ≤ j → window_id (win (set_win i w g) j) = window_id (win g j) ∧
                       owner_pid (win (set_win i w g) j) = owner_pid (win g j)).
  { intros j Hj. rewrite win_set by lia. case_decide; [by subst|done]. }
  destruct Hg. split; try done.
  - cbn. by rewrite alen_aset.
  - intros j. by rewrite Hk.
  - unfold none_or_used. by rewrite Hk.
  - unfold none_or_used. by rewrite Hk.
  - intros j Hj%Hk. cbn [set_win next_window_id]. destruct (gw_windows0 j Hj) as [H1 H2]. rewrite win_set by (apply in_use_range in Hj; lia).
    case_decide as E; [subst j|done]. split; [done|]. lia.
  - intros j k Hj%Hk Hk'%Hk. destruct (Hsame j ltac:(apply in_use_range in Hj; lia)) as [-> ->].
    destruct (Hsame k ltac:(apply in_use_range in Hk'; lia)) as [-> ->]. by apply gw_ids0.
Qed.

(** ** Events *)

Lemma append_wf e w : window_wf w → event_count w < DISPLAY_GUI_EVENT_QUEUE_CAP → window_wf (append_event e w).
Proof.
  intros Hw Hc. destruct Hw. split; cbn [append_event with_events window_id owner_pid wx wy wwidth wheight surface pixels title events event_head event_count]; try done; [by rewrite alen_aset|lia].
Qed.

Lemma drop_wf w : window_wf w → 0 < event_count w → window_wf (drop_event w).
Proof.
  intros Hw Hc. destruct Hw. split; cbn [drop_event with_events window_id owner_pid wx wy wwidth wheight surface pixels title events event_head event_count]; try done; [by apply Z.mod_pos_bound|lia].
Qed.

Lemma queue_wf e w : window_wf w → window_wf (snd (display_gui_window_queue_event w e)).
Proof.
  intros Hw. unfold display_gui_window_queue_event. pose proof (ww_count w Hw). unfold DISPLAY_GUI_EVENT_QUEUE_CAP in *.
  destruct (Z.leb_spec 32 (event_count w)).
  - destruct (is_move e); [done|]. destruct (is_move _); [|done]. apply append_wf; [apply drop_wf; [done|lia]|].
    unfold DISPLAY_GUI_EVENT_QUEUE_CAP. cbn. lia.
  - by apply append_wf.
Qed.

(** What a queue change leaves alone. *)
Definition same_look w w' : Prop :=
  w_used w' = w_used w ∧ wx w' = wx w ∧ wy w' = wy w ∧ wwidth w' = wwidth w ∧ wheight w' = wheight w ∧
  title w' = title w ∧ surface w' = surface w ∧ pixels w' = pixels w.
Definition same_name w w' : Prop := window_id w' = window_id w ∧ owner_pid w' = owner_pid w.

Lemma queue_same e w :
  let w' := snd (display_gui_window_queue_event w e) in same_look w w' ∧ same_name w w'.
Proof. unfold display_gui_window_queue_event. repeat case_match; by unfold same_look, same_name. Qed.

(** [g'] is [g] but for the queues of its windows. *)
Record queues_only g g' : Prop := {
  qo_active : gui_active g' = gui_active g;
  qo_focus : focused_index g' = focused_index g;
  qo_drag : drag_index g' = drag_index g;
  qo_next : next_window_id g' = next_window_id g;
  qo_cursor : cursor_x g' = cursor_x g ∧ cursor_y g' = cursor_y g;
  qo_buttons : buttons g' = buttons g;
  qo_start : drag_grab_x g' = drag_grab_x g ∧ drag_grab_y g' = drag_grab_y g ∧
             drag_window_x g' = drag_window_x g ∧ drag_window_y g' = drag_window_y g;
  qo_order : z_order g' = z_order g;
  qo_dirty : dirty g' = dirty g;
  qo_size : alen (windows g') = alen (windows g);
  qo_windows : ∀ i, 0 ≤ i → same_look (win g i) (win g' i) ∧ same_name (win g i) (win g' i)
}.

Lemma queues_refl g : queues_only g g.
Proof. by split. Qed.

Lemma emit_queues i t x y b bs k c m g :
  alen (windows g) = MAX → queues_only g (display_gui_emit_simple_event i t x y b bs k c m g).
Proof.
  intros Hl. unfold display_gui_emit_simple_event. destruct (_ || _) eqn:E; [apply queues_refl|].
  apply orb_false_iff in E as [E1%Z.ltb_ge E2%Z.leb_gt]. destruct (w_used (win g i)); [|apply queues_refl]. cbn [negb].
  split; try done; [cbn; by rewrite alen_aset|]. intros j Hj. rewrite win_set by lia.
  case_decide; [subst; apply queue_same|done].
Qed.

Lemma emit_wf i t x y b bs k c m g : gui_wf g → gui_wf (display_gui_emit_simple_event i t x y b bs k c m g).
Proof.
  intros Hg. unfold display_gui_emit_simple_event. destruct (_ || _) eqn:E; [done|].
  apply orb_false_iff in E as [E1%Z.ltb_ge E2%Z.leb_gt]. destruct (w_used (win g i)) eqn:Hu; [|done]. cbn [negb].
  assert (Hi : in_use g i) by done. set (e := Event _ _ _ _ _ _ _ _ _ _ _).
  destruct (queue_same e (win g i)) as [(H1 & _) (H2 & H3)].
  apply wf_keep; [done..|apply queue_wf, (gw_windows g Hg i Hi)|congruence|done|done].
Qed.

(** ** Order *)

Lemma filter_others (i : Z) (l : list Z) : i ∉ l → filter (λ j, j ≠ i) l = l.
Proof.
  induction l as [|j l IH]; [done|]. intros Hi. rewrite not_elem_of_cons in Hi. destruct Hi as [Hj Hi].
  by rewrite filter_cons_True, IH by congruence.
Qed.

Lemma remove_first_spec i l : NoDup l → remove_first i l = filter (λ j, j ≠ i) l.
Proof.
  induction 1 as [|j l Hj Hl IH]; [done|]. cbn [remove_first]. destruct (Z.eqb_spec j i) as [->|Hne].
  - rewrite filter_cons_False by naive_solver. by rewrite filter_others.
  - rewrite filter_cons_True by done. by rewrite IH.
Qed.

Lemma used_length (l : list Z) : NoDup l → (∀ i, i ∈ l → 0 ≤ i < MAX) → alen l ≤ MAX.
Proof.
  intros Hn Hi. assert (Hs : l ⊆+ seqZ 0 MAX).
  { apply NoDup_submseteq; [done|]. intros i H. apply elem_of_seqZ. specialize (Hi i H). lia. }
  apply submseteq_length in Hs. rewrite length_seqZ in Hs. unfold alen. unfold DISPLAY_GUI_MAX_WINDOWS in *. lia.
Qed.

Lemma raise_order i g :
  gui_wf g → 0 ≤ i < MAX →
  display_gui_raise_window i g = set_z (filter (λ j, j ≠ i) (z_order g) ++ [i]) g.
Proof.
  intros Hg Hi. unfold display_gui_raise_window. rewrite (proj2 (Z.ltb_ge i 0)), (proj2 (Z.leb_gt MAX i)) by lia. cbn [orb].
  unfold display_gui_remove_from_z_order. cbn [set_z z_order]. rewrite remove_first_spec by (apply gw_nodup, Hg).
  assert (Hlt : alen (filter (λ j, j ≠ i) (z_order g) ++ [i]) ≤ MAX).
  { apply used_length.
    - apply NoDup_app. split_and!; [by apply NoDup_filter, gw_nodup| |by apply NoDup_singleton].
      intros j Hj Hji. apply list_elem_of_singleton in Hji as ->. by apply list_elem_of_filter in Hj as [[] _].
    - intros j. rewrite elem_of_app, list_elem_of_filter, list_elem_of_singleton. intros [[_ Hj]| ->]; [|done].
      apply (gw_order g Hg) in Hj. by apply in_use_range in Hj. }
  rewrite alen_app in Hlt. change (alen [i]) with 1 in Hlt. by rewrite (proj2 (Z.ltb_lt _ _)) by lia.
Qed.

Lemma wf_raise i g : gui_wf g → in_use g i → gui_wf (display_gui_raise_window i g).
Proof.
  intros Hg Hi. rewrite raise_order by (done || apply Hi). destruct Hg. split; try done.
  - cbn. apply NoDup_app. split_and!; [by apply NoDup_filter| |by apply NoDup_singleton].
    intros j Hj Hji. apply list_elem_of_singleton in Hji as ->. by apply list_elem_of_filter in Hj as [[] _].
  - intros j. cbn [set_z z_order]. rewrite elem_of_app, list_elem_of_filter, list_elem_of_singleton, gw_order0.
    change (in_use (set_z _ g) j) with (in_use g j). destruct (decide (j = i)); naive_solver.
Qed.

(** ** Fields *)

Lemma wf_set_focus i g : gui_wf g → none_or_used g i → gui_wf (set_focus i g).
Proof. intros [] ?. by split. Qed.

Lemma wf_set_dirty l g : gui_wf g → gui_wf (set_dirty l g).
Proof. intros []. by split. Qed.

Lemma wf_set_buttons b g : gui_wf g → gui_wf (set_buttons b g).
Proof. intros []. by split. Qed.

Lemma wf_set_cursor x y g : gui_wf g → 0 ≤ x < width → 0 ≤ y < height → gui_wf (set_cursor x y g).
Proof. intros [] ? ?. by split. Qed.

Lemma wf_no_drag g : gui_wf g → gui_wf (set_drag (-1) g).
Proof. intros []. split; try done. by left. Qed.

(** Marking changes the list of dirty rectangles only. *)
Lemma mark_rect_is (x y rw' rh' : Z) g : ∃ l, display_gui_mark_dirty_rect fb x y rw' rh' g = set_dirty l g.
Proof.
  assert (Hid : ∃ l, g = set_dirty l g) by (exists (dirty g); by destruct g).
  unfold display_gui_mark_dirty_rect. destruct (gui_active g); [|done]. cbn [negb].
  destruct (display_gui_clip_rect fb None x y rw' rh') as [[[[? ?] ?] ?]|]; [|done].
  destruct (merge_dirty _ _); [by eexists|]. destruct (_ <=? _); by eexists.
Qed.

Lemma wf_mark r g : gui_wf g → gui_wf (display_gui_mark_dirty fb r g).
Proof.
  intros Hg. unfold display_gui_mark_dirty. destruct (mark_rect_is (rx r) (ry r) (rw r) (rh r) g) as [l ->]. by apply wf_set_dirty.
Qed.

Lemma mark_dirty_same r g :
  let g' := display_gui_mark_dirty fb r g in
  windows g' = windows g ∧ z_order g' = z_order g ∧ focused_index g' = focused_index g ∧ drag_index g' = drag_index g ∧
  cursor_x g' = cursor_x g ∧ cursor_y g' = cursor_y g ∧ gui_active g' = gui_active g ∧ buttons g' = buttons g.
Proof.
  unfold display_gui_mark_dirty. by destruct (mark_rect_is (rx r) (ry r) (rw r) (rh r) g) as [l ->].
Qed.

Lemma queues_in_use g g' i : queues_only g g' → in_use g' i ↔ in_use g i.
Proof.
  intros Hq. unfold in_use. split; intros [Hi Hu]; (split; [done|]);
    destruct (qo_windows g g' Hq i ltac:(lia)) as [(E & _) _]; congruence.
Qed.

Lemma emit_in_use i t x y b bs k c m g j :
  alen (windows g) = MAX → in_use (display_gui_emit_simple_event i t x y b bs k c m g) j ↔ in_use g j.
Proof. intros Hl. by apply queues_in_use, emit_queues. Qed.

Lemma raise_windows i g : windows (display_gui_raise_window i g) = windows g.
Proof. unfold display_gui_raise_window. repeat case_match; done. Qed.

Lemma wf_focus_window i g : gui_wf g → none_or_used g i → gui_wf (display_gui_focus_window i g).
Proof.
  intros Hg Hi. unfold display_gui_focus_window.
  destruct (Z.eqb_spec i (focused_index g)) as [E|Hne].
  { destruct Hi as [->|Hi]; [done|by apply wf_raise]. }
  assert (H1 : gui_wf (if 0 <=? focused_index g then emit_note (focused_index g) SYSCALL_GUI_EVENT_BLUR g else g))
    by (case_match; [by apply emit_wf|done]).
  assert (Hu : ∀ j, in_use (if 0 <=? focused_index g then emit_note (focused_index g) SYSCALL_GUI_EVENT_BLUR g else g) j ↔ in_use g j).
  { intros j. case_match; [|done]. apply emit_in_use, gw_size, Hg. }
  set (g1 := if 0 <=? focused_index g then _ else g) in *. destruct Hi as [->|Hi].
  - apply wf_set_focus; [done|]. by left.
  - rewrite (proj2 (Z.leb_le 0 i)) by (apply in_use_range in Hi; lia). apply emit_wf, wf_raise.
    + apply wf_set_focus; [done|]. right. by apply Hu.
    + by apply Hu.
Qed.

(** * Operations *)

Lemma wf_flush d : gui_wf (gui d) → gui_wf (gui (display_gui_flush_dirty fb d)).
Proof.
  intros Hg. unfold display_gui_flush_dirty. case_match; [done|]. cbn. apply wf_set_dirty.
  assert (H' : ∀ l d, gui (foldl (λ d r, display_gui_redraw_rect fb r d) d l) = gui d).
  { induction l as [|r l IH]; intros d'; [done|]. cbn [foldl]. rewrite IH. unfold display_gui_redraw_rect. by case_match. }
  by rewrite H'.
Qed.

Lemma find_window_Some P g i : find_window P g = Some i → 0 ≤ i < MAX ∧ P (win g i) = true.
Proof.
  unfold find_window. intros H. apply search_range_Some in H as (j & Hj & H & _). destruct (P (win g j)) eqn:E; [|done]. by injection H as <-.
Qed.

Lemma find_window_None P g i : find_window P g = None → 0 ≤ i < MAX → P (win g i) = false.
Proof.
  unfold find_window. intros H Hi. pose proof (proj1 (search_range_None _ _ _) H i Hi) as Hn. cbn beta in Hn. by case_match.
Qed.

Lemma fresh_window i : 0 ≤ i → w_used ((replicate 4 window_zero).[i]) = false.
Proof.
  intros Hi. destruct (decide (i < 4)); [by rewrite aget_replicate by lia|].
  unfold aget. rewrite list_lookup_total_alt, lookup_ge_None_2; [done|]. rewrite length_replicate. lia.
Qed.

(** A window is taken away. *)
Lemma wf_destroy_index i d : gui_wf (gui d) → in_use (gui d) i → gui_wf (gui (display_gui_destroy_window_index i d)).
Proof.
  intros Hg Hi. pose proof (in_use_range _ _ Hi) as Hr. pose proof (gw_size _ Hg) as Hl. destruct Hi as [_ Hu].
  unfold display_gui_destroy_window_index. rewrite (proj2 (Z.ltb_ge i 0)), (proj2 (Z.leb_gt MAX i)) by lia. cbn [orb].
  rewrite Hu. cbn [negb]. set (dead := Window false _ _ _ _ _ _ _ _ _ _ _ _). unfold display_gui_remove_from_z_order.
  cbn [z_order set_win]. rewrite remove_first_spec by (apply gw_nodup, Hg).
  set (z := filter (λ j, j ≠ i) (z_order (gui d))). set (g1 := set_z z (set_win i dead (gui d))).
  set (g2 := if focused_index g1 =? i then _ else g1). cbn [gui].
  assert (Hu1 : ∀ j, in_use g1 j ↔ j ≠ i ∧ in_use (gui d) j).
  { intros j. change (in_use g1 j) with (in_use (set_win i dead (gui d)) j). rewrite in_use_set by done.
    case_decide as E; [subst; naive_solver|]. split; [intros; split; [congruence|done]|by intros []]. }
  assert (Hz : ∀ j, j ∈ z ↔ in_use g1 j).
  { intros j. rewrite Hu1. unfold z. rewrite list_elem_of_filter, (gw_order _ Hg). done. }
  assert (Hw : ∀ j, in_use g1 j → win g1 j = win (gui d) j).
  { intros j Hj. pose proof (in_use_range _ _ Hj). apply Hu1 in Hj as [Hne _].
    change (win g1 j) with (win (set_win i dead (gui d)) j). rewrite win_set by lia. by rewrite decide_False by congruence. }
  assert (Hf2 : none_or_used g1 (focused_index g2)).
  { unfold g2. destruct (Z.eqb_spec (focused_index g1) i) as [E|Hne].
    - cbn [focused_index set_focus]. destruct (Z.eqb_spec (alen (z_order g1)) 0); cbn [negb]; [by left|right].
      apply Hz. change (z_order g1) with z in *. pose proof (alen_nonneg z). unfold aget, alen in *.
      apply list_elem_of_lookup_total_2. lia.
    - destruct (gw_focus _ Hg) as [E|Hf]; [by left|right]. apply Hu1. done. }
  assert (Hg2 : windows g2 = windows g1 ∧ z_order g2 = z ∧ gui_active g2 = true ∧ drag_index g2 = drag_index (gui d) ∧
    next_window_id g2 = next_window_id (gui d) ∧ cursor_x g2 = cursor_x (gui d) ∧ cursor_y g2 = cursor_y (gui d) ∧
    drag_window_x g2 = drag_window_x (gui d) ∧ drag_window_y g2 = drag_window_y (gui d) ∧
    drag_grab_x g2 = drag_grab_x (gui d) ∧ drag_grab_y g2 = drag_grab_y (gui d)).
  { unfold g2. destruct Hg. case_match; by split_and!. }
  destruct Hg2 as (Ew & Ez & Ea & Ed & En & Ex & Ey & E1 & E2 & E3 & E4).
  assert (Hu2 : ∀ j, in_use g2 j ↔ in_use g1 j) by (intros; by apply in_use_same).
  assert (Hwf : drag_index g2 ≠ i → gui_wf g2).
  { intros Hne. destruct Hg. split; rewrite ?Ea, ?Ez, ?Ed, ?Ex, ?Ey, ?E1, ?E2, ?E3, ?E4, ?En; try done.
    - rewrite Ew. cbn. by rewrite alen_aset.
    - by apply NoDup_filter.
    - intros j. by rewrite Hu2.
    - destruct Hf2 as [H|H]; [by left|right; by apply Hu2].
    - destruct gw_drag0 as [H|H]; [by left|right]. apply Hu2, Hu1. rewrite <- Ed. split; [done|by rewrite Ed].
    - intros j Hj%Hu2. change (win g2 j) with ((windows g2).[j]). rewrite Ew. change ((windows g1).[j]) with (win g1 j).
      rewrite Hw by done. apply gw_windows0. by apply Hu1 in Hj as [].
    - intros j k Hj%Hu2 Hk%Hu2. unfold win. rewrite Ew. change ((windows g1).[j]) with (win g1 j). change ((windows g1).[k]) with (win g1 k).
      rewrite !Hw by done. apply Hu1 in Hj as [_ Hj]. apply Hu1 in Hk as [_ Hk]. by apply gw_ids0. }
  change (gui_wf (if drag_index g2 =? i then set_drag (-1) g2 else g2)).
  destruct (Z.eqb_spec (drag_index g2) i) as [E|Hne]; [|by apply Hwf].
  assert (Hwf' : gui_wf (set_drag (-1) g2)); [|done].
  destruct Hg. split; cbn; rewrite ?Ea, ?Ez, ?Ex, ?Ey, ?En; try done; try (by left).
  - rewrite Ew. cbn. by rewrite alen_aset.
  - by apply NoDup_filter.
  - intros j. rewrite Hz. symmetry. apply Hu2.
  - destruct Hf2 as [H|H]; [by left|right; by apply Hu2].
  - intros j Hj. assert (Hj1 : in_use g1 j) by (by apply Hu2). change (win (set_drag (-1) g2) j) with ((windows g2).[j]). rewrite Ew.
    change ((windows g1).[j]) with (win g1 j). rewrite Hw by done. apply gw_windows0. by apply Hu1 in Hj1 as [].
  - intros j k Hj Hk. assert (Hj1 : in_use g1 j) by (by apply Hu2). assert (Hk1 : in_use g1 k) by (by apply Hu2).
    change (win (set_drag (-1) g2) j) with ((windows g2).[j]). change (win (set_drag (-1) g2) k) with ((windows g2).[k]). rewrite Ew.
    change ((windows g1).[j]) with (win g1 j). change ((windows g1).[k]) with (win g1 k). rewrite !Hw by done.
    apply Hu1 in Hj1 as [_ Hj1]. apply Hu1 in Hk1 as [_ Hk1]. by apply gw_ids0.
Qed.
End wf.

Section operations.
Context (fb : display_framebuffer_state).
Implicit Types (g : display_gui_state) (w : display_gui_window) (d : desk).
Notation width := (fb_width (info fb)).
Notation height := (fb_height (info fb)).
#[local] Notation wf := (gui_wf fb).

(** The screens [display_late_init] accepts are smaller. *)
Hypothesis screen_small : 1 ≤ width ≤ 32768 ∧ 1 ≤ height ≤ 32768.

Lemma wf_enable d : 3 ≤ bytes_per_pixel fb → wf (gui (display_gui_enable fb true d)).
Proof using screen_small.
  intros Hb. unfold display_gui_enable. rewrite (proj2 (Z.ltb_ge _ 3)) by done. cbn [negb]. unfold display_gui_redraw. cbn.
  set (g := Gui _ _ _ _ _ _ _ _ _ _ _ _ _ _).
  assert (Hu : ∀ i, ¬ in_use g i).
  { intros i [Hi H]. unfold win, g in H. cbn [windows] in H. by rewrite fresh_window in H by lia. }
  pose proof (Z.div_mod width 2 ltac:(lia)). pose proof (Z.mod_pos_bound width 2 ltac:(lia)).
  pose proof (Z.div_mod height 2 ltac:(lia)). pose proof (Z.mod_pos_bound height 2 ltac:(lia)).
  split; try done; try (by left); try (cbn; lia).
  - intros i. split; [intros Hi%elem_of_nil; done|]. intros Hi. by destruct (Hu i).
  - intros i Hi. by destruct (Hu i).
  - intros i j Hi. by destruct (Hu i).
Qed.


(** ** A new window *)

Lemma small_widths w : 1 ≤ wwidth w ≤ 640 → 1 ≤ wheight w ≤ 360 →
  display_gui_window_total_width w = wwidth w + 2 ∧ display_gui_window_total_height w = wheight w + 26.
Proof using.
  clear screen_small.
  intros Hw Hh. unfold display_gui_window_total_width, display_gui_window_total_height, DISPLAY_GUI_FRAME_BORDER, DISPLAY_GUI_TITLE_H.
  rewrite (add32_small 1 (wwidth w)), (add32_small (1 + wwidth w) 1), (add32_small (1 + 24) (wheight w)),
    (add32_small (1 + 24 + wheight w) 1) by (unfold two32; lia). lia.
Qed.

(** Where a window may not be put lies beyond [lo] or wraps around. *)
Lemma pulled_back size total v hi :
  1 ≤ size ≤ 32768 → 0 ≤ total ≤ 1000 → 0 ≤ v ≤ hi → hi < 65536 →
  0 ≤ (if sub32 (sub32 size total) 20 <? v then sub32 (sub32 size total) 20 else v) ≤ hi.
Proof using.
  clear screen_small.
  intros Hs Ht Hv Hh. destruct (Z.ltb_spec (sub32 (sub32 size total) 20) v); [|lia].
  unfold sub32 in *. pose proof (u32_range (u32 (size - total) - 20)). lia.
Qed.

Lemma place_wf n w : 0 ≤ n ≤ 4 → 1 ≤ wwidth w ≤ 640 → 1 ≤ wheight w ≤ 360 →
  let w' := place_window fb n w in 0 ≤ wx w' ≤ 172 ∧ 0 ≤ wy w' ≤ 158.
Proof using screen_small.
  intros Hn Hw Hh. unfold place_window. destruct (small_widths w Hw Hh) as [-> ->]. unfold DISPLAY_GUI_DESKTOP_TOP, DISPLAY_GUI_DESKTOP_PAD.
  cbn [with_pos wx wy]. unfold mul32. rewrite (u32_small (n * 34)), (u32_small (n * 28)) by (unfold two32; lia).
  rewrite (add32_small 36), (add32_small (28 + 18)) by (unfold two32; lia).
  split; apply pulled_back; lia.
Qed.

Lemma int_small x : -2147483648 ≤ x < 2147483648 → to_int32 (u32 x) = x.
Proof using.
  clear screen_small. intros Hx. unfold to_int32, u32, two32. destruct (decide (0 ≤ x)).
  - rewrite Z.mod_small by lia. by rewrite (proj2 (Z.ltb_lt _ _)) by lia.
  - replace (x mod 4294967296) with (x + 4294967296) by (apply (Z.mod_unique_pos _ _ (-1)); lia).
    rewrite (proj2 (Z.ltb_ge _ _)) by lia. lia.
Qed.

Lemma next_id_small n : 0 < n < 2147483647 → int_add n 1 = n + 1.
Proof using. intros Hn. apply int_small. lia. Qed.

(** Adding a window to the windows and to the order. *)
Lemma wf_add i w g :
  wf g → 0 ≤ i < MAX → w_used (win g i) = false → w_used w = true → window_wf w → window_id w = next_window_id g →
  (∀ j, in_use g j → owner_pid (win g j) ≠ owner_pid w) →
  next_window_id g < 2147483647 →
  wf (set_z (z_order g ++ [i]) (set_win i w (set_next_id (int_add (next_window_id g) 1) g))).
Proof using.
  clear screen_small.
  intros Hg Hi Hf Hu Hw Hid Ho Hnx. rewrite next_id_small by (pose proof (gw_next _ _ Hg); lia). pose proof (gw_size _ _ Hg) as Hl.
  set (g1 := set_next_id (next_window_id g + 1) g). set (g2 := set_z _ _).
  assert (Hni : ¬ in_use g i) by (intros [_ H]; congruence).
  assert (Hu2 : ∀ j, in_use g2 j ↔ if decide (i = j) then True else in_use g j).
  { intros j. change (in_use g2 j) with (in_use (set_win i w g1) j). rewrite in_use_set by done. by case_decide. }
  assert (Hw2 : ∀ j, 0 ≤ j → win g2 j = if decide (i = j) then w else win g j).
  { intros j Hj. change (win g2 j) with (win (set_win i w g1) j). by rewrite win_set. }
  assert (Hm : ∀ j, none_or_used g j → none_or_used g2 j).
  { intros j [->|Hj]; [by left|right]. apply Hu2. by case_decide. }
  assert (Hi' : ∀ j, in_use g2 j → 0 ≤ j) by (intros j Hj%in_use_range; lia).
  destruct Hg. split; try done.
  - cbn. by rewrite alen_aset.
  - cbn. apply NoDup_app. split_and!; [done| |by apply NoDup_singleton].
    intros j Hj Hji. apply list_elem_of_singleton in Hji as ->. by apply gw_order0 in Hj.
  - intros j. rewrite Hu2. cbn [g2 set_z z_order]. rewrite elem_of_app, list_elem_of_singleton, gw_order0. case_decide; naive_solver.
  - by apply Hm.
  - by apply Hm.
  - intros j Hj. rewrite Hw2 by eauto. change (next_window_id g2) with (next_window_id g + 1). apply Hu2 in Hj. case_decide; [split; [done|lia]|].
    destruct (gw_windows0 j Hj). split; [done|lia].
  - intros j k Hj Hk. rewrite !Hw2 by eauto. apply Hu2 in Hj, Hk.
    destruct (decide (i = j)) as [<-|Hij], (decide (i = k)) as [<-|Hik]; [done| | |by apply gw_ids0].
    + pose proof (gw_windows0 k Hk) as [_ ?]. specialize (Ho k Hk). intros [?|?]; [lia|congruence].
    + pose proof (gw_windows0 j Hj) as [_ ?]. specialize (Ho j Hj). intros [?|?]; [lia|congruence].
  - cbn. lia.
Qed.

(** Raising a window that is not in the order yet. *)
Lemma raise_new i g : NoDup (z_order g) → (∀ j, j ∈ z_order g → 0 ≤ j < MAX) → 0 ≤ i < MAX → i ∉ z_order g →
  display_gui_raise_window i g = set_z (z_order g ++ [i]) g.
Proof using.
  clear screen_small.
  intros Hn Hr Hi Hni. unfold display_gui_raise_window. rewrite (proj2 (Z.ltb_ge i 0)), (proj2 (Z.leb_gt MAX i)) by lia. cbn [orb].
  unfold display_gui_remove_from_z_order. cbn [set_z z_order]. rewrite remove_first_spec by done.
  rewrite filter_others by done.
  assert (Hlt : alen (z_order g ++ [i]) ≤ MAX).
  { apply used_length.
    - apply NoDup_app. split_and!; [done| |by apply NoDup_singleton]. intros j Hj Hji. by apply list_elem_of_singleton in Hji as ->.
    - intros j. rewrite elem_of_app, list_elem_of_singleton. intros [Hj| ->]; [by apply Hr|done]. }
  rewrite alen_app in Hlt. change (alen [i]) with 1 in Hlt. by rewrite (proj2 (Z.ltb_lt _ _)) by lia.
Qed.

Lemma wf_mark_focused g : wf g → wf (mark_focused fb g).
Proof using. intros Hg. unfold mark_focused. case_match; [by apply wf_mark|done]. Qed.
Lemma wf_mark_cursor g : wf g → wf (mark_cursor fb g).
Proof using. apply wf_mark. Qed.

Lemma in_use_mark r g i : in_use (display_gui_mark_dirty fb r g) i ↔ in_use g i.
Proof using. apply in_use_same, mark_dirty_same. Qed.

Lemma focus_in_use i j g : wf g → in_use (display_gui_focus_window i g) j ↔ in_use g j.
Proof using.
  intros Hg. unfold display_gui_focus_window.
  assert (Hr : ∀ k g', in_use (display_gui_raise_window k g') j ↔ in_use g' j) by (intros; by apply in_use_same, raise_windows).
  assert (Hl : ∀ k g', alen (windows (display_gui_raise_window k g')) = alen (windows g')) by (intros; by rewrite raise_windows).
  destruct (i =? focused_index g); [by apply Hr|].
  assert (H1 : ∀ f, alen (windows (if 0 <=? f then emit_note f SYSCALL_GUI_EVENT_BLUR g else g)) = MAX ∧
    (in_use (if 0 <=? f then emit_note f SYSCALL_GUI_EVENT_BLUR g else g) j ↔ in_use g j)).
  { intros f. case_match; [|by split; [apply (gw_size _ _ Hg)|]]. split; [|apply emit_in_use, (gw_size _ _ Hg)].
    unfold emit_note. rewrite (qo_size g); [apply (gw_size _ _ Hg)|]. apply emit_queues, (gw_size _ _ Hg). }
  specialize (H1 (focused_index g)). set (g1 := if 0 <=? _ then _ else g) in *. destruct H1 as [H1 H2].
  destruct (0 <=? i); [|done]. unfold emit_note. rewrite emit_in_use by (rewrite Hl; apply H1). by rewrite Hr.
Qed.

Lemma wf_press_focus i old g : wf g → in_use g i → wf (press_focus fb i old g).
Proof using.
  intros Hg Hi. unfold press_focus. apply wf_mark. assert (H : wf (display_gui_focus_window i g)).
  { apply wf_focus_window; [done|by right]. }
  case_match; [by apply wf_mark|done].
Qed.

Lemma press_in_use i old g j : wf g → in_use (press_focus fb i old g) j ↔ in_use g j.
Proof using.
  intros Hg. unfold press_focus. rewrite in_use_mark. case_match; [rewrite in_use_mark|]; by apply focus_in_use.
Qed.

Lemma wf_emit_at i t b g : wf g → wf (emit_at i t b g).
Proof using. intros Hg. unfold emit_at. repeat case_match; [by apply emit_wf|done]. Qed.

Lemma window_at_Some x y g i : display_gui_window_at x y g = Some i → i ∈ z_order g ∧ in_use g i ∧ in_frame (win g i) x y = true.
Proof using.
  intros H. unfold display_gui_window_at in H.
  assert (Hs : ∀ l, search (λ i, if (i <? 0) || (MAX <=? i) then None else if negb (w_used (win g i)) then None
      else if in_frame (win g i) x y then Some i else None) l = Some i → i ∈ l ∧ in_use g i ∧ in_frame (win g i) x y = true).
  { induction l as [|j l IH]; [done|]. cbn [search]. destruct (_ || _) eqn:E1; [intros [? ?]%IH; split; [by right|done]|].
    destruct (w_used (win g j)) eqn:E2; cbn [negb]; [|intros [? ?]%IH; split; [by right|done]].
    destruct (in_frame (win g j) x y) eqn:E3; [|intros [? ?]%IH; split; [by right|done]].
    intros Hj. injection Hj as ->. apply orb_false_iff in E1 as [E4%Z.ltb_ge E5%Z.leb_gt]. by split; [left|]. }
  apply Hs in H as (H1 & H2). split; [|done]. by apply list_elem_of_In, in_rev, list_elem_of_In.
Qed.

Lemma title_hit_left w x y : wx w < 65536 → wy w < 65536 → 0 ≤ wx w → 0 ≤ wy w →
  display_gui_title_hit w x y = true → wx w < x ∧ wy w < y.
Proof using.
  intros H1 H2 H3 H4. unfold display_gui_title_hit, DISPLAY_GUI_FRAME_BORDER. destruct (_ || _) eqn:E; [done|]. intros _.
  rewrite !orb_false_iff, !Z.ltb_ge in E. destruct E as [[[E1 _] E2] _]. rewrite add32_small in E1, E2 by (unfold two32; lia). lia.
Qed.

Lemma wf_press_left target old g :
  wf g → (∀ i, target = Some i → in_use g i) → wf (press_left fb target old g).
Proof using.
  intros Hg Ht. unfold press_left. destruct target as [i|]; [|done]. specialize (Ht i eq_refl).
  pose proof (wf_press_focus i old g Hg Ht) as Hp. pose proof (proj2 (press_in_use i old g i Hg) Ht) as Hi.
  set (g1 := press_focus fb i old g) in *. cbv zeta.
  destruct (display_gui_close_hit _ _ _); [by apply emit_wf|].
  destruct (display_gui_title_hit _ _ _) eqn:Eh; [|by apply wf_emit_at].
  destruct (gw_windows _ _ Hp i Hi) as [Hw _]. pose proof (ww_x _ Hw). pose proof (ww_y _ Hw).
  apply title_hit_left in Eh; [|lia..]. pose proof (gw_cursor_x _ _ Hp). pose proof (gw_cursor_y _ _ Hp).
  destruct Hp. split; try done; cbn; [right; exact Hi|intros; lia|intros; lia].
Qed.

Lemma wf_press_right target old g :
  wf g → (∀ i, target = Some i → in_use g i) → wf (press_right fb target old g).
Proof using.
  intros Hg Ht. unfold press_right. destruct target as [i|]; [|done]. apply wf_emit_at, wf_press_focus; [done|by apply Ht].
Qed.

Lemma press_left_in_use target old g j : wf g → (∀ i, target = Some i → in_use g i) → in_use (press_left fb target old g) j ↔ in_use g j.
Proof using.
  intros Hg Ht. unfold press_left. destruct target as [i|]; [|done]. pose proof (press_in_use i old g j Hg) as H.
  pose proof (wf_press_focus i old g Hg (Ht i eq_refl)) as Hp. rewrite <- H. cbv zeta.
  repeat case_match; try done; unfold emit_at; repeat case_match; try done; apply emit_in_use, Hp.
Qed.

Lemma wf_release_left g : wf g → wf (release_left g).
Proof using. intros Hg. unfold release_left. repeat case_match; [by apply wf_no_drag|by apply wf_emit_at|done]. Qed.

Lemma wf_release_right g : wf g → wf (release_right g).
Proof using. intros Hg. unfold release_right. case_match; [by apply wf_emit_at|done]. Qed.

Lemma wf_buttons btns d : wf (gui d) → wf (gui (display_gui_handle_mouse_buttons fb btns d)).
Proof using.
  intros Hg. unfold display_gui_handle_mouse_buttons. case_match; [by apply wf_set_buttons|]. cbv zeta. apply wf_flush. cbn [gui].
  set (g0 := set_buttons btns (gui d)). assert (H0 : wf g0) by (by apply wf_set_buttons).
  set (t := display_gui_window_at _ _ _). assert (Ht : ∀ i, t = Some i → in_use g0 i) by (intros i Hi; by apply window_at_Some in Hi as (_ & ? & _)).
  set (g1 := if _ : bool then press_left _ _ _ _ else g0).
  assert (H1 : wf g1 ∧ ∀ i, t = Some i → in_use g1 i).
  { unfold g1. case_match; [|done]. split; [by apply wf_press_left|]. intros i Hi. apply press_left_in_use; [done..|by apply Ht]. }
  destruct H1 as [H1 Ht1]. set (g2 := if _ : bool then press_right _ _ _ _ else g1).
  assert (H2 : wf g2) by (unfold g2; case_match; [by apply wf_press_right|done]).
  set (g3 := if _ : bool then release_left _ else g2).
  assert (H3 : wf g3) by (unfold g3; case_match; [by apply wf_release_left|done]).
  case_match; [by apply wf_release_right|done].
Qed.

Lemma move_cursor_range pos delta bound : 0 ≤ pos → 1 ≤ bound → 0 ≤ move_cursor pos delta bound < bound.
Proof using.
  clear screen_small. intros Hp Hb. unfold move_cursor. destruct (int_add (to_int32 pos) delta <? 0) eqn:E1; destruct (_ <=? _) eqn:E2; lia.
Qed.

Lemma to_int32_small x : 0 ≤ x < 2147483648 → to_int32 x = x.
Proof using. clear screen_small. intros Hx. unfold to_int32. by rewrite (proj2 (Z.ltb_lt _ _)) by lia. Qed.

Lemma drag_wf g w :
  wf g → 0 ≤ drag_index g → window_wf w → window_wf (drag_window fb g w).
Proof using screen_small.
  intros Hg Hd Hw. pose proof (gw_start_x _ _ Hg Hd). pose proof (gw_start_y _ _ Hg Hd).
  pose proof (gw_cursor_x _ _ Hg). pose proof (gw_cursor_y _ _ Hg).
  pose proof (small_widths w (ww_width w Hw) (ww_height w Hw)) as [E1 E2].
  pose proof (ww_width w Hw). pose proof (ww_height w Hw). unfold DISPLAY_GUI_MAX_WIDTH, DISPLAY_GUI_MAX_HEIGHT in *.
  unfold drag_window. rewrite E1, E2, !to_int32_small by lia. cbv zeta. unfold int_add, int_sub.
  rewrite !int_small by (rewrite ?int_small; lia). unfold DISPLAY_GUI_DESKTOP_PAD, DISPLAY_GUI_DESKTOP_TOP.
  set (mx := if _ <? 20 then 20 else _). assert (Hmx : 0 ≤ mx ≤ 32788) by (unfold mx; case_match; lia).
  set (my := if _ <? 28 then 28 else _). assert (Hmy : 0 ≤ my ≤ 32796) by (unfold my; case_match; lia).
  pose proof (pulled_back width (wwidth w + 2) mx 32788 ltac:(lia) ltac:(lia) Hmx ltac:(lia)).
  pose proof (pulled_back height (wheight w + 26) my 32796 ltac:(lia) ltac:(lia) Hmy ltac:(lia)).
  destruct Hw. split; cbn [with_pos window_id owner_pid wx wy wwidth wheight surface pixels title events event_head event_count]; done || lia.
Qed.

Lemma wf_motion dx dy d : wf (gui d) → wf (gui (display_gui_handle_mouse_motion fb dx dy d)).
Proof using screen_small.
  intros Hg. unfold display_gui_handle_mouse_motion. rewrite (gw_active _ _ Hg). cbn [negb].
  set (nx := move_cursor _ dx _). set (ny := move_cursor _ dy _). case_match; [done|]. cbv zeta. apply wf_flush. cbn [gui].
  apply wf_mark, wf_mark. assert (H0 : wf (set_cursor nx ny (gui d))).
  { apply wf_set_cursor; [done|apply move_cursor_range; [apply (gw_cursor_x _ _ Hg)|lia]|
      apply move_cursor_range; [apply (gw_cursor_y _ _ Hg)|lia]]. }
  set (g0 := set_cursor nx ny (gui d)) in *. destruct (dragging g0) eqn:Ed.
  - apply wf_mark, wf_mark. assert (Hi : 0 ≤ drag_index g0 ∧ in_use g0 (drag_index g0)).
    { unfold dragging in Ed. apply andb_true_iff in Ed as [Ed%Z.leb_le _].
      destruct (gw_drag _ _ H0) as [E|E]; [rewrite E in Ed; lia|done]. }
    destruct Hi as [Hd Hi]. apply wf_keep; try done; [|by apply Hi]. apply drag_wf; [done..|]. apply (gw_windows _ _ H0 _ Hi).
  - case_match; [by apply wf_emit_at|done].
Qed.

Lemma wf_key k ch m p d : wf (gui d) → wf (gui (snd (display_gui_handle_key_event k ch m p d))).
Proof using.
  intros Hg. unfold display_gui_handle_key_event. destruct (gui_active (gui d)); [|done].
  cbn [negb snd]. case_match; [by apply emit_wf|done].
Qed.

Lemma wf_show i d : wf (display_gui_raise_window i (gui d)) → in_use (gui d) i → wf (gui (show_new_window fb i d)).
Proof using.
  intros Hg Hi. unfold show_new_window. cbv zeta. apply wf_flush. cbn [gui]. apply wf_mark_cursor, wf_mark, emit_wf.
  set (g1 := display_gui_raise_window i (gui d)) in *.
  assert (H1 : wf (display_gui_focus_window i g1)).
  { apply wf_focus_window; [done|]. right. by apply (in_use_same (gui d)); [apply raise_windows|]. }
  case_match; [by apply wf_mark|done].
Qed.

(** What the copies from user memory give. *)
Definition copies (ucopy : Z → Z → option (res (list Z))) : Prop :=
  ∀ a n r, ucopy a n = Some r → match r with Ok bs => alen bs = n | Err e => e = KERR_FAULT end.

Lemma set_title_len n bytes : 0 ≤ n ≤ 31 → alen bytes = n → alen (set_title n bytes) = 32.
Proof using.
  clear screen_small. intros Hn Hb. unfold set_title. cbv zeta.
  assert (H1 : alen (overlay (replicate 32 0) 0 bytes).[n <- NUL] = 32).
  { rewrite alen_aset, alen_overlay; [by rewrite alen_replicate|lia|rewrite alen_replicate; lia]. }
  case_match; [|done]. rewrite alen_overlay; [done|lia|]. rewrite H1. done.
Qed.

(** A window that is not there stays so. *)
Lemma wf_unused i n g :
  wf g → 0 ≤ i < MAX → w_used (win g i) = false → next_window_id g ≤ n → wf (set_win i window_zero (set_next_id n g)).
Proof using.
  clear screen_small. intros Hg Hr Hf Hn. pose proof (gw_size _ _ Hg) as Hl. set (g1 := set_next_id n g).
  assert (Hu : ∀ j, in_use (set_win i window_zero g1) j ↔ in_use g j).
  { intros j. rewrite in_use_set by done. case_decide as E; [subst|done]. split; [done|]. intros [_ H]. congruence. }
  assert (Hw : ∀ j, in_use g j → win (set_win i window_zero g1) j = win g j).
  { intros j Hj. pose proof (in_use_range _ _ Hj). rewrite (win_set i window_zero g1) by (done || lia).
    rewrite decide_False; [done|]. intros ->. destruct Hj. congruence. }
  destruct Hg. split; try done.
  - cbn. by rewrite alen_aset.
  - intros j. by rewrite Hu.
  - unfold none_or_used. by rewrite Hu.
  - unfold none_or_used. by rewrite Hu.
  - intros j Hj%Hu. rewrite Hw by done. destruct (gw_windows0 j Hj). split; [done|]. cbn. lia.
  - intros j k Hj%Hu Hk%Hu. rewrite !Hw by done. by apply gw_ids0.
  - cbn. lia.
Qed.

(** What asking for a window does. *)
Lemma create_cases ucopy req owner d rc d' :
  copies ucopy → 0 ≤ cr_width req → 0 ≤ cr_height req → 0 ≤ cr_title_len req → wf (gui d) → next_window_id (gui d) < 2147483647 →
  display_gui_create_window fb ucopy req owner d = Some (rc, d') →
  (∃ e, rc = Err e) ∧ (d' = d ∨ ∃ i n, 0 ≤ i < MAX ∧ w_used (win (gui d) i) = false ∧ next_window_id (gui d) ≤ n ≤ next_window_id (gui d) + 1 ∧
    gui d' = set_win i window_zero (set_next_id n (gui d)) ∧ scr d' = scr d) ∨
  ∃ i w h, let g := gui d in
    rc = Ok (next_window_id g) ∧ 0 ≤ i < MAX ∧ w_used (win g i) = false ∧
    window_wf w ∧ w_used w = true ∧ window_id w = next_window_id g ∧ owner_pid w = owner ∧
    (∀ j, in_use g j → owner_pid (win g j) ≠ owner) ∧
    d' = show_new_window fb i (Desk (set_win i w (set_next_id (int_add (next_window_id g) 1) g)) (scr d) h).
Proof using screen_small.
  intros Hc Hw Hh Ht Hg Hnx. unfold display_gui_create_window. cbv zeta. rewrite (gw_active _ _ Hg). cbn [negb].
  assert (Hsame : ∀ e, Some (Err e, d) = Some (rc, d') → (∃ e, rc = Err e) ∧ d' = d) by (intros e E; injection E as <- <-; eauto).
  destruct ((owner <=? 0) || _ || _) eqn:E1; [intros []%Hsame; by left; split; [|left]|].
  rewrite !orb_false_iff, Z.leb_gt, !Z.eqb_neq in E1. destruct E1 as [[E1 E2] E3].
  destruct (_ || _) eqn:E; [intros []%Hsame; by left; split; [|left]|]. apply orb_false_iff in E as [E4%Z.ltb_ge E5%Z.ltb_ge].
  destruct (cr_flags req =? 0); [|intros []%Hsame; by left; split; [|left]]. cbn [negb].
  case_bool_decide as Eo; [intros []%Hsame; by left; split; [|left]|]. apply eq_None_not_Some in Eo.
  destruct (display_gui_find_free_index (gui d)) as [i|] eqn:Ei; [|intros []%Hsame; by left; split; [|left]].
  clear Hsame. apply find_window_Some in Ei as [Hi Hf]. apply negb_true_iff in Hf. destruct (kmalloc _ _) as [p h].
  destruct (Z.eqb_spec p 0) as [Ep|Ep].
  { intros E. injection E as <- <-. left. split; [eauto|right]. exists i, (next_window_id (gui d)). split_and!; try done || lia. }
  set (n := if _ <? cr_title_len req then _ else _). assert (Hn : 0 ≤ n ≤ 31) by (unfold n, DISPLAY_GUI_TITLE_MAX; case_match; lia).
  set (g1 := set_next_id (int_add (next_window_id (gui d)) 1) (gui d)).
  destruct (if n =? 0 then Some (Ok []) else ucopy (cr_title_ptr req) n) as [[bytes|e]|] eqn:Er; cbn [mbind option_bind]; [| |done].
  2: { intros E. injection E as <- <-. left. split; [eauto|right]. exists i, (next_window_id (gui d) + 1). unfold g1.
    rewrite next_id_small by (pose proof (gw_next _ _ Hg); lia). split_and!; try done || lia. }
  intros E. injection E as <- <-. right. assert (Hb : alen bytes = n).
  { destruct (Z.eqb_spec n 0) as [E0|E0]; [by injection Er as <-|]. by apply Hc in Er. }
  unfold mul32 at 1. rewrite u32_small by (unfold two32, DISPLAY_GUI_MAX_WIDTH, DISPLAY_GUI_MAX_HEIGHT in *; nia).
  set (w := Window _ _ _ _ _ _ _ _ _ _ _ _ _). set (w' := place_window fb _ w).
  assert (Hzl : alen (z_order (gui d)) ≤ MAX).
  { apply used_length; [apply (gw_nodup _ _ Hg)|]. intros j Hj%(gw_order _ _ Hg). by apply in_use_range in Hj. }
  pose proof (alen_nonneg (z_order (gui d))). unfold DISPLAY_GUI_MAX_WINDOWS, DISPLAY_GUI_MAX_WIDTH, DISPLAY_GUI_MAX_HEIGHT in *.
  pose proof (place_wf (alen (z_order (gui d))) w ltac:(lia) ltac:(cbn; lia) ltac:(cbn; lia)) as Hp. cbv zeta in Hp.
  exists i, w', h. cbv zeta. split_and!; try done; try lia.
  - split; cbn [w' w place_window with_pos window_id owner_pid wx wy wwidth wheight surface pixels title events event_head event_count]; try done; try lia.
    + apply (gw_next _ _ Hg).
    + change (0 ≤ wx w' < 65536). unfold w'. lia.
    + change (0 ≤ wy w' < 65536). unfold w'. lia.
    + unfold DISPLAY_GUI_MAX_WIDTH. lia.
    + unfold DISPLAY_GUI_MAX_HEIGHT. lia.
    + rewrite alen_replicate. rewrite Z2Nat.id; [done|nia].
    + by apply set_title_len.
  - intros j Hj Hoj. unfold display_gui_find_index_by_owner in Eo. pose proof (find_window_None _ (gui d) j Eo ltac:(by apply in_use_range in Hj)) as Hn'. cbn beta in Hn'.
    destruct Hj as [_ Hu]. rewrite Hu, Hoj, Z.eqb_refl in Hn'. done.
Qed.

Lemma raise_added i w g :
  wf g → 0 ≤ i < MAX → w_used (win g i) = false →
  display_gui_raise_window i (set_win i w (set_next_id (int_add (next_window_id g) 1) g)) =
  set_z (z_order g ++ [i]) (set_win i w (set_next_id (int_add (next_window_id g) 1) g)).
Proof using.
  clear screen_small. intros Hg Hi Hf. rewrite raise_new; [done|apply (gw_nodup _ _ Hg)| |done|].
  - intros j Hj. apply (gw_order _ _ Hg) in Hj. by apply in_use_range in Hj.
  - intros Hj. apply (gw_order _ _ Hg) in Hj as [_ Hu]. congruence.
Qed.

Lemma wf_create ucopy req owner d rc d' :
  copies ucopy → 0 ≤ cr_width req → 0 ≤ cr_height req → 0 ≤ cr_title_len req → wf (gui d) → next_window_id (gui d) < 2147483647 →
  display_gui_create_window fb ucopy req owner d = Some (rc, d') → wf (gui d').
Proof using screen_small.
  intros Hc Hw Hh Ht Hg Hnx E. destruct (create_cases _ _ _ _ _ _ Hc Hw Hh Ht Hg Hnx E) as
    [[_ [->|(i & n & Hi & Hf & Hn & -> & _)]]|(i & w & h & _ & Hi & Hf & Hww & Hu & Hid & Ho & Hno & ->)]; [done|by apply wf_unused; [..|apply Hn]|].
  apply wf_show; cbn [gui].
  - rewrite raise_added by done. apply wf_add; try done. by rewrite Ho.
  - apply in_use_set; [apply (gw_size _ _ Hg)|done|]. by rewrite decide_True.
Qed.

(** ** The next name

    Only the creation of a window takes one. *)

Lemma next_emit i t x y b bs k c m g : next_window_id (display_gui_emit_simple_event i t x y b bs k c m g) = next_window_id g.
Proof using. clear screen_small. unfold display_gui_emit_simple_event. by repeat case_match. Qed.

Lemma next_mark_rect x y rw' rh' g : next_window_id (display_gui_mark_dirty_rect fb x y rw' rh' g) = next_window_id g.
Proof using. clear screen_small. by destruct (mark_rect_is fb x y rw' rh' g) as [l ->]. Qed.

Lemma next_raise i g : next_window_id (display_gui_raise_window i g) = next_window_id g.
Proof using. clear screen_small. unfold display_gui_raise_window. by repeat case_match. Qed.

Lemma next_flush d : next_window_id (gui (display_gui_flush_dirty fb d)) = next_window_id (gui d).
Proof using.
  clear screen_small. unfold display_gui_flush_dirty. destruct (_ =? 0); [done|]. cbn [gui on_gui set_dirty next_window_id].
  generalize (dirty (gui d)). intros l. revert d. induction l as [|r l IH]; intros d; cbn [foldl]; [done|].
  rewrite IH. unfold display_gui_redraw_rect. by case_match.
Qed.

Lemma next_destroy_index i d : next_window_id (gui (display_gui_destroy_window_index i d)) = next_window_id (gui d).
Proof using. clear screen_small. unfold display_gui_destroy_window_index. by repeat case_match. Qed.

#[local] Hint Rewrite next_emit next_mark_rect next_raise next_flush next_destroy_index : gui_next.

Ltac next_id :=
  try clear screen_small;
  unfold press_focus, emit_note, emit_at, mark_focused, mark_cursor, display_gui_mark_dirty; cbv zeta;
  repeat first [progress autorewrite with gui_next | progress cbn [gui on_gui fst snd set_win set_focus set_drag set_drag_start
    set_cursor set_buttons set_z set_dirty next_window_id] | case_match]; try done.

Lemma next_focus i g : next_window_id (display_gui_focus_window i g) = next_window_id g.
Proof using. unfold display_gui_focus_window. next_id. Qed.
#[local] Hint Rewrite next_focus : gui_next.

Lemma next_press_focus i o g : next_window_id (press_focus fb i o g) = next_window_id g.
Proof using. next_id. Qed.

Lemma next_poll id owner d : next_window_id (gui (snd (display_gui_poll_event id owner d))) = next_window_id (gui d).
Proof using. unfold display_gui_poll_event. next_id. Qed.

Lemma next_destroy id owner d : next_window_id (gui (snd (display_gui_destroy_window fb id owner d))) = next_window_id (gui d).
Proof using. unfold display_gui_destroy_window. next_id. Qed.

Lemma next_notify owner d : next_window_id (gui (display_gui_notify_task_exit fb owner d)) = next_window_id (gui d).
Proof using.
  clear screen_small. unfold display_gui_notify_task_exit. case_match; [done|]. cbv zeta. rewrite next_flush. set (d1 := for_range _ _ _ d).
  assert (next_window_id (gui d1) = next_window_id (gui d)) as <-.
  { unfold d1. apply (for_range_ind (λ _ d', next_window_id (gui d') = next_window_id (gui d))); [done|done|]. intros j d' _ <-.
    cbv zeta. case_match; [|done]. cbn [gui on_gui]. unfold display_gui_mark_dirty. by rewrite next_mark_rect, next_destroy_index. }
  unfold mark_focused, display_gui_mark_dirty. cbn [gui on_gui]. case_match; [apply next_mark_rect|done].
Qed.

Lemma next_key k ch m p d : next_window_id (gui (snd (display_gui_handle_key_event k ch m p d))) = next_window_id (gui d).
Proof using. unfold display_gui_handle_key_event. next_id. Qed.

Lemma next_motion dx dy d : next_window_id (gui (display_gui_handle_mouse_motion fb dx dy d)) = next_window_id (gui d).
Proof using. unfold display_gui_handle_mouse_motion. next_id. Qed.

#[local] Hint Rewrite next_press_focus : gui_next.

Lemma next_press_left t o g : next_window_id (press_left fb t o g) = next_window_id g.
Proof using. clear screen_small. unfold press_left, emit_at. destruct t; [|done]. cbv zeta. repeat case_match; next_id. Qed.

Lemma next_press_right t o g : next_window_id (press_right fb t o g) = next_window_id g.
Proof using. clear screen_small. unfold press_right, emit_at. destruct t; [|done]. case_match; next_id. Qed.

Lemma next_release_left g : next_window_id (release_left g) = next_window_id g.
Proof using. unfold release_left. next_id. Qed.

Lemma next_release_right g : next_window_id (release_right g) = next_window_id g.
Proof using. unfold release_right. next_id. Qed.

Lemma next_if (b : bool) (f : display_gui_state → display_gui_state) g :
  next_window_id (f g) = next_window_id g → next_window_id (if b then f g else g) = next_window_id g.
Proof using. by destruct b. Qed.

Lemma next_buttons btns d : next_window_id (gui (display_gui_handle_mouse_buttons fb btns d)) = next_window_id (gui d).
Proof using.
  clear screen_small. unfold display_gui_handle_mouse_buttons. destruct (_ || _); [done|]. cbv zeta. rewrite next_flush. cbn [gui].
  rewrite (next_if _ release_right) by apply next_release_right. rewrite (next_if _ release_left) by apply next_release_left.
  rewrite (next_if _ (press_right fb _ _)) by apply next_press_right. by rewrite (next_if _ (press_left fb _ _)) by apply next_press_left.
Qed.

Lemma next_flush_window ucopy req owner d r d' :
  display_gui_flush_window fb ucopy req owner d = Some (r, d') → next_window_id (gui d') = next_window_id (gui d).
Proof using.
  clear screen_small. unfold display_gui_flush_window. destruct (flush_target req owner (gui d)) as [[i|]|e]; [|by intros [= <- <-]..].
  destruct (flush_rows _ _ _ _ _) as [[rc w']|]; cbn [mbind option_bind]; [|done].
  destruct rc; intros [= <- <-]; [|done]. rewrite next_flush. cbn [gui]. by rewrite next_mark_rect.
Qed.

Lemma create_next ucopy req owner d rc d' :
  copies ucopy → 0 ≤ cr_width req → 0 ≤ cr_height req → 0 ≤ cr_title_len req → wf (gui d) → next_window_id (gui d) < 2147483647 →
  display_gui_create_window fb ucopy req owner d = Some (rc, d') → next_window_id (gui d') ≤ next_window_id (gui d) + 1.
Proof using screen_small.
  intros Hc Hw Hh Ht Hg Hnx E. pose proof (gw_next _ _ Hg). destruct (create_cases _ _ _ _ _ _ Hc Hw Hh Ht Hg Hnx E) as
    [[_ [->|(i & n & Hi & Hf & Hn & -> & _)]]|(i & w & h & _ & Hi & Hf & Hww & Hu & Hid & Ho & Hno & ->)]; [lia|cbn; lia|].
  assert (H1 : ∀ d1, next_window_id (gui (show_new_window fb i d1)) = next_window_id (gui d1)).
  { intros d1. unfold show_new_window. next_id. }
  rewrite H1. cbn [gui set_win set_next_id next_window_id]. by rewrite next_id_small by lia.
Qed.

Lemma next_enable d : 3 ≤ bytes_per_pixel fb → next_window_id (gui (display_gui_enable fb true d)) = 1.
Proof using.
  clear screen_small. intros Hb. unfold display_gui_enable. rewrite (proj2 (Z.ltb_ge _ _)) by done. cbn [negb].
  unfold display_gui_redraw. by case_match.
Qed.

Lemma create_defined ucopy req owner d :
  (∀ a k, is_Some (ucopy a k)) → is_Some (display_gui_create_window fb ucopy req owner d).
Proof using.
  clear screen_small. intros Ht. unfold display_gui_create_window. cbv zeta. repeat (case_match; [by eexists|]).
  case_match; [|by eexists]. destruct (kmalloc _ _) as [p h]. case_match; [by eexists|].
  set (n := if _ <? cr_title_len req then _ else _). case_match; cbn [mbind option_bind]; [by eexists|].
  destruct (Ht (cr_title_ptr req) n) as [[bs|e] ->]; cbn [mbind option_bind]; by eexists.
Qed.

(** ** Filling a window *)

Lemma words_len n bs : alen bs = n → alen (words_of bs) = n / 4.
Proof using.
  clear screen_small. intros <-. unfold words_of, de32s, alen. rewrite length_fmap, length_seqZ.
  pose proof (Z.div_pos (Z.of_nat (length bs)) 4). lia.
Qed.

Lemma flush_target_Some req owner g i :
  0 ≤ fr_w req → 0 ≤ fr_h req →
  flush_target req owner g = Ok (Some i) →
  gui_active g = true ∧ in_use g i ∧ owner_pid (win g i) = owner ∧ window_id (win g i) = fr_window_id req ∧
  0 ≤ fr_x req ≤ wwidth (win g i) ∧ 0 ≤ fr_y req ≤ wheight (win g i) ∧ 0 < fr_w req ∧ 0 < fr_h req ∧
  fr_pixels_ptr req ≠ 0 ∧ wwidth (win g i) ≤ fr_stride req ∧
  add32 (fr_x req) (fr_w req) ≤ wwidth (win g i) ∧ add32 (fr_y req) (fr_h req) ≤ wheight (win g i).
Proof using.
  clear screen_small. intros Hw Hh. unfold flush_target. destruct (gui_active g); [|done]. cbn [negb].
  destruct (display_gui_find_index_by_id (fr_window_id req) g) as [j|] eqn:Ej; [|done]. apply find_window_Some in Ej as [Hj Ej].
  apply andb_true_iff in Ej as [Hu Hid%Z.eqb_eq]. destruct (Z.eqb_spec (owner_pid (win g j)) owner) as [Ho|]; [|done]. cbn [negb].
  destruct (_ || _) eqn:E1; [done|]. rewrite orb_false_iff, !Z.eqb_neq in E1.
  destruct (_ || _) eqn:E2; [done|]. rewrite orb_false_iff, !Z.ltb_ge in E2.
  destruct (_ || _) eqn:E3; [done|]. rewrite orb_false_iff, !Z.ltb_ge in E3.
  destruct (_ || _) eqn:E4; [done|]. rewrite orb_false_iff, !Z.eqb_neq in E4.
  destruct (Z.ltb_spec (fr_stride req) (wwidth (win g j))); [done|].
  destruct (_ || _) eqn:E5; [done|]. rewrite orb_false_iff, !Z.ltb_ge in E5. intros E. injection E as ->.
  split_and!; try done; try tauto; lia.
Qed.

Lemma flush_rows_keep ucopy req n row w rc w' :
  copies ucopy → 0 ≤ fr_x req → 0 ≤ fr_w req →
  flush_rows ucopy req n row w = Some (rc, w') → ∃ px, alen px = alen (pixels w) ∧ w' = with_pixels px w.
Proof using.
  clear screen_small. intros Hc Hx Hfw. revert row w. induction n as [|n IH]; intros row w; cbn [flush_rows].
  { intros E. injection E as <- <-. exists (pixels w). split; [done|]. by destruct w. }
  cbv zeta. destruct (4294967295 <? _).
  { intros E. injection E as <- <-. exists (pixels w). split; [done|]. by destruct w. }
  destruct (ucopy _ _) as [[bs|e]|] eqn:Eu; cbn [mbind option_bind]; [| |done].
  2: { intros E. injection E as <- <-. exists (pixels w). split; [done|]. by destruct w. }
  set (at_ := mul32 _ 4 / 4). destruct (Z.ltb_spec (alen (pixels w)) (at_ + alen (words_of bs))); [done|].
  intros E. apply IH in E as (px & Hp & ->). exists px. split; [|done]. rewrite Hp. cbn [pixels with_pixels].
  rewrite alen_overlay; [done| |done]. unfold at_, mul32. apply Z.div_pos; [|done]. apply u32_range.
Qed.

Lemma pixels_wf px w : window_wf w → alen px = alen (pixels w) → window_wf (with_pixels px w).
Proof using. clear screen_small. intros [] Hp. split; cbn; congruence || done. Qed.

Lemma wf_flush_window ucopy req owner d :
  copies ucopy → 0 ≤ fr_w req → 0 ≤ fr_h req → wf (gui d) →
  match display_gui_flush_window fb ucopy req owner d with Some (_, d') => wf (gui d') | None => True end.
Proof using.
  clear screen_small. intros Hc Hw Hh Hg. unfold display_gui_flush_window.
  destruct (flush_target req owner (gui d)) as [[i|]|e] eqn:Et; [|done..].
  apply flush_target_Some in Et as (_ & Hi & _ & _ & Hx & _); [|done..].
  destruct (flush_rows ucopy req _ 0 (win (gui d) i)) as [[rc w']|] eqn:Er; cbn [mbind option_bind]; [|done].
  apply flush_rows_keep in Er as (px & Hp & ->); [|done|lia|done].
  assert (Hk : wf (set_win i (with_pixels px (win (gui d) i)) (gui d))).
  { apply wf_keep; try done; [|apply Hi]. apply pixels_wf; [|done]. apply (gw_windows _ _ Hg _ Hi). }
  destruct rc as [[]|e]; cbn; [|done]. apply wf_flush. cbn [gui].
  match goal with |- wf (display_gui_mark_dirty_rect fb ?a ?b ?c ?e ?g) => destruct (mark_rect_is fb a b c e g) as [l ->] end.
  by apply wf_set_dirty.
Qed.

(** Where a row that is in the surface starts. *)
Lemma row_start req row W :
  0 ≤ fr_x req → 0 ≤ fr_y req + row → 1 ≤ W ≤ 640 → fr_y req + row ≤ 360 → fr_x req ≤ 640 →
  mul32 (add32 (mul32 (add32 (fr_y req) row) W) (fr_x req)) 4 / 4 = (fr_y req + row) * W + fr_x req.
Proof using.
  clear screen_small. intros Hx Hr HW Hy Hxw. rewrite (add32_small (fr_y req) row) by (unfold two32; lia).
  unfold mul32. assert (0 ≤ (fr_y req + row) * W ≤ 360 * 640) by nia.
  rewrite (u32_small ((fr_y req + row) * W)), (add32_small _ (fr_x req)), u32_small by (unfold two32; lia). by apply Z.div_mul.
Qed.

Lemma flush_rows_defined ucopy req n row w :
  copies ucopy → (∀ a k, is_Some (ucopy a k)) → 0 ≤ fr_x req → 0 ≤ fr_y req → 0 < fr_w req → 1 ≤ wwidth w ≤ 640 → 1 ≤ wheight w ≤ 360 →
  alen (pixels w) = wwidth w * wheight w → fr_x req + fr_w req ≤ wwidth w →
  0 ≤ row → fr_y req + row + Z.of_nat n ≤ wheight w → is_Some (flush_rows ucopy req n row w).
Proof using.
  clear screen_small. intros Hc Ht Hx Hy Hw. revert row w. induction n as [|n IH]; intros row w Hww Hwh Hpx Hxw Hr Hyr; cbn [flush_rows]; [by eexists|].
  cbv zeta. case_match; [by eexists|]. match goal with |- context [ucopy ?a ?k] => destruct (Ht a k) as [[bs|e] E]; rewrite E end;
    cbn [mbind option_bind]; [|by eexists].
  apply Hc in E. rewrite row_start by lia. assert (Hl : alen (words_of bs) = fr_w req).
  { erewrite words_len by exact E. unfold mul32. rewrite u32_small by (unfold two32; lia). by apply Z.div_mul. }
  rewrite Hl. assert (0 ≤ (fr_y req + row) * wwidth w) by nia.
  assert ((fr_y req + row) * wwidth w + fr_x req + fr_w req ≤ alen (pixels w)) as Hle by nia.
  rewrite (proj2 (Z.ltb_ge _ _) Hle). apply IH; cbn [with_pixels wwidth wheight pixels]; try done; [|lia|lia].
  rewrite alen_overlay; [done|lia|lia].
Qed.

Lemma flush_defined ucopy req owner d :
  copies ucopy → (∀ a k, is_Some (ucopy a k)) → wf (gui d) → is_u32 (fr_w req) → is_u32 (fr_h req) →
  fr_x req + fr_w req < two32 → fr_y req + fr_h req < two32 → is_Some (display_gui_flush_window fb ucopy req owner d).
Proof using.
  clear screen_small. intros Hc Ht Hg [Hw _] [Hh _] Hx Hy. unfold display_gui_flush_window.
  destruct (flush_target req owner (gui d)) as [[i|]|e] eqn:Et; [|by eexists..].
  apply flush_target_Some in Et as (_ & Hi & _ & _ & Hx0 & Hy0 & Hw0 & Hh0 & _ & _ & Hax & Hay); [|lia..].
  destruct (gw_windows _ _ Hg _ Hi) as [Hww _]. pose proof (ww_width _ Hww) as Hwd. pose proof (ww_height _ Hww) as Hht.
  rewrite add32_small in Hax, Hay by lia. unfold DISPLAY_GUI_MAX_WIDTH, DISPLAY_GUI_MAX_HEIGHT in *.
  destruct (flush_rows_defined ucopy req (Z.to_nat (fr_h req)) 0 (win (gui d) i)) as [[rc w'] ->]; try done; try lia; [apply (ww_pixels _ Hww)|].
  cbn [mbind option_bind]. destruct rc; by eexists.
Qed.

Lemma wf_poll id owner d : wf (gui d) → wf (gui (snd (display_gui_poll_event id owner d))).
Proof using.
  clear screen_small. intros Hg. unfold display_gui_poll_event. cbv zeta. destruct (gui_active (gui d)); [|done]. cbn [negb].
  destruct (display_gui_find_index_by_id id (gui d)) as [i|] eqn:Ei; [|done]. apply find_window_Some in Ei as [Hi Hu].
  apply andb_true_iff in Hu as [Hu _]. destruct (_ =? owner); [|done]. cbn [negb].
  destruct (Z.eqb_spec (event_count (win (gui d) i)) 0) as [|Hn]; [done|]. cbn.
  assert (Hin : in_use (gui d) i) by done. destruct (gw_windows _ _ Hg i Hin) as [Hw _].
  apply wf_keep; try done. apply drop_wf; [done|]. pose proof (ww_count _ Hw). lia.
Qed.

Lemma wf_destroy id owner d : wf (gui d) → wf (gui (snd (display_gui_destroy_window fb id owner d))).
Proof using.
  clear screen_small. intros Hg. unfold display_gui_destroy_window. cbv zeta. destruct (gui_active (gui d)); [|done]. cbn [negb].
  destruct (display_gui_find_index_by_id id (gui d)) as [i|] eqn:Ei; [|done]. apply find_window_Some in Ei as [Hi Hu].
  apply andb_true_iff in Hu as [Hu _]. destruct (_ =? owner); [|done]. cbn [negb snd]. apply wf_flush. cbn [gui on_gui].
  apply wf_mark. assert (H : wf (display_gui_mark_dirty fb (display_gui_window_bounds (win (gui d) i)) (gui (display_gui_destroy_window_index i d)))).
  { apply wf_mark. by apply wf_destroy_index. }
  unfold mark_focused. case_match; [by apply wf_mark|done].
Qed.

Lemma wf_notify owner d : wf (gui d) → wf (gui (display_gui_notify_task_exit fb owner d)).
Proof using.
  clear screen_small. intros Hg. unfold display_gui_notify_task_exit. case_match; [done|]. cbv zeta. apply wf_flush. cbn [gui on_gui].
  set (d1 := for_range 0 MAX _ d). assert (H1 : wf (gui d1)).
  { unfold d1. apply (for_range_ind (λ _ d, wf (gui d))); [done|done|]. intros i d' Hi Hd'.
    destruct (w_used (win (gui d') i)) eqn:Hu; cbn [andb]; [|done]. destruct (_ =? owner); [|done]. cbn [gui on_gui].
    apply wf_mark. by apply wf_destroy_index. }
  unfold mark_focused. case_match; [by apply wf_mark|done].
Qed.
End operations.

(** * Runs

    The operations of the window system; requests are what a system call can
    hold.  [gui_step false] has no step in which the copy of a window's pixels
    faults. *)
Section runs.
Context (fb : display_framebuffer_state).
Implicit Types (d : desk).

Record create_ok (req : syscall_gui_create_req) : Prop := {
  co_width : is_u32 (cr_width req);
  co_height : is_u32 (cr_height req);
  co_title_len : is_u32 (cr_title_len req)
}.

Record flush_ok (req : syscall_gui_flush_req) : Prop := {
  fo_w : is_u32 (fr_w req);
  fo_h : is_u32 (fr_h req)
}.

(** A window wide enough for its close box and its title. *)
Definition fits (w : display_gui_window) : Prop := 24 ≤ wwidth w ∧ 14 * alen (cstr (title w)) + 2 ≤ wwidth w.
Definition all_fit (g : display_gui_state) : Prop := ∀ i, in_use g i → fits (win g i).

(** A step, and how many windows it asks for. *)
Inductive gui_step (faults : bool) : Z → desk → desk → Prop :=
  | step_create ucopy req owner d r d' :
      copies ucopy → create_ok req → display_gui_create_window fb ucopy req owner d = Some (r, d') → gui_step faults 1 d d'
  | step_flush ucopy req owner d r d' :
      copies ucopy → flush_ok req → faults = true ∨ r ≠ Err KERR_FAULT →
      display_gui_flush_window fb ucopy req owner d = Some (r, d') → gui_step faults 0 d d'
  | step_poll id owner d : gui_step faults 0 d (snd (display_gui_poll_event id owner d))
  | step_destroy id owner d : gui_step faults 0 d (snd (display_gui_destroy_window fb id owner d))
  | step_exit owner d : gui_step faults 0 d (display_gui_notify_task_exit fb owner d)
  | step_key k ch m p d : gui_step faults 0 d (snd (display_gui_handle_key_event k ch m p d))
  | step_motion dx dy d : gui_step faults 0 d (display_gui_handle_mouse_motion fb dx dy d)
  | step_buttons btns d : gui_step faults 0 d (display_gui_handle_mouse_buttons fb btns d).

(** Steps one after the other, with the sum of what they ask for. *)
Inductive counted (R : Z → desk → desk → Prop) : Z → desk → desk → Prop :=
  | counted_refl d : counted R 0 d d
  | counted_step c n d d1 d2 : R c d d1 → counted R n d1 d2 → counted R (c + n) d d2.

Lemma gui_step_kept c d d' :
  1 ≤ fb_width (info fb) ≤ 32768 ∧ 1 ≤ fb_height (info fb) ≤ 32768 → gui_step true c d d' →
  gui_wf fb (gui d) → next_window_id (gui d) + c ≤ 2147483647 →
  0 ≤ c ∧ gui_wf fb (gui d') ∧ next_window_id (gui d') ≤ next_window_id (gui d) + c.
Proof.
  intros Hsz Hs Hg Hn. split; [by destruct Hs|].
  destruct Hs as [uc req owner d r d' Hc [? ? ?] E|uc req owner d r d' Hc [? ?] _ E|id owner d|id owner d|owner d|k ch m p d|dx dy d|btns d];
    rewrite ?next_poll, ?next_destroy, ?next_notify, ?next_key, ?next_motion, ?next_buttons, ?Z.add_0_r; (split; [|try done]).
  - apply (wf_create fb Hsz uc req owner d r d'); done || lia.
  - apply (create_next fb Hsz uc req owner d r d'); done || lia.
  - pose proof (wf_flush_window fb uc req owner d Hc ltac:(lia) ltac:(lia) Hg) as H. by rewrite E in H.
  - apply next_flush_window in E. lia.
  - by apply wf_poll.
  - by apply wf_destroy.
  - by apply wf_notify.
  - by apply wf_key.
  - by apply wf_motion.
  - by apply wf_buttons.
Qed.

Lemma counted_nonneg faults n d d' : counted (gui_step faults) n d d' → 0 ≤ n.
Proof. induction 1 as [|c n d d1 d2 Hs _ IH]; [done|]. assert (0 ≤ c) by (by destruct Hs). lia. Qed.

Lemma run_kept n d d' :
  1 ≤ fb_width (info fb) ≤ 32768 ∧ 1 ≤ fb_height (info fb) ≤ 32768 → counted (gui_step true) n d d' →
  gui_wf fb (gui d) → next_window_id (gui d) + n ≤ 2147483647 → gui_wf fb (gui d').
Proof.
  intros Hsz Hr. induction Hr as [|c n d d1 d2 Hs Hr IH]; [done|]. intros Hg Hn. pose proof (counted_nonneg _ _ _ _ Hr).
  destruct (gui_step_kept c d d1 Hsz Hs Hg ltac:(lia)) as (Hc & Hg1 & Hn1). apply IH; [done|lia].
Qed.

(** C14: the state of the window system stays well formed: from the moment it is
    enabled on a screen of the sizes the kernel accepts, whatever windows are
    created, filled and destroyed, whatever tasks exit and whatever the mouse
    and the keys do, the order of the windows lists the windows in use, each
    once; the focus and the dragged window are windows in use or none; windows
    have names and owners of their own, and sizes, places, surfaces and event
    queues within their bounds; and the cursor is on the screen.  That is for
    runs that ask for fewer than 2^31 - 1 windows, after which the names repeat, and
    in which every copy of pixels stays in its window's surface: in every such
    state creating a window is defined, and so is filling one, unless the
    rectangle asked for ends past the 32 bits of a coordinate. *)
Theorem gui_run_wf d0 n d :
  1 ≤ fb_width (info fb) ≤ 32768 → 1 ≤ fb_height (info fb) ≤ 32768 → 3 ≤ bytes_per_pixel fb →
  counted (gui_step true) n (display_gui_enable fb true d0) d → n < 2147483647 →
  gui_wf fb (gui d) ∧
  ∀ ucopy owner, copies ucopy → (∀ a k, is_Some (ucopy a k)) →
    (∀ req, is_Some (display_gui_create_window fb ucopy req owner d)) ∧
    (∀ req, flush_ok req → fr_x req + fr_w req < two32 → fr_y req + fr_h req < two32 →
      is_Some (display_gui_flush_window fb ucopy req owner d)).
Proof.
  intros Hw Hh Hb Hr Hn. assert (Hg : gui_wf fb (gui d)).
  { apply (run_kept n (display_gui_enable fb true d0) d (conj Hw Hh)); [done|by apply wf_enable|].
    rewrite next_enable by done. lia. }
  split; [done|]. intros ucopy owner Hc Ht. split; intros req; [by apply create_defined|].
  intros [? ?] Hx Hy. by apply flush_defined.
Qed.
End runs.

(** ** An example: a screen of 100 by 90 pixels, a window and the mouse *)

Definition demo_screen : display_framebuffer_state :=
  Fb 3758096384 36000 4 (FbInfo 4244635648 400 100 90 32 1 16 8 8 8 0 8) 0 0 0 0 0 0 0 0 0 0 0 0 0 0 0 0 0 0 0.
Definition demo_copy (_ n : Z) : option (res (list Z)) := if n <? 0 then Some (Err KERR_FAULT) else Some (Ok (replicate (Z.to_nat n) 65)).
Definition demo_req : syscall_gui_create_req := CreateReq 60 20 4096 1 0.
Definition demo_enabled : desk :=
  display_gui_enable demo_screen true (Desk gui_zero (λ _ _, 0) (kmalloc_init 1048576 1048576)).
Definition demo_created : option (res Z * desk) := display_gui_create_window demo_screen demo_copy demo_req 7 demo_enabled.
Definition demo_window : desk := default demo_enabled (snd <$> demo_created).
Definition demo_moved : desk := display_gui_handle_mouse_motion demo_screen (-20) (-5) demo_window.

Lemma demo_created_ok : match demo_created with Some (Ok id, _) => id = 1 | _ => False end.
Proof. vm_compute. reflexivity. Qed.

Lemma demo_gui : w_used (win (gui demo_moved) 0) = true ∧ cursor_x (gui demo_moved) = 30.
Proof. split; vm_compute; reflexivity. Qed.

Lemma demo_copies : copies demo_copy.
Proof.
  intros a n r. unfold demo_copy. destruct (Z.ltb_spec n 0); intros E; injection E as <-; [done|].
  rewrite alen_replicate, Z2Nat.id by done. done.
Qed.

Lemma demo_copy_total a n : is_Some (demo_copy a n).
Proof. unfold demo_copy. destruct (n <? 0); by eexists. Qed.

Definition demo_fill : syscall_gui_flush_req := FlushReq 1 4096 60 0 0 2 2.

Lemma demo_req_ok : create_ok demo_req.
Proof. by split. Qed.

#[export] Hint Resolve demo_copies demo_req_ok : core.

#[local] Opaque display_gui_create_window display_gui_handle_mouse_motion display_gui_enable.

Lemma demo_create_step faults : gui_step demo_screen faults 1 demo_enabled demo_window.
Proof.
  pose proof demo_created_ok as H. unfold demo_window. destruct demo_created as [[r d']|] eqn:E; [|done].
  exact (step_create demo_screen faults demo_copy demo_req 7 demo_enabled r d' demo_copies demo_req_ok E).
Qed.

Lemma demo_moved_step faults : gui_step demo_screen faults 0 demo_window demo_moved.
Proof. exact (step_motion demo_screen faults (-20) (-5) demo_window). Qed.

#[local] Opaque demo_moved demo_window demo_enabled.

Lemma gui_run_wf_witness :
  gui_wf demo_screen (gui demo_moved) ∧ w_used (win (gui demo_moved) 0) = true ∧ cursor_x (gui demo_moved) = 30 ∧
  is_Some (display_gui_flush_window demo_screen demo_copy demo_fill 7 demo_moved).
Proof.
  destruct (gui_run_wf demo_screen (Desk gui_zero (λ _ _, 0) (kmalloc_init 1048576 1048576)) 1 demo_moved) as [Hg Hd];
    [by vm_compute|by vm_compute|by vm_compute| |done|].
  - apply (counted_step _ 1 0 _ demo_window); [exact (demo_create_step true)|].
    apply (counted_step _ 0 0 _ demo_moved); [exact (demo_moved_step true)|constructor].
  - split; [exact Hg|]. split; [exact (proj1 demo_gui)|]. split; [exact (proj2 demo_gui)|].
    apply (Hd demo_copy 7 demo_copies demo_copy_total); [by split|by vm_compute|by vm_compute].
Defined.
