(* ===== verification/GuiScreen.v ===== *)
(** The screen shows the windows: after every operation each pixel is the one
    that redrawing everything would give it.

    The window system redraws only the rectangles it has marked.  [ev D g g']
    says that between [g] and [g'] the scene changed at pixels that are marked
    in [g'] or belong to the debt [D]; marking a rectangle pays the debt within
    it, and every operation ends without debt. *)

From S2P Require Import Prelude Bytes Kmalloc Keyboard Framebuffer Gui GuiDraw GuiSpec.

(** ** Lists *)

Lemma aget_overlay_out dst off src k :
  0 ≤ off → off + alen src ≤ alen dst → 0 ≤ k → ¬ off ≤ k < off + alen src → (overlay dst off src).[k] = dst.[k].
Proof.
  intros Ho Hl Hk Hn. unfold aget, overlay, alen in *. rewrite !list_lookup_total_alt. f_equal.
  destruct (decide (k < off)).
  - rewrite lookup_app_l by (rewrite length_take; lia). by rewrite lookup_take_lt by lia.
  - rewrite lookup_app_r by (rewrite length_take; lia). rewrite lookup_app_r by (rewrite length_take; lia).
    rewrite lookup_drop. f_equal. rewrite length_take. lia.
Qed.

Lemma filter_ext_in (P Q : Z → Prop) `{!∀ i, Decision (P i), !∀ i, Decision (Q i)} (l : list Z) :
  (∀ i, i ∈ l → P i ↔ Q i) → filter P l = filter Q l.
Proof.
  induction l as [|i l IH]; intros HPQ; [done|]. rewrite !filter_cons.
  assert (E : filter P l = filter Q l) by (apply IH; intros j Hj; apply HPQ; by right).
  destruct (HPQ i ltac:(by left)) as [? ?]. rewrite E. repeat case_decide; tauto.
Qed.

Lemma filter_skip (P : Z → Prop) `{!∀ i, Decision (P i)} i (l : list Z) : ¬ P i → filter P (filter (λ j, j ≠ i) l) = filter P l.
Proof.
  intros Hi. rewrite list_filter_filter. apply filter_ext_in. intros j _. split; [by intros []|]. intros Hj. split; [done|]. by intros ->.
Qed.

Section scene.
Context (fb : display_framebuffer_state).
Implicit Types (g : display_gui_state) (w : display_gui_window) (d : desk) (s : screen).
Notation width := (fb_width (info fb)).
Notation height := (fb_height (info fb)).
Notation seen := (on_screen fb).
Notation fill := (display_framebuffer_fill_rect_packed fb).

Hypothesis screen_small : 1 ≤ width ≤ 32768 ∧ 1 ≤ height ≤ 32768.

Lemma sizes_u32 : is_u32 width ∧ is_u32 height.
Proof using screen_small. unfold two32. lia. Qed.
#[local] Hint Resolve sizes_u32 : core.

(** * The scene *)

Definition everywhere (_ _ : Z) : Prop := True.

Lemma draws_any R dr : draws fb R dr → draws fb everywhere dr.
Proof using. by apply draws_weaken. Qed.

(** What is drawn over the background of the desktop. *)
Definition over_background clip s : screen :=
  let s := fill 0 0 width DISPLAY_GUI_DESKTOP_TOP (display_framebuffer_pack_rgb fb 10 16 28) clip s in
  let s := fill 0 (DISPLAY_GUI_DESKTOP_TOP - 2) width 2 (display_framebuffer_pack_rgb fb 82 168 236) clip s in
  let s := display_framebuffer_draw_text_emphasized_packed fb 12 5 header_title (display_framebuffer_pack_rgb fb 224 233 246)
             (display_framebuffer_pack_rgb fb 10 16 28) (display_framebuffer_pack_rgb fb 2 6 10) clip s in
  if add32 (mul32 (alen header_hint) DISPLAY_FB_CHAR_W) 12 <? width then
    let hint_x := sub32 (sub32 width (mul32 (alen header_hint) DISPLAY_FB_CHAR_W)) 12 in
    if add32 (add32 12 (mul32 (alen header_title) DISPLAY_FB_CHAR_W)) DISPLAY_FB_CHAR_W <? hint_x then
      display_framebuffer_draw_text_packed fb hint_x 5 header_hint (display_framebuffer_pack_rgb fb 224 233 246)
        (display_framebuffer_pack_rgb fb 10 16 28) clip s
    else s
  else s.

Lemma desktop_split clip s :
  draw_desktop fb clip s = over_background clip (fill 0 0 width height (display_framebuffer_pack_rgb fb 5 8 16) clip s).
Proof using. done. Qed.

Lemma draws_over : draws fb everywhere over_background.
Proof using screen_small.
  unfold over_background. unfold DISPLAY_GUI_DESKTOP_TOP.
  set (d1 := fill 0 0 width 28 _). set (d2 := fill 0 (28 - 2) width 2 _).
  set (d3 := display_framebuffer_draw_text_emphasized_packed fb 12 5 header_title _ _ _).
  change (mul32 (alen header_title) DISPLAY_FB_CHAR_W) with 252. change (mul32 (alen header_hint) DISPLAY_FB_CHAR_W) with 364.
  set (hx := sub32 (sub32 width 364) 12).
  set (d4 := display_framebuffer_draw_text_packed fb hx 5 header_hint _ _).
  change (draws fb everywhere (λ c s, if add32 364 12 <? width then if add32 (add32 12 252) DISPLAY_FB_CHAR_W <? hx then d4 c (d3 c (d2 c (d1 c s)))
    else d3 c (d2 c (d1 c s)) else d3 c (d2 c (d1 c s)))).
  assert (H3 : draws fb everywhere (λ c s, d3 c (d2 c (d1 c s)))).
  { apply (draws_seq fb _ (λ c s, d2 c (d1 c s)) d3).
    - apply (draws_seq fb _ d1 d2); apply (draws_any (in_rect (Rect 0 0 65536 65536))), draws_fill_in; done || (unfold two32; cbn; lia).
    - apply (draws_any (in_rect (Rect 0 0 65536 65536))), draws_text_emph; done || (unfold two32, alen; simpl; lia). }
  destruct (Z.ltb_spec (add32 364 12) width) as [Hw|]; [|done]. change (add32 364 12) with 376 in Hw.
  destruct (_ <? hx); [|done]. apply (draws_seq fb _ (λ c s, d3 c (d2 c (d1 c s))) d4); [done|].
  assert (Eh : hx = width - 376) by (unfold hx; rewrite (sub32_small width 364), (sub32_small (width - 364) 12) by (unfold two32; lia); lia).
  apply (draws_any (in_rect (Rect 0 0 65536 65536))), draws_text; rewrite ?Eh; done || (unfold two32, alen; simpl; lia).
Qed.

(** A window that is drawn within its bounds. *)
Definition drawn_ok g (i : Z) : Prop := in_use g i ∧ window_ok (win g i).

Lemma draws_layer g i : drawn_ok g i →
  draws fb (in_rect (display_gui_window_bounds (win g i)))
    (λ c s, if (i <? 0) || (MAX <=? i) then s else display_gui_draw_window fb (win g i) (i =? focused_index g) c s).
Proof using screen_small.
  intros [Hi Hw]. pose proof (in_use_range g i Hi) as Hr. rewrite (proj2 (Z.ltb_ge i 0)), (proj2 (Z.leb_gt MAX i)) by lia.
  cbn [orb]. eapply draws_weaken; [|by apply draws_window]. intros x y H. apply H.
Qed.

Lemma draws_windows g l : (∀ i, i ∈ l → drawn_ok g i) → draws fb everywhere (λ c s, draw_windows fb g l c s).
Proof using screen_small.
  intros Hl. unfold draw_windows. apply (draws_foldl fb everywhere (λ i c s, if (i <? 0) || (MAX <=? i) then s
    else display_gui_draw_window fb (win g i) (i =? focused_index g) c s)).
  intros i Hi. eapply draws_any, draws_layer, Hl, Hi.
Qed.

(** The scene does not depend on what the screen showed, and drawing it under a
    clip rectangle gives the same pixels inside the rectangle. *)
Lemma scene_any g c c' s s' x y :
  gui_active g = true → (∀ i, i ∈ z_order g → drawn_ok g i) → 0 ≤ cursor_x g < 65536 → 0 ≤ cursor_y g < 65536 →
  clip_ok c → clip_ok c' → shown fb c x y → shown fb c' x y →
  display_gui_draw_scene fb g c s x y = display_gui_draw_scene fb g c' s' x y.
Proof using screen_small.
  intros Ha Hz Hx Hy Hc Hc' Hs Hs'. unfold display_gui_draw_scene. rewrite Ha. cbn [negb].
  assert (H : draws fb everywhere (λ c s, display_gui_draw_cursor fb g c (draw_windows fb g (z_order g) c (over_background c s)))).
  { apply (draws_seq fb _ (λ c s, draw_windows fb g (z_order g) c (over_background c s)) (display_gui_draw_cursor fb g)).
    - apply (draws_seq fb _ over_background (λ c s, draw_windows fb g (z_order g) c s)); [apply draws_over|by apply draws_windows].
    - by eapply draws_any, draws_cursor. }
  rewrite !desktop_split.
  apply (draws_same fb _ (λ c s, display_gui_draw_cursor fb g c (draw_windows fb g (z_order g) c (over_background c s))) c c' _ _ x y H Hc Hc' Hs Hs').
  assert (Hin : in_rect (Rect 0 0 width height) x y) by (destruct Hs as [[? ?] _]; unfold in_rect; cbn; lia).
  rewrite !(fb_fill_spec fb sizes_u32) by (done || (unfold two32; lia)). by rewrite !decide_True.
Qed.

Lemma scene_hidden g c s x y :
  gui_active g = true → (∀ i, i ∈ z_order g → drawn_ok g i) → 0 ≤ cursor_x g < 65536 → 0 ≤ cursor_y g < 65536 →
  clip_ok c → ¬ shown fb c x y → display_gui_draw_scene fb g c s x y = s x y.
Proof using screen_small.
  intros Ha Hz Hx Hy Hc Hs. unfold display_gui_draw_scene. rewrite Ha. cbn [negb].
  rewrite (draws_hidden fb _ _ c _ x y (draws_cursor fb sizes_u32 g Hx Hy) Hc Hs).
  rewrite (draws_hidden fb _ (λ c s, draw_windows fb g (z_order g) c s) c _ x y (draws_windows g _ Hz) Hc Hs), desktop_split.
  rewrite (draws_hidden fb _ _ c _ x y draws_over Hc Hs). rewrite (fb_fill_spec fb sizes_u32) by (done || (unfold two32; lia)).
  apply decide_False. tauto.
Qed.

(** * What a pixel of the scene depends on *)

Definition scene g : screen := display_gui_draw_scene fb g None (λ _ _, 0).

(** Two windows that draw the same at a point. *)
Definition look_at (x y : Z) w w' : Prop :=
  w_used w' = w_used w ∧ wx w' = wx w ∧ wy w' = wy w ∧ wwidth w' = wwidth w ∧ wheight w' = wheight w ∧
  title w' = title w ∧ surface w' = surface w ∧
  (in_rect (client_rect w) x y → surface_pixel fb w' x y = surface_pixel fb w x y).

Lemma same_look_at w w' x y : same_look w w' → look_at x y w w'.
Proof using.
  intros (H1 & H2 & H3 & H4 & H5 & H6 & H7 & H8). split_and!; try done.
  intros _. unfold surface_pixel, client_left, client_top. by rewrite H2, H3, H4, H8.
Qed.

Lemma look_bounds x y w w' : look_at x y w w' → display_gui_window_bounds w' = display_gui_window_bounds w.
Proof using.
  intros (H1 & H2 & H3 & H4 & H5 & _). unfold display_gui_window_bounds, display_gui_window_total_width, display_gui_window_total_height.
  by rewrite H1, H2, H3, H4, H5.
Qed.

Lemma draw_window_at w w' f s s' x y :
  look_at x y w w' → window_ok w → window_ok w' → seen x y → s x y = s' x y →
  display_gui_draw_window fb w f None s x y = display_gui_draw_window fb w' f None s' x y.
Proof using screen_small.
  intros Hl Hw Hw' Hs E. pose proof Hl as (H1 & H2 & H3 & H4 & H5 & H6 & H7 & H8).
  assert (Hsh : shown fb None x y) by done.
  unfold display_gui_draw_window. rewrite H1. destruct (w_used w) eqn:Hu; cbn [negb]; [|done]. unfold paint_window.
  rewrite !(blit_spec fb sizes_u32) by done.
  assert (Ec : client_rect w' = client_rect w) by (unfold client_rect, client_left, client_top; by rewrite H2, H3, H4, H5).
  assert (Ef : paint_frame fb w' f = paint_frame fb w f).
  { unfold paint_frame, display_gui_window_total_width, display_gui_window_total_height, close_x, close_y.
    by rewrite H2, H3, H4, H5, H6. }
  rewrite Ec, Ef, H7. case_decide as Hin; [by rewrite H8 by apply Hin|].
  eapply (draws_same fb _ (paint_frame fb w f)); [by apply draws_frame|done..].
Qed.

Definition covers g (x y i : Z) : Prop := in_rect (display_gui_window_bounds (win g i)) x y.

#[export] Instance covers_dec g x y i : Decision (covers g x y i).
Proof using. unfold covers. apply _. Defined.

(** The windows at a point, from the bottom up. *)
Definition layers g (x y : Z) : list Z := filter (covers g x y) (z_order g).

Lemma windows_layers g l s x y :
  (∀ i, i ∈ l → drawn_ok g i) → seen x y →
  draw_windows fb g l None s x y = draw_windows fb g (filter (covers g x y) l) None s x y.
Proof using screen_small.
  revert s. induction l as [|i l IH]; intros s Hl Hs; [done|].
  assert (Hd : ∀ k, k ∈ l → drawn_ok g k) by (intros k Hk; apply Hl; by right).
  pose proof (draws_layer g i ltac:(apply Hl; by left)) as Hi. rewrite filter_cons. case_decide as Hc.
  - cbn [draw_windows foldl]. by apply IH.
  - rewrite <- IH by done. cbn [draw_windows foldl].
    eapply (draws_same fb everywhere (λ c s, draw_windows fb g l c s) None None); [by apply draws_windows|done..|].
    by apply (draws_out fb _ _ None s x y Hi).
Qed.

(** [g] and [g'] are drawn the same at a point. *)
Record agree g g' (x y : Z) : Prop := {
  ag_layers : layers g' x y = layers g x y;
  ag_look : ∀ i, i ∈ layers g x y → look_at x y (win g i) (win g' i) ∧ (i =? focused_index g') = (i =? focused_index g);
  ag_cursor : cursor_x g' = cursor_x g ∧ cursor_y g' = cursor_y g ∨
    ¬ in_rect (display_gui_cursor_bounds_at (cursor_x g) (cursor_y g)) x y ∧
    ¬ in_rect (display_gui_cursor_bounds_at (cursor_x g') (cursor_y g')) x y
}.

Lemma windows_agree g g' l s s' x y :
  (∀ i, i ∈ l → drawn_ok g i ∧ drawn_ok g' i ∧ look_at x y (win g i) (win g' i) ∧ (i =? focused_index g') = (i =? focused_index g)) →
  seen x y → s x y = s' x y → draw_windows fb g l None s x y = draw_windows fb g' l None s' x y.
Proof using screen_small.
  revert s s'. induction l as [|i l IH]; intros s s' Hl Hs E; [done|]. cbn [draw_windows foldl]. apply IH; [|done|].
  - intros j Hj. apply Hl. by right.
  - destruct (Hl i ltac:(by left)) as ([Hi Hw] & [_ Hw'] & H1 & H2). pose proof (in_use_range g i Hi).
    rewrite (proj2 (Z.ltb_ge i 0)), (proj2 (Z.leb_gt MAX i)) by lia. cbn [orb]. rewrite H2. by apply draw_window_at.
Qed.

Definition drawable g : Prop :=
  gui_active g = true ∧ (∀ i, i ∈ z_order g → drawn_ok g i) ∧ 0 ≤ cursor_x g < 65536 ∧ 0 ≤ cursor_y g < 65536.

Lemma scene_agree g g' x y : drawable g → drawable g' → seen x y → agree g g' x y → scene g x y = scene g' x y.
Proof using screen_small.
  intros (Ha & Hz & Hx & Hy) (Ha' & Hz' & Hx' & Hy') Hs [H1 H2 H3]. unfold scene, display_gui_draw_scene. rewrite Ha, Ha'. cbn [negb].
  set (s0 := draw_desktop _ _ _).
  assert (E : draw_windows fb g (z_order g) None s0 x y = draw_windows fb g' (z_order g') None s0 x y).
  { rewrite (windows_layers g), (windows_layers g') by done. change (filter (covers g x y) (z_order g)) with (layers g x y).
    change (filter (covers g' x y) (z_order g')) with (layers g' x y). rewrite H1. apply windows_agree; [|done..].
    intros i Hi. split_and!; [| |by apply H2..].
    - apply Hz. by apply list_elem_of_filter in Hi as [].
    - apply Hz'. rewrite <- H1 in Hi. by apply list_elem_of_filter in Hi as []. }
  assert (Hsh : shown fb None x y) by done.
  destruct H3 as [[Ex Ey]|[Hn Hn']].
  - assert (Ec : display_gui_draw_cursor fb g' = display_gui_draw_cursor fb g) by (unfold display_gui_draw_cursor; by rewrite Ex, Ey).
    rewrite Ec. by apply (draws_same fb _ _ None None _ _ x y (draws_cursor fb sizes_u32 g Hx Hy)).
  - rewrite (draws_out fb _ _ None _ x y (draws_cursor fb sizes_u32 g Hx Hy) I Hn).
    by rewrite (draws_out fb _ _ None _ x y (draws_cursor fb sizes_u32 g' Hx' Hy') I Hn').
Qed.

(** * Dirty rectangles *)

Definition rect_u32 (r : display_gui_dirty_rect) : Prop := is_u32 (rx r) ∧ is_u32 (ry r) ∧ is_u32 (rw r) ∧ is_u32 (rh r).

(** A rectangle of pixels of the screen. *)
Definition rect_in (r : display_gui_dirty_rect) : Prop :=
  0 ≤ rx r ∧ 0 ≤ ry r ∧ 0 < rw r ∧ 0 < rh r ∧ rx r + rw r ≤ width ∧ ry r + rh r ≤ height.

Definition dirty_ok g : Prop := Forall rect_in (dirty g) ∧ alen (dirty g) ≤ DISPLAY_GUI_DIRTY_MAX.
Definition dirty_at g (x y : Z) : Prop := Exists (λ r, in_rect r x y) (dirty g).

#[export] Instance dirty_at_dec g x y : Decision (dirty_at g x y).
Proof using. unfold dirty_at. apply _. Defined.

Lemma rect_in_ok r : rect_in r → rect_ok r.
Proof using screen_small. intros (? & ? & ? & ? & ? & ?). unfold rect_ok, two32. lia. Qed.

Lemma union_spec a b :
  rect_in a → rect_in b →
  rect_in (display_gui_rect_union a b) ∧ ∀ x y, in_rect a x y ∨ in_rect b x y → in_rect (display_gui_rect_union a b) x y.
Proof using screen_small.
  intros Ha Hb. pose proof (rect_in_ok a Ha) as (? & ? & ? & ? & ? & ?). pose proof (rect_in_ok b Hb) as (? & ? & ? & ? & ? & ?).
  destruct Ha as (_ & _ & ? & ? & ? & ?), Hb as (_ & _ & ? & ? & ? & ?). unfold display_gui_rect_union, rect_empty.
  rewrite !(proj2 (Z.eqb_neq _ _)) by lia. cbn [orb]. rewrite !min_u32, !max_u32, !add32_small by lia.
  rewrite (sub32_small (Z.max (rx a + rw a) (rx b + rw b)) (Z.min (rx a) (rx b))),
    (sub32_small (Z.max (ry a + rh a) (ry b + rh b)) (Z.min (ry a) (ry b))) by lia.
  unfold rect_in, in_rect. cbn [rx ry rw rh]. split; [lia|]. intros x y H'. lia.
Qed.

Lemma merge_spec r l l' :
  rect_in r → Forall rect_in l → merge_dirty r l = Some l' →
  Forall rect_in l' ∧ alen l' = alen l ∧ ∀ x y, in_rect r x y ∨ Exists (λ r, in_rect r x y) l → Exists (λ r, in_rect r x y) l'.
Proof using screen_small.
  intros Hr. revert l'. induction l as [|a l IH]; intros l' Hl; [done|]. cbn [merge_dirty]. inversion_clear Hl as [|? ? Ha Hl'].
  destruct (display_gui_rect_intersects a r).
  - intros E. injection E as <-. destruct (union_spec a r Ha Hr) as [Hu Hin]. split_and!; [by constructor|by unfold alen|].
    intros x y. rewrite !Exists_cons. intros [H|[H|H]]; [left; apply Hin; tauto|left; apply Hin; tauto|by right].
  - destruct (merge_dirty r l) as [l1|]; [|done]. cbn. intros E. injection E as <-. destruct (IH l1 Hl' eq_refl) as (I1 & I2 & I3).
    split_and!; [by constructor|unfold alen in *; simpl; lia|]. intros x y. rewrite !Exists_cons. pose proof (I3 x y). tauto.
Qed.

Lemma mark_spec r g :
  rect_u32 r → gui_active g = true → dirty_ok g →
  let g' := display_gui_mark_dirty fb r g in
  dirty_ok g' ∧ ∀ x y, seen x y → in_rect r x y ∨ dirty_at g x y → dirty_at g' x y.
Proof using screen_small.
  intros (Hx & Hy & Hw & Hh) Ha [Hd Hn]. unfold display_gui_mark_dirty, display_gui_mark_dirty_rect. rewrite Ha. cbn [negb].
  pose proof (clip_rect_spec fb None (rx r) (ry r) (rw r) (rh r) Hx Hy Hw Hh (proj1 sizes_u32) (proj2 sizes_u32) I) as Hc.
  destruct (display_gui_clip_rect fb None _ _ _ _) as [[[[x' y'] w'] h']|].
  2: { cbn. split; [done|]. intros x y Hs [Hi|Hi]; [|done]. exfalso. by apply (Hc x y). }
  destruct Hc as (Hw' & Hh' & (? & ? & _) & ? & ? & _ & _ & Hc). cbn [rx ry rw rh] in *.
  set (r' := Rect x' y' w' h'). assert (Hr : rect_in r') by (unfold rect_in; cbn; lia).
  assert (Hcov : ∀ x y, seen x y → in_rect r x y → in_rect r' x y) by (intros x y Hs Hi; by apply Hc).
  destruct (merge_dirty r' (dirty g)) as [l|] eqn:Em.
  - destruct (merge_spec r' _ l Hr Hd Em) as (M1 & M2 & M3). split; [split; [done|cbn; lia]|].
    intros x y Hs Hi. apply M3. destruct Hi as [Hi|Hi]; [left; by apply Hcov|by right].
  - destruct (Z.leb_spec DISPLAY_GUI_DIRTY_MAX (alen (dirty g))).
    + split; [split; [|done]|].
      * constructor; [|constructor]. unfold rect_in. cbn. lia.
      * intros x y [? ?] _. constructor. unfold in_rect. cbn. lia.
    + split; [split|].
      * apply Forall_app. split; [done|]. by constructor.
      * cbn [set_dirty dirty]. rewrite alen_app. unfold alen in *. simpl. lia.
      * intros x y Hs Hi. unfold dirty_at. cbn [set_dirty dirty]. apply Exists_app.
        destruct Hi as [Hi|Hi]; [right|by left]. constructor. by apply Hcov.
Qed.

Lemma flush_gui d : gui (display_gui_flush_dirty fb d) = set_dirty [] (gui d).
Proof using.
  unfold display_gui_flush_dirty. destruct (Z.eqb_spec (alen (dirty (gui d))) 0) as [E|_].
  - assert (El : dirty (gui d) = []) by (destruct (dirty (gui d)); [done|unfold alen in E; simpl in E; clear screen_small; lia]).
    destruct (gui d); cbn in *. by rewrite El.
  - cbn. f_equal. generalize (dirty (gui d)). intros l.
    assert (H : ∀ l d1, gui d1 = gui d → gui (foldl (λ d r, display_gui_redraw_rect fb r d) d1 l) = gui d); [|by apply H].
    clear l. induction l as [|r l IH]; intros d1 E1; [done|]. cbn [foldl]. apply IH. unfold display_gui_redraw_rect. by case_match.
Qed.

(** Redrawing what is marked. *)
Lemma flush_spec d x y :
  drawable (gui d) → dirty_ok (gui d) → seen x y →
  scr (display_gui_flush_dirty fb d) x y = if decide (dirty_at (gui d) x y) then scene (gui d) x y else scr d x y.
Proof using screen_small.
  intros Hg [Hd _] Hs. pose proof Hg as (Ha & Hz & Hx & Hy). unfold display_gui_flush_dirty.
  destruct (Z.eqb_spec (alen (dirty (gui d))) 0) as [E|_].
  { destruct (dirty (gui d)) eqn:El; [|by destruct (Z.eq_dec 1 0)].
    by rewrite decide_False by (unfold dirty_at; rewrite El; by intros ?%Exists_nil). }
  assert (H : ∀ l d', gui d' = gui d → Forall rect_in l →
    scr (foldl (λ d r, display_gui_redraw_rect fb r d) d' l) x y =
      (if decide (Exists (λ r, in_rect r x y) l) then scene (gui d) x y else scr d' x y)).
  { induction l as [|r l IH]; intros d' Eg Hl; [by rewrite decide_False by (by intros ?%Exists_nil)|].
    inversion_clear Hl as [|? ? Hr Hl']. cbn [foldl].
    assert (E : display_gui_redraw_rect fb r d' = Desk (gui d) (display_gui_draw_scene fb (gui d) (Some r) (scr d')) (heap d')).
    { unfold display_gui_redraw_rect. destruct Hr as (_ & _ & ? & ? & _). unfold rect_empty.
      rewrite Eg, Ha, !(proj2 (Z.eqb_neq _ _)) by lia. done. }
    rewrite E, IH by done. pose proof (rect_in_ok r Hr) as Hok. cbn [scr].
    destruct (decide (in_rect r x y)) as [Hi|Hi].
    - rewrite (decide_True (P := Exists _ (r :: l))) by (by constructor). case_decide; [done|].
      apply scene_any; try done.
    - rewrite scene_hidden; [|done..|unfold shown; tauto]. apply decide_ext. rewrite Exists_cons. tauto. }
  exact (H (dirty (gui d)) d eq_refl Hd).
Qed.

(** * Changes and debts *)

Definition ok g : Prop := gui_wf fb g ∧ all_fit g ∧ dirty_ok g.

Lemma fits_ok w : window_wf w → fits w → window_ok w.
Proof using. clear screen_small. intros [] []. split; try done. unfold DISPLAY_GUI_MAX_WIDTH in *. lia. Qed.

Lemma wf_drawable g : gui_wf fb g → all_fit g → drawable g.
Proof using screen_small.
  intros Hg Hf. pose proof (gw_cursor_x _ _ Hg). pose proof (gw_cursor_y _ _ Hg).
  split_and!; [by apply (gw_active fb)| |lia..]. intros i Hi. apply (gw_order _ _ Hg) in Hi. split; [done|].
  apply fits_ok; [by apply (gw_windows _ _ Hg)|by apply Hf].
Qed.

Record ev (D : Z → Z → Prop) g g' : Prop := {
  ev_ok : ok g';
  ev_scene : ∀ x y, seen x y → scene g x y = scene g' x y ∨ dirty_at g' x y ∨ D x y;
  ev_dirty : ∀ x y, seen x y → dirty_at g x y → dirty_at g' x y
}.

Definition no_debt (_ _ : Z) : Prop := False.

Lemma ev_refl D g : ok g → ev D g g.
Proof using. intros Hg. split; [done|by left|done]. Qed.

Lemma ev_trans D1 D2 D g g' g'' :
  ev D1 g g' → ev D2 g' g'' → (∀ x y, seen x y → D1 x y ∨ D2 x y → D x y) → ev D g g''.
Proof using. clear screen_small.
  intros [_ H1 H2] [H3 H4 H5] HD. split; [done| |naive_solver]. intros x y Hs.
  destruct (H1 x y Hs) as [E|[E|E]]; destruct (H4 x y Hs) as [E'|[E'|E']]; naive_solver congruence.
Qed.

Lemma ev_weaken (D D' : Z → Z → Prop) g g' : ev D g g' → (∀ x y, seen x y → D x y → D' x y) → ev D' g g'.
Proof using. clear screen_small. intros [H1 H2 H3] HD. split; [done| |done]. intros x y Hs. destruct (H2 x y Hs) as [?|[?|?]]; auto. Qed.

Lemma dirty_fits l g : all_fit g → all_fit (set_dirty l g).
Proof using. done. Qed.

(** Marking a rectangle pays the debt in it. *)
Lemma ev_mark D D' r g g' :
  ev D g g' → rect_u32 r → (∀ x y, seen x y → D x y → in_rect r x y ∨ D' x y) → ev D' g (display_gui_mark_dirty fb r g').
Proof using screen_small.
  intros [(Hw & Hf & Hd) H2 H3] Hr HD. destruct (mark_spec r g' Hr (gw_active _ _ Hw) Hd) as [M1 M2].
  pose proof (wf_mark fb r g' Hw) as Hwm. revert M1 M2 Hwm. cbv zeta. unfold display_gui_mark_dirty.
  destruct (mark_rect_is fb (rx r) (ry r) (rw r) (rh r) g') as [l ->]. intros M1 M2 Hwm. split; [by split_and!| |].
  - intros x y Hs. change (scene (set_dirty l g')) with (scene g').
    destruct (H2 x y Hs) as [E|[E|E]]; [by left|right; left; apply M2; auto|].
    destruct (HD x y Hs E); [right; left; apply M2; auto|by right; right].
  - intros x y Hs Hi. apply M2; auto.
Qed.

Lemma ev_agree D g g' :
  ok g → gui_wf fb g' → all_fit g' → dirty g' = dirty g → (∀ x y, seen x y → agree g g' x y ∨ D x y) → ev D g g'.
Proof using screen_small.
  intros (Hw & Hf & Hd) Hw' Hf' Ed Ha. split.
  - split_and!; [done..|]. unfold dirty_ok. by rewrite Ed.
  - intros x y Hs. destruct (Ha x y Hs) as [Hag|]; [left|by right; right]. apply scene_agree; [by apply wf_drawable..|done|done].
  - intros x y _. unfold dirty_at. by rewrite Ed.
Qed.

(** The windows look the same. *)
Definition looks g g' : Prop := ∀ i, 0 ≤ i → same_look (win g i) (win g' i).

Lemma looks_eq g g' : windows g' = windows g → looks g g'.
Proof using. intros E i _. unfold win. rewrite E. by split_and!. Qed.

Lemma looks_trans g g' g'' : looks g g' → looks g' g'' → looks g g''.
Proof using.
  intros H1 H2 i Hi. destruct (H1 i Hi) as (? & ? & ? & ? & ? & ? & ? & ?), (H2 i Hi) as (? & ? & ? & ? & ? & ? & ? & ?).
  split_and!; congruence.
Qed.

Lemma looks_queues g g' : queues_only g g' → looks g g'.
Proof using. intros H i Hi. by apply (qo_windows g g' H). Qed.

Lemma looks_in_use g g' i : looks g g' → in_use g' i ↔ in_use g i.
Proof using. clear screen_small. intros H. unfold in_use. split; intros [Hi Hu]; (split; [done|]); destruct (H i ltac:(lia)) as [E _]; congruence. Qed.

Lemma looks_fit g g' : looks g g' → all_fit g' ↔ all_fit g.
Proof using. clear screen_small.
  intros H. unfold all_fit, fits. split; intros Hf i Hi.
  - destruct (H i ltac:(apply in_use_range in Hi; lia)) as (_ & _ & _ & E1 & _ & E2 & _). rewrite <- E1, <- E2. apply Hf. by apply (looks_in_use g).
  - destruct (H i ltac:(apply in_use_range in Hi; lia)) as (_ & _ & _ & E1 & _ & E2 & _). rewrite E1, E2. apply Hf. by apply (looks_in_use g g').
Qed.

Lemma looks_covers g g' x y i : looks g g' → 0 ≤ i → covers g' x y i ↔ covers g x y i.
Proof using fb. clear screen_small.
  intros H Hi. unfold covers. by rewrite (look_bounds x y (win g i) (win g' i)) by (by apply same_look_at, H).
Qed.

Lemma order_range g i : gui_wf fb g → i ∈ z_order g → 0 ≤ i < MAX.
Proof using. clear screen_small. intros Hg Hi%(gw_order _ _ Hg). by apply in_use_range in Hi. Qed.

(** A change of queues, or of fields that are not drawn. *)
Lemma ev_looks D g g' :
  ok g → gui_wf fb g' → looks g g' → z_order g' = z_order g → focused_index g' = focused_index g →
  cursor_x g' = cursor_x g → cursor_y g' = cursor_y g → dirty g' = dirty g → ev D g g'.
Proof using screen_small.
  intros Hg Hw' Hl Ez Ef Ex Ey Ed. destruct (Hg) as (Hw & Hf & _).
  apply ev_agree; [done|done|by apply (looks_fit g)|done|]. intros x y Hs. left. split.
  - unfold layers. rewrite Ez. apply filter_ext_in. intros i Hi%order_range; [|done]. apply looks_covers; [done|lia].
  - intros i Hi. apply list_elem_of_filter in Hi as [_ Hi%order_range]; [|done]. rewrite Ef. split; [|done]. apply same_look_at, Hl. lia.
  - by left.
Qed.

Lemma ev_emit D i t x y b bs k c m g : ok g → ev D g (display_gui_emit_simple_event i t x y b bs k c m g).
Proof using screen_small.
  intros Hg. destruct (Hg) as (Hw & _). pose proof (emit_queues i t x y b bs k c m g (gw_size _ _ Hw)) as Hq.
  apply ev_looks; [done|by apply emit_wf|by apply looks_queues|..]; apply Hq.
Qed.

Lemma ev_raise i g : ok g → in_use g i → ev (λ x y, covers g x y i) g (display_gui_raise_window i g).
Proof using screen_small.
  intros Hg Hi. destruct (Hg) as (Hw & Hf & _). pose proof (in_use_range g i Hi) as Hr.
  pose proof (wf_raise fb i g Hw Hi) as Hw'. rewrite (raise_order fb i g Hw Hr) in Hw' |- *.
  apply ev_agree; [done..|]. intros x y Hs. destruct (decide (covers g x y i)) as [|Hn]; [by right|left].
  split; [|done|by left]. unfold layers. cbn [set_z z_order]. change (covers (set_z _ g)) with (covers g).
  rewrite filter_app, filter_skip by done. rewrite (filter_cons_False _ i) by done. by rewrite app_nil_r.
Qed.

(** The window that has the focus. *)
Definition focus_area g (x y : Z) : Prop := 0 ≤ focused_index g ∧ covers g x y (focused_index g).

#[export] Instance focus_area_dec g x y : Decision (focus_area g x y).
Proof using. unfold focus_area. apply _. Defined.

Lemma ev_set_focus i g :
  ok g → none_or_used g i → ev (λ x y, focus_area g x y ∨ 0 ≤ i ∧ covers g x y i) g (set_focus i g).
Proof using screen_small.
  intros Hg Hi. destruct (Hg) as (Hw & Hf & _). apply ev_agree; [done|by apply wf_set_focus|done|done|]. intros x y Hs.
  destruct (decide (focus_area g x y ∨ 0 ≤ i ∧ covers g x y i)) as [|Hn]; [by right|left]. split; [done| |by left].
  intros j Hj. split; [by split_and!|]. cbn [set_focus focused_index]. apply list_elem_of_filter in Hj as [Hc Hj%order_range]; [|done].
  destruct (Z.eqb_spec j i) as [->|]; [destruct Hn; right; split; [lia|done]|].
  destruct (Z.eqb_spec j (focused_index g)) as [->|]; [|done]. destruct Hn. left. split; [lia|done].
Qed.

Lemma looks_emit i t x y b bs k c m g : alen (windows g) = MAX → looks g (display_gui_emit_simple_event i t x y b bs k c m g).
Proof using. intros Hl. by apply looks_queues, emit_queues. Qed.

Lemma looks_focus i g : alen (windows g) = MAX → looks g (display_gui_focus_window i g).
Proof using.
  intros Hl. unfold display_gui_focus_window. destruct (i =? focused_index g); [apply looks_eq, raise_windows|].
  set (g1 := if 0 <=? focused_index g then _ else g).
  assert (H1 : looks g g1 ∧ alen (windows g1) = MAX).
  { unfold g1. case_match; [|by split; [apply looks_eq|]]. split; [by apply looks_emit|].
    unfold emit_note. by rewrite (qo_size g) by (by apply emit_queues). }
  destruct H1 as [H1 H2]. apply (looks_trans g g1); [done|]. destruct (0 <=? i); [|by apply looks_eq].
  apply (looks_trans g1 (display_gui_raise_window i (set_focus i g1))); [apply looks_eq; by rewrite raise_windows|].
  apply looks_emit. by rewrite raise_windows.
Qed.

Lemma ev_focus_window i g :
  ok g → none_or_used g i → ev (λ x y, focus_area g x y ∨ 0 ≤ i ∧ covers g x y i) g (display_gui_focus_window i g).
Proof using screen_small.
  intros Hg Hi. destruct (Hg) as (Hw & Hf & Hd). unfold display_gui_focus_window.
  destruct (Z.eqb_spec i (focused_index g)) as [E|Hne].
  - destruct Hi as [->|Hi]; [by apply ev_refl|]. eapply ev_weaken; [by apply ev_raise|]. intros x y _ Hc. right.
    pose proof (in_use_range g i Hi). split; [lia|done].
  - set (g1 := if 0 <=? focused_index g then _ else g).
    assert (H1 : ev no_debt g g1 ∧ looks g g1 ∧ focused_index g1 = focused_index g).
    { unfold g1. case_match; [|split_and!; [by apply ev_refl|by apply looks_eq|done]].
      split_and!; [by apply ev_emit|apply looks_emit, (gw_size fb), Hw|]. unfold emit_note. apply (qo_focus g), emit_queues, (gw_size fb), Hw. }
    destruct H1 as (E1 & L1 & F1). pose proof (ev_ok _ _ _ E1) as Hg1.
    assert (Hi1 : none_or_used g1 i) by (destruct Hi as [?|?]; [by left|right; by apply (looks_in_use g)]).
    assert (E2 : ev (λ x y, focus_area g x y ∨ 0 ≤ i ∧ covers g x y i) g (set_focus i g1)).
    { eapply (ev_trans _ _ _ g g1); [exact E1|by apply ev_set_focus|]. intros x y _ [[]|[[H1 H2]|[H1 H2]]].
      - left. rewrite F1 in H1, H2. split; [done|]. by apply (looks_covers g g1).
      - right. split; [done|]. by apply (looks_covers g g1). }
    destruct (Z.leb_spec 0 i) as [Hp|Hp]; [|done].
    assert (Hi2 : in_use (set_focus i g1) i) by (destruct Hi1 as [->|?]; [lia|done]).
    pose proof (ev_ok _ _ _ E2) as Hg2.
    assert (E3 : ev (λ x y, focus_area g x y ∨ 0 ≤ i ∧ covers g x y i) g (display_gui_raise_window i (set_focus i g1))).
    { eapply ev_trans; [exact E2|by apply ev_raise|]. intros x y _ [H|H]; [done|]. right. split; [done|]. by apply (looks_covers g g1). }
    eapply ev_trans; [exact E3|apply (ev_emit no_debt), E3|]. by intros x y _ [H|[]].
Qed.

Definition cursor_area g : Z → Z → Prop := in_rect (display_gui_cursor_bounds_at (cursor_x g) (cursor_y g)).

Lemma ev_set_cursor cx cy g :
  ok g → 0 ≤ cx < width → 0 ≤ cy < height →
  ev (λ x y, cursor_area g x y ∨ in_rect (display_gui_cursor_bounds_at cx cy) x y) g (set_cursor cx cy g).
Proof using screen_small.
  intros Hg Hx Hy. destruct (Hg) as (Hw & Hf & _). apply ev_agree; [done|by apply wf_set_cursor|done|done|]. intros x y Hs.
  destruct (decide (in_rect (display_gui_cursor_bounds_at (cursor_x g) (cursor_y g)) x y)); [by right; left|].
  destruct (decide (in_rect (display_gui_cursor_bounds_at cx cy) x y)); [by right; right|]. left.
  split; [done| |by right]. intros i _. by split_and!.
Qed.

(** A window in use changes its place or its pixels. *)
Lemma ev_set_win D i w g :
  ok g → in_use g i → gui_wf fb (set_win i w g) → fits w → w_used w = true →
  (∀ x y, seen x y → D x y ∨ look_at x y (win g i) w ∨ ¬ covers g x y i ∧ ¬ in_rect (display_gui_window_bounds w) x y) →
  ev D g (set_win i w g).
Proof using screen_small.
  intros Hg Hi Hw' Hfw Hu HD. destruct (Hg) as (Hw & Hf & _). pose proof (in_use_range g i Hi) as Hr. pose proof (gw_size _ _ Hw) as Hl.
  assert (Hwin : ∀ j, 0 ≤ j → win (set_win i w g) j = if decide (i = j) then w else win g j) by (intros; by apply win_set).
  apply ev_agree; [done|done| |done|].
  { intros j Hj%in_use_keep; [|done..]. rewrite Hwin by (apply in_use_range in Hj; lia). case_decide; [done|by apply Hf]. }
  intros x y Hs. destruct (HD x y Hs) as [H|H]; [by right|left]. split; [| |by left].
  - unfold layers. apply filter_ext_in. intros j Hj%order_range; [|done]. unfold covers. rewrite Hwin by lia. case_decide as E; [subst j|done].
    destruct H as [H|[H1 H2]]; [by rewrite (look_bounds _ _ _ _ H)|tauto].
  - intros j Hj. split; [|done]. apply list_elem_of_filter in Hj as [Hc Hj%order_range]; [|done]. rewrite Hwin by lia.
    case_decide as E; [subst j|by split_and!]. destruct H as [H|[H1 H2]]; [done|by destruct H1].
Qed.

(** A window appears on top of the others. *)
Lemma ev_add i w g :
  ok g → 0 ≤ i < MAX → w_used (win g i) = false → window_wf w → fits w → w_used w = true → window_id w = next_window_id g →
  (∀ j, in_use g j → owner_pid (win g j) ≠ owner_pid w) → next_window_id g < 2147483647 →
  ev (in_rect (display_gui_window_bounds w)) g (set_z (z_order g ++ [i]) (set_win i w (set_next_id (int_add (next_window_id g) 1) g))).
Proof using screen_small.
  intros Hg Hr Hn Hww Hfw Hu Hid Ho Hnx. destruct (Hg) as (Hw & Hf & _). pose proof (gw_size _ _ Hw) as Hl.
  set (g1 := set_next_id _ g). set (g2 := set_z _ _).
  assert (Hw2 : gui_wf fb g2) by (by apply wf_add).
  assert (Hwin : ∀ j, 0 ≤ j → win g2 j = if decide (i = j) then w else win g j).
  { intros j Hj. change (win g2 j) with (win (set_win i w g1) j). by rewrite (win_set i w g1). }
  assert (Hin : ∀ j, j ∈ z_order g → i ≠ j) by (intros j Hj%(gw_order _ _ Hw) <-; destruct Hj; congruence).
  apply ev_agree; [done|done| |done|].
  { intros j Hj. pose proof (in_use_range _ _ Hj). rewrite Hwin by lia. case_decide; [done|]. apply Hf. destruct Hj as [? Hj].
    split; [done|]. rewrite Hwin in Hj by lia. by rewrite decide_False in Hj by done. }
  intros x y Hs. destruct (decide (in_rect (display_gui_window_bounds w) x y)) as [|Hc]; [by right|left]. split; [| |by left].
  - unfold layers. cbn [g2 set_z z_order]. rewrite filter_app, (filter_cons_False _ i), app_nil_r.
    + apply filter_ext_in. intros j Hj. unfold covers. change (win (set_z _ _) j) with (win g2 j).
      pose proof (order_range g j Hw Hj). rewrite Hwin by lia. by rewrite decide_False by (by apply Hin).
    + unfold covers. change (win (set_z _ _) i) with (win g2 i). rewrite Hwin by lia. by rewrite decide_True.
  - intros j Hj. split; [|done]. apply list_elem_of_filter in Hj as [_ Hj]. pose proof (order_range g j Hw Hj).
    rewrite Hwin by lia. rewrite decide_False by (by apply Hin). by split_and!.
Qed.

(** What taking a window away leaves. *)
Lemma destroy_fields i d :
  gui_wf fb (gui d) → in_use (gui d) i →
  let g := gui d in let g' := gui (display_gui_destroy_window_index i d) in
  z_order g' = filter (λ j, j ≠ i) (z_order g) ∧ (∀ j, 0 ≤ j → j ≠ i → win g' j = win g j) ∧ w_used (win g' i) = false ∧
  (focused_index g ≠ i → focused_index g' = focused_index g) ∧ cursor_x g' = cursor_x g ∧ cursor_y g' = cursor_y g ∧
  dirty g' = dirty g ∧ scr (display_gui_destroy_window_index i d) = scr d.
Proof using.
  clear screen_small. intros Hg Hi. pose proof (in_use_range _ _ Hi) as Hr. pose proof (gw_size _ _ Hg) as Hl. destruct Hi as [_ Hu].
  unfold display_gui_destroy_window_index. rewrite (proj2 (Z.ltb_ge i 0)), (proj2 (Z.leb_gt MAX i)) by lia. cbn [orb].
  rewrite Hu. cbn [negb]. set (dead := Window false _ _ _ _ _ _ _ _ _ _ _ _). unfold display_gui_remove_from_z_order.
  cbn [z_order set_win]. rewrite remove_first_spec by (apply (gw_nodup _ _ Hg)).
  set (g1 := set_z _ (set_win i dead (gui d))). set (g2 := if focused_index g1 =? i then _ else g1). cbn [gui scr].
  set (g3 := if drag_index g2 =? i then _ else g2).
  assert (H3 : z_order g3 = z_order g2 ∧ windows g3 = windows g2 ∧ focused_index g3 = focused_index g2 ∧ cursor_x g3 = cursor_x g2 ∧
    cursor_y g3 = cursor_y g2 ∧ dirty g3 = dirty g2) by (unfold g3; by case_match).
  assert (H2 : z_order g2 = z_order g1 ∧ windows g2 = windows g1 ∧ (focused_index g1 ≠ i → focused_index g2 = focused_index g1) ∧
    cursor_x g2 = cursor_x g1 ∧ cursor_y g2 = cursor_y g1 ∧ dirty g2 = dirty g1).
  { unfold g2. destruct (Z.eqb_spec (focused_index g1) i); by split_and!. }
  destruct H3 as (-> & E3 & -> & -> & -> & ->), H2 as (-> & E2 & Hf & -> & -> & ->).
  assert (Hw : ∀ j, 0 ≤ j → win g3 j = if decide (i = j) then dead else win (gui d) j).
  { intros j Hj. unfold win. rewrite E3, E2. change ((windows g1).[j]) with (win (set_win i dead (gui d)) j). by apply win_set. }
  split_and!; try done.
  - intros j Hj Hne. rewrite Hw by done. by rewrite decide_False by congruence.
  - rewrite Hw by lia. by rewrite decide_True.
Qed.

Lemma ev_destroy_index i d :
  ok (gui d) → in_use (gui d) i →
  let g := gui d in let g' := gui (display_gui_destroy_window_index i d) in
  ev (λ x y, covers g x y i ∨ focus_area g' x y) g g'.
Proof using screen_small.
  intros Hg Hi. destruct (Hg) as (Hw & Hf & _). pose proof (wf_destroy_index fb i d Hw Hi) as Hw'.
  destruct (destroy_fields i d Hw Hi) as (Ez & Hwin & Hdead & Hfo & Ex & Ey & Ed & _). revert Hw' Ez Hwin Hdead Hfo Ex Ey Ed.
  generalize (gui (display_gui_destroy_window_index i d)). intros g' Hw' Ez Hwin Hdead Hfo Ex Ey Ed. cbv zeta. set (g := gui d) in *.
  assert (Hin : ∀ j, j ∈ filter (λ j, j ≠ i) (z_order g) → win g' j = win g j).
  { intros j [Hj Hj']%list_elem_of_filter. apply Hwin; [|done]. pose proof (order_range g j Hw Hj'). lia. }
  apply ev_agree; [done|done| |done|].
  { intros j Hj. assert (Hne : j ≠ i) by (intros ->; destruct Hj; congruence). pose proof (in_use_range _ _ Hj).
    rewrite Hwin by (done || lia). apply Hf. destruct Hj as [? Hj]. split; [done|]. by rewrite <- Hwin by (done || lia). }
  intros x y Hs. destruct (decide (covers g x y i ∨ focus_area g' x y)) as [|Hn]; [by right|left]. split; [| |by left].
  - unfold layers. rewrite Ez, <- (filter_skip (covers g x y) i) by tauto. apply filter_ext_in. intros j Hj. unfold covers. by rewrite Hin.
  - intros j Hj. apply list_elem_of_filter in Hj as [Hc Hj]. assert (Hne : j ≠ i) by (intros ->; tauto).
    assert (Hji : j ∈ filter (λ j, j ≠ i) (z_order g)) by (by apply list_elem_of_filter). rewrite Hin by done. split; [by split_and!|].
    destruct (decide (focused_index g = i)) as [E|E]; [|by rewrite Hfo].
    rewrite (proj2 (Z.eqb_neq j (focused_index g))) by congruence. apply Z.eqb_neq. intros ->. destruct Hn. right.
    pose proof (order_range g _ Hw Hj). split; [lia|]. unfold covers. by rewrite Hin.
Qed.

(** * Operations *)

(** The screen is up to date and nothing is marked. *)
Definition settled d : Prop :=
  ok (gui d) ∧ dirty (gui d) = [] ∧ ∀ x y, seen x y → scr d x y = scene (gui d) x y.

(** An operation that ends by redrawing what is marked. *)
Lemma settle d d' : settled d → scr d' = scr d → ev no_debt (gui d) (gui d') → settled (display_gui_flush_dirty fb d').
Proof using screen_small.
  intros (Hg & _ & Hs) Es [Hok Hsc _]. destruct (Hok) as (Hw & Hf & Hd). pose proof (wf_drawable _ Hw Hf) as Hdr.
  pose proof (flush_gui d') as E.
  split_and!; rewrite E.
  - split_and!; [by apply wf_set_dirty|done|]. split; [constructor|done].
  - done.
  - intros x y Hxy. change (scene (set_dirty [] (gui d'))) with (scene (gui d')).
    rewrite (flush_spec d' x y Hdr Hd Hxy). case_decide as Hda; [done|].
    destruct (Hsc x y Hxy) as [Eq|[?|[]]]; [|done]. by rewrite Es, Hs.
Qed.

(** An operation that marks nothing. *)
Lemma settled_quiet d g' : settled d → ev no_debt (gui d) g' → dirty g' = [] → settled (Desk g' (scr d) (heap d)).
Proof using.
  intros (Hg & _ & Hs) [Hok Hsc _] Hd. split_and!; [done|done|]. intros x y Hxy. cbn. rewrite (Hs x y Hxy).
  destruct (Hsc x y Hxy) as [->|[H|[]]]; [done|]. unfold dirty_at in H. rewrite Hd in H. by apply Exists_nil in H.
Qed.

Lemma ev_then g g' g'' : ev no_debt g g' → ev no_debt g' g'' → ev no_debt g g''.
Proof using. intros H1 H2. apply (ev_trans _ _ _ _ _ _ H1 H2). by intros x y _ [[]|[]]. Qed.

Lemma window_u32 g i : ok g → none_or_used g i → 0 ≤ i → rect_u32 (display_gui_window_bounds (win g i)).
Proof using.
  clear screen_small. intros (Hw & Hf & _) [->|Hi] Hp; [lia|].
  destruct (window_bounds (win g i)) as [_ (? & ? & ? & ? & ? & ?)]; [apply fits_ok; [by apply (gw_windows _ _ Hw)|by apply Hf]|apply Hi|].
  unfold rect_u32. lia.
Qed.

Lemma ev_mark_window D D' i g g' :
  ev D g g' → in_use g' i → (∀ x y, seen x y → D x y → covers g' x y i ∨ D' x y) →
  ev D' g (display_gui_mark_dirty fb (display_gui_window_bounds (win g' i)) g').
Proof using screen_small.
  intros He Hi HD. eapply ev_mark; [exact He| |exact HD]. apply window_u32; [apply He|by right|]. apply in_use_range in Hi. lia.
Qed.

Lemma ev_mark_focused D D' g g' :
  ev D g g' → (∀ x y, seen x y → D x y → focus_area g' x y ∨ D' x y) → ev D' g (mark_focused fb g').
Proof using screen_small.
  intros He HD. unfold mark_focused. destruct (Z.leb_spec 0 (focused_index g')) as [Hp|Hp].
  - pose proof (ev_ok _ _ _ He) as (Hw & _). destruct (gw_focus _ _ Hw) as [E|Hi]; [lia|]. eapply ev_mark_window; [exact He|done|].
    intros x y Hs H. destruct (HD x y Hs H) as [[_ ?]|?]; [by left|by right].
  - eapply ev_weaken; [exact He|]. intros x y Hs H. destruct (HD x y Hs H) as [[? _]|?]; [lia|done].
Qed.

Lemma cursor_u32 x y : 0 ≤ x < width → 0 ≤ y < height → rect_u32 (display_gui_cursor_bounds_at x y).
Proof using screen_small. intros Hx Hy. unfold rect_u32, two32, display_gui_cursor_bounds_at, DISPLAY_GUI_CURSOR_W, DISPLAY_GUI_CURSOR_H. cbn [rx ry rw rh]. lia. Qed.

Lemma ev_mark_cursor D D' g g' :
  ev D g g' → (∀ x y, seen x y → D x y → cursor_area g' x y ∨ D' x y) → ev D' g (mark_cursor fb g').
Proof using screen_small.
  intros He HD. eapply ev_mark; [exact He| |exact HD]. pose proof (ev_ok _ _ _ He) as (Hw & _).
  apply cursor_u32; apply Hw.
Qed.

(** ** The buttons *)

Lemma focus_index i g : gui_wf fb g → focused_index (display_gui_focus_window i g) = i.
Proof using.
  intros Hw. unfold display_gui_focus_window. assert (Hr : ∀ k g', focused_index (display_gui_raise_window k g') = focused_index g').
  { intros k g'. unfold display_gui_raise_window. by repeat case_match. }
  destruct (Z.eqb_spec i (focused_index g)) as [E|_]; [by rewrite Hr|].
  set (g1 := if 0 <=? focused_index g then _ else g).
  assert (H1 : alen (windows g1) = MAX).
  { unfold g1. case_match; [|apply (gw_size _ _ Hw)]. unfold emit_note. rewrite (qo_size g); [apply (gw_size _ _ Hw)|]. apply emit_queues, (gw_size _ _ Hw). }
  case_match; [|done]. unfold emit_note. rewrite (qo_focus (display_gui_raise_window i (set_focus i g1))); [by rewrite Hr|].
  apply emit_queues. by rewrite raise_windows.
Qed.

Lemma mark_index r g : focused_index (display_gui_mark_dirty fb r g) = focused_index g.
Proof using. apply mark_dirty_same. Qed.

Lemma press_index i old g : gui_wf fb g → focused_index (press_focus fb i old g) = i.
Proof using. intros Hw. unfold press_focus. rewrite mark_index. case_match; rewrite ?mark_index; by apply focus_index. Qed.

(** Moving the focus to [i] and marking the window that had it. *)
Lemma ev_focus_marked i old g :
  ok g → in_use g i → none_or_used g old → focused_index g = old ∨ focused_index g = i →
  let g1 := display_gui_focus_window i g in
  let g2 := if (0 <=? old) && negb (old =? i) then display_gui_mark_dirty fb (display_gui_window_bounds (win g1 old)) g1 else g1 in
  ev (λ x y, covers g x y i) g g2 ∧ looks g g2.
Proof using screen_small.
  intros Hg Hi Ho Hfo. destruct (Hg) as (Hw & _). pose proof (gw_size _ _ Hw) as Hl. pose proof (looks_focus i g Hl) as Hlk.
  pose proof (ev_focus_window i g Hg ltac:(by right)) as He. cbv zeta. set (g1 := display_gui_focus_window i g) in *.
  destruct (Z.leb_spec 0 old) as [Hp|Hp]; cbn [andb].
  - destruct (Z.eqb_spec old i) as [E|Hne]; cbn [negb].
    + split; [|done]. eapply ev_weaken; [exact He|]. intros x y _ [[_ H]|[_ H]]; [|done]. destruct Hfo as [E'|E']; rewrite E' in H; congruence.
    + split; [|eapply looks_trans; [exact Hlk|apply looks_eq, mark_dirty_same]].
      destruct Ho as [->|Ho]; [lia|]. eapply ev_mark_window; [exact He|by apply (looks_in_use g)|].
      intros x y _ [[_ H]|[_ H]]; [|by right]. destruct Hfo as [E'|E']; rewrite E' in H; [left|by right]. by apply (looks_covers g g1).
  - split; [|done]. eapply ev_weaken; [exact He|]. intros x y _ [[H' H]|[_ H]]; [|done]. destruct Hfo as [E'|E']; rewrite E' in H; [lia|done].
Qed.

Lemma ev_press_focus i old g :
  ok g → in_use g i → none_or_used g old → focused_index g = old ∨ focused_index g = i → ev no_debt g (press_focus fb i old g).
Proof using screen_small.
  intros Hg Hi Ho Hfo. pose proof (in_use_range _ _ Hi) as Hr. destruct (ev_focus_marked i old g Hg Hi Ho Hfo) as [H2 Hlk]. unfold press_focus.
  set (g2 := if (0 <=? old) && negb (old =? i) then _ else _) in *.
  eapply ev_mark_window; [exact H2|by apply (looks_in_use g)|]. intros x y _ H. left. apply (looks_covers g g2); [done|lia|done].
Qed.

Lemma ev_emit_at i t b g : ok g → ev no_debt g (emit_at i t b g).
Proof using screen_small. intros Hg. unfold emit_at. repeat case_match; [by apply ev_emit|by apply ev_refl]. Qed.

Lemma emit_index i t x y b bs k c m g :
  alen (windows g) = MAX → focused_index (display_gui_emit_simple_event i t x y b bs k c m g) = focused_index g.
Proof using. intros Hl. by apply qo_focus, emit_queues. Qed.

Lemma emit_at_index i t b g : alen (windows g) = MAX → focused_index (emit_at i t b g) = focused_index g.
Proof using. intros Hl. unfold emit_at. repeat case_match; [by apply emit_index|done]. Qed.

Lemma ev_press_left target g :
  ok g → (∀ i, target = Some i → in_use g i) →
  let g' := press_left fb target (focused_index g) g in
  ev no_debt g g' ∧ ∀ i, target = Some i → focused_index g' = i.
Proof using screen_small.
  intros Hg Ht. destruct (Hg) as (Hw & _). pose proof (wf_press_left fb target (focused_index g) g Hw Ht) as Hw'. revert Hw'.
  unfold press_left. destruct target as [i|]; [|by split; [apply ev_refl|]]. specialize (Ht i eq_refl). cbv zeta.
  pose proof (ev_press_focus i (focused_index g) g Hg Ht (gw_focus _ _ Hw) ltac:(by left)) as He.
  pose proof (press_index i (focused_index g) g Hw) as Hf. set (g1 := press_focus fb i _ g) in *.
  pose proof (ev_ok _ _ _ He) as Hg1. pose proof (gw_size _ _ (proj1 Hg1)) as Hl.
  destruct (display_gui_close_hit _ _ _); [|destruct (display_gui_title_hit _ _ _)]; intros Hw'.
  - split; [eapply ev_then; [exact He|by apply ev_emit]|]. intros j E. injection E as <-. by rewrite emit_index.
  - split; [|intros j E; by injection E as <-]. eapply ev_then; [exact He|]. apply ev_looks; done || by apply looks_eq.
  - split; [eapply ev_then; [exact He|by apply ev_emit_at]|]. intros j E. injection E as <-. by rewrite emit_at_index.
Qed.

Lemma ev_press_right target old g :
  ok g → (∀ i, target = Some i → in_use g i ∧ (focused_index g = old ∨ focused_index g = i)) → none_or_used g old →
  ev no_debt g (press_right fb target old g).
Proof using screen_small.
  intros Hg Ht Ho. unfold press_right. destruct target as [i|]; [|by apply ev_refl]. destruct (Ht i eq_refl) as [Hi Hf].
  assert (He : ev no_debt g (press_focus fb i old g)) by (by apply ev_press_focus).
  eapply ev_then; [exact He|]. by apply ev_emit_at, He.
Qed.

Lemma ev_release_left g : ok g → ev no_debt g (release_left g).
Proof using screen_small.
  intros Hg. destruct (Hg) as (Hw & _). unfold release_left. repeat case_match; [|by apply ev_emit_at|by apply ev_refl].
  apply ev_looks; done || (by apply wf_no_drag) || by apply looks_eq.
Qed.

Lemma ev_release_right g : ok g → ev no_debt g (release_right g).
Proof using screen_small. intros Hg. unfold release_right. case_match; [by apply ev_emit_at|by apply ev_refl]. Qed.

Lemma settled_buttons btns d : settled d → settled (display_gui_handle_mouse_buttons fb btns d).
Proof using screen_small.
  intros Hs. pose proof Hs as (Hg & Hd & _). destruct (Hg) as (Hw & _). unfold display_gui_handle_mouse_buttons.
  set (g0 := set_buttons btns (gui d)). assert (H0 : ev no_debt (gui d) g0) by (apply ev_looks; done || (by apply wf_set_buttons) || by apply looks_eq).
  destruct (_ || _); [by apply (settled_quiet d g0)|]. cbv zeta.
  pose proof (ev_ok _ _ _ H0) as Hg0. apply (settle d); [done|done|]. cbn [gui].
  set (t := display_gui_window_at _ _ _).
  assert (Ht : ∀ i, t = Some i → in_use g0 i) by (intros i Hi; by apply window_at_Some in Hi as (_ & ? & _)).
  set (old := focused_index g0).
  pose proof (gw_focus _ _ (proj1 Hg0)) as Hold. fold old in Hold.
  set (g1 := if _ : bool then press_left _ _ _ _ else g0).
  assert (H1 : ev no_debt (gui d) g1 ∧ (∀ i, t = Some i → in_use g1 i ∧ (focused_index g1 = old ∨ focused_index g1 = i)) ∧ none_or_used g1 old).
  { unfold g1. case_match; [|split_and!; [done| |done]; intros i Hi; split; [by apply Ht|by left]].
    destruct (ev_press_left t g0 Hg0 Ht) as [He Hfi]. cbv zeta in He, Hfi. fold old in He, Hfi.
    assert (Hu : ∀ j, in_use (press_left fb t old g0) j ↔ in_use g0 j) by (intros; apply press_left_in_use; [apply Hg0|done]).
    split_and!; [by eapply ev_then| |].
    - intros i Hi. split; [by apply Hu, Ht|right; by apply Hfi].
    - destruct Hold as [?|?]; [by left|right; by apply Hu]. }
  destruct H1 as (H1 & Ht1 & Ho1). set (g2 := if _ : bool then press_right _ _ _ _ else g1).
  assert (H2 : ev no_debt (gui d) g2) by (unfold g2; case_match; [eapply ev_then; [exact H1|apply ev_press_right; [apply H1|done|done]]|done]).
  set (g3 := if _ : bool then release_left _ else g2).
  assert (H3 : ev no_debt (gui d) g3) by (unfold g3; case_match; [eapply ev_then; [exact H2|apply ev_release_left, H2]|done]).
  case_match; [eapply ev_then; [exact H3|apply ev_release_right, H3]|done].
Qed.

(** ** The mouse, the keys and the queues *)

Lemma settled_motion dx dy d : settled d → settled (display_gui_handle_mouse_motion fb dx dy d).
Proof using screen_small.
  intros Hs. pose proof Hs as (Hg & _). destruct (Hg) as (Hw & _). unfold display_gui_handle_mouse_motion. rewrite (gw_active _ _ Hw). cbn [negb].
  set (nx := move_cursor _ dx _). set (ny := move_cursor _ dy _).
  assert (Hnx : 0 ≤ nx < width) by (apply move_cursor_range; [apply (gw_cursor_x _ _ Hw)|lia]).
  assert (Hny : 0 ≤ ny < height) by (apply move_cursor_range; [apply (gw_cursor_y _ _ Hw)|lia]).
  case_match; [done|]. cbv zeta. apply (settle d); [done|done|]. cbn [gui].
  set (D := λ x y, cursor_area (gui d) x y ∨ in_rect (display_gui_cursor_bounds_at nx ny) x y).
  assert (H0 : ev D (gui d) (set_cursor nx ny (gui d))) by (by apply ev_set_cursor).
  set (g0 := set_cursor nx ny (gui d)) in *. pose proof (ev_ok _ _ _ H0) as Hg0. destruct (Hg0) as (Hw0 & Hf0 & _).
  set (g1 := if dragging g0 then _ else _).
  assert (H1 : ev D (gui d) g1).
  { unfold g1. destruct (dragging g0) eqn:Ed.
    - assert (Hi : 0 ≤ drag_index g0 ∧ in_use g0 (drag_index g0)).
      { unfold dragging in Ed. apply andb_true_iff in Ed as [Ed%Z.leb_le _]. destruct (gw_drag _ _ Hw0) as [E|E]; [rewrite E in Ed; lia|done]. }
      destruct Hi as [Hp Hi]. set (i := drag_index g0) in *. set (w := drag_window fb g0 (win g0 i)).
      pose proof (in_use_range _ _ Hi) as Hr. pose proof (gw_size _ _ Hw0) as Hl.
      assert (Hww : window_wf w) by (apply drag_wf; [done..|]; by apply (gw_windows _ _ Hw0)).
      assert (Hfw : fits w) by (exact (Hf0 i Hi)).
      set (g2 := set_win i w g0). assert (Hwin : win g2 i = w) by (unfold g2; rewrite win_set by lia; by rewrite decide_True).
      assert (H2 : ev (λ x y, covers g0 x y i ∨ covers g2 x y i) g0 g2).
      { apply ev_set_win; try done; [apply wf_keep; done || apply Hi|apply Hi|]. intros x y _.
        destruct (decide (covers g0 x y i)) as [|Hc]; [by left; left|]. destruct (decide (covers g2 x y i)) as [|Hc2]; [by left; right|].
        right. right. split; [done|]. unfold covers in Hc2. by rewrite Hwin in Hc2. }
      assert (H3 : ev (λ x y, D x y ∨ covers g0 x y i ∨ covers g2 x y i) (gui d) g2) by (by eapply ev_trans).
      assert (H4 : ev (λ x y, D x y ∨ covers g2 x y i) (gui d) (display_gui_mark_dirty fb (display_gui_window_bounds (win g0 i)) g2)).
      { eapply ev_mark; [exact H3|apply window_u32; [done|by right|done]|]. intros x y _ [H'|[H'|H']]; [right; by left|by left|right; by right]. }
      set (g3 := display_gui_mark_dirty fb _ g2) in *. assert (Ew : windows g3 = windows g2) by apply mark_dirty_same.
      eapply ev_mark_window; [exact H4| |].
      + apply in_use_mark. apply in_use_set; [done|done|]. rewrite decide_True by done. apply Hi.
      + intros x y _ [H'|H']; [by right|left]. unfold covers, win in *. by rewrite Ew.
    - destruct (0 <=? focused_index g0); [|done]. eapply ev_trans; [exact H0|by apply ev_emit_at|]. by intros x y _ [?|[]]. }
  pose proof (gw_cursor_x _ _ Hw) as Hcx. pose proof (gw_cursor_y _ _ Hw) as Hcy.
  eapply (ev_mark (in_rect (display_gui_cursor_bounds_at nx ny))); [|by apply cursor_u32|by left].
  eapply ev_mark; [exact H1|by apply cursor_u32|]. intros x y _ [?|?]; [by left|by right].
Qed.

Lemma settled_key k ch m p d : settled d → settled (snd (display_gui_handle_key_event k ch m p d)).
Proof using screen_small.
  intros Hs. pose proof Hs as (Hg & Hd & _). unfold display_gui_handle_key_event. destruct (gui_active (gui d)); [|done].
  cbn [negb snd]. case_match; [|done]. apply settled_quiet; [done|by apply ev_emit|]. unfold display_gui_emit_simple_event. by repeat case_match.
Qed.

Lemma settled_poll id owner d : settled d → settled (snd (display_gui_poll_event id owner d)).
Proof using screen_small.
  intros Hs. pose proof Hs as (Hg & Hd & _). destruct (Hg) as (Hw & Hf & _). pose proof (wf_poll fb id owner d Hw) as Hp. revert Hp.
  unfold display_gui_poll_event. cbv zeta. destruct (gui_active (gui d)); [|done]. cbn [negb].
  destruct (display_gui_find_index_by_id id (gui d)) as [i|] eqn:Ei; [|done]. apply find_window_Some in Ei as [Hi Hu].
  apply andb_true_iff in Hu as [Hu _]. destruct (_ =? owner); [|done]. cbn [negb].
  destruct (event_count (win (gui d) i) =? 0); [done|]. cbn [snd]. intros Hp. apply settled_quiet; [done| |done].
  apply ev_looks; try done. intros j Hj. rewrite win_set by (done || apply (gw_size _ _ Hw)). by case_decide; [subst j|]; split_and!.
Qed.

(** ** Taking windows away *)

(** Taking a window away and marking its place moves the debt to the window that
    gets the focus. *)
Lemma ev_take_away i d g0 :
  ok g0 → in_use (gui d) i → ev (focus_area (gui d)) g0 (gui d) →
  let d' := on_gui (display_gui_mark_dirty fb (display_gui_window_bounds (win (gui d) i))) (display_gui_destroy_window_index i d) in
  ev (focus_area (gui d')) g0 (gui d') ∧ scr d' = scr d.
Proof using screen_small.
  intros Hg0 Hi He. pose proof (ev_ok _ _ _ He) as Hg. destruct (Hg) as (Hw & _). cbv zeta. cbn [gui on_gui scr].
  pose proof (ev_destroy_index i d Hg Hi) as Hd. cbv zeta in Hd. pose proof (in_use_range _ _ Hi) as Hr.
  destruct (destroy_fields i d Hw Hi) as (_ & Hwin & _ & Hfo & _ & _ & _ & Es). cbv zeta in *. split; [|exact Es]. clear Es.
  revert Hwin Hfo Hd. generalize (gui (display_gui_destroy_window_index i d)). intros g' Hwin Hfo Hd.
  eapply (ev_mark (λ x y, covers (gui d) x y i ∨ focus_area g' x y)); [|apply window_u32; [done|by right|lia]|].
  - eapply ev_trans; [exact He|exact Hd|]. intros x y _ [[H1 H2]|H]; [|done].
    destruct (decide (focused_index (gui d) = i)) as [E|E]; [left; by rewrite <- E|right]. unfold focus_area, covers. rewrite (Hfo E).
    split; [done|]. by rewrite Hwin.
  - intros x y _ [H|H]; [by left|right]. unfold focus_area, covers in *.
    destruct (mark_dirty_same fb (display_gui_window_bounds (win (gui d) i)) g') as (Ew & _ & Ef & _). unfold win in *. by rewrite Ew, Ef.
Qed.

Lemma settled_destroy id owner d : settled d → settled (snd (display_gui_destroy_window fb id owner d)).
Proof using screen_small.
  intros Hs. pose proof Hs as (Hg & _). unfold display_gui_destroy_window. cbv zeta. destruct (gui_active (gui d)); [|done]. cbn [negb].
  destruct (display_gui_find_index_by_id id (gui d)) as [i|] eqn:Ei; [|done]. apply find_window_Some in Ei as [Hi Hu].
  apply andb_true_iff in Hu as [Hu _]. destruct (_ =? owner); [|done]. cbn [negb snd].
  destruct (ev_take_away i d (gui d) Hg ltac:(done) ltac:(by apply ev_refl)) as [He Es]. cbv zeta in He, Es. revert He Es.
  generalize (on_gui (display_gui_mark_dirty fb (display_gui_window_bounds (win (gui d) i))) (display_gui_destroy_window_index i d)).
  intros d' He Es. apply (settle d); [done|exact Es|]. cbn [gui on_gui].
  apply (ev_mark_cursor no_debt); [|by left]. apply (ev_mark_focused (focus_area (gui d'))); [done|by left].
Qed.

Lemma settled_notify owner d : settled d → settled (display_gui_notify_task_exit fb owner d).
Proof using screen_small.
  intros Hs. pose proof Hs as (Hg & _). unfold display_gui_notify_task_exit. case_match; [done|]. cbv zeta.
  set (d1 := for_range 0 MAX _ d).
  assert (H1 : ev (focus_area (gui d1)) (gui d) (gui d1) ∧ scr d1 = scr d).
  { unfold d1. apply (for_range_ind (λ _ d', ev (focus_area (gui d')) (gui d) (gui d') ∧ scr d' = scr d)); [done|split; [by apply ev_refl|done]|].
    intros i d' Hi [He Es]. destruct (w_used (win (gui d') i)) eqn:Hu; cbn [andb]; [|done]. destruct (_ =? owner); [|done].
    destruct (ev_take_away i d' (gui d) Hg ltac:(done) He) as [H1 H2]. split; [exact H1|]. by rewrite <- Es, <- H2. }
  destruct H1 as [He Es]. apply (settle d); [done|exact Es|]. cbn [gui on_gui].
  apply (ev_mark_focused (focus_area (gui d1))); [done|by left].
Qed.

(** ** New windows *)

Lemma focus_size i g : alen (windows g) = MAX → alen (windows (display_gui_focus_window i g)) = MAX.
Proof using.
  intros Hl. assert (He : ∀ j t g', alen (windows g') = MAX → alen (windows (emit_note j t g')) = MAX).
  { intros j t g' Hl'. unfold emit_note. by rewrite (qo_size g') by (by apply emit_queues). }
  unfold display_gui_focus_window. destruct (_ =? _); [by rewrite raise_windows|].
  set (g4 := if 0 <=? focused_index g then _ else g). assert (L4 : alen (windows g4) = MAX) by (unfold g4; case_match; [by apply He|done]).
  case_match; [|done]. apply He. by rewrite raise_windows.
Qed.

Lemma show_looks i d : alen (windows (gui d)) = MAX → looks (gui d) (gui (show_new_window fb i d)).
Proof using.
  intros Hl. unfold show_new_window. cbv zeta. rewrite flush_gui. cbn [gui].
  set (g1 := display_gui_raise_window i (gui d)). assert (H1 : looks (gui d) g1) by apply looks_eq, raise_windows.
  assert (L1 : alen (windows g1) = MAX) by (unfold g1; by rewrite raise_windows).
  set (g2 := display_gui_focus_window i g1). assert (H2 : looks g1 g2) by (by apply looks_focus).
  set (g3 := if _ : bool then _ else g2).
  assert (H3 : looks g2 g3) by (unfold g3; case_match; apply looks_eq; [apply mark_dirty_same|done]).
  assert (L3 : alen (windows g3) = MAX).
  { transitivity (alen (windows g2)); [unfold g3; case_match; [by rewrite (proj1 (mark_dirty_same fb _ g2))|done]|]. by apply focus_size. }
  eapply looks_trans; [exact H1|]. eapply looks_trans; [exact H2|]. eapply looks_trans; [exact H3|].
  eapply looks_trans; [apply (looks_emit i SYSCALL_GUI_EVENT_PAINT 0 0 0 (buttons g3) SYSCALL_GUI_KEY_NONE 0 0), L3|].
  eapply looks_trans; [apply looks_eq, (mark_dirty_same fb)|]. eapply looks_trans; [apply looks_eq, (mark_dirty_same fb)|]. by apply looks_eq.
Qed.

Lemma settled_show i d0 d :
  settled d0 → scr d = scr d0 → in_use (gui d) i →
  (let g := display_gui_raise_window i (gui d) in ev (λ x y, covers g x y i) (gui d0) g) →
  settled (show_new_window fb i d).
Proof using screen_small.
  intros Hs Es Hi He. unfold show_new_window. cbv zeta in *. set (g1 := display_gui_raise_window i (gui d)) in *.
  pose proof (ev_ok _ _ _ He) as Hg1. destruct (Hg1) as (Hw1 & _). pose proof (in_use_range _ _ Hi) as Hr.
  assert (Hi1 : in_use g1 i) by (apply (in_use_same (gui d)); [apply raise_windows|done]).
  destruct (ev_focus_marked i (focused_index g1) g1 Hg1 Hi1 (gw_focus _ _ Hw1) ltac:(by left)) as [H2 L2].
  set (g2 := if _ : bool then _ else _) in *. pose proof (ev_ok _ _ _ H2) as Hg2.
  apply (settle d0); [done|exact Es|]. cbn [gui]. set (g3 := emit_note i _ g2).
  assert (H3 : ev (λ x y, covers g1 x y i) (gui d0) g3).
  { eapply (ev_trans _ (λ x y, covers g1 x y i) _ _ g1); [exact He| |by intros x y _ []].
    eapply ev_trans; [exact H2|by apply (ev_emit no_debt)|]. by intros x y _ [?|[]]. }
  assert (L3 : looks g1 g3) by (eapply looks_trans; [exact L2|apply looks_emit, (gw_size fb), Hg2]).
  apply (ev_mark_cursor no_debt); [|by left]. eapply ev_mark_window; [exact H3|by apply (looks_in_use g1)|].
  intros x y _ H. left. apply (looks_covers g1 g3); [done|lia|done].
Qed.

(** A window that is not there is cleared. *)
Lemma ev_unused D i n g :
  ok g → 0 ≤ i < MAX → w_used (win g i) = false → next_window_id g ≤ n → ev D g (set_win i window_zero (set_next_id n g)).
Proof using screen_small.
  intros Hg Hr Hu Hn. destruct (Hg) as (Hw & Hf & _). set (g1 := set_next_id n g). pose proof (gw_size _ _ Hw) as Hl.
  assert (Hwin : ∀ j, in_use g j → win (set_win i window_zero g1) j = win g j).
  { intros j Hj. pose proof (in_use_range _ _ Hj). rewrite (win_set i window_zero g1) by (done || lia).
    rewrite decide_False; [done|]. intros ->. destruct Hj. congruence. }
  apply ev_agree; [done|by apply wf_unused| |done|].
  { intros j Hj. assert (Hj' : in_use g j).
    { apply in_use_set in Hj; [|done..]. by case_decide. }
    rewrite Hwin by done. by apply Hf. }
  intros x y Hs. left. split; [| |by left].
  - unfold layers. apply filter_ext_in. intros j Hj%(gw_order _ _ Hw). unfold covers. by rewrite Hwin.
  - intros j Hj. apply list_elem_of_filter in Hj as [_ Hj%(gw_order _ _ Hw)]. rewrite Hwin by done. split; [by split_and!|done].
Qed.

Lemma settled_create ucopy req owner d rc d' :
  copies ucopy → 0 ≤ cr_width req → 0 ≤ cr_height req → 0 ≤ cr_title_len req → settled d → next_window_id (gui d) < 2147483647 →
  display_gui_create_window fb ucopy req owner d = Some (rc, d') → all_fit (gui d') → settled d'.
Proof using screen_small.
  intros Hc Hw Hh Ht Hs Hnx E Hf'. pose proof Hs as (Hg & Hd & Hsc). destruct (Hg) as (Hwf & Hf & Hdo). pose proof (gw_size _ _ Hwf) as Hl.
  destruct (create_cases fb screen_small _ _ _ _ _ _ Hc Hw Hh Ht Hwf Hnx E) as
    [[_ [->|(i & n & Hi & Hu & Hn & Eg & Es)]]|(i & w & h & _ & Hi & Hu & Hww & Huw & Hid & Ho & Hno & ->)]; [done| |].
  - pose proof (ev_unused no_debt i n (gui d) Hg Hi Hu (proj1 Hn)) as He. rewrite <- Eg in He. split_and!; [apply He|by rewrite Eg|].
    intros x y Hxy. rewrite Es, (Hsc x y Hxy). destruct (ev_scene _ _ _ He x y Hxy) as [?|[H|[]]]; [done|].
    unfold dirty_at in H. rewrite Eg in H. cbn [set_win set_next_id dirty] in H. rewrite Hd in H. by apply Exists_nil in H.
  - set (g1 := set_next_id (int_add (next_window_id (gui d)) 1) (gui d)) in *. set (g2 := set_win i w g1) in *.
    assert (Hwin : win g2 i = w) by (unfold g2; rewrite (win_set i w g1) by (done || lia); by rewrite decide_True).
    assert (Hi2 : in_use g2 i) by (apply in_use_set; [done|done|]; by rewrite decide_True).
    assert (Hfw : fits w).
    { rewrite <- Hwin. apply (looks_fit g2 (gui (show_new_window fb i (Desk g2 (scr d) h)))); [|done|done].
      apply (show_looks i (Desk g2 (scr d) h)). cbn. by rewrite alen_aset. }
    apply (settled_show i d); [done|done|done|]. cbv zeta. cbn [gui]. pose proof (raise_added fb i w (gui d) Hwf Hi Hu) as Er.
    fold g1 g2 in Er. rewrite Er. eapply ev_weaken; [apply ev_add; try done; by rewrite Ho|].
    intros x y _ H. unfold covers. change (win (set_z _ g2) i) with (win g2 i). by rewrite Hwin.
Qed.

(** ** The pixels of a window *)

Lemma flush_rows_err ucopy req n row w e w' : copies ucopy → flush_rows ucopy req n row w = Some (Err e, w') → e = KERR_FAULT.
Proof using.
  intros Hc. revert row w. induction n as [|n IH]; intros row w; cbn [flush_rows]; [done|]. cbv zeta.
  destruct (4294967295 <? _); [by intros E; injection E|]. destruct (ucopy _ _) as [[bs|e']|] eqn:Eu; cbn [mbind option_bind]; [| |done].
  - case_match; [done|]. apply IH.
  - intros E. injection E as -> _. by apply Hc in Eu.
Qed.

(** A copy that succeeds stays in its rectangle, and its rectangle in the
    window, although the test of the request wraps around. *)
Lemma flush_rows_done ucopy req n row w w' :
  copies ucopy → 0 ≤ fr_x req → 0 ≤ fr_y req → 0 < fr_w req < two32 → 1 ≤ wwidth w ≤ 640 → 1 ≤ wheight w ≤ 360 →
  alen (pixels w) = wwidth w * wheight w → fr_x req ≤ wwidth w → add32 (fr_x req) (fr_w req) ≤ wwidth w →
  0 ≤ row → fr_y req + row ≤ wheight w →
  flush_rows ucopy req n row w = Some (Ok tt, w') →
  fr_y req + row + Z.of_nat n ≤ wheight w ∧ (0 < Z.of_nat n → fr_x req + fr_w req ≤ wwidth w) ∧
  ∃ px, w' = with_pixels px w ∧ alen px = alen (pixels w) ∧
    ∀ r c, 0 ≤ r → 0 ≤ c < wwidth w → ¬ (fr_y req + row ≤ r ∧ fr_x req ≤ c < fr_x req + fr_w req) ∨ fr_y req + row + Z.of_nat n ≤ r →
      px.[r * wwidth w + c] = (pixels w).[r * wwidth w + c].
Proof using.
  clear screen_small. intros Hc Hx Hy Hfw Hww Hwh Hpx Hxw Hadd. revert row w w' Hww Hwh Hpx Hxw Hadd.
  induction n as [|n IH]; intros row w w' Hww Hwh Hpx Hxw Hadd Hr Hyr; cbn [flush_rows].
  { intros E. injection E as <-. split; [lia|]. split; [lia|]. exists (pixels w). split_and!; [by destruct w|done|done]. }
  cbv zeta. destruct (4294967295 <? _); [done|]. destruct (ucopy _ _) as [[bs|e]|] eqn:Eu; cbn [mbind option_bind]; [|done..].
  apply Hc in Eu. apply words_len in Eu. rewrite !row_start by lia.
  destruct (Z.ltb_spec (alen (pixels w)) ((fr_y req + row) * wwidth w + fr_x req + alen (words_of bs))) as [|Hle]; [done|].
  assert (Hcols : fr_x req + fr_w req ≤ wwidth w ∧ alen (words_of bs) = fr_w req).
  { rewrite Eu in *. unfold add32 in Hadd. unfold mul32, u32, two32 in *.
    destruct (decide (fr_x req + fr_w req < 4294967296)) as [Hs|Hs].
    - rewrite Z.mod_small in Hadd by lia. split; [done|]. rewrite Z.mod_small by lia. apply Z.div_mul. lia.
    - exfalso. assert (Hm : (fr_w req * 4) mod 4294967296 = fr_w req * 4 - 3 * 4294967296).
      { symmetry. apply (Z.mod_unique_pos _ _ 3); lia. }
      rewrite Hm in Hle. pose proof (Z.div_mod (fr_w req * 4 - 3 * 4294967296) 4 ltac:(lia)).
      pose proof (Z.mod_pos_bound (fr_w req * 4 - 3 * 4294967296) 4 ltac:(lia)). nia. }
  destruct Hcols as [Hcols Hlen]. rewrite Hlen in Hle. assert (Hrow : fr_y req + row < wheight w) by nia.
  intros E. set (w1 := with_pixels _ w) in E. set (at_ := (fr_y req + row) * wwidth w + fr_x req) in *.
  assert (Hat : 0 ≤ at_) by (unfold at_; nia).
  assert (Hp1 : alen (pixels w1) = alen (pixels w)) by (cbn; apply alen_overlay; lia).
  destruct (IH (row + 1) w1 w') as (H1 & _ & px & -> & H3 & H4); try done; [by rewrite Hp1|lia|cbn; lia|].
  change (wwidth w1) with (wwidth w) in *. change (wheight w1) with (wheight w) in *.
  split; [lia|]. split; [done|]. exists px. split_and!; [done|by rewrite H3|]. intros r c Hr' Hc' Hout.
  rewrite H4 by (done || lia). cbn [w1 with_pixels pixels]. apply aget_overlay_out; [done|lia|nia|]. rewrite Hlen.
  intros [Ha Hb]. unfold at_ in Ha, Hb. destruct (decide (r = fr_y req + row)) as [->|Hne]; [lia|].
  destruct (decide (r < fr_y req + row)); nia.
Qed.

Lemma settled_flush ucopy req owner d r d' :
  copies ucopy → 0 ≤ fr_w req < two32 → 0 ≤ fr_h req < two32 → settled d → r ≠ Err KERR_FAULT →
  display_gui_flush_window fb ucopy req owner d = Some (r, d') → settled d'.
Proof using screen_small.
  intros Hc Hw Hh Hs Hr. pose proof Hs as (Hg & _). destruct (Hg) as (Hwf & Hf & _). unfold display_gui_flush_window.
  destruct (flush_target req owner (gui d)) as [[i|]|e] eqn:Et; [|by intros E; injection E as <- <-..].
  apply flush_target_Some in Et as (_ & Hi & _ & _ & Hx & Hy & Hw0 & Hh0 & _ & _ & Hax & Hay); [|lia..].
  pose proof (gw_windows _ _ Hwf _ Hi) as [Hww _]. pose proof (gw_size _ _ Hwf) as Hl. pose proof (in_use_range _ _ Hi) as Hir.
  destruct (flush_rows ucopy req _ 0 (win (gui d) i)) as [[[[]|e] w']|] eqn:Er; cbn [mbind option_bind]; [| |done].
  2: { intros E. injection E as <- <-. destruct Hr. f_equal. by eapply flush_rows_err. }
  intros E. injection E as <- <-. set (w := win (gui d) i) in *.
  pose proof (ww_width _ Hww) as Hwd. pose proof (ww_height _ Hww) as Hht. unfold DISPLAY_GUI_MAX_WIDTH, DISPLAY_GUI_MAX_HEIGHT in *.
  destruct (flush_rows_done ucopy req _ 0 w w' Hc ltac:(lia) ltac:(lia) ltac:(lia) Hwd Hht (ww_pixels _ Hww) ltac:(lia) Hax ltac:(lia) ltac:(lia) Er)
    as (Hrows & Hcols & px & -> & Hlen & Hpx). rewrite Z2Nat.id in * by lia. specialize (Hcols Hh0).
  pose proof (Hf i Hi) as Hfi. pose proof (fits_ok w Hww Hfi) as Hok. destruct (window_sizes w Hok) as (_ & _ & El & Ett & _).
  pose proof (ww_x _ Hww). pose proof (ww_y _ Hww).
  assert (El' : client_left (with_pixels px w) = wx w + 1) by exact El. assert (Et' : client_top (with_pixels px w) = wy w + 25) by exact Ett.
  rewrite El', Et', !add32_small by (unfold two32; lia). set (r := Rect (wx w + 1 + fr_x req) (wy w + 25 + fr_y req) (fr_w req) (fr_h req)).
  apply (settle d); [done|done|]. cbn [gui].
  change (ev no_debt (gui d) (display_gui_mark_dirty fb r (set_win i (with_pixels px w) (gui d)))).
  apply (ev_mark (in_rect r)); [|unfold rect_u32, two32; cbn; lia|by left].
  apply ev_set_win; try done; [apply wf_keep; try done; [by apply pixels_wf|apply Hi]|apply Hi|].
  intros x y _. destruct (decide (in_rect r x y)) as [|Hn]; [by left|right; left]. split_and!; try done.
  intros Hin. unfold client_rect, in_rect in Hin. cbn [rx ry rw rh] in Hin. fold w in Hin. rewrite El, Ett in Hin.
  unfold surface_pixel. fold w. rewrite El, Ett, El', Et'. cbn [with_pixels pixels wwidth].
  rewrite Hpx; [done|lia|lia|]. unfold in_rect, r in Hn. cbn [rx ry rw rh] in Hn. lia.
Qed.
End scene.

(** * Runs *)

Section runs.
Context (fb : display_framebuffer_state).

(** A step of a task that copies pixels it can read, between windows that have
    room for their close box and title. *)
Definition fit_step (c : Z) (d d' : desk) : Prop := gui_step fb false c d d' ∧ all_fit (gui d').

Lemma settled_step c d d' :
  1 ≤ fb_width (info fb) ≤ 32768 ∧ 1 ≤ fb_height (info fb) ≤ 32768 → settled fb d → next_window_id (gui d) + c ≤ 2147483647 →
  fit_step c d d' → settled fb d'.
Proof.
  intros Hsz Hs Hn [Hst Hf].
  destruct Hst as [uc req owner d r d' Hc [? ? ?] E|uc req owner d r d' Hc [? ?] [?|Hr] E|id owner d|id owner d|owner d|k ch m p d|dx dy d|btns d]; [|done|..].
  - eapply (settled_create fb Hsz uc req owner d r d'); done || lia.
  - by eapply (settled_flush fb Hsz uc req owner d r d').
  - by apply settled_poll.
  - by apply settled_destroy.
  - by apply settled_notify.
  - by apply settled_key.
  - by apply settled_motion.
  - by apply settled_buttons.
Qed.

Lemma fit_faults c d d' : fit_step c d d' → gui_step fb true c d d'.
Proof. intros [[] _]; [by eapply step_create|by eapply step_flush; [..|left|]|constructor..]. Qed.

Lemma fit_nonneg n d d' : counted fit_step n d d' → 0 ≤ n.
Proof. induction 1 as [|c n d d1 d2 [Hs _] _ IH]; [done|]. assert (0 ≤ c) by (by destruct Hs). lia. Qed.

Lemma settled_run n d d' :
  1 ≤ fb_width (info fb) ≤ 32768 ∧ 1 ≤ fb_height (info fb) ≤ 32768 → counted fit_step n d d' → settled fb d →
  next_window_id (gui d) + n ≤ 2147483647 → settled fb d'.
Proof.
  intros Hsz Hr. induction Hr as [|c n d d1 d2 Hs Hr IH]; [done|]. intros Hd Hn. pose proof (fit_nonneg _ _ _ Hr).
  destruct (gui_step_kept fb c d d1 Hsz (fit_faults _ _ _ Hs)) as (_ & _ & Hn1); [apply Hd|lia|].
  apply IH; [by apply (settled_step c d d1); [| |lia|]|lia].
Qed.

Lemma settled_enable d :
  1 ≤ fb_width (info fb) ≤ 32768 ∧ 1 ≤ fb_height (info fb) ≤ 32768 → 3 ≤ bytes_per_pixel fb →
  settled fb (display_gui_enable fb true d).
Proof.
  intros Hsz Hb. pose proof (wf_enable fb Hsz d Hb) as Hw. unfold display_gui_enable in *.
  rewrite (proj2 (Z.ltb_ge _ 3)) in * by done. cbn [negb] in *. unfold display_gui_redraw in *. cbn [gui gui_active negb] in *.
  set (g := Gui _ _ _ _ _ _ _ _ _ _ _ _ _ _) in *.
  assert (Hu : ∀ i, ¬ in_use g i).
  { intros i [Hi H]. unfold win, g in H. cbn [windows] in H. by rewrite fresh_window in H by lia. }
  assert (Hf : all_fit g) by (intros i Hi; by destruct (Hu i)).
  split_and!; [split_and!; [done|done|split; [constructor|done]]|done|]. intros x y Hs. cbn [scr gui].
  destruct (wf_drawable fb Hsz g Hw Hf) as (H1 & H2 & H3 & H4). by apply (scene_any fb Hsz g None None).
Qed.

(** C13: the screen shows the windows as they are.  Whatever tasks create, fill
    and destroy windows and whatever the mouse and the keys do, after every
    operation each pixel of the screen has the value that redrawing everything
    would give it, whatever the screen showed before, and nothing is left
    marked for redrawing; although each operation redraws only the rectangles
    it has marked.  The runs are those that ask for fewer than 2^31 - 1 windows, in
    which no copy of pixels faults or leaves its window's surface, and in which
    after each operation every window in use has room for its title and its
    close box; outside them the screen can be stale. *)
Theorem gui_screen_current d0 n d :
  1 ≤ fb_width (info fb) ≤ 32768 → 1 ≤ fb_height (info fb) ≤ 32768 → 3 ≤ bytes_per_pixel fb →
  counted fit_step n (display_gui_enable fb true d0) d → n < 2147483647 →
  dirty (gui d) = [] ∧
  ∀ x y s, 0 ≤ x < fb_width (info fb) → 0 ≤ y < fb_height (info fb) →
    scr d x y = display_gui_draw_scene fb (gui d) None s x y.
Proof.
  intros Hw Hh Hb Hr Hn. assert (Hs : settled fb d).
  { apply (settled_run n (display_gui_enable fb true d0) d (conj Hw Hh)); [done|by apply settled_enable|].
    rewrite next_enable by done. lia. }
  destruct Hs as ((Hwf & Hf & _) & Hd & Hs). split; [done|]. intros x y s Hx Hy. rewrite Hs by done.
  destruct (wf_drawable fb (conj Hw Hh) _ Hwf Hf) as (H1 & H2 & H3 & H4). by apply (scene_any fb (conj Hw Hh) _ None None).
Qed.
End runs.

(** The white tip of the cursor, where the mouse has moved it. *)
Lemma demo_tip : scr demo_moved 30 40 = stored demo_screen (display_framebuffer_pack_rgb demo_screen 248 252 255).
Proof. vm_compute. reflexivity. Qed.

Definition fits_all (g : display_gui_state) : bool :=
  forallb (λ i, negb (w_used (win g i)) || (24 <=? wwidth (win g i)) && (14 * alen (cstr (title (win g i))) + 2 <=? wwidth (win g i)))
    (seqZ 0 MAX).

Lemma fits_all_spec g : fits_all g = true → all_fit g.
Proof.
  unfold fits_all. rewrite forallb_forall. intros H i [Hi Hu].
  specialize (H i ltac:(apply list_elem_of_In, elem_of_seqZ; lia)). rewrite Hu in H. cbn [negb orb] in H.
  apply andb_true_iff in H as [H1%Z.leb_le H2%Z.leb_le]. by split.
Qed.

Lemma demo_fits : fits_all (gui demo_window) = true ∧ fits_all (gui demo_moved) = true.
Proof. split; vm_compute; reflexivity. Qed.

#[local] Opaque demo_moved demo_window demo_enabled display_gui_enable display_gui_draw_scene fits_all.

Lemma demo_run : counted (fit_step demo_screen) 1 demo_enabled demo_moved.
Proof.
  apply (counted_step _ 1 0 _ demo_window); [exact (conj (demo_create_step false) (fits_all_spec _ (proj1 demo_fits)))|].
  apply (counted_step _ 0 0 _ demo_moved); [exact (conj (demo_moved_step false) (fits_all_spec _ (proj2 demo_fits)))|constructor].
Qed.

Lemma demo_tip_on : on_screen demo_screen 30 40.
Proof. split; cbn; lia. Qed.

Lemma gui_screen_current_witness :
  dirty (gui demo_moved) = [] ∧
  display_gui_draw_scene demo_screen (gui demo_moved) None (λ _ _, 77) 30 40 =
    stored demo_screen (display_framebuffer_pack_rgb demo_screen 248 252 255).
Proof.
  destruct (gui_screen_current demo_screen (Desk gui_zero (λ _ _, 0) (kmalloc_init 1048576 1048576)) 1 demo_moved) as [Hd Hs];
    [by vm_compute|by vm_compute|by vm_compute|exact demo_run|done|].
  split; [exact Hd|]. exact (eq_trans (eq_sym (Hs 30 40 (λ _ _, 77) (proj1 demo_tip_on) (proj2 demo_tip_on))) demo_tip).
Defined.
