(* ===== verification/User.v ===== *)
(** kernel/usermode.c: the first programs and the programs they start.

    A program runs in a kernel task that loads it and then enters user mode for
    good; the name, the command line and the place of the stack are handed over
    in one of three child slots.  [usermode] holds the variables of usermode.c.
    The entry functions of tasks are numbered here, a configuration or a slot is
    pointed to by its place, from 1 (0 is the null pointer). *)

From S2P Require Import Prelude Bytes Ring Keyboard Console Framebuffer Gui Pmm Kmalloc VfsNode KFile Vfs KPipe ProcFd Paging UserMem.
From S2P Require Import Sched Elf CmdLine StartStack.

(** * Configurations and slots *)

Definition USERMODE_CMDLINE_MAX : Z := 128.
Definition SYSCALL_SPAWN_FLAG_INHERIT_FDS : Z := 1.

(** kernel/memory_layout.h *)
Definition USER_DEMO_CODE_BASE : Z := 20971520.
Definition USER_DEMO_STACK_BASE : Z := 20975616.
Definition USER_FAULT_STACK_BASE : Z := 20979712.
Definition USER_FAULT_BAD_EIP : Z := 33558528.

Record usermode_elf_demo_cfg := ElfCfg {
  cfg_path : list Z;
  cfg_image_base : Z;
  cfg_image_size : Z;
  cfg_stack_base : Z;
  cfg_stack_size : Z
}.

(** /bin/hello.elf, /bin/hello2.elf, /bin/sh.elf, /bin/gui_session.elf *)
Definition g_user_elf_demo_a_cfg : usermode_elf_demo_cfg :=
  ElfCfg [47; 98; 105; 110; 47; 104; 101; 108; 108; 111; 46; 101; 108; 102] 21037056 65536 21102592 4096.
Definition g_user_elf_demo_b_cfg : usermode_elf_demo_cfg :=
  ElfCfg [47; 98; 105; 110; 47; 104; 101; 108; 108; 111; 50; 46; 101; 108; 102] 21110784 65536 21176320 4096.
Definition g_user_shell_cfg : usermode_elf_demo_cfg :=
  ElfCfg [47; 98; 105; 110; 47; 115; 104; 46; 101; 108; 102] 21323776 65536 21389312 4096.
Definition g_user_gui_session_cfg : usermode_elf_demo_cfg :=
  ElfCfg [47; 98; 105; 110; 47; 103; 117; 105; 95; 115; 101; 115; 115; 105; 111; 110; 46; 101; 108; 102]
    22368256 65536 22433792 4096.

(** By place: 1, 2, 3 and 4. *)
Definition cfg_at (arg : Z) : option usermode_elf_demo_cfg :=
  if arg =? 0 then None
  else [g_user_elf_demo_a_cfg; g_user_elf_demo_b_cfg; g_user_shell_cfg; g_user_gui_session_cfg] !! Z.to_nat (arg - 1).

Definition child_slot_init (task_name : list Z) (stack_base : Z) : usermode_child_slot :=
  ChildSlot (replicate 64 0) (replicate 128 0) task_name 0 0 stack_base 4096 0 (-1) false.

#[export] Instance child_slot_inhabited : Inhabited usermode_child_slot := populate (child_slot_init [] 0).

(** "user-spawn-c", "user-spawn-d", "user-cat" *)
Definition g_user_child_slot2 := child_slot_init [117; 115; 101; 114; 45; 115; 112; 97; 119; 110; 45; 99] 21250048.
Definition g_user_child_slot3 := child_slot_init [117; 115; 101; 114; 45; 115; 112; 97; 119; 110; 45; 100] 21319680.
Definition g_user_child_slot5 := child_slot_init [117; 115; 101; 114; 45; 99; 97; 116] 21458944.

Definition USERMODE_CHILD_SLOT_COUNT : Z := 3.

Record usermode := Usermode {
  g_user_demo_spawned : bool;
  g_user_demo_pages_prepared : bool;
  g_user_fault_spawned : bool;
  g_user_fault_stack_prepared : bool;
  g_user_elf_demo_a_spawned : bool;
  g_user_elf_demo_b_spawned : bool;
  g_user_shell_spawned : bool;
  g_user_shell_pid : Z;
  g_user_gui_session_spawned : bool;
  g_user_gui_session_pid : Z;
  g_user_child_slots : list usermode_child_slot
}.

Definition usermode_zero : usermode :=
  Usermode false false false false false false false (-1) false (-1)
    [g_user_child_slot2; g_user_child_slot3; g_user_child_slot5].

Definition set_demo_spawned (b : bool) (u : usermode) : usermode :=
  Usermode b (g_user_demo_pages_prepared u) (g_user_fault_spawned u) (g_user_fault_stack_prepared u)
    (g_user_elf_demo_a_spawned u) (g_user_elf_demo_b_spawned u) (g_user_shell_spawned u) (g_user_shell_pid u)
    (g_user_gui_session_spawned u) (g_user_gui_session_pid u) (g_user_child_slots u).
Definition set_demo_prepared (b : bool) (u : usermode) : usermode :=
  Usermode (g_user_demo_spawned u) b (g_user_fault_spawned u) (g_user_fault_stack_prepared u)
    (g_user_elf_demo_a_spawned u) (g_user_elf_demo_b_spawned u) (g_user_shell_spawned u) (g_user_shell_pid u)
    (g_user_gui_session_spawned u) (g_user_gui_session_pid u) (g_user_child_slots u).
Definition set_fault_spawned (b : bool) (u : usermode) : usermode :=
  Usermode (g_user_demo_spawned u) (g_user_demo_pages_prepared u) b (g_user_fault_stack_prepared u)
    (g_user_elf_demo_a_spawned u) (g_user_elf_demo_b_spawned u) (g_user_shell_spawned u) (g_user_shell_pid u)
    (g_user_gui_session_spawned u) (g_user_gui_session_pid u) (g_user_child_slots u).
Definition set_fault_prepared (b : bool) (u : usermode) : usermode :=
  Usermode (g_user_demo_spawned u) (g_user_demo_pages_prepared u) (g_user_fault_spawned u) b
    (g_user_elf_demo_a_spawned u) (g_user_elf_demo_b_spawned u) (g_user_shell_spawned u) (g_user_shell_pid u)
    (g_user_gui_session_spawned u) (g_user_gui_session_pid u) (g_user_child_slots u).
Definition set_elf_a_spawned (b : bool) (u : usermode) : usermode :=
  Usermode (g_user_demo_spawned u) (g_user_demo_pages_prepared u) (g_user_fault_spawned u)
    (g_user_fault_stack_prepared u) b (g_user_elf_demo_b_spawned u) (g_user_shell_spawned u) (g_user_shell_pid u)
    (g_user_gui_session_spawned u) (g_user_gui_session_pid u) (g_user_child_slots u).
Definition set_elf_b_spawned (b : bool) (u : usermode) : usermode :=
  Usermode (g_user_demo_spawned u) (g_user_demo_pages_prepared u) (g_user_fault_spawned u)
    (g_user_fault_stack_prepared u) (g_user_elf_demo_a_spawned u) b (g_user_shell_spawned u) (g_user_shell_pid u)
    (g_user_gui_session_spawned u) (g_user_gui_session_pid u) (g_user_child_slots u).
Definition set_shell (b : bool) (pid : Z) (u : usermode) : usermode :=
  Usermode (g_user_demo_spawned u) (g_user_demo_pages_prepared u) (g_user_fault_spawned u)
    (g_user_fault_stack_prepared u) (g_user_elf_demo_a_spawned u) (g_user_elf_demo_b_spawned u) b pid
    (g_user_gui_session_spawned u) (g_user_gui_session_pid u) (g_user_child_slots u).
Definition set_gui_session (b : bool) (pid : Z) (u : usermode) : usermode :=
  Usermode (g_user_demo_spawned u) (g_user_demo_pages_prepared u) (g_user_fault_spawned u)
    (g_user_fault_stack_prepared u) (g_user_elf_demo_a_spawned u) (g_user_elf_demo_b_spawned u)
    (g_user_shell_spawned u) (g_user_shell_pid u) b pid (g_user_child_slots u).
Definition set_child_slots (l : list usermode_child_slot) (u : usermode) : usermode :=
  Usermode (g_user_demo_spawned u) (g_user_demo_pages_prepared u) (g_user_fault_spawned u)
    (g_user_fault_stack_prepared u) (g_user_elf_demo_a_spawned u) (g_user_elf_demo_b_spawned u)
    (g_user_shell_spawned u) (g_user_shell_pid u) (g_user_gui_session_spawned u) (g_user_gui_session_pid u) l.

(** The slot in place [i]. *)
Definition child_slot (i : Z) (u : usermode) : usermode_child_slot := (g_user_child_slots u).[i].
Definition on_slot (i : Z) (f : usermode_child_slot → usermode_child_slot) (u : usermode) : usermode :=
  set_child_slots (g_user_child_slots u).[i <- f (child_slot i u)] u.

Definition set_slot_path (p : list Z) (sl : usermode_child_slot) : usermode_child_slot :=
  ChildSlot p (cs_cmdline sl) (cs_task_name sl) (cs_image_base sl) (cs_image_size sl) (cs_stack_base sl)
    (cs_stack_size sl) (cs_cmdline_len sl) (cs_owner_pid sl) (cs_used sl).
Definition set_slot_owner (pid : Z) (sl : usermode_child_slot) : usermode_child_slot :=
  ChildSlot (cs_path sl) (cs_cmdline sl) (cs_task_name sl) (cs_image_base sl) (cs_image_size sl) (cs_stack_base sl)
    (cs_stack_size sl) (cs_cmdline_len sl) pid (cs_used sl).

(** From [slot->cmdline[0] = 0] to [slot->used = 1]; [None] is a null
    [cmdline]. *)
Definition fill_slot (cmdline : option (list Z)) (cmdline_len image_base image_size : Z) (sl : usermode_child_slot)
    : usermode_child_slot :=
  let buf := (cs_cmdline sl).[0 <- NUL] in
  let buf := if cmdline_len =? 0 then buf else overlay buf 0 (slice (default [] cmdline) 0 cmdline_len) in
  ChildSlot (cs_path sl) buf.[cmdline_len <- NUL] (cs_task_name sl) image_base image_size (cs_stack_base sl)
    (cs_stack_size sl) cmdline_len (-1) true.

(** What is written to a slot that is given back. *)
Definition release_slot (sl : usermode_child_slot) : usermode_child_slot :=
  ChildSlot (cs_path sl).[0 <- NUL] (cs_cmdline sl).[0 <- NUL] (cs_task_name sl) 0 0 (cs_stack_base sl)
    (cs_stack_size sl) 0 (-1) false.

Definition usermode_child_slot_acquire (image_base image_size : Z) (u : usermode) : option Z :=
  search_range 0 USERMODE_CHILD_SLOT_COUNT (λ i,
    let sl := child_slot i u in
    if cs_used sl then None
    else if (image_base <? add32 (cs_stack_base sl) (cs_stack_size sl)) && (cs_stack_base sl <? add32 image_base image_size)
    then None else Some i).

Definition usermode_child_slot_by_owner_pid (pid : Z) (u : usermode) : option Z :=
  search_range 0 USERMODE_CHILD_SLOT_COUNT (λ i,
    if cs_used (child_slot i u) && (cs_owner_pid (child_slot i u) =? pid) then Some i else None).

(** The loop of [usermode_copy_cstr], from index [i] on with [n] rounds left;
    [src] is the rest of the string. *)
Fixpoint copy_cstr_loop (n : nat) (i : Z) (dst src : list Z) : bool * list Z :=
  match n with
  | O => (false, dst)
  | S n' =>
      let c := cget src 0 in
      let dst := dst.[i <- c] in
      if c =? NUL then (true, dst) else copy_cstr_loop n' (i + 1) dst (drop 1 src)
  end.

Definition usermode_copy_cstr (dst : list Z) (dst_cap : Z) (src : list Z) : res unit * list Z :=
  if dst_cap =? 0 then (Err KERR_INVAL, dst)
  else
    match copy_cstr_loop (Z.to_nat (dst_cap - 1)) 0 dst src with
    | (true, dst) => (Ok tt, dst)
    | (false, dst) => (Err KERR_INVAL, dst.[dst_cap - 1 <- NUL])
    end.

(** * What usermode.c shares its state with *)

(** The variables of usermode.c, the console with the window system as its
    display, and the frame buffer, in the state of everything but tasks and
    memory. *)
Class KernelParts (σ : Type) := {
  usermode_of : σ → usermode;
  set_usermode : usermode → σ → σ;
  console_of : σ → console desk;
  set_console : console desk → σ → σ;
  g_display_fb : σ → display_framebuffer_state
}.

Section hooks.
Context {σ : Type} `{!KernelParts σ}.

Definition on_usermode (f : usermode → usermode) (fs : σ) : σ := set_usermode (f (usermode_of fs)) fs.
Definition desk_of (fs : σ) : desk := display (console_of fs).
Definition set_desk (d : desk) (fs : σ) : σ := set_console (set_display d (console_of fs)) fs.

Definition usermode_notify_task_reaped (pid : Z) (fs : σ) : σ :=
  let u := usermode_of fs in
  if pid <=? 0 then fs
  else if pid =? g_user_shell_pid u then
    let fs := on_usermode (set_shell false (-1)) fs in
    set_console (vfs_console_set_input_owner_kernel (console_of fs)) fs
  else if pid =? g_user_gui_session_pid u then on_usermode (set_gui_session false (-1)) fs
  else
    match usermode_child_slot_by_owner_pid pid u with
    | None => fs
    | Some i => if negb (cs_used (child_slot i u)) then fs else on_usermode (on_slot i release_slot) fs
    end.

(** Whom [sched_reap_task_locked] and [sched_exit_current] tell. *)
#[export] Instance kernel_hooks : TaskHooks σ := {
  Sched.display_gui_notify_task_exit pid fs := set_desk (Gui.display_gui_notify_task_exit (g_display_fb fs) pid (desk_of fs)) fs;
  Sched.usermode_notify_task_reaped := usermode_notify_task_reaped
}.
End hooks.

(** * Entry functions *)

Definition usermode_demo_entry : sched_task_entry := task_entry_at 1.
Definition usermode_fault_entry : sched_task_entry := task_entry_at 2.
Definition usermode_elf_demo_entry : sched_task_entry := task_entry_at 3.
Definition usermode_child_slot_entry : sched_task_entry := task_entry_at 4.

(** [enter_user_mode], which does not come back, or a return to the trampoline,
    which exits the task. *)
Inductive task_end := EnterUser (eip esp : Z) | TaskReturns.

Section tasks.
Context {σ : Type} `{!NodeOps σ, !FileOps σ, !KernelParts σ}.
Context (wp : bool) (user_demo_blob : list Z).
Implicit Types (s : sched σ).

Definition on_files (f : σ → σ) s : sched σ := with_files (f (files s)) s.

(** [KASSERT(rc == 0)]: a panic otherwise. *)
Definition kassert (p : res unit * sched σ) : option (sched σ) :=
  match p with (Ok _, s) => Some s | (Err _, _) => None end.

(** [paging_mark_user_region] whose failure stops the machine. *)
Definition mark_or_halt (base size : Z) s : option (sched σ) :=
  match paging_mark_user_region base size (mem s) with
  | (Ok _, m) => Some (with_mem m s)
  | (Err _, _) => None
  end.

Definition usermode_prepare_user_rw_page (base size : Z) s : option (sched σ) :=
  m ← memset wp base 0 (Z.to_nat size) (mem s);
  mark_or_halt base size (with_mem m s).

Definition usermode_demo_prepare_pages s : option (sched σ) :=
  if g_user_demo_pages_prepared (usermode_of (files s)) then Some s
  else if PAGE_SIZE_BYTES <? alen user_demo_blob then None
  else
    m ← memset wp USER_DEMO_CODE_BASE 144 (Z.to_nat PAGE_SIZE_BYTES) (mem s);
    m ← memcpy_to wp USER_DEMO_CODE_BASE user_demo_blob m;
    m ← memset wp USER_DEMO_STACK_BASE 0 (Z.to_nat PAGE_SIZE_BYTES) m;
    s ← mark_or_halt USER_DEMO_CODE_BASE PAGE_SIZE_BYTES (with_mem m s);
    s ← mark_or_halt USER_DEMO_STACK_BASE PAGE_SIZE_BYTES s;
    Some (on_files (on_usermode (set_demo_prepared true)) s).

Definition usermode_fault_prepare_pages s : option (sched σ) :=
  if g_user_fault_stack_prepared (usermode_of (files s)) then Some s
  else
    s ← usermode_prepare_user_rw_page USER_FAULT_STACK_BASE PAGE_SIZE_BYTES s;
    Some (on_files (on_usermode (set_fault_prepared true)) s).

Definition usermode_demo_task s : option (task_end * sched σ) :=
  s ← usermode_demo_prepare_pages s;
  s ← kassert (sched_set_current_user_layout USER_DEMO_CODE_BASE PAGE_SIZE_BYTES USER_DEMO_STACK_BASE PAGE_SIZE_BYTES s);
  s ← kassert (sched_mark_current_task_user_bootstrap USER_DEMO_CODE_BASE (USER_DEMO_STACK_BASE + PAGE_SIZE_BYTES) s);
  Some (EnterUser USER_DEMO_CODE_BASE (USER_DEMO_STACK_BASE + PAGE_SIZE_BYTES), s).

Definition usermode_fault_task s : option (task_end * sched σ) :=
  s ← usermode_fault_prepare_pages s;
  s ← kassert (sched_set_current_user_layout 0 0 USER_FAULT_STACK_BASE PAGE_SIZE_BYTES s);
  s ← kassert (sched_mark_current_task_user_bootstrap USER_FAULT_BAD_EIP (USER_FAULT_STACK_BASE + PAGE_SIZE_BYTES) s);
  Some (EnterUser USER_FAULT_BAD_EIP (USER_FAULT_STACK_BASE + PAGE_SIZE_BYTES), s).

(** The loader on the scheduler's memory and files. *)
Definition loading {A} (f : kernel σ → option (A * kernel σ)) s : option (A * sched σ) :=
  '(a, k) ← f (Kernel (mem s) (files s)); Some (a, with_mem (k_mem k) (with_files (k_files k) s)).

Definition usermode_elf_demo_task (arg : Z) s : option (task_end * sched σ) :=
  match cfg_at arg with
  | None => Some (TaskReturns, s)
  | Some cfg =>
      '(r, s) ← loading (elf32_load_user_static_path wp (cfg_path cfg) (cfg_image_base cfg) (cfg_image_size cfg)
                           (cfg_stack_base cfg) (cfg_stack_size cfg)) s;
      match r with
      | Err _ => Some (TaskReturns, s)
      | Ok image =>
          s ← kassert (sched_set_current_user_layout (im_image_base image) (im_image_size image)
                         (cfg_stack_base cfg) (cfg_stack_size cfg) s);
          s ← (if arg =? 3 then
                 match vfs_console_set_input_owner_task (sched_current_task_pid s) (console_of (files s)) with
                 | (Ok _, c) => Some (on_files (set_console c) s)
                 | (Err _, _) => None
                 end
               else Some s);
          s ← kassert (sched_mark_current_task_user_bootstrap (im_entry_eip image) (im_stack_top image) s);
          Some (EnterUser (im_entry_eip image) (im_stack_top image), s)
      end
  end.

Definition usermode_child_slot_task (arg : Z) s : option (task_end * sched σ) :=
  if arg =? 0 then Some (TaskReturns, s)
  else
    let slot s := child_slot (arg - 1) (usermode_of (files s)) in
    '(r, s) ← loading (elf32_load_user_static_path_auto wp (cs_path (slot s)) (cs_stack_base (slot s)) (cs_stack_size (slot s))) s;
    match r with
    | Err _ => Some (TaskReturns, s)
    | Ok image =>
        s ← kassert (sched_set_current_user_layout (im_image_base image) (im_image_size image)
                       (cs_stack_base (slot s)) (cs_stack_size (slot s)) s);
        s ← kassert (sched_set_current_task_cmdline (Some (cs_cmdline (slot s))) (cs_cmdline_len (slot s)) s);
        '(r, m) ← usermode_prepare_child_start_stack wp (slot s) (im_stack_top image) (mem s);
        let s := with_mem m s in
        match r with
        | Err _ => Some (TaskReturns, s)
        | Ok entry_esp =>
            s ← kassert (sched_mark_current_task_user_bootstrap (im_entry_eip image) entry_esp s);
            Some (EnterUser (im_entry_eip image) entry_esp, s)
        end
    end.

(** [sched_task_trampoline] on the entry functions of this file. *)
Definition run_entry (e : sched_task_entry) (arg : Z) s : option (task_end * sched σ) :=
  if decide (e = usermode_demo_entry) then usermode_demo_task s
  else if decide (e = usermode_fault_entry) then usermode_fault_task s
  else if decide (e = usermode_elf_demo_entry) then usermode_elf_demo_task arg s
  else if decide (e = usermode_child_slot_entry) then usermode_child_slot_task arg s
  else None.

(** * Spawning *)

(** A task of this file, spawned at most once at a time. *)
Definition spawn_once (spawned : usermode → bool) (set : Z → usermode → usermode) (name : list Z)
    (entry : sched_task_entry) (arg : Z) s : res unit * sched σ :=
  if spawned (usermode_of (files s)) then (Err KERR_NOTSUP, s)
  else
    match sched_spawn_kernel_task (Some name) (Some entry) arg 0 s with
    | (Err e, s) => (Err e, s)
    | (Ok pid, s) => (Ok tt, on_files (on_usermode (set pid)) s)
    end.

(** "user-demo", "user-fault", "user-elf-a", "user-elf-b", "user-shell",
    "gui-session" *)
Definition usermode_spawn_demo_task s : res unit * sched σ :=
  spawn_once g_user_demo_spawned (λ _, set_demo_spawned true) [117; 115; 101; 114; 45; 100; 101; 109; 111]
    usermode_demo_entry 0 s.
Definition usermode_spawn_fault_task s : res unit * sched σ :=
  spawn_once g_user_fault_spawned (λ _, set_fault_spawned true) [117; 115; 101; 114; 45; 102; 97; 117; 108; 116]
    usermode_fault_entry 0 s.
Definition usermode_spawn_elf_demo_task_a s : res unit * sched σ :=
  spawn_once g_user_elf_demo_a_spawned (λ _, set_elf_a_spawned true) [117; 115; 101; 114; 45; 101; 108; 102; 45; 97]
    usermode_elf_demo_entry 1 s.
Definition usermode_spawn_elf_demo_task_b s : res unit * sched σ :=
  spawn_once g_user_elf_demo_b_spawned (λ _, set_elf_b_spawned true) [117; 115; 101; 114; 45; 101; 108; 102; 45; 98]
    usermode_elf_demo_entry 2 s.
Definition usermode_spawn_shell_task s : res unit * sched σ :=
  spawn_once g_user_shell_spawned (set_shell true) [117; 115; 101; 114; 45; 115; 104; 101; 108; 108]
    usermode_elf_demo_entry 3 s.
Definition usermode_spawn_gui_session_task s : res unit * sched σ :=
  spawn_once g_user_gui_session_spawned (set_gui_session true)
    [103; 117; 105; 45; 115; 101; 115; 115; 105; 111; 110] usermode_elf_demo_entry 4 s.

(** From [slot->used = 1] on, the slot [i] being filled. *)
Definition spawn_into_slot (i spawn_flags : Z) s : res Z * sched σ :=
  match sched_spawn_user_child_task (Some (cs_task_name (child_slot i (usermode_of (files s)))))
          (Some usermode_child_slot_entry) (i + 1) 0
          (negb (Z.land spawn_flags SYSCALL_SPAWN_FLAG_INHERIT_FDS =? 0)) s with
  | (Err e, s) => (Err e, on_files (on_usermode (on_slot i release_slot)) s)
  | (Ok child_pid, s) => (Ok child_pid, on_files (on_usermode (on_slot i (set_slot_owner child_pid))) s)
  end.

(** [cmdline] is [None] for a null pointer. *)
Definition usermode_spawn_path_task_ex (path : list Z) (cmdline : option (list Z)) (cmdline_len spawn_flags : Z) s
    : option (res Z * sched σ) :=
  if negb (cget path 0 =? SLASH) then Some (Err KERR_INVAL, s)
  else if bool_decide (cmdline = None) && negb (cmdline_len =? 0) then Some (Err KERR_INVAL, s)
  else if USERMODE_CMDLINE_MAX <=? cmdline_len then Some (Err KERR_INVAL, s)
  else
    '(r, s) ← loading (elf32_inspect_user_static_path wp path) s;
    match r with
    | Err e => Some (Err e, s)
    | Ok layout =>
        if negb (sched_user_image_range_available (Elf.image_base layout) (Elf.image_size layout) s)
        then Some (Err KERR_NOTSUP, s)
        else
          match usermode_child_slot_acquire (Elf.image_base layout) (Elf.image_size layout) (usermode_of (files s)) with
          | None => Some (Err KERR_NOTSUP, s)
          | Some i =>
              let '(r, p) := usermode_copy_cstr (cs_path (child_slot i (usermode_of (files s)))) USERMODE_SPAWN_PATH_MAX path in
              let s := on_files (on_usermode (on_slot i (set_slot_path p))) s in
              match r with
              | Err e => Some (Err e, s)
              | Ok _ =>
                  Some (spawn_into_slot i spawn_flags
                    (on_files (on_usermode (on_slot i
                       (fill_slot cmdline cmdline_len (Elf.image_base layout) (Elf.image_size layout)))) s))
              end
          end
    end.

Definition usermode_spawn_path_task (path : list Z) s : option (res Z * sched σ) :=
  usermode_spawn_path_task_ex path None 0 0 s.
End tasks.
