(* ===== verification/Syscall.v ===== *)
(** kernel/syscall.c: system calls.

    A handler takes the registers of the caller and gives what goes back in eax.
    A pointer to an open file is the descriptor in whose slot the file is; a
    buffer of user memory is read when the call is made and written when it
    returns.  A call that switches to another task gives the state in which that
    task runs; waitpid then goes on with another round when its task runs again
    ([Waits]).  [stack] gives what stands behind the names in the array of
    directory entries: what the kernel stack held there, or the disk's bytes. *)

From S2P Require Import Prelude Bytes Ring Keyboard Console Framebuffer Gui Pmm Kmalloc VfsNode KFile Vfs KPipe ProcFd Paging.
From S2P Require Import UserMem Sched Elf SysPath CmdLine StartStack User.

Definition SYSCALL_SPAWN_PATH_MAX : Z := 64.
Definition SYSCALL_CMDLINE_MAX : Z := 128.
Definition SYSCALL_OPEN_PATH_MAX : Z := 96.
Definition SYSCALL_UNLINK_PATH_MAX : Z := 96.
Definition SYSCALL_TASK_SNAPSHOT_MAX : Z := 16.
Definition SYSCALL_LIST_DIR_PATH_MAX : Z := 96.
Definition SYSCALL_LIST_DIR_MAX : Z := 16.
Definition SYSCALL_CWD_MAX : Z := 96.

Definition SYSCALL_FD_STDIN : Z := 0.
Definition SYSCALL_FD_STDOUT : Z := 1.
Definition SYSCALL_FD_STDERR : Z := 2.

Definition SYSCALL_SPAWN_FLAG_FOREGROUND : Z := 2.

Definition SYS_WRITE : Z := 1.
Definition SYS_YIELD : Z := 2.
Definition SYS_EXIT : Z := 3.
Definition SYS_TIME : Z := 4.
Definition SYS_READ : Z := 5.
Definition SYS_SPAWN : Z := 6.
Definition SYS_OPEN : Z := 7.
Definition SYS_CLOSE : Z := 8.
Definition SYS_WAITPID : Z := 9.
Definition SYS_SPAWN_EX : Z := 10.
Definition SYS_GETCMDLINE : Z := 11.
Definition SYS_TASK_SNAPSHOT : Z := 12.
Definition SYS_SLEEP : Z := 13.
Definition SYS_TIME_INFO : Z := 14.
Definition SYS_LIST_DIR : Z := 15.
Definition SYS_CHDIR : Z := 16.
Definition SYS_GETCWD : Z := 17.
Definition SYS_PIPE : Z := 18.
Definition SYS_DUP : Z := 19.
Definition SYS_DUP2 : Z := 20.
Definition SYS_UNLINK : Z := 21.
Definition SYS_FORK : Z := 22.
Definition SYS_GUI_CREATE : Z := 23.
Definition SYS_GUI_FLUSH : Z := 24.
Definition SYS_GUI_POLL : Z := 25.
Definition SYS_GUI_DESTROY : Z := 26.

(** The saved registers, and the words behind them at
    [SYSCALL_FRAME_EIP_WORD] and so on. *)
Record syscall_saved_regs := SavedRegs {
  rg_edi : Z; rg_esi : Z; rg_ebp : Z; rg_ebx : Z; rg_edx : Z; rg_ecx : Z; rg_eax : Z;
  frame_eip : Z; frame_cs : Z; frame_eflags : Z; frame_esp : Z
}.

Record syscall_spawn_ex_req := SpawnExReq {
  sx_path_ptr : Z; sx_path_len : Z; sx_cmdline_ptr : Z; sx_cmdline_len : Z; sx_flags : Z
}.

Record syscall_list_dir_req := ListDirReq { ld_path_ptr : Z; ld_path_len : Z; ld_entries_ptr : Z; ld_entry_cap : Z }.

(** The structures in memory. *)
Definition spawn_ex_req_of (bs : list Z) : syscall_spawn_ex_req :=
  SpawnExReq (de32 bs 0) (de32 bs 4) (de32 bs 8) (de32 bs 12) (de32 bs 16).
Definition list_dir_req_of (bs : list Z) : syscall_list_dir_req :=
  ListDirReq (de32 bs 0) (de32 bs 4) (de32 bs 8) (de32 bs 12).
Definition gui_create_req_of (bs : list Z) : syscall_gui_create_req :=
  CreateReq (de32 bs 0) (de32 bs 4) (de32 bs 8) (de32 bs 12) (de32 bs 16).
Definition gui_flush_req_of (bs : list Z) : syscall_gui_flush_req :=
  FlushReq (to_int (de32 bs 0)) (de32 bs 4) (de32 bs 8) (to_int (de32 bs 12)) (to_int (de32 bs 16)) (de32 bs 20) (de32 bs 24).
Definition words_to_bytes (ws : list Z) : list Z := ws ≫= (λ w, le32 (u32 w)).
Definition gui_event_bytes (e : syscall_gui_event) : list Z :=
  words_to_bytes [ev_type e; ev_window_id e; ev_x e; ev_y e; ev_button e; ev_buttons e; ev_keycode e; ev_ch e;
                  ev_modifiers e; ev_v0 e; ev_v1 e].
Definition snapshot_bytes (e : syscall_task_snapshot_entry) : list Z :=
  words_to_bytes [sn_pid e; sn_parent_pid e; sn_exit_code e; sn_state e; sn_flags e] ++
  overlay (replicate 16 0) 0 (sn_name e).
(** [memcpy] of a name whose array held [old]. *)
Definition dir_entry_bytes (old : list Z) (e : vfs_dir_entry) : list Z :=
  words_to_bytes [node_type_code (de_type e)] ++ overlay old 0 (de_name e ++ [NUL]).

Definition syscall_ret_err (e : kerr) : Z := u32 (- kerr_code e).

(** Making a pipe, in the state of the backends. *)
Class PipeOps (σ : Type) := { kpipe_create_in : σ → res (kfile * kfile) * σ }.

(** What a call gives: a value for eax, another round of waitpid when the task
    runs again, or nothing, the task being gone. *)
Record wait_call := WaitCall { wc_target : Z; wc_status_ptr : Z; wc_parent_pid : Z; wc_restore_stdin : bool }.
Inductive outcome := Returns (v : Z) | Waits (w : wait_call) | Exits.

(** The error of a step is the error of the call: for steps that change the
    state or only look at it, and that may panic or not. *)
Notation "'sys!' p , s ':=' r 'in' k" :=
  (match r with (Ok p, s) => k | (Err e, s) => Some (syscall_ret_err e, s) end)
  (at level 10, p pattern, s name, r at level 100, k at level 200) : kernel_scope.
Notation "'sys?' p , s ':=' r 'in' k" :=
  (match r with Some (Ok p, s) => k | Some (Err e, s) => Some (syscall_ret_err e, s) | None => None end)
  (at level 10, p pattern, s name, r at level 100, k at level 200) : kernel_scope.
Notation "'look!' p 'from' s ':=' r 'in' k" :=
  (match r with Ok p => k | Err e => Some (syscall_ret_err e, s) end)
  (at level 10, p pattern, s name, r at level 100, k at level 200) : kernel_scope.
Notation "'look?' p 'from' s ':=' r 'in' k" :=
  (match r with Some (Ok p) => k | Some (Err e) => Some (syscall_ret_err e, s) | None => None end)
  (at level 10, p pattern, s name, r at level 100, k at level 200) : kernel_scope.

Section calls.
Context {σ : Type} `{!NodeOps σ, !FileOps σ, !KernelParts σ, !PipeOps σ}.
Context (wp : bool) (stack : Z → list Z) (timer_frequency_hz : Z).
Implicit Types (s : sched σ) (regs : syscall_saved_regs).

(** [if (!sched_current_task_is_user()) return syscall_ret_err(KERR_NOTSUP);] *)
Definition user_only (k : option (Z * sched σ)) s : option (Z * sched σ) :=
  if negb (sched_current_task_is_user s) then Some (syscall_ret_err KERR_NOTSUP, s) else k.

(** * Paths *)

Definition syscall_copy_user_path_raw (path_ptr path_len out_cap : Z) s : option (res (list Z)) :=
  if out_cap =? 0 then Some (Err KERR_INVAL)
  else if (path_len =? 0) || (out_cap <=? path_len) then Some (Err KERR_INVAL)
  else uaccess_copy_from_user path_ptr path_len s.

Definition syscall_resolve_path_raw (raw : list Z) (out_cap : Z) s : res (list Z) :=
  if (alen raw =? 0) || (out_cap <? 2) then Err KERR_INVAL
  else if cget raw 0 =? SLASH then if out_cap <? add32 (alen raw) 1 then Err KERR_INVAL else Ok raw
  else try! cwd := sched_copy_current_task_cwd SYSCALL_CWD_MAX s in syscall_normalize_path cwd raw out_cap.

(** The two one after the other. *)
Definition user_path (path_ptr path_len cap : Z) s : option (res (list Z)) :=
  match syscall_copy_user_path_raw path_ptr path_len cap s with
  | Some (Ok raw) => Some (syscall_resolve_path_raw raw cap s)
  | Some (Err e) => Some (Err e)
  | None => None
  end.

(** * Open files *)

(** "/dev/console" *)
Definition console_path : list Z := [47; 100; 101; 118; 47; 99; 111; 110; 115; 111; 108; 101].

Definition syscall_stdio_path_for_fd (fd : Z) (for_write : bool) : res (list Z) :=
  if fd =? SYSCALL_FD_STDIN then if for_write then Err KERR_INVAL else Ok console_path
  else if (fd =? SYSCALL_FD_STDOUT) || (fd =? SYSCALL_FD_STDERR) then
    if negb for_write then Err KERR_INVAL else Ok console_path
  else Err KERR_INVAL.

(** [*out_file] is the slot of the descriptor. *)
Definition syscall_stdio_kfile_for_fd (fd : Z) (for_write : bool) s : res Z * sched σ :=
  match syscall_stdio_path_for_fd fd for_write with
  | Err e => (Err e, s)
  | Ok path =>
      match sched_current_process_fd_get fd s with
      | Ok cached => (Ok cached, s)
      | Err e =>
          if negb (bool_decide (e = KERR_NOENT)) then (Err e, s)
          else
            match vfs_open path 0 (files s) with
            | (Err e, fs) => (Err e, with_files fs s)
            | (Ok opened, fs) =>
                let '(r, s) := sched_current_process_fd_install fd opened (with_files fs s) in
                let '(_, _, fs) := kfile_close opened (files s) in
                let s := with_files fs s in
                match r with Err e => (Err e, s) | Ok _ => (Ok fd, s) end
            end
      end
  end.

Definition syscall_kfile_for_fd (fd : Z) (for_write : bool) s : res Z * sched σ :=
  if (fd =? SYSCALL_FD_STDIN) || (fd =? SYSCALL_FD_STDOUT) || (fd =? SYSCALL_FD_STDERR)
  then syscall_stdio_kfile_for_fd fd for_write s
  else (sched_current_process_fd_get fd s, s).

Definition syscall_kfile_for_dup (fd : Z) s : res Z * sched σ :=
  if fd =? SYSCALL_FD_STDIN then syscall_stdio_kfile_for_fd fd false s
  else if (fd =? SYSCALL_FD_STDOUT) || (fd =? SYSCALL_FD_STDERR) then syscall_stdio_kfile_for_fd fd true s
  else (sched_current_process_fd_get fd s, s).

(** The file in the slot [i] of the current task, and storing it back. *)
Definition slot_file (i : Z) s : kfile :=
  match g_current_task s with Some c => file (t_fd_table (task_at s c)).[i] | None => kfile_reset end.
Definition put_file (i : Z) (f : kfile) s : sched σ :=
  match g_current_task s with
  | Some c => on_task c (λ t, set_fd_table (t_fd_table t).[i <- Slot true f] t) s
  | None => s
  end.

Definition sys_write regs s : option (Z * sched σ) :=
  let fd := rg_ebx regs in
  let ptr := rg_ecx regs in
  let len := rg_edx regs in
  sys! i, s := syscall_kfile_for_fd fd true s in
  if negb (uaccess_user_range_ok ptr len s) then Some (syscall_ret_err KERR_FAULT, s)
  else
    bs ← memcpy_from ptr (Z.to_nat len) (mem s);
    '(r, written, f, fs) ← kfile_write (slot_file i s) (if ptr =? 0 then None else Some bs) len (files s);
    let s := put_file i f (with_files fs s) in
    match r with Err e => Some (syscall_ret_err e, s) | Ok _ => Some (written, s) end.

Definition sys_read regs s : option (Z * sched σ) :=
  let fd := rg_ebx regs in
  let ptr := rg_ecx regs in
  let len := rg_edx regs in
  sys! i, s := syscall_kfile_for_fd fd false s in
  if negb (uaccess_user_range_ok ptr len s) then Some (syscall_ret_err KERR_FAULT, s)
  else
    '(r, f, fs) ← kfile_read (slot_file i s) (negb (ptr =? 0)) len (files s);
    let s := put_file i f (with_files fs s) in
    match r with
    | Err e => Some (syscall_ret_err e, s)
    | Ok bs => m ← memcpy_to wp ptr bs (mem s); Some (alen bs, with_mem m s)
    end.

Definition sys_open regs s : option (Z * sched σ) :=
  user_only (
    look? path from s := user_path (rg_ebx regs) (rg_ecx regs) SYSCALL_OPEN_PATH_MAX s in
    match vfs_open path (rg_edx regs) (files s) with
    | (Err e, fs) => Some (syscall_ret_err e, with_files fs s)
    | (Ok f, fs) =>
        let '(r, s) := sched_current_process_fd_alloc f (with_files fs s) in
        let '(_, _, fs) := kfile_close f (files s) in
        sys! fd, s := (r, with_files fs s) in
        Some (fd, s)
    end) s.

Definition sys_close regs s : option (Z * sched σ) :=
  user_only (sys! _, s := sched_current_process_fd_close (rg_ebx regs) s in Some (0, s)) s.

Definition sys_unlink regs s : option (Z * sched σ) :=
  user_only (
    look? path from s := user_path (rg_ebx regs) (rg_ecx regs) SYSCALL_UNLINK_PATH_MAX s in
    let '(r, fs) := vfs_unlink path (files s) in
    sys! _, s := (r, with_files fs s) in
    Some (0, s)) s.

(** [(void)kfile_close(&file);] *)
Definition drop_file (f : kfile) s : sched σ :=
  let '(_, _, fs) := kfile_close f (files s) in with_files fs s.

Definition sys_pipe regs s : option (Z * sched σ) :=
  let pair_ptr := rg_ebx regs in
  user_only (
    if negb (uaccess_user_range_ok pair_ptr 8 s) then Some (syscall_ret_err KERR_FAULT, s)
    else
      match kpipe_create_in (files s) with
      | (Err e, fs) => Some (syscall_ret_err e, with_files fs s)
      | (Ok (read_end, write_end), fs) =>
          let '(r0, s) := sched_current_process_fd_alloc read_end (with_files fs s) in
          let s := drop_file read_end s in
          match r0 with
          | Err e => Some (syscall_ret_err e, drop_file write_end s)
          | Ok fd0 =>
              let '(r1, s) := sched_current_process_fd_alloc write_end s in
              let s := drop_file write_end s in
              match r1 with
              | Err e => Some (syscall_ret_err e, snd (sched_current_process_fd_close fd0 s))
              | Ok fd1 =>
                  '(r, s) ← uaccess_copy_to_user wp pair_ptr (Some (words_to_bytes [fd0; fd1])) 8 s;
                  match r with
                  | Err e =>
                      let s := snd (sched_current_process_fd_close fd0 s) in
                      Some (syscall_ret_err e, snd (sched_current_process_fd_close fd1 s))
                  | Ok _ => Some (0, s)
                  end
              end
          end
      end) s.

Definition sys_dup regs s : option (Z * sched σ) :=
  let oldfd := rg_ebx regs in
  user_only (
    sys! src, s := syscall_kfile_for_dup oldfd s in
    match sched_current_process_fd_dup oldfd s with
    | (Ok newfd, s) => Some (newfd, s)
    | (Err e, s) =>
        if oldfd <=? SYSCALL_FD_STDERR then
          sys! newfd, s := sched_current_process_fd_alloc (slot_file src s) s in Some (newfd, s)
        else Some (syscall_ret_err e, s)
    end) s.

Definition sys_dup2 regs s : option (Z * sched σ) :=
  let oldfd := rg_ebx regs in
  let newfd := rg_ecx regs in
  user_only (
    sys! src, s := syscall_kfile_for_dup oldfd s in
    if oldfd =? newfd then Some (newfd, s)
    else if newfd <=? SYSCALL_FD_STDERR then
      let s := snd (sched_current_process_fd_close newfd s) in
      sys! _, s := sched_current_process_fd_install newfd (slot_file src s) s in
      Some (newfd, s)
    else
      sys! _, s := sched_current_process_fd_dup2 oldfd newfd s in
      Some (newfd, s)) s.

(** * Programs *)

Definition sys_spawn regs s : option (Z * sched σ) :=
  user_only (
    look? path from s := user_path (rg_ebx regs) (rg_ecx regs) SYSCALL_SPAWN_PATH_MAX s in
    sys? child_pid, s := usermode_spawn_path_task wp path s in
    Some (u32 child_pid, s)) s.

(** [vfs_console_set_input_owner_task], its result unused. *)
Definition give_console (pid : Z) s : sched σ :=
  on_files (λ fs, set_console (snd (vfs_console_set_input_owner_task pid (console_of fs))) fs) s.

Definition owns_console (pid : Z) s : bool := vfs_console_input_owner_is_task pid (console_of (files s)).

Definition sys_spawn_ex regs s : option (Z * sched σ) :=
  user_only (
    look? bs from s := uaccess_copy_from_user (rg_ebx regs) 20 s in
    let req := spawn_ex_req_of bs in
    if SYSCALL_CMDLINE_MAX <=? sx_cmdline_len req then Some (syscall_ret_err KERR_INVAL, s)
    else if negb (sx_cmdline_len req =? 0) && (sx_cmdline_ptr req =? 0) then Some (syscall_ret_err KERR_INVAL, s)
    else if negb (Z.land (sx_flags req) (not32 (Z.lor SYSCALL_SPAWN_FLAG_INHERIT_FDS SYSCALL_SPAWN_FLAG_FOREGROUND)) =? 0)
    then Some (syscall_ret_err KERR_INVAL, s)
    else
      look? path from s := user_path (sx_path_ptr req) (sx_path_len req) SYSCALL_SPAWN_PATH_MAX s in
      look? cmdline from s :=
        (if sx_cmdline_len req =? 0 then Some (Ok [])
         else uaccess_copy_from_user (sx_cmdline_ptr req) (sx_cmdline_len req) s) in
      sys? child_pid, s :=
        usermode_spawn_path_task_ex wp path (Some (cmdline ++ [NUL])) (sx_cmdline_len req) (sx_flags req) s in
      let s := if negb (Z.land (sx_flags req) SYSCALL_SPAWN_FLAG_FOREGROUND =? 0) && owns_console (sched_current_task_pid s) s
               then give_console child_pid s else s in
      Some (u32 child_pid, s)) s.

Definition syscall_capture_user_fork_context regs : res user_mode_resume_ctx :=
  if negb (Z.land (frame_cs regs) 3 =? 3) then Err KERR_NOTSUP
  else Ok (ResumeCtx (rg_eax regs) (rg_ebx regs) (rg_ecx regs) (rg_edx regs) (rg_esi regs) (rg_edi regs) (rg_ebp regs)
             (frame_eip regs) (frame_esp regs) (frame_eflags regs)).

Definition sys_fork regs s : option (Z * sched σ) :=
  user_only (
    look! ctx from s := syscall_capture_user_fork_context regs in
    sys! child_pid, s := sched_fork_current_user_task ctx s in
    Some (u32 child_pid, s)) s.

(** The input goes to the child waited for: the state and [restore_stdin]. *)
Definition lend_console (target_pid parent_pid : Z) s : bool * sched σ :=
  if owns_console parent_pid s then
    match vfs_console_set_input_owner_task target_pid (console_of (files s)) with
    | (Ok _, c) => (true, on_files (set_console c) s)
    | (Err _, _) => (false, s)
    end
  else (owns_console target_pid s, s).

(** After [sched_waitpid_ex] has returned. *)
Definition waitpid_finish (w : wait_call) (rc : res (Z * Z)) s : option (outcome * sched σ) :=
  let s := if wc_restore_stdin w then give_console (wc_parent_pid w) s else s in
  match rc with
  | Err e => Some (Returns (syscall_ret_err e), s)
  | Ok (waited_pid, waited_exit) =>
      if negb (wc_status_ptr w =? 0) && (0 <? waited_pid) then
        '(r, s) ← uaccess_copy_to_user wp (wc_status_ptr w) (Some (words_to_bytes [waited_exit])) 4 s;
        match r with
        | Err e => Some (Returns (syscall_ret_err e), s)
        | Ok _ => Some (Returns (u32 waited_pid), s)
        end
      else Some (Returns (u32 waited_pid), s)
  end.

Definition waitpid_rest (w : wait_call) (p : option (option (res (Z * Z)) * sched σ)) : option (outcome * sched σ) :=
  '(rc, s) ← p;
  match rc with None => Some (Waits w, s) | Some rc => waitpid_finish w rc s end.

Definition sys_waitpid regs s : option (outcome * sched σ) :=
  let target_pid := to_int (rg_ebx regs) in
  let status_ptr := rg_ecx regs in
  let options := rg_edx regs in
  let nohang := negb (Z.land options SYSCALL_WAITPID_FLAG_NOHANG =? 0) in
  if negb (sched_current_task_is_user s) then Some (Returns (syscall_ret_err KERR_NOTSUP), s)
  else if negb (Z.land options (not32 SYSCALL_WAITPID_FLAG_NOHANG) =? 0)
  then Some (Returns (syscall_ret_err KERR_NOTSUP), s)
  else if negb (status_ptr =? 0) && negb (uaccess_user_range_ok status_ptr 4 s)
  then Some (Returns (syscall_ret_err KERR_FAULT), s)
  else
    let parent_pid := sched_current_task_pid s in
    let '(restore_stdin, s) :=
      if negb nohang && (0 <? target_pid) && (0 <? parent_pid) && sched_current_task_owns_child_pid target_pid s
      then lend_console target_pid parent_pid s
      else (false, s) in
    waitpid_rest (WaitCall target_pid status_ptr parent_pid restore_stdin) (sched_waitpid_ex target_pid options s).

(** The next round, when the waiting task runs again. *)
Definition sys_waitpid_again (w : wait_call) s : option (outcome * sched σ) :=
  waitpid_rest w (wait_round (wc_target w) false s).

Definition sys_exit regs s : option (sched σ) :=
  sched_task_exit (sched_note_current_exit_code (to_int (rg_ebx regs)) s).

(** * Directories, the command line, tasks *)

Definition sys_chdir regs s : option (Z * sched σ) :=
  user_only (
    look? path from s := user_path (rg_ebx regs) (rg_ecx regs) SYSCALL_CWD_MAX s in
    look! nd from s := vfs_lookup path (files s) in
    if negb (bool_decide (node_type nd (files s) = VFS_NODE_DIR)) then Some (syscall_ret_err KERR_NOTSUP, s)
    else sys! _, s := sched_set_current_task_cwd (Some path) (alen path) s in Some (0, s)) s.

Definition sys_getcwd regs s : option (Z * sched σ) :=
  user_only (
    sys? copied_len, s := sched_copy_current_task_cwd_to_user wp (rg_ebx regs) (rg_ecx regs) s in
    Some (copied_len, s)) s.

Definition sys_getcmdline regs s : option (Z * sched σ) :=
  user_only (
    sys? copied_len, s := sched_copy_current_task_cmdline_to_user wp (rg_ebx regs) (rg_ecx regs) s in
    Some (copied_len, s)) s.

(** The entries go out in one copy; nothing is copied when there are none. *)
Definition copy_entries (ptr : Z) (entries : list (list Z)) s : option (Z * sched σ) :=
  if alen entries =? 0 then Some (0, s)
  else
    sys? _, s := uaccess_copy_to_user wp ptr (Some (concat entries)) (alen (concat entries)) s in
    Some (alen entries, s).

Definition sys_task_snapshot regs s : option (Z * sched σ) :=
  let entries_ptr := rg_ebx regs in
  let entry_cap := rg_ecx regs in
  user_only (
    let capped_cap := if SYSCALL_TASK_SNAPSHOT_MAX <? entry_cap then SYSCALL_TASK_SNAPSHOT_MAX else entry_cap in
    if negb (capped_cap =? 0) &&
       ((entries_ptr =? 0) || negb (uaccess_user_range_ok entries_ptr (mul32 capped_cap 36) s))
    then Some (syscall_ret_err KERR_FAULT, s)
    else
      look! snapshot from s := sched_collect_task_snapshot true capped_cap s in
      copy_entries entries_ptr (snapshot_bytes <$> snapshot) s) s.

Definition sys_list_dir regs s : option (Z * sched σ) :=
  user_only (
    look? bs from s := uaccess_copy_from_user (rg_ebx regs) 16 s in
    let req := list_dir_req_of bs in
    let capped_cap := if SYSCALL_LIST_DIR_MAX <? ld_entry_cap req then SYSCALL_LIST_DIR_MAX else ld_entry_cap req in
    if negb (capped_cap =? 0) &&
       ((ld_entries_ptr req =? 0) || negb (uaccess_user_range_ok (ld_entries_ptr req) (mul32 capped_cap 36) s))
    then Some (syscall_ret_err KERR_FAULT, s)
    else
      look? path from s := user_path (ld_path_ptr req) (ld_path_len req) SYSCALL_LIST_DIR_PATH_MAX s in
      look! kernel_entries from s := vfs_list_dir path true capped_cap (files s) in
      copy_entries (ld_entries_ptr req) (imap (λ i e, dir_entry_bytes (stack (Z.of_nat i)) e) kernel_entries) s) s.

(** * The window system *)

Definition ucopy_of s : Z → Z → option (res (list Z)) := λ addr len, uaccess_copy_from_user addr len s.
Definition put_desk (d : desk) s : sched σ := on_files (set_desk d) s.

Definition sys_gui_create regs s : option (Z * sched σ) :=
  user_only (
    look? bs from s := uaccess_copy_from_user (rg_ebx regs) 20 s in
    '(r, d) ← display_gui_create_window (g_display_fb (files s)) (ucopy_of s) (gui_create_req_of bs)
                (sched_current_task_pid s) (desk_of (files s));
    sys! window_id, s := (r, put_desk d s) in
    Some (u32 window_id, s)) s.

Definition sys_gui_flush regs s : option (Z * sched σ) :=
  user_only (
    look? bs from s := uaccess_copy_from_user (rg_ebx regs) 28 s in
    '(r, d) ← display_gui_flush_window (g_display_fb (files s)) (ucopy_of s) (gui_flush_req_of bs)
                (sched_current_task_pid s) (desk_of (files s));
    sys! _, s := (r, put_desk d s) in
    Some (0, s)) s.

Definition sys_gui_poll regs s : option (Z * sched σ) :=
  let event_ptr := rg_ecx regs in
  user_only (
    if (event_ptr =? 0) || negb (uaccess_user_range_ok event_ptr 44 s) then Some (syscall_ret_err KERR_FAULT, s)
    else
      let '(r, d) := display_gui_poll_event (to_int (rg_ebx regs)) (sched_current_task_pid s) (desk_of (files s)) in
      sys! event, s := (r, put_desk d s) in
      match event with
      | None => Some (0, s)
      | Some e => sys? _, s := uaccess_copy_to_user wp event_ptr (Some (gui_event_bytes e)) 44 s in Some (1, s)
      end) s.

Definition sys_gui_destroy regs s : option (Z * sched σ) :=
  user_only (
    let '(r, d) := display_gui_destroy_window (g_display_fb (files s)) (to_int (rg_ebx regs)) (sched_current_task_pid s)
                     (desk_of (files s)) in
    sys! _, s := (r, put_desk d s) in
    Some (0, s)) s.

(** * Time *)

Definition sys_yield s : option (Z * sched σ) := s ← sched_yield s; Some (0, s).

Definition sys_sleep regs s : option (Z * sched σ) :=
  user_only (s ← sched_sleep_ticks (rg_ebx regs) s; Some (0, s)) s.

Definition sys_time_info regs s : option (Z * sched σ) :=
  let ticks := timer_ticks s in
  user_only (
    sys? _, s := uaccess_copy_to_user wp (rg_ebx regs)
                   (Some (words_to_bytes [ticks; ticks / two32; timer_frequency_hz])) 12 s in
    Some (0, s)) s.

Definition sys_time s : option (Z * sched σ) := Some (u32 (timer_ticks s), s).

(** * Dispatch *)

Definition returns (p : option (Z * sched σ)) : option (outcome * sched σ) := '(v, s) ← p; Some (Returns v, s).

Definition syscall_dispatch regs s : option (outcome * sched σ) :=
  let s := sched_note_current_syscall (rg_eax regs) s in
  let nr := rg_eax regs in
  if nr =? SYS_WRITE then returns (sys_write regs s)
  else if nr =? SYS_YIELD then returns (sys_yield s)
  else if nr =? SYS_EXIT then s ← sys_exit regs s; Some (Exits, s)
  else if nr =? SYS_TIME then returns (sys_time s)
  else if nr =? SYS_READ then returns (sys_read regs s)
  else if nr =? SYS_SPAWN then returns (sys_spawn regs s)
  else if nr =? SYS_SPAWN_EX then returns (sys_spawn_ex regs s)
  else if nr =? SYS_OPEN then returns (sys_open regs s)
  else if nr =? SYS_CLOSE then returns (sys_close regs s)
  else if nr =? SYS_WAITPID then sys_waitpid regs s
  else if nr =? SYS_TASK_SNAPSHOT then returns (sys_task_snapshot regs s)
  else if nr =? SYS_SLEEP then returns (sys_sleep regs s)
  else if nr =? SYS_TIME_INFO then returns (sys_time_info regs s)
  else if nr =? SYS_GETCMDLINE then returns (sys_getcmdline regs s)
  else if nr =? SYS_LIST_DIR then returns (sys_list_dir regs s)
  else if nr =? SYS_CHDIR then returns (sys_chdir regs s)
  else if nr =? SYS_GETCWD then returns (sys_getcwd regs s)
  else if nr =? SYS_PIPE then returns (sys_pipe regs s)
  else if nr =? SYS_DUP then returns (sys_dup regs s)
  else if nr =? SYS_DUP2 then returns (sys_dup2 regs s)
  else if nr =? SYS_UNLINK then returns (sys_unlink regs s)
  else if nr =? SYS_FORK then returns (sys_fork regs s)
  else if nr =? SYS_GUI_CREATE then returns (sys_gui_create regs s)
  else if nr =? SYS_GUI_FLUSH then returns (sys_gui_flush regs s)
  else if nr =? SYS_GUI_POLL then returns (sys_gui_poll regs s)
  else if nr =? SYS_GUI_DESTROY then returns (sys_gui_destroy regs s)
  else Some (Returns (syscall_ret_err KERR_NOTSUP), s).
End calls.
