(* ===== verification/KernelInv.v ===== *)
(** What the tasks own: open files and child slots.

    [own U F s]: every reference that a file backend counts belongs to a
    descriptor of a task that has not exited, or to one of the files [F] that the
    running code has in hand; the variables of usermode.c are [U], and its child
    slots belong to the tasks in the table.  The operations of sched.c keep it. *)

From S2P Require Import Prelude Bytes Ring Keyboard Console Framebuffer Gui Pmm Kmalloc VfsNode KFile Vfs KPipe ProcFd Paging.
From S2P Require Import PagingMap UserMem Sched SchedInv SchedRun Elf CmdLine StartStack User Syscall.

(** What the backends promise beyond [FileLaws]: opening a file gives its caller
    one reference, reading and writing keep the file's reference (the offset may
    change), making a pipe gives two; and no operation on files touches the
    variables of usermode.c. *)
Section laws.
Context {σ : Type} `{!NodeOps σ, !FileOps σ, !FileLaws σ, !KernelParts σ, !PipeOps σ}.

Definition holding (U : usermode) (F : list kfile) (fs : σ) : Prop := held F fs ∧ usermode_of fs = U.

Definition gives_file (U : usermode) (F : list kfile) (p : res kfile * σ) : Prop :=
  match p with (Ok f, fs) => holding U (f :: F) fs | (Err _, fs) => holding U F fs end.

Class CallLaws := {
  law_usermode u F fs : held F fs → holding u F (set_usermode u fs);
  law_console c U F fs : holding U F fs → holding U F (set_console c fs);
  law_retain id op f fs : op_retain id = Some op → usermode_of (snd (op f fs)) = usermode_of fs;
  law_close id op f fs : op_close id = Some op → usermode_of (snd (op f fs)) = usermode_of fs;
  law_read id op f b len U F fs r f' fs' :
    f_ops f = Some id → op_read id = Some op → op f b len fs = Some (r, f', fs') →
    holding U (f :: F) fs → holding U (f' :: F) fs';
  law_write id op f b len U F fs r n f' fs' :
    f_ops f = Some id → op_write id = Some op → op f b len fs = Some (r, n, f', fs') →
    holding U (f :: F) fs → holding U (f' :: F) fs';
  law_open nd op fl U F fs : nd_open nd fs = Some op → alen F + 1 < two32 → holding U F fs → gives_file U F (op fl);
  law_create nd op name n fl U F fs :
    nd_create_open nd fs = Some op → alen F + 1 < two32 → holding U F fs → gives_file U F (op name n fl);
  law_unlink nd op name n U F fs : nd_unlink nd fs = Some op → holding U F fs → holding U F (snd (op name n));
  law_pipe U F fs : alen F + 2 < two32 → holding U F fs →
    match kpipe_create_in fs with
    | (Ok (r, w), fs') => holding U (r :: w :: F) fs'
    | (Err _, fs') => holding U F fs'
    end
}.
End laws.
Arguments CallLaws σ {_ _ _ _ _}.

Section holding.
Context {σ : Type} `{!NodeOps σ, !FileOps σ, !FileLaws σ, !KernelParts σ, !PipeOps σ, !CallLaws σ}.

(** The backends' laws together with the state of usermode.c. *)
Definition keeping (U : usermode) : FileLaws σ.
Proof.
  refine {| held := @holding σ FileOps0 FileLaws0 KernelParts0 U |}.
  - intros F F' HF fs fs' <-. unfold holding. by rewrite HF.
  - intros id retain f F s E1 E2 Hb [Hh Hu]. pose proof (held_retain id retain f F s E1 E2 Hb Hh) as H.
    pose proof (law_retain id retain f s E2) as Hq. unfold holding. destruct (retain f s) as [[] s']; simpl in Hq; (split; [exact H|congruence]).
  - intros f F s E Hb [Hh Hu]. split; [by apply held_copy|done].
  - intros id close f F s E1 E2 [Hh Hu]. destruct (held_close id close f F s E1 E2 Hh) as (s' & E & Hs').
    pose proof (law_close id close f s E2) as Hq. rewrite E in Hq. simpl in Hq. exists s'. split; [done|]. split; [exact Hs'|congruence].
  - intros f F s E [Hh Hu]. split; [by eapply held_drop|done].
Defined.

Lemma holding_perm U F F' fs : F ≡ₚ F' → holding U F fs → holding U F' fs.
Proof. intros HF [Hh Hu]. split; [by rewrite <- HF|done]. Qed.

Lemma holding_drop U f F fs :
  holding U (f :: F) fs → ∃ fs', kfile_close f fs = (Ok tt, kfile_reset, fs') ∧ holding U F fs'.
Proof. exact (held_kfile_close (FileLaws0 := keeping U) f F fs). Qed.

(** * Opening and unlinking paths *)

Lemma gives_err U F e fs : holding U F fs → gives_file U F (Err e, fs).
Proof. done. Qed.

Lemma vfs_open_gives path fl U F fs :
  alen F + 1 < two32 → holding U F fs → gives_file U F (vfs_open path fl fs).
Proof.
  intros Hb Hh. unfold vfs_open. repeat case_match; try exact Hh.
  - by eapply law_open.
  - by eapply law_create.
Qed.

Lemma vfs_unlink_holds path U F fs : holding U F fs → holding U F (snd (vfs_unlink path fs)).
Proof. intros Hh. unfold vfs_unlink. repeat case_match; try exact Hh. by eapply law_unlink. Qed.

(** Reading and writing a file in hand. *)
Lemma kfile_read_holds f b len U F fs r f' fs' :
  kfile_read f b len fs = Some (r, f', fs') → holding U (f :: F) fs → holding U (f' :: F) fs'.
Proof.
  intros E Hh. unfold kfile_read in E. destruct (_ && _); [by simplify_eq|]. destruct (len =? 0); [by simplify_eq|].
  destruct (f_ops f) as [id|] eqn:Ef; simpl in E; [|by simplify_eq].
  destruct (op_read id) as [op|] eqn:Eo; [|by simplify_eq]. by eapply law_read.
Qed.

Lemma kfile_write_holds f b len U F fs r n f' fs' :
  kfile_write f b len fs = Some (r, n, f', fs') → holding U (f :: F) fs → holding U (f' :: F) fs'.
Proof.
  intros E Hh. unfold kfile_write in E. destruct (_ && _); [by simplify_eq|]. destruct (len =? 0); [by simplify_eq|].
  destruct (f_ops f) as [id|] eqn:Ef; simpl in E; [|by simplify_eq].
  destruct (op_write id) as [op|] eqn:Eo; [|by simplify_eq]. by eapply law_write.
Qed.

(** * The task table *)

Implicit Types (s : sched σ) (U : usermode) (F : list kfile).

Definition tab s (i : Z) : proc_fd_table := t_fd_table (task_at s i).
Definition gone (t : task) : Prop := t_state t = TASK_UNUSED ∨ t_state t = TASK_ZOMBIE.
Definition task_files s : list kfile := seqZ 0 SCHED_MAX_TASKS ≫= λ i, table_files (tab s i).
Definition other_files s (c : Z) : list kfile :=
  filter (λ i, i ≠ c) (seqZ 0 SCHED_MAX_TASKS) ≫= λ i, table_files (tab s i).

(** Every reference is a live task's, or in hand. *)
Record fds_ok U F s : Prop := {
  fo_len : alen (g_tasks s) = SCHED_MAX_TASKS;
  fo_table : ∀ i, slot i → table_wf (tab s i);
  fo_gone : ∀ i, slot i → gone (task_at s i) → table_files (tab s i) = [];
  fo_held : holding U (task_files s ++ F) (files s)
}.

Lemma bind_same {A B} (f g : A → list B) l : (∀ x, x ∈ l → f x = g x) → l ≫= f = l ≫= g.
Proof.
  induction l as [|x l IH]; intros Hl; [done|]. rewrite !bind_cons, IH by (intros y Hy; apply Hl; by right).
  by rewrite (Hl x) by left.
Qed.

Lemma task_files_split s c : slot c → task_files s ≡ₚ table_files (tab s c) ++ other_files s c.
Proof.
  intros Hc. unfold task_files, other_files.
  change (task_files s ≡ₚ (c :: filter (λ i, i ≠ c) (seqZ 0 SCHED_MAX_TASKS)) ≫= λ i, table_files (tab s i)).
  apply bind_Permutation.
  apply NoDup_Permutation.
  - apply NoDup_seqZ.
  - constructor; [|apply NoDup_filter, NoDup_seqZ]. intros [H _]%list_elem_of_filter. done.
  - intros i. rewrite elem_of_cons, list_elem_of_filter, elem_of_seqZ. unfold slot in Hc. destruct (decide (i = c)); [subst; tauto|tauto].
Qed.

Lemma other_files_same s s' c :
  (∀ i, slot i → i ≠ c → tab s' i = tab s i) → other_files s' c = other_files s c.
Proof.
  intros H. apply bind_same. intros i [Hi Hs]%list_elem_of_filter. f_equal. apply H; [|done].
  apply elem_of_seqZ in Hs. unfold slot. lia.
Qed.

Lemma task_files_same s s' : (∀ i, slot i → tab s' i = tab s i) → task_files s' = task_files s.
Proof. intros H. apply bind_same. intros i Hs%elem_of_seqZ. f_equal. apply H. unfold slot. lia. Qed.

Lemma bind_length {A B} (f : A → list B) l n :
  (∀ x, x ∈ l → (length (f x) ≤ n)%nat) → (length (l ≫= f) ≤ n * length l)%nat.
Proof.
  induction l as [|x l IH]; intros Hl; [simpl; lia|]. rewrite bind_cons, length_app.
  pose proof (Hl x (list_elem_of_here _ _)). simpl. specialize (IH (λ y Hy, Hl y (list_elem_of_further _ _ _ Hy))). lia.
Qed.

Lemma task_files_length U F s : fds_ok U F s → alen (task_files s) ≤ 192.
Proof.
  intros [_ Ht _ _]. unfold alen, task_files.
  pose proof (bind_length (λ i, table_files (tab s i)) (seqZ 0 SCHED_MAX_TASKS) 16) as H.
  rewrite length_seqZ in H. unfold SCHED_MAX_TASKS in *. change (Z.to_nat 12) with 12%nat in H.
  enough (length (seqZ 0 12 ≫= λ i, table_files (tab s i)) ≤ 16 * 12)%nat by lia. apply H.
  intros i Hi%elem_of_seqZ. specialize (Ht i). unfold slot, table_wf, alen, PROC_FD_MAX, SCHED_MAX_TASKS in Ht.
  pose proof (table_files_length (tab s i)). lia.
Qed.

(** A room of a few files in hand. *)
Definition few F : Prop := alen F ≤ 8.

Lemma room_few U F s c : fds_ok U F s → slot c → few F → ProcFd.room (other_files s c ++ F).
Proof.
  intros Ho Hc HF. pose proof (task_files_length U F s Ho) as Hl. unfold alen in *.
  rewrite (Permutation_length (task_files_split s c Hc)), length_app in Hl.
  unfold ProcFd.room, few, alen, two32 in *. rewrite length_app. lia.
Qed.
(** * What an operation must keep *)

Definition keeps (t t' : task) : Prop :=
  t_fd_table t' = t_fd_table t ∧ (gone t' → gone t).

Lemma fds_frame_gone U F s s' :
  fds_ok U F s → alen (g_tasks s') = SCHED_MAX_TASKS → (∀ i, slot i → tab s' i = tab s i) →
  (∀ i, slot i → gone (task_at s' i) → gone (task_at s i) ∨ table_files (tab s i) = []) →
  files s' = files s → fds_ok U F s'.
Proof.
  intros [Hl Ht Hg Hh] Hl' Htab Hk Hf. split; [done| | |].
  - intros i Hi. rewrite Htab by done. by apply Ht.
  - intros i Hi Hgo. rewrite Htab by done. destruct (Hk i Hi Hgo); [by apply Hg|done].
  - by rewrite (task_files_same s s'), Hf.
Qed.

Lemma fds_frame U F s s' :
  fds_ok U F s → alen (g_tasks s') = SCHED_MAX_TASKS → (∀ i, slot i → keeps (task_at s i) (task_at s' i)) →
  files s' = files s → fds_ok U F s'.
Proof.
  intros Ho Hl' Hk Hf. apply (fds_frame_gone U F s); try done; intros i Hi; [apply (Hk i Hi)|].
  intros Hgo. left. by apply (Hk i Hi).
Qed.

Lemma fds_on_task U F s i f :
  fds_ok U F s → slot i → keeps (task_at s i) (f (task_at s i)) → fds_ok U F (on_task i f s).
Proof.
  intros Ho Hi Hk. pose proof (fo_len _ _ _ Ho) as Hl. apply (fds_frame U F s); [done| | |done].
  - unfold on_task. by rewrite set_task_len.
  - intros j Hj. unfold on_task. rewrite task_at_set by first [done|apply Hj]. case_decide; [by subst|by split].
Qed.

Lemma fds_with_mem U F m s : fds_ok U F s → fds_ok U F (with_mem m s).
Proof. intros Ho. apply (fds_frame U F s); try done. apply Ho. Qed.

(** The files and the variables of usermode.c change, the tasks do not. *)
Lemma fds_with_files U F U' F' s fs :
  fds_ok U F s → (∀ G, alen G ≤ 192 → holding U (G ++ F) (files s) → holding U' (G ++ F') fs) →
  fds_ok U' F' (with_files fs s).
Proof.
  intros Ho Hf. pose proof (task_files_length _ _ _ Ho) as Hl. destruct Ho as [H1 H2 H3 H4]. split; try done. by apply Hf.
Qed.

Lemma fds_perm U F F' s : F ≡ₚ F' → fds_ok U F s → fds_ok U F' s.
Proof. intros HF [H1 H2 H3 H4]. split; try done. eapply holding_perm; [|exact H4]. by rewrite HF. Qed.

(** Closing a file in hand. *)
Lemma fds_drop_file U F s f : fds_ok U (f :: F) s → fds_ok U F (drop_file f s).
Proof.
  intros Ho. unfold drop_file. pose proof (fo_held _ _ _ Ho) as Hh.
  assert (Hh' : holding U (f :: task_files s ++ F) (files s)).
  { eapply holding_perm; [|exact Hh]. symmetry. apply Permutation_middle. }
  destruct (holding_drop U f _ _ Hh') as (fs' & -> & Hfs).
  destruct Ho as [H1 H2 H3 H4]. by split.
Qed.

(** The task [c] gets another table. *)
Lemma fds_set_table U U' F F' s c t' fs :
  fds_ok U F s → slot c → ¬ gone (task_at s c) → table_wf t' →
  holding U' (table_files t' ++ other_files s c ++ F') fs →
  fds_ok U' F' (with_files fs (on_task c (set_fd_table t') s)).
Proof.
  intros Ho Hc Hng Ht' Hh. pose proof Ho as [H1 H2 H3 H4]. set (s' := with_files _ _).
  assert (Et : ∀ i, slot i → task_at s' i = if decide (c = i) then set_fd_table t' (task_at s c) else task_at s i).
  { intros i Hi. change (task_at s' i) with (task_at (on_task c (set_fd_table t') s) i). unfold on_task.
    by rewrite task_at_set by first [done|apply Hi]. }
  assert (Etab : ∀ i, slot i → tab s' i = if decide (c = i) then t' else tab s i).
  { intros i Hi. unfold tab. rewrite Et by done. by case_decide. }
  split.
  - unfold s', on_task. cbn [with_files g_tasks]. by rewrite set_task_len.
  - intros i Hi. rewrite Etab by done. case_decide; [done|by apply H2].
  - intros i Hi. rewrite Et, Etab by done. case_decide as Hd; [|by apply H3]. subst i. intros Hg. by destruct Hng.
  - change (files s') with fs. eapply holding_perm; [|exact Hh]. rewrite (task_files_split s' c Hc).
    rewrite Etab, decide_True by done. rewrite (other_files_same s s' c); [by rewrite <- app_assoc|].
    intros i Hi Hne. by rewrite Etab, decide_False by congruence.
Qed.

(** ** Descriptors of the current task *)

Lemma fds_split U F s c : fds_ok U F s → slot c → holding U (table_files (tab s c) ++ other_files s c ++ F) (files s).
Proof. intros Ho Hc. eapply holding_perm; [|apply Ho]. by rewrite (task_files_split s c Hc), <- app_assoc. Qed.

(** The current task is in the table and alive. *)
Definition cur_alive s : Prop := ∀ c, g_current_task s = Some c → slot c ∧ ¬ gone (task_at s c).

Lemma fds_current {A} U F (f : proc_fd_table → σ → res A * proc_fd_table * σ) s :
  fds_ok U F s → cur_alive s →
  (∀ c, g_current_task s = Some c → slot c → table_wf (tab s c) →
     holding U (table_files (tab s c) ++ other_files s c ++ F) (files s) →
     let '(_, t', fs') := f (tab s c) (files s) in
     table_wf t' ∧ holding U (table_files t' ++ other_files s c ++ F) fs') →
  fds_ok U F (snd (with_current_fds f s)).
Proof.
  intros Ho Hcur Hf. unfold with_current_fds. destruct (g_current_task s) as [c|] eqn:Ec; [|done].
  destruct (sched_current_task_is_user s); [|done]. cbn [negb].
  destruct (Hcur c Ec) as [Hc Hng]. specialize (Hf c eq_refl Hc (fo_table _ _ _ Ho c Hc) (fds_split _ _ _ _ Ho Hc)).
  unfold tab in Hf. destruct (f _ _) as [[r t'] fs']. destruct Hf as [Ht' Hh]. cbn [snd]. by apply (fds_set_table U U F F s).
Qed.

Lemma install_cases t fd src U F fs :
  table_wf t → 0 ≤ fd → ProcFd.room F → src ∈ table_files t ++ F → holding U (table_files t ++ F) fs →
  let '(_, _, t', fs') := proc_fd_install t fd src fs in table_wf t' ∧ holding U (table_files t' ++ F) fs'.
Proof.
  intros Ht Hfd Hr Hin Hh. pose proof (room_table t F Ht Hr). unfold proc_fd_install. rewrite slot_for_spec by done.
  case_decide as Hd; [|done]. assert (Hs : slot_in_table fd) by (unfold slot_in_table; lia).
  destruct (in_use t.[fd]) eqn:Hu; [done|].
  pose proof (held_clone_in (FileLaws0 := keeping U) src _ fs Hin ltac:(lia) Hh) as Hc.
  destruct (kfile_clone src fs) as [[g|e] fs1]; [|done]. destruct Hc as [-> Hc]. split; [by apply table_wf_set|].
  apply (held_install (FileLaws0 := keeping U)); [done..|].
  eapply (holding_perm U); [|exact Hc]. by rewrite (table_files_free t fd) by (rewrite ?Ht; done).
Qed.

Lemma fds_install U F fd src s :
  fds_ok U F s → cur_alive s → few F → 0 ≤ fd → (∀ c, g_current_task s = Some c → src ∈ table_files (tab s c) ++ F) →
  fds_ok U F (snd (sched_current_process_fd_install fd src s)).
Proof.
  intros Ho Hcur HF Hfd Hin. apply fds_current; [done..|]. intros c Ec Hc Ht Hh.
  assert (Hin' : src ∈ table_files (tab s c) ++ other_files s c ++ F) by (specialize (Hin c Ec); set_solver).
  pose proof (install_cases _ fd src U _ _ Ht Hfd (room_few _ _ _ _ Ho Hc HF) Hin' Hh) as H.
  by destruct (proc_fd_install _ _ _ _) as [[[? ?] ?] ?].
Qed.

Lemma fds_alloc U F src s :
  fds_ok U F s → cur_alive s → few F → (∀ c, g_current_task s = Some c → src ∈ table_files (tab s c) ++ F) →
  fds_ok U F (snd (sched_current_process_fd_alloc src s)).
Proof.
  intros Ho Hcur HF Hin. apply fds_current; [done..|]. intros c Ec Hc Ht Hh.
  assert (Hin' : src ∈ table_files (tab s c) ++ other_files s c ++ F) by (specialize (Hin c Ec); set_solver).
  pose proof (alloc_cases (FileLaws0 := keeping U) _ PROC_FD_DYNAMIC_MIN src _ _ Ht ltac:(done) (room_few _ _ _ _ Ho Hc HF) Hin' Hh) as H.
  destruct (proc_fd_alloc _ _ _ _) as [[? ?] ?]. by destruct H as (? & ? & _).
Qed.

Lemma fds_close U F fd s :
  fds_ok U F s → cur_alive s → 0 ≤ fd → fds_ok U F (snd (sched_current_process_fd_close fd s)).
Proof.
  intros Ho Hcur Hfd. apply fds_current; [done..|]. intros c Ec Hc Ht Hh.
  pose proof (close_cases (FileLaws0 := keeping U) _ fd _ _ Ht Hfd Hh) as H.
  destruct (proc_fd_close _ _ _) as [[? ?] ?]. by destruct H as (? & ? & _).
Qed.

Lemma fds_dup U F fd s :
  fds_ok U F s → cur_alive s → few F → 0 ≤ fd → fds_ok U F (snd (sched_current_process_fd_dup fd s)).
Proof.
  intros Ho Hcur HF Hfd. apply fds_current; [done..|]. intros c Ec Hc Ht Hh. unfold proc_fd_dup.
  rewrite slot_for_spec by done. case_decide as Hd; [|done].
  destruct (in_use (tab s c).[fd]) eqn:Hu; cbn [negb]; [|done].
  assert (Hs : slot_in_table fd) by (unfold slot_in_table; lia).
  pose proof (alloc_cases (FileLaws0 := keeping U) _ PROC_FD_DYNAMIC_MIN (file (tab s c).[fd]) _ _ Ht ltac:(done)
    (room_few _ _ _ _ Ho Hc HF) (used_in_files _ _ _ Ht Hs Hu) Hh) as H.
  destruct (proc_fd_alloc _ _ _ _) as [[? ?] ?]. by destruct H as (? & ? & _).
Qed.

Lemma fds_dup2 U F a b s :
  fds_ok U F s → cur_alive s → few F → 0 ≤ a → 0 ≤ b → fds_ok U F (snd (sched_current_process_fd_dup2 a b s)).
Proof.
  intros Ho Hcur HF Ha Hb. apply fds_current; [done..|]. intros c Ec Hc Ht Hh.
  destruct (decide (slot_in_table a ∧ slot_in_table b ∧ in_use (tab s c).[a] = true)) as [(H1 & H2 & H3)|Hno].
  - pose proof (dup2_cases (FileLaws0 := keeping U) _ a b _ _ Ht H1 H2 H3 (room_few _ _ _ _ Ho Hc HF) Hh) as H.
    destruct (proc_fd_dup2 _ _ _ _) as [[? ?] ?]. by destruct H as (? & ? & _).
  - unfold slot_in_table in Hno. unfold proc_fd_dup2. rewrite !slot_for_spec by done. case_decide; [|done]. case_decide; [|done].
    destruct (in_use (tab s c).[a]); [|done]. exfalso. apply Hno. split_and!; try done.
Qed.

(** The file in a slot, and storing it back after a read or a write. *)
Lemma slot_file_in s c i :
  g_current_task s = Some c → table_wf (tab s c) → slot_in_table i → in_use (tab s c).[i] = true →
  slot_file i s ∈ table_files (tab s c).
Proof.
  intros Ec Ht Hi Hu. unfold slot_file. rewrite Ec. change (t_fd_table (task_at s c)) with (tab s c).
  pose proof (used_in_files (tab s c) i [] Ht Hi Hu) as H. by rewrite app_nil_r in H.
Qed.

Lemma fds_put_file U F s c i f fs :
  fds_ok U F s → g_current_task s = Some c → slot c → ¬ gone (task_at s c) → slot_in_table i → in_use (tab s c).[i] = true →
  (∀ G, holding U (slot_file i s :: G) (files s) → holding U (f :: G) fs) →
  fds_ok U F (put_file i f (with_files fs s)).
Proof.
  intros Ho Ec Hc Hng Hi Hu Hf. pose proof (fo_table _ _ _ Ho c Hc) as Ht. unfold put_file. cbn [with_files g_current_task]. rewrite Ec.
  pose proof (fds_split _ _ _ _ Ho Hc) as Hh.
  assert (Hh1 : holding U (slot_file i s :: table_files (tab s c).[i <- free_slot] ++ other_files s c ++ F) (files s)).
  { eapply holding_perm; [|exact Hh]. rewrite (table_files_used _ i) by (rewrite ?Ht; done).
    unfold slot_file. by rewrite Ec. }
  apply Hf in Hh1.
  assert (E : on_task c (λ t, set_fd_table (t_fd_table t).[i <- Slot true f] t) (with_files fs s) =
              with_files fs (on_task c (set_fd_table (tab s c).[i <- Slot true f]) s)) by reflexivity.
  rewrite E. apply (fds_set_table U U F F s); try done; [by apply table_wf_set|].
  eapply holding_perm; [|exact Hh1]. by rewrite table_files_install by (rewrite ?Ht; done).
Qed.

(** * Switching *)

Lemma gone_state t t' : t_state t' = t_state t → gone t' → gone t.
Proof. unfold gone. by intros ->. Qed.

Lemma fds_wake U F s : fds_ok U F s → fds_ok U F (sched_wake_sleepers_locked s).
Proof.
  intros Ho. destruct (wake_sleepers_spec s (fo_len _ _ _ Ho)) as (ts & -> & Hl & Ht).
  apply (fds_frame U F s); try done. intros i Hi. change (task_at (with_tasks ts s) i) with ts.[i]. rewrite Ht by done.
  destruct (due s (task_at s i)); [|by split]. split; [done|]. unfold gone, wake. simpl. by intros [].
Qed.

Lemma fds_schedule U F s s' :
  fds_ok U F s → sched_pre s → g_sched_started s = true → sched_schedule_locked s = Some s' → fds_ok U F s'.
Proof.
  intros Ho Hp Hst E. destruct (schedule_cases s Hp Hst) as (s2 & n & E2 & Hw & Hsw & _). rewrite E in E2. injection E2 as <-.
  apply fds_wake in Ho. set (w := sched_wake_sleepers_locked s) in *. destruct Hsw as [D1 D2 D3 D4 D5 D6 D7].
  apply (fds_frame U F w); [done|apply Hw| |done]. intros i Hi.
  destruct (D3 i Hi) as (_ & _ & _ & _ & Hfd & _). split; [done|]. unfold gone. rewrite D4 by done.
  destruct (decide (i = n)); [by intros []|]. by destruct (decide (t_state (task_at w i) = TASK_RUNNING)); [intros []|].
Qed.
(** * Child slots *)

Definition names s (pid : Z) (e : sched_task_entry) (arg : Z) : Prop :=
  ∃ i, slot i ∧ used (task_at s i) ∧ t_pid (task_at s i) = pid ∧ t_entry (task_at s i) = Some e ∧ t_arg (task_at s i) = arg.

(** The slot of a task that runs [usermode_child_slot_task]. *)
Definition has_slot U (t : task) : Prop :=
  1 ≤ t_arg t ≤ USERMODE_CHILD_SLOT_COUNT ∧ cs_used (child_slot (t_arg t - 1) U) = true ∧
  cs_owner_pid (child_slot (t_arg t - 1) U) = t_pid t.

(** A slot in use belongs to the task that was spawned for it, every such task
    has its slot, and the pids noted for the shell and the session are theirs. *)
Record slots_ok U s : Prop := {
  sl_len : alen (g_user_child_slots U) = USERMODE_CHILD_SLOT_COUNT;
  sl_used : ∀ k, 0 ≤ k < USERMODE_CHILD_SLOT_COUNT → cs_used (child_slot k U) = true →
    names s (cs_owner_pid (child_slot k U)) usermode_child_slot_entry (k + 1);
  sl_task : ∀ i, slot i → used (task_at s i) → t_entry (task_at s i) = Some usermode_child_slot_entry →
    has_slot U (task_at s i);
  sl_shell : g_user_shell_pid U ≠ -1 → names s (g_user_shell_pid U) usermode_elf_demo_entry 3;
  sl_gui : g_user_gui_session_pid U ≠ -1 → names s (g_user_gui_session_pid U) usermode_elf_demo_entry 4;
  sl_idle : t_entry (task_at s 0) = Some sched_idle_task ∧ is_user (task_at s 0) = false
}.

(** What the slots see of a task. *)
Definition same_program (t t' : task) : Prop :=
  (used t' ↔ used t) ∧ t_pid t' = t_pid t ∧ t_entry t' = t_entry t ∧ t_arg t' = t_arg t.

Lemma same_program_refl t : same_program t t.
Proof. done. Qed.

Lemma names_same s s' pid e arg :
  (∀ i, slot i → used (task_at s i) → t_pid (task_at s i) = pid → same_program (task_at s i) (task_at s' i)) →
  names s pid e arg → names s' pid e arg.
Proof.
  intros Hk (i & Hi & Hu & Hp & He & Ha). exists i. destruct (Hk i Hi Hu Hp) as (E1 & E2 & E3 & E4).
  rewrite E1, E2, E3, E4. done.
Qed.

Lemma has_slot_same U t t' : t_pid t' = t_pid t → t_arg t' = t_arg t → has_slot U t → has_slot U t'.
Proof. intros E1 E2. unfold has_slot. by rewrite E1, E2. Qed.

(** Unused places do not matter. *)
Lemma slots_frame_used U s s' :
  slots_ok U s → (∀ i, slot i → used (task_at s i) ∨ used (task_at s' i) → same_program (task_at s i) (task_at s' i)) →
  t_entry (task_at s' 0) = t_entry (task_at s 0) → is_user (task_at s' 0) = is_user (task_at s 0) → slots_ok U s'.
Proof.
  intros [H1 H2 H3 H4 H5 [H6 H7]] Hk He Hx. split; try done.
  - intros k Hk1 Hk2. eapply names_same; [|by apply H2]. intros i Hi Hu _. apply Hk; [done|by left].
  - intros i Hi Hu. destruct (Hk i Hi (or_intror Hu)) as (E1 & E2 & E3 & E4). rewrite E1 in Hu. rewrite E3. intros Hent.
    by apply (has_slot_same U (task_at s i)), H3.
  - intros Hne. eapply names_same; [|by apply H4]. intros i Hi Hu _. apply Hk; [done|by left].
  - intros Hne. eapply names_same; [|by apply H5]. intros i Hi Hu _. apply Hk; [done|by left].
  - by rewrite He, Hx.
Qed.

Lemma slots_frame U s s' :
  slots_ok U s → (∀ i, slot i → same_program (task_at s i) (task_at s' i)) → is_user (task_at s' 0) = is_user (task_at s 0) →
  slots_ok U s'.
Proof.
  intros Ho Hk Hx. apply (slots_frame_used U s); try done; [auto|]. apply (Hk 0 slot_0).
Qed.

Lemma slots_on_task U s i f :
  alen (g_tasks s) = SCHED_MAX_TASKS → slots_ok U s → slot i → same_program (task_at s i) (f (task_at s i)) →
  (i = 0 → is_user (f (task_at s i)) = is_user (task_at s i)) → slots_ok U (on_task i f s).
Proof.
  intros Hl Ho Hi Hk Hx.
  assert (Et : ∀ j, slot j → task_at (on_task i f s) j = if decide (i = j) then f (task_at s i) else task_at s j).
  { intros j Hj. unfold on_task. by rewrite task_at_set by first [done|apply Hj]. }
  apply (slots_frame U s); [done| |].
  - intros j Hj. rewrite Et by done. case_decide; [by subst|done].
  - rewrite Et by apply slot_0. case_decide; [|done]. subst. by apply Hx.
Qed.

Lemma slots_tasks U s s' : g_tasks s' = g_tasks s → slots_ok U s → slots_ok U s'.
Proof.
  intros E Ho. assert (Et : ∀ i, task_at s' i = task_at s i) by (intros; unfold task_at; by rewrite E).
  apply (slots_frame U s); [done| |]; intros; by rewrite Et.
Qed.

(** [usermode_notify_task_reaped] on the variables. *)
Definition reaped (pid : Z) (u : usermode) : usermode :=
  if pid <=? 0 then u
  else if pid =? g_user_shell_pid u then set_shell false (-1) u
  else if pid =? g_user_gui_session_pid u then set_gui_session false (-1) u
  else match usermode_child_slot_by_owner_pid pid u with None => u | Some i => on_slot i release_slot u end.

Lemma by_owner_spec pid u :
  match usermode_child_slot_by_owner_pid pid u with
  | Some k => 0 ≤ k < USERMODE_CHILD_SLOT_COUNT ∧ cs_used (child_slot k u) = true ∧ cs_owner_pid (child_slot k u) = pid
  | None => ∀ k, 0 ≤ k < USERMODE_CHILD_SLOT_COUNT → cs_used (child_slot k u) = true → cs_owner_pid (child_slot k u) ≠ pid
  end.
Proof.
  unfold usermode_child_slot_by_owner_pid. destruct (search_range _ _ _) as [k|] eqn:E.
  - apply search_range_Some in E as (i & Hi & Hf & _). destruct (cs_used (child_slot i u)) eqn:Hu; [|done].
    destruct (Z.eqb_spec (cs_owner_pid (child_slot i u)) pid); [|done]. simpl in Hf. by injection Hf as <-.
  - pose proof (proj1 (search_range_None _ _ _) E) as Hn. intros k Hk Hu Hp. specialize (Hn k Hk). cbv beta in Hn.
    by rewrite Hu, Hp, Z.eqb_refl in Hn.
Qed.

Lemma holding_usermode f U F fs : holding U F fs → holding (f U) F (on_usermode f fs).
Proof. intros [Hh Hu]. unfold on_usermode. rewrite Hu. by apply law_usermode. Qed.

Lemma holding_gui_exit U F pid fs : holding U F fs → holding U F (Sched.display_gui_notify_task_exit pid fs).
Proof. intros Hh. by apply law_console. Qed.

Lemma holding_reaped U F pid fs : holding U F fs → holding (reaped pid U) F (Sched.usermode_notify_task_reaped pid fs).
Proof.
  intros Hh. change (Sched.usermode_notify_task_reaped pid fs) with (usermode_notify_task_reaped pid fs).
  unfold usermode_notify_task_reaped, reaped. rewrite (proj2 Hh). destruct (pid <=? 0); [done|].
  destruct (pid =? g_user_shell_pid U); [by apply law_console, holding_usermode|].
  destruct (pid =? g_user_gui_session_pid U); [by apply (holding_usermode (set_gui_session false (-1)))|].
  pose proof (by_owner_spec pid U) as Hs. destruct (usermode_child_slot_by_owner_pid pid U) as [k|]; [|done].
  destruct Hs as (_ & -> & _). cbn [negb]. by apply (holding_usermode (on_slot k release_slot)).
Qed.

Lemma child_slot_on i k f u :
  alen (g_user_child_slots u) = USERMODE_CHILD_SLOT_COUNT → 0 ≤ i < USERMODE_CHILD_SLOT_COUNT → 0 ≤ k →
  child_slot k (on_slot i f u) = if decide (i = k) then f (child_slot i u) else child_slot k u.
Proof. intros Hl Hi Hk. unfold child_slot, on_slot. cbn [set_child_slots g_user_child_slots]. by rewrite aget_aset by (rewrite ?Hl; done). Qed.
(** The task in place [i] is gone: its slot is free again, and every other
    task keeps its own. *)
Section remove.
Context (U : usermode) (s s' : sched σ) (i : Z).
Context (Ho : slots_ok U s) (Hi : slot i) (Hi0 : i ≠ 0) (Hu : used (task_at s i)) (Hpid : 0 < t_pid (task_at s i)).
Context (Huni : ∀ j, slot j → used (task_at s j) → t_pid (task_at s j) = t_pid (task_at s i) → j = i).
Context (Hgone : ¬ used (task_at s' i)) (Hkeep : ∀ j, slot j → j ≠ i → same_program (task_at s j) (task_at s' j)).
Context (Hx : is_user (task_at s' 0) = is_user (task_at s 0)).

(** A name other than the gone task's stands. *)
Lemma names_other pid e arg :
  (pid = t_pid (task_at s i) → t_entry (task_at s i) = Some e → t_arg (task_at s i) ≠ arg) →
  names s pid e arg → names s' pid e arg.
Proof using Hkeep.
  intros Hne (j & Hj & Huj & Hp & He & Ha). assert (j ≠ i) by (intros ->; by apply Hne).
  destruct (Hkeep j Hj H) as (E1 & E2 & E3 & E4). exists j. rewrite E1, E2, E3, E4. done.
Qed.

Lemma named_gone e arg : names s (t_pid (task_at s i)) e arg → t_entry (task_at s i) = Some e ∧ t_arg (task_at s i) = arg.
Proof using Huni. intros (j & Hj & Huj & Hp & He & Ha). by rewrite <- (Huni j Hj Huj Hp). Qed.

Lemma kept_task U' :
  (∀ j, slot j → j ≠ i → used (task_at s j) → t_entry (task_at s j) = Some usermode_child_slot_entry →
     has_slot U (task_at s j) → has_slot U' (task_at s j)) →
  ∀ j, slot j → used (task_at s' j) → t_entry (task_at s' j) = Some usermode_child_slot_entry → has_slot U' (task_at s' j).
Proof using Ho Hgone Hkeep.
  intros Hk j Hj Huj He. assert (Hne : j ≠ i) by (intros ->; done).
  destruct (Hkeep j Hj Hne) as (E1 & E2 & E3 & E4). rewrite E1 in Huj. rewrite E3 in He.
  apply (has_slot_same U' (task_at s j)); [done..|]. apply Hk; try done. by apply (sl_task _ _ Ho).
Qed.

Lemma idle_kept : t_entry (task_at s' 0) = Some sched_idle_task ∧ is_user (task_at s' 0) = false.
Proof using Ho Hi0 Hkeep Hx.
  destruct (Hkeep 0 slot_0 (not_eq_sym Hi0)) as (_ & _ & -> & _). rewrite Hx. apply (sl_idle _ _ Ho).
Qed.

Lemma slots_remove : slots_ok (reaped (t_pid (task_at s i)) U) s'.
Proof using Ho Hi Hi0 Hu Hpid Huni Hgone Hkeep Hx.
  pose proof idle_kept as Hidle. pose proof (sl_len _ _ Ho) as Hl. unfold reaped. rewrite (proj2 (Z.leb_gt _ 0)) by lia.
  destruct (Z.eqb_spec (t_pid (task_at s i)) (g_user_shell_pid U)) as [Es|Es].
  { assert (Hsh : t_entry (task_at s i) = Some usermode_elf_demo_entry ∧ t_arg (task_at s i) = 3).
    { apply named_gone. rewrite Es. apply (sl_shell _ _ Ho). lia. }
    destruct Hsh as [He Ha]. split; try done.
    - intros k Hk Huk. apply names_other; [|by apply (sl_used _ _ Ho)]. rewrite He. done.
    - apply kept_task. done.
    - intros Hne. apply names_other; [|by apply (sl_gui _ _ Ho)]. rewrite Ha. done. }
  destruct (Z.eqb_spec (t_pid (task_at s i)) (g_user_gui_session_pid U)) as [Eg|Eg].
  { assert (Hsh : t_entry (task_at s i) = Some usermode_elf_demo_entry ∧ t_arg (task_at s i) = 4).
    { apply named_gone. rewrite Eg. apply (sl_gui _ _ Ho). lia. }
    destruct Hsh as [He Ha]. split; try done.
    - intros k Hk Huk. apply names_other; [|by apply (sl_used _ _ Ho)]. rewrite He. done.
    - apply kept_task. done.
    - intros Hne. apply names_other; [|by apply (sl_shell _ _ Ho)]. rewrite Ha. done. }
  pose proof (by_owner_spec (t_pid (task_at s i)) U) as Hs.
  destruct (usermode_child_slot_by_owner_pid _ U) as [k0|].
  - destruct Hs as (Hk0 & Hu0 & Hp0).
    assert (Hself : t_entry (task_at s i) = Some usermode_child_slot_entry ∧ t_arg (task_at s i) = k0 + 1).
    { apply named_gone. rewrite <- Hp0. by apply (sl_used _ _ Ho). }
    destruct Hself as [He Ha]. split; try done.
    + cbn [on_slot set_child_slots g_user_child_slots]. by rewrite alen_aset.
    + intros k Hk. rewrite child_slot_on by (done || apply Hk). case_decide as Hd; [done|]. intros Huk.
      apply names_other; [|by apply (sl_used _ _ Ho)]. rewrite Ha. lia.
    + apply kept_task. intros j Hj Hne Huj Hej (A1 & A2 & A3). unfold has_slot.
      rewrite child_slot_on by first [done|lia]. rewrite decide_False; [done|]. intros Ek. apply Hne, Huni; try done.
      rewrite <- A3, <- Ek. done.
    + intros Hne. apply names_other; [|by apply (sl_shell _ _ Ho)]. rewrite He. done.
    + intros Hne. apply names_other; [|by apply (sl_gui _ _ Ho)]. rewrite He. done.
  - split; try done.
    + intros k Hk Huk. apply names_other; [|by apply (sl_used _ _ Ho)]. intros Ep. by destruct (Hs k Hk Huk).
    + apply kept_task. done.
    + intros Hne. apply names_other; [|by apply (sl_shell _ _ Ho)]. congruence.
    + intros Hne. apply names_other; [|by apply (sl_gui _ _ Ho)]. congruence.
Qed.
End remove.

(** * Both together *)

Definition own U F s : Prop := fds_ok U F s ∧ slots_ok U s.
Definition owned F s : Prop := ∃ U, own U F s.

(** A task that looks the same. *)
Definition same_look (t t' : task) : Prop := keeps t t' ∧ same_program t t' ∧ is_user t' = is_user t.

Lemma own_frame U F s s' :
  own U F s → alen (g_tasks s') = SCHED_MAX_TASKS → (∀ i, slot i → same_look (task_at s i) (task_at s' i)) →
  files s' = files s → own U F s'.
Proof.
  intros [Hf Hs] Hl Hk E. split.
  - apply (fds_frame U F s); [done|done| |done]. intros i Hi. by apply Hk.
  - apply (slots_frame U s); [done| |apply (Hk 0 slot_0)]. intros i Hi. by apply Hk.
Qed.

Lemma own_on_task U F s i f : own U F s → slot i → same_look (task_at s i) (f (task_at s i)) → own U F (on_task i f s).
Proof.
  intros [Hf Hs] Hi (H1 & H2 & H3). split; [by apply fds_on_task|].
  apply slots_on_task; try done. apply (fo_len _ _ _ Hf).
Qed.

Lemma own_with_mem U F m s : own U F s → own U F (with_mem m s).
Proof. intros Ho. apply (own_frame U F s); try done. apply (fo_len _ _ _ (proj1 Ho)). Qed.

Lemma own_wake U F s : own U F s → own U F (sched_wake_sleepers_locked s).
Proof.
  intros Ho. destruct (wake_sleepers_spec s (fo_len _ _ _ (proj1 Ho))) as (ts & -> & Hl & Ht).
  apply (own_frame U F s); try done. intros i Hi. change (task_at (with_tasks ts s) i) with ts.[i]. rewrite Ht by done.
  destruct (due s (task_at s i)) eqn:Ed; [|by repeat split]. apply due_sleeping in Ed. unfold same_look, keeps, same_program, gone, used.
  simpl. rewrite Ed. split_and!; try done. by intros [].
Qed.

Lemma own_schedule U F s s' :
  own U F s → sched_pre s → g_sched_started s = true → sched_schedule_locked s = Some s' → own U F s'.
Proof.
  intros Ho Hp Hst E. destruct (schedule_cases s Hp Hst) as (s2 & n & E2 & Hw & Hsw & Hpk & _).
  pose proof (wake_pre s Hp) as Hpw. destruct (pick_cases _ Hpw) as (n' & s3 & E3 & _ & _ & _ & Hcase).
  rewrite E3 in Hpk. injection Hpk as ->. rewrite E in E2. injection E2 as <-.
  apply own_wake in Ho. set (w := sched_wake_sleepers_locked s) in *. destruct Hsw as [D1 D2 D3 D4 D5 D6 D7].
  assert (Hn : t_state (task_at w n) = TASK_RUNNABLE ∨ t_state (task_at w n) = TASK_RUNNING) by (destruct Hcase as [[_ []]|[_ ?]]; auto).
  apply (own_frame U F w); [done|apply Hw| |done]. intros i Hi.
  destruct (D3 i Hi) as (I1 & I2 & I3 & I4 & I5 & I6 & I7 & I8 & I9 & I10).
  unfold same_look, keeps, same_program, gone, used, is_user. rewrite D4, I1, I3, I5, I9, I10 by done.
  destruct (decide (i = n)) as [->|]; [split_and!; try done; [by intros []|by destruct Hn as [->| ->]]|].
  destruct (decide (t_state (task_at w i) = TASK_RUNNING)) as [Er|]; [|done]. rewrite Er. split_and!; try done. by intros [].
Qed.

(** * Reaping and exiting *)

Lemma pid_unique s i : sched_pre s → slot i → used (task_at s i) →
  0 < t_pid (task_at s i) ∧ ∀ j, slot j → used (task_at s j) → t_pid (task_at s j) = t_pid (task_at s i) → j = i.
Proof.
  intros Hp Hi Hu. pose proof (sp_table _ Hp) as Ht. split; [by apply (to_pid _ _ _ Ht)|].
  intros j Hj Huj E. by apply (to_unique _ _ _ Ht).
Qed.

(** A place whose task is gone, the hooks having been called. *)
Lemma own_remove U F s s' i :
  own U F s → sched_pre s → slot i → i ≠ 0 → used (task_at s i) → table_files (tab s' i) = table_files (tab s i) →
  table_wf (tab s' i) → table_files (tab s i) = [] →
  alen (g_tasks s') = SCHED_MAX_TASKS → ¬ used (task_at s' i) → (∀ j, slot j → j ≠ i → task_at s' j = task_at s j) →
  (∀ G, holding U G (files s) → holding (reaped (t_pid (task_at s i)) U) G (files s')) →
  own (reaped (t_pid (task_at s i)) U) F s'.
Proof.
  intros [Hf Hs] Hp Hi Hi0 Hu Et Hwf He Hl Hgo Hk Hh. destruct (pid_unique s i Hp Hi Hu) as [Hpos Huni]. split.
  - pose proof Hf as [H1 H2 H3 H4]. split; [done| | |].
    + intros j Hj. destruct (decide (j = i)) as [->|Hne]; [done|]. unfold tab. rewrite Hk by done. by apply H2.
    + intros j Hj. destruct (decide (j = i)) as [->|Hne]; [by rewrite Et|]. unfold tab. rewrite Hk by done. by apply H3.
    + apply Hh. eapply holding_perm; [|exact H4]. f_equiv. rewrite (task_files_split s' i Hi), (task_files_split s i Hi), Et.
      rewrite (other_files_same s s' i); [done|]. intros j Hj Hne. unfold tab. by rewrite Hk.
  - apply (slots_remove U s s' i); try done.
    + intros j Hj Hne. by rewrite Hk.
    + by rewrite Hk by (done || apply slot_0).
Qed.

Lemma reap_files s i :
  used (task_at s i) → g_current_task s ≠ Some i →
  files (sched_reap_task_locked i s) =
    Sched.usermode_notify_task_reaped (t_pid (task_at s i)) (Sched.display_gui_notify_task_exit (t_pid (task_at s i)) (files s)).
Proof.
  intros Hu Hc. unfold sched_reap_task_locked, state_is, is_current. rewrite !bool_decide_false by done. cbn [orb].
  by destruct (t_stack_base (task_at s i) =? 0), (own_address_space (t_address_space (task_at s i))).
Qed.

Lemma own_reap U F s i :
  own U F s → sched_pre s → slot i → t_state (task_at s i) = TASK_ZOMBIE → g_current_task s ≠ Some i →
  own (reaped (t_pid (task_at s i)) U) F (sched_reap_task_locked i s).
Proof.
  intros Ho Hp Hi Hz Hc. assert (Hu : used (task_at s i)) by (unfold used; congruence).
  assert (Hi0 : i ≠ 0) by (intros ->; destruct (to_idle _ _ _ (sp_table _ Hp)); congruence).
  destruct (reap_zombie s i Hp Hi Hz Hc) as (Hp' & Ht & _).
  assert (Ei : task_at (sched_reap_task_locked i s) i = task_reset) by (by rewrite Ht, decide_True).
  assert (He : table_files (tab s i) = []) by (apply (fo_gone _ _ _ (proj1 Ho)); [done|by right]).
  apply (own_remove U F s); try done.
  - rewrite He. unfold tab. by rewrite Ei.
  - unfold tab. by rewrite Ei.
  - apply (sp_len _ Hp').
  - rewrite Ei. by intros [].
  - intros j Hj Hne. by rewrite Ht, decide_False by congruence.
  - intros G HG. rewrite reap_files by done. by apply holding_reaped, holding_gui_exit.
Qed.

(** The children of a task that exits. *)
Lemma owned_orphans F s c :
  owned F s → sched_pre s → g_current_task s = Some c → t_state (task_at s c) = TASK_RUNNING →
  owned F (sched_orphan_or_reap_children_locked (t_pid (task_at s c)) s).
Proof.
  intros Ho Hp Hcur Hrun. set (pid := t_pid (task_at s c)). pose proof (current_slot s c Hp Hcur) as Hc.
  assert (Hself : after_parent pid (task_at s c) = task_at s c).
  { unfold after_parent. rewrite decide_True; [done|]. right. apply no_own_child; try done. unfold used. congruence. }
  pose (P := λ (n : Z) (x : sched σ), owned F x ∧ sched_pre x ∧ g_current_task x = Some c ∧ task_at x c = task_at s c).
  assert (HP : P SCHED_MAX_TASKS (sched_orphan_or_reap_children_locked pid s)); [|exact (proj1 HP)].
  unfold sched_orphan_or_reap_children_locked. apply (for_range_ind P); [unfold SCHED_MAX_TASKS; lia|done|].
  intros n x Hn ([U Hox] & Hpx & Hcx & Ecx). assert (Hns : slot n) by done.
  pose proof (orphan_child_cases x c n Hpx Hcx ltac:(congruence) Hns) as Hst. cbv zeta in Hst.
  rewrite Ecx in Hst. fold pid in Hst. destruct Hst as (Q1 & Q2 & Q3 & Q4 & Q5 & Q6).
  split; [|split; [done|split; [congruence|]]].
  2: { rewrite Q6 by done. case_decide as Hd; [|done]. subst n. by rewrite Ecx. }
  unfold orphan_or_reap_child. destruct (state_is x n TASK_UNUSED || _) eqn:Eo; [by exists U|].
  apply orb_false_elim in Eo as [En Ep].
  destruct (state_is x n TASK_ZOMBIE) eqn:Ez.
  - apply state_is_spec in Ez. eexists. apply own_reap; try done. rewrite Hcx. intros [= ->]. congruence.
  - exists U. apply own_on_task; [done|done|]. by repeat split.
Qed.
(** Closing every descriptor of the current task. *)
Lemma own_close_all U F s c :
  own U F s → slot c → ¬ gone (task_at s c) →
  let '(_, t', fs) := proc_fd_close_all (tab s c) (files s) in
  own U F (with_files fs (on_task c (set_fd_table t') s)) ∧ table_files t' = [].
Proof.
  intros [Hf Hs] Hc Hng. pose proof (fo_table _ _ _ Hf c Hc) as Ht.
  pose proof (close_all_cases (FileLaws0 := keeping U) _ _ _ Ht (fds_split _ _ _ _ Hf Hc)) as H.
  destruct (proc_fd_close_all _ _) as [[n t'] fs]. destruct H as (Ht' & Hfree & Hh & _).
  assert (He : table_files t' = []).
  { apply table_files_empty. intros i Hi. apply Hfree. by rewrite Ht' in Hi. }
  split; [split|done].
  - apply (fds_set_table U U F F s); try done. by rewrite He.
  - apply (slots_tasks U (on_task c (set_fd_table t') s)); [done|]. apply slots_on_task; try done. apply (fo_len _ _ _ Hf).
Qed.

Lemma own_gui_exit U F pid s : own U F s → own U F (with_files (Sched.display_gui_notify_task_exit pid (files s)) s).
Proof.
  intros [Hf Hs]. split; [|by apply (slots_tasks U s)]. apply (fds_with_files U F U F s); [done|]. intros G _. apply holding_gui_exit.
Qed.

(** The task becomes a zombie, or leaves its place. *)
Lemma own_zombie U F s c :
  own U F s → sched_pre s → g_current_task s = Some c → c ≠ 0 → t_state (task_at s c) = TASK_RUNNING →
  t_parent_pid (task_at s c) ≠ -1 → (∀ k, slot k → used (task_at s k) → t_parent_pid (task_at s k) ≠ t_pid (task_at s c)) →
  table_files (tab s c) = [] →
  own U F (sched_maybe_wake_parent_waiter_locked (t_parent_pid (task_at s c)) (t_pid (task_at s c))
             (on_task c (set_state TASK_ZOMBIE) s)).
Proof.
  intros [Hf Hs] Hp Hcur Hc0 Hrun Hpp Hch He.
  destruct (zombie_cases s c Hp Hcur Hc0 Hrun Hpp Hch) as (Hp' & Es & Ht).
  set (s' := sched_maybe_wake_parent_waiter_locked _ _ _) in *.
  assert (Hcase : ∀ i, slot i → tab s' i = tab s i ∧ (gone (task_at s' i) → gone (task_at s i) ∨ table_files (tab s i) = []) ∧
    same_program (task_at s i) (task_at s' i) ∧ is_user (task_at s' i) = is_user (task_at s i)).
  { intros i Hi. unfold tab. rewrite Ht by done. destruct (decide (i = c)) as [->|Hne].
    - unfold same_program, used. simpl. rewrite Hrun. split_and!; try done. intros _. by right.
    - destruct (decide _) as [(Hw & _)|]; [|split_and!; try done; by left].
      unfold gone, same_program, used. simpl. rewrite Hw. split_and!; try done. by intros []. }
  split.
  - apply (fds_frame_gone U F s); [done|apply (sp_len _ Hp')| | |by rewrite Es]; intros i Hi; by apply Hcase.
  - apply (slots_frame U s); [done| |by apply Hcase, slot_0]. intros i Hi. by apply Hcase.
Qed.

Lemma leave_files s c :
  files (leave_slot c s) = Sched.usermode_notify_task_reaped (t_pid (task_at s c)) (files s).
Proof.
  unfold leave_slot, sched_flush_deferred_as_free_locked, sched_flush_deferred_stack_free_locked.
  repeat case_match; reflexivity.
Qed.

Lemma leave_tab s c : alen (g_tasks s) = SCHED_MAX_TASKS → slot c → tab (leave_slot c s) c = tab s c.
Proof.
  intros Hl Hc. unfold leave_slot, tab. rewrite task_at_eq; [done| |done].
  unfold sched_flush_deferred_as_free_locked, sched_flush_deferred_stack_free_locked. by repeat case_match.
Qed.

Lemma own_leave U F s c :
  own U F s → sched_pre s → g_current_task s = Some c → c ≠ 0 → t_state (task_at s c) = TASK_RUNNING →
  t_parent_pid (task_at s c) = -1 → (∀ k, slot k → used (task_at s k) → t_parent_pid (task_at s k) ≠ t_pid (task_at s c)) →
  table_files (tab s c) = [] →
  own (reaped (t_pid (task_at s c)) U) F (leave_slot c s).
Proof.
  intros Ho Hp Hcur Hc0 Hrun Hpp Hch He. pose proof (current_slot s c Hp Hcur) as Hc.
  destruct (leave_cases s c Hp Hcur Hc0 Hrun Hpp Hch) as (Hp' & _ & _ & _ & _ & _ & Hst & Ht).
  pose proof (leave_tab s c (sp_len _ Hp) Hc) as Et.
  apply (own_remove U F s); try done.
  - unfold used. congruence.
  - by rewrite Et.
  - rewrite Et. by apply (fo_table _ _ _ (proj1 Ho)).
  - apply (sp_len _ Hp').
  - by intros [].
  - intros G HG. rewrite leave_files. by apply holding_reaped.
Qed.

Lemma owned_exit F s c :
  owned F s → sched_pre s → g_current_task s = Some c → c ≠ 0 → t_state (task_at s c) = TASK_RUNNING →
  is_user (task_at s c) = true ∨ table_files (tab s c) = [] → owned F (exit_task c s).
Proof.
  intros [U Ho] Hp Hcur Hc0 Hrun Hor. pose proof (current_slot s c Hp Hcur) as Hc.
  assert (Hng : ¬ gone (task_at s c)) by (unfold gone; rewrite Hrun; by intros []).
  pose proof (exit_start s c Hp Hcur) as Hst. cbv zeta in Hst. unfold exit_task.
  set (s1 := if is_user (task_at s c) then _ else s) in *. cbv zeta.
  assert (Ho1 : own U F s1 ∧ table_files (tab s1 c) = []).
  { unfold s1. destruct (is_user (task_at s c)); [|by destruct Hor].
    pose proof (own_close_all U F s c Ho Hc Hng) as H. unfold tab in H. destruct (proc_fd_close_all _ _) as [[n t'] fs].
    destruct H as [H1 H2]. split; [done|]. unfold tab. change (task_at (with_files fs ?x)) with (task_at x).
    unfold on_task. by rewrite task_at_eq by first [done|apply (sp_len _ Hp)]. }
  destruct Ho1 as [Ho1 He1]. set (s2 := with_files _ s1) in *. destruct Hst as (Hsame & _ & _).
  assert (Ho2 : own U F s2) by (by apply own_gui_exit).
  assert (He2 : table_files (tab s2 c) = []) by done.
  pose proof (same_sched_pre _ _ Hsame Hp) as Hp2. pose proof (ss_cur _ _ Hsame) as Hcur2. rewrite Hcur in Hcur2.
  destruct (ss_tasks _ _ Hsame c Hc) as (Est & Epid & Epp & _).
  change (t_pid (task_at s1 c)) with (t_pid (task_at s2 c)).
  assert (Hrun2 : t_state (task_at s2 c) = TASK_RUNNING) by congruence.
  destruct (owned_orphans F s2 c (ex_intro _ U Ho2) Hp2 Hcur2 Hrun2) as [U3 Ho3].
  pose proof (orphans_cases s2 c Hp2 Hcur2 Hrun2) as Hor3. cbv zeta in Hor3.
  set (s3 := sched_orphan_or_reap_children_locked _ s2) in *. destruct Hor3 as (Hp3 & Hcur3 & _ & _ & _ & Ht3).
  assert (Hu2 : used (task_at s2 c)) by (unfold used; congruence).
  assert (E3 : task_at s3 c = task_at s2 c).
  { rewrite Ht3 by done. unfold after_parent. rewrite decide_True; [done|]. right. by apply no_own_child. }
  assert (Hch3 : ∀ k, slot k → used (task_at s3 k) → t_parent_pid (task_at s3 k) ≠ t_pid (task_at s3 c)).
  { intros k Hk. rewrite E3, Ht3 by done. pose proof (to_pid _ _ _ (sp_table _ Hp2) c Hc Hu2). unfold after_parent, used.
    destruct (decide _) as [[Hd|Hd]|Hd]; [done|done|]. destruct (decide _); simpl; [done|lia]. }
  assert (He3 : table_files (tab s3 c) = []) by (unfold tab; by rewrite E3).
  pose proof (keep_zombie_spec s3 c Hp3 Hc ltac:(unfold used; congruence)) as Hkz.
  destruct (keep_zombie c s3) eqn:Ek.
  - exists U3. rewrite <- E3. apply own_zombie; try done; try congruence. by apply Hkz.
  - eexists. apply own_leave; try done; try congruence.
    destruct (decide (t_parent_pid (task_at s3 c) = -1)) as [|Hne]; [done|]. by apply Hkz in Hne.
Qed.
(** * New tasks *)

Lemma fds_new_task U F s s2 i t :
  fds_ok U F s → slot i → gone (task_at s i) → g_tasks s2 = g_tasks s → table_wf (t_fd_table t) →
  (gone t → table_files (t_fd_table t) = []) → holding U (table_files (t_fd_table t) ++ task_files s ++ F) (files s2) →
  fds_ok U F (set_task i t s2).
Proof.
  intros [H1 H2 H3 H4] Hi Hg Et Hwf Hgt Hh. set (s' := set_task i t s2).
  assert (Ea : ∀ j, slot j → task_at s' j = if decide (i = j) then t else task_at s j).
  { intros j Hj. unfold s'. rewrite task_at_set by first [done|apply Hj|by rewrite Et]. unfold task_at. by rewrite Et. }
  assert (Etab : ∀ j, slot j → tab s' j = if decide (i = j) then t_fd_table t else tab s j).
  { intros j Hj. unfold tab. rewrite Ea by done. by case_decide. }
  split.
  - unfold s'. by rewrite set_task_len, Et.
  - intros j Hj. rewrite Etab by done. case_decide; [done|by apply H2].
  - intros j Hj. rewrite Ea, Etab by done. case_decide; [done|by apply H3].
  - change (files s') with (files s2). eapply holding_perm; [|exact Hh].
    rewrite (task_files_split s i Hi), (task_files_split s' i Hi), H3 by done. rewrite Etab, decide_True by done.
    rewrite (other_files_same s s' i); [simpl; by rewrite <- app_assoc|]. intros j Hj Hne. by rewrite Etab, decide_False by congruence.
Qed.

Definition same_or_free s s' : Prop :=
  ∀ i, slot i → task_at s' i = task_at s i ∨ (i ≠ 0 ∧ ¬ used (task_at s i) ∧ ¬ used (task_at s' i)).

Lemma slots_free U s s' : slots_ok U s → same_or_free s s' → slots_ok U s'.
Proof.
  intros Ho Hk. assert (E0 : task_at s' 0 = task_at s 0) by (by destruct (Hk 0 slot_0) as [|[]]).
  apply (slots_frame_used U s); try done; try by rewrite E0. intros i Hi Hu.
  destruct (Hk i Hi) as [->|(_ & H1 & H2)]; [done|by destruct Hu].
Qed.

Lemma same_or_free_tasks s s' : g_tasks s' = g_tasks s → same_or_free s s'.
Proof. intros E i Hi. left. unfold task_at. by rewrite E. Qed.

Lemma unused_not_idle s i : sched_pre s → t_state (task_at s i) = TASK_UNUSED → i ≠ 0.
Proof. intros Hp Hu ->. destruct (to_idle _ _ _ (sp_table _ Hp)); congruence. Qed.

Lemma same_or_free_set s s2 i t :
  sched_pre s → slot i → t_state (task_at s i) = TASK_UNUSED → g_tasks s2 = g_tasks s → ¬ used t →
  same_or_free s (set_task i t s2).
Proof.
  intros Hp Hi Hun Et Ht j Hj. rewrite task_at_set by first [done|apply Hj|rewrite Et; apply Hp].
  case_decide as Hd; [|left; unfold task_at; by rewrite Et]. subst j. right. split; [by apply (unused_not_idle s)|].
  split; [by intros []|done].
Qed.

(** What making a task does: it fails and changes nothing that matters, or a
    free place holds the new task. *)
Definition made s s' (r : res Z) (P : task → Prop) : Prop :=
  match r with
  | Err _ => same_or_free s s'
  | Ok pid => ∃ i, slot i ∧ i ≠ 0 ∧ ¬ used (task_at s i) ∧ used (task_at s' i) ∧ t_pid (task_at s' i) = pid ∧
      P (task_at s' i) ∧ ∀ j, slot j → j ≠ i → task_at s' j = task_at s j
  end.

Lemma made_new s s2 i t (P : task → Prop) :
  sched_pre s → slot i → t_state (task_at s i) = TASK_UNUSED → g_tasks s2 = g_tasks s → used t → P t →
  made s (set_task i t s2) (Ok (t_pid t)) P.
Proof.
  intros Hp Hi Hun Et Hu HP. assert (Hl : alen (g_tasks s2) = SCHED_MAX_TASKS) by (rewrite Et; apply Hp).
  exists i. rewrite !(task_at_eq s2 i t) by done. split_and!; try done; [by apply (unused_not_idle s)|by intros []|].
  intros j Hj Hne. rewrite task_at_ne by first [done|apply Hj|congruence]. unfold task_at. by rewrite Et.
Qed.

Lemma cur_alive_wf s : sched_wf s → cur_alive s.
Proof.
  intros (Hp & Hr & _) c Hc. split; [by apply (current_slot s)|]. unfold gone. rewrite Hr by done. by intros [].
Qed.

(** Cloning the current task's table. *)
Lemma clone_table U F s c :
  fds_ok U F s → slot c → few F →
  let '(r, t', fs) := proc_fd_table_clone (tab s c) (files s) in
  match r with
  | Ok _ => table_wf t' ∧ holding U (table_files t' ++ task_files s ++ F) fs
  | Err _ => holding U (task_files s ++ F) fs
  end.
Proof.
  intros Ho Hc HF. pose proof (table_clone_cases (FileLaws0 := keeping U) (tab s c) (other_files s c ++ F) (files s)
    (fo_table _ _ _ Ho c Hc) (room_few _ _ _ _ Ho Hc HF) (fds_split _ _ _ _ Ho Hc)) as H.
  destruct (proc_fd_table_clone _ _) as [[r t'] fs]. destruct H as [Ht H].
  assert (Hp : table_files (tab s c) ++ other_files s c ++ F ≡ₚ task_files s ++ F).
  { by rewrite (task_files_split s c Hc), <- app_assoc. }
  destruct r; [destruct H as [_ H]; split; [done|]|]; (eapply holding_perm; [|exact H]); by rewrite Hp.
Qed.

Lemma spawn_owns U F s name entry arg size ppid inh :
  fds_ok U F s → sched_wf s → few F → g_next_pid s < 2147483648 →
  let '(r, s') := sched_spawn_task_internal name entry arg size ppid inh s in
  fds_ok U F s' ∧ made s s' r (λ t, t_entry t = entry ∧ t_arg t = arg).
Proof.
  intros Ho Hw HF Hb. pose proof (proj1 Hw) as Hp. pose proof (sp_np _ Hp) as Hnp.
  unfold sched_spawn_task_internal. destruct entry as [e|]; [|split; [done|by apply same_or_free_tasks]].
  cbv zeta. pose proof (find_slot_spec s) as Hslot. destruct (sched_find_task_slot s) as [i|].
  2: { split; [done|by apply same_or_free_tasks]. }
  destruct Hslot as [His Hun]. destruct (kmalloc _ _) as [stack h].
  destruct (stack =? 0); [split; [by apply fds_with_mem|by apply same_or_free_tasks]|].
  assert (Hg : gone (task_at s i)) by (by left).
  set (s1 := with_next_pid _ _). 
  assert (Hgo : ∀ t s2, g_tasks s2 = g_tasks s → t_state t = TASK_RUNNABLE → t_entry t = Some e → t_arg t = arg →
    table_wf (t_fd_table t) → holding U (table_files (t_fd_table t) ++ task_files s ++ F) (files s2) →
    fds_ok U F (set_task i (sched_init_task_stack t) s2) ∧
    made s (set_task i (sched_init_task_stack t) s2) (Ok (t_pid t)) (λ t, t_entry t = Some e ∧ t_arg t = arg)).
  { intros t s2 Et Hst He Ha Hwf Hh. split.
    - apply (fds_new_task U F s); try done. unfold gone. simpl. rewrite Hst. by intros [].
    - apply (made_new s s2 i (sched_init_task_stack t)); try done. unfold used. simpl. by rewrite Hst. }
  pose proof (fo_held _ _ _ Ho) as Hh.
  change (g_current_task s1) with (g_current_task s).
  destruct (g_current_task s) as [c|] eqn:Ec; [|by apply Hgo].
  change (task_at s1 c) with (task_at s c).
  destruct ((0 <? ppid) && (t_pid (task_at s c) =? ppid) && is_user (task_at s c)); [|by apply Hgo].
  destruct inh; [|by apply Hgo].
  pose proof (clone_table U F s c Ho (current_slot s c Hp Ec) HF) as Hcl. unfold tab in Hcl.
  change (files s1) with (files s). destruct (proc_fd_table_clone _ _) as [[[[]|er] t'] fs].
  - destruct Hcl as [Ht' Hcl]. by apply Hgo.
  - split.
    + unfold drop_slot. by apply (fds_new_task U F s).
    + unfold drop_slot. apply same_or_free_set; try done. by intros [].
Qed.
(** * The current task *)

Lemma own_tasks U F s s' : g_tasks s' = g_tasks s → files s' = files s → own U F s → own U F s'.
Proof.
  intros Et Ef Ho. apply (own_frame U F s); [done|rewrite Et; apply (proj1 Ho)| |done].
  intros i Hi. unfold task_at. rewrite Et. by repeat split.
Qed.

Lemma own_fds U F s s' : own U F s → fds_ok U F s' → (∀ i, slot i → same_program (task_at s i) (task_at s' i)) →
  is_user (task_at s' 0) = is_user (task_at s 0) → own U F s'.
Proof. intros [_ Hs] Hf Hk Hx. split; [done|]. by apply (slots_frame U s). Qed.

Lemma own_ensure U F s c ranges : own U F s → slot c → own U F (snd (ensure_address_space c ranges s)).
Proof.
  intros Ho Hc. unfold ensure_address_space. destruct (own_address_space _); [done|].
  destruct (paging_create_user_address_space _ _) as [[as_|e] m]; cbn [snd]; [|by apply own_with_mem].
  apply own_on_task; [by apply own_with_mem|done|by repeat split].
Qed.

Lemma own_mark U F s eip esp :
  own U F s → sched_pre s → g_current_task s ≠ Some 0 → own U F (snd (sched_mark_current_task_user_bootstrap eip esp s)).
Proof.
  intros Ho Hp H0. unfold sched_mark_current_task_user_bootstrap. destruct (g_current_task s) as [c|] eqn:Ec; [|done].
  pose proof (current_slot s c Hp Ec) as Hc. destruct (sched_build_user_ranges _) as [ranges|e]; [|done].
  pose proof (own_ensure U F s c ranges Ho Hc) as He. destruct (ensure_address_space c ranges s) as [[u|e] s1]; [|done].
  cbn [snd] in *. pose proof (own_with_mem U F (snd (paging_activate_address_space (t_address_space (task_at s1 c)) (mem s1))) s1 He) as Ha.
  change (with_mem _ s1) with (activate_current c s1) in Ha. destruct Ha as [Hf Hs]. split.
  - apply fds_on_task; [done|done|by split].
  - apply slots_on_task; [apply (fo_len _ _ _ Hf)|done|done|by split|]. intros ->. congruence.
Qed.

(** A change of what only the current task's user part sees. *)
Lemma own_set_user U F s c (f : task → task_user_ctx) :
  own U F s → slot c → own U F (on_task c (λ t, set_user (f t) t) s).
Proof. intros Ho Hc. apply own_on_task; [done|done|by repeat split]. Qed.

Lemma own_on_user U F s f : own U F s → sched_pre s → own U F (on_current_user f s).
Proof.
  intros Ho Hp. unfold on_current_user, current_user. destruct (g_current_task s) as [c|] eqn:Ec; [|done]. cbn.
  destruct (is_user (task_at s c)); [|done]. apply own_set_user; [done|by apply (current_slot s)].
Qed.

Lemma own_layout U F s ib isz sb ssz :
  own U F s → sched_pre s → own U F (snd (sched_set_current_user_layout ib isz sb ssz s)).
Proof.
  intros Ho Hp. unfold sched_set_current_user_layout. destruct (g_current_task s) as [c|] eqn:Ec; [|done].
  destruct (_ || _); [done|]. apply own_set_user; [done|by apply (current_slot s)].
Qed.

Lemma own_cmdline U F s src len : own U F s → sched_pre s → own U F (snd (sched_set_current_task_cmdline src len s)).
Proof.
  intros Ho Hp. unfold sched_set_current_task_cmdline. destruct (g_current_task s) as [c|] eqn:Ec; [|done].
  destruct (_ && _); [done|]. destruct (_ <=? _); [done|]. apply own_set_user; [done|by apply (current_slot s)].
Qed.

Lemma own_cwd U F s src len : own U F s → sched_pre s → own U F (snd (sched_set_current_task_cwd src len s)).
Proof.
  intros Ho Hp. unfold sched_set_current_task_cwd. destruct (g_current_task s) as [c|] eqn:Ec; [|done].
  destruct (_ || _); [done|]. destruct (_ <=? _); [done|]. apply own_set_user; [done|by apply (current_slot s)].
Qed.

Lemma own_current_fds {A} U F (f : proc_fd_table → σ → res A * proc_fd_table * σ) s :
  sched_pre s → own U F s → fds_ok U F (snd (with_current_fds f s)) → own U F (snd (with_current_fds f s)).
Proof.
  intros Hp [Hf Hs] Hf'. split; [done|]. revert Hf'. unfold with_current_fds.
  destruct (g_current_task s) as [c|] eqn:Ec; [|done]. destruct (negb _); [done|].
  destruct (f _ _) as [[r t'] fs]. cbn [snd]. intros Hf'. apply (slots_tasks U (on_task c (set_fd_table t') s)); [done|].
  apply slots_on_task; try done; [apply Hp|by apply (current_slot s)].
Qed.

(** * Fork *)

Lemma slots_new U s s' r (P : task → Prop) :
  slots_ok U s → made s s' r P → (∀ t, P t → used t → t_entry t = Some usermode_child_slot_entry → has_slot U t) → slots_ok U s'.
Proof.
  intros Ho Hm HP. destruct r as [pid|e]; [|by apply (slots_free U s)].
  destruct Hm as (i & Hi & Hi0 & Hun & Hu & Hpid & HPi & Hk). pose proof Ho as [H1 H2 H3 H4 H5 [H6 H7]].
  assert (Hkeep : ∀ j, slot j → used (task_at s j) → same_program (task_at s j) (task_at s' j)).
  { intros j Hj Huj. rewrite Hk; [done|done|]. by intros ->. }
  assert (Hn : ∀ pid e arg, names s pid e arg → names s' pid e arg) by (intros; eapply names_same; [|done]; auto).
  split; try auto.
  - intros j Hj Huj He. destruct (decide (j = i)) as [->|Hne]; [by apply HP|]. rewrite Hk in * by done. by apply H3.
  - by rewrite Hk by (done || apply slot_0).
Qed.

Lemma fork_made U F s ctx :
  own U F s → sched_wf s → few F → g_next_pid s < 2147483648 →
  let '(r, s') := sched_fork_current_user_task ctx s in
  fds_ok U F s' ∧ ∃ s1, own U F s1 ∧ made s1 s' r (λ t, t_entry t = Some sched_user_fork_child_entry).
Proof.
  intros Ho Hw HF Hb. pose proof (proj1 Hw) as Hp. unfold sched_fork_current_user_task.
  assert (Hkeep : ∀ e (x : sched σ), own U F x → fds_ok U F x ∧
    ∃ s1, own U F s1 ∧ made s1 x (Err e) (λ t, t_entry t = Some sched_user_fork_child_entry)).
  { intros e x Hx. split; [apply Hx|]. exists x. split; [done|]. by apply same_or_free_tasks. }
  destruct (g_current_task s) as [c|] eqn:Ec; [|by apply Hkeep]. pose proof (current_slot s c Hp Ec) as Hc.
  destruct (sched_current_task_is_user s); cbn [negb]; [|by apply Hkeep].
  destruct (sched_build_user_ranges _) as [ranges|e]; [|by apply Hkeep]. cbv zeta.
  pose proof (own_ensure U F s c ranges Ho Hc) as He. pose proof (ensure_same s c ranges Hp Ec) as Hes.
  destruct (ensure_address_space c ranges s) as [[u|e] s1]; cbn [snd] in He, Hes; [|by apply Hkeep].
  set (s2 := if own_address_space _ then s1 else activate_current c s1).
  assert (Ho2 : own U F s2) by (unfold s2; destruct (own_address_space _); [done|by apply own_with_mem]).
  assert (Hs2 : same_sched s s2).
  { unfold s2. destruct (own_address_space _); [done|]. apply (same_sched_trans _ s1); [done|apply same_with_mem]. }
  clearbody s2.
  destruct (paging_clone_address_space_cow _ _ _) as [[child_as|e] m]; [|by apply Hkeep, own_with_mem].
  pose proof (own_with_mem U F m s2 Ho2) as Hom. pose proof (same_sched_pre _ _ (same_sched_trans _ _ _ Hs2 (same_with_mem m s2)) Hp) as Hpm.
  set (sm := with_mem m s2) in *. clearbody sm.
  pose proof (find_slot_spec sm) as Hslot. destruct (sched_find_task_slot sm) as [i|]; [|by apply Hkeep, own_with_mem].
  destruct Hslot as [His Hun]. destruct (kmalloc _ _) as [stack h].
  destruct (stack =? 0); [by apply Hkeep, own_with_mem, own_with_mem|].
  set (s3 := with_next_pid _ _). assert (Hg : gone (task_at sm i)) by (by left).
  pose proof (clone_table U F sm c (proj1 Hom) Hc HF) as Hcl. unfold tab in Hcl.
  change (t_fd_table (task_at (with_mem _ sm) c)) with (t_fd_table (task_at sm c)).
  change (files s3) with (files sm). destruct (proc_fd_table_clone _ _) as [[[[]|er] t'] fs].
  - destruct Hcl as [Ht' Hcl]. split.
    + apply (fds_new_task U F sm); try done; [apply Hom|]. unfold gone. simpl. by intros [].
    + exists sm. split; [done|].
      refine (made_new sm _ i (sched_init_task_stack _) _ Hpm His Hun eq_refl _ eq_refl). unfold used. simpl. done.
  - split.
    + unfold drop_slot. apply (fds_new_task U F sm); try done. apply Hom.
    + exists sm. split; [done|]. unfold drop_slot. apply same_or_free_set; try done. by intros [].
Qed.

Lemma own_fork U F s ctx :
  own U F s → sched_wf s → few F → g_next_pid s < 2147483648 → own U F (snd (sched_fork_current_user_task ctx s)).
Proof.
  intros Ho Hw HF Hb. pose proof (fork_made U F s ctx Ho Hw HF Hb) as H.
  destruct (sched_fork_current_user_task ctx s) as [r s']. destruct H as (Hf & s1 & [_ Hs1] & Hm). split; [done|].
  eapply (slots_new U s1 s' r); [done|exact Hm|]. cbv beta. by intros t ->.
Qed.
(** * Giving up the processor *)

Lemma wf_started s c : sched_wf s → g_current_task s = Some c → g_sched_started s = true.
Proof. intros (_ & _ & ->) ->. by apply bool_decide_true. Qed.

Lemma resched_pre b s : sched_pre s → sched_pre (with_need_resched b s).
Proof. intros []. by split. Qed.

Lemma own_yield U F s s' : own U F s → sched_wf s → sched_yield s = Some s' → own U F s'.
Proof.
  intros Ho Hw. unfold sched_yield. destruct (negb _ || _) eqn:E; [by intros [= <-]|].
  apply orb_false_elim in E as [E _]. apply negb_false_iff in E.
  apply own_schedule; [by apply (own_tasks U F s)|apply resched_pre, Hw|done].
Qed.

Lemma own_sleep U F s n s' :
  own U F s → sched_wf s → g_current_task s ≠ Some 0 → sched_sleep_ticks n s = Some s' → own U F s'.
Proof.
  intros Ho Hw H0. unfold sched_sleep_ticks. destruct (g_current_task s) as [c|] eqn:Ec; [|by intros [= <-]].
  pose proof (wf_started s c Hw Ec) as Hst. rewrite Hst. cbn [negb].
  destruct (n =? 0); [by apply own_yield|]. set (f := λ t, set_state TASK_SLEEPING _). pose proof (proj1 (proj2 Hw) c Ec) as Hr.
  apply own_schedule; [|apply resched_pre, park_pre; try done; [congruence|by left]|done].
  apply (own_tasks U F (on_task c f s)); [done..|]. apply own_on_task; [done|by apply (current_slot s), Ec; apply Hw|].
  unfold same_look, keeps, same_program, gone, used. simpl. rewrite Hr. split_and!; try done. by intros [].
Qed.

Lemma owned_wait_round F s c target nohang r s' :
  owned F s → sched_wf s → g_current_task s = Some c → c ≠ 0 → wait_round target nohang s = Some (r, s') → owned F s'.
Proof.
  intros [U Ho] Hw Hc H0. pose proof (proj1 Hw) as Hp. pose proof (current_slot s c Hp Hc) as Hcs.
  pose proof (proj1 (proj2 Hw) c Hc) as Hr. unfold wait_round. rewrite Hc.
  pose proof (find_zombie_spec s (t_pid (task_at s c)) target) as Hf.
  destruct (sched_find_matching_zombie_child_locked s _ _) as [[z|] has].
  - destruct Hf as [(Hz & _ & Hst & _) _]. intros [= <- <-]. eexists. apply own_on_task; [|done|by repeat split].
    apply own_reap; try done. rewrite Hc. intros [= ->]. congruence.
  - destruct Hf as [Hnz Hhas]. destruct has; [|intros [= <- <-]; by exists U].
    destruct (proj1 Hhas eq_refl) as (k & Hk & Hm). destruct nohang.
    + intros [= <- <-]. exists U. apply own_on_task; [done|done|by repeat split].
    + set (f := λ t, set_state TASK_WAIT_CHILD _).
      destruct (sched_schedule_locked _) as [s2|] eqn:Es; [|done]. cbn. intros [= <- <-]. exists U.
      eapply own_schedule; [| | |exact Es]; [|apply resched_pre, park_pre; try done|by apply (wf_started s c)].
      * apply (own_tasks U F (on_task c f s)); [done..|]. apply own_on_task; [done|done|].
        unfold same_look, keeps, same_program, gone, used. simpl. rewrite Hr. split_and!; try done. by intros [].
      * right. split; [done|]. split; [by exists k|done].
Qed.

Lemma owned_task_exit F s c s' :
  owned F s → sched_wf s → g_current_task s = Some c → c ≠ 0 →
  is_user (task_at s c) = true ∨ table_files (tab s c) = [] → sched_task_exit s = Some s' → owned F s'.
Proof.
  intros Ho Hw Hc H0 Hor. unfold sched_task_exit. rewrite Hc. intros Es. pose proof (proj1 (proj2 Hw) c Hc) as Hr.
  destruct (owned_exit F s c Ho (proj1 Hw) Hc H0 Hr Hor) as [U Hx].
  destruct (exit_cases s c (proj1 Hw) Hc H0 Hr) as (Hp' & _ & Est & _).
  exists U. eapply own_schedule; [done|done| |done]. rewrite Est. by apply (wf_started s c).
Qed.

Lemma owned_fault F s c addr err eip s' :
  owned F s → sched_wf s → g_current_task s = Some c → c ≠ 0 → is_user (task_at s c) = true →
  isr_page_fault true addr err eip s = Some s' → owned F s'.
Proof.
  intros [U Ho] Hw Hc H0 Hus. unfold isr_page_fault. destruct (paging_handle_cow_fault _ _ _ _) as [[v|e] m].
  { intros [= <-]. exists U. by apply own_with_mem. }
  set (s1 := sched_note_current_user_fault eip addr err (with_mem m s)).
  assert (Hpm : sched_pre (with_mem m s)) by (apply (same_sched_pre s); [apply same_with_mem|apply Hw]).
  assert (Hs : same_sched s s1) by (apply (same_sched_trans _ (with_mem m s)); [apply same_with_mem|by apply same_on_user]).
  assert (Ho1 : own U F s1) by (by apply own_on_user; [apply own_with_mem|]).
  assert (Hus1 : is_user (task_at s1 c) = true).
  { unfold s1, sched_note_current_user_fault, on_current_user, current_user. cbn [with_mem g_current_task]. rewrite Hc. cbn.
    change (task_at (with_mem m s) c) with (task_at s c). rewrite Hus. unfold on_task.
    rewrite task_at_eq; [done|apply Hpm|by apply (current_slot s), Hc; apply Hw]. }
  apply (owned_task_exit F s1 c); [by exists U|by apply (same_sched_wf s)|by rewrite (ss_cur _ _ Hs)|done|by left].
Qed.

(** * The timer *)

Lemma own_switched U F s s' n :
  own U F s → switched s s' n → alen (g_tasks s') = SCHED_MAX_TASKS →
  t_state (task_at s n) = TASK_RUNNABLE ∨ t_state (task_at s n) = TASK_RUNNING → own U F s'.
Proof.
  intros Ho [D1 D2 D3 D4 D5 D6 D7] Hl Hn. apply (own_frame U F s); [done|done| |done]. intros i Hi.
  destruct (D3 i Hi) as (I1 & I2 & I3 & I4 & I5 & I6 & I7 & I8 & I9 & I10).
  unfold same_look, keeps, same_program, gone, used, is_user. rewrite D4, I1, I3, I5, I9, I10 by done.
  destruct (decide (i = n)) as [->|]; [split_and!; try done; [by intros []|by destruct Hn as [->| ->]]|].
  destruct (decide (t_state (task_at s i) = TASK_RUNNING)) as [Er|]; [|done]. rewrite Er. split_and!; try done. by intros [].
Qed.

(** A change of the current task's counters. *)
Lemma own_count U F s c f :
  own U F s → slot c → (∀ t, same_look t (f t)) → own U F (on_task c f s).
Proof. intros Ho Hc Hf. by apply own_on_task. Qed.

Lemma own_idle_ticks U F (b : bool) n s : own U F s → own U F (if b then with_idle_ticks n s else s).
Proof. intros Ho. destruct b; [|exact Ho]. revert Ho. by apply own_tasks. Qed.

Lemma own_tick U F s s' : own U F s → sched_wf s → slice_ok s → timer_handler s = Some s' → own U F s'.
Proof.
  intros Ho0 Hw0 Hs0. unfold timer_handler. set (s1 := with_timer_ticks _ s).
  assert (Hw : sched_wf s1) by (apply (same_sched_wf s); [by split|done]).
  assert (Ho : own U F s1) by (by apply (own_tasks U F s)). clearbody s1. clear Hw0 Hs0 Ho0.
  destruct (g_current_task s1) as [c|] eqn:Hc; [|unfold sched_on_timer_tick_irq; rewrite Hc; by intros [= <-]].
  pose proof (current_slot s1 c (proj1 Hw) Hc) as Hcs. pose proof (wf_started s1 c Hw Hc) as Hst.
  rewrite (tick_eq s1 c Hc Hst (sp_in s1 (proj1 Hw))). cbv zeta.
  destruct (tick_account_cases s1 c Hw Hc) as [Hwd Hcd _ _ _ _].
  assert (Hod : own U F (tick_account c s1)).
  { unfold tick_account. apply own_count; [|done|].
    2: { intros t. unfold use_slice. destruct (0 <? t_timeslice_left t); by repeat split. }
    apply own_idle_ticks, own_count; [by apply own_wake|done|by repeat split]. }
  generalize dependent (tick_account c s1). intros d Hwd Hcd Hod.
  destruct (0 <? t_timeslice_left (task_at d c)); [by intros [= <-]|].
  set (e := on_task c (set_timeslice SCHED_DEFAULT_TIMESLICE) d).
  assert (Hoe : own U F e) by (apply own_count; [done|done|by repeat split]).
  pose proof (proj1 (proj2 Hwd) c Hcd) as Hrd.
  assert (Hwe : sched_wf e) by (by apply run_on). assert (Hce : g_current_task e = Some c) by done. clearbody e.
  destruct (pick_cases e (proj1 Hwe)) as (n & e2 & E & Hn & E2 & Hcur2 & Hcase). rewrite E.
  assert (Ho2 : own U F e2) by (rewrite E2; by apply (own_tasks U F e)).
  assert (Hp2 : sched_pre e2) by (rewrite E2; destruct (proj1 Hwe); split; done).
  destruct (is_current e2 n) eqn:Ein; [by intros [= <-]|].
  set (f := λ t, set_preemptions (add32 (t_preemptions t) 1) t). set (x := with_need_resched false (on_task c f e2)).
  assert (Hcs2 : slot c) by done.
  assert (Hx : same_sched e2 x).
  { apply (same_sched_trans _ (on_task c f e2)); [|split; done]. by apply same_on_task. }
  assert (Hox : own U F x) by (apply (own_tasks U F (on_task c f e2)); [done..|]; apply own_count; [done|done|by repeat split]).
  assert (Hcx : g_current_task x = g_current_task e) by (rewrite (ss_cur _ _ Hx); by rewrite E2).
  assert (Hne : g_current_task e ≠ Some n).
  { intros Hcn. rewrite (proj2 (is_current_spec e2 n)) in Ein; [done|]. by rewrite E2. }
  assert (Hrn : t_state (task_at x n) = TASK_RUNNABLE).
  { destruct (ss_tasks _ _ Hx n Hn) as (-> & _). destruct Hcase as [[H _]|[_ H]]; [done|]. by rewrite E2. }
  destruct (switch_other x n (same_sched_pre _ _ Hx Hp2) ltac:(rewrite (ss_started _ _ Hx), E2; apply (wf_started e c Hwe Hce)) Hn
    ltac:(congruence) Hrn) as (s2 & Es & Hw' & Hsw & _). 
  intros Es2. rewrite Es in Es2. injection Es2 as <-. apply (own_switched U F x _ n); try done; [apply Hw'|by left].
Qed.
End holding.
