(* ===== verification/SyscallInv.v ===== *)
(** System calls keep the kernel's state in order.

    Whatever a program asks for: the task table stays consistent, every open
    file is counted exactly as often as descriptors refer to it, on the error
    paths too, and every child slot in use belongs to a live task. *)

From S2P Require Import Prelude Bytes Ring Keyboard Console Framebuffer Gui Pmm Kmalloc VfsNode KFile Vfs KPipe ProcFd Paging.
From S2P Require Import PagingMap UserMem Sched SchedInv SchedRun Elf SysPath CmdLine StartStack User Syscall KernelInv.

#[local] Arguments usermode_copy_cstr : simpl never.

Section calls.
Context {σ : Type} `{!NodeOps σ, !FileOps σ, !FileLaws σ, !KernelParts σ, !PipeOps σ, !CallLaws σ}.
Context (wp : bool) (stack : Z → list Z) (timer_frequency_hz : Z).
Implicit Types (s : sched σ) (U : usermode) (F : list kfile).

(** * The loader's files *)

Lemma read_rounds_holds n f buf total k U F r t f' k' :
  Elf.read_rounds wp n f buf total k = Some (r, t, f', k') → holding U (f :: F) (k_files k) → holding U (f' :: F) (k_files k').
Proof.
  revert f total k. induction n as [|n IH]; intros f total k; [done|]. cbn [Elf.read_rounds].
  destruct (_ =? 0); [by intros [= <- <- <- <-]|].
  destruct (kfile_read f true _ (k_files k)) as [[[r1 f1] fs1]|] eqn:E; [|done]. cbn. intros H Hh.
  pose proof (kfile_read_holds _ _ _ _ _ _ _ _ _ E Hh) as Hh1. destruct r1 as [bs|e]; [|by simplify_eq].
  destruct (memcpy_to _ _ _ _) as [m|]; [|done]. cbn in H. destruct (alen bs =? 0); [by simplify_eq|]. by apply IH in H.
Qed.

Lemma read_file_holds path k U F r k' :
  elf32_read_file wp path k = Some (r, k') → alen F + 1 < two32 → holding U F (k_files k) → holding U F (k_files k').
Proof.
  intros E Hb Hh. unfold elf32_read_file in E. pose proof (vfs_open_gives path 0 U F _ Hb Hh) as Ho.
  destruct (vfs_open path 0 (k_files k)) as [[f|e] fs]; [|by simplify_eq]. cbn in Ho.
  destruct (kmalloc _ _) as [buf h]. destruct (buf =? 0).
  { cbn in E. destruct (holding_drop U f F fs Ho) as (fs' & E' & Hd). rewrite E' in E. by simplify_eq. }
  destruct (Elf.read_rounds _ _ _ _ _ _) as [[[[r1 t] f1] k1]|] eqn:Er; [|done]. cbn in E.
  apply (read_rounds_holds _ _ _ _ _ U F) in Er; [|done].
  destruct (holding_drop U f1 F _ Er) as (fs' & E' & Hd). rewrite E' in E. by repeat case_match; simplify_eq.
Qed.

Lemma free_scratch_files b (k : kernel σ) : k_files (free_scratch b k) = k_files k.
Proof. unfold free_scratch. by destruct (b =? 0). Qed.

Lemma inspect_holds path k U F r k' :
  elf32_inspect_user_static_path wp path k = Some (r, k') → alen F + 1 < two32 → holding U F (k_files k) → holding U F (k_files k').
Proof.
  intros E Hb Hh. unfold elf32_inspect_user_static_path in E.
  destruct (elf32_read_file _ _ _) as [[r1 k1]|] eqn:Er; [|done]. cbn in E. apply (read_file_holds _ _ U F) in Er; [|done..].
  destruct r1 as [[fb sz]|e]; [|by simplify_eq]. destruct (inspect_image _ _ _); [|done]. cbn in E. simplify_eq.
  by rewrite free_scratch_files.
Qed.

Lemma load_holds path ib isz sb ssz k U F r k' :
  elf32_load_user_static_path wp path ib isz sb ssz k = Some (r, k') → alen F + 1 < two32 →
  holding U F (k_files k) → holding U F (k_files k').
Proof.
  intros E Hb Hh. unfold elf32_load_user_static_path in E. destruct (_ || _); [by simplify_eq|].
  destruct (elf32_add_u32_ok ib isz) as [ie|]; [|by simplify_eq]. destruct (elf32_add_u32_ok sb ssz) as [se|]; [|by simplify_eq].
  destruct (_ || _); [by simplify_eq|]. destruct (negb _); [by simplify_eq|].
  destruct (elf32_read_file _ _ _) as [[r1 k1]|] eqn:Er; [|done]. cbn in E. apply (read_file_holds _ _ U F) in Er; [|done..].
  destruct r1 as [[fb sz]|e]; [|by simplify_eq]. destruct (load_image _ _ _ _ _ _ _ _) as [[r2 m]|]; [|done]. cbn in E. simplify_eq.
  by rewrite free_scratch_files.
Qed.

(** ** On the scheduler's state *)

(** The loader changes memory and files. *)
Lemma own_loading {A} (f : kernel σ → option (A * kernel σ)) U F s a s' :
  (∀ k U G r k', f k = Some (r, k') → alen G + 1 < two32 → holding U G (k_files k) → holding U G (k_files k')) →
  few F → own U F s → loading f s = Some (a, s') → own U F s' ∧ same_sched s s' ∧ timer_ticks s' = timer_ticks s.
Proof.
  intros Hf HF [Ho Hs] E. unfold loading in E. destruct (f _) as [[r k]|] eqn:Ef; [|done]. cbn in E. simplify_eq.
  split; [split|by split].
  - apply fds_with_mem. apply (fds_with_files U F); [done|]. intros G HG Hh. eapply Hf; [done| |done].
    unfold few, alen, two32 in *. rewrite length_app. lia.
  - by apply (slots_tasks U s).
Qed.
(** * Spawning a program *)

(** Only the slot [k] differs. *)
Record slot_only (k : Z) U U' : Prop := {
  slo_len : alen (g_user_child_slots U') = alen (g_user_child_slots U);
  slo_other : ∀ j, 0 ≤ j → j ≠ k → child_slot j U' = child_slot j U;
  slo_shell : g_user_shell_pid U' = g_user_shell_pid U;
  slo_gui : g_user_gui_session_pid U' = g_user_gui_session_pid U
}.

Lemma slot_only_trans k U U1 U2 : slot_only k U U1 → slot_only k U1 U2 → slot_only k U U2.
Proof. intros [A1 A2 A3 A4] [B1 B2 B3 B4]. split; try congruence. intros j Hj Hne. by rewrite B2, A2. Qed.

Lemma slot_only_on k f U :
  alen (g_user_child_slots U) = USERMODE_CHILD_SLOT_COUNT → 0 ≤ k < USERMODE_CHILD_SLOT_COUNT → slot_only k U (on_slot k f U).
Proof.
  intros Hl Hk. split; try done.
  - cbn [on_slot set_child_slots g_user_child_slots]. by rewrite alen_aset.
  - intros j Hj Hne. rewrite child_slot_on by done. by rewrite decide_False by congruence.
Qed.

(** A slot that is not in use may hold anything. *)
Lemma slots_idle_slot k U U' s :
  slots_ok U s → 0 ≤ k < USERMODE_CHILD_SLOT_COUNT → slot_only k U U' → cs_used (child_slot k U) = false →
  cs_used (child_slot k U') = false → slots_ok U' s.
Proof.
  intros [H1 H2 H3 H4 H5 H6] Hk [A1 A2 A3 A4] Hu Hu'. split; try done.
  - by rewrite A1.
  - intros j Hj Huj. assert (j ≠ k) by (intros ->; congruence). rewrite A2 in * by (done || apply Hj). by apply H2.
  - intros i Hi Hui He. destruct (H3 i Hi Hui He) as (B1 & B2 & B3).
    assert (t_arg (task_at s i) - 1 ≠ k) by (intros E; rewrite E in B2; congruence).
    unfold has_slot. by rewrite A2 by (done || lia).
  - by rewrite A3.
  - by rewrite A4.
Qed.

(** The slot becomes the new task's. *)
Lemma slots_spawned k U U' s s' pid :
  slots_ok U s → 0 ≤ k < USERMODE_CHILD_SLOT_COUNT → slot_only k U U' → cs_used (child_slot k U) = false →
  made s s' (Ok pid) (λ t, t_entry t = Some usermode_child_slot_entry ∧ t_arg t = k + 1) →
  cs_used (child_slot k U') = true → cs_owner_pid (child_slot k U') = pid → slots_ok U' s'.
Proof.
  intros [H1 H2 H3 H4 H5 [H6 H7]] Hk [A1 A2 A3 A4] Hu (i & Hi & Hi0 & Hun & Hui & Hpid & [He Ha] & Hkeep) Hu' Ho'.
  assert (Hn : ∀ p e arg, names s p e arg → names s' p e arg).
  { intros p e arg. apply names_same. intros j Hj Huj _. rewrite Hkeep; [done|done|]. by intros ->. }
  split; try done.
  - by rewrite A1.
  - intros j Hj Huj. destruct (decide (j = k)) as [->|Hne].
    + exists i. split_and!; try done. congruence.
    + rewrite A2 in * by (done || apply Hj). by apply Hn, H2.
  - intros j Hj Huj Hej. unfold has_slot. destruct (decide (j = i)) as [->|Hne].
    + rewrite Ha. replace (k + 1 - 1) with k by lia. unfold USERMODE_CHILD_SLOT_COUNT in *. split_and!; first [lia|done|congruence].
    + rewrite Hkeep in * by done. destruct (H3 j Hj Huj Hej) as (B1 & B2 & B3).
      assert (t_arg (task_at s j) - 1 ≠ k) by (intros E; rewrite E in B2; congruence). by rewrite A2 by (done || lia).
  - rewrite A3. auto.
  - rewrite A4. auto.
  - by rewrite Hkeep by (done || apply slot_0).
Qed.

Lemma acquire_spec ib isz U :
  match usermode_child_slot_acquire ib isz U with
  | Some k => 0 ≤ k < USERMODE_CHILD_SLOT_COUNT ∧ cs_used (child_slot k U) = false
  | None => True
  end.
Proof.
  unfold usermode_child_slot_acquire. destruct (search_range _ _ _) as [k|] eqn:E; [|done].
  apply search_range_Some in E as (i & Hi & Hf & _). destruct (cs_used (child_slot i U)) eqn:Hu; [done|].
  destruct (_ && _); [done|]. by injection Hf as <-.
Qed.

Lemma fds_usermode U F s f : fds_ok U F s → fds_ok (f U) F (on_files (on_usermode f) s).
Proof.
  intros Ho. apply (fds_with_files U F); [done|]. intros G _ Hh. by apply holding_usermode.
Qed.

(** Everything in order, with the files [F] in hand; process ids are below
    [m]. *)
Record good F (m : Z) s : Prop := {
  gd_wf : sched_wf s;
  gd_slice : slice_ok s;
  gd_own : owned F s;
  gd_np : g_next_pid s ≤ m
}.

Lemma good_same F F' m s s' : good F m s → same_sched s s' → owned F' s' → good F' m s'.
Proof.
  intros [Hw Hsl _ Hm] Hs Ho. destruct (step_same s s' Hw Hs) as [A1 A2 A3 A4 A5]. split; [done|by apply A3|done|].
  by rewrite (ss_np _ _ Hs).
Qed.

Lemma good_step F F' m s s' k : good F m s → step_ok s s' k → owned F' s' → good F' (m + 1) s'.
Proof. intros [Hw Hsl _ Hm] [A1 A2 A3 A4 A5] Ho. split; [done|by apply A3|done|lia]. Qed.

Lemma good_more F m m' s : m ≤ m' → good F m s → good F m' s.
Proof. intros Hle [H1 H2 H3 H4]. split; try done. lia. Qed.

(** The current task is a user task, and not the idle one. *)
Lemma good_user F m s :
  good F m s → sched_current_task_is_user s = true →
  ∃ c, g_current_task s = Some c ∧ c ≠ 0 ∧ slot c ∧ is_user (task_at s c) = true ∧ ¬ gone (task_at s c).
Proof.
  intros [Hw _ [U [_ Hs]] _] Hu. unfold sched_current_task_is_user in Hu. destruct (g_current_task s) as [c|] eqn:Ec; [|done].
  exists c. destruct (cur_alive_wf s Hw c Ec) as [Hc Hg]. split_and!; try done. intros ->.
  destruct (sl_idle _ _ Hs) as [_ Hi]. congruence.
Qed.

Lemma same_files f s : same_sched s (on_files f s).
Proof. apply same_with_files. Qed.

Lemma spawn_into_good U F m s k fl cmd len ib isz r s' :
  good F m s → own U F s → few F → m < 2147483648 → 0 ≤ k < USERMODE_CHILD_SLOT_COUNT → cs_used (child_slot k U) = false →
  spawn_into_slot k fl (on_files (on_usermode (on_slot k (fill_slot cmd len ib isz))) s) = (r, s') →
  good F (m + 1) s'.
Proof.
  intros Hg [Ho Hs] HF Hm Hk Hun E. set (U1 := on_slot k (fill_slot cmd len ib isz) U).
  set (s1 := on_files _ s) in E. pose proof (sl_len _ _ Hs) as Hl.
  assert (Ho1 : fds_ok U1 F s1) by (by apply (fds_usermode U F s (on_slot k (fill_slot cmd len ib isz)))).
  assert (Hon : slot_only k U U1) by (by apply slot_only_on).
  assert (Hw1 : sched_wf s1) by (apply (same_sched_wf s); [apply same_files|apply Hg]).
  assert (Hb : g_next_pid s1 < 2147483648) by (change (g_next_pid s1) with (g_next_pid s); pose proof (gd_np _ _ _ Hg); lia).
  unfold spawn_into_slot in E.
  set (name := Some (cs_task_name _)) in E. set (inh := negb _) in E.
  pose proof (step_spawn_child s1 name (Some usermode_child_slot_entry) (k + 1) 0 inh Hw1 Hb) as Hst.
  assert (Hsp : let '(r, s2) := sched_spawn_user_child_task name (Some usermode_child_slot_entry) (k + 1) 0 inh s1 in
    fds_ok U1 F s2 ∧ made s1 s2 r (λ t, t_entry t = Some usermode_child_slot_entry ∧ t_arg t = k + 1)).
  { unfold sched_spawn_user_child_task. destruct (g_current_task s1) as [c|]; [|split; [done|by apply same_or_free_tasks]].
    destruct (sched_current_task_is_user s1); cbn [negb]; [by apply spawn_owns|split; [done|by apply same_or_free_tasks]]. }
  destruct (sched_spawn_user_child_task _ _ _ _ _ s1) as [r1 s2]. destruct Hsp as [Ho2 Hmade]. cbn [snd] in Hst.
  assert (Hmade' : made s s2 r1 (λ t, t_entry t = Some usermode_child_slot_entry ∧ t_arg t = k + 1)) by exact Hmade.
  assert (Hg1 : ∀ f U2, U2 = f U1 → slots_ok U2 s2 → good F (m + 1) (on_files (on_usermode f) s2)).
  { intros f U2 -> Hs2. apply (good_step F F m s _ 0); [done| |].
    - apply (step_ok_same s s1); [apply Hg|apply same_files|]. destruct Hst as [A1 A2 A3 A4 A5].
      split; [apply (same_sched_wf s2); [apply same_files|done]|done..].
    - exists (f U1). split; [by apply fds_usermode|]. by apply (slots_tasks _ s2). }
  assert (Hl1 : alen (g_user_child_slots U1) = USERMODE_CHILD_SLOT_COUNT) by (by rewrite (slo_len _ _ _ Hon)).
  destruct r1 as [pid|e]; injection E as <- <-.
  - eapply Hg1; [done|]. eapply (slots_spawned k U); try done.
    + apply (slot_only_trans _ _ U1); [done|]. by apply slot_only_on.
    + rewrite child_slot_on by (done || apply Hk). rewrite decide_True by done. unfold U1.
      rewrite child_slot_on by (done || apply Hk). by rewrite decide_True.
    + rewrite child_slot_on by (done || apply Hk). by rewrite decide_True.
  - eapply Hg1; [done|]. apply (slots_free _ s); [|done]. apply (slots_idle_slot k U); try done.
    + apply (slot_only_trans _ _ U1); [done|]. by apply slot_only_on.
    + rewrite child_slot_on by (done || apply Hk). by rewrite decide_True.
Qed.

Lemma spawn_path_good F m s path cmd len fl r s' :
  good F m s → few F → m < 2147483648 →
  usermode_spawn_path_task_ex wp path cmd len fl s = Some (r, s') → good F (m + 1) s'.
Proof.
  intros Hg HF Hm E. unfold usermode_spawn_path_task_ex in E.
  assert (Hkeep : ∀ x, good F m x → good F (m + 1) x) by (intros x; apply good_more; lia).
  destruct (negb _); [simplify_eq; by apply Hkeep|]. destruct (_ && _); [simplify_eq; by apply Hkeep|].
  destruct (_ <=? _); [simplify_eq; by apply Hkeep|].
  destruct (loading _ s) as [[r1 s1]|] eqn:El; [|done]. cbn in E.
  destruct (gd_own _ _ _ Hg) as [U Hu].
  destruct (own_loading _ U F s r1 s1 (λ k U G r k' H1 H2, inspect_holds path k U G r k' H1 H2) HF Hu El) as (Hu1 & Hsame & _).
  assert (Hg1 : good F m s1) by (apply (good_same F F m s); [done|done|by exists U]).
  destruct r1 as [layout|e]; [|simplify_eq; by apply Hkeep].
  destruct (negb _); [simplify_eq; by apply Hkeep|].
  pose proof (proj2 (fo_held _ _ _ (proj1 Hu1))) as EU. rewrite EU in E.
  pose proof (acquire_spec (Elf.image_base layout) (Elf.image_size layout) U) as Hacq.
  destruct (usermode_child_slot_acquire _ _ U) as [k|]; [|simplify_eq; by apply Hkeep].
  destruct Hacq as [Hk Hun]. destruct (usermode_copy_cstr _ _ _) as [rc p].
  set (s2 := on_files (on_usermode (on_slot k (set_slot_path p))) s1) in E.
  pose proof (sl_len _ _ (proj2 Hu1)) as Hl.
  assert (Hun2 : cs_used (child_slot k (on_slot k (set_slot_path p) U)) = false).
  { rewrite child_slot_on by (done || apply Hk). by rewrite decide_True. }
  assert (Hu2 : own (on_slot k (set_slot_path p) U) F s2).
  { split; [by apply (fds_usermode U F s1 (on_slot k (set_slot_path p))), Hu1|]. apply (slots_tasks _ s1); [done|].
    apply (slots_idle_slot k U); try done; [apply Hu1|by apply slot_only_on]. }
  assert (Hg2 : good F m s2) by (apply (good_same F F m s1); [done|apply same_files|by eexists]).
  destruct rc as [u|e]; [|simplify_eq; by apply Hkeep].
  destruct (spawn_into_slot _ _ _) as [r3 s3] eqn:Es. simplify_eq. by eapply spawn_into_good.
Qed.

(** * Files, memory and descriptors *)

Lemma good_files F F' m s fs :
  good F m s → (∀ U G, alen G ≤ 192 → holding U (G ++ F) (files s) → holding U (G ++ F') fs) → good F' m (with_files fs s).
Proof.
  intros Hg Hf. destruct (gd_own _ _ _ Hg) as [U [Ho Hs]]. apply (good_same F F' m s); [done|apply same_with_files|].
  exists U. split; [|by apply (slots_tasks U s)]. apply (fds_with_files U F); [done|]. apply Hf.
Qed.

Lemma good_perm F F' m s : F ≡ₚ F' → good F m s → good F' m s.
Proof.
  intros HF Hg. destruct (gd_own _ _ _ Hg) as [U [Ho Hs]]. apply (good_same F F' m s); [done|apply same_sched_refl|].
  exists U. split; [|done]. by apply (fds_perm U F).
Qed.

Lemma good_mem F m x s : good F m s → good F m (with_mem x s).
Proof.
  intros Hg. destruct (gd_own _ _ _ Hg) as [U Ho]. apply (good_same F F m s); [done|apply same_with_mem|].
  exists U. by apply own_with_mem.
Qed.

Lemma good_drop f F m s : good (f :: F) m s → good F m (drop_file f s).
Proof.
  intros Hg. destruct (gd_own _ _ _ Hg) as [U [Ho Hs]].
  assert (E : ∃ fs, drop_file f s = with_files fs s) by (unfold drop_file; destruct (kfile_close f (files s)) as [[? ?] fs]; by exists fs).
  destruct E as [fs E]. pose proof (fds_drop_file U F s f Ho) as Hd. rewrite E in *.
  apply (good_same (f :: F) F m s); [done|apply same_with_files|]. exists U. split; [done|by apply (slots_tasks U s)].
Qed.

Lemma good_alive F m s : good F m s → cur_alive s.
Proof. intros Hg. apply cur_alive_wf, Hg. Qed.

Lemma good_fds {A} F m s (f : proc_fd_table → σ → res A * proc_fd_table * σ) :
  good F m s → (∀ U, fds_ok U F s → fds_ok U F (snd (with_current_fds f s))) → good F m (snd (with_current_fds f s)).
Proof.
  intros Hg Hf. destruct (gd_own _ _ _ Hg) as [U Ho]. pose proof (proj1 (gd_wf _ _ _ Hg)) as Hp.
  apply (good_same F F m s); [done|by apply same_with_fds|]. exists U. apply own_current_fds; [done|done|]. apply Hf, Ho.
Qed.

Lemma good_alloc f F m s : good F m s → few F → f ∈ F → good F m (snd (sched_current_process_fd_alloc f s)).
Proof.
  intros Hg HF Hin. apply good_fds; [done|]. intros U Ho. apply fds_alloc; [done|by apply (good_alive F m)|done|].
  intros c _. apply elem_of_app. by right.
Qed.

Lemma good_install fd f F m s :
  good F m s → few F → 0 ≤ fd → f ∈ F → good F m (snd (sched_current_process_fd_install fd f s)).
Proof.
  intros Hg HF Hfd Hin. apply good_fds; [done|]. intros U Ho. apply fds_install; [done|by apply (good_alive F m)|done..|].
  intros c _. apply elem_of_app. by right.
Qed.

Lemma good_close fd F m s : good F m s → 0 ≤ fd → good F m (snd (sched_current_process_fd_close fd s)).
Proof. intros Hg Hfd. apply good_fds; [done|]. intros U Ho. apply fds_close; [done|by apply (good_alive F m)|done]. Qed.

Lemma good_dup fd F m s : good F m s → few F → 0 ≤ fd → good F m (snd (sched_current_process_fd_dup fd s)).
Proof. intros Hg HF Hfd. apply good_fds; [done|]. intros U Ho. apply fds_dup; try done. by apply (good_alive F m). Qed.

Lemma good_dup2 a b F m s : good F m s → few F → 0 ≤ a → 0 ≤ b → good F m (snd (sched_current_process_fd_dup2 a b s)).
Proof. intros Hg HF Ha Hb. apply good_fds; [done|]. intros U Ho. apply fds_dup2; try done. by apply (good_alive F m). Qed.

(** The descriptor [i] of the current task is open. *)
Definition has_file s (i : Z) : Prop := ∃ c, g_current_task s = Some c ∧ slot_in_table i ∧ in_use (tab s c).[i] = true.

Lemma good_table F m s c : good F m s → slot c → table_wf (tab s c).
Proof. intros Hg Hc. destruct (gd_own _ _ _ Hg) as [U [Ho _]]. by apply (fo_table U F s). Qed.

Lemma has_file_in F m s i c :
  good F m s → has_file s i → g_current_task s = Some c → slot_file i s ∈ table_files (tab s c).
Proof.
  intros Hg (c' & Ec & Hi & Hu) Ec'. assert (c' = c) as -> by congruence. destruct (good_alive F m s Hg c Ec) as [Hc _].
  apply slot_file_in; try done. by apply (good_table F m).
Qed.

Lemma good_put F m s i f fs :
  good F m s → has_file s i → (∀ U G, holding U (slot_file i s :: G) (files s) → holding U (f :: G) fs) →
  good F m (put_file i f (with_files fs s)).
Proof.
  intros Hg (c & Ec & Hi & Hu) Hf. destruct (good_alive F m s Hg c Ec) as [Hc Hng]. destruct (gd_own _ _ _ Hg) as [U [Ho Hs]].
  pose proof (proj1 (gd_wf _ _ _ Hg)) as Hp.
  pose proof (fds_put_file U F s c i f fs Ho Ec Hc Hng Hi Hu (Hf U)) as Hput.
  assert (E : put_file i f (with_files fs s) = with_files fs (on_task c (λ t, set_fd_table (t_fd_table t).[i <- Slot true f] t) s)).
  { unfold put_file. cbn [with_files g_current_task]. by rewrite Ec. }
  rewrite E in *. apply (good_same F F m s); [done| |].
  - apply (same_sched_trans _ (on_task c (λ t, set_fd_table (t_fd_table t).[i <- Slot true f] t) s)); [|apply same_with_files].
    apply same_on_task; [done|done|by split|done].
  - exists U. split; [done|]. apply (slots_tasks U (on_task c (λ t, set_fd_table (t_fd_table t).[i <- Slot true f] t) s)); [done|].
    apply slots_on_task; [apply Hp|done|done|by split|done].
Qed.

(** ** Finding the file of a descriptor *)

Lemma alloc_fd f s fd s' : sched_current_process_fd_alloc f s = (Ok fd, s') → 0 ≤ fd.
Proof.
  unfold sched_current_process_fd_alloc, with_current_fds. destruct (g_current_task s) as [c|]; [|done]. destruct (negb _); [done|].
  unfold proc_fd_alloc. destruct (_ <=? _); [done|]. destruct (kfile_clone f (files s)) as [[g|e] fs]; [|done].
  destruct (search_range _ _ _) as [i|] eqn:E; [|by destruct (kfile_close g fs) as [[? ?] ?]].
  intros [= <- <-]. apply search_range_Some in E as (j & Hj & Hf & _). destruct (in_use _); [done|]. injection Hf as <-.
  unfold PROC_FD_DYNAMIC_MIN in *. lia.
Qed.

Lemma fd_get_spec fd i s : 0 ≤ fd → sched_current_process_fd_get fd s = Ok i → i = fd ∧ has_file s i.
Proof.
  intros Hfd. unfold sched_current_process_fd_get, with_current_fds. destruct (g_current_task s) as [c|] eqn:Ec; [|done].
  destruct (negb _); [done|]. cbn [fst]. unfold proc_fd_get. rewrite slot_for_spec by done. case_decide as Hd; [|done]. cbn.
  destruct (in_use (t_fd_table (task_at s c)).[fd]) eqn:Eu; [|done]. intros [= <-]. split; [done|].
  exists c. split_and!; try done.
Qed.

Lemma install_ok fd f F m s u s' :
  good F m s → 0 ≤ fd → sched_current_process_fd_install fd f s = (Ok u, s') → has_file s' fd.
Proof.
  intros Hg Hfd. unfold sched_current_process_fd_install, with_current_fds.
  destruct (g_current_task s) as [c|] eqn:Ec; [|done]. destruct (negb _); [done|].
  destruct (good_alive F m s Hg c Ec) as [Hc _]. pose proof (good_table F m s c Hg Hc) as Ht. unfold tab in Ht.
  unfold proc_fd_install. rewrite slot_for_spec by done. case_decide as Hd; [|done]. destruct (in_use _); [done|].
  destruct (kfile_clone f (files s)) as [[g|e] fs]; [|done]. intros [= <- <-]. exists c. split; [done|]. split; [done|].
  unfold tab. change (task_at (with_files fs ?x)) with (task_at x). unfold on_task.
  rewrite task_at_eq by first [done|apply (gd_wf _ _ _ Hg)]. cbn [set_fd_table t_fd_table].
  rewrite aget_aset by (rewrite ?Ht; unfold PROC_FD_MAX in *; lia). by rewrite decide_True.
Qed.

Lemma good_stdio fd w F m s :
  good F m s → few (kfile_reset :: F) → 0 ≤ fd →
  let '(r, s') := syscall_stdio_kfile_for_fd fd w s in good F m s' ∧ ∀ i, r = Ok i → i = fd ∧ has_file s' i.
Proof.
  intros Hg HF Hfd. unfold syscall_stdio_kfile_for_fd. destruct (syscall_stdio_path_for_fd fd w) as [path|e]; [|done].
  destruct (sched_current_process_fd_get fd s) as [i|e] eqn:Eg.
  { split; [done|]. intros j [= <-]. by apply fd_get_spec. }
  destruct (negb _); [done|]. 
  assert (Hopen : ∀ U G, alen G ≤ 192 → holding U (G ++ F) (files s) → gives_file U (G ++ F) (vfs_open path 0 (files s))).
  { intros U G HG Hh. apply vfs_open_gives; [|done]. unfold few, alen, two32 in *. rewrite length_app. simpl in HF. lia. }
  destruct (vfs_open path 0 (files s)) as [[f|e'] fs]; [|split; [|done]; by apply (good_files F)].
  assert (Hg1 : good (f :: F) m (with_files fs s)).
  { apply (good_files F); [done|]. intros U G HG Hh. eapply holding_perm; [|by apply (Hopen U G)]. by rewrite Permutation_middle. }
  pose proof (good_install fd f (f :: F) m _ Hg1 HF Hfd (list_elem_of_here _ _)) as Hg2.
  pose proof (install_ok fd f (f :: F) m (with_files fs s)) as Hin.
  destruct (sched_current_process_fd_install fd f (with_files fs s)) as [r1 s2]. cbn [snd] in Hg2.
  pose proof (good_drop f F m s2 Hg2) as Hg3. unfold drop_file in Hg3. destruct (kfile_close f (files s2)) as [[? ?] fs3].
  destruct r1 as [u|e']; (split; [done|]); [|done]. intros i [= <-]. split; [done|]. exact (Hin u s2 Hg1 Hfd eq_refl).
Qed.

Lemma good_for_fd fd w F m s :
  good F m s → few (kfile_reset :: F) → 0 ≤ fd →
  let '(r, s') := syscall_kfile_for_fd fd w s in good F m s' ∧ ∀ i, r = Ok i → i = fd ∧ has_file s' i.
Proof.
  intros Hg HF Hfd. unfold syscall_kfile_for_fd. destruct (_ || _); [by apply good_stdio|]. split; [done|].
  intros i Hi. by apply fd_get_spec.
Qed.

Lemma good_for_dup fd F m s :
  good F m s → few (kfile_reset :: F) → 0 ≤ fd →
  let '(r, s') := syscall_kfile_for_dup fd s in good F m s' ∧ ∀ i, r = Ok i → i = fd ∧ has_file s' i.
Proof.
  intros Hg HF Hfd. unfold syscall_kfile_for_dup. destruct (_ =? _); [by apply good_stdio|].
  destruct (_ || _); [by apply good_stdio|]. split; [done|]. intros i Hi. by apply fd_get_spec.
Qed.

(** * The calls *)

Definition regs_ok regs : Prop := 0 ≤ rg_ebx regs < two32 ∧ 0 ≤ rg_ecx regs < two32.

(** What a call leaves behind. *)
Definition calm m (p : option (Z * sched σ)) : Prop := match p with Some (_, s') => good [] m s' | None => True end.

Lemma calm_more m m' p : m ≤ m' → calm m p → calm m' p.
Proof. intros Hle. destruct p as [[v s]|]; [|done]. by apply good_more. Qed.

Lemma calm_user m s k :
  good [] m s → (∀ c, g_current_task s = Some c → is_user (task_at s c) = true → calm m k) → calm m (user_only k s).
Proof.
  intros Hg Hk. unfold user_only. destruct (sched_current_task_is_user s) eqn:Hu; [|done]. cbn [negb].
  destruct (good_user _ _ _ Hg Hu) as (c & Ec & _ & _ & Hc & _). by apply (Hk c).
Qed.

Lemma few_1 : few [kfile_reset].
Proof. done. Qed.

Lemma copy_to_good F m s ptr b n r s' : uaccess_copy_to_user wp ptr b n s = Some (r, s') → good F m s → good F m s'.
Proof.
  unfold uaccess_copy_to_user. destruct (n =? 0); [by intros [= <- <-]|]. destruct b as [bs|]; [|by intros [= <- <-]].
  destruct (negb _); [by intros [= <- <-]|]. destruct (memcpy_to _ _ _ _) as [x|]; [|done]. cbn. intros [= <- <-]. apply good_mem.
Qed.

Lemma calm_write m s regs : good [] m s → regs_ok regs → calm m (sys_write regs s).
Proof.
  intros Hg [Hb _]. unfold sys_write. cbv zeta. pose proof (good_for_fd (rg_ebx regs) true [] m s Hg few_1 (proj1 Hb)) as H.
  destruct (syscall_kfile_for_fd _ _ _) as [[i|e] s1]; destruct H as [Hg1 Hi]; [|done]. destruct (Hi i eq_refl) as [-> Hf].
  destruct (negb _); [done|]. destruct (memcpy_from _ _ _) as [bs|]; [|done]. cbn [mbind option_bind].
  destruct (kfile_write _ _ _ _) as [[[[r w] f] fs]|] eqn:Ew; [|done]. cbn [mbind option_bind].
  assert (Hp : good [] m (put_file (rg_ebx regs) f (with_files fs s1))).
  { apply good_put; [done|done|]. intros U G. by apply (kfile_write_holds _ _ _ U G _ _ _ _ _ Ew). }
  by destruct r.
Qed.

Lemma calm_read m s regs : good [] m s → regs_ok regs → calm m (sys_read wp regs s).
Proof.
  intros Hg [Hb _]. unfold sys_read. cbv zeta. pose proof (good_for_fd (rg_ebx regs) false [] m s Hg few_1 (proj1 Hb)) as H.
  destruct (syscall_kfile_for_fd _ _ _) as [[i|e] s1]; destruct H as [Hg1 Hi]; [|done]. destruct (Hi i eq_refl) as [-> Hf].
  destruct (negb _); [done|]. destruct (kfile_read _ _ _ _) as [[[r f] fs]|] eqn:Ew; [|done]. cbn [mbind option_bind].
  assert (Hp : good [] m (put_file (rg_ebx regs) f (with_files fs s1))).
  { apply good_put; [done|done|]. intros U G. by apply (kfile_read_holds _ _ _ U G _ _ _ _ Ew). }
  destruct r as [bs|e]; [|done]. destruct (memcpy_to _ _ _ _) as [x|]; [|done]. by apply good_mem.
Qed.

Lemma calm_open m s regs : good [] m s → calm m (sys_open regs s).
Proof.
  intros Hg. unfold sys_open. apply calm_user; [done|]. intros _ _ _.
  destruct (user_path _ _ _ _) as [[path|e]|]; [|done|done].
  assert (Hopen : ∀ U G, alen G ≤ 192 → holding U (G ++ []) (files s) → gives_file U (G ++ []) (vfs_open path (rg_edx regs) (files s))).
  { intros U G HG Hh. apply vfs_open_gives; [|done]. unfold alen, two32 in *. rewrite length_app. simpl. lia. }
  destruct (vfs_open _ _ _) as [[f|e] fs]; [|by apply (good_files [])].
  assert (Hg1 : good [f] m (with_files fs s)).
  { apply (good_files []); [done|]. intros U G HG Hh. eapply holding_perm; [|by apply (Hopen U G)]. by rewrite Permutation_middle. }
  pose proof (good_alloc f [f] m _ Hg1 few_1 (list_elem_of_here _ _)) as Hg2.
  destruct (sched_current_process_fd_alloc _ _) as [r s2]. cbn [snd] in Hg2. apply good_drop in Hg2. unfold drop_file in Hg2.
  destruct (kfile_close _ _) as [[? ?] fs2]. by destruct r.
Qed.

Lemma calm_close m s regs : good [] m s → regs_ok regs → calm m (sys_close regs s).
Proof.
  intros Hg [Hb _]. unfold sys_close. apply calm_user; [done|]. intros _ _ _. pose proof (good_close (rg_ebx regs) [] m s Hg (proj1 Hb)) as H.
  by destruct (sched_current_process_fd_close _ _) as [[u|e] s1].
Qed.

Lemma calm_unlink m s regs : good [] m s → calm m (sys_unlink regs s).
Proof.
  intros Hg. unfold sys_unlink. apply calm_user; [done|]. intros _ _ _. destruct (user_path _ _ _ _) as [[path|e]|]; [|done|done].
  assert (H : good [] m (with_files (snd (vfs_unlink path (files s))) s)).
  { apply (good_files []); [done|]. intros U G _. apply vfs_unlink_holds. }
  by destruct (vfs_unlink _ _) as [[u|e] fs].
Qed.

Lemma good_pipe m s : good [] m s →
  match kpipe_create_in (files s) with
  | (Ok (r, w), fs) => good [r; w] m (with_files fs s)
  | (Err _, fs) => good [] m (with_files fs s)
  end.
Proof.
  intros Hg. assert (Hpipe : ∀ U G, alen G ≤ 192 → holding U (G ++ []) (files s) →
    match kpipe_create_in (files s) with
    | (Ok (r, w), fs') => holding U (G ++ [r; w]) fs' | (Err _, fs') => holding U (G ++ []) fs' end).
  { intros U G HG Hh. pose proof (law_pipe U (G ++ []) (files s) ltac:(unfold alen, two32 in *; rewrite length_app; simpl; lia) Hh) as H.
    destruct (kpipe_create_in (files s)) as [[[r w]|e] fs]; [|done]. eapply holding_perm; [|exact H].
    rewrite app_nil_r. by rewrite (Permutation_app_comm G). }
  destruct (kpipe_create_in _) as [[[r w]|e] fs]; by apply (good_files []).
Qed.

Lemma calm_pipe m s regs : good [] m s → calm m (sys_pipe wp regs s).
Proof.
  intros Hg. unfold sys_pipe. cbv zeta. apply calm_user; [done|]. intros _ _ _. destruct (negb _); [done|].
  pose proof (good_pipe m s Hg) as Hg1. destruct (kpipe_create_in _) as [[[r w]|e] fs]; [|done].
  pose proof (good_alloc r [r; w] m _ Hg1 ltac:(done) (list_elem_of_here _ _)) as Hg2. pose proof (alloc_fd r (with_files fs s)) as H0.
  destruct (sched_current_process_fd_alloc r _) as [r0 s1]. cbn [snd] in Hg2. apply good_drop in Hg2.
  destruct r0 as [fd0|e]; [|by apply (good_drop w [])].
  pose proof (good_alloc w [w] m _ Hg2 few_1 (list_elem_of_here _ _)) as Hg3.
  specialize (H0 fd0 _ eq_refl). pose proof (alloc_fd w (drop_file r s1)) as H1.
  destruct (sched_current_process_fd_alloc w _) as [r1 s2]. cbn [snd] in Hg3. apply good_drop in Hg3.
  destruct r1 as [fd1|e]; [|by apply good_close].
  specialize (H1 fd1 _ eq_refl).
  destruct (uaccess_copy_to_user _ _ _ _ _) as [[rc s3]|] eqn:Ec; [|done]. cbn [mbind option_bind].
  apply (copy_to_good [] m) in Ec; [|done]. destruct rc as [u|e]; [done|]. by apply good_close; [apply good_close|].
Qed.

Lemma dup_failed fd s e s' i :
  sched_current_process_fd_dup fd s = (Err e, s') → alen (g_tasks s) = SCHED_MAX_TASKS → cur_alive s →
  has_file s i → has_file s' i.
Proof.
  intros E Hl Ha (c & Ec & Hi & Hu). destruct (Ha c Ec) as [Hc _].
  unfold sched_current_process_fd_dup, with_current_fds in E. rewrite Ec in E.
  destruct (negb _); [injection E as <- <-; by exists c|].
  destruct (proc_fd_dup _ _ _ _) as [[r t'] fs] eqn:Ed. injection E as -> <-.
  assert (t' = t_fd_table (task_at s c)) as ->.
  { unfold proc_fd_dup, proc_fd_alloc in Ed. by repeat case_match; simplify_eq. }
  exists c. split; [done|]. split; [done|]. unfold tab. change (task_at (with_files fs ?x)) with (task_at x). unfold on_task.
  by rewrite task_at_eq.
Qed.

(** Closing one descriptor keeps the others. *)
Lemma close_other fd s i F m :
  good F m s → 0 ≤ fd → i ≠ fd → has_file s i → has_file (snd (sched_current_process_fd_close fd s)) i.
Proof.
  intros Hg Hfd Hne (c & Ec & Hi & Hu). destruct (good_alive _ _ _ Hg c Ec) as [Hc _].
  pose proof (good_table _ _ _ c Hg Hc) as Ht. unfold sched_current_process_fd_close, with_current_fds. rewrite Ec.
  destruct (negb _); [by exists c|].
  assert (Hk : ∀ r t' fs', proc_fd_close (t_fd_table (task_at s c)) fd (files s) = (r, t', fs') → in_use t'.[i] = true).
  { intros r t' fs'. unfold proc_fd_close. rewrite slot_for_spec by done. unfold tab, table_wf, slot_in_table in *.
    repeat case_match; simplify_eq; intros [= <- <- <-]; try done; by rewrite aget_aset_ne by lia. }
  destruct (proc_fd_close _ _ _) as [[r t'] fs']. specialize (Hk r t' fs' eq_refl). cbn [snd].
  exists c. split; [done|]. split; [done|]. unfold tab. change (task_at (with_files fs' ?x)) with (task_at x). unfold on_task.
  by rewrite task_at_eq by first [done|apply (gd_wf _ _ _ Hg)].
Qed.

(** The file of an open descriptor may be given to another one. *)
Lemma good_alloc_again i m s : good [] m s → has_file s i → good [] m (snd (sched_current_process_fd_alloc (slot_file i s) s)).
Proof.
  intros Hg Hf. apply good_fds; [done|]. intros U Ho. apply fds_alloc; [done|by apply (good_alive [] m)|done|].
  intros c Ec. apply elem_of_app. left. by apply (has_file_in [] m).
Qed.

Lemma good_install_again fd i m s :
  good [] m s → has_file s i → 0 ≤ fd → good [] m (snd (sched_current_process_fd_install fd (slot_file i s) s)).
Proof.
  intros Hg Hf Hfd. apply good_fds; [done|]. intros U Ho. apply fds_install; [done|by apply (good_alive [] m)|done..|].
  intros c Ec. apply elem_of_app. left. by apply (has_file_in [] m).
Qed.

Lemma calm_dup m s regs : good [] m s → regs_ok regs → calm m (sys_dup regs s).
Proof.
  intros Hg [Hb _]. unfold sys_dup. cbv zeta. apply calm_user; [done|]. intros _ _ _.
  pose proof (good_for_dup (rg_ebx regs) [] m s Hg few_1 (proj1 Hb)) as H.
  destruct (syscall_kfile_for_dup _ _) as [[i|e] s1]; destruct H as [Hg1 Hi]; [|done]. destruct (Hi i eq_refl) as [-> Hf].
  pose proof (good_dup (rg_ebx regs) [] m s1 Hg1 ltac:(done) (proj1 Hb)) as Hg2.
  destruct (sched_current_process_fd_dup _ _) as [[fd|e] s2] eqn:Ed; [done|]. cbn [snd] in Hg2.
  destruct (_ <=? _); [|done].
  assert (Hf2 : has_file s2 (rg_ebx regs)).
  { apply (dup_failed _ s1 e s2 _ Ed); [apply (gd_wf _ _ _ Hg1)|by apply (good_alive [] m)|done]. }
  pose proof (good_alloc_again _ _ _ Hg2 Hf2) as Hg3. by destruct (sched_current_process_fd_alloc _ _) as [[fd|e'] s3].
Qed.

Lemma calm_dup2 m s regs : good [] m s → regs_ok regs → calm m (sys_dup2 regs s).
Proof.
  intros Hg [Hb Hc]. unfold sys_dup2. cbv zeta. apply calm_user; [done|]. intros _ _ _.
  pose proof (good_for_dup (rg_ebx regs) [] m s Hg few_1 (proj1 Hb)) as H.
  destruct (syscall_kfile_for_dup _ _) as [[i|e] s1]; destruct H as [Hg1 Hi]; [|done]. destruct (Hi i eq_refl) as [-> Hf].
  destruct (Z.eqb_spec (rg_ebx regs) (rg_ecx regs)) as [|Hne]; [done|]. destruct (_ <=? _).
  - pose proof (good_close (rg_ecx regs) [] m s1 Hg1 (proj1 Hc)) as Hg2.
    pose proof (close_other (rg_ecx regs) s1 (rg_ebx regs) [] m Hg1 (proj1 Hc) Hne Hf) as Hf2.
    pose proof (good_install_again (rg_ecx regs) _ _ _ Hg2 Hf2 (proj1 Hc)) as Hg3.
    by destruct (sched_current_process_fd_install _ _ _) as [[u|e] s3].
  - pose proof (good_dup2 (rg_ebx regs) (rg_ecx regs) [] m s1 Hg1 ltac:(done) (proj1 Hb) (proj1 Hc)) as Hg2.
    by destruct (sched_current_process_fd_dup2 _ _ _) as [[fd|e] s2].
Qed.

(** ** Programs *)

Lemma calm_spawn m s regs : good [] m s → m < 2147483648 → calm (m + 1) (sys_spawn wp regs s).
Proof.
  intros Hg Hm. unfold sys_spawn. pose proof (good_more _ m (m + 1) s ltac:(lia) Hg) as Hg'. apply calm_user; [done|]. intros _ _ _.
  destruct (user_path _ _ _ _) as [[path|e]|]; [|done|done].
  destruct (usermode_spawn_path_task _ _ _) as [[[pid|e] s1]|] eqn:E; [|cbn|done]; by apply (spawn_path_good [] m) in E.
Qed.

Lemma good_console F m s c : good F m s → good F m (on_files (set_console c) s).
Proof. intros Hg. apply (good_files F); [done|]. intros U G _ Hh. by apply law_console. Qed.

Lemma good_give F m s pid : good F m s → good F m (give_console pid s).
Proof. apply good_console. Qed.

Lemma calm_spawn_ex m s regs : good [] m s → m < 2147483648 → calm (m + 1) (sys_spawn_ex wp regs s).
Proof.
  intros Hg Hm. unfold sys_spawn_ex. pose proof (good_more _ m (m + 1) s ltac:(lia) Hg) as Hg'. apply calm_user; [done|]. intros _ _ _.
  destruct (uaccess_copy_from_user _ _ _) as [[bs|e]|]; [|done|done]. cbv zeta. destruct (_ <=? _); [done|]. destruct (_ && _); [done|].
  destruct (negb _); [done|]. destruct (user_path _ _ _ _) as [[path|e]|]; [|done|done].
  destruct (if _ =? 0 then _ else _) as [[cmdline|e]|]; [|done|done].
  destruct (usermode_spawn_path_task_ex _ _ _ _ _ _) as [[[pid|e] s1]|] eqn:E; [| |done]; apply (spawn_path_good [] m) in E; try done.
  unfold calm. destruct (_ && _); [by apply good_give|done].
Qed.

Lemma calm_fork m s regs : good [] m s → m < 2147483648 → calm (m + 1) (sys_fork regs s).
Proof.
  intros Hg Hm. unfold sys_fork. pose proof (good_more _ m (m + 1) s ltac:(lia) Hg) as Hg'. apply calm_user; [done|]. intros _ _ _.
  destruct (syscall_capture_user_fork_context regs) as [ctx|e]; [|done].
  destruct (gd_own _ _ _ Hg) as [U Ho]. assert (Hb : g_next_pid s < 2147483648) by (pose proof (gd_np _ _ _ Hg); lia).
  pose proof (own_fork U [] s ctx Ho (gd_wf _ _ _ Hg) ltac:(done) Hb) as Ho'.
  pose proof (step_fork s ctx (gd_wf _ _ _ Hg) Hb) as Hst.
  assert (Hg1 : good [] (m + 1) (snd (sched_fork_current_user_task ctx s))) by (by apply (good_step [] [] m s _ 0); [| |exists U]).
  by destruct (sched_fork_current_user_task ctx s) as [[pid|e] s1].
Qed.

(** ** Giving up the processor *)

Lemma good_next m s s' : good [] m s → step_ok s s' 0 → owned [] s' → good [] (m + 1) s'.
Proof. apply (good_step [] [] m s s' 0). Qed.

Lemma calm_yield m s : good [] m s → calm (m + 1) (sys_yield s).
Proof.
  intros Hg. unfold sys_yield. pose proof (gd_wf _ _ _ Hg) as Hw. destruct (step_yield s Hw) as (s' & E & Hst). rewrite E.
  destruct (gd_own _ _ _ Hg) as [U Ho]. apply (good_next m s); [done|done|]. exists U. by apply (own_yield U [] s).
Qed.

Lemma calm_sleep m s regs : good [] m s → calm (m + 1) (sys_sleep regs s).
Proof.
  intros Hg. unfold sys_sleep. pose proof (good_more _ m (m + 1) s ltac:(lia) Hg) as Hg'. pose proof (gd_wf _ _ _ Hg) as Hw.
  unfold user_only. destruct (sched_current_task_is_user s) eqn:Hu; [|done]. cbn [negb].
  destruct (good_user _ _ _ Hg Hu) as (c & Ec & H0 & _). assert (H0' : g_current_task s ≠ Some 0) by congruence.
  destruct (step_sleep s (rg_ebx regs) Hw H0') as (s' & E & Hst). rewrite E.
  destruct (gd_own _ _ _ Hg) as [U Ho]. apply (good_next m s); [done|done|]. exists U. by apply (own_sleep U [] s (rg_ebx regs)).
Qed.

(** A program exits, or faults. *)
Lemma exit_good m s c regs s' :
  good [] m s → g_current_task s = Some c → is_user (task_at s c) = true → sys_exit regs s = Some s' → good [] (m + 1) s'.
Proof.
  intros Hg Ec Hu. unfold sys_exit. set (s1 := sched_note_current_exit_code _ s). intros E.
  pose proof (gd_wf _ _ _ Hg) as Hw. pose proof (proj1 Hw) as Hp. destruct (gd_own _ _ _ Hg) as [U Ho].
  assert (Hs : same_sched s s1) by (by apply same_on_user).
  assert (Hg1 : good [] m s1) by (apply (good_same [] [] m s); [done|done|]; exists U; by apply own_on_user).
  assert (Hu1 : is_user (task_at s1 c) = true).
  { unfold s1, sched_note_current_exit_code, on_current_user, current_user. rewrite Ec. cbn. rewrite Hu. unfold on_task.
    rewrite task_at_eq; [done|apply Hp|by apply (current_slot s)]. }
  pose proof (ss_cur _ _ Hs) as Ec1. rewrite Ec in Ec1. clearbody s1.
  assert (Hc0 : c ≠ 0). { intros ->. destruct (sl_idle _ _ (proj2 Ho)). congruence. }
  destruct (step_exit s1 (gd_wf _ _ _ Hg1)) as (s2 & E2 & Hst); [by apply (wf_started s1 c), Ec1; apply Hg1|congruence|].
  rewrite E in E2. injection E2 as <-. apply (good_next m s1); [done|done|].
  apply (owned_task_exit [] s1 c); try done; [apply Hg1|apply Hg1|by left].
Qed.

Lemma fault_good m s c addr err eip s' :
  good [] m s → g_current_task s = Some c → is_user (task_at s c) = true →
  isr_page_fault true addr err eip s = Some s' → good [] (m + 1) s'.
Proof.
  intros Hg Ec Hu E. pose proof (gd_wf _ _ _ Hg) as Hw. destruct (gd_own _ _ _ Hg) as [U Ho].
  assert (Hc0 : c ≠ 0). { intros ->. destruct (sl_idle _ _ (proj2 Ho)). congruence. }
  destruct (step_fault s addr err eip Hw) as (s2 & E2 & Hst); [by apply (wf_started s c)|congruence|].
  rewrite E in E2. injection E2 as <-. apply (good_next m s); [done|done|].
  apply (owned_fault [] s c addr err eip); try done. by exists U.
Qed.

(** ** Waiting for a child *)

Lemma round_good m s c target nohang rc s' :
  good [] m s → g_current_task s = Some c → c ≠ 0 → wait_round target nohang s = Some (rc, s') → good [] (m + 1) s'.
Proof.
  intros Hg Ec H0 E. destruct (wait_round_cases s c target nohang (gd_wf _ _ _ Hg) Ec H0) as (r & s2 & E2 & Hst & _).
  rewrite E in E2. injection E2 as <- <-. apply (good_next m s); [done|done|].
  apply (owned_wait_round [] s c target nohang rc s'); try done; apply Hg.
Qed.

Definition calm_out m (p : option (outcome * sched σ)) : Prop := match p with Some (_, s') => good [] m s' | None => True end.

Lemma finish_good m w rc s : good [] m s → calm_out m (waitpid_finish wp w rc s).
Proof.
  intros Hg. unfold waitpid_finish. set (s1 := if wc_restore_stdin w then _ else s).
  assert (Hg1 : good [] m s1) by (unfold s1; destruct (wc_restore_stdin w); [by apply good_give|done]). clearbody s1.
  destruct rc as [[pid code]|e]; [|done]. destruct (_ && _); [|done].
  destruct (uaccess_copy_to_user _ _ _ _ _) as [[r s2]|] eqn:E; [|done]. apply (copy_to_good [] m) in E; [|done]. by destruct r.
Qed.

Lemma rest_good m w p :
  match p with Some (_, s') => good [] m s' | None => True end → calm_out m (waitpid_rest wp w p).
Proof. unfold waitpid_rest. destruct p as [[[rc|] s']|]; [|done|done]. apply finish_good. Qed.

Lemma wait_again_good m s c w :
  good [] m s → g_current_task s = Some c → c ≠ 0 → calm_out (m + 1) (sys_waitpid_again wp w s).
Proof.
  intros Hg Ec H0. unfold sys_waitpid_again. apply rest_good. destruct (wait_round _ _ _) as [[rc s']|] eqn:E; [|done].
  by apply (round_good m s c (wc_target w) false rc).
Qed.

Lemma lend_good m target pid s : good [] m s →
  good [] m (snd (lend_console target pid s)) ∧ g_current_task (snd (lend_console target pid s)) = g_current_task s.
Proof.
  intros Hg. unfold lend_console. destruct (owns_console pid s); [|done].
  destruct (vfs_console_set_input_owner_task _ _) as [[u|e] c]; [|done]. split; [by apply good_console|done].
Qed.

Lemma calm_waitpid m s regs : good [] m s → calm_out (m + 1) (sys_waitpid wp regs s).
Proof.
  intros Hg. unfold sys_waitpid. cbv zeta. pose proof (good_more _ m (m + 1) s ltac:(lia) Hg) as Hg'.
  destruct (sched_current_task_is_user s) eqn:Hu; [|done]. cbn [negb].
  destruct (good_user _ _ _ Hg Hu) as (c & Ec & H0 & _). destruct (negb _); [done|]. destruct (_ && negb _); [done|].
  match goal with |- context [if ?b then lend_console ?x ?y s else (false, s)] => set (p := if b then lend_console x y s else (false, s)) end.
  assert (Hp : good [] m (snd p) ∧ g_current_task (snd p) = Some c).
  { unfold p. destruct (_ && _); [|done]. rewrite <- Ec. by apply lend_good. }
  destruct p as [restore s1]. cbn [snd] in Hp. destruct Hp as [Hg1 Ec1]. apply rest_good.
  unfold sched_waitpid_ex. pose proof (good_more _ m (m + 1) s1 ltac:(lia) Hg1) as Hg1'.
  destruct (negb (sched_current_task_is_user s1)); [done|]. destruct (negb _); [done|]. destruct (_ && _); [done|].
  destruct (wait_round _ _ _) as [[rc s']|] eqn:E; [|done]. by eapply (round_good m s1 c).
Qed.

(** ** Directories, the command line, tasks *)

Lemma calm_chdir m s regs : good [] m s → calm m (sys_chdir regs s).
Proof.
  intros Hg. unfold sys_chdir. apply calm_user; [done|]. intros _ _ _. destruct (user_path _ _ _ _) as [[path|e]|]; [|done|done].
  destruct (vfs_lookup _ _) as [nd|e]; [|done]. destruct (negb _); [done|]. destruct (gd_own _ _ _ Hg) as [U Ho].
  assert (H : good [] m (snd (sched_set_current_task_cwd (Some path) (alen path) s))).
  { apply (good_same [] [] m s); [done|apply same_cwd, Hg|]. exists U. apply own_cwd; [done|apply Hg]. }
  by destruct (sched_set_current_task_cwd _ _ _) as [[u|e] s1].
Qed.

Lemma copy_string_good m len buf a n s r s' : good [] m s → copy_string_to_user wp len buf a n s = Some (r, s') → good [] m s'.
Proof.
  intros Hg. unfold copy_string_to_user. destruct (n =? 0); [by intros [= <- <-]|]. destruct (negb _); [by intros [= <- <-]|].
  destruct (memcpy_to _ _ _ _) as [x|]; [|done]. cbn. intros [= <- <-]. by apply good_mem.
Qed.

Lemma calm_getcwd m s regs : good [] m s → calm m (sys_getcwd wp regs s).
Proof.
  intros Hg. unfold sys_getcwd. apply calm_user; [done|]. intros _ _ _. unfold sched_copy_current_task_cwd_to_user.
  destruct (current_user s) as [[i t]|]; [|done].
  destruct (copy_string_to_user _ _ _ _ _ _) as [[[n|e] s1]|] eqn:E; [| |done]; by apply (copy_string_good m) in E.
Qed.

Lemma calm_getcmdline m s regs : good [] m s → calm m (sys_getcmdline wp regs s).
Proof.
  intros Hg. unfold sys_getcmdline. apply calm_user; [done|]. intros _ _ _. unfold sched_copy_current_task_cmdline_to_user.
  destruct (current_user s) as [[i t]|]; [|done].
  destruct (copy_string_to_user _ _ _ _ _ _) as [[[n|e] s1]|] eqn:E; [| |done]; by apply (copy_string_good m) in E.
Qed.

Lemma calm_entries m ptr es s : good [] m s → calm m (copy_entries wp ptr es s).
Proof.
  intros Hg. unfold copy_entries. destruct (_ =? 0); [done|].
  destruct (uaccess_copy_to_user _ _ _ _ _) as [[[u|e] s1]|] eqn:E; [| |done]; by apply (copy_to_good [] m) in E.
Qed.

Lemma calm_snapshot m s regs : good [] m s → calm m (sys_task_snapshot wp regs s).
Proof.
  intros Hg. unfold sys_task_snapshot. cbv zeta. apply calm_user; [done|]. intros _ _ _. destruct (_ && _); [done|].
  destruct (sched_collect_task_snapshot _ _ _) as [l|e]; [|done]. by apply calm_entries.
Qed.

Lemma calm_list_dir m s regs : good [] m s → calm m (sys_list_dir wp stack regs s).
Proof.
  intros Hg. unfold sys_list_dir. apply calm_user; [done|]. intros _ _ _.
  destruct (uaccess_copy_from_user _ _ _) as [[bs|e]|]; [|done|done]. cbv zeta. destruct (_ && _); [done|].
  destruct (user_path _ _ _ _) as [[path|e]|]; [|done|done]. destruct (vfs_list_dir _ _ _ _) as [l|e]; [|done]. by apply calm_entries.
Qed.

(** ** Windows and time *)

Lemma good_desk m d s : good [] m s → good [] m (put_desk d s).
Proof. intros Hg. unfold put_desk, set_desk. apply (good_files []); [done|]. intros U G _ Hh. by apply law_console. Qed.

Lemma calm_gui_create m s regs : good [] m s → calm m (sys_gui_create regs s).
Proof.
  intros Hg. unfold sys_gui_create. apply calm_user; [done|]. intros _ _ _.
  destruct (uaccess_copy_from_user _ _ _) as [[bs|e]|]; [|done|done].
  destruct (display_gui_create_window _ _ _ _ _) as [[[v|e] d]|]; [| |done]; by apply good_desk.
Qed.

Lemma calm_gui_flush m s regs : good [] m s → calm m (sys_gui_flush regs s).
Proof.
  intros Hg. unfold sys_gui_flush. apply calm_user; [done|]. intros _ _ _.
  destruct (uaccess_copy_from_user _ _ _) as [[bs|e]|]; [|done|done].
  destruct (display_gui_flush_window _ _ _ _ _) as [[[v|e] d]|]; [| |done]; by apply good_desk.
Qed.

Lemma calm_gui_poll m s regs : good [] m s → calm m (sys_gui_poll wp regs s).
Proof.
  intros Hg. unfold sys_gui_poll. cbv zeta. apply calm_user; [done|]. intros _ _ _. destruct (_ || _); [done|].
  destruct (display_gui_poll_event _ _ _) as [[[ev|]|e] d]; [|by apply good_desk|by apply good_desk].
  destruct (uaccess_copy_to_user _ _ _ _ _) as [[[u|e] s1]|] eqn:E; [| |done]; apply (copy_to_good [] m) in E; try done; by apply good_desk.
Qed.

Lemma calm_gui_destroy m s regs : good [] m s → calm m (sys_gui_destroy regs s).
Proof.
  intros Hg. unfold sys_gui_destroy. apply calm_user; [done|]. intros _ _ _.
  destruct (display_gui_destroy_window _ _ _ _) as [[v|e] d]; by apply good_desk.
Qed.

Lemma calm_time_info m s regs : good [] m s → calm m (sys_time_info wp timer_frequency_hz regs s).
Proof.
  intros Hg. unfold sys_time_info. cbv zeta. apply calm_user; [done|]. intros _ _ _.
  destruct (uaccess_copy_to_user _ _ _ _ _) as [[[u|e] s1]|] eqn:E; [| |done]; by apply (copy_to_good [] m) in E.
Qed.

(** * Any call *)

Lemma calm_returns m p : calm m p → calm_out m (returns p).
Proof. by destruct p as [[v s]|]. Qed.

Lemma dispatch_good m s c regs :
  good [] m s → m < 2147483648 → regs_ok regs → g_current_task s = Some c → is_user (task_at s c) = true →
  calm_out (m + 1) (syscall_dispatch wp stack timer_frequency_hz regs s).
Proof.
  intros Hg Hm Hr Ec Hu. unfold syscall_dispatch. cbv zeta. set (s1 := sched_note_current_syscall _ s).
  pose proof (proj1 (gd_wf _ _ _ Hg)) as Hp. destruct (gd_own _ _ _ Hg) as [U Ho].
  assert (Hs : same_sched s s1) by (by apply same_on_user).
  assert (Hg1 : good [] m s1) by (apply (good_same [] [] m s); [done|done|]; exists U; by apply own_on_user).
  assert (Hu1 : is_user (task_at s1 c) = true).
  { unfold s1, sched_note_current_syscall, on_current_user, current_user. rewrite Ec. cbn. rewrite Hu. unfold on_task.
    rewrite task_at_eq; [done|apply Hp|by apply (current_slot s)]. }
  pose proof (ss_cur _ _ Hs) as Ec1. rewrite Ec in Ec1. clearbody s1. clear Hg Ho Hp Hs Hu Ec.
  assert (Hk : ∀ p, calm m p → calm_out (m + 1) (returns p)).
  { intros p Hc. apply calm_returns. apply (calm_more m); [lia|done]. }
  assert (Hk1 : ∀ p, calm (m + 1) p → calm_out (m + 1) (returns p)) by (intros p; apply calm_returns).
  destruct (_ =? _); [by apply Hk, calm_write|]. destruct (_ =? _); [by apply Hk1, calm_yield|].
  destruct (_ =? _). { destruct (sys_exit _ _) as [s2|] eqn:E; [|done]. by apply (exit_good m s1 c regs). }
  destruct (_ =? _); [by apply Hk|]. destruct (_ =? _); [by apply Hk, calm_read|].
  destruct (_ =? _); [by apply Hk1, calm_spawn|]. destruct (_ =? _); [by apply Hk1, calm_spawn_ex|].
  destruct (_ =? _); [by apply Hk, calm_open|]. destruct (_ =? _); [by apply Hk, calm_close|].
  destruct (_ =? _); [by apply calm_waitpid|]. destruct (_ =? _); [by apply Hk, calm_snapshot|].
  destruct (_ =? _); [by apply Hk1, calm_sleep|]. destruct (_ =? _); [by apply Hk, calm_time_info|].
  destruct (_ =? _); [by apply Hk, calm_getcmdline|]. destruct (_ =? _); [by apply Hk, calm_list_dir|].
  destruct (_ =? _); [by apply Hk, calm_chdir|]. destruct (_ =? _); [by apply Hk, calm_getcwd|].
  destruct (_ =? _); [by apply Hk, calm_pipe|]. destruct (_ =? _); [by apply Hk, calm_dup|].
  destruct (_ =? _); [by apply Hk, calm_dup2|]. destruct (_ =? _); [by apply Hk, calm_unlink|].
  destruct (_ =? _); [by apply Hk1, calm_fork|]. destruct (_ =? _); [by apply Hk, calm_gui_create|].
  destruct (_ =? _); [by apply Hk, calm_gui_flush|]. destruct (_ =? _); [by apply Hk, calm_gui_poll|].
  destruct (_ =? _); [by apply Hk, calm_gui_destroy|]. apply (good_more _ m); [lia|done].
Qed.
End calls.
