(* ===== verification/Machine.v ===== *)
(** A machine that keeps the laws of KernelInv.v, for concrete runs.

    Its files are the pipes of kernel/pipe.c, the null device and one program on a
    read-only file system. *)

From S2P Require Import Prelude Bytes Ring Keyboard Console Framebuffer Gui GuiSpec Pmm Kmalloc VfsNode KFile Vfs KPipe ProcFd Paging.
From S2P Require Import PagingMap UserMem Sched SchedInv SchedRun Elf SysPath CmdLine StartStack User Syscall KernelInv.

(** Handles of the program and of the null device need no counting. *)
Record machine := Machine {
  m_pipes : pipes;
  m_usermode : usermode;
  m_console : console desk;
  m_screen : display_framebuffer_state;
  m_program : list Z
}.

Definition set_pipes (p : pipes) (M : machine) : machine :=
  Machine p (m_usermode M) (m_console M) (m_screen M) (m_program M).

#[export] Instance machine_parts : KernelParts machine := {
  usermode_of := m_usermode;
  set_usermode u M := Machine (m_pipes M) u (m_console M) (m_screen M) (m_program M);
  console_of := m_console;
  set_console c M := Machine (m_pipes M) (m_usermode M) c (m_screen M) (m_program M);
  g_display_fb := m_screen
}.

#[local] Instance some_pipes : FileOps pipes := pipe_ops_inst id 4.
#[local] Instance some_laws : FileLaws pipes := pipe_laws id 4.

(** Reading the program from the offset of the handle on. *)
Definition program_read (f : kfile) (has_buf : bool) (len : Z) (M : machine) : option (res (list Z) * kfile * machine) :=
  let bs := slice (m_program M) (f_offset f) len in
  Some (Ok bs, set_offset f (f_offset f + alen bs), M).

#[export] Instance machine_files : FileOps machine := {
  op_read id :=
    if decide (id = g_tarfs_file_ops) then Some program_read
    else op ← op_read (σ := pipes) id; Some (λ f b len M, '(r, f', p) ← op f b len (m_pipes M); Some (r, f', set_pipes p M));
  op_write id := op ← op_write (σ := pipes) id;
    Some (λ f b len M, '(r, n, f', p) ← op f b len (m_pipes M); Some (r, n, f', set_pipes p M));
  op_retain id := op ← op_retain (σ := pipes) id; Some (λ f M, let '(r, p) := op f (m_pipes M) in (r, set_pipes p M));
  op_close id := op ← op_close (σ := pipes) id; Some (λ f M, let '(r, p) := op f (m_pipes M) in (r, set_pipes p M))
}.

#[export] Instance machine_pipe : PipeOps machine := {
  kpipe_create_in M := let '(r, p) := kpipe_create (m_pipes M) in (r, set_pipes p M)
}.

Definition program_node : vfs_node := tarfs_vfs_node 0.
Definition name_prog : list Z := [112; 114; 111; 103].

#[export] Instance machine_nodes : NodeOps machine := {
  g_vfs_root _ := Some g_vfs_root_node;
  node_type nd _ :=
    match nd with g_vfs_root_node | g_vfs_dev_node => VFS_NODE_DIR | tarfs_vfs_node _ => VFS_NODE_FILE | _ => VFS_NODE_CHARDEV end;
  nd_lookup nd _ :=
    match nd with
    | g_vfs_root_node => Some (λ name len,
        try! n := vfs_static_dir_lookup [(name_dev, g_vfs_dev_node); (name_prog, program_node)] name len in Ok (Some n))
    | g_vfs_dev_node => Some (λ name len, try! n := vfs_static_dir_lookup g_vfs_dev_entries name len in Ok (Some n))
    | _ => None
    end;
  nd_list _ _ := None;
  nd_open nd M :=
    match nd with
    | g_vfs_null_node => Some (λ fl, (Ok (kfile_init (Some nd) (Some g_vfs_devnull_file_ops) 0 fl), M))
    | tarfs_vfs_node _ => Some (λ fl, (Ok (kfile_init (Some nd) (Some g_tarfs_file_ops) 0 fl), M))
    | _ => None
    end;
  nd_create_open _ _ := None;
  nd_unlink _ _ := None
}.

(** The files that are counted. *)
Definition counted (f : kfile) : Prop := f_ops f = None ∨ f_ops f = Some g_kpipe_file_ops.
#[local] Instance counted_dec f : Decision (counted f) := _.

Definition machine_held (F : list kfile) (M : machine) : Prop := pipe_system_held (filter counted F) (m_pipes M).

Lemma machine_op {A B} (o : option A) (g : A → B) (b : B) : (x ← o; Some (g x)) = Some b → ∃ x, o = Some x ∧ g x = b.
Proof. destruct o as [x|]; simpl; [|done]. intros [= <-]. by exists x. Qed.

Lemma machine_no_op {A B C} (f : option C) (o : C → option A) (g : A → B) :
  f ≫= (λ id, x ← o id; Some (g x)) = None → f ≫= o = None.
Proof. destruct f as [c|]; simpl; [|done]. by destruct (o c). Qed.

Lemma counted_cons f F : counted f → filter counted (f :: F) = f :: filter counted F.
Proof. intros Hf. by rewrite filter_cons_True. Qed.

Lemma uncounted_cons f F : ¬ counted f → filter counted (f :: F) = filter counted F.
Proof. intros Hf. by rewrite filter_cons_False. Qed.

Lemma counted_room f F n : alen (f :: F) + n < two32 → alen (f :: filter counted F) + n < two32.
Proof. unfold alen. simpl. pose proof (length_filter counted F). lia. Qed.

#[export] Instance machine_laws : FileLaws machine.
Proof.
  refine {| held := machine_held |}.
  - intros F G HFG M _ <-. unfold machine_held.
    exact (@held_proper pipes some_pipes some_laws _ _ (filter_Permutation counted _ _ HFG) (m_pipes M) (m_pipes M) eq_refl).
  - intros id retain f F M Hid (op & Ho & <-)%machine_op Hb Hh.
    assert (Hf : counted f) by (right; rewrite Hid; by destruct id). unfold machine_held in Hh. rewrite counted_cons in Hh by done.
    pose proof (@held_retain pipes some_pipes some_laws id op f _ (m_pipes M) Hid Ho (counted_room f F 1 Hb) Hh) as H.
    destruct (op f (m_pipes M)) as [[u|e] p]; unfold machine_held; by rewrite !counted_cons.
  - intros f F M Hn Hb Hh. unfold machine_held in *. destruct (decide (counted f)); [|by rewrite !uncounted_cons in *].
    rewrite !counted_cons in * by done.
    exact (@held_copy pipes some_pipes some_laws f _ (m_pipes M) (machine_no_op (f_ops f) _ _ Hn) (counted_room f F 1 Hb) Hh).
  - intros id close f F M Hid (op & Ho & <-)%machine_op Hh.
    assert (Hf : counted f) by (right; rewrite Hid; by destruct id). unfold machine_held in *. rewrite counted_cons in Hh by done.
    destruct (@held_close pipes some_pipes some_laws id op f _ (m_pipes M) Hid Ho Hh) as (p & E & Hp). exists (set_pipes p M). by rewrite E.
  - intros f F M Hn Hh. unfold machine_held in *. destruct (decide (counted f)); [|by rewrite uncounted_cons in Hh].
    rewrite counted_cons in Hh by done. exact (@held_drop pipes some_pipes some_laws f _ (m_pipes M) (machine_no_op (f_ops f) _ _ Hn) Hh).
Defined.

(** A critical section of a read or a write keeps the counts. *)
Lemma section_held F s p st st' :
  pipe_system_held F s → pipe_map s !! p = Some st → pipe_wf st' → KPipe.same_refs st st' → pipe_system_held F (pipe_store p st' s).
Proof.
  intros [Hl Hh] Hst Hwf [E1 E2]. split; [done|]. split; simpl.
  - apply Hh.
  - eapply known_file_mono, Hh. simpl. intros q Hq. destruct (decide (q = p)) as [->|]; [by rewrite lookup_insert_eq|by rewrite lookup_insert_ne].
  - intros q x Hx. destruct (decide (q = p)) as [->|].
    + rewrite lookup_insert_eq in Hx. injection Hx as <-. destruct (hp_pipes _ _ Hh p st Hst) as [A1 A2 A3 A4 A5].
      split; try done; congruence.
    + rewrite lookup_insert_ne in Hx by done. by destruct (hp_pipes _ _ Hh q x Hx).
Qed.

Lemma at_map s p st : pipe_map s !! p = Some st → pipe_at s p = st.
Proof. intros E. unfold pipe_at. by rewrite E. Qed.

Lemma read_section_held len F s p st :
  pipe_system_held F s → pipe_map s !! p = Some st → pipe_system_held F (pipe_store p (snd (read_section len st)) s).
Proof.
  intros Hh Hst. pose proof (ring_take_spec (Z.to_nat len) st (ph_wf _ _ _ _ (hp_pipes _ _ (proj2 Hh) p st Hst))) as Hc.
  unfold read_section. destruct (ring_take _ _) as [bs st']. destruct Hc as (Hwf & Hr & _).
  pose proof (section_held F s p st st' Hh Hst Hwf Hr) as Hh'. destruct bs; [by destruct (_ =? _)|done].
Qed.

Lemma read_loop_held n p len F s r s' :
  pipe_system_held F s → is_Some (pipe_map s !! p) → read_loop id n p len s = Some (r, s') → pipe_system_held F s'.
Proof.
  revert s. induction n as [|n IH]; intros s Hh [st Hst]; [done|]. simpl. rewrite (at_map s p st Hst).
  pose proof (read_section_held len F s p st Hh Hst) as Hh'.
  destruct (read_section len st) as [[bs|] st']; cbn [snd] in Hh'; [by intros [= <- <-]|].
  apply IH; [done|]. simpl. rewrite lookup_insert_eq. by eexists.
Qed.

Lemma write_loop_held n p src total F s r w s' :
  pipe_system_held F s → is_Some (pipe_map s !! p) → write_loop id n p src total s = Some (r, w, s') → pipe_system_held F s'.
Proof.
  revert src total s. induction n as [|n IH]; intros src total s Hh [st Hst]; (destruct src as [|b src]; [by intros [= <- <- <-]|done || simpl]).
  rewrite (at_map s p st Hst).
  pose proof (write_section_cases (b :: src) st (ph_wf _ _ _ _ (hp_pipes _ _ (proj2 Hh) p st Hst))) as Hc.
  destruct (write_section (b :: src) st) as [[rest|e] st']; destruct Hc as (Hwf & Hr & _);
    pose proof (section_held F s p st st' Hh Hst Hwf Hr) as Hh'; [|by intros [= <- <- <-]].
  intros E. destruct rest; (apply IH in E; [done|done|]); simpl; rewrite lookup_insert_eq; by eexists.
Qed.

(** The pipe a held file is an end of. *)
Lemma held_pipe f id F s : f_ops f = Some id → pipe_system_held (f :: F) s → is_Some (pipe_map s !! f_private f).
Proof. intros Hid [_ Hh]. destruct (known_file_pipe F f id s Hid Hh) as (st & _ & _ & E & _). by exists st. Qed.

Lemma pipe_read_same f b len s r f' s' : kpipe_read id 4 f b len s = Some (r, f', s') → f' = f.
Proof.
  unfold kpipe_read. destruct (_ || _); [by intros [= <- <- <-]|]. destruct (_ && _); [by intros [= <- <- <-]|].
  destruct (len =? 0); [by intros [= <- <- <-]|]. destruct (read_loop _ _ _ _ _) as [[? ?]|]; [|done]. by intros [= <- <- <-].
Qed.

Lemma pipe_write_same f b len s r n f' s' : kpipe_write id 4 f b len s = Some (r, n, f', s') → f' = f.
Proof.
  unfold kpipe_write. destruct (_ || _); [by intros [= <- <- <- <-]|]. destruct (_ && _); [by intros [= <- <- <- <-]|].
  destruct (len =? 0); [by intros [= <- <- <- <-]|]. destruct (write_loop _ _ _ _ _ _) as [[[? ?] ?]|]; [|done]. by intros [= <- <- <- <-].
Qed.

Lemma create_counted s : match kpipe_create s with (Ok (r, w), _) => counted r ∧ counted w | _ => True end.
Proof. unfold kpipe_create. destruct (kmalloc _ _) as [p h]. destruct (p =? 0); [done|]. split; by right. Qed.

Lemma pipe_read_held id (op : kfile → bool → Z → pipes → option (res (list Z) * kfile * pipes)) f b len F s r f' s' :
  f_ops f = Some id → op_read (σ := pipes) id = Some op → op f b len s = Some (r, f', s') →
  pipe_system_held (f :: F) s → pipe_system_held (f' :: F) s'.
Proof.
  intros Hid Ho E Hh. destruct id; try done. injection Ho as <-. pose proof (held_pipe f _ F s Hid Hh) as Hp.
  unfold kpipe_read in E. destruct (_ || _); [by simplify_eq|]. destruct (_ && _); [by simplify_eq|].
  destruct (len =? 0); [by simplify_eq|].
  destruct (read_loop _ _ _ _ _) as [[r1 s1]|] eqn:El; [|done]. injection E as <- <- <-.
  by apply (read_loop_held 4 (f_private f) len (f :: F) s r1 s1).
Qed.

Lemma pipe_write_held id (op : kfile → option (list Z) → Z → pipes → option (res unit * Z * kfile * pipes)) f b len F s r n f' s' :
  f_ops f = Some id → op_write (σ := pipes) id = Some op → op f b len s = Some (r, n, f', s') →
  pipe_system_held (f :: F) s → pipe_system_held (f' :: F) s'.
Proof.
  intros Hid Ho E Hh. destruct id; try done. injection Ho as <-. pose proof (held_pipe f _ F s Hid Hh) as Hp.
  unfold kpipe_write in E. destruct (_ || _); [by simplify_eq|]. destruct (_ && _); [by simplify_eq|].
  destruct (len =? 0); [by simplify_eq|].
  destruct (write_loop _ _ _ _ _ _) as [[[r1 n1] s1]|] eqn:El; [|done]. injection E as <- <- <- <-.
  by apply (write_loop_held 4 (f_private f) _ 0 (f :: F) s r1 n1 s1 Hh Hp) in El.
Qed.

Lemma open_uncounted U F f M : ¬ counted f → holding U F M → holding U (f :: F) M.
Proof. intros Hf [Hh Hu]. split; [|done]. change (machine_held (f :: F) M). unfold machine_held. by rewrite uncounted_cons. Qed.

#[export] Instance machine_call_laws : CallLaws machine.
Proof.
  split.
  - intros u F M Hh. by split.
  - intros c U F M [Hh Hu]. by split.
  - intros id op f M (o & _ & <-)%machine_op. by destruct (o f (m_pipes M)).
  - intros id op f M (o & _ & <-)%machine_op. by destruct (o f (m_pipes M)).
  - intros id op f b len U F M r f' M' Hid Hop E [Hh Hu]. cbn [op_read machine_files] in Hop.
    destruct (decide (id = g_tarfs_file_ops)) as [->|].
    + injection Hop as <-. injection E as <- <- <-. apply open_uncounted.
      * unfold counted. simpl. rewrite Hid. by intros [].
      * split; [|done]. change (machine_held (f :: F) M) in Hh. unfold machine_held in Hh. rewrite uncounted_cons in Hh; [done|].
        unfold counted. rewrite Hid. by intros [].
    + apply machine_op in Hop as (o & Ho & <-). destruct (o f b len (m_pipes M)) as [[[r1 f1] p]|] eqn:Eo; [|done].
      assert (id = g_kpipe_file_ops) as -> by (by destruct id). simplify_eq/=. split; [|done].
      change (machine_held (f :: F) M) in Hh. change (machine_held (f' :: F) (set_pipes p M)). unfold machine_held in *.
      assert (Hf : counted f) by (right; done). assert (f' = f) as -> by (by apply (pipe_read_same f b len (m_pipes M) r f' p)).
      rewrite counted_cons in * by done. by apply (pipe_read_held _ _ f b len _ (m_pipes M) r f p Hid eq_refl Eo).
  - intros id op f b len U F M r n f' M' Hid (o & Ho & <-)%machine_op E [Hh Hu].
    destruct (o f b len (m_pipes M)) as [[[[r1 n1] f1] p]|] eqn:Eo; [|done].
    assert (id = g_kpipe_file_ops) as -> by (by destruct id). simplify_eq/=. split; [|done].
    change (machine_held (f :: F) M) in Hh. change (machine_held (f' :: F) (set_pipes p M)). unfold machine_held in *.
    assert (Hf : counted f) by (right; done). assert (f' = f) as -> by (by apply (pipe_write_same f b len (m_pipes M) r n f' p)).
    rewrite counted_cons in * by done. by apply (pipe_write_held _ _ f b len _ (m_pipes M) r n f p Hid eq_refl Eo).
  - intros nd op fl U F M Hop Hb Hh. destruct nd; try done; injection Hop as <-; apply open_uncounted; try done; by intros [].
  - done.
  - done.
  - intros U F M Hb [Hh Hu]. change (machine_held F M) in Hh. unfold machine_held in Hh.
    assert (Hb' : alen (filter counted F) + 2 < two32) by (unfold alen in *; pose proof (length_filter counted F); lia).
    pose proof (kpipe_create_cases _ (m_pipes M) Hh Hb') as H. cbn [kpipe_create_in machine_pipe].
    pose proof (create_counted (m_pipes M)) as Hc.
    destruct (kpipe_create (m_pipes M)) as [[[rd wr]|e] p].
    + destruct H as [H _]. destruct Hc as [H1 H2]. split; [|done]. change (machine_held (rd :: wr :: F) (set_pipes p M)).
      unfold machine_held. by rewrite !counted_cons.
    + destruct H as [_ ->]. split; [|done]. by destruct M.
Qed.

(** * Booted *)

(** A program of one page at 0x1440000. *)
Definition program_bytes : list Z :=
  [127; 69; 76; 70; 1; 1; 1; 0; 0; 0; 0; 0; 0; 0; 0; 0] ++ [2; 0; 3; 0] ++ le32 1 ++ le32 21233664 ++ le32 52 ++ le32 0 ++
  le32 0 ++ [52; 0; 32; 0; 1; 0; 0; 0; 0; 0; 0; 0] ++
  le32 1 ++ le32 84 ++ le32 21233664 ++ le32 21233664 ++ le32 4 ++ le32 8 ++ le32 5 ++ le32 4096 ++ [144; 144; 235; 254].

(** "/prog" *)
Definition program_path : list Z := SLASH :: name_prog.

Definition machine0 : machine := Machine demo_pipes usermode_zero
  (Console kbd_zero (Desk gui_zero (λ _ _, 0) (kmalloc_init 1048576 1048576)) (serial_zero []) VFS_CONSOLE_INPUT_OWNER_KERNEL (-1) false 0 [])
  demo_screen program_bytes.
Definition machine_zero : sched machine := sched_zero boot machine0 0.
Definition machine_init : sched machine := default machine_zero (sched_init machine_zero).

Lemma machine0_held : held [] machine0 ∧ usermode_of machine0 = usermode_zero.
Proof. split; [exact demo_pipes_held|done]. Qed.
