(* ===== verification/KernelRun.v ===== *)
(** Runs of the kernel: boot, programs that start, system calls, timer ticks and
    page faults.

    An event is one entry into the kernel, carried out to its end.  Over any run
    the task table stays consistent, every open file is counted exactly by the
    descriptors of live tasks, and the child slots in use are those of live
    tasks: nothing is leaked and nothing is freed early, whatever programs do. *)

From S2P Require Import Prelude Bytes Ring Keyboard Console Framebuffer Gui Pmm Kmalloc VfsNode KFile Vfs KPipe ProcFd Paging.
From S2P Require Import PagingMap UserMem Sched SchedInv SchedRun Elf SysPath CmdLine StartStack User Syscall KernelInv SyscallInv.
From S2P Require Import Machine.

Inductive kernel_event :=
  | EvSpawnKernel (name : option (list Z)) (entry : option sched_task_entry) (arg size : Z)
  | EvSpawnDemo | EvSpawnFault | EvSpawnElfA | EvSpawnElfB | EvSpawnShell | EvSpawnGuiSession
  | EvStart
  | EvTaskStart
  | EvCheckpoint
  | EvSyscall (regs : syscall_saved_regs)
  | EvWaitAgain (w : wait_call)
  | EvTick
  | EvFault (addr err eip : Z).

Section run.
Context {σ : Type} `{!NodeOps σ, !FileOps σ, !KernelParts σ, !PipeOps σ}.
Context (wp : bool) (user_demo_blob : list Z) (stack : Z → list Z) (timer_frequency_hz : Z).
Implicit Types (s : sched σ).

(** What the current task runs from its entry function on: it enters user mode,
    or returns and is exited. *)
Definition task_start s : option (task_end * sched σ) :=
  match g_current_task s with
  | None => None
  | Some c => match t_entry (task_at s c) with None => None | Some e => run_entry wp user_demo_blob e (t_arg (task_at s c)) s end
  end.

Definition kernel_step (ev : kernel_event) s : option (sched σ) :=
  match ev with
  | EvSpawnKernel name entry arg size => Some (snd (sched_spawn_kernel_task name entry arg size s))
  | EvSpawnDemo => Some (snd (usermode_spawn_demo_task s))
  | EvSpawnFault => Some (snd (usermode_spawn_fault_task s))
  | EvSpawnElfA => Some (snd (usermode_spawn_elf_demo_task_a s))
  | EvSpawnElfB => Some (snd (usermode_spawn_elf_demo_task_b s))
  | EvSpawnShell => Some (snd (usermode_spawn_shell_task s))
  | EvSpawnGuiSession => Some (snd (usermode_spawn_gui_session_task s))
  | EvStart => sched_start s
  | EvTaskStart => '(r, s) ← task_start s; match r with EnterUser _ _ => Some s | TaskReturns => sched_task_exit s end
  | EvCheckpoint => sched_checkpoint s
  | EvSyscall regs => '(_, s) ← syscall_dispatch wp stack timer_frequency_hz regs s; Some s
  | EvWaitAgain w => '(_, s) ← sys_waitpid_again wp w s; Some s
  | EvTick => timer_handler s
  | EvFault addr err eip => isr_page_fault true addr err eip s
  end.

(** The current task holds no descriptor. *)
Definition holds_nothing s : Prop :=
  match g_current_task s with Some c => table_files (t_fd_table (task_at s c)) = [] | None => True end.

(** Calls and faults come from user mode; a program starts in a kernel task
    other than the idle one.  A program that could not be loaded leaves its task
    without closing inherited descriptors, which is the leak of SchedMem.v: such
    ends are left out. *)
Definition event_allowed (ev : kernel_event) s : Prop :=
  match ev with
  | EvSpawnKernel _ entry _ _ => entry ≠ Some usermode_child_slot_entry
  | EvStart => g_sched_started s = false
  | EvTaskStart =>
      sched_current_task_is_user s = false ∧ g_current_task s ≠ Some 0 ∧
      match task_start s with Some (TaskReturns, s') => holds_nothing s' | _ => True end
  | EvSyscall regs => sched_current_task_is_user s = true ∧ regs_ok regs
  | EvWaitAgain _ | EvFault _ _ _ => sched_current_task_is_user s = true
  | _ => True
  end.

#[export] Instance event_allowed_dec ev s : Decision (event_allowed ev s).
Proof.
  unfold event_allowed, holds_nothing, regs_ok. destruct ev; try apply _.
  destruct (task_start s) as [[[] s']|]; try apply _. destruct (g_current_task s'); apply _.
Defined.

(** A sequence of events, all allowed; [None] also when one is not. *)
Fixpoint kernel_run (evs : list kernel_event) s : option (sched σ) :=
  match evs with
  | [] => Some s
  | ev :: evs => if bool_decide (event_allowed ev s) then s' ← kernel_step ev s; kernel_run evs s' else None
  end.

(** Booted: [sched_init] has made the idle task, no file is open, and the
    variables of usermode.c have their first values. *)
Definition booted `{!FileLaws σ} s : Prop :=
  ∃ s0, sched_init s0 = Some s ∧ held [] (files s0) ∧ usermode_of (files s0) = usermode_zero.

Inductive kernel_reachable `{!FileLaws σ} : Z → sched σ → Prop :=
  | kernel_booted s : booted s → kernel_reachable 0 s
  | kernel_next n s ev s' : kernel_reachable n s → event_allowed ev s → kernel_step ev s = Some s' → kernel_reachable (n + 1) s'.

Lemma kernel_run_reachable `{!FileLaws σ} evs n s s' :
  kernel_reachable n s → kernel_run evs s = Some s' → kernel_reachable (n + alen evs) s'.
Proof.
  revert n s. induction evs as [|ev evs IH]; intros n s Hr E; simpl in E.
  - injection E as <-. by replace (n + alen []) with n by (unfold alen; simpl; lia).
  - case_bool_decide as Ha; [|done]. destruct (kernel_step ev s) as [s1|] eqn:Es; [|done]. simpl in E.
    replace (n + alen (ev :: evs)) with (n + 1 + alen evs) by (unfold alen; simpl; lia).
    apply (IH _ s1); [|done]. by apply (kernel_next n s ev).
Qed.
End run.

Section kept.
Context {σ : Type} `{!NodeOps σ, !FileOps σ, !FileLaws σ, !KernelParts σ, !PipeOps σ, !CallLaws σ}.
Context (wp : bool) (user_demo_blob : list Z) (stack : Z → list Z) (timer_frequency_hz : Z).
Implicit Types (s : sched σ) (U : usermode) (F : list kfile).

(** * The variables of usermode.c *)

(** Slots and noted pids are the same. *)
Definition same_slots U U' : Prop :=
  g_user_child_slots U' = g_user_child_slots U ∧ g_user_shell_pid U' = g_user_shell_pid U ∧
  g_user_gui_session_pid U' = g_user_gui_session_pid U.

Lemma slots_same U U' s : same_slots U U' → slots_ok U s → slots_ok U' s.
Proof.
  intros (E1 & E2 & E3) [H1 H2 H3 H4 H5 H6]. assert (Es : ∀ k, child_slot k U' = child_slot k U) by (intros k; unfold child_slot; by rewrite E1).
  split; try done.
  - by rewrite E1.
  - intros k. rewrite Es. apply H2.
  - intros i Hi Hu He. unfold has_slot. rewrite Es. by apply H3.
  - by rewrite E2.
  - by rewrite E3.
Qed.

Lemma good_usermode F m f s : (∀ U, same_slots U (f U)) → good F m s → good F m (on_files (on_usermode f) s).
Proof.
  intros Hf Hg. destruct (gd_own _ _ _ Hg) as [U [Ho Hs]]. apply (good_same F F m s); [done|apply same_files|].
  exists (f U). split; [by apply fds_usermode|]. apply (slots_tasks (f U) s); [done|]. by apply (slots_same U).
Qed.

Lemma slots_shell U s pid b :
  slots_ok U s → names s pid usermode_elf_demo_entry 3 → slots_ok (set_shell b pid U) s.
Proof. intros [H1 H2 H3 H4 H5 H6] Hn. by split. Qed.

Lemma slots_gui U s pid b :
  slots_ok U s → names s pid usermode_elf_demo_entry 4 → slots_ok (set_gui_session b pid U) s.
Proof. intros [H1 H2 H3 H4 H5 H6] Hn. by split. Qed.

(** * Spawning *)

Lemma spawn_kernel_good F m s name entry arg size :
  good F m s → few F → m < 2147483648 → entry ≠ Some usermode_child_slot_entry →
  let '(r, s') := sched_spawn_kernel_task name entry arg size s in
  good F (m + 1) s' ∧ ∀ pid e, r = Ok pid → entry = Some e → names s' pid e arg.
Proof.
  intros Hg HF Hm He. destruct (gd_own _ _ _ Hg) as [U [Ho Hs]]. pose proof (gd_wf _ _ _ Hg) as Hw.
  assert (Hb : g_next_pid s < 2147483648) by (pose proof (gd_np _ _ _ Hg); lia). unfold sched_spawn_kernel_task.
  pose proof (spawn_owns U F s name entry arg size (-1) false Ho Hw HF Hb) as Hsp.
  pose proof (step_spawn_internal s name entry arg size (-1) false Hw Hb (or_introl eq_refl)) as Hst.
  destruct (sched_spawn_task_internal _ _ _ _ _ _ s) as [r s']. destruct Hsp as [Ho' Hmade]. split.
  - apply (good_step F F m s s' 0); [done|done|]. exists U. split; [done|]. apply (slots_new U s s' r _ Hs Hmade).
    intros t [Et _] _ E. congruence.
  - intros pid e -> ->. destruct Hmade as (i & Hi & _ & _ & Hu & Hp & [Ee Ea] & _). by exists i.
Qed.

Lemma spawn_once_good m s spawned set name entry arg :
  good [] m s → m < 2147483648 → entry ≠ usermode_child_slot_entry →
  (∀ U pid (x : sched σ), slots_ok U x → names x pid entry arg → slots_ok (set pid U) x) →
  good [] (m + 1) (snd (spawn_once spawned set name entry arg s)).
Proof.
  intros Hg Hm He Hset. unfold spawn_once. destruct (spawned _); [apply (good_more _ m); [lia|done]|].
  pose proof (spawn_kernel_good [] m s (Some name) (Some entry) arg 0 Hg ltac:(done) Hm ltac:(congruence)) as H.
  destruct (sched_spawn_kernel_task _ _ _ _ s) as [[pid|e] s1]; destruct H as [Hg1 Hn]; [|done]. cbn [snd].
  destruct (gd_own _ _ _ Hg1) as [U [Ho Hs]]. apply (good_same [] [] (m + 1) s1); [done|apply same_files|].
  exists (set pid U). split; [by apply fds_usermode|]. apply (slots_tasks _ s1); [done|]. apply Hset; [done|]. by apply Hn.
Qed.

(** * Programs that start *)

(** The state of a kernel task other than the idle one. *)
Definition in_task s (c : Z) : Prop := g_current_task s = Some c ∧ c ≠ 0.

Definition starts m c (p : option (sched σ)) : Prop := match p with Some s' => good [] m s' ∧ in_task s' c | None => True end.

Lemma kassert_starts m c (p : res unit * sched σ) : good [] m (snd p) → in_task (snd p) c → starts m c (kassert p).
Proof. destruct p as [[u|e] s]; [done|done]. Qed.

Lemma layout_starts m c s ib isz sb ssz :
  good [] m s → in_task s c → starts m c (kassert (sched_set_current_user_layout ib isz sb ssz s)).
Proof.
  intros Hg [Ec H0]. pose proof (proj1 (gd_wf _ _ _ Hg)) as Hp. destruct (gd_own _ _ _ Hg) as [U Ho].
  pose proof (same_layout s ib isz sb ssz Hp) as Hs. apply kassert_starts.
  - apply (good_same [] [] m s); [done|done|]. exists U. by apply own_layout.
  - split; [|done]. by rewrite (ss_cur _ _ Hs).
Qed.

Lemma cmdline_starts m c s src len :
  good [] m s → in_task s c → starts m c (kassert (sched_set_current_task_cmdline src len s)).
Proof.
  intros Hg [Ec H0]. pose proof (proj1 (gd_wf _ _ _ Hg)) as Hp. destruct (gd_own _ _ _ Hg) as [U Ho].
  pose proof (same_cmdline s src len Hp) as Hs. apply kassert_starts.
  - apply (good_same [] [] m s); [done|done|]. exists U. by apply own_cmdline.
  - split; [|done]. by rewrite (ss_cur _ _ Hs).
Qed.

Lemma mark_starts m c s eip esp :
  good [] m s → in_task s c → starts m c (kassert (sched_mark_current_task_user_bootstrap eip esp s)).
Proof.
  intros Hg [Ec H0]. pose proof (proj1 (gd_wf _ _ _ Hg)) as Hp. destruct (gd_own _ _ _ Hg) as [U Ho].
  pose proof (mark_same s eip esp (gd_wf _ _ _ Hg)) as Hs. apply kassert_starts.
  - apply (good_same [] [] m s); [done|done|]. exists U. apply own_mark; [done|done|congruence].
  - split; [|done]. by rewrite (ss_cur _ _ Hs).
Qed.

Lemma region_starts m c s base size : good [] m s → in_task s c → starts m c (mark_or_halt base size s).
Proof. intros Hg Hc. unfold mark_or_halt. destruct (paging_mark_user_region _ _ _) as [[u|e] x]; [|done]. split; [by apply good_mem|done]. Qed.

Definition ends m c (p : option (task_end * sched σ)) : Prop :=
  match p with Some (_, s') => good [] m s' ∧ in_task s' c | None => True end.

Lemma starts_then m c p f :
  starts m c p → (∀ x, good [] m x → in_task x c → starts m c (f x)) → starts m c (p ≫= f).
Proof. destruct p as [x|]; [|done]. intros [Hg Hc] Hf. by apply Hf. Qed.

Lemma ends_then m c p f :
  starts m c p → (∀ x, good [] m x → in_task x c → ends m c (f x)) → ends m c (p ≫= f).
Proof. destruct p as [x|]; [|done]. intros [Hg Hc] Hf. by apply Hf. Qed.

Lemma mem_then m c s (p : option paging) f :
  good [] m s → in_task s c → (∀ x, good [] m (with_mem x s) → in_task (with_mem x s) c → starts m c (f x)) → starts m c (p ≫= f).
Proof. intros Hg Hc Hf. destruct p as [x|]; [|done]. apply Hf; [by apply good_mem|done]. Qed.

Lemma set_starts m c s f :
  (∀ U, same_slots U (f U)) → good [] m s → in_task s c → starts m c (Some (on_files (on_usermode f) s)).
Proof. intros Hf Hg Hc. split; [by apply good_usermode|done]. Qed.

Lemma demo_pages_starts m c s : good [] m s → in_task s c → starts m c (usermode_demo_prepare_pages wp user_demo_blob s).
Proof.
  intros Hg Hc. unfold usermode_demo_prepare_pages. destruct (g_user_demo_pages_prepared _); [done|]. destruct (_ <? _); [done|].
  destruct (memset _ _ _ _ _) as [m1|]; [|done]. cbn [mbind option_bind]. destruct (memcpy_to _ _ _ m1) as [m2|]; [|done].
  cbn [mbind option_bind]. apply (mem_then m c s); [done|done|]. intros x Hx Hcx. apply starts_then; [by apply region_starts|].
  intros y Hy Hcy. apply starts_then; [by apply region_starts|]. intros z Hz Hcz. by apply set_starts.
Qed.

Lemma fault_pages_starts m c s : good [] m s → in_task s c → starts m c (usermode_fault_prepare_pages wp s).
Proof.
  intros Hg Hc. unfold usermode_fault_prepare_pages. destruct (g_user_fault_stack_prepared _); [done|].
  apply starts_then; [|intros x Hx Hcx; by apply set_starts]. unfold usermode_prepare_user_rw_page.
  apply (mem_then m c s); [done|done|]. intros x Hx Hcx. by apply region_starts.
Qed.

Lemma demo_ends m c s : good [] m s → in_task s c → ends m c (usermode_demo_task wp user_demo_blob s).
Proof.
  intros Hg Hc. unfold usermode_demo_task. apply ends_then; [by apply demo_pages_starts|]. intros x Hx Hcx.
  apply ends_then; [by apply layout_starts|]. intros y Hy Hcy. apply ends_then; [by apply mark_starts|]. done.
Qed.

Lemma fault_ends m c s : good [] m s → in_task s c → ends m c (usermode_fault_task wp s).
Proof.
  intros Hg Hc. unfold usermode_fault_task. apply ends_then; [by apply fault_pages_starts|]. intros x Hx Hcx.
  apply ends_then; [by apply layout_starts|]. intros y Hy Hcy. apply ends_then; [by apply mark_starts|]. done.
Qed.

(** Loading the program first. *)
Lemma loading_then {A B} (f : Elf.kernel σ → option (A * Elf.kernel σ)) m c s (k : A * sched σ → option B) (P : option B → Prop) :
  (∀ x U G r x', f x = Some (r, x') → alen G + 1 < two32 → holding U G (k_files x) → holding U G (k_files x')) →
  good [] m s → in_task s c → P None → (∀ a x, good [] m x → in_task x c → P (k (a, x))) → P (loading f s ≫= k).
Proof.
  intros Hf Hg [Ec H0] HN Hk. destruct (loading f s) as [[a x]|] eqn:E; [|done]. destruct (gd_own _ _ _ Hg) as [U Ho].
  destruct (own_loading f U [] s a x Hf ltac:(done) Ho E) as (Ho' & Hs & _). apply Hk.
  - apply (good_same [] [] m s); [done|done|]. by exists U.
  - split; [|done]. by rewrite (ss_cur _ _ Hs).
Qed.

Lemma elf_demo_ends m c arg s : good [] m s → in_task s c → ends m c (usermode_elf_demo_task wp arg s).
Proof.
  intros Hg Hc. unfold usermode_elf_demo_task. destruct (cfg_at arg) as [cfg|]; [|done].
  apply (loading_then _ m c s _ (ends m c)); [|done|done|done|].
  { intros x U G r x' E. by apply (load_holds wp _ _ _ _ _ x U G r x' E). }
  intros [image|e] x Hx Hcx; [|done]. apply ends_then; [by apply layout_starts|]. intros y Hy Hcy.
  apply ends_then.
  { destruct (arg =? 3); [|done]. destruct (vfs_console_set_input_owner_task _ _) as [[u|e] k]; [|done].
    split; [by apply good_console|done]. }
  intros z Hz Hcz. apply ends_then; [by apply mark_starts|]. done.
Qed.

Lemma load_auto_holds path sb ssz (k : Elf.kernel σ) U F r k' :
  elf32_load_user_static_path_auto wp path sb ssz k = Some (r, k') → alen F + 1 < two32 →
  holding U F (k_files k) → holding U F (k_files k').
Proof.
  unfold elf32_load_user_static_path_auto. destruct (elf32_inspect_user_static_path _ _ _) as [[r1 k1]|] eqn:E1; [|done].
  cbn. intros E Hb Hh. pose proof (inspect_holds wp path k U F r1 k1 E1 Hb Hh) as Hh1. destruct r1 as [layout|e]; [|by simplify_eq].
  exact (load_holds wp _ _ _ _ _ k1 U F r k' E Hb Hh1).
Qed.

Lemma child_slot_ends m c arg s : good [] m s → in_task s c → ends m c (usermode_child_slot_task wp arg s).
Proof.
  intros Hg Hc. unfold usermode_child_slot_task. destruct (arg =? 0); [done|]. cbv zeta.
  apply (loading_then _ m c s _ (ends m c)); [|done|done|done|].
  { intros x U G r x' E. by apply (load_auto_holds _ _ _ x U G r x' E). }
  intros [image|e] x Hx Hcx; [|done]. apply ends_then; [by apply layout_starts|]. intros y Hy Hcy.
  apply ends_then; [by apply cmdline_starts|]. intros z Hz Hcz.
  destruct (usermode_prepare_child_start_stack _ _ _ _) as [[[esp|e] w]|]; [| |done]; cbn [mbind option_bind].
  - apply ends_then; [apply mark_starts; [by apply good_mem|done]|]. done.
  - split; [by apply good_mem|done].
Qed.

Lemma task_start_ends m c s : good [] m s → in_task s c → ends m c (task_start wp user_demo_blob s).
Proof.
  intros Hg Hc. unfold task_start. destruct (g_current_task s) as [c'|]; [|done]. destruct (t_entry _) as [e|]; [|done].
  unfold run_entry. destruct (decide _); [by apply demo_ends|]. destruct (decide _); [by apply fault_ends|].
  destruct (decide _); [by apply elf_demo_ends|]. destruct (decide _); [by apply child_slot_ends|done].
Qed.

(** * Boot *)

Lemma booted_good s : booted s → good [] 2 s ∧ usermode_of (files s) = usermode_zero.
Proof.
  intros (s0 & Ei & Hh & Hu). destruct (init_ok s0 s Ei) as (Hw & Hsl & Hnp).
  assert (H : files s = files s0 ∧ ∀ i, slot i → task_at s i = task_zero ∨ (i = 0 ∧
    t_state (task_at s i) = TASK_RUNNABLE ∧ tab s i = proc_fd_table_init ∧ t_entry (task_at s i) = Some sched_idle_task ∧
    is_user (task_at s i) = false)).
  { revert Ei. unfold sched_init, sched_spawn_kernel_task, sched_spawn_task_internal.
    set (z := Sched (replicate 12 task_zero) _ _ _ _ _ _ _ _ _ _ _ _ _ _ _ _).
    assert (Ez : sched_find_task_slot z = Some 0) by reflexivity. rewrite Ez. cbv zeta.
    assert (Hz : ∀ i, slot i → task_at z i = task_zero) by (intros i Hi; by apply (aget_replicate 12)).
    destruct (kmalloc _ _) as [st h']. destruct (st =? 0); [done|].
    change (g_current_task _) with (@None Z). cbv iota.
    match goal with |- context [set_task 0 ?t0 ?s1] => set (t := t0); set (x := s1) end.
    destruct (bool_decide _); [|done]. intros [= <-]. split; [done|]. intros i Hi.
    change (task_at (with_idle_task (Some 0) (set_task 0 t x)) i) with (task_at (set_task 0 t x) i).
    change (tab (with_idle_task (Some 0) (set_task 0 t x)) i) with (tab (set_task 0 t x) i). unfold tab.
    rewrite task_at_set by (done || apply slot_0 || apply Hi). case_decide as Hd; [right; by subst|left]. by apply Hz. }
  destruct H as [Ef Ht]. split; [|by rewrite Ef]. split; [done|done| |lia]. exists usermode_zero.
  assert (He : ∀ i, slot i → table_files (tab s i) = []).
  { intros i Hi. destruct (Ht i Hi) as [E|(_ & _ & E & _)]; unfold tab in *; by rewrite E. }
  split.
  - split; [apply Hw| |by intros i Hi _; apply He|].
    + intros i Hi. destruct (Ht i Hi) as [E|(_ & _ & E & _)]; unfold tab in *; by rewrite E.
    + assert (task_files s = []) as ->; [|by rewrite Ef].
      unfold task_files. rewrite (bind_same _ (λ _, [])); [by induction (seqZ 0 SCHED_MAX_TASKS)|].
      intros i Hi%elem_of_seqZ. apply He. unfold slot. lia.
  - assert (H0 : t_entry (task_at s 0) = Some sched_idle_task ∧ is_user (task_at s 0) = false).
    { destruct (Ht 0 slot_0) as [E|(_ & _ & _ & H)]; [|done]. exfalso.
      destruct (to_idle _ _ _ (sp_table _ (proj1 Hw))) as [H|H]; rewrite E in H; discriminate. }
    split; try done.
    + intros k Hk. assert (k = 0 ∨ k = 1 ∨ k = 2) as [-> |[-> | ->]] by (unfold USERMODE_CHILD_SLOT_COUNT in Hk; lia); done.
    + intros i Hi Hus Hen. destruct (Ht i Hi) as [E|(-> & _ & _ & E & _)]; [by rewrite E in Hus; destruct Hus|]. rewrite E in Hen. discriminate Hen.
Qed.

(** * Every event *)

Lemma start_good m s s' : good [] m s → g_sched_started s = false → sched_start s = Some s' → good [] (m + 1) s'.
Proof.
  intros Hg Hst E. pose proof (gd_wf _ _ _ Hg) as Hw. destruct (step_start s Hw Hst) as (s2 & E2 & Hok).
  rewrite E in E2. injection E2 as <-. apply (good_next m s); [done|done|]. destruct (gd_own _ _ _ Hg) as [U Ho]. exists U.
  unfold sched_start in E. rewrite Hst in E. apply (own_schedule U [] (with_started true s)); [by apply (own_tasks U [] s)| |done|exact E].
  destruct (proj1 Hw). by split.
Qed.

Lemma checkpoint_good m s s' : good [] m s → sched_checkpoint s = Some s' → good [] (m + 1) s'.
Proof.
  intros Hg. unfold sched_checkpoint. destruct (g_need_resched s).
  - intros E. pose proof (calm_yield m s Hg) as H. unfold sys_yield in H. by rewrite E in H.
  - intros [= <-]. apply (good_more _ m); [lia|done].
Qed.

Lemma tick_good m s s' : good [] m s → timer_handler s = Some s' → good [] (m + 1) s'.
Proof.
  intros Hg E. pose proof (gd_wf _ _ _ Hg) as Hw. destruct (step_tick s Hw (gd_slice _ _ _ Hg)) as (s2 & E2 & Hok).
  rewrite E in E2. injection E2 as <-. destruct (gd_own _ _ _ Hg) as [U Ho].
  apply (good_step [] [] m s s' 1); [done|done|]. exists U. apply (own_tick U [] s); try done. apply Hg.
Qed.

Lemma user_current s : sched_current_task_is_user s = true → ∃ c, g_current_task s = Some c ∧ is_user (task_at s c) = true.
Proof. unfold sched_current_task_is_user. destruct (g_current_task s) as [c|]; [|done]. by exists c. Qed.

Lemma task_start_good m s s' :
  good [] m s → m < 2147483648 → event_allowed wp user_demo_blob EvTaskStart s →
  kernel_step wp user_demo_blob stack timer_frequency_hz EvTaskStart s = Some s' → good [] (m + 1) s'.
Proof.
  intros Hg Hm (_ & H0 & Hno). cbn [kernel_step]. destruct (g_current_task s) as [c|] eqn:Ec.
  2: { unfold task_start. by rewrite Ec. }
  assert (Hc : in_task s c) by (split; [done|congruence]). pose proof (task_start_ends m c s Hg Hc) as He.
  destruct (task_start _ _ s) as [[[eip esp|] x]|]; [| |done]; cbn [mbind option_bind]; destruct He as [Hx [Ecx Hc0]].
  - intros [= <-]. apply (good_more _ m); [lia|done].
  - intros E. unfold holds_nothing in Hno. rewrite Ecx in Hno. pose proof (gd_wf _ _ _ Hx) as Hw.
    destruct (step_exit x Hw (wf_started x c Hw Ecx)) as (s2 & E2 & Hok); [congruence|].
    rewrite E in E2. injection E2 as <-. apply (good_next m x); [done|done|].
    apply (owned_task_exit [] x c); try done; [apply Hx|by right].
Qed.

Lemma event_good m s ev s' :
  good [] m s → m < 2147483648 → event_allowed wp user_demo_blob ev s →
  kernel_step wp user_demo_blob stack timer_frequency_hz ev s = Some s' → good [] (m + 1) s'.
Proof.
  intros Hg Hm Ha E. destruct ev; cbn [kernel_step] in E; try (injection E as <-).
  - pose proof (spawn_kernel_good [] m s name entry arg size Hg ltac:(done) Hm Ha) as H.
    by destruct (sched_spawn_kernel_task _ _ _ _ s) as [r s1]; destruct H.
  - apply spawn_once_good; try done. intros U pid x Hs _. by apply (slots_same U).
  - apply spawn_once_good; try done. intros U pid x Hs _. by apply (slots_same U).
  - apply spawn_once_good; try done. intros U pid x Hs _. by apply (slots_same U).
  - apply spawn_once_good; try done. intros U pid x Hs _. by apply (slots_same U).
  - apply spawn_once_good; try done. intros U pid x Hs Hn. by apply slots_shell.
  - apply spawn_once_good; try done. intros U pid x Hs Hn. by apply slots_gui.
  - by apply (start_good m s).
  - by apply (task_start_good m s).
  - by apply (checkpoint_good m s).
  - destruct Ha as [Hu Hr]. destruct (user_current s Hu) as (c & Ec & Huc).
    pose proof (dispatch_good wp stack timer_frequency_hz m s c regs Hg Hm Hr Ec Huc) as H.
    destruct (syscall_dispatch _ _ _ _ _) as [[o x]|]; [|done]. by injection E as <-.
  - destruct (good_user _ _ _ Hg Ha) as (c & Ec & H0 & _). pose proof (wait_again_good wp m s c w Hg Ec H0) as H.
    destruct (sys_waitpid_again _ _ _) as [[o x]|]; [|done]. by injection E as <-.
  - by apply (tick_good m s).
  - destruct (user_current s Ha) as (c & Ec & Huc). by apply (fault_good m s c addr err eip).
Qed.

Lemma reachable_good n s :
  kernel_reachable wp user_demo_blob stack timer_frequency_hz n s → n < 2147483646 → 0 ≤ n ∧ good [] (n + 2) s.
Proof.
  intros Hr. induction Hr as [s Hb|n s ev s' Hr IH Ha E]; intros Hn.
  - split; [lia|]. by apply booted_good.
  - destruct IH as [H0 Hg]; [lia|]. split; [lia|]. replace (n + 1 + 2) with (n + 2 + 1) by lia.
    apply (event_good (n + 2) s ev); [done|lia|done|done].
Qed.
End kept.

(** C1: in every state the kernel reaches in fewer than 2^31 - 2 events, from boot
    through programs that start, system calls, waits, timer ticks and page faults:
    the task table is consistent, every
    open file is counted exactly as often as descriptors of tasks refer to it,
    tasks that are gone hold none, every child slot in use belongs to the task
    that was started for it, and every such task has its slot.  A run is a sequence
    of events that [kernel_step] completes (one that panics or blocks inside a
    device ends it) and [event_allowed] admits: no program that cannot be loaded
    holds inherited descriptors, which the kernel would leak. *)
Theorem kernel_run_safe {σ} `{!NodeOps σ, !FileOps σ, !FileLaws σ, !KernelParts σ, !PipeOps σ, !CallLaws σ}
    (wp : bool) (user_demo_blob : list Z) (stack : Z → list Z) (timer_frequency_hz n : Z) (s : sched σ) :
  kernel_reachable wp user_demo_blob stack timer_frequency_hz n s → n < 2147483646 →
  let U := usermode_of (files s) in
  sched_wf s ∧ held (task_files s) (files s) ∧
  (∀ i, slot i → gone (task_at s i) → table_files (tab s i) = []) ∧
  (∀ k, 0 ≤ k < USERMODE_CHILD_SLOT_COUNT → cs_used (child_slot k U) = true →
     names s (cs_owner_pid (child_slot k U)) usermode_child_slot_entry (k + 1)) ∧
  (∀ i, slot i → used (task_at s i) → t_entry (task_at s i) = Some usermode_child_slot_entry → has_slot U (task_at s i)).
Proof.
  intros Hr Hn. destruct (reachable_good wp user_demo_blob stack timer_frequency_hz n s Hr Hn) as [_ Hg].
  destruct (gd_own _ _ _ Hg) as [U [Ho Hs]]. pose proof (fo_held _ _ _ Ho) as [Hh EU]. rewrite EU, app_nil_r in *.
  split; [apply Hg|]. split; [done|]. split; [apply (fo_gone _ _ _ Ho)|]. split; [apply (sl_used _ _ Hs)|apply (sl_task _ _ Hs)].
Qed.

(** ** A run

    The demo program starts and makes a pipe; it starts [/prog], whose path is in
    its code page, and forks.  While it waits for the forked child the program is
    loaded into its slot; the child writes to the pipe and exits. *)

Definition call (eax ebx ecx edx : Z) : kernel_event :=
  EvSyscall (SavedRegs 0 0 0 ebx edx ecx eax USER_DEMO_CODE_BASE 35 514 (USER_DEMO_STACK_BASE + 4096)).
Definition no_stack (_ : Z) : list Z := replicate 32 0.
Definition machine_run : list kernel_event → sched machine → option (sched machine) := kernel_run true program_path no_stack 100.
Definition machine_reachable : Z → sched machine → Prop := kernel_reachable true program_path no_stack 100.

Definition to_program : list kernel_event := [EvSpawnDemo; EvStart; EvTaskStart].
Definition with_children : list kernel_event :=
  [call SYS_PIPE USER_DEMO_STACK_BASE 0 0; call SYS_SPAWN USER_DEMO_CODE_BASE 5 0; call SYS_FORK 0 0 0; call SYS_WAITPID 4 0 0;
   EvTaskStart; call SYS_YIELD 0 0 0; call SYS_WRITE 4 USER_DEMO_STACK_BASE 5; EvTick; call SYS_EXIT 7 0 0;
   EvWaitAgain (WaitCall 4 0 2 false)].
Definition machine_user : sched machine := default machine_init (machine_run to_program machine_init).
Definition machine_end : sched machine := default machine_init (machine_run with_children machine_user).

(** Who runs, which slots are taken, and how many ends the pipe has. *)
Definition summary (s : sched machine) : option Z * list bool * list (list kfile) * option (Z * Z * Z) :=
  (g_current_task s, cs_used <$> g_user_child_slots (m_usermode (files s)),
   (λ t, table_files (t_fd_table t)) <$> take 3 (g_tasks s),
   (λ st : kpipe_state, (KPipe.used st, reader_refs st, writer_refs st)) <$> pipe_map (m_pipes (files s)) !! f_private demo_read_end).

Lemma machine_user_some : some (machine_run to_program machine_init) = true.
Proof. vm_compute. reflexivity. Qed.
Lemma machine_end_some : some (machine_run with_children machine_user) = true.
Proof. vm_compute. reflexivity. Qed.

Lemma machine_user_current :
  g_current_task machine_user = Some 1 ∧ is_user (task_at machine_user 1) = true ∧ g_next_pid machine_user = 3.
Proof. vm_compute. split_and!; reflexivity. Qed.

(** Program 2 has the only ends of the pipe left, with five bytes in it. *)
Lemma machine_end_summary :
  summary machine_end = (Some 1, [true; false; false], [[]; [demo_read_end; demo_write_end]; []], Some (5, 1, 1)).
Proof. vm_compute. reflexivity. Qed.

Lemma machine_reach evs n m s s' d :
  machine_reachable n s → some (machine_run evs s) = true → s' = default d (machine_run evs s) → m = n + alen evs → machine_reachable m s'.
Proof. intros Hr Hs -> ->. apply (kernel_run_reachable true program_path no_stack 100 evs n s); [done|]. by apply some_default. Qed.

Lemma machine_user_eq : machine_user = default machine_init (machine_run to_program machine_init).
Proof. reflexivity. Qed.
Lemma machine_end_eq : machine_end = default machine_init (machine_run with_children machine_user).
Proof. reflexivity. Qed.

#[global] Opaque machine_user machine_end.

Lemma machine_init_reachable : machine_reachable 0 machine_init.
Proof.
  apply kernel_booted. exists machine_zero. split; [apply some_default; vm_compute; reflexivity|]. exact machine0_held.
Qed.

Lemma machine_user_reachable : machine_reachable 3 machine_user.
Proof. exact (machine_reach to_program 0 3 _ _ _ machine_init_reachable machine_user_some machine_user_eq eq_refl). Qed.

Lemma machine_end_reachable : machine_reachable 13 machine_end.
Proof. exact (machine_reach with_children 3 13 _ _ _ machine_user_reachable machine_end_some machine_end_eq eq_refl). Qed.

Lemma kernel_run_safe_witness :
  machine_reachable 13 machine_end ∧ 13 < 2147483646 ∧ sched_wf machine_end ∧ held (task_files machine_end) (files machine_end) ∧
  names machine_end (cs_owner_pid (child_slot 0 (usermode_of (files machine_end)))) usermode_child_slot_entry 1.
Proof.
  pose proof (kernel_run_safe true program_path no_stack 100 13 machine_end machine_end_reachable ltac:(lia)) as H. cbv zeta in H.
  destruct H as (H1 & H2 & _ & H4 & _). split; [exact machine_end_reachable|]. split; [lia|]. split; [exact H1|]. split; [exact H2|].
  refine (H4 0 _ _); [unfold USERMODE_CHILD_SLOT_COUNT; lia|].
  pose proof (f_equal (λ p, snd (fst (fst p))) machine_end_summary) as E. cbn [summary fst snd] in E.
  change (usermode_of (files machine_end)) with (m_usermode (files machine_end)). unfold child_slot, aget.
  destruct (g_user_child_slots _) as [|sl l]; [discriminate E|]. injection E as E _. exact E.
Defined.
