(* ===== verification/SyscallSpec.v ===== *)
(** What spawning a program and making a pipe do, on every branch.

    Both take several resources one after the other; when a later step fails, the
    earlier ones are given back. *)

From S2P Require Import Prelude Bytes Ring Keyboard Console Framebuffer Gui Pmm Kmalloc VfsNode KFile Vfs KPipe ProcFd Paging.
From S2P Require Import PagingMap UserMem Sched SchedInv SchedRun Elf SysPath CmdLine StartStack User Syscall KernelInv SyscallInv.
From S2P Require Import Machine KernelRun.

(** * Copying a path *)

Lemma cget_aset (l : list Z) i k x : 0 ≤ i < alen l → 0 ≤ k → cget l.[i <- x] k = if decide (i = k) then x else cget l k.
Proof.
  intros Hi Hk. unfold cget, aset, alen in *. case_decide as Hd.
  - subst. by rewrite list_lookup_insert_eq by lia.
  - by rewrite list_lookup_insert_ne by lia.
Qed.

Lemma cstr_eq l t : no_nul t → (∀ j, 0 ≤ j ≤ alen t → cget l j = cget t j) → cstr l = t.
Proof.
  intros Ht. revert l. induction Ht as [|c t Hc Ht IH]; intros l Hl.
  - specialize (Hl 0 ltac:(done)). destruct l as [|x l]; [done|]. unfold cget in Hl. simpl in *. by subst.
  - pose proof (Hl 0 ltac:(unfold alen; simpl; lia)) as H0. destruct l as [|x l]; unfold cget in H0; simpl in H0; [by destruct Hc|].
    subst x. simpl. rewrite (proj2 (Z.eqb_neq c NUL)) by done. f_equal. apply IH. intros j Hj.
    specialize (Hl (j + 1) ltac:(unfold alen in *; simpl; lia)). unfold cget in *.
    by replace (Z.to_nat (j + 1)) with (S (Z.to_nat j)) in Hl by lia.
Qed.

Lemma cstr_step src : cstr src = if cget src 0 =? NUL then [] else cget src 0 :: cstr (drop 1 src).
Proof. destruct src as [|c src]; [done|]. simpl. rewrite drop_0. reflexivity. Qed.

Lemma copy_loop_spec n i dst src dst' :
  0 ≤ i → i + Z.of_nat n ≤ alen dst → copy_cstr_loop n i dst src = (true, dst') →
  alen dst' = alen dst ∧ alen (cstr src) < Z.of_nat n ∧
  ∀ j, 0 ≤ j → cget dst' j = if decide (i ≤ j ≤ i + alen (cstr src)) then cget (cstr src) (j - i) else cget dst j.
Proof.
  revert i dst src. induction n as [|n IH]; intros i dst src Hi Hn E; [done|]. cbn [copy_cstr_loop] in E. rewrite (cstr_step src).
  destruct (Z.eqb_spec (cget src 0) NUL) as [Hz|Hz].
  - injection E as <-. rewrite alen_aset. split; [done|]. split; [unfold alen; simpl; lia|]. intros j Hj.
    rewrite cget_aset by lia. unfold alen. simpl. destruct (decide (i = j)) as [->|].
    + rewrite decide_True by lia. by rewrite Z.sub_diag.
    + by rewrite decide_False by lia.
  - apply IH in E as (E1 & E2 & E3); [|lia|rewrite alen_aset; lia]. rewrite alen_aset in E1. split; [done|].
    assert (Hl : alen (cget src 0 :: cstr (drop 1 src)) = alen (cstr (drop 1 src)) + 1) by (unfold alen; simpl; lia).
    rewrite Hl. split; [lia|]. intros j Hj. rewrite E3, cget_aset by lia.
    destruct (decide (i = j)) as [->|]; [rewrite decide_False, decide_True by (pose proof (alen_nonneg (cstr (drop 1 src))); lia); by rewrite Z.sub_diag|].
    destruct (decide (i + 1 ≤ j ≤ i + 1 + alen (cstr (drop 1 src)))).
    + rewrite decide_True by lia. unfold cget at 2. replace (Z.to_nat (j - i)) with (S (Z.to_nat (j - (i + 1)))) by lia. done.
    + by rewrite decide_False by lia.
Qed.

Lemma copy_cstr_ok dst cap src u dst' :
  0 < cap ≤ alen dst → usermode_copy_cstr dst cap src = (Ok u, dst') →
  alen dst' = alen dst ∧ cstr dst' = cstr src ∧ alen (cstr src) < cap - 1.
Proof.
  intros Hc. unfold usermode_copy_cstr. rewrite (proj2 (Z.eqb_neq cap 0)) by lia.
  destruct (copy_cstr_loop _ _ _ _) as [[] d] eqn:E; [|done]. intros [= _ <-].
  apply copy_loop_spec in E as (E1 & E2 & E3); [|lia|lia]. split; [done|]. split; [|lia].
  apply cstr_eq; [apply cstr_no_nul|]. intros j Hj. rewrite E3 by lia. rewrite decide_True by lia. f_equal. lia.
Qed.

Lemma copy_cstr_len dst cap src r dst' :
  0 < cap ≤ alen dst → usermode_copy_cstr dst cap src = (r, dst') → alen dst' = alen dst.
Proof.
  assert (H : ∀ n i (d : list Z) s, alen (snd (copy_cstr_loop n i d s)) = alen d).
  { induction n as [|n IH]; intros i d s; [done|]. cbn [copy_cstr_loop]. destruct (_ =? _); [apply alen_aset|].
    rewrite IH. apply alen_aset. }
  intros Hc. unfold usermode_copy_cstr. destruct (cap =? 0); [by intros [= <- <-]|].
  specialize (H (Z.to_nat (cap - 1)) 0 dst src). destruct (copy_cstr_loop _ _ _ _) as [[] d]; intros [= <- <-]; [done|].
  by rewrite alen_aset.
Qed.

(** * Spawning a program *)

(** The buffers of the slots have their sizes. *)
Definition sized (U : usermode) : Prop :=
  ∀ k, 0 ≤ k < USERMODE_CHILD_SLOT_COUNT →
    alen (cs_path (child_slot k U)) = USERMODE_SPAWN_PATH_MAX ∧ alen (cs_cmdline (child_slot k U)) = USERMODE_CMDLINE_MAX.

Lemma fill_cmdline cmdline len ib isz sl :
  0 ≤ len < alen (cs_cmdline sl) → len ≤ alen (default [] cmdline) →
  slice (cs_cmdline (fill_slot cmdline len ib isz sl)) 0 len = slice (default [] cmdline) 0 len.
Proof.
  intros Hl Hc. set (src := default [] cmdline) in *. cbn [fill_slot cs_cmdline]. fold src.
  assert (Hs : alen (slice src 0 len) = len) by (apply alen_slice; lia).
  set (buf := if len =? 0 then _ else _).
  assert (Hb : alen buf = alen (cs_cmdline sl) ∧ ∀ j, 0 ≤ j < len → cget buf j = cget src j).
  { unfold buf. destruct (Z.eqb_spec len 0); [rewrite alen_aset; split; [done|lia]|].
    rewrite alen_overlay by (rewrite ?alen_aset; lia). rewrite alen_aset. split; [done|]. intros j Hj.
    rewrite cget_overlay by (rewrite ?alen_aset; lia). rewrite decide_True by lia. rewrite cget_slice by lia. f_equal. lia. }
  destruct Hb as [Hb1 Hb2]. clearbody buf. apply blist_eq.
  - rewrite alen_slice by (rewrite ?alen_aset; lia). done.
  - intros j. rewrite alen_slice by (rewrite ?alen_aset; lia). intros Hj. rewrite !cget_slice by lia.
    rewrite cget_aset by lia. rewrite decide_False by lia. by apply Hb2.
Qed.

(** No program was started: the slots in use are as before, and so are the tasks
    with all they hold; free slots stay free. *)
Definition nothing_spawned {σ} (U U' : usermode) (s s' : sched σ) : Prop :=
  (∀ k, 0 ≤ k < USERMODE_CHILD_SLOT_COUNT → cs_used (child_slot k U') = cs_used (child_slot k U) ∧
     (cs_used (child_slot k U) = true → child_slot k U' = child_slot k U)) ∧
  no_new_task s s'.

Section spawn.
Context {σ : Type} `{!NodeOps σ, !FileOps σ, !FileLaws σ, !KernelParts σ, !PipeOps σ, !CallLaws σ}.
Context (wp : bool).
Implicit Types (s : sched σ) (U : usermode).

Lemma spawn_into_spec U s c k fl r s' :
  fds_ok U [] s → sched_wf s → g_next_pid s < 2147483648 → g_current_task s = Some c → is_user (task_at s c) = true →
  spawn_into_slot k fl s = (r, s') →
  match r with
  | Ok pid => pid = g_next_pid s ∧ usermode_of (files s') = on_slot k (set_slot_owner pid) U ∧
      ∃ i, slot i ∧ t_state (task_at s i) = TASK_UNUSED ∧ others_same s s' i ∧ t_state (task_at s' i) = TASK_RUNNABLE ∧
        t_pid (task_at s' i) = pid ∧ spawned (Some usermode_child_slot_entry) (k + 1) (t_pid (task_at s c)) i (task_at s' i)
  | Err _ => usermode_of (files s') = on_slot k release_slot U ∧ no_new_task s s'
  end.
Proof.
  intros Ho Hw Hb Ec Hu E. unfold spawn_into_slot, sched_spawn_user_child_task in E.
  assert (Hus : sched_current_task_is_user s = true) by (unfold sched_current_task_is_user; by rewrite Ec).
  rewrite Ec, Hus in E. cbn [negb] in E. set (name := Some (cs_task_name _)) in E. set (inh := negb _) in E.
  pose proof (spawn_owns U [] s name (Some usermode_child_slot_entry) (k + 1) 0 (t_pid (task_at s c)) inh Ho Hw ltac:(done) Hb) as Hsp.
  pose proof (spawn_cases s name (Some usermode_child_slot_entry) (k + 1) 0 (t_pid (task_at s c)) inh Hw Hb
    (or_intror (ex_intro _ c (conj Ec eq_refl)))) as Hc.
  destruct (sched_spawn_task_internal _ _ _ _ _ _ s) as [r1 s2]. destruct Hsp as [Ho2 _]. destruct Hc as (_ & _ & Hc).
  pose proof (proj2 (fo_held _ _ _ Ho2)) as EU.
  assert (Ef : ∀ f, usermode_of (files (on_files (on_usermode f) s2)) = f U).
  { intros f. exact (proj2 (holding_usermode f U _ _ (fo_held _ _ _ Ho2))). }
  destruct r1 as [pid|e]; injection E as <- <-; rewrite Ef.
  - destruct Hc as (E1 & i & H1 & H2 & H3 & H4 & H5 & H6). split; [done|]. split; [done|]. by exists i.
  - by destruct Hc as (_ & _ & Hc).
Qed.

Lemma nothing_slot U U' s s' k :
  slot_only k U U' → cs_used (child_slot k U) = false → cs_used (child_slot k U') = false →
  no_new_task s s' → nothing_spawned U U' s s'.
Proof.
  intros Hs Hu Hu' Ht. split; [|done]. intros j Hj. destruct (decide (j = k)) as [->|Hne]; [by rewrite Hu, Hu'|].
  by rewrite (slo_other _ _ _ Hs) by (done || apply Hj).
Qed.

Lemma nothing_same U s s' :
  (∀ j, slot j → task_at s' j = task_at s j) → nothing_spawned U U s s'.
Proof. intros Ht. split; [done|by apply no_new_tasks]. Qed.

(** The guards before a slot is taken. *)
Lemma spawn_path_cases U F s path cmdline len fl r s' :
  own U F s → few F → usermode_spawn_path_task_ex wp path cmdline len fl s = Some (r, s') →
  (∃ e, r = Err e ∧ usermode_of (files s') = U ∧ ∀ j, task_at s' j = task_at s j) ∨
  cget path 0 = SLASH ∧ len < USERMODE_CMDLINE_MAX ∧ ∃ layout k s1,
    0 ≤ k < USERMODE_CHILD_SLOT_COUNT ∧ cs_used (child_slot k U) = false ∧
    own U F s1 ∧ same_sched s s1 ∧ (∀ j, task_at s1 j = task_at s j) ∧
    let '(rc, p) := usermode_copy_cstr (cs_path (child_slot k U)) USERMODE_SPAWN_PATH_MAX path in
    let s2 := on_files (on_usermode (on_slot k (set_slot_path p))) s1 in
    match rc with
    | Err e => (r, s') = (Err e, s2)
    | Ok _ => spawn_into_slot k fl (on_files (on_usermode (on_slot k
                (fill_slot cmdline len (Elf.image_base layout) (Elf.image_size layout)))) s2) = (r, s')
    end.
Proof.
  intros Ho HF E. unfold usermode_spawn_path_task_ex in E. pose proof (proj2 (fo_held _ _ _ (proj1 Ho))) as EU0.
  assert (Hkeep : ∀ e (x : sched σ), usermode_of (files x) = U → (∀ j, task_at x j = task_at s j) → Some (Err e, x) = Some (r, s') →
    ∃ e, r = Err e ∧ usermode_of (files s') = U ∧ ∀ j, task_at s' j = task_at s j).
  { intros e x Hx Ht [= <- <-]. by exists e. }
  destruct (cget path 0 =? SLASH) eqn:Esl; cbn [negb] in E; [|left; by apply (Hkeep _ _ EU0) in E].
  apply Z.eqb_eq in Esl. destruct (_ && _); [left; by apply (Hkeep _ _ EU0) in E|].
  destruct (Z.leb_spec USERMODE_CMDLINE_MAX len) as [|Hcl]; [left; by apply (Hkeep _ _ EU0) in E|].
  destruct (loading _ s) as [[r1 s1]|] eqn:El; [|done]. cbn [mbind option_bind] in E.
  destruct (own_loading _ U F s r1 s1 (λ k U G r k' H1 H2, inspect_holds wp path k U G r k' H1 H2) HF Ho El) as (Ho1 & Hsame & _).
  assert (Et : ∀ j, task_at s1 j = task_at s j).
  { unfold loading in El. destruct (elf32_inspect_user_static_path _ _ _) as [[? ?]|]; [|done]. cbn in El. by injection El as <- <-. }
  pose proof (proj2 (fo_held _ _ _ (proj1 Ho1))) as EU.
  destruct r1 as [layout|e]; [|left; by apply (Hkeep _ _ EU Et) in E].
  destruct (negb _); [left; by apply (Hkeep _ _ EU Et) in E|]. rewrite EU in E.
  pose proof (acquire_spec (Elf.image_base layout) (Elf.image_size layout) U) as Hacq.
  destruct (usermode_child_slot_acquire _ _ U) as [k|]; [|left; by apply (Hkeep _ _ EU Et) in E].
  right. split; [done|]. split; [done|]. exists layout, k, s1. split; [apply Hacq|]. split; [apply Hacq|]. do 3 (split; [done|]).
  destruct (usermode_copy_cstr _ _ _) as [[u|e] p]; cbv zeta; congruence.
Qed.

(** C8: spawning a path: a program is started only when the path is absolute and
    short enough, the command line fits and a slot is free;
    the slot then holds the path, the command line
    and the new task's pid, the task is a child of the caller that will run
    [usermode_child_slot_task] on that slot, and no other slot or task has
    changed.  On every error the slots in use and the tasks, with their
    descriptors, directories and windows, are exactly as before. *)
Theorem spawn_path_spec m s c path cmdline len fl r s' :
  let U := usermode_of (files s) in
  let U' := usermode_of (files s') in
  good [] m s → m < 2147483648 → sized U → g_current_task s = Some c → is_user (task_at s c) = true →
  0 ≤ len ≤ alen (default [] cmdline) →
  usermode_spawn_path_task_ex wp path cmdline len fl s = Some (r, s') →
  match r with
  | Ok pid =>
      cget path 0 = SLASH ∧ alen (cstr path) < USERMODE_SPAWN_PATH_MAX - 1 ∧ len < USERMODE_CMDLINE_MAX ∧
      ∃ k i, 0 ≤ k < USERMODE_CHILD_SLOT_COUNT ∧ cs_used (child_slot k U) = false ∧
        cs_used (child_slot k U') = true ∧ cs_owner_pid (child_slot k U') = pid ∧
        cstr (cs_path (child_slot k U')) = cstr path ∧
        slice (cs_cmdline (child_slot k U')) 0 (cs_cmdline_len (child_slot k U')) = slice (default [] cmdline) 0 len ∧
        (∀ j, 0 ≤ j → j ≠ k → child_slot j U' = child_slot j U) ∧
        slot i ∧ t_state (task_at s i) = TASK_UNUSED ∧ t_state (task_at s' i) = TASK_RUNNABLE ∧ t_pid (task_at s' i) = pid ∧
        spawned (Some usermode_child_slot_entry) (k + 1) (t_pid (task_at s c)) i (task_at s' i) ∧
        ∀ j, slot j → j ≠ i → task_at s' j = task_at s j
  | Err _ => nothing_spawned U U' s s'
  end.
Proof.
  intros U U' Hg Hm Hsz Ec Hu Hlen E. destruct (gd_own _ _ _ Hg) as [U0 Ho].
  pose proof (proj2 (fo_held _ _ _ (proj1 Ho))) as EU0. fold U in EU0. subst U0.
  destruct (spawn_path_cases U [] s path cmdline len fl r s' Ho ltac:(done) E) as [(e & -> & EU & Et)|(Esl & Hcl & layout & k & s1 &
    Hk & Hun & Ho1 & Hsame & Et & E1)]; [unfold U'; rewrite EU; by apply nothing_same|]. clear E. rename E1 into E. unfold U'.
  destruct (Hsz k Hk) as [Hp64 Hc128]. pose proof (sl_len _ _ (proj2 Ho)) as Hl.
  destruct (usermode_copy_cstr _ _ _) as [rc p] eqn:Ecp.
  assert (Hon : ∀ f V, slot_only k U V → alen (g_user_child_slots V) = USERMODE_CHILD_SLOT_COUNT ∧ slot_only k U (on_slot k f V)).
  { intros f V HV. pose proof (slo_len _ _ _ HV) as HlV. rewrite Hl in HlV. split; [done|].
    apply (slot_only_trans _ _ V); [done|by apply slot_only_on]. }
  assert (Hself : ∀ f V, slot_only k U V → child_slot k (on_slot k f V) = f (child_slot k V)).
  { intros f V HV. rewrite child_slot_on by (apply Hk || apply (Hon f V HV)). by rewrite decide_True. }
  assert (H0 : slot_only k U U) by done.
  destruct (Hon (set_slot_path p) U H0) as [_ H1]. pose proof (Hself (set_slot_path p) U H0) as E1.
  pose proof (fds_usermode U [] s1 (on_slot k (set_slot_path p)) (proj1 Ho1)) as Hf1.
  set (U1 := on_slot k (set_slot_path p) U) in *. set (s2 := on_files (on_usermode (on_slot k (set_slot_path p))) s1) in *.
  destruct rc as [u|e].
  2: { injection E as -> ->. rewrite (proj2 (fo_held _ _ _ Hf1)). apply (nothing_slot _ _ _ _ k); [done|done|by rewrite E1|].
       apply no_new_tasks. intros j _. change (task_at s2 j) with (task_at s1 j). apply Et. }
  apply copy_cstr_ok in Ecp as (Ep1 & Ep2 & Ep3); [|rewrite Hp64; done].
  set (fill := fill_slot cmdline len (Elf.image_base layout) (Elf.image_size layout)) in *.
  destruct (Hon fill U1 H1) as [_ H2]. pose proof (Hself fill U1 H1) as E2.
  pose proof (fds_usermode U1 [] s2 (on_slot k fill) Hf1) as Hf2.
  set (U2 := on_slot k fill U1) in *. set (s3 := on_files (on_usermode (on_slot k fill)) s2) in *.
  rename E into Esp.
  assert (Hw3 : sched_wf s3) by (apply (same_sched_wf s1); [by split|]; apply (same_sched_wf s); [done|apply Hg]).
  assert (Ec3 : g_current_task s3 = Some c) by (change (g_current_task s1 = Some c); rewrite (ss_cur _ _ Hsame); done).
  assert (Hb3 : g_next_pid s3 < 2147483648).
  { change (g_next_pid s1 < 2147483648). rewrite (ss_np _ _ Hsame). pose proof (gd_np _ _ _ Hg). lia. }
  assert (Et3 : ∀ j, task_at s3 j = task_at s j) by exact Et.
  pose proof (spawn_into_spec U2 s3 c k fl r s' Hf2 Hw3 Hb3 Ec3 ltac:(by rewrite Et3) Esp) as Hres.
  destruct r as [pid|e].
  - destruct Hres as (_ & EU4 & i & Hi & Hiu & Hoth & Hrun & Hpid & Hspd). rewrite EU4. destruct (Hon (set_slot_owner pid) U2 H2) as [_ H3].
    rewrite !Et3 in *. split; [done|]. split; [done|]. split; [done|]. exists k, i. rewrite (Hself _ U2 H2), E2, E1.
    split_and!; try first [done|apply Hk].
    + change (slice (cs_cmdline (fill (set_slot_path p (child_slot k U)))) 0 len = slice (default [] cmdline) 0 len).
      apply fill_cmdline; [|lia]. change (0 ≤ len < alen (cs_cmdline (child_slot k U))). rewrite Hc128. lia.
    + apply H3.
    + intros j Hj Hne. destruct Hoth as (_ & _ & _ & Hoth). by rewrite Hoth, Et3.
  - destruct Hres as [EU4 Hres]. rewrite EU4. destruct (Hon release_slot U2 H2) as [_ H3].
    apply (nothing_slot _ _ _ _ k); [done|done|by rewrite (Hself _ U2 H2)|]. intros j Hj. specialize (Hres j Hj). by rewrite Et3 in Hres.
Qed.
End spawn.

(** * Making a pipe *)

(** The same descriptors are open, on the same files. *)
Definition same_open (t t' : proc_fd_table) : Prop :=
  ∀ i, slot_in_table i → in_use t'.[i] = in_use t.[i] ∧ (in_use t.[i] = true → t'.[i] = t.[i]).

Lemma same_open_refl t : same_open t t.
Proof. done. Qed.

(** Descriptors that were free are given out and taken back. *)
Lemma same_open_one t fd f :
  table_wf t → slot_in_table fd → in_use t.[fd] = false → same_open t t.[fd <- Slot true f].[fd <- free_slot].
Proof.
  intros Ht Hfd Hu i Hi. unfold table_wf, slot_in_table in *. rewrite aget_aset by (rewrite ?alen_aset; lia).
  case_decide; [subst; by rewrite Hu|]. by rewrite aget_aset_ne by lia.
Qed.

Lemma same_open_two t fd0 fd1 f g :
  table_wf t → slot_in_table fd0 → slot_in_table fd1 → in_use t.[fd0] = false → in_use t.[fd1] = false →
  same_open t t.[fd0 <- Slot true f].[fd1 <- Slot true g].[fd0 <- free_slot].[fd1 <- free_slot].
Proof.
  intros Ht Hf0 Hf1 Hu0 Hu1 i Hi. unfold table_wf, slot_in_table in *. rewrite aget_aset by (rewrite ?alen_aset; lia).
  case_decide; [subst; by rewrite Hu1|]. rewrite aget_aset by (rewrite ?alen_aset; lia).
  case_decide; [subst; by rewrite Hu0|]. by rewrite !aget_aset_ne by lia.
Qed.

Section pipe.
Context {σ : Type} `{!NodeOps σ, !FileOps σ, !FileLaws σ, !KernelParts σ, !PipeOps σ, !CallLaws σ}.
Context (wp : bool).
Implicit Types (s : sched σ).

(** The running user task [c] now has the table [t]; memory is the same. *)
Definition now_has s s' (c : Z) (t : proc_fd_table) : Prop :=
  g_current_task s' = Some c ∧ is_user (task_at s' c) = true ∧ mem s' = mem s ∧ tab s' c = t.

Lemma now_drop s c f : g_current_task s = Some c → is_user (task_at s c) = true → now_has s (drop_file f s) c (tab s c).
Proof. intros Ec Hu. unfold drop_file. by destruct (kfile_close f (files s)) as [[? ?] fs]. Qed.

Lemma now_trans s1 s2 s3 c t t' : now_has s1 s2 c t → now_has s2 s3 c t' → now_has s1 s3 c t'.
Proof. intros (_ & _ & E1 & _) (H1 & H2 & E2 & H3). split_and!; try done. congruence. Qed.

(** An operation on the table of the current task. *)
Lemma now_fds {A} F m s c (f : proc_fd_table → σ → res A * proc_fd_table * σ) :
  good F m s → g_current_task s = Some c → is_user (task_at s c) = true →
  let '(r, t', fs) := f (tab s c) (files s) in
  fst (with_current_fds f s) = r ∧ now_has s (snd (with_current_fds f s)) c t'.
Proof.
  intros Hg Ec Hu. pose proof (proj1 (good_alive _ _ _ Hg c Ec)) as Hc. pose proof (gd_wf _ _ _ Hg) as Hw. unfold with_current_fds.
  rewrite Ec. unfold sched_current_task_is_user. rewrite Ec, Hu. cbn [negb]. unfold tab at 1.
  destruct (f _ _) as [[r t'] fs]. cbn [fst snd]. split; [done|]. unfold now_has, tab.
  change (task_at (with_files fs ?x)) with (task_at x). unfold on_task. by rewrite task_at_eq by first [done|apply Hw].
Qed.

Lemma now_alloc F f m s c :
  good F m s → few F → f ∈ F → g_current_task s = Some c → is_user (task_at s c) = true →
  let '(r, s') := sched_current_process_fd_alloc f s in
  good F m s' ∧
  match r with
  | Ok fd => PROC_FD_DYNAMIC_MIN ≤ fd < PROC_FD_MAX ∧ in_use (tab s c).[fd] = false ∧ now_has s s' c (tab s c).[fd <- Slot true f]
  | Err _ => now_has s s' c (tab s c)
  end.
Proof.
  intros Hg HF Hin Ec Hu. pose proof (good_alloc f F m s Hg HF Hin) as Hg'. destruct (gd_own _ _ _ Hg) as [U [Ho _]].
  pose proof (proj1 (good_alive _ _ _ Hg c Ec)) as Hc.
  pose proof (now_fds F m s c (λ tab fs, proc_fd_alloc tab PROC_FD_DYNAMIC_MIN f fs) Hg Ec Hu) as Hn.
  pose proof (alloc_cases (FileLaws0 := keeping U) (tab s c) PROC_FD_DYNAMIC_MIN f (other_files s c ++ F) (files s)
    (fo_table _ _ _ Ho c Hc) ltac:(done) (room_few _ _ _ _ Ho Hc HF) ltac:(set_solver) (fds_split _ _ _ _ Ho Hc)) as Ha.
  unfold sched_current_process_fd_alloc in *. destruct (proc_fd_alloc _ _ _ _) as [[r t'] fs].
  destruct (with_current_fds _ s) as [r' s']. cbn [fst snd] in *. destruct Hn as [-> Hn]. split; [done|].
  destruct Ha as (_ & _ & Ha). destruct r as [fd|e]; [|by subst]. destruct Ha as (H1 & H2 & _ & ->). done.
Qed.

Lemma now_close F m s c fd :
  good F m s → g_current_task s = Some c → is_user (task_at s c) = true → slot_in_table fd → in_use (tab s c).[fd] = true →
  now_has s (snd (sched_current_process_fd_close fd s)) c (tab s c).[fd <- free_slot].
Proof.
  intros Hg Ec Hu Hfd Hin. destruct (gd_own _ _ _ Hg) as [U [Ho _]]. pose proof (proj1 (good_alive _ _ _ Hg c Ec)) as Hc.
  unfold slot_in_table in Hfd.
  pose proof (now_fds F m s c (λ tab fs, proc_fd_close tab fd fs) Hg Ec Hu) as Hn.
  pose proof (close_cases (FileLaws0 := keeping U) (tab s c) fd (other_files s c ++ F) (files s)
    (fo_table _ _ _ Ho c Hc) ltac:(lia) (fds_split _ _ _ _ Ho Hc)) as Ha.
  unfold sched_current_process_fd_close in *. destruct (proc_fd_close _ _ _) as [[r t'] fs]. destruct Ha as (_ & _ & Hr & Ht).
  rewrite decide_True, Hin in Hr by lia. subst r. cbn in Ht. subst t'. apply Hn.
Qed.

(** What the caller finds after a call that failed. *)
Definition pipe_failed s s' (c v : Z) : Prop :=
  (∃ e, v = syscall_ret_err e) ∧ same_open (tab s c) (tab s' c) ∧ mem s' = mem s.

Lemma slot_dynamic fd : PROC_FD_DYNAMIC_MIN ≤ fd < PROC_FD_MAX → slot_in_table fd.
Proof. unfold PROC_FD_DYNAMIC_MIN, slot_in_table. lia. Qed.

(** The second descriptor could not be had. *)
Lemma pipe_one_back m s c x fd0 r e :
  table_wf (tab s c) → PROC_FD_DYNAMIC_MIN ≤ fd0 < PROC_FD_MAX → in_use (tab s c).[fd0] = false →
  good [] m x → now_has s x c (tab s c).[fd0 <- Slot true r] →
  pipe_failed s (snd (sched_current_process_fd_close fd0 x)) c (syscall_ret_err e).
Proof.
  intros Ht Hfd%slot_dynamic Hu Hg (Ec & Hus & Em & Et).
  assert (Hin : in_use (tab x c).[fd0] = true) by (rewrite Et, aget_aset_eq; [done|by rewrite Ht]).
  destruct (now_close [] m x c fd0 Hg Ec Hus Hfd Hin) as (_ & _ & Em' & Et'). split; [by eexists|]. split; [|congruence].
  rewrite Et', Et. by apply same_open_one.
Qed.

(** Both descriptors are there; their numbers are copied out. *)
Lemma pipe_copied m s c regs v s' x fd0 fd1 r w :
  table_wf (tab s c) → PROC_FD_DYNAMIC_MIN ≤ fd0 < PROC_FD_MAX → PROC_FD_DYNAMIC_MIN ≤ fd1 < PROC_FD_MAX →
  in_use (tab s c).[fd0] = false → in_use (tab s c).[fd0 <- Slot true r].[fd1] = false →
  good [] m x → now_has s x c (tab s c).[fd0 <- Slot true r].[fd1 <- Slot true w] →
  ('(rc, y) ← uaccess_copy_to_user wp (rg_ebx regs) (Some (words_to_bytes [fd0; fd1])) 8 x;
   match rc with
   | Err e =>
       let y := snd (sched_current_process_fd_close fd0 y) in
       Some (syscall_ret_err e, snd (sched_current_process_fd_close fd1 y))
   | Ok _ => Some (0, y)
   end) = Some (v, s') →
  (v = 0 ∧ fd0 ≠ fd1 ∧ in_use (tab s c).[fd1] = false ∧ tab s' c = (tab s c).[fd0 <- Slot true r].[fd1 <- Slot true w] ∧
    memcpy_to wp (rg_ebx regs) (words_to_bytes [fd0; fd1]) (mem s) = Some (mem s')) ∨ pipe_failed s s' c v.
Proof.
  intros Ht Hr0%slot_dynamic Hr1%slot_dynamic Hu0 Hu1 Hg (Ec & Hus & Em & Et).
  assert (Hne : fd0 ≠ fd1) by (intros ->; rewrite aget_aset_eq in Hu1 by (by rewrite Ht); done).
  rewrite aget_aset_ne in Hu1 by (apply Hr0 || apply Hr1 || done). unfold uaccess_copy_to_user.
  change (8 =? 0) with false. cbv iota. destruct (negb _) eqn:Ef.
  - cbn [mbind option_bind]. cbv zeta. intros [= <- <-]. right.
    assert (Hin : in_use (tab x c).[fd0] = true).
    { rewrite Et, aget_aset_ne, aget_aset_eq by (apply Hr0 || apply Hr1 || done || by rewrite Ht). done. }
    pose proof (good_close fd0 [] m x Hg (proj1 Hr0)) as Hg1. destruct (now_close [] m x c fd0 Hg Ec Hus Hr0 Hin) as (B1 & B2 & B3 & B4).
    assert (Hin1 : in_use (tab (snd (sched_current_process_fd_close fd0 x)) c).[fd1] = true).
    { rewrite B4, Et, aget_aset_ne, aget_aset_eq by (apply Hr0 || apply Hr1 || done || by rewrite alen_aset, Ht). done. }
    destruct (now_close [] m _ c fd1 Hg1 B1 B2 Hr1 Hin1) as (_ & _ & C3 & C4). split; [by eexists|]. split; [|congruence].
    rewrite C4, B4, Et. by apply same_open_two.
  - change (slice (words_to_bytes [fd0; fd1]) 0 8) with (words_to_bytes [fd0; fd1]). rewrite Em.
    destruct (memcpy_to _ _ _ _) as [y|]; [|done]. cbn [mbind option_bind]. intros [= <- <-]. left. by split_and!.
Qed.

(** C9: making a pipe gives two descriptors that were free, one for each end,
    and their numbers to the caller's memory; or it fails and leaves open what was
    open, whichever of its steps failed. *)
Theorem sys_pipe_spec m s c regs v s' :
  good [] m s → g_current_task s = Some c → is_user (task_at s c) = true → sys_pipe wp regs s = Some (v, s') →
  good [] m s' ∧
  ((v = 0 ∧ ∃ r w fd0 fd1, fst (kpipe_create_in (files s)) = Ok (r, w) ∧
     PROC_FD_DYNAMIC_MIN ≤ fd0 < PROC_FD_MAX ∧ PROC_FD_DYNAMIC_MIN ≤ fd1 < PROC_FD_MAX ∧ fd0 ≠ fd1 ∧
     in_use (tab s c).[fd0] = false ∧ in_use (tab s c).[fd1] = false ∧
     tab s' c = (tab s c).[fd0 <- Slot true r].[fd1 <- Slot true w] ∧
     memcpy_to wp (rg_ebx regs) (words_to_bytes [fd0; fd1]) (mem s) = Some (mem s')) ∨
   pipe_failed s s' c v).
Proof.
  intros Hg Ec Hu E. assert (Hg' : good [] m s') by (pose proof (calm_pipe wp m s regs Hg) as H; by rewrite E in H).
  split; [done|]. pose proof (proj1 (good_alive _ _ _ Hg c Ec)) as Hc. pose proof (good_table _ _ _ c Hg Hc) as Ht.
  assert (Hus : sched_current_task_is_user s = true) by (unfold sched_current_task_is_user; by rewrite Ec).
  unfold sys_pipe, user_only in E. rewrite Hus in E. cbn [negb] in E.
  assert (Hfail : ∀ e (x : sched σ), now_has s x c (tab s c) → Some (syscall_ret_err e, x) = Some (v, s') → pipe_failed s s' c v).
  { intros e x (_ & _ & Em & Ex) [= <- <-]. unfold pipe_failed. rewrite Ex. split; [by eexists|done]. }
  destruct (negb _); [right; by apply Hfail in E|]. pose proof (good_pipe m s Hg) as Hpipe.
  destruct (kpipe_create_in (files s)) as [[[r w]|e] fs]; [|right; by apply Hfail in E].
  pose proof (now_alloc [r; w] r m (with_files fs s) c Hpipe ltac:(done) (list_elem_of_here _ _) Ec Hu) as H0.
  destruct (sched_current_process_fd_alloc r _) as [r0 s1]. destruct H0 as [Hg1 H0]. cbv zeta in E.
  change (tab (with_files fs s) c) with (tab s c) in *. pose proof (good_drop r [w] m s1 Hg1) as Hg2.
  assert (Hdrop : ∀ f x t, now_has s x c t → now_has s (drop_file f x) c t).
  { intros f x t Hn. apply (now_trans s x _ c t); [done|]. destruct Hn as (A1 & A2 & _ & A4). rewrite <- A4. by apply now_drop. }
  destruct r0 as [fd0|e]; [|right; exact (Hfail e _ (Hdrop w _ _ (Hdrop r _ _ H0)) E)].
  destruct H0 as (Hr0 & Hu0 & Hn0). pose proof (Hdrop r s1 _ Hn0) as Hn. clear Hn0.
  generalize dependent (drop_file r s1). intros s2 E Hg2 Hn.
  pose proof Hn as (Ec2 & Hu2 & Em2 & Et2).
  pose proof (now_alloc [w] w m s2 c Hg2 few_1 (list_elem_of_here _ _) Ec2 Hu2) as H1.
  destruct (sched_current_process_fd_alloc w s2) as [[fd1|e] s3]; destruct H1 as [Hg3%good_drop H1]; rewrite Et2 in H1.
  - destruct H1 as (Hr1 & Hu1 & H1). pose proof (Hdrop w _ _ (now_trans _ _ _ _ _ _ Hn H1)) as Hn3.
    destruct (pipe_copied m s c regs v s' _ fd0 fd1 r w Ht Hr0 Hr1 Hu0 Hu1 Hg3 Hn3 E) as [(-> & H)|H]; [left|by right].
    split; [done|]. exists r, w, fd0, fd1. tauto.
  - right. pose proof (Hdrop w _ _ (now_trans _ _ _ _ _ _ Hn H1)) as Hn3. injection E as <- <-.
    by apply (pipe_one_back m s c _ fd0 r e).
Qed.
End pipe.

(** * On the machine of KernelRun.v *)

Lemma machine_user_good : good [] 5 machine_user.
Proof. exact (proj2 (reachable_good true program_path no_stack 100 3 machine_user machine_user_reachable ltac:(lia))). Qed.

Lemma machine_user_sized : sized (usermode_of (files machine_user)).
Proof.
  intros k Hk. unfold USERMODE_CHILD_SLOT_COUNT in Hk.
  assert (k = 0 ∨ k = 1 ∨ k = 2) as [-> |[-> | ->]] by lia; vm_compute; split; reflexivity.
Qed.

(** "/prog hi" *)
Definition machine_spawned : option (res Z * sched machine) :=
  usermode_spawn_path_task_ex true program_path (Some [104; 105; NUL]) 2 0 machine_user.
Definition pipe_regs : syscall_saved_regs := SavedRegs 0 0 0 USER_DEMO_STACK_BASE 0 0 0 0 0 0 0.
Definition machine_piped : option (Z * sched machine) := sys_pipe true pipe_regs machine_user.

Lemma machine_spawned_some : (fst <$> machine_spawned) = Some (Ok 3).
Proof. vm_compute. reflexivity. Qed.
Lemma machine_piped_some : (fst <$> machine_piped) = Some 0.
Proof. vm_compute. reflexivity. Qed.

Lemma fst_some {A B} (o : option (A * B)) a : (fst <$> o) = Some a → ∃ b, o = Some (a, b).
Proof. destruct o as [[x b]|]; [|done]. intros [= ->]. by exists b. Qed.

Lemma spawn_path_spec_witness :
  ∃ s' k i, usermode_spawn_path_task_ex true program_path (Some [104; 105; NUL]) 2 0 machine_user = Some (Ok 3, s') ∧
    cs_used (child_slot k (usermode_of (files s'))) = true ∧ cs_owner_pid (child_slot k (usermode_of (files s'))) = 3 ∧
    cstr (cs_path (child_slot k (usermode_of (files s')))) = cstr program_path ∧ t_pid (task_at s' i) = 3.
Proof.
  destruct (fst_some _ _ machine_spawned_some) as [s' E]. destruct machine_user_current as (C1 & C2 & _).
  pose proof (spawn_path_spec true 5 machine_user 1 program_path (Some [104; 105; NUL]) 2 0 (Ok 3) s' machine_user_good ltac:(lia)
    machine_user_sized C1 C2 ltac:(split; [lia|discriminate]) E) as H. cbv beta iota zeta in H.
  destruct H as (_ & _ & _ & k & i & _ & _ & H1 & H2 & H3 & _ & _ & _ & _ & _ & H4 & _).
  exists s', k, i. split; [exact E|]. split; [exact H1|]. split; [exact H2|]. split; [exact H3|exact H4].
Defined.

Lemma sys_pipe_spec_witness :
  ∃ s', sys_pipe true pipe_regs machine_user = Some (0, s') ∧ good [] 5 s'.
Proof.
  destruct (fst_some _ _ machine_piped_some) as [s' E]. unfold machine_piped in E. destruct machine_user_current as (C1 & C2 & _).
  exists s'. split; [exact E|]. exact (proj1 (sys_pipe_spec true 5 machine_user 1 pipe_regs 0 s' machine_user_good C1 C2 E)).
Defined.
