(* ===== verification/Decimal.v ===== *)
(** Decimal numbers, as the kernel's log and the shell write them. *)

From S2P Require Import Prelude Bytes.

(** [while (value > 0 && i < n) buf[i++] = '0' + value % 10, value /= 10]: the
    last digit first. *)
Fixpoint u32_digits (n : nat) (value : Z) : list Z :=
  match n with
  | O => []
  | S n' => if value =? 0 then [] else (48 + value mod 10) :: u32_digits n' (value / 10)
  end.

(** The number a string of digits stands for. *)
Definition dec_value (l : list Z) : Z := foldl (λ acc c, 10 * acc + (c - 48)) 0 l.

Definition is_digit (c : Z) : Prop := 48 ≤ c ≤ 57.

Lemma digits_ok n v : 0 ≤ v → Forall is_digit (u32_digits n v).
Proof.
  revert v. induction n as [|n IH]; intros v Hv; cbn; [constructor|]. destruct (v =? 0); [constructor|].
  constructor; [|apply IH; apply Z.div_pos; lia]. unfold is_digit. pose proof (Z.mod_pos_bound v 10 ltac:(lia)). lia.
Qed.

Lemma digits_len n v : (length (u32_digits n v) ≤ n)%nat.
Proof. revert v. induction n as [|n IH]; intros v; cbn; [done|]. destruct (v =? 0); cbn; [lia|]. specialize (IH (v / 10)). lia. Qed.

Lemma digits_value n v : 0 ≤ v < 10 ^ Z.of_nat n → dec_value (rev (u32_digits n v)) = v.
Proof.
  revert v. induction n as [|n IH]; intros v Hv; [cbn in *; lia|]. cbn [u32_digits].
  destruct (Z.eqb_spec v 0) as [->|]; [done|]. cbn [rev]. unfold dec_value in *. rewrite foldl_app, IH.
  - cbn [foldl]. pose proof (Z.div_mod v 10 ltac:(lia)). lia.
  - rewrite Nat2Z.inj_succ, Z.pow_succ_r in Hv by lia. split; [apply Z.div_pos; lia|]. apply Z.div_lt_upper_bound; lia.
Qed.

(** A 32-bit number has ten digits at most. *)
Lemma u32_digits_value v : is_u32 v → dec_value (rev (u32_digits 10 v)) = v.
Proof. intros Hv. apply digits_value. unfold two32 in Hv. change (10 ^ Z.of_nat 10) with 10000000000. lia. Qed.

(** The first digit written is no zero. *)
Lemma digits_lead n v : 0 < v < 10 ^ Z.of_nat n → ∃ c l, rev (u32_digits n v) = c :: l ∧ c ≠ 48.
Proof.
  revert v. induction n as [|n IH]; intros v Hv; [cbn in *; lia|]. cbn [u32_digits].
  destruct (Z.eqb_spec v 0); [lia|]. cbn [rev]. pose proof (Z.div_mod v 10 ltac:(lia)). pose proof (Z.mod_pos_bound v 10 ltac:(lia)).
  destruct (Z.eq_dec (v / 10) 0) as [E|E].
  - rewrite E. exists (48 + v mod 10), []. split; [by destruct n|lia].
  - rewrite Nat2Z.inj_succ, Z.pow_succ_r in Hv by lia. destruct (IH (v / 10)) as (c & l & -> & Hc); [|by exists c, (l ++ [48 + v mod 10])].
    split; [pose proof (Z.div_pos v 10 ltac:(lia) ltac:(lia)); lia|]. apply Z.div_lt_upper_bound; lia.
Qed.
