(* ===== verification/Shell.v ===== *)
(** userland/sh_slot4.c, userland/userlib.h: the language of the shell.

    Words with quotes and backslashes, pipelines with redirections, variables and
    their expansion, and chains of commands.  A position in a line is the rest of
    the line; a string in a fixed array is the list of its characters, whose
    length is the [_len] field beside it.  Lines are shorter than 128 characters,
    so that sums of lengths do not wrap.  A return of -1 is [None]. *)

From S2P Require Import Prelude Bytes CmdLine.

Definition SHELL_LINE_MAX : Z := 128.
Definition SHELL_PATH_MAX : Z := 96.
Definition SHELL_PIPELINE_MAX : Z := 8.
Definition SHELL_STAGE_CMDLINE_MAX : Z := 96.
Definition SHELL_VAR_MAX : Z := 16.
Definition SHELL_VAR_NAME_MAX : Z := 24.
Definition SHELL_VAR_VALUE_MAX : Z := 96.

Definition SPACE : Z := 32.
Definition PIPE : Z := 124.
Definition AMP : Z := 38.
Definition LESS : Z := 60.
Definition GREATER : Z := 62.
Definition SEMICOLON : Z := 59.
Definition TWO : Z := 50.
Definition DOLLAR : Z := 36.
Definition QUESTION : Z := 63.
Definition LBRACE : Z := 123.
Definition RBRACE : Z := 125.
Definition EQUALS : Z := 61.

(** * Characters *)

Definition user_is_space (c : Z) : bool := (c =? 32) || (c =? 9) || (c =? 10) || (c =? 13).

(** Does [rhs] equal the [len] characters at [lhs]? *)
Definition user_str_eq_n (lhs rhs : list Z) (len : Z) : bool := name_eq rhs lhs len.

Definition user_str_has_suffix_n (s : list Z) (len : Z) (suffix : list Z) : bool :=
  if len <? alen suffix then false else bool_decide (slice s (len - alen suffix) (alen suffix) = suffix).

Definition shell_is_name_start_char (ch : Z) : bool :=
  (65 <=? ch) && (ch <=? 90) || (97 <=? ch) && (ch <=? 122) || (ch =? 95).

Definition shell_is_name_char (ch : Z) : bool := shell_is_name_start_char ch || (48 <=? ch) && (ch <=? 57).

Definition shell_is_meta_char (ch : Z) : bool :=
  (ch =? PIPE) || (ch =? LESS) || (ch =? GREATER) || (ch =? AMP) || (ch =? SEMICOLON).

Definition shell_should_escape_spawn_char (ch : Z) : bool :=
  user_is_space ch || (ch =? BACKSLASH) || (ch =? SQUOTE) || (ch =? DQUOTE) || shell_is_meta_char ch.

(** The position behind the blanks. *)
Fixpoint shell_skip_spaces (s : list Z) : list Z :=
  match s with
  | [] => []
  | c :: s' => if user_is_space c then shell_skip_spaces s' else s
  end.

(** What stands before the next blank, and the rest. *)
Fixpoint shell_token_end (s : list Z) : list Z * list Z :=
  match s with
  | [] => ([], [])
  | c :: s' => if user_is_space c then ([], s) else let '(w, r) := shell_token_end s' in (c :: w, r)
  end.

(** * Words *)

Inductive shell_token_kind :=
  | SHELL_TOK_NONE
  | SHELL_TOK_WORD
  | SHELL_TOK_PIPE
  | SHELL_TOK_REDIR_IN
  | SHELL_TOK_REDIR_OUT
  | SHELL_TOK_REDIR_OUT_APPEND
  | SHELL_TOK_REDIR_ERR
  | SHELL_TOK_REDIR_ERR_APPEND
  | SHELL_TOK_AMP
  | SHELL_TOK_INVALID.

#[export] Instance shell_token_kind_eq_dec : EqDecision shell_token_kind.
Proof. solve_decision. Defined.

Definition shell_copy_token (dst_cap : Z) (src : list Z) : option (list Z) :=
  if (dst_cap =? 0) || (dst_cap <? alen src + 1) then None else Some src.

Fixpoint escape_loop (cap : Z) (arg dst : list Z) : option (list Z) :=
  match arg with
  | [] => Some dst
  | ch :: arg' =>
      if shell_should_escape_spawn_char ch then
        if cap <=? alen dst + 2 then None else escape_loop cap arg' (dst ++ [BACKSLASH; ch])
      else if cap <=? alen dst + 1 then None else escape_loop cap arg' (dst ++ [ch])
  end.

Definition shell_append_escaped_arg (dst : list Z) (cap : Z) (arg : list Z) : option (list Z) :=
  if (cap =? 0) || (cap <=? alen dst) then None
  else if negb (alen dst =? 0) && (cap <=? alen dst + 1) then None
  else
    let dst := if negb (alen dst =? 0) then dst ++ [SPACE] else dst in
    if alen arg =? 0 then if cap <=? alen dst + 2 then None else Some (dst ++ [DQUOTE; DQUOTE])
    else escape_loop cap arg dst.

(** The [while] loop: the word and the rest of the line. *)
Fixpoint token_loop (out_cap : Z) (line out : list Z) (in_single in_double saw_token : bool) : option (list Z * list Z) :=
  match line with
  | [] => if in_single || in_double || negb saw_token then None else Some (out, [])
  | ch :: line' =>
      if negb in_single && (ch =? BACKSLASH) then
        match line' with
        | [] => None
        | c :: line'' =>
            if out_cap <=? alen out + 1 then None else token_loop out_cap line'' (out ++ [c]) in_single in_double true
        end
      else if negb in_double && (ch =? SQUOTE) then token_loop out_cap line' out (negb in_single) in_double true
      else if negb in_single && (ch =? DQUOTE) then token_loop out_cap line' out in_single (negb in_double) true
      else if negb in_single && negb in_double &&
              (user_is_space ch || (ch =? PIPE) || (ch =? AMP) || (ch =? LESS) || (ch =? GREATER)
               || (ch =? TWO) && (cget line' 0 =? GREATER))
      then if negb saw_token then None else Some (out, line)
      else if out_cap <=? alen out + 1 then None
      else token_loop out_cap line' (out ++ [ch]) in_single in_double true
  end.

(** The kind, the word and the position behind it. *)
Definition shell_next_token (line : list Z) (out_cap : Z) : shell_token_kind * list Z * list Z :=
  let line := shell_skip_spaces line in
  if cget line 0 =? NUL then (SHELL_TOK_NONE, [], line)
  else if cget line 0 =? PIPE then (SHELL_TOK_PIPE, [], drop 1 line)
  else if cget line 0 =? AMP then (SHELL_TOK_AMP, [], drop 1 line)
  else if cget line 0 =? LESS then (SHELL_TOK_REDIR_IN, [], drop 1 line)
  else if cget line 0 =? GREATER then
    if cget line 1 =? GREATER then (SHELL_TOK_REDIR_OUT_APPEND, [], drop 2 line)
    else (SHELL_TOK_REDIR_OUT, [], drop 1 line)
  else if (cget line 0 =? TWO) && (cget line 1 =? GREATER) then
    if cget line 2 =? GREATER then (SHELL_TOK_REDIR_ERR_APPEND, [], drop 3 line)
    else (SHELL_TOK_REDIR_ERR, [], drop 2 line)
  else
    match token_loop out_cap line [] false false false with
    | None => (SHELL_TOK_INVALID, [], line)
    | Some (w, rest) => (SHELL_TOK_WORD, w, rest)
    end.

(** * Pipelines *)

Record shell_stage := Stage {
  st_cmd : list Z;
  st_cmdline : list Z;
  st_spawn_cmdline : list Z;
  st_redir_in : list Z;
  st_redir_out : list Z;
  st_redir_err : list Z;
  st_has_redir_in : bool;
  st_has_redir_out : bool;
  st_has_redir_err : bool;
  st_redir_out_append : bool;
  st_redir_err_append : bool
}.

Definition stage_zero : shell_stage := Stage [] [] [] [] [] [] false false false false false.

Definition set_cmd (w : list Z) (t : shell_stage) : shell_stage :=
  Stage w (st_cmdline t) (st_spawn_cmdline t) (st_redir_in t) (st_redir_out t) (st_redir_err t)
    (st_has_redir_in t) (st_has_redir_out t) (st_has_redir_err t) (st_redir_out_append t) (st_redir_err_append t).

Definition set_cmdlines (c p : list Z) (t : shell_stage) : shell_stage :=
  Stage (st_cmd t) c p (st_redir_in t) (st_redir_out t) (st_redir_err t)
    (st_has_redir_in t) (st_has_redir_out t) (st_has_redir_err t) (st_redir_out_append t) (st_redir_err_append t).

Definition set_redir_in (w : list Z) (t : shell_stage) : shell_stage :=
  Stage (st_cmd t) (st_cmdline t) (st_spawn_cmdline t) w (st_redir_out t) (st_redir_err t)
    true (st_has_redir_out t) (st_has_redir_err t) (st_redir_out_append t) (st_redir_err_append t).

Definition set_redir_out (w : list Z) (append : bool) (t : shell_stage) : shell_stage :=
  Stage (st_cmd t) (st_cmdline t) (st_spawn_cmdline t) (st_redir_in t) w (st_redir_err t)
    (st_has_redir_in t) true (st_has_redir_err t) append (st_redir_err_append t).

Definition set_redir_err (w : list Z) (append : bool) (t : shell_stage) : shell_stage :=
  Stage (st_cmd t) (st_cmdline t) (st_spawn_cmdline t) (st_redir_in t) (st_redir_out t) w
    (st_has_redir_in t) (st_has_redir_out t) true (st_redir_out_append t) append.

Definition shell_stage_append_arg (arg : list Z) (t : shell_stage) : option shell_stage :=
  let c := st_cmdline t in
  if negb (alen c =? 0) && (SHELL_STAGE_CMDLINE_MAX <=? alen c + 1) then None
  else
    let c := if negb (alen c =? 0) then c ++ [SPACE] else c in
    if SHELL_STAGE_CMDLINE_MAX <=? alen c + alen arg then None
    else
      p ← shell_append_escaped_arg (st_spawn_cmdline t) SHELL_STAGE_CMDLINE_MAX arg;
      Some (set_cmdlines (c ++ arg) p t).

(** The word a redirection needs, as it is copied into the stage. *)
Definition redirect_path (line : list Z) : option (list Z * list Z) :=
  match shell_next_token line SHELL_LINE_MAX with
  | (SHELL_TOK_WORD, w, rest) =>
      if alen w =? 0 then None else p ← shell_copy_token SHELL_PATH_MAX w; Some (p, rest)
  | _ => None
  end.

(** What follows the loop: the stages, [has_meta] and [background]. *)
Definition stages_end (before : list shell_stage) (t : shell_stage) (has_meta background : bool)
    : option (list shell_stage * bool * bool) :=
  if alen (st_cmd t) =? 0 then if alen before =? 0 then Some ([], has_meta, background) else None
  else Some (before ++ [t], has_meta, background).

(** [before] are the stages up to [stage_idx]; the loop ends at [&], so that
    [background] is still 0 inside it.  Every token takes a character. *)
Fixpoint stages_loop (fuel : nat) (line : list Z) (stage_cap : Z) (before : list shell_stage) (t : shell_stage) (has_meta : bool)
    : option (list shell_stage * bool * bool) :=
  match fuel with
  | O => None
  | S fuel' =>
      match shell_next_token line SHELL_LINE_MAX with
      | (SHELL_TOK_INVALID, _, _) => None
      | (SHELL_TOK_NONE, _, _) => stages_end before t has_meta false
      | (SHELL_TOK_PIPE, _, rest) =>
          if alen (st_cmd t) =? 0 then None
          else if stage_cap <=? alen before + 1 then None
          else stages_loop fuel' rest stage_cap (before ++ [t]) stage_zero true
      | (SHELL_TOK_AMP, _, rest) =>
          if alen (st_cmd t) =? 0 then None
          else
            match shell_next_token rest SHELL_LINE_MAX with
            | (SHELL_TOK_NONE, _, _) => stages_end before t true true
            | _ => None
            end
      | (SHELL_TOK_REDIR_IN, _, rest) =>
          if st_has_redir_in t then None
          else '(w, rest) ← redirect_path rest; stages_loop fuel' rest stage_cap before (set_redir_in w t) true
      | (SHELL_TOK_REDIR_OUT, _, rest) =>
          if st_has_redir_out t then None
          else '(w, rest) ← redirect_path rest; stages_loop fuel' rest stage_cap before (set_redir_out w false t) true
      | (SHELL_TOK_REDIR_OUT_APPEND, _, rest) =>
          if st_has_redir_out t then None
          else '(w, rest) ← redirect_path rest; stages_loop fuel' rest stage_cap before (set_redir_out w true t) true
      | (SHELL_TOK_REDIR_ERR, _, rest) =>
          if st_has_redir_err t then None
          else '(w, rest) ← redirect_path rest; stages_loop fuel' rest stage_cap before (set_redir_err w false t) true
      | (SHELL_TOK_REDIR_ERR_APPEND, _, rest) =>
          if st_has_redir_err t then None
          else '(w, rest) ← redirect_path rest; stages_loop fuel' rest stage_cap before (set_redir_err w true t) true
      | (SHELL_TOK_WORD, w, rest) =>
          if alen (st_cmd t) =? 0 then
            w ← shell_copy_token SHELL_PATH_MAX w; stages_loop fuel' rest stage_cap before (set_cmd w t) has_meta
          else t ← shell_stage_append_arg w t; stages_loop fuel' rest stage_cap before t has_meta
      end
  end.

(** The stages in use, [has_meta] and [background]. *)
Definition shell_parse_stages (line : list Z) (stage_cap : Z) : option (list shell_stage * bool * bool) :=
  if stage_cap =? 0 then None
  else if cget line 0 =? NUL then Some ([], false, false)
  else stages_loop (S (length line)) line (Z.min stage_cap SHELL_PIPELINE_MAX) [] stage_zero false.

(** "/bin/" and ".elf" *)
Definition kBinPrefix : list Z := [47; 98; 105; 110; 47].
Definition kElfSuffix : list Z := [46; 101; 108; 102].

Definition shell_str_contains_char_n (s : list Z) (ch : Z) : bool := bool_decide (ch ∈ s).

Definition shell_build_spawn_path (cmd : list Z) (out_cap : Z) : option (list Z) :=
  if (out_cap =? 0) || (alen cmd =? 0) then None
  else
    out ← (if shell_str_contains_char_n cmd SLASH then
             if out_cap <? alen cmd + 1 then None else Some cmd
           else if out_cap <? alen kBinPrefix + alen cmd + 1 then None else Some (kBinPrefix ++ cmd));
    if negb (user_str_has_suffix_n out (alen out) kElfSuffix) then
      if out_cap <? alen out + alen kElfSuffix + 1 then None else Some (out ++ kElfSuffix)
    else Some out.
