(* ===== verification/ShellSpec.v ===== *)
(** What the shell makes of a line.

    Every line that is accepted gives stages that fit their arrays, and the command
    line a stage hands to the kernel is cut there into exactly the words that were
    typed.  Every pipeline, printed with its words escaped, is read back. *)

From S2P Require Import Prelude Bytes CmdLine Shell.

(** * Escaping *)

Definition escaped (c : Z) : list Z := if shell_should_escape_spawn_char c then [BACKSLASH; c] else [c].
Definition escape_word (w : list Z) : list Z := match w with [] => [DQUOTE; DQUOTE] | _ => concat (escaped <$> w) end.

(** [sep] adds a word to a line of words. *)
Definition sep (line w : list Z) : list Z := (if alen line =? 0 then [] else line ++ [SPACE]) ++ w.
Definition join_plain (args : list (list Z)) : list Z := foldl sep [] args.
Definition join_escaped (args : list (list Z)) : list Z := foldl sep [] (escape_word <$> args).

Lemma alen_cons {A} (x : A) l : alen (x :: l) = 1 + alen l.
Proof. unfold alen. simpl length. lia. Qed.

Lemma alen_nil {A} (l : list A) : (alen l =? 0) = true ↔ l = [].
Proof. unfold alen. rewrite Z.eqb_eq. destruct l; simpl; split; (done || lia). Qed.

Lemma alen_pos {A} (l : list A) : l ≠ [] → (alen l =? 0) = false.
Proof. intros H. destruct (alen l =? 0) eqn:E; [|done]. by apply alen_nil in E. Qed.

Lemma escaped_len c : 1 ≤ alen (escaped c) ≤ 2.
Proof. unfold escaped. destruct (shell_should_escape_spawn_char c); unfold alen; simpl length; lia. Qed.

Lemma escape_word_cons c w : concat (escaped <$> (c :: w)) = escaped c ++ concat (escaped <$> w).
Proof. done. Qed.

Lemma escape_word_len w : alen w ≤ alen (escape_word w) ∧ 1 ≤ alen (escape_word w).
Proof.
  assert (H : ∀ w, alen w ≤ alen (concat (escaped <$> w))).
  { intros v. induction v as [|c v IH]; [done|]. rewrite escape_word_cons, alen_app. pose proof (escaped_len c).
    rewrite alen_cons. lia. }
  destruct w as [|c w]; [by cbn|]. specialize (H (c :: w)). cbn [escape_word]. rewrite alen_cons in *. pose proof (alen_nonneg w). lia.
Qed.

Lemma escape_word_nonempty w : escape_word w ≠ [].
Proof. intros E. pose proof (escape_word_len w) as [_ H]. rewrite E in H. done. Qed.

Lemma escape_loop_spec cap arg dst :
  alen dst < cap →
  escape_loop cap arg dst =
    if decide (alen dst + alen (concat (escaped <$> arg)) < cap) then Some (dst ++ concat (escaped <$> arg)) else None.
Proof.
  revert dst. induction arg as [|c arg IH]; intros dst Hd.
  { cbn. rewrite decide_True by (unfold alen in *; simpl; lia). by rewrite app_nil_r. }
  rewrite escape_word_cons, alen_app. cbn [escape_loop].
  assert (Hstep : ∀ e, escaped c = e → 0 < alen e →
    (if cap <=? alen dst + alen e then None else escape_loop cap arg (dst ++ e)) =
    (if decide (alen dst + (alen (escaped c) + alen (concat (escaped <$> arg))) < cap)
     then Some (dst ++ escaped c ++ concat (escaped <$> arg)) else None)).
  { intros e -> He. pose proof (alen_nonneg (concat (escaped <$> arg))). destruct (Z.leb_spec cap (alen dst + alen e)).
    { by rewrite decide_False by lia. }
    rewrite IH by (rewrite alen_app; lia). rewrite alen_app, <- app_assoc, Z.add_assoc. done. }
  unfold escaped at 1 in Hstep. destruct (shell_should_escape_spawn_char c) eqn:E.
  - apply (Hstep [BACKSLASH; c] eq_refl). done.
  - apply (Hstep [c] eq_refl). done.
Qed.

Lemma fits_decide {A} (n cap : Z) (x : A) : (if cap <=? n then None else Some x) = if decide (n < cap) then Some x else None.
Proof. destruct (Z.leb_spec cap n); [by rewrite decide_False by lia|by rewrite decide_True by lia]. Qed.

Lemma append_escaped_spec dst cap arg :
  0 < cap →
  shell_append_escaped_arg dst cap arg =
    if decide (alen (sep dst (escape_word arg)) < cap) then Some (sep dst (escape_word arg)) else None.
Proof.
  intros Hc. unfold shell_append_escaped_arg, sep. pose proof (escape_word_len arg) as [_ Hw]. pose proof (alen_nonneg dst) as H0.
  rewrite (proj2 (Z.eqb_neq cap 0)) by lia. cbn [orb]. rewrite alen_app.
  destruct (alen dst =? 0) eqn:Ed; cbn [negb andb].
  - apply alen_nil in Ed. subst dst. rewrite (proj2 (Z.leb_gt cap _)) by (unfold alen; simpl; lia). cbn [app].
    destruct arg as [|c arg]; [exact (fits_decide _ _ _)|].
    rewrite (alen_pos (c :: arg)) by done. rewrite escape_loop_spec by done. done.
  - assert (Hs : alen (dst ++ [SPACE]) = alen dst + 1) by (rewrite alen_app; done). rewrite Hs.
    destruct (Z.leb_spec cap (alen dst)); [by rewrite decide_False by lia|].
    destruct (Z.leb_spec cap (alen dst + 1)); [by rewrite decide_False by lia|].
    destruct arg as [|c arg]; [exact (fits_decide _ _ _)|].
    rewrite (alen_pos (c :: arg)) by done. rewrite escape_loop_spec by lia. by rewrite Hs.
Qed.

(** * The kernel reads it back *)

Lemma escape_piece c : piece (escaped c) [c].
Proof.
  unfold escaped, shell_should_escape_spawn_char. destruct (user_is_space c) eqn:Es; [constructor|].
  destruct (Z.eqb_spec c BACKSLASH); [constructor|]. destruct (Z.eqb_spec c SQUOTE); [constructor|].
  destruct (Z.eqb_spec c DQUOTE); [constructor|]. destruct (shell_is_meta_char c); by constructor.
Qed.

Lemma escape_is_word w : word (escape_word w) w.
Proof.
  assert (H : ∀ w, word (concat (escaped <$> w)) w).
  { intros v. induction v as [|c v IH]; [constructor|]. rewrite escape_word_cons. change (c :: v) with ([c] ++ v).
    constructor; [apply escape_piece|done]. }
  destruct w as [|c w]; [|apply H]. exact (WPiece (DQUOTE :: [] ++ [DQUOTE]) [] [] [] (PDouble [] [] DEnd) WEnd).
Qed.

Definition spaced (args : list (list Z)) : list Z := concat ((λ w, SPACE :: escape_word w) <$> args).

Lemma foldl_sep line args :
  line ≠ [] → foldl sep line (escape_word <$> args) = line ++ spaced args.
Proof.
  revert line. induction args as [|w args IH]; intros line Hl; [by rewrite app_nil_r|]. cbn.
  rewrite IH by (unfold sep; intros [_ E]%app_eq_nil; by apply escape_word_nonempty in E).
  unfold sep. rewrite alen_pos by done. unfold spaced. cbn. by rewrite <- !app_assoc.
Qed.

Lemma join_escaped_cons w args : join_escaped (w :: args) = escape_word w ++ spaced args.
Proof. unfold join_escaped. cbn. rewrite foldl_sep; [done|]. apply escape_word_nonempty. Qed.

Lemma spaced_cmdline n args : (length args ≤ n)%nat → cmdline n (spaced args) args.
Proof.
  revert n. induction args as [|w args IH]; intros n Hn; [constructor|]. destruct n as [|n]; [simpl in Hn; lia|].
  change (spaced (w :: args)) with (([SPACE] ++ escape_word w) ++ spaced args). rewrite <- app_assoc. constructor.
  - by repeat constructor.
  - apply escape_word_nonempty.
  - apply escape_is_word.
  - by destruct args.
  - apply IH. simpl in Hn. lia.
Qed.

Lemma joined_cmdline args : (length args ≤ 15)%nat → cmdline 15 (join_escaped args) args.
Proof.
  intros Hn. destruct args as [|w args]; [constructor|]. rewrite join_escaped_cons.
  change (escape_word w ++ spaced args) with ([] ++ escape_word w ++ spaced args). constructor.
  - constructor.
  - apply escape_word_nonempty.
  - apply escape_is_word.
  - by destruct args.
  - apply spaced_cmdline. simpl in Hn. lia.
Qed.

(** The program gets the words. *)
Lemma joined_parsed args :
  alen (join_escaped args) < USERMODE_CMDLINE_MAX → (length args ≤ 15)%nat → parse_args (join_escaped args) = Ok args.
Proof.
  intros Hl Hn. unfold parse_args. apply (args_complete 15); [by apply joined_cmdline|done|done|].
  right. split; [done|]. left. lia.
Qed.

(** * Lines that are accepted *)

Lemma foldl_snoc {A B} (f : A → B → A) a l x : foldl f a (l ++ [x]) = f (foldl f a l) x.
Proof. by rewrite foldl_app. Qed.

Lemma sep_shorter l l' w w' : alen l ≤ alen l' → alen w ≤ alen w' → (l = [] → l' = [] ∨ True) → alen (sep l w) ≤ alen (sep l' w').
Proof.
  intros Hl Hw _. unfold sep. rewrite !alen_app. pose proof (alen_nonneg l) as H0. destruct (Z.eqb_spec (alen l) 0), (Z.eqb_spec (alen l') 0);
    rewrite ?alen_app; change (alen [SPACE]) with 1; change (alen (@nil Z)) with 0; lia.
Qed.

Lemma plain_shorter args : alen (join_plain args) ≤ alen (join_escaped args).
Proof.
  unfold join_plain, join_escaped. induction args as [|w args IH] using rev_ind; [done|].
  rewrite fmap_app. cbn [fmap list_fmap]. rewrite !foldl_snoc. apply sep_shorter; [done|apply escape_word_len|by right].
Qed.

(** [words t args]: the arguments of the stage are [args], and its strings fit. *)
Record words (t : shell_stage) (args : list (list Z)) : Prop := Words {
  wo_cmdline : st_cmdline t = join_plain args;
  wo_spawn : st_spawn_cmdline t = join_escaped args;
  wo_len : alen (st_spawn_cmdline t) < SHELL_STAGE_CMDLINE_MAX;
  wo_cmd : alen (st_cmd t) < SHELL_PATH_MAX;
  wo_in : alen (st_redir_in t) < SHELL_PATH_MAX;
  wo_out : alen (st_redir_out t) < SHELL_PATH_MAX;
  wo_err : alen (st_redir_err t) < SHELL_PATH_MAX
}.

Lemma words_zero : words stage_zero [].
Proof. by constructor. Qed.

Lemma append_words t args w t' : words t args → shell_stage_append_arg w t = Some t' → words t' (args ++ [w]) ∧ st_cmd t' = st_cmd t.
Proof.
  intros [H1 H2 H3 H4 H5 H6 H7]. unfold shell_stage_append_arg. destruct (_ && _); [done|]. case_match; [done|].
  rewrite append_escaped_spec by done. case_decide as Hd; [|done]. intros [= <-]. split; [|done]. constructor; cbn; try done.
  - unfold join_plain in *. rewrite foldl_snoc, <- H1. unfold sep.
    destruct (alen (st_cmdline t) =? 0) eqn:E; [|done]. apply alen_nil in E. by rewrite E.
  - unfold join_escaped in *. rewrite fmap_app. cbn [fmap list_fmap]. by rewrite foldl_snoc, <- H2.
Qed.

Lemma copy_token_fits cap w w' : shell_copy_token cap w = Some w' → w' = w ∧ alen w < cap.
Proof.
  unfold shell_copy_token. destruct (_ || _) eqn:E; [done|]. apply orb_false_iff in E as [_ E%Z.ltb_ge]. intros [= <-].
  split; [done|lia].
Qed.

Lemma redirect_fits line w rest : redirect_path line = Some (w, rest) → w ≠ [] ∧ alen w < SHELL_PATH_MAX.
Proof.
  unfold redirect_path. destruct (shell_next_token line SHELL_LINE_MAX) as [[[] v] r]; try done.
  destruct (alen v =? 0) eqn:E; [done|]. destruct (shell_copy_token _ _) as [p|] eqn:Ec; [|done]. cbn. intros [= <- <-].
  apply copy_token_fits in Ec as [-> H]. split; [|done]. intros ->. by rewrite (proj2 (alen_nil _) eq_refl) in E.
Qed.

(** * Printed lines *)

(** Words and signs, as they are printed. *)
Inductive sign := SWord (w : list Z) | SPipe | SIn | SOut (append : bool) | SErr (append : bool) | SAmp.

Definition sign_text (x : sign) : list Z :=
  match x with
  | SWord w => escape_word w
  | SPipe => [PIPE]
  | SIn => [LESS]
  | SOut append => if append then [GREATER; GREATER] else [GREATER]
  | SErr append => if append then [TWO; GREATER; GREATER] else [TWO; GREATER]
  | SAmp => [AMP]
  end.

Definition sign_kind (x : sign) : shell_token_kind :=
  match x with
  | SWord _ => SHELL_TOK_WORD
  | SPipe => SHELL_TOK_PIPE
  | SIn => SHELL_TOK_REDIR_IN
  | SOut append => if append then SHELL_TOK_REDIR_OUT_APPEND else SHELL_TOK_REDIR_OUT
  | SErr append => if append then SHELL_TOK_REDIR_ERR_APPEND else SHELL_TOK_REDIR_ERR
  | SAmp => SHELL_TOK_AMP
  end.

Definition sign_word (x : sign) : list Z := match x with SWord w => w | _ => [] end.

(** Every sign behind a blank. *)
Definition print (l : list sign) : list Z := concat ((λ x, SPACE :: sign_text x) <$> l).

Definition printable (x : sign) : Prop := no_nul (sign_word x) ∧ alen (sign_word x) < SHELL_LINE_MAX.

(** What may follow a word. *)
Definition blank_next (p : list Z) : Prop := p = [] ∨ ∃ q, p = SPACE :: q.

Lemma print_blank l : blank_next (print l).
Proof. destruct l as [|x l]; [by left|right]. by eexists. Qed.

Lemma blank_next_get p : blank_next p → cget p 0 ≠ GREATER.
Proof. by intros [->|[q ->]]. Qed.

(** What stands before a character is not a redirection. *)
Lemma escaped_next w p : blank_next p → cget (concat (escaped <$> w) ++ p) 0 ≠ GREATER.
Proof.
  intros Hp. destruct w as [|c w]; [by apply blank_next_get|]. rewrite escape_word_cons. unfold escaped at 1.
  destruct (shell_should_escape_spawn_char c) eqn:E; [done|]. intros Hg. change (c = GREATER) in Hg. by subst c.
Qed.

Lemma plain_char c : shell_should_escape_spawn_char c = false →
  user_is_space c = false ∧ c ≠ BACKSLASH ∧ c ≠ SQUOTE ∧ c ≠ DQUOTE ∧ c ≠ PIPE ∧ c ≠ LESS ∧ c ≠ GREATER ∧ c ≠ AMP.
Proof.
  unfold shell_should_escape_spawn_char, shell_is_meta_char. rewrite !orb_false_iff, !Z.eqb_neq. tauto.
Qed.

Lemma token_loop_escaped cap w out p saw :
  alen out + alen w < cap → blank_next p → saw = true ∨ w ≠ [] →
  token_loop cap (concat (escaped <$> w) ++ p) out false false saw = Some (out ++ w, p).
Proof.
  revert out saw. induction w as [|c w IH]; intros out saw Hl Hp Hs.
  { destruct Hs as [->|]; [|done]. rewrite app_nil_r. by destruct Hp as [->|[q ->]]. }
  pose proof (escaped_next w p Hp) as Hn. rewrite escape_word_cons, <- app_assoc. rewrite alen_cons in Hl. pose proof (alen_nonneg w).
  assert (Hr : (cap <=? alen out + 1) = false) by (apply Z.leb_gt; lia).
  assert (Hnext : token_loop cap (concat (escaped <$> w) ++ p) (out ++ [c]) false false true = Some (out ++ c :: w, p)).
  { rewrite IH; [by rewrite <- app_assoc|rewrite alen_app; change (alen [c]) with 1; lia|done|by left]. }
  unfold escaped at 1. destruct (shell_should_escape_spawn_char c) eqn:E; cbn [app token_loop negb andb].
  - change (BACKSLASH =? BACKSLASH) with true. by rewrite Hr.
  - apply plain_char in E as (E0 & E1 & E2 & E3 & E4 & E5 & E6 & E7).
    rewrite (proj2 (Z.eqb_neq c BACKSLASH)), (proj2 (Z.eqb_neq c SQUOTE)), (proj2 (Z.eqb_neq c DQUOTE)) by done.
    rewrite E0, (proj2 (Z.eqb_neq c PIPE)), (proj2 (Z.eqb_neq c AMP)), (proj2 (Z.eqb_neq c LESS)), (proj2 (Z.eqb_neq c GREATER)) by done.
    rewrite (proj2 (Z.eqb_neq _ GREATER) Hn), andb_false_r. cbn [orb]. by rewrite Hr.
Qed.

Lemma token_loop_word cap w p :
  0 < cap → alen w < cap → blank_next p → token_loop cap (escape_word w ++ p) [] false false false = Some (w, p).
Proof.
  intros H0 Hl Hp. destruct w as [|c w]; [by destruct Hp as [->|[q ->]]|].
  unfold escape_word. rewrite (token_loop_escaped cap (c :: w) [] p false); [done|exact Hl|done|by right].
Qed.

(** The first character of a printed word. *)
Lemma word_start w p :
  no_nul w → blank_next p → ∃ c r, escape_word w ++ p = c :: r ∧ user_is_space c = false ∧ c ≠ NUL ∧ c ≠ PIPE ∧ c ≠ AMP ∧ c ≠ LESS ∧
    c ≠ GREATER ∧ (c = TWO → cget r 0 ≠ GREATER).
Proof.
  intros Hw Hp. destruct w as [|c w]; [by eexists _, _|]. unfold escape_word. rewrite escape_word_cons, <- app_assoc.
  pose proof (escaped_next w p Hp) as Hn. unfold escaped at 1. destruct (shell_should_escape_spawn_char c) eqn:E.
  - eexists _, _. split; [reflexivity|]. done.
  - apply plain_char in E as (E0 & _ & _ & _ & E4 & E5 & E6 & E7). eexists _, _. split; [reflexivity|].
    by apply Forall_cons in Hw as [Hc _].
Qed.

Lemma next_token_print x p :
  printable x → blank_next p → shell_next_token (SPACE :: sign_text x ++ p) SHELL_LINE_MAX = (sign_kind x, sign_word x, p).
Proof.
  intros [Hn Hl] Hp. unfold shell_next_token. cbn [shell_skip_spaces]. change (user_is_space SPACE) with true. cbn [andb].
  pose proof (proj2 (Z.eqb_neq _ GREATER) (blank_next_get p Hp)) as Hg.
  destruct x as [w| | |[]|[]|]; cbn [sign_text sign_kind sign_word] in *; try (cbn [app]; reflexivity).
  - destruct (word_start w p Hn Hp) as (c & r & E & E0 & E1 & E2 & E3 & E4 & E5 & E6). rewrite E. cbn [shell_skip_spaces]. rewrite E0.
    change (cget (c :: r) 0) with c. change (cget (c :: r) 1) with (cget r 0).
    rewrite (proj2 (Z.eqb_neq c NUL)), (proj2 (Z.eqb_neq c PIPE)), (proj2 (Z.eqb_neq c AMP)), (proj2 (Z.eqb_neq c LESS)), (proj2 (Z.eqb_neq c GREATER)) by done.
    assert ((c =? TWO) && (cget r 0 =? GREATER) = false) as ->.
    { destruct (Z.eqb_spec c TWO) as [Ec|]; [|done]. cbn [andb]. by apply Z.eqb_neq, E6. }
    rewrite <- E, token_loop_word by done. done.
  - cbn [app shell_skip_spaces]. change (user_is_space GREATER) with false. cbv iota.
    change (cget (GREATER :: p) 0) with GREATER. change (cget (GREATER :: p) 1) with (cget p 0). by rewrite Hg.
  - cbn [app shell_skip_spaces]. change (user_is_space TWO) with false. cbv iota.
    change (cget (TWO :: GREATER :: p) 2) with (cget p 0). by rewrite Hg.
Qed.

(** A command with its arguments and redirections; [true] appends. *)
Record command := Command {
  c_cmd : list Z;
  c_args : list (list Z);
  c_in : option (list Z);
  c_out : option (list Z * bool);
  c_err : option (list Z * bool)
}.

Definition redirections (c : command) : list sign :=
  match c_in c with Some w => [SIn; SWord w] | None => [] end ++
  match c_out c with Some (w, append) => [SOut append; SWord w] | None => [] end ++
  match c_err c with Some (w, append) => [SErr append; SWord w] | None => [] end.

Definition command_signs (c : command) : list sign := SWord (c_cmd c) :: (SWord <$> c_args c) ++ redirections c.

Fixpoint pipeline_signs (p : list command) : list sign :=
  match p with
  | [] => []
  | [c] => command_signs c
  | c :: p => command_signs c ++ SPipe :: pipeline_signs p
  end.

Definition print_pipeline (p : list command) (background : bool) : list Z :=
  print (pipeline_signs p ++ if background then [SAmp] else []).

Definition is_set {A} (o : option A) : bool := match o with Some _ => true | None => false end.
Definition redirected (c : command) : bool := is_set (c_in c) || is_set (c_out c) || is_set (c_err c).

(** The stage a command becomes. *)
Definition stage_of (c : command) : shell_stage :=
  Stage (c_cmd c) (join_plain (c_args c)) (join_escaped (c_args c))
    (default [] (c_in c)) (default [] (fst <$> c_out c)) (default [] (fst <$> c_err c))
    (is_set (c_in c)) (is_set (c_out c)) (is_set (c_err c)) (default false (snd <$> c_out c)) (default false (snd <$> c_err c)).

Definition path_ok (w : list Z) : Prop := no_nul w ∧ w ≠ [] ∧ alen w < SHELL_PATH_MAX.

Record command_ok (c : command) : Prop := CommandOk {
  ok_cmd : path_ok (c_cmd c);
  ok_args : Forall no_nul (c_args c);
  ok_len : alen (join_escaped (c_args c)) < SHELL_STAGE_CMDLINE_MAX;
  ok_in w : c_in c = Some w → path_ok w;
  ok_out w a : c_out c = Some (w, a) → path_ok w;
  ok_err w a : c_err c = Some (w, a) → path_ok w
}.

Section loop.
Context (cap : Z).
Implicit Types (before : list shell_stage) (t : shell_stage) (l : list sign).

Lemma path_printable w : path_ok w → printable (SWord w).
Proof. intros (H1 & _ & H2). split; [done|]. unfold SHELL_PATH_MAX, SHELL_LINE_MAX in *. simpl. lia. Qed.

Lemma sign_printable x : sign_word x = [] → printable x.
Proof. intros E. unfold printable. rewrite E. split; [constructor|done]. Qed.

Lemma token_print x l : printable x → shell_next_token (print (x :: l)) SHELL_LINE_MAX = (sign_kind x, sign_word x, print l).
Proof. intros Hx. exact (next_token_print x (print l) Hx (print_blank l)). Qed.

Lemma copy_ok w : path_ok w → shell_copy_token SHELL_PATH_MAX w = Some w.
Proof.
  intros (_ & _ & H). unfold shell_copy_token. cbn [orb]. change (SHELL_PATH_MAX =? 0) with false. cbn [orb].
  by rewrite (proj2 (Z.ltb_ge _ _)) by lia.
Qed.

Lemma redirect_print w l : path_ok w → redirect_path (print (SWord w :: l)) = Some (w, print l).
Proof.
  intros Hw. unfold redirect_path. rewrite token_print by by apply path_printable. cbn [sign_kind sign_word].
  rewrite alen_pos by apply Hw. by rewrite copy_ok.
Qed.

(** Reading the signs [ss] takes the loop from the stage [t] to [t']. *)
Definition reads before (ss : list sign) t (m : bool) t' (m' : bool) : Prop :=
  ∃ n, (n ≤ length ss)%nat ∧ ∀ fuel l,
    stages_loop (n + fuel) (print (ss ++ l)) cap before t m = stages_loop fuel (print l) cap before t' m'.

Lemma reads_nil before t m : reads before [] t m t m.
Proof. exists 0%nat. by split. Qed.

Lemma reads_app before s1 s2 t m t1 m1 t2 m2 :
  reads before s1 t m t1 m1 → reads before s2 t1 m1 t2 m2 → reads before (s1 ++ s2) t m t2 m2.
Proof.
  intros (n1 & L1 & H1) (n2 & L2 & H2). exists (n1 + n2)%nat. rewrite length_app. split; [lia|]. intros fuel l.
  by rewrite <- Nat.add_assoc, <- app_assoc, H1, H2.
Qed.

Lemma reads_cmd before w t m : path_ok w → st_cmd t = [] → reads before [SWord w] t m (set_cmd w t) m.
Proof.
  intros Hw Ht. exists 1%nat. split; [done|]. intros fuel l. cbn [Nat.add app stages_loop].
  rewrite token_print by by apply path_printable. cbn [sign_kind sign_word].
  rewrite (proj2 (alen_nil _) Ht), copy_ok by done. done.
Qed.

Lemma append_fits t args w :
  words t args → alen (join_escaped (args ++ [w])) < SHELL_STAGE_CMDLINE_MAX →
  shell_stage_append_arg w t = Some (set_cmdlines (join_plain (args ++ [w])) (join_escaped (args ++ [w])) t).
Proof.
  intros [H1 H2 _ _ _ _ _] Hl. pose proof (plain_shorter (args ++ [w])) as Hp.
  assert (J1 : join_plain (args ++ [w]) = sep (st_cmdline t) w) by (rewrite H1; unfold join_plain; by rewrite foldl_snoc).
  assert (J2 : join_escaped (args ++ [w]) = sep (st_spawn_cmdline t) (escape_word w)).
  { rewrite H2. unfold join_escaped. rewrite fmap_app. cbn [fmap list_fmap]. by rewrite foldl_snoc. }
  rewrite J1, J2 in *. unfold shell_stage_append_arg. rewrite append_escaped_spec, decide_True by done. cbn [mbind option_bind].
  set (n := alen (sep (st_spawn_cmdline t) (escape_word w))) in *. clearbody n. unfold sep in Hp. rewrite alen_app in Hp.
  pose proof (alen_nonneg w). unfold sep at 2. destruct (alen (st_cmdline t) =? 0) eqn:E; cbn [negb andb].
  - apply alen_nil in E. rewrite E. change (alen (@nil Z)) with 0 in *. by rewrite (proj2 (Z.leb_gt _ _)) by lia.
  - rewrite alen_app in *. change (alen [SPACE]) with 1 in *. by rewrite !(proj2 (Z.leb_gt _ _)) by lia.
Qed.

Lemma join_escaped_prefix args more : alen (join_escaped args) ≤ alen (join_escaped (args ++ more)).
Proof.
  induction more as [|w more IH] using rev_ind; [by rewrite app_nil_r|]. rewrite app_assoc. etrans; [exact IH|].
  unfold join_escaped at 2. rewrite fmap_app. cbn [fmap list_fmap]. rewrite foldl_snoc. fold (join_escaped (args ++ more)).
  unfold sep. rewrite alen_app. pose proof (alen_nonneg (escape_word w)).
  destruct (alen (join_escaped (args ++ more)) =? 0) eqn:E; [apply alen_nil in E; rewrite E; change (alen (@nil Z)) with 0; lia|]. rewrite alen_app.
  change (alen [SPACE]) with 1. lia.
Qed.

Lemma reads_args before args t m had :
  words t had → st_cmd t ≠ [] → Forall no_nul args → Forall (λ w, alen w < SHELL_LINE_MAX) args →
  alen (join_escaped (had ++ args)) < SHELL_STAGE_CMDLINE_MAX →
  reads before (SWord <$> args) t m (set_cmdlines (join_plain (had ++ args)) (join_escaped (had ++ args)) t) m.
Proof.
  revert t had. induction args as [|w args IH]; intros t had Ht Hc Hn Hw Hl.
  - rewrite app_nil_r, <- (wo_cmdline _ _ Ht), <- (wo_spawn _ _ Ht). destruct t. apply reads_nil.
  - apply Forall_cons in Hn as [Hn1 Hn], Hw as [Hw1 Hw]. rewrite (cons_middle w), app_assoc in Hl |- *.
    pose proof (join_escaped_prefix (had ++ [w]) args) as Hp.
    assert (H1 : reads before [SWord w] t m (set_cmdlines (join_plain (had ++ [w])) (join_escaped (had ++ [w])) t) m).
    { exists 1%nat. split; [done|]. intros fuel l. cbn [Nat.add app stages_loop]. rewrite token_print by done.
      cbn [sign_kind sign_word]. rewrite alen_pos, (append_fits t had w) by (done || lia). done. }
    refine (reads_app before [SWord w] _ _ _ _ _ _ _ H1
      (IH (set_cmdlines (join_plain (had ++ [w])) (join_escaped (had ++ [w])) t) (had ++ [w]) _ Hc Hn Hw Hl)).
    destruct Ht as [T1 T2 T3 T4 T5 T6 T7]. constructor; cbn; try done. lia.
Qed.

Lemma args_short args : alen (join_escaped args) < SHELL_STAGE_CMDLINE_MAX → Forall (λ w, alen w < SHELL_LINE_MAX) args.
Proof.
  intros Hl. apply Forall_forall. intros w (a & b & ->)%list_elem_of_split. rewrite cons_middle, app_assoc in Hl.
  pose proof (join_escaped_prefix (a ++ [w]) b) as Hp. unfold join_escaped at 1 in Hp. rewrite fmap_app in Hp. cbn [fmap list_fmap] in Hp.
  rewrite foldl_snoc in Hp. unfold sep at 1 in Hp. rewrite alen_app in Hp. pose proof (proj1 (escape_word_len w)).
  set (n := alen (if _ : bool then _ else _)) in Hp. assert (0 ≤ n) by apply alen_nonneg.
  unfold SHELL_STAGE_CMDLINE_MAX, SHELL_LINE_MAX in *. lia.
Qed.

(** A sign of a redirection and its path. *)
Lemma reads_redirect before x w t m (f : list Z → shell_stage) :
  path_ok w → printable x →
  (∀ fuel l, stages_loop (S fuel) (print (x :: SWord w :: l)) cap before t m =
     ('(w, rest) ← redirect_path (print (SWord w :: l)); stages_loop fuel rest cap before (f w) true)) →
  reads before [x; SWord w] t m (f w) true.
Proof.
  intros Hw Hx H. exists 1%nat. split; [simpl; lia|]. intros fuel l. cbn [Nat.add app]. rewrite H, redirect_print by done. done.
Qed.

Lemma reads_in before o t m :
  (∀ w, o = Some w → path_ok w) → st_has_redir_in t = false →
  reads before (match o with Some w => [SIn; SWord w] | None => [] end) t m
    (match o with Some w => set_redir_in w t | None => t end) (m || is_set o).
Proof.
  intros Ho Ht. destruct o as [w|]; cbn [is_set]; [|rewrite orb_false_r; apply reads_nil]. rewrite orb_true_r.
  apply (reads_redirect _ _ _ _ _ (λ w, set_redir_in w t)); [by apply Ho|by apply sign_printable|]. intros fuel l. cbn [stages_loop]. rewrite token_print by by apply sign_printable.
  cbn [sign_kind sign_word]. by rewrite Ht.
Qed.

Lemma reads_out before o t m :
  (∀ w a, o = Some (w, a) → path_ok w) → st_has_redir_out t = false →
  reads before (match o with Some (w, a) => [SOut a; SWord w] | None => [] end) t m
    (match o with Some (w, a) => set_redir_out w a t | None => t end) (m || is_set o).
Proof.
  intros Ho Ht. destruct o as [[w a]|]; cbn [is_set]; [|rewrite orb_false_r; apply reads_nil]. rewrite orb_true_r.
  apply (reads_redirect _ _ _ _ _ (λ w, set_redir_out w a t)); [by apply (Ho w a)|by apply sign_printable|]. intros fuel l. cbn [stages_loop]. rewrite token_print by by apply sign_printable.
  destruct a; cbn [sign_kind sign_word]; by rewrite Ht.
Qed.

Lemma reads_err before o t m :
  (∀ w a, o = Some (w, a) → path_ok w) → st_has_redir_err t = false →
  reads before (match o with Some (w, a) => [SErr a; SWord w] | None => [] end) t m
    (match o with Some (w, a) => set_redir_err w a t | None => t end) (m || is_set o).
Proof.
  intros Ho Ht. destruct o as [[w a]|]; cbn [is_set]; [|rewrite orb_false_r; apply reads_nil]. rewrite orb_true_r.
  apply (reads_redirect _ _ _ _ _ (λ w, set_redir_err w a t)); [by apply (Ho w a)|by apply sign_printable|]. intros fuel l. cbn [stages_loop]. rewrite token_print by by apply sign_printable.
  destruct a; cbn [sign_kind sign_word]; by rewrite Ht.
Qed.

Lemma reads_command before c m : command_ok c → reads before (command_signs c) stage_zero m (stage_of c) (m || redirected c).
Proof.
  intros [H1 H2 H3 H4 H5 H6]. unfold command_signs, redirections.
  change (SWord (c_cmd c) :: ?l) with ([SWord (c_cmd c)] ++ l).
  apply (reads_app _ _ _ _ _ (set_cmd (c_cmd c) stage_zero) m); [by apply reads_cmd|].
  pose proof (reads_args before (c_args c) (set_cmd (c_cmd c) stage_zero) m []
    ltac:(by constructor; try apply H1) ltac:(apply H1) H2 (args_short _ H3) H3) as Ha.
  refine (reads_app _ _ _ _ _ _ _ _ _ Ha _). cbn [app]. clear Ha. set (t0 := set_cmdlines _ _ _).
  pose proof (reads_in before (c_in c) t0 m H4 eq_refl) as R1. set (t1 := match c_in c with Some w => set_redir_in w t0 | None => t0 end) in R1.
  assert (E1 : st_has_redir_out t1 = false) by (unfold t1; by destruct (c_in c)).
  pose proof (reads_out before (c_out c) t1 (m || is_set (c_in c)) H5 E1) as R2.
  set (t2 := match c_out c with Some (w, a) => set_redir_out w a t1 | None => t1 end) in R2.
  assert (E2 : st_has_redir_err t2 = false) by (unfold t2, t1; by destruct (c_in c), (c_out c) as [[]|]).
  pose proof (reads_err before (c_err c) t2 (m || is_set (c_in c) || is_set (c_out c)) H6 E2) as R3. pose proof (reads_app _ _ _ _ _ _ _ _ _ R1 (reads_app _ _ _ _ _ _ _ _ _ R2 R3)) as R.
  unfold redirected, stage_of. rewrite !orb_assoc. unfold t2, t1 in R.
  by destruct (c_in c), (c_out c) as [[]|], (c_err c) as [[]|].
Qed.

(** Reading a pipeline up to its last command. *)
Lemma reads_pipeline p c before m :
  Forall command_ok (p ++ [c]) → alen before + alen p < cap →
  ∃ n, (n ≤ length (pipeline_signs (p ++ [c])))%nat ∧ ∀ fuel l,
    stages_loop (n + fuel) (print (pipeline_signs (p ++ [c]) ++ l)) cap before stage_zero m =
    stages_loop fuel (print l) cap (before ++ (stage_of <$> p)) (stage_of c)
      (m || negb (alen p =? 0) || existsb redirected (p ++ [c])).
Proof.
  revert before m. induction p as [|d p IH]; intros before m Hok Hc.
  { cbn [app pipeline_signs existsb fmap list_fmap]. apply Forall_cons in Hok as [Hok _]. rewrite app_nil_r.
    change (alen (@nil command) =? 0) with true. cbn [negb]. rewrite !orb_false_r. by apply reads_command. }
  apply Forall_cons in Hok as [Hd Hok]. rewrite alen_cons in Hc. pose proof (alen_nonneg p).
  assert (E : pipeline_signs ((d :: p) ++ [c]) = (command_signs d ++ [SPipe]) ++ pipeline_signs (p ++ [c])).
  { cbn [app pipeline_signs]. rewrite <- app_assoc. by destruct p. }
  rewrite E. destruct (reads_command before d m Hd) as (n1 & L1 & R1).
  destruct (IH (before ++ [stage_of d]) true Hok ltac:(rewrite alen_app; change (alen [stage_of d]) with 1; lia)) as (n2 & L2 & R2).
  exists (n1 + (1 + n2))%nat. rewrite !length_app. cbn [length]. split; [lia|]. intros fuel l.
  rewrite <- Nat.add_assoc, <- !app_assoc, R1. cbn [Nat.add app stages_loop]. rewrite token_print by by apply sign_printable. cbn [sign_kind sign_word].
  destruct Hd as [(_ & Hd & _) _ _ _ _ _]. rewrite (alen_pos (st_cmd (stage_of d))) by done.
  rewrite (proj2 (Z.leb_gt _ _)) by lia. rewrite R2, <- app_assoc. cbn [app fmap list_fmap].
  rewrite (alen_pos (d :: p)) by done. cbn [negb]. by rewrite !orb_true_r.
Qed.
End loop.

Lemma print_len l : (length l ≤ length (print l))%nat.
Proof. induction l as [|x l IH]; [done|]. unfold print in *. cbn. rewrite length_app. lia. Qed.

(** C11: any pipeline of up to eight commands, with arguments, redirections and [&],
    printed with its words escaped, is read back: the stages hold the commands, the
    paths of the redirections, and command lines from which the kernel gets back
    exactly the arguments. *)
Theorem shell_pipeline_roundtrip p background :
  p ≠ [] → alen p ≤ SHELL_PIPELINE_MAX → Forall command_ok p →
  shell_parse_stages (print_pipeline p background) SHELL_PIPELINE_MAX =
    Some (stage_of <$> p, (1 <? alen p) || existsb redirected p || background, background) ∧
  Forall (λ c, (length (c_args c) ≤ 15)%nat → parse_args (st_spawn_cmdline (stage_of c)) = Ok (c_args c)) p.
Proof.
  intros Hp Hl Hok. split.
  2: { apply (Forall_impl _ _ _ Hok). intros c Hc. apply joined_parsed. pose proof (ok_len c Hc).
       unfold SHELL_STAGE_CMDLINE_MAX, USERMODE_CMDLINE_MAX in *. lia. }
  destruct (exists_last Hp) as (q & c & ->). rewrite alen_app in *. change (alen [c]) with 1 in *.
  unfold shell_parse_stages. change (SHELL_PIPELINE_MAX =? 0) with false. cbv iota.
  destruct (reads_pipeline SHELL_PIPELINE_MAX q c [] false Hok ltac:(change (alen (@nil shell_stage)) with 0; lia)) as (n & Ln & R).
  pose proof (print_len (pipeline_signs (q ++ [c]) ++ if background then [SAmp] else [])) as Hf. rewrite length_app in Hf.
  fold (print_pipeline (q ++ [c]) background) in Hf. unfold print_pipeline in *.
  assert (Hstart : cget (print (pipeline_signs (q ++ [c]) ++ if background then [SAmp] else [])) 0 =? NUL = false).
  { destruct (pipeline_signs (q ++ [c])) eqn:E; [|done]. destruct q as [|d q]; [done|]. by destruct q. }
  rewrite Hstart. replace (S (length (print (pipeline_signs (q ++ [c]) ++ if background then [SAmp] else []))))
    with (n + S (length (print (pipeline_signs (q ++ [c]) ++ if background then [SAmp] else [])) - n))%nat by lia.
  change (Z.min SHELL_PIPELINE_MAX SHELL_PIPELINE_MAX) with SHELL_PIPELINE_MAX. rewrite R. cbn [app stages_loop].
  assert (Hc : alen (st_cmd (stage_of c)) =? 0 = false).
  { apply alen_pos. apply Forall_app in Hok as [_ [Hc _]%Forall_cons]. apply Hc. }
  assert (Hm : negb (alen q =? 0) = (1 <? alen q + 1)).
  { pose proof (alen_nonneg q). destruct (Z.eqb_spec (alen q) 0), (Z.ltb_spec 1 (alen q + 1)); (done || lia). }
  rewrite fmap_app. destruct background.
  - rewrite token_print by by apply sign_printable. cbn [sign_kind sign_word]. rewrite Hc. unfold stages_end. rewrite Hc. by rewrite orb_true_r.
  - change (shell_next_token (print []) SHELL_LINE_MAX) with (SHELL_TOK_NONE, @nil Z, @nil Z). cbv iota. unfold stages_end. rewrite Hc.
    cbn [orb]. by rewrite Hm, orb_false_r.
Qed.

(** cat "a b" < in | sort -r '' >> out\;1 & *)
Definition demo_line : list Z :=
  [99; 97; 116; 32; 34; 97; 32; 98; 34; 32; 60; 32; 105; 110; 32; 124; 32; 115; 111; 114; 116; 32; 45; 114; 32; 39; 39; 32;
   62; 62; 32; 111; 117; 116; 92; 59; 49; 32; 38].
Definition demo_pipeline : list command :=
  [Command [99; 97; 116] [[97; 32; 98]] (Some [105; 110]) None None;
   Command [115; 111; 114; 116] [[45; 114]; []] None (Some ([111; 117; 116; 59; 49], true)) None].

Lemma no_nul_dec w : forallb (λ c, negb (c =? NUL)) w = true → no_nul w.
Proof. rewrite forallb_forall. intros H. apply Forall_forall. intros c Hc%list_elem_of_In%H%negb_true_iff. by apply Z.eqb_neq. Qed.

Lemma no_nul_all l : forallb (forallb (λ c, negb (c =? NUL))) l = true → Forall no_nul l.
Proof. rewrite forallb_forall. intros H. apply Forall_forall. intros w Hw%list_elem_of_In%H. by apply no_nul_dec. Qed.

Lemma demo_ok : Forall command_ok demo_pipeline.
Proof.
  assert (Hp : ∀ w, forallb (λ c, negb (c =? NUL)) w && negb (alen w =? 0) && (alen w <? SHELL_PATH_MAX) = true → path_ok w).
  { intros w [[H1%no_nul_dec H2%negb_true_iff]%andb_true_iff H3%Z.ltb_lt]%andb_true_iff. split_and!; [done| |done]. by intros ->. }
  apply Forall_cons; split; [|apply Forall_cons; split; [|constructor]].
  - constructor; [by apply Hp|by apply no_nul_all|done|intros ? [= <-]; by apply Hp|done|done].
  - constructor; [by apply Hp|by apply no_nul_all|done|done|intros ? ? [= <- <-]; by apply Hp|done].
Qed.

Lemma shell_pipeline_roundtrip_witness :
  Forall command_ok demo_pipeline ∧
  shell_parse_stages (print_pipeline demo_pipeline true) SHELL_PIPELINE_MAX = Some (stage_of <$> demo_pipeline, true, true).
Proof.
  split; [exact demo_ok|]. exact (proj1 (shell_pipeline_roundtrip demo_pipeline true ltac:(done) ltac:(done) demo_ok)).
Defined.
