(* ===== verification/ShellRead.v ===== *)
(** userland/sh_slot4.c: what the stages of an accepted line are.

    A grammar of lines (words with quotes and backslashes, signs, blanks) and of
    stages (a command, its arguments and its redirections in any order), told
    without the shell's functions.  Every line that the shell accepts is read by
    it, and the kernel's parser of command lines gives each program exactly the
    arguments that the grammar gives. *)

From S2P Require Import Prelude Bytes CmdLine Shell ShellSpec.

(** * The grammar *)

Definition spaces (p : list Z) : Prop := Forall (λ c, user_is_space c = true) p.

(** A word ends before a blank, a sign, [2>] or the end of the line. *)
Definition word_ends (s : list Z) : Prop :=
  s = [] ∨ user_is_space (cget s 0) = true ∨ cget s 0 ∈ [PIPE; AMP; LESS; GREATER] ∨ (cget s 0 = TWO ∧ cget s 1 = GREATER).

(** [shell_word t s w]: the characters [t], with [s] behind them, are the word [w]. *)
Inductive shell_word : list Z → list Z → list Z → Prop :=
  | ShEnd s : word_ends s → shell_word [] s []
  | ShChar c t s w :
      c ∉ [BACKSLASH; SQUOTE; DQUOTE] → ¬ word_ends (c :: t ++ s) → shell_word t s w → shell_word (c :: t) s (c :: w)
  | ShEsc c t s w : shell_word t s w → shell_word (BACKSLASH :: c :: t) s (c :: w)
  | ShSingle a t s w : SQUOTE ∉ a → shell_word t s w → shell_word (SQUOTE :: a ++ SQUOTE :: t) s (a ++ w)
  | ShDouble a m t s w : dquoted a m → shell_word t s w → shell_word (DQUOTE :: a ++ DQUOTE :: t) s (m ++ w).

(** [lexes line l]: the line is the words and signs [l]; a [>] is not [>>]. *)
Inductive lexes : list Z → list sign → Prop :=
  | LxEnd sp : spaces sp → lexes sp []
  | LxSign sp x s l :
      spaces sp → sign_word x = [] → (∀ w, x ≠ SWord w) → ((x = SOut false ∨ x = SErr false) → cget s 0 ≠ GREATER) →
      lexes s l → lexes (sp ++ sign_text x ++ s) (x :: l)
  | LxWord sp t s w l : spaces sp → t ≠ [] → shell_word t s w → lexes s l → lexes (sp ++ t ++ s) (SWord w :: l).

(** The words and signs of one stage.  The first word that is not empty is the command. *)
Inductive arranged : list sign → command → Prop :=
  | ArNil : arranged [] (Command [] [] None None None)
  | ArCmd l w i o e : arranged l (Command [] [] i o e) → arranged (l ++ [SWord w]) (Command w [] i o e)
  | ArArg l w c a i o e : arranged l (Command c a i o e) → c ≠ [] → arranged (l ++ [SWord w]) (Command c (a ++ [w]) i o e)
  | ArIn l w c a o e : arranged l (Command c a None o e) → w ≠ [] → arranged (l ++ [SIn; SWord w]) (Command c a (Some w) o e)
  | ArOut l w c a i e append :
      arranged l (Command c a i None e) → w ≠ [] → arranged (l ++ [SOut append; SWord w]) (Command c a i (Some (w, append)) e)
  | ArErr l w c a i o append :
      arranged l (Command c a i o None) → w ≠ [] → arranged (l ++ [SErr append; SWord w]) (Command c a i o (Some (w, append))).

(** Stages with [|] between them, and [&] behind them. *)
Fixpoint pipeline_of (segs : list (list sign)) (background : bool) : list sign :=
  match segs with
  | [] => []
  | [l] => l ++ if background then [SAmp] else []
  | l :: segs => l ++ SPipe :: pipeline_of segs background
  end.

(** The strings of a stage fit their arrays with a terminator. *)
Record stage_fits (t : shell_stage) : Prop := StageFits {
  sf_cmdline : alen (st_cmdline t) < SHELL_STAGE_CMDLINE_MAX;
  sf_spawn : alen (st_spawn_cmdline t) < SHELL_STAGE_CMDLINE_MAX;
  sf_cmd : alen (st_cmd t) < SHELL_PATH_MAX;
  sf_in : alen (st_redir_in t) < SHELL_PATH_MAX;
  sf_out : alen (st_redir_out t) < SHELL_PATH_MAX;
  sf_err : alen (st_redir_err t) < SHELL_PATH_MAX
}.

(** The stage made of [seg]: its command, with strings that fit their arrays, and
    the program gets the arguments. *)
Definition stage_reads (seg : list sign) (t : shell_stage) : Prop :=
  ∃ C, arranged seg C ∧ c_cmd C ≠ [] ∧ t = stage_of C ∧ stage_fits t ∧
    ((length (c_args C) ≤ 15)%nat → parse_args (st_spawn_cmdline t) = Ok (c_args C)).

(** * Words *)

Definition loop_reads (line rest out w : list Z) (sg db : bool) : Prop :=
  match sg, db with
  | true, _ => ∃ a t v, line = a ++ SQUOTE :: t ++ rest ∧ SQUOTE ∉ a ∧ shell_word t rest v ∧ w = out ++ a ++ v
  | false, true => ∃ a m t v, line = a ++ DQUOTE :: t ++ rest ∧ dquoted a m ∧ shell_word t rest v ∧ w = out ++ m ++ v
  | false, false => ∃ t v, line = t ++ rest ∧ shell_word t rest v ∧ w = out ++ v
  end.

(** A character is taken as it is. *)
Lemma reads_char c line rest out w sg db :
  (sg = true → c ≠ SQUOTE) → (db = true → c ≠ BACKSLASH ∧ c ≠ DQUOTE) →
  (sg = false → db = false → c ∉ [BACKSLASH; SQUOTE; DQUOTE] ∧ ¬ word_ends (c :: line)) →
  loop_reads line rest (out ++ [c]) w sg db → loop_reads (c :: line) rest out w sg db.
Proof.
  intros H1 H2 H3. unfold loop_reads. destruct sg; [|destruct db].
  - intros (a & t & v & -> & Ha & Ht & ->). exists (c :: a), t, v. split_and!; [done| |done|by rewrite <- app_assoc].
    rewrite not_elem_of_cons. split; [|done]. intros E. by apply H1.
  - intros (a & m & t & v & -> & Ha & Ht & ->). exists (c :: a), (c :: m), t, v. destruct (H2 eq_refl).
    split_and!; [done|by constructor|done|by rewrite <- app_assoc].
  - intros (t & v & -> & Ht & ->). exists (c :: t), (c :: v). destruct (H3 eq_refl eq_refl).
    split_and!; [done|by constructor|by rewrite <- app_assoc].
Qed.

Lemma ends_spec ch line :
  user_is_space ch || (ch =? PIPE) || (ch =? AMP) || (ch =? LESS) || (ch =? GREATER)
    || (ch =? TWO) && (cget line 0 =? GREATER) = true ↔ word_ends (ch :: line).
Proof.
  unfold word_ends. change (cget (ch :: line) 0) with ch. change (cget (ch :: line) 1) with (cget line 0).
  rewrite !orb_true_iff, andb_true_iff, !Z.eqb_eq, !elem_of_cons, elem_of_nil. split; [tauto|]. intros [H|H]; [done|tauto].
Qed.

Lemma token_loop_reads cap line out sg db saw w rest :
  sg && db = false → token_loop cap line out sg db saw = Some (w, rest) → loop_reads line rest out w sg db.
Proof.
  revert out sg db saw. remember (length line) as n eqn:En. revert line En.
  induction (lt_wf n) as [n _ IH]. intros line -> out sg db saw Hm.
  assert (IH' : ∀ line' out sg db saw, (length line' < length line)%nat → sg && db = false →
    token_loop cap line' out sg db saw = Some (w, rest) → loop_reads line' rest out w sg db).
  { intros line' o s d x Hl. apply (IH _ Hl line' eq_refl). }
  clear IH. destruct line as [|ch line]; cbn [token_loop].
  { destruct sg, db, saw; try done. cbn. intros [= <- <-]. exists [], []. split_and!; [done|constructor; by left|by rewrite app_nil_r]. }
  destruct (negb sg && (ch =? BACKSLASH)) eqn:E1.
  { apply andb_true_iff in E1 as [Hsg%negb_true_iff Hch%Z.eqb_eq]. subst sg ch. destruct line as [|c line]; [done|].
    destruct (_ <=? _); [done|]. intros E. apply IH' in E; [|simpl; lia|done]. destruct db.
    - destruct E as (a & m & t & v & -> & Ha & Ht & ->). exists (BACKSLASH :: c :: a), (c :: m), t, v.
      split_and!; [done|by constructor|done|by rewrite <- app_assoc].
    - destruct E as (t & v & -> & Ht & ->). exists (BACKSLASH :: c :: t), (c :: v).
      split_and!; [done|by constructor|by rewrite <- app_assoc]. }
  destruct (negb db && (ch =? SQUOTE)) eqn:E2.
  { apply andb_true_iff in E2 as [Hdb%negb_true_iff Hch%Z.eqb_eq]. subst db ch. intros E.
    apply IH' in E; [|simpl; lia|by rewrite andb_false_r]. destruct sg.
    - destruct E as (t & v & -> & Ht & ->). exists [], t, v. split_and!; [done|set_solver|done|done].
    - destruct E as (a & t & v & -> & Ha & Ht & ->). exists (SQUOTE :: a ++ SQUOTE :: t), (a ++ v).
      split_and!; [by cbn; rewrite <- app_assoc|by constructor|done]. }
  destruct (negb sg && (ch =? DQUOTE)) eqn:E3.
  { apply andb_true_iff in E3 as [Hsg%negb_true_iff Hch%Z.eqb_eq]. subst sg ch. intros E.
    apply IH' in E; [|simpl; lia|done]. destruct db.
    - destruct E as (t & v & -> & Ht & ->). exists [], [], t, v. split_and!; [done|constructor|done|done].
    - destruct E as (a & m & t & v & -> & Ha & Ht & ->). exists (DQUOTE :: a ++ DQUOTE :: t), (m ++ v).
      split_and!; [by cbn; rewrite <- app_assoc|by constructor|done]. }
  destruct (negb sg && negb db && _) eqn:E4.
  { destruct saw; [|done]. cbn. intros [= <- <-]. apply andb_true_iff in E4 as [[Hsg%negb_true_iff Hdb%negb_true_iff]%andb_true_iff E4].
    subst. apply ends_spec in E4. exists [], []. split_and!; [done|by constructor|by rewrite app_nil_r]. }
  destruct (_ <=? _); [done|]. intros E. apply IH' in E; [|simpl; lia|done].
  apply reads_char; [..|done].
  - intros ->. destruct db; [done|]. by apply Z.eqb_neq.
  - intros ->. destruct sg; [done|]. split; by apply Z.eqb_neq.
  - intros -> ->. cbn [negb andb] in *. apply Z.eqb_neq in E1, E2, E3. split; [set_solver|]. rewrite <- ends_spec. by rewrite E4.
Qed.

(** * Tokens *)

Lemma blanks_split line :
  ∃ sp, spaces sp ∧ line = sp ++ shell_skip_spaces line ∧ (shell_skip_spaces line = [] ∨ user_is_space (cget (shell_skip_spaces line) 0) = false).
Proof.
  induction line as [|c line (sp & Hs & E & Hh)]; [exists []; split_and!; [constructor|done|by left]|].
  cbn [shell_skip_spaces]. destruct (user_is_space c) eqn:Ec.
  - exists (c :: sp). split_and!; [by constructor|by rewrite E at 1|done].
  - exists []. split_and!; [constructor|done|by right].
Qed.

(** The token [k] with the word [w] stands at the start of [line], with [rest] behind it. *)
Definition token_reads (line : list Z) (k : shell_token_kind) (w rest : list Z) : Prop :=
  match k with
  | SHELL_TOK_INVALID => True
  | SHELL_TOK_NONE => spaces line
  | SHELL_TOK_WORD => ∃ sp t, spaces sp ∧ line = sp ++ t ++ rest ∧ t ≠ [] ∧ shell_word t rest w
  | _ => ∃ sp x, spaces sp ∧ line = sp ++ sign_text x ++ rest ∧ sign_kind x = k ∧ (∀ v, x ≠ SWord v) ∧
      ((x = SOut false ∨ x = SErr false) → cget rest 0 ≠ GREATER)
  end.

Lemma take_head (l : list Z) c : cget l 0 = c → c ≠ NUL → l = c :: drop 1 l.
Proof. destruct l as [|d l]; [intros <-; done|]. intros <- _. done. Qed.

Lemma next_token_reads line cap k w rest :
  no_nul line → shell_next_token line cap = (k, w, rest) → token_reads line k w rest.
Proof.
  intros Hn. destruct (blanks_split line) as (sp & Hsp & El & Hh). unfold shell_next_token.
  set (l := shell_skip_spaces line) in *. clearbody l.
  assert (Hl : no_nul l) by (rewrite El in Hn; by apply Forall_app in Hn as [_ ?]).
  assert (Hsign : ∀ x n, sign_word x = [] → (∀ v, x ≠ SWord v) → l = sign_text x ++ drop n l →
    ((x = SOut false ∨ x = SErr false) → cget (drop n l) 0 ≠ GREATER) → token_reads line (sign_kind x) [] (drop n l)).
  { intros x n Hw Hx E Hg. assert (Hr : ∃ sp x', spaces sp ∧ line = sp ++ sign_text x' ++ drop n l ∧ sign_kind x' = sign_kind x ∧ (∀ v, x' ≠ SWord v) ∧
      ((x' = SOut false ∨ x' = SErr false) → cget (drop n l) 0 ≠ GREATER)) by (exists sp, x; split_and!; [done|by rewrite <- E|done|done|done]).
    destruct x as [v| | |[]|[]|]; [by destruct (Hx v)|exact Hr..]. }
  destruct (Z.eqb_spec (cget l 0) NUL) as [E|E].
  { intros [= <- <- <-]. destruct l as [|c l]; [by rewrite El, app_nil_r|]. apply Forall_cons in Hl as [Hc _]. by destruct Hc. }
  destruct (Z.eqb_spec (cget l 0) PIPE) as [E1|E1].
  { intros [= <- <- <-]. apply (Hsign SPipe 1%nat); try done; [exact (take_head _ _ E1 ltac:(done))|by intros [?|?]]. }
  destruct (Z.eqb_spec (cget l 0) AMP) as [E2|E2].
  { intros [= <- <- <-]. apply (Hsign SAmp 1%nat); try done; [exact (take_head _ _ E2 ltac:(done))|by intros [?|?]]. }
  destruct (Z.eqb_spec (cget l 0) LESS) as [E3|E3].
  { intros [= <- <- <-]. apply (Hsign SIn 1%nat); try done; [exact (take_head _ _ E3 ltac:(done))|by intros [?|?]]. }
  destruct (Z.eqb_spec (cget l 0) GREATER) as [E4|E4].
  { pose proof (take_head _ _ E4 ltac:(done)) as T. destruct (Z.eqb_spec (cget l 1) GREATER) as [F|F]; intros [= <- <- <-].
    - apply (Hsign (SOut true) 2%nat); try done; [|by intros [?|?]]. rewrite T in F |- *. cbn in F |- *. f_equal.
      exact (take_head _ _ F ltac:(done)).
    - apply (Hsign (SOut false) 1%nat); try done. intros _. by rewrite T in F. }
  destruct (Z.eqb_spec (cget l 0) TWO) as [E5|E5]; [pose proof (take_head _ _ E5 ltac:(done)) as T; destruct (Z.eqb_spec (cget l 1) GREATER) as [F|F]|].
  { assert (T2 : l = TWO :: GREATER :: drop 2 l).
    { rewrite T in F |- *. cbn in F |- *. f_equal. exact (take_head _ _ F ltac:(done)). }
    cbn [andb]. destruct (Z.eqb_spec (cget l 2) GREATER) as [G|G]; intros [= <- <- <-].
    - apply (Hsign (SErr true) 3%nat); try done; [|by intros [?|?]]. rewrite T2 in G |- *. cbn in G |- *. do 2 f_equal.
      exact (take_head _ _ G ltac:(done)).
    - apply (Hsign (SErr false) 2%nat); try done. intros _. by rewrite T2 in G. }
  all: cbn [andb]; destruct (token_loop cap l [] false false false) as [[v r]|] eqn:Et; intros [= <- <- <-]; [|done].
  all: destruct (token_loop_reads _ _ _ false false _ _ _ eq_refl Et) as (t & v' & Ev & Ht & ->); exists sp, t; split_and!; [done|by rewrite <- Ev| |done].
  all: intros ->; cbn [app] in Ev; subst r; inversion Ht as [s Hs| | | |]; subst.
  all: unfold word_ends in Hs; rewrite !elem_of_cons, elem_of_nil in Hs; destruct Hh as [->|Hh]; [by destruct E|].
  all: destruct Hs as [->|[?|[[?|[?|[?|[?|[]]]]]|[? ?]]]]; [by destruct E|congruence..].
Qed.

(** The path behind a redirection. *)
Lemma redirect_reads line w rest :
  no_nul line → redirect_path line = Some (w, rest) →
  w ≠ [] ∧ alen w < SHELL_PATH_MAX ∧ token_reads line SHELL_TOK_WORD w rest.
Proof.
  intros Hn E. destruct (redirect_fits _ _ _ E). split_and!; [done..|]. revert E. unfold redirect_path.
  destruct (shell_next_token line SHELL_LINE_MAX) as [[[] v] r] eqn:Et; try done. destruct (alen v =? 0); [done|].
  destruct (shell_copy_token _ _) as [p|] eqn:Ec; [|done]. intros [= <- <-]. apply copy_token_fits in Ec as [-> _].
  by apply next_token_reads in Et.
Qed.

Lemma no_nul_rest line k w rest : no_nul line → token_reads line k w rest → k ≠ SHELL_TOK_INVALID → k ≠ SHELL_TOK_NONE → no_nul rest.
Proof.
  intros Hn Ht H1 H2. assert (∃ p, line = p ++ rest) as (p & ->); [|by apply Forall_app in Hn as [_ ?]].
  destruct k; try done; destruct Ht as (sp & y & _ & E & _); eexists; by rewrite E, app_assoc.
Qed.

Lemma lex_word line w rest l : token_reads line SHELL_TOK_WORD w rest → lexes rest l → lexes line (SWord w :: l).
Proof. intros (sp & t & Hsp & -> & Ht & Hw) Hl. by constructor. Qed.

Lemma lex_sign line x w rest l :
  token_reads line (sign_kind x) w rest → sign_word x = [] → (∀ v, x ≠ SWord v) → lexes rest l → lexes line (x :: l).
Proof.
  intros H Hw Hx Hl. assert (∃ sp, spaces sp ∧ line = sp ++ sign_text x ++ rest ∧ ((x = SOut false ∨ x = SErr false) → cget rest 0 ≠ GREATER))
    as (sp & Hsp & -> & Hg); [|by constructor].
  destruct x as [v| | |[]|[]|]; [by destruct (Hx v)|destruct H as (sp & y & Hsp & -> & Hk & Hy & Hg)..].
  all: exists sp; destruct y as [v| | |[]|[]|]; try done.
Qed.

(** * Stages *)

(** The words and signs [cur] of the stage that is read have made [t]. *)
Record reading (cur : list sign) (C : command) (t : shell_stage) : Prop := Reading {
  rd_arranged : arranged cur C;
  rd_stage : t = stage_of C;
  rd_words : words t (c_args C)
}.

Lemma reading_start : reading [] (Command [] [] None None None) stage_zero.
Proof. split; [constructor|done|apply words_zero]. Qed.

Lemma arranged_args l C : arranged l C → c_cmd C = [] → c_args C = [].
Proof. induction 1 as [|l w i o e _ _|l w c a i o e _ _ Hc| | |]; cbn in *; done. Qed.

Lemma reading_cmd cur C t w :
  reading cur C t → alen (st_cmd t) =? 0 = true → alen w < SHELL_PATH_MAX →
  ∃ C', reading (cur ++ [SWord w]) C' (set_cmd w t).
Proof.
  intros [Ha -> [? ? ? ? ? ? ?]] Hc%alen_nil Hw. pose proof (arranged_args _ _ Ha Hc) as E. destruct C as [c a i o e]. cbn in Hc, E. subst c a.
  eexists. split; [by apply ArCmd|done|by constructor].
Qed.

Lemma reading_arg cur C t w t' :
  reading cur C t → alen (st_cmd t) =? 0 = false → shell_stage_append_arg w t = Some t' →
  ∃ C', reading (cur ++ [SWord w]) C' t'.
Proof.
  intros [Ha -> Hw] Hc Et. destruct (append_words _ _ _ _ Hw Et) as [Hw' _]. destruct C as [c a i o e].
  exists (Command c (a ++ [w]) i o e). split; [apply ArArg; [done|]|..]; cbn in *.
  - intros ->. by rewrite (proj2 (alen_nil _) eq_refl) in Hc.
  - destruct Hw'. revert Et. unfold shell_stage_append_arg. destruct (_ && _); [done|]. destruct (_ <=? _); [done|].
    destruct (shell_append_escaped_arg _ _ _); [|done]. intros [= <-]. unfold stage_of. cbn in *. rewrite wo_cmdline, wo_spawn. done.
  - done.
Qed.

Lemma reading_in cur C t w :
  reading cur C t → st_has_redir_in t = false → w ≠ [] → alen w < SHELL_PATH_MAX →
  ∃ C', reading (cur ++ [SIn; SWord w]) C' (set_redir_in w t).
Proof.
  intros [Ha -> [? ? ? ? ? ? ?]] Hc Hn Hw. destruct C as [c a [i|] o e]; [done|].
  eexists. split; [by apply ArIn|done|by constructor].
Qed.

Lemma reading_out cur C t w append :
  reading cur C t → st_has_redir_out t = false → w ≠ [] → alen w < SHELL_PATH_MAX →
  ∃ C', reading (cur ++ [SOut append; SWord w]) C' (set_redir_out w append t).
Proof.
  intros [Ha -> [? ? ? ? ? ? ?]] Hc Hn Hw. destruct C as [c a i [o|] e]; [done|].
  eexists. split; [by apply ArOut|done|by constructor].
Qed.

Lemma reading_err cur C t w append :
  reading cur C t → st_has_redir_err t = false → w ≠ [] → alen w < SHELL_PATH_MAX →
  ∃ C', reading (cur ++ [SErr append; SWord w]) C' (set_redir_err w append t).
Proof.
  intros [Ha -> [? ? ? ? ? ? ?]] Hc Hn Hw. destruct C as [c a i o [e|]]; [done|].
  eexists. split; [by apply ArErr|done|by constructor].
Qed.

Lemma reading_reads cur C t : reading cur C t → alen (st_cmd t) =? 0 = false → stage_reads cur t.
Proof.
  intros [Ha -> Hw] Hc. exists C. split_and!; [done| |done| |].
  - intros E. change (alen (c_cmd C) =? 0 = false) in Hc. by rewrite E in Hc.
  - destruct Hw as [H1 H2 H3 ? ? ? ?]. split; try done. rewrite H1. rewrite H2 in H3. pose proof (plain_shorter (c_args C)). lia.
  - intros Hn. destruct Hw as [_ H2 H3 _ _ _ _]. rewrite H2 in *. apply joined_parsed; [|done].
    unfold SHELL_STAGE_CMDLINE_MAX, USERMODE_CMDLINE_MAX in *. lia.
Qed.

Lemma reading_empty cur C t : reading cur C t → alen (st_cmd t) =? 0 = true → c_cmd C = [].
Proof. intros [_ -> _] H. by apply alen_nil in H. Qed.

(** * Lines *)

(** Behind the stages [before] and the signs [cur] of the next one, the rest
    [line] gives the stages [ts]: none when there is no command at all. *)
Definition line_reads (cap : Z) (before : list shell_stage) (cur : list sign) (line : list Z) (ts : list shell_stage) (b : bool) : Prop :=
  ∃ signs seg segs, lexes line signs ∧ cur ++ signs = pipeline_of (seg :: segs) b ∧
    ((ts = [] ∧ before = [] ∧ segs = [] ∧ b = false ∧ ∃ C, arranged seg C ∧ c_cmd C = []) ∨
     (∃ new, ts = before ++ new ∧ alen ts ≤ cap ∧ Forall2 stage_reads (seg :: segs) new)).

Lemma line_reads_more cap before cur more line line' ts b :
  (∀ l, lexes line' l → lexes line (more ++ l)) → line_reads cap before (cur ++ more) line' ts b → line_reads cap before cur line ts b.
Proof.
  intros H (signs & seg & segs & Hl & E & Hr). exists (more ++ signs), seg, segs. split_and!; [by apply H|by rewrite app_assoc|done].
Qed.

Lemma end_reads cap line before cur C t m b ts m' b' :
  alen before < cap → reading cur C t → (b = true → alen (st_cmd t) =? 0 = false) → lexes line (if b then [SAmp] else []) →
  stages_end before t m b = Some (ts, m', b') → line_reads cap before cur line ts b'.
Proof.
  intros Hcap Hr Hb Hl. unfold stages_end. destruct (alen (st_cmd t) =? 0) eqn:Ec.
  - destruct b; [by specialize (Hb eq_refl)|]. destruct (alen before =? 0) eqn:E; [|done]. apply alen_nil in E. subst before. intros [= <- <- <-].
    exists [], cur, []. split_and!; [done|done|]. left. split_and!; [done..|]. exists C. split; [apply Hr|]. by eapply reading_empty.
  - intros [= <- <- <-]. exists (if b then [SAmp] else []), cur, []. split_and!; [done|done|]. right. exists [t].
    split_and!; [done|rewrite alen_app; change (alen [t]) with 1; lia|]. constructor; [|constructor]. by eapply reading_reads.
Qed.

Lemma lex_none line : token_reads line SHELL_TOK_NONE [] [] → lexes line [].
Proof. apply LxEnd. Qed.

(** A sign of a redirection and its path. *)
Lemma lex_redirect line x w rest v rest' l :
  no_nul line → token_reads line (sign_kind x) w rest → sign_word x = [] → (∀ v, x ≠ SWord v) →
  redirect_path rest = Some (v, rest') → lexes rest' l → lexes line ([x; SWord v] ++ l).
Proof.
  intros Hn Ht Hw Hx Hp Hl. assert (Hr : no_nul rest) by (apply (no_nul_rest _ _ _ _ Hn Ht); by destruct x as [| | |[]|[]|]).
  destruct (redirect_reads _ _ _ Hr Hp) as (_ & _ & Hv). apply (lex_sign _ x w rest); [done..|]. by apply (lex_word _ v rest').
Qed.

Section loop.
Context (cap : Z).

Definition loop_sound (fuel : nat) : Prop :=
  ∀ line before cur C t m ts m' b, no_nul line → alen before < cap → reading cur C t →
    stages_loop fuel line cap before t m = Some (ts, m', b) → line_reads cap before cur line ts b.

Lemma redirect_step fuel line before cur C t x w rest (f : list Z → shell_stage) ts m' b :
  loop_sound fuel → no_nul line → alen before < cap → reading cur C t →
  token_reads line (sign_kind x) w rest → sign_word x = [] → (∀ v, x ≠ SWord v) →
  (∀ v, v ≠ [] → alen v < SHELL_PATH_MAX → ∃ C', reading (cur ++ [x; SWord v]) C' (f v)) →
  ('(v, rest) ← redirect_path rest; stages_loop fuel rest cap before (f v) true) = Some (ts, m', b) →
  line_reads cap before cur line ts b.
Proof.
  intros IH Hn Hcap Hr Ht Hw Hx Hf. destruct (redirect_path rest) as [[v rest']|] eqn:Ep; [|done]. cbn [mbind option_bind]. intros E.
  assert (Hrest : no_nul rest) by (apply (no_nul_rest _ _ _ _ Hn Ht); by destruct x as [| | |[]|[]|]).
  destruct (redirect_reads _ _ _ Hrest Ep) as (Hv & Hv' & Hv''). destruct (Hf v Hv Hv') as [C' HC'].
  apply (line_reads_more _ _ _ [x; SWord v] _ rest'); [intros l; by apply (lex_redirect _ x w rest)|].
  eapply IH; [|exact Hcap|exact HC'|exact E]. by apply (no_nul_rest _ _ _ _ Hrest Hv'').
Qed.

Lemma loop_reads_line fuel : loop_sound fuel.
Proof.
  induction fuel as [|fuel IH]; intros line before cur C t m ts m' b Hn Hcap Hr; [done|]. cbn [stages_loop].
  destruct (shell_next_token line SHELL_LINE_MAX) as [[k w] rest] eqn:Et. apply next_token_reads in Et; [|done]. destruct k; [..|done].
  - by apply end_reads with C; [..|apply lex_none].
  - assert (Hrest : no_nul rest) by by eapply no_nul_rest. assert (Hw : ∀ l, lexes rest l → lexes line ([SWord w] ++ l)) by by (intros l; apply lex_word).
    destruct (alen (st_cmd t) =? 0) eqn:Ec.
    + destruct (shell_copy_token _ _) as [v|] eqn:Ev; [|done]. cbn [mbind option_bind]. apply copy_token_fits in Ev as [-> Hv]. intros E.
      destruct (reading_cmd _ _ _ _ Hr Ec Hv) as [C' HC']. apply (line_reads_more _ _ _ [SWord w] _ rest); [done|]. by eapply IH.
    + destruct (shell_stage_append_arg w t) as [t'|] eqn:Ev; [|done]. cbn [mbind option_bind]. intros E.
      destruct (reading_arg _ _ _ _ _ Hr Ec Ev) as [C' HC']. apply (line_reads_more _ _ _ [SWord w] _ rest); [done|]. by eapply IH.
  - assert (Hrest : no_nul rest) by by eapply no_nul_rest.
    destruct (alen (st_cmd t) =? 0) eqn:Ec; [done|]. destruct (Z.leb_spec cap (alen before + 1)); [done|]. intros E.
    apply (IH rest (before ++ [t]) [] (Command [] [] None None None)) in E as (signs & seg & segs & Hl & Ep & Hts);
      [|done|rewrite alen_app; change (alen [t]) with 1; lia|apply reading_start].
    exists (SPipe :: signs), cur, (seg :: segs). split_and!; [by apply (lex_sign _ SPipe w rest)|cbn [app] in Ep; by rewrite Ep|].
    right. destruct Hts as [(_ & E & _)|(new & -> & Hlen & Hf)]; [by apply app_eq_nil in E as [_ ?]|].
    exists (t :: new). rewrite <- app_assoc in Hlen |- *. split_and!; [done|done|]. constructor; [by eapply reading_reads|done].
  - destruct (st_has_redir_in t) eqn:Eh; [done|]. intros E. eapply (redirect_step _ _ _ _ _ _ SIn _ _ (λ w, set_redir_in w t)); try done.
    intros v H1 H2. by apply reading_in with C.
  - destruct (st_has_redir_out t) eqn:Eh; [done|]. intros E. eapply (redirect_step _ _ _ _ _ _ (SOut false) _ _ (λ w, set_redir_out w false t)); try done.
    intros v H1 H2. by apply reading_out with C.
  - destruct (st_has_redir_out t) eqn:Eh; [done|]. intros E. eapply (redirect_step _ _ _ _ _ _ (SOut true) _ _ (λ w, set_redir_out w true t)); try done.
    intros v H1 H2. by apply reading_out with C.
  - destruct (st_has_redir_err t) eqn:Eh; [done|]. intros E. eapply (redirect_step _ _ _ _ _ _ (SErr false) _ _ (λ w, set_redir_err w false t)); try done.
    intros v H1 H2. by apply reading_err with C.
  - destruct (st_has_redir_err t) eqn:Eh; [done|]. intros E. eapply (redirect_step _ _ _ _ _ _ (SErr true) _ _ (λ w, set_redir_err w true t)); try done.
    intros v H1 H2. by apply reading_err with C.
  - assert (Hrest : no_nul rest) by by eapply no_nul_rest.
    destruct (alen (st_cmd t) =? 0) eqn:Ec; [done|]. destruct (shell_next_token rest SHELL_LINE_MAX) as [[[] v] r] eqn:Ev; try done.
    apply next_token_reads in Ev; [|done]. apply end_reads with C; [done..|]. by apply (lex_sign _ SAmp w rest); [..|apply LxEnd].
Qed.
End loop.

(** C20: every line that the shell accepts is read by the grammar.  It is words and
    signs that make stages with [|] between them and [&] behind them or nothing,
    at most eight stages; each has the command, the arguments and the redirections
    that stand in its part of the line, in strings that fit their arrays, and its
    program gets from the kernel exactly those arguments.  A line without any
    command gives no stage. *)
Theorem shell_words_reach_program line stage_cap ts m b :
  no_nul line → 0 ≤ stage_cap → shell_parse_stages line stage_cap = Some (ts, m, b) →
  alen ts ≤ stage_cap `min` SHELL_PIPELINE_MAX ∧
  ((ts = [] ∧ b = false ∧ ∃ l C, lexes line l ∧ arranged l C ∧ c_cmd C = []) ∨
   ∃ segs, segs ≠ [] ∧ lexes line (pipeline_of segs b) ∧ Forall2 stage_reads segs ts).
Proof.
  intros Hn Hcap. unfold shell_parse_stages. destruct (Z.eqb_spec stage_cap 0); [done|].
  assert (H0 : 0 < stage_cap `min` SHELL_PIPELINE_MAX) by (unfold SHELL_PIPELINE_MAX; lia).
  destruct (Z.eqb_spec (cget line 0) NUL) as [E|E].
  { intros [= <- <- <-]. split; [change (alen (@nil shell_stage)) with 0; lia|]. left. split_and!; [done..|]. exists [], (Command [] [] None None None).
    destruct line as [|c line]; [|by apply Forall_cons in Hn as [[] _]]. split_and!; [by apply LxEnd, Forall_nil|constructor|done]. }
  intros Hl. apply (loop_reads_line _ _ _ [] [] (Command [] [] None None None)) in Hl as (signs & seg & segs & Hx & Ep & Hts);
    [|done|done|apply reading_start]. cbn [app] in Ep. subst signs.
  destruct Hts as [(-> & _ & -> & -> & C & HC & Hc)|(new & -> & Hlen & Hf)].
  - split; [change (alen (@nil shell_stage)) with 0; lia|]. left. split_and!; [done..|]. exists (pipeline_of [seg] false), C. cbn [pipeline_of] in Hx |- *.
    by rewrite app_nil_r in Hx |- *.
  - split; [done|]. right. by exists (seg :: segs).
Qed.

Lemma shell_words_reach_program_witness :
  no_nul demo_line ∧ shell_parse_stages demo_line 8 = Some (stage_of <$> demo_pipeline, true, true) ∧
  ∃ segs, lexes demo_line (pipeline_of segs true) ∧ Forall2 stage_reads segs (stage_of <$> demo_pipeline).
Proof.
  assert (Hn : no_nul demo_line) by by apply no_nul_dec.
  assert (Hp : shell_parse_stages demo_line 8 = Some (stage_of <$> demo_pipeline, true, true)) by by vm_compute.
  split_and!; [exact Hn|exact Hp|].
  destruct (shell_words_reach_program demo_line 8 _ _ _ Hn ltac:(done) Hp) as [_ [(E & _)|(segs & _ & H)]]; [discriminate E|exists segs; exact H].
Defined.
