(* ===== verification/ShellVars.v ===== *)
(** userland/sh_slot4.c: the variables of the shell.

    The table [g_shell_vars] of sixteen variables, assignments, and the expansion of
    [$NAME], [${NAME}] and [$?] in a line.  The table refines a finite map of
    bounded size, and expansion is the decision procedure of a grammar. *)

From S2P Require Import Prelude Bytes Decimal CmdLine Shell.

Record shell_var := ShellVar {
  v_used : bool;
  v_exported : bool;
  v_name : list Z;
  v_value : list Z
}.

#[export] Instance shell_var_inhabited : Inhabited shell_var := populate (ShellVar false false [] []).

Definition vars_zero : list shell_var := replicate (Z.to_nat SHELL_VAR_MAX) inhabitant.

Definition shell_var_find_slot (name : list Z) (vars : list shell_var) : option Z :=
  if alen name =? 0 then None
  else
    search_range 0 SHELL_VAR_MAX (λ i,
      let v := vars.[i] in
      if negb (v_used v) || negb (alen (v_name v) =? alen name) then None
      else if user_str_eq_n name (v_name v) (alen name) then Some i else None).

Definition shell_var_alloc_slot (vars : list shell_var) : option Z :=
  search_range 0 SHELL_VAR_MAX (λ i, if negb (v_used vars.[i]) then Some i else None).

(** [set_export] is [None] where the code passes 0 for it.  A failing call changes nothing. *)
Definition shell_var_put (name value : list Z) (set_export : option bool) (vars : list shell_var) : option (list shell_var) :=
  if (alen name =? 0) || (SHELL_VAR_NAME_MAX <? alen name + 1) then None
  else if SHELL_VAR_VALUE_MAX <? alen value + 1 then None
  else
    '(slot, v) ← match shell_var_find_slot name vars with
                  | Some slot => Some (slot, vars.[slot])
                  | None =>
                      slot ← shell_var_alloc_slot vars;
                      Some (slot, ShellVar true false name (v_value vars.[slot]))
                  end;
    Some vars.[slot <- ShellVar (v_used v) (default (v_exported v) set_export) (v_name v) value].

Definition shell_var_mark_exported (name : list Z) (vars : list shell_var) : option (list shell_var) :=
  if (alen name =? 0) || (SHELL_VAR_NAME_MAX <? alen name + 1) then None
  else
    match shell_var_find_slot name vars with
    | None => shell_var_put name [] (Some true) vars
    | Some slot => let v := vars.[slot] in Some vars.[slot <- ShellVar (v_used v) true (v_name v) (v_value v)]
    end.

Definition shell_var_get (name : list Z) (vars : list shell_var) : option (list Z) :=
  slot ← shell_var_find_slot name vars; Some (v_value vars.[slot]).

(** What stands before the first [=], and the rest. *)
Fixpoint split_eq (token : list Z) : list Z * list Z :=
  match token with
  | [] => ([], [])
  | c :: token' => if c =? EQUALS then ([], token) else let '(a, r) := split_eq token' in (c :: a, r)
  end.

(** The name and the value. *)
Definition shell_parse_assignment_token (token : list Z) : option (list Z * list Z) :=
  if alen token <? 3 then None
  else
    let '(name, rest) := split_eq token in
    if (alen name =? 0) || (alen rest =? 0) then None
    else if negb (shell_is_name_start_char (cget token 0)) then None
    else if negb (forallb shell_is_name_char (drop 1 name)) then None
    else Some (name, drop 1 rest).

Definition shell_apply_assignment_token (token : list Z) (exported : bool) (vars : list shell_var) : option (list shell_var) :=
  '(name, value) ← shell_parse_assignment_token token; shell_var_put name value (Some exported) vars.

(** The loop over the words of a line that only assigns; what was assigned stays
    when a later word is no assignment. *)
Fixpoint assignments_loop (fuel : nat) (line : list Z) (handled : bool) (vars : list shell_var) : bool * list shell_var :=
  match fuel with
  | O => (false, vars)
  | S fuel' =>
      match shell_next_token line SHELL_LINE_MAX with
      | (SHELL_TOK_WORD, tok, rest) =>
          match shell_apply_assignment_token tok false vars with
          | None => (false, vars)
          | Some vars => assignments_loop fuel' rest true vars
          end
      | (SHELL_TOK_NONE, _, _) => (handled, vars)
      | _ => (false, vars)
      end
  end.

(** [out_handled]; the status is 0 in every case. *)
Definition shell_try_assignment_only_line (line : list Z) (vars : list shell_var) : bool * list shell_var :=
  assignments_loop (S (length line)) line false vars.

(** * Numbers *)

Definition shell_format_u32 (cap value : Z) : list Z :=
  if cap =? 0 then []
  else if value =? 0 then if cap <? 2 then [] else [48]
  else take (Z.to_nat (cap - 1)) (rev (u32_digits 10 value)).

Definition shell_format_i32 (cap value : Z) : list Z :=
  if cap =? 0 then []
  else if value <? 0 then
    if cap <? 2 then [] else 45 :: shell_format_u32 (cap - 1) (add32 (u32 (- (value + 1))) 1)
  else shell_format_u32 cap value.

(** * Expansion *)

Fixpoint span_until (stop : Z) (s : list Z) : list Z * list Z :=
  match s with
  | [] => ([], [])
  | c :: s' => if c =? stop then ([], s) else let '(a, r) := span_until stop s' in (c :: a, r)
  end.

Fixpoint span_name (s : list Z) : list Z * list Z :=
  match s with
  | [] => ([], [])
  | c :: s' => if shell_is_name_char c then let '(a, r) := span_name s' in (c :: a, r) else ([], s)
  end.

Section expand.
Context (status : Z) (vars : list shell_var) (cap : Z).

(** [out] with [bs] copied behind it. *)
Definition emit (out bs : list Z) : option (list Z) := if cap <? alen out + alen bs + 1 then None else Some (out ++ bs).

(** A variable that is not set stands for nothing. *)
Definition var_value (name : list Z) : list Z := default [] (shell_var_get name vars).

Fixpoint expand_loop (fuel : nat) (src out : list Z) (in_single in_double : bool) : option (list Z) :=
  match fuel, src with
  | O, _ => None
  | S _, [] => if in_single || in_double then None else Some out
  | S fuel', ch :: src' =>
      if ch =? BACKSLASH then
        out ← emit out [ch];
        match src' with
        | [] => if in_single || in_double then None else Some out
        | c :: src'' => out ← emit out [c]; expand_loop fuel' src'' out in_single in_double
        end
      else if negb in_double && (ch =? SQUOTE) then
        out ← emit out [ch]; expand_loop fuel' src' out (negb in_single) in_double
      else if negb in_single && (ch =? DQUOTE) then
        out ← emit out [ch]; expand_loop fuel' src' out in_single (negb in_double)
      else if negb in_single && (ch =? DOLLAR) && (cget src' 0 =? QUESTION) then
        out ← emit out (shell_format_i32 16 status); expand_loop fuel' (drop 1 src') out in_single in_double
      else if negb in_single && (ch =? DOLLAR) && (cget src' 0 =? LBRACE) then
        let '(name, rest) := span_until RBRACE (drop 1 src') in
        if negb (cget rest 0 =? RBRACE) || (alen name =? 0) || negb (shell_is_name_start_char (cget name 0)) then None
        else if negb (forallb shell_is_name_char (drop 1 name)) then None
        else out ← emit out (var_value name); expand_loop fuel' (drop 1 rest) out in_single in_double
      else if negb in_single && (ch =? DOLLAR) && shell_is_name_start_char (cget src' 0) then
        let '(more, rest) := span_name (drop 1 src') in
        out ← emit out (var_value (cget src' 0 :: more)); expand_loop fuel' rest out in_single in_double
      else out ← emit out [ch]; expand_loop fuel' src' out in_single in_double
  end.

(** Every round passes a character. *)
Definition shell_expand_vars (src : list Z) : option (list Z) :=
  if cap =? 0 then None else expand_loop (S (length src)) src [] false false.
End expand.

(** * The table is a map *)

Abbreviation var_map := (gmap (list Z) (list Z * bool)).

Definition entry (v : shell_var) : option (list Z * (list Z * bool)) :=
  if v_used v then Some (v_name v, (v_value v, v_exported v)) else None.

Definition var_slot (i : Z) : Prop := 0 ≤ i < SHELL_VAR_MAX.

(** [rep vars M]: the table holds the variables of [M], each in one slot. *)
Record rep (vars : list shell_var) (M : var_map) : Prop := Rep {
  rep_len : alen vars = SHELL_VAR_MAX;
  rep_has k e : M !! k = Some e ↔ ∃ i, var_slot i ∧ entry vars.[i] = Some (k, e);
  rep_name i : var_slot i → v_used vars.[i] = true → v_name vars.[i] ≠ [] ∧ no_nul (v_name vars.[i]);
  rep_once i j : var_slot i → var_slot j → v_used vars.[i] = true → v_used vars.[j] = true →
    v_name vars.[i] = v_name vars.[j] → i = j;
  rep_size : Z.of_nat (size M) = count_range (λ i, v_used vars.[i]) SHELL_VAR_MAX
}.

(** What a user sees: at most sixteen variables with short names and values. *)
Definition map_put (name value : list Z) (set_export : option bool) (M : var_map) : option var_map :=
  if decide (name = [] ∨ SHELL_VAR_NAME_MAX ≤ alen name ∨ SHELL_VAR_VALUE_MAX ≤ alen value) then None
  else
    match M !! name with
    | Some (_, x) => Some (<[name := (value, default x set_export)]> M)
    | None =>
        if decide (SHELL_VAR_MAX ≤ Z.of_nat (size M)) then None
        else Some (<[name := (value, default false set_export)]> M)
    end.

Definition map_export (name : list Z) (M : var_map) : option var_map :=
  match M !! name with
  | Some (value, _) =>
      if decide (SHELL_VAR_NAME_MAX ≤ alen name) then None else Some (<[name := (value, true)]> M)
  | None => map_put name [] (Some true) M
  end.

Lemma entry_some v k e : entry v = Some (k, e) ↔ v_used v = true ∧ v_name v = k ∧ e = (v_value v, v_exported v).
Proof. unfold entry. destruct (v_used v); split; [intros [= <- <-]|intros (_ & <- & ->)| |intros (? & _)]; done. Qed.

Lemma rep_zero : rep vars_zero ∅.
Proof.
  assert (H : ∀ i, var_slot i → vars_zero.[i] = ShellVar false false [] []).
  { intros i Hi. unfold vars_zero. apply aget_replicate. done. }
  constructor.
  - done.
  - intros k e. rewrite lookup_empty. split; [done|]. intros (i & Hi & E). by rewrite H in E.
  - intros i Hi. by rewrite H.
  - intros i j Hi. by rewrite H.
  - done.
Qed.

Section table.
Context (vars : list shell_var) (M : var_map) (HR : rep vars M).

Lemma find_some name i : no_nul name →
  shell_var_find_slot name vars = Some i → var_slot i ∧ v_used vars.[i] = true ∧ v_name vars.[i] = name.
Proof using HR.
  intros Hn. unfold shell_var_find_slot. destruct (alen name =? 0); [done|]. intros (j & Hj & E & _)%search_range_Some.
  cbv zeta in E. destruct (v_used vars.[j]) eqn:Eu; [|done]. destruct (alen (v_name vars.[j]) =? alen name); [|done]. cbn [negb orb] in E.
  destruct (user_str_eq_n _ _ _) eqn:Eq; [|done]. injection E as <-. split; [done|]. split; [done|].
  unfold user_str_eq_n in Eq. apply name_eq_spec in Eq; [|by apply (rep_name _ _ HR)|split; [apply alen_nonneg|done]].
  rewrite Eq. unfold alen. rewrite Nat2Z.id. by rewrite firstn_all.
Qed.

Lemma find_at name i : no_nul name → name ≠ [] → var_slot i → v_used vars.[i] = true → v_name vars.[i] = name →
  shell_var_find_slot name vars = Some i.
Proof using HR.
  intros Hn Hne Hi Hu Hv.
  assert (Hat : ∀ j, var_slot j → v_used vars.[j] = true → v_name vars.[j] = name → j = i).
  { intros j Hj Hju Hjv. apply (rep_once _ _ HR); congruence. }
  destruct (shell_var_find_slot name vars) as [j|] eqn:E.
  - apply find_some in E as (Hj & Hju & Hjv); [|done]. f_equal. by apply Hat.
  - exfalso. unfold shell_var_find_slot in E. destruct (Z.eqb_spec (alen name) 0) as [E0|]; [by destruct name|].
    rewrite search_range_None in E. specialize (E i Hi). cbv zeta in E. rewrite Hu, Hv, Z.eqb_refl in E. cbn [negb orb] in E.
    destruct (user_str_eq_n _ _ _) eqn:Eq; [done|]. apply not_true_iff_false in Eq. apply Eq. unfold user_str_eq_n.
    apply name_eq_spec; [done|split; [apply alen_nonneg|done]|]. unfold alen. rewrite Nat2Z.id. by rewrite firstn_all.
Qed.

Lemma find_lookup name : no_nul name → name ≠ [] →
  match shell_var_find_slot name vars with
  | Some i => var_slot i ∧ v_used vars.[i] = true ∧ v_name vars.[i] = name ∧ M !! name = Some (v_value vars.[i], v_exported vars.[i])
  | None => M !! name = None
  end.
Proof using HR.
  intros Hn Hne. destruct (shell_var_find_slot name vars) as [i|] eqn:E.
  - destruct (find_some name i Hn E) as (Hi & Hu & Hv). split_and!; try done. apply (rep_has _ _ HR). exists i. split; [done|].
    by apply entry_some.
  - destruct (M !! name) as [e|] eqn:EM; [|done]. apply (rep_has _ _ HR) in EM as (i & Hi & (Hu & Hv & _)%entry_some).
    by rewrite (find_at name i) in E.
Qed.

(** Writing a slot. *)
Lemma rep_write i name value x (old : bool) :
  var_slot i → no_nul name → name ≠ [] → v_used vars.[i] = old →
  (if old then v_name vars.[i] = name else M !! name = None) →
  rep vars.[i <- ShellVar true x name value] (<[name := (value, x)]> M).
Proof using HR.
  intros Hi Hn Hne Hu Hold. pose proof (rep_len _ _ HR) as Hl.
  assert (Hget : ∀ j, var_slot j → vars.[i <- ShellVar true x name value].[j] = if decide (i = j) then ShellVar true x name value else vars.[j]).
  { intros j Hj. apply aget_aset; [by rewrite Hl|apply Hj]. }
  assert (Hoth : ∀ j, var_slot j → i ≠ j → v_used vars.[j] = true → v_name vars.[j] ≠ name).
  { intros j Hj Hij Hju Hjv. destruct old.
    - apply Hij, (rep_once _ _ HR); congruence.
    - assert (M !! name = Some (v_value vars.[j], v_exported vars.[j])); [|congruence]. apply (rep_has _ _ HR). exists j.
      split; [done|]. by apply entry_some. }
  constructor.
  - by rewrite alen_aset.
  - intros k e. destruct (decide (k = name)) as [->|Hk].
    + rewrite lookup_insert_eq. split.
      * intros [= <-]. exists i. split; [done|]. rewrite Hget, decide_True by done. done.
      * intros (j & Hj & E). rewrite Hget in E by done. case_decide as Hij; [by injection E as <-|].
        apply entry_some in E as (H1 & H2 & _). by destruct (Hoth j).
    + rewrite lookup_insert_ne by done. rewrite (rep_has _ _ HR). split.
      * intros (j & Hj & E). exists j. split; [done|]. rewrite Hget by done. case_decide as Hij; [|done]. subst j.
        apply entry_some in E as (H1 & H2 & _). destruct old; congruence.
      * intros (j & Hj & E). rewrite Hget in E by done. case_decide; [by injection E as <- _|]. by exists j.
  - intros j Hj. rewrite Hget by done. case_decide; [done|]. by apply (rep_name _ _ HR).
  - intros j k Hj Hk. rewrite !Hget by done. do 2 case_decide; subst; cbn; try done; [|intros H1 H2 H3|by apply (rep_once _ _ HR)].
    + intros H1 H2 H3. exfalso. by apply (Hoth k).
    + exfalso. by apply (Hoth j).
  - rewrite (count_range_update _ (λ j, v_used vars.[j]) _ i).
    + rewrite Hget, decide_True by done. cbn [v_used]. rewrite Hu, <- (rep_size _ _ HR). destruct old.
      * assert (M !! name = Some (v_value vars.[i], v_exported vars.[i])) as Hm.
        { apply (rep_has _ _ HR). exists i. split; [done|]. by apply entry_some. }
        rewrite map_size_insert, Hm. cbn. lia.
      * rewrite map_size_insert, Hold. cbn. lia.
    + done.
    + intros j Hj Hij. rewrite Hget by done. by rewrite decide_False by done.
Qed.

Lemma alloc_spec :
  match shell_var_alloc_slot vars with
  | Some i => var_slot i ∧ v_used vars.[i] = false ∧ Z.of_nat (size M) < SHELL_VAR_MAX
  | None => SHELL_VAR_MAX ≤ Z.of_nat (size M)
  end.
Proof using HR.
  rewrite (rep_size _ _ HR). unfold shell_var_alloc_slot. destruct (search_range _ _ _) as [i|] eqn:E.
  - apply search_range_Some in E as (j & Hj & E & _). destruct (v_used vars.[j]) eqn:Eu; [done|]. injection E as <-.
    split; [done|]. split; [done|].
    pose proof (count_range_update (λ i, bool_decide (i = j) || v_used vars.[i]) (λ i, v_used vars.[i]) SHELL_VAR_MAX j Hj) as H.
    cbv beta in H. rewrite bool_decide_true, Eu in H by done. cbn [orb b2z] in H.
    pose proof (count_range_bounds (λ i, bool_decide (i = j) || v_used vars.[i]) SHELL_VAR_MAX ltac:(done)) as Hb.
    rewrite H in Hb; [lia|]. intros i _ Hij. by rewrite bool_decide_false.
  - rewrite search_range_None in E. rewrite (count_range_ext _ (λ _, true)); [done|].
    intros i Hi. specialize (E i Hi). by destruct (v_used vars.[i]).
Qed.

Lemma put_spec name value x : no_nul name →
  match shell_var_put name value x vars, map_put name value x M with
  | Some vars', Some M' => rep vars' M'
  | None, None => True
  | _, _ => False
  end.
Proof using HR.
  intros Hn. unfold shell_var_put, map_put. destruct (Z.eqb_spec (alen name) 0) as [E0|E0]; cbn [orb].
  { rewrite decide_True; [done|]. left. by destruct name. }
  assert (Hne : name ≠ []) by (by intros ->). destruct (Z.ltb_spec SHELL_VAR_NAME_MAX (alen name + 1)).
  { rewrite decide_True; [done|]. right. left. lia. }
  destruct (Z.ltb_spec SHELL_VAR_VALUE_MAX (alen value + 1)).
  { rewrite decide_True; [done|]. right. right. lia. }
  rewrite decide_False by (intros [?|[?|?]]; [done|lia|lia]).
  pose proof (find_lookup name Hn Hne) as Hf. destruct (shell_var_find_slot name vars) as [i|].
  - destruct Hf as (Hi & Hu & Hv & ->). cbn. rewrite Hu, Hv. by apply (rep_write i name value _ true).
  - rewrite Hf. pose proof alloc_spec as Ha. destruct (shell_var_alloc_slot vars) as [i|]; cbn.
    + destruct Ha as (Hi & Hu & Hs). rewrite decide_False by lia. by apply (rep_write i name value _ false).
    + by rewrite decide_True by done.
Qed.

Lemma export_spec name : no_nul name → name ≠ [] →
  match shell_var_mark_exported name vars, map_export name M with
  | Some vars', Some M' => rep vars' M'
  | None, None => True
  | _, _ => False
  end.
Proof using HR.
  intros Hn Hne. unfold shell_var_mark_exported, map_export. pose proof (find_lookup name Hn Hne) as Hf.
  destruct (Z.eqb_spec (alen name) 0) as [E0|E0]; [by destruct name|]. cbn [orb].
  destruct (Z.ltb_spec SHELL_VAR_NAME_MAX (alen name + 1)).
  { destruct (M !! name) as [[value x]|]; [by rewrite decide_True by lia|]. unfold map_put. rewrite decide_True; [done|]. right. left. lia. }
  destruct (shell_var_find_slot name vars) as [i|].
  - destruct Hf as (Hi & Hu & Hv & ->). rewrite decide_False by lia. rewrite Hu, Hv. by apply (rep_write i name _ _ true).
  - rewrite Hf. by apply put_spec.
Qed.

Lemma get_spec name : no_nul name → name ≠ [] → shell_var_get name vars = fst <$> M !! name.
Proof using HR.
  intros Hn Hne. unfold shell_var_get. pose proof (find_lookup name Hn Hne) as Hf. destruct (shell_var_find_slot name vars) as [i|].
  - destruct Hf as (_ & _ & _ & ->). done.
  - by rewrite Hf.
Qed.
End table.

(** What the shell does with variables. *)
Inductive var_op := VarPut (name value : list Z) (set_export : option bool) | VarExport (name : list Z).

Definition var_op_name (op : var_op) : list Z := match op with VarPut name _ _ => name | VarExport name => name end.
Definition var_op_ok (op : var_op) : Prop := no_nul (var_op_name op) ∧ var_op_name op ≠ [].

Definition run_op (op : var_op) (vars : list shell_var) : option (list shell_var) :=
  match op with
  | VarPut name value x => shell_var_put name value x vars
  | VarExport name => shell_var_mark_exported name vars
  end.

Definition map_op (op : var_op) (M : var_map) : option var_map :=
  match op with VarPut name value x => map_put name value x M | VarExport name => map_export name M end.

(** Which calls succeed, and the state after the last one. *)
Fixpoint run_ops {S} (f : var_op → S → option S) (ops : list var_op) (s : S) : list bool * S :=
  match ops with
  | [] => ([], s)
  | op :: ops =>
      match f op s with
      | Some s => let '(l, s) := run_ops f ops s in (true :: l, s)
      | None => let '(l, s) := run_ops f ops s in (false :: l, s)
      end
  end.

Lemma op_spec op vars M : rep vars M → var_op_ok op →
  match run_op op vars, map_op op M with
  | Some vars', Some M' => rep vars' M'
  | None, None => True
  | _, _ => False
  end.
Proof. intros HR [Hn Hne]. destruct op as [name value x|name]; [by apply put_spec|by apply export_spec]. Qed.

Lemma ops_spec ops vars M : rep vars M → Forall var_op_ok ops →
  fst (run_ops run_op ops vars) = fst (run_ops map_op ops M) ∧ rep (snd (run_ops run_op ops vars)) (snd (run_ops map_op ops M)).
Proof.
  intros HR Hok. revert vars M HR. induction Hok as [|op ops Hop Hok IH]; intros vars M HR; [done|]. cbn [run_ops].
  pose proof (op_spec op vars M HR Hop) as H.
  destruct (run_op op vars) as [vars'|], (map_op op M) as [M'|]; try done.
  - destruct (IH vars' M' H) as [E HR']. destruct (run_ops run_op ops vars'), (run_ops map_op ops M'). cbn in *. by subst.
  - destruct (IH vars M HR) as [E HR']. destruct (run_ops run_op ops vars), (run_ops map_op ops M). cbn in *. by subst.
Qed.

(** C18: over any assignments and exports from the start of the shell, the table of
    variables is a map of at most sixteen entries: the same calls succeed, a
    variable has the value and the export mark that the map has, and looking up a
    name gives the map's value, or nothing where the map has none. *)
Theorem shell_vars_refine ops :
  Forall var_op_ok ops →
  let '(oks, vars) := run_ops run_op ops vars_zero in
  let '(oks', M) := run_ops map_op ops ∅ in
  oks = oks' ∧ rep vars M ∧ (size M ≤ 16)%nat ∧
  ∀ name, no_nul name → name ≠ [] → shell_var_get name vars = fst <$> M !! name.
Proof.
  intros Hok. destruct (ops_spec ops vars_zero ∅ rep_zero Hok) as [E HR].
  destruct (run_ops run_op ops vars_zero) as [oks vars], (run_ops map_op ops ∅) as [oks' M]. cbn in E, HR.
  split; [done|]. split; [done|]. split.
  - pose proof (count_range_bounds (λ i, v_used vars.[i]) SHELL_VAR_MAX ltac:(done)) as Hb. rewrite <- (rep_size _ _ HR) in Hb.
    unfold SHELL_VAR_MAX in Hb. lia.
  - intros name. by apply get_spec.
Qed.

(** A=x; export B; A=y *)
Lemma shell_vars_refine_witness :
  let ops := [VarPut [65] [120] (Some false); VarExport [66]; VarPut [65] [121] (Some false)] in
  Forall var_op_ok ops ∧ shell_var_get [65] (snd (run_ops run_op ops vars_zero)) = Some [121] ∧
  shell_var_get [65] (snd (run_ops run_op ops vars_zero)) = fst <$> snd (run_ops map_op ops ∅) !! [65].
Proof.
  set (ops := [VarPut [65] [120] (Some false); VarExport [66]; VarPut [65] [121] (Some false)]).
  assert (Hok : Forall var_op_ok ops) by (repeat constructor; done).
  split; [exact Hok|]. split; [reflexivity|]. pose proof (shell_vars_refine ops Hok) as H.
  destruct (run_ops run_op ops vars_zero), (run_ops map_op ops ∅). apply H; [by repeat constructor|done].
Defined.
