(* ===== verification/ShellExpand.v ===== *)
(** userland/sh_slot4.c: the expansion of variables is the decision procedure of a
    grammar.

    Outside single quotes [$?], [${NAME}] and [$NAME] stand for the last status and
    for the values of variables; a backslash keeps the next character, in single
    quotes too. *)

From S2P Require Import Prelude Bytes Decimal CmdLine Shell ShellSpec ShellVars.

Definition is_name (name : list Z) : Prop :=
  shell_is_name_start_char (cget name 0) = true ∧ Forall (λ c, shell_is_name_char c = true) (drop 1 name).

(** What stands between single quotes. *)
Inductive squoted : list Z → Prop :=
  | QEnd : squoted []
  | QChar c s : c ≠ BACKSLASH → c ≠ SQUOTE → squoted s → squoted (c :: s)
  | QEsc c s : squoted s → squoted (BACKSLASH :: c :: s).

(** After [$]: nothing that would make it a reference. *)
Definition no_reference (s : list Z) : Prop :=
  cget s 0 ≠ QUESTION ∧ cget s 0 ≠ LBRACE ∧ shell_is_name_start_char (cget s 0) = false.

Section grammar.
Context (status : Z) (vars : list shell_var).

(** [expands dq s m]: the text [s], within double quotes if [dq], becomes [m]. *)
Inductive expands : bool → list Z → list Z → Prop :=
  | XEnd dq : expands dq [] []
  | XLast : expands false [BACKSLASH] [BACKSLASH]
  | XEsc dq c s m : expands dq s m → expands dq (BACKSLASH :: c :: s) (BACKSLASH :: c :: m)
  | XSingle a s m : squoted a → expands false s m → expands false (SQUOTE :: a ++ SQUOTE :: s) (SQUOTE :: a ++ SQUOTE :: m)
  | XDouble a b s m :
      expands true a b → expands false s m → expands false (DQUOTE :: a ++ DQUOTE :: s) (DQUOTE :: b ++ DQUOTE :: m)
  | XStatus dq s m : expands dq s m → expands dq (DOLLAR :: QUESTION :: s) (shell_format_i32 16 status ++ m)
  | XBrace dq name s m :
      is_name name → expands dq s m → expands dq (DOLLAR :: LBRACE :: name ++ RBRACE :: s) (var_value vars name ++ m)
  | XName dq name s m :
      is_name name → shell_is_name_char (cget s 0) = false → expands dq s m →
      expands dq (DOLLAR :: name ++ s) (var_value vars name ++ m)
  | XChar dq c s m :
      c ≠ BACKSLASH → c ≠ DQUOTE → (c = SQUOTE → dq = true) → (c = DOLLAR → no_reference s) →
      expands dq s m → expands dq (c :: s) (c :: m).

(** * Soundness *)

Definition loop_sound (src out dst : list Z) (in_single in_double : bool) : Prop :=
  match in_single, in_double with
  | true, _ => ∃ a s m, src = a ++ SQUOTE :: s ∧ squoted a ∧ expands false s m ∧ dst = out ++ a ++ SQUOTE :: m
  | false, true => ∃ a b s m, src = a ++ DQUOTE :: s ∧ expands true a b ∧ expands false s m ∧ dst = out ++ b ++ DQUOTE :: m
  | false, false => ∃ m, expands false src m ∧ dst = out ++ m
  end.

Context (cap : Z).

Lemma emit_some out bs out' : emit cap out bs = Some out' → out' = out ++ bs ∧ alen out' < cap.
Proof.
  unfold emit. destruct (Z.ltb_spec cap (alen out + alen bs + 1)); [done|]. intros [= <-]. rewrite alen_app. split; [done|lia].
Qed.

Lemma emit_ok out bs : alen out + alen bs < cap → emit cap out bs = Some (out ++ bs).
Proof. intros H. unfold emit. by rewrite (proj2 (Z.ltb_ge _ _)) by lia. Qed.

Lemma emit_one out c : alen out + 1 < cap → emit cap out [c] = Some (out ++ [c]).
Proof. intros H. apply emit_ok. exact H. Qed.

(** A part that is not inside single quotes and its text put before the rest. *)
Lemma sound_part (p t : list Z) src out dst db :
  (∀ s m, (s ≠ [] → cget s 0 = cget src 0) → expands db s m → expands db (p ++ s) (t ++ m)) →
  loop_sound src (out ++ t) dst false db → loop_sound (p ++ src) out dst false db.
Proof.
  intros Hp Hr. destruct db.
  - destruct Hr as (a & b & s & m & -> & Ha & Hs & ->). exists (p ++ a), (t ++ b), s, m.
    split_and!; [by rewrite <- app_assoc| |done|by rewrite <- !app_assoc]. apply Hp; try done. by destruct a.
  - destruct Hr as (m & Hs & ->). exists (t ++ m). split; [|by rewrite <- app_assoc]. by apply Hp.
Qed.

Lemma span_until_spec stop s a r : span_until stop s = (a, r) → s = a ++ r ∧ stop ∉ a ∧ (r = [] ∨ cget r 0 = stop).
Proof.
  revert a r. induction s as [|c s IH]; intros a r; cbn; [intros [= <- <-]; split_and!; [done|set_solver|by left]|].
  destruct (Z.eqb_spec c stop) as [->|Hc]; [intros [= <- <-]; split_and!; [done|set_solver|by right]|].
  destruct (span_until stop s) as [a' r'] eqn:E. intros [= <- <-]. destruct (IH a' r' eq_refl) as (-> & H1 & H2).
  split_and!; [done| |done]. by apply not_elem_of_cons.
Qed.

Lemma span_name_spec s a r : span_name s = (a, r) →
  s = a ++ r ∧ Forall (λ c, shell_is_name_char c = true) a ∧ shell_is_name_char (cget r 0) = false.
Proof.
  revert a r. induction s as [|c s IH]; intros a r; cbn; [intros [= <- <-]; split_and!; [done|constructor|done]|].
  destruct (shell_is_name_char c) eqn:Ec; [|intros [= <- <-]; split_and!; [done|constructor|done]].
  destruct (span_name s) as [a' r'] eqn:E. intros [= <- <-]. destruct (IH a' r' eq_refl) as (-> & H1 & H2).
  split_and!; [done|by constructor|done].
Qed.

Lemma name_forall l : forallb shell_is_name_char l = true ↔ Forall (λ c, shell_is_name_char c = true) l.
Proof. rewrite forallb_forall, Forall_forall. split; intros H c Hc; apply H; by apply list_elem_of_In. Qed.

Lemma start_char c : shell_is_name_start_char c = true → shell_is_name_char c = true ∧ c ≠ NUL ∧ c ≠ QUESTION ∧ c ≠ LBRACE ∧ c ≠ RBRACE.
Proof.
  intros H. split; [unfold shell_is_name_char; by rewrite H|]. by split_and!; intros ->.
Qed.

Lemma name_char_nul : shell_is_name_char NUL = false.
Proof. done. Qed.

Lemma cget_cons (c : Z) s : cget (c :: s) 0 = c.
Proof. done. Qed.

Lemma loop_soundness fuel src out dst sg db :
  sg && db = false → expand_loop status vars cap fuel src out sg db = Some dst → loop_sound src out dst sg db ∧
    (alen out < cap → alen dst < cap).
Proof.
  revert src out sg db. induction fuel as [|fuel IH]; intros src out sg db Hm; [done|]. cbn [expand_loop].
  destruct src as [|ch src].
  { destruct sg, db; try done. intros [= <-]. split; [|done]. exists []. split; [constructor|by rewrite app_nil_r]. }
  assert (Hgo : ∀ q o' sg' db', sg' && db' = false → ∀ bs, (o ← emit cap out bs; expand_loop status vars cap fuel q o sg' db') = Some dst →
    o' = out ++ bs → loop_sound q o' dst sg' db' ∧ alen dst < cap).
  { intros q o' sg' db' Hm' bs E ->. destruct (emit cap out bs) as [o|] eqn:Ee; [|done]. apply emit_some in Ee as [-> Hl]. cbn in E.
    apply IH in E as [E1 E2]; [|done]. split; [done|]. by apply E2. }
  destruct (Z.eqb_spec ch BACKSLASH) as [->|Hb].
  { destruct (emit cap out [BACKSLASH]) as [o|] eqn:Ee; [|done]. cbn [mbind option_bind]. apply emit_some in Ee as [-> Hl].
    destruct src as [|c src].
    { destruct sg, db; try done. intros [= <-]. split; [|done]. exists [BACKSLASH]. split; [constructor|done]. }
    destruct (emit cap (out ++ [BACKSLASH]) [c]) as [o|] eqn:Ee; [|done]. cbn [mbind option_bind]. apply emit_some in Ee as [-> Hl2].
    rewrite <- app_assoc. cbn [app]. intros E. apply IH in E as [E1 E2]; [|done]. split; [|rewrite <- app_assoc in Hl2; auto].
    destruct sg.
    - destruct E1 as (a & s & m & -> & Ha & Hs & ->). exists (BACKSLASH :: c :: a), s, m. split_and!; [done|by constructor|done|by rewrite <- app_assoc].
    - apply (sound_part [BACKSLASH; c] [BACKSLASH; c]); [|done]. intros s m _ Hx. by constructor. }
  destruct (negb db && (ch =? SQUOTE)) eqn:E1.
  { apply andb_true_iff in E1 as [Hdb%negb_true_iff Hch%Z.eqb_eq]. subst db ch.
    intros E. apply (Hgo src (out ++ [SQUOTE])) in E as [E1 E2]; [|by rewrite andb_false_r|done]. split; [|done]. destruct sg; cbn [negb] in E1.
    - destruct E1 as (m & Hs & ->). exists [], src, m. split_and!; [done|constructor|done|by rewrite <- app_assoc].
    - destruct E1 as (a & s & m & -> & Ha & Hs & ->). exists (SQUOTE :: a ++ SQUOTE :: m). split; [by constructor|by rewrite <- app_assoc]. }
  destruct (negb sg && (ch =? DQUOTE)) eqn:E2.
  { apply andb_true_iff in E2 as [Hsg%negb_true_iff Hch%Z.eqb_eq]. subst sg ch.
    intros E. apply (Hgo src (out ++ [DQUOTE])) in E as [E2 E3]; [|done|done]. split; [|done]. destruct db; cbn [negb] in E2.
    - destruct E2 as (m & Hs & ->). exists [], [], src, m. split_and!; [done|constructor|done|by rewrite <- app_assoc].
    - destruct E2 as (a & b & s & m & -> & Ha & Hs & ->). exists (DQUOTE :: b ++ DQUOTE :: m). split; [by constructor|by rewrite <- app_assoc]. }
  destruct (negb sg && (ch =? DOLLAR) && (cget src 0 =? QUESTION)) eqn:E3.
  { apply andb_true_iff in E3 as [[Hsg%negb_true_iff Hch%Z.eqb_eq]%andb_true_iff Hq%Z.eqb_eq]. subst sg ch.
    destruct src as [|q src]; [done|]. rewrite cget_cons in Hq. subst q. cbn [drop]. rewrite drop_0.
    intros E. eapply Hgo in E as [E3 E4]; [|done|reflexivity]. split; [|done].
    apply (sound_part [DOLLAR; QUESTION] (shell_format_i32 16 status)); [|done]. intros s m _ Hx. by constructor. }
  destruct (negb sg && (ch =? DOLLAR) && (cget src 0 =? LBRACE)) eqn:E4.
  { apply andb_true_iff in E4 as [[Hsg%negb_true_iff Hch%Z.eqb_eq]%andb_true_iff Hq%Z.eqb_eq]. subst sg ch.
    destruct src as [|q src]; [done|]. rewrite cget_cons in Hq. subst q. cbn [drop]. rewrite drop_0.
    destruct (span_until RBRACE src) as [name rest] eqn:Es. apply span_until_spec in Es as (-> & Hno & Hr).
    destruct (Z.eqb_spec (cget rest 0) RBRACE) as [Hrest|]; [|done]. cbn [negb orb]. destruct (alen name =? 0); [done|]. cbn [orb].
    destruct (shell_is_name_start_char (cget name 0)) eqn:Hst; [|done]. cbn [negb].
    destruct (forallb shell_is_name_char (drop 1 name)) eqn:Hall; [|done]. cbn [negb]. apply name_forall in Hall.
    destruct rest as [|rb rest]; [done|]. rewrite cget_cons in Hrest. subst rb. cbn [drop]. rewrite drop_0.
    intros E. eapply Hgo in E as [E4 E5]; [|done|reflexivity]. split; [|done].
    replace (DOLLAR :: LBRACE :: name ++ RBRACE :: rest) with ((DOLLAR :: LBRACE :: name ++ [RBRACE]) ++ rest)
      by (cbn [app]; by rewrite <- app_assoc).
    apply (sound_part _ (var_value vars name)); [|done]. intros s m _ Hx. cbn [app]. rewrite <- app_assoc. by constructor. }
  destruct (negb sg && (ch =? DOLLAR) && shell_is_name_start_char (cget src 0)) eqn:E5.
  { apply andb_true_iff in E5 as [[Hsg%negb_true_iff Hch%Z.eqb_eq]%andb_true_iff Hq]. subst sg ch.
    destruct src as [|q src]; [done|]. rewrite cget_cons in *. cbn [drop]. rewrite drop_0.
    destruct (span_name src) as [more rest] eqn:Es. apply span_name_spec in Es as (-> & Hall & Hnext).
    intros E. eapply Hgo in E as [E5 E6]; [|done|reflexivity]. split; [|done].
    change (DOLLAR :: q :: more ++ rest) with ((DOLLAR :: q :: more) ++ rest).
    apply (sound_part _ (var_value vars (q :: more))); [|done]. intros s m Hhd Hx. apply (XName db (q :: more)); [|..|done].
    - split; [done|]. cbn [drop]. by rewrite drop_0.
    - destruct s as [|c s]; [done|]. by rewrite Hhd. }
  intros E. apply (Hgo src (out ++ [ch])) in E as [E6 E7]; [|done|done]. split; [|done]. destruct sg.
  - destruct db; [done|]. cbn [negb andb] in *. apply Z.eqb_neq in E1. destruct E6 as (a & s & m & -> & Ha & Hs & ->).
    exists (ch :: a), s, m. split_and!; [done|by constructor|done|by rewrite <- app_assoc].
  - apply (sound_part [ch] [ch]); [|done]. intros s m Hhd Hx. cbn [negb andb] in *. apply Z.eqb_neq in E2. constructor; try done.
    + intros ->. by destruct db.
    + intros ->. cbn [andb] in *. change (DOLLAR =? DOLLAR) with true in *. cbn [andb] in *. apply Z.eqb_neq in E3, E4.
      destruct s as [|c s]; [by split_and!|]. unfold no_reference. by rewrite Hhd.
Qed.

(** * Completeness *)

Lemma span_until_app stop a r : stop ∉ a → span_until stop (a ++ stop :: r) = (a, stop :: r).
Proof.
  intros Ha. induction a as [|c a IH]; cbn [app span_until]; [by rewrite Z.eqb_refl|].
  apply not_elem_of_cons in Ha as [Hc Ha]. rewrite (proj2 (Z.eqb_neq c stop)) by done. by rewrite IH.
Qed.

Lemma span_name_app a r :
  Forall (λ c, shell_is_name_char c = true) a → shell_is_name_char (cget r 0) = false → span_name (a ++ r) = (a, r).
Proof.
  intros Ha Hr. induction Ha as [|c a Hc Ha IH].
  - destruct r as [|c r]; [done|]. rewrite cget_cons in Hr. cbn. by rewrite Hr.
  - cbn. by rewrite Hc, IH.
Qed.

Lemma name_no_rbrace name : is_name name → RBRACE ∉ name.
Proof.
  intros [H1 H2] Hin. destruct name as [|c name]; [done|]. cbn [drop] in H2. rewrite drop_0 in H2. rewrite cget_cons in H1.
  apply elem_of_cons in Hin as [<-|Hin]; [done|]. rewrite Forall_forall in H2. by specialize (H2 _ Hin).
Qed.

Definition follow (dq : bool) (p : list Z) : Prop := if dq then ∃ q, p = DQUOTE :: q else p = [].

Lemma follow_head dq p s : follow dq p → s ≠ [] ∨ cget (s ++ p) 0 = NUL ∨ cget (s ++ p) 0 = DQUOTE.
Proof. destruct s as [|c s]; [|by left]. destruct dq; [intros [q ->]; by right; right|intros ->; by right; left]. Qed.

Lemma head_app (s p : list Z) : s ≠ [] → cget (s ++ p) 0 = cget s 0.
Proof. by destruct s. Qed.

Lemma follow_name dq p s :
  follow dq p → shell_is_name_char (cget s 0) = false → shell_is_name_char (cget (s ++ p) 0) = false.
Proof. intros Hp Hs. destruct (follow_head dq p s Hp) as [Hn|[->| ->]]; [by rewrite head_app|done|done]. Qed.

Lemma follow_reference dq p s : follow dq p → no_reference s → no_reference (s ++ p).
Proof.
  intros Hp Hs. unfold no_reference. destruct (follow_head dq p s Hp) as [Hn|[->| ->]]; [by rewrite head_app|by split_and!..].
Qed.

Abbreviation loop := (expand_loop status vars cap).

Lemma squoted_loop a p out :
  squoted a → alen out + alen a + 1 < cap →
  ∃ n, (n ≤ S (length a))%nat ∧ ∀ fuel, loop (n + fuel) (a ++ SQUOTE :: p) out true false = loop fuel p (out ++ a ++ [SQUOTE]) false false.
Proof.
  intros Ha. revert out. induction Ha as [|c s Hb Hq Hs IH|c s Hs IH]; intros out Hl.
  - exists 1%nat. split; [done|]. intros fu. cbn [app Nat.add expand_loop andb negb]. change (SQUOTE =? BACKSLASH) with false.
    change (SQUOTE =? SQUOTE) with true. cbv iota. change (alen (@nil Z)) with 0 in Hl. by rewrite emit_one by lia.
  - rewrite alen_cons in Hl. pose proof (alen_nonneg s). destruct (IH (out ++ [c])) as (n & Ln & E); [rewrite alen_app; change (alen [c]) with 1; lia|].
    exists (S n). split; [simpl; lia|]. intros fu. cbn [app Nat.add expand_loop andb negb].
    rewrite (proj2 (Z.eqb_neq c BACKSLASH)), (proj2 (Z.eqb_neq c SQUOTE)) by done. rewrite emit_one by lia.
    cbn [mbind option_bind]. rewrite E, <- app_assoc. done.
  - rewrite !alen_cons in Hl. pose proof (alen_nonneg s).
    destruct (IH (out ++ [BACKSLASH; c])) as (n & Ln & E); [rewrite alen_app; change (alen [BACKSLASH; c]) with 2; lia|].
    exists (S n). split; [simpl; lia|]. intros fu. cbn [app Nat.add expand_loop]. change (BACKSLASH =? BACKSLASH) with true. cbv iota.
    rewrite emit_one by lia. cbn [mbind option_bind].
    rewrite emit_one by (rewrite alen_app; change (alen [BACKSLASH]) with 1; lia).
    cbn [mbind option_bind]. rewrite <- !app_assoc. cbn [app]. rewrite E, <- app_assoc. done.
Qed.

Lemma loop_complete dq s m :
  expands dq s m → ∀ out p, follow dq p → alen out + alen m < cap →
  ∃ n, (n ≤ length s)%nat ∧ ∀ fuel, loop (n + S fuel) (s ++ p) out false dq = loop (S fuel) p (out ++ m) false dq.
Proof.
  intros Hx. induction Hx as [dq| |dq c s m Hx IH|a s m Ha Hx IH|a b s m Ha IHa Hx IH|dq s m Hx IH|dq name s m Hn Hx IH
    |dq name s m Hn Hnext Hx IH|dq c s m Hb Hd Hq Hr Hx IH]; intros out p Hp Hl.
  - exists 0%nat. split; [done|]. intros fuel. by rewrite app_nil_r.
  - cbn in Hp. subst p. exists 0%nat. split; [simpl; lia|]. intros fuel. cbn [app Nat.add expand_loop].
    change (BACKSLASH =? BACKSLASH) with true. cbv iota. change (alen [BACKSLASH]) with 1 in Hl. by rewrite emit_one by lia.
  - rewrite !alen_cons in Hl. pose proof (alen_nonneg m).
    destruct (IH (out ++ [BACKSLASH; c]) p Hp) as (n & Ln & E); [rewrite alen_app; change (alen [BACKSLASH; c]) with 2; lia|].
    exists (S n). split; [simpl; lia|]. intros fuel. cbn [app Nat.add expand_loop]. change (BACKSLASH =? BACKSLASH) with true. cbv iota.
    rewrite emit_one by lia. cbn [mbind option_bind].
    rewrite emit_one by (rewrite alen_app; change (alen [BACKSLASH]) with 1; lia).
    cbn [mbind option_bind]. rewrite <- !app_assoc. cbn [app]. rewrite E, <- app_assoc. done.
  - rewrite alen_cons, alen_app, alen_cons in Hl. pose proof (alen_nonneg m). pose proof (alen_nonneg a).
    destruct (squoted_loop a (s ++ p) (out ++ [SQUOTE]) Ha) as (n1 & L1 & E1); [rewrite alen_app; change (alen [SQUOTE]) with 1; lia|].
    destruct (IH (out ++ SQUOTE :: a ++ [SQUOTE]) p Hp) as (n & Ln & E).
    { rewrite alen_app, alen_cons, alen_app. change (alen [SQUOTE]) with 1. lia. }
    exists (S (n1 + n)). split; [rewrite !length_cons, length_app; simpl; lia|]. intros fuel. cbn [app Nat.add expand_loop andb negb].
    change (SQUOTE =? BACKSLASH) with false. change (SQUOTE =? SQUOTE) with true. cbv iota.
    rewrite emit_one by lia. cbn [mbind option_bind]. rewrite <- app_assoc. cbn [app].
    rewrite <- Nat.add_assoc, E1, <- !app_assoc. cbn [app]. rewrite E, <- !app_assoc. cbn [app]. by rewrite <- app_assoc.
  - rewrite alen_cons, alen_app, alen_cons in Hl. pose proof (alen_nonneg m). pose proof (alen_nonneg b).
    destruct (IHa (out ++ [DQUOTE]) (DQUOTE :: s ++ p)) as (n1 & L1 & E1); [by eexists|rewrite alen_app; change (alen [DQUOTE]) with 1; lia|].
    destruct (IH (out ++ DQUOTE :: b ++ [DQUOTE]) p Hp) as (n & Ln & E).
    { rewrite alen_app, alen_cons, alen_app. change (alen [DQUOTE]) with 1. lia. }
    exists (S (n1 + S n)). split; [rewrite !length_cons, length_app; simpl; lia|]. intros fuel. cbn [app Nat.add expand_loop andb negb].
    change (DQUOTE =? BACKSLASH) with false. change (DQUOTE =? SQUOTE) with false. change (DQUOTE =? DQUOTE) with true. cbv iota. cbn [negb].
    rewrite emit_one by lia. cbn [mbind option_bind]. rewrite <- app_assoc. cbn [app].
    rewrite <- Nat.add_assoc. cbn [Nat.add]. rewrite E1. cbn [expand_loop andb negb].
    change (DQUOTE =? BACKSLASH) with false. change (DQUOTE =? DQUOTE) with true. cbv iota. cbn [negb].
    rewrite emit_one by (rewrite !alen_app; change (alen [DQUOTE]) with 1; lia). cbn [mbind option_bind]. rewrite <- !app_assoc. cbn [app].
    rewrite E, <- !app_assoc. cbn [app]. by rewrite <- app_assoc.
  - rewrite alen_app in Hl. pose proof (alen_nonneg m). destruct (IH (out ++ shell_format_i32 16 status) p Hp) as (n & Ln & E); [rewrite alen_app; lia|].
    exists (S n). split; [simpl; lia|]. intros fuel. cbn [app Nat.add expand_loop]. rewrite cget_cons.
    change (DOLLAR =? BACKSLASH) with false. change (DOLLAR =? SQUOTE) with false. change (DOLLAR =? DQUOTE) with false.
    change (DOLLAR =? DOLLAR) with true. change (QUESTION =? QUESTION) with true. rewrite andb_false_r. cbn [negb andb].
    rewrite emit_ok by lia. cbn [mbind option_bind drop]. rewrite drop_0, E, <- app_assoc. done.
  - rewrite alen_app in Hl. pose proof (alen_nonneg m). destruct (IH (out ++ var_value vars name) p Hp) as (n & Ln & E); [rewrite alen_app; lia|].
    exists (S n). split; [rewrite !length_cons, length_app; simpl; lia|]. intros fuel. rewrite <- !app_comm_cons, <- app_assoc, <- app_comm_cons.
    cbn [Nat.add expand_loop]. rewrite cget_cons.
    change (DOLLAR =? BACKSLASH) with false. change (DOLLAR =? SQUOTE) with false. change (DOLLAR =? DQUOTE) with false.
    change (DOLLAR =? DOLLAR) with true. change (LBRACE =? QUESTION) with false. change (LBRACE =? LBRACE) with true.
    rewrite andb_false_r. cbn [negb andb drop]. rewrite drop_0, span_until_app by by apply name_no_rbrace. rewrite cget_cons.
    change (RBRACE =? RBRACE) with true. destruct Hn as [Hn1 Hn2]. rewrite Hn1, (alen_pos name) by (by intros ->).
    rewrite (proj2 (name_forall _) Hn2). cbn [negb orb]. rewrite emit_ok by lia. cbn [mbind option_bind drop]. rewrite drop_0, E, <- app_assoc. done.
  - rewrite alen_app in Hl. pose proof (alen_nonneg m). destruct (IH (out ++ var_value vars name) p Hp) as (n & Ln & E); [rewrite alen_app; lia|].
    destruct Hn as [Hn1 Hn2]. destruct name as [|c name]; [done|]. rewrite cget_cons in Hn1. cbn [drop] in Hn2. rewrite drop_0 in Hn2.
    exists (S n). split; [rewrite length_cons, length_app; simpl; lia|]. intros fuel. rewrite <- !app_comm_cons, <- app_assoc.
    cbn [Nat.add expand_loop]. rewrite cget_cons.
    change (DOLLAR =? BACKSLASH) with false. change (DOLLAR =? SQUOTE) with false. change (DOLLAR =? DQUOTE) with false.
    change (DOLLAR =? DOLLAR) with true. destruct (start_char c Hn1) as (_ & _ & H1 & H2 & _).
    rewrite (proj2 (Z.eqb_neq c QUESTION)), (proj2 (Z.eqb_neq c LBRACE)) by done. rewrite Hn1, !andb_false_r. cbn [negb andb drop].
    rewrite drop_0, span_name_app by (done || by apply (follow_name dq)). rewrite emit_ok by lia.
    cbn [mbind option_bind]. by rewrite E, <- app_assoc.
  - rewrite alen_cons in Hl. pose proof (alen_nonneg m). destruct (IH (out ++ [c]) p Hp) as (n & Ln & E); [rewrite alen_app; change (alen [c]) with 1; lia|].
    exists (S n). split; [simpl; lia|]. intros fuel. cbn [app Nat.add expand_loop].
    rewrite (proj2 (Z.eqb_neq c BACKSLASH)), (proj2 (Z.eqb_neq c DQUOTE)) by done.
    assert (negb dq && (c =? SQUOTE) = false) as ->.
    { destruct (Z.eqb_spec c SQUOTE) as [Ec|]; [|apply andb_false_r]. by rewrite (Hq Ec). }
    rewrite andb_false_r. cbn [negb andb].
    assert (Hgo : loop (n + S fuel) (s ++ p) (out ++ [c]) false dq = loop (S fuel) p (out ++ c :: m) false dq) by (by rewrite E, <- app_assoc).
    destruct (Z.eqb_spec c DOLLAR) as [Ec|]; cbn [andb]; [|by rewrite emit_one by lia].
    destruct (follow_reference dq p s Hp (Hr Ec)) as (R1 & R2 & R3).
    rewrite (proj2 (Z.eqb_neq _ QUESTION)), (proj2 (Z.eqb_neq _ LBRACE)), R3 by done.
    by rewrite emit_one by lia.
Qed.
End grammar.

(** C19: expanding a line is the decision procedure of the grammar: it gives [dst]
    exactly when the line expands to [dst] and [dst] fits the buffer with its
    terminator; in every other case, unbalanced quotes or a malformed reference,
    it fails, and nothing is written past the buffer. *)
Theorem shell_expand_spec status vars cap src dst :
  0 < cap → shell_expand_vars status vars cap src = Some dst ↔ expands status vars false src dst ∧ alen dst < cap.
Proof.
  intros Hc. unfold shell_expand_vars. rewrite (proj2 (Z.eqb_neq cap 0)) by lia. split.
  - intros E. apply loop_soundness in E as [(m & Hx & ->) Hl]; [|done]. split; [done|]. by apply Hl.
  - intros [Hx Hl]. destruct (loop_complete status vars cap false src dst Hx [] [] eq_refl Hl) as (n & Ln & E).
    rewrite app_nil_r in E. replace (S (length src)) with (n + S (length src - n))%nat by lia. by rewrite E.
Qed.

(** [echo "$A" '$A' ${A}b $?] with A=x and the status 7 *)
Lemma shell_expand_spec_witness :
  let vars := default [] (shell_var_put [65] [120] None vars_zero) in
  let src := [101; 32; 34; 36; 65; 34; 32; 39; 36; 65; 39; 32; 36; 123; 65; 125; 98; 32; 36; 63] in
  shell_expand_vars 7 vars SHELL_LINE_MAX src = Some [101; 32; 34; 120; 34; 32; 39; 36; 65; 39; 32; 120; 98; 32; 55] ∧
  expands 7 vars false src [101; 32; 34; 120; 34; 32; 39; 36; 65; 39; 32; 120; 98; 32; 55].
Proof.
  set (vars := default [] (shell_var_put [65] [120] None vars_zero)).
  set (src := [101; 32; 34; 36; 65; 34; 32; 39; 36; 65; 39; 32; 36; 123; 65; 125; 98; 32; 36; 63]).
  assert (E : shell_expand_vars 7 vars SHELL_LINE_MAX src = Some [101; 32; 34; 120; 34; 32; 39; 36; 65; 39; 32; 120; 98; 32; 55]) by (vm_compute; reflexivity).
  split; [exact E|]. exact (proj1 (proj1 (shell_expand_spec 7 vars SHELL_LINE_MAX src _ ltac:(unfold SHELL_LINE_MAX; lia)) E)).
Defined.

(** A backslash keeps the next character in single quotes here, but stands for
    itself there in [shell_next_token]: the word ['\'] is never accepted. *)
Lemma single_quoted_backslash status vars :
  shell_expand_vars status vars SHELL_LINE_MAX [SQUOTE; BACKSLASH; SQUOTE] = None ∧
  shell_next_token [SQUOTE; BACKSLASH; SQUOTE] SHELL_LINE_MAX = (SHELL_TOK_WORD, [BACKSLASH], []).
Proof. split; reflexivity. Qed.
