(* ===== verification/Memmap.v ===== *)
(** kernel/memmap.c: the boot loader's description of memory.

    Memory is a function from addresses to bytes; a pointer into the Multiboot2
    information is an address.  [memmap_parse] walks the tags twice, first for the
    highest address and the frame buffer, then to free the available regions, and
    reserves what the kernel itself uses.  Tags and entries end where their sizes
    say, so the walks take fuel; a tag or an entry of size 0 is its own successor. *)

From S2P Require Import Prelude Pmm Kmalloc Paging PagingMap Framebuffer User.

Definition MULTIBOOT2_TAG_TYPE_END : Z := 0.
Definition MULTIBOOT2_TAG_TYPE_MMAP : Z := 6.
Definition MULTIBOOT2_TAG_TYPE_FRAMEBUFFER : Z := 8.

Definition two64 : Z := 18446744073709551616.
Definition KERNEL_HEAP_START : Z := 3229614080.
Definition KERNEL_HEAP_SIZE_BYTES : Z := 4 * 1024 * 1024.
Definition USER_DEMO_CODE_SIZE_BYTES : Z := PAGE_SIZE_BYTES.
Definition USER_DEMO_STACK_SIZE_BYTES : Z := PAGE_SIZE_BYTES.
Definition USER_FAULT_STACK_SIZE_BYTES : Z := PAGE_SIZE_BYTES.

(** [sizeof(struct multiboot_tag_framebuffer_common)] and [.._rgb], packed. *)
Definition SIZEOF_FRAMEBUFFER_COMMON : Z := 32.
Definition SIZEOF_FRAMEBUFFER_RGB : Z := 38.

Section memory.
Context (mem : Z → Z).

Definition rd32 (a : Z) : Z := mem a + 256 * mem (add32 a 1) + 65536 * mem (add32 a 2) + 16777216 * mem (add32 a 3).
Definition rd64 (a : Z) : Z := rd32 a + two32 * rd32 (add32 a 4).

Definition tag_type (tag : Z) : Z := rd32 tag.
Definition tag_size (tag : Z) : Z := rd32 (add32 tag 4).

Definition mb2_first_tag (mb_info : Z) : Z := add32 mb_info 8.
Definition mb2_next_tag (tag : Z) : Z := Z.land (add32 (add32 tag (tag_size tag)) 7) (not32 7).

Definition u64_range_to_u32_len (start e : Z) : Z :=
  if e <=? start then 0
  else
    let e := if two32 <? e then two32 else e in
    if two32 <=? start then 0
    else if two32 - 1 <? e - start then two32 - 1
    else u32 (e - start).

(** [while (tag->type != MULTIBOOT2_TAG_TYPE_END)]. *)
Fixpoint tags_loop {S} (fuel : nat) (f : Z → S → option S) (tag : Z) (s : S) : option S :=
  if tag_type tag =? MULTIBOOT2_TAG_TYPE_END then Some s
  else match fuel with O => None | S fuel' => s ← f tag s; tags_loop fuel' f (mb2_next_tag tag) s end.

(** [while ((uint8_t * )entry < (uint8_t * )tag + tag->size)]. *)
Fixpoint entries_loop {S} (fuel : nat) (f : Z → S → S) (entry_size stop entry : Z) (s : S) : option S :=
  if entry <? stop then
    match fuel with O => None | S fuel' => entries_loop fuel' f entry_size stop (add32 entry entry_size) (f entry s) end
  else Some s.

Definition mmap_tag {S} (fuel : nat) (f : Z → S → S) (tag : Z) (s : S) : option S :=
  entries_loop fuel f (rd32 (add32 tag 8)) (add32 tag (tag_size tag)) (add32 tag 16) s.

(** An entry: [addr], [len] and [type]. *)
Definition entry_addr (entry : Z) : Z := rd64 entry.
Definition entry_len (entry : Z) : Z := rd64 (add32 entry 8).
Definition entry_type (entry : Z) : Z := rd32 (add32 entry 16).
Definition entry_end (entry : Z) : Z := (entry_addr entry + entry_len entry) mod two64.

Definition upper_entry (entry mem_upper : Z) : Z :=
  if entry_type entry =? 1 then
    let e := if two32 - 1 <? entry_end entry then two32 - 1 else entry_end entry in
    if mem_upper <? e then u32 e else mem_upper
  else mem_upper.

Definition available_entry (entry : Z) (s : pmm_state) : pmm_state :=
  if entry_type entry =? 1 then
    let len32 := u64_range_to_u32_len (entry_addr entry) (entry_end entry) in
    if negb (len32 =? 0) then pmm_mark_region_available (u32 (entry_addr entry)) len32 s else s
  else s.

(** What a frame buffer tag says. *)
Definition framebuffer_info (tag : Z) : boot_framebuffer_info :=
  let rgb := (mem (add32 tag 29) =? 1) && (SIZEOF_FRAMEBUFFER_RGB <=? tag_size tag) in
  let field k := if rgb then mem (add32 tag (32 + k)) else 0 in
  FbInfo (rd64 (add32 tag 8)) (rd32 (add32 tag 16)) (rd32 (add32 tag 20)) (rd32 (add32 tag 24))
    (mem (add32 tag 28)) (mem (add32 tag 29)) (field 0) (field 1) (field 2) (field 3) (field 4) (field 5).

(** [mem_upper] and [g_framebuffer_info], [None] as long as it is not present. *)
Definition first_pass (fuel : nat) (tag : Z) (s : Z * option boot_framebuffer_info) : option (Z * option boot_framebuffer_info) :=
  let '(mem_upper, fb) := s in
  if tag_type tag =? MULTIBOOT2_TAG_TYPE_MMAP then mem_upper ← mmap_tag fuel upper_entry tag mem_upper; Some (mem_upper, fb)
  else if (tag_type tag =? MULTIBOOT2_TAG_TYPE_FRAMEBUFFER) && (SIZEOF_FRAMEBUFFER_COMMON <=? tag_size tag) && bool_decide (fb = None)
  then Some (mem_upper, Some (framebuffer_info tag))
  else Some s.

Definition second_pass (fuel : nat) (tag : Z) (s : pmm_state) : option pmm_state :=
  if tag_type tag =? MULTIBOOT2_TAG_TYPE_MMAP then mmap_tag fuel available_entry tag s else Some s.

(** The boot critical regions; [kernel_start] and [kernel_end] are the linker's symbols. *)
Definition reserved_regions (kernel_start kernel_end mb_info : Z) : list (Z * Z) :=
  [(0, 1048576); (kernel_start, sub32 kernel_end kernel_start); (mb_info, rd32 mb_info);
   (sub32 KERNEL_HEAP_START KERNEL_VIRTUAL_BASE, KERNEL_HEAP_SIZE_BYTES);
   (USER_DEMO_CODE_BASE, USER_DEMO_CODE_SIZE_BYTES); (USER_DEMO_STACK_BASE, USER_DEMO_STACK_SIZE_BYTES);
   (USER_FAULT_STACK_BASE, USER_FAULT_STACK_SIZE_BYTES)].

Definition reserve_all (l : list (Z * Z)) (s : pmm_state) : pmm_state := foldl (λ s '(base, len), pmm_reserve_region base len s) s l.

(** The frame allocator and what [memmap_get_framebuffer_info] will find. *)
Definition memmap_parse (fuel : nat) (kernel_start kernel_end mb_info : Z) (s : pmm_state)
    : option (pmm_state * option boot_framebuffer_info) :=
  '(mem_upper, fb) ← tags_loop fuel (first_pass fuel) (mb2_first_tag mb_info) (0, None);
  s ← tags_loop fuel (second_pass fuel) (mb2_first_tag mb_info) (pmm_init mem_upper s);
  let s := reserve_all (reserved_regions kernel_start kernel_end mb_info) s in
  Some (pmm_reserve_region PMM_BITMAP_PHYS_BASE (st_bitmap_bytes (pmm_get_stats s)) s, fb).
End memory.

Definition memmap_get_framebuffer_info (g_framebuffer_info : option boot_framebuffer_info) : option boot_framebuffer_info :=
  g_framebuffer_info.

(** * What the information says *)

Section spec.
Context (mem : Z → Z) (Hmem : ∀ a, 0 ≤ mem a < 256).

(** The entries of a memory map, from [entry] to [stop]. *)
Inductive entry_chain (entry_size stop : Z) : Z → list Z → Prop :=
  | entry_end_ e : stop ≤ e → entry_chain entry_size stop e []
  | entry_more e l : e < stop → entry_chain entry_size stop (add32 e entry_size) l → entry_chain entry_size stop e (e :: l).

(** The tags from [tag] on, each with its memory map's entries. *)
Inductive boot_info : Z → list (Z * list Z) → Prop :=
  | info_end tag : tag_type mem tag = MULTIBOOT2_TAG_TYPE_END → boot_info tag []
  | info_mmap tag es l :
      tag_type mem tag = MULTIBOOT2_TAG_TYPE_MMAP →
      entry_chain (rd32 mem (add32 tag 8)) (add32 tag (tag_size mem tag)) (add32 tag 16) es →
      boot_info (mb2_next_tag mem tag) l → boot_info tag ((tag, es) :: l)
  | info_other tag l :
      tag_type mem tag ≠ MULTIBOOT2_TAG_TYPE_END → tag_type mem tag ≠ MULTIBOOT2_TAG_TYPE_MMAP →
      boot_info (mb2_next_tag mem tag) l → boot_info tag ((tag, []) :: l).

Definition fuel_enough (fuel : nat) (l : list (Z * list Z)) : Prop :=
  (length l ≤ fuel)%nat ∧ Forall (λ x, length x.2 ≤ fuel)%nat l.

Lemma entries_loop_chain {S} (f : Z → S → S) es stop e l fuel s :
  entry_chain es stop e l → (length l ≤ fuel)%nat → entries_loop fuel f es stop e s = Some (foldl (λ s x, f x s) s l).
Proof.
  intros Hc. revert fuel s. induction Hc as [e He|e l He Hc IH]; intros fuel s Hf.
  - destruct fuel; cbn; by rewrite (proj2 (Z.ltb_ge e stop)) by lia.
  - destruct fuel as [|fuel]; [simpl in Hf; lia|]. cbn. rewrite (proj2 (Z.ltb_lt e stop)) by lia. apply IH. simpl in Hf. lia.
Qed.

(** A walk that does [f] at the entries and [g] at the other tags. *)
Lemma tags_loop_info {S} (step : Z → S → option S) (f g : Z → S → S) tag l (fuel : nat) s :
  boot_info tag l → (length l ≤ fuel)%nat → 
  (∀ t es s, (t, es) ∈ l → tag_type mem t = MULTIBOOT2_TAG_TYPE_MMAP →
     entry_chain (rd32 mem (add32 t 8)) (add32 t (tag_size mem t)) (add32 t 16) es → step t s = Some (foldl (λ s x, f x s) s es)) →
  (∀ t s, tag_type mem t ≠ MULTIBOOT2_TAG_TYPE_MMAP → step t s = Some (g t s)) →
  tags_loop mem fuel step tag s =
    Some (foldl (λ s '(t, es), if tag_type mem t =? MULTIBOOT2_TAG_TYPE_MMAP then foldl (λ s x, f x s) s es else g t s) s l).
Proof.
  intros Hi. revert fuel s. induction Hi as [tag Ht|tag es l Ht Hc Hi IH|tag l Ht Hm Hi IH]; intros fuel s Hf H1 H2.
  - destruct fuel; cbn; by rewrite Ht.
  - destruct fuel as [|fuel]; [simpl in Hf; lia|]. cbn [tags_loop foldl]. rewrite Ht. change (MULTIBOOT2_TAG_TYPE_MMAP =? _) with false at 1.
    cbv iota. rewrite (H1 tag es) by (done || left). cbn [mbind option_bind]. rewrite Z.eqb_refl. apply IH; [simpl in Hf; lia| |done].
    intros t es' s' Hin. apply H1. by right.
  - destruct fuel as [|fuel]; [simpl in Hf; lia|]. cbn [tags_loop foldl]. rewrite (proj2 (Z.eqb_neq _ _) Ht), (proj2 (Z.eqb_neq _ _) Hm).
    rewrite H2 by done. cbn [mbind option_bind]. apply IH; [simpl in Hf; lia| |done]. intros t es' s' Hin. apply H1. by right.
Qed.

Lemma rd32_u32 a : is_u32 (rd32 mem a).
Proof using Hmem.
  unfold rd32, two32. pose proof (Hmem a). pose proof (Hmem (add32 a 1)). pose proof (Hmem (add32 a 2)). pose proof (Hmem (add32 a 3)). lia.
Qed.

Lemma rd64_range a : 0 ≤ rd64 mem a < two64.
Proof using Hmem.
  unfold rd64, two64. pose proof (rd32_u32 a). pose proof (rd32_u32 (add32 a 4)). unfold two32 in *. lia.
Qed.

Lemma entry_end_range e : 0 ≤ entry_end mem e < two64.
Proof using. apply Z.mod_pos_bound. done. Qed.

(** The entry makes the whole frame [g] available. *)
Definition covers (e g : Z) : Prop :=
  entry_type mem e = 1 ∧ entry_addr mem e ≤ 4096 * g ∧ 4096 * g + 4096 ≤ entry_end mem e.

#[export] Instance covers_dec e g : Decision (covers e g).
Proof. unfold covers. apply _. Defined.

(** The region [(base, len)] has a byte in the frame [g]. *)
Definition meets (r : Z * Z) (g : Z) : Prop := r.2 ≠ 0 ∧ r.1 < 4096 * g + 4096 ∧ 4096 * g < r.1 + r.2.

#[export] Instance meets_dec r g : Decision (meets r g).
Proof. unfold meets. apply _. Defined.

Lemma available_step e s :
  pmm_wf s → pmm_wf (available_entry mem e s) ∧ nframes (available_entry mem e s) = nframes s ∧
  ∀ g, 0 ≤ g < nframes s → test_frame (available_entry mem e s) g = if decide (covers e g) then false else test_frame s g.
Proof using Hmem.
  intros Hwf. pose proof (wf_nframes s Hwf) as Hn. pose proof (rd64_range e) as Ha. fold (entry_addr mem e) in Ha.
  pose proof (entry_end_range e) as He. unfold available_entry, u64_range_to_u32_len.
  assert (Hsame : (∀ g, 0 ≤ g < nframes s → covers e g → False) → pmm_wf s ∧ nframes s = nframes s ∧
    ∀ g, 0 ≤ g < nframes s → test_frame s g = if decide (covers e g) then false else test_frame s g).
  { intros H. split_and!; [done..|]. intros g Hg. rewrite decide_False; [done|]. intros Hc. by apply (H g). }
  destruct (Z.eqb_spec (entry_type mem e) 1) as [Et|Et]; [|apply Hsame; unfold covers; tauto].
  destruct (Z.leb_spec (entry_end mem e) (entry_addr mem e)); [apply Hsame; unfold covers; lia|].
  destruct (Z.leb_spec two32 (entry_addr mem e)); [apply Hsame; unfold covers, two32 in *; lia|].
  set (z' := if two32 <? entry_end mem e then two32 else entry_end mem e).
  assert (Hz : z' = Z.min (entry_end mem e) two32) by (unfold z'; destruct (Z.ltb_spec two32 (entry_end mem e)); lia).
  set (len := if two32 - 1 <? z' - entry_addr mem e then two32 - 1 else u32 (z' - entry_addr mem e)).
  assert (Hlen : is_u32 len ∧ 0 < len ∧ Z.min (z' - entry_addr mem e) (two32 - 1) = len).
  { unfold len. destruct (Z.ltb_spec (two32 - 1) (z' - entry_addr mem e)); [unfold two32 in *; lia|]. rewrite u32_small by lia. lia. }
  rewrite (proj2 (Z.eqb_neq len 0)) by lia. cbn [negb]. rewrite u32_small by lia.
  destruct (available_cases s (entry_addr mem e) len Hwf ltac:(lia) ltac:(lia)) as (H1 & H2 & H3). split_and!; [done..|].
  intros g Hg. rewrite H3 by lia. unfold two32 in *.
  assert (Hiff : (entry_addr mem e ≤ 4096 * g ∧ 4096 * g + 4096 ≤ Z.min (entry_addr mem e + len) (4096 * nframes s)) ↔ covers e g).
  { unfold covers. lia. }
  destruct (decide (covers e g)) as [Hc|Hc]; [by rewrite decide_True by (by apply Hiff)|rewrite decide_False; [done|]].
  intros Hx. by apply Hc, Hiff.
Qed.

(** The state after the entries [es]: from [s], exactly the covered frames are free as well. *)
Definition after_available (s : pmm_state) (es : list Z) (s' : pmm_state) : Prop :=
  pmm_wf s' ∧ nframes s' = nframes s ∧
  ∀ g, 0 ≤ g < nframes s → test_frame s' g = if decide (Exists (λ e, covers e g) es) then false else test_frame s g.

Lemma available_all es s : pmm_wf s → after_available s es (foldl (λ s e, available_entry mem e s) s es).
Proof using Hmem.
  intros Hwf. induction es as [|e es IH] using rev_ind; [split_and!; [done..|]; intros g Hg; by rewrite decide_False by (by intros ?%Exists_nil)|].
  destruct IH as (W & N & T). rewrite foldl_app. cbn [foldl]. destruct (available_step e _ W) as (W' & N' & T').
  split_and!; [done|congruence|]. intros g Hg. rewrite T', T by (rewrite ?N; done).
  destruct (decide (covers e g)) as [Hc|Hc].
  - rewrite decide_True; [done|]. apply Exists_app. right. by constructor.
  - destruct (decide (Exists _ es)) as [Hx|Hx].
    + rewrite decide_True; [done|]. apply Exists_app. by left.
    + rewrite decide_False; [done|]. intros [?|[?|?%Exists_nil]%Exists_cons]%Exists_app; done.
Qed.

Definition region_ok (r : Z * Z) : Prop := is_u32 r.1 ∧ is_u32 r.2.

Definition after_reserve (s : pmm_state) (rs : list (Z * Z)) (s' : pmm_state) : Prop :=
  pmm_wf s' ∧ nframes s' = nframes s ∧
  ∀ g, 0 ≤ g < nframes s → test_frame s' g = if decide (Exists (λ r, meets r g) rs) then true else test_frame s g.

Lemma reserve_all_spec rs s : pmm_wf s → Forall region_ok rs → after_reserve s rs (reserve_all rs s).
Proof using.
  intros Hwf Hok. unfold reserve_all. induction rs as [|[b n] rs IH] using rev_ind.
  { split_and!; [done..|]. intros g Hg. by rewrite decide_False by (by intros ?%Exists_nil). }
  apply Forall_app in Hok as [Hok [Hr _]%Forall_cons]. destruct (IH Hok) as (W & N & T). rewrite foldl_app. cbn [foldl].
  destruct Hr as [Hb Hl]. cbn in Hb, Hl. pose proof (reserve_cases _ b n W Hb Hl) as (W' & N' & T').
  split_and!; [done|congruence|]. intros g Hg. rewrite T' by lia. rewrite T by done.
  destruct (decide (b < 4096 * g + 4096 ∧ _)) as [Hc|Hc].
  - rewrite decide_True; [done|]. apply Exists_app. right. constructor. unfold meets. cbn. rewrite N in Hc. lia.
  - destruct (decide (Exists _ rs)) as [Hx|Hx].
    + rewrite decide_True; [done|]. apply Exists_app. by left.
    + rewrite decide_False; [done|]. intros [?|[Hm|?%Exists_nil]%Exists_cons]%Exists_app; [done| |done]. apply Hc.
      unfold meets in Hm. cbn in Hm. rewrite N. lia.
Qed.

Lemma upper_all es u :
  is_u32 u →
  let u' := foldl (λ u e, upper_entry mem e u) u es in
  is_u32 u' ∧ u ≤ u' ∧ Forall (λ e, entry_type mem e = 1 → Z.min (entry_end mem e) (two32 - 1) ≤ u') es.
Proof using.
  intros Hu. induction es as [|e es IH] using rev_ind; [split_and!; [apply Hu|apply Hu|done|constructor]|].
  destruct IH as (H1 & H2 & H3). rewrite foldl_app. cbn [foldl]. set (v := foldl _ u es) in *.
  assert (Hv : is_u32 (upper_entry mem e v) ∧ v ≤ upper_entry mem e v ∧
    (entry_type mem e = 1 → Z.min (entry_end mem e) (two32 - 1) ≤ upper_entry mem e v)).
  { unfold upper_entry. pose proof (entry_end_range e). destruct (Z.eqb_spec (entry_type mem e) 1); [|by split_and!; [apply H1|apply H1|..]].
    set (z := if two32 - 1 <? entry_end mem e then two32 - 1 else entry_end mem e).
    assert (Hz : z = Z.min (entry_end mem e) (two32 - 1)) by (unfold z; destruct (Z.ltb_spec (two32 - 1) (entry_end mem e)); lia).
    assert (Hzu : is_u32 z) by (unfold two32 in *; lia). rewrite u32_small by done. destruct (Z.ltb_spec v z); lia. }
  split; [apply Hv|]. split; [lia|]. apply Forall_app. split; [|by constructor; [apply Hv|]].
  apply (Forall_impl _ _ _ H3). intros x Hx Ht. specialize (Hx Ht). lia.
Qed.

(** The entries of all memory maps, and the first frame buffer tag. *)
Definition all_entries (l : list (Z * list Z)) : list Z := concat (snd <$> l).

Definition is_framebuffer (tag : Z) : bool :=
  (tag_type mem tag =? MULTIBOOT2_TAG_TYPE_FRAMEBUFFER) && (SIZEOF_FRAMEBUFFER_COMMON <=? tag_size mem tag).

Definition first_framebuffer (l : list (Z * list Z)) : option boot_framebuffer_info :=
  framebuffer_info mem <$> head (filter (λ t, is_framebuffer t = true) (fst <$> l)).

Lemma nested_fold {S} (f g : Z → S → S) tag l s :
  boot_info tag l → (∀ t s, g t s = s) →
  foldl (λ s '(t, es), if tag_type mem t =? MULTIBOOT2_TAG_TYPE_MMAP then foldl (λ s x, f x s) s es else g t s) s l =
  foldl (λ s x, f x s) s (all_entries l).
Proof using.
  intros Hi Hg. revert s. induction Hi as [tag Ht|tag es l Ht Hc Hi IH|tag l Ht Hm Hi IH]; intros s; [done| |]; unfold all_entries in *; cbn.
  - rewrite Ht, Z.eqb_refl, foldl_app. apply IH.
  - rewrite (proj2 (Z.eqb_neq _ _) Hm), Hg. apply IH.
Qed.

Lemma first_fold tag l u fb :
  boot_info tag l →
  foldl (λ s '(t, es), if tag_type mem t =? MULTIBOOT2_TAG_TYPE_MMAP then foldl (λ s x, (upper_entry mem x (fst s), snd s)) s es
     else (fst s, if is_framebuffer t && bool_decide (snd s = None) then Some (framebuffer_info mem t) else snd s)) (u, fb) l =
  (foldl (λ u x, upper_entry mem x u) u (all_entries l), match fb with Some _ => fb | None => first_framebuffer l end).
Proof using.
  intros Hi. revert u fb. induction Hi as [tag Ht|tag es l Ht Hc Hi IH|tag l Ht Hm Hi IH]; intros u fb.
  - by destruct fb.
  - unfold all_entries in *. cbn. rewrite Ht, Z.eqb_refl, foldl_app.
    assert (E : foldl (λ s x, (upper_entry mem x (fst s), snd s)) (u, fb) es = (foldl (λ u x, upper_entry mem x u) u es, fb)).
    { clear. revert u. induction es as [|e es IHe]; intros u; [done|]. apply IHe. }
    rewrite E, IH. f_equal. destruct fb; [done|]. unfold first_framebuffer, is_framebuffer. cbn [fmap list_fmap fst].
    rewrite filter_cons_False; [done|]. by rewrite Ht.
  - unfold all_entries in *. cbn. rewrite (proj2 (Z.eqb_neq _ _) Hm), IH. f_equal. destruct fb; [by rewrite andb_false_r|].
    rewrite bool_decide_true by done. rewrite andb_true_r. unfold first_framebuffer at 2. cbn [fmap list_fmap fst].
    destruct (is_framebuffer tag) eqn:E; [by rewrite filter_cons_True|]. rewrite filter_cons_False by (by rewrite E). done.
Qed.

Lemma map_parse_fold {S} (step : Z → S → option S) (f g : Z → S → S) tag l fuel s :
  boot_info tag l → fuel_enough fuel l →
  (∀ t s, step t s = if tag_type mem t =? MULTIBOOT2_TAG_TYPE_MMAP then mmap_tag mem fuel f t s else Some (g t s)) →
  tags_loop mem fuel step tag s =
    Some (foldl (λ s '(t, es), if tag_type mem t =? MULTIBOOT2_TAG_TYPE_MMAP then foldl (λ s x, f x s) s es else g t s) s l).
Proof using.
  intros Hi [Hf Hfs] Hs. apply (tags_loop_info step f g); [done|done| |].
  - intros t es s' Hin Ht Hc. rewrite Hs, Ht, Z.eqb_refl. rewrite Forall_forall in Hfs.
    exact (entries_loop_chain f _ _ _ es fuel s' Hc (Hfs _ Hin)).
  - intros t s' Ht. by rewrite Hs, (proj2 (Z.eqb_neq _ _) Ht).
Qed.

Lemma entries_pair {A B} (f : Z → A → A) fuel es stop e (s : A * B) :
  entries_loop fuel (λ x s, (f x s.1, s.2)) es stop e s = u ← entries_loop fuel f es stop e s.1; Some (u, s.2).
Proof using.
  revert e s. induction fuel as [|fuel IH]; intros e s; cbn; destruct (e <? stop); try done; by destruct s.
Qed.

Lemma first_pass_result tag l fuel :
  boot_info tag l → fuel_enough fuel l →
  tags_loop mem fuel (first_pass mem fuel) tag (0, None) =
    Some (foldl (λ u x, upper_entry mem x u) 0 (all_entries l), first_framebuffer l).
Proof using.
  intros Hi Hf.
  rewrite (map_parse_fold _ (λ x s, (upper_entry mem x s.1, s.2))
    (λ t s, (s.1, if is_framebuffer t && bool_decide (s.2 = None) then Some (framebuffer_info mem t) else s.2)) tag l fuel _ Hi Hf).
  - by rewrite (first_fold tag).
  - intros t [u fb]. unfold first_pass, mmap_tag. rewrite entries_pair. cbn [fst snd].
    destruct (tag_type mem t =? MULTIBOOT2_TAG_TYPE_MMAP); [done|]. unfold is_framebuffer. by destruct (_ && bool_decide _).
Qed.

Lemma second_pass_result tag l fuel s :
  boot_info tag l → fuel_enough fuel l →
  tags_loop mem fuel (second_pass mem fuel) tag s = Some (foldl (λ s e, available_entry mem e s) s (all_entries l)).
Proof using.
  intros Hi Hf. rewrite (map_parse_fold _ (available_entry mem) (λ _ s, s) tag l fuel _ Hi Hf) by done.
  by rewrite (nested_fold _ _ tag).
Qed.
End spec.

(** No operation on regions resizes the bitmap. *)
Lemma frame_bytes f s : bitmap_bytes (set_frame f s) = bitmap_bytes s ∧ bitmap_bytes (clear_frame f s) = bitmap_bytes s.
Proof.
  unfold set_frame, clear_frame. destruct (frames s) as [ws|]; [|done]. destruct (negb _); [done|].
  split; cbv zeta; destruct (Z.land _ _ =? 0); done.
Qed.

Lemma range_bytes a b (f : Z → pmm_state → pmm_state) s :
  (∀ i s, bitmap_bytes (f i s) = bitmap_bytes s) → bitmap_bytes (for_range a b f s) = bitmap_bytes s.
Proof.
  intros Hf. destruct (Z.le_gt_cases a b); [|by rewrite for_range_nil by lia].
  apply (for_range_ind (λ _ x, bitmap_bytes x = bitmap_bytes s)); [done|done|]. intros i x _ <-. apply Hf.
Qed.

Lemma region_bytes base len s :
  bitmap_bytes (pmm_reserve_region base len s) = bitmap_bytes s ∧ bitmap_bytes (pmm_mark_region_available base len s) = bitmap_bytes s.
Proof.
  unfold pmm_reserve_region, pmm_mark_region_available. destruct (region_end base len s) as [e|]; [|done].
  split; cbv zeta; destruct (_ <=? _); try done; apply range_bytes; intros; apply frame_bytes.
Qed.

Lemma fold_bytes {A} (f : pmm_state → A → pmm_state) l s :
  (∀ s x, bitmap_bytes (f s x) = bitmap_bytes s) → bitmap_bytes (foldl f s l) = bitmap_bytes s.
Proof. intros Hf. revert s. induction l as [|x l IH]; intros s; [done|]. cbn. by rewrite IH, Hf. Qed.

Lemma reserved_ok mem kernel_start kernel_end mb_info :
  (∀ a, 0 ≤ mem a < 256) → is_u32 kernel_start → is_u32 mb_info → Forall region_ok (reserved_regions mem kernel_start kernel_end mb_info).
Proof.
  intros Hmem Hks Hmb. assert (H : ∀ a b, is_u32 a → is_u32 b → region_ok (a, b)) by (by split).
  unfold reserved_regions. repeat (apply Forall_cons; split); [apply H..|constructor]; try done; [apply u32_range|by apply rd32_u32].
Qed.

(** C12: on any Multiboot2 information, the walk ends, and then a frame is free
    exactly if it lies below 1 GiB, one of the available regions of the memory map
    contains all of it, and it meets none of the regions the kernel reserves, its own image, the
    information, the heap, the first programs and the allocator's bitmap among
    them; the counters are exact, and the frame buffer that is handed on is the
    first one described. *)
Theorem memmap_parse_spec mem kernel_start kernel_end mb_info l fuel s0 :
  (∀ a, 0 ≤ mem a < 256) → is_u32 kernel_start → is_u32 mb_info →
  boot_info mem (mb2_first_tag mb_info) l → fuel_enough fuel l →
  ∃ s, memmap_parse mem fuel kernel_start kernel_end mb_info s0 = Some (s, first_framebuffer mem l) ∧ pmm_wf s ∧
    ∀ f, frame_free s f ↔
      0 ≤ f < 262144 ∧ Exists (λ e, covers mem e f) (all_entries l) ∧
      Forall (λ r, ¬ meets r f) (reserved_regions mem kernel_start kernel_end mb_info ++ [(PMM_BITMAP_PHYS_BASE, bitmap_bytes s)]).
Proof.
  intros Hmem Hks Hmb Hi Hf. unfold memmap_parse. rewrite (first_pass_result mem _ l) by done. cbn [mbind option_bind].
  destruct (upper_all mem (all_entries l) 0 ltac:(done)) as (Hu & _ & Hup). set (u := foldl _ 0 (all_entries l)) in *. clearbody u.
  rewrite (second_pass_result mem _ l) by done. cbn [mbind option_bind].
  destruct (pmm_init_spec u s0 Hu) as (W0 & N0 & T0).
  destruct (available_all mem Hmem (all_entries l) _ W0) as (W1 & N1 & T1). set (s1 := foldl _ (pmm_init u s0) (all_entries l)) in *.
  pose proof (reserved_ok mem kernel_start kernel_end mb_info Hmem Hks Hmb) as Hr.
  destruct (reserve_all_spec _ s1 W1 Hr) as (W2 & N2 & T2). set (s2 := reserve_all _ s1) in *.
  set (s3 := pmm_reserve_region _ _ s2). exists s3. split; [done|].
  assert (B2 : bitmap_bytes s2 = bitmap_bytes (pmm_init u s0)).
  { unfold s2, reserve_all. rewrite fold_bytes by (intros ? []; apply region_bytes). unfold s1. apply fold_bytes. intros x e.
    unfold available_entry. destruct (_ =? 1); [|done]. cbv zeta. destruct (negb _); [apply region_bytes|done]. }
  assert (B3 : bitmap_bytes s3 = bitmap_bytes s2) by apply region_bytes.
  assert (Hbm : region_ok (PMM_BITMAP_PHYS_BASE, bitmap_bytes s2)) by (split; [done|rewrite B2; apply u32_range]).
  assert (E3 : s3 = reserve_all [(PMM_BITMAP_PHYS_BASE, bitmap_bytes s2)] s2) by done.
  destruct (reserve_all_spec [(PMM_BITMAP_PHYS_BASE, bitmap_bytes s2)] s2 W2 ltac:(by constructor)) as (W3 & N3 & T3).
  rewrite <- E3 in *. split; [done|]. rewrite B3. clear E3. clearbody s1 s2 s3. intros f. unfold frame_free.
  rewrite Forall_app, Forall_singleton. pose proof (wf_nframes _ W0) as Hn0.
  assert (Hin : Exists (λ e, covers mem e f) (all_entries l) → f < 262144 → f < nframes s3).
  { rewrite N3, N2, N1, N0. intros (e & He & Hc1 & Hc2 & Hc3)%Exists_exists Hf'. rewrite Forall_forall in Hup. specialize (Hup e He Hc1).
    unfold MAX_MEMORY, two32 in *. apply (Z.lt_le_trans _ (f + 1)); [lia|]. apply Z.div_le_lower_bound; lia. }
  assert (Hnf : nframes s3 ≤ 262144) by (rewrite N3, N2, N1; lia).
  assert (Ht : 0 ≤ f < nframes s3 → test_frame s3 f = false ↔
    Exists (λ e, covers mem e f) (all_entries l) ∧ Forall (λ r, ¬ meets r f) (reserved_regions mem kernel_start kernel_end mb_info) ∧
    ¬ meets (PMM_BITMAP_PHYS_BASE, bitmap_bytes s2) f).
  { intros Hfr. rewrite T3, T2, T1, T0 by (congruence || lia).
    assert (E1 : Exists (λ r, meets r f) [(PMM_BITMAP_PHYS_BASE, bitmap_bytes s2)] ↔ meets (PMM_BITMAP_PHYS_BASE, bitmap_bytes s2) f)
      by (rewrite Exists_cons, Exists_nil; tauto).
    assert (E2 : Forall (λ r, ¬ meets r f) (reserved_regions mem kernel_start kernel_end mb_info) ↔
                 ¬ Exists (λ r, meets r f) (reserved_regions mem kernel_start kernel_end mb_info))
      by (rewrite Forall_forall, Exists_exists; naive_solver).
    case_decide as H1; [|case_decide as H2; [|case_decide as H3]]; split; try done; tauto. }
  split.
  - intros [Hfr E]. split; [lia|]. by apply Ht.
  - intros (Hfr & HA & HB). assert (f < nframes s3) by (apply Hin; [done|lia]). split; [lia|]. apply Ht; [lia|done].
Qed.

(** 16 MiB of memory from 1 MiB on, and a frame buffer. *)
Definition demo_info_bytes : list Z :=
  [88; 0; 0; 0; 0; 0; 0; 0;
   6; 0; 0; 0; 40; 0; 0; 0; 24; 0; 0; 0; 0; 0; 0; 0;
   0; 0; 16; 0; 0; 0; 0; 0; 0; 0; 0; 1; 0; 0; 0; 0; 1; 0; 0; 0; 0; 0; 0; 0;
   8; 0; 0; 0; 32; 0; 0; 0; 0; 0; 0; 253; 0; 0; 0; 0; 0; 16; 0; 0; 0; 4; 0; 0; 0; 3; 0; 0; 32; 2; 0; 0;
   0; 0; 0; 0; 8; 0; 0; 0].
Definition demo_mem (a : Z) : Z := if 65536 <=? a then cget demo_info_bytes (a - 65536) else 0.
Definition demo_tags : list (Z * list Z) := [(65544, [65560]); (65584, [])].

Lemma demo_mem_byte a : 0 ≤ demo_mem a < 256.
Proof.
  unfold demo_mem. destruct (_ <=? _); [|lia]. unfold cget. destruct (demo_info_bytes !! _) as [c|] eqn:E; [|done].
  cbn. apply list_elem_of_lookup_2 in E. revert c E. apply Forall_forall. by repeat constructor.
Qed.

Lemma demo_boot_info : boot_info demo_mem (mb2_first_tag 65536) demo_tags.
Proof.
  change (mb2_first_tag 65536) with 65544. apply info_mmap.
  - reflexivity.
  - apply entry_more; [reflexivity|]. apply entry_end_. vm_compute. done.
  - change (mb2_next_tag demo_mem 65544) with 65584. apply info_other; [vm_compute; done|vm_compute; done|].
    change (mb2_next_tag demo_mem 65584) with 65616. apply info_end. reflexivity.
Qed.

Lemma memmap_parse_spec_witness :
  ∃ s, memmap_parse demo_mem 8 1048576 2097152 65536 pmm_zero = Some (s, first_framebuffer demo_mem demo_tags) ∧
    (frame_free s 600 ↔ 0 ≤ 600 < 262144 ∧ Exists (λ e, covers demo_mem e 600) (all_entries demo_tags) ∧
      Forall (λ r, ¬ meets r 600) (reserved_regions demo_mem 1048576 2097152 65536 ++ [(PMM_BITMAP_PHYS_BASE, bitmap_bytes s)])) ∧
    test_frame s 600 = false ∧ test_frame s 300 = true ∧ fb_width <$> first_framebuffer demo_mem demo_tags = Some 1024.
Proof.
  destruct (memmap_parse_spec demo_mem 1048576 2097152 65536 demo_tags 8 pmm_zero demo_mem_byte ltac:(done) ltac:(done)
    demo_boot_info ltac:(split; [simpl; lia|repeat constructor; simpl; lia])) as (s & E & _ & H).
  exists s. split; [exact E|]. split; [exact (H 600)|].
  assert (Hs : Some s = fst <$> memmap_parse demo_mem 8 1048576 2097152 65536 pmm_zero) by (by rewrite E).
  vm_compute in Hs. injection Hs as ->. split; [|split]; vm_compute; reflexivity.
Defined.
